(* ===== verification/_CoqProject ===== *)
-Q . S2P
Prelude.v
Pmm.v
Lzss.v
Heap.v
HeapSpec.v
CString.v
Printf.v
Net.v
Tcp.v
Block.v
Partition.v
Time.v
Boot.v
Sched.v
SchedQueue.v
SchedInv.v
SchedSafe.v
Extent.v
FsText.v
Fs.v
FsDisk.v
FsFile.v
FsInv.v
FsVol.v
FsOps.v
FsSpec.v
FsRead.v
FsMount.v
FsSafe.v
FsClaims.v
Sha.v
Aes.v
Ghash.v
Gcm.v
AesSpec.v
X25519.v
X25519Spec.v
Bytes.v
Elf.v
ElfSpec.v
ElfFile.v
NetPoll.v
Dns.v
Dhcp.v
Fat32.v
Fat32Spec.v
Pkg.v
PkgSpec.v
PkgFile.v
PkgZip.v
