(* ===== verification/Prelude.v ===== *)
(** * Minimal-OS: a verification development

    Minimal-OS is a freestanding x86-64 kernel in C. This library models the
    parts of it whose behaviour is decided by its own code, function by
    function, and proves what they promise to their callers. Paths below are
    relative to [src/src/] ([impl/] holds the C files, [intf/] the headers).

    ** The parts and how they interact

    Memory: [impl/pmm.c] hands out physical pages from a bitmap;
    [impl/kernel/allocator.c] is the kernel heap, a first-fit allocator whose
    block headers live in the heap's own bytes. Every other part takes its
    buffers from the heap.
    Text: [impl/string.c] has the C string and memory routines, a bounded
    string type and the printf family.
    Storage: [impl/storage/blockdev.c] keeps a table of disks and partitions
    and forwards sector I/O to drivers; [impl/storage/ramdisk.c] is one such
    driver; [impl/storage/partition.c] reads and writes MBR and GPT tables
    through that table and registers partitions in it;
    [impl/filesystem/minimafs.c] keeps files and directories on such a device
    in blocks of 4096 bytes, with textual descriptors;
    [impl/storage/fat32.c] builds the boot partition of an installation.
    Network: [impl/net/ethernet.c], [arp.c], [ip.c], [udp.c] and
    [net_checksum.c] carry frames up and down; [impl/net/tcp.c] is a TCP on
    top of them, written against an interface of the IP layer; [dns.c] and
    [dhcp.c] are clients of UDP that poll for their answers.
    Programs: [impl/loader/elfloader.c] builds the memory image of an ELF
    file, from a buffer or from a file of MinimaFS.
    Packages: [impl/compression/pkglib.c] packs files and directories of
    MinimaFS into archives and unpacks them; [lzss.c] is their codec.
    Time: [impl/time.c] and [impl/rtc.c] keep the calendar clock from the
    timer interrupt and the CMOS real-time clock.
    Boot: [impl/kernel/memlayout.c] and [impl/kernel/multiboot2parse.c] read
    the boot loader's tables: the heap region, the cache policy, the
    framebuffer, the command line.
    Processes: [impl/proc/scheduler.c] runs processes on the cores from
    per-core multi-level run queues; [impl/proc/proc.c] and
    [impl/handlers/prochandler.c] create, start, pause and kill them.
    Cryptography: [impl/kernel/kcrypto.c] has SHA-256 and AES-GCM;
    [impl/net/tls13.c] builds HMAC, HKDF and X25519 for its TLS client.

    ** Files

    - [Prelude.v] (this file): machine integers as wrapped [Z], the outcome
      monad for C code, byte memory, the shared tactics, hints and lemmas.
    - [Pmm.v]: [pmm.c]. State: record [pmm] (pool base, page count, bitmap
      words, lock, contents). One definition per function.
    - [Heap.v]: [allocator.c] over the raw bytes of the heap: headers,
      footers and free-list links are loads and stores. The invariant
      [heap_rep] ties the bytes to a list of blocks; [heap_ok] adds the
      statistics. [HeapSpec.v]: the contract, as theorems about the
      operations and as a refinement to a set of disjoint buffers.
    - [CString.v]: [string.c] over byte memory. [Printf.v]: formats as lists of
      pieces with their text, and that the printf family prints it.
    - [Lzss.v]: [lzss.c], encoder and decoder, with the hash-chain tables.
    - [Net.v]: [net.h], [net_checksum.c], [ethernet.c], [arp.c], [ip.c],
      [udp.c]; the state [net] holds the ARP cache, the UDP bindings, the
      configuration and the frames sent so far.
    - [Tcp.v]: [tcp.c] over the class [IpLayer], which states what TCP asks
      of the layer below; [Net.v] provides an instance.
    - [Block.v]: [blockdev.c] and [ramdisk.c]; the class [BlockDriver] states
      what a driver promises, the RAM disk is an instance.
    - [Partition.v]: [partition.c]; packed on-disk structs are records with
      byte encodings.
    - [Time.v]: [time.c], [rtc.c] and the CMOS helpers of
      [intf/x86_64/port.h].
    - [Boot.v]: [memlayout.c] and [multiboot2parse.c] over byte memory.
    - [Sched.v]: [scheduler.c] and the life cycle of [proc.c] and
      [prochandler.c]. State: record [sched] (process blocks by address, run
      queues, cores, global list). [SchedQueue.v]: the linked queues stand for
      FIFO lists. [SchedInv.v]: the invariant [inv] and what keeps it.
      [SchedSafe.v]: the operations over it, the system as a step relation
      ([op], [exec], [allowed], [reach]) and the theorems on its runs.
    - [Extent.v]: the block allocator of [minimafs.c], a sorted list of used
      extents ([taken] is the set it stands for). [FsText.v]: its on-disk
      texts (file headers, folder and storage descriptors) and paths.
    - [Fs.v]: every operation of [minimafs.c]. State: record [fsys] (drives,
      allocators, bounce buffers, file handles, the devices of [Block.v]); a
      state monad [fsM] over outcomes; what the heap answers and the date are
      the environment [env].
    - The proofs about it: [FsDisk.v] (a transfer of blocks is one of bytes),
      [FsFile.v] (the image of a file in its run), [FsInv.v] (the directory
      map [dirs] and which blocks it owns, [dirs_ok]), [FsVol.v] (the volume
      invariant [volume], frames [moved], placing and writing a file),
      [FsOps.v] (create, write, delete, mkdir, rmdir), [FsSpec.v] (the
      abstract operations [effect], their guards and the simulation),
      [FsRead.v] (open handles as views of a byte list), [FsMount.v] (format
      and mount), [FsSafe.v] (reading back, searching), [FsClaims.v] (the
      theorems, on a RAM disk as the concrete instance).
    - [Sha.v]: SHA-256 with its streaming context, HMAC and HKDF.
      [Aes.v]: AES-128, AES-256, GHASH with its 4-bit table, GCM.
      [Ghash.v]: the table method is multiplication in GF(2^128).
      [Gcm.v]: counter mode and tag as functions of a block cipher.
      [AesSpec.v]: the cipher of FIPS 197 and the theorems about GCM.
      [X25519.v]: the key exchange on limbs, with the value of each operation;
      [X25519Spec.v]: the ladder over the integers modulo p.
    - [Bytes.v]: little-endian numbers and checked accesses in a buffer of
      bytes. [Elf.v]: [elfloader.c] on the bytes of the file and of the image;
      [ElfSpec.v]: what an ELF file means, and that loading gives it;
      [ElfFile.v]: loading from the file system.
    - [Fat32.v]: [fat32.c] over the device table of [Block.v]. State: record
      [fat32_builder]. [Fat32Spec.v]: a reader that follows the FAT
      specification, the invariant [inv] of the build, and that the finished
      volume reads as the tree of the operations.
    - [Pkg.v]: [pkglib.c] over [Fs.v] and [Lzss.v], in the monad [fsM].
      [PkgSpec.v]: the archive as text, packing and unpacking of its entries,
      safe names, archives of any bytes. [PkgFile.v]: unpacking an archive
      that the volume holds; [PkgZip.v]: packing a file, and both together.
    - [NetPoll.v]: a UDP client that polls: the frames that wait go through
      [Net.v] and its handler runs on what [udp.c] hands it. [Dns.v]: [dns.c],
      with the messages of RFC 1035. [Dhcp.v]: [dhcp.c], with those of RFC
      2131 and 2132.

    ** Conventions

    A w-bit integer is a [Z] and every wrap-around is written out ([u8] to
    [u64], [i32], [i64]). A function that can panic, spin for ever or leave
    its object returns an [outcome]: [Panic] is the kernel's PANIC, [Hang] a
    loop that never ends, [Undef] an access out of bounds. Where a theorem
    says that a function returns, it shows [Ret], so those cases are excluded.
    State is passed explicitly. Loops that are not structural take fuel: the
    fuel is computed from the state by the calling definition (the number of
    pages, the bound on blocks, the length of a buffer, the number of
    sectors), or given by the caller where the C loop has no bound of its own
    ([findinfile], [minimafs_scan_directory]) or a recursion is bounded by a
    table ([pkg_zip_collect_dir], where seventeen is enough), and the theorems show that it is enough by showing [Ret].
    Locks are modelled as a flag: taking a held lock on one CPU is [Hang].
    The scheduler's operations are steps that the cores take in any order;
    each is one step, its locks being free again when it returns.

    ** What the theorems show

    Memory: page and block allocation refine "lowest free run" and "first
    fit" over abstract sets; the heap refines disjoint buffers under any
    sequence of well-behaved allocations, frees, resizes and writes, and never
    panics; misuse ends as the code says. Text: memory routines against their definitions, search, number
    round trip, the text that snprintf leaves in its buffer. Codec: decompress after compress is
    the identity; decompression of any bytes stays in bounds. Network:
    checksums the receiver accepts, delivery of a datagram end to end, TCP's
    stream reassembly, state diagram, handshake and accept order. Storage: the
    device table's invariant, exact reads, isolated writes, GPT store and
    load, free-space search, table creation, partition scan and add. Time: the
    clock shows the start plus the whole seconds of uptime under any sequence
    of ticks; setting, printing and parsing dates agree. Boot: the heap region
    is the best one, the cache policy marks exactly what is not RAM, reading
    the framebuffer and the command line is safe on any input. Processes: in
    every run under the guards of [allowed] no process is lost, none is in two
    places, no freed block is followed and every operation returns; what
    dispatch, wake-up, boost and rebalance do; and runs outside the guards
    that end in a use after free or lose a process. File system: the block
    allocator is first fit on a set and its runs are exclusive; headers and
    descriptors are read back; formatting and mounting give a sound volume;
    each operation, and any sequence of them, simulates the abstract operation
    on the directory map, refuses only without a free run and keeps the blocks
    of other files; a file written is read back at any place, streamed or
    loaded; a text that is in a file is found, one that is not hangs the
    search. Cryptography: streaming equals one-shot hashing; HKDF is that of
    RFC 5869; the ciphers equal their standards' definitions; decryption undoes
    encryption and accepts only its tag; X25519 never overflows and gives the
    value of RFC 7748's ladder. Programs: loading an ELF file gives the image
    that its headers and relocations describe, or refuses, and gives the file
    buffer back once; the accesses that the loader does not test are shown to
    leave its buffers. A FAT32
    volume that was built reads, by the rules of its specification, as the
    tree that was asked for. Packages: what is packed is unpacked, in memory and
    through the file system; an archive of any bytes is read within its
    bounds; no accepted name leads out of the target; the walk over the
    directories of a mounted drive ends whatever the disk holds, loops
    included. Clients: a DHCP message with any options, and a DNS answer whose
    owner names are whole or lone pointers, are read as their RFCs say; a DNS
    name of labels and a pointer is misread. No datagram makes the DHCP client
    read outside of it, some make the DNS client do so; a name is resolved and
    a lease acquired when a server answers in any round before the time-out,
    with every frame the DHCP client sends accounted for. The file system's
    theorems assume that the heap has memory, that names fit their fields,
    that folders have room and that contents hold no header tag ([roomy],
    [guard], [storable]).

    ** Not modelled

    Drivers for real hardware (AHCI, NVMe, network cards, USB, audio, GPU,
    Hyper-V), descriptor tables, interrupt controllers and SMP start-up: their
    behaviour is the hardware's. The console, the graphics and window code and
    the shell commands: output and glue. The TLS handshake and the time
    synchronisation over it, user threads and the dispatch of system calls:
    they wire the modelled parts to peers, timers and user memory. Serial diagnostics of the modelled
    files. Concurrency between CPUs inside one operation: the modelled code
    runs under its locks, one call at a time. Context switches (assembly): the
    scheduler's model changes what a core runs and ends the operation there.
    What of the modelled files is left out is said in the head of each file
    and in the manifest. Of MinimaFS every operation is modelled; no theorem
    speaks of appending, of writing through a handle and closing it, or of
    mounting a volume that was not just formatted. Of the package library
    every function is modelled; the theorems about a volume unpack archives
    of files, not of directories that have to be made. *)

From Stdlib Require Export ZArith Lia.
From stdpp Require Export base list numbers gmap strings.

#[global] Open Scope Z_scope.

(** ** Machine integers

    A C value of width w is a [Z]; every arithmetic result is brought back
    into range by the wrapping functions below, exactly where the C
    expression is converted or overflows. *)

Definition u8 (x : Z) : Z := x mod 256.
Definition u16 (x : Z) : Z := x mod 65536.
Definition u32 (x : Z) : Z := x mod 4294967296.
Definition u64 (x : Z) : Z := x mod 18446744073709551616.

(** Conversion to a signed 32/64-bit integer (two's complement). *)
Definition i32 (x : Z) : Z :=
  if u32 x <? 2147483648 then u32 x else u32 x - 4294967296.
Definition i64 (x : Z) : Z :=
  if u64 x <? 9223372036854775808 then u64 x else u64 x - 18446744073709551616.

Definition is_u8 (x : Z) : Prop := 0 ≤ x < 256.
Definition is_u16 (x : Z) : Prop := 0 ≤ x < 65536.
Definition is_u32 (x : Z) : Prop := 0 ≤ x < 4294967296.
Definition is_u64 (x : Z) : Prop := 0 ≤ x < 18446744073709551616.

(** Unfold the wrapping functions and let [lia] see [mod] and [/]. *)
Ltac wrap_lia :=
  unfold i32, i64, u8, u16, u32, u64, is_u8, is_u16, is_u32, is_u64 in *;
  repeat match goal with
         | |- context [Z.ltb ?a ?b] => destruct (Z.ltb_spec a b)
         | H : context [Z.ltb ?a ?b] |- _ => destruct (Z.ltb_spec a b)
         end;
  Z.div_mod_to_equations; lia.

(** Turn every boolean comparison among the hypotheses and in the goal into
    the proposition it decides. *)
Ltac bool_to_prop :=
  repeat match goal with
  | H : (_ && _)%bool = true |- _ => apply andb_prop in H as [? ?]
  | H : (_ || _)%bool = false |- _ => apply orb_false_elim in H as [? ?]
  | H : negb _ = true |- _ => apply negb_true_iff in H
  | H : negb _ = false |- _ => apply negb_false_iff in H
  | H : (_ =? _) = true |- _ => apply Z.eqb_eq in H
  | H : (_ =? _) = false |- _ => apply Z.eqb_neq in H
  | H : (_ <? _) = true |- _ => apply Z.ltb_lt in H
  | H : (_ <? _) = false |- _ => apply Z.ltb_ge in H
  | H : (_ <=? _) = true |- _ => apply Z.leb_le in H
  | H : (_ <=? _) = false |- _ => apply Z.leb_gt in H
  end.

(** Case analysis on the scrutinee of an [if]/[match] of the goal or of a
    hypothesis, keeping the equation, then arithmetic. *)
Ltac case_if :=
  match goal with
  | |- context [if ?b then _ else _] => destruct b eqn:?
  | H : context [if ?b then _ else _] |- _ => destruct b eqn:?
  end.

Lemma u8_small x : is_u8 x → u8 x = x.
Proof. unfold is_u8, u8. intros. by rewrite Z.mod_small. Qed.
Lemma u16_small x : is_u16 x → u16 x = x.
Proof. unfold is_u16, u16. intros. by rewrite Z.mod_small. Qed.
Lemma u32_small x : is_u32 x → u32 x = x.
Proof. unfold is_u32, u32. intros. by rewrite Z.mod_small. Qed.
Lemma u64_small x : is_u64 x → u64 x = x.
Proof. unfold is_u64, u64. intros. by rewrite Z.mod_small. Qed.

Lemma u8_range x : is_u8 (u8 x).
Proof. unfold is_u8, u8. apply Z.mod_pos_bound. lia. Qed.
Lemma u16_range x : is_u16 (u16 x).
Proof. unfold is_u16, u16. apply Z.mod_pos_bound. lia. Qed.
Lemma u32_range x : is_u32 (u32 x).
Proof. unfold is_u32, u32. apply Z.mod_pos_bound. lia. Qed.
Lemma u64_range x : is_u64 (u64 x).
Proof. unfold is_u64, u64. apply Z.mod_pos_bound. lia. Qed.

Create HintDb cint discriminated.
#[export] Hint Resolve u8_range u16_range u32_range u64_range : cint.

(** Rounding to a power of two by masking, as in [(x + m) & ~m]. *)
Lemma land_ones_mod x k : 0 ≤ k → Z.land x (2 ^ k - 1) = x mod 2 ^ k.
Proof. intros. rewrite <- Z.land_ones by lia. rewrite Z.ones_equiv. f_equal. Qed.

Lemma land_pow2_testbit x k :
  0 ≤ k → (Z.land x (Z.shiftl 1 k) =? 0) = negb (Z.testbit x k).
Proof.
  intros Hk. rewrite Z.shiftl_1_l.
  destruct (Z.testbit x k) eqn:Hb; simpl.
  - apply Z.eqb_neq. intros H0.
    assert (Z.testbit (Z.land x (2 ^ k)) k = true) as Ht.
    { rewrite Z.land_spec, Hb, Z.pow2_bits_true by lia. done. }
    rewrite H0, Z.testbit_0_l in Ht. done.
  - apply Z.eqb_eq. apply Z.bits_inj'. intros n Hn.
    rewrite Z.land_spec, Z.testbit_0_l, Z.pow2_bits_eqb by lia.
    destruct (Z.eqb_spec k n); subst; rewrite ?Hb, ?andb_false_r; done.
Qed.

(** ** Outcomes of C code

    [Ret] is a normal return, [Panic] a call of the kernel's PANIC macro
    (which does not return), [Hang] a spin that can never end (a lock taken
    twice on one CPU), [Undef] an access outside its object. *)
Inductive outcome (A : Type) : Type :=
| Ret (a : A)
| Panic
| Hang
| Undef.
Arguments Ret {A} a.
Arguments Panic {A}.
Arguments Hang {A}.
Arguments Undef {A}.

Definition obind {A B : Type} (o : outcome A) (k : A → outcome B) : outcome B :=
  match o with
  | Ret a => k a
  | Panic => Panic
  | Hang => Hang
  | Undef => Undef
  end.

(** Array access: reading or writing out of range is [Undef]. *)
Definition oget {A : Type} (l : list A) (i : Z) : outcome A :=
  if i <? 0 then Undef
  else match l !! Z.to_nat i with Some x => Ret x | None => Undef end.

Definition oset {A : Type} (l : list A) (i : Z) (x : A) : outcome (list A) :=
  if (0 <=? i) && (i <? Z.of_nat (length l)) then Ret (<[Z.to_nat i := x]> l)
  else Undef.

Declare Scope c_scope.
Delimit Scope c_scope with c.
Notation "'let*' p := m 'in' k" := (obind m (λ p, k))
  (at level 10, p pattern, m at level 200, k at level 200,
   format "'[v' 'let*'  p  :=  m  'in'  '/' k ']'") : c_scope.
Notation "m ;;; k" := (obind m (λ _, k))
  (at level 100, right associativity) : c_scope.

Lemma obind_ret_inv {A B} (o : outcome A) (k : A → outcome B) b :
  obind o k = Ret b → ∃ a, o = Ret a ∧ k a = Ret b.
Proof. destruct o; simpl; intros; try discriminate. eauto. Qed.

(** Invert a chain of binds that returned. *)
Ltac inv_ret :=
  repeat match goal with
  | H : obind _ _ = Ret _ |- _ =>
      apply obind_ret_inv in H; destruct H as (? & ? & H); simpl in H
  | H : Ret _ = Ret _ |- _ => injection H as H; subst
  | H : Panic = Ret _ |- _ => discriminate
  | H : Hang = Ret _ |- _ => discriminate
  | H : Undef = Ret _ |- _ => discriminate
  | p : (_ * _)%type |- _ => destruct p
  end; simpl in *.

Lemma oget_ret {A} (l : list A) i x :
  oget l i = Ret x ↔ 0 ≤ i ∧ l !! Z.to_nat i = Some x.
Proof.
  unfold oget. destruct (Z.ltb_spec i 0); [split; [done|lia]|].
  destruct (l !! Z.to_nat i) eqn:?; split; intros; try naive_solver.
Qed.

Lemma oget_is_ret {A} (l : list A) i :
  0 ≤ i < Z.of_nat (length l) → ∃ x, oget l i = Ret x ∧ l !! Z.to_nat i = Some x.
Proof.
  intros. destruct (lookup_lt_is_Some_2 l (Z.to_nat i)) as [x Hx]; [lia|].
  exists x. split; [apply oget_ret; split; [lia|done]|done].
Qed.

Lemma oset_ret {A} (l : list A) i x l' :
  oset l i x = Ret l' ↔ 0 ≤ i < Z.of_nat (length l) ∧ l' = <[Z.to_nat i := x]> l.
Proof.
  unfold oset. destruct (Z.leb_spec 0 i), (Z.ltb_spec i (Z.of_nat (length l)));
    simpl; split; intros; try naive_solver lia.
Qed.

Lemma oset_in {A} (l : list A) i x :
  0 ≤ i < Z.of_nat (length l) → oset l i x = Ret (<[Z.to_nat i := x]> l).
Proof. intros. by apply oset_ret. Qed.

Lemma oget_in {A} (l : list A) i x :
  0 ≤ i → l !! Z.to_nat i = Some x → oget l i = Ret x.
Proof. intros. by apply oget_ret. Qed.

(** ** Byte memory

    A region of memory is a function from addresses to byte values; a store
    is a pointwise update. [mfill] is what [memset] leaves behind. *)
Definition mfill (m : Z → Z) (a n c : Z) : Z → Z :=
  λ x, if (a <=? x) && (x <? a + n) then c else m x.

Lemma mfill_in m a n c x : a ≤ x < a + n → mfill m a n c x = c.
Proof.
  intros. unfold mfill.
  by rewrite (proj2 (Z.leb_le _ _)), (proj2 (Z.ltb_lt _ _)) by lia.
Qed.

Lemma mfill_out m a n c x : x < a ∨ a + n ≤ x → mfill m a n c x = m x.
Proof.
  intros. unfold mfill.
  destruct (Z.leb_spec a x), (Z.ltb_spec x (a + n)); simpl; try done; lia.
Qed.

(** ** Facts about bits of small values *)

(** A boolean property of bytes is proved by trying all 256. *)
Lemma byte_forall (P : Z → bool) :
  forallb P (seqZ 0 256) = true → ∀ x, is_u8 x → P x = true.
Proof.
  intros HP x Hx. rewrite forallb_forall in HP. apply HP.
  apply list_elem_of_In, elem_of_seqZ. unfold is_u8 in Hx. lia.
Qed.

Lemma shiftl_lor_add a b k :
  0 ≤ k → 0 ≤ b < 2 ^ k → Z.lor (Z.shiftl a k) b = a * 2 ^ k + b.
Proof.
  intros Hk Hb. rewrite <- Z.shiftl_mul_pow2 by lia.
  symmetry. apply Z.add_nocarry_lor.
  apply Z.bits_inj'. intros n Hn. rewrite Z.land_spec, Z.testbit_0_l.
  destruct (Z.ltb_spec n k) as [Hlt|Hge].
  - by rewrite Z.shiftl_spec_low by lia.
  - rewrite <- (Z.mod_small b (2 ^ k)), Z.mod_pow2_bits_high by lia. apply andb_false_r.
Qed.

(** Masking the low [k] bits of a 64-bit value away. *)
Lemma mask_pow2 x k :
  0 ≤ k ≤ 64 → 0 ≤ x < 2 ^ 64 → Z.land x (u64 (Z.lnot (2 ^ k - 1))) = x / 2 ^ k * 2 ^ k.
Proof.
  intros Hk Hx. assert (u64 (Z.lnot (2 ^ k - 1)) = Z.shiftl (Z.ones (64 - k)) k) as ->.
  { unfold u64, Z.lnot. change 18446744073709551616 with (2 ^ 64).
    rewrite Z.shiftl_mul_pow2, Z.ones_equiv by lia.
    replace (Z.pred (2 ^ (64 - k)) * 2 ^ k) with (2 ^ (64 - k + k) - 2 ^ k)
      by (rewrite Z.pow_add_r by lia; lia).
    replace (64 - k + k) with 64 by lia.
    assert (0 < 2 ^ k) by (apply Z.pow_pos_nonneg; lia).
    assert (2 ^ k ≤ 2 ^ 64) by (apply Z.pow_le_mono_r; lia).
    symmetry. apply (Z.mod_unique_pos _ _ (-1)); lia. }
  rewrite <- Z.shiftl_mul_pow2, <- Z.shiftr_div_pow2 by lia.
  apply Z.bits_inj'. intros n Hn. rewrite Z.land_spec.
  destruct (Z.ltb_spec n k); [by rewrite !Z.shiftl_spec_low, andb_false_r by lia|].
  rewrite !Z.shiftl_spec_high, Z.shiftr_spec by lia. replace (n - k + k) with n by lia.
  destruct (Z.ltb_spec (n - k) (64 - k)); [rewrite Z.ones_spec_low by lia; apply andb_true_r|].
  rewrite Z.ones_spec_high, andb_false_r by lia. symmetry.
  rewrite <- (Z.mod_small x (2 ^ 64)) by lia. apply Z.mod_pow2_bits_high. lia.
Qed.

(** The bytes of a string literal. *)
Definition txt (s : string) : list Z := (λ c, Z.of_N (Ascii.N_of_ascii c)) <$> String.list_ascii_of_string s.

(** Little-endian loads and stores of [n] bytes. *)
Fixpoint mload (n : nat) (m : Z → Z) (a : Z) : Z :=
  match n with
  | O => 0
  | S n' => m a + 256 * mload n' m (a + 1)
  end.

Definition mstore (n : nat) (m : Z → Z) (a v : Z) : Z → Z :=
  λ x, if (a <=? x) && (x <? a + Z.of_nat n) then (v / 256 ^ (x - a)) mod 256 else m x.

Abbreviation load8 m a := (mload 1 m a).
Abbreviation load32 m a := (mload 4 m a).
Abbreviation load64 m a := (mload 8 m a).
Abbreviation store8 m a v := (mstore 1 m a v).
Abbreviation store32 m a v := (mstore 4 m a v).
Abbreviation store64 m a v := (mstore 8 m a v).

Lemma mstore_out n m a v x : x < a ∨ a + Z.of_nat n ≤ x → mstore n m a v x = m x.
Proof.
  intros. unfold mstore.
  destruct (Z.leb_spec a x), (Z.ltb_spec x (a + Z.of_nat n)); simpl; try done; lia.
Qed.

Lemma mload_ext n m m' a :
  (∀ x, a ≤ x < a + Z.of_nat n → m x = m' x) → mload n m a = mload n m' a.
Proof.
  revert a. induction n as [|n IH]; intros a H; simpl; [done|].
  rewrite (H a) by lia. rewrite (IH (a + 1)); [done|]. intros x Hx. apply H. lia.
Qed.

Lemma mload_mstore_other n k m a b v :
  b + Z.of_nat k ≤ a ∨ a + Z.of_nat n ≤ b → mload n (mstore k m b v) a = mload n m a.
Proof. intros H. apply mload_ext. intros x Hx. apply mstore_out. lia. Qed.

Lemma mload_mfill_other n m a b len c :
  b + len ≤ a ∨ a + Z.of_nat n ≤ b → mload n (mfill m b len c) a = mload n m a.
Proof. intros H. apply mload_ext. intros x Hx. apply mfill_out. lia. Qed.

Lemma mload_mstore_gen n m a v : ∀ d k,
  (d + n = k)%nat →
  mload n (mstore k m a v) (a + Z.of_nat d) =
  (v / 256 ^ Z.of_nat d) mod 256 ^ Z.of_nat n.
Proof.
  induction n as [|n IH]; intros d k Hk; simpl.
  - by rewrite Z.mod_1_r.
  - replace (a + Z.of_nat d + 1) with (a + Z.of_nat (S d)) by lia.
    rewrite (IH (S d) k) by lia. unfold mstore at 1.
    rewrite (proj2 (Z.leb_le _ _)), (proj2 (Z.ltb_lt _ _)) by lia. simpl.
    replace (a + Z.of_nat d - a) with (Z.of_nat d) by lia.
    replace (Z.of_nat (S d)) with (Z.of_nat d + 1) by lia.
    replace (Z.of_nat (S n)) with (1 + Z.of_nat n) by lia.
    rewrite !Z.pow_add_r, <- Z.div_div, (Z.rem_mul_r _ (256 ^ 1)) by (lia || apply Z.pow_nonzero; lia).
    done.
Qed.

Lemma mload_mstore_same n m a v :
  0 ≤ v < 256 ^ Z.of_nat n → mload n (mstore n m a v) a = v.
Proof.
  intros Hv. replace (mload n (mstore n m a v) a)
    with (mload n (mstore n m a v) (a + Z.of_nat 0)) by (f_equal; lia).
  rewrite (mload_mstore_gen n m a v 0 n) by lia.
  change (256 ^ Z.of_nat 0) with 1. rewrite Z.div_1_r. by apply Z.mod_small.
Qed.

Arguments mload : simpl never.
Arguments mstore : simpl never.
Arguments mfill : simpl never.

(** Evaluate loads over stores and fills, deciding overlap with [lia]. *)
Ltac mem_simp :=
  repeat first
    [ rewrite mload_mstore_same by (change (Z.of_nat 8) with 8; change (Z.of_nat 4) with 4;
                                    change (Z.of_nat 1) with 1; lia)
    | rewrite mload_mstore_other by lia
    | rewrite mload_mfill_other by lia ].

(** The same for single bytes that no store touches. *)
Ltac mem_frame := repeat first [ rewrite mstore_out by lia | rewrite mfill_out by lia ].
