(* ===== verification/Pmm.v ===== *)
(** * The physical page manager ([src/impl/pmm.c])

    A bitmap with one bit per 4 KiB page (1 = used), first-fit search for a
    contiguous run, zeroing on allocation and 0xCC scrubbing on release.
    [pmm] is the file's static state together with the bytes of the pool;
    [wf] is its invariant; [used_set] the abstraction to a set of page
    indices against which every operation is specified. *)

From S2P Require Import Prelude.

Open Scope c_scope.

Definition PAGE_SIZE : Z := 4096.
Definition PMM_MAX_PAGES : Z := 16384.
Definition BITMAP_WORDS : Z := 256.

(** The static variables of pmm.c, with the memory the pool covers. *)
Record pmm := mk_pmm {
  page_pool_base : Z;
  page_pool_pages : Z;
  page_bitmap : list Z;
  pmm_spin : bool;
  pool_mem : Z → Z
}.

Definition set_bitmap (b : list Z) (st : pmm) : pmm :=
  mk_pmm (page_pool_base st) (page_pool_pages st) b (pmm_spin st) (pool_mem st).
Definition set_spin (s : bool) (st : pmm) : pmm :=
  mk_pmm (page_pool_base st) (page_pool_pages st) (page_bitmap st) s (pool_mem st).
Definition set_mem (m : Z → Z) (st : pmm) : pmm :=
  mk_pmm (page_pool_base st) (page_pool_pages st) (page_bitmap st) (pmm_spin st) m.

(** Taking the lock while it is held spins forever on one CPU. *)
Definition pmm_lock (st : pmm) : outcome pmm :=
  if pmm_spin st then Hang else Ret (set_spin true st).
Definition pmm_unlock (st : pmm) : pmm := set_spin false st.

Definition pmm_mark_used (bm : list Z) (idx : Z) : outcome (list Z) :=
  let* w := oget bm (idx / 64) in
  oset bm (idx / 64) (Z.lor w (Z.shiftl 1 (idx mod 64))).

Definition pmm_mark_free (bm : list Z) (idx : Z) : outcome (list Z) :=
  let* w := oget bm (idx / 64) in
  oset bm (idx / 64) (Z.land w (Z.lnot (Z.shiftl 1 (idx mod 64)))).

Definition pmm_is_free (bm : list Z) (idx : Z) : outcome bool :=
  let* w := oget bm (idx / 64) in
  Ret (Z.land w (Z.shiftl 1 (idx mod 64)) =? 0).

Definition pmm_idx_to_ptr (st : pmm) (idx : Z) : Z :=
  u64 (page_pool_base st + idx * PAGE_SIZE).

(** Page index of a pointer, [PMM_MAX_PAGES] when it is not a page of the pool. *)
Definition pmm_ptr_to_idx (st : pmm) (addr : Z) : Z :=
  if addr <? page_pool_base st then PMM_MAX_PAGES
  else let idx := (addr - page_pool_base st) / PAGE_SIZE in
    if page_pool_pages st <=? idx then PMM_MAX_PAGES
    else if negb ((addr - page_pool_base st) mod PAGE_SIZE =? 0) then PMM_MAX_PAGES
    else idx.

Definition pmm_init (base size : Z) (st : pmm) : outcome pmm :=
  if negb (Z.land base (PAGE_SIZE - 1) =? 0) then Panic
  else if PMM_MAX_PAGES <? size / PAGE_SIZE then Panic
  else Ret (mk_pmm base (size / PAGE_SIZE)
              (replicate (Z.to_nat BITMAP_WORDS) 0) false (pool_mem st)).

(** The search loop of [pmm_try_alloc_pages_zeroed]: [n] iterations left,
    at page [i], with the run found so far; the result is the pair
    ([run_start], [run_len]) when the loop ends or breaks. *)
Fixpoint find_run (n : nat) (bm : list Z) (count i run_start run_len : Z)
  : outcome (Z * Z) :=
  match n with
  | O => Ret (run_start, run_len)
  | S n' =>
      let* f := pmm_is_free bm i in
      if f then
        let run_start := if run_len =? 0 then i else run_start in
        if run_len + 1 =? count then Ret (run_start, run_len + 1)
        else find_run n' bm count (i + 1) run_start (run_len + 1)
      else find_run n' bm count (i + 1) PMM_MAX_PAGES 0
  end.

(** [for (i = run_start; i < run_start + count; i++) pmm_mark_used(i);] *)
Fixpoint mark_run (n : nat) (bm : list Z) (i : Z) : outcome (list Z) :=
  match n with
  | O => Ret bm
  | S n' => let* bm' := pmm_mark_used bm i in mark_run n' bm' (i + 1)
  end.

(** Returns the address of the first page, 0 for NULL. [rsp] is the stack
    pointer the function reads. *)
Definition pmm_try_alloc_pages_zeroed (rsp count : Z) (st : pmm)
  : outcome (Z * pmm) :=
  if (count =? 0) || (page_pool_pages st <? count) then Ret (0, st)
  else
    let* st := pmm_lock st in
    let* (run_start, run_len) :=
      find_run (Z.to_nat (page_pool_pages st)) (page_bitmap st) count 0 PMM_MAX_PAGES 0 in
    if (run_len <? count) || (run_start =? PMM_MAX_PAGES) then Ret (0, pmm_unlock st)
    else
      let page_start := u64 (page_pool_base st + run_start * PAGE_SIZE) in
      let page_end := u64 (page_start + count * PAGE_SIZE) in
      if (page_start <=? rsp) && (rsp <? page_end) then Ret (0, pmm_unlock st)
      else
        let* bm := mark_run (Z.to_nat count) (page_bitmap st) run_start in
        let st := set_bitmap bm st in
        let pages := pmm_idx_to_ptr st run_start in
        let st := pmm_unlock st in
        Ret (pages, set_mem (mfill (pool_mem st) pages (count * PAGE_SIZE) 0) st).

Definition alloc_page_zeroed (rsp : Z) (st : pmm) : outcome (Z * pmm) :=
  let* (page, st) := pmm_try_alloc_pages_zeroed rsp 1 st in
  if page =? 0 then Panic else Ret (page, st).

Definition alloc_pages_zeroed (rsp count : Z) (st : pmm) : outcome (Z * pmm) :=
  if count =? 0 then Ret (0, st)
  else
    let* (pages, st) := pmm_try_alloc_pages_zeroed rsp count st in
    if pages =? 0 then Panic else Ret (pages, st).

Definition free_page (page : Z) (st : pmm) : outcome pmm :=
  if page =? 0 then Ret st
  else
    let idx := pmm_ptr_to_idx st page in
    if idx =? PMM_MAX_PAGES then Ret st
    else
      let* st := pmm_lock st in
      let* f := pmm_is_free (page_bitmap st) idx in
      if f then Ret (pmm_unlock st)
      else
        let st := set_mem (mfill (pool_mem st) page PAGE_SIZE 204) st in
        let* bm := pmm_mark_free (page_bitmap st) idx in
        Ret (pmm_unlock (set_bitmap bm st)).

Fixpoint free_pages_loop (n : nat) (base i : Z) (st : pmm) : outcome pmm :=
  match n with
  | O => Ret st
  | S n' =>
      let* st := free_page (u64 (base + i * PAGE_SIZE)) st in
      free_pages_loop n' base (i + 1) st
  end.

Definition free_pages (base count : Z) (st : pmm) : outcome pmm :=
  if (base =? 0) || (count =? 0) then Ret st
  else free_pages_loop (Z.to_nat count) base 0 st.

Fixpoint count_free (n : nat) (bm : list Z) (i free : Z) : outcome Z :=
  match n with
  | O => Ret free
  | S n' =>
      let* f := pmm_is_free bm i in
      count_free n' bm (i + 1) (if f then free + 1 else free)
  end.

Definition pmm_free_pages (st : pmm) : outcome (Z * pmm) :=
  let* st := pmm_lock st in
  let* free := count_free (Z.to_nat (page_pool_pages st)) (page_bitmap st) 0 0 in
  Ret (free, pmm_unlock st).

Definition pmm_used_pages (st : pmm) : outcome (Z * pmm) :=
  let* (free, st') := pmm_free_pages st in
  Ret (u64 (page_pool_pages st - free), st').

Fixpoint free_simple_loop (n : nat) (ptr i : Z) (st : pmm) : outcome pmm :=
  match n with
  | O => Ret st
  | S n' =>
      let* st := free_page (u64 (ptr + u32 (i * 4096))) st in
      free_simple_loop n' ptr (i + 1) st
  end.

(** The loop of [alloc_pages_zeroed_simple]: one page at a time from page
    [i]; when a page cannot be had, the pages [0 .. i) counted from [first]
    are freed and NULL is returned. *)
Fixpoint simple_loop (n : nat) (rsp first i : Z) (st : pmm) : outcome (Z * pmm) :=
  match n with
  | O => Ret (first, st)
  | S n' =>
      let* (next, st) := alloc_page_zeroed rsp st in
      if next =? 0 then
        let* st := free_simple_loop (Z.to_nat i) first 0 st in Ret (0, st)
      else simple_loop n' rsp first (i + 1) st
  end.

Definition alloc_pages_zeroed_simple (rsp num_pages : Z) (st : pmm) : outcome (Z * pmm) :=
  if num_pages =? 0 then Ret (0, st)
  else
    let* (first, st) := alloc_page_zeroed rsp st in
    if first =? 0 then Ret (0, st)
    else simple_loop (Z.to_nat (num_pages - 1)) rsp first 1 st.

Definition free_pages_simple (ptr num_pages : Z) (st : pmm) : outcome pmm :=
  if (ptr =? 0) || (num_pages =? 0) then Ret st
  else free_simple_loop (Z.to_nat num_pages) ptr 0 st.

(** ** Invariant and abstraction *)

Definition page_used (bm : list Z) (i : Z) : bool :=
  match bm !! Z.to_nat (i / 64) with
  | Some w => Z.testbit w (i mod 64)
  | None => true
  end.

Record wf (st : pmm) : Prop := {
  wf_aligned : page_pool_base st mod PAGE_SIZE = 0;
  wf_base : 0 < page_pool_base st;
  wf_pages : 0 ≤ page_pool_pages st ≤ PMM_MAX_PAGES;
  wf_end : page_pool_base st + page_pool_pages st * PAGE_SIZE < 2 ^ 64;
  wf_bitmap : length (page_bitmap st) = Z.to_nat BITMAP_WORDS;
  wf_unlocked : pmm_spin st = false
}.

Definition used_set (st : pmm) : gset Z :=
  list_to_set (filter (λ i, page_used (page_bitmap st) i = true)
                 (seqZ 0 (page_pool_pages st))).

Definition page_range (s n : Z) : gset Z := list_to_set (seqZ s n).

(** No page of [s, s+n) is in [U]. *)
Definition run_free (U : gset Z) (s n : Z) : Prop :=
  ∀ k, s ≤ k < s + n → k ∉ U.

(** What the allocator promises: the lowest free run, or none. *)
Inductive spec_alloc (pages : Z) (U : gset Z) (n : Z) : option Z → gset Z → Prop :=
| spec_alloc_some s :
    0 ≤ s → s + n ≤ pages → run_free U s n →
    (∀ s', 0 ≤ s' < s → ¬ run_free U s' n) →
    spec_alloc pages U n (Some s) (U ∪ page_range s n)
| spec_alloc_none :
    (∀ s, 0 ≤ s → s + n ≤ pages → ¬ run_free U s n) →
    spec_alloc pages U n None U.

(** ** Bitmap lemmas *)

Lemma word_index i : 0 ≤ i < PMM_MAX_PAGES → 0 ≤ i / 64 < 256 ∧ 0 ≤ i mod 64 < 64.
Proof. unfold PMM_MAX_PAGES. intros. Z.div_mod_to_equations. lia. Qed.

Lemma page_used_lookup bm i w :
  bm !! Z.to_nat (i / 64) = Some w → page_used bm i = Z.testbit w (i mod 64).
Proof. unfold page_used. by intros ->. Qed.

Section bitmap.
Context (bm : list Z) (Hlen : length bm = Z.to_nat BITMAP_WORDS).

Lemma pmm_is_free_spec i :
  0 ≤ i < PMM_MAX_PAGES → pmm_is_free bm i = Ret (negb (page_used bm i)).
Proof.
  intros Hi. pose proof (word_index i Hi) as [Hw Hb].
  destruct (oget_is_ret bm (i / 64)) as (w & Hg & Hl); [rewrite Hlen; unfold BITMAP_WORDS; lia|].
  unfold pmm_is_free. rewrite Hg. simpl.
  by rewrite land_pow2_testbit, (page_used_lookup _ _ _ Hl) by lia.
Qed.

(** Changing the word of page [i] with [f] changes the bit of page [i] only,
    when [f] changes bit [i mod 64] only. *)
Lemma bitmap_update i (f : Z → Z) (b : bool) :
  0 ≤ i < PMM_MAX_PAGES →
  (∀ w k, 0 ≤ k < 64 → Z.testbit (f w) k = if k =? i mod 64 then b else Z.testbit w k) →
  ∃ bm', (let* w := oget bm (i / 64) in oset bm (i / 64) (f w)) = Ret bm' ∧
    length bm' = length bm ∧
    ∀ j, 0 ≤ j < PMM_MAX_PAGES →
      page_used bm' j = if j =? i then b else page_used bm j.
Proof.
  intros Hi Hf. pose proof (word_index i Hi) as [Hw Hb].
  destruct (oget_is_ret bm (i / 64)) as (w & Hg & Hl); [rewrite Hlen; unfold BITMAP_WORDS; lia|].
  eexists. rewrite Hg. simpl. split; [|split].
  - apply oset_ret. split; [rewrite Hlen; unfold BITMAP_WORDS; lia|done].
  - by rewrite length_insert.
  - intros j Hj. pose proof (word_index j Hj) as [Hwj Hbj].
    destruct (Z.eq_dec (j / 64) (i / 64)) as [E|E].
    + erewrite (page_used_lookup (<[_:=_]> bm)); [|rewrite E; apply list_lookup_insert_eq;
        rewrite Hlen; unfold BITMAP_WORDS; lia].
      rewrite Hf by lia. rewrite (page_used_lookup bm j w) by by rewrite E.
      destruct (Z.eqb_spec j i) as [->|Hne]; [by rewrite Z.eqb_refl|].
      destruct (Z.eqb_spec (j mod 64) (i mod 64)); [|done].
      exfalso. apply Hne. Z.div_mod_to_equations; lia.
    + unfold page_used. rewrite list_lookup_insert_ne by lia.
      destruct (Z.eqb_spec j i) as [->|Hne]; done.
Qed.

Lemma pmm_mark_used_spec i :
  0 ≤ i < PMM_MAX_PAGES →
  ∃ bm', pmm_mark_used bm i = Ret bm' ∧ length bm' = length bm ∧
    ∀ j, 0 ≤ j < PMM_MAX_PAGES →
      page_used bm' j = if j =? i then true else page_used bm j.
Proof.
  intros Hi. apply bitmap_update; [done|]. intros w k Hk.
  rewrite Z.lor_spec, Z.shiftl_1_l, Z.pow2_bits_eqb, (Z.eqb_sym (i mod 64))
    by (Z.div_mod_to_equations; lia).
  destruct (k =? i mod 64); [by rewrite orb_true_r|by rewrite orb_false_r].
Qed.

Lemma pmm_mark_free_spec i :
  0 ≤ i < PMM_MAX_PAGES →
  ∃ bm', pmm_mark_free bm i = Ret bm' ∧ length bm' = length bm ∧
    ∀ j, 0 ≤ j < PMM_MAX_PAGES →
      page_used bm' j = if j =? i then false else page_used bm j.
Proof.
  intros Hi. apply (bitmap_update i (λ w, Z.land w (Z.lnot (Z.shiftl 1 (i mod 64))))); [done|].
  intros w k Hk.
  rewrite Z.land_spec, Z.lnot_spec, Z.shiftl_1_l, Z.pow2_bits_eqb, (Z.eqb_sym (i mod 64))
    by (Z.div_mod_to_equations; lia).
  destruct (k =? i mod 64); [by rewrite andb_false_r|by rewrite andb_true_r].
Qed.
End bitmap.

Lemma mark_run_spec n bm i :
  length bm = Z.to_nat BITMAP_WORDS → 0 ≤ i → i + Z.of_nat n ≤ PMM_MAX_PAGES →
  ∃ bm', mark_run n bm i = Ret bm' ∧ length bm' = Z.to_nat BITMAP_WORDS ∧
    ∀ j, 0 ≤ j < PMM_MAX_PAGES →
      page_used bm' j = ((i <=? j) && (j <? i + Z.of_nat n)) || page_used bm j.
Proof.
  revert bm i. induction n as [|n IH]; intros bm i Hlen Hi Hn.
  - exists bm. split; [done|]. split; [done|]. intros j Hj.
    destruct (Z.leb_spec i j), (Z.ltb_spec j (i + Z.of_nat 0)); simpl; try done; lia.
  - destruct (pmm_mark_used_spec bm Hlen i) as (bm1 & E1 & L1 & U1); [lia|].
    destruct (IH bm1 (i + 1)) as (bm2 & E2 & L2 & U2); [congruence|lia|lia|].
    exists bm2. simpl. rewrite E1. simpl. split; [done|]. split; [done|].
    intros j Hj. rewrite U2, U1 by done.
    destruct (Z.eqb_spec j i), (Z.leb_spec (i + 1) j), (Z.leb_spec i j),
      (Z.ltb_spec j (i + 1 + Z.of_nat n)), (Z.ltb_spec j (i + Z.of_nat (S n)));
      simpl; try done; lia.
Qed.

(** ** The abstraction *)

Lemma elem_of_used_set st i :
  i ∈ used_set st ↔ 0 ≤ i < page_pool_pages st ∧ page_used (page_bitmap st) i = true.
Proof.
  unfold used_set. rewrite elem_of_list_to_set, list_elem_of_filter, elem_of_seqZ.
  intuition lia.
Qed.

Lemma elem_of_page_range s n i : i ∈ page_range s n ↔ s ≤ i < s + n.
Proof. unfold page_range. by rewrite elem_of_list_to_set, elem_of_seqZ. Qed.

Lemma run_free_bitmap st s n :
  0 ≤ s → s + n ≤ page_pool_pages st →
  (run_free (used_set st) s n ↔
   ∀ k, s ≤ k < s + n → page_used (page_bitmap st) k = false).
Proof.
  intros Hs Hn. unfold run_free. split; intros H k Hk; specialize (H k Hk).
  - rewrite elem_of_used_set in H. destruct (page_used (page_bitmap st) k); [|done].
    exfalso. apply H. split; [lia|done].
  - rewrite elem_of_used_set. intros [_ H']. congruence.
Qed.

(** The search loop finds the first run of [count] free pages. *)
Lemma find_run_spec bm count n i rs rl :
  length bm = Z.to_nat BITMAP_WORDS →
  0 ≤ i → i + Z.of_nat n ≤ PMM_MAX_PAGES → 0 ≤ rl < count → rl ≤ i →
  (rl = 0 ∨ rs = i - rl) →
  (∀ k, i - rl ≤ k < i → page_used bm k = false) →
  (i - rl = 0 ∨ page_used bm (i - rl - 1) = true) →
  (∀ s, 0 ≤ s → s + count ≤ i → ¬ ∀ k, s ≤ k < s + count → page_used bm k = false) →
  ∃ rs' rl', find_run n bm count i rs rl = Ret (rs', rl') ∧
    ((rl' = count ∧ 0 ≤ rs' ∧ rs' + count ≤ i + Z.of_nat n ∧
      (∀ k, rs' ≤ k < rs' + count → page_used bm k = false) ∧
      (∀ s, 0 ≤ s < rs' → ¬ ∀ k, s ≤ k < s + count → page_used bm k = false)) ∨
     (rl' < count ∧
      ∀ s, 0 ≤ s → s + count ≤ i + Z.of_nat n →
        ¬ ∀ k, s ≤ k < s + count → page_used bm k = false)).
Proof.
  intros Hlen. revert i rs rl. induction n as [|n IH]; intros i rs rl Hi Hn Hrl Hri Hrs Hfree Hpre Hno.
  - exists rs, rl. split; [done|]. right. split; [lia|].
    intros s Hs Hsc. apply Hno; lia.
  - simpl. rewrite (pmm_is_free_spec bm Hlen) by lia. simpl.
    destruct (page_used bm i) eqn:Hu; simpl.
    + destruct (IH (i + 1) PMM_MAX_PAGES 0) as (rs' & rl' & E & H); try lia.
      * right. by replace (i + 1 - 0 - 1) with i by lia.
      * intros s Hs Hsc Hall. destruct (Z_le_gt_dec (s + count) i) as [Hle|Hgt].
        { by apply (Hno s Hs Hle). }
        { rewrite (Hall i) in Hu by lia. done. }
      * exists rs', rl'. split; [done|].
        replace (i + Z.of_nat (S n)) with (i + 1 + Z.of_nat n) by lia. done.
    + assert (∀ k, i - rl ≤ k < i + 1 → page_used bm k = false) as Hfree'.
      { intros k Hk. destruct (Z.eq_dec k i) as [->|]; [done|]. apply Hfree. lia. }
      assert ((if rl =? 0 then i else rs) = i - rl) as ->.
      { destruct (Z.eqb_spec rl 0); lia. }
      destruct (Z.eqb_spec (rl + 1) count) as [Hc|Hc].
      * exists (i - rl), (rl + 1). split; [done|]. left. repeat split; try lia.
        { intros k Hk. apply Hfree'. lia. }
        { intros s Hs. apply Hno; lia. }
      * destruct (IH (i + 1) (i - rl) (rl + 1)) as (rs' & rl' & E & H); try lia.
        { intros k Hk. apply Hfree'. lia. }
        { replace (i + 1 - (rl + 1)) with (i - rl) by lia. done. }
        { intros s Hs Hsc Hall. destruct (Z_le_gt_dec (s + count) i) as [Hle|Hgt].
          - by apply (Hno s Hs Hle).
          - destruct Hpre as [Hp|Hp]; [lia|]. rewrite Hall in Hp by lia. done. }
        exists rs', rl'. split; [done|].
        replace (i + Z.of_nat (S n)) with (i + 1 + Z.of_nat n) by lia. done.
Qed.

Lemma used_set_mark st bm s n :
  0 ≤ s → 0 ≤ n → s + n ≤ page_pool_pages st → page_pool_pages st ≤ PMM_MAX_PAGES →
  (∀ j, 0 ≤ j < PMM_MAX_PAGES →
    page_used bm j = ((s <=? j) && (j <? s + n)) || page_used (page_bitmap st) j) →
  used_set (set_bitmap bm st) = used_set st ∪ page_range s n.
Proof.
  intros Hs Hn Hsn Hp HU. apply set_eq. intros j.
  rewrite elem_of_union, elem_of_page_range, !elem_of_used_set. simpl.
  destruct (decide (0 ≤ j < page_pool_pages st)) as [Hj|Hj]; [|split; lia].
  rewrite HU by lia.
  destruct (Z.leb_spec s j), (Z.ltb_spec j (s + n)); simpl; intuition (try lia; eauto).
Qed.

(** Finding the run and marking it, as one step of the specification. *)
Lemma alloc_core st count :
  wf st → 1 ≤ count ≤ page_pool_pages st →
  ∃ rs rl, find_run (Z.to_nat (page_pool_pages st)) (page_bitmap st) count 0 PMM_MAX_PAGES 0
           = Ret (rs, rl) ∧
    ((rl = count ∧ 0 ≤ rs < PMM_MAX_PAGES ∧
      ∃ bm, mark_run (Z.to_nat count) (page_bitmap st) rs = Ret bm ∧ wf (set_bitmap bm st) ∧
        spec_alloc (page_pool_pages st) (used_set st) count (Some rs)
          (used_set (set_bitmap bm st)))
     ∨ (rl < count ∧ spec_alloc (page_pool_pages st) (used_set st) count None (used_set st))).
Proof.
  intros Hwf Hc. pose proof (wf_pages _ Hwf) as Hpg.
  destruct (find_run_spec (page_bitmap st) count (Z.to_nat (page_pool_pages st)) 0 PMM_MAX_PAGES 0)
    as (rs & rl & E & H); try lia; [apply (wf_bitmap _ Hwf)|].
  exists rs, rl. split; [done|]. rewrite Z2Nat.id in H by lia.
  destruct H as [(-> & H0 & H1 & Hfree & Hmin)|(Hlt & Hno)].
  - left. split; [done|]. split; [lia|].
    destruct (mark_run_spec (Z.to_nat count) (page_bitmap st) rs)
      as (bm & Em & Lm & Um); [apply (wf_bitmap _ Hwf)|lia|lia|].
    rewrite Z2Nat.id in Um by lia.
    exists bm. split; [done|]. split.
    { destruct Hwf; constructor; simpl; done. }
    rewrite (used_set_mark st bm rs count) by (done || lia).
    apply spec_alloc_some; try lia.
    + apply run_free_bitmap; [lia|lia|done].
    + intros s' Hs'. rewrite run_free_bitmap by lia. apply Hmin. lia.
  - right. split; [done|]. apply spec_alloc_none.
    intros s Hs Hsn. rewrite run_free_bitmap by lia. apply Hno; lia.
Qed.

Lemma pmm_unlock_wf st : wf st → wf (pmm_unlock (set_spin true st)).
Proof. intros []; constructor; simpl; done. Qed.

Lemma pmm_unlock_id st : wf st → pmm_unlock (set_spin true st) = st.
Proof. intros [? ? ? ? ? Hu]. destruct st. simpl in *. by subst. Qed.

(** What [pmm_try_alloc_pages_zeroed] may do to a well-formed state. *)
Inductive alloc_result (rsp count : Z) (st : pmm) : Z → pmm → Prop :=
| alloc_ok s st' :
    spec_alloc (page_pool_pages st) (used_set st) count (Some s) (used_set st') →
    page_pool_base st' = page_pool_base st →
    page_pool_pages st' = page_pool_pages st →
    (∀ a, pool_mem st' a =
       if (page_pool_base st + s * PAGE_SIZE <=? a) &&
          (a <? page_pool_base st + (s + count) * PAGE_SIZE)
       then 0 else pool_mem st a) →
    ¬ (page_pool_base st + s * PAGE_SIZE ≤ rsp
       < page_pool_base st + (s + count) * PAGE_SIZE) →
    alloc_result rsp count st (page_pool_base st + s * PAGE_SIZE) st'
| alloc_null :
    count = 0 ∨ page_pool_pages st < count ∨
    spec_alloc (page_pool_pages st) (used_set st) count None (used_set st) ∨
    (∃ s U, spec_alloc (page_pool_pages st) (used_set st) count (Some s) U ∧
       page_pool_base st + s * PAGE_SIZE ≤ rsp
         < page_pool_base st + (s + count) * PAGE_SIZE) →
    alloc_result rsp count st 0 st.

(** The state after a successful search outside the stack. *)
Lemma alloc_commit rsp count st rs bm :
  wf st → 1 ≤ count → 0 ≤ rs → rs + count ≤ page_pool_pages st →
  wf (set_bitmap bm st) →
  spec_alloc (page_pool_pages st) (used_set st) count (Some rs) (used_set (set_bitmap bm st)) →
  ¬ (page_pool_base st + rs * PAGE_SIZE ≤ rsp
     < page_pool_base st + (rs + count) * PAGE_SIZE) →
  let p := page_pool_base st + rs * PAGE_SIZE in
  let st' := mk_pmm (page_pool_base st) (page_pool_pages st) bm false
               (mfill (pool_mem st) p (count * PAGE_SIZE) 0) in
  wf st' ∧ alloc_result rsp count st p st'.
Proof.
  intros Hwf Hc Hrs Hle Hwf' Hspec Hrsp p st'. split.
  - destruct Hwf'; constructor; simpl in *; done.
  - apply alloc_ok; try done. intros a. simpl. unfold mfill.
    by replace (p + count * PAGE_SIZE)
      with (page_pool_base st + (rs + count) * PAGE_SIZE) by (subst p; lia).
Qed.

Lemma try_alloc_result rsp count st :
  wf st → 0 ≤ count →
  ∃ p st', pmm_try_alloc_pages_zeroed rsp count st = Ret (p, st') ∧ wf st' ∧
    alloc_result rsp count st p st'.
Proof.
  intros Hwf Hc. unfold pmm_try_alloc_pages_zeroed.
  destruct ((count =? 0) || (page_pool_pages st <? count)) eqn:Hg.
  { exists 0, st. split; [done|]. split; [done|]. apply alloc_null.
    apply orb_prop in Hg as [?|?]; bool_to_prop; lia. }
  bool_to_prop. unfold pmm_lock. rewrite (wf_unlocked _ Hwf). simpl.
  destruct (alloc_core st count Hwf) as (rs & rl & -> & Hcore); [lia|]. simpl.
  pose proof (wf_pages _ Hwf) as Hpg. pose proof (wf_end _ Hwf) as Hend.
  pose proof (wf_base _ Hwf) as Hbase. unfold PMM_MAX_PAGES, PAGE_SIZE in *.
  destruct Hcore as [(-> & Hrs & bm & Em & Hwf' & Hspec)|(Hlt & Hspec)].
  - rewrite (proj2 (Z.ltb_ge count count)), (proj2 (Z.eqb_neq rs 16384)) by lia. simpl.
    inversion Hspec as [s ? Hsn ? ? |]; subst.
    unfold pmm_idx_to_ptr, PAGE_SIZE; simpl.
    rewrite !(u64_small (page_pool_base st + rs * 4096)) by (unfold is_u64; lia).
    rewrite u64_small by (unfold is_u64; lia).
    destruct ((page_pool_base st + rs * 4096 <=? rsp) &&
      (rsp <? page_pool_base st + rs * 4096 + count * 4096)) eqn:Hr.
    + bool_to_prop. exists 0, st. rewrite pmm_unlock_id by done. split; [done|]. split; [done|].
      apply alloc_null. do 3 right. eexists _, _. split; [done|]. unfold PAGE_SIZE; lia.
    + rewrite Em. simpl. eexists _, _. split; [done|].
      apply (alloc_commit rsp count st rs bm); try done; try lia.
      apply andb_false_iff in Hr as [?|?]; bool_to_prop; unfold PAGE_SIZE; lia.
  - rewrite (proj2 (Z.ltb_lt rl count)) by lia. simpl.
    exists 0, st. rewrite pmm_unlock_id by done. split; [done|]. split; [done|].
    apply alloc_null. auto.
Qed.

Lemma ptr_to_idx_page st i :
  wf st → 0 ≤ i < page_pool_pages st →
  pmm_ptr_to_idx st (page_pool_base st + i * PAGE_SIZE) = i.
Proof.
  intros Hwf Hi. unfold pmm_ptr_to_idx, PAGE_SIZE.
  rewrite (proj2 (Z.ltb_ge _ _)) by lia.
  replace (page_pool_base st + i * 4096 - page_pool_base st) with (i * 4096) by lia.
  rewrite Z.div_mul, Z.mod_mul, (proj2 (Z.leb_gt _ _)) by lia. done.
Qed.

(** The only index [pmm_ptr_to_idx] accepts is the index of the page that
    starts at the pointer. *)
Lemma ptr_to_idx_inv st p :
  wf st → pmm_ptr_to_idx st p ≠ PMM_MAX_PAGES →
  p = page_pool_base st + pmm_ptr_to_idx st p * PAGE_SIZE ∧
  0 ≤ pmm_ptr_to_idx st p < page_pool_pages st.
Proof.
  intros Hwf. unfold pmm_ptr_to_idx, PAGE_SIZE.
  destruct (Z.ltb_spec p (page_pool_base st)); [done|].
  destruct (Z.leb_spec (page_pool_pages st) ((p - page_pool_base st) / 4096)); [done|].
  destruct (Z.eqb_spec ((p - page_pool_base st) mod 4096) 0); simpl; [|done].
  intros _. Z.div_mod_to_equations. lia.
Qed.

Lemma used_set_unmark st bm i :
  page_pool_pages st ≤ PMM_MAX_PAGES →
  (∀ j, 0 ≤ j < PMM_MAX_PAGES →
    page_used bm j = if j =? i then false else page_used (page_bitmap st) j) →
  used_set (set_bitmap bm st) = used_set st ∖ {[i]}.
Proof.
  intros Hp HU. apply set_eq. intros j.
  rewrite elem_of_difference, elem_of_singleton, !elem_of_used_set. simpl.
  destruct (decide (0 ≤ j < page_pool_pages st)) as [Hj|Hj]; [|split; lia].
  rewrite HU by lia. destruct (Z.eqb_spec j i); intuition (try lia; try congruence).
Qed.

Lemma free_page_result p st :
  wf st →
  ∃ st', free_page p st = Ret st' ∧ wf st' ∧
    page_pool_base st' = page_pool_base st ∧ page_pool_pages st' = page_pool_pages st ∧
    ((∃ i, i ∈ used_set st ∧ p = page_pool_base st + i * PAGE_SIZE ∧
       used_set st' = used_set st ∖ {[i]} ∧
       ∀ a, pool_mem st' a =
         if (p <=? a) && (a <? p + PAGE_SIZE) then 204 else pool_mem st a)
     ∨ ((∀ i, i ∈ used_set st → p ≠ page_pool_base st + i * PAGE_SIZE) ∧ st' = st)).
Proof.
  intros Hwf. unfold free_page.
  pose proof (wf_base _ Hwf) as Hbase. pose proof (wf_pages _ Hwf) as Hpg.
  destruct (Z.eqb_spec p 0) as [->|Hp0].
  { exists st. split_and!; try done. right. split; [|done].
    intros i Hi. apply elem_of_used_set in Hi. unfold PAGE_SIZE. lia. }
  destruct (Z.eqb_spec (pmm_ptr_to_idx st p) PMM_MAX_PAGES) as [Hx|Hx].
  { exists st. split_and!; try done. right. split; [|done].
    intros i Hi ->. apply elem_of_used_set in Hi.
    rewrite ptr_to_idx_page in Hx by (done || lia). unfold PMM_MAX_PAGES in *. lia. }
  destruct (ptr_to_idx_inv st p Hwf Hx) as [Hp Hi].
  set (i := pmm_ptr_to_idx st p) in *.
  unfold pmm_lock. rewrite (wf_unlocked _ Hwf). simpl.
  rewrite (pmm_is_free_spec _ (wf_bitmap _ Hwf)) by (unfold PMM_MAX_PAGES in *; lia). simpl.
  destruct (page_used (page_bitmap st) i) eqn:Hu; simpl.
  - destruct (pmm_mark_free_spec _ (wf_bitmap _ Hwf) i) as (bm & Eb & Lb & Ub); [lia|].
    rewrite Eb. simpl. eexists. split; [done|]. split_and!; try done.
    { destruct Hwf; constructor; simpl in *; congruence || done. }
    left. exists i. split_and!; try done.
    + apply elem_of_used_set. split; [lia|done].
    + rewrite <- (used_set_unmark st bm i) by (done || lia). done.
  - exists st. rewrite pmm_unlock_id by done. split_and!; try done. right. split; [|done].
    intros j Hj Heq. apply elem_of_used_set in Hj as [? ?]. unfold PAGE_SIZE in *.
    replace j with i in * by lia. congruence.
Qed.

Lemma free_pages_loop_spec n st s i :
  wf st → 0 ≤ i → 0 ≤ s → s + i + Z.of_nat n ≤ page_pool_pages st →
  page_range (s + i) (Z.of_nat n) ⊆ used_set st →
  ∃ st', free_pages_loop n (page_pool_base st + s * PAGE_SIZE) i st = Ret st' ∧ wf st' ∧
    used_set st' = used_set st ∖ page_range (s + i) (Z.of_nat n).
Proof.
  revert st i. induction n as [|n IH]; intros st i Hwf Hi Hs Hn Hsub.
  - exists st. split_and!; [done|done|]. apply set_eq. intros x.
    rewrite elem_of_difference, elem_of_page_range. intuition lia.
  - pose proof (wf_end _ Hwf) as Hend. pose proof (wf_base _ Hwf) as Hb.
    simpl. rewrite u64_small by (unfold is_u64, PAGE_SIZE in *; lia).
    replace (page_pool_base st + s * PAGE_SIZE + i * PAGE_SIZE)
      with (page_pool_base st + (s + i) * PAGE_SIZE) by lia.
    destruct (free_page_result (page_pool_base st + (s + i) * PAGE_SIZE) st Hwf)
      as (st1 & -> & Hwf1 & Hb1 & Hp1 & [(k & Hk & Heq & HU & _)|[Hno _]]).
    + assert (k = s + i) as -> by (unfold PAGE_SIZE in *; lia). simpl.
      rewrite <- Hb1.
      destruct (IH st1 (i + 1)) as (st2 & -> & Hwf2 & HU2); try done; try lia.
      { intros x. rewrite elem_of_page_range, HU, elem_of_difference, elem_of_singleton.
        intros Hx. split; [|lia]. apply Hsub, elem_of_page_range. lia. }
      exists st2. split_and!; [done|done|]. rewrite HU2, HU. apply set_eq. intros x.
      rewrite !elem_of_difference, elem_of_singleton, !elem_of_page_range. intuition lia.
    + exfalso. apply (Hno (s + i)); [|done]. apply Hsub, elem_of_page_range. lia.
Qed.

Lemma spec_alloc_range pages U n s U' :
  spec_alloc pages U n (Some s) U' → U' = U ∪ page_range s n ∧ run_free U s n ∧
    0 ≤ s ∧ s + n ≤ pages.
Proof. inversion 1; subst. done. Qed.

(** C19. On a well-formed state [pmm_try_alloc_pages_zeroed] always returns
    (it never spins, panics or leaves the bitmap), keeps the invariant and
    releases the lock. Either it returns the lowest run of [count] free
    pages, marks exactly those pages used, zeroes exactly those bytes and
    does not hand out the page under the stack pointer; or it returns NULL,
    changes nothing, and one of its four reasons holds. *)
Theorem pmm_alloc_refines rsp count st :
  wf st → 0 ≤ count →
  ∃ p st', pmm_try_alloc_pages_zeroed rsp count st = Ret (p, st') ∧ wf st' ∧
    alloc_result rsp count st p st'.
Proof. apply try_alloc_result. Qed.

(** [free_page] always returns on a well-formed state and keeps it well
    formed. Given the address of a used page it frees exactly that page and
    overwrites exactly its 4096 bytes with 0xCC; given NULL, a pointer
    outside the pool, an unaligned pointer or a page that is already free
    (double free) it changes nothing. *)
Theorem free_page_refines p st :
  wf st →
  ∃ st', free_page p st = Ret st' ∧ wf st' ∧
    page_pool_base st' = page_pool_base st ∧ page_pool_pages st' = page_pool_pages st ∧
    ((∃ i, i ∈ used_set st ∧ p = page_pool_base st + i * PAGE_SIZE ∧
       used_set st' = used_set st ∖ {[i]} ∧
       ∀ a, pool_mem st' a =
         if (p <=? a) && (a <? p + PAGE_SIZE) then 204 else pool_mem st a)
     ∨ ((∀ i, i ∈ used_set st → p ≠ page_pool_base st + i * PAGE_SIZE) ∧ st' = st)).
Proof. apply free_page_result. Qed.

(** Pages handed out by [pmm_try_alloc_pages_zeroed] and given back with
    [free_pages] leave the set of used pages exactly as it was: nothing
    leaks and no other page is freed. *)
Theorem alloc_free_roundtrip rsp count st p st1 :
  wf st → 0 ≤ count →
  pmm_try_alloc_pages_zeroed rsp count st = Ret (p, st1) → p ≠ 0 →
  ∃ st2, free_pages p count st1 = Ret st2 ∧ wf st2 ∧ used_set st2 = used_set st.
Proof.
  intros Hwf Hc Ha Hp.
  destruct (try_alloc_result rsp count st Hwf Hc) as (p' & st' & Ha' & Hwf1 & Hres).
  rewrite Ha in Ha'. injection Ha' as <- <-.
  inversion Hres as [s st'' Hspec Hb Hpg Hmem Hr|]; subst; [|done].
  apply spec_alloc_range in Hspec as (HU & Hfree & Hs & Hsn).
  assert (count ≠ 0).
  { intros ->. cbv [pmm_try_alloc_pages_zeroed] in Ha. simpl in Ha. injection Ha as Ha0 _. congruence. }
  unfold free_pages.
  rewrite (proj2 (Z.eqb_neq _ 0)), (proj2 (Z.eqb_neq count 0)) by done. simpl.
  rewrite <- Hb.
  destruct (free_pages_loop_spec (Z.to_nat count) st1 s 0) as (st2 & -> & Hwf2 & HU2);
    [done|lia|lia|lia| |].
  { rewrite HU, Z2Nat.id, Z.add_0_r by lia. set_solver. }
  exists st2. split_and!; [done|done|]. rewrite HU2, HU, Z2Nat.id, Z.add_0_r by lia.
  apply set_eq. intros x. rewrite elem_of_difference, elem_of_union, elem_of_page_range.
  specialize (Hfree x). intuition.
Qed.

(** ** Accounting *)

Lemma count_free_spec n bm i f :
  length bm = Z.to_nat BITMAP_WORDS → 0 ≤ i → i + Z.of_nat n ≤ PMM_MAX_PAGES →
  count_free n bm i f =
    Ret (f + Z.of_nat n -
         Z.of_nat (length (filter (λ j, page_used bm j = true) (seqZ i (Z.of_nat n))))).
Proof.
  intros Hlen. revert i f. induction n as [|n IH]; intros i f Hi Hn.
  - simpl. f_equal. lia.
  - simpl. rewrite (pmm_is_free_spec bm Hlen) by lia. simpl.
    rewrite IH by lia.
    rewrite (seqZ_cons i (Z.of_nat (S n))), filter_cons by lia.
    replace (Z.pred (Z.of_nat (S n))) with (Z.of_nat n) by lia.
    rewrite <- (Z.add_1_r i). f_equal.
    case_decide as Hu; [rewrite Hu|rewrite (not_true_is_false _ Hu)]; simpl; lia.
Qed.

Lemma size_used_set st :
  size (used_set st) =
  length (filter (λ j, page_used (page_bitmap st) j = true) (seqZ 0 (page_pool_pages st))).
Proof. apply size_list_to_set. apply NoDup_filter, NoDup_seqZ. Qed.

(** [pmm_free_pages] and [pmm_used_pages] report exactly how many pages
    of the pool are free and used, and do not change the state. *)
Theorem pmm_counts_exact st :
  wf st →
  pmm_free_pages st = Ret (page_pool_pages st - Z.of_nat (size (used_set st)), st) ∧
  pmm_used_pages st = Ret (Z.of_nat (size (used_set st)), st).
Proof.
  intros Hwf.
  assert (pmm_free_pages st = Ret (page_pool_pages st - Z.of_nat (size (used_set st)), st)) as E.
  { unfold pmm_free_pages, pmm_lock. rewrite (wf_unlocked _ Hwf). simpl.
    pose proof (wf_pages _ Hwf). rewrite count_free_spec by (done || apply (wf_bitmap _ Hwf) || lia).
    simpl. rewrite pmm_unlock_id, size_used_set, Z2Nat.id by (done || lia). done. }
  split; [done|]. unfold pmm_used_pages. rewrite E. simpl.
  pose proof (wf_pages _ Hwf) as Hp. rewrite size_used_set.
  pose proof (length_filter (λ j, page_used (page_bitmap st) j = true)
    (seqZ 0 (page_pool_pages st))) as Hf.
  rewrite length_seqZ in Hf. unfold PMM_MAX_PAGES in Hp.
  rewrite u64_small by (unfold is_u64; lia). f_equal. f_equal. lia.
Qed.

(** [pmm_init] panics on an unaligned base or a region larger than the
    bitmap, and otherwise establishes the invariant with every page free. *)
Theorem pmm_init_establishes base size st :
  0 < base → 0 ≤ size → base + size < 2 ^ 64 →
  (base mod PAGE_SIZE ≠ 0 ∨ PMM_MAX_PAGES < size / PAGE_SIZE → pmm_init base size st = Panic) ∧
  (base mod PAGE_SIZE = 0 → size / PAGE_SIZE ≤ PMM_MAX_PAGES →
   ∃ st', pmm_init base size st = Ret st' ∧ wf st' ∧ used_set st' = ∅ ∧
     page_pool_base st' = base ∧ page_pool_pages st' = size / PAGE_SIZE).
Proof.
  intros Hb Hs He. unfold pmm_init.
  replace (Z.land base (PAGE_SIZE - 1)) with (base mod PAGE_SIZE)
    by (symmetry; apply (land_ones_mod base 12); lia).
  destruct (Z.eqb_spec (base mod PAGE_SIZE) 0) as [Ha|Ha],
    (Z.ltb_spec PMM_MAX_PAGES (size / PAGE_SIZE)) as [Hl|Hl]; cbn [negb]; split; try done; try lia.
  intros _ _. eexists. split; [done|]. split_and!; try done.
  - constructor; unfold PMM_MAX_PAGES, PAGE_SIZE in *; simpl; try done;
      Z.div_mod_to_equations; lia.
  - apply set_eq. intros i. rewrite elem_of_used_set. split; [|set_solver].
    cbn [page_bitmap page_pool_pages]. intros [Hi Hu]. unfold page_used in Hu.
    rewrite lookup_replicate_2, Z.testbit_0_l in Hu; [done|].
    unfold PMM_MAX_PAGES, BITMAP_WORDS in *. Z.div_mod_to_equations; lia.
Qed.

(** ** Witnesses: a pool of 128 pages at 1 MiB *)

Definition demo_pool : pmm := mk_pmm 1048576 128 (replicate 256 0) false (λ _, 7).

Lemma demo_pool_wf : wf demo_pool.
Proof. constructor; vm_compute; split || reflexivity || idtac; try discriminate; try reflexivity. Defined.

Lemma pmm_alloc_refines_witness :
  ∃ p st', pmm_try_alloc_pages_zeroed 0 3 demo_pool = Ret (p, st') ∧ wf st' ∧
    alloc_result 0 3 demo_pool p st'.
Proof. apply (pmm_alloc_refines 0 3 demo_pool demo_pool_wf). lia. Defined.

Lemma free_page_refines_witness :
  ∃ st', free_page 1048576 demo_pool = Ret st' ∧ wf st'.
Proof.
  destruct (free_page_refines 1048576 demo_pool demo_pool_wf) as (st' & H1 & H2 & _).
  exists st'. split; assumption.
Defined.

Definition demo_after : pmm :=
  match pmm_try_alloc_pages_zeroed 0 70 demo_pool with Ret (_, st) => st | _ => demo_pool end.

Lemma demo_alloc : pmm_try_alloc_pages_zeroed 0 70 demo_pool = Ret (1048576, demo_after).
Proof.
  assert (match pmm_try_alloc_pages_zeroed 0 70 demo_pool with
          | Ret (p, _) => p =? 1048576 | _ => false end = true) as E
    by (vm_compute; reflexivity).
  unfold demo_after. destruct (pmm_try_alloc_pages_zeroed 0 70 demo_pool) as [[p st]| | |];
    try discriminate. apply Z.eqb_eq in E. by rewrite E.
Qed.

Lemma alloc_free_roundtrip_witness :
  ∃ st2, free_pages 1048576 70 demo_after = Ret st2 ∧ wf st2 ∧
    used_set st2 = used_set demo_pool.
Proof.
  exact (alloc_free_roundtrip 0 70 demo_pool 1048576 demo_after demo_pool_wf
           ltac:(lia) demo_alloc ltac:(lia)).
Defined.

Lemma pmm_counts_exact_witness :
  pmm_free_pages demo_pool =
    Ret (page_pool_pages demo_pool - Z.of_nat (size (used_set demo_pool)), demo_pool).
Proof. apply (pmm_counts_exact demo_pool demo_pool_wf). Defined.

Lemma pmm_init_establishes_witness :
  pmm_init 1048577 4096 demo_pool = Panic.
Proof.
  refine (proj1 (pmm_init_establishes 1048577 4096 demo_pool _ _ _) _); [lia|lia|lia|].
  left. vm_compute. discriminate.
Defined.
