(* ===== verification/Lzss.v ===== *)
(** * The LZSS codec ([src/impl/compression/lzss.c])

    [lzss_decompress] and [lzss_compress] follow the C code statement by
    statement: the decoder works on a ring buffer of 4096 bytes, the encoder
    on the plain input with a hash-chain match finder. The result of every
    heap call is an argument of the definitions: [text_buf] is the buffer
    [alloc_unzeroed] returned (its contents are arbitrary, [None] is NULL),
    [alloc_ok] and [resize_ok] say which sizes the allocator can serve. The
    main theorem is that decoding inverts encoding. *)

From S2P Require Import Prelude.

Open Scope c_scope.

Definition LZSS_N : Z := 4096.
Definition LZSS_F : Z := 18.
Definition LZSS_THRESHOLD : Z := 2.
Definition LZSS_MAX_CHAIN : nat := 128.
Definition LZSS_HASH_BITS : Z := 12.
Definition LZSS_HASH_SIZE : Z := 4096.
Definition LZSS_NONE : Z := 4294967295.

(** ** Decoder *)

(** The loop variables of [lzss_decompress]: the bytes written so far
    ([out], so [out_pos] is its length), the ring buffer and its write
    position. The unread input is passed separately as a list, so
    [in_pos < in_size] is "the list is not empty". *)
Record dec := mk_dec { d_out : list Z; d_buf : list Z; d_r : Z }.

(** [if (out_pos >= out_capacity) return 0; out[out_pos++] = c;
     text_buf[r++] = c; r &= N - 1;]  [None] is the early return. *)
Definition dec_emit (out_capacity c : Z) (d : dec) : outcome (option dec) :=
  if out_capacity <=? Z.of_nat (length (d_out d)) then Ret None
  else
    let* buf := oset (d_buf d) (d_r d) c in
    Ret (Some (mk_dec (d_out d ++ [c]) buf (Z.land (u32 (d_r d + 1)) (LZSS_N - 1)))).

(** [for (k = 0; k <= match_len; k++) ...]: [n] iterations left. *)
Fixpoint dec_match (n : nat) (out_capacity match_pos k : Z) (d : dec) : outcome (option dec) :=
  match n with
  | O => Ret (Some d)
  | S n' =>
      let* c := oget (d_buf d) (Z.land (u32 (match_pos + k)) (LZSS_N - 1)) in
      let* od := dec_emit out_capacity c d in
      match od with
      | None => Ret None
      | Some d' => dec_match n' out_capacity match_pos (k + 1) d'
      end
  end.

(** How one symbol ends: output full ([return 0]), input exhausted
    ([break]), or on to the next symbol. *)
Inductive dec_step :=
| DFull
| DEnd
| DNext (rest : list Z) (d : dec).

Definition dec_next (rest : list Z) (od : option dec) : dec_step :=
  match od with None => DFull | Some d => DNext rest d end.

(** The body of the loop below the flag handling. *)
Definition dec_symbol (out_capacity flags : Z) (inp : list Z) (d : dec) : outcome dec_step :=
  if negb (Z.land flags 1 =? 0) then
    match inp with
    | [] => Ret DEnd
    | c :: rest => let* od := dec_emit out_capacity c d in Ret (dec_next rest od)
    end
  else
    match inp with
    | byte0 :: byte1 :: rest =>
        let match_pos := Z.lor byte0 (Z.shiftl (Z.land byte1 240) 4) in
        let match_len := Z.land byte1 15 + LZSS_THRESHOLD in
        let* od := dec_match (Z.to_nat (match_len + 1)) out_capacity match_pos 0 d in
        Ret (dec_next rest od)
    | _ => Ret DEnd
    end.

(** The main loop; [fuel] bounds the iterations (each consumes a byte). *)
Fixpoint dec_loop (fuel : nat) (out_capacity : Z) (inp : list Z) (flags : Z) (d : dec)
  : outcome (option dec) :=
  match inp with
  | [] => Ret (Some d)
  | b :: rest =>
      match fuel with
      | O => Hang
      | S fuel' =>
          let flags := Z.shiftr flags 1 in
          let '(flags, inp) :=
            if Z.land flags 256 =? 0 then (Z.lor b 65280, rest) else (flags, inp) in
          let* st := dec_symbol out_capacity flags inp d in
          match st with
          | DFull => Ret None
          | DEnd => Ret (Some d)
          | DNext rest d' => dec_loop fuel' out_capacity rest flags d'
          end
      end
  end.

(** Returns the C return value and the bytes of [out] when it is not 0. *)
Definition lzss_decompress (inp : list Z) (out_capacity : Z) (text_buf : option (list Z))
  : outcome (Z * list Z) :=
  if (out_capacity =? 0) || (Z.of_nat (length inp) =? 0) then Ret (0, [])
  else
    match text_buf with
    | None => Ret (0, [])
    | Some junk =>
        let buf := replicate (Z.to_nat (LZSS_N - LZSS_F)) 32
                   ++ drop (Z.to_nat (LZSS_N - LZSS_F)) junk in
        let* od := dec_loop (S (length inp)) out_capacity inp 0
                     (mk_dec [] buf (LZSS_N - LZSS_F)) in
        match od with
        | None => Ret (0, [])
        | Some d => Ret (Z.of_nat (length (d_out d)), d_out d)
        end
    end.

(** ** Encoder *)

Definition lzss_hash3 (data : list Z) (p : Z) : outcome Z :=
  let* p0 := oget data p in
  let* p1 := oget data (p + 1) in
  let* p2 := oget data (p + 2) in
  let v := Z.lor (Z.lor p0 (u32 (Z.shiftl p1 8))) (u32 (Z.shiftl p2 16)) in
  Ret (Z.shiftr (u32 (v * 2654435761)) (32 - LZSS_HASH_BITS)).

(** Records [n] positions from [p] on in the hash chains. *)
Fixpoint lzss_insert_range (n : nat) (data head prev : list Z) (p : Z)
  : outcome (list Z * list Z) :=
  match n with
  | O => Ret (head, prev)
  | S n' =>
      if Z.of_nat (length data) <=? u32 (p + 2) then Ret (head, prev)
      else
        let* h := lzss_hash3 data p in
        let* old := oget head h in
        let* prev := oset prev (Z.land p (LZSS_N - 1)) old in
        let* head := oset head h p in
        lzss_insert_range n' data head prev (p + 1)
  end.

(** [while (length < max_len && data[cand+length] == data[pos+length]) length++;]
    [n] is [max_len - length]. *)
Fixpoint match_length (n : nat) (data : list Z) (cand pos len : Z) : outcome Z :=
  match n with
  | O => Ret len
  | S n' =>
      let* a := oget data (cand + len) in
      let* b := oget data (pos + len) in
      if a =? b then match_length n' data cand pos (len + 1) else Ret len
  end.

(** The walk over the candidates that share the hash, newest first. *)
Fixpoint walk_chain (chain : nat) (data prev : list Z) (pos max_len window_start : Z)
    (cand best_len best_src : Z) : outcome (Z * Z) :=
  if (cand =? LZSS_NONE) || (cand <? window_start) then Ret (best_len, best_src)
  else
    match chain with
    | O => Ret (best_len, best_src)
    | S chain' =>
        let* len := match_length (Z.to_nat max_len) data cand pos 0 in
        let '(best_len, best_src) :=
          if best_len <=? len then (len, cand) else (best_len, best_src) in
        let* next := oget prev (Z.land cand (LZSS_N - 1)) in
        if negb (next =? LZSS_NONE) && (cand <=? next) then Ret (best_len, best_src)
        else walk_chain chain' data prev pos max_len window_start next best_len best_src
    end.

Definition find_match (data head prev : list Z) (pos : Z) : outcome (Z * Z) :=
  let left := Z.of_nat (length data) - pos in
  let max_len := if left <? LZSS_F then left else LZSS_F in
  if LZSS_THRESHOLD + 1 <=? max_len then
    let window_start := if LZSS_N <? pos then pos - LZSS_N else 0 in
    let* h := lzss_hash3 data pos in
    let* cand := oget head h in
    walk_chain LZSS_MAX_CHAIN data prev pos max_len window_start cand 0 0
  else Ret (0, 0).

(** [new_cap = capacity * 2; while (needed > new_cap) new_cap *= 2;] *)
Fixpoint grow_cap (fuel : nat) (needed cap : Z) : outcome Z :=
  match fuel with
  | O => Hang
  | S fuel' => if cap <? needed then grow_cap fuel' needed (u32 (cap * 2)) else Ret cap
  end.

(** The loop variables of [lzss_compress]. *)
Record enc := mk_enc {
  e_out : list Z; e_cap : Z;
  e_flag_byte : Z; e_flag_bit : Z; e_chunk : list Z;
  e_head : list Z; e_prev : list Z; e_pos : Z
}.

Section compress.
Context (alloc_ok resize_ok : Z → bool).

(** Makes room for and appends one group: flag byte, then the chunk.
    [None]: the heap refused the larger buffer. *)
Definition flush_group (e : enc) : outcome (option enc) :=
  let needed := u32 (Z.of_nat (length (e_out e)) + 1 + Z.of_nat (length (e_chunk e))) in
  let* ocap :=
    (if e_cap e <? needed then
      let* new_cap := grow_cap 33 needed (u32 (e_cap e * 2)) in
      Ret (if resize_ok new_cap then Some new_cap else None)
    else Ret (Some (e_cap e))) in
  match ocap with
  | None => Ret None
  | Some cap =>
      Ret (Some (mk_enc (e_out e ++ e_flag_byte e :: e_chunk e) cap 0 0 []
                   (e_head e) (e_prev e) (e_pos e)))
  end.

(** One iteration of the encoder's loop: emit a match or a literal. *)
Definition enc_symbol (data : list Z) (e : enc) : outcome enc :=
  let* (best_len, best_src) := find_match data (e_head e) (e_prev e) (e_pos e) in
  if LZSS_THRESHOLD <? best_len then
    let match_pos := Z.land (u32 (LZSS_N - LZSS_F + best_src)) (LZSS_N - 1) in
    let length_field := best_len - (LZSS_THRESHOLD + 1) in
    let chunk := e_chunk e ++
      [u8 (Z.land match_pos 255);
       u8 (Z.lor (Z.shiftl (Z.shiftr match_pos 8) 4) (Z.land length_field 15))] in
    let* (head, prev) :=
      lzss_insert_range (Z.to_nat best_len) data (e_head e) (e_prev e) (e_pos e) in
    Ret (mk_enc (e_out e) (e_cap e) (e_flag_byte e) (e_flag_bit e + 1) chunk
           head prev (u32 (e_pos e + best_len)))
  else
    let* c := oget data (e_pos e) in
    let* (head, prev) := lzss_insert_range 1 data (e_head e) (e_prev e) (e_pos e) in
    Ret (mk_enc (e_out e) (e_cap e)
           (Z.lor (e_flag_byte e) (u8 (Z.shiftl 1 (e_flag_bit e)))) (e_flag_bit e + 1)
           (e_chunk e ++ [c]) head prev (u32 (e_pos e + 1))).

Fixpoint enc_loop (fuel : nat) (data : list Z) (e : enc) : outcome (option enc) :=
  if e_pos e <? Z.of_nat (length data) then
    match fuel with
    | O => Hang
    | S fuel' =>
        let* e := enc_symbol data e in
        if e_flag_bit e =? 8 then
          let* oe := flush_group e in
          match oe with
          | None => Ret None
          | Some e => enc_loop fuel' data e
          end
        else enc_loop fuel' data e
    end
  else Ret (Some e).

(** Returns the compressed bytes, or [None] for NULL. *)
Definition lzss_compress (data : list Z) : outcome (option (list Z)) :=
  if Z.of_nat (length data) =? 0 then Ret None
  else if negb (alloc_ok 256) then Ret None
  else if negb (alloc_ok (4 * (LZSS_HASH_SIZE + LZSS_N))) then Ret None
  else
    let* oe := enc_loop (length data) data
      (mk_enc [] 256 0 0 [] (replicate (Z.to_nat LZSS_HASH_SIZE) LZSS_NONE)
         (replicate (Z.to_nat LZSS_N) LZSS_NONE) 0) in
    match oe with
    | None => Ret None
    | Some e =>
        if 0 <? e_flag_bit e then
          let* oe := flush_group e in
          match oe with
          | None => Ret None
          | Some e => Ret (Some (e_out e))
          end
        else Ret (Some (e_out e))
    end.
End compress.

(** ** Tokens

    The stream as a sequence of tokens: a literal byte, or a match given by
    the two fields the format stores. *)
Inductive token := Lit (c : Z) | Mat (mp lf : Z).

Definition is_lit (t : token) : bool := match t with Lit _ => true | Mat _ _ => false end.

Definition tok_bytes (t : token) : list Z :=
  match t with
  | Lit c => [c]
  | Mat mp lf =>
      [u8 (Z.land mp 255); u8 (Z.lor (Z.shiftl (Z.shiftr mp 8) 4) (Z.land lf 15))]
  end.

Definition toks_bytes (ts : list token) : list Z := concat (map tok_bytes ts).

(** Flag bits of tokens, the first one at bit [i]. *)
Fixpoint flags_from (i : Z) (ts : list token) : Z :=
  match ts with
  | [] => 0
  | t :: ts => Z.lor (if is_lit t then Z.shiftl 1 i else 0) (flags_from (i + 1) ts)
  end.

Definition group (ts : list token) : list Z := flags_from 0 ts :: toks_bytes ts.

Lemma flags_from_snoc ts t i :
  flags_from i (ts ++ [t]) =
  Z.lor (flags_from i ts) (if is_lit t then Z.shiftl 1 (i + Z.of_nat (length ts)) else 0).
Proof.
  revert i. induction ts as [|t' ts IH]; intros i; simpl.
  - rewrite Z.lor_0_r, Z.lor_0_l, Z.add_0_r. done.
  - rewrite IH, Z.lor_assoc.
    by replace (i + Z.of_nat (S (length ts))) with (i + 1 + Z.of_nat (length ts)) by lia.
Qed.

Lemma flags_from_testbit ts i n :
  0 ≤ i → 0 ≤ n →
  Z.testbit (flags_from i ts) n =
  if n <? i then false
  else match ts !! Z.to_nat (n - i) with Some t => is_lit t | None => false end.
Proof.
  revert i. induction ts as [|t ts IH]; intros i Hi Hn; simpl.
  - rewrite Z.testbit_0_l. by destruct (n <? i).
  - rewrite Z.lor_spec, IH by lia.
    replace (Z.testbit (if is_lit t then Z.shiftl 1 i else 0) n)
      with ((n =? i) && is_lit t)
      by (destruct (is_lit t); rewrite ?Z.testbit_0_l, ?andb_false_r, ?andb_true_r; [|done];
          rewrite Z.shiftl_1_l, Z.pow2_bits_eqb, Z.eqb_sym; done || lia).
    destruct (Z.eqb_spec n i) as [->|Hne]; simpl.
    + rewrite (proj2 (Z.ltb_lt i (i + 1))), Z.ltb_irrefl, Z.sub_diag by lia.
      simpl. by rewrite orb_false_r.
    + destruct (Z.ltb_spec n i), (Z.ltb_spec n (i + 1)); try done; try lia.
      replace (Z.to_nat (n - i)) with (S (Z.to_nat (n - (i + 1)))) by lia. done.
Qed.

Lemma toks_bytes_cons t ts rest :
  toks_bytes (t :: ts) ++ rest = tok_bytes t ++ toks_bytes ts ++ rest.
Proof. unfold toks_bytes. simpl. by rewrite app_assoc. Qed.

Section codec.
Context (data : list Z).
Local Abbreviation size := (Z.of_nat (length data)).

(** A token is right at [pos] when it stands for the data from [pos] on. *)
Inductive tok_ok : Z → token → Z → Prop :=
| ok_lit pos c :
    0 ≤ pos → data !! Z.to_nat pos = Some c → tok_ok pos (Lit c) (pos + 1)
| ok_mat pos src len :
    0 ≤ src < pos → pos - 4096 ≤ src → 3 ≤ len ≤ 18 → pos + len ≤ size →
    (∀ k, 0 ≤ k < len → data !! Z.to_nat (src + k) = data !! Z.to_nat (pos + k)) →
    tok_ok pos (Mat ((4078 + src) mod 4096) (len - 3)) (pos + len).

Inductive toks_ok : Z → list token → Z → Prop :=
| toks_nil pos : toks_ok pos [] pos
| toks_cons pos t pos1 ts pos2 :
    tok_ok pos t pos1 → toks_ok pos1 ts pos2 → toks_ok pos (t :: ts) pos2.

Lemma toks_ok_app pos ts pos1 ts' pos2 :
  toks_ok pos ts pos1 → toks_ok pos1 ts' pos2 → toks_ok pos (ts ++ ts') pos2.
Proof. induction 1; simpl; eauto using toks_ok. Qed.

Lemma toks_ok_app_inv pos ts ts' pos2 :
  toks_ok pos (ts ++ ts') pos2 → ∃ pos1, toks_ok pos ts pos1 ∧ toks_ok pos1 ts' pos2.
Proof.
  revert pos. induction ts as [|t ts IH]; simpl; intros pos H; [eauto using toks_ok|].
  inversion H as [|? ? p1 ? ? Ht Hts]; subst.
  destruct (IH _ Hts) as (p2 & H1 & H2). eauto using toks_ok.
Qed.

(** A token advances and its encoding is no longer than what it stands for. *)
Lemma tok_ok_size pos t pos' :
  tok_ok pos t pos' →
  0 ≤ pos < pos' ∧ pos' ≤ size ∧ (1 ≤ length (tok_bytes t))%nat ∧
  Z.of_nat (length (tok_bytes t)) ≤ pos' - pos.
Proof.
  destruct 1 as [pos c Hp Hc|]; simpl; [|lia].
  apply lookup_lt_Some in Hc. lia.
Qed.

Lemma toks_ok_size pos ts pos' :
  toks_ok pos ts pos' →
  pos + Z.of_nat (length (toks_bytes ts)) ≤ pos' ∧ pos + Z.of_nat (length ts) ≤ pos' ∧
  (length ts ≤ length (toks_bytes ts))%nat.
Proof.
  induction 1 as [|pos t pos1 ts pos2 Ht Hts IH]; simpl; [unfold toks_bytes; simpl; lia|].
  apply tok_ok_size in Ht. unfold toks_bytes in *. simpl. rewrite length_app. lia.
Qed.

(** ** The decoder undoes tokens *)

(** The decoder has produced the data up to [pos], and its ring buffer holds
    the last 4096 bytes of it. *)
Record dec_at (pos : Z) (d : dec) : Prop := {
  at_pos : 0 ≤ pos ≤ size;
  at_out : d_out d = take (Z.to_nat pos) data;
  at_len : length (d_buf d) = 4113%nat;
  at_r : d_r d = (4078 + pos) mod 4096;
  at_ring : ∀ j, 0 ≤ j → pos - 4096 ≤ j < pos →
    d_buf d !! Z.to_nat ((4078 + j) mod 4096) = data !! Z.to_nat j
}.

Lemma ring_index x : Z.land (u32 x) (LZSS_N - 1) = x mod 4096.
Proof.
  change (LZSS_N - 1) with (2 ^ 12 - 1). rewrite land_ones_mod by lia.
  unfold u32. change (2 ^ 12) with 4096. Z.div_mod_to_equations. lia.
Qed.

Lemma ring_distinct j pos :
  pos - 4096 < j < pos → Z.to_nat ((4078 + j) mod 4096) ≠ Z.to_nat ((4078 + pos) mod 4096).
Proof. intros H. Z.div_mod_to_equations. lia. Qed.

Lemma dec_emit_at cap pos c d :
  dec_at pos d → data !! Z.to_nat pos = Some c → size ≤ cap →
  ∃ d', dec_emit cap c d = Ret (Some d') ∧ dec_at (pos + 1) d'.
Proof.
  intros [Hp Ho Hl Hr Hring] Hc Hcap. pose proof (lookup_lt_Some _ _ _ Hc) as Hlt.
  unfold dec_emit. rewrite Ho, length_take.
  rewrite (proj2 (Z.leb_gt _ _)) by lia.
  assert (0 ≤ d_r d < 4096) by (rewrite Hr; apply Z.mod_pos_bound; lia).
  rewrite oset_in by (rewrite Hl; lia).
  simpl. eexists. split; [done|]. constructor; simpl; try lia.
  - replace (Z.to_nat (pos + 1)) with (S (Z.to_nat pos)) by lia.
    by rewrite (take_S_r _ _ _ Hc).
  - by rewrite length_insert.
  - rewrite ring_index, Hr. Z.div_mod_to_equations. lia.
  - intros j Hj0 Hj. rewrite Hr. destruct (Z.eq_dec j pos) as [->|Hne].
    + rewrite list_lookup_insert_eq by (rewrite Hl; lia). done.
    + rewrite list_lookup_insert_ne by (apply not_eq_sym, ring_distinct; lia).
      apply Hring; lia.
Qed.

Lemma dec_match_at cap src n pos d k :
  dec_at (pos + k) d → 0 ≤ k → 0 ≤ src < pos → pos - 4096 ≤ src →
  pos + k + Z.of_nat n ≤ size → size ≤ cap →
  (∀ i, k ≤ i < k + Z.of_nat n → data !! Z.to_nat (src + i) = data !! Z.to_nat (pos + i)) →
  ∃ d', dec_match n cap ((4078 + src) mod 4096) k d = Ret (Some d') ∧
    dec_at (pos + k + Z.of_nat n) d'.
Proof.
  revert d k. induction n as [|n IH]; intros d k Hat Hk Hs Hw Hn Hcap Heq; simpl.
  - exists d. split; [done|]. by rewrite Z.add_0_r.
  - rewrite ring_index.
    replace (((4078 + src) mod 4096 + k) mod 4096) with ((4078 + (src + k)) mod 4096)
      by (rewrite Zplus_mod_idemp_l; f_equal; lia).
    destruct (lookup_lt_is_Some_2 data (Z.to_nat (pos + k))) as [c Hc]; [lia|].
    rewrite (oget_in (d_buf d) _ c); [|apply Z.mod_pos_bound; lia|].
    2:{ rewrite (at_ring _ _ Hat) by lia. rewrite Heq by lia. done. }
    simpl. destruct (dec_emit_at cap (pos + k) c d Hat Hc Hcap) as (d1 & -> & Hat1). simpl.
    rewrite <- Z.add_assoc in Hat1.
    destruct (IH d1 (k + 1)) as (d2 & -> & Hat2); try done; try lia.
    { intros i Hi. apply Heq. lia. }
    exists d2. split; [done|]. by replace (pos + k + Z.of_nat (S n))
      with (pos + (k + 1) + Z.of_nat n) by lia.
Qed.

Lemma byte1_split h l :
  0 ≤ h < 16 → 0 ≤ l < 16 →
  let b := u8 (Z.lor (Z.shiftl h 4) (Z.land l 15)) in
  is_u8 b ∧ Z.land b 240 = 16 * h ∧ Z.land b 15 = l.
Proof.
  intros Hh Hl b.
  assert (b = 16 * h + l) as ->.
  { subst b. change 15 with (2 ^ 4 - 1). rewrite land_ones_mod by lia.
    rewrite (Z.mod_small l) by lia. rewrite shiftl_lor_add by lia.
    rewrite u8_small by (unfold is_u8; lia). lia. }
  assert (is_u8 (16 * h + l)) as Hb by (unfold is_u8; lia). split; [done|].
  pose proof (byte_forall (λ x, (Z.land x 240 =? 16 * (x / 16)) && (Z.land x 15 =? x mod 16))
    ltac:(vm_compute; reflexivity) _ Hb) as E. simpl in E. bool_to_prop.
  split; Z.div_mod_to_equations; lia.
Qed.

Lemma mat_fields mp lf :
  0 ≤ mp < 4096 → 0 ≤ lf < 16 →
  ∃ b0 b1, tok_bytes (Mat mp lf) = [b0; b1] ∧
    Z.lor b0 (Z.shiftl (Z.land b1 240) 4) = mp ∧ Z.land b1 15 = lf.
Proof.
  intros Hm Hl. eexists _, _. split; [done|].
  destruct (byte1_split (Z.shiftr mp 8) lf) as (_ & -> & ->); [|lia|].
  { rewrite Z.shiftr_div_pow2 by lia. change (2 ^ 8) with 256. Z.div_mod_to_equations. lia. }
  split; [|done].
  change 255 with (2 ^ 8 - 1). rewrite land_ones_mod by lia.
  rewrite Z.shiftr_div_pow2, Z.lor_comm by lia. change (2 ^ 8) with 256.
  replace (Z.shiftl (16 * (mp / 256)) 4) with (Z.shiftl (mp / 256) 8)
    by (rewrite !Z.shiftl_mul_pow2 by lia; lia).
  rewrite u8_small by (unfold is_u8; apply Z.mod_pos_bound; lia).
  rewrite shiftl_lor_add by (try apply Z.mod_pos_bound; lia).
  change (2 ^ 8) with 256. Z.div_mod_to_equations. lia.
Qed.

Lemma dec_symbol_tok cap flags pos t pos' rest d :
  tok_ok pos t pos' → dec_at pos d → Z.testbit flags 0 = is_lit t → size ≤ cap →
  ∃ d', dec_symbol cap flags (tok_bytes t ++ rest) d = Ret (DNext rest d') ∧ dec_at pos' d'.
Proof.
  intros Ht Hat Hb Hcap. unfold dec_symbol.
  replace (Z.land flags 1 =? 0) with (negb (is_lit t))
    by (rewrite <- Hb; symmetry; apply (land_pow2_testbit flags 0); lia).
  rewrite negb_involutive.
  destruct Ht as [pos c Hp Hc|pos src len Hs Hw Hlen Hsz Heq]; simpl is_lit; cbv iota.
  - simpl. destruct (dec_emit_at cap pos c d Hat Hc Hcap) as (d' & -> & H'). simpl. eauto.
  - destruct (mat_fields ((4078 + src) mod 4096) (len - 3)) as (b0 & b1 & -> & E0 & E1);
      [apply Z.mod_pos_bound; lia|lia|].
    simpl app. cbv iota. rewrite E0, E1.
    replace (Z.to_nat (len - 3 + LZSS_THRESHOLD + 1)) with (Z.to_nat len)
      by (unfold LZSS_THRESHOLD; lia).
    replace pos with (pos + 0) in Hat by lia.
    destruct (dec_match_at cap src (Z.to_nat len) pos d 0) as (d' & E & H'); try done; try lia.
    { intros i Hi. apply Heq. lia. }
    exists d'. rewrite E. simpl. split; [done|].
    by replace (pos + len) with (pos + 0 + Z.of_nat (Z.to_nat len)) by lia.
Qed.

Lemma flags_bit b i :
  0 ≤ i < 8 → Z.testbit (Z.shiftr (Z.lor b 65280) i) 0 = Z.testbit b i.
Proof.
  intros Hi. rewrite Z.shiftr_spec, Z.lor_spec by lia. rewrite Z.add_0_l.
  assert (i = 0 ∨ i = 1 ∨ i = 2 ∨ i = 3 ∨ i = 4 ∨ i = 5 ∨ i = 6 ∨ i = 7) as Hc by lia.
  destruct_or! Hc; subst; apply orb_false_r.
Qed.

Lemma flags_exhausted b i :
  (∀ k, 8 ≤ k → Z.testbit b k = false) → 0 ≤ i ≤ 8 →
  (Z.land (Z.shiftr (Z.lor b 65280) i) 256 =? 0) = (i =? 8).
Proof.
  intros Hb Hi. change 256 with (Z.shiftl 1 8). rewrite land_pow2_testbit by lia.
  rewrite Z.shiftr_spec, Z.lor_spec, Hb by lia.
  assert (i = 0 ∨ i = 1 ∨ i = 2 ∨ i = 3 ∨ i = 4 ∨ i = 5 ∨ i = 6 ∨ i = 7 ∨ i = 8) as Hc by lia.
  destruct_or! Hc; subst; reflexivity.
Qed.

(** One iteration when the flags are not used up. *)
Lemma dec_loop_tok fuel cap b i t rest pos pos' d :
  (∀ k, 8 ≤ k → Z.testbit b k = false) → 1 ≤ i < 8 → Z.testbit b i = is_lit t →
  tok_ok pos t pos' → dec_at pos d → size ≤ cap →
  ∃ d', dec_loop (S fuel) cap (tok_bytes t ++ rest) (Z.shiftr (Z.lor b 65280) (i - 1)) d =
        dec_loop fuel cap rest (Z.shiftr (Z.lor b 65280) i) d' ∧ dec_at pos' d'.
Proof.
  intros Hb Hi Hbit Ht Hat Hcap.
  destruct (dec_symbol_tok cap (Z.shiftr (Z.lor b 65280) i) pos t pos' rest d)
    as (d' & E & H'); [done|done|by rewrite flags_bit by lia|done|].
  exists d'. split; [|done].
  assert (∃ c l, tok_bytes t ++ rest = c :: l) as (c & l & Ec) by (destruct t; simpl; eauto).
  rewrite Ec in *. simpl dec_loop.
  rewrite Z.shiftr_shiftr by lia. replace (i - 1 + 1) with i by lia.
  rewrite flags_exhausted by (done || lia). rewrite (proj2 (Z.eqb_neq i 8)) by lia.
  rewrite E. done.
Qed.

Lemma dec_loop_toks cap b ts : ∀ fuel i rest pos pos' d,
  (∀ k, 8 ≤ k → Z.testbit b k = false) → 1 ≤ i → i + Z.of_nat (length ts) ≤ 8 →
  (∀ k t, ts !! k = Some t → Z.testbit b (i + Z.of_nat k) = is_lit t) →
  toks_ok pos ts pos' → dec_at pos d → size ≤ cap →
  (length ts + length rest ≤ fuel)%nat →
  ∃ d' fuel', dec_loop fuel cap (toks_bytes ts ++ rest) (Z.shiftr (Z.lor b 65280) (i - 1)) d =
    dec_loop fuel' cap rest (Z.shiftr (Z.lor b 65280) (i - 1 + Z.of_nat (length ts))) d' ∧
    dec_at pos' d' ∧ (length rest ≤ fuel')%nat.
Proof.
  induction ts as [|t ts IH]; intros fuel i rest pos pos' d Hb Hi Hn Hbits Hts Hat Hcap Hf.
  - inversion Hts; subst. exists d, fuel. unfold toks_bytes; simpl.
    rewrite Z.add_0_r. simpl in Hf. split_and!; [done|done|lia].
  - inversion Hts as [|? ? pos1 ? ? Ht Hts']; subst. simpl in Hn, Hf.
    destruct fuel as [|fuel]; [lia|].
    assert (Z.testbit b i = is_lit t) as Hb0.
    { rewrite <- (Hbits 0%nat t) by done. f_equal. lia. }
    rewrite toks_bytes_cons.
    destruct (dec_loop_tok fuel cap b i t (toks_bytes ts ++ rest) pos pos1 d)
      as (d1 & -> & Hat1); try done; [lia|].
    replace (Z.shiftr (Z.lor b 65280) i) with (Z.shiftr (Z.lor b 65280) (i + 1 - 1))
      by (f_equal; lia).
    destruct (IH fuel (i + 1) rest pos1 pos' d1) as (d2 & f2 & -> & Hat2 & Hf2);
      try done; try lia.
    { intros k t' Hk. rewrite <- (Hbits (S k) t') by done. f_equal. lia. }
    exists d2, f2. split_and!; [|done|done].
    by replace (i - 1 + Z.of_nat (length (t :: ts))) with (i + 1 - 1 + Z.of_nat (length ts))
      by (simpl; lia).
Qed.

(** Reading one whole group when the flags are used up. *)
Lemma dec_loop_group cap g fuel rest pos pos' d flags :
  (1 ≤ length g ≤ 8)%nat → Z.land (Z.shiftr flags 1) 256 = 0 →
  toks_ok pos g pos' → dec_at pos d → size ≤ cap →
  (1 + length g + length rest ≤ fuel)%nat →
  ∃ d' fuel', dec_loop fuel cap (group g ++ rest) flags d =
    dec_loop fuel' cap rest
      (Z.shiftr (Z.lor (flags_from 0 g) 65280) (Z.of_nat (length g) - 1)) d' ∧
    dec_at pos' d' ∧ (length rest ≤ fuel')%nat.
Proof.
  intros Hg Hflags Hts Hat Hcap Hf.
  assert (∀ k, 8 ≤ k → Z.testbit (flags_from 0 g) k = false) as Hhi.
  { intros k Hk. rewrite flags_from_testbit by lia.
    rewrite (proj2 (Z.ltb_ge _ _)), lookup_ge_None_2 by lia. done. }
  assert (∀ k t, g !! k = Some t → Z.testbit (flags_from 0 g) (Z.of_nat k) = is_lit t) as Hlo.
  { intros k t Hk. rewrite flags_from_testbit by lia.
    rewrite (proj2 (Z.ltb_ge _ _)), Z.sub_0_r, Nat2Z.id, Hk by lia. done. }
  destruct g as [|t ts]; [simpl in Hg; lia|].
  inversion Hts as [|? ? pos1 ? ? Ht Hts']; subst. destruct fuel as [|fuel]; [lia|].
  set (b := flags_from 0 (t :: ts)) in *.
  unfold group. fold b. rewrite <- app_comm_cons, toks_bytes_cons.
  cbn [dec_loop]. rewrite (proj2 (Z.eqb_eq _ _) Hflags).
  destruct (dec_symbol_tok cap (Z.lor b 65280) pos t pos1 (toks_bytes ts ++ rest) d)
    as (d1 & E1 & Hat1); [done|done| |done|].
  { rewrite <- (Hlo 0%nat t) by done. apply (flags_bit b 0). lia. }
  rewrite E1. cbn [obind]. simpl in Hg, Hf.
  destruct (dec_loop_toks cap b ts fuel 1 rest pos1 pos' d1) as (d2 & f2 & E2 & Hat2 & Hf2);
    try done; try lia.
  { intros k t' Hk. rewrite <- (Hlo (S k) t') by done. f_equal. lia. }
  exists d2, f2. split_and!; [|done|done].
  change (1 - 1) with 0 in E2. rewrite Z.shiftr_0_r in E2. rewrite E2.
  by replace (Z.of_nat (length (t :: ts)) - 1) with (0 + Z.of_nat (length ts)) by (simpl; lia).
Qed.

Lemma dec_loop_full cap full : ∀ fuel rest pos pos' d flags,
  Forall (λ g, length g = 8%nat) full → Z.land (Z.shiftr flags 1) 256 = 0 →
  toks_ok pos (concat full) pos' → dec_at pos d → size ≤ cap →
  (length (concat (map group full) ++ rest) ≤ fuel)%nat →
  ∃ d' fuel' flags', dec_loop fuel cap (concat (map group full) ++ rest) flags d =
    dec_loop fuel' cap rest flags' d' ∧ Z.land (Z.shiftr flags' 1) 256 = 0 ∧
    dec_at pos' d' ∧ (length rest ≤ fuel')%nat.
Proof.
  induction full as [|g full IH]; intros fuel rest pos pos' d flags H8 Hfl Hts Hat Hcap Hf.
  - inversion Hts; subst. exists d, fuel, flags. split_and!; done.
  - apply Forall_cons in H8 as [Hg H8]. simpl in Hts.
    apply toks_ok_app_inv in Hts as (pos1 & Hg1 & Hrest).
    pose proof (toks_ok_size _ _ _ Hg1) as (_ & _ & Hlen).
    cbn [map concat] in *. rewrite <- app_assoc in *.
    assert (length (group g) = S (length (toks_bytes g))) as Hgl by done.
    destruct (dec_loop_group cap g fuel (concat (map group full) ++ rest) pos pos1 d flags)
      as (d1 & f1 & E1 & Hat1 & Hf1); try done; [lia| |].
    { rewrite length_app in Hf. lia. }
    rewrite E1. apply (IH f1 rest pos1 pos' d1); try done.
    rewrite Hg, Z.shiftr_shiftr by lia.
    apply Z.eqb_eq. change (Z.of_nat 8 - 1 + 1) with 8. rewrite flags_exhausted; [done| |lia].
    intros k Hk. rewrite flags_from_testbit by lia.
    rewrite (proj2 (Z.ltb_ge _ _)), lookup_ge_None_2 by lia. done.
Qed.

(** Decoding a stream of full groups and one partial group. *)
Lemma decompress_stream full cur cap junk :
  Forall (λ g, length g = 8%nat) full → (length cur < 8)%nat →
  toks_ok 0 (concat full ++ cur) size → length junk = 4113%nat →
  0 < size → size ≤ cap →
  lzss_decompress (concat (map group full) ++ (if decide (cur = []) then [] else group cur))
    cap (Some junk) = Ret (size, data).
Proof.
  intros H8 Hcur Hts Hj Hpos Hcap. unfold lzss_decompress.
  set (inp := concat (map group full) ++ _).
  apply toks_ok_app_inv in Hts as (pos1 & Hfull & Hlast).
  assert (length inp ≠ 0)%nat as Hne.
  { subst inp. intros H0. destruct full as [|g full]; simpl in H0.
    - destruct (decide (cur = [])) as [->|]; [|done].
      inversion Hfull; subst. inversion Hlast; subst. lia.
    - lia. }
  rewrite !(proj2 (Z.eqb_neq _ 0)) by lia. cbv [orb].
  assert (dec_at 0 (mk_dec [] (replicate (Z.to_nat (LZSS_N - LZSS_F)) 32 ++
     drop (Z.to_nat (LZSS_N - LZSS_F)) junk) (LZSS_N - LZSS_F))) as Hat0.
  { constructor; cbn [d_out d_buf d_r]; [lia|done| |done|lia].
    rewrite length_app, length_replicate, length_drop, Hj. done. }
  destruct (dec_loop_full cap full (S (length inp))
    (if decide (cur = []) then [] else group cur) 0 pos1 _ 0 H8 eq_refl Hfull Hat0 Hcap)
    as (d1 & f1 & fl1 & E1 & Hfl & Hat1 & Hf1); [fold inp; lia|].
  fold inp in E1. rewrite E1.
  assert (∃ d2, dec_loop f1 cap (if decide (cur = []) then [] else group cur) fl1 d1
    = Ret (Some d2) ∧ dec_at size d2) as (d2 & -> & Hat2).
  { destruct (decide (cur = [])) as [->|Hc].
    - inversion Hlast; subst. exists d1. by destruct f1.
    - pose proof (toks_ok_size _ _ _ Hlast) as (_ & _ & Hl). simpl in Hf1.
      destruct cur as [|t cur]; [done|].
      destruct (dec_loop_group cap (t :: cur) f1 [] pos1 size d1 fl1)
        as (d2 & f2 & E2 & Hat2 & _); try done; [simpl in *; lia|simpl in *; lia|].
      rewrite app_nil_r in E2. exists d2. rewrite E2. by destruct f2. }
  simpl. by rewrite (at_out _ _ Hat2), Nat2Z.id, firstn_all.
Qed.
End codec.

(** ** The encoder produces right tokens *)

Section encoder.
Context (data : list Z) (Hsize : Z.of_nat (length data) ≤ 2 ^ 30).
Local Abbreviation size := (Z.of_nat (length data)).

(** Every entry of the hash chains is empty or an earlier position. *)
Definition earlier (pos e : Z) : Prop := e = LZSS_NONE ∨ 0 ≤ e < pos.

Record hash_ok (pos : Z) (head prev : list Z) : Prop := {
  hash_head_len : length head = 4096%nat;
  hash_prev_len : length prev = 4096%nat;
  hash_head : Forall (earlier pos) head;
  hash_prev : Forall (earlier pos) prev
}.

Lemma earlier_mono pos pos' e : pos ≤ pos' → earlier pos e → earlier pos' e.
Proof. unfold earlier. lia. Qed.

Lemma earlier_all_mono pos pos' l :
  pos ≤ pos' → Forall (earlier pos) l → Forall (earlier pos') l.
Proof. intros Hp Hl. eapply Forall_impl; [done|]. intros e. by apply earlier_mono. Qed.

Lemma data_get p : 0 ≤ p < size → ∃ x, oget data p = Ret x.
Proof. intros H. destruct (oget_is_ret data p H) as (x & ? & _). eauto. Qed.

Lemma lzss_hash3_ok p : 0 ≤ p → p + 2 < size → ∃ h, lzss_hash3 data p = Ret h ∧ 0 ≤ h < 4096.
Proof.
  intros H0 H2. unfold lzss_hash3.
  destruct (data_get p) as [a ->]; [lia|]. destruct (data_get (p + 1)) as [b ->]; [lia|].
  destruct (data_get (p + 2)) as [c ->]; [lia|]. simpl. eexists. split; [done|].
  change (32 - LZSS_HASH_BITS) with 20.
  rewrite Z.shiftr_div_pow2 by lia. change (2 ^ 20) with 1048576.
  pose proof (u32_range (Z.lor (Z.lor a (u32 (b ≪ 8))) (u32 (c ≪ 16)) * 2654435761)) as Hr.
  unfold is_u32 in Hr. Z.div_mod_to_equations. lia.
Qed.

Lemma land_4095 x : Z.land x (LZSS_N - 1) = x mod 4096.
Proof. apply (land_ones_mod x 12). lia. Qed.

Lemma insert_range_ok n : ∀ head prev p,
  hash_ok p head prev → 0 ≤ p → p + Z.of_nat n ≤ size →
  ∃ head' prev', lzss_insert_range n data head prev p = Ret (head', prev') ∧
    hash_ok (p + Z.of_nat n) head' prev'.
Proof.
  induction n as [|n IH]; intros head prev p Hok Hp Hn.
  - exists head, prev. split; [done|]. by rewrite Z.add_0_r.
  - destruct Hok as [Hh Hv Fh Fv]. simpl.
    rewrite u32_small by (unfold is_u32; lia).
    destruct (Z.leb_spec size (p + 2)).
    { exists head, prev. split; [done|].
      constructor; try done; apply (earlier_all_mono p); done || lia. }
    destruct (lzss_hash3_ok p) as (h & -> & Hhr); [lia|lia|]. simpl.
    destruct (oget_is_ret head h) as (old & -> & Hold); [rewrite Hh; lia|]. simpl.
    rewrite land_4095. pose proof (Z.mod_pos_bound p 4096 ltac:(lia)).
    rewrite oset_in by (rewrite Hv; lia). simpl. rewrite oset_in by (rewrite Hh; lia). simpl.
    replace (p + Z.of_nat (S n)) with (p + 1 + Z.of_nat n) by lia.
    apply IH; [|lia|lia].
    pose proof (earlier_all_mono p (p + 1) head ltac:(lia) Fh) as Fh'.
    pose proof (earlier_all_mono p (p + 1) prev ltac:(lia) Fv) as Fv'.
    constructor; rewrite ?length_insert; try done; apply Forall_insert; try done.
    + right. lia.
    + by apply (Forall_lookup_1 _ _ _ _ Fh' Hold).
Qed.

(** [len] bytes at [src] and at [pos] agree. *)
Definition agree (src pos len : Z) : Prop :=
  ∀ k, 0 ≤ k < len → data !! Z.to_nat (src + k) = data !! Z.to_nat (pos + k).

Lemma match_length_ok n : ∀ cand pos len,
  0 ≤ cand → 0 ≤ len → cand < pos → pos + len + Z.of_nat n ≤ size → agree cand pos len →
  ∃ L, match_length n data cand pos len = Ret L ∧ len ≤ L ≤ len + Z.of_nat n ∧
    agree cand pos L.
Proof.
  induction n as [|n IH]; intros cand pos len Hc Hl Hlt Hn Ha; simpl.
  - exists len. split_and!; [done|lia|lia|done].
  - destruct (oget_is_ret data (cand + len)) as (a & -> & Ea); [lia|].
    destruct (oget_is_ret data (pos + len)) as (b & -> & Eb); [lia|]. simpl.
    destruct (Z.eqb_spec a b) as [->|Hne].
    + destruct (IH cand pos (len + 1)) as (L & -> & HL & HA); try lia.
      { intros k Hk. destruct (Z.eq_dec k len) as [->|]; [congruence|]. apply Ha. lia. }
      exists L. split_and!; [done|lia|lia|done].
    + exists len. split_and!; [done|lia|lia|done].
Qed.

(** A usable match: earlier, inside the window, and equal to the data. *)
Definition good_match (pos max_len best_len best_src : Z) : Prop :=
  0 ≤ best_len ≤ max_len ∧
  (best_len = 0 ∨ (0 ≤ best_src < pos ∧ pos - 4096 ≤ best_src ∧ agree best_src pos best_len)).

Lemma walk_chain_ok chain : ∀ prev pos max_len ws cand best_len best_src,
  length prev = 4096%nat → Forall (earlier pos) prev → earlier pos cand →
  0 ≤ max_len → pos + max_len ≤ size → 0 ≤ ws → pos - 4096 ≤ ws →
  good_match pos max_len best_len best_src →
  ∃ bl bs, walk_chain chain data prev pos max_len ws cand best_len best_src = Ret (bl, bs) ∧
    good_match pos max_len bl bs.
Proof.
  induction chain as [|chain IH]; intros prev pos max_len ws cand bl bs Hpl Fp Hcand Hm Hpm Hws Hw Hg;
    cbn [walk_chain];
    destruct ((cand =? LZSS_NONE) || (cand <? ws)) eqn:Hstop; eauto.
  bool_to_prop. destruct Hcand as [|Hcand]; [done|].
  destruct (match_length_ok (Z.to_nat max_len) cand pos 0) as (L & -> & HL & HA);
    try lia; [intros k Hk; lia|]. simpl.
  pose proof (Z.mod_pos_bound cand 4096 ltac:(lia)).
  destruct (oget_is_ret prev (cand mod 4096)) as (next & Hnext & Hlk); [rewrite Hpl; lia|].
  rewrite land_4095.
  assert (∀ bl' bs', good_match pos max_len bl' bs' →
    ∃ bl bs, (let* next := oget prev (cand mod 4096) in
      if negb (next =? LZSS_NONE) && (cand <=? next) then Ret (bl', bs')
      else walk_chain chain data prev pos max_len ws next bl' bs') = Ret (bl, bs) ∧
      good_match pos max_len bl bs) as Hcont.
  { intros bl' bs' Hg'. rewrite Hnext. simpl.
    destruct (negb (next =? LZSS_NONE) && (cand <=? next)); [eauto|].
    apply IH; try done. eapply (Forall_lookup_1 _ _ _ _ Fp Hlk). }
  destruct (bl <=? L); apply Hcont; [|done].
  split; [lia|]. destruct (Z.eq_dec L 0); [by left|]. right. split_and!; try lia. done.
Qed.

Lemma find_match_ok head prev pos :
  hash_ok pos head prev → 0 ≤ pos < size →
  ∃ bl bs, find_match data head prev pos = Ret (bl, bs) ∧ bl ≤ 18 ∧ pos + bl ≤ size ∧
    good_match pos (size - pos) bl bs.
Proof.
  intros [Hh Hv Fh Fv] Hpos. unfold find_match, LZSS_F, LZSS_THRESHOLD.
  set (max_len := if size - pos <? 18 then size - pos else 18).
  assert (max_len ≤ 18 ∧ pos + max_len ≤ size ∧ 0 < max_len) as Hm.
  { subst max_len. destruct (Z.ltb_spec (size - pos) 18); lia. }
  destruct (Z.leb_spec (2 + 1) max_len).
  - destruct (lzss_hash3_ok pos) as (h & -> & Hhr); [lia|lia|]. cbn [obind].
    destruct (oget_is_ret head h) as (cand & -> & Hcand); [rewrite Hh; lia|]. cbn [obind].
    destruct (walk_chain_ok LZSS_MAX_CHAIN prev pos max_len
      (if LZSS_N <? pos then pos - LZSS_N else 0) cand 0 0) as (bl & bs & -> & Hg); try done; try lia.
    + eapply (Forall_lookup_1 _ _ _ _ Fh Hcand).
    + destruct (Z.ltb_spec LZSS_N pos); unfold LZSS_N in *; lia.
    + destruct (Z.ltb_spec LZSS_N pos); unfold LZSS_N in *; lia.
    + split; [lia|]. by left.
    + exists bl, bs. destruct Hg as [? Hg]. split_and!; try done; lia || (split; [lia|done]).
  - exists 0, 0. split_and!; try lia; [done|]. split; [lia|]. by left.
Qed.


(** The encoder's state stands for a list of tokens: [full] already written
    out in groups of eight, [cur] in the group being collected. *)
Record enc_ok (e : enc) (full : list (list token)) (cur : list token) : Prop := {
  enc_out : e_out e = concat (map group full);
  enc_full : Forall (λ g, length g = 8%nat) full;
  enc_bit : e_flag_bit e = Z.of_nat (length cur);
  enc_flags : e_flag_byte e = flags_from 0 cur;
  enc_chunk : e_chunk e = toks_bytes cur;
  enc_toks : toks_ok data 0 (concat full ++ cur) (e_pos e);
  enc_hash : hash_ok (e_pos e) (e_head e) (e_prev e);
  enc_cap : ∃ k, 8 ≤ k ≤ 31 ∧ e_cap e = 2 ^ k
}.

Lemma u8_bit i : 0 ≤ i < 8 → u8 (Z.shiftl 1 i) = Z.shiftl 1 i.
Proof.
  intros. apply u8_small. unfold is_u8. rewrite Z.shiftl_1_l.
  pose proof (Z.pow_lt_mono_r 2 i 8). pose proof (Z.pow_pos_nonneg 2 i). lia.
Qed.

(** Adding a token to the current group. *)
Lemma enc_push e full cur t pos' head prev fb :
  enc_ok e full cur → tok_ok data (e_pos e) t pos' → hash_ok pos' head prev →
  fb = flags_from 0 (cur ++ [t]) →
  enc_ok (mk_enc (e_out e) (e_cap e) fb (e_flag_bit e + 1) (e_chunk e ++ tok_bytes t)
            head prev pos') full (cur ++ [t]).
Proof.
  intros [H1 H2 H3 H4 H5 H6 H7 H8] Ht Hh ->. constructor; simpl; try done.
  - rewrite length_app. simpl. lia.
  - rewrite H5. unfold toks_bytes. rewrite map_app, concat_app. simpl. by rewrite app_nil_r.
  - rewrite app_assoc. eapply toks_ok_app; [done|]. eauto using toks_ok.
Qed.

Lemma enc_symbol_ok e full cur :
  enc_ok e full cur → (length cur < 8)%nat → 0 ≤ e_pos e < size →
  ∃ e' t, enc_symbol data e = Ret e' ∧ enc_ok e' full (cur ++ [t]) ∧
    e_pos e < e_pos e' ≤ size.
Proof.
  intros Hok Hcur Hpos. pose proof Hok as [H1 H2 H3 H4 H5 H6 H7 H8].
  destruct (find_match_ok _ _ _ H7 Hpos) as (bl & bs & E & Hbl & Hend & Hrange & Hg).
  unfold enc_symbol. rewrite E. cbn [obind]. unfold LZSS_THRESHOLD.
  destruct (Z.ltb_spec 2 bl) as [Hm|Hm].
  - destruct Hg as [|(Hs & Hw & Ha)]; [lia|].
    destruct (insert_range_ok (Z.to_nat bl) _ _ _ H7) as (head & prev & -> & Hh); [lia|lia|].
    rewrite Z2Nat.id in Hh by lia. cbn [obind].
    rewrite (u32_small (e_pos e + bl)) by (unfold is_u32; lia).
    eexists _, (Mat ((4078 + bs) mod 4096) (bl - 3)). split; [done|]. split; [|simpl; lia].
    unfold LZSS_F. change (LZSS_N - 18 + bs) with (4078 + bs). rewrite ring_index.
    apply (enc_push e full cur (Mat ((4078 + bs) mod 4096) (bl - 3))); try done.
    + apply ok_mat; try lia. done.
    + by rewrite flags_from_snoc, Z.lor_0_r.
  - destruct (oget_is_ret data (e_pos e)) as (c & -> & Hc); [lia|].
    destruct (insert_range_ok 1 _ _ _ H7) as (head & prev & -> & Hh); [lia|simpl; lia|].
    cbn [obind]. rewrite (u32_small (e_pos e + 1)) by (unfold is_u32; lia).
    eexists _, (Lit c). split; [done|]. split; [|simpl; lia].
    apply (enc_push e full cur (Lit c)); try done; [apply ok_lit; [lia|done]|].
    rewrite flags_from_snoc, H4, H3, u8_bit by lia. done.
Qed.

Lemma cap_double k : 8 ≤ k < 31 → u32 (2 ^ k * 2) = 2 ^ (k + 1).
Proof.
  intros Hk. rewrite Z.pow_add_r by lia. change (2 ^ 1) with 2. apply u32_small.
  unfold is_u32. pose proof (Z.pow_le_mono_r 2 k 30 ltac:(lia) ltac:(lia)).
  pose proof (Z.pow_pos_nonneg 2 k). lia.
Qed.

(** The buffer grows by doubling and never overflows 32 bits. *)
Lemma grow_cap_ok fuel : ∀ needed k,
  8 ≤ k ≤ 31 → needed ≤ 2 ^ 31 → 31 - k < Z.of_nat fuel →
  ∃ k', 8 ≤ k' ≤ 31 ∧ grow_cap fuel needed (2 ^ k) = Ret (2 ^ k') ∧ needed ≤ 2 ^ k'.
Proof.
  induction fuel as [|fuel IH]; intros needed k Hk Hn Hf; [lia|]. simpl.
  destruct (Z.ltb_spec (2 ^ k) needed) as [Hlt|Hge].
  - assert (k ≠ 31) by (intros ->; lia).
    rewrite cap_double by lia. apply IH; lia.
  - exists k. split_and!; done || lia.
Qed.

Lemma enc_bytes_bound e full cur :
  enc_ok e full cur →
  Z.of_nat (length (e_out e)) + Z.of_nat (length (e_chunk e)) ≤ e_pos e + Z.of_nat (length full) ∧
  8 * Z.of_nat (length full) + Z.of_nat (length cur) ≤ e_pos e.
Proof.
  intros [H1 H2 H3 H4 H5 H6 H7 H8]. apply toks_ok_size in H6 as (Hb & Hn & _).
  assert (∀ fs, Forall (λ g, length g = 8%nat) fs →
    length (concat (map group fs)) = (length (toks_bytes (concat fs)) + length fs)%nat ∧
    length (concat fs) = (8 * length fs)%nat) as Hgen.
  { induction 1 as [|g fs Hg _ [IH1 IH2]]; [done|]. simpl.
    unfold toks_bytes in *. rewrite map_app, concat_app, !length_app, IH1, IH2, Hg. simpl. lia. }
  destruct (Hgen full H2) as [Hg1 Hg2]. rewrite H1, H5, Hg1.
  unfold toks_bytes in *. rewrite map_app, concat_app, !length_app in Hb.
  rewrite length_app, Hg2 in Hn. lia.
Qed.

(** The capacity after making room: a power of two that fits 32 bits. *)
Lemma make_room_ok (rok : Z → bool) (needed cap k : Z) :
  8 ≤ k ≤ 31 → cap = 2 ^ k → needed ≤ 2 ^ 31 →
  ∃ oc, (if cap <? needed then
      let* new_cap := grow_cap 33 needed (u32 (cap * 2)) in
      Ret (if rok new_cap then Some new_cap else None)
    else Ret (Some cap)) = Ret oc ∧ ((∀ n, rok n = true) → oc ≠ None) ∧
    ∀ c, oc = Some c → ∃ k', 8 ≤ k' ≤ 31 ∧ c = 2 ^ k'.
Proof.
  intros Hk -> Hneed. destruct (Z.ltb_spec (2 ^ k) needed).
  - assert (k ≠ 31) by (intros ->; lia). rewrite cap_double by lia.
    destruct (grow_cap_ok 33 needed (k + 1)) as (k' & Hk' & -> & _); [lia|lia|lia|].
    cbn [obind]. eexists. split; [done|]. split.
    + intros Hr. by rewrite Hr.
    + intros c. destruct (rok (2 ^ k')); intros [=]; subst; eauto.
  - eexists. split; [done|]. split; [done|]. intros c [= <-]. eauto.
Qed.

(** Writing a group out: it succeeds unless the heap refuses. *)
Lemma flush_group_ok rok e full cur :
  enc_ok e full cur → length cur = 8%nat ∨ (0 < length cur < 8)%nat → e_pos e ≤ size →
  ∃ oe, flush_group rok e = Ret oe ∧
    ((∀ n, rok n = true) → oe ≠ None) ∧
    ∀ e', oe = Some e' → e_out e' = e_out e ++ group cur ∧ e_pos e' = e_pos e ∧
      (length cur = 8%nat → enc_ok e' (full ++ [cur]) []).
Proof.
  intros Hok Hcur Hpos. pose proof (enc_bytes_bound _ _ _ Hok) as [Hb1 Hb2].
  pose proof Hok as [H1 H2 H3 H4 H5 H6 H7 (k & Hk & Hcap)].
  unfold flush_group.
  set (needed := u32 _). assert (needed ≤ 2 ^ 31) as Hneed.
  { subst needed. rewrite u32_small by (unfold is_u32; lia). lia. }
  destruct (make_room_ok rok needed (e_cap e) k) as (oc & -> & Hoc1 & Hoc2); [exact Hk|exact Hcap|exact Hneed|].
  cbn [obind]. destruct oc as [c|]; [|eexists; split; [done|]; split; [intros Hr; by specialize (Hoc1 Hr)|intros ? [=]]].
  eexists. split; [done|]. split; [done|]. intros e' [= <-]. simpl.
  unfold group. rewrite <- H4, <- H5. split_and!; [done|done|]. intros Hc8.
  constructor; simpl; try done.
  - rewrite map_app, concat_app, H1. simpl. unfold group. by rewrite app_nil_r, <- H4, <- H5.
  - apply Forall_app. split; [done|]. by constructor.
  - rewrite app_nil_r, concat_app. simpl. by rewrite app_nil_r.
  - destruct (Hoc2 c eq_refl) as (k' & ? & ->). eauto.
Qed.

(** The encoder's loop reaches the end of the data. *)
Lemma enc_loop_ok rok fuel : ∀ e full cur,
  enc_ok e full cur → (length cur < 8)%nat → 0 ≤ e_pos e ≤ size →
  size - e_pos e ≤ Z.of_nat fuel →
  ∃ oe, enc_loop rok fuel data e = Ret oe ∧ ((∀ n, rok n = true) → oe ≠ None) ∧
    ∀ e', oe = Some e' → e_pos e' = size ∧
      ∃ full' cur', enc_ok e' full' cur' ∧ (length cur' < 8)%nat.
Proof.
  induction fuel as [|fuel IH]; intros e full cur Hok Hcur Hpos Hf; cbn [enc_loop];
    destruct (Z.ltb_spec (e_pos e) size).
  1: lia.
  1, 3: exists (Some e); split; [done|]; split; [done|]; intros e' [= <-]; split; [lia|]; eauto.
  destruct (enc_symbol_ok e full cur) as (e1 & t & -> & Hok1 & Hpos1); try done; [lia|].
  cbn [obind]. rewrite (enc_bit _ _ _ Hok1), length_app. simpl length.
  destruct (Z.eqb_spec (Z.of_nat (length cur + 1)) 8) as [H8|H8].
  - assert (length (cur ++ [t]) = 8%nat) as Hl8 by (rewrite length_app; simpl; lia).
    destruct (flush_group_ok rok e1 full (cur ++ [t]) Hok1 (or_introl Hl8)) as (oe & -> & Ho1 & Ho2);
      [lia|]. cbn [obind]. destruct oe as [e2|].
    + destruct (Ho2 e2 eq_refl) as (_ & Hp2 & Hok2).
      apply (IH e2 (full ++ [cur ++ [t]]) []); [auto|simpl; lia|lia|lia].
    + exists None. split; [done|]. split; [done|]. by intros ? [=].
  - apply (IH e1 full (cur ++ [t])); [done|rewrite length_app; simpl; lia|lia|lia].
Qed.

Lemma compress_stream aok rok :
  0 < size →
  ∃ r, lzss_compress aok rok data = Ret r ∧
    ((∀ n, aok n = true) → (∀ n, rok n = true) → r ≠ None) ∧
    ∀ o, r = Some o → ∃ full cur,
      Forall (λ g, length g = 8%nat) full ∧ (length cur < 8)%nat ∧
      toks_ok data 0 (concat full ++ cur) size ∧
      o = concat (map group full) ++ (if decide (cur = []) then [] else group cur) ∧
      Z.of_nat (length o) ≤ size + (size + 7) / 8.
Proof.
  intros Hsz. unfold lzss_compress. rewrite (proj2 (Z.eqb_neq size 0)) by lia.
  destruct (aok 256) eqn:Ha1; cbn [negb].
  2:{ exists None. split; [done|]. split; [congruence|]. by intros ? [=]. }
  destruct (aok (4 * (LZSS_HASH_SIZE + LZSS_N))) eqn:Ha2; cbn [negb].
  2:{ exists None. split; [done|]. split; [congruence|]. by intros ? [=]. }
  set (e0 := mk_enc _ _ _ _ _ _ _ _).
  assert (enc_ok e0 [] []) as Hok0.
  { constructor; cbn [e_out e_pos e_cap e_flag_byte e_flag_bit e_chunk e_head e_prev e0];
      try done; [constructor| |exists 8; split; [lia|done]].
    constructor; rewrite ?length_replicate; try done; apply Forall_replicate; by left. }
  destruct (enc_loop_ok rok (length data) e0 [] [] Hok0) as (oe & -> & Ho1 & Ho2);
    [simpl; lia|simpl; lia|simpl; lia|]. cbn [obind].
  destruct oe as [e|];
    [|exists None; split; [done|]; split; [intros _ Hr; by destruct (Ho1 Hr)|by intros ? [=]]].
  destruct (Ho2 e eq_refl) as (Hp & full & cur & Hok & Hcur).
  pose proof (enc_bytes_bound _ _ _ Hok) as [Hb1 Hb2].
  pose proof Hok as [H1 H2 H3 H4 H5 H6 _ _]. rewrite Hp in *.
  destruct (Z.ltb_spec 0 (e_flag_bit e)) as [Hbit|Hbit].
  - destruct (flush_group_ok rok e full cur Hok) as (oe & -> & Hf1 & Hf2); [lia|lia|]. cbn [obind].
    destruct oe as [e2|];
      [|exists None; split; [done|]; split; [intros _ Hr; by destruct (Hf1 Hr)|by intros ? [=]]].
    destruct (Hf2 e2 eq_refl) as (Ho & _ & _).
    eexists. split; [done|]. split; [done|]. intros o [= <-]. exists full, cur.
    split_and!; try done.
    + rewrite Ho, H1. rewrite decide_False; [done|]. intros ->. simpl in H3. lia.
    + rewrite Ho, length_app. unfold group; simpl. rewrite <- H5. Z.div_mod_to_equations. lia.
  - assert (cur = []) as -> by (destruct cur; [done|simpl in H3; lia]).
    eexists. split; [done|]. split; [done|]. intros o [= <-]. exists full, [].
    split_and!; try done; [by rewrite H1, decide_True, app_nil_r by done|].
    Z.div_mod_to_equations. lia.
Qed.
End encoder.

(** ** Round trip *)

(** C8. Decoding inverts encoding. For every non-empty input of at most 1 GiB
    the encoder runs to completion; unless the heap refuses it memory it
    returns a stream, and the decoder, given that stream, an output buffer
    that is large enough and a working buffer with arbitrary contents,
    returns exactly the input. The stream is at most one byte per eight
    input bytes longer than the input. *)
Theorem lzss_roundtrip (aok rok : Z → bool) (data junk : list Z) (cap : Z) :
  data ≠ [] → Z.of_nat (length data) ≤ 2 ^ 30 → Z.of_nat (length data) ≤ cap →
  length junk = 4113%nat →
  ∃ r, lzss_compress aok rok data = Ret r ∧
    ((∀ n, aok n = true) → (∀ n, rok n = true) → r ≠ None) ∧
    ∀ o, r = Some o →
      lzss_decompress o cap (Some junk) = Ret (Z.of_nat (length data), data) ∧
      Z.of_nat (length o) ≤ Z.of_nat (length data) + (Z.of_nat (length data) + 7) / 8.
Proof.
  intros Hne Hsz Hcap Hj.
  assert (0 < Z.of_nat (length data)) by (destruct data; [done|simpl; lia]).
  destruct (compress_stream data Hsz aok rok) as (r & E & Hr & Ho); [done|].
  exists r. split_and!; [done|done|]. intros o Hso.
  destruct (Ho o Hso) as (full & cur & H8 & Hcur & Hts & -> & Hlen).
  split; [|done]. by apply decompress_stream.
Qed.

Definition demo_data : list Z := [97;98;99;97;98;99;97;98;99;100;97;98;99;97;98;120].

Lemma lzss_roundtrip_witness :
  ∃ r, lzss_compress (λ _, true) (λ _, true) demo_data = Ret r ∧
    ∀ o, r = Some o → lzss_decompress o 16 (Some (replicate 4113 0)) = Ret (16, demo_data).
Proof.
  destruct (lzss_roundtrip (λ _, true) (λ _, true) demo_data (replicate 4113 0) 16)
    as (r & E & _ & H); [discriminate|vm_compute; discriminate|vm_compute; discriminate
      |apply length_replicate|].
  exists r. split; [exact E|]. intros o Ho. exact (proj1 (H o Ho)).
Defined.

(** ** The decoder is safe on any input *)

Record dec_safe (cap : Z) (d : dec) : Prop := {
  safe_len : length (d_buf d) = 4113%nat;
  safe_r : 0 ≤ d_r d < 4096;
  safe_out : Z.of_nat (length (d_out d)) ≤ cap
}.

Lemma dec_emit_safe cap c d :
  dec_safe cap d → ∃ od, dec_emit cap c d = Ret od ∧ ∀ d', od = Some d' → dec_safe cap d'.
Proof.
  intros [Hl Hr Ho]. unfold dec_emit.
  destruct (Z.leb_spec cap (Z.of_nat (length (d_out d)))).
  { exists None. split; [done|]. by intros ? [=]. }
  rewrite oset_in by (rewrite Hl; lia). cbn [obind]. eexists. split; [done|].
  intros d' [= <-]. constructor; simpl.
  - by rewrite length_insert.
  - rewrite ring_index. apply Z.mod_pos_bound. lia.
  - rewrite length_app. simpl. lia.
Qed.

Lemma dec_match_safe n : ∀ cap mp k d,
  dec_safe cap d →
  ∃ od, dec_match n cap mp k d = Ret od ∧ ∀ d', od = Some d' → dec_safe cap d'.
Proof.
  induction n as [|n IH]; intros cap mp k d Hd; cbn [dec_match].
  { exists (Some d). split; [done|]. by intros d' [= <-]. }
  rewrite ring_index. pose proof (Z.mod_pos_bound (mp + k) 4096 ltac:(lia)).
  destruct (oget_is_ret (d_buf d) ((mp + k) mod 4096)) as (c & -> & _);
    [rewrite (safe_len _ _ Hd); lia|]. cbn [obind].
  destruct (dec_emit_safe cap c d Hd) as ([d1|] & -> & H1); cbn [obind].
  - apply IH, H1. done.
  - exists None. split; [done|]. by intros ? [=].
Qed.

Lemma dec_symbol_safe cap flags inp d :
  dec_safe cap d →
  ∃ st, dec_symbol cap flags inp d = Ret st ∧
    ∀ rest d', st = DNext rest d' → (length rest < length inp)%nat ∧ dec_safe cap d'.
Proof.
  intros Hd. unfold dec_symbol.
  destruct (negb (Z.land flags 1 =? 0)).
  - destruct inp as [|c rest]; [eexists; split; [done|]; by intros ? ? [=]|].
    destruct (dec_emit_safe cap c d Hd) as (od & -> & H1). cbn [obind].
    eexists. split; [done|]. intros r' d' E. destruct od; [|done].
    injection E as <- <-. simpl. auto.
  - destruct inp as [|b0 [|b1 rest]]; try (eexists; split; [done|]; by intros ? ? [=]).
    destruct (dec_match_safe (Z.to_nat (Z.land b1 15 + LZSS_THRESHOLD + 1)) cap
      (Z.lor b0 (Z.shiftl (Z.land b1 240) 4)) 0 d Hd) as (od & -> & H1). cbn [obind].
    eexists. split; [done|]. intros r' d' E. destruct od; [|done].
    injection E as <- <-. simpl. auto.
Qed.

Lemma dec_loop_safe fuel : ∀ cap inp flags d,
  dec_safe cap d → (length inp ≤ fuel)%nat →
  ∃ od, dec_loop fuel cap inp flags d = Ret od ∧ ∀ d', od = Some d' → dec_safe cap d'.
Proof.
  induction fuel as [|fuel IH]; intros cap inp flags d Hd Hf.
  { destruct inp; [|simpl in Hf; lia]. exists (Some d). split; [done|]. by intros d' [= <-]. }
  destruct inp as [|b rest]; cbn [dec_loop].
  { exists (Some d). split; [done|]. by intros d' [= <-]. }
  simpl in Hf.
  assert (∀ fl i, (length i ≤ S fuel)%nat → ∃ od,
    (let* st := dec_symbol cap fl i d in
     match st with
     | DFull => Ret None | DEnd => Ret (Some d)
     | DNext rest d' => dec_loop fuel cap rest fl d'
     end) = Ret od ∧ ∀ d', od = Some d' → dec_safe cap d') as Hbody.
  { intros fl i Hi. destruct (dec_symbol_safe cap fl i d Hd) as (st & -> & H1). cbn [obind].
    destruct st as [| |r' d']; [exists None; split; [done|by intros ? [=]]
      |exists (Some d); split; [done|by intros ? [= <-]]|].
    destruct (H1 r' d' eq_refl) as [Hlt Hs]. apply IH; [done|lia]. }
  destruct (Z.land (Z.shiftr flags 1) 256 =? 0); apply Hbody; simpl; lia.
Qed.

Lemma decompress_total (inp junk : list Z) (cap : Z) :
  0 ≤ cap → length junk = 4113%nat →
  ∃ n out, lzss_decompress inp cap (Some junk) = Ret (n, out) ∧
    n = Z.of_nat (length out) ∧ n ≤ cap.
Proof.
  intros Hcap Hj. unfold lzss_decompress.
  destruct ((cap =? 0) || (Z.of_nat (length inp) =? 0)); [by exists 0, []|].
  destruct (dec_loop_safe (S (length inp)) cap inp 0
    (mk_dec [] (replicate (Z.to_nat (LZSS_N - LZSS_F)) 32 ++
                drop (Z.to_nat (LZSS_N - LZSS_F)) junk) (LZSS_N - LZSS_F)))
    as (od & E & Hod); [|lia|].
  - constructor; cbn [d_buf d_out d_r]; [|split; done|done].
    by rewrite length_app, length_replicate, length_drop, Hj.
  - rewrite E. cbn [obind]. destruct od as [d|]; [|by exists 0, []].
    eexists _, _. split; [done|]. split; [done|]. apply (safe_out _ _ (Hod d eq_refl)).
Qed.

(** The decoder is memory safe on every input, however corrupt: it
    always terminates, never reads or writes outside its ring buffer, and
    never produces more bytes than [out_capacity]. *)
Theorem lzss_decompress_safe (inp junk : list Z) (cap : Z) :
  0 ≤ cap → length junk = 4113%nat →
  ∃ n out, lzss_decompress inp cap (Some junk) = Ret (n, out) ∧
    n = Z.of_nat (length out) ∧ n ≤ cap.
Proof. apply decompress_total. Qed.

Lemma lzss_decompress_safe_witness :
  ∃ n out, lzss_decompress [0; 255; 255; 7] 5 (Some (replicate 4113 0)) = Ret (n, out) ∧ n ≤ 5.
Proof.
  destruct (lzss_decompress_safe [0; 255; 255; 7] (replicate 4113 0) 5)
    as (n & out & E & _ & H); [lia|apply length_replicate|].
  exists n, out. split; [exact E|exact H].
Defined.
