(* ===== verification/Heap.v ===== *)
(** * The kernel heap ([src/impl/kernel/allocator.c])

    The allocator works on raw memory: block headers (size, next, prev,
    free flag, magic) and footer guards are bytes of the heap, read and
    written through [load64]/[store64] and the like at the offsets the
    compiler gives the fields of [block_header]. The state [heap] is that
    memory and the file's static variables. Free blocks form a doubly
    linked list sorted by address. *)

From S2P Require Import Prelude.

Open Scope c_scope.

Definition ALIGNMENT : Z := 16.
Definition MIN_BLOCK_SIZE : Z := 32.
Definition BLOCK_MAGIC : Z := 3735928559.
Definition FOOTER_MAGIC : Z := 3131961357.
Definition HEADER_SIZE : Z := 32.
Definition FOOTER_SIZE : Z := 4.
Definition DEAD_MAGIC : Z := 3735879680.

(** [ALIGN(n)]: round up to 16 in 64-bit arithmetic. *)
Definition ALIGN (n : Z) : Z := Z.land (u64 (n + 15)) (u64 (Z.lnot 15)).

Record heap_stats := mk_stats {
  alloc_count : Z; free_count : Z; split_count : Z;
  coalesce_count : Z; failed_allocs : Z; resize_count : Z
}.

Record heap := mk_heap {
  mem : Z → Z;
  free_list_head : Z;
  heap_start : Z;
  heap_end : Z;
  heap_size : Z;
  total_allocated : Z;
  total_free : Z;
  peak_usage : Z;
  allocator_spin : bool;
  stats : heap_stats
}.

Definition set_mem (m : Z → Z) (h : heap) : heap :=
  mk_heap m (free_list_head h) (heap_start h) (heap_end h) (heap_size h)
    (total_allocated h) (total_free h) (peak_usage h) (allocator_spin h) (stats h).
Definition set_head (x : Z) (h : heap) : heap :=
  mk_heap (mem h) x (heap_start h) (heap_end h) (heap_size h)
    (total_allocated h) (total_free h) (peak_usage h) (allocator_spin h) (stats h).
Definition set_totals (a f p : Z) (h : heap) : heap :=
  mk_heap (mem h) (free_list_head h) (heap_start h) (heap_end h) (heap_size h)
    a f p (allocator_spin h) (stats h).
Definition set_spin (b : bool) (h : heap) : heap :=
  mk_heap (mem h) (free_list_head h) (heap_start h) (heap_end h) (heap_size h)
    (total_allocated h) (total_free h) (peak_usage h) b (stats h).
Definition set_stats (s : heap_stats) (h : heap) : heap :=
  mk_heap (mem h) (free_list_head h) (heap_start h) (heap_end h) (heap_size h)
    (total_allocated h) (total_free h) (peak_usage h) (allocator_spin h) s.

(** Statistics counters wrap like the [size_t] they are. *)
Definition count_alloc (s : heap_stats) : heap_stats :=
  mk_stats (u64 (alloc_count s + 1)) (free_count s) (split_count s) (coalesce_count s)
    (failed_allocs s) (resize_count s).
Definition count_free (s : heap_stats) : heap_stats :=
  mk_stats (alloc_count s) (u64 (free_count s + 1)) (split_count s) (coalesce_count s)
    (failed_allocs s) (resize_count s).
Definition count_split (s : heap_stats) : heap_stats :=
  mk_stats (alloc_count s) (free_count s) (u64 (split_count s + 1)) (coalesce_count s)
    (failed_allocs s) (resize_count s).
Definition count_coalesce (s : heap_stats) : heap_stats :=
  mk_stats (alloc_count s) (free_count s) (split_count s) (u64 (coalesce_count s + 1))
    (failed_allocs s) (resize_count s).
Definition count_failed (s : heap_stats) : heap_stats :=
  mk_stats (alloc_count s) (free_count s) (split_count s) (coalesce_count s)
    (u64 (failed_allocs s + 1)) (resize_count s).
Definition count_resize (s : heap_stats) : heap_stats :=
  mk_stats (alloc_count s) (free_count s) (split_count s) (coalesce_count s)
    (failed_allocs s) (u64 (resize_count s + 1)).

(** The fields of [block_header] (offsets 0, 8, 16, 24, 28). *)
Definition b_size (m : Z → Z) (b : Z) : Z := load64 m b.
Definition b_next (m : Z → Z) (b : Z) : Z := load64 m (b + 8).
Definition b_prev (m : Z → Z) (b : Z) : Z := load64 m (b + 16).
Definition b_free (m : Z → Z) (b : Z) : bool := negb (load8 m (b + 24) =? 0).
Definition b_magic (m : Z → Z) (b : Z) : Z := load32 m (b + 28).

Definition set_b_size (b v : Z) (h : heap) : heap := set_mem (store64 (mem h) b v) h.
Definition set_b_next (b v : Z) (h : heap) : heap := set_mem (store64 (mem h) (b + 8) v) h.
Definition set_b_prev (b v : Z) (h : heap) : heap := set_mem (store64 (mem h) (b + 16) v) h.
Definition set_b_free (b : Z) (v : bool) (h : heap) : heap :=
  set_mem (store8 (mem h) (b + 24) (if v then 1 else 0)) h.
Definition set_b_magic (b v : Z) (h : heap) : heap := set_mem (store32 (mem h) (b + 28) v) h.

(** The lock: irq_save/irq_restore only mask interrupts, so what is left of
    [allocator_lock] is the spin flag. *)
Definition allocator_lock (h : heap) : outcome heap :=
  if allocator_spin h then Hang else Ret (set_spin true h).
Definition allocator_unlock (h : heap) : heap := set_spin false h.

Definition block_footer (m : Z → Z) (b : Z) : Z :=
  u64 (b + HEADER_SIZE + b_size m b - FOOTER_SIZE).
Definition write_footer (b : Z) (h : heap) : heap :=
  set_mem (store32 (mem h) (block_footer (mem h) b) FOOTER_MAGIC) h.
Definition check_footer (h : heap) (b : Z) : bool :=
  load32 (mem h) (block_footer (mem h) b) =? FOOTER_MAGIC.

Definition block_in_heap (h : heap) (b : Z) : bool :=
  if b =? 0 then false
  else
    let e := u64 (b + HEADER_SIZE + b_size (mem h) b) in
    (heap_start h <=? b) && (b <? heap_end h) && (e <=? heap_end h) && (b <? e).

Definition validate_block_fast (h : heap) (b : Z) : bool :=
  if b =? 0 then false
  else if negb (b_magic (mem h) b =? BLOCK_MAGIC) then false
  else if negb (block_in_heap h b) then false
  else if b_size (mem h) b <? MIN_BLOCK_SIZE then false
  else if negb (Z.land (b_size (mem h) b) (ALIGNMENT - 1) =? 0) then false
  else true.

Definition validate_block_full (h : heap) (b : Z) : bool :=
  if b =? 0 then false
  else if negb (b_magic (mem h) b =? BLOCK_MAGIC) then false
  else if negb (block_in_heap h b) then false
  else if (b_size (mem h) b <? MIN_BLOCK_SIZE) ||
          negb (Z.land (b_size (mem h) b) (ALIGNMENT - 1) =? 0) then false
  else true.

(** Bound on the length of the free list, as the code computes it. *)
Definition max_blocks (h : heap) : Z := heap_size h / (HEADER_SIZE + MIN_BLOCK_SIZE) + 1.

(** [while (curr->next && curr->next < b) curr = curr->next;] *)
Fixpoint insert_pos (fuel : nat) (m : Z → Z) (b curr : Z) : outcome Z :=
  match fuel with
  | O => Hang
  | S fuel' =>
      let next := b_next m curr in
      if negb (next =? 0) && (next <? b) then insert_pos fuel' m b next else Ret curr
  end.

Definition insert_free_block (b : Z) (h : heap) : outcome heap :=
  let h := set_b_free b true h in
  let head := free_list_head h in
  if (head =? 0) || (b <? head) then
    let h := set_b_next b head h in
    let h := set_b_prev b 0 h in
    let h := if negb (head =? 0) then set_b_prev head b h else h in
    Ret (set_head b h)
  else
    let* curr := insert_pos (Z.to_nat (max_blocks h + 1)) (mem h) b head in
    let next := b_next (mem h) curr in
    let h := set_b_next b next h in
    let h := set_b_prev b curr h in
    let next := b_next (mem h) curr in
    let h := if negb (next =? 0) then set_b_prev next b h else h in
    Ret (set_b_next curr b h).

Definition remove_free_block (b : Z) (h : heap) : heap :=
  let h := if negb (b_prev (mem h) b =? 0)
           then set_b_next (b_prev (mem h) b) (b_next (mem h) b) h
           else set_head (b_next (mem h) b) h in
  let h := if negb (b_next (mem h) b =? 0)
           then set_b_prev (b_next (mem h) b) (b_prev (mem h) b) h else h in
  let h := set_b_next b 0 h in
  let h := set_b_prev b 0 h in
  set_b_free b false h.

Definition try_merge_with_next (b : Z) (h : heap) : heap :=
  if b_next (mem h) b =? 0 then h
  else
    let b_end := u64 (b + HEADER_SIZE + b_size (mem h) b) in
    if negb (b_end =? b_next (mem h) b) then h
    else
      let next := b_next (mem h) b in
      let h := set_b_size b (u64 (b_size (mem h) b + HEADER_SIZE + b_size (mem h) next)) h in
      let h := set_b_next b (b_next (mem h) next) h in
      let h := if negb (b_next (mem h) next =? 0)
               then set_b_prev (b_next (mem h) next) b h else h in
      let h := set_b_magic next DEAD_MAGIC h in
      set_stats (count_coalesce (stats h)) h.

(** [visited] counts as in the code; the walk panics past the bound, so
    the fuel [max_blocks + 1] is never used up. *)
Fixpoint coalesce_loop (fuel : nat) (visited curr : Z) (h : heap) : outcome heap :=
  if curr =? 0 then Ret h
  else
    match fuel with
    | O => Hang
    | S fuel' =>
        if max_blocks h <? visited + 1 then Panic
        else if negb (validate_block_fast h curr) then Panic
        else
          let h := try_merge_with_next curr h in
          coalesce_loop fuel' (visited + 1) (b_next (mem h) curr) h
    end.

Definition coalesce (h : heap) : outcome heap :=
  coalesce_loop (Z.to_nat (max_blocks h + 1)) 0 (free_list_head h) h.

(** [split_and_use] in its three parts: the header of the remainder, ... *)
Definition make_rest (rest size : Z) (h : heap) : heap :=
  let h := set_b_size rest size h in
  let h := set_b_magic rest BLOCK_MAGIC h in
  let h := set_b_next rest 0 h in
  let h := set_b_prev rest 0 h in
  let h := set_b_free rest false h in
  write_footer rest h.

(** ... splicing it into the free list in place of [b], ... *)
Definition splice_rest (b rest : Z) (h : heap) : heap :=
  let h := set_b_next rest (b_next (mem h) b) h in
  let h := set_b_prev rest (b_prev (mem h) b) h in
  let h := if negb (b_prev (mem h) b =? 0)
           then set_b_next (b_prev (mem h) b) rest h else set_head rest h in
  let h := if negb (b_next (mem h) b =? 0)
           then set_b_prev (b_next (mem h) b) rest h else h in
  set_b_free rest true h.

(** ... and marking [b] as used. *)
Definition finish_use (b : Z) (h : heap) : heap :=
  let h := set_b_free b false h in
  let h := set_b_next b 0 h in
  let h := set_b_prev b 0 h in
  write_footer b h.

Definition split_and_use (b need : Z) (h : heap) : heap :=
  let leftover := u64 (b_size (mem h) b - need) in
  let h :=
    if HEADER_SIZE + MIN_BLOCK_SIZE <=? leftover then
      let rest := u64 (b + HEADER_SIZE + need) in
      let h := make_rest rest (leftover - HEADER_SIZE) h in
      let h := splice_rest b rest h in
      let h := set_b_size b need h in
      set_stats (count_split (stats h)) h
    else remove_free_block b h in
  finish_use b h.

Definition allocator_init (memory size : Z) (h : heap) : outcome heap :=
  if (memory =? 0) || (size <? HEADER_SIZE + MIN_BLOCK_SIZE + FOOTER_SIZE) then Panic
  else
    let start := ALIGN memory in
    let lost := u64 (start - memory) in
    if size <? lost then Panic
    else
      let size := Z.land (size - lost) (u64 (Z.lnot 15)) in
      let h := mk_heap (mem h) start start (u64 (start + size)) size 0 0 0 false (stats h) in
      let h := set_b_size start (u64 (size - HEADER_SIZE)) h in
      let h := set_b_free start true h in
      let h := set_b_next start 0 h in
      let h := set_b_prev start 0 h in
      let h := set_b_magic start BLOCK_MAGIC h in
      let h := write_footer start h in
      Ret (set_totals 0 (b_size (mem h) start) 0 h).

Definition payload_size (user_size : Z) : Z :=
  let user_size := if user_size <? MIN_BLOCK_SIZE then MIN_BLOCK_SIZE else user_size in
  ALIGN (u64 (user_size + FOOTER_SIZE)).

(** First-fit search of [alloc_locked]; 0 when the list has no fit. *)
Fixpoint first_fit (fuel : nat) (visited curr total : Z) (h : heap) : outcome Z :=
  if curr =? 0 then Ret 0
  else
    match fuel with
    | O => Hang
    | S fuel' =>
        if max_blocks h <? visited + 1 then Panic
        else if negb (validate_block_fast h curr) then Panic
        else if b_free (mem h) curr && (total <=? b_size (mem h) curr) then Ret curr
        else first_fit fuel' (visited + 1) (b_next (mem h) curr) total h
    end.

Definition alloc_locked (total : Z) (h : heap) : outcome (Z * heap) :=
  let* curr := first_fit (Z.to_nat (max_blocks h + 1)) 0 (free_list_head h) total h in
  if curr =? 0 then Ret (0, h)
  else
    let h := split_and_use curr total h in
    let ta := u64 (total_allocated h + b_size (mem h) curr) in
    let tf := u64 (total_free h - b_size (mem h) curr) in
    let pk := if peak_usage h <? ta then ta else peak_usage h in
    let h := set_totals ta tf pk h in
    Ret (u64 (curr + HEADER_SIZE), set_stats (count_alloc (stats h)) h).

Definition alloc (size : Z) (h : heap) : outcome (Z * heap) :=
  if size =? 0 then Ret (0, h)
  else
    let total := payload_size size in
    let* h := allocator_lock h in
    let* (ptr, h) := alloc_locked total h in
    let h := allocator_unlock h in
    if ptr =? 0 then Ret (0, set_stats (count_failed (stats h)) h)
    else
      let b := u64 (ptr - HEADER_SIZE) in
      let usable := u64 (b_size (mem h) b - FOOTER_SIZE) in
      Ret (ptr, set_mem (mfill (mem h) ptr usable 0) h).

Definition alloc_unzeroed (size : Z) (h : heap) : outcome (Z * heap) :=
  if size =? 0 then Ret (0, h)
  else
    let total := payload_size size in
    let* h := allocator_lock h in
    let* (ptr, h) := alloc_locked total h in
    let h := allocator_unlock h in
    if ptr =? 0 then Ret (0, set_stats (count_failed (stats h)) h) else Ret (ptr, h).

Definition alloc_array (count elem_size : Z) (h : heap) : outcome (Z * heap) :=
  if (count =? 0) || (elem_size =? 0) then Ret (0, h)
  else if (2 ^ 64 - 1) / count <? elem_size then Ret (0, h)
  else alloc (u64 (count * elem_size)) h.

Definition free_mem (ptr : Z) (h : heap) : outcome heap :=
  if ptr =? 0 then Ret h
  else if (ptr <? heap_start h) || (heap_end h <=? ptr) then Ret h
  else
    let b := u64 (ptr - HEADER_SIZE) in
    let* h := allocator_lock h in
    if negb (validate_block_full h b) then Ret (allocator_unlock h)
    else if b_free (mem h) b then Ret (allocator_unlock h)
    else if negb (check_footer h b) then Panic
    else
      let usable := u64 (b_size (mem h) b - FOOTER_SIZE) in
      let h := set_mem (mfill (mem h) ptr usable 204) h in
      let h := set_totals (u64 (total_allocated h - b_size (mem h) b))
                 (u64 (total_free h + b_size (mem h) b)) (peak_usage h) h in
      let h := set_stats (count_free (stats h)) h in
      let* h := insert_free_block b h in
      let* h := coalesce h in
      Ret (allocator_unlock h).

(** [memcpy] between two regions of the heap's memory. *)
Definition mcopy (m : Z → Z) (dst src n : Z) : Z → Z :=
  λ x, if (dst <=? x) && (x <? dst + n) then m (src + (x - dst)) else m x.

Definition alloc_resize (ptr new_size : Z) (h : heap) : outcome (Z * heap) :=
  if ptr =? 0 then alloc new_size h
  else if new_size =? 0 then let* h := free_mem ptr h in Ret (0, h)
  else
    let b := u64 (ptr - HEADER_SIZE) in
    let* h := allocator_lock h in
    if negb (validate_block_full h b) then Ret (0, allocator_unlock h)
    else
      let old_usable := u64 (b_size (mem h) b - FOOTER_SIZE) in
      let h := allocator_unlock h in
      if new_size <=? old_usable then Ret (ptr, h)
      else
        let* (new_ptr, h) := alloc new_size h in
        if new_ptr =? 0 then Ret (0, h)
        else
          let h := set_mem (mcopy (mem h) new_ptr ptr old_usable) h in
          let* h := free_mem ptr h in
          Ret (new_ptr, set_stats (count_resize (stats h)) h).

Definition align_up (v a : Z) : Z := Z.land (u64 (v + a - 1)) (u64 (Z.lnot (a - 1))).

Definition is_pow2 (x : Z) : bool := negb (x =? 0) && (Z.land x (u64 (x - 1)) =? 0).

Definition kmalloc_aligned (size alignment : Z) (h : heap) : outcome (Z * heap) :=
  if size =? 0 then Ret (0, h)
  else
    let alignment := if alignment <? ALIGNMENT then ALIGNMENT else alignment in
    if negb (is_pow2 alignment) then Ret (0, h)
    else
      let total := u64 (size + alignment + 8) in
      let* (raw, h) := alloc_unzeroed total h in
      if raw =? 0 then Ret (0, h)
      else
        let raw_addr := u64 (raw + 8) in
        let aligned_addr := align_up raw_addr alignment in
        let h := set_mem (store64 (mem h) (aligned_addr - 8) raw) h in
        Ret (aligned_addr, set_mem (mfill (mem h) aligned_addr size 0) h).

Definition kfree_aligned (ptr : Z) (h : heap) : outcome heap :=
  if ptr =? 0 then Ret h else free_mem (load64 (mem h) (ptr - 8)) h.

Fixpoint largest_loop (fuel : nat) (m : Z → Z) (curr largest : Z) : outcome Z :=
  if curr =? 0 then Ret largest
  else
    match fuel with
    | O => Hang
    | S fuel' =>
        largest_loop fuel' m (b_next m curr)
          (if largest <? b_size m curr then b_size m curr else largest)
    end.

Definition allocator_largest_free_block (h : heap) : outcome (Z * heap) :=
  let* h := allocator_lock h in
  let* largest := largest_loop (Z.to_nat (max_blocks h + 1)) (mem h) (free_list_head h) 0 in
  let h := allocator_unlock h in
  Ret (if FOOTER_SIZE <? largest then largest - FOOTER_SIZE else 0, h).

Fixpoint check_loop (fuel : nat) (visited curr : Z) (h : heap) : outcome bool :=
  if curr =? 0 then Ret true
  else
    match fuel with
    | O => Hang
    | S fuel' =>
        if max_blocks h <? visited + 1 then Ret false
        else if negb (validate_block_fast h curr) then Ret false
        else if negb (check_footer h curr) then Ret false
        else check_loop fuel' (visited + 1) (b_next (mem h) curr) h
    end.

Definition allocator_check (h : heap) : outcome (bool * heap) :=
  let* h := allocator_lock h in
  let* ok := check_loop (Z.to_nat (max_blocks h + 1)) 0 (free_list_head h) h in
  Ret (ok, allocator_unlock h).

(** ** Blocks

    The heap as the sequence of its blocks in address order. *)

Record blk := mk_blk { addr : Z; bsz : Z; bfree : bool }.

Definition bend (b : blk) : Z := addr b + 32 + bsz b.

(** The blocks of [bs] tile the addresses [s .. e). *)
Fixpoint tiles (s e : Z) (bs : list blk) : Prop :=
  match bs with
  | [] => s = e
  | b :: r => addr b = s ∧ 32 ≤ bsz b ∧ bsz b mod 16 = 0 ∧ tiles (bend b) e r
  end.

Definition faddrs (bs : list blk) : list Z := addr <$> filter (λ b, bfree b = true) bs.

(** What memory holds for one block, apart from the list links. *)
Record blk_mem (m : Z → Z) (b : blk) : Prop := {
  bm_size : b_size m (addr b) = bsz b;
  bm_free : load8 m (addr b + 24) = (if bfree b then 1 else 0);
  bm_magic : b_magic m (addr b) = BLOCK_MAGIC;
  bm_footer : load32 m (bend b - 4) = FOOTER_MAGIC
}.

Definition hd0 (nx : Z) (F : list Z) : Z := match F with [] => nx | x :: _ => x end.
Fixpoint last0 (pv : Z) (F : list Z) : Z :=
  match F with [] => pv | x :: F' => last0 x F' end.

(** [F] is doubly linked in memory, between [pv] and [nx]. *)
Fixpoint links (m : Z → Z) (pv nx : Z) (F : list Z) : Prop :=
  match F with
  | [] => True
  | x :: F' => b_prev m x = pv ∧ b_next m x = hd0 nx F' ∧ links m x nx F'
  end.

Lemma tiles_app s e l1 l2 :
  tiles s e (l1 ++ l2) ↔ ∃ mid, tiles s mid l1 ∧ tiles mid e l2.
Proof.
  revert s. induction l1 as [|b l1 IH]; intros s; simpl.
  - split; [eauto|]. intros (mid & -> & H). done.
  - rewrite IH. split; [intros (? & ? & ? & mid & ? & ?)|intros (mid & (? & ? & ? & ?) & ?)];
      eauto 10.
Qed.

Lemma tiles_le s e bs : tiles s e bs → s + 64 * Z.of_nat (length bs) ≤ e.
Proof.
  revert s. induction bs as [|b bs IH]; intros s; simpl; [lia|].
  intros (Ha & Hs & _ & H). apply IH in H. unfold bend in H. lia.
Qed.

Lemma tiles_in s e bs b :
  tiles s e bs → b ∈ bs → s ≤ addr b ∧ bend b ≤ e ∧ 32 ≤ bsz b ∧ bsz b mod 16 = 0.
Proof.
  revert s. induction bs as [|c bs IH]; intros s H Hin; [by apply elem_of_nil in Hin|].
  destruct H as (Ha & Hs & Hm & H). pose proof (tiles_le _ _ _ H).
  apply elem_of_cons in Hin as [->|Hin]; [unfold bend in *; lia|].
  specialize (IH _ H Hin). unfold bend in *. lia.
Qed.

Lemma faddrs_app l1 l2 : faddrs (l1 ++ l2) = faddrs l1 ++ faddrs l2.
Proof. unfold faddrs. by rewrite filter_app, fmap_app. Qed.

Lemma faddrs_cons b bs : faddrs (b :: bs) = (if bfree b then [addr b] else []) ++ faddrs bs.
Proof. unfold faddrs. rewrite filter_cons. destruct (bfree b); done. Qed.

Lemma elem_of_faddrs x bs : x ∈ faddrs bs ↔ ∃ b, b ∈ bs ∧ bfree b = true ∧ addr b = x.
Proof.
  unfold faddrs. rewrite list_elem_of_fmap. split; intros (b & H1 & H2); exists b;
    rewrite list_elem_of_filter in *; naive_solver.
Qed.

Lemma faddrs_in s e bs x : tiles s e bs → x ∈ faddrs bs → s ≤ x ∧ x + 64 ≤ e.
Proof.
  intros Ht (b & Hb & _ & <-)%elem_of_faddrs.
  destruct (tiles_in _ _ _ _ Ht Hb) as (? & ? & ? & _). unfold bend in *. lia.
Qed.

Lemma last0_cases pv F : last0 pv F = pv ∧ F = [] ∨ last0 pv F ∈ F.
Proof.
  revert pv. induction F as [|x F IH]; intros pv; simpl; [by left|]. right.
  destruct (IH x) as [[-> _]|H]; set_solver.
Qed.

Lemma hd0_cases nx F : hd0 nx F = nx ∧ F = [] ∨ hd0 nx F ∈ F.
Proof. destruct F; simpl; [by left|right; set_solver]. Qed.

(** Where the neighbours in the free list of a middle piece can be. *)
Lemma last0_bound s e l :
  tiles s e l → last0 0 (faddrs l) = 0 ∧ faddrs l = [] ∨
  s ≤ last0 0 (faddrs l) ∧ last0 0 (faddrs l) + 64 ≤ e.
Proof.
  intros Ht. destruct (last0_cases 0 (faddrs l)) as [?|H]; [by left|right].
  by apply (faddrs_in _ _ _ _ Ht).
Qed.

Lemma hd0_bound s e l :
  tiles s e l → hd0 0 (faddrs l) = 0 ∧ faddrs l = [] ∨
  s ≤ hd0 0 (faddrs l) ∧ hd0 0 (faddrs l) + 64 ≤ e.
Proof.
  intros Ht. destruct (hd0_cases 0 (faddrs l)) as [?|H]; [by left|right].
  by apply (faddrs_in _ _ _ _ Ht).
Qed.

Lemma hd0_app nx F1 F2 : hd0 nx (F1 ++ F2) = hd0 (hd0 nx F2) F1.
Proof. by destruct F1. Qed.

Lemma last0_app pv F1 F2 : last0 pv (F1 ++ F2) = last0 (last0 pv F1) F2.
Proof. revert pv. induction F1 as [|x F1 IH]; intros pv; simpl; [done|]. apply IH. Qed.

Lemma links_app m pv nx F1 F2 :
  links m pv nx (F1 ++ F2) ↔ links m pv (hd0 nx F2) F1 ∧ links m (last0 pv F1) nx F2.
Proof.
  revert pv. induction F1 as [|x F1 IH]; intros pv; simpl; [tauto|].
  rewrite IH, hd0_app. tauto.
Qed.

(** Re-linking the left neighbours: only the last one's [next] changes. *)
Lemma links_left m m' pv nx nx' F :
  links m pv nx F → NoDup F →
  (∀ x, x ∈ F → b_prev m' x = b_prev m x) →
  (∀ x, x ∈ F → x ≠ last0 pv F → b_next m' x = b_next m x) →
  (F ≠ [] → b_next m' (last0 pv F) = nx') →
  links m' pv nx' F.
Proof.
  revert pv. induction F as [|x F IH]; intros pv; simpl; [done|].
  intros (Hp & Hn & Hl) [Hx Hnd]%NoDup_cons Hprev Hnext Hlast.
  split; [rewrite Hprev by set_solver; done|].
  destruct F as [|y F].
  - simpl in *. split; [by apply Hlast|done].
  - split.
    + rewrite Hnext; [done|set_solver|].
      intros E. apply Hx. destruct (last0_cases x (y :: F)) as [[_ ?]|H]; [done|].
      simpl in E, H. by rewrite <- E in H.
    + apply IH; try done; intros; [apply Hprev; set_solver|apply Hnext; set_solver|by apply Hlast].
Qed.

(** Re-linking the right neighbours: only the first one's [prev] changes. *)
Lemma links_right m m' pv pv' nx F :
  links m pv nx F → NoDup F →
  (∀ x, x ∈ F → b_next m' x = b_next m x) →
  (∀ x, x ∈ F → x ≠ hd0 nx F → b_prev m' x = b_prev m x) →
  (F ≠ [] → b_prev m' (hd0 nx F) = pv') →
  links m' pv' nx F.
Proof.
  destruct F as [|x F]; simpl; [done|].
  intros (Hp & Hn & Hl) [Hx Hnd]%NoDup_cons Hnext Hprev Hfirst.
  split; [by apply Hfirst|]. split; [rewrite Hnext by set_solver; done|].
  clear Hp Hfirst. assert (∀ y, y ∈ F → b_prev m' y = b_prev m y ∧ b_next m' y = b_next m y) as H.
  { intros y Hy. split; [apply Hprev; set_solver|apply Hnext; set_solver]. }
  clear Hn Hx Hnd Hnext Hprev. revert x Hl. induction F as [|y F IH]; intros x; simpl; [done|].
  intros (Hp & Hn & Hl). destruct (H y) as [-> ->]; [set_solver|].
  split; [done|]. split; [done|]. apply IH; [|done]. intros z Hz. apply H. set_solver.
Qed.

Lemma faddrs_NoDup s e bs : tiles s e bs → NoDup (faddrs bs).
Proof.
  revert s. induction bs as [|b bs IH]; intros s; [by constructor|].
  intros (Ha & Hs & Hm & H). rewrite faddrs_cons.
  destruct (bfree b); simpl; [|by apply (IH _ H)].
  apply NoDup_cons. split; [|by apply (IH _ H)].
  intros Hin. pose proof (faddrs_in _ _ _ _ H Hin). unfold bend in *. lia.
Qed.

(** A block's memory facts survive when its bytes outside the link fields do. *)
Lemma blk_mem_frame m m' b :
  blk_mem m b → 32 ≤ bsz b →
  (∀ y, addr b ≤ y < addr b + 8 ∨ addr b + 24 ≤ y < bend b → m' y = m y) → blk_mem m' b.
Proof.
  intros [Hs Hf Hg Hft] Hsz Hy. unfold b_size, b_magic, bend in *.
  constructor; unfold b_size, b_magic, bend.
  - rewrite <- Hs. apply mload_ext. intros. apply Hy. lia.
  - rewrite <- Hf. apply mload_ext. intros. apply Hy. lia.
  - rewrite <- Hg. apply mload_ext. intros. apply Hy. lia.
  - rewrite <- Hft. apply mload_ext. intros. apply Hy. lia.
Qed.

Lemma tiles_disjoint s e bs b c :
  tiles s e bs → b ∈ bs → c ∈ bs → b = c ∨ bend b ≤ addr c ∨ bend c ≤ addr b.
Proof.
  revert s. induction bs as [|d bs IH]; intros s; [intros _ H; by apply elem_of_nil in H|].
  intros (Ha & Hs & Hm & H) Hb Hc. apply elem_of_cons in Hb, Hc.
  destruct Hb as [->|Hb], Hc as [->|Hc]; [by left| | |by apply (IH _ H)].
  - pose proof (tiles_in _ _ _ _ H Hc). lia.
  - pose proof (tiles_in _ _ _ _ H Hb). lia.
Qed.

(** A block either is the free block at [x] of its piece or keeps clear of it. *)
Lemma block_vs_faddr s e l b x :
  tiles s e l → b ∈ l → x ∈ faddrs l → addr b = x ∨ x + 64 ≤ addr b ∨ bend b ≤ x.
Proof.
  intros Ht Hb (c & Hc & _ & <-)%elem_of_faddrs.
  destruct (tiles_disjoint _ _ _ _ _ Ht Hb Hc) as [->|[?|?]]; [by left|lia|].
  pose proof (tiles_in _ _ _ _ Ht Hc). unfold bend in *. lia.
Qed.

Lemma faddr_vs_faddr s e l x y :
  tiles s e l → x ∈ faddrs l → y ∈ faddrs l → x = y ∨ x + 64 ≤ y ∨ y + 64 ≤ x.
Proof.
  intros Ht (b & Hb & _ & <-)%elem_of_faddrs Hy.
  destruct (block_vs_faddr _ _ _ _ _ Ht Hb Hy) as [?|[?|?]]; [lia|lia|].
  pose proof (tiles_in _ _ _ _ Ht Hb). unfold bend in *. lia.
Qed.

(** Replacing a piece of the heap. The blocks [B] between [l1] and [l2] become
    [B'], which tile the same addresses; memory changes only there and in
    the two link fields of the neighbours in the free list. *)
Lemma replace_piece m m' s e l1 B l2 s0 e0 B' :
  0 < s → tiles s s0 l1 → tiles s0 e0 B → tiles e0 e l2 →
  Forall (blk_mem m) (l1 ++ B ++ l2) → links m 0 0 (faddrs (l1 ++ B ++ l2)) →
  tiles s0 e0 B' →
  let p := last0 0 (faddrs l1) in
  let n := hd0 0 (faddrs l2) in
  (∀ y, ¬ (s0 ≤ y < e0) → ¬ (p ≠ 0 ∧ p + 8 ≤ y < p + 16) →
        ¬ (n ≠ 0 ∧ n + 16 ≤ y < n + 24) → m' y = m y) →
  (p ≠ 0 → b_next m' p = hd0 n (faddrs B')) →
  (n ≠ 0 → b_prev m' n = last0 p (faddrs B')) →
  Forall (blk_mem m') B' → links m' p n (faddrs B') →
  tiles s e (l1 ++ B' ++ l2) ∧ Forall (blk_mem m') (l1 ++ B' ++ l2) ∧
  links m' 0 0 (faddrs (l1 ++ B' ++ l2)) ∧
  hd0 0 (faddrs (l1 ++ B' ++ l2)) =
    (if p =? 0 then hd0 n (faddrs B') else hd0 0 (faddrs (l1 ++ B ++ l2))).
Proof.
  intros Hs T1 TB T2 HF HL TB' p n Hfr Hp Hn HB' HLB'.
  pose proof (last0_bound _ _ _ T1) as Bp. pose proof (hd0_bound _ _ _ T2) as Bn.
  pose proof (last0_cases 0 (faddrs l1)) as Cp. pose proof (hd0_cases 0 (faddrs l2)) as Cn.
  assert (last0 0 (faddrs l1) = p) as Ep by done. assert (hd0 0 (faddrs l2) = n) as En by done.
  clearbody p n. rewrite Ep in Bp, Cp. rewrite En in Bn, Cn.
  pose proof (tiles_le _ _ _ T1). pose proof (tiles_le _ _ _ TB). pose proof (tiles_le _ _ _ T2).
  rewrite !Forall_app in HF. destruct HF as (F1 & FB & F2).
  rewrite !faddrs_app, !links_app in HL. destruct HL as (L1 & LB & L2).
  assert (∀ b, b ∈ l1 ∨ b ∈ l2 → blk_mem m b → blk_mem m' b) as Hblk.
  { intros b Hb Hbm.
    assert (32 ≤ bsz b ∧ (bend b ≤ s0 ∨ e0 ≤ addr b) ∧
      (p = 0 ∨ addr b = p ∨ p + 64 ≤ addr b ∨ bend b ≤ p) ∧
      (n = 0 ∨ addr b = n ∨ n + 64 ≤ addr b ∨ bend b ≤ n)) as (Hsz & Hpos & Hbp & Hbn).
    { destruct Hb as [Hb|Hb].
      - destruct (tiles_in _ _ _ _ T1 Hb) as (? & ? & ? & _).
        split_and!; [done|lia| |unfold bend in *; lia].
        destruct Cp as [[? _]|Hx]; [by left|]. pose proof (block_vs_faddr _ _ _ _ _ T1 Hb Hx). lia.
      - destruct (tiles_in _ _ _ _ T2 Hb) as (? & ? & ? & _). split_and!; [done|lia|lia|].
        destruct Cn as [[? _]|Hx]; [by left|]. pose proof (block_vs_faddr _ _ _ _ _ T2 Hb Hx). lia. }
    apply (blk_mem_frame m m' b Hbm Hsz). intros y Hy. apply Hfr; unfold bend in *; lia. }
  split; [apply tiles_app; exists s0; split; [done|]; apply tiles_app; by exists e0|]. split; [|split].
  - rewrite !Forall_app. rewrite Forall_forall in F1, F2.
    split_and!; [|done|]; apply Forall_forall; intros b Hb; apply Hblk; auto.
  - rewrite !faddrs_app, !links_app, hd0_app, Ep, En. split_and!; [|done|].
    + apply (links_left m m' 0 _ _ _ L1 (faddrs_NoDup _ _ _ T1)); rewrite ?Ep.
      1, 2: intros x Hx; destruct Cp as [[_ E]|Hl]; [rewrite E in Hx; by apply elem_of_nil in Hx|];
        pose proof (faddrs_in _ _ _ _ T1 Hx); pose proof (faddr_vs_faddr _ _ _ _ _ T1 Hx Hl);
        try intros Hne; apply mload_ext; intros y Hy; apply Hfr; lia.
      intros Hne. apply Hp. destruct Bp as [[_ ?]|?]; [done|lia].
    + apply (links_right m m' _ _ 0 _ L2 (faddrs_NoDup _ _ _ T2)); rewrite ?En.
      1, 2: intros x Hx; destruct Cn as [[_ E]|Hl]; [rewrite E in Hx; by apply elem_of_nil in Hx|];
        pose proof (faddrs_in _ _ _ _ T2 Hx); pose proof (faddr_vs_faddr _ _ _ _ _ T2 Hx Hl);
        try intros Hne; apply mload_ext; intros y Hy; apply Hfr; lia.
      intros Hne. apply Hn. destruct Bn as [[_ ?]|?]; [done|lia].
  - rewrite !faddrs_app, !hd0_app, En. destruct (Z.eqb_spec p 0) as [E|E].
    + destruct Bp as [[_ ->]|?]; [done|lia].
    + destruct (faddrs l1) eqn:E1; [|done]. by destruct Cp as [[? _]|?%elem_of_nil].
Qed.

(** ** The invariant

    [heap_rep h bs]: the heap [h] consists of the blocks [bs]; they tile the
    heap, every header and footer is intact, and the free blocks are linked
    in address order. *)
Record heap_rep (h : heap) (bs : list blk) : Prop := {
  hr_start : 0 < heap_start h;
  hr_align : heap_start h mod 16 = 0;
  hr_end : heap_end h < 2 ^ 64;
  hr_size : heap_size h = heap_end h - heap_start h;
  hr_tiles : tiles (heap_start h) (heap_end h) bs;
  hr_mem : Forall (blk_mem (mem h)) bs;
  hr_links : links (mem h) 0 0 (faddrs bs);
  hr_head : free_list_head h = hd0 0 (faddrs bs)
}.

(** The bytes of every allocated block of [cs] are the same in [m] and [m']. *)
Definition keeps (m m' : Z → Z) (cs : list blk) : Prop :=
  ∀ c, c ∈ cs → bfree c = false → ∀ y, addr c ≤ y < bend c → m' y = m y.

(** A piece [B] of the heap in context. *)
Record piece (h : heap) (l1 B l2 : list blk) (s0 e0 p n : Z) : Prop := {
  pc_rep : heap_rep h (l1 ++ B ++ l2);
  pc_l : tiles (heap_start h) s0 l1;
  pc_B : tiles s0 e0 B;
  pc_r : tiles e0 (heap_end h) l2;
  pc_p : p = last0 0 (faddrs l1);
  pc_n : n = hd0 0 (faddrs l2);
  pc_pb : p = 0 ∨ heap_start h ≤ p ∧ p + 64 ≤ s0;
  pc_nb : n = 0 ∨ e0 ≤ n ∧ n + 64 ≤ heap_end h;
  pc_s0 : heap_start h ≤ s0;
  pc_e0 : e0 ≤ heap_end h;
  pc_links : links (mem h) p n (faddrs B);
  pc_mem : Forall (blk_mem (mem h)) B
}.

Lemma make_piece h l1 B l2 :
  heap_rep h (l1 ++ B ++ l2) →
  ∃ s0 e0, piece h l1 B l2 s0 e0 (last0 0 (faddrs l1)) (hd0 0 (faddrs l2)).
Proof.
  intros Hr. pose proof Hr as [? ? ? ? Ht Hm Hl ?].
  apply tiles_app in Ht as (s0 & T1 & (e0 & TB & T2)%tiles_app).
  exists s0, e0. pose proof (tiles_le _ _ _ T1). pose proof (tiles_le _ _ _ T2).
  constructor; try done; try lia.
  - destruct (last0_bound _ _ _ T1) as [[? _]|?]; lia.
  - destruct (hd0_bound _ _ _ T2) as [[? _]|?]; lia.
  - rewrite !faddrs_app, !links_app in Hl. tauto.
  - rewrite !Forall_app in Hm. tauto.
Qed.

(** Memory outside the piece and the two neighbouring links is untouched. *)
Definition framed (m m' : Z → Z) (s0 e0 p n : Z) : Prop :=
  ∀ y, ¬ (s0 ≤ y < e0) → ¬ (p ≠ 0 ∧ p + 8 ≤ y < p + 16) →
       ¬ (n ≠ 0 ∧ n + 16 ≤ y < n + 24) → m' y = m y.

Lemma piece_replace h h' l1 B l2 s0 e0 p n B' :
  piece h l1 B l2 s0 e0 p n →
  heap_start h' = heap_start h → heap_end h' = heap_end h → heap_size h' = heap_size h →
  tiles s0 e0 B' → framed (mem h) (mem h') s0 e0 p n →
  (p ≠ 0 → b_next (mem h') p = hd0 n (faddrs B')) →
  (n ≠ 0 → b_prev (mem h') n = last0 p (faddrs B')) →
  Forall (blk_mem (mem h')) B' → links (mem h') p n (faddrs B') →
  free_list_head h' = (if p =? 0 then hd0 n (faddrs B') else free_list_head h) →
  heap_rep h' (l1 ++ B' ++ l2) ∧ keeps (mem h) (mem h') (l1 ++ l2).
Proof.
  intros [[? ? ? ? ? Hm Hl Hh] T1 TB T2 -> -> Hpb Hnb ? ? _ _] Es Ee Ez TB' Hfr Hp Hn HB' HL' Hhd.
  destruct (replace_piece (mem h) (mem h') _ _ l1 B l2 s0 e0 B' ltac:(eassumption) T1 TB T2 Hm Hl TB' Hfr Hp Hn HB' HL')
    as (R1 & R2 & R3 & R4).
  split.
  - constructor; rewrite ?Es, ?Ee, ?Ez; try done. rewrite Hhd, R4, Hh. done.
  - intros c Hc Hcf y Hy.
    assert (∀ x, x = 0 ∨ x ∈ faddrs (l1 ++ l2) → x ≠ 0 → bend c ≤ x ∨ x + 64 ≤ addr c) as Hsep.
    { intros x [?|(d & Hd & Hdf & <-)%elem_of_faddrs] Hx; [done|].
      assert (c = d ∨ bend c ≤ addr d ∨ bend d ≤ addr c) as Hdis.
      { apply elem_of_app in Hc, Hd. destruct Hc as [Hc|Hc], Hd as [Hd|Hd];
          [by apply (tiles_disjoint _ _ _ _ _ T1)| | |by apply (tiles_disjoint _ _ _ _ _ T2)];
          [pose proof (tiles_in _ _ _ _ T1 Hc); pose proof (tiles_in _ _ _ _ T2 Hd)
          |pose proof (tiles_in _ _ _ _ T2 Hc); pose proof (tiles_in _ _ _ _ T1 Hd)];
          pose proof (tiles_le _ _ _ TB); lia. }
      assert (32 ≤ bsz d).
      { apply elem_of_app in Hd as [Hd|Hd];
          [pose proof (tiles_in _ _ _ _ T1 Hd)|pose proof (tiles_in _ _ _ _ T2 Hd)]; lia. }
      destruct Hdis as [->|[?|?]]; [congruence|lia|unfold bend in *; lia]. }
    assert (bend c ≤ s0 ∨ e0 ≤ addr c) as Hout.
    { apply elem_of_app in Hc as [Hc|Hc];
        [pose proof (tiles_in _ _ _ _ T1 Hc)|pose proof (tiles_in _ _ _ _ T2 Hc)]; lia. }
    apply Hfr.
    + lia.
    + intros [Hp0 Hpy]. destruct (Hsep (last0 0 (faddrs l1))); [|done|lia|lia].
      destruct (last0_cases 0 (faddrs l1)) as [[? _]|?]; [by left|right].
      rewrite faddrs_app. set_solver.
    + intros [Hn0 Hny]. destruct (Hsep (hd0 0 (faddrs l2))); [|done|lia|lia].
      destruct (hd0_cases 0 (faddrs l2)) as [[? _]|?]; [by left|right].
      rewrite faddrs_app. set_solver.
Qed.

(** ** Splitting a block *)

(** Unfold the header accessors down to loads and stores. *)
Ltac hdr :=
  unfold set_b_size, set_b_next, set_b_prev, set_b_free, set_b_magic,
    b_size, b_next, b_prev, b_magic, HEADER_SIZE, FOOTER_SIZE in *;
  simpl in *.

Lemma write_footer_eq h b s :
  load64 (mem h) b = s → 0 ≤ b + 28 + s < 2 ^ 64 →
  write_footer b h = set_mem (store32 (mem h) (b + 28 + s) FOOTER_MAGIC) h.
Proof.
  intros Es Hb. unfold write_footer, block_footer, b_size, HEADER_SIZE, FOOTER_SIZE.
  rewrite Es, u64_small by (unfold is_u64; lia). do 2 f_equal. lia.
Qed.

(** The links of the free list with known neighbours [p] and [n]. *)
Lemma splice_rest_eq h a rest p n :
  load64 (mem h) (a + 8) = n → load64 (mem h) (a + 16) = p → a + 64 ≤ rest →
  (p = 0 ∨ 0 < p ∧ p + 64 ≤ a) → (n = 0 ∨ rest + 64 ≤ n) →
  splice_rest a rest h =
  set_b_free rest true
    (let h1 := set_b_prev rest p (set_b_next rest n h) in
     let h2 := if p =? 0 then set_head rest h1 else set_b_next p rest h1 in
     if n =? 0 then h2 else set_b_prev n rest h2).
Proof.
  intros En Ep Hr Hp Hn. unfold splice_rest. cbv zeta.
  assert (b_next (mem h) a = n) as -> by done.
  set (h1 := set_b_next rest n h).
  assert (load64 (mem h1) (a + 8) = n ∧ load64 (mem h1) (a + 16) = p) as [E1 E2].
  { subst h1. hdr. mem_simp. done. }
  clearbody h1. assert (b_prev (mem h1) a = p) as -> by done. set (h2 := set_b_prev rest p h1).
  assert (load64 (mem h2) (a + 8) = n ∧ load64 (mem h2) (a + 16) = p) as [E3 E4].
  { subst h2. hdr. mem_simp. done. }
  clearbody h2. assert (b_prev (mem h2) a = p) as -> by done.
  destruct (Z.eqb_spec p 0); cbn [negb].
  - set (h3 := set_head rest h2). unfold b_next.
    assert (load64 (mem h3) (a + 8) = n) as -> by (by subst h3). by destruct (n =? 0).
  - set (h3 := set_b_next p rest h2). unfold b_next.
    assert (load64 (mem h3) (a + 8) = n) as -> by (subst h3; hdr; mem_simp; done).
    by destruct (n =? 0).
Qed.

(** The fields that the list operations leave alone. *)
Record same_glob (h h' : heap) : Prop := {
  sg_start : heap_start h' = heap_start h;
  sg_end : heap_end h' = heap_end h;
  sg_size : heap_size h' = heap_size h;
  sg_alloc : total_allocated h' = total_allocated h;
  sg_free : total_free h' = total_free h;
  sg_peak : peak_usage h' = peak_usage h;
  sg_spin : allocator_spin h' = allocator_spin h
}.

#[export] Instance same_glob_preorder : PreOrder same_glob.
Proof.
  split; [by constructor|]. intros h1 h2 h3 [] []. constructor; congruence.
Qed.

Lemma make_rest_eq rest size h :
  0 ≤ rest → 0 ≤ size → rest + 28 + size < 2 ^ 64 → 32 ≤ size →
  make_rest rest size h =
  set_mem (store32 (store8 (store64 (store64 (store32 (store64 (mem h) rest size)
    (rest + 28) BLOCK_MAGIC) (rest + 8) 0) (rest + 16) 0) (rest + 24) 0)
    (rest + 28 + size) FOOTER_MAGIC) h.
Proof.
  intros. unfold make_rest. rewrite (write_footer_eq _ _ size); [done| |lia].
  hdr. mem_simp. done.
Qed.

Lemma finish_use_eq a s h :
  load64 (mem h) a = s → 0 ≤ a → 0 ≤ s → a + 28 + s < 2 ^ 64 →
  finish_use a h =
  set_mem (store32 (store64 (store64 (store8 (mem h) (a + 24) 0) (a + 8) 0) (a + 16) 0)
    (a + 28 + s) FOOTER_MAGIC) h.
Proof.
  intros. unfold finish_use. rewrite (write_footer_eq _ _ s); [done| |lia].
  hdr. mem_simp. done.
Qed.

(** What [split_and_use] leaves of the block. *)
Definition split_blk (b : blk) (need : Z) : list blk :=
  if 64 <=? bsz b - need then
    [mk_blk (addr b) need false; mk_blk (addr b + 32 + need) (bsz b - need - 32) true]
  else [mk_blk (addr b) (bsz b) false].

Lemma piece_free_inv h l1 b l2 s0 e0 p n :
  piece h l1 [b] l2 s0 e0 p n → bfree b = true →
  addr b = s0 ∧ e0 = addr b + 32 + bsz b ∧ 32 ≤ bsz b ∧ bsz b mod 16 = 0 ∧ 0 < addr b ∧ e0 < 2 ^ 64 ∧
  load64 (mem h) (addr b) = bsz b ∧ load64 (mem h) (addr b + 8) = n ∧
  load64 (mem h) (addr b + 16) = p ∧ blk_mem (mem h) b.
Proof.
  intros [Hr ? (? & ? & ? & HB) ? ? ? ? ? ? ? HL HM] Hf. destruct Hr.
  rewrite faddrs_cons, Hf in HL. simpl in *. destruct HL as (? & ? & _).
  apply Forall_cons in HM as [HM _]. unfold bend in *. pose proof (bm_size _ _ HM). unfold b_size in *.
  unfold b_prev, b_next in *. rewrite HB in *. split_and!; try done; lia.
Qed.

(** The memory after a split of the block at [a] of size [s], whose neighbours
    in the free list are [p] and [n]; [rest] is the remainder. *)
Definition split_mem (m : Z → Z) (a s need p n : Z) : Z → Z :=
  let rest := a + 32 + need in
  let m := store64 m rest (s - need - 32) in
  let m := store32 m (rest + 28) BLOCK_MAGIC in
  let m := store64 m (rest + 8) 0 in
  let m := store64 m (rest + 16) 0 in
  let m := store8 m (rest + 24) 0 in
  let m := store32 m (rest + 28 + (s - need - 32)) FOOTER_MAGIC in
  let m := store64 m (rest + 8) n in
  let m := store64 m (rest + 16) p in
  let m := if p =? 0 then m else store64 m (p + 8) rest in
  let m := if n =? 0 then m else store64 m (n + 16) rest in
  let m := store8 m (rest + 24) 1 in
  let m := store64 m a need in
  let m := store8 m (a + 24) 0 in
  let m := store64 m (a + 8) 0 in
  let m := store64 m (a + 16) 0 in
  store32 m (a + 28 + need) FOOTER_MAGIC.

Section split.
  Context (a s need p n : Z).
  Context (Ha : 0 < a) (He : a + 32 + s < 2 ^ 64) (Hn : 32 ≤ need) (Hleft : 64 ≤ s - need).
  Context (Hp : p = 0 ∨ 0 < p ∧ p + 64 ≤ a) (Hx : n = 0 ∨ a + 32 + s ≤ n ∧ n + 64 < 2 ^ 64).

Lemma split_mem_frame m y :
  ¬ (a ≤ y < a + 32 + s) → ¬ (p ≠ 0 ∧ p + 8 ≤ y < p + 16) →
  ¬ (n ≠ 0 ∧ n + 16 ≤ y < n + 24) → split_mem m a s need p n y = m y.
Proof using Type*.
  intros. unfold split_mem. cbv zeta.
  destruct (Z.eqb_spec p 0), (Z.eqb_spec n 0); mem_frame; done.
Qed.

Lemma split_mem_blks m :
  load32 m (a + 28) = BLOCK_MAGIC →
  Forall (blk_mem (split_mem m a s need p n))
    [mk_blk a need false; mk_blk (a + 32 + need) (s - need - 32) true].
Proof using Type*.
  intros Hmg. repeat constructor; unfold b_size, b_magic, bend, split_mem; cbn [addr bsz bfree]; cbv zeta.
  all: try replace (a + 32 + need - 4) with (a + 28 + need) by lia.
  all: try replace (a + 32 + need + 32 + (s - need - 32) - 4)
    with (a + 32 + need + 28 + (s - need - 32)) by lia.
  all: destruct (Z.eqb_spec p 0), (Z.eqb_spec n 0); unfold BLOCK_MAGIC, FOOTER_MAGIC in *; mem_simp; done.
Qed.

Lemma split_mem_links m :
  let m' := split_mem m a s need p n in
  let rest := a + 32 + need in
  b_prev m' rest = p ∧ b_next m' rest = n ∧
  (p ≠ 0 → b_next m' p = rest) ∧ (n ≠ 0 → b_prev m' n = rest).
Proof using Type*.
  unfold b_prev, b_next, split_mem. cbv zeta.
  destruct (Z.eqb_spec p 0), (Z.eqb_spec n 0); split_and!; intros; try done; mem_simp; done.
Qed.

Lemma split_and_use_split h :
  load64 (mem h) a = s → load64 (mem h) (a + 8) = n → load64 (mem h) (a + 16) = p →
  mem (split_and_use a need h) = split_mem (mem h) a s need p n ∧
  free_list_head (split_and_use a need h) =
    (if p =? 0 then a + 32 + need else free_list_head h) ∧
  same_glob h (split_and_use a need h).
Proof using Type*.
  intros Es En Ep. unfold split_and_use, split_mem.
  assert (b_size (mem h) a = s) as -> by done. unfold HEADER_SIZE, MIN_BLOCK_SIZE.
  rewrite (u64_small (s - need)), (u64_small (a + 32 + need)) by (unfold is_u64; lia).
  remember (a + 32 + need) as rest eqn:Er.
  rewrite (proj2 (Z.leb_le _ _)) by lia. cbv zeta. rewrite make_rest_eq by lia.
  rewrite (splice_rest_eq _ a rest p n); [|simpl; mem_simp; done|simpl; mem_simp; done|lia|lia|lia].
  rewrite (finish_use_eq _ need); [| |lia|lia|lia].
  - destruct (p =? 0), (n =? 0); done.
  - destruct (p =? 0), (n =? 0); hdr; mem_simp; done.
Qed.
End split.

(** Likewise when the whole block is used. *)
Definition use_mem (m : Z → Z) (a s p n : Z) : Z → Z :=
  let m := if p =? 0 then m else store64 m (p + 8) n in
  let m := if n =? 0 then m else store64 m (n + 16) p in
  let m := store64 m (a + 8) 0 in
  let m := store64 m (a + 16) 0 in
  let m := store8 m (a + 24) 0 in
  let m := store8 m (a + 24) 0 in
  let m := store64 m (a + 8) 0 in
  let m := store64 m (a + 16) 0 in
  store32 m (a + 28 + s) FOOTER_MAGIC.

Section whole.
  Context (a s p n : Z).
  Context (Ha : 0 < a) (He : a + 32 + s < 2 ^ 64) (Hs : 32 ≤ s).
  Context (Hp : p = 0 ∨ 0 < p ∧ p + 64 ≤ a) (Hx : n = 0 ∨ a + 32 + s ≤ n ∧ n + 64 < 2 ^ 64).

Lemma use_mem_frame m y :
  ¬ (a ≤ y < a + 32 + s) → ¬ (p ≠ 0 ∧ p + 8 ≤ y < p + 16) →
  ¬ (n ≠ 0 ∧ n + 16 ≤ y < n + 24) → use_mem m a s p n y = m y.
Proof using Type*.
  intros. unfold use_mem. cbv zeta.
  destruct (Z.eqb_spec p 0), (Z.eqb_spec n 0); mem_frame; done.
Qed.

Lemma use_mem_blk m f :
  blk_mem m (mk_blk a s f) → blk_mem (use_mem m a s p n) (mk_blk a s false).
Proof using Type*.
  intros [E1 E2 E3 E4]. unfold b_size, b_magic, bend in *. cbn [addr bsz bfree] in *.
  constructor; unfold b_size, b_magic, bend, use_mem; cbn [addr bsz bfree]; cbv zeta.
  4: replace (a + 32 + s - 4) with (a + 28 + s) by lia.
  all: destruct (Z.eqb_spec p 0), (Z.eqb_spec n 0); unfold FOOTER_MAGIC; mem_simp; done.
Qed.

Lemma use_mem_links m :
  let m' := use_mem m a s p n in
  (p ≠ 0 → b_next m' p = n) ∧ (n ≠ 0 → b_prev m' n = p).
Proof using Type*.
  unfold b_prev, b_next, use_mem. cbv zeta.
  destruct (Z.eqb_spec p 0), (Z.eqb_spec n 0); split_and!; intros; try done; mem_simp; done.
Qed.

Lemma split_and_use_whole h need :
  load64 (mem h) a = s → load64 (mem h) (a + 8) = n → load64 (mem h) (a + 16) = p →
  0 ≤ need ≤ s → s - need < 64 →
  mem (split_and_use a need h) = use_mem (mem h) a s p n ∧
  free_list_head (split_and_use a need h) = (if p =? 0 then n else free_list_head h) ∧
  same_glob h (split_and_use a need h).
Proof using Type*.
  intros Es En Ep Hneed Hleft. unfold split_and_use, use_mem.
  assert (b_size (mem h) a = s) as -> by done. unfold HEADER_SIZE, MIN_BLOCK_SIZE.
  rewrite (u64_small (s - need)) by (unfold is_u64; lia).
  rewrite (proj2 (Z.leb_gt _ _)) by lia. cbv zeta. unfold remove_free_block. cbv zeta.
  assert (b_prev (mem h) a = p) as -> by done. assert (b_next (mem h) a = n) as -> by done.
  set (h1 := if negb (p =? 0) then set_b_next p n h else set_head n h).
  assert (b_next (mem h1) a = n ∧ b_prev (mem h1) a = p) as [-> ->].
  { subst h1. destruct (Z.eqb_spec p 0); simpl; [done|]. hdr. mem_simp. done. }
  rewrite (finish_use_eq _ s); [| |lia|lia|lia].
  - subst h1. destruct (p =? 0), (n =? 0); done.
  - subst h1. destruct (Z.eqb_spec p 0), (Z.eqb_spec n 0); hdr; mem_simp; done.
Qed.
End whole.

Lemma tiles_one s0 e0 a s f :
  a = s0 → 32 ≤ s → s mod 16 = 0 → a + 32 + s = e0 → tiles s0 e0 [mk_blk a s f].
Proof. simpl. unfold bend. simpl. lia. Qed.

Lemma split_and_use_rep h l1 b l2 need :
  heap_rep h (l1 ++ [b] ++ l2) → bfree b = true →
  32 ≤ need → need mod 16 = 0 → need ≤ bsz b →
  let h' := split_and_use (addr b) need h in
  heap_rep h' (l1 ++ split_blk b need ++ l2) ∧
  keeps (mem h) (mem h') (l1 ++ l2) ∧ same_glob h h'.
Proof.
  intros Hr Hf Hn Hna Hle h'. destruct (make_piece _ _ _ _ Hr) as (s0 & e0 & Hpc).
  set (p := last0 0 (faddrs l1)) in *. set (n := hd0 0 (faddrs l2)) in *. clearbody p n.
  destruct (piece_free_inv _ _ _ _ _ _ _ _ Hpc Hf)
    as (<- & -> & Hsz & Hal & Ha & He & Es & En & Ep & Hbm).
  destruct Hr as [? ? ? _ _ _ _ _].
  pose proof (pc_pb _ _ _ _ _ _ _ _ Hpc) as Bp. pose proof (pc_nb _ _ _ _ _ _ _ _ Hpc) as Bn.
  assert (p = 0 ∨ 0 < p ∧ p + 64 ≤ addr b) as Bp' by lia.
  assert (n = 0 ∨ addr b + 32 + bsz b ≤ n ∧ n + 64 < 2 ^ 64) as Bn' by lia.
  unfold split_blk. destruct (Z.leb_spec 64 (bsz b - need)).
  - destruct (split_and_use_split _ _ _ _ _ Ha He Hn ltac:(lia) Bp' Bn' h Es En Ep) as (Em & Eh & Hg).
    fold h' in Em, Eh, Hg. clearbody h'.
    destruct (split_mem_links (addr b) (bsz b) need p n) with (m := mem h) as (L1 & L2 & L3 & L4); try lia.
    rewrite <- Em in *. cut (heap_rep h' (l1 ++ [mk_blk (addr b) need false; mk_blk (addr b + 32 + need) (bsz b - need - 32) true] ++ l2) ∧ keeps (mem h) (mem h') (l1 ++ l2)); [tauto|].
    apply (piece_replace h h' l1 [b] l2 _ _ p n _ Hpc); try apply Hg.
    + simpl. unfold bend. simpl. split_and!; try lia. wrap_lia.
    + rewrite Em. intros y ???. by apply split_mem_frame.
    + done.
    + done.
    + rewrite Em. apply split_mem_blks; try done. apply Hbm.
    + simpl. done.
    + done.
  - destruct (split_and_use_whole _ _ _ _ Ha He Hsz Bp' Bn' h need Es En Ep) as (Em & Eh & Hg); [lia|lia|].
    fold h' in Em, Eh, Hg. clearbody h'.
    destruct (use_mem_links (addr b) (bsz b) p n) with (m := mem h) as (L3 & L4); try lia.
    rewrite <- Em in *. cut (heap_rep h' (l1 ++ [mk_blk (addr b) (bsz b) false] ++ l2) ∧ keeps (mem h) (mem h') (l1 ++ l2)); [tauto|].
    apply (piece_replace h h' l1 [b] l2 _ _ p n _ Hpc); try apply Hg; try done.
    + rewrite Em. intros y ???. by apply use_mem_frame.
    + rewrite Em. constructor; [|constructor]. apply (use_mem_blk _ _ _ _ Ha He Hsz Bp' Bn' _ true). destruct b. simpl in *. by subst.
Qed.

Lemma links_last_next m pv nx F : links m pv nx F → F ≠ [] → b_next m (last0 pv F) = nx.
Proof.
  revert pv. induction F as [|x F IH]; intros pv; simpl; [done|]. intros (_ & Hn & HL) _.
  destruct F as [|y F]; [done|]. by apply (IH x).
Qed.

(** The way into a piece from the left. *)
Lemma piece_entry h l1 B l2 s0 e0 p n :
  piece h l1 B l2 s0 e0 p n →
  (p ≠ 0 → b_next (mem h) p = hd0 n (faddrs B)) ∧
  (p = 0 → free_list_head h = hd0 n (faddrs B)).
Proof.
  intros [[? ? ? ? ? _ HL Hh] T1 ? ? -> -> _ _ _ _ _ _].
  rewrite !faddrs_app, !links_app in HL. destruct HL as [HL _]. rewrite hd0_app in HL.
  rewrite !faddrs_app, !hd0_app in Hh.
  destruct (last0_bound _ _ _ T1) as [[E1 E2]|Hb].
  - split; [done|]. intros _. by rewrite E2 in Hh.
  - split; [|lia]. intros _. apply (links_last_next _ _ _ _ HL). intros E. rewrite E in Hb. simpl in Hb. lia.
Qed.

(** ** Merging two adjacent free blocks *)

Definition merge_mem (m : Z → Z) (a s c sc n : Z) : Z → Z :=
  let m := store64 m a (s + 32 + sc) in
  let m := store64 m (a + 8) n in
  let m := if n =? 0 then m else store64 m (n + 16) a in
  store32 m (c + 28) DEAD_MAGIC.

Definition merged (b c : blk) : blk := mk_blk (addr b) (bsz b + 32 + bsz c) true.

Lemma try_merge_eq h a s c sc n :
  0 < a → 32 ≤ s → 32 ≤ sc → c = a + 32 + s → c + 32 + sc < 2 ^ 64 →
  n = 0 ∨ c + 32 + sc ≤ n →
  load64 (mem h) a = s → load64 (mem h) (a + 8) = c →
  load64 (mem h) c = sc → load64 (mem h) (c + 8) = n →
  try_merge_with_next a h =
  set_stats (count_coalesce (stats h)) (set_mem (merge_mem (mem h) a s c sc n) h).
Proof.
  intros Ha Hs Hsc Ec Hc Hn Es En Esc Enc. unfold try_merge_with_next.
  assert (b_next (mem h) a = c) as -> by done. assert (b_size (mem h) a = s) as -> by done.
  rewrite (proj2 (Z.eqb_neq c 0)) by lia. unfold HEADER_SIZE.
  rewrite (u64_small (a + 32 + s)), <- Ec, Z.eqb_refl by (unfold is_u64; lia). cbn [negb]. cbv zeta.
  assert (b_size (mem h) c = sc) as -> by done.
  rewrite (u64_small (s + 32 + sc)) by (unfold is_u64; lia).
  set (h1 := set_b_size a (s + 32 + sc) h).
  assert (b_next (mem h1) c = n) as -> by (subst h1; hdr; mem_simp; done).
  set (h2 := set_b_next a n h1).
  assert (b_next (mem h2) c = n) as -> by (subst h2 h1; hdr; mem_simp; done).
  subst h2 h1. unfold merge_mem. by destruct (n =? 0).
Qed.

Lemma merge_rep h l1 b c l2 :
  heap_rep h (l1 ++ [b; c] ++ l2) → bfree b = true → bfree c = true →
  let h' := try_merge_with_next (addr b) h in
  heap_rep h' (l1 ++ [merged b c] ++ l2) ∧
  keeps (mem h) (mem h') (l1 ++ l2) ∧ same_glob h h'.
Proof.
  intros Hr Hb Hc h'. destruct (make_piece _ _ _ _ Hr) as (s0 & e0 & Hpc).
  pose proof (piece_entry _ _ _ _ _ _ _ _ Hpc) as Ent. rewrite !faddrs_cons, Hb in Ent. simpl in Ent.
  set (p := last0 0 (faddrs l1)) in *. set (n := hd0 0 (faddrs l2)) in *. clearbody p n.
  destruct Hr as [? ? ? _ _ _ _ _].
  pose proof Hpc as [_ _ (Hab & Hsb & Hmb & Hac & Hsc & Hmc & He) _ _ _ Bp Bn B1 B2 HL HM].
  rewrite !faddrs_cons, Hb, Hc in HL. simpl in HL, Hac, He.
  destruct HL as (Lbp & Lbn & _ & Lcn & _). unfold bend in Hac, He. subst s0.
  apply Forall_cons in HM as [[Mb1 Mb2 Mb3 Mb4] HM]. apply Forall_cons in HM as [[Mc1 Mc2 Mc3 Mc4] _].
  rewrite Hb in Mb2. unfold b_size, b_magic, b_next, b_prev, bend in *.
  assert (h' = set_stats (count_coalesce (stats h))
    (set_mem (merge_mem (mem h) (addr b) (bsz b) (addr c) (bsz c) n) h)) as E.
  { apply try_merge_eq; try done; lia. }
  clearbody h'. subst h'.
  apply (and_assoc (heap_rep _ _)). split; [|by constructor].
  apply (piece_replace h _ l1 [b; c] l2 _ _ p n _ Hpc); try done; unfold merge_mem; cbn [mem set_stats set_mem]; cbv zeta.
  - apply tiles_one; [done|lia| |lia]. wrap_lia.
  - intros y ???. destruct (Z.eqb_spec n 0); mem_frame; done.
  - intros Hp. etrans; [|apply (proj1 Ent Hp)]. unfold b_next. destruct (Z.eqb_spec n 0); mem_simp; done.
  - intros Hn. unfold b_prev. simpl. destruct (Z.eqb_spec n 0); [done|]; mem_simp; done.
  - repeat constructor; unfold b_size, b_magic, bend; cbn [addr bsz bfree merged].
    4: replace (addr b + 32 + (bsz b + 32 + bsz c) - 4) with (addr c + 32 + bsz c - 4) by lia.
    all: unfold DEAD_MAGIC; destruct (Z.eqb_spec n 0); mem_simp; done.
  - simpl. unfold b_prev, b_next. destruct (Z.eqb_spec n 0); mem_simp; subst; done.
  - simpl. destruct (Z.eqb_spec p 0) as [E|E]; [by apply Ent|done].
Qed.

(** ** Headers of a well-formed heap pass validation *)

Lemma keeps_refl m cs : keeps m m cs.
Proof. by intros c _ _ y _. Qed.

Lemma keeps_trans m1 m2 m3 cs : keeps m1 m2 cs → keeps m2 m3 cs → keeps m1 m3 cs.
Proof. intros H1 H2 c Hc Hf y Hy. rewrite (H2 c Hc Hf y Hy). by apply (H1 c). Qed.

Lemma keeps_mono m m' cs cs' :
  keeps m m' cs → (∀ c, c ∈ cs' → bfree c = false → c ∈ cs) → keeps m m' cs'.
Proof. intros H Hin c Hc Hf. apply H; auto. Qed.

Lemma rep_block h bs b :
  heap_rep h bs → b ∈ bs →
  0 < addr b ∧ heap_start h ≤ addr b ∧ bend b ≤ heap_end h ∧ bend b < 2 ^ 64 ∧
  32 ≤ bsz b ∧ bsz b mod 16 = 0 ∧ blk_mem (mem h) b.
Proof.
  intros [? ? ? ? Ht Hm _ _] Hb. destruct (tiles_in _ _ _ _ Ht Hb) as (? & ? & ? & ?).
  rewrite Forall_forall in Hm. split_and!; try lia; auto.
Qed.

Lemma rep_block_in_heap h bs b : heap_rep h bs → b ∈ bs → block_in_heap h (addr b) = true.
Proof.
  intros Hr Hb. destruct (rep_block _ _ _ Hr Hb) as (? & ? & ? & ? & ? & ? & [E _ _ _]).
  unfold block_in_heap. rewrite E. unfold HEADER_SIZE, bend in *.
  rewrite (proj2 (Z.eqb_neq _ _)), u64_small by (unfold is_u64; lia).
  by rewrite !(proj2 (Z.leb_le _ _)), !(proj2 (Z.ltb_lt _ _)) by lia.
Qed.

Lemma rep_validate h bs b :
  heap_rep h bs → b ∈ bs →
  validate_block_fast h (addr b) = true ∧ validate_block_full h (addr b) = true.
Proof.
  intros Hr Hb. destruct (rep_block _ _ _ Hr Hb) as (? & ? & ? & ? & ? & Hal & [E _ Emg _]).
  unfold validate_block_fast, validate_block_full.
  rewrite (rep_block_in_heap _ _ _ Hr Hb), Emg, Z.eqb_refl, E.
  rewrite (proj2 (Z.eqb_neq (addr b) 0)) by lia. unfold MIN_BLOCK_SIZE, ALIGNMENT.
  rewrite (proj2 (Z.ltb_ge (bsz b) 32)) by lia.
  change (16 - 1) with (2 ^ 4 - 1). rewrite land_ones_mod by lia. change (2 ^ 4) with 16.
  rewrite Hal. done.
Qed.

Lemma rep_check_footer h bs b : heap_rep h bs → b ∈ bs → check_footer h (addr b) = true.
Proof.
  intros Hr Hb. destruct (rep_block _ _ _ Hr Hb) as (? & ? & ? & ? & ? & ? & [E _ _ Ef]).
  unfold check_footer, block_footer. rewrite E. unfold HEADER_SIZE, FOOTER_SIZE, bend in *.
  rewrite u64_small by (unfold is_u64; lia). rewrite Ef. done.
Qed.

Lemma rep_free h bs b : heap_rep h bs → b ∈ bs → b_free (mem h) (addr b) = bfree b.
Proof.
  intros Hr Hb. destruct (rep_block _ _ _ Hr Hb) as (_ & _ & _ & _ & _ & _ & [_ Ef _ _]).
  unfold b_free. rewrite Ef. by destruct (bfree b).
Qed.

(** The number of blocks stays below the bound the walks check. *)
Lemma rep_max_blocks h bs : heap_rep h bs → Z.of_nat (length bs) < max_blocks h.
Proof.
  intros [? ? ? Hs Ht _ _ _]. pose proof (tiles_le _ _ _ Ht).
  unfold max_blocks, HEADER_SIZE, MIN_BLOCK_SIZE. Z.div_mod_to_equations. lia.
Qed.

Lemma rep_next h l1 b l2 :
  heap_rep h (l1 ++ b :: l2) → bfree b = true → b_next (mem h) (addr b) = hd0 0 (faddrs l2).
Proof.
  intros [_ _ _ _ _ _ HL _] Hf. rewrite faddrs_app, faddrs_cons, Hf, links_app in HL.
  simpl in HL. tauto.
Qed.

(** ** First fit *)

Lemma first_fit_spec total fuel visited h l1 l2 :
  heap_rep h (l1 ++ l2) → 0 ≤ visited → visited + Z.of_nat (length l2) ≤ max_blocks h →
  (length l2 < fuel)%nat →
  ∃ r, first_fit fuel visited (hd0 0 (faddrs l2)) total h = Ret r ∧
  ((r = 0 ∧ ∀ b, b ∈ l2 → bfree b = true → bsz b < total) ∨
   (∃ x b y, l2 = x ++ b :: y ∧ r = addr b ∧ bfree b = true ∧ total ≤ bsz b ∧
      ∀ c, c ∈ x → bfree c = true → bsz c < total)).
Proof.
  revert fuel visited l1. induction l2 as [|b l2 IH]; intros fuel visited l1 Hr Hv Hmax Hf.
  { exists 0. split; [by destruct fuel|]. left. split; [done|]. intros b Hb. by apply elem_of_nil in Hb. }
  simpl in Hmax, Hf. rewrite faddrs_cons. destruct (bfree b) eqn:Eb; simpl.
  - assert (b ∈ l1 ++ b :: l2) as Hb by set_solver.
    destruct (rep_block _ _ _ Hr Hb) as (? & _ & _ & _ & _ & _ & [Es _ _ _]).
    destruct fuel as [|fuel]; [lia|]. simpl.
    rewrite (proj2 (Z.eqb_neq _ _)), (proj2 (Z.ltb_ge _ _)) by lia.
    rewrite (proj1 (rep_validate _ _ _ Hr Hb)), (rep_free _ _ _ Hr Hb), Eb, Es. simpl.
    destruct (Z.leb_spec total (bsz b)).
    + exists (addr b). split; [done|]. right. exists [], b, l2. split_and!; try done.
      intros c Hc. by apply elem_of_nil in Hc.
    + rewrite (rep_next _ _ _ _ Hr Eb).
      destruct (IH fuel (visited + 1) (l1 ++ [b])) as (r & Hr1 & Hr2); [by rewrite <- app_assoc|lia|lia|lia|].
      exists r. split; [done|]. destruct Hr2 as [[-> Hall]|(x & c & y & -> & ? & ? & ? & Hall)].
      * left. split; [done|]. intros c [->|Hc]%elem_of_cons; auto.
      * right. exists (b :: x), c, y. split_and!; try done. intros d [->|Hd]%elem_of_cons; auto.
  - destruct (IH fuel visited (l1 ++ [b])) as (r & Hr1 & Hr2); [by rewrite <- app_assoc|lia|lia|lia|].
    exists r. split; [done|]. destruct Hr2 as [[-> Hall]|(x & c & y & -> & ? & ? & ? & Hall)].
    + left. split; [done|]. intros c [->|Hc]%elem_of_cons; [congruence|auto].
    + right. exists (b :: x), c, y. split_and!; try done.
      intros d [->|Hd]%elem_of_cons; [congruence|auto].
Qed.

(** ** Coalescing *)

(** One pass: a free block takes in its free successor, and the walk goes on
    after the merged pair. *)
Fixpoint abs_coalesce (bs : list blk) : list blk :=
  match bs with
  | b :: ((c :: r) as t) =>
      if bfree b && bfree c then merged b c :: abs_coalesce r else b :: abs_coalesce t
  | _ => bs
  end.

Lemma abs_coalesce_ind (P : list blk → Prop) :
  P [] → (∀ b r, P r → (∀ c r', r = c :: r' → P r') → P (b :: r)) → ∀ bs, P bs.
Proof.
  intros H0 H1. cut (∀ bs, P bs ∧ ∀ c r, bs = c :: r → P r); [firstorder|].
  induction bs as [|b bs [IH1 IH2]]; [done|]. split; [by apply H1|]. by intros c r [= _ ->].
Qed.

Lemma merge_skip h l1 b l2 :
  heap_rep h (l1 ++ b :: l2) → bfree b = true →
  match l2 with c :: _ => bfree c = false | [] => True end →
  try_merge_with_next (addr b) h = h.
Proof.
  intros Hr Hb Hc. unfold try_merge_with_next. rewrite (rep_next _ _ _ _ Hr Hb).
  destruct (rep_block h _ b Hr) as (? & _ & _ & ? & ? & _ & [E _ _ _]); [set_solver|].
  rewrite E. unfold HEADER_SIZE, bend in *.
  pose proof (hr_tiles _ _ Hr) as (mid & _ & HT)%tiles_app. destruct HT as (_ & _ & _ & HT).
  destruct l2 as [|c l2]; [done|]. destruct HT as (Ea & ? & _ & HT).
  rewrite faddrs_cons, Hc. simpl. rewrite u64_small by (unfold is_u64; lia).
  destruct (hd0_bound _ _ _ HT) as [[-> _]|?]; [done|].
  destruct (Z.eqb_spec (hd0 0 (faddrs l2)) 0); [done|].
  rewrite (proj2 (Z.eqb_neq _ (hd0 _ _))); [done|]. unfold bend in *. lia.
Qed.

Lemma coalesce_loop_spec l2 : ∀ fuel visited h l1,
  heap_rep h (l1 ++ l2) → 0 ≤ visited → visited + Z.of_nat (length l2) ≤ max_blocks h →
  (length l2 < fuel)%nat →
  ∃ h', coalesce_loop fuel visited (hd0 0 (faddrs l2)) h = Ret h' ∧
    heap_rep h' (l1 ++ abs_coalesce l2) ∧ keeps (mem h) (mem h') (l1 ++ l2) ∧ same_glob h h'.
Proof.
  induction l2 as [|b l2 IH1 IH2] using abs_coalesce_ind; intros fuel visited h l1 Hr Hv Hmax Hf.
  { exists h. split_and!; [by destruct fuel|done|apply keeps_refl|done]. }
  simpl in Hmax, Hf.
  assert (∀ fuel visited, 0 ≤ visited → visited + Z.of_nat (length l2) ≤ max_blocks h →
     (length l2 < fuel)%nat → ∃ h', coalesce_loop fuel visited (hd0 0 (faddrs l2)) h = Ret h' ∧
      heap_rep h' (l1 ++ b :: abs_coalesce l2) ∧ keeps (mem h) (mem h') (l1 ++ b :: l2) ∧
      same_glob h h') as Hskip.
  { intros f v ???. destruct (IH1 f v h (l1 ++ [b])) as (h' & ? & ? & ? & ?); try done;
      [by rewrite <- app_assoc|]. rewrite <- !app_assoc in *. by exists h'. }
  rewrite faddrs_cons. destruct (bfree b) eqn:Eb; cbn [app hd0].
  2:{ assert (abs_coalesce (b :: l2) = b :: abs_coalesce l2) as ->.
      { simpl. rewrite Eb. by destruct l2. }
      apply Hskip; lia. }
  assert (b ∈ l1 ++ b :: l2) as Hb by set_solver.
  destruct (rep_block _ _ _ Hr Hb) as (? & _).
  destruct fuel as [|fuel]; [lia|]. cbn [coalesce_loop].
  rewrite (proj2 (Z.eqb_neq _ _)), (proj2 (Z.ltb_ge _ _)) by lia.
  rewrite (proj1 (rep_validate _ _ _ Hr Hb)). cbn [negb]. cbv zeta.
  destruct (match l2 with c :: _ => bfree c | [] => false end) eqn:Ec.
  - destruct l2 as [|c l2]; [done|]. simpl in Hmax, Hf.
    destruct (merge_rep h l1 b c l2 Hr Eb Ec) as (Hr' & Hk & Hg).
    set (h1 := try_merge_with_next (addr b) h) in *. clearbody h1.
    assert (b_next (mem h1) (addr b) = hd0 0 (faddrs l2)) as ->.
    { by apply (rep_next h1 l1 (merged b c) l2). }
    assert (max_blocks h1 = max_blocks h) by (unfold max_blocks; by rewrite (sg_size _ _ Hg)).
    destruct (IH2 c l2 eq_refl fuel (visited + 1) h1 (l1 ++ [merged b c])) as (h' & E & R & K & G);
      [by rewrite <- app_assoc|lia|lia|lia|].
    exists h'. simpl. rewrite Eb, Ec. simpl. rewrite <- !app_assoc in *.
    split_and!; [done|done| |by etrans].
    apply (keeps_mono _ _ (l1 ++ l2)); [|intros d; rewrite !elem_of_app, !elem_of_cons; intros [?|[->|[->|?]]]; auto; congruence].
    apply (keeps_trans _ (mem h1)); [done|]. apply (keeps_mono _ _ _ _ K). set_solver.
  - rewrite (merge_skip _ _ _ _ Hr Eb) by (by destruct l2).
    rewrite (rep_next _ _ _ _ Hr Eb).
    assert (abs_coalesce (b :: l2) = b :: abs_coalesce l2) as ->.
    { simpl. rewrite Eb. destruct l2; [done|]. by rewrite Ec. }
    apply Hskip; lia.
Qed.

Lemma links_ext m m' pv nx F :
  links m pv nx F →
  (∀ x, x ∈ F → b_next m' x = b_next m x ∧ b_prev m' x = b_prev m x) → links m' pv nx F.
Proof.
  revert pv. induction F as [|x F IH]; intros pv; simpl; [done|]. intros (Hp & Hn & HL) H.
  destruct (H x) as [-> ->]; [set_solver|]. split_and!; try done. apply IH; [done|].
  intros y Hy. apply H. set_solver.
Qed.

(** ** Returning a block to the free list *)

Lemma insert_pos_spec m a pv n F fuel :
  links m pv n F → F ≠ [] → (∀ x, x ∈ F → 0 < x < a) → n = 0 ∨ a ≤ n →
  (length F ≤ fuel)%nat → insert_pos fuel m a (hd0 0 F) = Ret (last0 0 F).
Proof.
  revert pv fuel. induction F as [|x F IH]; intros pv fuel; [done|].
  intros (_ & Hn & HL) _ Hlt Hnx Hfuel. destruct fuel as [|fuel]; [simpl in Hfuel; lia|].
  simpl. rewrite Hn. destruct F as [|y F]; simpl.
  - destruct (Z.eqb_spec n 0); simpl; [done|]. by rewrite (proj2 (Z.ltb_ge _ _)) by lia.
  - destruct (Hlt y) as [? ?]; [set_solver|].
    rewrite (proj2 (Z.eqb_neq _ _)), (proj2 (Z.ltb_lt _ _)) by lia. simpl.
    apply (IH x); try done; [set_solver|]. simpl in *. lia.
Qed.

Definition insert_mem (m : Z → Z) (a p n : Z) : Z → Z :=
  let m := store8 m (a + 24) 1 in
  let m := store64 m (a + 8) n in
  let m := store64 m (a + 16) p in
  let m := if n =? 0 then m else store64 m (n + 16) a in
  if p =? 0 then m else store64 m (p + 8) a.

Lemma insert_free_block_eq h l1 b l2 s0 e0 p n :
  piece h l1 [b] l2 s0 e0 p n → bfree b = false →
  insert_free_block (addr b) h =
  Ret (set_head (if p =? 0 then addr b else free_list_head h)
        (set_mem (insert_mem (mem h) (addr b) p n) h)).
Proof.
  intros Hpc Hf. pose proof (piece_entry _ _ _ _ _ _ _ _ Hpc) as [Ent1 Ent2].
  pose proof (rep_max_blocks _ _ (pc_rep _ _ _ _ _ _ _ _ Hpc)) as Hmax.
  pose proof Hpc as [[? ? He ? ? _ HL Hh] T1 TB T2 Ep En Bp Bn ? ? _ _].
  rewrite faddrs_cons, Hf in Ent1, Ent2. simpl in Ent1, Ent2.
  destruct TB as (<- & ? & _ & TB). simpl in TB. unfold bend in TB.
  unfold insert_free_block, insert_mem. cbn [set_b_free set_mem free_list_head]. cbv zeta.
  destruct (Z.eqb_spec p 0) as [Hp|Hp].
  - rewrite (Ent2 Hp).
    assert ((n =? 0) || (addr b <? n) = true) as ->.
    { destruct (Z.eqb_spec n 0); simpl; [done|]. apply Z.ltb_lt. lia. }
    rewrite Hp. destruct (n =? 0); done.
  - assert (free_list_head h = hd0 0 (faddrs l1) ∧ 0 < free_list_head h < addr b) as [Eh Bh].
    { rewrite !faddrs_app, !hd0_app in Hh. destruct (faddrs l1) as [|z F1] eqn:EF; [simpl in Ep; congruence|].
      simpl in Hh. simpl. rewrite Hh. split; [done|].
      destruct (faddrs_in _ _ _ z T1); [rewrite EF; set_solver|]. lia. }
    assert ((free_list_head h =? 0) || (addr b <? free_list_head h) = false) as ->.
    { rewrite (proj2 (Z.eqb_neq _ _)), (proj2 (Z.ltb_ge _ _)) by lia. done. }
    rewrite !faddrs_app, faddrs_cons, Hf, !links_app in HL. destruct HL as [HL _]. simpl in HL.
    rewrite <- En in HL. rewrite Eh, (insert_pos_spec _ _ 0 n).
    + cbn [obind]. rewrite <- Ep.
      match goal with |- context [b_next ?m p] => assert (b_next m p = n) as -> end.
      { etrans; [|apply (Ent1 Hp)]. unfold b_next. simpl. mem_simp. done. }
      match goal with |- context [b_next ?m p] => assert (b_next m p = n) as -> end.
      { etrans; [|apply (Ent1 Hp)]. unfold b_next. hdr. mem_simp. done. }
      rewrite <- Eh. destruct (n =? 0); by destruct h.
    + apply (links_ext (mem h)); [done|]. intros x Hx. destruct (faddrs_in _ _ _ x T1 Hx).
      unfold b_next, b_prev. simpl. split; mem_simp; done.
    + intros E. rewrite E in Ep. simpl in Ep. congruence.
    + intros x Hx. destruct (faddrs_in _ _ _ x T1 Hx). lia.
    + lia.
    + pose proof (tiles_le _ _ _ T1). rewrite !length_app in Hmax.
      assert (length (faddrs l1) ≤ length l1)%nat.
      { unfold faddrs. rewrite length_fmap. apply length_filter. }
      change (max_blocks _) with (max_blocks h). lia.
Qed.

Definition freed (b : blk) : blk := mk_blk (addr b) (bsz b) true.

Lemma insert_free_block_rep h l1 b l2 :
  heap_rep h (l1 ++ [b] ++ l2) → bfree b = false →
  ∃ h', insert_free_block (addr b) h = Ret h' ∧ heap_rep h' (l1 ++ [freed b] ++ l2) ∧
    keeps (mem h) (mem h') (l1 ++ l2) ∧ same_glob h h'.
Proof.
  intros Hr Hf. destruct (make_piece _ _ _ _ Hr) as (s0 & e0 & Hpc).
  set (p := last0 0 (faddrs l1)) in *. set (n := hd0 0 (faddrs l2)) in *. clearbody p n.
  eexists. split; [by apply (insert_free_block_eq _ _ _ _ _ _ _ _ Hpc)|].
  destruct Hr as [? ? ? _ _ _ _ _].
  pose proof Hpc as [_ _ (<- & ? & ? & He) _ _ _ Bp Bn ? ? _ HM]. simpl in He.
  apply Forall_cons in HM as [[M1 M2 M3 M4] _]. unfold b_size, b_magic, bend in *.
  apply (and_assoc (heap_rep _ _)). split; [|by constructor].
  apply (piece_replace h _ l1 [b] l2 _ _ p n _ Hpc); try done; unfold insert_mem;
    cbn [mem set_head set_mem]; cbv zeta.
  - intros y ???. destruct (Z.eqb_spec n 0), (Z.eqb_spec p 0); mem_frame; done.
  - intros Hp. unfold b_next. destruct (Z.eqb_spec n 0), (Z.eqb_spec p 0); [done| |done|]; mem_simp; done.
  - intros Hn. unfold b_prev. destruct (Z.eqb_spec n 0), (Z.eqb_spec p 0); [done|done| |]; mem_simp; done.
  - constructor; [|constructor]. constructor; unfold b_size, b_magic, bend; cbn [addr bsz bfree freed];
      destruct (Z.eqb_spec n 0), (Z.eqb_spec p 0); mem_simp; done.
  - simpl. unfold b_prev, b_next. destruct (Z.eqb_spec n 0), (Z.eqb_spec p 0); mem_simp; done.
Qed.

(** ** Writes to a payload

    A client may write anything between the header and the footer of a block
    it owns; the heap stays well formed. *)
Lemma payload_rep h bs b m' :
  heap_rep h bs → b ∈ bs → bfree b = false →
  (∀ y, ¬ (addr b + 32 ≤ y < bend b - 4) → m' y = mem h y) →
  heap_rep (set_mem m' h) bs.
Proof.
  intros Hr Hb Hf Hy. pose proof Hr as [? ? ? ? Ht Hm HL Hh].
  destruct (tiles_in _ _ _ _ Ht Hb) as (? & ? & ? & _). unfold bend in *.
  constructor; simpl; try done.
  - rewrite Forall_forall in *. intros c Hc. destruct (Hm c Hc) as [E1 E2 E3 E4].
    destruct (tiles_in _ _ _ _ Ht Hc) as (? & ? & ? & _).
    pose proof (tiles_disjoint _ _ _ _ _ Ht Hb Hc) as Hd. unfold b_size, b_magic, bend in *.
    constructor; unfold b_size, b_magic, bend;
      [etrans; [|exact E1]|etrans; [|exact E2]|etrans; [|exact E3]|etrans; [|exact E4]];
      apply mload_ext; intros y Hy'; apply Hy; destruct Hd as [<-|[?|?]]; lia.
  - assert (∀ x, x ∈ faddrs bs → b_next m' x = b_next (mem h) x ∧ b_prev m' x = b_prev (mem h) x) as Hlk.
    { intros x (c & Hc & Hcf & <-)%elem_of_faddrs.
      destruct (tiles_in _ _ _ _ Ht Hc) as (? & ? & ? & _).
      destruct (tiles_disjoint _ _ _ _ _ Ht Hb Hc) as [<-|Hd]; [congruence|]. unfold bend in *.
      split; apply mload_ext; intros y Hy'; apply Hy; lia. }
    by apply (links_ext (mem h)).
Qed.

(** ** The abstract heap: operations on the list of blocks *)

Definition used_sum (bs : list blk) : Z :=
  foldr (λ b acc, (if bfree b then 0 else bsz b) + acc) 0 bs.

Fixpoint abs_alloc (total : Z) (bs : list blk) : option (Z * list blk) :=
  match bs with
  | [] => None
  | b :: r =>
      if bfree b && (total <=? bsz b) then Some (addr b + 32, split_blk b total ++ r)
      else match abs_alloc total r with
           | Some (p, r') => Some (p, b :: r')
           | None => None
           end
  end.

Fixpoint mark_free (a : Z) (bs : list blk) : list blk :=
  match bs with
  | [] => []
  | b :: r => if addr b =? a then freed b :: r else b :: mark_free a r
  end.

Definition abs_free (a : Z) (bs : list blk) : list blk := abs_coalesce (mark_free a bs).

(** The invariant between calls: the blocks, an open lock and exact
    accounting. The code's [total_free] counts everything that is not
    allocated except one header. *)
Record heap_ok (h : heap) (bs : list blk) : Prop := {
  ho_rep : heap_rep h bs;
  ho_spin : allocator_spin h = false;
  ho_alloc : total_allocated h = used_sum bs;
  ho_free : total_free h = heap_size h - 32 - used_sum bs;
  ho_peak : total_allocated h ≤ peak_usage h
}.

Lemma used_sum_app l1 l2 : used_sum (l1 ++ l2) = used_sum l1 + used_sum l2.
Proof. induction l1 as [|b l1 IH]; simpl; [done|]. unfold used_sum in *. lia. Qed.

Lemma used_sum_bound s e bs :
  tiles s e bs → 0 ≤ used_sum bs ∧ used_sum bs + 32 * Z.of_nat (length bs) ≤ e - s.
Proof.
  revert s. induction bs as [|b bs IH]; intros s; simpl; [lia|].
  intros (? & ? & _ & H). apply IH in H. unfold bend in H. destruct (bfree b); lia.
Qed.

Lemma used_sum_split b need : 
  used_sum (split_blk b need) = (if 64 <=? bsz b - need then need else bsz b).
Proof. unfold split_blk. case_if; simpl; lia. Qed.

Lemma abs_alloc_spec total bs :
  match abs_alloc total bs with
  | Some (p, bs') => ∃ x b y, bs = x ++ b :: y ∧ p = addr b + 32 ∧ bfree b = true ∧
      total ≤ bsz b ∧ bs' = x ++ split_blk b total ++ y ∧
      ∀ c, c ∈ x → bfree c = true → bsz c < total
  | None => ∀ b, b ∈ bs → bfree b = true → bsz b < total
  end.
Proof.
  induction bs as [|b bs IH]; simpl; [intros b Hb; by apply elem_of_nil in Hb|].
  destruct (bfree b) eqn:Ef; simpl.
  - destruct (Z.leb_spec total (bsz b)).
    + exists [], b, bs. split_and!; try done. intros c Hc. by apply elem_of_nil in Hc.
    + destruct (abs_alloc total bs) as [[p bs']|].
      * destruct IH as (x & c & y & -> & ? & ? & ? & -> & Hx). exists (b :: x), c, y.
        split_and!; try done. intros d [->|Hd]%elem_of_cons; auto.
      * intros c [->|Hc]%elem_of_cons; auto.
  - destruct (abs_alloc total bs) as [[p bs']|].
    + destruct IH as (x & c & y & -> & ? & ? & ? & -> & Hx). exists (b :: x), c, y.
      split_and!; try done. intros d [->|Hd]%elem_of_cons; [congruence|auto].
    + intros c [->|Hc]%elem_of_cons; [congruence|auto].
Qed.

Lemma abs_alloc_found total x b y :
  bfree b = true → total ≤ bsz b → (∀ c, c ∈ x → bfree c = true → bsz c < total) →
  abs_alloc total (x ++ b :: y) = Some (addr b + 32, x ++ split_blk b total ++ y).
Proof.
  intros Hf Hs. induction x as [|c x IH]; intros Hx; simpl.
  - by rewrite Hf, (proj2 (Z.leb_le _ _)).
  - rewrite IH by (intros d Hd; apply Hx; set_solver).
    destruct (bfree c) eqn:Ec; simpl; [|done].
    rewrite (proj2 (Z.leb_gt _ _)); [done|]. apply Hx; [set_solver|done].
Qed.

Lemma abs_alloc_none total bs :
  (∀ b, b ∈ bs → bfree b = true → bsz b < total) → abs_alloc total bs = None.
Proof.
  intros H. pose proof (abs_alloc_spec total bs) as Hs.
  destruct (abs_alloc total bs) as [[p bs']|]; [|done].
  destruct Hs as (x & b & y & -> & _ & Hf & Hle & _). specialize (H b). set_solver by lia.
Qed.

(** ** [ALIGN] and [payload_size] *)

Lemma ALIGN_eq n : 0 ≤ n → n + 15 < 2 ^ 64 → ALIGN n = (n + 15) / 16 * 16.
Proof.
  intros. unfold ALIGN. rewrite (u64_small (n + 15)) by (unfold is_u64; lia).
  apply (mask_pow2 (n + 15) 4); lia.
Qed.

Lemma payload_size_spec size :
  0 ≤ size → size + 19 < 2 ^ 64 →
  let t := payload_size size in
  t mod 16 = 0 ∧ 48 ≤ t ∧ size + 4 ≤ t ∧ t < 2 ^ 64 ∧ t ≤ Z.max 48 (size + 19).
Proof.
  intros Hs Hb. unfold payload_size, MIN_BLOCK_SIZE, FOOTER_SIZE.
  destruct (Z.ltb_spec size 32).
  { change (ALIGN (u64 (32 + 4))) with 48. cbv zeta. change (48 mod 16) with 0. lia. }
  rewrite u64_small, ALIGN_eq by (unfold is_u64; lia). cbv zeta. 
  assert ((size + 4 + 15) / 16 * 16 mod 16 = 0) by (apply Z.mod_mul; lia).
  Z.div_mod_to_equations. lia.
Qed.

(** ** Allocation *)

Lemma heap_ok_lock h bs : heap_ok h bs → allocator_lock h = Ret (set_spin true h).
Proof. intros [_ E _ _ _]. unfold allocator_lock. by rewrite E. Qed.

(** Fields the invariant does not mention may change freely. *)
Lemma rep_ext h h' bs :
  heap_rep h bs → mem h' = mem h → free_list_head h' = free_list_head h →
  heap_start h' = heap_start h → heap_end h' = heap_end h → heap_size h' = heap_size h →
  heap_rep h' bs.
Proof.
  intros [] Em Eh Es Ee Ez. constructor; rewrite ?Em, ?Eh, ?Es, ?Ee, ?Ez; done.
Qed.

Lemma unlock_ok h bs :
  heap_rep h bs → total_allocated h = used_sum bs →
  total_free h = heap_size h - 32 - used_sum bs → total_allocated h ≤ peak_usage h →
  heap_ok (allocator_unlock h) bs.
Proof. intros. constructor; try done. by apply (rep_ext h). Qed.

Lemma stats_ok h bs s : heap_ok h bs → heap_ok (set_stats s h) bs.
Proof. intros []. constructor; try done. by apply (rep_ext h). Qed.

Lemma split_blk_in b need :
  ∃ s r, split_blk b need = mk_blk (addr b) s false :: r ∧
    (s = bsz b ∨ s = need) ∧ (∀ c, c ∈ r → bfree c = true) ∧
    used_sum (split_blk b need) = s.
Proof.
  unfold split_blk. case_if.
  - eexists _, _. split; [done|]. split; [by right|]. split; [|simpl; lia].
    intros c ->%list_elem_of_singleton. done.
  - eexists _, _. split; [done|]. split; [by left|]. split; [|simpl; lia].
    intros c Hc. by apply elem_of_nil in Hc.
Qed.

Lemma alloc_locked_spec h bs total :
  heap_rep h bs → 32 ≤ total → total mod 16 = 0 →
  total_allocated h = used_sum bs → total_free h = heap_size h - 32 - used_sum bs →
  total_allocated h ≤ peak_usage h →
  match abs_alloc total bs with
  | None => alloc_locked total h = Ret (0, h)
  | Some (p, bs') => ∃ h', alloc_locked total h = Ret (p, h') ∧ heap_rep h' bs' ∧
      keeps (mem h) (mem h') bs ∧ allocator_spin h' = allocator_spin h ∧
      total_allocated h' = used_sum bs' ∧ total_free h' = heap_size h' - 32 - used_sum bs' ∧
      total_allocated h' ≤ peak_usage h' ∧ 
      heap_start h' = heap_start h ∧ heap_end h' = heap_end h
  end.
Proof.
  intros Hr Ht Hta Ea Ef Epk. unfold alloc_locked. rewrite (hr_head _ _ Hr).
  pose proof (rep_max_blocks _ _ Hr) as Hmax.
  destruct (first_fit_spec total (Z.to_nat (max_blocks h + 1)) 0 h [] bs Hr) as (r & -> & Hcase); [lia|lia|lia|].
  cbn [obind]. destruct Hcase as [[-> Hno]|(x & b & y & -> & -> & Hf & Hle & Hx)].
  { rewrite (abs_alloc_none _ _ Hno). done. }
  rewrite (abs_alloc_found _ _ _ _ Hf Hle Hx).
  destruct (rep_block _ _ b Hr) as (? & _ & ? & ? & ? & ? & _); [set_solver|].
  rewrite (proj2 (Z.eqb_neq _ _)) by lia.
  destruct (split_and_use_rep h x b y total Hr Hf Ht Hta Hle) as (Hr' & Hk & Hg).
  set (h1 := split_and_use (addr b) total h) in *. clearbody h1. cbv zeta.
  destruct (split_blk_in b total) as (s & r & Esp & Hs & Hr0 & Hsum).
  assert (b_size (mem h1) (addr b) = s) as ->.
  { destruct (rep_block _ _ (mk_blk (addr b) s false) Hr') as (_ & _ & _ & _ & _ & _ & [E _ _ _]); [|done].
    rewrite Esp. set_solver. }
  destruct (used_sum_bound _ _ _ (hr_tiles _ _ Hr')) as [? Hub].
  rewrite !used_sum_app, Hsum, !length_app, Esp in Hub.
  rewrite used_sum_app in *. change (b :: y) with ([b] ++ y) in *. rewrite used_sum_app in *.
  assert (used_sum [b] = 0) as E0 by (simpl; rewrite Hf; lia).
  destruct Hr' as [? ? ? Hsz ? ? ? ?] eqn:EE. pose proof Hg as [G1 G2 G3 G4 G5 G6 G7].
  unfold HEADER_SIZE. eexists. split.
  { rewrite (u64_small (addr b + 32)) by (unfold is_u64, bend in *; lia). done. }
  clear EE. cbn [length] in Hub.
  assert (0 ≤ s ∧ used_sum x + used_sum y + s < 2 ^ 64 ∧ s ≤ total_free h1) as (? & ? & ?).
  { rewrite G5, Ef, <- G3. lia. }
  split_and!; simpl; try done.
  - apply (keeps_mono _ _ _ _ Hk). intros c. rewrite !elem_of_app, elem_of_cons.
    intros [?|[->|?]]; auto. congruence.
  - rewrite G4, Ea, u64_small by (unfold is_u64; lia). rewrite ?used_sum_app, ?Hsum. lia.
  - rewrite G5, Ef, G3, u64_small by (unfold is_u64; lia). rewrite ?used_sum_app, ?Hsum. lia.
  - case_if; bool_to_prop; lia.
Qed.

Lemma tiles_aligned s e bs b : tiles s e bs → s mod 16 = 0 → b ∈ bs → addr b mod 16 = 0.
Proof.
  revert s. induction bs as [|c bs IH]; intros s; [intros _ _ H; by apply elem_of_nil in H|].
  intros (<- & ? & Hm & HT) Hs [->|Hin]%elem_of_cons; [done|].
  apply (IH _ HT); [|done]. unfold bend. wrap_lia.
Qed.

(** What a successful allocation gives the caller: an aligned payload of at
    least [size] bytes inside the heap, clear of every block in use. *)
Lemma abs_alloc_result h bs p bs' total :
  heap_rep h bs → 32 ≤ total → total mod 16 = 0 →
  abs_alloc total bs = Some (p, bs') →
  p ≠ 0 ∧ p mod 16 = 0 ∧ heap_start h + 32 ≤ p ∧ p + total ≤ heap_end h ∧
  ∃ b, b ∈ bs' ∧ bfree b = false ∧ p = addr b + 32 ∧ total ≤ bsz b ∧
    (∀ c, c ∈ bs → bfree c = false → bend c ≤ addr b ∨ bend b ≤ addr c) ∧
    (∀ c, c ∈ bs' → bfree c = false ↔ c = b ∨ c ∈ bs ∧ bfree c = false).
Proof.
  intros Hr Ht Hta Ea. pose proof (abs_alloc_spec total bs) as Hs. rewrite Ea in Hs.
  destruct Hs as (x & b & y & -> & -> & Hf & Hle & -> & Hx).
  destruct (split_blk_in b total) as (s & r & Esp & Hsz & Hr0 & _).
  pose proof (hr_tiles _ _ Hr) as HT.
  pose proof (tiles_aligned _ _ _ b HT (hr_align _ _ Hr) ltac:(set_solver)).
  destruct (rep_block _ _ b Hr) as (? & ? & ? & ? & ? & ? & _); [set_solver|].
  unfold bend in *. split_and!; try lia. { wrap_lia. }
  exists (mk_blk (addr b) s false). rewrite Esp. unfold bend. simpl.
  split_and!; try done; try lia; [set_solver| |].
  - intros c Hc Hcf. destruct (tiles_disjoint _ _ _ b c HT) as [->|Hd]; [set_solver|done|congruence|].
    unfold bend in *. lia.
  - intros c. rewrite !elem_of_app, !elem_of_cons, elem_of_app. intros Hc. split.
    + intros Hcf. destruct Hc as [?|[?|[Hc|?]]]; auto. rewrite (Hr0 c Hc) in Hcf. done.
    + intros [->|[_ ?]]; done.
Qed.

Lemma alloc_unzeroed_ok h bs size :
  heap_ok h bs → 0 < size → size + 19 < 2 ^ 64 →
  match abs_alloc (payload_size size) bs with
  | None => ∃ h', alloc_unzeroed size h = Ret (0, h') ∧ heap_ok h' bs ∧ mem h' = mem h
  | Some (p, bs') => ∃ h', alloc_unzeroed size h = Ret (p, h') ∧ heap_ok h' bs' ∧
      keeps (mem h) (mem h') bs ∧ heap_start h' = heap_start h ∧ heap_end h' = heap_end h
  end.
Proof.
  intros Hok Hs Hb. destruct (payload_size_spec size) as (P1 & P2 & P3 & P4 & _); [lia|lia|].
  unfold alloc_unzeroed. rewrite (proj2 (Z.eqb_neq _ _)) by lia.
  rewrite (heap_ok_lock _ _ Hok). cbn [obind]. destruct Hok as [Hr E1 E2 E3 E4].
  pose proof (alloc_locked_spec (set_spin true h) bs (payload_size size)) as Hl.
  destruct (abs_alloc (payload_size size) bs) as [[p bs']|] eqn:Ea.
  - destruct Hl as (h' & -> & Hr' & Hk & ? & ? & ? & ? & ? & ?); [by apply (rep_ext h)|lia|done..|].
    destruct (abs_alloc_result h bs p bs' (payload_size size) Hr ltac:(lia) P1 Ea) as (Hp & _).
    cbn [obind]. rewrite (proj2 (Z.eqb_neq _ _)) by done. exists (allocator_unlock h'). split_and!; try done. by apply unlock_ok.
  - rewrite Hl; [|by apply (rep_ext h)|lia|done..]. cbn [obind]. eexists. split_and!; [done| |done].
    by apply stats_ok, unlock_ok; [apply (rep_ext h)|..].
Qed.

Lemma keeps_fill m m0 a n c bs b :
  keeps m0 m bs → (∀ d, d ∈ bs → bfree d = false → bend d ≤ addr b ∨ bend b ≤ addr d) →
  addr b ≤ a → a + n ≤ bend b → keeps m0 (mfill m a n c) bs.
Proof.
  intros Hk Hd H1 H2 d Hd1 Hd2 y Hy. specialize (Hd d Hd1 Hd2).
  rewrite mfill_out by lia. by apply (Hk d).
Qed.

Lemma alloc_ok h bs size :
  heap_ok h bs → 0 < size → size + 19 < 2 ^ 64 →
  match abs_alloc (payload_size size) bs with
  | None => ∃ h', alloc size h = Ret (0, h') ∧ heap_ok h' bs ∧ mem h' = mem h
  | Some (p, bs') => ∃ h', alloc size h = Ret (p, h') ∧ heap_ok h' bs' ∧
      keeps (mem h) (mem h') bs ∧ heap_start h' = heap_start h ∧ heap_end h' = heap_end h ∧
      (∀ y, p ≤ y < p + size → mem h' y = 0)
  end.
Proof.
  intros Hok Hs Hb. pose proof (alloc_unzeroed_ok h bs size Hok Hs Hb) as Hu.
  destruct (payload_size_spec size) as (P1 & P2 & P3 & P4 & _); [lia|lia|].
  unfold alloc, alloc_unzeroed in *. rewrite (proj2 (Z.eqb_neq _ _)) in * by lia.
  rewrite (heap_ok_lock _ _ Hok) in *. cbn [obind] in *.
  destruct (alloc_locked _ _) as [[p h']| | |]; cbn [obind] in *;
    destruct (abs_alloc (payload_size size) bs) as [[q bs']|] eqn:Ea;
    try (destruct Hu as (? & ? & ?); discriminate).
  - destruct Hu as (h1 & E & Hok' & Hk & S1 & S2).
    destruct (abs_alloc_result h bs q bs' (payload_size size) (ho_rep _ _ Hok) ltac:(lia) P1 Ea)
      as (Hq & _ & _ & _ & b & Hb1 & Hb2 & -> & Hb3 & Hb4 & _).
    destruct (Z.eqb_spec p 0) as [?|Hp]; [injection E as E; congruence|].
    injection E as -> <-. pose proof (ho_rep _ _ Hok') as Hr'.
    destruct (rep_block _ _ b Hr' Hb1) as (? & _ & _ & ? & ? & _ & [Eb _ _ _]). unfold HEADER_SIZE, FOOTER_SIZE.
    unfold bend in *. rewrite (u64_small (addr b + 32 - 32)) by (unfold is_u64; lia).
    replace (addr b + 32 - 32) with (addr b) by lia. rewrite Eb.
    rewrite (u64_small (bsz b - 4)) by (unfold is_u64; lia).
    eexists. split; [done|]. split_and!; simpl; try done.
    + destruct Hok'. constructor; try done. apply (payload_rep _ _ b); try done.
      intros y Hy. apply mfill_out. unfold bend in Hy. lia.
    + apply (keeps_fill _ _ _ _ _ _ b); try done; unfold bend; lia.
    + intros y Hy. apply mfill_in. lia.
  - destruct Hu as (h1 & E & Hok' & Em). destruct (Z.eqb_spec p 0) as [->|Hp];
      [|injection E as E; congruence].
    injection E as <-. by eexists.
Qed.


(** ** Freeing *)

Lemma used_sum_cons b bs : used_sum (b :: bs) = (if bfree b then 0 else bsz b) + used_sum bs.
Proof. done. Qed.
Arguments used_sum : simpl never.

Lemma abs_coalesce_merge b c r :
  bfree b = true → bfree c = true → abs_coalesce (b :: c :: r) = merged b c :: abs_coalesce r.
Proof. intros Hb Hc. simpl. by rewrite Hb, Hc. Qed.

Lemma abs_coalesce_skip b c r :
  bfree b && bfree c = false → abs_coalesce (b :: c :: r) = b :: abs_coalesce (c :: r).
Proof. intros H. simpl. by rewrite H. Qed.

Lemma used_sum_coalesce bs : used_sum (abs_coalesce bs) = used_sum bs.
Proof.
  induction bs as [|b r IH1 IH2] using abs_coalesce_ind; [done|].
  destruct r as [|c r]; [done|]. destruct (bfree b && bfree c) eqn:E.
  - apply andb_prop in E as [Eb Ec]. rewrite abs_coalesce_merge by done.
    rewrite used_sum_cons, (IH2 c r eq_refl), !used_sum_cons, Eb, Ec. simpl. lia.
  - by rewrite abs_coalesce_skip, used_sum_cons, IH1, (used_sum_cons b).
Qed.

Lemma mark_free_app s e l1 b l2 :
  tiles s e (l1 ++ b :: l2) → mark_free (addr b) (l1 ++ b :: l2) = l1 ++ freed b :: l2.
Proof.
  revert s. induction l1 as [|c l1 IH]; intros s; simpl; [by rewrite Z.eqb_refl|].
  intros (? & ? & _ & HT). destruct (tiles_in _ _ _ b HT) as (? & _); [set_solver|].
  unfold bend in *. rewrite (proj2 (Z.eqb_neq _ _)) by lia. f_equal. by apply (IH (bend c)).
Qed.

Lemma coalesce_ok h bs :
  heap_rep h bs → ∃ h', coalesce h = Ret h' ∧ heap_rep h' (abs_coalesce bs) ∧
    keeps (mem h) (mem h') bs ∧ same_glob h h'.
Proof.
  intros Hr. pose proof (rep_max_blocks _ _ Hr). unfold coalesce. rewrite (hr_head _ _ Hr).
  apply (coalesce_loop_spec bs _ 0 h []); [done|lia|lia|lia].
Qed.

Lemma free_mem_split_ok h l1 b l2 :
  heap_ok h (l1 ++ b :: l2) → bfree b = false →
  ∃ h', free_mem (addr b + 32) h = Ret h' ∧ heap_ok h' (abs_free (addr b) (l1 ++ b :: l2)) ∧
    keeps (mem h) (mem h') (l1 ++ l2) ∧ heap_start h' = heap_start h ∧ heap_end h' = heap_end h.
Proof.
  intros Hok Hf. pose proof (heap_ok_lock _ _ Hok) as Hlk. destruct Hok as [Hr E1 E2 E3 E4].
  assert (b ∈ l1 ++ b :: l2) as Hin by set_solver.
  assert (heap_rep (set_spin true h) (l1 ++ b :: l2)) as Hr1 by (by apply (rep_ext h)).
  destruct (rep_block _ _ _ Hr Hin) as (? & ? & ? & ? & ? & _ & [Es _ _ _]).
  unfold free_mem, abs_free. rewrite (mark_free_app _ _ _ _ _ (hr_tiles _ _ Hr)).
  unfold bend in *. unfold HEADER_SIZE.
  rewrite (u64_small (addr b + 32 - 32)) by (unfold is_u64; lia).
  replace (addr b + 32 - 32) with (addr b) by lia.
  rewrite (proj2 (Z.eqb_neq _ _)), (proj2 (Z.ltb_ge _ _)), (proj2 (Z.leb_gt _ _)), Hlk by lia.
  cbn [orb obind]. rewrite (proj2 (rep_validate _ _ _ Hr1 Hin)), (rep_free _ _ _ Hr1 Hin), Hf.
  rewrite (rep_check_footer _ _ _ Hr1 Hin). cbn [negb]. cbv zeta.
  unfold FOOTER_SIZE. change (mem (set_spin true h)) with (mem h). rewrite Es. rewrite (u64_small (bsz b - 4)) by (unfold is_u64; lia).
  set (h1 := set_mem (mfill (mem h) (addr b + 32) (bsz b - 4) 204) (set_spin true h)).
  assert (heap_rep h1 (l1 ++ b :: l2)) as Hr2.
  { apply (payload_rep (set_spin true h) _ b); try done. intros y Hy. apply mfill_out. unfold bend in Hy. lia. }
  assert (b_size (mem h1) (addr b) = bsz b) as Es1.
  { destruct (rep_block _ _ _ Hr2 Hin) as (_ & _ & _ & _ & _ & _ & [E _ _ _]). done. }
  rewrite Es1.
  set (h2 := set_stats _ (set_totals _ _ _ h1)).
  assert (heap_rep h2 (l1 ++ [b] ++ l2)) as Hr3 by (by apply (rep_ext h1)).
  assert (keeps (mem h) (mem h2) (l1 ++ l2)) as K0.
  { apply (keeps_fill _ _ _ _ _ _ b); [apply keeps_refl| |lia|unfold bend; lia].
    intros d Hd _. pose proof (hr_tiles _ _ Hr) as (mid & T1 & (Ea & _ & _ & T2))%tiles_app.
    apply elem_of_app in Hd as [Hd|Hd];
      [pose proof (tiles_in _ _ _ _ T1 Hd)|pose proof (tiles_in _ _ _ _ T2 Hd)]; lia. }
  destruct (insert_free_block_rep h2 l1 b l2 Hr3 Hf) as (h3 & -> & Hr4 & K1 & G1). cbn [obind].
  destruct (coalesce_ok h3 _ Hr4) as (h4 & -> & Hr5 & K2 & G2). cbn [obind].
  destruct (used_sum_bound _ _ _ (hr_tiles _ _ Hr)) as [? Hub].
  pose proof (hr_size _ _ Hr). pose proof (hr_end _ _ Hr). pose proof (hr_start _ _ Hr).
  destruct (used_sum_bound _ _ _ (hr_tiles _ _ Hr4)) as [H8 _].
  rewrite ?used_sum_app, ?used_sum_cons, ?Hf in *. rewrite length_app in Hub. simpl in Hub.
  simpl in H8. change (used_sum []) with 0 in H8.
  pose proof (transitivity G1 G2) as [? ? G3 G4 G5 G6 _]. simpl in G3, G4, G5, G6.
  exists (allocator_unlock h4). split_and!; try done.
  - apply unlock_ok; [done| | |].
    + rewrite used_sum_coalesce, used_sum_app. simpl. rewrite used_sum_cons. simpl.
      rewrite G4, E2, u64_small by (unfold is_u64; lia). lia.
    + rewrite used_sum_coalesce, used_sum_app. simpl. rewrite used_sum_cons. simpl.
      rewrite G5, G3, E3, u64_small by (unfold is_u64; lia). lia.
    + rewrite G4, G6, E2, u64_small by (unfold is_u64; lia). lia.
  - apply (keeps_trans _ (mem h2)); [done|]. apply (keeps_trans _ (mem h3)); [done|].
    apply (keeps_mono _ _ _ _ K2). set_solver.
Qed.

Lemma free_mem_ok h bs b :
  heap_ok h bs → b ∈ bs → bfree b = false →
  ∃ h', free_mem (addr b + 32) h = Ret h' ∧ heap_ok h' (abs_free (addr b) bs) ∧
    (∀ c, c ∈ bs → bfree c = false → c ≠ b → ∀ y, addr c ≤ y < bend c → mem h' y = mem h y) ∧
    heap_start h' = heap_start h ∧ heap_end h' = heap_end h.
Proof.
  intros Hok (l1 & l2 & ->)%list_elem_of_split Hf.
  destruct (free_mem_split_ok h l1 b l2 Hok Hf) as (h' & ? & ? & Hk & ?).
  exists h'. split_and!; try tauto. intros c Hc Hcf Hne. apply Hk; [set_solver|done].
Qed.

(** The blocks that remain in use after a free. *)
Lemma abs_coalesce_used bs c : bfree c = false → c ∈ abs_coalesce bs ↔ c ∈ bs.
Proof.
  intros Hc. induction bs as [|b r IH1 IH2] using abs_coalesce_ind; [done|].
  destruct r as [|d r]; [done|]. destruct (bfree b && bfree d) eqn:E.
  - apply andb_prop in E as [Eb Ed]. rewrite abs_coalesce_merge, !elem_of_cons, (IH2 d r eq_refl) by done.
    split; [intros [->|?]; [done|tauto]|]. intros [->|[->|?]]; [congruence|congruence|tauto].
  - rewrite abs_coalesce_skip by done. rewrite (elem_of_cons (abs_coalesce (d :: r))), IH1, (elem_of_cons (d :: r)). done.
Qed.

Lemma abs_free_used s e bs b c :
  tiles s e bs → b ∈ bs → bfree c = false → c ∈ abs_free (addr b) bs ↔ c ∈ bs ∧ c ≠ b ∧ addr c ≠ addr b.
Proof.
  intros HT Hb Hc. unfold abs_free. rewrite (abs_coalesce_used _ _ Hc).
  destruct (list_elem_of_split _ _ Hb) as (l1 & l2 & ->). rewrite (mark_free_app _ _ _ _ _ HT).
  pose proof HT as (mid & T1 & (Ea & ? & _ & T2))%tiles_app.
  rewrite !elem_of_app, !elem_of_cons. split.
  - intros [Hx|[->|Hx]]; [|done|].
    + pose proof (tiles_in _ _ _ _ T1 Hx). unfold bend in *. split_and!; [tauto|intros ->; lia|lia].
    + pose proof (tiles_in _ _ _ _ T2 Hx). unfold bend in *. split_and!; [tauto|intros ->; lia|lia].
  - intros (Hin & ? & ?). tauto.
Qed.
