(* ===== verification/HeapSpec.v ===== *)
(** * What the heap promises its clients

    [Heap.v] relates the allocator's raw memory to a list of blocks. Here are
    the contracts of the public functions ([allocator_init], [alloc],
    [free_mem], [alloc_resize], [kmalloc_aligned], [allocator_check]) and the
    theorem that the heap refines a finite map from pointers to buffers, for
    every sequence of calls a well-behaved client can make. *)

From S2P Require Import Prelude Heap.

Open Scope c_scope.

(** ** Initialisation *)

Lemma mask16 x : 0 ≤ x < 2 ^ 64 → Z.land x (u64 (Z.lnot 15)) = x / 16 * 16.
Proof. intros. by apply (mask_pow2 x 4). Qed.

Lemma ALIGN_bounds n : 0 ≤ n → n + 15 < 2 ^ 64 → n ≤ ALIGN n ≤ n + 15 ∧ ALIGN n mod 16 = 0.
Proof.
  intros. rewrite ALIGN_eq by lia. assert ((n + 15) / 16 * 16 mod 16 = 0) by (apply Z.mod_mul; lia).
  Z.div_mod_to_equations. lia.
Qed.

Definition init_heap (memory size : Z) : Z := (memory + size - ALIGN memory) / 16 * 16.

Lemma allocator_init_ok memory size h :
  0 < memory → 68 ≤ size → memory + size < 2 ^ 64 → ALIGN memory + 64 ≤ memory + size →
  ∃ h', allocator_init memory size h = Ret h' ∧
    heap_ok h' [mk_blk (ALIGN memory) (init_heap memory size - 32) true] ∧
    heap_start h' = ALIGN memory ∧ heap_end h' = ALIGN memory + init_heap memory size.
Proof.
  intros Hm Hs Hb Hfit. destruct (ALIGN_bounds memory) as [Hal Hal16]; [lia|lia|].
  unfold allocator_init, HEADER_SIZE, MIN_BLOCK_SIZE, FOOTER_SIZE.
  rewrite (proj2 (Z.eqb_neq _ _)), (proj2 (Z.ltb_ge size _)) by lia. cbn [orb]. cbv zeta.
  rewrite (u64_small (ALIGN memory - memory)) by (unfold is_u64; lia).
  rewrite (proj2 (Z.ltb_ge size _)) by lia.
  rewrite mask16 by lia. replace (size - (ALIGN memory - memory)) with (memory + size - ALIGN memory) by lia.
  change ((memory + size - ALIGN memory) / 16 * 16) with (init_heap memory size).
  assert (64 ≤ init_heap memory size ≤ memory + size - ALIGN memory ∧ init_heap memory size mod 16 = 0) as [Hsz Hsz16].
  { unfold init_heap. assert ((memory + size - ALIGN memory) / 16 * 16 mod 16 = 0) by (apply Z.mod_mul; lia).
    split; [|done]. Z.div_mod_to_equations. lia. }
  set (a := ALIGN memory) in *. set (s := init_heap memory size) in *. clearbody a s.
  rewrite (u64_small (a + s)), (u64_small (s - 32)) by (unfold is_u64; lia).
  rewrite (write_footer_eq _ _ (s - 32)); [|hdr; mem_simp; done|lia].
  eexists. split; [done|]. hdr. split; [|done].
  assert (load64 (store32 (store32 (store64 (store64 (store8 (store64 (mem h) a (s - 32)) (a + 24) 1) (a + 8) 0)
    (a + 16) 0) (a + 28) BLOCK_MAGIC) (a + 28 + (s - 32)) FOOTER_MAGIC) a = s - 32) as Esz by (mem_simp; done).
  constructor; simpl; try done; [|unfold used_sum; simpl; lia].
  constructor; simpl; try lia.
  - apply tiles_one; [done|lia| |lia]. wrap_lia.
  - constructor; [|constructor]. constructor; unfold b_size, b_magic, bend; cbn [addr bsz bfree].
    4: replace (a + 32 + (s - 32) - 4) with (a + 28 + (s - 32)) by lia.
    all: unfold BLOCK_MAGIC, FOOTER_MAGIC; mem_simp; done.
  - unfold b_prev, b_next. split_and!; mem_simp; done.
Qed.

Lemma abs_alloc_used total bs p bs' c :
  abs_alloc total bs = Some (p, bs') → c ∈ bs → bfree c = false → c ∈ bs'.
Proof.
  intros E Hc Hf. pose proof (abs_alloc_spec total bs) as Hs. rewrite E in Hs.
  destruct Hs as (x & b & y & -> & _ & Hb & _ & -> & _).
  rewrite !elem_of_app, elem_of_cons in *. destruct Hc as [?|[->|?]]; [tauto|congruence|tauto].
Qed.

(** ** The self-check accepts every well-formed heap *)

Lemma check_loop_ok l2 : ∀ fuel visited h l1,
  heap_rep h (l1 ++ l2) → 0 ≤ visited → visited + Z.of_nat (length l2) ≤ max_blocks h →
  (length l2 < fuel)%nat → check_loop fuel visited (hd0 0 (faddrs l2)) h = Ret true.
Proof.
  induction l2 as [|b l2 IH]; intros fuel visited h l1 Hr Hv Hmax Hf; [by destruct fuel|].
  simpl in Hmax, Hf. rewrite faddrs_cons. destruct (bfree b) eqn:Eb; simpl.
  - assert (b ∈ l1 ++ b :: l2) as Hb by set_solver.
    destruct (rep_block _ _ _ Hr Hb) as (? & _).
    destruct fuel as [|fuel]; [lia|]. simpl.
    rewrite (proj2 (Z.eqb_neq _ _)), (proj2 (Z.ltb_ge _ _)) by lia.
    rewrite (proj1 (rep_validate _ _ _ Hr Hb)), (rep_check_footer _ _ _ Hr Hb). simpl.
    rewrite (rep_next _ _ _ _ Hr Eb). apply (IH _ _ h (l1 ++ [b])); [by rewrite <- app_assoc|lia..].
  - apply (IH _ _ h (l1 ++ [b])); [by rewrite <- app_assoc|lia..].
Qed.

Lemma spin_roundtrip h : allocator_spin h = false → allocator_unlock (set_spin true h) = h.
Proof. destruct h. simpl. by intros ->. Qed.

Lemma allocator_check_ok h bs : heap_ok h bs → allocator_check h = Ret (true, h).
Proof.
  intros Hok. unfold allocator_check. rewrite (heap_ok_lock _ _ Hok). cbn [obind].
  assert (heap_rep (set_spin true h) bs) as Hr by (apply (rep_ext h); [apply Hok|done..]).
  pose proof (rep_max_blocks _ _ Hr). rewrite (hr_head _ _ Hr).
  rewrite (check_loop_ok bs _ 0 _ []); [|done|lia|lia|lia]. cbn [obind].
  by rewrite spin_roundtrip by apply Hok.
Qed.

(** C24. [alloc] is first fit on the list of blocks: when no free block is
    large enough it returns NULL and leaves memory alone; otherwise it
    takes the lowest free block that is, splits off a remainder of at least
    64 bytes, returns a zeroed 16-aligned payload of at least [size] bytes
    clear of every block in use, preserves the bytes of all of those and
    the accounting. *)
Theorem alloc_refines h bs size :
  heap_ok h bs → 0 < size → size + 19 < 2 ^ 64 →
  match abs_alloc (payload_size size) bs with
  | None => ∃ h', alloc size h = Ret (0, h') ∧ heap_ok h' bs ∧ mem h' = mem h
  | Some (p, bs') =>
      ∃ h', alloc size h = Ret (p, h') ∧ heap_ok h' bs' ∧ keeps (mem h) (mem h') bs ∧
        (∀ y, p ≤ y < p + size → mem h' y = 0) ∧ p mod 16 = 0 ∧
        heap_start h ≤ p ∧ p + size ≤ heap_end h ∧
        (∀ c, c ∈ bs → bfree c = false → bend c ≤ p ∨ p + size ≤ addr c)
  end.
Proof.
  intros Hok Hs Hb. pose proof (alloc_ok h bs size Hok Hs Hb) as Ha.
  destruct (payload_size_spec size) as (P1 & P2 & P3 & _); [lia|lia|].
  destruct (abs_alloc (payload_size size) bs) as [[p bs']|] eqn:E; [|done].
  destruct Ha as (h' & ? & ? & ? & _ & _ & Hz). exists h'.
  destruct (abs_alloc_result h bs p bs' (payload_size size) (ho_rep _ _ Hok) ltac:(lia) P1 E)
    as (_ & ? & ? & ? & b & _ & _ & Ep & Hsz & Hd & _).
  split_and!; try done; try lia. intros c Hc Hcf. destruct (Hd c Hc Hcf); unfold bend in *; lia.
Qed.

(** [free_mem] of a block in use returns it to the free list and runs one
    coalescing pass; the bytes of every other block in use are preserved,
    the accounting stays exact and the lock is released. *)
Theorem free_refines h bs b :
  heap_ok h bs → b ∈ bs → bfree b = false →
  ∃ h', free_mem (addr b + 32) h = Ret h' ∧ heap_ok h' (abs_free (addr b) bs) ∧
    (∀ c, c ∈ bs → bfree c = false → c ≠ b → ∀ y, addr c ≤ y < bend c → mem h' y = mem h y) ∧
    (∀ c, bfree c = false → c ∈ abs_free (addr b) bs ↔ c ∈ bs ∧ c ≠ b ∧ addr c ≠ addr b).
Proof.
  intros Hok Hb Hf. destruct (free_mem_ok h bs b Hok Hb Hf) as (h' & ? & ? & ? & _).
  exists h'. split_and!; try done. intros c Hc.
  by apply (abs_free_used _ _ _ _ _ (hr_tiles _ _ (ho_rep _ _ Hok))).
Qed.

(** C37. Misuse that [free_mem] catches: NULL, a pointer outside the heap and
    a block that is already free leave the heap exactly as it was; a block
    whose footer has been overwritten makes it panic. *)
Theorem free_misuse h bs b m' :
  heap_ok h bs → b ∈ bs →
  free_mem 0 h = Ret h ∧
  (∀ p, p < heap_start h ∨ heap_end h ≤ p → free_mem p h = Ret h) ∧
  (bfree b = true → free_mem (addr b + 32) h = Ret h) ∧
  (bfree b = false → (∀ y, ¬ (bend b - 4 ≤ y < bend b) → m' y = mem h y) →
   load32 m' (bend b - 4) ≠ FOOTER_MAGIC → free_mem (addr b + 32) (set_mem m' h) = Panic).
Proof.
  intros Hok Hb. pose proof (ho_rep _ _ Hok) as Hr.
  destruct (rep_block _ _ _ Hr Hb) as (? & ? & ? & ? & ? & ? & [Es Ef Eg _]).
  assert (heap_rep (set_spin true h) bs) as Hr1 by (by apply (rep_ext h)).
  assert (u64 (addr b + 32 - 32) = addr b) as Eb.
  { rewrite u64_small by (unfold is_u64, bend in *; lia). lia. }
  split_and!; [done| | |].
  - intros p Hp. unfold free_mem. destruct (Z.eqb_spec p 0); [done|].
    assert ((p <? heap_start h) || (heap_end h <=? p) = true) as ->; [|done].
    destruct (Z.ltb_spec p (heap_start h)), (Z.leb_spec (heap_end h) p); done || lia.
  - intros Hf. unfold free_mem, HEADER_SIZE. unfold bend in *.
    rewrite (proj2 (Z.eqb_neq _ _)), (proj2 (Z.ltb_ge _ _)), (proj2 (Z.leb_gt _ _)) by lia.
    cbn [orb]. rewrite (heap_ok_lock _ _ Hok), Eb. cbn [obind].
    rewrite (proj2 (rep_validate _ _ _ Hr1 Hb)), (rep_free _ _ _ Hr1 Hb), Hf. cbn [negb].
    by rewrite spin_roundtrip by apply Hok.
  - intros Hf Hm Hft. unfold free_mem, HEADER_SIZE. unfold bend in *.
    rewrite (proj2 (Z.eqb_neq _ _)), (proj2 (Z.ltb_ge _ _)), (proj2 (Z.leb_gt _ _)) by (simpl; lia).
    cbn [orb]. unfold allocator_lock. simpl. rewrite (ho_spin _ _ Hok), Eb. cbn [obind].
    assert (∀ n a, addr b ≤ a → a + Z.of_nat n ≤ addr b + 32 → mload n m' a = mload n (mem h) a) as Hl.
    { intros n a ??. apply mload_ext. intros y Hy. apply Hm. lia. }
    set (h1 := set_spin true (set_mem m' h)).
    assert (validate_block_full h1 (addr b) = validate_block_full (set_spin true h) (addr b)) as ->.
    { unfold validate_block_full, block_in_heap, b_size, b_magic. simpl.
      rewrite !(Hl 8%nat), (Hl 4%nat) by lia. done. }
    rewrite (proj2 (rep_validate _ _ _ Hr1 Hb)). cbn [negb].
    assert (b_free (mem h1) (addr b) = false) as ->.
    { unfold b_free. simpl. rewrite (Hl 1%nat) by lia. rewrite Ef, Hf. done. }
    assert (check_footer h1 (addr b) = false) as ->; [|done].
    unfold check_footer, block_footer, b_size, HEADER_SIZE, FOOTER_SIZE. simpl.
    rewrite (Hl 8%nat) by lia. unfold b_size in Es. rewrite Es, u64_small by (unfold is_u64; lia).
    by apply Z.eqb_neq.
Qed.

(** ** Allocating and freeing again *)

(** No two neighbouring blocks are both free. *)
Fixpoint no_adjacent (bs : list blk) : Prop :=
  match bs with
  | b :: ((c :: _) as r) => bfree b && bfree c = false ∧ no_adjacent r
  | _ => True
  end.

Lemma no_adjacent_coalesce bs : no_adjacent bs → abs_coalesce bs = bs.
Proof.
  induction bs as [|b [|c r] IH]; [done|done|]. intros [H1 H2].
  rewrite abs_coalesce_skip by done. by rewrite IH.
Qed.

Lemma coalesce_back x b need y :
  no_adjacent (x ++ b :: y) → bfree b = true → need ≤ bsz b →
  abs_coalesce (x ++ mark_free (addr b) (split_blk b need ++ y)) = x ++ b :: y.
Proof.
  intros Hna Hf Hn.
  assert (abs_coalesce (mark_free (addr b) (split_blk b need ++ y)) = b :: y) as Hb.
  { assert (no_adjacent (b :: y)) as Hy.
    { clear -Hna. induction x as [|c [|d x] IH]; [done| |]; simpl in *; tauto. }
    unfold split_blk. case_if; simpl; rewrite Z.eqb_refl.
    - rewrite abs_coalesce_merge by done. rewrite no_adjacent_coalesce by (destruct y; [done|apply Hy]).
      f_equal. unfold merged, freed. simpl. destruct b; simpl in *. subst. f_equal. lia.
    - change (freed _) with (mk_blk (addr b) (bsz b) true). rewrite <- Hf.
      destruct b. by apply no_adjacent_coalesce. }
  revert Hna. induction x as [|c x IH]; intros Hna; [done|]. cbn [app].
  destruct x as [|d x].
  - cbn [app] in *. destruct Hna as [Hcb _].
    assert (∃ b' r, mark_free (addr b) (split_blk b need ++ y) = b' :: r ∧ bfree b' = true) as (b' & r & E & Hb').
    { unfold split_blk. case_if; simpl; rewrite Z.eqb_refl; eexists _, _; split; try done. }
    rewrite E in *. rewrite abs_coalesce_skip; [by rewrite Hb|]. by rewrite Hb', <- Hf.
  - cbn [app] in *. destruct Hna as [Hcd Hna]. rewrite abs_coalesce_skip by done. by rewrite IH.
Qed.

Lemma mark_free_skip s mid x r a :
  tiles s mid x → mid ≤ a → mark_free a (x ++ r) = x ++ mark_free a r.
Proof.
  revert s. induction x as [|c x IH]; intros s; simpl; [done|]. intros (? & ? & _ & HT) Ha.
  pose proof (tiles_le _ _ _ HT). unfold bend in *.
  rewrite (proj2 (Z.eqb_neq _ _)) by lia. f_equal. by apply (IH (bend c)).
Qed.

(** Round trip: on a heap without adjacent free blocks, freeing what
    [alloc] has just returned restores exactly the block structure (and so
    the accounting) from before the call. *)
Theorem alloc_free_restores h bs size p h1 :
  heap_ok h bs → no_adjacent bs → 0 < size → size + 19 < 2 ^ 64 →
  alloc size h = Ret (p, h1) → p ≠ 0 →
  ∃ h2, free_mem p h1 = Ret h2 ∧ heap_ok h2 bs.
Proof.
  intros Hok Hna Hs Hb E Hp. pose proof (alloc_ok h bs size Hok Hs Hb) as Ha.
  destruct (payload_size_spec size) as (P1 & P2 & P3 & _); [lia|lia|].
  pose proof (abs_alloc_spec (payload_size size) bs) as Hsp.
  destruct (abs_alloc (payload_size size) bs) as [[q bs']|] eqn:Eabs;
    [|destruct Ha as (? & E2 & _); rewrite E2 in E; congruence].
  destruct Ha as (h' & E2 & Hok' & _). rewrite E2 in E. injection E as -> ->.
  destruct Hsp as (x & b & y & -> & -> & Hf & Hle & -> & _).
  destruct (split_blk_in b (payload_size size)) as (s & r & Esp & _ & _ & _).
  set (b1 := mk_blk (addr b) s false) in *.
  destruct (free_mem_ok h1 _ b1 Hok') as (h2 & Ef & Hok2 & _); [rewrite Esp; set_solver|done|].
  exists h2. split; [done|]. unfold abs_free in Hok2. simpl in Hok2.
  pose proof (hr_tiles _ _ (ho_rep _ _ Hok)) as (mid & T1 & (Ea & _))%tiles_app.
  rewrite (mark_free_skip _ _ _ _ _ T1), coalesce_back in Hok2 by (done || lia). done.
Qed.

(** ** Resizing *)

Lemma mcopy_in m dst src n x : dst ≤ x < dst + n → mcopy m dst src n x = m (src + (x - dst)).
Proof. intros. unfold mcopy. by rewrite (proj2 (Z.leb_le _ _)), (proj2 (Z.ltb_lt _ _)) by lia. Qed.

Lemma mcopy_out m dst src n x : ¬ (dst ≤ x < dst + n) → mcopy m dst src n x = m x.
Proof. intros. unfold mcopy. destruct (Z.leb_spec dst x), (Z.ltb_spec x (dst + n)); done || lia. Qed.

Lemma alloc_resize_ok h bs b new_size :
  heap_ok h bs → b ∈ bs → bfree b = false → 0 < new_size → new_size + 19 < 2 ^ 64 →
  ∃ r h', alloc_resize (addr b + 32) new_size h = Ret (r, h') ∧
    (if new_size <=? bsz b - 4 then r = addr b + 32 ∧ h' = h
     else match abs_alloc (payload_size new_size) bs with
          | None => r = 0 ∧ heap_ok h' bs ∧ mem h' = mem h
          | Some (p, bs') => r = p ∧ heap_ok h' (abs_free (addr b) bs') ∧
              (∀ i, 0 ≤ i < bsz b - 4 → mem h' (p + i) = mem h (addr b + 32 + i)) ∧
              (∀ i, bsz b - 4 ≤ i < new_size → mem h' (p + i) = 0) ∧
              (∃ c, c ∈ abs_free (addr b) bs' ∧ bfree c = false ∧ p = addr c + 32 ∧ new_size + 4 ≤ bsz c) ∧
              (∀ c, c ∈ bs → bfree c = false → c ≠ b → c ∈ abs_free (addr b) bs' ∧
                 ∀ y, addr c ≤ y < bend c → mem h' y = mem h y)
          end).
Proof.
  intros Hok Hb Hf Hs Hlim. pose proof (ho_rep _ _ Hok) as Hr.
  destruct (rep_block _ _ _ Hr Hb) as (? & ? & ? & ? & ? & _ & [Es _ _ _]).
  assert (heap_rep (set_spin true h) bs) as Hr1 by (by apply (rep_ext h)).
  unfold alloc_resize, HEADER_SIZE, FOOTER_SIZE. unfold bend in *.
  rewrite !(proj2 (Z.eqb_neq _ 0)) by lia.
  rewrite (u64_small (addr b + 32 - 32)) by (unfold is_u64; lia).
  replace (addr b + 32 - 32) with (addr b) by lia.
  rewrite (heap_ok_lock _ _ Hok). cbn [obind].
  rewrite (proj2 (rep_validate _ _ _ Hr1 Hb)). cbn [negb]. cbv zeta.
  rewrite spin_roundtrip by apply Hok. change (mem (set_spin true h)) with (mem h). rewrite Es.
  rewrite (u64_small (bsz b - 4)) by (unfold is_u64; lia).
  destruct (Z.leb_spec new_size (bsz b - 4)); [by eexists _, _|].
  pose proof (alloc_ok h bs new_size Hok Hs Hlim) as Ha.
  destruct (payload_size_spec new_size) as (P1 & P2 & P3 & _); [lia|lia|].
  destruct (abs_alloc (payload_size new_size) bs) as [[p bs']|] eqn:Eabs.
  2:{ destruct Ha as (h' & -> & ? & ?). cbn [obind]. by eexists _, _. }
  destruct Ha as (h1 & -> & Hok1 & Hk & _ & _ & Hz). cbn [obind].
  destruct (abs_alloc_result h bs p bs' (payload_size new_size) Hr ltac:(lia) P1 Eabs)
    as (Hp & _ & _ & _ & c & Hc & Hcf & -> & Hcs & Hd & _).
  rewrite (proj2 (Z.eqb_neq _ 0)) by done.
  pose proof Hd as Hd0. specialize (Hd b Hb Hf). unfold bend in Hd.
  set (h2 := set_mem _ h1).
  assert (heap_ok h2 bs') as Hok2.
  { destruct Hok1. constructor; try done. apply (payload_rep h1 bs' c); try done.
    intros y Hy. unfold mcopy. destruct (Z.leb_spec (addr c + 32) y), (Z.ltb_spec y (addr c + 32 + (bsz b - 4)));
      simpl; try done. unfold bend in Hy. lia. }
  assert (b ∈ bs') as Hb' by (by apply (abs_alloc_used _ _ _ _ _ Eabs)).
  destruct (free_mem_ok h2 bs' b Hok2 Hb' Hf) as (h3 & -> & Hok3 & Hk3 & _). cbn [obind].
  eexists _, _. split; [done|]. split; [done|]. split; [by apply stats_ok|].
  assert (∀ i, 0 ≤ i < new_size → mem h3 (addr c + 32 + i) = mem h2 (addr c + 32 + i)) as Hm3.
  { intros i Hi. apply (Hk3 c); try done; [intros ->; lia|unfold bend; lia]. }
  pose proof (λ d, abs_free_used _ _ bs' b d (hr_tiles _ _ (ho_rep _ _ Hok2)) Hb') as Hu.
  cbn [mem set_stats]. split_and!.
  - intros i Hi. rewrite Hm3 by lia. subst h2. cbn [mem set_mem]. rewrite mcopy_in by lia.
    replace (addr b + 32 + (addr c + 32 + i - (addr c + 32))) with (addr b + 32 + i) by lia.
    apply (Hk b); [done|done|unfold bend; lia].
  - intros i Hi. rewrite Hm3 by lia. subst h2. cbn [mem set_mem]. rewrite mcopy_out by lia. apply Hz. lia.
  - exists c. split_and!; try done; [|lia]. apply Hu; [done|]. split_and!; [done|intros ->; lia|lia].
  - intros d Hdin Hdf Hne. pose proof (abs_alloc_used _ _ _ _ _ Eabs Hdin Hdf) as Hd'.
    assert (addr d ≠ addr b).
    { destruct (rep_block _ _ _ Hr Hdin) as (_ & _ & _ & _ & ? & _).
      destruct (tiles_disjoint _ _ _ d b (hr_tiles _ _ (ho_rep _ _ Hok)) Hdin Hb) as [?|Hdb]; [done|].
      unfold bend in Hdb. lia. }
    split; [by apply Hu|]. intros y Hy. rewrite (Hk3 d) by done. subst h2. cbn [mem set_mem].
    destruct (tiles_disjoint _ _ _ d c (hr_tiles _ _ (ho_rep _ _ Hok1)) Hd' Hc) as [->|Hdc].
    { specialize (Hd0 c Hdin Hdf). unfold bend in Hd0. lia. }
    unfold bend in *. rewrite mcopy_out by lia. by apply (Hk d).
Qed.

(** [alloc_resize] keeps the contents: a request that fits the block
    returns it unchanged; otherwise the new buffer starts with all the
    usable bytes of the old one, the rest is zero, and the old block has been
    freed; on failure NULL is returned and the old block is untouched. *)
Theorem resize_preserves h bs b new_size :
  heap_ok h bs → b ∈ bs → bfree b = false → 0 < new_size → new_size + 19 < 2 ^ 64 →
  ∃ r h', alloc_resize (addr b + 32) new_size h = Ret (r, h') ∧
    (if new_size <=? bsz b - 4 then r = addr b + 32 ∧ h' = h
     else match abs_alloc (payload_size new_size) bs with
          | None => r = 0 ∧ heap_ok h' bs ∧ mem h' = mem h
          | Some (p, bs') => r = p ∧ heap_ok h' (abs_free (addr b) bs') ∧
              (∀ i, 0 ≤ i < bsz b - 4 → mem h' (p + i) = mem h (addr b + 32 + i)) ∧
              (∀ i, bsz b - 4 ≤ i < new_size → mem h' (p + i) = 0)
          end).
Proof.
  intros Hok Hb Hf Hs Hlim. destruct (alloc_resize_ok h bs b new_size Hok Hb Hf Hs Hlim) as (r & h' & E & H).
  exists r, h'. split; [done|]. case_match; [done|]. destruct (abs_alloc _ _) as [[p bs']|]; [|done]. tauto.
Qed.

(** ** The heap as a map of buffers

    [client h L]: the heap [h] can arise from calls of a client that only
    frees and resizes what it was given and only writes inside its buffers;
    [L] maps each live pointer to what the client knows of its buffer: the
    byte it expects, or [None] for a byte that only a growing resize made
    part of the buffer and that the client has not written. *)
Notation buffer := (list (option Z)).

(** What a client that asks [alloc_resize] for [n] bytes at the live buffer
    [l] at [p] holds when it gets [r]: nothing at [p] after a request of 0
    bytes, what it held after NULL, and otherwise the first [n] bytes. *)
Definition resized (p n r : Z) (l : buffer) (L : gmap Z buffer) : gmap Z buffer :=
  if n =? 0 then delete p L
  else if r =? 0 then L
  else <[r := take (Z.to_nat n) l ++ replicate (Z.to_nat n - length l) None]> (delete p L).

Inductive client : heap → gmap Z buffer → Prop :=
| client_init memory size h h' :
    0 < memory → 68 ≤ size → memory + size < 2 ^ 64 → ALIGN memory + 64 ≤ memory + size →
    allocator_init memory size h = Ret h' → client h' ∅
| client_alloc h L size p h' :
    client h L → 0 < size → size + 19 < 2 ^ 64 → alloc size h = Ret (p, h') →
    client h' (if p =? 0 then L else <[p := replicate (Z.to_nat size) (Some 0)]> L)
| client_free h L p l h' :
    client h L → L !! p = Some l → free_mem p h = Ret h' → client h' (delete p L)
| client_resize h L p l n r h' :
    client h L → L !! p = Some l → 0 ≤ n → n + 19 < 2 ^ 64 → alloc_resize p n h = Ret (r, h') →
    client h' (resized p n r l L)
| client_write h L p l i v :
    client h L → L !! p = Some l → (i < length l)%nat → is_u8 v →
    client (set_mem (store8 (mem h) (p + Z.of_nat i) v) h) (<[p := <[i := Some v]> l]> L).

(** Buffer [l] at [p] is held by block [b]. *)
Definition held (m : Z → Z) (p : Z) (l : buffer) (b : blk) : Prop :=
  bfree b = false ∧ p = addr b + 32 ∧ Z.of_nat (length l) + 4 ≤ bsz b ∧
  ∀ i v, l !! i = Some (Some v) → m (p + Z.of_nat i) = v.

Definition client_inv (h : heap) (L : gmap Z buffer) (bs : list blk) : Prop :=
  heap_ok h bs ∧ ∀ p l, L !! p = Some l → ∃ b, b ∈ bs ∧ held (mem h) p l b.

Lemma held_ext m m' p l b :
  held m p l b → (∀ y, addr b ≤ y < bend b → m' y = m y) → held m' p l b.
Proof.
  intros (Hf & -> & Hs & Hc) Hm. split_and!; try done. intros i v Hi.
  rewrite Hm; [by apply Hc|]. apply lookup_lt_Some in Hi. unfold bend. lia.
Qed.

Lemma buffers_alloc h L bs size p h' :
  client_inv h L bs → 0 < size → size + 19 < 2 ^ 64 → alloc size h = Ret (p, h') →
  ∃ bs', client_inv h' (if p =? 0 then L else <[p := replicate (Z.to_nat size) (Some 0)]> L) bs'.
Proof.
  intros [Hok HL] Hs1 Hs2 E. pose proof (alloc_ok h bs size Hok Hs1 Hs2) as Ha.
  destruct (payload_size_spec size) as (P1 & P2 & P3 & _); [lia|lia|].
  destruct (abs_alloc (payload_size size) bs) as [[q bs']|] eqn:Eabs.
  - destruct Ha as (h2 & E2 & Hok' & Hk & _ & _ & Hz). rewrite E2 in E. injection E as -> ->.
    destruct (abs_alloc_result h bs p bs' (payload_size size) (ho_rep _ _ Hok) ltac:(lia) P1 Eabs)
      as (Hp0 & _ & _ & _ & b & Hb & Hbf & -> & Hbs & _ & _).
    rewrite (proj2 (Z.eqb_neq _ _)) by done. exists bs'. split; [done|]. intros q l.
    rewrite lookup_insert_Some. intros [[<- <-]|[_ Hl]].
    + exists b. split; [done|]. split_and!; try done; [rewrite length_replicate; lia|].
      intros i v ([= ->] & Hi)%lookup_replicate. apply Hz. lia.
    + destruct (HL q l Hl) as (c & Hc & Hh). exists c. split; [apply (abs_alloc_used _ _ _ _ _ Eabs Hc), Hh|].
      apply (held_ext _ _ _ _ _ Hh). apply Hk; [done|apply Hh].
  - destruct Ha as (h2 & E2 & Hok' & Em). rewrite E2 in E. injection E as <- <-. simpl.
    exists bs. split; [done|]. rewrite Em. done.
Qed.

Lemma buffers_free h L bs p l h' :
  client_inv h L bs → L !! p = Some l → free_mem p h = Ret h' → ∃ bs', client_inv h' (delete p L) bs'.
Proof.
  intros [Hok HL] Hp E. destruct (HL p l Hp) as (b & Hb & Hbf & -> & Hsz & Hc).
  destruct (free_mem_ok h bs b Hok Hb Hbf) as (h2 & E2 & Hok' & Hk & _). rewrite E2 in E. injection E as ->.
  exists (abs_free (addr b) bs). split; [done|]. intros q l' (Hq & Hl)%lookup_delete_Some.
  destruct (HL q l' Hl) as (c & Hcin & Hh). exists c. destruct Hh as (Hcf & -> & Hh).
  assert (addr c ≠ addr b) by lia. assert (c ≠ b) by congruence.
  split; [by apply (proj2 (abs_free_used _ _ _ b c (hr_tiles _ _ (ho_rep _ _ Hok)) Hb Hcf))|].
  apply (held_ext (mem h)); [split_and!; done || apply Hh|]. by apply Hk.
Qed.

(** Any block in use resizes as its contents say, whatever became of the others. *)
Lemma held_resized m m' b c n l r :
  held m (addr b + 32) l b → 0 ≤ n → bfree c = false → r = addr c + 32 → n + 4 ≤ bsz c →
  (∀ i, 0 ≤ i < Z.min n (bsz b - 4) → m' (r + i) = m (addr b + 32 + i)) →
  held m' r (take (Z.to_nat n) l ++ replicate (Z.to_nat n - length l) None) c.
Proof.
  intros (_ & _ & Hl & Hv) Hn Hcf -> Hc Hm. split_and!; [done..| |].
  - rewrite length_app, length_take, length_replicate. lia.
  - intros i v. rewrite lookup_app_Some, lookup_take_Some, lookup_replicate.
    intros [[Hi ?]|(_ & [=] & _)]. rewrite Hm; [by apply Hv|]. apply lookup_lt_Some in Hi. lia.
Qed.

Lemma buffers_resize h L bs p l n r h' :
  client_inv h L bs → L !! p = Some l → 0 ≤ n → n + 19 < 2 ^ 64 → alloc_resize p n h = Ret (r, h') →
  ∃ bs', client_inv h' (resized p n r l L) bs'.
Proof.
  intros Hinv Hp Hn Hlim E. pose proof Hinv as [Hok HL]. destruct (HL p l Hp) as (b & Hb & Hh).
  pose proof Hh as (Hbf & -> & Hsz & _). destruct (rep_block _ _ _ (ho_rep _ _ Hok) Hb) as (? & _ & _ & Hbig & _).
  unfold resized. destruct (Z.eqb_spec n 0) as [->|Hn0].
  { unfold alloc_resize in E. rewrite (proj2 (Z.eqb_neq (addr b + 32) 0)) in E by lia. cbn [Z.eqb] in E.
    destruct (free_mem (addr b + 32) h) as [h2| | |] eqn:E2; try discriminate. injection E as <- <-.
    by apply (buffers_free h L bs _ l). }
  destruct (alloc_resize_ok h bs b n Hok Hb Hbf ltac:(lia) Hlim) as (r2 & h2 & E2 & H2).
  rewrite E2 in E. injection E as -> ->.
  destruct (Z.leb_spec n (bsz b - 4)) as [Hfit|Hgrow].
  - destruct H2 as [-> ->]. rewrite (proj2 (Z.eqb_neq (addr b + 32) 0)) by lia.
    exists bs. split; [done|]. intros q l'. rewrite lookup_insert_Some, lookup_delete_Some.
    intros [[<- <-]|(_ & _ & Hl)]; [|by apply HL]. exists b. split; [done|].
    apply (held_resized (mem h) _ b); done || lia.
  - destruct (abs_alloc (payload_size n) bs) as [[q bs']|] eqn:Eabs.
    2:{ destruct H2 as (-> & Hok' & Em). exists bs. split; [done|]. by rewrite Em. }
    destruct H2 as (-> & Hok' & Hcopy & _ & (c & Hc & Hcf & -> & Hcs) & Hk).
    destruct (rep_block _ _ _ (ho_rep _ _ Hok') Hc) as (? & _).
    rewrite (proj2 (Z.eqb_neq _ 0)) by lia. eexists. split; [done|]. intros q l'.
    rewrite lookup_insert_Some, lookup_delete_Some. intros [[<- <-]|(_ & Hne & Hl)].
    + exists c. split; [done|]. apply (held_resized (mem h) _ b); try done. intros i Hi. apply Hcopy. lia.
    + destruct (HL q l' Hl) as (d & Hd & Hhd). destruct (Hk d Hd) as [Hd' Hm]; [apply Hhd| |].
      { intros ->. destruct Hhd as (_ & -> & _). done. }
      exists d. split; [done|]. by apply (held_ext _ _ _ _ _ Hhd).
Qed.

Lemma buffers_write h L bs p l i v :
  client_inv h L bs → L !! p = Some l → (i < length l)%nat → is_u8 v →
  client_inv (set_mem (store8 (mem h) (p + Z.of_nat i) v) h) (<[p := <[i := Some v]> l]> L) bs.
Proof.
  intros [Hok HL] Hp Hi Hv. destruct (HL p l Hp) as (b & Hb & Hh). pose proof Hh as (Hbf & -> & Hsz & Hc).
  set (m' := store8 (mem h) (addr b + 32 + Z.of_nat i) v).
  assert (∀ y, y ≠ addr b + 32 + Z.of_nat i → m' y = mem h y) as Hout.
  { intros y Hy. apply mstore_out. lia. }
  split.
  - destruct Hok. constructor; try done. apply (payload_rep h bs b); try done.
    intros y Hy. apply Hout. unfold bend in Hy. lia.
  - intros q l'. rewrite lookup_insert_Some. intros [[<- <-]|[Hq Hl]].
    + exists b. split; [done|]. split_and!; try done; [by rewrite length_insert|].
      intros j w. rewrite list_lookup_insert_Some. intros [(<- & [= <-] & _)|(Hne & Hj)].
      * simpl. subst m'. unfold mstore. rewrite (proj2 (Z.leb_le _ _)), (proj2 (Z.ltb_lt _ _)) by lia.
        simpl. rewrite Z.sub_diag, Z.pow_0_r, Z.div_1_r. by apply u8_small.
      * simpl. rewrite Hout by lia. by apply Hc.
    + destruct (HL q l' Hl) as (c & Hcin & Hhc). exists c. split; [done|].
      apply (held_ext _ _ _ _ _ Hhc). intros y Hy. apply Hout.
      destruct (tiles_disjoint _ _ _ b c (hr_tiles _ _ (ho_rep _ _ Hok)) Hb Hcin) as [<-|Hd].
      { destruct Hhc as (_ & -> & _). done. }
      unfold bend in *. lia.
Qed.

Lemma client_invariant h L : client h L → ∃ bs, client_inv h L bs.
Proof.
  induction 1 as [memory size h h' ???? E|h L size p h' _ [bs IH] ?? E|h L p l h' _ [bs IH] Hp E
    |h L p l n r h' _ [bs IH] Hp ?? E|h L p l i v _ [bs IH] Hp ??].
  - destruct (allocator_init_ok memory size h) as (h2 & E2 & Hok & _); try done.
    rewrite E2 in E. injection E as ->. eexists. split; [done|]. intros p l Hl. by rewrite lookup_empty in Hl.
  - by apply (buffers_alloc h L bs size p).
  - by apply (buffers_free h L bs p l).
  - by apply (buffers_resize h L bs p l n r).
  - exists bs. by apply buffers_write.
Qed.

(** Every call a client may make next returns. *)
Lemma client_progress h L bs :
  client_inv h L bs →
  (∀ size, 0 ≤ size → size + 19 < 2 ^ 64 → ∃ p h', alloc size h = Ret (p, h')) ∧
  (∀ p, is_Some (L !! p) → ∃ h', free_mem p h = Ret h') ∧
  (∀ p n, is_Some (L !! p) → 0 ≤ n → n + 19 < 2 ^ 64 → ∃ r h', alloc_resize p n h = Ret (r, h')).
Proof.
  intros [Hok HL]. assert (∀ p, is_Some (L !! p) → ∃ h', free_mem p h = Ret h') as Hfree.
  { intros p [l Hl]. destruct (HL p l Hl) as (b & Hb & Hf & -> & _).
    destruct (free_mem_ok h bs b Hok Hb Hf) as (h' & ? & _). by exists h'. }
  split_and!; [|done|].
  - intros size Hs Hb. destruct (Z.eq_dec size 0) as [->|]; [by exists 0, h|].
    pose proof (alloc_ok h bs size Hok ltac:(lia) Hb) as Ha.
    destruct (abs_alloc _ _) as [[p bs']|]; destruct Ha as (h' & ? & _); eauto.
  - intros p n Hp Hn Hlim. destruct (Z.eq_dec n 0) as [->|].
    { destruct (Hfree p Hp) as (h' & E). unfold alloc_resize. case_match eqn:E0; [by eexists _, _|].
      simpl. rewrite E. by eexists _, _. }
    destruct Hp as [l Hl]. destruct (HL p l Hl) as (b & Hb & Hf & -> & _).
    destruct (alloc_resize_ok h bs b n Hok Hb Hf ltac:(lia) Hlim) as (r & h' & ? & _). by exists r, h'.
Qed.

(** C1. Refinement of a map of buffers: in every state a well-behaved client
    can reach by initialising, allocating, freeing, resizing and writing,
    each live buffer holds exactly the bytes the client last put there
    (zeroes after [alloc]; after [alloc_resize] the old bytes up to the new
    length), is 16-byte aligned, lies inside the heap, and no two live
    buffers overlap; and the next call returns: an allocation of any size
    that does not overflow the size computation, a free and a resize of any
    live buffer (no PANIC, no spinning). *)
Theorem heap_refines_buffers h L :
  client h L →
  (∀ p l i v, L !! p = Some l → l !! i = Some (Some v) → mem h (p + Z.of_nat i) = v) ∧
  (∀ p l, L !! p = Some l → p mod 16 = 0 ∧ heap_start h ≤ p ∧
     p + Z.of_nat (length l) ≤ heap_end h) ∧
  (∀ p l q l', L !! p = Some l → L !! q = Some l' → p ≠ q →
     p + Z.of_nat (length l) ≤ q ∨ q + Z.of_nat (length l') ≤ p) ∧
  (∀ size, 0 ≤ size → size + 19 < 2 ^ 64 → ∃ p h', alloc size h = Ret (p, h')) ∧
  (∀ p, is_Some (L !! p) → ∃ h', free_mem p h = Ret h') ∧
  (∀ p n, is_Some (L !! p) → 0 ≤ n → n + 19 < 2 ^ 64 → ∃ r h', alloc_resize p n h = Ret (r, h')).
Proof.
  intros (bs & Hok & HL)%client_invariant. pose proof (ho_rep _ _ Hok) as Hr.
  pose proof (hr_tiles _ _ Hr) as HT. destruct (client_progress h L bs (conj Hok HL)) as (P1 & P2 & P3).
  split_and!; try done.
  - intros p l i v Hl Hv. destruct (HL p l Hl) as (b & _ & _ & _ & _ & Hc). by apply Hc.
  - intros p l Hl. destruct (HL p l Hl) as (b & Hb & _ & -> & Hs & _).
    pose proof (tiles_aligned _ _ _ b HT (hr_align _ _ Hr) Hb).
    destruct (rep_block _ _ _ Hr Hb) as (_ & ? & ? & _). unfold bend in *. split_and!; [wrap_lia|lia|lia].
  - intros p l q l' Hl Hl' Hne. destruct (HL p l Hl) as (b & Hb & _ & -> & Hs & _).
    destruct (HL q l' Hl') as (c & Hc & _ & -> & Hs' & _).
    destruct (tiles_disjoint _ _ _ b c HT Hb Hc) as [->|Hd]; [done|]. unfold bend in Hd. lia.
Qed.

(** In every such state [allocator_check] reports a sound heap and changes
    nothing. *)
Theorem client_heap_checks h L : client h L → allocator_check h = Ret (true, h).
Proof. intros (bs & Hok & _)%client_invariant. by apply (allocator_check_ok _ bs). Qed.


(** ** Aligned allocation *)

Lemma is_pow2_spec x : 0 ≤ x < 2 ^ 64 → is_pow2 x = true → ∃ k, 0 ≤ k < 64 ∧ x = 2 ^ k.
Proof.
  intros Hx H. unfold is_pow2 in H. bool_to_prop.
  rewrite u64_small in * by (unfold is_u64; lia).
  set (k := Z.log2 x). pose proof (Z.log2_spec x ltac:(lia)) as Hk. fold k in Hk.
  pose proof (Z.log2_nonneg x). fold k in H1. exists k.
  assert (k < 64). { apply (Z.pow_lt_mono_r_iff 2); lia. }
  split; [lia|]. destruct (Z.eq_dec x (2 ^ k)); [done|].
  assert (Z.testbit (Z.land x (x - 1)) k = true) as Ht.
  { rewrite Z.land_spec. unfold k at 1. rewrite Z.bit_log2 by lia.
    rewrite <- (Z.log2_unique (x - 1) k) by lia. rewrite Z.bit_log2 by lia. done. }
  rewrite H0, Z.testbit_0_l in Ht. done.
Qed.

Lemma align_up_spec v k :
  0 ≤ k < 64 → 0 ≤ v → v + 2 ^ k - 1 < 2 ^ 64 →
  v ≤ align_up v (2 ^ k) < v + 2 ^ k ∧ align_up v (2 ^ k) mod 2 ^ k = 0.
Proof.
  intros Hk Hv Hb. assert (0 < 2 ^ k) by (apply Z.pow_pos_nonneg; lia).
  unfold align_up. rewrite (u64_small (v + 2 ^ k - 1)) by (unfold is_u64; lia).
  rewrite mask_pow2 by lia. rewrite Z.mod_mul by lia. split; [|done].
  pose proof (Z.div_mod (v + 2 ^ k - 1) (2 ^ k) ltac:(lia)).
  pose proof (Z.mod_pos_bound (v + 2 ^ k - 1) (2 ^ k) ltac:(lia)). lia.
Qed.

(** [kmalloc_aligned] returns NULL or a zeroed buffer on the requested
    power-of-two boundary, inside a block of its own, keeps every other block
    intact, and [kfree_aligned] on its result frees exactly that block. *)
Theorem kmalloc_aligned_correct h bs size al :
  heap_ok h bs → 0 < size → 0 ≤ al < 2 ^ 64 → is_pow2 (Z.max 16 al) = true →
  size + Z.max 16 al + 27 < 2 ^ 64 →
  ∃ r h', kmalloc_aligned size al h = Ret (r, h') ∧
    (r = 0 ∧ heap_ok h' bs ∨
     r mod (Z.max 16 al) = 0 ∧ (∀ y, r ≤ y < r + size → mem h' y = 0) ∧
     ∃ bs' b, heap_ok h' bs' ∧ keeps (mem h) (mem h') bs ∧ b ∈ bs' ∧ bfree b = false ∧
       addr b + 32 ≤ r - 8 ∧ r + size ≤ bend b - 4 ∧
       ∃ h'', kfree_aligned r h' = Ret h'' ∧ heap_ok h'' (abs_free (addr b) bs')).
Proof.
  intros Hok Hs Hal Hp2 Hlim. unfold kmalloc_aligned. rewrite (proj2 (Z.eqb_neq _ 0)) by lia.
  assert ((if al <? ALIGNMENT then ALIGNMENT else al) = Z.max 16 al) as ->.
  { unfold ALIGNMENT. destruct (Z.ltb_spec al 16); lia. }
  rewrite Hp2. cbn [negb]. cbv zeta.
  destruct (is_pow2_spec (Z.max 16 al)) as (k & Hk & Ek); [lia|done|]. rewrite Ek in *.
  assert (16 ≤ 2 ^ k) by lia. rewrite (u64_small (size + 2 ^ k + 8)) by (unfold is_u64; lia).
  set (total := size + 2 ^ k + 8) in *.
  pose proof (alloc_unzeroed_ok h bs total Hok ltac:(lia) ltac:(lia)) as Ha.
  destruct (payload_size_spec total) as (P1 & P2 & P3 & _); [lia|lia|].
  destruct (abs_alloc (payload_size total) bs) as [[p bs']|] eqn:Eabs.
  2:{ destruct Ha as (h' & -> & ? & _). cbn [obind]. eexists _, _. split; [done|]. by left. }
  destruct Ha as (h1 & -> & Hok1 & Hkp & _). cbn [obind].
  destruct (abs_alloc_result h bs p bs' (payload_size total) (ho_rep _ _ Hok) ltac:(lia) P1 Eabs)
    as (Hp & _ & _ & _ & b & Hb & Hbf & -> & Hbs & Hd & _).
  rewrite (proj2 (Z.eqb_neq _ 0)) by done.
  destruct (rep_block _ _ _ (ho_rep _ _ Hok1) Hb) as (? & _ & _ & ? & _). unfold bend in *.
  rewrite (u64_small (addr b + 32 + 8)) by (unfold is_u64; lia).
  destruct (align_up_spec (addr b + 32 + 8) k) as [Hr Hr0]; [done|lia|lia|].
  set (r := align_up (addr b + 32 + 8) (2 ^ k)) in *. clearbody r.
  set (h2 := set_mem _ (set_mem _ h1)).
  assert (∀ y, ¬ (addr b + 32 ≤ y < addr b + 32 + bsz b - 4) → mem h2 y = mem h1 y) as Hout.
  { intros y Hy. subst h2. simpl. mem_frame. done. }
  assert (heap_ok h2 bs') as Hok2.
  { destruct Hok1. constructor; try done. by apply (payload_rep h1 bs' b). }
  exists r, h2. split; [done|]. right. split; [done|].
  split; [intros y Hy; subst h2; simpl; by apply mfill_in|].
  exists bs', b. split_and!; try done; try (unfold bend; lia).
  { intros c Hc Hcf y Hy. specialize (Hd c Hc Hcf). rewrite Hout by (unfold bend in Hy; lia). by apply (Hkp c). }
  unfold kfree_aligned. rewrite (proj2 (Z.eqb_neq _ 0)) by lia.
  assert (load64 (mem h2) (r - 8) = addr b + 32) as -> by (subst h2; simpl; mem_simp; done).
  destruct (free_mem_ok h2 bs' b Hok2 Hb Hbf) as (h3 & ? & ? & _). by exists h3.
Qed.

(** [allocator_init] turns an accepted region of at least 64 usable bytes
    into a heap that satisfies the invariant: one free block from the first
    16-byte boundary to the last. *)
Theorem allocator_init_establishes memory size h :
  0 < memory → 68 ≤ size → memory + size < 2 ^ 64 → ALIGN memory + 64 ≤ memory + size →
  ∃ h', allocator_init memory size h = Ret h' ∧
    heap_ok h' [mk_blk (ALIGN memory) (init_heap memory size - 32) true] ∧
    memory ≤ heap_start h' ∧ heap_end h' ≤ memory + size ∧ memory + size - heap_end h' < 16.
Proof.
  intros H1 H2 H3 H4. destruct (allocator_init_ok memory size h H1 H2 H3 H4) as (h' & ? & ? & Es & Ee).
  exists h'. rewrite Es, Ee. pose proof (ALIGN_bounds memory ltac:(lia) ltac:(lia)) as [? ?].
  split_and!; try done; unfold init_heap; try lia; Z.div_mod_to_equations; lia.
Qed.

(** ** Limits of the allocator *)

(** The size computation is not protected against overflow: a request of
    SIZE_MAX - 3 bytes is rounded to a payload of 0 bytes, and [alloc] returns
    a non-null pointer (it serves it from the first free block) where NULL is
    due. *)
Theorem alloc_huge_request_wraps :
  payload_size (2 ^ 64 - 4) = 0 ∧
  match allocator_init 4096 4096 (mk_heap (λ _, 0) 0 0 0 0 0 0 0 false (mk_stats 0 0 0 0 0 0)) with
  | Ret h => match alloc_unzeroed (2 ^ 64 - 4) h with Ret (p, _) => p | _ => 0 end
  | _ => 0
  end = 4128.
Proof. split; vm_compute; reflexivity. Qed.

(** One coalescing pass merges each free block with at most one successor:
    after freeing the first, the third and then the second of three
    neighbouring allocations, two adjacent free blocks remain, and a fourth
    request that the merged space could serve is refused. *)
Theorem coalesce_pass_is_partial :
  let bs := [mk_blk 4096 112 true; mk_blk 4240 48 false; mk_blk 4320 1000 true] in
  abs_free 4240 bs = [mk_blk 4096 192 true; mk_blk 4320 1000 true] ∧
  ¬ no_adjacent (abs_free 4240 bs) ∧ abs_alloc 1100 (abs_free 4240 bs) = None.
Proof. split_and!; [reflexivity| |reflexivity]. by intros [? _]. Qed.

(** ** Instances *)

Definition heap_demo_empty : heap :=
  mk_heap (λ _, 0) 0 0 0 0 0 0 0 false (mk_stats 0 0 0 0 0 0).

Lemma heap_demo_init :
  ∃ h, allocator_init 4096 4096 heap_demo_empty = Ret h ∧ heap_ok h [mk_blk 4096 4064 true].
Proof.
  destruct (allocator_init_ok 4096 4096 heap_demo_empty) as (h & E & Hok & _); [lia..|by vm_compute|].
  exists h. split; [done|]. by vm_compute in Hok.
Qed.

Lemma heap_demo_alloc : ∃ h h',
  heap_ok h [mk_blk 4096 4064 true] ∧ alloc 10 h = Ret (4128, h') ∧
  heap_ok h' [mk_blk 4096 48 false; mk_blk 4176 3984 true] ∧
  client h' {[4128 := replicate 10 (Some 0)]}.
Proof.
  destruct heap_demo_init as (h & Ei & Hok). pose proof (alloc_ok h _ 10 Hok ltac:(lia) ltac:(lia)) as Ha.
  change (abs_alloc (payload_size 10) [mk_blk 4096 4064 true])
    with (Some (4128, [mk_blk 4096 48 false; mk_blk 4176 3984 true])) in Ha.
  destruct Ha as (h' & E & Hok' & _). exists h, h'. split_and!; try done.
  assert (client h ∅) as Hc.
  { apply (client_init 4096 4096 heap_demo_empty); [lia..|by vm_compute|done]. }
  exact (client_alloc h ∅ 10 4128 h' Hc ltac:(lia) ltac:(lia) E).
Qed.

(** The ten bytes at 4128 grow to a hundred at 4208. *)
Lemma heap_refines_buffers_witness : ∃ h L,
  client h L ∧ L !! 4208 = Some (replicate 10 (Some 0) ++ replicate 90 None) ∧
  mem h 4210 = 0 ∧ 4308 ≤ heap_end h ∧ ∃ h', free_mem 4208 h = Ret h'.
Proof.
  destruct heap_demo_alloc as (_ & h & _ & _ & Hok & Hc).
  destruct (alloc_resize_ok h _ (mk_blk 4096 48 false) 100 Hok) as (r & h' & E & Hr); [set_solver|done|lia|lia|].
  destruct Hr as (Hr & _). vm_compute in Hr. subst r.
  pose proof (client_resize h _ 4128 _ 100 4208 h' Hc (lookup_singleton_eq _ _) ltac:(lia) ltac:(lia) E) as Hc'.
  exists h', (resized 4128 100 4208 (replicate 10 (Some 0)) {[4128 := replicate 10 (Some 0)]}).
  assert (resized 4128 100 4208 (replicate 10 (Some 0)) {[4128 := replicate 10 (Some 0)]} !! 4208 =
    Some (replicate 10 (Some 0) ++ replicate 90 None)) as El by (by vm_compute).
  destruct (heap_refines_buffers h' _ Hc') as (H1 & H2 & _ & _ & H5 & _).
  split_and!; [done|done|by apply (H1 4208 _ 2%nat 0 El)|by apply (H2 4208 _ El)|by apply H5; eexists].
Defined.

Lemma client_heap_checks_witness : ∃ h, allocator_check h = Ret (true, h).
Proof.
  destruct heap_demo_alloc as (_ & h & _ & _ & _ & Hc). exists h. exact (client_heap_checks h _ Hc).
Defined.

Lemma alloc_refines_witness : ∃ h h',
  alloc 10 h = Ret (4128, h') ∧ heap_ok h' [mk_blk 4096 48 false; mk_blk 4176 3984 true].
Proof.
  destruct heap_demo_init as (h & _ & Hok).
  pose proof (alloc_refines h _ 10 Hok ltac:(lia) ltac:(lia)) as (h' & E & Hok' & _).
  by exists h, h'.
Defined.

Lemma free_refines_witness : ∃ h h',
  free_mem 4128 h = Ret h' ∧ heap_ok h' [mk_blk 4096 4064 true].
Proof.
  destruct heap_demo_alloc as (_ & h & _ & _ & Hok & _).
  destruct (free_refines h _ (mk_blk 4096 48 false) Hok) as (h' & E & Hok' & _); [set_solver|done|].
  by exists h, h'.
Defined.

Lemma free_misuse_witness : ∃ h,
  free_mem 4208 h = Ret h ∧ free_mem 77 h = Ret h ∧
  free_mem 4128 (set_mem (mfill (mem h) 4172 4 65) h) = Panic.
Proof.
  destruct heap_demo_alloc as (_ & h & _ & _ & Hok & _). exists h.
  destruct (free_misuse h _ (mk_blk 4176 3984 true) (mem h) Hok) as (_ & _ & H3 & _); [set_solver|].
  destruct (free_misuse h _ (mk_blk 4096 48 false) (mfill (mem h) 4172 4 65) Hok) as (_ & H2 & _ & H4);
    [set_solver|].
  split_and!; [by apply H3| |].
  - apply H2. left. destruct (hr_tiles _ _ (ho_rep _ _ Hok)) as (E & _). simpl in E. lia.
  - apply H4; [done|intros y Hy; apply mfill_out; unfold bend in Hy; simpl in Hy; lia|].
    by vm_compute.
Defined.

Lemma alloc_free_restores_witness : ∃ h h',
  alloc 10 h = Ret (4128, h') ∧ ∃ h'', free_mem 4128 h' = Ret h'' ∧ heap_ok h'' [mk_blk 4096 4064 true].
Proof.
  destruct heap_demo_alloc as (h & h' & Hok & E & _). exists h, h'. split; [done|].
  by apply (alloc_free_restores h _ 10 4128 h' Hok I).
Defined.

Lemma resize_preserves_witness : ∃ h r h',
  alloc_resize 4128 100 h = Ret (r, h') ∧ r = 4208 ∧ heap_ok h' [mk_blk 4096 48 true; mk_blk 4176 112 false; mk_blk 4320 3840 true].
Proof.
  destruct heap_demo_alloc as (_ & h & _ & _ & Hok & _).
  destruct (resize_preserves h _ (mk_blk 4096 48 false) 100 Hok) as (r & h' & E & H); [set_solver|done|lia|lia|].
  exists h, r, h'. split; [done|]. destruct H as (H1 & H2 & _). split; [done|exact H2].
Defined.

Lemma kmalloc_aligned_correct_witness : ∃ h r h',
  kmalloc_aligned 100 256 h = Ret (r, h') ∧ r mod 256 = 0.
Proof.
  destruct heap_demo_init as (h & _ & Hok).
  destruct (kmalloc_aligned_correct h _ 100 256 Hok) as (r & h' & E & H); [lia|lia|done|lia|].
  exists h, r, h'. split; [done|]. destruct H as [[-> _]|[H _]]; done.
Defined.

Lemma allocator_init_establishes_witness : ∃ h',
  allocator_init 5000 1000 heap_demo_empty = Ret h' ∧ heap_ok h' [mk_blk 5008 960 true].
Proof.
  destruct (allocator_init_establishes 5000 1000 heap_demo_empty) as (h' & E & Hok & _); [lia..|by vm_compute|].
  exists h'. split; [done|exact Hok].
Defined.
