(* ===== verification/CString.v ===== *)
(** * Strings, memory blocks and formatting ([src/impl/string.c])

    Everything works on byte memory: a pointer is an address, a [char*] the
    bytes from there to the first zero. Loops that a missing terminator would
    keep running take fuel and give [Hang] without it; the theorems say how
    much is enough. [string_t] objects live in memory with the fields at the
    offsets of the struct. *)

From S2P Require Import Prelude.

Open Scope c_scope.

(** ** C string functions *)

Fixpoint strlen_loop (fuel : nat) (m : Z → Z) (str len : Z) : outcome Z :=
  match fuel with
  | O => Hang
  | S fuel' => if m (str + len) =? 0 then Ret len else strlen_loop fuel' m str (len + 1)
  end.
Definition strlen (fuel : nat) (m : Z → Z) (str : Z) : outcome Z := strlen_loop fuel m str 0.

Fixpoint strcmp (fuel : nat) (m : Z → Z) (s1 s2 : Z) : outcome Z :=
  match fuel with
  | O => Hang
  | S fuel' =>
      if negb (m s1 =? 0) && (m s1 =? m s2) then strcmp fuel' m (s1 + 1) (s2 + 1)
      else Ret (m s1 - m s2)
  end.

(** The count [n] bounds the loop. *)
Fixpoint strncmp (m : Z → Z) (s1 s2 : Z) (n : nat) : Z :=
  match n with
  | O => 0
  | S n' =>
      if negb (m s1 =? 0) && (m s1 =? m s2) then strncmp m (s1 + 1) (s2 + 1) n'
      else m s1 - m s2
  end.

(** Copies up to and including the terminator. *)
Fixpoint strcpy_loop (fuel : nat) (m : Z → Z) (dest src : Z) : outcome (Z → Z) :=
  match fuel with
  | O => Hang
  | S fuel' =>
      let c := m src in
      let m := store8 m dest c in
      if c =? 0 then Ret m else strcpy_loop fuel' m (dest + 1) (src + 1)
  end.
Definition strcpy (fuel : nat) (m : Z → Z) (dest src : Z) : outcome (Z * (Z → Z)) :=
  let* m := strcpy_loop fuel m dest src in Ret (dest, m).

Fixpoint strncpy_copy (n : nat) (m : Z → Z) (dest src : Z) : (Z → Z) * Z * nat :=
  match n with
  | O => (m, dest, O)
  | S n' =>
      if m src =? 0 then (m, dest, n)
      else strncpy_copy n' (store8 m dest (m src)) (dest + 1) (src + 1)
  end.
Fixpoint strncpy_pad (n : nat) (m : Z → Z) (dest : Z) : Z → Z :=
  match n with O => m | S n' => strncpy_pad n' (store8 m dest 0) (dest + 1) end.
Definition strncpy (m : Z → Z) (dest src n : Z) : Z * (Z → Z) :=
  let '(m, d, n) := strncpy_copy (Z.to_nat n) m dest src in
  (dest, strncpy_pad n m d).

Definition strcat (fuel : nat) (m : Z → Z) (dest src : Z) : outcome (Z * (Z → Z)) :=
  let* len := strlen fuel m dest in
  let* m := strcpy_loop fuel m (dest + len) src in
  Ret (dest, m).

(** Search functions return the address found, 0 for NULL. *)
Fixpoint strchr (fuel : nat) (m : Z → Z) (s c : Z) : outcome Z :=
  match fuel with
  | O => Hang
  | S fuel' =>
      if m s =? 0 then Ret 0
      else if m s =? u8 c then Ret s
      else strchr fuel' m (s + 1) c
  end.

Fixpoint strrchr_loop (fuel : nat) (m : Z → Z) (s c last : Z) : outcome Z :=
  match fuel with
  | O => Hang
  | S fuel' =>
      if m s =? 0 then Ret last
      else strrchr_loop fuel' m (s + 1) c (if m s =? u8 c then s else last)
  end.
Definition strrchr (fuel : nat) (m : Z → Z) (s c : Z) : outcome Z := strrchr_loop fuel m s c 0.

(** The inner loop of [strstr]: does the needle match at [h]? *)
Fixpoint strstr_match (fuel : nat) (m : Z → Z) (h n : Z) : outcome bool :=
  match fuel with
  | O => Hang
  | S fuel' =>
      if negb (m h =? 0) && negb (m n =? 0) && (m h =? m n)
      then strstr_match fuel' m (h + 1) (n + 1)
      else Ret (m n =? 0)
  end.
Fixpoint strstr_loop (fuel : nat) (m : Z → Z) (haystack needle : Z) : outcome Z :=
  match fuel with
  | O => Hang
  | S fuel' =>
      if m haystack =? 0 then Ret 0
      else
        let* hit := strstr_match fuel m haystack needle in
        if (hit : bool) then Ret haystack else strstr_loop fuel' m (haystack + 1) needle
  end.
Definition strstr (fuel : nat) (m : Z → Z) (haystack needle : Z) : outcome Z :=
  if m needle =? 0 then Ret haystack else strstr_loop fuel m haystack needle.

(** ** Memory blocks *)

(** [rep stosq] and [rep stosb]. *)
Fixpoint stosq (k : nat) (m : Z → Z) (p pattern : Z) : (Z → Z) * Z :=
  match k with O => (m, p) | S k' => stosq k' (store64 m p pattern) (p + 8) pattern end.
Fixpoint stosb (k : nat) (m : Z → Z) (p al : Z) : Z → Z :=
  match k with O => m | S k' => stosb k' (store8 m p al) (p + 1) al end.
Definition memset (m : Z → Z) (s c n : Z) : Z → Z :=
  let pattern := u64 (72340172838076673 * u8 c) in
  let '(m, p) := stosq (Z.to_nat (n / 8)) m s pattern in
  stosb (Z.to_nat (Z.land n 7)) m p pattern.

(** [rep movsq] and [rep movsb]. *)
Fixpoint movsq (k : nat) (m : Z → Z) (d s : Z) : (Z → Z) * Z * Z :=
  match k with
  | O => (m, d, s)
  | S k' => movsq k' (store64 m d (load64 m s)) (d + 8) (s + 8)
  end.
Fixpoint movsb (k : nat) (m : Z → Z) (d s : Z) : Z → Z :=
  match k with O => m | S k' => movsb k' (store8 m d (m s)) (d + 1) (s + 1) end.
Definition memcpy (m : Z → Z) (dest src n : Z) : Z → Z :=
  let '(m, d, s) := movsq (Z.to_nat (n / 8)) m dest src in
  movsb (Z.to_nat (Z.land n 7)) m d s.

Fixpoint move_down (k : nat) (m : Z → Z) (d s : Z) : Z → Z :=
  match k with
  | O => m
  | S k' => move_down k' (store8 m (d - 1) (m (s - 1))) (d - 1) (s - 1)
  end.
Definition memmove (m : Z → Z) (dest src n : Z) : Z → Z :=
  if dest <? src then movsb (Z.to_nat n) m dest src
  else move_down (Z.to_nat n) m (dest + n) (src + n).

Fixpoint memcmp (m : Z → Z) (p1 p2 : Z) (n : nat) : Z :=
  match n with
  | O => 0
  | S n' => if m p1 =? m p2 then memcmp m (p1 + 1) (p2 + 1) n' else m p1 - m p2
  end.

(** ** Tokens: [next] is the function's static pointer. *)

Fixpoint skip_while (fuel : nat) (m : Z → Z) (delim : Z) (inside : bool) (next : Z) : outcome Z :=
  match fuel with
  | O => Hang
  | S fuel' =>
      if m next =? 0 then Ret next
      else
        let* q := strchr fuel m delim (m next) in
        if eqb (negb (q =? 0)) inside then skip_while fuel' m delim inside (next + 1) else Ret next
  end.

Definition strtok (fuel : nat) (m : Z → Z) (next str delim : Z) : outcome (Z * Z * (Z → Z)) :=
  let next := if str =? 0 then next else str in
  if (next =? 0) || (m next =? 0) then Ret (0, next, m)
  else
    let* next := skip_while fuel m delim true next in
    if m next =? 0 then Ret (0, next, m)
    else
      let token_start := next in
      let* next := skip_while fuel m delim false next in
      if m next =? 0 then Ret (token_start, next, m)
      else Ret (token_start, next + 1, store8 m next 0).

(** ** Conversions

    The digits are produced into a local array ([tmp], least significant
    first) and copied out in reverse. *)

Fixpoint put_bytes (m : Z → Z) (a : Z) (l : list Z) : Z → Z :=
  match l with [] => m | c :: l' => put_bytes (store8 m a c) (a + 1) l' end.

Definition put_digits (m : Z → Z) (out : Z) (tmp : list Z) : Z → Z :=
  let m := put_bytes m out (reverse tmp) in
  store8 m (out + Z.of_nat (length tmp)) 0.

Definition put_zero (m : Z → Z) (out : Z) : Z → Z := store8 (store8 m out 48) (out + 1) 0.

(** ["0123456789ABCDEF"[d]] *)
Definition hex_digit (d : Z) : Z := if d <? 10 then 48 + d else 55 + d.

Fixpoint hex_loop (fuel : nat) (value : Z) : list Z :=
  match fuel with
  | O => []
  | S fuel' =>
      if value =? 0 then []
      else hex_digit (Z.land value 15) :: hex_loop fuel' (Z.shiftr value 4)
  end.

(** The code's own bound [i < 16] is the fuel. *)
Definition hex_to_str (m : Z → Z) (value out : Z) : Z → Z :=
  if value =? 0 then put_zero m out else put_digits m out (hex_loop 16 value).

Fixpoint uint_loop (fuel : nat) (value : Z) : list Z :=
  match fuel with
  | O => []
  | S fuel' => if value =? 0 then [] else (48 + value mod 10) :: uint_loop fuel' (value / 10)
  end.

(** 64 steps exhaust any 64-bit value. *)
Definition uint_to_str (m : Z → Z) (value out : Z) : Z → Z :=
  if value =? 0 then put_zero m out else put_digits m out (uint_loop 64 value).

Definition int_to_str (m : Z → Z) (value out : Z) : Z → Z :=
  if value <? 0 then uint_to_str (store8 m out 45) (u64 (i64 (- value))) (out + 1)
  else uint_to_str m (u64 value) out.

Fixpoint bin_loop (fuel : nat) (value : Z) : list Z :=
  match fuel with
  | O => []
  | S fuel' =>
      if value =? 0 then []
      else (if Z.land value 1 =? 0 then 48 else 49) :: bin_loop fuel' (Z.shiftr value 1)
  end.
Definition bin_to_str (m : Z → Z) (value out : Z) : Z → Z :=
  if value =? 0 then put_zero m out else put_digits m out (bin_loop 64 value).

(** [char] is signed on x86-64. *)
Definition as_char (b : Z) : Z := if b <? 128 then b else b - 256.

Definition is_digit (c : Z) : bool := (48 <=? as_char c) && (as_char c <=? 57).
Definition is_upper (c : Z) : bool := (65 <=? as_char c) && (as_char c <=? 90).
Definition is_lower (c : Z) : bool := (97 <=? as_char c) && (as_char c <=? 122).
Definition is_alpha (c : Z) : bool := is_lower c || is_upper c.
Definition is_alnum (c : Z) : bool := is_alpha c || is_digit c.
Definition is_space (c : Z) : bool := (c =? 32) || (c =? 9) || (c =? 10) || (c =? 13).
Definition to_upper (c : Z) : Z := if is_lower c then u8 (c - 32) else c.
Definition to_lower (c : Z) : Z := if is_upper c then u8 (c + 32) else c.

Fixpoint skip_space (fuel : nat) (m : Z → Z) (str : Z) : outcome Z :=
  match fuel with
  | O => Hang
  | S fuel' => if is_space (m str) then skip_space fuel' m (str + 1) else Ret str
  end.
Fixpoint digits_loop (fuel : nat) (m : Z → Z) (str result : Z) : outcome Z :=
  match fuel with
  | O => Hang
  | S fuel' =>
      if is_digit (m str)
      then digits_loop fuel' m (str + 1) (i64 (result * 10 + (as_char (m str) - 48)))
      else Ret result
  end.
Definition int_from_cstr (fuel : nat) (m : Z → Z) (str : Z) : outcome Z :=
  if str =? 0 then Ret 0
  else
    let* str := skip_space fuel m str in
    let negative := m str =? 45 in
    let str := if (m str =? 45) || (m str =? 43) then str + 1 else str in
    let* result := digits_loop fuel m str 0 in
    Ret (if negative then i64 (- result) else result).

Definition int_from_bool (value : bool) : Z := if value then 1 else 0.
Definition int_from_char (c : Z) : Z := as_char c.

(** [itoa]: C's [%] and [/] truncate. *)
Fixpoint itoa_loop (fuel : nat) (value base : Z) : list Z :=
  match fuel with
  | O => []
  | S fuel' =>
      if value =? 0 then []
      else
        let t := Z.rem value base in
        (if t <? 10 then t + 48 else t - 10 + 97) :: itoa_loop fuel' (Z.quot value base) base
  end.
Definition itoa (m : Z → Z) (value str base : Z) : Z → Z :=
  if value =? 0 then put_zero m str else put_digits m str (itoa_loop 32 value base).

(** ** [string_t] *)

Definition STRING_MAX_LENGTH : Z := 256.
Definition st_length (m : Z → Z) (str : Z) : Z := load64 m (str + STRING_MAX_LENGTH).
Definition st_capacity (m : Z → Z) (str : Z) : Z := load64 m (str + STRING_MAX_LENGTH + 8).
Definition set_st_length (m : Z → Z) (str v : Z) : Z → Z :=
  store64 m (str + STRING_MAX_LENGTH) v.
Definition set_st_capacity (m : Z → Z) (str v : Z) : Z → Z :=
  store64 m (str + STRING_MAX_LENGTH + 8) v.

Definition string_init (m : Z → Z) (str : Z) : Z → Z :=
  let m := store8 m str 0 in
  let m := set_st_length m str 0 in
  set_st_capacity m str STRING_MAX_LENGTH.

Definition string_init_cstr (fuel : nat) (m : Z → Z) (str cstr : Z) : outcome (Z → Z) :=
  let m := string_init m str in
  if cstr =? 0 then Ret m
  else
    let* len := strlen fuel m cstr in
    let len := if STRING_MAX_LENGTH <=? len then STRING_MAX_LENGTH - 1 else len in
    let m := memcpy m str cstr len in
    let m := store8 m (str + len) 0 in
    Ret (set_st_length m str len).

Definition string_clear (m : Z → Z) (str : Z) : Z → Z :=
  set_st_length (store8 m str 0) str 0.

Definition string_append (fuel : nat) (m : Z → Z) (str cstr : Z) : outcome (Z → Z) :=
  if cstr =? 0 then Ret m
  else
    let* add_len := strlen fuel m cstr in
    let available := u64 (st_capacity m str - st_length m str - 1) in
    let add_len := if available <? add_len then available else add_len in
    let m := memcpy m (str + st_length m str) cstr add_len in
    let m := set_st_length m str (u64 (st_length m str + add_len)) in
    Ret (store8 m (str + st_length m str) 0).

Definition string_append_char (m : Z → Z) (str c : Z) : Z → Z :=
  if st_length m str <? u64 (st_capacity m str - 1) then
    let len := st_length m str in
    let m := set_st_length m str (u64 (len + 1)) in
    let m := store8 m (str + len) c in
    store8 m (str + st_length m str) 0
  else m.

Definition string_append_str (fuel : nat) (m : Z → Z) (str other : Z) : outcome (Z → Z) :=
  string_append fuel m str other.

Definition string_copy (m : Z → Z) (dest src : Z) : Z → Z :=
  let m := memcpy m dest src (u64 (st_length m src + 1)) in
  set_st_length m dest (st_length m src).

Definition string_copy_cstr (fuel : nat) (m : Z → Z) (dest cstr : Z) : outcome (Z → Z) :=
  string_append fuel (string_clear m dest) dest cstr.

Definition string_compare (fuel : nat) (m : Z → Z) (s1 s2 : Z) : outcome Z := strcmp fuel m s1 s2.
Definition string_equals (fuel : nat) (m : Z → Z) (s1 s2 : Z) : outcome bool :=
  let* c := strcmp fuel m s1 s2 in Ret (c =? 0).
Definition string_equals_cstr (fuel : nat) (m : Z → Z) (str cstr : Z) : outcome bool :=
  let* c := strcmp fuel m str cstr in Ret (c =? 0).

Definition string_find (fuel : nat) (m : Z → Z) (str substr : Z) : outcome Z :=
  let* pos := strstr fuel m str substr in
  Ret (if pos =? 0 then -1 else i32 (pos - str)).
Definition string_find_char (fuel : nat) (m : Z → Z) (str c : Z) : outcome Z :=
  let* pos := strchr fuel m str c in
  Ret (if pos =? 0 then -1 else i32 (pos - str)).
Definition string_contains (fuel : nat) (m : Z → Z) (str substr : Z) : outcome bool :=
  let* i := string_find fuel m str substr in Ret (0 <=? i).

Definition string_starts_with (fuel : nat) (m : Z → Z) (str prefix : Z) : outcome bool :=
  let* prefix_len := strlen fuel m prefix in
  if st_length m str <? prefix_len then Ret false
  else Ret (strncmp m str prefix (Z.to_nat prefix_len) =? 0).
Definition string_ends_with (fuel : nat) (m : Z → Z) (str suffix : Z) : outcome bool :=
  let* suffix_len := strlen fuel m suffix in
  if st_length m str <? suffix_len then Ret false
  else let* c := strcmp fuel m (str + st_length m str - suffix_len) suffix in Ret (c =? 0).

(** ** Formatting

    [args] are the variadic arguments in order: integers as their 64-bit
    patterns, strings as pointers. Taking more than were passed is undefined. *)

Fixpoint append_to_buffer (fuel : nat) (m : Z → Z) (buf bufsize pos src : Z) :
    outcome (Z * (Z → Z)) :=
  match fuel with
  | O => Hang
  | S fuel' =>
      if negb (m src =? 0) && (u64 (pos + 1) <? bufsize)
      then append_to_buffer fuel' (store8 m (buf + pos) (m src)) buf bufsize (pos + 1) (src + 1)
      else Ret (pos, m)
  end.

Definition append_char_to_buffer (m : Z → Z) (buf bufsize pos c : Z) : Z * (Z → Z) :=
  if u64 (pos + 1) <? bufsize then (pos + 1, store8 m (buf + pos) c) else (pos, m).

Fixpoint pad_loop (k : nat) (m : Z → Z) (buf bufsize pos pad : Z) : Z * (Z → Z) :=
  match k with
  | O => (pos, m)
  | S k' =>
      let '(pos, m) := append_char_to_buffer m buf bufsize pos pad in
      pad_loop k' m buf bufsize pos pad
  end.

(** A local array is text outside the memory the caller sees. *)
Fixpoint append_text (m : Z → Z) (buf bufsize pos : Z) (src : list Z) : Z * (Z → Z) :=
  match src with
  | [] => (pos, m)
  | c :: src' =>
      if u64 (pos + 1) <? bufsize
      then append_text (store8 m (buf + pos) c) buf bufsize (pos + 1) src'
      else (pos, m)
  end.

Definition append_padded_to_buffer (m : Z → Z) (buf bufsize pos : Z) (src : list Z)
    (width pad : Z) : Z * (Z → Z) :=
  let length := Z.of_nat (length src) in
  let '(pos, m) := pad_loop (Z.to_nat (width - i32 length)) m buf bufsize pos pad in
  append_text m buf bufsize pos src.

(** The text the conversions leave in the local [tmp]. *)
Definition uint_text (v : Z) : list Z := if v =? 0 then [48] else reverse (uint_loop 64 v).
Definition int_text (v : Z) : list Z :=
  if v <? 0 then 45 :: uint_text (u64 (i64 (- v))) else uint_text (u64 v).
Definition hex_text (v : Z) : list Z := if v =? 0 then [48] else reverse (hex_loop 16 v).

Fixpoint width_loop (fuel : nat) (m : Z → Z) (fmt width : Z) : outcome (Z * Z) :=
  match fuel with
  | O => Hang
  | S fuel' =>
      if (48 <=? as_char (m fmt)) && (as_char (m fmt) <=? 57)
      then width_loop fuel' m (fmt + 1) (i32 (width * 10 + (as_char (m fmt) - 48)))
      else Ret (fmt, width)
  end.

Definition next_arg (args : list Z) : outcome (Z * list Z) :=
  match args with [] => Undef | a :: r => Ret (a, r) end.

(** One conversion: [fmt] points at the conversion character. *)
Definition convert (fuel : nat) (m : Z → Z) (buf size pos fmt : Z) (longlong zero_pad : bool)
    (width : Z) (args : list Z) : outcome (Z * (Z → Z) * list Z) :=
  let c := m fmt in
  if c =? 115 then
    let* (s, args) := next_arg args in
    let* (pos, m) := (if s =? 0 then Ret (append_text m buf size pos [40; 110; 117; 108; 108; 41])
                      else append_to_buffer fuel m buf size pos s) in
    Ret (pos, m, args)
  else if c =? 99 then
    let* (a, args) := next_arg args in
    let '(pos, m) := append_char_to_buffer m buf size pos (u8 a) in
    Ret (pos, m, args)
  else if (c =? 100) || (c =? 105) then
    let* (a, args) := next_arg args in
    let val := if longlong then i64 a else i32 a in
    let '(pos, m) := append_padded_to_buffer m buf size pos (int_text val) width 32 in
    Ret (pos, m, args)
  else if c =? 117 then
    let* (a, args) := next_arg args in
    let val := if longlong then u64 a else u32 a in
    let '(pos, m) := append_padded_to_buffer m buf size pos (uint_text val) width 32 in
    Ret (pos, m, args)
  else if (c =? 120) || (c =? 88) then
    let* (a, args) := next_arg args in
    let val := if longlong then u64 a else u32 a in
    let '(pos, m) := append_padded_to_buffer m buf size pos (hex_text val) width
                       (if zero_pad then 48 else 32) in
    Ret (pos, m, args)
  else if c =? 112 then
    let* (a, args) := next_arg args in
    let '(pos, m) := append_text m buf size pos [48; 120] in
    let '(pos, m) := append_text m buf size pos (hex_text (u64 a)) in
    Ret (pos, m, args)
  else if c =? 37 then
    let '(pos, m) := append_char_to_buffer m buf size pos 37 in
    Ret (pos, m, args)
  else
    let '(pos, m) := append_char_to_buffer m buf size pos 37 in
    let '(pos, m) := append_char_to_buffer m buf size pos c in
    Ret (pos, m, args).

(** The flags, width and length of a conversion; [fmt] is past the percent sign. *)
Definition parse_flags (fuel : nat) (m : Z → Z) (fmt : Z) : outcome (Z * bool * Z * bool) :=
  let zero_pad := m fmt =? 48 in
  let fmt := if zero_pad then fmt + 1 else fmt in
  let* (fmt, width) := width_loop fuel m fmt 0 in
  let longlong := m fmt =? 108 in
  let fmt := if longlong then (if m (fmt + 1) =? 108 then fmt + 2 else fmt + 1) else fmt in
  Ret (fmt, zero_pad, width, longlong).

Fixpoint format_loop (fuel : nat) (m : Z → Z) (buf size pos fmt : Z) (args : list Z) :
    outcome (Z * (Z → Z)) :=
  match fuel with
  | O => Hang
  | S fuel' =>
      if m fmt =? 0 then Ret (pos, m)
      else if m fmt =? 37 then
        let fmt := fmt + 1 in
        if m fmt =? 0 then Ret (pos, m)
        else
          let* (fmt, zero_pad, width, longlong) := parse_flags fuel m fmt in
          let* (pos, m, args) := convert fuel m buf size pos fmt longlong zero_pad width args in
          format_loop fuel' m buf size pos (fmt + 1) args
      else
        let '(pos, m) := append_char_to_buffer m buf size pos (m fmt) in
        format_loop fuel' m buf size pos (fmt + 1) args
  end.

Definition vsnprintf_internal (fuel : nat) (m : Z → Z) (buf size fmt : Z) (args : list Z) :
    outcome (Z * (Z → Z)) :=
  let* (pos, m) := format_loop fuel m buf size 0 fmt args in
  let m := if 0 <? size then store8 m (buf + (if pos <? size then pos else size - 1)) 0 else m in
  Ret (i32 pos, m).

Definition snprintf := vsnprintf_internal.
Definition vsnprintf := vsnprintf_internal.
Definition sprintf (fuel : nat) (m : Z → Z) (buf fmt : Z) (args : list Z) : outcome (Z * (Z → Z)) :=
  vsnprintf_internal fuel m buf (2 ^ 64 - 1) fmt args.

(** ** Memory blocks *)

Lemma pattern_byte c i :
  is_u8 c → 0 ≤ i < 8 → (u64 (72340172838076673 * c) / 256 ^ i) mod 256 = c.
Proof.
  intros Hc Hi.
  assert (i ∈ seqZ 0 8) as Hin by (apply elem_of_seqZ; lia).
  pose proof (byte_forall (λ c, forallb (λ i, (u64 (72340172838076673 * c) / 256 ^ i) mod 256 =? c) (seqZ 0 8))
    ltac:(by vm_compute) c Hc) as H. cbv beta in H.
  rewrite forallb_forall in H. apply Z.eqb_eq, H. by apply list_elem_of_In.
Qed.

Lemma stosq_spec k m p c :
  is_u8 c →
  let '(m', p') := stosq k m p (u64 (72340172838076673 * c)) in
  p' = p + 8 * Z.of_nat k ∧ ∀ x, m' x = mfill m p (8 * Z.of_nat k) c x.
Proof.
  intros Hc. revert m p. induction k as [|k IH]; intros m p; simpl.
  - split; [lia|]. intros x. by rewrite mfill_out by lia.
  - specialize (IH (store64 m p (u64 (72340172838076673 * c))) (p + 8)).
    destruct (stosq _ _ _ _) as [m' p']. destruct IH as [-> IH]. split; [lia|]. intros x. rewrite IH.
    destruct (decide (p ≤ x < p + 8 * Z.of_nat (S k))); [|rewrite !mfill_out by lia; by rewrite mstore_out by lia].
    rewrite (mfill_in _ p) by lia. destruct (Z.ltb_spec x (p + 8)); [|by rewrite mfill_in by lia].
    rewrite mfill_out by lia. unfold mstore. rewrite (proj2 (Z.leb_le _ _)), (proj2 (Z.ltb_lt _ _)) by lia.
    apply pattern_byte; [done|lia].
Qed.

Lemma stosb_spec k m p v x : stosb k m p v x = mfill m p (Z.of_nat k) (u8 v) x.
Proof.
  revert m p. induction k as [|k IH]; intros m p; simpl.
  - by rewrite mfill_out by lia.
  - rewrite IH. destruct (decide (p ≤ x < p + Z.of_nat (S k))); [|rewrite !mfill_out by lia; by rewrite mstore_out by lia].
    rewrite (mfill_in _ p) by lia. destruct (Z.ltb_spec x (p + 1)); [|by rewrite mfill_in by lia].
    rewrite mfill_out by lia. unfold mstore. rewrite (proj2 (Z.leb_le _ _)), (proj2 (Z.ltb_lt _ _)) by lia.
    simpl. replace (x - p) with 0 by lia. rewrite Z.pow_0_r, Z.div_1_r. done.
Qed.

Lemma land7 n : 0 ≤ n → Z.land n 7 = n mod 8.
Proof. intros. apply (land_ones_mod n 3). lia. Qed.

Lemma memset_eq m s c n x : 0 ≤ n → memset m s c n x = mfill m s n (u8 c) x.
Proof.
  intros Hn. unfold memset. pose proof (stosq_spec (Z.to_nat (n / 8)) m s (u8 c) (u8_range c)) as Hq.
  destruct (stosq _ _ _ _) as [m' p]. destruct Hq as [-> Hq].
  rewrite stosb_spec, land7 by lia. unfold mfill in *. rewrite Hq.
  replace (u8 (u64 (72340172838076673 * u8 c))) with (u8 c)
    by (pose proof (pattern_byte (u8 c) 0 (u8_range c)) as H; rewrite Z.pow_0_r, Z.div_1_r in H;
        unfold u8 at 2; rewrite H; [done|lia]).
  destruct (Z.leb_spec s x), (Z.ltb_spec x (s + n)), (Z.leb_spec (s + 8 * Z.of_nat (Z.to_nat (n / 8))) x),
    (Z.ltb_spec x (s + 8 * Z.of_nat (Z.to_nat (n / 8)))),
    (Z.ltb_spec x (s + 8 * Z.of_nat (Z.to_nat (n / 8)) + Z.of_nat (Z.to_nat (n mod 8)))); simpl; try done;
  exfalso; Z.div_mod_to_equations; lia.
Qed.

(** [memset] with [rep stosq] and a byte tail sets exactly the [n] bytes
    from [s] to the low byte of [c], for every [n] and alignment. *)
Theorem memset_correct m s c n :
  0 ≤ n → ∀ x, memset m s c n x = if (s <=? x) && (x <? s + n) then u8 c else m x.
Proof. intros. by apply memset_eq. Qed.

(** What a copy of [n] bytes leaves. *)
Definition copied (m m' : Z → Z) (d s n : Z) : Prop :=
  ∀ x, m' x = if (d <=? x) && (x <? d + n) then m (s + (x - d)) else m x.

Definition bytes (m : Z → Z) : Prop := ∀ x, is_u8 (m x).

Lemma bytes_store8 m a v : bytes m → bytes (store8 m a v).
Proof.
  intros H x. unfold mstore. case_if; [apply Z.mod_pos_bound; lia|apply H].
Qed.

Lemma store8_at m a v x : is_u8 v → store8 m a v x = if x =? a then v else m x.
Proof.
  intros Hv. unfold mstore. destruct (Z.eqb_spec x a) as [->|].
  - rewrite (proj2 (Z.leb_le _ _)), (proj2 (Z.ltb_lt _ _)) by lia. simpl.
    rewrite Z.sub_diag, Z.pow_0_r, Z.div_1_r. by apply u8_small.
  - destruct (Z.leb_spec a x), (Z.ltb_spec x (a + Z.of_nat 1)); simpl; try done; lia.
Qed.

Ltac split_bounds :=
  repeat match goal with
  | |- context [Z.leb ?a ?b] => destruct (Z.leb_spec a b)
  | |- context [Z.ltb ?a ?b] => destruct (Z.ltb_spec a b)
  | |- context [Z.eqb ?a ?b] => destruct (Z.eqb_spec a b)
  end; simpl; try done; try lia.

(** Forward copying is right when the destination does not run into source
    bytes still to be read. *)
Lemma movsb_spec k : ∀ m d s,
  bytes m → d ≤ s ∨ s + Z.of_nat k ≤ d → copied m (movsb k m d s) d s (Z.of_nat k).
Proof.
  induction k as [|k IH]; intros m d s Hb Hd x; simpl; [split_bounds|].
  rewrite (IH _ (d + 1) (s + 1)); [|by apply bytes_store8|lia].
  rewrite !store8_at by apply Hb.
  split_bounds; try (f_equal; lia); subst; try (f_equal; lia).
Qed.

Lemma move_down_spec k : ∀ m d s,
  bytes m → s ≤ d → copied m (move_down k m d s) (d - Z.of_nat k) (s - Z.of_nat k) (Z.of_nat k).
Proof.
  induction k as [|k IH]; intros m d s Hb Hd x; simpl; [split_bounds|].
  rewrite (IH _ (d - 1) (s - 1)); [|by apply bytes_store8|lia].
  rewrite !store8_at by apply Hb.
  split_bounds; try (f_equal; lia); subst; try (f_equal; lia).
Qed.

(** [memmove] copies correctly for every overlap of source and
    destination, and touches nothing else. *)
Theorem memmove_correct m dest src n :
  bytes m → 0 ≤ n → copied m (memmove m dest src n) dest src n.
Proof.
  intros Hb Hn x. unfold memmove. destruct (Z.ltb_spec dest src).
  - rewrite (movsb_spec _ _ _ _ Hb) by lia. by rewrite Z2Nat.id.
  - rewrite (move_down_spec _ _ _ _ Hb) by lia. rewrite Z2Nat.id by lia.
    by replace (dest + n - n) with dest by lia; replace (src + n - n) with src by lia.
Qed.

Lemma mload_byte n m a i :
  bytes m → 0 ≤ i < Z.of_nat n → (mload n m a / 256 ^ i) mod 256 = m (a + i).
Proof.
  intros Hb. revert a i. induction n as [|n IH]; intros a i Hi; [lia|].
  change (mload (S n) m a) with (m a + 256 * mload n m (a + 1)). pose proof (Hb a) as Ha. unfold is_u8 in Ha.
  destruct (Z.eq_dec i 0) as [->|].
  - rewrite Z.pow_0_r, Z.div_1_r, Z.add_0_r, Z.mul_comm, Z.mod_add, Z.mod_small by lia. done.
  - replace i with (1 + (i - 1)) at 1 by lia. rewrite Z.pow_add_r, Z.pow_1_r by lia.
    rewrite <- Z.div_div by lia || (apply Z.pow_nonzero; lia).
    rewrite (Z.mul_comm 256), Z.div_add, (Z.div_small (m a)), Z.add_0_l by lia.
    rewrite IH by lia. f_equal. lia.
Qed.

Lemma store64_at m d s x :
  bytes m → store64 m d (load64 m s) x =
    if (d <=? x) && (x <? d + 8) then m (s + (x - d)) else m x.
Proof.
  intros Hb. unfold mstore. change (Z.of_nat 8) with 8.
  destruct (Z.leb_spec d x), (Z.ltb_spec x (d + 8)); simpl; try done.
  apply mload_byte; [done|lia].
Qed.

Lemma bytes_copied m m' d s n : bytes m → copied m m' d s n → bytes m'.
Proof. intros Hb Hc x. rewrite Hc. case_if; apply Hb. Qed.

Lemma movsq_spec k : ∀ m d s,
  bytes m → d + 8 * Z.of_nat k ≤ s ∨ s + 8 * Z.of_nat k ≤ d →
  let '(m', d', s') := movsq k m d s in
  d' = d + 8 * Z.of_nat k ∧ s' = s + 8 * Z.of_nat k ∧ copied m m' d s (8 * Z.of_nat k).
Proof.
  induction k as [|k IH]; intros m d s Hb Hd; simpl.
  - split_and!; [lia|lia|]. intros x. split_bounds.
  - assert (copied m (store64 m d (load64 m s)) d s 8) as H8 by (intros x; by apply store64_at).
    specialize (IH (store64 m d (load64 m s)) (d + 8) (s + 8) (bytes_copied _ _ _ _ _ Hb H8) ltac:(lia)).
    destruct (movsq _ _ _ _) as [[m' d'] s']. destruct IH as (-> & -> & IH). split_and!; [lia|lia|].
    intros x. rewrite IH, !H8. split_bounds; f_equal; lia.
Qed.

Lemma memcpy_spec m dest src n :
  bytes m → 0 ≤ n → dest + n ≤ src ∨ src + n ≤ dest → copied m (memcpy m dest src n) dest src n.
Proof.
  intros Hb Hn Hd. unfold memcpy. rewrite land7 by lia.
  pose proof (movsq_spec (Z.to_nat (n / 8)) m dest src Hb) as Hq.
  destruct (movsq _ _ _ _) as [[m' d'] s'].
  destruct Hq as (-> & -> & Hq); [Z.div_mod_to_equations; lia|].
  intros x. rewrite (movsb_spec _ m'), !Hq;
    [|by apply (bytes_copied _ _ _ _ _ Hb Hq)|Z.div_mod_to_equations; lia].
  pose proof (Z.div_mod n 8 ltac:(lia)). pose proof (Z.mod_pos_bound n 8 ltac:(lia)).
  rewrite !Z2Nat.id by (try apply Z.div_pos; lia).
  split_bounds; f_equal; lia.
Qed.

(** [memcpy] with [rep movsq] and a byte tail copies exactly [n] bytes
    between disjoint blocks. *)
Theorem memcpy_correct m dest src n :
  bytes m → 0 ≤ n → dest + n ≤ src ∨ src + n ≤ dest →
  ∀ x, memcpy m dest src n x = if (dest <=? x) && (x <? dest + n) then m (src + (x - dest)) else m x.
Proof. intros. by apply memcpy_spec. Qed.

(** ** C strings *)

(** Memory holds the non-zero bytes [l] and a terminator at [a]. *)
Record cstr (m : Z → Z) (a : Z) (l : list Z) : Prop := {
  cs_chars : ∀ i v, l !! i = Some v → m (a + Z.of_nat i) = v;
  cs_end : m (a + Z.of_nat (length l)) = 0;
  cs_nz : Forall (λ v, v ≠ 0) l
}.

Lemma cstr_nil m a : cstr m a [] → m a = 0.
Proof. intros [_ E _]. simpl in E. by rewrite Z.add_0_r in E. Qed.

Lemma cstr_cons m a c l : cstr m a (c :: l) ↔ m a = c ∧ c ≠ 0 ∧ cstr m (a + 1) l.
Proof.
  split.
  - intros [H1 H2 H3]. apply Forall_cons in H3 as [Hc H3]. split_and!; [|done|].
    + rewrite <- (H1 0%nat c eq_refl). f_equal. lia.
    + constructor; [|rewrite <- H2; simpl; f_equal; lia|done].
      intros i v Hi. rewrite <- (H1 (S i) v Hi). f_equal. lia.
  - intros (<- & Hc & [H1 H2 H3]). constructor; [|simpl; rewrite <- H2; f_equal; lia|by constructor].
    intros [|i] v; simpl; [intros [= <-]; f_equal; lia|]. intros Hi. rewrite <- (H1 i v Hi). f_equal. lia.
Qed.

Lemma cstr_ext m m' a l :
  cstr m a l → (∀ x, a ≤ x ≤ a + Z.of_nat (length l) → m' x = m x) → cstr m' a l.
Proof.
  intros [H1 H2 H3] He. constructor; [|by rewrite He by lia|done].
  intros i v Hi. rewrite He; [by apply H1|]. apply lookup_lt_Some in Hi. lia.
Qed.

Lemma strlen_loop_spec l : ∀ fuel m str len,
  cstr m (str + len) l → (length l < fuel)%nat →
  strlen_loop fuel m str len = Ret (len + Z.of_nat (length l)).
Proof.
  induction l as [|c l IH]; intros fuel m str len Hc Hf; (destruct fuel as [|fuel]; [simpl in Hf; lia|]); simpl.
  - rewrite (cstr_nil _ _ Hc). simpl. f_equal. lia.
  - apply cstr_cons in Hc as (-> & Hc & Hl). rewrite (proj2 (Z.eqb_neq _ _)) by done.
    rewrite IH; [f_equal; lia| |simpl in Hf; lia]. by replace (str + (len + 1)) with (str + len + 1) by lia.
Qed.

Lemma strlen_spec fuel m str l :
  cstr m str l → (length l < fuel)%nat → strlen fuel m str = Ret (Z.of_nat (length l)).
Proof. intros Hc Hf. apply (strlen_loop_spec l); [by rewrite Z.add_0_r|done]. Qed.

Lemma strcmp_spec l1 : ∀ l2 fuel m s1 s2,
  cstr m s1 l1 → cstr m s2 l2 → bytes m → (length l1 < fuel)%nat →
  ∃ r, strcmp fuel m s1 s2 = Ret r ∧ (r = 0 ↔ l1 = l2).
Proof.
  induction l1 as [|c l1 IH]; intros l2 fuel m s1 s2 H1 H2 Hb Hf; (destruct fuel as [|fuel]; [simpl in Hf; lia|]); simpl.
  - rewrite (cstr_nil _ _ H1). simpl. eexists. split; [done|]. destruct l2 as [|d l2].
    + rewrite (cstr_nil _ _ H2). done.
    + apply cstr_cons in H2 as (-> & ? & _). split; [lia|done].
  - apply cstr_cons in H1 as (-> & Hc & H1). rewrite (proj2 (Z.eqb_neq c 0)) by done. simpl.
    destruct l2 as [|d l2].
    + rewrite (cstr_nil _ _ H2), (proj2 (Z.eqb_neq c 0)) by done. eexists. split; [done|].
      split; [lia|done].
    + apply cstr_cons in H2 as (-> & Hd & H2). destruct (Z.eqb_spec c d) as [->|Hne].
      * destruct (IH l2 fuel m (s1 + 1) (s2 + 1)) as (r & -> & Hr); try done; [simpl in Hf; lia|].
        exists r. split; [done|]. rewrite Hr. split; [by intros ->|by intros [= ->]].
      * eexists. split; [done|]. split; [lia|by intros [= ->]].
Qed.

(** ** Searching *)

Lemma strstr_match_spec k : ∀ l fuel m h n,
  cstr m h l → cstr m n k → (length k < fuel)%nat →
  ∃ r : bool, strstr_match fuel m h n = Ret r ∧ (r = true ↔ k `prefix_of` l).
Proof.
  induction k as [|c k IH]; intros l fuel m h n Hh Hn Hf; (destruct fuel as [|fuel]; [simpl in Hf; lia|]); simpl.
  - rewrite (cstr_nil _ _ Hn), andb_false_r. simpl. exists true. split; [done|]. split; [|done].
    intros _. apply prefix_nil.
  - apply cstr_cons in Hn as (-> & Hc & Hn). rewrite (proj2 (Z.eqb_neq c 0)) by done. simpl.
    destruct l as [|d l].
    + rewrite (cstr_nil _ _ Hh). simpl. exists false. split; [done|]. split; [done|].
      intros [z Hz]. done.
    + apply cstr_cons in Hh as (-> & Hd & Hh). rewrite (proj2 (Z.eqb_neq d 0)) by done. simpl.
      destruct (Z.eqb_spec d c) as [->|Hne].
      * destruct (IH l fuel m (h + 1) (n + 1)) as (r & -> & Hr); try done; [simpl in Hf; lia|].
        exists r. split; [done|]. rewrite Hr. split; [apply prefix_cons|apply prefix_cons_inv_2].
      * exists false. split; [done|]. split; [done|]. intros H. by apply prefix_cons_inv_1 in H.
Qed.

Lemma strstr_loop_spec l : ∀ fuel m h n k,
  cstr m h l → cstr m n k → 0 < h → (length l + length k < fuel)%nat → k ≠ [] →
  ∃ r, strstr_loop fuel m h n = Ret r ∧
   ((r = 0 ∧ ∀ i, (i ≤ length l)%nat → ¬ (k `prefix_of` drop i l)) ∨
    ∃ i, (i < length l)%nat ∧ r = h + Z.of_nat i ∧ k `prefix_of` drop i l ∧
      ∀ j, (j < i)%nat → ¬ (k `prefix_of` drop j l)).
Proof.
  induction l as [|c l IH]; intros fuel m h n k Hh Hn Hpos Hf Hk; (destruct fuel as [|fuel]; [simpl in Hf; lia|]).
  - simpl. rewrite (cstr_nil _ _ Hh). simpl. exists 0. split; [done|]. left. split; [done|].
    intros i _ Hp. rewrite drop_nil in Hp. apply prefix_nil_inv in Hp. done.
  - cbn [strstr_loop]. destruct (strstr_match_spec k (c :: l) (S fuel) m h n Hh Hn) as (r & -> & Hr); [simpl in Hf; lia|].
    apply cstr_cons in Hh as (-> & Hc & Hh). rewrite (proj2 (Z.eqb_neq c 0)) by done. cbn [obind].
    destruct r.
    + exists h. split; [done|]. right. exists 0%nat. split_and!; [simpl; lia|lia|by apply Hr|lia].
    + assert (¬ k `prefix_of` c :: l) as Hnp by (intros H; by apply Hr in H).
      destruct (IH fuel m (h + 1) n k) as (r & -> & Hcase); try done; [lia|simpl in Hf; lia|].
      exists r. split; [done|]. destruct Hcase as [[-> H]|(i & Hi & -> & Hp & H)].
      * left. split; [done|]. intros [|i] Hi; simpl in *; [done|]. apply H. lia.
      * right. exists (S i). split_and!; [simpl; lia|lia|done|].
        intros [|j] Hj; simpl; [done|]. apply H. lia.
Qed.

(** [strstr] returns the address of the first occurrence of the needle
    in the haystack, and NULL exactly when there is none. *)
Theorem strstr_correct fuel m h n l k :
  cstr m h l → cstr m n k → 0 < h → (length l + length k < fuel)%nat →
  ∃ r, strstr fuel m h n = Ret r ∧
   ((r = 0 ∧ ∀ i, (i ≤ length l)%nat → ¬ (k `prefix_of` drop i l)) ∨
    ∃ i, (i ≤ length l)%nat ∧ r = h + Z.of_nat i ∧ k `prefix_of` drop i l ∧
      ∀ j, (j < i)%nat → ¬ (k `prefix_of` drop j l)).
Proof.
  intros Hh Hn Hpos Hf. unfold strstr. destruct k as [|c k].
  - rewrite (cstr_nil _ _ Hn). simpl. exists h. split; [done|]. right. exists 0%nat.
    split_and!; [lia|lia|apply prefix_nil|lia].
  - pose proof Hn as (-> & Hc & _)%cstr_cons. rewrite (proj2 (Z.eqb_neq c 0)) by done.
    destruct (strstr_loop_spec l fuel m h n (c :: k) Hh Hn Hpos Hf) as (r & -> & H); [done|].
    exists r. split; [done|]. destruct H as [H|(i & ? & ? & ? & ?)]; [by left|right].
    exists i. split_and!; try done. lia.
Qed.

(** ** Managed strings *)

(** The [string_t] at [p] holds the text [l]. *)
Record st_rep (m : Z → Z) (p : Z) (l : list Z) : Prop := {
  st_text : cstr m p l;
  st_short : Z.of_nat (length l) < STRING_MAX_LENGTH;
  st_len : st_length m p = Z.of_nat (length l);
  st_cap : st_capacity m p = STRING_MAX_LENGTH
}.

Lemma bytes_mstore n m a v : bytes m → bytes (mstore n m a v).
Proof. intros H x. unfold mstore. case_if; [apply Z.mod_pos_bound; lia|apply H]. Qed.

Lemma cstr_is_u8 m a l : bytes m → cstr m a l → Forall is_u8 l.
Proof.
  intros Hb [H _ _]. apply Forall_lookup. intros i v Hi. rewrite <- (H i v Hi). apply Hb.
Qed.

(** [string_append] appends as much of the C string as fits: the result
    is the concatenation cut to 255 characters, still terminated, with the
    length field exact, and nothing outside the object's text and length is
    written. *)
Theorem string_append_correct fuel m p l c k :
  bytes m → st_rep m p l → cstr m c k → 0 < c → Z.of_nat (length k) < 2 ^ 64 →
  c + Z.of_nat (length k) < p ∨ p + 272 ≤ c → (length k < fuel)%nat →
  ∃ m', string_append fuel m p c = Ret m' ∧ st_rep m' p (take 255 (l ++ k)) ∧
    ∀ x, ¬ (p ≤ x < p + 264) → m' x = m x.
Proof.
  intros Hb [Ht Hs Hl Hcap] Hc Hpos Hk64 Hsep Hf. unfold STRING_MAX_LENGTH in *.
  unfold string_append. rewrite (proj2 (Z.eqb_neq c 0)), (strlen_spec _ _ _ _ Hc Hf) by lia.
  cbn [obind]. cbv zeta. rewrite Hcap, Hl, (u64_small (256 - _ - 1)) by (unfold is_u64; lia).
  set (add := if _ <? _ then _ else _).
  assert (add = Z.min (255 - Z.of_nat (length l)) (Z.of_nat (length k))) as Eadd.
  { subst add. case_if; bool_to_prop; lia. }
  clearbody add.
  pose proof (memcpy_spec m (p + Z.of_nat (length l)) c add Hb ltac:(lia) ltac:(lia)) as Hcp.
  set (m1 := memcpy _ _ _ _) in *. clearbody m1.
  assert (st_length m1 p = Z.of_nat (length l)) as ->.
  { rewrite <- Hl. apply mload_ext. intros x Hx. unfold STRING_MAX_LENGTH in *. rewrite Hcp. split_bounds. }
  rewrite (u64_small (_ + add)) by (unfold is_u64; lia).
  assert (st_length (set_st_length m1 p (Z.of_nat (length l) + add)) p = Z.of_nat (length l) + add) as ->.
  { unfold st_length, set_st_length, STRING_MAX_LENGTH. mem_simp. done. }
  assert (length (take 255 (l ++ k)) = Z.to_nat (Z.of_nat (length l) + add)) as Elen.
  { rewrite length_take, length_app. lia. }
  eexists. split; [done|].
  assert (∀ x, store8 (set_st_length m1 p (Z.of_nat (length l) + add)) (p + (Z.of_nat (length l) + add)) 0 x =
    if x =? p + (Z.of_nat (length l) + add) then 0 else if (p + 256 <=? x) && (x <? p + 264)
    then set_st_length m1 p (Z.of_nat (length l) + add) x else m1 x) as Hx.
  { intros x. rewrite store8_at by done. destruct (x =? _); [done|].
    destruct (Z.leb_spec (p + 256) x), (Z.ltb_spec x (p + 264)); simpl; try done; 
    unfold set_st_length, STRING_MAX_LENGTH; apply mstore_out; lia. }
  split.
  - constructor; unfold STRING_MAX_LENGTH.
    + constructor.
      * intros i v Hi. pose proof (lookup_lt_Some _ _ _ Hi) as Hlt. rewrite Elen in Hlt.
        rewrite lookup_take_lt in Hi by lia. rewrite Hx, Hcp.
        destruct (decide (i < length l)%nat) as [Hil|Hil].
        -- rewrite lookup_app_l in Hi by lia. rewrite <- (cs_chars _ _ _ Ht _ _ Hi). split_bounds.
        -- rewrite lookup_app_r in Hi by lia. rewrite <- (cs_chars _ _ _ Hc _ _ Hi).
           split_bounds. f_equal. lia.
      * rewrite Hx, Elen. split_bounds.
      * apply Forall_take, Forall_app. split; [apply Ht|apply Hc].
    + rewrite Elen. lia.
    + rewrite Elen. unfold st_length, set_st_length, STRING_MAX_LENGTH.
      rewrite mload_mstore_other by lia. rewrite mload_mstore_same by (change (Z.of_nat 8) with 8; lia). lia.
    + etrans; [|exact Hcap]. unfold st_capacity, set_st_length, STRING_MAX_LENGTH. mem_simp.
      apply mload_ext. intros x Hx'. rewrite Hcp. split_bounds.
  - intros x Hout. rewrite Hx, Hcp. split_bounds.
Qed.

(** ** Numbers *)

Lemma put_bytes_at l : ∀ m a x,
  Forall is_u8 l →
  put_bytes m a l x = if (a <=? x) && (x <? a + Z.of_nat (length l))
                      then default 0 (l !! Z.to_nat (x - a)) else m x.
Proof.
  induction l as [|c l IH]; intros m a x Hl; simpl; [split_bounds|].
  apply Forall_cons in Hl as [Hc Hl]. rewrite IH, store8_at by done.
  destruct (Z.eq_dec x a) as [->|Hne].
  - rewrite (proj2 (Z.leb_gt (a + 1) a)), Z.eqb_refl by lia. simpl.
    rewrite Z.leb_refl, (proj2 (Z.ltb_lt _ _)) by lia. simpl. by rewrite Z.sub_diag.
  - rewrite (proj2 (Z.eqb_neq x a)) by done. destruct (Z.leb_spec (a + 1) x).
    + rewrite (proj2 (Z.leb_le a x)) by lia. simpl.
      replace (a + 1 + Z.of_nat (length l)) with (a + Z.of_nat (S (length l))) by lia.
      destruct (_ <? _); [|done]. replace (Z.to_nat (x - a)) with (S (Z.to_nat (x - (a + 1)))) by lia. done.
    + rewrite (proj2 (Z.leb_gt a x)) by lia. done.
Qed.

Definition text (l : list Z) : Prop := Forall (λ c, 0 < c < 128) l.

Lemma text_u8 l : text l → Forall is_u8 l.
Proof. intros H. apply (Forall_impl _ _ _ H). unfold is_u8. lia. Qed.

Lemma text_nz l : text l → Forall (λ c, c ≠ 0) l.
Proof. intros H. apply (Forall_impl _ _ _ H). lia. Qed.

Lemma put_digits_cstr m out tmp :
  text tmp → cstr (put_digits m out tmp) out (reverse tmp) ∧
  ∀ x, ¬ (out ≤ x ≤ out + Z.of_nat (length tmp)) → put_digits m out tmp x = m x.
Proof.
  intros Ht. unfold put_digits.
  assert (text (reverse tmp)) as Hr by (by apply Forall_reverse).
  split; [constructor|].
  - intros i v Hi. pose proof (lookup_lt_Some _ _ _ Hi) as Hlt. rewrite length_reverse in Hlt.
    rewrite store8_at, put_bytes_at by (done || by apply text_u8). rewrite length_reverse.
    split_bounds. replace (Z.to_nat (out + Z.of_nat i - out)) with i by lia. by rewrite Hi.
  - rewrite length_reverse, store8_at by done. split_bounds.
  - by apply text_nz.
  - intros x Hx. rewrite store8_at, put_bytes_at by (done || by apply text_u8). rewrite length_reverse. split_bounds.
Qed.

Lemma put_zero_cstr m out :
  cstr (put_zero m out) out [48] ∧ ∀ x, ¬ (out ≤ x ≤ out + 1) → put_zero m out x = m x.
Proof.
  unfold put_zero. split; [constructor|].
  - intros [|i] v; simpl; [intros [= <-]|done]. rewrite !store8_at by done. split_bounds.
  - simpl. rewrite store8_at by done. split_bounds.
  - by repeat constructor.
  - intros x Hx. rewrite !store8_at by done. split_bounds.
Qed.

Lemma uint_loop_text fuel v : 0 ≤ v → text (uint_loop fuel v).
Proof.
  revert v. induction fuel as [|fuel IH]; intros v Hv; simpl; [by constructor|].
  destruct (Z.eqb_spec v 0); [by constructor|]. constructor; [|apply IH, Z.div_pos; lia].
  pose proof (Z.mod_pos_bound v 10). lia.
Qed.

Lemma uint_loop_digits fuel v : 0 ≤ v → Forall (λ c, 48 ≤ c ≤ 57) (uint_loop fuel v).
Proof.
  revert v. induction fuel as [|fuel IH]; intros v Hv; simpl; [by constructor|].
  destruct (Z.eqb_spec v 0); [by constructor|]. constructor; [|apply IH, Z.div_pos; lia].
  pose proof (Z.mod_pos_bound v 10). lia.
Qed.

(** The value of a digit string, most significant digit first. *)
Definition digits_value (acc : Z) (l : list Z) : Z := foldl (λ a c, a * 10 + (c - 48)) acc l.

Lemma uint_loop_value fuel v :
  0 ≤ v < 2 ^ Z.of_nat fuel → digits_value 0 (reverse (uint_loop fuel v)) = v.
Proof.
  revert v. induction fuel as [|fuel IH]; intros v Hv.
  - simpl. change (2 ^ Z.of_nat 0) with 1 in Hv. unfold digits_value. simpl. lia.
  - simpl. destruct (Z.eqb_spec v 0) as [->|]; [done|].
    rewrite reverse_cons. unfold digits_value. rewrite foldl_app. simpl.
    change (foldl _ 0 (reverse (uint_loop fuel (v / 10)))) with
      (digits_value 0 (reverse (uint_loop fuel (v / 10)))). rewrite IH.
    + pose proof (Z.div_mod v 10). lia.
    + rewrite Nat2Z.inj_succ, Z.pow_succ_r in Hv by lia. Z.div_mod_to_equations. lia.
Qed.

Lemma uint_to_str_cstr m v out :
  is_u64 v → cstr (uint_to_str m v out) out (uint_text v) ∧ 
  (∀ x, x < out → uint_to_str m v out x = m x) ∧
  digits_value 0 (uint_text v) = v ∧ Forall (λ c, 48 ≤ c ≤ 57) (uint_text v).
Proof.
  intros Hv. unfold uint_to_str, uint_text, is_u64 in *. destruct (Z.eqb_spec v 0) as [->|].
  - destruct (put_zero_cstr m out) as [H1 H2]. split_and!; [done| |done|by repeat constructor].
    intros x Hx. apply H2. lia.
  - destruct (put_digits_cstr m out (uint_loop 64 v)) as [H1 H2]; [apply uint_loop_text; lia|].
    split_and!; [done| | |].
    + intros x Hx. apply H2. lia.
    + apply uint_loop_value. change (Z.of_nat 64) with 64. lia.
    + apply Forall_reverse, uint_loop_digits. lia.
Qed.

Lemma i64_step a d : i64 (i64 a * 10 + d) = i64 (a * 10 + d).
Proof. wrap_lia. Qed.

Lemma i64_neg a : i64 (- i64 a) = i64 (- a).
Proof. wrap_lia. Qed.

Lemma is_digit_true c : 48 ≤ c ≤ 57 → is_digit c = true ∧ as_char c = c.
Proof.
  intros. unfold is_digit, as_char. rewrite (proj2 (Z.ltb_lt _ _)) by lia.
  by rewrite !(proj2 (Z.leb_le _ _)) by lia.
Qed.

Lemma digits_loop_spec l : ∀ fuel m str acc,
  cstr m str l → Forall (λ c, 48 ≤ c ≤ 57) l → (length l < fuel)%nat →
  digits_loop fuel m str (i64 acc) = Ret (i64 (digits_value acc l)).
Proof.
  induction l as [|c l IH]; intros fuel m str acc Hc Hd Hf; (destruct fuel as [|fuel]; [simpl in Hf; lia|]); simpl.
  - rewrite (cstr_nil _ _ Hc). done.
  - apply cstr_cons in Hc as (-> & _ & Hc). apply Forall_cons in Hd as [Hd Hl].
    destruct (is_digit_true c Hd) as [-> ->]. rewrite i64_step.
    rewrite (IH fuel m (str + 1)); [done|done|done|simpl in Hf; lia].
Qed.

Lemma int_from_digits fuel m str l v :
  cstr m str l → Forall (λ c, 48 ≤ c ≤ 57) l → digits_value 0 l = v →
  (length l < fuel)%nat → digits_loop fuel m str 0 = Ret (i64 v).
Proof. intros ?? <- ?. by apply (digits_loop_spec l fuel m str 0). Qed.

Lemma uint_loop_nonempty v : 0 < v → uint_loop 64 v ≠ [].
Proof.
  intros. change (uint_loop 64 v) with
    (if v =? 0 then [] else (48 + v mod 10) :: uint_loop 63 (v / 10)).
  by rewrite (proj2 (Z.eqb_neq v 0)) by lia.
Qed.

Lemma uint_text_nonempty v : 0 ≤ v → uint_text v ≠ [].
Proof.
  intros. unfold uint_text. destruct (Z.eqb_spec v 0); [done|]. intros E.
  apply (uint_loop_nonempty v); [lia|]. apply length_zero_iff_nil. by rewrite <- length_reverse, E.
Qed.

Lemma uint_loop_length fuel v : (length (uint_loop fuel v) ≤ fuel)%nat.
Proof. revert v. induction fuel as [|f IH]; intros v; simpl; [lia|]. case_if; simpl; [lia|]. specialize (IH (v / 10)). lia. Qed.

Lemma uint_text_length v : (length (uint_text v) ≤ 64)%nat.
Proof.
  unfold uint_text. case_if; [simpl; lia|]. rewrite length_reverse. apply uint_loop_length.
Qed.

(** Round trip: [int_from_cstr] reads back every 64-bit integer that
    [int_to_str] prints, INT64_MIN included. *)
Theorem int_str_roundtrip m v out fuel :
  - 2 ^ 63 ≤ v < 2 ^ 63 → 0 < out → (65 < fuel)%nat →
  int_from_cstr fuel (int_to_str m v out) out = Ret v.
Proof.
  intros Hv Hout Hf. unfold int_from_cstr, int_to_str. rewrite (proj2 (Z.eqb_neq out 0)) by lia.
  destruct (Z.ltb_spec v 0).
  - set (w := u64 (i64 (- v))). assert (is_u64 w) as Hw by apply u64_range.
    destruct (uint_to_str_cstr (store8 m out 45) w (out + 1) Hw) as (Hc & Hfr & Hval & Hdig).
    set (m' := uint_to_str _ _ _) in *. clearbody m'.
    assert (m' out = 45) as E. { rewrite Hfr, store8_at by (done || lia). by rewrite Z.eqb_refl. }
    destruct fuel as [|fuel]; [lia|]. cbn [skip_space]. rewrite E.
    change (is_space 45) with false. cbn [obind]. rewrite E. change (45 =? 45) with true. cbn [orb].
    rewrite (int_from_digits _ _ _ _ _ Hc Hdig Hval) by (pose proof (uint_text_length w); lia).
    cbn [obind]. rewrite i64_neg. subst w. f_equal. wrap_lia.
  - destruct (uint_to_str_cstr m (u64 v) out (u64_range v)) as (Hc & Hfr & Hval & Hdig).
    set (m' := uint_to_str _ _ _) in *. clearbody m'.
    destruct (uint_text (u64 v)) as [|c l] eqn:El; [by apply uint_text_nonempty in El; [|apply u64_range]|].
    pose proof Hc as (E & _)%cstr_cons. pose proof Hdig as [Hcd _]%Forall_cons.
    destruct fuel as [|fuel]; [lia|]. cbn [skip_space]. rewrite E.
    assert (is_space c = false) as ->. { unfold is_space. rewrite !(proj2 (Z.eqb_neq _ _)) by lia. done. }
    cbn [obind]. rewrite E, !(proj2 (Z.eqb_neq c _)) by lia. cbn [orb].
    rewrite (int_from_digits _ _ _ _ _ Hc Hdig Hval)
      by (pose proof (uint_text_length (u64 v)) as HL; rewrite El in HL; lia).
    cbn [obind]. f_equal. wrap_lia.
Qed.

(** ** Formatting stays inside the buffer *)

Section printf.
  Context (buf size : Z) (Hsize : 0 ≤ size < 2 ^ 64).

(** A position the buffer admits, with room left for the terminator. *)
Definition wf_pos (pos : Z) : Prop := 0 ≤ pos ∧ (pos = 0 ∨ pos < size).

(** Moving from [pos], [m] to [pos'], [m'] writes only inside the buffer and
    never its last byte. *)
Definition stays (m : Z → Z) (r : Z * (Z → Z)) : Prop :=
  wf_pos r.1 ∧ ∀ x, ¬ (buf ≤ x < buf + size - 1) → r.2 x = m x.

Lemma stays_trans m1 pos m2 r : stays m1 (pos, m2) → (wf_pos pos → stays m2 r) → stays m1 r.
Proof.
  intros [H1 H2] H. destruct (H H1) as [H3 H4]. split; [done|]. intros x Hx. rewrite H4 by done. by apply H2.
Qed.

Lemma append_char_stays m pos c : wf_pos pos → stays m (append_char_to_buffer m buf size pos c).
Proof using Hsize.
  intros Hp. unfold append_char_to_buffer, wf_pos in *. destruct (Z.ltb_spec (u64 (pos + 1)) size) as [H|H].
  - rewrite u64_small in H by (unfold is_u64; lia). split; unfold wf_pos; simpl; [lia|].
    intros x Hx. apply mstore_out. lia.
  - by split.
Qed.

Lemma append_text_stays src : ∀ m pos, wf_pos pos → stays m (append_text m buf size pos src).
Proof using Hsize.
  induction src as [|c src IH]; intros m pos Hp; simpl; [by split|].
  pose proof (append_char_stays m pos c Hp) as Hc. unfold append_char_to_buffer in Hc.
  case_if; [|by split]. eapply stays_trans; [exact Hc|]. intros. by apply IH.
Qed.

Lemma append_to_buffer_stays fuel : ∀ m pos src r,
  wf_pos pos → append_to_buffer fuel m buf size pos src = Ret r → stays m r.
Proof using Hsize.
  induction fuel as [|fuel IH]; intros m pos src r Hp; simpl; [done|].
  pose proof (append_char_stays m pos (m src) Hp) as Hc. unfold append_char_to_buffer in Hc.
  destruct (negb (m src =? 0)); simpl; [|intros [= <-]; by split].
  case_if; [|intros [= <-]; by split]. intros E.
  eapply stays_trans; [exact Hc|]. intros. by apply (IH _ _ _ _ H E).
Qed.

Lemma pad_loop_stays k c : ∀ m pos, wf_pos pos → stays m (pad_loop k m buf size pos c).
Proof using Hsize.
  induction k as [|k IH]; intros m pos Hp; simpl; [by split|].
  pose proof (append_char_stays m pos c Hp) as Hc. destruct (append_char_to_buffer _ _ _ _ _) as [pos' m'].
  eapply stays_trans; [exact Hc|]. intros. by apply IH.
Qed.

Lemma append_padded_stays m pos src width pad :
  wf_pos pos → stays m (append_padded_to_buffer m buf size pos src width pad).
Proof using Hsize.
  intros Hp. unfold append_padded_to_buffer.
  pose proof (pad_loop_stays (Z.to_nat (width - i32 (Z.of_nat (length src)))) pad m pos Hp) as Hc.
  destruct (pad_loop _ _ _ _ _ _) as [pos' m']. eapply stays_trans; [exact Hc|].
  intros. by apply append_text_stays.
Qed.

Lemma convert_stays fuel m pos fmt ll zp width args pos' m' args' :
  wf_pos pos → convert fuel m buf size pos fmt ll zp width args = Ret (pos', m', args') →
  stays m (pos', m').
Proof using Hsize.
  intros Hp. unfold convert, next_arg. destruct args as [|a args]; cbn [obind].
  all: repeat match goal with
    | |- Undef = Ret _ → _ => done
    | |- (let '(_, _) := append_char_to_buffer ?m ?b ?s ?p ?c in _) = _ → _ =>
        pose proof (append_char_stays m p c); destruct (append_char_to_buffer m b s p c)
    | |- (let '(_, _) := append_padded_to_buffer ?m ?b ?s ?p ?src ?w ?pad in _) = _ → _ =>
        pose proof (append_padded_stays m p src w pad); destruct (append_padded_to_buffer m b s p src w pad)
    | |- (let '(_, _) := append_text ?m ?b ?s ?p ?src in _) = _ → _ =>
        pose proof (append_text_stays src m p); destruct (append_text m b s p src)
    | |- Ret _ = Ret _ → _ => intros; simplify_eq
    | |- (if _ then _ else _) = _ → _ => case_if
    end; auto.
  all: try (eapply stays_trans; eauto; fail).
  - destruct (a =? 0).
    + pose proof (append_text_stays [40; 110; 117; 108; 108; 41] m pos Hp) as Ht.
      destruct (append_text _ _ _ _ _) as [q mq]. cbn [obind]. intros. by simplify_eq.
    + destruct (append_to_buffer fuel m buf size pos a) as [[q mq]| | |] eqn:E; cbn [obind]; try done.
      intros. simplify_eq. by apply (append_to_buffer_stays fuel m pos a).
Qed.

Lemma format_loop_stays fuel : ∀ m pos fmt args r,
  wf_pos pos → format_loop fuel m buf size pos fmt args = Ret r → stays m r.
Proof using Hsize.
  induction fuel as [|fuel IH]; intros m pos fmt args r Hp; [done|]. cbn [format_loop].
  destruct (m fmt =? 0); [intros [= <-]; by split|]. destruct (m fmt =? 37).
  - destruct (m (fmt + 1) =? 0); [intros [= <-]; by split|].
    destruct (parse_flags _ _ _) as [[[[f zp] w] ll]| | |]; cbn [obind]; try done.
    destruct (convert _ _ _ _ _ _ _ _ _ _) as [[[p' m'] a']| | |] eqn:E; cbn [obind]; try done.
    intros E'. eapply stays_trans; [by apply (convert_stays _ _ _ _ _ _ _ _ _ _ _ Hp E)|].
    intros Hp'. by apply (IH _ _ _ _ _ Hp' E').
  - pose proof (append_char_stays m pos (m fmt) Hp) as Hc. destruct (append_char_to_buffer _ _ _ _ _) as [p' m'].
    intros E'. eapply stays_trans; [exact Hc|]. intros Hp'. by apply (IH _ _ _ _ _ Hp' E').
Qed.
End printf.

(** [vsnprintf]/[snprintf] never write outside the [size] bytes of the
    buffer, whatever the format and the arguments; when [size] is not zero
    the result is terminated at an index below [size], and that index is
    what is returned. *)
Theorem snprintf_bounds fuel m buf size fmt args ret m' :
  0 ≤ size < 2 ^ 31 → vsnprintf_internal fuel m buf size fmt args = Ret (ret, m') →
  (∀ x, ¬ (buf ≤ x < buf + size) → m' x = m x) ∧
  (0 < size → 0 ≤ ret < size ∧ m' (buf + ret) = 0) ∧ (size = 0 → ret = 0).
Proof.
  intros Hs. unfold vsnprintf_internal.
  destruct (format_loop fuel m buf size 0 fmt args) as [[pos m1]| | |] eqn:E; cbn [obind]; try done.
  intros [= <- <-].
  destruct (format_loop_stays buf size ltac:(lia) fuel m 0 fmt args (pos, m1)) as [Hp Hx]; [|done|].
  { unfold wf_pos. lia. }
  unfold wf_pos in Hp. simpl in Hp, Hx.
  assert (0 ≤ pos < 2 ^ 31) as Hpos by lia. assert (i32 pos = pos) as -> by wrap_lia.
  split_and!.
  - intros x Hout. destruct (Z.ltb_spec 0 size); [|apply Hx; lia].
    rewrite mstore_out; [apply Hx; lia|]. destruct (Z.ltb_spec pos size); lia.
  - intros H0. rewrite (proj2 (Z.ltb_lt 0 size)) by lia. rewrite (proj2 (Z.ltb_lt pos size)) by lia.
    split; [lia|]. rewrite store8_at by done. by rewrite Z.eqb_refl.
  - lia.
Qed.

Lemma format_plain l : ∀ fuel m buf size pos fmt args,
  cstr m fmt l → Forall (λ c, c ≠ 37 ∧ is_u8 c) l → 0 ≤ pos < size → size < 2 ^ 31 →
  fmt + Z.of_nat (length l) < buf ∨ buf + size ≤ fmt → (length l < fuel)%nat →
  ∃ m', format_loop fuel m buf size pos fmt args =
      Ret (Z.min (pos + Z.of_nat (length l)) (size - 1), m') ∧
    (∀ x, ¬ (buf + pos ≤ x < buf + Z.min (pos + Z.of_nat (length l)) (size - 1)) → m' x = m x) ∧
    (∀ i v, l !! i = Some v → pos + Z.of_nat i < size - 1 → m' (buf + pos + Z.of_nat i) = v).
Proof.
  induction l as [|c l IH]; intros fuel m buf size pos fmt args Hc Hl Hp Hs Hd Hf;
    (destruct fuel as [|fuel]; [simpl in Hf; lia|]); cbn [format_loop].
  - rewrite (cstr_nil _ _ Hc). simpl. exists m. split; [do 2 f_equal; lia|]. split; [done|]. done.
  - pose proof Hc as (E & Hc0 & Hc')%cstr_cons. apply Forall_cons in Hl as [[Hc37 Hcu] Hl].
    simpl in Hd, Hf. rewrite E, !(proj2 (Z.eqb_neq c _)) by done.
    unfold append_char_to_buffer. rewrite (u64_small (pos + 1)) by (unfold is_u64; lia).
    destruct (Z.ltb_spec (pos + 1) size).
    + destruct (IH fuel (store8 m (buf + pos) c) buf size (pos + 1) (fmt + 1) args) as (m' & E' & H1 & H2);
        try done; try lia.
      { apply (cstr_ext m); [done|]. intros x Hx. apply mstore_out. lia. }
      exists m'. rewrite E'. split; [simpl; do 2 f_equal; lia|]. split.
      * intros x Hx. simpl in Hx. rewrite H1 by lia. apply mstore_out. lia.
      * intros [|i] v Hi Hlt; simpl in Hi.
        -- injection Hi as <-. rewrite H1 by lia. rewrite store8_at by done. split_bounds.
        -- rewrite <- (H2 i v Hi) by lia. f_equal. lia.
    + destruct (IH fuel m buf size pos (fmt + 1) args) as (m' & E' & H1 & H2); try done; try lia.
      exists m'. rewrite E'. split; [simpl; do 2 f_equal; lia|]. split; [intros x Hx; apply H1; simpl in Hx; lia|].
      intros i v Hi Hlt. lia.
Qed.

(** A format without conversions is copied to the buffer, cut to
    [size - 1] characters and terminated; the call returns with the number of
    characters written. *)
Theorem snprintf_plain fuel m buf size fmt l args :
  cstr m fmt l → Forall (λ c, c ≠ 37 ∧ is_u8 c) l → 0 < size < 2 ^ 31 →
  fmt + Z.of_nat (length l) < buf ∨ buf + size ≤ fmt → (length l < fuel)%nat →
  ∃ m', snprintf fuel m buf size fmt args = Ret (Z.min (Z.of_nat (length l)) (size - 1), m') ∧
    cstr m' buf (take (Z.to_nat (size - 1)) l).
Proof.
  intros Hc Hl Hs Hd Hf.
  destruct (format_plain l fuel m buf size 0 fmt args) as (m1 & E & H1 & H2); try done; [lia|lia|].
  unfold snprintf, vsnprintf_internal. rewrite E. cbn [obind]. rewrite Z.add_0_l.
  rewrite (proj2 (Z.ltb_lt 0 size)), (proj2 (Z.ltb_lt _ size)) by lia.
  eexists. split; [f_equal; f_equal; wrap_lia|].
  assert (Z.of_nat (length (take (Z.to_nat (size - 1)) l)) = Z.min (Z.of_nat (length l)) (size - 1)) as El.
  { rewrite length_take. lia. }
  constructor.
  - intros i v Hi. pose proof (lookup_lt_Some _ _ _ Hi). rewrite store8_at by done.
    rewrite lookup_take_lt in Hi by lia. specialize (H2 i v Hi ltac:(lia)). rewrite Z.add_0_r in H2. split_bounds.
  - rewrite El, store8_at by done. by rewrite Z.eqb_refl.
  - apply Forall_take. apply Hc.
Qed.

(** ** Defects the model shows *)

(** Memory with some text at 100 and nothing else. *)
Definition page (l : list Z) : Z → Z := put_bytes (λ _, 0) 100 l.

(** A format that ends inside a conversion ("%5") is read past its
    terminator: the bytes after it appear in the output. *)
Theorem printf_reads_past_terminator :
  match snprintf 50 (page [37; 53; 0; 88; 89; 0]) 1000 50 100 [] with
  | Ret (n, m) => (n, [m 1000; m 1001; m 1002; m 1003; m 1004])
  | _ => (0, [])
  end = (4, [37; 0; 88; 89; 0]).
Proof. vm_compute. reflexivity. Qed.

(** [itoa] of a negative number does not print a number: -5 becomes a
    plus sign (48 - 5) and no minus sign is produced. *)
Theorem itoa_negative_garbage :
  let m := itoa (λ _, 0) (-5) 1000 10 in [m 1000; m 1001] = [43; 0].
Proof. vm_compute. reflexivity. Qed.

(** ** Instances *)

Lemma page_bytes l : Forall is_u8 l → bytes (page l).
Proof.
  intros Hl x. unfold page. rewrite put_bytes_at by done. case_if; [|done].
  destruct (l !! _) eqn:E; [|done]. rewrite Forall_lookup in Hl. apply (Hl _ _ E).
Qed.

Lemma page_cstr m a l :
  m (a + Z.of_nat (length l)) = 0 →
  forallb (λ v, negb (v =? 0)) l = true →
  forallb (λ i, m (a + Z.of_nat i) =? nth i l 0) (seq 0 (length l)) = true → cstr m a l.
Proof.
  intros H0 H1 H2. rewrite forallb_forall in H1, H2. constructor; [|done|].
  - intros i v Hi. pose proof (lookup_lt_Some _ _ _ Hi).
    rewrite (proj1 (Z.eqb_eq _ _) (H2 i ltac:(apply in_seq; lia))).
    apply (nth_lookup_Some _ _ 0) in Hi. done.
  - apply Forall_forall. intros v Hv. apply list_elem_of_In in Hv. specialize (H1 v Hv). by bool_to_prop.
Qed.

Lemma memset_correct_witness : memset (λ _, 7) 1003 (-1) 21 1023 = 255 ∧ memset (λ _, 7) 1003 (-1) 21 1024 = 7.
Proof. split; rewrite memset_correct by lia; reflexivity. Defined.

Lemma memmove_correct_witness :
  copied (page [1; 2; 3; 4; 5]) (memmove (page [1; 2; 3; 4; 5]) 102 100 3) 102 100 3.
Proof. apply memmove_correct; [apply page_bytes; by repeat constructor|lia]. Defined.

Lemma memcpy_correct_witness : memcpy (page [1; 2; 3; 4; 5]) 200 100 5 204 = 5.
Proof.
  rewrite (memcpy_correct (page [1; 2; 3; 4; 5]) 200 100 5); [reflexivity| |lia|lia].
  apply page_bytes. by repeat constructor.
Defined.

Lemma strstr_correct_witness : ∃ r, strstr 20 (page [65; 66; 65; 67; 0; 65; 67; 0]) 100 105 = Ret r ∧ r = 102.
Proof.
  exists 102. destruct (strstr_correct 20 (page [65; 66; 65; 67; 0; 65; 67; 0]) 100 105 [65; 66; 65; 67] [65; 67])
    as (r & E & _); [by apply page_cstr|by apply page_cstr|lia|simpl; lia|].
  split; [|reflexivity]. rewrite E. by vm_compute in E.
Defined.

Lemma int_str_roundtrip_witness :
  int_from_cstr 70 (int_to_str (λ _, 0) (- 2 ^ 63) 1000) 1000 = Ret (- 2 ^ 63).
Proof. apply int_str_roundtrip; lia. Defined.

Lemma snprintf_plain_witness : ∃ m',
  snprintf 20 (page [72; 101; 108; 108; 111; 0]) 1000 4 100 [] = Ret (3, m') ∧ cstr m' 1000 [72; 101; 108].
Proof.
  destruct (snprintf_plain 20 (page [72; 101; 108; 108; 111; 0]) 1000 4 100 [72; 101; 108; 108; 111] [])
    as (m' & E & H); [by apply page_cstr|by repeat constructor|lia|simpl; lia|simpl; lia|].
  exists m'. split; [done|exact H].
Defined.

Lemma snprintf_bounds_witness : ∃ m',
  vsnprintf_internal 20 (page [37; 100; 33; 0]) 1000 3 100 [u64 (-42)] = Ret (2, m') ∧
  m' 1002 = 0 ∧ m' 1003 = page [37; 100; 33; 0] 1003.
Proof.
  assert (match vsnprintf_internal 20 (page [37; 100; 33; 0]) 1000 3 100 [u64 (-42)] with
          | Ret (r, _) => r | _ => 0 end = 2) as H by (vm_compute; reflexivity).
  destruct (vsnprintf_internal 20 (page [37; 100; 33; 0]) 1000 3 100 [u64 (-42)]) as [[r m']| | |] eqn:E;
    [subst r|discriminate H..].
  destruct (snprintf_bounds _ _ _ 3 _ _ _ _ ltac:(lia) E) as (H1 & H2 & _).
  exists m'. split; [reflexivity|]. split; [apply H2; lia|]. apply H1. lia.
Defined.

Lemma string_append_correct_witness : ∃ m',
  string_append 10 (put_bytes (string_init (λ _, 0) 1000) 100 [104; 105; 0]) 1000 100 = Ret m' ∧
  st_rep m' 1000 [104; 105].
Proof.
  set (m := put_bytes (string_init (λ _, 0) 1000) 100 [104; 105; 0]).
  assert (bytes m) as Hb.
  { intros x. subst m. simpl. unfold string_init, set_st_length, set_st_capacity.
    repeat apply bytes_mstore. done. }
  destruct (string_append_correct 10 m 1000 [] 100 [104; 105] Hb) as (m' & E & H & _).
  - constructor; [constructor; [done|by vm_compute|by constructor]|done|by vm_compute|by vm_compute].
  - by apply page_cstr.
  - lia.
  - simpl. lia.
  - simpl. lia.
  - simpl. lia.
  - exists m'. split; [done|exact H].
Defined.
