(* ===== verification/Printf.v ===== *)
(** * What the printf family prints

    [CString.v] models [vsnprintf_internal] of [src/impl/string.c] on byte
    memory. Here is what a format means without that memory: a list of
    pieces, each with its characters in the format, the arguments it takes
    and the text it stands for, with numbers written by repeated division.
    The theorem says that the code returns on every such format and leaves
    that text, cut to the buffer, in the buffer. *)

From S2P Require Import Prelude CString.

Open Scope c_scope.

(** ** Numbers *)

(** The digits of [v] in [base], most significant first; [n] of them at most. *)
Fixpoint numeral (base : Z) (n : nat) (v : Z) : list Z :=
  match n with
  | O => []
  | S n' =>
      if v <? base then [nth (Z.to_nat v) (txt "0123456789ABCDEF") 0]
      else numeral base n' (v / base) ++ [nth (Z.to_nat (v mod base)) (txt "0123456789ABCDEF") 0]
  end.

Definition signed_numeral (v : Z) : list Z :=
  if v <? 0 then 45 :: numeral 10 64 (- v) else numeral 10 64 v.

Lemma digit_small d : 0 ≤ d < 10 → nth (Z.to_nat d) (txt "0123456789ABCDEF") 0 = 48 + d.
Proof.
  intros Hd. assert (d ∈ seqZ 0 10) as H by (apply elem_of_seqZ; lia). vm_compute in H. revert H.
  by repeat (intros [->|H]%elem_of_cons; [reflexivity|revert H]); intros ?%elem_of_nil.
Qed.

Lemma digit_hex d : 0 ≤ d < 16 → nth (Z.to_nat d) (txt "0123456789ABCDEF") 0 = hex_digit d.
Proof.
  intros Hd. assert (d ∈ seqZ 0 16) as H by (apply elem_of_seqZ; lia). vm_compute in H. revert H.
  by repeat (intros [->|H]%elem_of_cons; [reflexivity|revert H]); intros ?%elem_of_nil.
Qed.

Lemma uint_loop_numeral n : ∀ v, 0 < v < 2 ^ Z.of_nat n → reverse (uint_loop n v) = numeral 10 n v.
Proof.
  induction n as [|n IH]; intros v Hv; [change (2 ^ Z.of_nat 0) with 1 in Hv; lia|].
  cbn [uint_loop numeral]. rewrite (proj2 (Z.eqb_neq v 0)), reverse_cons by lia.
  destruct (Z.ltb_spec v 10).
  - rewrite Z.mod_small, Z.div_small, digit_small by lia. by destruct n.
  - rewrite digit_small by (apply Z.mod_pos_bound; lia). f_equal. apply IH.
    rewrite Nat2Z.inj_succ, Z.pow_succ_r in Hv by lia. Z.div_mod_to_equations. lia.
Qed.

Lemma uint_text_numeral v : is_u64 v → uint_text v = numeral 10 64 v.
Proof.
  intros Hv. unfold uint_text. destruct (Z.eqb_spec v 0) as [->|]; [done|].
  apply uint_loop_numeral. unfold is_u64 in Hv. change (Z.of_nat 64) with 64. lia.
Qed.

Lemma hex_loop_numeral n : ∀ v, 0 < v < 16 ^ Z.of_nat n → reverse (hex_loop n v) = numeral 16 n v.
Proof.
  induction n as [|n IH]; intros v Hv; [change (16 ^ Z.of_nat 0) with 1 in Hv; lia|].
  cbn [hex_loop numeral]. rewrite (proj2 (Z.eqb_neq v 0)), reverse_cons by lia.
  change 15 with (Z.ones 4). rewrite Z.land_ones, Z.shiftr_div_pow2 by lia. change (2 ^ 4) with 16.
  destruct (Z.ltb_spec v 16).
  - rewrite Z.mod_small, Z.div_small, digit_hex by lia. by destruct n.
  - rewrite digit_hex by (apply Z.mod_pos_bound; lia). f_equal. apply IH.
    rewrite Nat2Z.inj_succ, Z.pow_succ_r in Hv by lia. Z.div_mod_to_equations. lia.
Qed.

Lemma hex_text_numeral v : is_u64 v → hex_text v = numeral 16 16 v.
Proof.
  intros Hv. unfold hex_text. destruct (Z.eqb_spec v 0) as [->|]; [done|].
  unfold is_u64 in Hv. apply hex_loop_numeral.
  change (16 ^ Z.of_nat 16) with (2 ^ 64). lia.
Qed.

Lemma int_text_numeral v : - 2 ^ 63 ≤ v < 2 ^ 63 → int_text v = signed_numeral v.
Proof.
  intros Hv. unfold int_text, signed_numeral. destruct (Z.ltb_spec v 0).
  - assert (u64 (i64 (- v)) = - v) as -> by wrap_lia. by rewrite uint_text_numeral by (unfold is_u64; lia).
  - assert (u64 v = v) as -> by wrap_lia. by rewrite uint_text_numeral by (unfold is_u64; lia).
Qed.

Lemma numeral_chars base n : 1 < base ≤ 16 → ∀ v, 0 ≤ v → Forall is_u8 (numeral base n v) ∧ (length (numeral base n v) ≤ n)%nat.
Proof.
  intros Hb. assert (∀ d, 0 ≤ d < base → is_u8 (nth (Z.to_nat d) (txt "0123456789ABCDEF") 0)) as Hd.
  { intros d Hd. rewrite digit_hex by lia. unfold hex_digit, is_u8. case_if; lia. }
  induction n as [|n IH]; intros v Hv; cbn [numeral]; [by split|]. destruct (Z.ltb_spec v base).
  - split; [|simpl; lia]. apply Forall_singleton. by apply Hd.
  - destruct (IH (v / base)) as [H1 H2]; [apply Z.div_pos; lia|]. rewrite length_app. simpl. split; [|lia].
    apply Forall_app. split; [done|]. apply Forall_singleton, Hd, Z.mod_pos_bound. lia.
Qed.

Arguments numeral : simpl never.
Arguments uint_text : simpl never.
Arguments int_text : simpl never.
Arguments hex_text : simpl never.

(** ** Formats *)

Inductive conversion :=
| CStr (p : Z) (t : list Z)      (* %s of the text [t] at [p] *)
| CNull                          (* %s of NULL *)
| CChr (a : Z)                   (* %c *)
| CDec (i : bool) (a : Z)        (* %d, %i *)
| CUns (a : Z)                   (* %u *)
| CHex (upper : bool) (a : Z)    (* %x, %X *)
| CPtr (a : Z)                   (* %p *)
| CPct                           (* %% *)
| COther (c : Z).                (* anything else is printed as it stands *)

(** A directive: the flag 0, the digits of the width, how many letters l. *)
Record directive := mk_dir { d_zero : bool; d_width : list Z; d_long : nat; d_conv : conversion }.
Inductive piece := Lit (c : Z) | Dir (d : directive).

Definition conv_char (k : conversion) : Z :=
  match k with
  | CStr _ _ | CNull => 115 | CChr _ => 99
  | CDec i _ => if i then 105 else 100
  | CUns _ => 117
  | CHex u _ => if u then 88 else 120
  | CPtr _ => 112 | CPct => 37 | COther c => c
  end.
Definition conv_args (k : conversion) : list Z :=
  match k with
  | CStr p _ => [p] | CNull => [0]
  | CChr a | CDec _ a | CUns a | CHex _ a | CPtr a => [a]
  | CPct | COther _ => []
  end.

Definition pad_left (c width : Z) (t : list Z) : list Z :=
  replicate (Z.to_nat (width - Z.of_nat (length t))) c ++ t.

Definition dir_text (d : directive) : list Z :=
  let width := digits_value 0 (d_width d) in
  let long := negb (d_long d =? 0)%nat in
  match d_conv d with
  | CStr _ t => t
  | CNull => txt "(null)"
  | CChr a => [u8 a]
  | CDec _ a => pad_left 32 width (signed_numeral (if long then i64 a else i32 a))
  | CUns a => pad_left 32 width (numeral 10 64 (if long then u64 a else u32 a))
  | CHex _ a => pad_left (if d_zero d then 48 else 32) width (numeral 16 16 (if long then u64 a else u32 a))
  | CPtr a => txt "0x" ++ numeral 16 16 (u64 a)
  | CPct => [37]
  | COther c => [37; c]
  end.

Definition piece_fmt (x : piece) : list Z :=
  match x with
  | Lit c => [c]
  | Dir d => 37 :: (if d_zero d then [48] else []) ++ d_width d ++ replicate (d_long d) 108 ++ [conv_char (d_conv d)]
  end.
Definition piece_args (x : piece) : list Z := match x with Lit _ => [] | Dir d => conv_args (d_conv d) end.
Definition piece_text (x : piece) : list Z := match x with Lit c => [c] | Dir d => dir_text d end.

Definition format_of (ps : list piece) : list Z := ps ≫= piece_fmt.
Definition args_of (ps : list piece) : list Z := ps ≫= piece_args.
Definition text_of (ps : list piece) : list Z := ps ≫= piece_text.

(** Bytes the format spends on strings, for the fuel. *)
Definition piece_strings (x : piece) : nat :=
  match x with Dir (mk_dir _ _ _ (CStr _ t)) => length t | _ => 0 end.

Definition conv_ok (m : Z → Z) (buf size : Z) (k : conversion) : Prop :=
  match k with
  | CStr p t => p ≠ 0 ∧ cstr m p t ∧ Forall is_u8 t ∧ (p + Z.of_nat (length t) < buf ∨ buf + size ≤ p)
  | COther c => is_u8 c ∧ c ∉ 0 :: txt "0123456789lscdiuxXp%"
  | _ => True
  end.

(** What a format may hold: a literal is no percent sign; a width without the
    flag does not begin with a zero and fits an [int]; strings end, and lie
    outside the buffer. *)
Definition piece_ok (m : Z → Z) (buf size : Z) (x : piece) : Prop :=
  match x with
  | Lit c => is_u8 c ∧ c ≠ 0 ∧ c ≠ 37
  | Dir d =>
      Forall (λ c, 48 ≤ c ≤ 57) (d_width d) ∧ digits_value 0 (d_width d) < 2 ^ 31 ∧
      (d_zero d = false → head (d_width d) ≠ Some 48) ∧ (d_long d ≤ 2)%nat ∧
      conv_ok m buf size (d_conv d)
  end.

(** ** The buffer while the text grows *)

Section shows.
  Context (buf size : Z) (Hsize : 0 ≤ size < 2 ^ 31) (m0 : Z → Z).

Definition cap : Z := Z.max 0 (size - 1).

(** Of the text [t], as much as leaves room for the terminator is in the
    buffer and counted; nothing else has changed since [m0]. *)
Definition shows (r : Z * (Z → Z)) (t : list Z) : Prop :=
  r.1 = Z.min (Z.of_nat (length t)) cap ∧
  (∀ x, ¬ (buf ≤ x < buf + cap) → r.2 x = m0 x) ∧
  ∀ i v, t !! i = Some v → Z.of_nat i < cap → r.2 (buf + Z.of_nat i) = v.

Lemma shows_room pos m t : shows (pos, m) t →
  u64 (pos + 1) = pos + 1 ∧ (pos + 1 < size → pos = Z.of_nat (length t)) ∧ (size ≤ pos + 1 → ∀ u, shows (pos, m) (t ++ u)).
Proof using Hsize.
  intros (E & H1 & H2). simpl in E. unfold cap in E.
  split; [rewrite u64_small by (unfold is_u64; lia); done|]. split; [lia|].
  intros Hfull u. split; [simpl; rewrite length_app; unfold cap; lia|]. split; [done|].
  intros i v Hi Hc. unfold cap in Hc. rewrite lookup_app_l in Hi by lia. by apply H2.
Qed.

Lemma shows_store pos m t c :
  shows (pos, m) t → pos + 1 < size → is_u8 c → shows (pos + 1, store8 m (buf + pos) c) (t ++ [c]).
Proof using Hsize.
  intros Hs Hp Hc. destruct (shows_room _ _ _ Hs) as (_ & ->%(λ f, f Hp) & _). destruct Hs as (_ & H1 & H2).
  split; [simpl; rewrite length_app; simpl; unfold cap; lia|]. split.
  - intros x Hx. simpl. rewrite mstore_out; [by apply H1|unfold cap in Hx; lia].
  - intros i v. simpl. rewrite store8_at by done. rewrite lookup_app_Some, list_lookup_singleton_Some.
    intros [Hi|[? [Hi <-]]] Hc'.
    + pose proof (lookup_lt_Some _ _ _ Hi). rewrite (proj2 (Z.eqb_neq _ _)) by lia. by apply H2.
    + assert (i = length t) as -> by lia. by rewrite Z.eqb_refl.
Qed.

Lemma shows_char pos m t c : shows (pos, m) t → is_u8 c → shows (append_char_to_buffer m buf size pos c) (t ++ [c]).
Proof using Hsize.
  intros Hs Hc. destruct (shows_room _ _ _ Hs) as (E & _ & Hf). unfold append_char_to_buffer. rewrite E.
  destruct (Z.ltb_spec (pos + 1) size); [by apply shows_store|by apply Hf].
Qed.

Lemma shows_text src : ∀ pos m t,
  shows (pos, m) t → Forall is_u8 src → shows (append_text m buf size pos src) (t ++ src).
Proof using Hsize.
  induction src as [|c src IH]; intros pos m t Hs Hc; simpl; [by rewrite app_nil_r|].
  apply Forall_cons in Hc as [Hc Hcs]. destruct (shows_room _ _ _ Hs) as (E & _ & Hf). rewrite E.
  destruct (Z.ltb_spec (pos + 1) size); [|by apply Hf].
  rewrite cons_middle, app_assoc. apply IH; [by apply shows_store|done].
Qed.

Lemma shows_pad k c : is_u8 c → ∀ pos m t,
  shows (pos, m) t → shows (pad_loop k m buf size pos c) (t ++ replicate k c).
Proof using Hsize.
  intros Hc. induction k as [|k IH]; intros pos m t Hs; simpl; [by rewrite app_nil_r|].
  pose proof (shows_char pos m t c Hs Hc) as H. destruct (append_char_to_buffer _ _ _ _ _) as [p' m'].
  rewrite cons_middle, app_assoc. by apply IH.
Qed.

Lemma shows_padded pos m t src width c :
  shows (pos, m) t → Forall is_u8 src → (length src ≤ 65)%nat → is_u8 c →
  shows (append_padded_to_buffer m buf size pos src width c) (t ++ pad_left c width src).
Proof using Hsize.
  intros Hs Hsrc Hl Hc. unfold append_padded_to_buffer, pad_left.
  assert (i32 (Z.of_nat (length src)) = Z.of_nat (length src)) as -> by wrap_lia.
  pose proof (shows_pad (Z.to_nat (width - Z.of_nat (length src))) c Hc pos m t Hs) as H.
  destruct (pad_loop _ _ _ _ _ _) as [p' m']. rewrite app_assoc. by apply shows_text.
Qed.

Lemma shows_outside r t a l :
  shows r t → cstr m0 a l → a + Z.of_nat (length l) < buf ∨ buf + size ≤ a → cstr r.2 a l.
Proof using Hsize.
  intros (_ & H & _) Hc Hd. apply (cstr_ext m0); [done|]. intros x Hx. apply H. unfold cap. lia.
Qed.

Lemma shows_string src : ∀ fuel pos m t p,
  shows (pos, m) t → cstr m0 p src → Forall is_u8 src →
  p + Z.of_nat (length src) < buf ∨ buf + size ≤ p → (length src < fuel)%nat →
  ∃ r, append_to_buffer fuel m buf size pos p = Ret r ∧ shows r (t ++ src).
Proof using Hsize.
  induction src as [|c src IH]; intros fuel pos m t p Hs Hc Hu Hd Hf;
    (destruct fuel as [|fuel]; [simpl in Hf; lia|]); cbn [append_to_buffer];
    pose proof (shows_outside _ _ _ _ Hs Hc Hd) as Hcm; simpl in Hcm.
  - rewrite (cstr_nil _ _ Hcm). simpl. exists (pos, m). by rewrite app_nil_r.
  - apply cstr_cons in Hcm as (-> & Hc0 & _), Hc as (_ & _ & Hc). apply Forall_cons in Hu as [Hu Hus].
    simpl in Hd, Hf. destruct (shows_room _ _ _ Hs) as (E & _ & Hfull). rewrite E, (proj2 (Z.eqb_neq c 0)) by done.
    cbn [negb andb]. destruct (Z.ltb_spec (pos + 1) size); [|exists (pos, m); split; [done|by apply Hfull]].
    rewrite cons_middle, app_assoc. apply IH; [by apply shows_store|done|done|lia|lia].
Qed.
End shows.

(** ** Reading a directive *)

Lemma digits_value_mono ds : ∀ w, 0 ≤ w → Forall (λ c, 48 ≤ c ≤ 57) ds → w ≤ digits_value w ds.
Proof.
  induction ds as [|c ds IH]; intros w Hw Hd; [unfold digits_value; simpl; lia|].
  apply Forall_cons in Hd as [Hc Hd]. change (digits_value w (c :: ds)) with (digits_value (w * 10 + (c - 48)) ds).
  specialize (IH (w * 10 + (c - 48)) ltac:(lia) Hd). lia.
Qed.

Lemma width_loop_value m ds : ∀ fuel a w r,
  cstr m a (ds ++ r) → Forall (λ c, 48 ≤ c ≤ 57) ds → 0 ≤ w → digits_value w ds < 2 ^ 31 →
  (∀ c, head r = Some c → is_u8 c ∧ ¬ 48 ≤ c ≤ 57) → (length ds < fuel)%nat →
  width_loop fuel m a w = Ret (a + Z.of_nat (length ds), digits_value w ds).
Proof.
  induction ds as [|c ds IH]; intros fuel a w r Hc Hd Hw Hv Hr Hf; (destruct fuel as [|fuel]; [simpl in Hf; lia|]);
    cbn [width_loop].
  - assert (m a = match r with [] => 0 | c :: _ => c end) as ->.
    { destruct r as [|c r]; [by apply cstr_nil|]. by apply cstr_cons in Hc as (-> & _). }
    assert ((48 <=? as_char match r with [] => 0 | c :: _ => c end) && (as_char match r with [] => 0 | c :: _ => c end <=? 57) = false) as ->.
    { destruct r as [|c r]; [done|]. destruct (Hr c eq_refl) as [Hu Hn]. unfold is_u8 in Hu. unfold as_char.
      case_if; apply andb_false_iff; rewrite !Z.leb_gt; lia. }
    simpl. by rewrite Z.add_0_r.
  - apply cstr_cons in Hc as (-> & _ & Hc). apply Forall_cons in Hd as [Hcd Hd].
    change (digits_value w (c :: ds)) with (digits_value (w * 10 + (c - 48)) ds) in *.
    pose proof (digits_value_mono ds (w * 10 + (c - 48)) ltac:(lia) Hd).
    assert (as_char c = c) as -> by (unfold as_char; case_if; lia).
    rewrite !(proj2 (Z.leb_le _ _)) by lia. cbn [andb].
    assert (i32 (w * 10 + (c - 48)) = w * 10 + (c - 48)) as -> by wrap_lia.
    simpl in Hf. rewrite (IH _ _ _ r) by (done || lia). f_equal. f_equal. simpl. lia.
Qed.

Lemma conv_char_plain m buf size k :
  conv_ok m buf size k → is_u8 (conv_char k) ∧ ¬ 48 ≤ conv_char k ≤ 57 ∧ conv_char k ≠ 108 ∧ conv_char k ≠ 0.
Proof.
  destruct k; simpl; intros H; try (unfold is_u8; lia).
  1,2: case_if; unfold is_u8; lia.
  destruct H as [Hu Hc]. split; [done|].
  assert (∀ d, d ∈ 108 :: 0 :: seqZ 48 10 → c ≠ d) as Hd.
  { intros d Hd ->. apply Hc. vm_compute in Hd. vm_compute. set_solver. }
  split; [|split; apply Hd; set_solver]. intros Hr. apply (Hd c); [|done].
  do 2 right. apply elem_of_seqZ. lia.
Qed.

Lemma parse_flags_value m m' a d rest buf size fuel :
  cstr m (a + 1) ((if d_zero d then [48] else []) ++ d_width d ++ replicate (d_long d) 108 ++ conv_char (d_conv d) :: rest) →
  piece_ok m' buf size (Dir d) → (length (d_width d) < fuel)%nat →
  parse_flags fuel m (a + 1) =
    Ret (a + Z.of_nat (length (piece_fmt (Dir d))) - 1, d_zero d, digits_value 0 (d_width d), negb (d_long d =? 0)%nat).
Proof.
  destruct d as [zero ds long k]. simpl. intros Hc (Hds & Hv & Hz & Hlong & Hk) Hf.
  destruct (conv_char_plain m' buf size k Hk) as (Hu & Hnd & Hnl & _).
  set (tail := replicate long 108 ++ conv_char k :: rest) in *.
  assert (∀ c, head tail = Some c → is_u8 c ∧ ¬ 48 ≤ c ≤ 57) as Htail.
  { subst tail. destruct long; simpl; intros c [= <-]; [done|]. unfold is_u8. lia. }
  set (b := a + 1 + (if zero then 1 else 0)).
  assert (cstr m b (ds ++ tail)) as Hb.
  { subst b. destruct zero; [by apply cstr_cons in Hc as (_ & _ & ?)|]. by rewrite Z.add_0_r. }
  assert ((m (a + 1) =? 48) = zero) as Ez.
  { destruct zero; [apply cstr_cons in Hc as (-> & _); done|]. specialize (Hz eq_refl). apply Z.eqb_neq.
    destruct ds as [|c ds]; [|by apply cstr_cons in Hc as (-> & _); simpl in Hz; congruence].
    destruct tail as [|c tail'] eqn:E; [by destruct long|]. apply cstr_cons in Hc as (-> & _).
    destruct (Htail c eq_refl). lia. }
  unfold parse_flags. rewrite Ez.
  replace (if zero then a + 1 + 1 else a + 1) with b by (subst b; destruct zero; lia).
  rewrite (width_loop_value m ds fuel b 0 tail) by (done || lia). cbn [obind].
  assert (cstr m (b + Z.of_nat (length ds)) tail) as Ht.
  { clear -Hb. clearbody b. revert b Hb. induction ds as [|c ds IH]; intros b Hb; simpl; [by rewrite Z.add_0_r|].
    apply cstr_cons in Hb as (_ & _ & Hb). apply IH in Hb. by replace (b + Z.of_nat (S (length ds))) with (b + 1 + Z.of_nat (length ds)) by lia. }
  assert (a + Z.of_nat (S (length ((if zero then [48] else []) ++ ds ++ replicate long 108 ++ [conv_char k]))) - 1 =
          b + Z.of_nat (length ds) + Z.of_nat long) as ->.
  { rewrite !length_app, length_replicate. subst b. destruct zero; simpl; lia. }
  set (e := b + Z.of_nat (length ds)) in *. clearbody e. subst tail.
  destruct long as [|[|[|]]]; [..|lia]; simpl in Ht.
  - apply cstr_cons in Ht as (-> & _). rewrite (proj2 (Z.eqb_neq _ 108)) by done. simpl. by rewrite Z.add_0_r.
  - apply cstr_cons in Ht as (-> & _ & Ht). apply cstr_cons in Ht as (-> & _).
    by rewrite Z.eqb_refl, (proj2 (Z.eqb_neq (conv_char k) 108)).
  - apply cstr_cons in Ht as (-> & _ & Ht). by apply cstr_cons in Ht as (-> & _).
Qed.

Section printf_text.
  Context (buf size : Z) (Hsize : 0 ≤ size < 2 ^ 31) (m0 : Z → Z).
  Notation shows := (shows buf size m0).

Lemma signed_numeral_chars v : Forall is_u8 (signed_numeral v) ∧ (length (signed_numeral v) ≤ 65)%nat.
Proof.
  unfold signed_numeral. destruct (Z.ltb_spec v 0).
  - destruct (numeral_chars 10 64 ltac:(lia) (- v)) as [H1 H2]; [lia|]. split; [|simpl; lia].
    apply Forall_cons. split; [by unfold is_u8|done].
  - destruct (numeral_chars 10 64 ltac:(lia) v) as [H1 H2]; [lia|]. split; [done|lia].
Qed.

Lemma unsigned_bounds (l : bool) a : is_u64 (if l then u64 a else u32 a).
Proof. destruct l; [apply u64_range|]. wrap_lia. Qed.

Lemma convert_text fuel pos m fmt d t args :
  shows (pos, m) t → m fmt = conv_char (d_conv d) → conv_ok m0 buf size (d_conv d) →
  (piece_strings (Dir d) < fuel)%nat →
  ∃ r, convert fuel m buf size pos fmt (negb (d_long d =? 0)%nat) (d_zero d) (digits_value 0 (d_width d))
         (conv_args (d_conv d) ++ args) = Ret (r.1, r.2, args) ∧ shows r (t ++ dir_text d).
Proof using Hsize.
  destruct d as [zero ds long k]. unfold dir_text. cbn [d_conv d_long d_zero d_width]. cbv zeta.
  set (l := negb (long =? 0)%nat). set (w := digits_value 0 ds). clearbody l w. intros Hs Ec Hk Hf.
  assert (∀ r : Z * (Z → Z), (let '(q, m') := r in Ret (q, m', args)) = Ret (r.1, r.2, args)) as Hret by by intros [].
  pose proof (unsigned_bounds l) as Hul.
  unfold convert. rewrite Ec. destruct k as [p s| |a|i a|a|u a|a| |c]; simpl in Hk, Hf;
    cbn [conv_char conv_args next_arg obind app Z.eqb Pos.eqb orb].
  - destruct Hk as (Hp & Hc & Hu & Hd). rewrite (proj2 (Z.eqb_neq p 0)) by done.
    destruct (shows_string buf size Hsize m0 s fuel pos m t p Hs Hc Hu Hd Hf) as ([q m'] & E & Hr).
    exists (q, m'). simpl in E |- *. by rewrite E.
  - assert (Forall is_u8 [40; 110; 117; 108; 108; 41]) as Hu.
    { by repeat (apply Forall_cons_2; [by unfold is_u8|]). }
    pose proof (shows_text buf size Hsize m0 _ pos m t Hs Hu) as Hr.
    destruct (append_text _ _ _ _ _) as [q m']. by exists (q, m').
  - rewrite Hret. eexists. split; [done|]. apply shows_char; [done..|apply u8_range].
  - rewrite int_text_numeral by (destruct l; wrap_lia).
    destruct (signed_numeral_chars (if l then i64 a else i32 a)).
    destruct i; cbn [Z.eqb Pos.eqb orb]; rewrite Hret; eexists; (split; [done|]); by apply shows_padded.
  - rewrite uint_text_numeral, Hret by apply Hul. eexists. split; [done|].
    destruct (numeral_chars 10 64 ltac:(lia) (if l then u64 a else u32 a)) as [? ?]; [apply Hul|].
    apply shows_padded; try done. lia.
  - rewrite hex_text_numeral by apply Hul.
    destruct (numeral_chars 16 16 ltac:(lia) (if l then u64 a else u32 a)) as [? ?]; [apply Hul|].
    destruct u; cbn [Z.eqb Pos.eqb orb]; rewrite Hret; eexists; (split; [done|]); apply shows_padded; try done; try lia; by destruct zero.
  - rewrite hex_text_numeral by apply u64_range.
    destruct (numeral_chars 16 16 ltac:(lia) (u64 a)) as [? ?]; [apply u64_range|].
    pose proof (shows_text buf size Hsize m0 [48; 120] pos m t Hs) as Hpx.
    destruct (append_text m buf size pos _) as [q m']. rewrite Hret. eexists. split; [done|].
    change (48 :: 120 :: ?x) with ([48; 120] ++ x). rewrite app_assoc. apply shows_text; [done| |done].
    apply Hpx. by repeat (apply Forall_cons_2; [by unfold is_u8|]).
  - rewrite Hret. eexists. split; [done|]. by apply shows_char.
  - destruct Hk as [Hu Hc].
    assert (∀ x, x ∈ [115; 99; 100; 105; 117; 120; 88; 112; 37] → (c =? x) = false) as Hne.
    { intros x Hx. apply Z.eqb_neq. intros ->. apply Hc. vm_compute. clear -Hx. set_solver. }
    rewrite !Hne by set_solver. simpl.
    pose proof (shows_char buf size Hsize m0 pos m t 37 Hs) as Hpx.
    destruct (append_char_to_buffer m buf size pos 37) as [q m']. rewrite Hret. eexists. split; [done|].
    change [37; c] with ([37] ++ [c]). rewrite app_assoc. apply shows_char; [done| |done]. by apply Hpx.
Qed.

Lemma piece_fmt_last d : ∃ l, piece_fmt (Dir d) = l ++ [conv_char (d_conv d)].
Proof.
  exists (37 :: (if d_zero d then [48] else []) ++ d_width d ++ replicate (d_long d) 108).
  simpl. by rewrite <- !app_assoc.
Qed.

Lemma piece_fmt_second d : ∃ c l, piece_fmt (Dir d) = 37 :: c :: l.
Proof.
  destruct d as [[] [|c ds] [|n] k]; by eexists _, _.
Qed.

Lemma format_loop_text ps : ∀ fuel pos m fmt t,
  shows (pos, m) t → cstr m0 fmt (format_of ps) →
  fmt + Z.of_nat (length (format_of ps)) < buf ∨ buf + size ≤ fmt →
  Forall (piece_ok m0 buf size) ps →
  (length (format_of ps) + list_sum (piece_strings <$> ps) < fuel)%nat →
  ∃ r, format_loop fuel m buf size pos fmt (args_of ps) = Ret r ∧ shows r (t ++ text_of ps).
Proof using Hsize.
  induction ps as [|x ps IH]; intros fuel pos m fmt t Hs Hc Hd Hok Hf;
    (destruct fuel as [|fuel]; [simpl in Hf; lia|]); cbn [format_loop];
    pose proof (shows_outside buf size Hsize m0 _ _ _ _ Hs Hc Hd) as Hcm; cbn [snd] in Hcm.
  { rewrite (cstr_nil _ _ Hcm). simpl. exists (pos, m). by rewrite app_nil_r. }
  apply Forall_cons in Hok as [Hx Hok].
  unfold format_of, args_of, text_of in *. rewrite !bind_cons in *. rewrite length_app in Hd, Hf. 
  change (list_sum (piece_strings <$> x :: ps)) with (piece_strings x + list_sum (piece_strings <$> ps))%nat in Hf.
  assert (∀ m l r, cstr m fmt (l ++ r) → cstr m (fmt + Z.of_nat (length l)) r) as Hskip.
  { clear. intros m l. revert fmt. induction l as [|c l IH]; intros fmt r Hc; simpl; [by rewrite Z.add_0_r|].
    apply cstr_cons in Hc as (_ & _ & Hc). apply IH in Hc. by replace (fmt + Z.of_nat (S (length l))) with (fmt + 1 + Z.of_nat (length l)) by lia. }
  apply Hskip in Hc. rewrite app_assoc. destruct x as [c|d].
  - destruct Hx as (Hu & Hc0 & Hc37). apply cstr_cons in Hcm as (-> & _). simpl in Hd, Hf, Hc |- *.
    rewrite !(proj2 (Z.eqb_neq c _)) by done. pose proof (shows_char buf size Hsize m0 pos m t c Hs Hu) as H.
    destruct (append_char_to_buffer _ _ _ _ _) as [q m']. apply IH; try done; lia.
  - pose proof Hx as (_ & _ & _ & _ & Hk).
    pose proof Hcm as (Efmt & _ & Hcm1)%cstr_cons. rewrite Efmt. cbn [Z.eqb Pos.eqb].
    assert (m (fmt + Z.of_nat (length (piece_fmt (Dir d))) - 1) = conv_char (d_conv d)) as Econv.
    { destruct (piece_fmt_last d) as [l El]. rewrite El, <- app_assoc in Hcm. rewrite El, length_app.
      rewrite <- (cs_chars _ _ _ Hcm (length l) (conv_char (d_conv d))); [f_equal; simpl; lia|].
      by apply list_lookup_middle. }
    assert (m (fmt + 1) ≠ 0) as Hnz.
    { destruct (piece_fmt_second d) as (c & l & El). rewrite El in Hcm.
      apply cstr_cons in Hcm as (_ & _ & Hcm). by apply cstr_cons in Hcm as (-> & ? & _). }
    change (cstr m (fmt + 1) (((if d_zero d then [48] else []) ++ d_width d ++ replicate (d_long d) 108 ++
      [conv_char (d_conv d)]) ++ ps ≫= piece_fmt)) in Hcm1.
    rewrite (proj2 (Z.eqb_neq _ 0)) by done.
    assert (length (d_width d) < S fuel)%nat as Hwf.
    { cbn [piece_fmt] in Hf. simpl in Hf. rewrite !length_app in Hf. lia. }
    rewrite (parse_flags_value m m0 fmt d (ps ≫= piece_fmt) buf size (S fuel)); [|by rewrite <- !app_assoc in Hcm1|done..].
    cbn [obind].
    destruct (convert_text (S fuel) pos m (fmt + Z.of_nat (length (piece_fmt (Dir d))) - 1) d t (ps ≫= piece_args))
      as ([q m'] & E & Hr); try done; [lia|]. cbn [piece_args]. rewrite E. cbn [obind].
    replace (fmt + Z.of_nat (length (piece_fmt (Dir d))) - 1 + 1) with (fmt + Z.of_nat (length (piece_fmt (Dir d)))) by lia.
    assert (1 ≤ length (piece_fmt (Dir d)))%nat by (simpl; lia).
    apply IH; try done; lia.
Qed.
End printf_text.

(** C40. [vsnprintf]/[snprintf] print what the format means: for every format
    made of literal characters and complete directives, with the arguments
    the directives take and its strings outside the buffer, the call returns,
    the buffer begins with the text of the format cut to [size - 1]
    characters, the next byte is the terminator, the number of characters
    stored (not of those that would have been) is returned, and no byte
    outside the buffer changes; a buffer of no bytes stays untouched. *)
Theorem snprintf_correct fuel m buf size fmt ps :
  0 ≤ size < 2 ^ 31 → cstr m fmt (format_of ps) →
  fmt + Z.of_nat (length (format_of ps)) < buf ∨ buf + size ≤ fmt →
  Forall (piece_ok m buf size) ps →
  (length (format_of ps) + list_sum (piece_strings <$> ps) < fuel)%nat →
  let stored := Z.min (Z.of_nat (length (text_of ps))) (Z.max 0 (size - 1)) in
  ∃ m', snprintf fuel m buf size fmt (args_of ps) = Ret (stored, m') ∧
    (∀ x, ¬ (buf ≤ x < buf + size) → m' x = m x) ∧
    (∀ i v, text_of ps !! i = Some v → Z.of_nat i < stored → m' (buf + Z.of_nat i) = v) ∧
    (0 < size → m' (buf + stored) = 0).
Proof.
  intros Hs Hc Hd Hok Hf stored.
  destruct (format_loop_text buf size Hs m ps fuel 0 m fmt [] ltac:(split; [simpl; unfold cap; lia|by split]) Hc Hd Hok Hf)
    as ([pos m1] & E & Ep & Hout & Hin). cbn [fst snd] in *.
  assert (pos = stored) as -> by (rewrite Ep; unfold cap; simpl; lia). unfold cap in *. simpl in Ep.
  assert (0 ≤ stored ≤ Z.max 0 (size - 1)) as Hst by (subst stored; lia).
  unfold snprintf, vsnprintf_internal. rewrite E. cbn [obind]. assert (i32 stored = stored) as -> by wrap_lia.
  eexists. split; [done|]. destruct (Z.ltb_spec 0 size).
  - rewrite (proj2 (Z.ltb_lt stored size)) by lia. split_and!.
    + intros x Hx. rewrite store8_at by (by unfold is_u8). case_if; [lia|]. apply Hout. lia.
    + intros i v Hi Hlt. rewrite store8_at by (by unfold is_u8). case_if; [lia|]. apply Hin; [done|lia].
    + intros _. rewrite store8_at by (by unfold is_u8). by rewrite Z.eqb_refl.
  - split_and!; [intros x Hx; apply Hout; lia|intros; lia|lia].
Qed.

(** ** An instance *)

(** "%03x:%s" with 10 and "ok", in six bytes: "00A:o" and the terminator. *)
Lemma snprintf_correct_witness : ∃ m',
  snprintf 20 (put_bytes (page (txt "%03x:%s" ++ [0])) 120 (txt "ok" ++ [0])) 1000 6 100 [10; 120] = Ret (5, m') ∧
  (λ i, m' (1000 + i)) <$> [0; 1; 2; 3; 4; 5] = txt "00A:o" ++ [0] ∧ m' 1006 = 0.
Proof.
  destruct (snprintf_correct 20 (put_bytes (page (txt "%03x:%s" ++ [0])) 120 (txt "ok" ++ [0])) 1000 6 100
    [Dir (mk_dir true [51] 0 (CHex false 10)); Lit 58; Dir (mk_dir false [] 0 (CStr 120 (txt "ok")))])
    as (m' & E & Hout & Hin & H0).
  - lia.
  - by apply page_cstr; vm_compute.
  - left. vm_compute. reflexivity.
  - repeat apply Forall_cons_2.
    + split_and!; [by apply Forall_singleton|reflexivity|done|simpl; lia|done].
    + split_and!; [split; done|done|done].
    + split_and!; [by apply Forall_nil|reflexivity|done|simpl; lia|].
      split_and!; [done|by apply page_cstr; vm_compute| |left; vm_compute; reflexivity].
      by repeat (apply Forall_cons_2; [by unfold is_u8|]).
    + done.
  - vm_compute. lia.
  - exists m'. split; [exact E|]. split; [|rewrite Hout by lia; reflexivity].
    assert (∀ i v, txt "00A:o" !! i = Some v → m' (1000 + Z.of_nat i) = v) as Hv.
    { intros i v Hi. apply Hin;
        [|apply lookup_lt_Some in Hi; change (i < 5)%nat in Hi; change (Z.of_nat i < 5); lia].
      change (text_of _) with (txt "00A:o" ++ txt "k"). by apply lookup_app_l_Some. }
    cbn [fmap list_fmap].
    rewrite (Hv 0%nat _ eq_refl : m' (1000 + 0) = _), (Hv 1%nat _ eq_refl : m' (1000 + 1) = _),
      (Hv 2%nat _ eq_refl : m' (1000 + 2) = _), (Hv 3%nat _ eq_refl : m' (1000 + 3) = _),
      (Hv 4%nat _ eq_refl : m' (1000 + 4) = _), (H0 ltac:(lia) : m' (1000 + 5) = 0). reflexivity.
Defined.
