(* ===== verification/Net.v ===== *)
(** * Ethernet, ARP, IPv4 and UDP ([src/impl/net], [src/intf/net/net.h])

    Frames are lists of bytes; header structs are packed, so a 16- or 32-bit
    field is its little-endian bytes (x86-64) and the code's [net_htons] and
    [net_htonl] put it into network order. The state [net] holds the static
    variables of ethernet.c, arp.c, ip.c and udp.c, the frames handed to the
    network driver and the calls made to UDP handlers. The driver's poll
    function and the number of iterations a timed wait makes come from
    outside and are parameters. *)

From S2P Require Import Prelude.

Open Scope c_scope.

(** ** Byte order ([net.h]) *)

Definition net_htons (v : Z) : Z := u16 (Z.lor (Z.shiftl v 8) (Z.shiftr v 8)).
Definition net_htonl (v : Z) : Z :=
  u32 (Z.lor (Z.lor (Z.lor (Z.shiftl (Z.land v 255) 24) (Z.shiftl (Z.land v 65280) 8))
    (Z.shiftr (Z.land v 16711680) 8)) (Z.shiftr (Z.land v 4278190080) 24)).
Definition net_ntohs := net_htons.
Definition net_ntohl := net_htonl.

Definition ETH_MTU : Z := 1500.
Definition ETHERTYPE_IPV4 : Z := 2048.
Definition ETHERTYPE_ARP : Z := 2054.
Definition ARP_HTYPE_ETHERNET : Z := 1.
Definition ARP_OP_REQUEST : Z := 1.
Definition ARP_OP_REPLY : Z := 2.
Definition IP_PROTO_TCP : Z := 6.
Definition IP_PROTO_UDP : Z := 17.

(** Fields in memory: little-endian bytes. *)
Definition le16 (v : Z) : list Z := [v mod 256; v / 256 mod 256].
Definition le32 (v : Z) : list Z := [v mod 256; v / 256 mod 256; v / 65536 mod 256; v / 16777216 mod 256].
Definition byte (l : list Z) (i : nat) : Z := default 0 (l !! i).
Definition rd16 (l : list Z) (i : nat) : Z := byte l i + 256 * byte l (i + 1).
Definition rd32 (l : list Z) (i : nat) : Z :=
  byte l i + 256 * byte l (i + 1) + 65536 * byte l (i + 2) + 16777216 * byte l (i + 3).

(** ** Internet checksum ([net_checksum.c]) *)

Fixpoint net_checksum_add (data : list Z) (sum : Z) : Z :=
  match data with
  | a :: b :: r => net_checksum_add r (u32 (sum + Z.lor (Z.shiftl a 8) b))
  | [a] => u32 (sum + Z.shiftl a 8)
  | [] => sum
  end.

(** [while (sum >> 16) ...]: three rounds always suffice for 32 bits. *)
Fixpoint fold_loop (fuel : nat) (sum : Z) : Z :=
  match fuel with
  | O => sum
  | S fuel' =>
      if Z.shiftr sum 16 =? 0 then sum
      else fold_loop fuel' (u32 (Z.land sum 65535 + Z.shiftr sum 16))
  end.
Definition net_checksum_fold (sum : Z) : Z := u16 (Z.lnot (fold_loop 3 sum)).

Definition net_ip_checksum (hdr : list Z) : Z :=
  net_checksum_fold (net_checksum_add (take (Z.to_nat (Z.land (byte hdr 0) 15 * 4)) hdr) 0).

Definition pseudo_header_sum (src_ip dst_ip protocol len : Z) : Z :=
  let sum := Z.land (Z.shiftr src_ip 16) 65535 in
  let sum := u32 (sum + Z.land src_ip 65535) in
  let sum := u32 (sum + Z.land (Z.shiftr dst_ip 16) 65535) in
  let sum := u32 (sum + Z.land dst_ip 65535) in
  let sum := u32 (sum + protocol) in
  u32 (sum + len).

Definition net_udp_checksum (src_ip dst_ip : Z) (udp : list Z) (udp_len : Z) : Z :=
  net_checksum_fold (net_checksum_add udp (pseudo_header_sum src_ip dst_ip IP_PROTO_UDP udp_len)).
Definition net_tcp_checksum (src_ip dst_ip : Z) (seg : list Z) (seg_len : Z) : Z :=
  net_checksum_fold (net_checksum_add seg (pseudo_header_sum src_ip dst_ip IP_PROTO_TCP seg_len)).

(** ** State *)

Record arp_entry := mk_arp { ae_used : bool; ae_ip : Z; ae_mac : list Z }.
Record binding := mk_binding { ub_used : bool; ub_port : Z; ub_handler : Z }.

(** A call of a UDP handler: which one, source, source port, payload. *)
Record udp_call := mk_call { uc_handler : Z; uc_src : Z; uc_port : Z; uc_data : list Z }.

Record net := mk_net {
  local_mac : list Z;
  local_ip : Z; netmask : Z; gateway : Z; dns_ip : Z;
  ip_id : Z;
  cache : list arp_entry;
  bindings : list binding;
  sent : list (list Z);
  calls : list udp_call
}.

Definition set_cache (c : list arp_entry) (s : net) : net :=
  mk_net (local_mac s) (local_ip s) (netmask s) (gateway s) (dns_ip s) (ip_id s) c
    (bindings s) (sent s) (calls s).
Definition set_bindings (b : list binding) (s : net) : net :=
  mk_net (local_mac s) (local_ip s) (netmask s) (gateway s) (dns_ip s) (ip_id s) (cache s)
    b (sent s) (calls s).
Definition set_sent (l : list (list Z)) (s : net) : net :=
  mk_net (local_mac s) (local_ip s) (netmask s) (gateway s) (dns_ip s) (ip_id s) (cache s)
    (bindings s) l (calls s).
Definition set_calls (l : list udp_call) (s : net) : net :=
  mk_net (local_mac s) (local_ip s) (netmask s) (gateway s) (dns_ip s) (ip_id s) (cache s)
    (bindings s) (sent s) l.
Definition set_ip_id (v : Z) (s : net) : net :=
  mk_net (local_mac s) (local_ip s) (netmask s) (gateway s) (dns_ip s) v (cache s)
    (bindings s) (sent s) (calls s).

(** ** Ethernet: transmit *)

Definition network_manager_send (frame : list Z) (s : net) : net := set_sent (sent s ++ [frame]) s.

Definition eth_send (dst_mac : list Z) (ethertype : Z) (payload : list Z) (s : net) : net :=
  let payload := take (Z.to_nat ETH_MTU) payload in
  network_manager_send
    (take 6 dst_mac ++ take 6 (local_mac s) ++ le16 (net_htons ethertype) ++ payload) s.

(** ** ARP *)

Definition ARP_CACHE_SIZE : nat := 16.
Definition BROADCAST_MAC : list Z := replicate 6 255.
Definition arp_empty : arp_entry := mk_arp false 0 (replicate 6 0).
Definition arp_init (s : net) : net := set_cache (replicate ARP_CACHE_SIZE arp_empty) s.

(** Index of the first entry that satisfies [p]: the [for] loops of the file. *)
Fixpoint first_index {A : Type} (p : A → bool) (l : list A) : option nat :=
  match l with
  | [] => None
  | x :: r => if p x then Some 0%nat else S <$> first_index p r
  end.

Definition arp_match (ip : Z) (e : arp_entry) : bool := ae_used e && (ae_ip e =? ip).

Definition arp_cache_insert (ip : Z) (mac : list Z) (s : net) : net :=
  let e := mk_arp true ip (take 6 mac) in
  match first_index (arp_match ip) (cache s) with
  | Some i => set_cache (<[i := e]> (cache s)) s
  | None =>
      match first_index (λ e, negb (ae_used e)) (cache s) with
      | Some i => set_cache (<[i := e]> (cache s)) s
      | None => set_cache (<[0%nat := e]> (cache s)) s
      end
  end.

Definition arp_cache_lookup (ip : Z) (s : net) : option (list Z) :=
  i ← first_index (arp_match ip) (cache s); ae_mac <$> cache s !! i.

Definition arp_packet (oper : Z) (sender_mac : list Z) (sender_ip : Z) (target_mac : list Z)
    (target_ip_field : list Z) : list Z :=
  le16 (net_htons ARP_HTYPE_ETHERNET) ++ le16 (net_htons ETHERTYPE_IPV4) ++ [6; 4] ++
  le16 (net_htons oper) ++ take 6 sender_mac ++ le32 (net_htonl sender_ip) ++
  take 6 target_mac ++ target_ip_field.

Definition arp_send_request (target_ip : Z) (s : net) : net :=
  eth_send BROADCAST_MAC ETHERTYPE_ARP
    (arp_packet ARP_OP_REQUEST (local_mac s) (local_ip s) (replicate 6 0)
       (le32 (net_htonl target_ip))) s.

Definition arp_handle_packet (pkt : list Z) (s : net) : net :=
  let oper := net_ntohs (rd16 pkt 6) in
  let sender_mac := take 6 (drop 8 pkt) in
  let sender_ip := net_ntohl (rd32 pkt 14) in
  let s := arp_cache_insert sender_ip sender_mac s in
  if (oper =? ARP_OP_REQUEST) && (net_ntohl (rd32 pkt 24) =? local_ip s) then
    eth_send sender_mac ETHERTYPE_ARP
      (arp_packet ARP_OP_REPLY (local_mac s) (local_ip s) sender_mac (le32 (rd32 pkt 14))) s
  else s.

(** ** IP *)

Definition ip_init (s : net) : net :=
  mk_net (local_mac s) 0 0 0 0 (ip_id s) (cache s) (bindings s) (sent s) (calls s).
Definition ip_configure (ip mask gw : Z) (s : net) : net :=
  mk_net (local_mac s) ip mask gw (dns_ip s) (ip_id s) (cache s) (bindings s) (sent s) (calls s).
Definition ip_set_dns (ip : Z) (s : net) : net :=
  mk_net (local_mac s) (local_ip s) (netmask s) (gateway s) ip (ip_id s) (cache s)
    (bindings s) (sent s) (calls s).
Definition ip_is_configured (s : net) : bool := negb (local_ip s =? 0).

(** [ip_parse] on the characters of the string. *)
Fixpoint ip_parse_loop (l : list Z) (result octet : Z) : Z * Z :=
  match l with
  | [] => (result, octet)
  | c :: r =>
      if (48 <=? c) && (c <=? 57) then ip_parse_loop r result (u32 (octet * 10 + (c - 48)))
      else if c =? 46 then
        ip_parse_loop r (u32 (Z.lor (Z.shiftl result 8) (Z.land octet 255))) 0
      else ip_parse_loop r result octet
  end.
Definition ip_parse (l : list Z) : Z :=
  let '(result, octet) := ip_parse_loop l 0 0 in
  u32 (Z.lor (Z.shiftl result 8) (Z.land octet 255)).

Definition BROADCAST_IP : Z := 4294967295.

Definition ip_header (total_len id protocol checksum src dst : Z) : list Z :=
  [69; 0] ++ le16 (net_htons total_len) ++ le16 (net_htons id) ++ [0; 0] ++
  [64; protocol] ++ le16 checksum ++ le32 (net_htonl src) ++ le32 (net_htonl dst).

Section stack.
  (** [network_manager_poll] hands received frames to the stack; [iters t] is
      how often a wait of [t] milliseconds goes round its loop. *)
  Context (poll : net → net) (iters : Z → nat).

Fixpoint arp_wait (k : nat) (target_ip : Z) (s : net) : option (list Z) * net :=
  match k with
  | O => (None, s)
  | S k' =>
      let s := poll s in
      match arp_cache_lookup target_ip s with
      | Some mac => (Some mac, s)
      | None => arp_wait k' target_ip s
      end
  end.

Definition arp_resolve (target_ip timeout_ms : Z) (s : net) : option (list Z) * net :=
  match arp_cache_lookup target_ip s with
  | Some mac => (Some mac, s)
  | None => arp_wait (iters timeout_ms) target_ip (arp_send_request target_ip s)
  end.

(** Copying the payload past the end of the static packet buffer is undefined. *)
Definition ip_send (dst_ip protocol : Z) (payload : list Z) (s : net) : outcome (bool * net) :=
  let broadcast := dst_ip =? BROADCAST_IP in
  let on_link := broadcast || (Z.land dst_ip (netmask s) =? Z.land (local_ip s) (netmask s)) in
  let next_hop := if on_link then dst_ip else gateway s in
  let '(mac, s) := if broadcast then (Some BROADCAST_MAC, s) else arp_resolve next_hop 1000 s in
  match mac with
  | None => Ret (false, s)
  | Some dst_mac =>
      let len := Z.of_nat (length payload) in
      let total_len := u16 (20 + len) in
      if ETH_MTU <? total_len then Ret (false, s)
      else
        let hdr := ip_header total_len (ip_id s) protocol 0 (local_ip s) dst_ip in
        let hdr := ip_header total_len (ip_id s) protocol (net_htons (net_ip_checksum hdr))
                     (local_ip s) dst_ip in
        let s := set_ip_id (u16 (ip_id s + 1)) s in
        if ETH_MTU <? 20 + len then Undef
        else Ret (true, eth_send dst_mac ETHERTYPE_IPV4 (take (Z.to_nat total_len) (hdr ++ payload)) s)
  end.

(** ** UDP *)

Definition UDP_MAX_HANDLERS : nat := 8.
Definition udp_empty : binding := mk_binding false 0 0.
Definition udp_init (s : net) : net := set_bindings (replicate UDP_MAX_HANDLERS udp_empty) s.

Definition udp_match (port : Z) (b : binding) : bool := ub_used b && (ub_port b =? port).

Definition udp_register_handler (port handler : Z) (s : net) : bool * net :=
  let e := mk_binding true port handler in
  match first_index (udp_match port) (bindings s) with
  | Some i => (true, set_bindings (<[i := e]> (bindings s)) s)
  | None =>
      match first_index (λ b, negb (ub_used b)) (bindings s) with
      | Some i => (true, set_bindings (<[i := e]> (bindings s)) s)
      | None => (false, s)
      end
  end.

Definition udp_unregister_handler (port : Z) (s : net) : net :=
  set_bindings ((λ b, if udp_match port b then mk_binding false (ub_port b) (ub_handler b) else b)
                  <$> bindings s) s.

Definition udp_header (src dst total checksum : Z) : list Z :=
  le16 (net_htons src) ++ le16 (net_htons dst) ++ le16 (net_htons total) ++ le16 checksum.

Definition udp_send (dst_ip src_port dst_port : Z) (payload : list Z) (s : net) :
    outcome (bool * net) :=
  let len := Z.of_nat (length payload) in
  let total := u16 (8 + len) in
  if ETH_MTU <? total then Ret (false, s)
  else if ETH_MTU <? 8 + len then Undef
  else
    let dgram := udp_header src_port dst_port total 0 ++ payload in
    let sum := net_htons (net_udp_checksum (local_ip s) dst_ip dgram total) in
    let sum := if sum =? 0 then 65535 else sum in
    ip_send dst_ip IP_PROTO_UDP (udp_header src_port dst_port total sum ++ payload) s.

Definition udp_handle_packet (src_ip : Z) (data : list Z) (s : net) : net :=
  let len := Z.of_nat (length data) in
  if len <? 8 then s
  else
    let dst_port := net_ntohs (rd16 data 2) in
    let src_port := net_ntohs (rd16 data 0) in
    let udp_len := net_ntohs (rd16 data 4) in
    let udp_len := if len <? udp_len then len else udp_len in
    let payload_len := if 8 <? udp_len then udp_len - 8 else 0 in
    match first_index (λ b, udp_match dst_port b && negb (ub_handler b =? 0)) (bindings s) with
    | Some i =>
        set_calls (calls s ++ [mk_call (ub_handler (nth i (bindings s) udp_empty)) src_ip src_port
                     (take (Z.to_nat payload_len) (drop 8 data))]) s
    | None => s
    end.

(** ** Receive path. What [ip_handle_packet] does with a packet: *)
Inductive upcall :=
| Drop
| ToUdp (src_ip : Z) (payload : list Z) (payload_len : Z)
| ToTcp (src_ip : Z) (payload : list Z) (payload_len : Z).

(** [payload] starts at the transport header and runs to the end of the frame;
    [payload_len] is the length the code passes on. *)
Definition ip_demux (pkt : list Z) (s : net) : upcall :=
  let len := Z.of_nat (length pkt) in
  if len <? 20 then Drop
  else if negb (Z.shiftr (byte pkt 0) 4 =? 4) then Drop
  else
    let ihl := u8 (Z.land (byte pkt 0) 15 * 4) in
    if (ihl <? 20) || (len <? ihl) then Drop
    else
      let dst_ip := net_ntohl (rd32 pkt 16) in
      if negb (local_ip s =? 0) && negb (dst_ip =? local_ip s) && negb (dst_ip =? BROADCAST_IP)
      then Drop
      else
        let total_len := net_ntohs (rd16 pkt 2) in
        if len <? total_len then Drop
        else
          let payload_len := u16 (total_len - ihl) in
          let src_ip := net_ntohl (rd32 pkt 12) in
          let payload := drop (Z.to_nat ihl) pkt in
          if byte pkt 9 =? IP_PROTO_UDP then ToUdp src_ip payload payload_len
          else if byte pkt 9 =? IP_PROTO_TCP then ToTcp src_ip payload payload_len
          else Drop.

(** A length beyond the bytes received makes the handler read past the frame. *)
Definition ip_handle_packet (tcp_handle_packet : Z → list Z → net → net) (pkt : list Z) (s : net) :
    outcome net :=
  match ip_demux pkt s with
  | Drop => Ret s
  | ToUdp src p n =>
      if Z.of_nat (length p) <? n then Undef
      else Ret (udp_handle_packet src (take (Z.to_nat n) p) s)
  | ToTcp src p n =>
      if Z.of_nat (length p) <? n then Undef
      else Ret (tcp_handle_packet src (take (Z.to_nat n) p) s)
  end.

Definition eth_learn_sender (src_mac pkt : list Z) (s : net) : net :=
  if Z.of_nat (length pkt) <? 20 then s
  else if negb (ip_is_configured s) then s
  else
    let src_ip := net_ntohl (rd32 pkt 12) in
    if (src_ip =? 0) || (src_ip =? local_ip s) || (src_ip =? BROADCAST_IP) then s
    else if (netmask s =? 0) || negb (Z.land src_ip (netmask s) =? Z.land (local_ip s) (netmask s))
    then s
    else arp_cache_insert src_ip src_mac s.

Definition eth_handle_frame (tcp_handle_packet : Z → list Z → net → net) (frame : list Z)
    (s : net) : outcome net :=
  if Z.of_nat (length frame) <? 14 then Ret s
  else
    let ethertype := net_ntohs (rd16 frame 12) in
    let payload := drop 14 frame in
    if ethertype =? ETHERTYPE_ARP then
      if 28 <=? Z.of_nat (length payload) then Ret (arp_handle_packet payload s) else Ret s
    else if ethertype =? ETHERTYPE_IPV4 then
      let s := eth_learn_sender (take 6 (drop 6 frame)) payload s in
      ip_handle_packet tcp_handle_packet payload s
    else Ret s.
End stack.

(** ** Byte order *)

Lemma land_field v k : 0 ≤ k → 0 ≤ v → Z.land v (255 * 2 ^ k) = (v / 2 ^ k) mod 256 * 2 ^ k.
Proof.
  intros Hk Hv. rewrite <- !Z.shiftl_mul_pow2, <- Z.shiftr_div_pow2 by lia.
  change 256 with (2 ^ 8). rewrite <- Z.land_ones by lia. change (Z.ones 8) with 255.
  apply Z.bits_inj'. intros n Hn. rewrite Z.land_spec.
  destruct (Z.ltb_spec n k); [by rewrite !Z.shiftl_spec_low, andb_false_r by lia|].
  rewrite !Z.shiftl_spec_high, Z.land_spec, Z.shiftr_spec by lia. by replace (n - k + k) with n by lia.
Qed.

Lemma lor_add_small a b k : 0 ≤ k → 0 ≤ b < 2 ^ k → Z.lor (a * 2 ^ k) b = a * 2 ^ k + b.
Proof. intros. rewrite <- Z.shiftl_mul_pow2 by lia. rewrite shiftl_lor_add by lia. by rewrite Z.shiftl_mul_pow2 by lia. Qed.

Lemma net_htons_eq v : is_u16 v → net_htons v = v mod 256 * 256 + v / 256.
Proof.
  intros Hv. unfold net_htons, is_u16 in *. rewrite shiftl_lor_add, Z.shiftr_div_pow2.
  - change (2 ^ 8) with 256. wrap_lia.
  - lia.
  - lia.
  - rewrite Z.shiftr_div_pow2 by lia. change (2 ^ 8) with 256. Z.div_mod_to_equations. lia.
Qed.

Lemma net_htonl_eq v :
  is_u32 v → net_htonl v = v mod 256 * 16777216 + v / 256 mod 256 * 65536 +
                           v / 65536 mod 256 * 256 + v / 16777216.
Proof.
  intros Hv. unfold net_htonl, is_u32 in *.
  change 65280 with (255 * 2 ^ 8). change 16711680 with (255 * 2 ^ 16). change 4278190080 with (255 * 2 ^ 24).
  replace (Z.land v 255) with (v mod 256) by (change 255 with (2 ^ 8 - 1); by rewrite land_ones_mod by lia).
  rewrite !land_field by lia. rewrite !Z.shiftl_mul_pow2, !Z.shiftr_div_pow2 by lia.
  replace (v / 2 ^ 16 mod 256 * 2 ^ 16 / 2 ^ 8) with (v / 65536 mod 256 * 2 ^ 8)
    by (change (2 ^ 16) with (2 ^ 8 * 2 ^ 8); rewrite Z.mul_assoc, Z.div_mul by lia; done).
  rewrite Z.div_mul by lia.
  replace (v / 2 ^ 8 mod 256 * 2 ^ 8 * 2 ^ 8) with (v / 256 mod 256 * 2 ^ 16) by (change (2 ^ 8) with 256; lia).
  change (2 ^ 24) with 16777216 at 2.
  set (a := v / 16777216 mod 256). set (b := v / 65536 mod 256). set (c := v / 256 mod 256). set (d := v mod 256).
  assert (0 ≤ a < 256 ∧ 0 ≤ b < 256 ∧ 0 ≤ c < 256 ∧ 0 ≤ d < 256) as (Ha & Hb & Hc & Hd).
  { subst a b c d. split_and!; apply Z.mod_pos_bound; lia. }
  replace (v / 16777216) with a by (subst a; rewrite Z.mod_small; [done|]; Z.div_mod_to_equations; lia).
  rewrite (lor_add_small d (c * 2 ^ 16) 24) by lia.
  replace (d * 2 ^ 24 + c * 2 ^ 16) with ((d * 256 + c) * 2 ^ 16) by lia.
  rewrite (lor_add_small _ (b * 2 ^ 8) 16) by lia.
  replace ((d * 256 + c) * 2 ^ 16 + b * 2 ^ 8) with ((d * 65536 + c * 256 + b) * 2 ^ 8) by lia.
  rewrite (lor_add_small _ a 8) by lia. rewrite u32_small by (unfold is_u32; lia). lia.
Qed.

Lemma net_htons_range v : is_u16 (net_htons v).
Proof. apply u16_range. Qed.
Lemma net_htonl_range v : is_u32 (net_htonl v).
Proof. apply u32_range. Qed.

(** Big-endian bytes. *)
Definition be16 (v : Z) : list Z := [v / 256; v mod 256].
Definition be32 (v : Z) : list Z := [v / 16777216; v / 65536 mod 256; v / 256 mod 256; v mod 256].

Lemma le16_htons v : is_u16 v → le16 (net_htons v) = be16 v.
Proof.
  intros Hv. rewrite net_htons_eq by done. unfold le16, be16, is_u16 in *.
  f_equal; [|f_equal]; Z.div_mod_to_equations; lia.
Qed.

Lemma le32_htonl v : is_u32 v → le32 (net_htonl v) = be32 v.
Proof.
  intros Hv. rewrite net_htonl_eq by done. unfold le32, be32, is_u32 in *.
  repeat (apply (f_equal2 cons)); try done; Z.div_mod_to_equations; lia.
Qed.

Lemma htons_htons v : is_u16 v → net_htons (net_htons v) = v.
Proof.
  intros Hv. rewrite (net_htons_eq (net_htons v)) by apply net_htons_range. rewrite net_htons_eq by done.
  unfold is_u16 in Hv. Z.div_mod_to_equations. lia.
Qed.

Lemma u32_bytes v : is_u32 v → ∃ a b c d, is_u8 a ∧ is_u8 b ∧ is_u8 c ∧ is_u8 d ∧
  v = a * 16777216 + b * 65536 + c * 256 + d.
Proof.
  intros Hv. exists (v / 16777216), (v / 65536 mod 256), (v / 256 mod 256), (v mod 256).
  unfold is_u8, is_u32 in *. split_and!; Z.div_mod_to_equations; lia.
Qed.

Lemma bytes_fields a b c d : is_u8 a → is_u8 b → is_u8 c → is_u8 d →
  let v := a * 16777216 + b * 65536 + c * 256 + d in
  v mod 256 = d ∧ v / 256 mod 256 = c ∧ v / 65536 mod 256 = b ∧ v / 16777216 = a ∧ is_u32 v.
Proof.
  unfold is_u8, is_u32. intros. split_and!; try lia; Z.div_mod_to_equations; lia.
Qed.

Lemma htonl_bytes a b c d : is_u8 a → is_u8 b → is_u8 c → is_u8 d →
  net_htonl (a * 16777216 + b * 65536 + c * 256 + d) = d * 16777216 + c * 65536 + b * 256 + a.
Proof.
  intros Ha Hb Hc Hd. destruct (bytes_fields a b c d Ha Hb Hc Hd) as (E1 & E2 & E3 & E4 & Hu).
  rewrite net_htonl_eq by done. by rewrite E1, E2, E3, E4.
Qed.

Lemma htonl_htonl v : is_u32 v → net_htonl (net_htonl v) = v.
Proof.
  intros (a & b & c & d & Ha & Hb & Hc & Hd & ->)%u32_bytes. by rewrite !htonl_bytes.
Qed.

Lemma le16_val v : is_u16 v → v mod 256 + 256 * (v / 256 mod 256) = v.
Proof. unfold is_u16. intros. Z.div_mod_to_equations. lia. Qed.

Lemma le32_val v : is_u32 v →
  v mod 256 + 256 * (v / 256 mod 256) + 65536 * (v / 65536 mod 256) + 16777216 * (v / 16777216 mod 256) = v.
Proof. unfold is_u32. intros. Z.div_mod_to_equations. lia. Qed.

(** ** Checksums *)

(** The sum of the 16-bit words of [l], zero-padded, without wrap-around. *)
Fixpoint wsum (l : list Z) : Z :=
  match l with
  | a :: b :: r => a * 256 + b + wsum r
  | [a] => a * 256
  | [] => 0
  end.

Lemma pair_ind (P : list Z → Prop) :
  P [] → (∀ a, P [a]) → (∀ a b r, P r → P (a :: b :: r)) → ∀ l, P l.
Proof.
  intros H0 H1 H2. cut (∀ l, P l ∧ ∀ a, P (a :: l)); [intros H l; apply H|].
  induction l as [|b l [IH1 IH2]]; [auto|]. split; auto.
Qed.

Lemma wsum_bound l : Forall is_u8 l → 0 ≤ wsum l ≤ 32768 * (Z.of_nat (length l) + 1) + 32768 * Z.of_nat (length l).
Proof.
  induction l as [|a|a b r IH] using pair_ind; intros Hl.
  - simpl. lia.
  - apply Forall_cons in Hl as [Ha _]. unfold is_u8 in Ha. simpl. lia.
  - apply Forall_cons in Hl as [Ha Hl]. apply Forall_cons in Hl as [Hb Hl]. specialize (IH Hl).
    unfold is_u8 in *. cbn [wsum length]. lia.
Qed.

Lemma checksum_add_eq l : ∀ sum,
  Forall is_u8 l → 0 ≤ sum → sum + 65536 * (Z.of_nat (length l) + 1) < 2 ^ 32 →
  net_checksum_add l sum = sum + wsum l.
Proof.
  induction l as [|a|a b r IH] using pair_ind; intros sum Hl Hs Hb.
  - simpl. lia.
  - apply Forall_cons in Hl as [Ha _]. unfold is_u8 in Ha. cbn [net_checksum_add wsum].
    simpl in Hb. rewrite Z.shiftl_mul_pow2 by lia. change (2 ^ 8) with 256.
    rewrite u32_small by (unfold is_u32; lia). lia.
  - apply Forall_cons in Hl as [Ha Hl]. apply Forall_cons in Hl as [Hb' Hl]. unfold is_u8 in *.
    cbn [net_checksum_add wsum]. cbn [length] in Hb. rewrite shiftl_lor_add by lia. change (2 ^ 8) with 256.
    rewrite (u32_small (sum + _)) by (unfold is_u32; lia). rewrite IH by (done || lia). lia.
Qed.

(** One's-complement folding: the result represents the sum modulo 65535. *)
Lemma fold_loop_spec s :
  0 ≤ s < 2 ^ 32 →
  let r := fold_loop 3 s in
  0 ≤ r < 65536 ∧ (∃ k, s = r + 65535 * k) ∧ (r = 0 → s = 0).
Proof.
  intros Hs. assert (∀ x, 0 ≤ x → Z.land x 65535 = x mod 65536) as Hl.
  { intros x Hx. change 65535 with (2 ^ 16 - 1). by rewrite land_ones_mod by lia. }
  cbn [fold_loop]. rewrite !Z.shiftr_div_pow2 by lia. change (2 ^ 16) with 65536.
  destruct (Z.eqb_spec (s / 65536) 0).
  { split_and!; [Z.div_mod_to_equations; lia|Z.div_mod_to_equations; lia|exists 0; lia|done]. }
  rewrite (Hl s) by lia. set (s1 := s mod 65536 + s / 65536).
  assert (s = s1 + 65535 * (s / 65536) ∧ 0 < s1 < 131072) as [E1 B1].
  { subst s1. pose proof (Z.div_mod s 65536). Z.div_mod_to_equations. lia. }
  clearbody s1. rewrite (u32_small s1) by (unfold is_u32; lia).
  destruct (Z.eqb_spec (s1 / 65536) 0).
  { split_and!; [lia|Z.div_mod_to_equations; lia|by exists (s / 65536)|lia]. }
  rewrite (Hl s1) by lia. set (s2 := s1 mod 65536 + s1 / 65536).
  assert (s1 = s2 + 65535 * (s1 / 65536) ∧ 0 < s2 < 65537) as [E2 B2].
  { subst s2. pose proof (Z.div_mod s1 65536). Z.div_mod_to_equations. lia. }
  clearbody s2. rewrite (u32_small s2) by (unfold is_u32; lia).
  destruct (Z.eqb_spec (s2 / 65536) 0).
  { split_and!; [lia|Z.div_mod_to_equations; lia|exists (s / 65536 + s1 / 65536); lia|lia]. }
  assert (s2 = 65536) as -> by (Z.div_mod_to_equations; lia).
  change (u32 (Z.land 65536 65535 + 65536 / 65536)) with 1.
  split_and!; [lia|lia|exists (s / 65536 + s1 / 65536 + 1); lia|lia].
Qed.

Lemma fold_complement s : 0 ≤ s < 2 ^ 32 → net_checksum_fold s = 65535 - fold_loop 3 s.
Proof.
  intros Hs. destruct (fold_loop_spec s Hs) as (Hr & _). unfold net_checksum_fold.
  set (r := fold_loop 3 s) in *. clearbody r. unfold Z.lnot. wrap_lia.
Qed.

(** A sum that is a positive multiple of 65535 passes verification. *)
Lemma fold_valid s k : 0 < s < 2 ^ 32 → s = 65535 * k → net_checksum_fold s = 0.
Proof.
  intros Hs Hk. rewrite fold_complement by lia. destruct (fold_loop_spec s) as (Hr & [j Hj] & H0); [lia|].
  set (r := fold_loop 3 s) in *. clearbody r. assert (r ≠ 0) by lia.
  assert (r = 65535 * (k - j)) by lia. assert (k - j = 1) by lia. lia.
Qed.

(** Putting the checksum of [s] into the data makes it verify, also when
    UDP sends 0xFFFF in place of 0. *)
Lemma checksum_completes s c :
  0 ≤ s → s + 65535 < 2 ^ 32 →
  c = net_checksum_fold s ∨ net_checksum_fold s = 0 ∧ c = 65535 → 0 < s + c →
  net_checksum_fold (s + c) = 0.
Proof.
  intros Hs Hb Hc Hpos. rewrite fold_complement in Hc by lia.
  destruct (fold_loop_spec s) as (Hr & [k Hk] & H0); [lia|].
  set (r := fold_loop 3 s) in *. clearbody r.
  destruct Hc as [->|[Hc ->]].
  - apply (fold_valid _ (k + 1)); lia.
  - apply (fold_valid _ (k + 2)); lia.
Qed.

Lemma wsum_app_even l1 l2 : Nat.even (length l1) = true → wsum (l1 ++ l2) = wsum l1 + wsum l2.
Proof.
  induction l1 as [|a|a b r IH] using pair_ind; simpl; intros H; [lia|done|]. rewrite IH by done. lia.
Qed.

Lemma be16_u8 v : is_u16 v → Forall is_u8 (be16 v).
Proof. unfold is_u16. intros. repeat constructor; try (Z.div_mod_to_equations; lia). Qed.
Lemma be32_u8 v : is_u32 v → Forall is_u8 (be32 v).
Proof. unfold is_u32. intros. repeat constructor; try (Z.div_mod_to_equations; lia). Qed.
Lemma wsum_be16 v : is_u16 v → wsum (be16 v) = v.
Proof. unfold is_u16, be16. intros. simpl. pose proof (Z.div_mod v 256). lia. Qed.

Definition wf_ip (s : net) : Prop := is_u32 (local_ip s) ∧ is_u16 (ip_id s) ∧ length (local_mac s) = 6%nat.

Lemma ip_header_bytes t id p ck src dst :
  is_u16 t → is_u16 id → is_u8 p → is_u16 ck → is_u32 src → is_u32 dst →
  ip_header t id p (net_htons ck) src dst =
    [69; 0] ++ be16 t ++ be16 id ++ [0; 0] ++ [64; p] ++ be16 ck ++ be32 src ++ be32 dst.
Proof. intros. unfold ip_header. by rewrite !le16_htons, !le32_htonl. Qed.

Lemma ip_header_u8 t id p ck src dst :
  is_u16 t → is_u16 id → is_u8 p → is_u16 ck → is_u32 src → is_u32 dst →
  Forall is_u8 (ip_header t id p (net_htons ck) src dst).
Proof.
  intros. rewrite ip_header_bytes by done.
  rewrite ?Forall_app; split_and!; try (by apply be16_u8); try (by apply be32_u8);
    repeat (apply Forall_cons; split); try done; by apply Forall_nil.
Qed.

Lemma ip_header_sum t id p ck src dst :
  is_u16 t → is_u16 id → is_u8 p → is_u16 ck → is_u32 src → is_u32 dst →
  wsum (ip_header t id p (net_htons ck) src dst) =
  wsum (ip_header t id p (net_htons 0) src dst) + ck.
Proof.
  intros. rewrite !ip_header_bytes by done. unfold be16, be32. cbn [app wsum].
  change (0 / 256) with 0. change (0 mod 256) with 0. pose proof (Z.div_mod ck 256). lia.
Qed.

Lemma ip_checksum_eq t id p ck src dst :
  is_u16 t → is_u16 id → is_u8 p → is_u16 ck → is_u32 src → is_u32 dst →
  net_ip_checksum (ip_header t id p (net_htons ck) src dst) =
  net_checksum_fold (wsum (ip_header t id p (net_htons 0) src dst) + ck).
Proof.
  intros. unfold net_ip_checksum.
  change (byte (ip_header t id p (net_htons ck) src dst) 0) with 69.
  change (Z.to_nat (Z.land 69 15 * 4)) with 20%nat. rewrite take_ge by done.
  rewrite checksum_add_eq; [|by apply ip_header_u8|lia|simpl; lia].
  rewrite Z.add_0_l. by rewrite ip_header_sum.
Qed.

Lemma ip_header_sum0 t id p src dst :
  is_u16 t → is_u16 id → is_u8 p → is_u32 src → is_u32 dst →
  0 < wsum (ip_header t id p (net_htons 0) src dst) < 2 ^ 24.
Proof.
  intros. pose proof (wsum_bound (ip_header t id p (net_htons 0) src dst)) as Hb.
  simpl (length _) in Hb. split; [|cut (0 ≤ wsum (ip_header t id p (net_htons 0) src dst) ≤ 32768 * (20 + 1) + 32768 * 20); [lia|apply Hb; by apply ip_header_u8]].
  rewrite ip_header_bytes by done. unfold be16, be32. cbn [app wsum]. unfold is_u16, is_u32, is_u8 in *.
  Z.div_mod_to_equations. lia.
Qed.

(** The IPv4 header that [ip_send] builds carries a checksum that
    verifies: the one's-complement sum over the header folds to 0 at the
    receiver, for every length, identifier, protocol and address pair. *)
Theorem ip_header_checksum_valid t id p src dst :
  is_u16 t → is_u16 id → is_u8 p → is_u32 src → is_u32 dst →
  net_ip_checksum
    (ip_header t id p (net_htons (net_ip_checksum (ip_header t id p 0 src dst))) src dst) = 0.
Proof.
  intros Ht Hid Hp Hs Hd. change 0 with (net_htons 0) at 1.
  assert (is_u16 (net_checksum_fold (wsum (ip_header t id p (net_htons 0) src dst) + 0))) as Hc
    by apply u16_range.
  rewrite (ip_checksum_eq t id p 0) by done. rewrite ip_checksum_eq by done.
  pose proof (ip_header_sum0 t id p src dst Ht Hid Hp Hs Hd).
  rewrite Z.add_0_r in *. unfold is_u16 in Hc. apply checksum_completes; [lia|lia|by left|lia].
Qed.

Lemma pseudo_sum_bound src dst p len :
  is_u8 p → is_u16 len → p + len ≤ pseudo_header_sum src dst p len < 400000.
Proof.
  intros. unfold pseudo_header_sum.
  assert (∀ x, 0 ≤ Z.land x 65535 < 65536) as Hl.
  { intros x. change 65535 with (2 ^ 16 - 1). rewrite land_ones_mod by lia. apply Z.mod_pos_bound. lia. }
  pose proof (Hl (Z.shiftr src 16)). pose proof (Hl src). pose proof (Hl (Z.shiftr dst 16)). pose proof (Hl dst).
  unfold is_u8, is_u16 in *. rewrite (u32_small (Z.land (Z.shiftr src 16) 65535 + Z.land src 65535)) by (unfold is_u32; lia).
  rewrite (u32_small (_ + Z.land (Z.shiftr dst 16) 65535)) by (unfold is_u32; lia).
  rewrite (u32_small (_ + Z.land dst 65535)), (u32_small (_ + p)), (u32_small (_ + len)) by (unfold is_u32; lia).
  lia.
Qed.

Lemma udp_header_bytes sp dp t ck :
  is_u16 sp → is_u16 dp → is_u16 t → is_u16 ck →
  udp_header sp dp t (net_htons ck) = be16 sp ++ be16 dp ++ be16 t ++ be16 ck.
Proof. intros. unfold udp_header. by rewrite !le16_htons. Qed.

Lemma udp_dgram_u8 sp dp t ck payload :
  is_u16 sp → is_u16 dp → is_u16 t → is_u16 ck → Forall is_u8 payload →
  Forall is_u8 (udp_header sp dp t (net_htons ck) ++ payload).
Proof.
  intros. rewrite udp_header_bytes by done. rewrite ?Forall_app; split_and!; try (by apply be16_u8). done.
Qed.

Lemma udp_checksum_eq src dst sp dp t ck payload :
  is_u16 sp → is_u16 dp → is_u16 t → is_u16 ck → Forall is_u8 payload →
  (length payload ≤ 2000)%nat →
  net_udp_checksum src dst (udp_header sp dp t (net_htons ck) ++ payload) t =
  net_checksum_fold (pseudo_header_sum src dst 17 t + wsum (be16 sp ++ be16 dp ++ be16 t ++ payload) + ck).
Proof.
  intros. unfold net_udp_checksum. pose proof (pseudo_sum_bound src dst 17 t ltac:(done) ltac:(done)). unfold is_u16 in *.
  rewrite checksum_add_eq; [| |change IP_PROTO_UDP with 17; lia|].
  - change IP_PROTO_UDP with 17. f_equal. rewrite udp_header_bytes by done.
    unfold be16. cbn [app wsum]. pose proof (Z.div_mod ck 256). lia.
  - by apply udp_dgram_u8.
  - change IP_PROTO_UDP with 17. rewrite length_app. simpl (length (udp_header _ _ _ _)). lia.
Qed.

(** The checksum [udp_send] puts into a datagram verifies at the receiver,
    pseudo header included, also when the computed value is 0 and 0xFFFF is
    sent instead. *)
Theorem udp_checksum_valid src dst sp dp payload :
  is_u16 sp → is_u16 dp → Forall is_u8 payload → (length payload ≤ 1492)%nat →
  let t := 8 + Z.of_nat (length payload) in
  let ck := net_htons (net_udp_checksum src dst (udp_header sp dp t 0 ++ payload) t) in
  let ck := if ck =? 0 then 65535 else ck in
  net_udp_checksum src dst (udp_header sp dp t ck ++ payload) t = 0.
Proof.
  intros Hsp Hdp Hp Hl t.
  assert (is_u16 t) as Ht by (unfold is_u16; subst t; lia).
  change (udp_header sp dp t 0) with (udp_header sp dp t (net_htons 0)).
  rewrite (udp_checksum_eq src dst sp dp t 0) by (done || lia). rewrite Z.add_0_r.
  pose proof (pseudo_sum_bound src dst 17 t ltac:(done) Ht) as Hps.
  assert (0 ≤ wsum (be16 sp ++ be16 dp ++ be16 t ++ payload) < 2 ^ 30) as Hw.
  { assert (Forall is_u8 (be16 sp ++ be16 dp ++ be16 t ++ payload)) as HF
      by (rewrite !Forall_app; split_and!; try (by apply be16_u8); done).
    pose proof (wsum_bound _ HF) as Hb. rewrite !length_app in Hb. simpl (length (be16 _)) in Hb. lia. }
  assert (t < pseudo_header_sum src dst 17 t + wsum (be16 sp ++ be16 dp ++ be16 t ++ payload)) as Hpos.
  { lia. }
  set (s := pseudo_header_sum src dst 17 t + _) in *.
  set (c := net_checksum_fold s). assert (is_u16 c) as Hc by apply u16_range.
  cbv zeta. destruct (Z.eqb_spec (net_htons c) 0) as [E|E].
  - change 65535 with (net_htons 65535). rewrite udp_checksum_eq by (done || lia). fold s.
    apply checksum_completes; [lia|lia| |lia]. right. split; [|done].
    fold c. rewrite <- (htons_htons c) by done. by rewrite E.
  - rewrite udp_checksum_eq by (done || lia). fold s. fold c. unfold is_u16 in Hc.
    apply checksum_completes; [lia|lia|by left|lia].
Qed.

(** ** Table searches *)

Lemma first_index_Some {A} (p : A → bool) l i :
  first_index p l = Some i →
  ∃ x, l !! i = Some x ∧ p x = true ∧ ∀ j y, (j < i)%nat → l !! j = Some y → p y = false.
Proof.
  revert i. induction l as [|x l IH]; intros i; simpl; [done|]. destruct (p x) eqn:Ex.
  - intros [= <-]. exists x. split_and!; [done|done|lia].
  - intros (j & Hj & ->)%fmap_Some. destruct (IH j Hj) as (y & ? & ? & H). exists y.
    split_and!; [done|done|]. intros [|k] z Hk; simpl; [intros [= <-]; done|]. apply H. lia.
Qed.

Lemma first_index_None {A} (p : A → bool) l : first_index p l = None → Forall (λ x, p x = false) l.
Proof.
  induction l as [|x l IH]; simpl; [by constructor|]. destruct (p x) eqn:Ex; [done|].
  intros H%fmap_None. constructor; auto.
Qed.

Lemma first_index_intro {A} (p : A → bool) l i x :
  l !! i = Some x → p x = true → (∀ j y, (j < i)%nat → l !! j = Some y → p y = false) →
  first_index p l = Some i.
Proof.
  revert i. induction l as [|z l IH]; intros i Hi Hp Hlt; [done|]. destruct i as [|i]; simpl in *.
  - injection Hi as ->. by rewrite Hp.
  - rewrite (Hlt 0%nat z) by (done || lia). rewrite (IH i); [done|done|done|].
    intros j y Hj. apply (Hlt (S j)). lia.
Qed.

Lemma first_index_insert_other {A} (p : A → bool) l i x :
  (∀ y, l !! i = Some y → p y = false) → p x = false →
  first_index p (<[i := x]> l) = first_index p l.
Proof.
  revert i. induction l as [|z l IH]; intros [|i] Hi Hx; simpl in *; try done.
  - by rewrite Hx, (Hi z).
  - by rewrite IH.
Qed.

(** A registered handler is the one its port finds. *)
Lemma register_found port h s s' : udp_register_handler port h s = (true, s') → h ≠ 0 →
  ∃ i, first_index (λ b, udp_match port b && negb (ub_handler b =? 0)) (bindings s') = Some i ∧
    ub_handler (nth i (bindings s') udp_empty) = h.
Proof.
  unfold udp_register_handler. intros E Hh.
  assert (∃ i, s' = set_bindings (<[i := mk_binding true port h]> (bindings s)) s ∧ (i < length (bindings s))%nat ∧
    ∀ j y, (j < i)%nat → bindings s !! j = Some y → udp_match port y = false) as (i & -> & Hi & Hlt).
  { destruct (first_index (udp_match port) (bindings s)) as [i|] eqn:E1.
    - injection E as <-. destruct (first_index_Some _ _ _ E1) as (x & Hx & _ & Hlt). exists i. split; [done|]. split; [by eapply lookup_lt_Some|done].
    - destruct (first_index (λ b, negb (ub_used b)) (bindings s)) as [i|] eqn:E2; [|done]. injection E as <-.
      destruct (first_index_Some _ _ _ E2) as (x & Hx & _ & _). exists i. split; [done|]. split; [by eapply lookup_lt_Some|].
      intros j y _ Hj. apply first_index_None in E1. by eapply Forall_lookup in E1. }
  exists i. simpl. split.
  - eapply first_index_intro; [by apply list_lookup_insert_eq| |].
    + unfold udp_match. simpl. by rewrite Z.eqb_refl, (proj2 (Z.eqb_neq _ _)).
    + intros j y Hj Hy. rewrite list_lookup_insert_ne in Hy by lia. by rewrite (Hlt j y).
  - rewrite nth_lookup, list_lookup_insert_eq by done. done.
Qed.

(** Where [arp_cache_insert] puts its entry. *)
Lemma arp_insert_slot ip mac s :
  length (cache s) = ARP_CACHE_SIZE →
  ∃ i, (i < 16)%nat ∧ arp_cache_insert ip mac s = set_cache (<[i := mk_arp true ip (take 6 mac)]> (cache s)) s ∧
    (∀ j e, (j < i)%nat → cache s !! j = Some e → arp_match ip e = false) ∧
    ((∃ e, cache s !! i = Some e ∧ (arp_match ip e = true ∨ ae_used e = false)) ∨
     i = 0%nat ∧ Forall (λ e, ae_used e = true ∧ ae_ip e ≠ ip) (cache s)).
Proof.
  intros Hlen. unfold arp_cache_insert, ARP_CACHE_SIZE in *.
  destruct (first_index (arp_match ip) (cache s)) as [i|] eqn:E1.
  - destruct (first_index_Some _ _ _ E1) as (e & Hi & He & Hlt). exists i.
    pose proof (lookup_lt_Some _ _ _ Hi). split_and!; [lia|done|done|left; eauto].
  - apply first_index_None in E1. rewrite Forall_lookup in E1.
    destruct (first_index (λ e, negb (ae_used e)) (cache s)) as [i|] eqn:E2.
    + destruct (first_index_Some _ _ _ E2) as (e & Hi & He & Hlt). exists i.
      pose proof (lookup_lt_Some _ _ _ Hi). split_and!; [lia|done|eauto|].
      left. exists e. split; [done|]. right. by apply negb_true_iff.
    + exists 0%nat. split_and!; [lia|done|lia|]. right. split; [done|].
      apply first_index_None in E2. rewrite Forall_lookup in *. intros j e Hj.
      specialize (E1 j e Hj). specialize (E2 j e Hj). apply negb_false_iff in E2.
      unfold arp_match in E1. rewrite E2 in E1. simpl in E1. by bool_to_prop.
Qed.

(** ARP cache: after [arp_cache_insert] the address resolves to the
    inserted MAC, whatever the cache held; every other address resolves as
    before, except that a full cache gives up the entry in slot 0. *)
Theorem arp_insert_lookup ip mac s :
  length (cache s) = ARP_CACHE_SIZE →
  arp_cache_lookup ip (arp_cache_insert ip mac s) = Some (take 6 mac) ∧
  ∀ ip', ip' ≠ ip →
    (∃ e, e ∈ cache s ∧ (ae_used e = false ∨ ae_ip e = ip)) ∨ ae_ip (nth 0 (cache s) arp_empty) ≠ ip' →
    arp_cache_lookup ip' (arp_cache_insert ip mac s) = arp_cache_lookup ip' s.
Proof.
  intros Hlen. destruct (arp_insert_slot ip mac s Hlen) as (i & Hi & -> & Hlt & Hcase).
  unfold ARP_CACHE_SIZE in Hlen. unfold arp_cache_lookup. simpl. split.
  - rewrite (first_index_intro _ _ i (mk_arp true ip (take 6 mac))).
    + simpl. by rewrite list_lookup_insert_eq by lia.
    + by rewrite list_lookup_insert_eq by lia.
    + unfold arp_match. simpl. apply Z.eqb_refl.
    + intros j y Hj. rewrite list_lookup_insert_ne by lia. by apply Hlt.
  - intros ip' Hne Hroom.
    assert (∀ y, cache s !! i = Some y → arp_match ip' y = false) as Hold.
    { intros y Hy. destruct Hcase as [(e & He & Hm)|[-> Hfull]].
      - rewrite He in Hy. injection Hy as ->. unfold arp_match in *. destruct Hm as [Hm|Hm]; [|by rewrite Hm].
        bool_to_prop. apply andb_false_intro2, Z.eqb_neq. congruence.
      - destruct Hroom as [(e & He & Hm)|Hm].
        + rewrite Forall_forall in Hfull. destruct (Hfull e He). destruct Hm; congruence.
        + rewrite nth_lookup, Hy in Hm. simpl in Hm. unfold arp_match.
          rewrite (proj2 (Z.eqb_neq _ _)) by done. apply andb_false_r. }
    rewrite first_index_insert_other; [|done|].
    + destruct (first_index (arp_match ip') (cache s)) as [j|] eqn:E; [|done]. simpl.
      destruct (first_index_Some _ _ _ E) as (y & Hy & Hm & _).
      rewrite list_lookup_insert_ne; [done|]. intros ->. rewrite (Hold y Hy) in Hm. done.
    + unfold arp_match. simpl. apply Z.eqb_neq. congruence.
Qed.

(** ** A datagram end to end *)

Section e2e.
  Context (poll : net → net) (iters : Z → nat) (tcp : Z → list Z → net → net).

(** The MAC address [ip_send] will use without waiting. *)
Definition known_hop (dst : Z) (s : net) : option (list Z) :=
  if dst =? BROADCAST_IP then Some BROADCAST_MAC
  else arp_cache_lookup
         (if Z.land dst (netmask s) =? Z.land (local_ip s) (netmask s) then dst else gateway s) s.

Definition ip_packet (dst p : Z) (payload : list Z) (s : net) : list Z :=
  let t := 20 + Z.of_nat (length payload) in
  ip_header t (ip_id s) p (net_htons (net_ip_checksum (ip_header t (ip_id s) p 0 (local_ip s) dst)))
    (local_ip s) dst ++ payload.

Lemma ip_send_known dst p payload s mac :
  known_hop dst s = Some mac → Z.of_nat (length payload) ≤ 1480 →
  ip_send poll iters dst p payload s =
  Ret (true, eth_send mac ETHERTYPE_IPV4 (ip_packet dst p payload s) (set_ip_id (u16 (ip_id s + 1)) s)).
Proof.
  intros Hk Hl. unfold ip_send, known_hop, ip_packet in *.
  assert ((if dst =? BROADCAST_IP then (Some BROADCAST_MAC, s)
           else arp_resolve poll iters
             (if (dst =? BROADCAST_IP) || (Z.land dst (netmask s) =? Z.land (local_ip s) (netmask s))
              then dst else gateway s) 1000 s) = (Some mac, s)) as ->.
  { destruct (dst =? BROADCAST_IP); simpl; [by rewrite <- Hk|]. unfold arp_resolve. by rewrite Hk. }
  rewrite u16_small by (unfold is_u16; lia). unfold ETH_MTU.
  rewrite (proj2 (Z.ltb_ge 1500 _)) by lia. cbv zeta. do 3 f_equal. apply take_ge.
  rewrite length_app. simpl (length (ip_header _ _ _ _ _ _)). lia.
Qed.

Lemma eth_learn_keeps mac pkt s :
  local_ip (eth_learn_sender mac pkt s) = local_ip s ∧
  bindings (eth_learn_sender mac pkt s) = bindings s ∧ calls (eth_learn_sender mac pkt s) = calls s.
Proof.
  unfold eth_learn_sender, arp_cache_insert. repeat case_if; try done.
  destruct (first_index _ _); [done|]. by destruct (first_index _ _).
Qed.

Lemma rd16_htons v : is_u16 v → net_ntohs (rd16 (le16 (net_htons v)) 0) = v.
Proof.
  intros Hv. unfold rd16, byte, le16. simpl. rewrite le16_val by apply net_htons_range. by apply htons_htons.
Qed.

Lemma rd32_htonl v : is_u32 v → net_ntohl (rd32 (le32 (net_htonl v)) 0) = v.
Proof.
  intros Hv. unfold rd32, byte, le32. simpl. rewrite le32_val by apply net_htonl_range. by apply htonl_htonl.
Qed.

Lemma ip_demux_packet t id p ck src dst payload s :
  is_u16 t → is_u32 src → is_u32 dst → t = 20 + Z.of_nat (length payload) →
  local_ip s = 0 ∨ local_ip s = dst ∨ dst = BROADCAST_IP →
  ip_demux (ip_header t id p ck src dst ++ payload) s =
  if p =? IP_PROTO_UDP then ToUdp src payload (t - 20)
  else if p =? IP_PROTO_TCP then ToTcp src payload (t - 20) else Drop.
Proof.
  intros Ht Hs Hd Et Hacc. unfold ip_demux. rewrite length_app.
  change (length (ip_header t id p ck src dst)) with 20%nat.
  rewrite (proj2 (Z.ltb_ge (Z.of_nat (20 + length payload)) 20)) by lia.
  change (byte (ip_header t id p ck src dst ++ payload) 0) with 69.
  change (Z.shiftr 69 4 =? 4) with true. cbn [negb]. change (u8 (Z.land 69 15 * 4)) with 20.
  change (20 <? 20) with false. cbn [orb]. cbv zeta.
  rewrite (proj2 (Z.ltb_ge (Z.of_nat (20 + length payload)) 20)) by lia.
  change (rd32 (ip_header t id p ck src dst ++ payload) 16) with (rd32 (le32 (net_htonl dst)) 0).
  change (rd32 (ip_header t id p ck src dst ++ payload) 12) with (rd32 (le32 (net_htonl src)) 0).
  change (rd16 (ip_header t id p ck src dst ++ payload) 2) with (rd16 (le16 (net_htons t)) 0).
  rewrite !rd32_htonl, rd16_htons by done.
  assert (negb (local_ip s =? 0) && negb (dst =? local_ip s) && negb (dst =? BROADCAST_IP) = false) as ->.
  { destruct Hacc as [->|[->| ->]]; rewrite ?Z.eqb_refl; simpl; rewrite ?andb_false_r; done. }
  rewrite (proj2 (Z.ltb_ge _ t)) by lia.
  change (byte (ip_header t id p ck src dst ++ payload) 9) with p.
  rewrite (u16_small (t - 20)) by (unfold is_u16 in *; lia). done.
Qed.

(** A datagram that is sent to a known hop and arrives. *)
Lemma udp_delivered A B dst sp dp payload mac i h :
  wf_ip A → is_u32 dst → is_u16 sp → is_u16 dp → Forall is_u8 payload →
  Z.of_nat (length payload) ≤ 1472 → length mac = 6%nat → known_hop dst A = Some mac →
  local_ip B = dst ∨ dst = BROADCAST_IP →
  first_index (λ b, udp_match dp b && negb (ub_handler b =? 0)) (bindings B) = Some i →
  ub_handler (nth i (bindings B) udp_empty) = h →
  ∃ frame A' B', udp_send poll iters dst sp dp payload A = Ret (true, A') ∧
    sent A' = sent A ++ [frame] ∧ eth_handle_frame tcp frame B = Ret B' ∧
    calls B' = calls B ++ [mk_call h (local_ip A) sp payload].
Proof.
  intros (HipA & HidA & HmacA) Hdst Hsp Hdp Hpl Hlen Hmac Hhop HB Hidx Hh.
  unfold udp_send. set (t := 8 + Z.of_nat (length payload)).
  assert (is_u16 t) as Ht by (unfold is_u16; subst t; lia).
  rewrite (u16_small t) by done. unfold ETH_MTU. rewrite (proj2 (Z.ltb_ge 1500 t)) by lia. cbv zeta.
  set (ck := if _ =? 0 then _ else _). clearbody ck.
  rewrite (ip_send_known _ _ _ _ mac) by (done || (rewrite length_app; simpl; lia)).
  set (dgram := udp_header sp dp t ck ++ payload).
  assert (Z.of_nat (length dgram) = t) as Edg.
  { subst dgram t. rewrite length_app. simpl. lia. }
  set (pkt := ip_packet dst IP_PROTO_UDP dgram A).
  assert (Z.of_nat (length pkt) = 20 + t) as Epkt.
  { subst pkt. unfold ip_packet. rewrite length_app, Nat2Z.inj_add, Edg. done. }
  assert (take (Z.to_nat 1500) pkt = pkt) as Etake by (apply take_ge; lia).
  assert (take 6 mac = mac ∧ take 6 (local_mac A) = local_mac A) as [Em1 Em2] by (split; apply take_ge; lia).
  set (frame := mac ++ local_mac A ++ le16 (net_htons ETHERTYPE_IPV4) ++ pkt).
  exists frame.
  assert (length (mac ++ local_mac A) = 12%nat) as E12 by (rewrite length_app; lia).
  assert (drop 14 frame = pkt) as Edrop.
  { subst frame. rewrite app_assoc. change 14%nat with (12 + 2)%nat. rewrite <- drop_drop, <- E12, drop_app_length. done. }
  assert (rd16 frame 12 = rd16 (le16 (net_htons ETHERTYPE_IPV4)) 0) as Erd.
  { subst frame. rewrite app_assoc. unfold rd16, byte.
    rewrite (lookup_app_r (mac ++ _) _ 12), (lookup_app_r (mac ++ _) _ (12 + 1)) by lia. by rewrite E12. }
  unfold eth_handle_frame. rewrite Edrop, Erd, rd16_htons by done.
  assert (Z.of_nat (length frame) = 34 + t) as Efr.
  { subst frame. rewrite !length_app. simpl (length (le16 _)). lia. }
  unfold is_u16 in Ht. rewrite (proj2 (Z.ltb_ge (Z.of_nat (length frame)) 14)) by lia.
  change (ETHERTYPE_IPV4 =? ETHERTYPE_ARP) with false. change (ETHERTYPE_IPV4 =? ETHERTYPE_IPV4) with true.
  cbv iota zeta.
  set (B1 := eth_learn_sender _ _ _). destruct (eth_learn_keeps (take 6 (drop 6 frame)) pkt B) as (L1 & L2 & L3).
  fold B1 in L1, L2, L3. clearbody B1.
  assert (ip_demux pkt B1 = ToUdp (local_ip A) dgram t) as Edx.
  { subst pkt. unfold ip_packet. rewrite ip_demux_packet; [|unfold is_u16; lia|done|done|done|rewrite L1; tauto].
    change (IP_PROTO_UDP =? IP_PROTO_UDP) with true. cbv iota. f_equal. lia. }
  unfold ip_handle_packet. rewrite Edx, Edg, (proj2 (Z.ltb_ge t t)) by lia.
  rewrite take_ge by lia.
  eexists _, _. split; [done|]. split.
  { unfold eth_send, network_manager_send. cbn [sent set_sent set_ip_id local_mac].
    unfold ETH_MTU. by rewrite Em1, Em2, Etake. }
  split; [done|].
  unfold udp_handle_packet. rewrite Edg, (proj2 (Z.ltb_ge t 8)) by lia.
  subst dgram.
  change (rd16 (udp_header sp dp t ck ++ payload) 0) with (rd16 (le16 (net_htons sp)) 0).
  change (rd16 (udp_header sp dp t ck ++ payload) 2) with (rd16 (le16 (net_htons dp)) 0).
  change (rd16 (udp_header sp dp t ck ++ payload) 4) with (rd16 (le16 (net_htons t)) 0).
  rewrite !rd16_htons by done. rewrite Z.ltb_irrefl, L2, Hidx. cbn [calls set_calls].
  rewrite L3, Hh. do 3 f_equal. change (drop 8 (udp_header sp dp t ck ++ payload)) with payload.
  apply take_ge. subst t. destruct (Z.ltb_spec 8 (8 + Z.of_nat (length payload))); lia.
Qed.

(** C32. A UDP datagram arrives: when the next hop's MAC is known, [udp_send]
    succeeds and puts one frame on the wire; any host with that destination
    address that handles the frame passes source address, source port and
    exactly the payload to the handler bound to the destination port. *)
Theorem udp_end_to_end A B dst sp dp payload mac i h :
  wf_ip A → is_u32 dst → is_u16 sp → is_u16 dp → Forall is_u8 payload →
  Z.of_nat (length payload) ≤ 1472 → length mac = 6%nat → known_hop dst A = Some mac →
  local_ip B = dst ∨ dst = BROADCAST_IP →
  first_index (λ b, udp_match dp b && negb (ub_handler b =? 0)) (bindings B) = Some i →
  ub_handler (nth i (bindings B) udp_empty) = h →
  ∃ frame A' B', udp_send poll iters dst sp dp payload A = Ret (true, A') ∧
    sent A' = sent A ++ [frame] ∧ eth_handle_frame tcp frame B = Ret B' ∧
    calls B' = calls B ++ [mk_call h (local_ip A) sp payload].
Proof. apply udp_delivered. Qed.
End e2e.

(** ** Defects the model shows *)

(** [ip_handle_packet] does not compare the total length with the header
    length: a 20-byte packet that claims a total length of 0 is passed to the
    transport layer with a length of 65516 bytes (and read far past the frame). *)
Theorem ip_short_total_len_wraps s :
  local_ip s = 0 →
  ip_demux (ip_header 0 7 IP_PROTO_UDP 0 1 2) s = ToUdp 1 [] 65516.
Proof. intros E. unfold ip_demux. by rewrite E. Qed.

(** The 16-bit total in [ip_send] wraps: a payload of 65530 bytes passes
    the MTU check and is copied past the end of the 1500-byte packet buffer. *)
Theorem ip_send_length_wraps poll iters s mac p payload :
  known_hop 3232235777 s = Some mac → Z.of_nat (length payload) = 65530 →
  ip_send poll iters 3232235777 p payload s = Undef.
Proof.
  intros Hk Hl. unfold ip_send. unfold known_hop in Hk. change (3232235777 =? BROADCAST_IP) with false in *.
  cbn [orb]. unfold arp_resolve. rewrite Hk, Hl.
  change (ETH_MTU <? u16 (20 + 65530)) with false. change (ETH_MTU <? 20 + 65530) with true. done.
Qed.

(** ** Instances *)

Definition host_a : net :=
  mk_net [2; 0; 0; 0; 0; 1] 3232235777 4294967040 3232235777 0 7
    [mk_arp true 3232235778 [2; 0; 0; 0; 0; 2]] [] [] [].
Definition host_b : net :=
  mk_net [2; 0; 0; 0; 0; 2] 3232235778 4294967040 3232235777 0 7 (replicate 16 arp_empty)
    [mk_binding true 53 9] [] [].

Lemma ip_header_checksum_valid_witness :
  net_ip_checksum (ip_header 84 1 17 (net_htons (net_ip_checksum (ip_header 84 1 17 0 3232235777 3232235778)))
    3232235777 3232235778) = 0.
Proof. apply ip_header_checksum_valid; done. Defined.

Lemma udp_checksum_valid_witness :
  let ck := net_htons (net_udp_checksum 3232235777 3232235778 (udp_header 1024 53 11 0 ++ [1; 2; 3]) 11) in
  ck ≠ 0 ∧ net_udp_checksum 3232235777 3232235778 (udp_header 1024 53 11 ck ++ [1; 2; 3]) 11 = 0.
Proof.
  split; [by vm_compute|].
  apply (udp_checksum_valid 3232235777 3232235778 1024 53 [1; 2; 3]); [done|done|by repeat constructor|simpl; lia].
Defined.

Lemma arp_insert_lookup_witness :
  arp_cache_lookup 5 (arp_cache_insert 5 [1; 2; 3; 4; 5; 6] host_b) = Some [1; 2; 3; 4; 5; 6].
Proof. by apply (arp_insert_lookup 5 [1; 2; 3; 4; 5; 6] host_b). Defined.

Lemma udp_end_to_end_witness : ∃ frame A' B',
  udp_send (λ s, s) (λ _, 0%nat) 3232235778 1024 53 [104; 105] host_a = Ret (true, A') ∧
  sent A' = [frame] ∧ eth_handle_frame (λ _ _ s, s) frame host_b = Ret B' ∧
  calls B' = [mk_call 9 3232235777 1024 [104; 105]].
Proof.
  destruct (udp_end_to_end (λ s, s) (λ _, 0%nat) (λ _ _ s, s) host_a host_b 3232235778 1024 53 [104; 105]
    [2; 0; 0; 0; 0; 2] 0 9) as (f & A' & B' & H); try done; [by repeat constructor|by left|].
  exists f, A', B'. exact H.
Defined.

Lemma ip_short_total_len_wraps_witness :
  ip_demux (ip_header 0 7 IP_PROTO_UDP 0 1 2) (ip_init host_a) = ToUdp 1 [] 65516.
Proof. by apply (ip_short_total_len_wraps (ip_init host_a)). Defined.

Lemma ip_send_length_wraps_witness : ∃ payload,
  ip_send (λ s, s) (λ _, 0%nat) 3232235777 6 payload (arp_cache_insert 3232235777 [1; 1; 1; 1; 1; 1] host_b) = Undef.
Proof.
  exists (replicate (Z.to_nat 65530) 0).
  apply (ip_send_length_wraps _ _ _ [1; 1; 1; 1; 1; 1]); [reflexivity|].
  rewrite length_replicate. lia.
Defined.
