(* ===== verification/Tcp.v ===== *)
(** * TCP ([src/impl/net/tcp.c], [src/intf/net/tcp.h])

    The connection and listener tables, the segment handler with its state
    machine, out-of-order reassembly in the receive buffer, and the blocking
    calls. What tcp.c uses of the IP layer, the clock and the random source is
    the interface [IpLayer]; [Net.v]'s [ip_send] is an instance. Transmitting
    does not re-enter the segment handler (the code keeps the peer's MAC in the
    ARP cache so that it does not have to poll while it answers). *)

From S2P Require Import Prelude Net.

Open Scope c_scope.

Definition TCP_RETRANSMIT_MS : Z := 500.
Definition TCP_MAX_RETRIES : nat := 6.
Definition TCP_SEG_SIZE : Z := 1024.
Definition TCP_SEND_WINDOW_SEGS : Z := 4.
Definition TCP_SYN_RCVD_TIMEOUT_MS : Z := 5000.
Definition TCP_MAX_CONNS : nat := 8.
Definition TCP_MAX_LISTENERS : nat := 2.
Definition TCP_MAX_BACKLOG : Z := 4.
Definition TCP_RX_BUF_SIZE : Z := 32768.
Definition TCP_OOO_RANGES : nat := 4.

Definition TCP_FLAG_FIN : Z := 1.
Definition TCP_FLAG_SYN : Z := 2.
Definition TCP_FLAG_RST : Z := 4.
Definition TCP_FLAG_PSH : Z := 8.
Definition TCP_FLAG_ACK : Z := 16.

Inductive tcp_state :=
| TCP_CLOSED | TCP_SYN_SENT | TCP_ESTABLISHED | TCP_FIN_WAIT | TCP_CLOSE_WAIT | TCP_SYN_RCVD.

#[export] Instance tcp_state_eq_dec : EqDecision tcp_state.
Proof. solve_decision. Defined.

(** What the file needs from below. *)
Class IpLayer (I : Type) := {
  ipl_send : Z → Z → list Z → I → outcome (bool * I);
  ipl_local : I → Z;
  ipl_configured : I → bool;
  uptime : I → Z;
  random_u64 : I → Z * I;
  ipl_send_total : ∀ dst p payload s,
    Z.of_nat (length payload) ≤ 1480 → ∃ b s', ipl_send dst p payload s = Ret (b, s')
}.

(** [ooo] lists the first [ooo_count] pairs of [ooo_start]/[ooo_end]; the
    receive buffer maps offsets below [TCP_RX_BUF_SIZE] to bytes. *)
Record tcp_conn := mk_conn {
  in_use : bool; state : tcp_state;
  remote_ip : Z; remote_port : Z; local_port : Z;
  snd_nxt : Z; snd_una : Z; rcv_nxt : Z;
  rx_buf : Z → Z; rx_len : Z;
  ooo : list (Z * Z);
  remote_closed : bool; reset : bool; last_activity_ms : Z;
  accept_pending : bool; accept_order : Z
}.

Definition conn_zero : tcp_conn :=
  mk_conn false TCP_CLOSED 0 0 0 0 0 0 (λ _, 0) 0 [] false false 0 false 0.

Definition set_state (x : tcp_state) (c : tcp_conn) : tcp_conn :=
  mk_conn (in_use c) x (remote_ip c) (remote_port c) (local_port c) (snd_nxt c) (snd_una c)
    (rcv_nxt c) (rx_buf c) (rx_len c) (ooo c) (remote_closed c) (reset c) (last_activity_ms c)
    (accept_pending c) (accept_order c).
Definition set_snd (nxt una : Z) (c : tcp_conn) : tcp_conn :=
  mk_conn (in_use c) (state c) (remote_ip c) (remote_port c) (local_port c) nxt una
    (rcv_nxt c) (rx_buf c) (rx_len c) (ooo c) (remote_closed c) (reset c) (last_activity_ms c)
    (accept_pending c) (accept_order c).
Definition set_rcv_nxt (x : Z) (c : tcp_conn) : tcp_conn :=
  mk_conn (in_use c) (state c) (remote_ip c) (remote_port c) (local_port c) (snd_nxt c) (snd_una c)
    x (rx_buf c) (rx_len c) (ooo c) (remote_closed c) (reset c) (last_activity_ms c)
    (accept_pending c) (accept_order c).
Definition set_rx (buf : Z → Z) (len : Z) (c : tcp_conn) : tcp_conn :=
  mk_conn (in_use c) (state c) (remote_ip c) (remote_port c) (local_port c) (snd_nxt c) (snd_una c)
    (rcv_nxt c) buf len (ooo c) (remote_closed c) (reset c) (last_activity_ms c)
    (accept_pending c) (accept_order c).
Definition set_ooo (l : list (Z * Z)) (c : tcp_conn) : tcp_conn :=
  mk_conn (in_use c) (state c) (remote_ip c) (remote_port c) (local_port c) (snd_nxt c) (snd_una c)
    (rcv_nxt c) (rx_buf c) (rx_len c) l (remote_closed c) (reset c) (last_activity_ms c)
    (accept_pending c) (accept_order c).
Definition set_flags (closed rst : bool) (c : tcp_conn) : tcp_conn :=
  mk_conn (in_use c) (state c) (remote_ip c) (remote_port c) (local_port c) (snd_nxt c) (snd_una c)
    (rcv_nxt c) (rx_buf c) (rx_len c) (ooo c) closed rst (last_activity_ms c)
    (accept_pending c) (accept_order c).
Definition set_activity (t : Z) (c : tcp_conn) : tcp_conn :=
  mk_conn (in_use c) (state c) (remote_ip c) (remote_port c) (local_port c) (snd_nxt c) (snd_una c)
    (rcv_nxt c) (rx_buf c) (rx_len c) (ooo c) (remote_closed c) (reset c) t
    (accept_pending c) (accept_order c).
Definition set_pending (b : bool) (c : tcp_conn) : tcp_conn :=
  mk_conn (in_use c) (state c) (remote_ip c) (remote_port c) (local_port c) (snd_nxt c) (snd_una c)
    (rcv_nxt c) (rx_buf c) (rx_len c) (ooo c) (remote_closed c) (reset c) (last_activity_ms c)
    b (accept_order c).

Definition set_unused (c : tcp_conn) : tcp_conn :=
  mk_conn false (state c) (remote_ip c) (remote_port c) (local_port c) (snd_nxt c) (snd_una c)
    (rcv_nxt c) (rx_buf c) (rx_len c) (ooo c) (remote_closed c) (reset c) (last_activity_ms c)
    (accept_pending c) (accept_order c).

(** [in_use = false; accept_pending = false; state = TCP_CLOSED]. *)
Definition release (c : tcp_conn) : tcp_conn :=
  mk_conn false TCP_CLOSED (remote_ip c) (remote_port c) (local_port c) (snd_nxt c) (snd_una c)
    (rcv_nxt c) (rx_buf c) (rx_len c) (ooo c) (remote_closed c) (reset c) (last_activity_ms c)
    false (accept_order c).

Record tcp_listener := mk_listener { l_used : bool; l_port : Z; l_backlog : Z }.

(** ** Out-of-order reassembly *)

(** [(int32_t)(a - b)] on sequence numbers. *)
Definition sdiff (a b : Z) : Z := i32 (a - b).

Definition tcp_ooo_extent (c : tcp_conn) : Z :=
  foldl (λ extent '(_, e),
    let d := u32 (e - rcv_nxt c) in
    if (0 <? i32 d) && (extent <? d) then d else extent) 0 (ooo c).

(** Entry [i] is overwritten with the last one and the count drops. *)
Definition swap_remove (i : nat) (l : list (Z * Z)) : list (Z * Z) :=
  removelast (<[i := List.last l (0, 0)]> l).

(** The merging loop; it ends after as many rounds as there are ranges. *)
Fixpoint ooo_merge (fuel i : nat) (start e : Z) (l : list (Z * Z)) : Z * Z * list (Z * Z) :=
  match fuel with
  | O => (start, e, l)
  | S fuel' =>
      match l !! i with
      | None => (start, e, l)
      | Some (si, ei) =>
          if (sdiff start ei <=? 0) && (sdiff si e <=? 0) then
            let start' := if sdiff si start <? 0 then si else start in
            let e' := if 0 <? sdiff ei e then ei else e in
            ooo_merge fuel' i start' e' (swap_remove i l)
          else ooo_merge fuel' (S i) start e l
      end
  end.

(** [memcpy] into the receive buffer. *)
Definition rx_write (off : Z) (data : list Z) (c : tcp_conn) : outcome tcp_conn :=
  if (off <? 0) || (TCP_RX_BUF_SIZE <? off + Z.of_nat (length data)) then Undef
  else Ret (set_rx (λ x, if (off <=? x) && (x <? off + Z.of_nat (length data))
                         then default 0 (data !! Z.to_nat (x - off)) else rx_buf c x) (rx_len c) c).

Definition tcp_ooo_store (seq : Z) (data : list Z) (c : tcp_conn) : outcome tcp_conn :=
  let len := Z.of_nat (length data) in
  let ahead := sdiff seq (rcv_nxt c) in
  if ahead <=? 0 then Ret c
  else if TCP_RX_BUF_SIZE <? rx_len c + ahead + len then Ret c
  else
    let '(start, e, l) := ooo_merge (length (ooo c)) 0 seq (u32 (seq + len)) (ooo c) in
    let c := set_ooo l c in
    if (TCP_OOO_RANGES <=? length l)%nat then Ret c
    else
      let* c := rx_write (rx_len c + ahead) data c in
      Ret (set_ooo (l ++ [(start, e)]) c).

(** The first range that starts at or before [rcv_nxt] joins the stream. *)
Fixpoint join_index (rcv : Z) (l : list (Z * Z)) : option nat :=
  match l with
  | [] => None
  | (s, _) :: r => if 0 <? sdiff s rcv then S <$> join_index rcv r else Some 0%nat
  end.

Fixpoint tcp_ooo_join (fuel : nat) (c : tcp_conn) : tcp_conn :=
  match fuel with
  | O => c
  | S fuel' =>
      match join_index (rcv_nxt c) (ooo c) with
      | None => c
      | Some i =>
          let gain := sdiff (nth i (ooo c) (0, 0)).2 (rcv_nxt c) in
          let c := if 0 <? gain
                   then set_rcv_nxt (u32 (rcv_nxt c + gain)) (set_rx (rx_buf c) (u32 (rx_len c + gain)) c)
                   else c in
          tcp_ooo_join fuel' (set_ooo (swap_remove i (ooo c)) c)
      end
  end.

(** The in-order part of the segment handler. *)
Definition rx_in_order (data : list Z) (c : tcp_conn) : outcome tcp_conn :=
  let space := u32 (TCP_RX_BUF_SIZE - rx_len c) in
  let copy_len := if Z.of_nat (length data) <? space then Z.of_nat (length data) else space in
  let* c := rx_write (rx_len c) (take (Z.to_nat copy_len) data) c in
  let c := set_rx (rx_buf c) (u32 (rx_len c + copy_len)) c in
  let c := set_rcv_nxt (u32 (rcv_nxt c + copy_len)) c in
  Ret (tcp_ooo_join (S (length (ooo c))) c).

(** A segment with data: in order, or kept ahead of [rcv_nxt]. *)
Definition rx_segment (seq : Z) (data : list Z) (c : tcp_conn) : outcome tcp_conn :=
  if seq =? rcv_nxt c then rx_in_order data c else tcp_ooo_store seq data c.

(** [tcp_recv] after its poll: the return value and the bytes handed out. *)
Definition tcp_recv_conn (maxlen : Z) (c : tcp_conn) : Z * list Z * tcp_conn :=
  if rx_len c =? 0 then
    if remote_closed c || reset c then (-1, [], c) else (0, [], c)
  else
    let copy_len := if rx_len c <? maxlen then rx_len c else maxlen in
    let out := (λ i, rx_buf c i) <$> seqZ 0 copy_len in
    let keep := rx_len c - copy_len + tcp_ooo_extent c in
    let buf := λ x, if (0 <=? x) && (x <? keep) then rx_buf c (x + copy_len) else rx_buf c x in
    (i32 copy_len, out, set_rx buf (rx_len c - copy_len) c).

(** ** Transmission *)

Definition tcp_header (src dst seq ack flags window checksum : Z) : list Z :=
  le16 (net_htons src) ++ le16 (net_htons dst) ++ le32 (net_htonl seq) ++ le32 (net_htonl ack) ++
  [80; flags] ++ le16 (net_htons window) ++ le16 checksum ++ [0; 0].

Definition flag (flags bit : Z) : bool := negb (Z.land flags bit =? 0).

Section tcp.
  Context {I : Type} `{IpLayer I}.

Definition tcp_send_raw (rip rport lport seq ack flags window : Z) (data : list Z) (s : I) :
    outcome (bool * I) :=
  let ack := if flag flags TCP_FLAG_ACK then ack else 0 in
  let hdr := tcp_header lport rport seq ack flags window in
  if 1480 <? Z.of_nat (length data) then Ret (false, s)
  else
    let seg_len := u16 (20 + Z.of_nat (length data)) in
    let sum := net_htons (net_tcp_checksum (ipl_local s) rip (hdr 0 ++ data) seg_len) in
    ipl_send rip IP_PROTO_TCP (hdr sum ++ data) s.

Definition tcp_send_segment (c : tcp_conn) (flags : Z) (data : list Z) (s : I) : outcome (bool * I) :=
  let rx_space := if rx_len c <? TCP_RX_BUF_SIZE then TCP_RX_BUF_SIZE - rx_len c else 0 in
  let rx_space := if 65535 <? rx_space then 65535 else rx_space in
  tcp_send_raw (remote_ip c) (remote_port c) (local_port c) (snd_nxt c) (rcv_nxt c) flags
    (u16 rx_space) data s.

(** ** Tables *)

Record tcp := mk_tcp {
  conns : list tcp_conn;
  listeners : list tcp_listener;
  next_ephemeral_port : Z;
  accept_seq : Z;
  ips : I
}.

Definition set_conns (l : list tcp_conn) (t : tcp) : tcp :=
  mk_tcp l (listeners t) (next_ephemeral_port t) (accept_seq t) (ips t).
Definition set_conn (i : nat) (c : tcp_conn) (t : tcp) : tcp := set_conns (<[i := c]> (conns t)) t.
Definition set_ips (s : I) (t : tcp) : tcp :=
  mk_tcp (conns t) (listeners t) (next_ephemeral_port t) (accept_seq t) s.

Definition tcp_init (t : tcp) : tcp :=
  mk_tcp (replicate TCP_MAX_CONNS conn_zero)
    (replicate TCP_MAX_LISTENERS (mk_listener false 0 0)) (next_ephemeral_port t) 0 (ips t).

Definition tcp_alloc (t : tcp) : option nat := first_index (λ c, negb (in_use c)) (conns t).

Definition conn_match (rip rport lport : Z) (c : tcp_conn) : bool :=
  in_use c && (remote_ip c =? rip) && (remote_port c =? rport) && (local_port c =? lport).
Definition tcp_find (rip rport lport : Z) (t : tcp) : option nat :=
  first_index (conn_match rip rport lport) (conns t).

Definition tcp_find_listener (port : Z) (t : tcp) : option nat :=
  first_index (λ l, l_used l && (l_port l =? port)) (listeners t).
Definition tcp_is_listening (port : Z) (t : tcp) : bool :=
  match tcp_find_listener port t with Some _ => true | None => false end.

Definition tcp_listen (port backlog : Z) (t : tcp) : bool * tcp :=
  if port =? 0 then (false, t)
  else if tcp_is_listening port t then (false, t)
  else
    let backlog := if backlog =? 0 then 1 else backlog in
    let backlog := if TCP_MAX_BACKLOG <? backlog then TCP_MAX_BACKLOG else backlog in
    match first_index (λ l, negb (l_used l)) (listeners t) with
    | Some i => (true, mk_tcp (conns t) (<[i := mk_listener true port backlog]> (listeners t))
                         (next_ephemeral_port t) (accept_seq t) (ips t))
    | None => (false, t)
    end.

Definition tcp_unlisten (port : Z) (t : tcp) : tcp :=
  match tcp_find_listener port t with
  | None => t
  | Some i =>
      let l := nth i (listeners t) (mk_listener false 0 0) in
      mk_tcp ((λ c, if in_use c && accept_pending c && (local_port c =? port) then release c else c)
                <$> conns t)
        (<[i := mk_listener false (l_port l) (l_backlog l)]> (listeners t))
        (next_ephemeral_port t) (accept_seq t) (ips t)
  end.

Definition stale (now : Z) (c : tcp_conn) : bool :=
  in_use c && ((bool_decide (state c = TCP_SYN_RCVD) &&
                (TCP_SYN_RCVD_TIMEOUT_MS <? u64 (now - last_activity_ms c))) ||
               (accept_pending c && bool_decide (state c = TCP_CLOSED))).
Definition tcp_reap_stale (t : tcp) : tcp :=
  set_conns ((λ c, if stale (uptime (ips t)) c then release c else c) <$> conns t) t.

Definition waiting (port : Z) (c : tcp_conn) : bool :=
  in_use c && (local_port c =? port) && (bool_decide (state c = TCP_SYN_RCVD) || accept_pending c).

Definition tcp_passive_open (src_ip rport lport peer_seq : Z) (t : tcp) : outcome tcp :=
  match tcp_find_listener lport t with
  | None => Ret t
  | Some li =>
      let pending := Z.of_nat (length (filter (λ c, waiting lport c = true) (conns t))) in
      if l_backlog (nth li (listeners t) (mk_listener false 0 0)) <=? pending then Ret t
      else
        let '(slot, t) := match tcp_alloc t with
                          | Some i => (Some i, t)
                          | None => let t := tcp_reap_stale t in (tcp_alloc t, t)
                          end in
        match slot with
        | None => Ret t
        | Some i =>
            let '(r, s) := random_u64 (ips t) in
            let iss := u32 r in
            let order := u32 (accept_seq t + 1) in
            let c := mk_conn true TCP_SYN_RCVD src_ip rport lport iss iss (u32 (peer_seq + 1))
                       (λ _, 0) 0 [] false false (uptime s) true order in
            let* (_, s) := tcp_send_segment c (TCP_FLAG_SYN + TCP_FLAG_ACK) [] s in
            Ret (mk_tcp (<[i := set_snd (u32 (iss + 1)) iss c]> (conns t)) (listeners t)
                   (next_ephemeral_port t) order s)
        end
  end.

(** The oldest ticket wins; tickets compare as signed differences. *)
Fixpoint accept_scan (port : Z) (l : list tcp_conn) (i : nat) (best : option (nat * Z)) :
    option (nat * Z) :=
  match l with
  | [] => best
  | c :: r =>
      let ok := in_use c && accept_pending c && (local_port c =? port) &&
                (bool_decide (state c = TCP_ESTABLISHED) || bool_decide (state c = TCP_CLOSE_WAIT)) in
      let best' := match best with
                   | None => Some (i, accept_order c)
                   | Some (_, o) => if sdiff (accept_order c) o <? 0 then Some (i, accept_order c) else best
                   end in
      accept_scan port r (S i) (if ok then best' else best)
  end.

Definition tcp_accept (port : Z) (t : tcp) : option (nat * Z * Z) * tcp :=
  let t := tcp_reap_stale t in
  match accept_scan port (conns t) 0 None with
  | None => (None, t)
  | Some (i, _) =>
      let c := nth i (conns t) conn_zero in
      (Some (i, remote_ip c, remote_port c), set_conn i (set_pending false c) t)
  end.

Definition tcp_abort (i : nat) (t : tcp) : outcome tcp :=
  let c := nth i (conns t) conn_zero in
  if negb (in_use c) then Ret t
  else
    let* s := (if bool_decide (state c ∈ [TCP_ESTABLISHED; TCP_CLOSE_WAIT; TCP_FIN_WAIT; TCP_SYN_RCVD])
               then let* (_, s) := tcp_send_segment c (TCP_FLAG_RST + TCP_FLAG_ACK) [] (ips t) in Ret s
               else Ret (ips t)) in
    Ret (set_ips s (set_conn i (release c) t)).

Definition tcp_is_closed (i : nat) (t : tcp) : bool :=
  bool_decide (state (nth i (conns t) conn_zero) = TCP_CLOSED).

(** ** The segment handler *)

Record segment := mk_seg {
  sg_sport : Z; sg_dport : Z; sg_seq : Z; sg_ack : Z; sg_flags : Z; sg_data : list Z
}.

Definition tcp_parse (seg : list Z) : option segment :=
  let len := Z.of_nat (length seg) in
  if len <? 20 then None
  else
    let data_off := u8 (Z.shiftr (byte seg 12) 4 * 4) in
    if (data_off <? 20) || (len <? data_off) then None
    else Some (mk_seg (net_ntohs (rd16 seg 0)) (net_ntohs (rd16 seg 2)) (net_ntohl (rd32 seg 4))
                 (net_ntohl (rd32 seg 8)) (byte seg 13) (drop (Z.to_nat data_off) seg)).

Definition tcp_reply_rst (src_ip : Z) (g : segment) (s : I) : outcome I :=
  if flag (sg_flags g) TCP_FLAG_RST then Ret s
  else if negb (ipl_configured s) then Ret s
  else if flag (sg_flags g) TCP_FLAG_ACK then
    let* (_, s) := tcp_send_raw src_ip (sg_sport g) (sg_dport g) (sg_ack g) 0 TCP_FLAG_RST 0 [] s in
    Ret s
  else
    let seg_len := Z.of_nat (length (sg_data g)) +
      (if flag (sg_flags g) TCP_FLAG_SYN then 1 else 0) + (if flag (sg_flags g) TCP_FLAG_FIN then 1 else 0) in
    let* (_, s) := tcp_send_raw src_ip (sg_sport g) (sg_dport g) 0 (u32 (sg_seq g + seg_len))
                     (TCP_FLAG_RST + TCP_FLAG_ACK) 0 [] s in
    Ret s.

(** Handling in state SYN_RCVD; [None] means the handler returns there. *)
Definition syn_rcvd_step (g : segment) (c : tcp_conn) (s : I) : outcome (option tcp_conn * tcp_conn * I) :=
  if flag (sg_flags g) TCP_FLAG_RST then Ret (None, release c, s)
  else if flag (sg_flags g) TCP_FLAG_SYN && negb (flag (sg_flags g) TCP_FLAG_ACK) then
    let c := set_snd (snd_una c) (snd_una c) c in
    let* (_, s) := tcp_send_segment c (TCP_FLAG_SYN + TCP_FLAG_ACK) [] s in
    Ret (None, set_snd (u32 (snd_una c + 1)) (snd_una c) c, s)
  else if negb (flag (sg_flags g) TCP_FLAG_ACK) || negb (sg_ack g =? snd_nxt c) then Ret (None, c, s)
  else
    let c := set_state TCP_ESTABLISHED (set_snd (snd_nxt c) (sg_ack g) c) in
    Ret (Some c, c, s).

Definition syn_sent_step (g : segment) (c : tcp_conn) (s : I) : outcome (tcp_conn * I) :=
  if flag (sg_flags g) TCP_FLAG_SYN && flag (sg_flags g) TCP_FLAG_ACK then
    let c := set_rcv_nxt (u32 (sg_seq g + 1)) c in
    let c := set_snd (if snd_nxt c <? sg_ack g then sg_ack g else snd_nxt c) (sg_ack g) c in
    let c := set_state TCP_ESTABLISHED c in
    let* (_, s) := tcp_send_segment c TCP_FLAG_ACK [] s in
    Ret (c, s)
  else Ret (c, s).

Definition data_step (g : segment) (c : tcp_conn) (s : I) : outcome (tcp_conn * I) :=
  if 0 <? Z.of_nat (length (sg_data g)) then
    let* c := rx_segment (sg_seq g) (sg_data g) c in
    let* (_, s) := tcp_send_segment c TCP_FLAG_ACK [] s in
    Ret (c, s)
  else Ret (c, s).

Definition fin_step (g : segment) (c : tcp_conn) (s : I) : outcome (tcp_conn * I) :=
  if flag (sg_flags g) TCP_FLAG_FIN &&
     (u32 (sg_seq g + Z.of_nat (length (sg_data g))) =? rcv_nxt c) then
    let c := set_rcv_nxt (u32 (rcv_nxt c + 1)) c in
    let c := set_flags true (reset c) c in
    let* (_, s) := tcp_send_segment c TCP_FLAG_ACK [] s in
    let c := match state c with
             | TCP_ESTABLISHED => set_state TCP_CLOSE_WAIT c
             | TCP_FIN_WAIT => set_state TCP_CLOSED c
             | _ => c
             end in
    Ret (c, s)
  else if flag (sg_flags g) TCP_FLAG_ACK && bool_decide (state c = TCP_FIN_WAIT) &&
          (snd_una c =? snd_nxt c) then Ret (set_state TCP_CLOSED c, s)
  else Ret (c, s).

(** From the RST check to the end of [tcp_handle_packet]. *)
Definition established_step (g : segment) (c : tcp_conn) (s : I) : outcome (tcp_conn * I) :=
  if flag (sg_flags g) TCP_FLAG_RST then
    Ret (set_state TCP_CLOSED (set_flags (remote_closed c) true c), s)
  else if bool_decide (state c = TCP_SYN_SENT) then syn_sent_step g c s
  else
    let c := if flag (sg_flags g) TCP_FLAG_ACK && (snd_una c <? sg_ack g)
             then set_snd (snd_nxt c) (sg_ack g) c else c in
    let* (c, s) := data_step g c s in
    fin_step g c s.

Definition conn_step (g : segment) (c : tcp_conn) (s : I) : outcome (tcp_conn * I) :=
  let c := set_activity (uptime s) c in
  if bool_decide (state c = TCP_SYN_RCVD) then
    let* (go, c, s) := syn_rcvd_step g c s in
    match go with
    | None => Ret (c, s)
    | Some c => established_step g c s
    end
  else established_step g c s.

Definition tcp_handle_packet (src_ip : Z) (seg : list Z) (t : tcp) : outcome tcp :=
  match tcp_parse seg with
  | None => Ret t
  | Some g =>
      match tcp_find src_ip (sg_sport g) (sg_dport g) t with
      | None =>
          if flag (sg_flags g) TCP_FLAG_SYN && negb (flag (sg_flags g) TCP_FLAG_ACK) &&
             tcp_is_listening (sg_dport g) t
          then tcp_passive_open src_ip (sg_sport g) (sg_dport g) (sg_seq g) t
          else let* s := tcp_reply_rst src_ip g (ips t) in Ret (set_ips s t)
      | Some i =>
          let* (c, s) := conn_step g (nth i (conns t) conn_zero) (ips t) in
          Ret (set_ips s (set_conn i c t))
      end
  end.

(** ** Blocking calls

    [poll] is [network_manager_poll]: it hands received frames to the stack;
    [iters ms] is how often a timed wait goes round. *)
  Context (poll : tcp → tcp) (iters : Z → nat).

Definition the_conn (i : nat) (t : tcp) : tcp_conn := nth i (conns t) conn_zero.

Definition tcp_recv (i : nat) (maxlen : Z) (t : tcp) : Z * list Z * tcp :=
  if negb (in_use (the_conn i t)) then (-1, [], t)
  else
    let t := poll t in
    let '(r, out, c) := tcp_recv_conn maxlen (the_conn i t) in
    (r, out, set_conn i c t).

(** Choosing a local port no listener owns. *)
Fixpoint pick_port (fuel : nat) (t : tcp) : outcome (Z * tcp) :=
  match fuel with
  | O => Hang
  | S fuel' =>
      let p := next_ephemeral_port t in
      let nxt := if u16 (p + 1) =? 0 then 49152 else u16 (p + 1) in
      let t := mk_tcp (conns t) (listeners t) nxt (accept_seq t) (ips t) in
      if tcp_is_listening p t then pick_port fuel' t else Ret (p, t)
  end.

(** Polling until [stop] holds of connection [i]. *)
Fixpoint wait_for (k : nat) (i : nat) (stop : tcp_conn → bool) (t : tcp) : bool * tcp :=
  match k with
  | O => (false, t)
  | S k' =>
      let t := poll t in
      if stop (the_conn i t) then (true, t) else wait_for k' i stop t
  end.

Fixpoint connect_attempts (k : nat) (i : nat) (t : tcp) : outcome (option nat * tcp) :=
  match k with
  | O => Ret (None, set_conn i (set_unused (the_conn i t)) t)
  | S k' =>
      let* (ok, s) := tcp_send_segment (the_conn i t) TCP_FLAG_SYN [] (ips t) in
      let t := set_ips s t in
      if negb ok then Ret (None, set_conn i (set_unused (the_conn i t)) t)
      else
        let '(hit, t) := wait_for (iters TCP_RETRANSMIT_MS) i
             (λ c, bool_decide (state c = TCP_ESTABLISHED) || reset c) t in
        if (hit : bool) then
          if bool_decide (state (the_conn i t) = TCP_ESTABLISHED) then Ret (Some i, t)
          else Ret (None, set_conn i (set_unused (the_conn i t)) t)
        else connect_attempts k' i t
  end.

Definition tcp_connect (dst_ip dst_port : Z) (t : tcp) : outcome (option nat * tcp) :=
  match tcp_alloc t with
  | None => Ret (None, t)
  | Some i =>
      let* (port, t) := pick_port (S (length (listeners t))) t in
      let now := uptime (ips t) in
      let isn := u32 (u32 now * 1000 + 1) in
      let c := mk_conn true TCP_SYN_SENT dst_ip dst_port port isn isn 0 (λ _, 0) 0 [] false false
                 now false 0 in
      connect_attempts TCP_MAX_RETRIES i (set_conn i c t)
  end.

Definition tcp_close (i : nat) (t : tcp) : outcome tcp :=
  let c := the_conn i t in
  if negb (in_use c) then Ret t
  else
    let* t := (if bool_decide (state c ∈ [TCP_ESTABLISHED; TCP_CLOSE_WAIT]) then
                 let* (_, s) := tcp_send_segment c (TCP_FLAG_FIN + TCP_FLAG_ACK) [] (ips t) in
                 let c := set_state TCP_FIN_WAIT (set_snd (u32 (snd_nxt c + 1)) (snd_una c) c) in
                 let t := set_ips s (set_conn i c t) in
                 Ret (wait_for (iters 500) i (λ c, bool_decide (state c = TCP_CLOSED)) t).2
               else Ret t) in
    Ret (set_conn i (release (the_conn i t)) t).

(** Filling the send window; each round sends at least one byte. *)
Fixpoint fill_window (fuel : nat) (i : nat) (base acked sent_off : Z) (data : list Z) (t : tcp) :
    outcome (Z * tcp) :=
  match fuel with
  | O => Hang
  | S fuel' =>
      let len := Z.of_nat (length data) in
      if (sent_off <? len) && (u32 (sent_off - acked) <? TCP_SEG_SIZE * TCP_SEND_WINDOW_SEGS) then
        let n := Z.min (len - sent_off) TCP_SEG_SIZE in
        let c := the_conn i t in
        let c := set_snd (u32 (base + sent_off)) (snd_una c) c in
        let* (ok, s) := tcp_send_segment c (TCP_FLAG_ACK + TCP_FLAG_PSH)
                          (take (Z.to_nat n) (drop (Z.to_nat sent_off) data)) (ips t) in
        let t := set_ips s (set_conn i c t) in
        if (ok : bool) then fill_window fuel' i base acked (sent_off + n) data t
        else Ret (sent_off, t)
      else Ret (sent_off, t)
  end.

(** What the peer has acknowledged, as the wait loop computes it. *)
Definition acked_now (base len : Z) (c : tcp_conn) : Z :=
  let d := sdiff (snd_una c) base in
  let d := if d <? 0 then 0 else d in
  if len <? d then i32 len else d.

Fixpoint wait_ack (k : nat) (i : nat) (base len acked : Z) (t : tcp) : option Z * bool * tcp :=
  match k with
  | O => (None, false, t)
  | S k' =>
      let t := poll t in
      let c := the_conn i t in
      let d := acked_now base len c in
      if acked <? u32 d then (Some (u32 d), false, t)
      else if reset c || bool_decide (state c = TCP_CLOSED) then (None, true, t)
      else wait_ack k' i base len acked t
  end.

Fixpoint send_loop (fuel retries : nat) (i : nat) (base acked sent_off : Z) (data : list Z)
    (t : tcp) : outcome (Z * tcp) :=
  match fuel with
  | O => Hang
  | S fuel' =>
      let len := Z.of_nat (length data) in
      if acked <? len then
        let* (sent_off, t) := fill_window (S (length data)) i base acked sent_off data t in
        let '(progress, dead, t) := wait_ack (iters TCP_RETRANSMIT_MS) i base len acked t in
        if (dead : bool) then Ret (acked, t)
        else
          match progress with
          | Some d => send_loop fuel' 0 i base d (if sent_off <? d then d else sent_off) data t
          | None =>
              if (TCP_MAX_RETRIES <=? S retries)%nat then Ret (acked, t)
              else send_loop fuel' (S retries) i base acked acked data t
          end
      else Ret (acked, t)
  end.

(** Six rounds without progress per acknowledged byte bound the loop. *)
Definition tcp_send (i : nat) (data : list Z) (t : tcp) : outcome (Z * tcp) :=
  let c := the_conn i t in
  if negb (in_use c) || negb (bool_decide (state c = TCP_ESTABLISHED)) then Ret (-1, t)
  else if Z.of_nat (length data) =? 0 then Ret (0, t)
  else
    let base := snd_nxt c in
    let* (acked, t) := send_loop (S (6 * (S (length data)))) 0 i base 0 0 data t in
    let c := the_conn i t in
    Ret (i32 acked, set_conn i (set_snd (u32 (base + acked)) (snd_una c) c) t).
End tcp.

#[global] Arguments tcp : clear implicits.

(** ** The receive stream

    [S] is the byte stream the peer sends, [sq x] the sequence number of its
    byte [x]; [A] is the stream position of [rcv_nxt]. *)

Lemma swap_remove_spec (P : Z * Z → Prop) i l :
  (i < length l)%nat → Forall P l →
  Forall P (swap_remove i l) ∧ length (swap_remove i l) = (length l - 1)%nat.
Proof.
  intros Hi HP. unfold swap_remove.
  assert (P (List.last l (0, 0))) as Hlast.
  { destruct l as [|x l] using rev_ind; [simpl in Hi; lia|]. rewrite last_last.
    apply Forall_app in HP as [_ HP]. apply Forall_cons in HP as [HP _]. exact HP. }
  assert (Forall P (<[i := List.last l (0, 0)]> l)) as HF by (by apply Forall_insert).
  assert (length (<[i := List.last l (0, 0)]> l) = length l) as Hlen by apply length_insert.
  set (l' := <[i := _]> l) in *. clearbody l'. destruct l' as [|y l'] using rev_ind; [simpl in Hlen; lia|].
  rewrite removelast_last. rewrite length_app in Hlen. simpl in Hlen.
  apply Forall_app in HF as [HF _]. split; [done|lia].
Qed.

Section stream.
  Context (isn : Z) (S : Z → Z).

Definition sq (x : Z) : Z := u32 (isn + x).

Lemma sdiff_sq x y : - 2 ^ 31 < x - y < 2 ^ 31 → sdiff (sq x) (sq y) = x - y.
Proof. intros. unfold sdiff, sq. wrap_lia. Qed.

Lemma sq_add x n : u32 (sq x + n) = sq (x + n).
Proof. unfold sq. wrap_lia. Qed.

(** A recorded range: its bytes are in the buffer at their place. *)
Definition rng (A len : Z) (buf : Z → Z) (lo : Z) (r : Z * Z) : Prop :=
  ∃ s e, r = (sq s, sq e) ∧ lo < s ∧ s < e ∧ len + (e - A) ≤ TCP_RX_BUF_SIZE ∧
    ∀ j, s ≤ j < e → buf (len + (j - A)) = S j.

Record rx_ok (c : tcp_conn) (A lo : Z) : Prop := {
  ro_nxt : rcv_nxt c = sq A;
  ro_len : 0 ≤ rx_len c ≤ TCP_RX_BUF_SIZE;
  ro_lo : A - rx_len c ≤ lo ≤ A;
  ro_buf : ∀ i, 0 ≤ i < rx_len c → rx_buf c i = S (A - rx_len c + i);
  ro_ooo : Forall (rng A (rx_len c) (rx_buf c) lo) (ooo c);
  ro_few : (length (ooo c) ≤ TCP_OOO_RANGES)%nat
}.

Lemma join_index_Some rcv l i :
  join_index rcv l = Some i → ∃ s e, l !! i = Some (s, e) ∧ sdiff s rcv ≤ 0.
Proof.
  revert i. induction l as [|[s e] l IH]; intros i; simpl; [done|].
  destruct (Z.ltb_spec 0 (sdiff s rcv)).
  - intros (j & Hj & ->)%fmap_Some. by apply IH.
  - intros [= <-]. by exists s, e.
Qed.

Lemma join_index_None rcv l : join_index rcv l = None → Forall (λ r, 0 < sdiff r.1 rcv) l.
Proof.
  induction l as [|[s e] l IH]; simpl; [by constructor|].
  destruct (Z.ltb_spec 0 (sdiff s rcv)); [|done]. intros H'%fmap_None. constructor; auto.
Qed.

Lemma join_ok fuel : ∀ c A lo,
  rx_ok c A lo → (length (ooo c) < fuel)%nat →
  let c' := tcp_ooo_join fuel c in
  ∃ A', A ≤ A' ∧ rx_ok c' A' A' ∧ A' - rx_len c' = A - rx_len c.
Proof.
  unfold TCP_RX_BUF_SIZE, TCP_OOO_RANGES.
  induction fuel as [|fuel IH]; intros c A lo [Hn Hl Hlo Hb Ho Hf] Hfuel; [lia|]. cbn [tcp_ooo_join].
  unfold TCP_RX_BUF_SIZE, TCP_OOO_RANGES in *.
  destruct (join_index (rcv_nxt c) (ooo c)) as [i|] eqn:E.
  - destruct (join_index_Some _ _ _ E) as (s & e & Hi & Hs). rewrite (nth_lookup_Some _ _ _ _ Hi). simpl.
    rewrite Forall_lookup in Ho. destruct (Ho i _ Hi) as (s' & e' & [= -> ->] & H1 & H2 & H3 & H4).
    rewrite <- Forall_lookup in Ho. unfold TCP_RX_BUF_SIZE in H3.
    rewrite Hn in Hs. rewrite sdiff_sq in Hs by lia. rewrite Hn, sdiff_sq by lia.
    pose proof (lookup_lt_Some _ _ _ Hi) as Hlt.
    destruct (Z.ltb_spec 0 (e' - A)).
    + set (c1 := set_rcv_nxt _ _). destruct (swap_remove_spec _ i (ooo c) Hlt Ho) as [Ho' Hlen'].
      destruct (IH (set_ooo (swap_remove i (ooo c1)) c1) e' lo) as (A' & ? & ? & E').
      * subst c1. rewrite sq_add, (u32_small (rx_len c + _)) by (unfold is_u32; lia).
        constructor; simpl; unfold TCP_RX_BUF_SIZE, TCP_OOO_RANGES.
        -- f_equal. lia.
        -- lia.
        -- lia.
        -- intros k Hk. destruct (Z.ltb_spec k (rx_len c)).
           ++ rewrite Hb by lia. f_equal. lia.
           ++ replace k with (rx_len c + (A - rx_len c + k - A)) at 1 by lia. rewrite H4 by lia. f_equal. lia.
        -- apply (Forall_impl _ _ _ Ho'). intros r (s2 & e2 & -> & ? & ? & ? & Hr). exists s2, e2.
           unfold TCP_RX_BUF_SIZE in *. split_and!; try done; try lia. intros j Hj.
           rewrite <- (Hr j Hj). f_equal. lia.
        -- lia.
      * subst c1. simpl. lia.
      * exists A'. subst c1. simpl in *. rewrite (u32_small (rx_len c + _)) in * by (unfold is_u32; lia).
        split_and!; try done; lia.
    + destruct (swap_remove_spec _ i (ooo c) Hlt Ho) as [Ho' Hlen'].
      destruct (IH (set_ooo (swap_remove i (ooo c)) c) A lo) as (A' & ? & ? & ?); [|simpl; lia|by exists A'].
      constructor; simpl; try done. unfold TCP_OOO_RANGES. lia.
  - exists A. split_and!; try done. constructor; try done; try lia.
    apply join_index_None in E. rewrite Forall_lookup in *. intros i r Hi.
    destruct (Ho i r Hi) as (s & e & -> & H1 & H2 & H3 & H4). exists s, e. unfold TCP_RX_BUF_SIZE in *.
    specialize (E i _ Hi). simpl in E. rewrite Hn, sdiff_sq in E by lia. split_and!; try done; lia.
Qed.

(** The bytes of a segment are the stream's. *)
Definition carries (q : Z) (data : list Z) : Prop := ∀ i v, data !! i = Some v → v = S (q + Z.of_nat i).

Lemma rx_write_ok off data c :
  0 ≤ off → off + Z.of_nat (length data) ≤ TCP_RX_BUF_SIZE →
  rx_write off data c = Ret (set_rx (λ x, if (off <=? x) && (x <? off + Z.of_nat (length data))
    then default 0 (data !! Z.to_nat (x - off)) else rx_buf c x) (rx_len c) c).
Proof.
  intros H1 H2. unfold rx_write. by rewrite (proj2 (Z.ltb_ge _ _)), (proj2 (Z.ltb_ge _ _)) by lia.
Qed.

(** Writing stream bytes at their place keeps every byte that was right. *)
Lemma written_right q data off A len buf j :
  carries q data → off = len + (q - A) → 
  (¬ (q ≤ j < q + Z.of_nat (length data)) → buf (len + (j - A)) = S j) →
  (if (off <=? len + (j - A)) && (len + (j - A) <? off + Z.of_nat (length data))
   then default 0 (data !! Z.to_nat (len + (j - A) - off)) else buf (len + (j - A))) = S j.
Proof.
  intros Hc -> Hout. destruct (decide (q ≤ j < q + Z.of_nat (length data))) as [Hin|Hin].
  - rewrite (proj2 (Z.leb_le _ _)), (proj2 (Z.ltb_lt _ _)) by lia. simpl.
    replace (Z.to_nat (len + (j - A) - (len + (q - A)))) with (Z.to_nat (j - q)) by lia.
    destruct (lookup_lt_is_Some_2 data (Z.to_nat (j - q))) as [v Hv]; [lia|]. rewrite Hv. simpl.
    rewrite (Hc _ _ Hv). f_equal. lia.
  - rewrite (Hout Hin). destruct (Z.leb_spec (len + (q - A)) (len + (j - A))),
      (Z.ltb_spec (len + (j - A)) (len + (q - A) + Z.of_nat (length data))); simpl; try done. lia.
Qed.

Lemma carries_take q data n : carries q data → carries q (take n data).
Proof. intros H i v Hv. apply H. apply lookup_take_Some in Hv. tauto. Qed.

Lemma in_order_ok c A data :
  rx_ok c A A → carries A data → Z.of_nat (length data) < 2 ^ 16 →
  ∃ c' A', rx_in_order data c = Ret c' ∧ A ≤ A' ∧ rx_ok c' A' A' ∧ A' - rx_len c' = A - rx_len c.
Proof.
  intros Hok Hc Hlen. pose proof Hok as [Hn Hl Hlo Hb Ho Hf]. unfold rx_in_order.
  unfold TCP_RX_BUF_SIZE in *. rewrite (u32_small (32768 - rx_len c)) by (unfold is_u32; lia).
  set (n := if _ <? _ then _ else _).
  assert (n = Z.min (Z.of_nat (length data)) (32768 - rx_len c)) as En.
  { subst n. case_if; bool_to_prop; lia. }
  clearbody n. assert (Z.of_nat (length (take (Z.to_nat n) data)) = n) as Elen by (rewrite length_take; lia).
  rewrite rx_write_ok by (unfold TCP_RX_BUF_SIZE; lia). cbn [obind]. cbv zeta. rewrite Elen.
  set (c1 := set_rcv_nxt _ _).
  assert (rx_ok c1 (A + n) A) as Hok1.
  { subst c1. simpl. rewrite (u32_small (rx_len c + n)) by (unfold is_u32; lia).
    assert (∀ j, (¬ (A ≤ j < A + n) → rx_buf c (rx_len c + (j - A)) = S j) →
      (if (rx_len c <=? rx_len c + (j - A)) && (rx_len c + (j - A) <? rx_len c + n)
       then default 0 (take (Z.to_nat n) data !! Z.to_nat (rx_len c + (j - A) - rx_len c))
       else rx_buf c (rx_len c + (j - A))) = S j) as Hw.
    { intros j Hj. rewrite <- Elen at 1. apply (written_right A); [by apply carries_take|lia|]. by rewrite Elen. }
    constructor; simpl; unfold TCP_RX_BUF_SIZE, TCP_OOO_RANGES in *; try lia.
    - rewrite Hn. apply sq_add.
    - intros i Hi. specialize (Hw (A - rx_len c + i)).
      replace (rx_len c + (A - rx_len c + i - A)) with i in Hw by lia.
      rewrite Hw; [f_equal; lia|]. intros Hout. apply Hb. lia.
    - apply (Forall_impl _ _ _ Ho). intros r (s & e & -> & ? & ? & ? & Hr). exists s, e.
      unfold TCP_RX_BUF_SIZE in *. split_and!; try done; try lia. intros j Hj.
      replace (rx_len c + n + (j - (A + n))) with (rx_len c + (j - A)) by lia.
      apply Hw. intros _. by apply Hr. }
  destruct (join_ok (Datatypes.S (length (ooo c1))) c1 (A + n) A Hok1) as (A' & ? & ? & E'); [lia|].
  eexists _, A'. split; [done|]. split_and!; [lia|done|]. rewrite E'. subst c1. simpl.
  rewrite (u32_small (rx_len c + n)) by (unfold is_u32; lia). lia.
Qed.

Lemma ooo_merge_ok q n A len buf fuel : ∀ i s0 e0 l s' e' l',
  Forall (rng A len buf A) l → A < s0 → s0 < e0 → 0 ≤ len → len + (e0 - A) ≤ TCP_RX_BUF_SIZE →
  (∀ j, s0 ≤ j < e0 → ¬ (q ≤ j < q + n) → buf (len + (j - A)) = S j) →
  ooo_merge fuel i (sq s0) (sq e0) l = (s', e', l') →
  Forall (rng A len buf A) l' ∧ (length l' ≤ length l)%nat ∧ ∃ s1 e1, s' = sq s1 ∧ e' = sq e1 ∧
    A < s1 ∧ s1 ≤ s0 ∧ e0 ≤ e1 ∧ len + (e1 - A) ≤ TCP_RX_BUF_SIZE ∧
    (∀ j, s1 ≤ j < e1 → ¬ (q ≤ j < q + n) → buf (len + (j - A)) = S j).
Proof.
  induction fuel as [|fuel IH]; intros i s0 e0 l s' e' l' Ho H1 H2 Hl0 H3 H4; simpl.
  { intros [= <- <- <-]. split_and!; try done. exists s0, e0. split_and!; try done; lia. }
  destruct (l !! i) as [[si ei]|] eqn:Hi.
  2:{ intros [= <- <- <-]. split_and!; try done. exists s0, e0. split_and!; try done; lia. }
  pose proof Ho as Ho'. rewrite Forall_lookup in Ho'. destruct (Ho' i _ Hi) as (s & e & [= -> ->] & R1 & R2 & R3 & R4).
  unfold TCP_RX_BUF_SIZE in *. rewrite !sdiff_sq by lia.
  destruct (Z.leb_spec (s0 - e) 0), (Z.leb_spec (s - e0) 0); simpl; try (by apply IH).
  assert ((if s - s0 <? 0 then sq s else sq s0) = sq (Z.min s s0)) as ->.
  { destruct (Z.ltb_spec (s - s0) 0); f_equal; lia. }
  assert ((if 0 <? e - e0 then sq e else sq e0) = sq (Z.max e e0)) as ->.
  { destruct (Z.ltb_spec 0 (e - e0)); f_equal; lia. }
  destruct (swap_remove_spec _ i l (lookup_lt_Some _ _ _ Hi) Ho) as [Ho2 Hlen2].
  assert (∀ j, Z.min s s0 ≤ j < Z.max e e0 → ¬ (q ≤ j < q + n) → buf (len + (j - A)) = S j) as Hcov.
  { intros j Hj Hq. destruct (decide (s0 ≤ j < e0)); [by apply H4|apply R4; lia]. }
  intros E. destruct (IH i (Z.min s s0) (Z.max e e0) _ _ _ _ Ho2 ltac:(lia) ltac:(lia) Hl0 ltac:(lia) Hcov E)
    as (? & ? & s1 & e1 & ? & ? & ? & ? & ? & ? & ?).
  split_and!; try done; [lia|]. exists s1, e1. split_and!; try done; lia.
Qed.

Lemma store_ok c A q data :
  rx_ok c A A → carries q data → data ≠ [] → Z.of_nat (length data) < 2 ^ 16 → - 2 ^ 30 ≤ q - A ≤ 2 ^ 30 →
  ∃ c', tcp_ooo_store (sq q) data c = Ret c' ∧ rx_ok c' A A ∧ rx_len c' = rx_len c.
Proof.
  intros Hok Hc Hne Hlen Hq. pose proof Hok as [Hn Hl Hlo Hb Ho Hf]. unfold tcp_ooo_store.
  rewrite Hn, sdiff_sq by lia. unfold TCP_RX_BUF_SIZE, TCP_OOO_RANGES in *.
  destruct (Z.leb_spec (q - A) 0); [by exists c|].
  destruct (Z.ltb_spec 32768 (rx_len c + (q - A) + Z.of_nat (length data))); [by exists c|].
  rewrite sq_add. assert (0 < Z.of_nat (length data)) by (destruct data; [done|simpl; lia]).
  destruct (ooo_merge _ _ _ _ _) as [[s' e'] l'] eqn:E.
  destruct (ooo_merge_ok q (Z.of_nat (length data)) A (rx_len c) (rx_buf c) (length (ooo c)) 0 q (q + Z.of_nat (length data)) (ooo c) s' e' l' Ho) as
    (Ho' & Hlen' & s1 & e1 & -> & -> & M1 & M2 & M3 & M4 & M5); try done; try (unfold TCP_RX_BUF_SIZE; lia).
  unfold TCP_RX_BUF_SIZE in M4.
  destruct (Nat.leb_spec 4 (length l')).
  { eexists. split; [done|]. split; [|done]. constructor; try done; simpl; unfold TCP_OOO_RANGES; lia. }
  rewrite rx_write_ok by (simpl; unfold TCP_RX_BUF_SIZE; lia). cbn [obind]. eexists. split; [done|]. split; [|done].
  assert (∀ j, (¬ (q ≤ j < q + Z.of_nat (length data)) → rx_buf c (rx_len c + (j - A)) = S j) →
      (if (rx_len c + (q - A) <=? rx_len c + (j - A)) && (rx_len c + (j - A) <? rx_len c + (q - A) + Z.of_nat (length data))
       then default 0 (data !! Z.to_nat (rx_len c + (j - A) - (rx_len c + (q - A))))
       else rx_buf c (rx_len c + (j - A))) = S j) as Hw.
  { intros j Hj. by apply (written_right q). }
  constructor; simpl; unfold TCP_RX_BUF_SIZE, TCP_OOO_RANGES; try done.
  - intros i Hi. specialize (Hw (A - rx_len c + i)).
    replace (rx_len c + (A - rx_len c + i - A)) with i in Hw by lia. apply Hw. intros _. by apply Hb.
  - apply Forall_app. split; [|apply Forall_singleton].
    + apply (Forall_impl _ _ _ Ho'). intros r (s & e & -> & ? & ? & ? & Hr). exists s, e.
      split_and!; try done. intros j Hj. apply Hw. intros _. by apply Hr.
    + exists s1, e1. unfold TCP_RX_BUF_SIZE. split_and!; try done; try lia.
      intros j Hj. apply Hw. intros Hout. by apply M5.
  - rewrite length_app. simpl. lia.
Qed.

(** The largest distance a kept range reaches past [rcv_nxt]. *)
Lemma extent_fold rcv (l : list (Z * Z)) : ∀ x0,
  0 ≤ x0 → let x := foldl (λ extent '(_, e), let d := u32 (e - rcv) in
    if (0 <? i32 d) && (extent <? d) then d else extent) x0 l in
  x0 ≤ x ∧ ∀ s e, (s, e) ∈ l → 0 < sdiff e rcv → sdiff e rcv ≤ x.
Proof.
  induction l as [|[s e] l IH]; intros x0 Hx0; simpl.
  { split; [lia|]. intros s e Hin. by apply elem_of_nil in Hin. }
  set (x1 := if _ && _ then _ else _).
  assert (x0 ≤ x1 ∧ (0 < sdiff e rcv → sdiff e rcv ≤ x1)) as [H1 H2].
  { subst x1. unfold sdiff. assert (i32 (u32 (e - rcv)) = i32 (e - rcv)) as -> by wrap_lia.
    assert (0 < i32 (e - rcv) → i32 (e - rcv) = u32 (e - rcv)) by wrap_lia.
    destruct (Z.ltb_spec 0 (i32 (e - rcv))), (Z.ltb_spec x0 (u32 (e - rcv))); simpl; lia. }
  destruct (IH x1 ltac:(lia)) as [H3 H4]. split; [by transitivity x1|].
  intros s' e' [[= -> ->]|Hin]%elem_of_cons Hp; [|by apply (H4 s')].
  transitivity x1; [by apply H2|done].
Qed.

Lemma recv_ok c A maxlen r out c' :
  rx_ok c A A → 0 ≤ maxlen < 2 ^ 31 → tcp_recv_conn maxlen c = (r, out, c') →
  rx_ok c' A A ∧ rx_len c' + Z.of_nat (length out) = rx_len c ∧
  (∀ i v, out !! i = Some v → v = S (A - rx_len c + Z.of_nat i)) ∧
  (0 < rx_len c → r = Z.of_nat (length out) ∧ r = Z.min (rx_len c) maxlen).
Proof.
  intros Hok Hm. pose proof Hok as [Hn Hl Hlo Hb Ho Hf]. unfold tcp_recv_conn, TCP_RX_BUF_SIZE in *.
  destruct (Z.eqb_spec (rx_len c) 0) as [E0|E0].
  { case_if; intros [= <- <- <-]; (split_and!; [done|simpl; lia|done|lia]). }
  set (n := if _ <? _ then _ else _). assert (n = Z.min (rx_len c) maxlen) as En.
  { subst n. case_if; bool_to_prop; lia. }
  clearbody n. intros [= <- <- <-]. simpl. rewrite length_fmap, length_seqZ.
  destruct (extent_fold (rcv_nxt c) (ooo c) 0 ltac:(lia)) as [Hx0 Hx].
  change (foldl _ 0 (ooo c)) with (tcp_ooo_extent c) in Hx0, Hx.
  split_and!; [|lia| |wrap_lia].
  - constructor; simpl; unfold TCP_RX_BUF_SIZE; try done; try lia.
    + intros i Hi. rewrite (proj2 (Z.leb_le _ _)), (proj2 (Z.ltb_lt _ _)) by lia. simpl.
      rewrite Hb by lia. f_equal. lia.
    + rewrite Forall_lookup in *. intros i rr Hi. destruct (Ho i rr Hi) as (s & e & -> & H1 & H2 & H3 & H4).
      exists s, e. unfold TCP_RX_BUF_SIZE in *. split_and!; try done; try lia. intros j Hj.
      assert (e - A ≤ tcp_ooo_extent c) as Hext.
      { rewrite Hn in Hx. rewrite <- (sdiff_sq e A) by lia. apply (Hx (sq s)).
        - apply list_elem_of_lookup. by exists i.
        - rewrite sdiff_sq; lia. }
      rewrite (proj2 (Z.leb_le _ _)), (proj2 (Z.ltb_lt _ _)) by lia. simpl.
      rewrite <- (H4 j Hj). f_equal. lia.
  - intros i v. rewrite list_lookup_fmap. intros (x & Hx' & ->)%fmap_Some.
    apply lookup_seqZ in Hx' as [-> ?]. rewrite Hb by lia. f_equal.
Qed.

(** Everything a client can observe of a connection's receive side: [out] is
    what [tcp_recv] has handed out so far. *)
Inductive rx_reach : tcp_conn → list Z → Prop :=
| rx_start c :
    rcv_nxt c = sq 0 → rx_len c = 0 → ooo c = [] → rx_reach c []
| rx_seg c out q data c' :
    rx_reach c out → data ≠ [] → Z.of_nat (length data) < 2 ^ 16 → carries q data →
    - 2 ^ 30 ≤ q - (Z.of_nat (length out) + rx_len c) ≤ 2 ^ 30 →
    rx_segment (sq q) data c = Ret c' → rx_reach c' out
| rx_recv c out maxlen r bytes c' :
    rx_reach c out → 0 ≤ maxlen < 2 ^ 31 → tcp_recv_conn maxlen c = (r, bytes, c') →
    rx_reach c' (out ++ bytes).

Lemma sq_inj x y : - 2 ^ 31 < x - y < 2 ^ 31 → sq x = sq y → x = y.
Proof. intros H E. pose proof (sdiff_sq x y H) as Hd. rewrite E in Hd. unfold sdiff in Hd. rewrite Z.sub_diag in Hd. change (i32 0) with 0 in Hd. lia. Qed.

Lemma segment_ok c A q data :
  rx_ok c A A → data ≠ [] → Z.of_nat (length data) < 2 ^ 16 → carries q data →
  - 2 ^ 30 ≤ q - A ≤ 2 ^ 30 →
  ∃ c' A', rx_segment (sq q) data c = Ret c' ∧ rx_ok c' A' A' ∧ A' - rx_len c' = A - rx_len c.
Proof.
  intros Hok Hne Hlen Hc Hq. unfold rx_segment. rewrite (ro_nxt _ _ _ Hok).
  destruct (Z.eqb_spec (sq q) (sq A)) as [E|E].
  - apply sq_inj in E as ->; [|lia]. destruct (in_order_ok c A data Hok Hc Hlen) as (c' & A' & ? & _ & ? & ?).
    by exists c', A'.
  - destruct (store_ok c A q data Hok Hc Hne Hlen Hq) as (c' & ? & ? & El). exists c', A.
    split_and!; try done. by rewrite El.
Qed.

Lemma rx_reach_inv c out :
  rx_reach c out →
  rx_ok c (Z.of_nat (length out) + rx_len c) (Z.of_nat (length out) + rx_len c) ∧
  ∀ i v, out !! i = Some v → v = S (Z.of_nat i).
Proof.
  induction 1 as [c Hn Hl Ho|c out q data c' _ [IH1 IH2] Hne Hlen Hc Hq E|c out maxlen r bytes c' _ [IH1 IH2] Hm E].
  - split; [|done]. rewrite Hl. constructor; rewrite ?Hl, ?Ho; try done; unfold TCP_RX_BUF_SIZE; simpl; try lia.
  - split; [|done]. destruct (segment_ok _ _ q data IH1 Hne Hlen Hc Hq) as (c2 & A' & E2 & Hok & Hst).
    rewrite E2 in E. injection E as ->. by replace (Z.of_nat (length out) + rx_len c') with A' by lia.
  - destruct (recv_ok _ _ _ _ _ _ IH1 Hm E) as (Hok & Hlen & Hb & _).
    rewrite length_app, Nat2Z.inj_add.
    replace (Z.of_nat (length out) + Z.of_nat (length bytes) + rx_len c') with (Z.of_nat (length out) + rx_len c) by lia.
    split; [done|]. intros i v [Hi|[Hge Hi]]%lookup_app_Some; [by apply IH2|].
    rewrite (Hb _ _ Hi). f_equal. lia.
Qed.
End stream.

(** C4. Reassembly is correct: however the network loses, repeats and reorders
    segments, and across wrap-around of the sequence numbers, what [tcp_recv]
    has handed out is exactly a prefix of the peer's byte stream; the
    acknowledged position [rcv_nxt] is that prefix plus what is buffered; and
    the next segment can always be handled without writing outside the
    receive buffer. *)
Theorem tcp_stream_correct isn S c out :
  rx_reach isn S c out →
  (∀ i v, out !! i = Some v → v = S (Z.of_nat i)) ∧
  rcv_nxt c = u32 (isn + Z.of_nat (length out) + rx_len c) ∧ 0 ≤ rx_len c ≤ TCP_RX_BUF_SIZE ∧
  (∀ q data, data ≠ [] → Z.of_nat (length data) < 2 ^ 16 → carries S q data →
     - 2 ^ 30 ≤ q - (Z.of_nat (length out) + rx_len c) ≤ 2 ^ 30 →
     ∃ c', rx_segment (u32 (isn + q)) data c = Ret c').
Proof.
  intros H. destruct (rx_reach_inv isn S c out H) as [Hok Hout]. split_and!; [done| |apply Hok|apply Hok|].
  - rewrite (ro_nxt _ _ _ _ _ Hok). unfold sq. f_equal. lia.
  - intros q data Hne Hlen Hc Hq.
    destruct (segment_ok isn S c _ q data Hok Hne Hlen Hc Hq) as (c' & _ & ? & _). by exists c'.
Qed.

(** ** The state machine *)

Section machine.
  Context {I : Type} `{IpLayer I}.

Lemma send_segment_total c flags data (s : I) :
  Z.of_nat (length data) ≤ 1460 → ∃ b s', tcp_send_segment c flags data s = Ret (b, s').
Proof.
  intros Hl. unfold tcp_send_segment, tcp_send_raw. rewrite (proj2 (Z.ltb_ge 1480 _)) by lia. cbv zeta.
  apply ipl_send_total. rewrite length_app. simpl (length (tcp_header _ _ _ _ _ _ _)). lia.
Qed.

Lemma join_state fuel c :
  state (tcp_ooo_join fuel c) = state c ∧ snd_una (tcp_ooo_join fuel c) = snd_una c ∧
  snd_nxt (tcp_ooo_join fuel c) = snd_nxt c ∧ in_use (tcp_ooo_join fuel c) = in_use c.
Proof.
  revert c. induction fuel as [|fuel IH]; intros c; simpl; [done|].
  destruct (join_index _ _); [|done]. set (c1 := set_ooo _ _). destruct (IH c1) as (-> & -> & -> & ->).
  subst c1. simpl. by destruct (0 <? _).
Qed.

Lemma rx_segment_state seq data c c' :
  rx_segment seq data c = Ret c' →
  state c' = state c ∧ snd_una c' = snd_una c ∧ snd_nxt c' = snd_nxt c ∧ in_use c' = in_use c.
Proof.
  unfold rx_segment, rx_in_order, tcp_ooo_store, rx_write.
  destruct (seq =? rcv_nxt c).
  - case_if; [done|]. cbn [obind].
    match goal with |- context [tcp_ooo_join ?f ?c1] =>
      pose proof (join_state f c1) as (E1 & E2 & E3 & E4); set (c2 := tcp_ooo_join f c1) in * end.
    clearbody c2. intros [= <-]. done.
  - case_if; [by intros [= <-]|]. case_if; [by intros [= <-]|].
    destruct (ooo_merge _ _ _ _ _) as [[s' e'] l']. case_if; [by intros [= <-]|].
    case_if; [done|]. cbn [obind]. by intros [= <-].
Qed.

(** The state changes one segment can cause. *)
Inductive tcp_trans : tcp_state → tcp_state → Prop :=
| tr_same x : tcp_trans x x
| tr_reset x : tcp_trans x TCP_CLOSED
| tr_open : tcp_trans TCP_SYN_SENT TCP_ESTABLISHED
| tr_accept : tcp_trans TCP_SYN_RCVD TCP_ESTABLISHED
| tr_accept_fin : tcp_trans TCP_SYN_RCVD TCP_CLOSE_WAIT
| tr_fin : tcp_trans TCP_ESTABLISHED TCP_CLOSE_WAIT.

Lemma data_step_state g c (s : I) c' s' :
  data_step g c s = Ret (c', s') →
  state c' = state c ∧ snd_una c' = snd_una c ∧ snd_nxt c' = snd_nxt c ∧ in_use c' = in_use c.
Proof.
  unfold data_step. case_if; [|by intros [= <- <-]].
  destruct (rx_segment _ _ _) as [c1| | |] eqn:E; cbn [obind]; try done.
  destruct (tcp_send_segment _ _ _ _) as [[b s1]| | |]; cbn [obind]; try done.
  intros [= <- <-]. by apply (rx_segment_state _ _ _ _ E).
Qed.

Lemma fin_step_state g c (s : I) c' s' :
  fin_step g c s = Ret (c', s') →
  snd_una c' = snd_una c ∧ snd_nxt c' = snd_nxt c ∧
  (state c' = state c ∨ state c = TCP_ESTABLISHED ∧ state c' = TCP_CLOSE_WAIT ∨
   state c = TCP_FIN_WAIT ∧ state c' = TCP_CLOSED).
Proof.
  unfold fin_step. case_if.
  - destruct (tcp_send_segment _ _ _ _) as [[b s1]| | |]; cbn [obind]; try done.
    intros [= <- <-]. simpl. destruct (state c) eqn:E; simpl; rewrite ?E; naive_solver.
  - case_if; intros [= <- <-]; [|auto]. bool_to_prop. simpl.
    match goal with Hb : bool_decide _ = true |- _ => apply bool_decide_eq_true in Hb end. naive_solver.
Qed.

Lemma established_step_state g c (s : I) c' s' :
  state c = TCP_ESTABLISHED → flag (sg_flags g) TCP_FLAG_RST = false →
  established_step g c s = Ret (c', s') →
  snd_nxt c' = snd_nxt c ∧ (state c' = TCP_ESTABLISHED ∨ state c' = TCP_CLOSE_WAIT).
Proof.
  intros Hs Hr. unfold established_step. rewrite Hr, Hs. cbv zeta.
  rewrite bool_decide_eq_false_2 by done.
  match goal with |- context [data_step g ?x s] => set (c1 := x) end.
  assert (state c1 = TCP_ESTABLISHED ∧ snd_nxt c1 = snd_nxt c) as [E1 E2] by (subst c1; by case_if).
  clearbody c1. destruct (data_step g c1 s) as [[c2 s2]| | |] eqn:E; cbn [obind]; try done.
  destruct (data_step_state _ _ _ _ _ E) as (E3 & _ & E4 & _). intros Ef.
  destruct (fin_step_state _ _ _ _ _ Ef) as (_ & E5 & Hc). rewrite E5, E4, E2. split; [done|].
  rewrite E3, E1 in Hc. naive_solver.
Qed.

(** C26. The state machine: a segment moves a connection only along the
    listed transitions; in particular a passively opened connection becomes
    usable only through a segment that acknowledges exactly our SYN
    ([snd_nxt]) and carries no RST, and a RST always closes it. *)
Theorem tcp_state_machine g c (s : I) c' s' :
  conn_step g c s = Ret (c', s') →
  tcp_trans (state c) (state c') ∧
  (state c = TCP_SYN_RCVD → state c' = TCP_ESTABLISHED ∨ state c' = TCP_CLOSE_WAIT →
   flag (sg_flags g) TCP_FLAG_ACK = true ∧ flag (sg_flags g) TCP_FLAG_RST = false ∧
   sg_ack g = snd_nxt c ∧ snd_nxt c' = snd_nxt c) ∧
  (flag (sg_flags g) TCP_FLAG_RST = true → state c' = TCP_CLOSED).
Proof.
  unfold conn_step. set (c0 := set_activity _ c). change (state c0) with (state c).
  destruct (decide (state c = TCP_SYN_RCVD)) as [Hs|Hs].
  - rewrite bool_decide_eq_true_2 by done. unfold syn_rcvd_step.
    destruct (flag (sg_flags g) TCP_FLAG_RST) eqn:Er.
    { cbn [obind]. intros [= <- <-]. simpl. split_and!; [constructor|naive_solver|done]. }
    destruct (flag (sg_flags g) TCP_FLAG_SYN && negb (flag (sg_flags g) TCP_FLAG_ACK)).
    { destruct (tcp_send_segment _ _ _ _) as [[b s1]| | |]; cbn [obind]; try done.
      intros [= <- <-]. simpl. rewrite Hs. split_and!; [constructor|naive_solver|done]. }
    destruct (flag (sg_flags g) TCP_FLAG_ACK) eqn:Ea; simpl.
    2:{ intros [= <- <-]. simpl. rewrite Hs. split_and!; [constructor|naive_solver|done]. }
    destruct (Z.eqb_spec (sg_ack g) (snd_nxt c)) as [Ek|Ek]; simpl.
    2:{ intros [= <- <-]. simpl. rewrite Hs. split_and!; [constructor|naive_solver|done]. }
    intros E. apply established_step_state in E as [E1 E2]; [|done|done].
    rewrite Hs. simpl in E1. split_and!; [|done|done]. destruct E2 as [-> | ->]; constructor.
  - rewrite bool_decide_eq_false_2 by done. unfold established_step.
    destruct (flag (sg_flags g) TCP_FLAG_RST) eqn:Er.
    { intros [= <- <-]. simpl. split_and!; [constructor|done|done]. }
    change (state c0) with (state c). destruct (decide (state c = TCP_SYN_SENT)) as [Hy|Hy].
    + rewrite bool_decide_eq_true_2 by done. unfold syn_sent_step. case_if.
      * destruct (tcp_send_segment _ _ _ _) as [[b s1]| | |]; cbn [obind]; try done.
        intros [= <- <-]. simpl. rewrite Hy. split_and!; [constructor|done|done].
      * intros [= <- <-]. simpl. split_and!; [constructor|done|done].
    + rewrite bool_decide_eq_false_2 by done. cbv zeta.
      match goal with |- context [data_step g ?x s] => set (c1 := x) end.
      assert (state c1 = state c) as E1 by (subst c1; by case_if). clearbody c1.
      destruct (data_step g c1 s) as [[c2 s2]| | |] eqn:E; cbn [obind]; try done.
      destruct (data_step_state _ _ _ _ _ E) as (E3 & _). intros Ef.
      destruct (fin_step_state _ _ _ _ _ Ef) as (_ & _ & Hc). rewrite E3, E1 in Hc.
      split_and!; [|done|done]. destruct Hc as [-> |[[-> ->]|[-> ->]]]; constructor.
Qed.
End machine.

(** ** Segments on the wire *)

Lemma tcp_parse_header sp dp seq ack fl win ck data :
  is_u16 sp → is_u16 dp → is_u32 seq → is_u32 ack →
  tcp_parse (tcp_header sp dp seq ack fl win ck ++ data) = Some (mk_seg sp dp seq ack fl data).
Proof.
  intros. unfold tcp_parse. rewrite length_app.
  change (length (tcp_header sp dp seq ack fl win ck)) with 20%nat.
  rewrite (proj2 (Z.ltb_ge _ 20)) by lia.
  change (u8 (Z.shiftr (byte (tcp_header sp dp seq ack fl win ck ++ data) 12) 4 * 4)) with 20.
  change (20 <? 20) with false. cbn [orb]. rewrite (proj2 (Z.ltb_ge (Z.of_nat _) 20)) by lia.
  change (rd16 (tcp_header sp dp seq ack fl win ck ++ data) 0) with (rd16 (le16 (net_htons sp)) 0).
  change (rd16 (tcp_header sp dp seq ack fl win ck ++ data) 2) with (rd16 (le16 (net_htons dp)) 0).
  change (rd32 (tcp_header sp dp seq ack fl win ck ++ data) 4) with (rd32 (le32 (net_htonl seq)) 0).
  change (rd32 (tcp_header sp dp seq ack fl win ck ++ data) 8) with (rd32 (le32 (net_htonl ack)) 0).
  rewrite (rd16_htons sp), (rd16_htons dp), (rd32_htonl seq), (rd32_htonl ack) by done. reflexivity.
Qed.

(** An IP layer that records what is sent. *)
Record wire := mk_wire { w_out : list (Z * list Z); w_ip : Z; w_rand : Z; w_now : Z }.

#[export, refine] Instance wire_layer : IpLayer wire := {
  ipl_send dst p payload s :=
    Ret (true, mk_wire (w_out s ++ [(dst, payload)]) (w_ip s) (w_rand s) (w_now s));
  ipl_local := w_ip;
  ipl_configured s := negb (w_ip s =? 0);
  uptime := w_now;
  random_u64 s := (w_rand s, s)
}.
Proof. by eexists _, _. Defined.

(** [Net.v]'s stack, with a clock and a random source, is such a layer. *)
Record host := mk_host { h_net : net; h_now : Z; h_rand : Z }.

Lemma ip_send_total poll iters dst p payload s :
  Z.of_nat (length payload) ≤ 1480 → ∃ b s', ip_send poll iters dst p payload s = Ret (b, s').
Proof.
  intros Hl. unfold ip_send. destruct (if dst =? BROADCAST_IP then _ else _) as [[mac|] s1]; [|by eexists _, _].
  case_if; [by eexists _, _|]. unfold ETH_MTU. rewrite (proj2 (Z.ltb_ge 1500 _)) by lia. by eexists _, _.
Qed.

#[refine] Definition host_layer (poll : net → net) (iters : Z → nat) : IpLayer host := {|
  ipl_send dst p payload h :=
    let* (b, s) := ip_send poll iters dst p payload (h_net h) in
    Ret (b, mk_host s (h_now h) (h_rand h));
  ipl_local h := local_ip (h_net h);
  ipl_configured h := ip_is_configured (h_net h);
  uptime := h_now;
  random_u64 h := (h_rand h, h)
|}.
Proof.
  intros dst p payload h Hl. destruct (ip_send_total poll iters dst p payload (h_net h) Hl) as (b & s & ->).
  by eexists _, _.
Defined.

(** The one segment a send produces. *)
Definition seg_bytes (c : tcp_conn) (flags : Z) (s : wire) : list Z :=
  let ack := if flag flags TCP_FLAG_ACK then rcv_nxt c else 0 in
  let space := if rx_len c <? TCP_RX_BUF_SIZE then TCP_RX_BUF_SIZE - rx_len c else 0 in
  let win := u16 (if 65535 <? space then 65535 else space) in
  let hdr := tcp_header (local_port c) (remote_port c) (snd_nxt c) ack flags win in
  hdr (net_htons (net_tcp_checksum (w_ip s) (remote_ip c) (hdr 0 ++ []) 20)) ++ [].

Lemma wire_send c flags (s : wire) :
  tcp_send_segment c flags [] s =
  Ret (true, mk_wire (w_out s ++ [(remote_ip c, seg_bytes c flags s)]) (w_ip s) (w_rand s) (w_now s)).
Proof. done. Qed.

Lemma seg_parse c flags s :
  is_u16 (local_port c) → is_u16 (remote_port c) → is_u32 (snd_nxt c) → is_u32 (rcv_nxt c) →
  tcp_parse (seg_bytes c flags s) =
  Some (mk_seg (local_port c) (remote_port c) (snd_nxt c)
          (if flag flags TCP_FLAG_ACK then rcv_nxt c else 0) flags []).
Proof. intros. apply tcp_parse_header; try done. by case_if. Qed.

(** A host that listens on [lp] and has no connection yet. *)
Definition server (lp backlog : Z) (s : wire) : tcp wire :=
  mk_tcp (replicate TCP_MAX_CONNS conn_zero)
    [mk_listener true lp backlog; mk_listener false 0 0] 49152 0 s.

(** The three-way handshake completes: a client in SYN_SENT with initial
    sequence number [x] and a listening server, exchanging the segments their
    handlers send, both reach ESTABLISHED, and each side's next expected
    number is the other's next to send. *)
Theorem tcp_handshake lp backlog cip sip (c : tcp_conn) (sc ss : wire) :
  is_u16 lp → is_u16 (local_port c) → is_u32 (w_rand ss) → 1 ≤ backlog →
  state c = TCP_SYN_SENT → remote_ip c = sip → remote_port c = lp → 0 ≤ snd_nxt c < 2 ^ 32 - 1 →
  rcv_nxt c = 0 →
  ∃ synack ack t1 t2 c1 s1 g,
    tcp_handle_packet cip (seg_bytes c TCP_FLAG_SYN sc) (server lp backlog ss) = Ret t1 ∧
    w_out (ips t1) = w_out ss ++ [(cip, synack)] ∧
    tcp_parse synack = Some g ∧ conn_step g c sc = Ret (c1, s1) ∧
    w_out s1 = w_out sc ++ [(sip, ack)] ∧
    tcp_handle_packet cip ack t1 = Ret t2 ∧
    let d := nth 0 (conns t2) conn_zero in
    state c1 = TCP_ESTABLISHED ∧ state d = TCP_ESTABLISHED ∧
    rcv_nxt d = snd_nxt c1 ∧ rcv_nxt c1 = snd_nxt d ∧ snd_una c1 = snd_nxt c1 ∧ snd_una d = snd_nxt d.
Proof.
  intros Hlp Hcp Hr Hbl Hst Hrip Hrp Hx Hrcv.
  set (x := snd_nxt c) in *. set (iss := w_rand ss) in *. set (cp := local_port c) in *.
  set (d0 := mk_conn true TCP_SYN_RCVD cip cp lp iss iss (u32 (x + 1)) (λ _, 0) 0 [] false false (w_now ss) true 1).
  set (d1 := set_snd (u32 (iss + 1)) iss d0).
  set (ss1 := mk_wire (w_out ss ++ [(cip, seg_bytes d0 18 ss)]) (w_ip ss) iss (w_now ss)).
  set (t1 := mk_tcp (<[0%nat := d1]> (replicate TCP_MAX_CONNS conn_zero))
    [mk_listener true lp backlog; mk_listener false 0 0] 49152 1 ss1).
  assert (tcp_handle_packet cip (seg_bytes c TCP_FLAG_SYN sc) (server lp backlog ss) = Ret t1) as E1.
  { unfold tcp_handle_packet. rewrite seg_parse; [|done|by rewrite Hrp|unfold is_u32; fold x; lia|by rewrite Hrcv].
    fold x cp. rewrite Hrp. cbn [sg_sport sg_dport sg_flags sg_seq].
    change (tcp_find cip cp lp (server lp backlog ss)) with (@None nat).
    change (flag TCP_FLAG_SYN TCP_FLAG_SYN) with true. change (flag TCP_FLAG_SYN TCP_FLAG_ACK) with false.
    unfold tcp_is_listening, tcp_passive_open, tcp_find_listener. cbn [server listeners first_index l_used l_port].
    rewrite Z.eqb_refl. cbn [andb negb nth l_backlog].
    change (length (filter _ (conns (server lp backlog ss)))) with 0%nat.
    rewrite (proj2 (Z.leb_gt backlog _)) by lia.
    change (tcp_alloc (server lp backlog ss)) with (Some 0%nat). cbn [random_u64 wire_layer server ips].
    fold iss. rewrite (u32_small iss) by done. reflexivity. }
  set (g := mk_seg lp cp iss (u32 (x + 1)) 18 []).
  assert (tcp_parse (seg_bytes d0 18 ss) = Some g) as E2.
  { rewrite seg_parse; [reflexivity|done|done|done|apply u32_range]. }
  set (c1 := set_state TCP_ESTABLISHED (set_snd (x + 1) (x + 1) (set_rcv_nxt (u32 (iss + 1)) (set_activity (w_now sc) c)))).
  set (s1 := mk_wire (w_out sc ++ [(sip, seg_bytes c1 TCP_FLAG_ACK sc)]) (w_ip sc) (w_rand sc) (w_now sc)).
  assert (u32 (x + 1) = x + 1) as Ex by (apply u32_small; unfold is_u32; lia).
  assert (conn_step g c sc = Ret (c1, s1)) as E3.
  { unfold conn_step. cbn [state set_activity]. rewrite Hst. rewrite bool_decide_eq_false_2 by done.
    unfold established_step. change (flag (sg_flags g) TCP_FLAG_RST) with false. cbn [state set_activity].
    rewrite Hst, bool_decide_eq_true_2 by done. unfold syn_sent_step.
    change (flag (sg_flags g) TCP_FLAG_SYN) with true. change (flag (sg_flags g) TCP_FLAG_ACK) with true. cbn [andb].
    cbn [sg_seq sg_ack g snd_nxt set_rcv_nxt set_activity]. fold x. rewrite Ex, (proj2 (Z.ltb_lt x (x + 1))) by lia.
    fold c1. rewrite wire_send. cbn [obind]. unfold s1. rewrite <- Hrip. reflexivity. }
  exists (seg_bytes d0 18 ss), (seg_bytes c1 TCP_FLAG_ACK sc), t1.
  set (d2 := set_state TCP_ESTABLISHED (set_snd (u32 (iss + 1)) (u32 (iss + 1)) (set_activity (w_now ss) d1))).
  set (t2 := set_ips ss1 (set_conn 0 d2 t1)).
  assert (tcp_handle_packet cip (seg_bytes c1 TCP_FLAG_ACK sc) t1 = Ret t2) as E4.
  { unfold tcp_handle_packet. rewrite seg_parse; [|done|by (simpl; rewrite Hrp)|simpl; unfold is_u32; lia|apply u32_range].
    cbn [sg_sport sg_dport sg_flags local_port remote_port c1 set_state set_snd set_rcv_nxt set_activity].
    fold cp. rewrite Hrp.
    assert (tcp_find cip cp lp t1 = Some 0%nat) as ->.
    { unfold tcp_find. cbn. unfold conn_match. cbn. by rewrite !Z.eqb_refl. }
    change (nth 0 (conns t1) conn_zero) with d1. change (ips t1) with ss1.
    change (flag TCP_FLAG_ACK TCP_FLAG_ACK) with true. cbv iota.
    unfold conn_step. cbn [uptime wire_layer ss1 w_now]. fold ss1.
    rewrite bool_decide_eq_true_2 by done. unfold syn_rcvd_step. cbn [sg_flags sg_ack].
    change (flag TCP_FLAG_ACK TCP_FLAG_RST) with false. change (flag TCP_FLAG_ACK TCP_FLAG_SYN) with false.
    change (flag TCP_FLAG_ACK TCP_FLAG_ACK) with true. cbn [andb negb orb].
    change (snd_nxt (set_activity (w_now ss) d1)) with (u32 (iss + 1)).
    change (rcv_nxt (set_state TCP_ESTABLISHED (set_snd (x + 1) (x + 1) (set_rcv_nxt (u32 (iss + 1)) (set_activity (w_now sc) c))))) with (u32 (iss + 1)).
    rewrite Z.eqb_refl. cbn [negb obind]. unfold established_step. cbn [sg_flags].
    change (flag TCP_FLAG_ACK TCP_FLAG_RST) with false. cbv iota.
    rewrite bool_decide_eq_false_2 by done. cbn [sg_ack snd_una set_state set_snd].
    change (flag TCP_FLAG_ACK TCP_FLAG_ACK) with true. rewrite Z.ltb_irrefl. cbn [andb]. cbv zeta iota.
    reflexivity. }
  exists t2, c1, s1, g. split_and!; try done.
Qed.

(** ** Accepting in order *)

Definition acceptable (port : Z) (c : tcp_conn) : bool :=
  in_use c && accept_pending c && (local_port c =? port) &&
  (bool_decide (state c = TCP_ESTABLISHED) || bool_decide (state c = TCP_CLOSE_WAIT)).

Lemma accept_scan_spec port base (K : nat → Z) l : ∀ i best,
  (∀ j c, l !! j = Some c → acceptable port c = true →
     accept_order c = u32 (base + K (i + j)%nat) ∧ 0 ≤ K (i + j)%nat < 2 ^ 31) →
  (∀ n o, best = Some (n, o) → o = u32 (base + K n) ∧ 0 ≤ K n < 2 ^ 31) →
  match accept_scan port l i best with
  | None => best = None ∧ Forall (λ c, acceptable port c = false) l
  | Some (n, o) =>
      (∀ n' o', best = Some (n', o') → K n ≤ K n') ∧
      (∀ j c, l !! j = Some c → acceptable port c = true → K n ≤ K (i + j)%nat) ∧
      (best = Some (n, o) ∨ ∃ j c, l !! j = Some c ∧ acceptable port c = true ∧ n = (i + j)%nat)
  end.
Proof.
  induction l as [|c l IH]; intros i best Hl Hb; cbn [accept_scan].
  - destruct best as [[n o]|]; [|done]. split_and!; [naive_solver|done|by left].
  - fold (acceptable port c).
    assert (∀ j d, l !! j = Some d → acceptable port d = true →
      accept_order d = u32 (base + K (S i + j)%nat) ∧ 0 ≤ K (S i + j)%nat < 2 ^ 31) as Hl'.
    { intros j d Hj Hd. replace (S i + j)%nat with (i + S j)%nat by lia. by apply Hl. }
    destruct (acceptable port c) eqn:Ec.
    + destruct (Hl 0%nat c eq_refl Ec) as [Eo Ko]. rewrite Nat.add_0_r in Eo, Ko.
      set (best' := match best with None => _ | Some _ => _ end).
      assert (∃ n o, best' = Some (n, o) ∧ o = u32 (base + K n) ∧ 0 ≤ K n < 2 ^ 31 ∧ K n ≤ K i ∧
        (∀ n' o', best = Some (n', o') → K n ≤ K n') ∧ (best' = best ∨ n = i)) as (n & o & Eb & En & Kn & Kle & Kb & Kw).
      { subst best'. destruct best as [[n o]|].
        - destruct (Hb n o eq_refl) as [-> Kn].
          assert (sdiff (accept_order c) (u32 (base + K n)) = K i - K n) as ->.
          { rewrite Eo. unfold sdiff. wrap_lia. }
          destruct (Z.ltb_spec (K i - K n) 0).
          + exists i, (accept_order c). split_and!; try done; try lia; try (by right). intros n' o' [= <- <-]. lia.
          + exists n, (u32 (base + K n)). split_and!; try done; try lia; try (by left). intros n' o' [= <- <-]. lia.
        - exists i, (accept_order c). split_and!; try done; try lia; try (by right). }
      specialize (IH (S i) best' Hl'). clearbody best'. destruct (accept_scan port l (S i) best') as [[n2 o2]|].
      * destruct IH as (I1 & I2 & I3). { intros n' o' E. rewrite Eb in E. by injection E as <- <-. }
        specialize (I1 n o Eb). split_and!.
        -- intros n' o' E. specialize (Kb n' o' E). lia.
        -- intros [|j] d Hj Hd; [rewrite Nat.add_0_r; lia|]. replace (i + S j)%nat with (S i + j)%nat by lia. by apply (I2 j d).
        -- destruct I3 as [I3|(j & d & Hj & Hd & ->)].
           ++ destruct Kw as [<-|Kw]; [by left|]. right. rewrite Eb in I3. injection I3 as <- <-. subst n.
              exists 0%nat, c. split_and!; [done|done|lia].
           ++ right. exists (S j), d. split_and!; [done|done|lia].
      * destruct IH as [E _]; [|congruence]. intros n' o' E. rewrite Eb in E. by injection E as <- <-.
    + specialize (IH (S i) best Hl' Hb). destruct (accept_scan port l (S i) best) as [[n2 o2]|].
      * destruct IH as (I1 & I2 & I3). split_and!; [done| |].
        -- intros [|j] d Hj Hd; [simpl in Hj; congruence|]. replace (i + S j)%nat with (S i + j)%nat by lia. by apply (I2 j d).
        -- destruct I3 as [I3|(j & d & Hj & Hd & ->)]; [by left|]. right. exists (S j), d. split_and!; [done|done|lia].
      * destruct IH as [-> IH]. split; [done|by constructor].
Qed.

(** [tcp_accept] is first come, first served: among the connections on the
    port that are established and not yet accepted, it returns the one with
    the oldest ticket (also when the ticket counter wraps), and NULL only if
    there is none. *)
Theorem tcp_accept_fifo {I} `{IpLayer I} port (t : tcp I) base (K : nat → Z) :
  (∀ j c, conns (tcp_reap_stale t) !! j = Some c → acceptable port c = true →
     accept_order c = u32 (base + K j) ∧ 0 ≤ K j < 2 ^ 31) →
  match (tcp_accept port t).1 with
  | None => Forall (λ c, acceptable port c = false) (conns (tcp_reap_stale t))
  | Some (i, rip, rport) =>
      ∃ c, conns (tcp_reap_stale t) !! i = Some c ∧ acceptable port c = true ∧
        remote_ip c = rip ∧ remote_port c = rport ∧
        accept_pending (nth i (conns (tcp_accept port t).2) conn_zero) = false ∧
        ∀ j d, conns (tcp_reap_stale t) !! j = Some d → acceptable port d = true → K i ≤ K j
  end.
Proof.
  intros HK. unfold tcp_accept. set (t1 := tcp_reap_stale t) in *. clearbody t1. cbv zeta.
  pose proof (accept_scan_spec port base K (conns t1) 0 None HK ltac:(done)) as Hs.
  destruct (accept_scan port (conns t1) 0 None) as [[n o]|]; simpl.
  - destruct Hs as (_ & Hmin & [?|(j & c & Hj & Hc & ->)]); [done|]. simpl in *.
    exists c. rewrite (nth_lookup_Some _ _ _ _ Hj). split_and!; try done.
    rewrite nth_lookup, list_lookup_insert_eq by (by apply lookup_lt_Some in Hj). done.
  - by destruct Hs.
Qed.

(** ** Defects the model shows *)

(** Acknowledgements are compared as plain integers: an ACK for 20 bytes
    sent across the wrap of the sequence space does not move [snd_una], so
    the sender keeps retransmitting acknowledged data. *)
Theorem tcp_ack_lost_at_wrap :
  let c := set_snd 14 4294967290 (set_state TCP_ESTABLISHED conn_zero) in
  match conn_step (mk_seg 0 0 0 14 TCP_FLAG_ACK []) c (mk_wire [] 1 0 0) with
  | Ret (c', _) => snd_una c'
  | _ => 0
  end = 4294967290.
Proof. vm_compute. reflexivity. Qed.

(** A client whose initial sequence number is 2^32 - 1 reaches
    ESTABLISHED without counting its SYN: [snd_nxt] stays at the number the
    SYN used, because [snd_nxt < ack] is false across the wrap. *)
Theorem tcp_syn_not_counted_at_wrap :
  let c := set_snd 4294967295 4294967295 (set_state TCP_SYN_SENT conn_zero) in
  match conn_step (mk_seg 80 0 7 0 18 []) c (mk_wire [] 1 0 0) with
  | Ret (c', _) => (state c', snd_nxt c')
  | _ => (TCP_CLOSED, 0)
  end = (TCP_ESTABLISHED, 4294967295).
Proof. vm_compute. reflexivity. Qed.

(** ** Instances *)

Definition demo_stream (i : Z) : Z := i mod 256.

Lemma tcp_stream_correct_witness : ∃ c out,
  rx_reach 4294967290 demo_stream c out ∧ out = [0; 1; 2; 3; 4; 5; 6; 7] ∧
  (∀ i v, out !! i = Some v → v = demo_stream (Z.of_nat i)).
Proof.
  set (c0 := set_rcv_nxt 4294967290 conn_zero).
  assert (rx_reach 4294967290 demo_stream c0 []) as H0 by (by apply rx_start).
  destruct (rx_segment (u32 (4294967290 + 4)) [4; 5; 6; 7] c0) as [c1| | |] eqn:E1;
    [|exfalso; vm_compute in E1; discriminate..].
  assert (rx_len c1 = 0) as Hl1 by (by injection E1 as <-).
  assert (rx_reach 4294967290 demo_stream c1 []) as H1.
  { apply (rx_seg _ _ c0 [] 4 [4; 5; 6; 7] c1 H0); [done|simpl; lia| |simpl; lia|exact E1].
    intros i v Hi. do 4 (destruct i as [|i]; [by injection Hi as <-|]). done. }
  destruct (rx_segment (u32 (4294967290 + 0)) [0; 1; 2; 3; 4] c1) as [c2| | |] eqn:E2;
    [|exfalso; injection E1 as <-; vm_compute in E2; discriminate..].
  assert (rx_reach 4294967290 demo_stream c2 []) as H2.
  { apply (rx_seg _ _ c1 [] 0 [0; 1; 2; 3; 4] c2 H1); [done|simpl; lia| |rewrite Hl1; simpl; lia|exact E2].
    intros i v Hi. do 5 (destruct i as [|i]; [by injection Hi as <-|]). done. }
  destruct (tcp_recv_conn 100 c2) as [[r out] c3] eqn:E3.
  assert (out = [0; 1; 2; 3; 4; 5; 6; 7]) as ->.
  { injection E1 as <-. vm_compute in E2. injection E2 as <-. vm_compute in E3. by injection E3 as _ <-. }
  assert (rx_reach 4294967290 demo_stream c3 ([] ++ [0; 1; 2; 3; 4; 5; 6; 7])) as H3
    by (by apply (rx_recv _ _ c2 [] 100 r _ c3 H2); [lia|]).
  exists c3, [0; 1; 2; 3; 4; 5; 6; 7]. split_and!; [exact H3|done|].
  apply (tcp_stream_correct _ _ _ _ H3).
Defined.

Lemma tcp_state_machine_witness :
  let c := set_snd 11 10 (set_state TCP_SYN_RCVD conn_zero) in
  match conn_step (mk_seg 0 0 0 11 TCP_FLAG_ACK []) c (mk_wire [] 1 0 0) with
  | Ret (c', _) => state c' = TCP_ESTABLISHED ∧ tcp_trans TCP_SYN_RCVD (state c')
  | _ => False
  end.
Proof.
  intros c. destruct (conn_step (mk_seg 0 0 0 11 TCP_FLAG_ACK []) c (mk_wire [] 1 0 0)) as [[c' s']| | |] eqn:E;
    [|exfalso; vm_compute in E; discriminate..].
  split; [by injection E as <- <-|]. apply (tcp_state_machine _ _ _ _ _ E).
Defined.

Lemma tcp_handshake_witness : ∃ t1,
  tcp_handle_packet 77 (seg_bytes (mk_conn true TCP_SYN_SENT 1 80 5000 100 100 0 (λ _, 0) 0 [] false false 0 false 0)
    TCP_FLAG_SYN (mk_wire [] 77 0 0)) (server 80 2 (mk_wire [] 1 900 0)) = Ret t1.
Proof.
  destruct (tcp_handshake 80 2 77 1 (mk_conn true TCP_SYN_SENT 1 80 5000 100 100 0 (λ _, 0) 0 [] false false 0 false 0)
    (mk_wire [] 77 0 0) (mk_wire [] 1 900 0)) as (_ & _ & t1 & _ & _ & _ & _ & E & _); try done.
  by exists t1.
Defined.

Lemma tcp_accept_fifo_witness :
  let c o := mk_conn true TCP_ESTABLISHED o 5 80 0 0 0 (λ _, 0) 0 [] false false 0 true o in
  let t := mk_tcp [c 4294967295; c 1; c 0] [] 0 2 (mk_wire [] 1 0 0) in
  let K j := match j with 0%nat => 0 | 1%nat => 2 | _ => 1 end in
  (tcp_accept 80 t).1 = Some (0%nat, 4294967295, 5) ∧
  ∀ j d, conns (tcp_reap_stale t) !! j = Some d → acceptable 80 d = true → K 0%nat ≤ K j.
Proof.
  intros c t K.
  assert (∀ j d, conns (tcp_reap_stale t) !! j = Some d → acceptable 80 d = true →
    accept_order d = u32 (4294967295 + K j) ∧ 0 ≤ K j < 2 ^ 31) as HK.
  { intros j d Hj _. do 3 (destruct j as [|j]; [by injection Hj as <-|]). done. }
  pose proof (tcp_accept_fifo 80 t 4294967295 K HK) as H.
  assert ((tcp_accept 80 t).1 = Some (0%nat, 4294967295, 5)) as E by reflexivity.
  split; [exact E|]. rewrite E in H. destruct H as (d0 & _ & _ & _ & _ & _ & Hmin). exact Hmin.
Defined.
