(* ===== verification/Block.v ===== *)
(** * Block devices ([src/impl/storage/blockdev.c], [ramdisk.c])

    The device table and I/O through it. A driver is an instance of
    [BlockDriver]: what blockdev.c relies on when it calls [read]/[write]
    of a disk. The RAM disk is one. A pointer to a device is its index in
    the table; a disk's [ctx] is the index of its driver state. *)

From S2P Require Import Prelude CString Net.

Open Scope c_scope.

(** ** Drivers

    [bd_data] is the disk's contents, byte by byte; [n] counts sectors. *)
Class BlockDriver (D : Type) := {
  bd_ssize : D → Z;
  bd_sectors : D → Z;
  bd_data : D → Z → Z;
  bd_read : D → Z → Z → option (list Z);
  bd_write : D → Z → Z → list Z → option D;
  bd_read_ok : ∀ d lba n, 0 ≤ lba → 0 ≤ n → lba + n ≤ bd_sectors d →
    bd_read d lba n = Some (bd_data d <$> seqZ (lba * bd_ssize d) (n * bd_ssize d));
  bd_write_ok : ∀ d lba n buf, 0 ≤ lba → 0 ≤ n → lba + n ≤ bd_sectors d →
    Z.of_nat (length buf) = n * bd_ssize d →
    ∃ d', bd_write d lba n buf = Some d' ∧ bd_ssize d' = bd_ssize d ∧ bd_sectors d' = bd_sectors d ∧
      ∀ x, bd_data d' x = if (lba * bd_ssize d <=? x) && (x <? (lba + n) * bd_ssize d)
                          then default 0 (buf !! Z.to_nat (x - lba * bd_ssize d)) else bd_data d x
}.

(** ** The RAM disk *)

Definition RAMDISK_SECTOR : Z := 512.
Record ramdisk := mk_ramdisk { rd_data : Z → Z; rd_sectors : Z }.

Definition ramdisk_read (rd : ramdisk) (lba count : Z) : option (list Z) :=
  if rd_sectors rd <? u64 (lba + count) then None
  else Some (rd_data rd <$> seqZ (lba * RAMDISK_SECTOR) (count * RAMDISK_SECTOR)).

Definition ramdisk_write (rd : ramdisk) (lba count : Z) (buffer : list Z) : option ramdisk :=
  if rd_sectors rd <? u64 (lba + count) then None
  else Some (mk_ramdisk (λ x, if (lba * RAMDISK_SECTOR <=? x) && (x <? (lba + count) * RAMDISK_SECTOR)
                              then default 0 (buffer !! Z.to_nat (x - lba * RAMDISK_SECTOR))
                              else rd_data rd x) (rd_sectors rd)).

(** [ramdisk_create]'s search for a size the heap can give. *)
Definition RAMDISK_MIN_MIB : Z := 16.
Fixpoint ramdisk_size (fuel : nat) (can_alloc : Z → bool) (mib : Z) : option Z :=
  match fuel with
  | O => None
  | S fuel' =>
      if mib <? RAMDISK_MIN_MIB then None
      else if can_alloc (Z.shiftl mib 20) then Some mib
      else ramdisk_size fuel' can_alloc (mib / 2)
  end.

(** ** The device table *)

Definition BLOCKDEV_MAX : nat := 48.
Definition BLOCKDEV_NAME_SIZE : nat := 16.
Definition BLOCKDEV_MODEL_SIZE : nat := 41.

Inductive blockdev_kind := BLOCKDEV_KIND_DISK | BLOCKDEV_KIND_PARTITION.
#[export] Instance blockdev_kind_eq_dec : EqDecision blockdev_kind.
Proof. solve_decision. Defined.

Inductive blockdev_fs :=
| BLOCKDEV_FS_UNKNOWN | BLOCKDEV_FS_EMPTY | BLOCKDEV_FS_MINIMAFS | BLOCKDEV_FS_FAT
| BLOCKDEV_FS_PARTITIONED.

Record blockdev := mk_dev {
  used : bool; kind : blockdev_kind; name : list Z; model : list Z;
  sector_size : Z; sectors : Z;
  ctx : nat; can_write : bool; max_transfer : Z;
  parent : option nat; start_lba : Z; part_number : Z;
  mbr_type : Z; type_guid : list Z; part_guid : list Z; label : list Z;
  fs : blockdev_fs; mounted_drive : Z
}.

(** [memset] to zero: kind 0 is a disk. *)
Definition dev_zero : blockdev :=
  mk_dev false BLOCKDEV_KIND_DISK [] [] 0 0 0 false 0 None 0 0 0 (replicate 16 0) (replicate 16 0) []
    BLOCKDEV_FS_UNKNOWN 0.

Definition set_used (b : bool) (d : blockdev) : blockdev :=
  mk_dev b (kind d) (name d) (model d) (sector_size d) (sectors d) (ctx d) (can_write d)
    (max_transfer d) (parent d) (start_lba d) (part_number d) (mbr_type d) (type_guid d)
    (part_guid d) (label d) (fs d) (mounted_drive d).
Definition set_number (n : Z) (nm : list Z) (d : blockdev) : blockdev :=
  mk_dev (used d) (kind d) nm (model d) (sector_size d) (sectors d) (ctx d) (can_write d)
    (max_transfer d) (parent d) (start_lba d) n (mbr_type d) (type_guid d)
    (part_guid d) (label d) (fs d) (mounted_drive d).
Definition set_ids (mt : Z) (tg pg lb : list Z) (d : blockdev) : blockdev :=
  mk_dev (used d) (kind d) (name d) (model d) (sector_size d) (sectors d) (ctx d) (can_write d)
    (max_transfer d) (parent d) (start_lba d) (part_number d) mt tg pg lb (fs d) (mounted_drive d).
Definition set_fs (f : blockdev_fs) (d : blockdev) : blockdev :=
  mk_dev (used d) (kind d) (name d) (model d) (sector_size d) (sectors d) (ctx d) (can_write d)
    (max_transfer d) (parent d) (start_lba d) (part_number d) (mbr_type d) (type_guid d)
    (part_guid d) (label d) f (mounted_drive d).

Section blockdev.
  Context {D : Type} `{BlockDriver D}.

Record storage := mk_storage { devs : list blockdev; disks : list D }.

Definition set_devs (l : list blockdev) (s : storage) : storage := mk_storage l (disks s).
Definition the_dev (i : nat) (s : storage) : blockdev := nth i (devs s) dev_zero.

Definition blockdev_init (s : storage) : storage := set_devs (replicate BLOCKDEV_MAX dev_zero) s.

(** The slot a new device gets, cleared and marked used. *)
Definition blockdev_alloc (s : storage) : option nat := first_index (λ d, negb (used d)) (devs s).

(** [snprintf(name, 16, ...)] keeps 15 characters. *)
Definition dev_name (l : list Z) : list Z := take (BLOCKDEV_NAME_SIZE - 1) l.

Definition blockdev_register_disk (prefix mdl : list Z) (ssize nsec : Z) (c : nat) (wr : bool)
    (maxt : Z) (s : storage) : option nat * storage :=
  if ssize =? 0 then (None, s)
  else
    let number := Z.of_nat (length (filter (λ d, used d = true ∧ kind d = BLOCKDEV_KIND_DISK ∧
                    take (length prefix) (name d) = prefix) (devs s))) in
    match blockdev_alloc s with
    | None => (None, s)
    | Some i =>
        let d := mk_dev true BLOCKDEV_KIND_DISK (dev_name (prefix ++ uint_text number))
                   (take (BLOCKDEV_MODEL_SIZE - 1) mdl) ssize nsec c wr maxt None 0 0 0
                   (replicate 16 0) (replicate 16 0) [] BLOCKDEV_FS_UNKNOWN (-1) in
        (Some i, set_devs (<[i := d]> (devs s)) s)
    end.

(** 112 is the letter p. *)
Definition part_name (disk : blockdev) (number : Z) : list Z :=
  dev_name (name disk ++ [112] ++ uint_text number).

Definition same_part (disk : nat) (lba nsec : Z) (d : blockdev) : bool :=
  used d && bool_decide (parent d = Some disk) && (start_lba d =? lba) && (sectors d =? nsec).

Definition blockdev_add_partition (disk : nat) (number lba nsec : Z) (s : storage) :
    option nat * storage :=
  let dd := the_dev disk s in
  if bool_decide (kind dd ≠ BLOCKDEV_KIND_DISK) || (nsec =? 0) then (None, s)
  else if (sectors dd <=? lba) || (u64 (sectors dd - lba) <? nsec) then (None, s)
  else
    match first_index (same_part disk lba nsec) (devs s) with
    | Some i =>
        (Some i, set_devs (<[i := set_number number (part_name dd number) (the_dev i s)]> (devs s)) s)
    | None =>
        match blockdev_alloc s with
        | None => (None, s)
        | Some i =>
            let d := mk_dev true BLOCKDEV_KIND_PARTITION (part_name dd number)
                       (take (BLOCKDEV_MODEL_SIZE - 1) (model dd)) (sector_size dd) nsec 0 false 0
                       (Some disk) lba number 0 (replicate 16 0) (replicate 16 0) []
                       BLOCKDEV_FS_UNKNOWN (-1) in
            (Some i, set_devs (<[i := d]> (devs s)) s)
        end
    end.

Definition blockdev_remove_partitions (disk : nat) (s : storage) : storage :=
  set_devs ((λ d, if used d && bool_decide (parent d = Some disk) && (mounted_drive d <? 0)
                  then set_used false d else d) <$> devs s) s.

(** The walk from a partition to its disk, adding up the offsets. *)
Fixpoint resolve (fuel : nat) (i : nat) (lba : Z) (s : storage) : outcome (option (nat * Z)) :=
  match fuel with
  | O => Hang
  | S fuel' =>
      match kind (the_dev i s) with
      | BLOCKDEV_KIND_DISK => Ret (Some (i, lba))
      | BLOCKDEV_KIND_PARTITION =>
          let lba := u64 (lba + start_lba (the_dev i s)) in
          match parent (the_dev i s) with
          | None => Ret None
          | Some p => if used (the_dev p s) then resolve fuel' p lba s else Ret None
          end
      end
  end.

(** The driver calls, at most [chunk_max] sectors each. *)
Fixpoint read_chunks (fuel : nat) (d : D) (ss lba count chunk_max : Z) : outcome (option (list Z)) :=
  match fuel with
  | O => Hang
  | S fuel' =>
      if 0 <? count then
        let chunk := if count <? chunk_max then count else chunk_max in
        match bd_read d lba chunk with
        | None => Ret None
        | Some b =>
            let* r := read_chunks fuel' d ss (u64 (lba + chunk)) (count - chunk) chunk_max in
            Ret (match r with Some rest => Some (b ++ rest) | None => None end)
        end
      else Ret (Some [])
  end.

Fixpoint write_chunks (fuel : nat) (d : D) (ss lba count chunk_max : Z) (buf : list Z) :
    outcome (bool * D) :=
  match fuel with
  | O => Hang
  | S fuel' =>
      if 0 <? count then
        let chunk := if count <? chunk_max then count else chunk_max in
        match bd_write d lba chunk (take (Z.to_nat (chunk * ss)) buf) with
        | None => Ret (false, d)
        | Some d' =>
            write_chunks fuel' d' ss (u64 (lba + chunk)) (count - chunk) chunk_max
              (drop (Z.to_nat (chunk * ss)) buf)
        end
      else Ret (true, d)
  end.

Definition io_ok (i : nat) (lba count : Z) (s : storage) : bool :=
  negb ((sectors (the_dev i s) <=? lba) || (u64 (sectors (the_dev i s) - lba) <? count)).

Definition blockdev_read (i : nat) (lba count : Z) (s : storage) : outcome (option (list Z)) :=
  if negb (used (the_dev i s)) then Ret None
  else if count =? 0 then Ret (Some [])
  else if negb (io_ok i lba count s) then Ret None
  else
    let* r := resolve (S BLOCKDEV_MAX) i lba s in
    match r with
    | None => Ret None
    | Some (k, lba) =>
        let disk := the_dev k s in
        match disks s !! ctx disk with
        | None => Undef
        | Some d =>
            let chunk_max := if max_transfer disk =? 0 then count else max_transfer disk in
            read_chunks (S (Z.to_nat count)) d (sector_size disk) lba count chunk_max
        end
    end.

Definition blockdev_write (i : nat) (lba count : Z) (buf : list Z) (s : storage) :
    outcome (bool * storage) :=
  if negb (used (the_dev i s)) then Ret (false, s)
  else if count =? 0 then Ret (true, s)
  else if negb (io_ok i lba count s) then Ret (false, s)
  else
    let* r := resolve (S BLOCKDEV_MAX) i lba s in
    match r with
    | None => Ret (false, s)
    | Some (k, lba) =>
        let disk := the_dev k s in
        if negb (can_write disk) then Ret (false, s)
        else
          match disks s !! ctx disk with
          | None => Undef
          | Some d =>
              let chunk_max := if max_transfer disk =? 0 then count else max_transfer disk in
              let* (ok, d) := write_chunks (S (Z.to_nat count)) d (sector_size disk) lba count
                                chunk_max buf in
              Ret (ok, mk_storage (devs s) (<[ctx disk := d]> (disks s)))
          end
    end.

Definition blockdev_count (s : storage) : Z := Z.of_nat (length (filter (λ d, used d = true) (devs s))).
Definition blockdev_get (i : nat) (s : storage) : option blockdev :=
  if (BLOCKDEV_MAX <=? i)%nat || negb (used (the_dev i s)) then None else Some (the_dev i s).
Definition blockdev_find (nm : list Z) (s : storage) : option nat :=
  first_index (λ d, used d && bool_decide (name d = nm)) (devs s).
Definition blockdev_first_disk (s : storage) : option nat :=
  first_index (λ d, used d && bool_decide (kind d = BLOCKDEV_KIND_DISK)) (devs s).
Definition blockdev_size_bytes (d : blockdev) : Z := u64 (sectors d * sector_size d).

(** "@MAGIC:", "FAT32", "FAT" *)
Definition MAGIC_TEXT : list Z := [64; 77; 65; 71; 73; 67; 58].
Definition FAT32_TEXT : list Z := [70; 65; 84; 51; 50].
Definition FAT_TEXT : list Z := [70; 65; 84].
Definition has_at (buf : list Z) (off : nat) (text : list Z) : bool :=
  bool_decide (take (length text) (drop off buf) = text).

Definition fs_of (is_disk : bool) (buf : list Z) : blockdev_fs :=
  let sig := (byte buf 510 =? 85) && (byte buf 511 =? 170) in
  if has_at buf 0 MAGIC_TEXT then BLOCKDEV_FS_MINIMAFS
  else if forallb (λ c, c =? 0) (take 512 buf) then BLOCKDEV_FS_EMPTY
  else if sig && (has_at buf 82 FAT32_TEXT || has_at buf 54 FAT_TEXT) then BLOCKDEV_FS_FAT
  else if is_disk && sig then BLOCKDEV_FS_PARTITIONED
  else BLOCKDEV_FS_UNKNOWN.

(** [can_alloc]: the heap has room for the 4 KiB buffer. *)
Definition blockdev_identify (can_alloc : Z → bool) (i : nat) (s : storage) :
    outcome (blockdev_fs * storage) :=
  let d := the_dev i s in
  let put f := set_devs (<[i := set_fs f d]> (devs s)) s in
  if blockdev_size_bytes d <? 4096 then Ret (BLOCKDEV_FS_UNKNOWN, put BLOCKDEV_FS_UNKNOWN)
  else if negb (can_alloc 4096) then Ret (BLOCKDEV_FS_UNKNOWN, s)
  else
    let* r := blockdev_read i 0 (4096 / sector_size d) s in
    let f := match r with
             | Some buf => fs_of (bool_decide (kind d = BLOCKDEV_KIND_DISK)) (buf ++ replicate 4096 0)
             | None => BLOCKDEV_FS_UNKNOWN
             end in
    Ret (f, put f).
End blockdev.

#[global] Arguments storage : clear implicits.

(** "ram", "RAM disk" *)
Definition RAM_PREFIX : list Z := [114; 97; 109].
Definition RAM_MODEL : list Z := [82; 65; 77; 32; 100; 105; 115; 107].

(** [g_ramdisk.data] is set exactly when [disks] has an entry. [can_alloc]
    answers whether the heap can give that many (zeroed) bytes. *)
Definition ramdisk_create (can_alloc : Z → bool) (mib : Z) (s : storage ramdisk) :
    option nat * storage ramdisk :=
  match disks s with
  | _ :: _ => (None, s)
  | [] =>
      let mib := if mib <? RAMDISK_MIN_MIB then RAMDISK_MIN_MIB else mib in
      match ramdisk_size 32 can_alloc mib with
      | None => (None, s)
      | Some mib =>
          let nsec := Z.shiftl mib 20 / RAMDISK_SECTOR in
          match blockdev_register_disk RAM_PREFIX RAM_MODEL RAMDISK_SECTOR nsec 0 true 0
                  (mk_storage (devs s) [mk_ramdisk (λ _, 0) nsec]) with
          | (None, s') => (None, mk_storage (devs s') [])
          | (Some i, s') => (Some i, s')
          end
      end
  end.

#[export] Program Instance ramdisk_driver : BlockDriver ramdisk := {|
  bd_ssize := λ _, RAMDISK_SECTOR;
  bd_sectors := rd_sectors;
  bd_data := rd_data;
  bd_read := ramdisk_read;
  bd_write := ramdisk_write
|}.
Next Obligation.
  intros d lba n ???. unfold ramdisk_read.
  rewrite (proj2 (Z.ltb_ge _ _)); [done|]. unfold u64. pose proof (Z.mod_le (lba + n) 18446744073709551616). lia.
Qed.
Next Obligation.
  intros d lba n buf ????. unfold ramdisk_write.
  rewrite (proj2 (Z.ltb_ge _ _)); [|unfold u64; pose proof (Z.mod_le (lba + n) 18446744073709551616); lia].
  eexists. split; [done|]. done.
Qed.

Section correct.
  Context {D : Type} `{BlockDriver D}.

(** ** The table invariant

    A disk's slot agrees with its driver; a partition's slot names a disk in
    use and lies inside it. *)
Definition disk_ok (s : storage D) (d : blockdev) : Prop :=
  parent d = None ∧ is_u64 (sectors d) ∧ 0 < sector_size d ∧ 0 ≤ max_transfer d ∧
  ∃ drv, disks s !! ctx d = Some drv ∧ bd_ssize drv = sector_size d ∧ sectors d ≤ bd_sectors drv.

Definition part_ok (s : storage D) (d : blockdev) : Prop :=
  ∃ p pd, parent d = Some p ∧ devs s !! p = Some pd ∧ used pd = true ∧ kind pd = BLOCKDEV_KIND_DISK ∧
    sector_size d = sector_size pd ∧ 0 ≤ start_lba d ∧ 0 < sectors d ∧
    start_lba d + sectors d ≤ sectors pd.

Definition dev_ok (s : storage D) (d : blockdev) : Prop :=
  match kind d with BLOCKDEV_KIND_DISK => disk_ok s d | BLOCKDEV_KIND_PARTITION => part_ok s d end.

Definition table_ok (s : storage D) : Prop :=
  length (devs s) = BLOCKDEV_MAX ∧
  ∀ i d, devs s !! i = Some d → used d = true → dev_ok s d.

(** The disk under a device and where the device starts on it. *)
Definition dev_disk (i : nat) (s : storage D) : nat :=
  match kind (the_dev i s) with
  | BLOCKDEV_KIND_DISK => i
  | BLOCKDEV_KIND_PARTITION => default i (parent (the_dev i s))
  end.
Definition dev_start (i : nat) (s : storage D) : Z :=
  match kind (the_dev i s) with BLOCKDEV_KIND_DISK => 0 | BLOCKDEV_KIND_PARTITION => start_lba (the_dev i s) end.

(** What a device holds: byte [x] of device [i]. *)
Definition dev_byte (i : nat) (s : storage D) (x : Z) : Z :=
  match disks s !! ctx (the_dev (dev_disk i s) s) with
  | Some drv => bd_data drv (dev_start i s * sector_size (the_dev i s) + x)
  | None => 0
  end.

Lemma the_dev_used i (s : storage D) : used (the_dev i s) = true → devs s !! i = Some (the_dev i s).
Proof.
  unfold the_dev. intros Hu. destruct (devs s !! i) as [d|] eqn:Hd.
  - by rewrite (nth_lookup_Some _ _ _ _ Hd).
  - rewrite nth_lookup, Hd in Hu. done.
Qed.

Lemma the_dev_lookup i (s : storage D) d : devs s !! i = Some d → the_dev i s = d.
Proof. intros Hd. unfold the_dev. by apply nth_lookup_Some. Qed.

(** A device in use reaches a disk whose driver covers its range. *)
Lemma resolve_ok i lba (s : storage D) :
  table_ok s → used (the_dev i s) = true → 0 ≤ lba < sectors (the_dev i s) →
  resolve (S BLOCKDEV_MAX) i lba s = Ret (Some (dev_disk i s, dev_start i s + lba)) ∧
  ∃ drv, let disk := the_dev (dev_disk i s) s in
    used disk = true ∧ disks s !! ctx disk = Some drv ∧ bd_ssize drv = sector_size disk ∧
    sector_size (the_dev i s) = sector_size disk ∧ 0 < sector_size disk ∧ 0 ≤ max_transfer disk ∧
    0 ≤ dev_start i s ∧ dev_start i s + sectors (the_dev i s) ≤ bd_sectors drv ∧
    dev_start i s + sectors (the_dev i s) < 18446744073709551616 ∧
    ctx disk = ctx (the_dev (dev_disk i s) s).
Proof.
  intros [Hlen Hok] Hu Hlba. pose proof (Hok _ _ (the_dev_used _ _ Hu) Hu) as Hi.
  unfold dev_ok, dev_disk, dev_start in *. cbn [resolve].
  destruct (kind (the_dev i s)) eqn:Hk.
  - destruct Hi as (_ & Hs & Hss & Hm & drv & Hd & Hds & Hdn). split; [done|].
    exists drv. unfold is_u64 in Hs. repeat split; auto; lia.
  - destruct Hi as (p & pd & Hp & Hpd & Hpu & Hpk & Hss & H0 & H1 & H2).
    pose proof (the_dev_lookup _ _ _ Hpd) as Hpe.
    pose proof (Hok _ _ Hpd Hpu) as Hdk. unfold dev_ok in Hdk. rewrite Hpk in Hdk.
    destruct Hdk as (_ & Hs & Hss' & Hm & drv & Hd & Hds & Hdn). unfold is_u64 in Hs.
    rewrite Hp. simpl. rewrite Hpe, Hpu, Hpk, u64_small by (unfold is_u64; lia).
    split; [by rewrite Z.add_comm|].
    exists drv. repeat split; auto; lia.
Qed.

Lemma io_ok_spec i lba count (s : storage D) :
  0 ≤ lba → 0 ≤ count → is_u64 (sectors (the_dev i s)) →
  io_ok i lba count s = bool_decide (lba < sectors (the_dev i s) ∧ lba + count ≤ sectors (the_dev i s)).
Proof.
  intros H1 H2 [H3 H4]. unfold io_ok. destruct (Z.leb_spec (sectors (the_dev i s)) lba); simpl.
  - symmetry. apply bool_decide_eq_false. lia.
  - rewrite u64_small by (unfold is_u64; lia).
    destruct (Z.ltb_spec (sectors (the_dev i s) - lba) count); simpl; symmetry;
      [apply bool_decide_eq_false|apply bool_decide_eq_true]; lia.
Qed.

Lemma used_sectors i (s : storage D) : table_ok s → used (the_dev i s) = true → is_u64 (sectors (the_dev i s)).
Proof.
  intros [Hlen Hok] Hu. pose proof (Hok _ _ (the_dev_used _ _ Hu) Hu) as Hi. unfold dev_ok in Hi.
  destruct (kind (the_dev i s)) eqn:Hk; [by destruct Hi as (_ & Hs & _)|].
  destruct Hi as (p & pd & Hp & Hpd & Hpu & Hpk & Hss & H0 & H1 & H2).
  pose proof (Hok _ _ Hpd Hpu) as Hdk. unfold dev_ok in Hdk. rewrite Hpk in Hdk.
  destruct Hdk as (_ & Hs & _). unfold is_u64 in *. lia.
Qed.

(** ** Transfers do not depend on the driver's chunk size *)
Lemma read_chunks_ok d cm : ∀ fuel lba count,
  0 < cm → 0 ≤ lba → 0 ≤ count < Z.of_nat fuel → lba + count ≤ bd_sectors d → 0 < bd_ssize d →
  lba + count < 18446744073709551616 →
  read_chunks fuel d (bd_ssize d) lba count cm =
    Ret (Some (bd_data d <$> seqZ (lba * bd_ssize d) (count * bd_ssize d))).
Proof.
  induction fuel as [|fuel IH]; intros lba count Hcm Hl Hc Hs Hss Hw; [lia|]. cbn [read_chunks].
  destruct (Z.ltb_spec 0 count); [|by replace count with 0 by lia].
  set (chunk := if count <? cm then count else cm).
  assert (1 ≤ chunk ≤ count) as Hk by (unfold chunk; destruct (Z.ltb_spec count cm); lia).
  cbv zeta. rewrite bd_read_ok, u64_small, IH by (unfold is_u64; lia). cbn [obind].
  do 2 f_equal. rewrite <- fmap_app. f_equal.
  replace (count * bd_ssize d) with (chunk * bd_ssize d + (count - chunk) * bd_ssize d) by lia.
  rewrite seqZ_app by nia. f_equal. f_equal. lia.
Qed.

(** What the disk holds after [count] sectors at [lba] were overwritten. *)
Definition overwritten (d d' : D) (lba count : Z) (buf : list Z) : Prop :=
  bd_ssize d' = bd_ssize d ∧ bd_sectors d' = bd_sectors d ∧
  ∀ x, bd_data d' x =
    if (lba * bd_ssize d <=? x) && (x <? (lba + count) * bd_ssize d)
    then default 0 (buf !! Z.to_nat (x - lba * bd_ssize d)) else bd_data d x.

Lemma write_chunks_ok cm : ∀ fuel d lba count buf,
  0 < cm → 0 ≤ lba → 0 ≤ count < Z.of_nat fuel → lba + count ≤ bd_sectors d → 0 < bd_ssize d →
  lba + count < 18446744073709551616 → Z.of_nat (length buf) = count * bd_ssize d →
  ∃ d', write_chunks fuel d (bd_ssize d) lba count cm buf = Ret (true, d') ∧
    overwritten d d' lba count buf.
Proof.
  induction fuel as [|fuel IH]; intros d lba count buf Hcm Hl Hc Hs Hss Hw Hlen; [lia|]. cbn [write_chunks].
  destruct (Z.ltb_spec 0 count).
  2:{ exists d. split; [done|]. split; [done|]. split; [done|]. intros x.
      destruct (Z.leb_spec (lba * bd_ssize d) x), (Z.ltb_spec x ((lba + count) * bd_ssize d)); simpl; try done; nia. }
  set (chunk := if count <? cm then count else cm).
  assert (1 ≤ chunk ≤ count) as Hk by (unfold chunk; destruct (Z.ltb_spec count cm); lia).
  assert (chunk * bd_ssize d ≤ count * bd_ssize d) by nia.
  assert (0 < chunk * bd_ssize d) by nia.
  cbv zeta. destruct (bd_write_ok d lba chunk (take (Z.to_nat (chunk * bd_ssize d)) buf))
    as (d1 & E1 & S1 & N1 & D1); [lia..|rewrite length_take; lia|].
  rewrite E1, u64_small by (unfold is_u64; lia). rewrite <- S1.
  destruct (IH d1 (lba + chunk) (count - chunk) (drop (Z.to_nat (chunk * bd_ssize d1)) buf))
    as (d' & E' & S' & N' & D'); [rewrite ?N1, ?S1, ?length_drop; lia..|].
  exists d'. split; [done|]. split; [congruence|]. split; [congruence|]. intros x.
  rewrite D', D1, S1. replace (lba + chunk + (count - chunk)) with (lba + count) by lia.
  destruct (Z.leb_spec ((lba + chunk) * bd_ssize d) x), (Z.ltb_spec x ((lba + count) * bd_ssize d)),
    (Z.leb_spec (lba * bd_ssize d) x), (Z.ltb_spec x ((lba + chunk) * bd_ssize d)); simpl; try done; try nia.
  - rewrite lookup_drop. do 2 f_equal. lia.
  - rewrite lookup_take_lt by lia. done.
Qed.

(** The outcome of a read: the bytes of the device, or a refusal. *)
Lemma blockdev_read_spec i lba count (s : storage D) :
  table_ok s → used (the_dev i s) = true → is_u64 lba → is_u32 count →
  blockdev_read i lba count s = Ret
    (if count =? 0 then Some []
     else if bool_decide (lba + count ≤ sectors (the_dev i s))
     then Some (dev_byte i s <$> seqZ (lba * sector_size (the_dev i s)) (count * sector_size (the_dev i s)))
     else None).
Proof.
  intros Hok Hu Hl Hc. unfold is_u64, is_u32 in *. unfold blockdev_read. rewrite Hu. cbn [negb].
  destruct (Z.eqb_spec count 0); [done|].
  rewrite io_ok_spec by (lia || by apply used_sectors).
  destruct (decide (lba + count ≤ sectors (the_dev i s))) as [Hin|Hout].
  2:{ rewrite !bool_decide_eq_false_2 by lia. done. }
  rewrite !bool_decide_eq_true_2 by lia. cbn [negb].
  destruct (resolve_ok i lba s) as (-> & drv & Hdu & Hd & Hds & Hss & Hsp & Hmt & H0 & Hn & Hw & _); [done..|lia|].
  cbn [obind]. rewrite Hd. cbv zeta. rewrite <- Hds. rewrite read_chunks_ok; try lia.
  2:{ destruct (Z.eqb_spec (max_transfer (the_dev (dev_disk i s) s)) 0); lia. }
  do 2 f_equal. unfold dev_byte. rewrite Hd, Hss, <- Hds. apply list_eq. intros k.
  rewrite !list_lookup_fmap. destruct (decide (Z.of_nat k < count * bd_ssize drv)).
  - rewrite !lookup_seqZ_lt by lia. simpl. do 2 f_equal. lia.
  - rewrite !lookup_seqZ_ge by lia. done.
Qed.

(** The outcome of a write: the driver under the device is overwritten in the
    device's range, or nothing happens. *)
Lemma blockdev_write_spec i lba count buf (s : storage D) :
  table_ok s → used (the_dev i s) = true → is_u64 lba → is_u32 count → 0 < count →
  Z.of_nat (length buf) = count * sector_size (the_dev i s) →
  lba + count ≤ sectors (the_dev i s) → can_write (the_dev (dev_disk i s) s) = true →
  ∃ drv drv', disks s !! ctx (the_dev (dev_disk i s) s) = Some drv ∧
    bd_ssize drv = sector_size (the_dev i s) ∧
    overwritten drv drv' (dev_start i s + lba) count buf ∧
    blockdev_write i lba count buf s =
      Ret (true, mk_storage (devs s) (<[ctx (the_dev (dev_disk i s) s) := drv']> (disks s))).
Proof.
  intros Hok Hu Hl Hc Hc0 Hlen Hin Hcw. unfold is_u64, is_u32 in *. unfold blockdev_write.
  rewrite Hu. cbn [negb]. rewrite (proj2 (Z.eqb_neq _ _)) by lia.
  rewrite io_ok_spec by (lia || by apply used_sectors). rewrite bool_decide_eq_true_2 by lia. cbn [negb].
  destruct (resolve_ok i lba s) as (-> & drv & Hdu & Hd & Hds & Hss & Hsp & Hmt & H0 & Hn & Hw & _); [done..|lia|].
  cbn [obind]. rewrite Hcw, Hd. cbn [negb]. cbv zeta. rewrite <- Hds.
  destruct (write_chunks_ok
    (if max_transfer (the_dev (dev_disk i s) s) =? 0 then count else max_transfer (the_dev (dev_disk i s) s))
    (S (Z.to_nat count)) drv (dev_start i s + lba) count buf) as (drv' & -> & Ho);
    [destruct (Z.eqb_spec (max_transfer (the_dev (dev_disk i s) s)) 0); lia|lia..|rewrite Hlen; lia|].
  exists drv, drv'. cbn [obind]. split; [done|]. split; [congruence|]. split; [exact Ho|done].
Qed.

Lemma overwrite_keeps_table (s : storage D) c drv drv' lba count buf :
  table_ok s → disks s !! c = Some drv → overwritten drv drv' lba count buf →
  table_ok (mk_storage (devs s) (<[c := drv']> (disks s))).
Proof.
  intros [Hlen Hok] Hc (Hs & Hn & _). split; [done|]. intros i d Hd Hu.
  specialize (Hok i d Hd Hu). unfold dev_ok, disk_ok, part_ok in *. simpl in *.
  destruct (kind d); [|done].
  destruct Hok as (? & ? & ? & ? & drv0 & Hd0 & ? & ?). do 4 (split; [done|]).
  destruct (decide (c = ctx d)) as [->|Hne].
  - exists drv'. rewrite list_lookup_insert_eq by (by apply lookup_lt_Some in Hc).
    split; [done|]. split; [congruence|]. simplify_eq. lia.
  - exists drv0. by rewrite list_lookup_insert_ne.
Qed.

(** Two devices share bytes only where their ranges on one driver meet. *)
Definition apart (s : storage D) (i j : nat) : Prop :=
  ctx (the_dev (dev_disk i s) s) ≠ ctx (the_dev (dev_disk j s) s) ∨
  dev_start i s + sectors (the_dev i s) ≤ dev_start j s ∨
  dev_start j s + sectors (the_dev j s) ≤ dev_start i s.

Lemma dev_disk_frame i (s : storage D) l : dev_disk i (mk_storage (devs s) l) = dev_disk i s.
Proof. done. Qed.

(** Every byte of every device after a write through device [i]. *)
Lemma dev_byte_written (s : storage D) i lba count buf drv drv' :
  table_ok s → disks s !! ctx (the_dev (dev_disk i s) s) = Some drv →
  bd_ssize drv = sector_size (the_dev i s) → overwritten drv drv' (dev_start i s + lba) count buf →
  let s' := mk_storage (devs s) (<[ctx (the_dev (dev_disk i s) s) := drv']> (disks s)) in
  ∀ x, dev_byte i s' x =
    if (lba * sector_size (the_dev i s) <=? x) && (x <? (lba + count) * sector_size (the_dev i s))
    then default 0 (buf !! Z.to_nat (x - lba * sector_size (the_dev i s))) else dev_byte i s x.
Proof.
  intros Hok Hd Hss (_ & _ & Hb) s' x. unfold dev_byte. rewrite Hd.
  change (dev_disk i s') with (dev_disk i s). change (the_dev (dev_disk i s) s') with (the_dev (dev_disk i s) s).
  change (the_dev i s') with (the_dev i s). change (dev_start i s') with (dev_start i s).
  subst s'. cbn [disks]. rewrite list_lookup_insert_eq by (by apply lookup_lt_Some in Hd). rewrite Hb, Hss.
  set (ss := sector_size (the_dev i s)). set (st := dev_start i s).
  destruct (Z.leb_spec (lba * ss) x), (Z.ltb_spec x ((lba + count) * ss)),
    (Z.leb_spec ((st + lba) * ss) (st * ss + x)), (Z.ltb_spec (st * ss + x) ((st + lba + count) * ss));
    simpl; try done; try nia.
  do 3 f_equal. lia.
Qed.

Lemma dev_byte_apart (s : storage D) i j lba count buf drv drv' :
  table_ok s → used (the_dev i s) = true → used (the_dev j s) = true → apart s i j →
  0 ≤ lba → 0 < count → lba + count ≤ sectors (the_dev i s) →
  disks s !! ctx (the_dev (dev_disk i s) s) = Some drv →
  bd_ssize drv = sector_size (the_dev i s) → overwritten drv drv' (dev_start i s + lba) count buf →
  let s' := mk_storage (devs s) (<[ctx (the_dev (dev_disk i s) s) := drv']> (disks s)) in
  ∀ x, 0 ≤ x < sectors (the_dev j s) * sector_size (the_dev j s) → dev_byte j s' x = dev_byte j s x.
Proof.
  intros Hok Hui Huj Hap Hl Hc Hin Hd Hss (_ & _ & Hb) s' x Hx. unfold dev_byte.
  change (dev_disk j s') with (dev_disk j s). change (the_dev (dev_disk j s) s') with (the_dev (dev_disk j s) s).
  change (the_dev j s') with (the_dev j s). change (dev_start j s') with (dev_start j s).
  subst s'. cbn [disks].
  destruct (decide (ctx (the_dev (dev_disk i s) s) = ctx (the_dev (dev_disk j s) s))) as [He|Hne];
    [|by rewrite list_lookup_insert_ne].
  destruct Hap as [?|Hap]; [done|].
  rewrite <- He, list_lookup_insert_eq, Hd by (by apply lookup_lt_Some in Hd). rewrite Hb.
  destruct (resolve_ok i lba s) as (_ & drvi & Ri); [done..|lia|].
  pose proof (used_sectors j s Hok Huj) as Hsj. unfold is_u64 in Hsj.
  assert (sectors (the_dev j s) ≠ 0) by (intros E; rewrite E in Hx; lia).
  destruct (resolve_ok j 0 s) as (_ & drvj & Rj); [done..|lia|].
  destruct Ri as (_ & Hdi & Hdsi & Hssi & Hspi & _ & H0i & Hni & _).
  destruct Rj as (_ & Hdj & Hdsj & Hssj & Hspj & _ & H0j & Hnj & _).
  rewrite <- He, Hd in Hdj. injection Hdj as <-.
  assert (sector_size (the_dev i s) = sector_size (the_dev j s)) as Heq by congruence. rewrite Hss, Heq in *.
  set (ss := sector_size (the_dev j s)) in *.
  destruct (Z.leb_spec ((dev_start i s + lba) * ss) (dev_start j s * ss + x)),
    (Z.ltb_spec (dev_start j s * ss + x) ((dev_start i s + lba + count) * ss)); simpl; try done. nia.
Qed.

(** ** The table operations keep the invariant *)

Lemma alloc_free_slot (s : storage D) i :
  blockdev_alloc s = Some i → (i < length (devs s))%nat ∧ used (the_dev i s) = false.
Proof.
  intros E. apply first_index_Some in E as (d & Hd & Hu & _). apply negb_true_iff in Hu.
  split; [by apply lookup_lt_Some in Hd|]. by rewrite (the_dev_lookup _ _ _ Hd).
Qed.

(** Replacing slot [i] by a device that is fine there keeps the table when no
    partition needs what slot [i] held. *)
Lemma insert_dev_ok (s : storage D) i d :
  table_ok s →
  (used (the_dev i s) = true → kind (the_dev i s) = BLOCKDEV_KIND_DISK →
     used d = true ∧ kind d = BLOCKDEV_KIND_DISK ∧ sector_size d = sector_size (the_dev i s) ∧
     sectors d = sectors (the_dev i s)) →
  (used d = true → dev_ok (set_devs (<[i := d]> (devs s)) s) d) →
  table_ok (set_devs (<[i := d]> (devs s)) s).
Proof.
  intros [Hlen Hok] Hold Hnew. split; [by simpl; rewrite length_insert|].
  intros j e He Hu. simpl in He.
  destruct (decide (i = j)) as [->|Hne].
  { apply list_lookup_insert_Some in He as [(_ & <- & _)|(? & _)]; [auto|done]. }
  rewrite list_lookup_insert_ne in He by done. specialize (Hok j e He Hu).
  unfold dev_ok in *. destruct (kind e); [exact Hok|].
  destruct Hok as (p & pd & Hp & Hpd & Hpu & Hpk & Hss & H0 & H1 & H2).
  destruct (decide (i = p)) as [->|].
  - rewrite (the_dev_lookup _ _ _ Hpd) in Hold. destruct (Hold Hpu Hpk) as (? & ? & Hs1 & Hs2).
    exists p, d. simpl. rewrite list_lookup_insert_eq by (by apply lookup_lt_Some in Hpd).
    rewrite Hs1, Hs2. auto 10.
  - exists p, pd. simpl. rewrite list_lookup_insert_ne by done. auto 10.
Qed.

Lemma blockdev_init_ok (s : storage D) : table_ok (blockdev_init s).
Proof.
  split; [done|]. intros i d Hd Hu. apply lookup_replicate in Hd as [-> _]. done.
Qed.

(** A driver registers a disk it really has. *)
Definition fits (s : storage D) (ssize nsec : Z) (c : nat) (maxt : Z) : Prop :=
  is_u64 nsec ∧ 0 < ssize ∧ 0 ≤ maxt ∧
  ∃ drv, disks s !! c = Some drv ∧ bd_ssize drv = ssize ∧ nsec ≤ bd_sectors drv.

Lemma register_disk_ok (s : storage D) prefix mdl ssize nsec c wr maxt :
  table_ok s → fits s ssize nsec c maxt →
  table_ok (blockdev_register_disk prefix mdl ssize nsec c wr maxt s).2.
Proof.
  intros Hok (H1 & H2 & H3 & H4). unfold blockdev_register_disk. case_if; [done|].
  destruct (blockdev_alloc s) as [i|] eqn:Ei; [|done]. cbn [snd].
  apply alloc_free_slot in Ei as [Hi Hu]. apply insert_dev_ok; [done|congruence|]. done.
Qed.

Lemma same_part_spec disk lba nsec d :
  same_part disk lba nsec d = true ↔
  used d = true ∧ parent d = Some disk ∧ start_lba d = lba ∧ sectors d = nsec.
Proof.
  unfold same_part. rewrite !andb_true_iff, bool_decide_eq_true, !Z.eqb_eq. tauto.
Qed.

(** What [blockdev_add_partition] answers. *)
Lemma add_partition_spec (s : storage D) disk number lba nsec :
  table_ok s → used (the_dev disk s) = true → is_u64 lba → is_u64 nsec →
  let r := blockdev_add_partition disk number lba nsec s in
  table_ok r.2 ∧
  match r.1 with
  | Some i =>
      let d := the_dev i r.2 in
      used d = true ∧ kind d = BLOCKDEV_KIND_PARTITION ∧ parent d = Some disk ∧ start_lba d = lba ∧
      sectors d = nsec ∧ part_number d = number ∧ sector_size d = sector_size (the_dev disk s) ∧
      lba + nsec ≤ sectors (the_dev disk s) ∧
      ∀ j, j ≠ i → the_dev j r.2 = the_dev j s
  | None => r.2 = s
  end.
Proof.
  intros Hok Hu Hl Hn r. subst r. unfold is_u64 in Hl, Hn. unfold blockdev_add_partition.
  pose proof (used_sectors disk s Hok Hu) as Hs. unfold is_u64 in Hs.
  case_if; [done|]. apply orb_false_iff in Heqb as [Hk Hn0].
  apply bool_decide_eq_false, dec_stable in Hk. bool_to_prop.
  destruct (Z.leb_spec (sectors (the_dev disk s)) lba); [done|]. cbn [orb].
  rewrite u64_small by (unfold is_u64; lia).
  destruct (Z.ltb_spec (sectors (the_dev disk s) - lba) nsec); [done|].
  destruct (first_index (same_part disk lba nsec) (devs s)) as [i|] eqn:Ef.
  - apply first_index_Some in Ef as (d & Hd & Hsp & _). apply same_part_spec in Hsp as (Hdu & Hp & Hst & Hse).
    pose proof (the_dev_lookup _ _ _ Hd) as He. pose proof (lookup_lt_Some _ _ _ Hd) as Hlt.
    pose proof Hok as [_ Hall]. pose proof (Hall i d Hd Hdu) as Hdok. unfold dev_ok in Hdok.
    destruct (kind d) eqn:Hkd; [destruct Hdok as (? & _); congruence|].
    cbn [fst snd]. rewrite He. split.
    + apply insert_dev_ok; [done|rewrite He; congruence|]. intros _. unfold dev_ok. cbn [kind set_number]. rewrite Hkd.
      destruct Hdok as (p & pd & Hp' & Hpd & Hpu & Hpk & Hss & ? & ? & ?). exists p, pd.
      cbn [parent set_number devs set_devs sector_size start_lba sectors].
      rewrite list_lookup_insert_ne by (intros ->; congruence). auto 10.
    + destruct Hdok as (p & pd & Hp' & Hpd & Hpu & Hpk & Hss & ? & ? & ?).
      assert (p = disk) as -> by congruence. rewrite <- (the_dev_lookup _ _ _ Hpd) in Hss.
      erewrite (the_dev_lookup i (set_devs _ s)) by (cbn; by rewrite list_lookup_insert_eq).
      cbn. repeat split; auto; [lia|]. intros j Hj. unfold the_dev. cbn [devs set_devs].
      by rewrite !nth_lookup, list_lookup_insert_ne.
  - destruct (blockdev_alloc s) as [i|] eqn:Ei; [|done]. apply alloc_free_slot in Ei as [Hi Hiu].
    assert (i ≠ disk) by (intros ->; congruence).
    cbn [fst snd]. split.
    + apply insert_dev_ok; [done|congruence|]. intros _. unfold dev_ok. cbn [kind].
      exists disk, (the_dev disk s). cbn [parent devs set_devs sector_size start_lba sectors].
      rewrite list_lookup_insert_ne by done. repeat split; auto using the_dev_used; lia.
    + erewrite (the_dev_lookup i (set_devs _ s)) by (cbn; by rewrite list_lookup_insert_eq).
      cbn. repeat split; auto; [lia|]. intros j Hj. unfold the_dev. cbn [devs set_devs].
      by rewrite !nth_lookup, list_lookup_insert_ne.
Qed.

Lemma remove_partitions_ok (s : storage D) disk : table_ok s → table_ok (blockdev_remove_partitions disk s).
Proof.
  intros [Hlen Hok]. split; [by simpl; rewrite length_fmap|]. intros i e He Hu. simpl in He.
  rewrite list_lookup_fmap in He. destruct (devs s !! i) as [d|] eqn:Hd; [|done]. simpl in He. injection He as <-.
  destruct (used d && _ && _) eqn:Hc; [done|]. pose proof (Hok i d Hd Hu) as Hi. unfold dev_ok in *.
  destruct (kind d); [done|]. destruct Hi as (p & pd & Hp & Hpd & Hpu & Hpk & Hrest).
  exists p, pd. split; [done|]. split; [|done]. simpl. rewrite list_lookup_fmap, Hpd. simpl.
  specialize (Hok p pd Hpd Hpu). rewrite Hpk in Hok. destruct Hok as (Hnone & _).
  rewrite Hpu, Hnone. done.
Qed.

Lemma set_fs_ok (s : storage D) i f :
  table_ok s → table_ok (set_devs (<[i := set_fs f (the_dev i s)]> (devs s)) s).
Proof.
  intros Hok. apply insert_dev_ok; [done|done|]. intros Hu. cbn [used set_fs] in Hu.
  pose proof Hok as [_ Hall]. pose proof (Hall i _ (the_dev_used i s Hu) Hu) as Hi.
  unfold dev_ok in *. cbn [kind set_fs]. destruct (kind (the_dev i s)) eqn:Hk; [exact Hi|].
  destruct Hi as (p & pd & Hp & Hpd & Hpu & Hpk & Hrest). exists p, pd. split; [done|]. split; [|done].
  cbn [devs set_devs]. rewrite list_lookup_insert_ne; [done|]. intros ->.
  rewrite (the_dev_lookup _ _ _ Hpd) in Hk. congruence.
Qed.

(** [blockdev_identify] ends and changes nothing but the device's [fs]. *)
Lemma identify_ret can_alloc i (s : storage D) :
  table_ok s → used (the_dev i s) = true →
  ∃ f s', blockdev_identify can_alloc i s = Ret (f, s') ∧
    (s' = s ∨ s' = set_devs (<[i := set_fs f (the_dev i s)]> (devs s)) s).
Proof.
  intros Hok Hu. unfold blockdev_identify. case_if; [eauto|]. case_if; [eauto|].
  destruct (resolve_ok i 0 s Hok Hu) as (_ & drv & R).
  { bool_to_prop. unfold blockdev_size_bytes in *. pose proof (used_sectors i s Hok Hu) as Hs. unfold is_u64 in Hs.
    destruct (decide (sectors (the_dev i s) = 0)) as [E|]; [|lia]. rewrite E in *. done. }
  destruct R as (_ & _ & _ & Hss & Hsp & _). rewrite <- Hss in Hsp.
  assert (0 ≤ 4096 / sector_size (the_dev i s) ≤ 4096).
  { split; [apply Z.div_pos; lia|]. apply Z.div_le_upper_bound; nia. }
  rewrite blockdev_read_spec by (done || unfold is_u64, is_u32; lia). cbn [obind]. eauto.
Qed.

(** One operation on the table or through it. *)
Inductive table_step : storage D → storage D → Prop :=
| step_register s prefix mdl ssize nsec c wr maxt :
    fits s ssize nsec c maxt →
    table_step s (blockdev_register_disk prefix mdl ssize nsec c wr maxt s).2
| step_add s disk number lba nsec :
    used (the_dev disk s) = true → is_u64 lba → is_u64 nsec →
    table_step s (blockdev_add_partition disk number lba nsec s).2
| step_remove s disk : table_step s (blockdev_remove_partitions disk s)
| step_write s i lba count buf s' ok :
    is_u64 lba → is_u32 count →
    (used (the_dev i s) = true → Z.of_nat (length buf) = count * sector_size (the_dev i s)) →
    blockdev_write i lba count buf s = Ret (ok, s') → table_step s s'
| step_identify s i can_alloc f s' :
    used (the_dev i s) = true →
    blockdev_identify can_alloc i s = Ret (f, s') → table_step s s'.

(** A write that returns either changed nothing or was a full, valid one. *)
Lemma blockdev_write_cases i lba count buf (s : storage D) :
  table_ok s → is_u64 lba → is_u32 count →
  (used (the_dev i s) = true ∧ 0 < count ∧ lba + count ≤ sectors (the_dev i s) ∧
    can_write (the_dev (dev_disk i s) s) = true) ∨
  ∃ ok, blockdev_write i lba count buf s = Ret (ok, s).
Proof.
  intros Hok Hl Hc. unfold is_u64, is_u32 in *. unfold blockdev_write.
  destruct (used (the_dev i s)) eqn:Hu; cbn [negb]; [|eauto].
  destruct (Z.eqb_spec count 0); [eauto|].
  rewrite io_ok_spec by (lia || by apply used_sectors).
  destruct (decide (lba + count ≤ sectors (the_dev i s)));
    [rewrite bool_decide_eq_true_2 by lia|rewrite bool_decide_eq_false_2 by lia; cbn [negb]; eauto].
  cbn [negb]. destruct (resolve_ok i lba s) as (-> & _); [done..|lia|]. cbn [obind].
  destruct (can_write _) eqn:Hw; cbn [negb]; [|eauto]. left. repeat split; auto; lia.
Qed.

Lemma table_step_ok s s' : table_step s s' → table_ok s → table_ok s'.
Proof.
  intros Hst Hok. destruct Hst.
  - by apply register_disk_ok.
  - by apply add_partition_spec.
  - by apply remove_partitions_ok.
  - destruct (blockdev_write_cases i lba count buf s) as [(Hu & Hc & Hin & Hcw)|(ok' & E)]; [done..| |].
    + destruct (blockdev_write_spec i lba count buf s) as (drv & drv' & Hd & Hds & Ho & E); auto.
      rewrite E in *. inv_ret. by eapply overwrite_keeps_table.
    + rewrite E in *. by inv_ret.
  - destruct (identify_ret can_alloc i s Hok) as (f' & s'' & E & [-> | ->]); [done|..]; rewrite E in *; inv_ret; auto.
    by apply set_fs_ok.
Qed.

(** Every table reached from [blockdev_init] by registering disks their
    drivers have, adding and removing partitions, writing through devices and
    identifying file systems is consistent: each disk slot agrees with its
    driver, each partition slot names a disk in use, has its sector size and
    lies inside it. *)
Theorem blockdev_table_consistent (s0 s : storage D) :
  rtc table_step (blockdev_init s0) s → table_ok s.
Proof.
  intros Hr. assert (table_ok (blockdev_init s0)) as Hok by apply blockdev_init_ok.
  induction Hr; eauto using table_step_ok.
Qed.

(** [blockdev_read] through any device, disk or partition, whatever
    transfer limit its driver has, returns exactly the device's bytes of the
    requested sectors when the range lies inside the device, and refuses
    otherwise; it always returns. *)
Theorem blockdev_read_exact (s : storage D) i lba count :
  table_ok s → used (the_dev i s) = true → is_u64 lba → is_u32 count → 0 < count →
  (lba + count ≤ sectors (the_dev i s) →
     blockdev_read i lba count s = Ret (Some (dev_byte i s <$>
       seqZ (lba * sector_size (the_dev i s)) (count * sector_size (the_dev i s))))) ∧
  (sectors (the_dev i s) < lba + count → blockdev_read i lba count s = Ret None).
Proof.
  intros Hok Hu Hl Hc Hc0. rewrite blockdev_read_spec, (proj2 (Z.eqb_neq _ _)) by (done || lia).
  split; intros; [rewrite bool_decide_eq_true_2 by done|rewrite bool_decide_eq_false_2 by lia]; done.
Qed.

(** What a successful write does to every device. *)
Lemma blockdev_write_effect (s : storage D) i lba count buf :
  table_ok s → used (the_dev i s) = true → is_u64 lba → is_u32 count → 0 < count →
  Z.of_nat (length buf) = count * sector_size (the_dev i s) →
  lba + count ≤ sectors (the_dev i s) → can_write (the_dev (dev_disk i s) s) = true →
  ∃ s', blockdev_write i lba count buf s = Ret (true, s') ∧ table_ok s' ∧ devs s' = devs s ∧
    blockdev_read i lba count s' = Ret (Some buf) ∧
    (∀ x, x < lba * sector_size (the_dev i s) ∨ (lba + count) * sector_size (the_dev i s) ≤ x →
       dev_byte i s' x = dev_byte i s x) ∧
    (∀ j x, used (the_dev j s) = true → apart s i j →
       0 ≤ x < sectors (the_dev j s) * sector_size (the_dev j s) → dev_byte j s' x = dev_byte j s x).
Proof.
  intros Hok Hu Hl Hc Hc0 Hlen Hin Hcw.
  destruct (blockdev_write_spec i lba count buf s) as (drv & drv' & Hd & Hds & Ho & E); [done..|].
  eexists. split; [exact E|]. pose proof (overwrite_keeps_table s _ drv drv' _ count buf Hok Hd Ho) as Hok'.
  pose proof (dev_byte_written s i lba count buf drv drv' Hok Hd Hds Ho) as Hw. cbv zeta in Hw.
  set (s' := mk_storage _ _) in *.
  split; [done|]. split; [done|]. split; [|split].
  - rewrite blockdev_read_spec, (proj2 (Z.eqb_neq _ _)) by (done || lia).
    rewrite bool_decide_eq_true_2 by done. do 2 f_equal. change (the_dev i s') with (the_dev i s).
    apply list_eq. intros k. rewrite list_lookup_fmap.
    destruct (decide (Z.of_nat k < count * sector_size (the_dev i s))).
    + rewrite lookup_seqZ_lt by lia. simpl. rewrite Hw.
      rewrite (proj2 (Z.leb_le _ _)), (proj2 (Z.ltb_lt _ _)) by lia. simpl.
      replace (Z.to_nat _) with k by lia.
      destruct (lookup_lt_is_Some_2 buf k) as [y ->]; [lia|done].
    + rewrite lookup_seqZ_ge by lia. symmetry. apply lookup_ge_None. lia.
  - intros x Hx. rewrite Hw.
    destruct (Z.leb_spec (lba * sector_size (the_dev i s)) x),
      (Z.ltb_spec x ((lba + count) * sector_size (the_dev i s))); simpl; done || lia.
  - intros j x Huj Hap Hx. unfold is_u64 in Hl. by eapply (dev_byte_apart s i j lba count); try lia.
Qed.

(** Sectors of the device outside the written range read as before. *)
Lemma blockdev_write_reads (s : storage D) i lba count buf :
  table_ok s → used (the_dev i s) = true → is_u64 lba → is_u32 count → 0 < count →
  Z.of_nat (length buf) = count * sector_size (the_dev i s) →
  lba + count ≤ sectors (the_dev i s) → can_write (the_dev (dev_disk i s) s) = true →
  ∃ s', blockdev_write i lba count buf s = Ret (true, s') ∧ table_ok s' ∧ devs s' = devs s ∧
    blockdev_read i lba count s' = Ret (Some buf) ∧
    (∀ lba' count', is_u64 lba' → is_u32 count' → lba' + count' ≤ lba ∨ lba + count ≤ lba' →
       blockdev_read i lba' count' s' = blockdev_read i lba' count' s).
Proof.
  intros Hok Hu Hl Hc Hc0 Hlen Hin Hcw.
  destruct (blockdev_write_effect s i lba count buf) as (s' & E & Hok' & Hd & Hr & Hout & _); [done..|].
  exists s'. repeat (split; [done|]). intros lba' count' Hl' Hc' Hap.
  assert (the_dev i s' = the_dev i s) as He by (unfold the_dev; by rewrite Hd).
  rewrite !blockdev_read_spec, He by (done || by rewrite He). case_if; [done|]. case_if; [|done].
  do 2 f_equal. apply list_fmap_ext. intros k x Hx. apply lookup_seqZ in Hx as [-> Hk]. apply Hout.
  destruct (resolve_ok i lba s) as (_ & drv & _ & _ & _ & Hss & Hsp & _); [done..|unfold is_u64 in *; lia|].
  rewrite <- Hss in Hsp. destruct Hap; [left|right]; nia.
Qed.

(** C20. [blockdev_write] of a range inside a writable device succeeds, keeps
    the table, reads back as written, leaves the rest of the device as it was,
    and changes no byte of a device that does not share the range: another
    partition of the disk that does not overlap, or a device of another disk. *)
Theorem blockdev_write_isolated (s : storage D) i lba count buf :
  table_ok s → used (the_dev i s) = true → is_u64 lba → is_u32 count → 0 < count →
  Z.of_nat (length buf) = count * sector_size (the_dev i s) →
  lba + count ≤ sectors (the_dev i s) → can_write (the_dev (dev_disk i s) s) = true →
  ∃ s', blockdev_write i lba count buf s = Ret (true, s') ∧ table_ok s' ∧ devs s' = devs s ∧
    blockdev_read i lba count s' = Ret (Some buf) ∧
    (∀ x, x < lba * sector_size (the_dev i s) ∨ (lba + count) * sector_size (the_dev i s) ≤ x →
       dev_byte i s' x = dev_byte i s x) ∧
    (∀ j x, used (the_dev j s) = true → apart s i j →
       0 ≤ x < sectors (the_dev j s) * sector_size (the_dev j s) → dev_byte j s' x = dev_byte j s x).
Proof. apply blockdev_write_effect. Qed.

(** [blockdev_add_partition] hands out a device for exactly the requested
    range of the disk, inside it and with its sector size, keeps the table and
    every other slot, and on refusal changes nothing. *)
Theorem blockdev_add_partition_correct (s : storage D) disk number lba nsec :
  table_ok s → used (the_dev disk s) = true → is_u64 lba → is_u64 nsec →
  let r := blockdev_add_partition disk number lba nsec s in
  table_ok r.2 ∧
  match r.1 with
  | Some i =>
      let d := the_dev i r.2 in
      used d = true ∧ kind d = BLOCKDEV_KIND_PARTITION ∧ parent d = Some disk ∧ start_lba d = lba ∧
      sectors d = nsec ∧ part_number d = number ∧ sector_size d = sector_size (the_dev disk s) ∧
      lba + nsec ≤ sectors (the_dev disk s) ∧
      ∀ j, j ≠ i → the_dev j r.2 = the_dev j s
  | None => r.2 = s
  end.
Proof. apply add_partition_spec. Qed.
End correct.

(** ** A two-partition RAM disk, for the concrete instances below *)

Definition demo0 : storage ramdisk := mk_storage (replicate BLOCKDEV_MAX dev_zero) [mk_ramdisk (λ _, 0) 64].
Definition demo1 : storage ramdisk := (blockdev_register_disk RAM_PREFIX [] 512 64 0 true 3 demo0).2.
Definition demo2 : storage ramdisk := (blockdev_add_partition 0 1 8 16 demo1).2.
Definition demo3 : storage ramdisk := (blockdev_add_partition 0 2 24 16 demo2).2.

Lemma demo_fits : fits demo0 512 64 0 3.
Proof. split; [done|]. split; [done|]. split; [done|]. eexists. split; [reflexivity|]. done. Qed.
Lemma demo1_ok : table_ok demo1.
Proof. apply register_disk_ok; [apply (blockdev_init_ok demo0)|apply demo_fits]. Qed.
Lemma demo2_ok : table_ok demo2.
Proof.
  refine (proj1 (add_partition_spec demo1 0 1 8 16 demo1_ok _ _ _));
    [vm_compute; reflexivity|unfold is_u64; lia..].
Qed.
Lemma demo3_ok : table_ok demo3.
Proof.
  refine (proj1 (add_partition_spec demo2 0 2 24 16 demo2_ok _ _ _));
    [vm_compute; reflexivity|unfold is_u64; lia..].
Qed.

Lemma blockdev_table_consistent_witness : table_ok demo2.
Proof.
  apply (blockdev_table_consistent demo0 demo2).
  eapply rtc_l; [apply (step_register (blockdev_init demo0) RAM_PREFIX [] 512 64 0 true 3), demo_fits|].
  apply rtc_once, (step_add demo1 0 1 8 16); [vm_compute; reflexivity|unfold is_u64; lia..].
Defined.

Lemma blockdev_read_exact_witness :
  blockdev_read 2 0 4 demo3 = Ret (Some (dev_byte 2 demo3 <$> seqZ 0 2048)) ∧
  blockdev_read 2 15 2 demo3 = Ret None.
Proof.
  split.
  - refine (proj1 (blockdev_read_exact demo3 2 0 4 demo3_ok _ _ _ _) _);
      [vm_compute; reflexivity|unfold is_u64; lia|unfold is_u32; lia|lia|vm_compute; discriminate].
  - refine (proj2 (blockdev_read_exact demo3 2 15 2 demo3_ok _ _ _ _) _);
      [vm_compute; reflexivity|unfold is_u64; lia|unfold is_u32; lia|lia|vm_compute; reflexivity].
Defined.

Lemma blockdev_write_isolated_witness :
  ∃ s', blockdev_write 1 3 5 (replicate 2560 7) demo3 = Ret (true, s') ∧
    blockdev_read 1 3 5 s' = Ret (Some (replicate 2560 7)) ∧
    ∀ x, 0 ≤ x < 8192 → dev_byte 2 s' x = dev_byte 2 demo3 x.
Proof.
  destruct (blockdev_write_isolated demo3 1 3 5 (replicate 2560 7) demo3_ok)
    as (s' & Hw & _ & _ & Hr & _ & Hj);
    [vm_compute; reflexivity|unfold is_u64; lia|unfold is_u32; lia|lia|vm_compute; reflexivity
    |vm_compute; discriminate|vm_compute; reflexivity|].
  exists s'. split; [exact Hw|]. split; [exact Hr|]. intros x Hx.
  apply Hj; [vm_compute; reflexivity|right; left; vm_compute; discriminate|exact Hx].
Defined.

Lemma blockdev_add_partition_correct_witness :
  (blockdev_add_partition 0 3 40 24 demo3).1 = Some 3%nat ∧
  table_ok (blockdev_add_partition 0 3 40 24 demo3).2.
Proof.
  split; [vm_compute; reflexivity|].
  refine (proj1 (blockdev_add_partition_correct demo3 0 3 40 24 demo3_ok _ _ _));
    [vm_compute; reflexivity|unfold is_u64; lia..].
Defined.

(** ** The RAM disk *)

(** The search stops at the first of [mib], [mib/2], ... the heap can give. *)
Lemma ramdisk_size_spec can_alloc : ∀ fuel mib,
  0 ≤ mib < 2 ^ Z.of_nat fuel →
  match ramdisk_size fuel can_alloc mib with
  | Some m => RAMDISK_MIN_MIB ≤ m ≤ mib ∧ can_alloc (Z.shiftl m 20) = true ∧ ∃ k, 0 ≤ k ∧ m = mib / 2 ^ k
  | None => ∀ k, 0 ≤ k → RAMDISK_MIN_MIB ≤ mib / 2 ^ k → can_alloc (Z.shiftl (mib / 2 ^ k) 20) = false
  end.
Proof.
  induction fuel as [|fuel IH]; intros mib Hm; cbn [ramdisk_size].
  { replace mib with 0 by (simpl in Hm; lia). intros k Hk H. rewrite Z.div_0_l in H by lia. done. }
  rewrite Nat2Z.inj_succ, Z.pow_succ_r in Hm by lia.
  destruct (Z.ltb_spec mib RAMDISK_MIN_MIB) as [Hlt|Hge].
  { intros k Hk H. assert (mib / 2 ^ k ≤ mib) by (apply Z.div_le_upper_bound; nia). lia. }
  destruct (can_alloc (Z.shiftl mib 20)) eqn:Ea.
  { split; [lia|]. split; [done|]. exists 0. by rewrite Z.div_1_r. }
  assert (0 ≤ mib / 2 < 2 ^ Z.of_nat fuel) as Hh by (split; [apply Z.div_pos; lia|apply Z.div_lt_upper_bound; lia]).
  specialize (IH (mib / 2) Hh).
  assert (∀ k, 0 ≤ k → mib / 2 / 2 ^ k = mib / 2 ^ (k + 1)) as Hdd.
  { intros k Hk. rewrite Z.div_div, Z.pow_add_r by lia. f_equal. lia. }
  destruct (ramdisk_size fuel can_alloc (mib / 2)) as [m|].
  - destruct IH as (Hr & Hca & k & Hk & ->). assert (mib / 2 ≤ mib) by (apply Z.div_le_upper_bound; lia).
    split; [lia|]. split; [done|]. exists (k + 1). split; [lia|]. by apply Hdd.
  - intros k Hk H. destruct (decide (k = 0)) as [->|]; [by rewrite Z.div_1_r in *|].
    specialize (IH (k - 1)). rewrite Hdd in IH by lia. replace (k - 1 + 1) with k in IH by lia. apply IH; lia.
Qed.

(** [ramdisk_create] registers one RAM disk of the largest size among the
    requested one (at least 16 MiB) and its halvings that the heap can give;
    the disk fills its buffer exactly and every read of it returns zeros until
    it is written. When it answers NULL nothing has changed: there was a RAM
    disk already, the table was full, or no size down to 16 MiB fits. *)
Theorem ramdisk_create_correct can_alloc mib (s : storage ramdisk) :
  table_ok s → is_u32 mib →
  let r := ramdisk_create can_alloc mib s in
  let want := Z.max RAMDISK_MIN_MIB mib in
  table_ok r.2 ∧
  match r.1 with
  | Some i =>
      ∃ m, RAMDISK_MIN_MIB ≤ m ≤ want ∧ can_alloc (m * 1048576) = true ∧
        used (the_dev i r.2) = true ∧ can_write (the_dev i r.2) = true ∧
        sectors (the_dev i r.2) * sector_size (the_dev i r.2) = m * 1048576 ∧
        ∀ lba count, is_u64 lba → is_u32 count → 0 < count → lba + count ≤ sectors (the_dev i r.2) →
          blockdev_read i lba count r.2 = Ret (Some ((λ _, 0) <$> seqZ (lba * 512) (count * 512)))
  | None =>
      r.2 = s ∧ (disks s ≠ [] ∨ blockdev_alloc s = None ∨
        ∀ k, 0 ≤ k → RAMDISK_MIN_MIB ≤ want / 2 ^ k → can_alloc (want / 2 ^ k * 1048576) = false)
  end.
Proof.
  intros Hok Hm r want. subst r. unfold ramdisk_create. unfold is_u32 in Hm.
  destruct (disks s) as [|d0 ds] eqn:Hds; [|split; [done|]; split; [done|]; by left].
  replace (if mib <? RAMDISK_MIN_MIB then RAMDISK_MIN_MIB else mib) with want
    by (unfold want; destruct (Z.ltb_spec mib RAMDISK_MIN_MIB); lia).
  assert (0 ≤ want < 2 ^ Z.of_nat 32) as Hw by (unfold want, RAMDISK_MIN_MIB; change (2 ^ Z.of_nat 32) with 4294967296; lia).
  pose proof (ramdisk_size_spec can_alloc 32 want Hw) as Hs.
  destruct (ramdisk_size 32 can_alloc want) as [m|].
  2:{ split; [done|]. split; [done|]. right; right. intros k Hk H. rewrite <- (Z.shiftl_mul_pow2 _ 20) by lia. by apply Hs. }
  destruct Hs as (Hr & Hca & _). rewrite Z.shiftl_mul_pow2 in * by lia. change (2 ^ 20) with 1048576 in *.
  assert (m * 1048576 / RAMDISK_SECTOR = m * 2048) as Hdiv
    by (unfold RAMDISK_SECTOR; symmetry; apply Z.div_unique_exact; lia).
  cbv zeta. rewrite Hdiv. set (s1 := mk_storage (devs s) [mk_ramdisk (λ _, 0) (m * 2048)]).
  change (2 ^ Z.of_nat 32) with 4294967296 in Hw. unfold RAMDISK_MIN_MIB in Hr.
  assert (table_ok s1) as Hok1.
  { destruct Hok as [Hl Hall]. split; [done|]. intros i d Hd Hu. specialize (Hall i d Hd Hu).
    unfold dev_ok in *. destruct (kind d); [|done]. destruct Hall as (_ & _ & _ & _ & drv & Hc & _).
    by rewrite Hds in Hc. }
  assert (fits s1 RAMDISK_SECTOR (m * 2048) 0 0) as Hf.
  { split; [unfold is_u64; lia|]. split; [done|]. split; [done|]. eexists. split; [done|]. split; [done|]. simpl. lia. }
  pose proof (register_disk_ok s1 RAM_PREFIX RAM_MODEL RAMDISK_SECTOR (m * 2048) 0 true 0 Hok1 Hf) as Hok2.
  assert (s = mk_storage (devs s) []) as Hss by (destruct s; simpl in *; by subst).
  unfold blockdev_register_disk in *. change (RAMDISK_SECTOR =? 0) with false in *. cbv iota zeta in *.
  change (blockdev_alloc s1) with (blockdev_alloc s) in *.
  destruct (blockdev_alloc s) as [i|] eqn:Ea; cbn [fst snd] in *.
  2:{ simpl. rewrite <- Hss. split; [done|]. auto. }
  split; [done|]. exists m. apply alloc_free_slot in Ea as [Hi _].
  match goal with |- context [the_dev i ?st] => set (s2 := st) in * end.
  assert (devs s2 !! i = Some (mk_dev true BLOCKDEV_KIND_DISK (dev_name (RAM_PREFIX ++ uint_text
     (Z.of_nat (length (filter (λ d, used d = true ∧ kind d = BLOCKDEV_KIND_DISK ∧ take (length RAM_PREFIX) (name d) = RAM_PREFIX) (devs s1))))))
     (take (BLOCKDEV_MODEL_SIZE - 1) RAM_MODEL) RAMDISK_SECTOR (m * 2048) 0 true 0 None 0 0 0
     (replicate 16 0) (replicate 16 0) [] BLOCKDEV_FS_UNKNOWN (-1))) as Hlk
    by (subst s2; cbn [devs set_devs]; by rewrite list_lookup_insert_eq).
  pose proof (the_dev_lookup _ _ _ Hlk) as He.
  assert (used (the_dev i s2) = true) as Hu by (by rewrite He).
  rewrite He. cbn [used can_write sectors sector_size].
  split; [done|]. split; [done|]. split; [done|]. split; [done|]. split; [unfold RAMDISK_SECTOR; lia|].
  intros lba count Hl Hc Hc0 Hin. rewrite blockdev_read_spec by done.
  rewrite (proj2 (Z.eqb_neq _ _)), bool_decide_eq_true_2 by (rewrite ?He; cbn; lia).
  rewrite He. cbn [sector_size]. unfold RAMDISK_SECTOR. do 2 f_equal.
  apply list_fmap_ext. intros k x _. unfold dev_byte, dev_disk. rewrite He. cbn [kind]. by rewrite He.
Qed.

Lemma ramdisk_create_correct_witness :
  ∃ m, RAMDISK_MIN_MIB ≤ m ≤ 100 ∧ m * 1048576 ≤ 60000000 ∧
    table_ok (ramdisk_create (λ n, n <=? 60000000) 100 (blockdev_init (mk_storage [] []))).2.
Proof.
  destruct (ramdisk_create_correct (λ n, n <=? 60000000) 100 (blockdev_init (mk_storage [] [])))
    as [Hok Hr]; [apply blockdev_init_ok|unfold is_u32; lia|].
  match type of Hr with match ?x with _ => _ end =>
    let v := eval vm_compute in x in change x with v in Hr end.
  destruct Hr as (m & H1 & H2 & _). exists m. split; [exact H1|]. split; [by apply Z.leb_le in H2|exact Hok].
Defined.
