(* ===== verification/Partition.v ===== *)
(** * Partition tables ([src/impl/storage/partition.c])

    MBR and GPT tables on a disk of the block-device table: detection, scan,
    creation, and adding and deleting partitions. The packed on-disk structs
    are records with their byte encodings. [can_alloc] answers whether the
    heap can give a buffer of that many bytes; the random GUIDs and the MBR
    signature are arguments. *)

From stdpp Require Import sorting.
From S2P Require Import Prelude CString Net Block.

Open Scope c_scope.

(** ** On-disk layouts *)

(** Little-endian integers of [n] bytes. *)
Fixpoint le (n : nat) (v : Z) : list Z :=
  match n with O => [] | S n' => v mod 256 :: le n' (v / 256) end.
Fixpoint unle (l : list Z) : Z :=
  match l with [] => 0 | b :: r => b + 256 * unle r end.

Record mbr_entry := mk_mbr_entry {
  status : Z; chs_first : list Z; type : Z; chs_last : list Z; lba_first : Z; me_sectors : Z
}.

Record gpt_header := mk_gpt_header {
  signature : list Z; revision : Z; header_size : Z; header_crc32 : Z; reserved : Z;
  my_lba : Z; alternate_lba : Z; first_usable_lba : Z; last_usable_lba : Z;
  disk_guid : list Z; entries_lba : Z; num_entries : Z; entry_size : Z; entries_crc32 : Z
}.

Record gpt_entry := mk_gpt_entry {
  ge_type_guid : list Z; ge_unique_guid : list Z; ge_first_lba : Z; ge_last_lba : Z;
  ge_attributes : Z; ge_name : list Z
}.

Definition mbr_entry_bytes (e : mbr_entry) : list Z :=
  [status e] ++ chs_first e ++ [type e] ++ chs_last e ++ le 4 (lba_first e) ++ le 4 (me_sectors e).
Definition mbr_entry_of (l : list Z) : mbr_entry :=
  mk_mbr_entry (byte l 0) (take 3 (drop 1 l)) (byte l 4) (take 3 (drop 5 l))
    (unle (take 4 (drop 8 l))) (unle (take 4 (drop 12 l))).

Definition gpt_header_bytes (h : gpt_header) : list Z :=
  signature h ++ le 4 (revision h) ++ le 4 (header_size h) ++ le 4 (header_crc32 h) ++
  le 4 (reserved h) ++ le 8 (my_lba h) ++ le 8 (alternate_lba h) ++ le 8 (first_usable_lba h) ++
  le 8 (last_usable_lba h) ++ disk_guid h ++ le 8 (entries_lba h) ++ le 4 (num_entries h) ++
  le 4 (entry_size h) ++ le 4 (entries_crc32 h).
Definition gpt_header_of (l : list Z) : gpt_header :=
  mk_gpt_header (take 8 l) (unle (take 4 (drop 8 l))) (unle (take 4 (drop 12 l)))
    (unle (take 4 (drop 16 l))) (unle (take 4 (drop 20 l))) (unle (take 8 (drop 24 l)))
    (unle (take 8 (drop 32 l))) (unle (take 8 (drop 40 l))) (unle (take 8 (drop 48 l)))
    (take 16 (drop 56 l)) (unle (take 8 (drop 72 l))) (unle (take 4 (drop 80 l)))
    (unle (take 4 (drop 84 l))) (unle (take 4 (drop 88 l))).

Definition gpt_entry_bytes (e : gpt_entry) : list Z :=
  ge_type_guid e ++ ge_unique_guid e ++ le 8 (ge_first_lba e) ++ le 8 (ge_last_lba e) ++
  le 8 (ge_attributes e) ++ mjoin (le 2 <$> ge_name e).
Fixpoint utf16_of (n : nat) (l : list Z) : list Z :=
  match n with O => [] | S n' => unle (take 2 l) :: utf16_of n' (drop 2 l) end.
Definition gpt_entry_of (l : list Z) : gpt_entry :=
  mk_gpt_entry (take 16 l) (take 16 (drop 16 l)) (unle (take 8 (drop 32 l)))
    (unle (take 8 (drop 40 l))) (unle (take 8 (drop 48 l))) (utf16_of 36 (drop 56 l)).

Definition GPT_ENTRIES : Z := 128.
Definition GPT_ENTRY_BYTES : Z := 16384.
(** [sizeof] of the two packed structs. *)
Definition sizeof_gpt_entry : Z := 128.
Definition sizeof_gpt_header : Z := 92.

Definition GUID_ESP : list Z :=
  [40; 115; 42; 193; 31; 248; 210; 17; 186; 75; 0; 160; 201; 62; 201; 59].
Definition GUID_BIOS_BOOT : list Z :=
  [72; 97; 104; 33; 73; 100; 111; 110; 116; 78; 101; 101; 100; 69; 70; 73].
Definition GUID_BASIC_DATA : list Z :=
  [162; 160; 208; 235; 229; 185; 51; 68; 135; 192; 104; 182; 183; 38; 153; 199].
Definition GUID_MINIMAFS : list Z :=
  [105; 110; 105; 77; 97; 109; 83; 70; 176; 167; 77; 79; 83; 77; 70; 83].

Definition PART_MBR_TYPE_MINIMAFS : Z := 127.
Definition PART_MBR_TYPE_ESP : Z := 239.
Definition PART_MBR_TYPE_FAT32LBA : Z := 12.
Definition PART_MBR_TYPE_GPT : Z := 238.
Definition PART_ALIGN_BYTES : Z := 1048576.

(** ** Helpers *)

Definition crc_bit (c : Z) : Z :=
  if Z.odd c then Z.lxor 3988292384 (Z.shiftr c 1) else Z.shiftr c 1.
Definition crc_entry (i : Z) : Z := Nat.iter 8 crc_bit i.
Definition g_crc_table : list Z := crc_entry <$> seqZ 0 256.

Definition crc_step (table : list Z) (crc b : Z) : Z :=
  Z.lxor (nth (Z.to_nat (Z.land (Z.lxor crc b) 255)) table 0) (Z.shiftr crc 8).
Definition partition_crc32 (data : list Z) : Z :=
  Z.lxor (foldl (crc_step g_crc_table) 4294967295 data) 4294967295.

Definition hex_char (d : Z) : Z := if d <? 10 then 48 + d else 87 + d.
Definition guid_order : list nat := [3; 2; 1; 0; 5; 4; 7; 6; 8; 9; 10; 11; 12; 13; 14; 15]%nat.
Fixpoint guid_text (g : list Z) (i : nat) (order : list nat) : list Z :=
  match order with
  | [] => []
  | k :: order' =>
      (if existsb (Nat.eqb i) [4; 6; 8; 10]%nat then [45] else []) ++
      [hex_char (Z.shiftr (byte g k) 4); hex_char (Z.land (byte g k) 15)] ++
      guid_text g (S i) order'
  end.
Definition partition_guid_to_string (g : list Z) : list Z := guid_text g 0 guid_order.

Definition guid_is_zero (g : list Z) : bool := forallb (λ b, b =? 0) g.

(** Version and variant bits set in 16 random bytes. *)
Definition guid_random (rnd : list Z) : list Z :=
  <[8%nat := Z.lor (Z.land (byte rnd 8) 63) 128]>
    (<[7%nat := Z.lor (Z.land (byte rnd 7) 15) 64]> rnd).

Definition align_lba (disk : blockdev) : Z :=
  let a := PART_ALIGN_BYTES / sector_size disk in if a =? 0 then 1 else a.

Definition round_up (v a : Z) : Z := u64 (u64 (v + a - 1) / a * a).

(** Overwrite the bytes of [buf] from [off] on. *)
Definition patch (off : nat) (new buf : list Z) : list Z :=
  take off buf ++ new ++ drop (off + length new) buf.

(** The output holds 37 characters, so only [max] = 36 and a zero stop it. *)
Fixpoint utf16_to_ascii (max : nat) (name : list Z) : list Z :=
  match max, name with
  | S max', c :: r => if c =? 0 then [] else (if c <? 128 then c else 63) :: utf16_to_ascii max' r
  | _, _ => []
  end.

Fixpoint ascii_to_utf16 (max : nat) (label : list Z) : list Z :=
  match max with
  | O => []
  | S max' => match label with
              | [] => 0 :: ascii_to_utf16 max' []
              | c :: r => u8 c :: ascii_to_utf16 max' r
              end
  end.

Section partition.
  Context {D : Type} `{BlockDriver D}.
  Context (can_alloc : Z → bool).

Definition read_sectors (disk : nat) (lba count : Z) (s : storage D) : outcome (option (list Z)) :=
  if can_alloc (u64 (count * sector_size (the_dev disk s))) then blockdev_read disk lba count s
  else Ret None.

(** ** GPT in memory *)

Record gpt := mk_gpt { header : gpt_header; entries : list gpt_entry; entry_sectors : Z }.

Definition set_header_crc32 (c : Z) (h : gpt_header) : gpt_header :=
  mk_gpt_header (signature h) (revision h) (header_size h) c (reserved h) (my_lba h)
    (alternate_lba h) (first_usable_lba h) (last_usable_lba h) (disk_guid h) (entries_lba h)
    (num_entries h) (entry_size h) (entries_crc32 h).

Definition gpt_entry_sectors (disk : blockdev) : Z :=
  u32 (u64 (GPT_ENTRY_BYTES + sector_size disk - 1) / sector_size disk).

(** Entries [0..n) of a raw array. *)
Fixpoint entries_of (n : nat) (raw : list Z) : list gpt_entry :=
  match n with
  | O => []
  | S n' => gpt_entry_of (take 128 raw) :: entries_of n' (drop 128 raw)
  end.
Definition entries_bytes (l : list gpt_entry) : list Z := mjoin (gpt_entry_bytes <$> l).

Definition header_acceptable (disk : blockdev) (h : gpt_header) : bool :=
  bool_decide (signature h = txt "EFI PART") && (92 <=? header_size h) &&
  (header_size h <=? sector_size disk) &&
  (partition_crc32 (gpt_header_bytes (set_header_crc32 0 h)) =? header_crc32 h) &&
  (entry_size h =? sizeof_gpt_entry) && negb (num_entries h =? 0) && (num_entries h <=? GPT_ENTRIES).

Definition gpt_load (disk : nat) (s : storage D) : outcome (option gpt) :=
  let d := the_dev disk s in
  let* hdr := read_sectors disk 1 1 s in
  match hdr with
  | None => Ret None
  | Some hdr =>
      let h := gpt_header_of hdr in
      if sector_size d <? sizeof_gpt_header then Undef
      else if negb (header_acceptable d h) then Ret None
      else
        let es := gpt_entry_sectors d in
        let* raw := read_sectors disk (entries_lba h) es s in
        match raw with
        | None => Ret None
        | Some raw =>
            if negb (can_alloc GPT_ENTRY_BYTES) then Ret None
            else
              let used := take (Z.to_nat (num_entries h * sizeof_gpt_entry)) raw in
              if negb (partition_crc32 used =? entries_crc32 h) then Ret None
              else Ret (Some (mk_gpt h (entries_of 128 (used ++ replicate 16384 0)) es))
        end
  end.

Definition bytes_zero (n : Z) : list Z := replicate (Z.to_nat n) 0.

(** The protective MBR written over what sector 0 holds. *)
Definition protective_mbr (disk : blockdev) (mbr : list Z) : list Z :=
  let n := u64 (sectors disk - 1) in
  let e := mk_mbr_entry 0 [0; 2; 0] PART_MBR_TYPE_GPT [255; 255; 255] 1
             (if 4294967295 <? n then 4294967295 else u32 n) in
  patch 510 [85; 170] (patch 446 (mbr_entry_bytes e ++ replicate 48 0) mbr).

Definition write_protective_mbr (disk : nat) (s : storage D) : outcome (bool * storage D) :=
  let d := the_dev disk s in
  if sector_size d <? 512 then Undef
  else if negb (can_alloc (sector_size d)) then Ret (false, s)
  else
    let* r := blockdev_read disk 0 1 s in
    let mbr := match r with Some b => b | None => bytes_zero (sector_size d) end in
    blockdev_write disk 0 1 (protective_mbr d mbr) s.

(** [ok = ok && blockdev_write(...)] *)
Definition and_write (ok : bool) (disk : nat) (lba count : Z) (buf : list Z) (s : storage D) :
    outcome (bool * storage D) :=
  if ok then blockdev_write disk lba count buf s else Ret (false, s).

(** A header with its place on the disk and its checksum filled in. *)
Definition place_header (my alt ent : Z) (h : gpt_header) : gpt_header :=
  let h0 := mk_gpt_header (signature h) (revision h) (header_size h) 0 (reserved h) my alt
              (first_usable_lba h) (last_usable_lba h) (disk_guid h) ent (num_entries h)
              (entry_size h) (entries_crc32 h) in
  set_header_crc32 (partition_crc32 (gpt_header_bytes h0)) h0.

(** A buffer of [n] bytes that starts with [l]. *)
Definition padded (n : Z) (l : list Z) : list Z := l ++ bytes_zero (n - Z.of_nat (length l)).

Definition store_header (g : gpt) : gpt_header :=
  let h := header g in
  mk_gpt_header (signature h) (revision h) (header_size h) (header_crc32 h) (reserved h)
    (my_lba h) (alternate_lba h) (first_usable_lba h) (last_usable_lba h) (disk_guid h)
    (entries_lba h) GPT_ENTRIES sizeof_gpt_entry (partition_crc32 (entries_bytes (entries g))).

Definition gpt_store (disk : nat) (g : gpt) (s : storage D) : outcome (bool * storage D) :=
  let d := the_dev disk s in
  let last := u64 (sectors d - 1) in
  let es := entry_sectors g in
  let h := store_header g in
  if (sector_size d <? sizeof_gpt_header) || (es * sector_size d <? GPT_ENTRY_BYTES) then Undef
  else if negb (can_alloc (u64 (es * sector_size d)) && can_alloc (sector_size d)) then Ret (false, s)
  else
    let sec := padded (es * sector_size d) (entries_bytes (entries g)) in
    let hsec h := padded (sector_size d) (gpt_header_bytes h) in
    let backup := place_header last 1 (u64 (last - es)) h in
    let primary := place_header 1 last 2 h in
    let* (ok, s) := and_write true disk (u64 (last - es)) es sec s in
    let* (ok, s) := and_write ok disk last 1 (hsec backup) s in
    let* (ok, s) := and_write ok disk 2 es sec s in
    let* (ok, s) := and_write ok disk 1 1 (hsec primary) s in
    if ok then write_protective_mbr disk s else Ret (false, s).

(** ** Table detection and scanning *)

Inductive partition_table := PART_TABLE_NONE | PART_TABLE_MBR | PART_TABLE_GPT | PART_TABLE_AUTO.

Definition mbr_entries (mbr : list Z) : list mbr_entry :=
  (λ i, mbr_entry_of (drop (446 + 16 * i) mbr)) <$> seq 0 4.

Definition table_of (mbr : list Z) : partition_table :=
  if negb (has_at mbr 0 MAGIC_TEXT) && (byte mbr 510 =? 85) && (byte mbr 511 =? 170) then
    let live := filter (λ e, type e ≠ 0) (mbr_entries mbr) in
    let protective := existsb (λ e, type e =? PART_MBR_TYPE_GPT) live in
    let sane := forallb (λ e, (status e =? 0) || (status e =? 128)) live in
    let fat_vbr := has_at mbr 54 FAT_TEXT || has_at mbr 82 FAT32_TEXT in
    if protective then PART_TABLE_GPT
    else if sane && negb fat_vbr then PART_TABLE_MBR else PART_TABLE_NONE
  else PART_TABLE_NONE.

Definition partition_table_type (disk : nat) (s : storage D) : outcome partition_table :=
  if bool_decide (kind (the_dev disk s) ≠ BLOCKDEV_KIND_DISK) then Ret PART_TABLE_NONE
  else
    let* r := read_sectors disk 0 1 s in
    match r with
    | None => Ret PART_TABLE_NONE
    | Some mbr => if sector_size (the_dev disk s) <? 512 then Undef else Ret (table_of mbr)
    end.

Definition partition_table_name (t : partition_table) : list Z :=
  match t with PART_TABLE_MBR => txt "MBR" | PART_TABLE_GPT => txt "GPT" | _ => txt "none" end.

(** The device of one GPT entry, with its identity copied in. *)
Definition scan_gpt_entry (disk : nat) (i : nat) (e : gpt_entry) (st : Z * storage D) : Z * storage D :=
  let '(found, s) := st in
  if guid_is_zero (ge_type_guid e) || (ge_last_lba e <? ge_first_lba e) then (found, s)
  else
    match blockdev_add_partition disk (Z.of_nat i + 1) (ge_first_lba e)
            (u64 (ge_last_lba e - ge_first_lba e + 1)) s with
    | (None, s) => (found, s)
    | (Some p, s) =>
        (found + 1,
         set_devs (<[p := set_ids 0 (ge_type_guid e) (ge_unique_guid e) (utf16_to_ascii 36 (ge_name e))
                            (the_dev p s)]> (devs s)) s)
    end.

Fixpoint scan_gpt (disk : nat) (i : nat) (l : list gpt_entry) (st : Z * storage D) : Z * storage D :=
  match l with [] => st | e :: r => scan_gpt disk (S i) r (scan_gpt_entry disk i e st) end.

(** MBR partitions get an id made of the disk signature and their number. *)
Definition scan_mbr_entry (disk : nat) (sig : list Z) (i : nat) (e : mbr_entry) (st : Z * storage D) :
    Z * storage D :=
  let '(found, s) := st in
  if (type e =? 0) || (me_sectors e =? 0) then (found, s)
  else
    match blockdev_add_partition disk (Z.of_nat i + 1) (lba_first e) (me_sectors e) s with
    | (None, s) => (found, s)
    | (Some p, s) =>
        (found + 1,
         set_devs (<[p := set_ids (type e) (replicate 16 0)
                            (sig ++ replicate 11 0 ++ [u8 (Z.of_nat i + 1)]) [] (the_dev p s)]> (devs s)) s)
    end.

Fixpoint scan_mbr (disk : nat) (sig : list Z) (i : nat) (l : list mbr_entry) (st : Z * storage D) :
    Z * storage D :=
  match l with [] => st | e :: r => scan_mbr disk sig (S i) r (scan_mbr_entry disk sig i e st) end.

Definition partition_scan (disk : nat) (s : storage D) : outcome (Z * storage D) :=
  if bool_decide (kind (the_dev disk s) ≠ BLOCKDEV_KIND_DISK) then Ret (0, s)
  else
    let s := blockdev_remove_partitions disk s in
    let* t := partition_table_type disk s in
    match t with
    | PART_TABLE_GPT =>
        let* g := gpt_load disk s in
        match g with
        | None => Ret (0, s)
        | Some g => Ret (scan_gpt disk 0 (take (Z.to_nat (num_entries (header g))) (entries g)) (0, s))
        end
    | PART_TABLE_MBR =>
        let* r := read_sectors disk 0 1 s in
        match r with
        | None => Ret (0, s)
        | Some mbr => Ret (scan_mbr disk (take 4 (drop 440 mbr)) 0 (mbr_entries mbr) (0, s))
        end
    | _ => Ret (0, s)
    end.

(** ** Kinds *)

Inductive partition_kind :=
| PART_KIND_MINIMAFS | PART_KIND_ESP | PART_KIND_BIOS_BOOT | PART_KIND_FAT | PART_KIND_OTHER.
#[local] Instance partition_kind_eq_dec : EqDecision partition_kind.
Proof. solve_decision. Defined.

Definition partition_kind_of (p : blockdev) : partition_kind :=
  if bool_decide (kind p ≠ BLOCKDEV_KIND_PARTITION) then PART_KIND_OTHER
  else if negb (mbr_type p =? 0) then
    if mbr_type p =? PART_MBR_TYPE_MINIMAFS then PART_KIND_MINIMAFS
    else if mbr_type p =? PART_MBR_TYPE_ESP then PART_KIND_ESP
    else if (mbr_type p =? 11) || (mbr_type p =? 12) then PART_KIND_FAT
    else PART_KIND_OTHER
  else if bool_decide (type_guid p = GUID_MINIMAFS) then PART_KIND_MINIMAFS
  else if bool_decide (type_guid p = GUID_ESP) then PART_KIND_ESP
  else if bool_decide (type_guid p = GUID_BIOS_BOOT) then PART_KIND_BIOS_BOOT
  else if bool_decide (type_guid p = GUID_BASIC_DATA) then PART_KIND_FAT
  else PART_KIND_OTHER.

Definition partition_kind_name (k : partition_kind) : list Z :=
  match k with
  | PART_KIND_MINIMAFS => txt "minimafs" | PART_KIND_ESP => txt "esp"
  | PART_KIND_BIOS_BOOT => txt "biosboot" | PART_KIND_FAT => txt "fat" | PART_KIND_OTHER => txt "other"
  end.

Definition kind_names : list (list Z * partition_kind) :=
  [(txt "minimafs", PART_KIND_MINIMAFS); (txt "mfs", PART_KIND_MINIMAFS); (txt "esp", PART_KIND_ESP);
   (txt "efi", PART_KIND_ESP); (txt "biosboot", PART_KIND_BIOS_BOOT); (txt "bios", PART_KIND_BIOS_BOOT);
   (txt "fat", PART_KIND_FAT); (txt "fat32", PART_KIND_FAT)].
Definition partition_kind_from_name (nm : list Z) : option partition_kind :=
  snd <$> List.find (λ p, bool_decide (p.1 = nm)) kind_names.

(** ** Creating tables and partitions *)

Definition empty_entry : gpt_entry := mk_gpt_entry (replicate 16 0) (replicate 16 0) 0 0 0 (replicate 36 0).

Definition partition_create_table (disk : nat) (t : partition_table) (rnd : list Z) (sig : Z)
    (s : storage D) : outcome (bool * storage D) :=
  let d := the_dev disk s in
  if bool_decide (kind d ≠ BLOCKDEV_KIND_DISK) then Ret (false, s)
  else if sectors d <? 4194304 / sector_size d then Ret (false, s)
  else
    let t := match t with PART_TABLE_AUTO => PART_TABLE_GPT | _ => t end in
    let is_mbr := match t with PART_TABLE_MBR => true | _ => false end in
    if is_mbr && (4294967295 <? sectors d) then Ret (false, s)
    else
      let wipe := u32 (PART_ALIGN_BYTES / sector_size d) in
      if negb (can_alloc (u64 (wipe * sector_size d))) then Ret (false, s)
      else
        let tail := if 64 <? sectors d then 64 else u32 (sectors d) in
        if wipe <? tail then Undef
        else
          let* (ok, s) := and_write true disk 0 wipe (bytes_zero (wipe * sector_size d)) s in
          let* (ok, s) := and_write ok disk (u64 (sectors d - tail)) tail (bytes_zero (tail * sector_size d)) s in
          if negb ok then Ret (false, s)
          else if is_mbr then
            if sector_size d <? 512 then Undef
            else if negb (can_alloc (sector_size d)) then Ret (false, s)
            else
              let mbr := patch 510 [85; 170] (patch 440 (le 4 (u32 sig)) (bytes_zero (sector_size d))) in
              let* (ok, s) := blockdev_write disk 0 1 mbr s in
              let* (_, s) := partition_scan disk s in
              Ret (ok, s)
          else if negb (can_alloc GPT_ENTRY_BYTES) then Ret (false, s)
          else
            let es := gpt_entry_sectors d in
            let h := mk_gpt_header (txt "EFI PART") 65536 92 0 0 0 0 (u64 (2 + es))
                       (u64 (sectors d - 2 - es)) (guid_random rnd) 0 0 0 0 in
            let* (ok, s) := gpt_store disk (mk_gpt h (replicate 128 empty_entry) es) s in
            let* (_, s) := partition_scan disk s in
            Ret (ok, s).

(** A range of sectors, end exclusive. *)
Record range := mk_range { r_start : Z; r_end : Z }.

(** The insertion step of [used_ranges]: [r] goes behind every range that
    does not start after it. *)
Fixpoint insert_range (r : range) (rev_sorted : list range) : list range :=
  match rev_sorted with
  | [] => [r]
  | x :: rest => if r_start r <? r_start x then x :: insert_range r rest else r :: x :: rest
  end.

(** The array is kept reversed: the loop moves from its end down. *)
Definition used_ranges (disk : nat) (max : nat) (s : storage D) : list range :=
  let live := filter (λ d, used d = true ∧ parent d = Some disk) (devs s) in
  reverse (foldl (λ acc r, insert_range r acc) []
    (take max ((λ d, mk_range (start_lba d) (u64 (start_lba d + sectors d))) <$> live))).

(** One gap, from [cursor] to [gap_end]: [Some r] is a return with answer
    [r], [None] goes on to the next gap. *)
Definition try_gap (a want_start want cursor gap_end : Z) : option (option (Z * Z)) :=
  let gap_start := round_up cursor a in
  if negb (want_start =? 0) then
    if (cursor <=? want_start) && (want_start <? gap_end) then
      let avail := u64 (gap_end - want_start) in
      let len := if want =? 0 then avail else want in
      if len <=? avail then Some (Some (want_start, len)) else Some None
    else None
  else if gap_start <? gap_end then
    let avail := u64 (gap_end - gap_start) in
    let len := if want =? 0 then avail else want in
    let len := if (want =? 0) && (a <? len) then len / a * a else len in
    if (len <=? avail) && (0 <? len) then Some (Some (gap_start, len)) else None
  else None.

Definition gap_end (last_excl : Z) (l : list range) : Z :=
  match l with r :: _ => Z.min (r_start r) last_excl | [] => last_excl end.

Fixpoint find_gap (a last_excl want_start want : Z) (cursor : Z) (l : list range) : option (Z * Z) :=
  match try_gap a want_start want cursor (gap_end last_excl l) with
  | Some r => r
  | None =>
      match l with
      | [] => None
      | r :: l' => find_gap a last_excl want_start want (if cursor <? r_end r then r_end r else cursor) l'
      end
  end.

Definition find_space (disk : nat) (first last_excl start nsec : Z) (s : storage D) : option (Z * Z) :=
  find_gap (align_lba (the_dev disk s)) last_excl start nsec first
    (used_ranges disk (Z.to_nat GPT_ENTRIES) s).

Definition kind_guid (k : partition_kind) : list Z :=
  match k with
  | PART_KIND_ESP => GUID_ESP | PART_KIND_BIOS_BOOT => GUID_BIOS_BOOT | PART_KIND_FAT => GUID_BASIC_DATA
  | _ => GUID_MINIMAFS
  end.
Definition kind_mbr_type (k : partition_kind) : Z :=
  match k with
  | PART_KIND_ESP => PART_MBR_TYPE_ESP | PART_KIND_FAT => PART_MBR_TYPE_FAT32LBA
  | _ => PART_MBR_TYPE_MINIMAFS
  end.

Definition new_gpt_entry (k : partition_kind) (label : option (list Z)) (rnd : list Z) (start n : Z) :
    gpt_entry :=
  mk_gpt_entry (kind_guid k) (guid_random rnd) start (u64 (start + n - 1)) 0
    (ascii_to_utf16 36 (default (partition_kind_name k) label)).

(** The GPT half of [partition_add]: the number of the new partition. *)
Definition add_to_gpt (disk : nat) (start nsec : Z) (k : partition_kind) (label : option (list Z))
    (rnd : list Z) (s : storage D) : outcome (option Z * storage D) :=
  let* g := gpt_load disk s in
  match g with
  | None => Ret (None, s)
  | Some g =>
      match first_index (λ e, guid_is_zero (ge_type_guid e)) (entries g) with
      | None => Ret (None, s)
      | Some slot =>
          match find_space disk (first_usable_lba (header g)) (u64 (last_usable_lba (header g) + 1))
                  start nsec s with
          | None => Ret (None, s)
          | Some (st, n) =>
              let g' := mk_gpt (header g) (<[slot := new_gpt_entry k label rnd st n]> (entries g))
                          (entry_sectors g) in
              let* (ok, s) := gpt_store disk g' s in
              Ret (if ok then Some (Z.of_nat slot + 1) else None, s)
          end
      end
  end.

(** The MBR half. *)
Definition add_to_mbr (disk : nat) (start nsec : Z) (k : partition_kind) (s : storage D) :
    outcome (option Z * storage D) :=
  if bool_decide (k = PART_KIND_BIOS_BOOT) then Ret (None, s)
  else
    let* r := read_sectors disk 0 1 s in
    match r with
    | None => Ret (None, s)
    | Some mbr =>
        let limit := if sectors (the_dev disk s) <? 4294967295 then sectors (the_dev disk s)
                     else 4294967295 in
        match first_index (λ e, type e =? 0) (mbr_entries mbr) with
        | None => Ret (None, s)
        | Some slot =>
            match find_space disk 1 limit start nsec s with
            | None => Ret (None, s)
            | Some (st, n) =>
                let others := <[slot := mbr_entry_of (replicate 16 0)]> (mbr_entries mbr) in
                let active := existsb (λ e, status e =? 128) others in
                let e := mk_mbr_entry (if active then 0 else 128) [254; 255; 255] (kind_mbr_type k)
                           [254; 255; 255] (u32 st) (u32 n) in
                let* (ok, s) := blockdev_write disk 0 1 (patch (446 + 16 * slot) (mbr_entry_bytes e) mbr) s in
                Ret (if ok then Some (Z.of_nat slot + 1) else None, s)
            end
        end
    end.

(** The new device: cleared so that no old file system is seen, and identified. *)
Definition adopt (number : Z) (disk : nat) (s : storage D) : outcome (option nat * storage D) :=
  match first_index (λ p, used p && bool_decide (parent p = Some disk) && (part_number p =? number)) (devs s) with
  | None => Ret (None, s)
  | Some p =>
      let ss := sector_size (the_dev p s) in
      let z := 4096 / ss in
      let count := if z =? 0 then 1 else z in
      if can_alloc 4096 then
        if 4096 <? count * ss then Undef
        else
          let* (_, s) := blockdev_write p 0 count (bytes_zero (count * ss)) s in
          let* (_, s) := blockdev_identify can_alloc p s in
          Ret (Some p, s)
      else
        let* (_, s) := blockdev_identify can_alloc p s in
        Ret (Some p, s)
  end.

Definition partition_add (disk : nat) (start nsec : Z) (k : partition_kind) (label : option (list Z))
    (rnd : list Z) (s : storage D) : outcome (option nat * storage D) :=
  let* t := partition_table_type disk s in
  match t with
  | PART_TABLE_NONE => Ret (None, s)
  | _ =>
      let* (_, s) := partition_scan disk s in
      let* (r, s) := match t with
                     | PART_TABLE_GPT => add_to_gpt disk start nsec k label rnd s
                     | _ => add_to_mbr disk start nsec k s
                     end in
      match r with
      | None => Ret (None, s)
      | Some number =>
          let* (_, s) := partition_scan disk s in
          adopt number disk s
      end
  end.

Definition partition_delete (disk : nat) (number : Z) (s : storage D) : outcome (bool * storage D) :=
  let* t := partition_table_type disk s in
  if number =? 0 then Ret (false, s)
  else if existsb (λ p, used p && bool_decide (parent p = Some disk) && (part_number p =? number) &&
                        (0 <=? mounted_drive p)) (devs s) then Ret (false, s)
  else
    match t with
    | PART_TABLE_GPT =>
        let* g := gpt_load disk s in
        match g with
        | None => Ret (false, s)
        | Some g =>
            let i := Z.to_nat (number - 1) in
            let* (ok, s) :=
              if (number <=? GPT_ENTRIES) && negb (guid_is_zero (ge_type_guid (nth i (entries g) empty_entry)))
              then gpt_store disk (mk_gpt (header g) (<[i := empty_entry]> (entries g)) (entry_sectors g)) s
              else Ret (false, s) in
            let* (_, s) := partition_scan disk s in
            Ret (ok, s)
        end
    | PART_TABLE_MBR =>
        if number <=? 4 then
          let* r := read_sectors disk 0 1 s in
          match r with
          | None => Ret (false, s)
          | Some mbr =>
              let i := Z.to_nat (number - 1) in
              let* (ok, s) :=
                if negb (type (mbr_entry_of (drop (446 + 16 * i) mbr)) =? 0)
                then blockdev_write disk 0 1 (patch (446 + 16 * i) (replicate 16 0) mbr) s
                else Ret (false, s) in
              let* (_, s) := partition_scan disk s in
              Ret (ok, s)
          end
        else
          let* (_, s) := partition_scan disk s in Ret (false, s)
    | _ => let* (_, s) := partition_scan disk s in Ret (false, s)
    end.
End partition.

(** ** CRC-32: the table routine is the bitwise one *)

(** The reference: eight shift-and-xor steps per byte. *)
Definition crc_byte (crc b : Z) : Z := Nat.iter 8 crc_bit (Z.lxor crc b).
Definition crc32_ref (data : list Z) : Z := Z.lxor (foldl crc_byte 4294967295 data) 4294967295.

Lemma crc_bit_lxor x y : crc_bit (Z.lxor x y) = Z.lxor (crc_bit x) (crc_bit y).
Proof.
  unfold crc_bit. rewrite <- !Z.bit0_odd, Z.lxor_spec, Z.shiftr_lxor.
  destruct (Z.testbit x 0), (Z.testbit y 0); simpl; apply Z.bits_inj'; intros n Hn;
    rewrite !Z.lxor_spec; repeat case_match; destruct (Z.testbit _ n), (Z.testbit _ n); try done.
  all: destruct (Z.testbit _ n); done.
Qed.

Lemma crc_iter_lxor k x y :
  Nat.iter k crc_bit (Z.lxor x y) = Z.lxor (Nat.iter k crc_bit x) (Nat.iter k crc_bit y).
Proof. induction k as [|k IH]; [done|]. simpl. by rewrite IH, crc_bit_lxor. Qed.

Lemma crc_iter_shift y (k : nat) : Nat.iter k crc_bit (Z.shiftl y (Z.of_nat k)) = y.
Proof.
  induction k as [|k IH] in y |- *; [apply Z.shiftl_0_r|].
  rewrite Nat.iter_succ_r. rewrite <- (IH y) at 2. f_equal. unfold crc_bit.
  rewrite <- Z.bit0_odd, Z.shiftl_spec_low by lia.
  rewrite Z.shiftr_shiftl_l by lia. f_equal. lia.
Qed.

Lemma split_low8 x : 0 ≤ x → x = Z.lxor (Z.land x 255) (Z.shiftl (Z.shiftr x 8) 8).
Proof.
  intros Hx. apply Z.bits_inj'. intros n Hn.
  rewrite Z.lxor_spec, Z.land_spec. change 255 with (Z.ones 8).
  destruct (Z.ltb_spec n 8).
  - rewrite Z.ones_spec_low, Z.shiftl_spec_low by lia. by rewrite andb_true_r, xorb_false_r.
  - rewrite Z.ones_spec_high, Z.shiftl_spec_high, Z.shiftr_spec by lia.
    rewrite andb_false_r. replace (n - 8 + 8) with n by lia. by destruct (Z.testbit x n).
Qed.

Lemma crc_step_eq crc b : is_u32 crc → is_u8 b → crc_step g_crc_table crc b = crc_byte crc b ∧ is_u32 (crc_byte crc b).
Proof.
  intros Hc Hb. unfold is_u32, is_u8 in *. unfold crc_step, crc_byte.
  assert (0 ≤ Z.lxor crc b) as Hx by (apply Z.lxor_nonneg; lia).
  assert (Z.land (Z.lxor crc b) 255 = Z.lxor crc b mod 256) as Hl by (apply (land_ones_mod _ 8); lia).
  assert (0 ≤ Z.land (Z.lxor crc b) 255 < 256) as Hr by (rewrite Hl; apply Z.mod_pos_bound; lia).
  assert (Z.shiftr (Z.lxor crc b) 8 = Z.shiftr crc 8) as Hs.
  { rewrite Z.shiftr_lxor. rewrite (Z.shiftr_div_pow2 b), Z.div_small by lia. apply Z.lxor_0_r. }
  assert (Z.lxor (nth (Z.to_nat (Z.land (Z.lxor crc b) 255)) g_crc_table 0) (Z.shiftr crc 8)
          = Nat.iter 8 crc_bit (Z.lxor crc b)) as E.
  { rewrite (split_low8 (Z.lxor crc b)) at 2 by lia. rewrite crc_iter_lxor, Hs.
    change (Z.shiftl (Z.shiftr crc 8) 8) with (Z.shiftl (Z.shiftr crc 8) (Z.of_nat 8)).
    rewrite crc_iter_shift. f_equal.
    unfold g_crc_table. rewrite nth_lookup, list_lookup_fmap, lookup_seqZ_lt by lia. cbn [fmap option_fmap option_map default from_option].
    by rewrite Z2Nat.id, Z.add_0_l by lia. }
  split; [exact E|]. rewrite <- E.
  assert (∀ i, (0 ≤ i < 256) → 0 ≤ nth (Z.to_nat i) g_crc_table 0 < 4294967296) as Ht.
  { intros i Hi. assert (((0 <=? nth (Z.to_nat i) g_crc_table 0) && (nth (Z.to_nat i) g_crc_table 0 <? 4294967296)) = true) as Hb2.
    { revert i Hi. apply (byte_forall (λ i, (0 <=? nth (Z.to_nat i) g_crc_table 0) && (nth (Z.to_nat i) g_crc_table 0 <? 4294967296))).
      vm_compute. reflexivity. }
    bool_to_prop. lia. }
  specialize (Ht _ Hr). set (t := nth _ _ _) in *. set (u := Z.shiftr crc 8) in *.
  assert (0 ≤ u < 4294967296) by (unfold u; rewrite Z.shiftr_div_pow2 by lia; split;
    [apply Z.div_pos; lia|apply Z.div_lt_upper_bound; lia]).
  split; [apply Z.lxor_nonneg; lia|].
  destruct (decide (Z.lxor t u = 0)) as [->|]; [lia|].
  assert (0 ≤ Z.lxor t u) by (apply Z.lxor_nonneg; lia).
  apply (Z.log2_lt_pow2 _ 32); [lia|].
  assert (∀ v, 0 ≤ v < 4294967296 → Z.log2 v < 32) as Hlog.
  { intros v Hv. destruct (decide (v = 0)) as [->|]; [done|]. apply Z.log2_lt_pow2; lia. }
  eapply Z.le_lt_trans; [apply Z.log2_lxor; lia|]. apply Z.max_lub_lt; auto.
Qed.

Lemma crc_fold_eq data : ∀ crc, is_u32 crc → Forall is_u8 data →
  foldl (crc_step g_crc_table) crc data = foldl crc_byte crc data ∧ is_u32 (foldl crc_byte crc data).
Proof.
  induction data as [|b data IH]; intros crc Hc Hd; [done|]. inversion_clear Hd. cbn [foldl].
  destruct (crc_step_eq crc b) as [-> Hb]; [done..|]. by apply IH.
Qed.

(** ** Free space *)

(** [insert_range] keeps a list that descends by start, and its elements. *)
Definition r_desc (x y : range) : Prop := r_start y ≤ r_start x.
Definition r_asc (x y : range) : Prop := r_start x ≤ r_start y.

Lemma insert_range_perm r l : insert_range r l ≡ₚ r :: l.
Proof. induction l as [|x l IH]; simpl; [done|]. case_if; [|done]. rewrite IH. apply Permutation_swap. Qed.

Lemma insert_range_sorted r l : StronglySorted r_desc l → StronglySorted r_desc (insert_range r l).
Proof.
  induction 1 as [|x l Hs IH Hx]; simpl; [by repeat constructor|]. unfold r_desc in *. case_if; bool_to_prop.
  - constructor; [done|]. rewrite insert_range_perm. constructor; [lia|done].
  - constructor; [by constructor|]. constructor; [lia|]. eapply Forall_impl; [done|]. simpl. lia.
Qed.

Lemma insertion_sort l acc :
  StronglySorted r_desc acc →
  StronglySorted r_desc (foldl (λ acc r, insert_range r acc) acc l) ∧
  foldl (λ acc r, insert_range r acc) acc l ≡ₚ l ++ acc.
Proof.
  revert acc. induction l as [|r l IH]; intros acc Hs; simpl; [done|].
  destruct (IH (insert_range r acc)) as [H1 H2]; [by apply insert_range_sorted|]. split; [done|].
  rewrite H2, insert_range_perm. apply Permutation_sym, Permutation_middle.
Qed.

Lemma sorted_reverse l : StronglySorted r_desc l → StronglySorted r_asc (reverse l).
Proof.
  induction 1 as [|x l Hs IH Hx]; [constructor|]. rewrite reverse_cons.
  apply StronglySorted_app_2; [|done|by repeat constructor].
  intros a b Ha Hb. apply list_elem_of_singleton in Hb as ->. rewrite elem_of_reverse in Ha.
  rewrite Forall_forall in Hx. exact (Hx a Ha).
Qed.

(** The range the code computes for a device, and what it promises. *)
Definition free_range (l : list range) (st n : Z) : Prop :=
  Forall (λ r, st + n ≤ r_start r ∨ r_end r ≤ st) l.

Lemma round_up_spec v a B :
  0 < a → 0 ≤ v ≤ B → B + a < 18446744073709551616 →
  v ≤ round_up v a ∧ round_up v a mod a = 0 ∧ ∀ st, v ≤ st → st mod a = 0 → round_up v a ≤ st.
Proof.
  intros Ha Hv HB. unfold round_up. rewrite (u64_small (v + a - 1)) by (unfold is_u64; lia).
  pose proof (Z.div_mod (v + a - 1) a ltac:(lia)) as Hd. pose proof (Z.mod_pos_bound (v + a - 1) a ltac:(lia)).
  set (q := (v + a - 1) / a) in *.
  rewrite u64_small by (unfold is_u64; nia). split; [nia|]. split; [apply Z.mod_mul; lia|].
  intros st Hst Hm. pose proof (Z.div_mod st a ltac:(lia)). rewrite Hm in *. set (p := st / a) in *.
  assert (q ≤ p) by (destruct (Z.leb_spec q p); [done|nia]). nia.
Qed.

Section find_gap.
  Context (a last_excl want_start want B : Z).
  Context (Ha : 0 < a) (Hlast : last_excl ≤ B) (HB : B + a < 18446744073709551616)
    (Hstart : 0 ≤ want_start) (Hwant : 0 ≤ want).

Definition gap_ok (cursor : Z) (l : list range) (st n : Z) : Prop :=
  cursor ≤ st ∧ 0 < n ∧ st + n ≤ last_excl ∧ free_range l st n ∧
  (want_start ≠ 0 → st = want_start) ∧ (want_start = 0 → st mod a = 0) ∧ (want ≠ 0 → n = want).

Lemma free_before (r : range) l st n :
  StronglySorted r_asc (r :: l) → st + n ≤ r_start r → free_range (r :: l) st n.
Proof.
  intros Hs Hn. apply StronglySorted_inv in Hs as [_ Hs]. constructor; [by left|].
  eapply Forall_impl; [done|]. unfold r_asc. simpl. intros. left. lia.
Qed.

Lemma gap_free l st n :
  StronglySorted r_asc l → st + n ≤ gap_end last_excl l → st + n ≤ last_excl ∧ free_range l st n.
Proof.
  intros Hs Hn. destruct l as [|r l]; simpl in Hn; [split; [lia|constructor]|].
  split; [lia|]. apply free_before; [done|lia].
Qed.

(** A gap that is taken is used from a place and for a length as asked. *)
Lemma try_gap_some cursor ge st n :
  0 ≤ cursor ≤ B → ge ≤ B → try_gap a want_start want cursor ge = Some (Some (st, n)) →
  cursor ≤ st ∧ 0 < n ∧ st + n ≤ ge ∧
  (want_start ≠ 0 → st = want_start) ∧ (want_start = 0 → st mod a = 0) ∧ (want ≠ 0 → n = want).
Proof.
  intros Hc Hge. pose proof (round_up_spec cursor a B Ha Hc HB) as (Hr1 & Hr2 & _). unfold try_gap.
  destruct (Z.eqb_spec want_start 0) as [->|Hw]; cbn [negb].
  - destruct (Z.ltb_spec (round_up cursor a) ge); [|done]. rewrite u64_small by (unfold is_u64; lia).
    set (av := ge - round_up cursor a) in *.
    set (len := if (want =? 0) && _ then _ else _).
    destruct (Z.leb_spec len av), (Z.ltb_spec 0 len); simpl; try done. intros [= <- <-].
    repeat split; try (unfold av in *; lia). unfold len. destruct (Z.eqb_spec want 0); done.
  - destruct (Z.leb_spec cursor want_start), (Z.ltb_spec want_start ge); simpl; try done.
    rewrite u64_small by (unfold is_u64; lia).
    destruct (Z.eqb_spec want 0) as [->|]; case_if; try done; intros [= <- <-]; bool_to_prop; repeat split; lia.
Qed.

(** A gap is passed over only when nothing asked for fits in it. *)
Lemma try_gap_none cursor ge st r :
  0 ≤ cursor ≤ B → ge ≤ B → try_gap a want_start want cursor ge = r → (r = None ∨ r = Some None) →
  (want_start ≠ 0 → st = want_start) → (want_start = 0 → st mod a = 0) → cursor ≤ st →
  ge < st + Z.max 1 want ∧ (r = Some None → st < ge).
Proof.
  intros Hc Hge Ht Hr Hst1 Hst2 Hcst. pose proof (round_up_spec cursor a B Ha Hc HB) as (Hr1 & _ & Hr3).
  unfold try_gap in Ht. destruct (Z.eqb_spec want_start 0) as [->|Hw]; cbn [negb] in Ht.
  - specialize (Hst2 eq_refl). specialize (Hr3 st Hcst Hst2).
    destruct (Z.ltb_spec (round_up cursor a) ge); [|subst r; split; [lia|done]].
    rewrite u64_small in Ht by (unfold is_u64; lia). set (av := ge - round_up cursor a) in *.
    destruct (Z.eqb_spec want 0) as [->|]; cbn [andb] in Ht.
    + exfalso. destruct (Z.ltb_spec a av).
      * assert (0 < av / a * a ≤ av).
        { pose proof (Z.div_mod av a ltac:(lia)). pose proof (Z.mod_pos_bound av a ltac:(lia)).
          assert (1 ≤ av / a) by (apply Z.div_le_lower_bound; lia). nia. }
        rewrite (proj2 (Z.leb_le _ _)), (proj2 (Z.ltb_lt _ _)) in Ht by lia. simpl in Ht. destruct Hr; congruence.
      * rewrite (proj2 (Z.leb_le _ _)), (proj2 (Z.ltb_lt _ _)) in Ht by lia. simpl in Ht. destruct Hr; congruence.
    + rewrite (proj2 (Z.ltb_lt 0 want)), andb_true_r in Ht by lia.
      destruct (Z.leb_spec want av); [destruct Hr; congruence|]. subst r. split; [unfold av in *; lia|done].
  - rewrite (Hst1 Hw) in *. rewrite (proj2 (Z.leb_le _ _)) in Ht by lia. cbn [andb] in Ht.
    destruct (Z.ltb_spec want_start ge); [|subst r; split; [lia|done]].
    rewrite u64_small in Ht by (unfold is_u64; lia).
    destruct (Z.eqb_spec want 0) as [->|].
    + rewrite (proj2 (Z.leb_le _ _)) in Ht by lia. destruct Hr; congruence.
    + destruct (Z.leb_spec want (ge - want_start)); [destruct Hr; congruence|]. split; [lia|done].
Qed.

Lemma gap_end_le l : gap_end last_excl l ≤ B.
Proof. destruct l; simpl; lia. Qed.

Lemma find_gap_sound l : ∀ cursor st n,
  0 ≤ cursor ≤ B → StronglySorted r_asc l → Forall (λ r, 0 ≤ r_start r < r_end r ∧ r_end r ≤ B) l →
  find_gap a last_excl want_start want cursor l = Some (st, n) → gap_ok cursor l st n.
Proof.
  induction l as [|r l IH]; intros cursor st n Hc Hs Hl; cbn [find_gap];
    destruct (try_gap _ _ _ _ _) as [x|] eqn:Et; try done.
  1,2: intros ->; apply try_gap_some in Et as (H1 & H2 & H3 & H4); [|done|apply gap_end_le];
    destruct (gap_free _ _ _ Hs H3); unfold gap_ok; tauto.
  intros Hf. apply StronglySorted_inv in Hs as [Hs _]. inversion_clear Hl as [|? ? Hr Hl'].
  set (c' := if cursor <? r_end r then r_end r else cursor) in *.
  assert (cursor ≤ c' ∧ r_end r ≤ c' ≤ B) as (Hc1 & Hc2) by (unfold c'; destruct (Z.ltb_spec cursor (r_end r)); lia).
  destruct (IH c' st n) as (H1 & H2 & H3 & H4 & H5); [lia|done|done|done|].
  split; [lia|]. split; [done|]. split; [done|]. split; [|done]. constructor; [right; lia|done].
Qed.

Lemma find_gap_complete l : ∀ cursor st,
  0 ≤ cursor ≤ B → Forall (λ r, 0 ≤ r_start r < r_end r ∧ r_end r ≤ B) l →
  find_gap a last_excl want_start want cursor l = None →
  (want_start ≠ 0 → st = want_start) → (want_start = 0 → st mod a = 0) → cursor ≤ st →
  st + Z.max 1 want ≤ last_excl →
  ∃ r, r ∈ l ∧ r_start r < st + Z.max 1 want ∧ st < r_end r.
Proof.
  induction l as [|r l IH]; intros cursor st Hc Hl; cbn [find_gap];
    destruct (try_gap _ _ _ _ _) as [x|] eqn:Et.
  1,3: intros -> H1 H2 H3 H4; eapply try_gap_none in Et as [Hg1 Hg2];
    [|done|apply gap_end_le|by right|done..]; specialize (Hg2 eq_refl); simpl in Hg1, Hg2.
  1: lia.
  1: inversion_clear Hl; exists r; split; [by left|lia].
  all: intros Hf H1 H2 H3 H4; eapply try_gap_none in Et as [Hg1 _];
    [|done|apply gap_end_le|by left|done..]; simpl in Hg1.
  1: lia.
  inversion_clear Hl as [|? ? Hr Hl']. destruct (decide (st < r_end r)).
  { exists r. split; [by left|]. lia. }
  destruct (IH (if cursor <? r_end r then r_end r else cursor) st) as (r' & Hin & Hov); try done.
  1,2: destruct (Z.ltb_spec cursor (r_end r)); lia.
  exists r'. split; [by right|done].
Qed.
End find_gap.

Section space.
  Context {D : Type} `{BlockDriver D}.

(** Device [i] is a partition of [disk]. *)
Definition part_of (s : storage D) (disk i : nat) : Prop :=
  used (the_dev i s) = true ∧ parent (the_dev i s) = Some disk.

Lemma part_bounds (s : storage D) disk i :
  table_ok s → part_of s disk i →
  0 ≤ start_lba (the_dev i s) ∧ 0 < sectors (the_dev i s) ∧
  start_lba (the_dev i s) + sectors (the_dev i s) ≤ sectors (the_dev disk s) < 18446744073709551616.
Proof.
  intros Hok [Hu Hp]. pose proof Hok as [_ Hall]. pose proof (Hall i _ (the_dev_used i s Hu) Hu) as Hi.
  unfold dev_ok in Hi. destruct (kind (the_dev i s)); [destruct Hi as (? & _); congruence|].
  destruct Hi as (p & pd & Hp' & Hpd & Hpu & Hpk & _ & ? & ? & ?). assert (p = disk) as -> by congruence.
  pose proof (the_dev_lookup _ _ _ Hpd) as He. assert (used (the_dev disk s) = true) as Hdu by congruence.
  pose proof (used_sectors disk s Hok Hdu) as Hs. unfold is_u64 in Hs. rewrite He in *. lia.
Qed.

(** [used_ranges] is the sorted list of the disk's partitions: the table has
    fewer slots than the array, so none is left out. *)
Lemma used_ranges_spec (s : storage D) disk :
  table_ok s →
  let l := used_ranges disk (Z.to_nat GPT_ENTRIES) s in
  StronglySorted r_asc l ∧
  ∀ r, r ∈ l ↔ ∃ i, part_of s disk i ∧
    r = mk_range (start_lba (the_dev i s)) (start_lba (the_dev i s) + sectors (the_dev i s)).
Proof.
  intros Hok l. subst l. unfold used_ranges.
  set (live := filter _ (devs s)). set (f := λ d : blockdev, mk_range _ _).
  assert (length live ≤ 128)%nat as Hlen.
  { pose proof (length_filter (λ d, used d = true ∧ parent d = Some disk) (devs s)) as Hf.
    destruct Hok as [Hl _]. rewrite Hl in Hf. unfold BLOCKDEV_MAX in Hf. fold live in Hf. lia. }
  rewrite take_ge by (rewrite length_fmap; exact Hlen).
  destruct (insertion_sort (f <$> live) [] ltac:(constructor)) as [Hs Hp].
  split; [by apply sorted_reverse|]. intros r. rewrite elem_of_reverse, Hp, app_nil_r, list_elem_of_fmap. split.
  - intros (d & -> & Hd). apply list_elem_of_filter in Hd as [[Hu Hpar] Hd].
    apply list_elem_of_lookup in Hd as [i Hi]. exists i.
    assert (part_of s disk i) as Hpi by (split; by rewrite (the_dev_lookup _ _ _ Hi)).
    split; [done|]. pose proof (part_bounds s disk i Hok Hpi) as Hb.
    rewrite (the_dev_lookup _ _ _ Hi) in *. unfold f. by rewrite u64_small by (unfold is_u64; lia).
  - intros (i & Hpi & ->). exists (the_dev i s). pose proof (part_bounds s disk i Hok Hpi) as Hb.
    destruct Hpi as [Hu Hpar]. split.
    + unfold f. by rewrite u64_small by (unfold is_u64; lia).
    + apply list_elem_of_filter. split; [done|]. eapply list_elem_of_lookup_2, the_dev_used, Hu.
Qed.

(** A range of the disk that meets no partition of it. *)
Definition unused_range (s : storage D) (disk : nat) (st n : Z) : Prop :=
  ∀ i, part_of s disk i →
    st + n ≤ start_lba (the_dev i s) ∨ start_lba (the_dev i s) + sectors (the_dev i s) ≤ st.

(** What [find_space] answers, both ways. *)
Definition space_answer (s : storage D) (disk : nat) (first last_excl start nsec : Z) (r : option (Z * Z)) : Prop :=
  match r with
  | Some (st, n) =>
      first ≤ st ∧ 0 < n ∧ st + n ≤ last_excl ∧ unused_range s disk st n ∧
      (start ≠ 0 → st = start) ∧ (start = 0 → st mod align_lba (the_dev disk s) = 0) ∧ (nsec ≠ 0 → n = nsec)
  | None =>
      ∀ st, (start ≠ 0 → st = start) → (start = 0 → st mod align_lba (the_dev disk s) = 0) →
        first ≤ st → st + Z.max 1 nsec ≤ last_excl → ¬ unused_range s disk st (Z.max 1 nsec)
  end.

Lemma align_lba_range (d : blockdev) : 0 < sector_size d → 0 < align_lba d ≤ PART_ALIGN_BYTES.
Proof.
  intros Hs. unfold align_lba, PART_ALIGN_BYTES. assert (0 ≤ 1048576 / sector_size d) by (apply Z.div_pos; lia).
  assert (1048576 / sector_size d ≤ 1048576) by (apply Z.div_le_upper_bound; nia).
  destruct (Z.eqb_spec (1048576 / sector_size d) 0); lia.
Qed.

Lemma find_space_spec (s : storage D) disk first last_excl start nsec :
  table_ok s → used (the_dev disk s) = true → 0 ≤ first ≤ sectors (the_dev disk s) →
  last_excl ≤ sectors (the_dev disk s) →
  sectors (the_dev disk s) + PART_ALIGN_BYTES < 18446744073709551616 →
  is_u64 start → is_u64 nsec →
  space_answer s disk first last_excl start nsec (find_space disk first last_excl start nsec s).
Proof.
  intros Hok Hu Hf Hl Hs Hst Hn. unfold is_u64 in *.
  assert (0 < sector_size (the_dev disk s)) as Hss.
  { pose proof Hok as [_ Hall]. pose proof (Hall disk _ (the_dev_used _ _ Hu) Hu) as Hd. unfold dev_ok in Hd.
    destruct (kind (the_dev disk s)); [by destruct Hd as (_ & _ & ? & _)|].
    destruct Hd as (p & pd & _ & Hpd & Hpu & Hpk & -> & _). specialize (Hall p pd Hpd Hpu).
    unfold dev_ok in Hall. rewrite Hpk in Hall. by destruct Hall as (_ & _ & ? & _). }
  pose proof (align_lba_range _ Hss) as Ha.
  destruct (used_ranges_spec s disk Hok) as [Hsorted Hin].
  assert (Forall (λ r, 0 ≤ r_start r < r_end r ∧ r_end r ≤ sectors (the_dev disk s))
            (used_ranges disk (Z.to_nat GPT_ENTRIES) s)) as Hb.
  { apply Forall_forall. intros r Hr. apply Hin in Hr as (i & Hp & ->). simpl.
    pose proof (part_bounds s disk i Hok Hp). lia. }
  unfold find_space. destruct (find_gap _ _ _ _ _ _) as [[st n]|] eqn:Ef; simpl.
  - apply (find_gap_sound _ _ _ _ (sectors (the_dev disk s))) in Ef as (H1 & H2 & H3 & H4 & H5); try done; try lia.
    repeat (split; [done|]). split; [|done]. intros i Hi. unfold free_range in H4. rewrite Forall_forall in H4.
    apply (H4 (mk_range _ _)), Hin. eauto.
  - intros st H1 H2 H3 H4 Hun.
    eapply (find_gap_complete _ _ _ _ (sectors (the_dev disk s))) in Ef as (r & Hr & Ho); try done; try lia.
    apply Hin in Hr as (i & Hi & ->). specialize (Hun i Hi). simpl in Ho. lia.
Qed.
End space.

(** ** The on-disk layouts round trip *)

Lemma length_le n v : length (le n v) = n.
Proof. revert v. induction n as [|n IH]; intros v; simpl; [done|]. by rewrite IH. Qed.

Lemma le_bytes n v : Forall is_u8 (le n v).
Proof.
  revert v. induction n as [|n IH]; intros v; simpl; constructor; [|done].
  unfold is_u8. apply Z.mod_pos_bound. lia.
Qed.

Lemma unle_le n v : 0 ≤ v < 256 ^ Z.of_nat n → unle (le n v) = v.
Proof.
  revert v. induction n as [|n IH]; intros v Hv; simpl; [simpl in Hv; lia|].
  rewrite Nat2Z.inj_succ, Z.pow_succ_r in Hv by lia. rewrite IH.
  - pose proof (Z.div_mod v 256 ltac:(lia)). lia.
  - split; [apply Z.div_pos; lia|apply Z.div_lt_upper_bound; lia].
Qed.

Definition bytes_of_len (n : nat) (l : list Z) : Prop := length l = n ∧ Forall is_u8 l.

Definition header_wf (h : gpt_header) : Prop :=
  bytes_of_len 8 (signature h) ∧ bytes_of_len 16 (disk_guid h) ∧
  is_u32 (revision h) ∧ is_u32 (header_size h) ∧ is_u32 (header_crc32 h) ∧ is_u32 (reserved h) ∧
  is_u64 (my_lba h) ∧ is_u64 (alternate_lba h) ∧ is_u64 (first_usable_lba h) ∧ is_u64 (last_usable_lba h) ∧
  is_u64 (entries_lba h) ∧ is_u32 (num_entries h) ∧ is_u32 (entry_size h) ∧ is_u32 (entries_crc32 h).

Definition entry_wf (e : gpt_entry) : Prop :=
  bytes_of_len 16 (ge_type_guid e) ∧ bytes_of_len 16 (ge_unique_guid e) ∧
  is_u64 (ge_first_lba e) ∧ is_u64 (ge_last_lba e) ∧ is_u64 (ge_attributes e) ∧
  length (ge_name e) = 36%nat ∧ Forall is_u16 (ge_name e).

(** A list of known length as its elements. *)
Ltac explode l H :=
  repeat (destruct l as [|? l]; [discriminate H|]); destruct l; [|discriminate H]; clear H.

Ltac le_done := symmetry; first [ apply (unle_le 4) | apply (unle_le 8) | apply (unle_le 2) ]; assumption.

Lemma gpt_header_roundtrip h rest : header_wf h → gpt_header_of (gpt_header_bytes h ++ rest) = h.
Proof.
  destruct h as [sg v1 v2 v3 v4 v5 v6 v7 v8 gd v9 v10 v11 v12]. unfold header_wf, bytes_of_len. simpl.
  intros ([Hs _] & [Hg _] & ? & ? & ? & ? & ? & ? & ? & ? & ? & ? & ? & ?).
  explode sg Hs. explode gd Hg.
  unfold gpt_header_bytes, gpt_header_of. cbn [signature disk_guid app take drop le revision header_size
    header_crc32 reserved my_lba alternate_lba first_usable_lba last_usable_lba entries_lba num_entries entry_size entries_crc32].
  f_equal; try done; symmetry; le_done.
Qed.

Lemma utf16_roundtrip l rest : Forall is_u16 l → utf16_of (length l) (mjoin (le 2 <$> l) ++ rest) = l.
Proof.
  induction 1 as [|x l Hx Hl IH]; [done|].
  change (mjoin (le 2 <$> x :: l)) with (le 2 x ++ mjoin (le 2 <$> l)). rewrite <- app_assoc.
  cbn [length utf16_of]. rewrite take_app_length', drop_app_length' by (symmetry; apply length_le).
  rewrite IH. f_equal. by apply (unle_le 2).
Qed.

Lemma gpt_entry_roundtrip e : entry_wf e → gpt_entry_of (gpt_entry_bytes e) = e.
Proof.
  destruct e as [tg ug v1 v2 v3 nm]. unfold entry_wf, bytes_of_len. simpl.
  intros ([Ht _] & [Hu _] & ? & ? & ? & Hn & Hnm). pose proof (utf16_roundtrip nm [] Hnm) as Hr.
  rewrite Hn, app_nil_r in Hr. explode tg Ht. explode ug Hu.
  unfold gpt_entry_bytes, gpt_entry_of. cbn [ge_type_guid ge_unique_guid ge_first_lba ge_last_lba ge_attributes
    ge_name app take drop le].
  f_equal; try done; symmetry; le_done.
Qed.

Lemma length_utf16 l : length (mjoin (le 2 <$> l)) = (2 * length l)%nat.
Proof. induction l as [|x l IH]; [done|]. change (mjoin (le 2 <$> x :: l)) with (le 2 x ++ mjoin (le 2 <$> l)).
  rewrite length_app, IH, length_le. simpl. lia. Qed.

Lemma length_entry e : entry_wf e → length (gpt_entry_bytes e) = 128%nat.
Proof.
  intros ([Ht _] & [Hu _] & _ & _ & _ & Hn & _). unfold gpt_entry_bytes.
  by rewrite !length_app, length_utf16, !length_le, Ht, Hu, Hn.
Qed.

Lemma length_header h : header_wf h → length (gpt_header_bytes h) = 92%nat.
Proof.
  intros ([Hs _] & [Hg _] & _). unfold gpt_header_bytes. by rewrite !length_app, !length_le, Hs, Hg.
Qed.

Lemma header_u8 h : header_wf h → Forall is_u8 (gpt_header_bytes h).
Proof.
  intros ([_ Hs] & [_ Hg] & _). unfold gpt_header_bytes. rewrite !Forall_app. auto 20 using le_bytes.
Qed.

Lemma entry_u8 e : entry_wf e → Forall is_u8 (gpt_entry_bytes e).
Proof.
  intros ([_ Ht] & [_ Hu] & _). unfold gpt_entry_bytes. rewrite !Forall_app.
  split_and!; auto using le_bytes. induction (ge_name e) as [|x l IH]; [constructor|].
  change (mjoin (le 2 <$> x :: l)) with (le 2 x ++ mjoin (le 2 <$> l)). apply Forall_app. auto using le_bytes.
Qed.

Lemma entries_u8 l : Forall entry_wf l → Forall is_u8 (entries_bytes l).
Proof.
  induction 1; [constructor|]. change (entries_bytes (x :: l)) with (gpt_entry_bytes x ++ entries_bytes l).
  apply Forall_app. auto using entry_u8.
Qed.

Lemma length_entries l : Forall entry_wf l → length (entries_bytes l) = (128 * length l)%nat.
Proof.
  induction 1; [done|]. change (entries_bytes (x :: l)) with (gpt_entry_bytes x ++ entries_bytes l).
  rewrite length_app, length_entry by done. rewrite IHForall. cbn [length]. lia.
Qed.

Lemma entries_roundtrip l rest : Forall entry_wf l → entries_of (length l) (entries_bytes l ++ rest) = l.
Proof.
  induction 1 as [|e l He Hl IH]; [done|].
  change (entries_bytes (e :: l)) with (gpt_entry_bytes e ++ entries_bytes l). rewrite <- app_assoc.
  cbn [length entries_of]. rewrite take_app_length', drop_app_length' by (symmetry; by apply length_entry).
  by rewrite gpt_entry_roundtrip, IH.
Qed.

Lemma crc_range data : Forall is_u8 data → is_u32 (partition_crc32 data).
Proof.
  intros Hd. unfold partition_crc32. destruct (crc_fold_eq data 4294967295) as [-> Hr]; [done|done|].
  unfold is_u32 in *. set (c := foldl _ _ _) in *. split; [apply Z.lxor_nonneg; lia|].
  destruct (decide (Z.lxor c 4294967295 = 0)) as [->|]; [lia|].
  assert (0 ≤ Z.lxor c 4294967295) by (apply Z.lxor_nonneg; lia).
  apply (Z.log2_lt_pow2 _ 32); [lia|]. eapply Z.le_lt_trans; [apply Z.log2_lxor; lia|].
  apply Z.max_lub_lt; [|done]. destruct (decide (c = 0)) as [->|]; [done|]. apply Z.log2_lt_pow2; lia.
Qed.

Lemma place_header_wf my alt ent h :
  header_wf h → is_u64 my → is_u64 alt → is_u64 ent → header_wf (place_header my alt ent h).
Proof.
  intros (?&?&?&?&?&?&?&?&?&?&?&?&?&?) ???. unfold place_header.
  set (h0 := mk_gpt_header _ _ _ 0 _ _ _ _ _ _ _ _ _ _).
  assert (header_wf h0) as Hwf0 by (split_and!; done).
  pose proof (crc_range _ (header_u8 h0 Hwf0)) as Hc. split_and!; done.
Qed.

Lemma lookup_patch off new buf i :
  (off + length new ≤ length buf)%nat →
  patch off new buf !! i =
    if decide (off ≤ i < off + length new)%nat then new !! (i - off)%nat else buf !! i.
Proof.
  intros Hl. unfold patch. destruct (decide (i < off)%nat).
  - rewrite lookup_app_l by (rewrite length_take; lia). rewrite decide_False by lia. by apply lookup_take_lt.
  - rewrite lookup_app_r by (rewrite length_take; lia). rewrite length_take, Nat.min_l by lia.
    destruct (decide (i < off + length new)%nat).
    + rewrite decide_True by lia. apply lookup_app_l. lia.
    + rewrite decide_False by lia. rewrite lookup_app_r by lia. rewrite lookup_drop. f_equal. lia.
Qed.

Lemma length_patch off new buf : (off + length new ≤ length buf)%nat → length (patch off new buf) = length buf.
Proof. intros. unfold patch. rewrite !length_app, length_take, length_drop. lia. Qed.

(** The protective MBR says GPT, unless sector 0 starts a file system. *)
Lemma length_protective d mbr : (512 ≤ length mbr)%nat → length (protective_mbr d mbr) = length mbr.
Proof.
  intros Hl. unfold protective_mbr. cbv zeta.
  assert (length (patch 446 (mbr_entry_bytes (mk_mbr_entry 0 [0; 2; 0] PART_MBR_TYPE_GPT [255; 255; 255] 1
     (if 4294967295 <? u64 (sectors d - 1) then 4294967295 else u32 (u64 (sectors d - 1)))) ++ replicate 48 0) mbr) = length mbr) as H1
    by (apply length_patch; simpl; lia).
  rewrite length_patch; [exact H1|]. rewrite H1. simpl. lia.
Qed.

Lemma protective_is_gpt d mbr :
  (512 ≤ length mbr)%nat → has_at mbr 0 MAGIC_TEXT = false → table_of (protective_mbr d mbr) = PART_TABLE_GPT.
Proof.
  intros Hl Hm. unfold protective_mbr. cbv zeta.
  set (e := mk_mbr_entry _ _ _ _ _ _).
  set (new := mbr_entry_bytes e ++ replicate 48 0). assert (length new = 64%nat) as Hnew by done.
  set (m1 := patch 446 new mbr). assert (length m1 = length mbr) as Hl1 by (apply length_patch; lia).
  set (m2 := patch 510 [85; 170] m1).
  assert (∀ i, (i < 446)%nat → m2 !! i = mbr !! i) as Hlow.
  { intros i Hi. unfold m2. rewrite lookup_patch by (rewrite Hl1; simpl; lia). rewrite decide_False by (simpl; lia).
    unfold m1. rewrite lookup_patch by lia. by rewrite decide_False by lia. }
  assert (∀ i, (446 ≤ i < 510)%nat → m2 !! i = new !! (i - 446)%nat) as Hent.
  { intros i Hi. unfold m2. rewrite lookup_patch by (rewrite Hl1; simpl; lia). rewrite decide_False by (simpl; lia).
    unfold m1. rewrite lookup_patch by lia. by rewrite decide_True by lia. }
  assert (m2 !! 510%nat = Some 85 ∧ m2 !! 511%nat = Some 170) as [H510 H511].
  { unfold m2. rewrite !lookup_patch by (rewrite Hl1; simpl; lia). done. }
  unfold table_of. assert (has_at m2 0 MAGIC_TEXT = false) as ->.
  { rewrite <- Hm. unfold has_at. rewrite !drop_0. f_equal. apply bool_decide_ext.
    assert (take 7 m2 = take 7 mbr) as E; [|change (length MAGIC_TEXT) with 7%nat; by rewrite E].
    apply list_eq. intros i. destruct (decide (i < 7)%nat); [rewrite !lookup_take_lt by lia; apply Hlow; lia|].
    rewrite !lookup_take_ge by lia. done. }
  unfold byte at 1 2. rewrite H510, H511. cbn [negb andb default from_option].
  change (85 =? 85) with true. change (170 =? 170) with true. cbn [andb].
  assert (type (mbr_entry_of (drop (446 + 16 * 0) m2)) = 238) as Ht.
  { unfold mbr_entry_of, byte. cbn [type]. rewrite lookup_drop, Hent by lia. done. }
  unfold mbr_entries. cbn [seq fmap list_fmap]. rewrite filter_cons_True by (rewrite Ht; done).
  cbn [existsb]. by rewrite Ht.
Qed.

(** ** Storing a GPT and loading it back *)
Section gpt.
  Context {D : Type} `{BlockDriver D}.
  Context (can_alloc : Z → bool) (Hmem : ∀ n, can_alloc n = true).

(** A disk a GPT fits on: writable, with sectors of at least 512 bytes, and
    room for two headers, two entry arrays and the MBR. *)
Definition gpt_disk (disk : nat) (s : storage D) : Prop :=
  let d := the_dev disk s in
  table_ok s ∧ used d = true ∧ kind d = BLOCKDEV_KIND_DISK ∧ can_write d = true ∧
  512 ≤ sector_size d < 4294967296 ∧ 2 * gpt_entry_sectors d + 3 ≤ sectors d.

Lemma entry_sectors_spec d :
  512 ≤ sector_size d < 4294967296 →
  1 ≤ gpt_entry_sectors d ≤ 32 ∧ 16384 ≤ gpt_entry_sectors d * sector_size d.
Proof.
  intros Hs. unfold gpt_entry_sectors, GPT_ENTRY_BYTES. set (ss := sector_size d) in *.
  rewrite (u64_small (16384 + ss - 1)) by (unfold is_u64; lia).
  pose proof (Z.div_mod (16384 + ss - 1) ss ltac:(lia)). pose proof (Z.mod_pos_bound (16384 + ss - 1) ss ltac:(lia)).
  set (q := (16384 + ss - 1) / ss) in *.
  assert (1 ≤ q) by (apply Z.div_le_lower_bound; lia).
  assert (q ≤ 32) by (assert (q < 33); [apply Z.div_lt_upper_bound; lia|lia]).
  rewrite u32_small by (unfold is_u32; lia). split; [lia|nia].
Qed.

(** One write to such a disk. *)
Lemma disk_write disk (s : storage D) lba count buf :
  gpt_disk disk s → 0 ≤ lba → 0 < count < 4294967296 → lba + count ≤ sectors (the_dev disk s) →
  Z.of_nat (length buf) = count * sector_size (the_dev disk s) →
  ∃ s', blockdev_write disk lba count buf s = Ret (true, s') ∧ gpt_disk disk s' ∧ devs s' = devs s ∧
    blockdev_read disk lba count s' = Ret (Some buf) ∧
    (∀ lba' count', is_u64 lba' → is_u32 count' → lba' + count' ≤ lba ∨ lba + count ≤ lba' →
       blockdev_read disk lba' count' s' = blockdev_read disk lba' count' s).
Proof.
  intros (Hok & Hu & Hk & Hw & Hss & Hn) Hl Hc Hin Hlen.
  pose proof (used_sectors disk s Hok Hu) as Hsec. unfold is_u64 in Hsec.
  destruct (blockdev_write_reads s disk lba count buf) as (s' & E & Hok' & Hd & Hr & Ho);
    [done|done|unfold is_u64; lia|unfold is_u32; lia|lia|done|lia|unfold dev_disk; by rewrite Hk|].
  exists s'. assert (the_dev disk s' = the_dev disk s) as He by (unfold the_dev; by rewrite Hd).
  split; [done|]. split; [|done]. unfold gpt_disk. by rewrite He.
Qed.

Lemma length_padded n l : Z.of_nat (length l) ≤ n → Z.of_nat (length (padded n l)) = n.
Proof. intros. unfold padded, bytes_zero. rewrite length_app, length_replicate. lia. Qed.

(** A GPT in memory that can be stored: what [gpt_load] and
    [partition_create_table] make. *)
Definition gpt_wf (d : blockdev) (g : gpt) : Prop :=
  header_wf (header g) ∧ signature (header g) = txt "EFI PART" ∧
  92 ≤ header_size (header g) ≤ sector_size d ∧
  length (entries g) = 128%nat ∧ Forall entry_wf (entries g) ∧ entry_sectors g = gpt_entry_sectors d.

(** What the store leaves in memory and on the disk. *)
Definition stored (d : blockdev) (g : gpt) : gpt :=
  mk_gpt (place_header 1 (sectors d - 1) 2 (store_header g)) (entries g) (entry_sectors g).

Lemma store_header_wf d g : gpt_wf d g → header_wf (store_header g).
Proof.
  intros ((?&?&?&?&?&?&?&?&?&?&?&?&?&?) & _ & _ & Hl & He & _). unfold store_header.
  pose proof (crc_range _ (entries_u8 _ He)). split_and!; done.
Qed.

Lemma stored_acceptable d g :
  gpt_wf d g → 512 ≤ sector_size d → is_u64 (sectors d - 1) →
  header_acceptable d (header (stored d g)) = true.
Proof.
  intros (Hh & Hsig & Hsz & _) Hss Hsec. unfold header_acceptable, stored. cbn [header].
  unfold place_header, store_header. cbn. rewrite Hsig, bool_decide_eq_true_2 by done.
  rewrite (proj2 (Z.leb_le 92 _)), (proj2 (Z.leb_le _ (sector_size d))), Z.eqb_refl by lia. done.
Qed.

(** The two reads of [gpt_load] decide what it returns. *)
Lemma gpt_load_reads disk (s : storage D) (g : gpt) :
  gpt_disk disk s → gpt_wf (the_dev disk s) g →
  blockdev_read disk 1 1 s = Ret (Some (padded (sector_size (the_dev disk s))
    (gpt_header_bytes (header (stored (the_dev disk s) g))))) →
  blockdev_read disk 2 (gpt_entry_sectors (the_dev disk s)) s =
    Ret (Some (padded (gpt_entry_sectors (the_dev disk s) * sector_size (the_dev disk s))
      (entries_bytes (entries g)))) →
  gpt_load can_alloc disk s = Ret (Some (stored (the_dev disk s) g)).
Proof.
  intros (Hok & Hu & Hk & Hw & Hss & Hn) Hg H1 H2. unfold gpt_load, read_sectors. rewrite !Hmem.
  rewrite H1. cbn [obind]. pose proof (used_sectors disk s Hok Hu) as Hsec. unfold is_u64 in Hsec.
  set (d := the_dev disk s) in *. set (g' := stored d g) in *.
  destruct (entry_sectors_spec d Hss) as [Hes1 Hes2].
  assert (is_u64 (sectors d - 1)) as Hlast by (unfold is_u64; lia).
  assert (header_wf (header g')) as Hhw by (apply place_header_wf; [by eapply store_header_wf|done..]).
  assert (gpt_header_of (padded (sector_size d) (gpt_header_bytes (header g'))) = header g') as Hrt
    by (unfold padded; by apply gpt_header_roundtrip).
  rewrite Hrt. rewrite (proj2 (Z.ltb_ge _ _)) by (unfold sizeof_gpt_header; lia).
  replace (header_acceptable d (header g')) with true by (symmetry; apply stored_acceptable; done || lia). cbn [negb].
  change (entries_lba (header g')) with 2. cbv zeta. rewrite H2. cbn [obind negb].
  change (num_entries (header g')) with 128. change (128 * sizeof_gpt_entry) with 16384.
  destruct Hg as (Hh & Hsig & Hsz & Hlen & Hent & Hes).
  assert (length (entries_bytes (entries g)) = Z.to_nat 16384) as Hbl
    by (rewrite length_entries, Hlen by done; lia).
  unfold padded. rewrite take_app_length' by done.
  change (entries_crc32 (header g')) with (partition_crc32 (entries_bytes (entries g))).
  rewrite Z.eqb_refl. cbn [negb]. rewrite <- Hlen at 1.
  rewrite entries_roundtrip by done. unfold g', stored. by rewrite Hes.
Qed.

(** Everything a store leaves behind. *)
Definition store_effect (disk : nat) (g : gpt) (s s' : storage D) : Prop :=
  let d := the_dev disk s in let es := gpt_entry_sectors d in
  gpt_disk disk s' ∧ devs s' = devs s ∧
  gpt_load can_alloc disk s' = Ret (Some (stored d g)) ∧
  blockdev_read disk (sectors d - 1 - es) es s' = blockdev_read disk 2 es s' ∧
  blockdev_read disk (sectors d - 1) 1 s' = Ret (Some (padded (sector_size d)
    (gpt_header_bytes (place_header (sectors d - 1) 1 (sectors d - 1 - es) (store_header g))))) ∧
  (∀ lba count, is_u64 lba → is_u32 count → 2 + es ≤ lba → lba + count ≤ sectors d - 1 - es →
     blockdev_read disk lba count s' = blockdev_read disk lba count s) ∧
  (∀ mbr, blockdev_read disk 0 1 s = Ret (Some mbr) → has_at mbr 0 MAGIC_TEXT = false →
     partition_table_type can_alloc disk s' = Ret PART_TABLE_GPT).

Lemma write_protective_mbr_effect disk (s : storage D) :
  gpt_disk disk s →
  ∃ s', write_protective_mbr can_alloc disk s = Ret (true, s') ∧ gpt_disk disk s' ∧ devs s' = devs s ∧
    (∀ lba count, is_u64 lba → is_u32 count → 1 ≤ lba →
       blockdev_read disk lba count s' = blockdev_read disk lba count s) ∧
    (∀ mbr, blockdev_read disk 0 1 s = Ret (Some mbr) → has_at mbr 0 MAGIC_TEXT = false →
       partition_table_type can_alloc disk s' = Ret PART_TABLE_GPT).
Proof.
  intros Hd. pose proof Hd as (Hok & Hu & Hk & Hw & Hss & Hn). destruct (entry_sectors_spec _ Hss) as [Hes1 _].
  unfold write_protective_mbr. rewrite (proj2 (Z.ltb_ge _ _)), Hmem by lia. cbn [negb].
  rewrite blockdev_read_spec by done. rewrite bool_decide_eq_true_2 by lia. cbn [obind].
  change (1 =? 0) with false. cbv iota. set (mbr := _ <$> _).
  assert (length mbr = Z.to_nat (sector_size (the_dev disk s))) as Hlen
    by (unfold mbr; rewrite length_fmap, length_seqZ; lia).
  destruct (disk_write disk s 0 1 (protective_mbr (the_dev disk s) mbr)) as (s' & E & Hd' & Hdv & Hr & Ho);
    [done|lia|lia|lia|rewrite length_protective; lia|].
  exists s'. split; [done|]. split; [done|]. split; [done|]. split.
  - intros lba count Hl Hc H1. apply Ho; [done|done|lia].
  - intros mbr' [= <-] Hm. unfold partition_table_type.
    assert (the_dev disk s' = the_dev disk s) as He by (unfold the_dev; by rewrite Hdv).
    rewrite He, Hk, bool_decide_eq_false_2 by (by intros []). unfold read_sectors. rewrite Hmem, Hr. cbn [obind].
    rewrite (proj2 (Z.ltb_ge _ _)) by lia. by rewrite protective_is_gpt by (done || lia).
Qed.

Lemma gpt_store_effect disk (s : storage D) g :
  gpt_disk disk s → gpt_wf (the_dev disk s) g →
  ∃ s', gpt_store can_alloc disk g s = Ret (true, s') ∧ store_effect disk g s s'.
Proof.
  intros Hd Hg. pose proof Hd as (Hok & Hu & Hk & Hw & Hss & Hn).
  pose proof (used_sectors disk s Hok Hu) as Hsec. destruct (entry_sectors_spec _ Hss) as [Hes1 Hes2].
  pose proof Hg as (Hh & Hsig & Hsz & Hlen & Hent & Hes). unfold is_u64 in Hsec.
  unfold gpt_store. rewrite Hes, !Hmem. set (d := the_dev disk s) in *. set (es := gpt_entry_sectors d) in *.
  rewrite (proj2 (Z.ltb_ge _ sizeof_gpt_header)), (proj2 (Z.ltb_ge _ GPT_ENTRY_BYTES))
    by (unfold sizeof_gpt_header, GPT_ENTRY_BYTES; lia). cbn [orb andb negb].
  rewrite (u64_small (sectors d - 1)) by (unfold is_u64; lia).
  rewrite (u64_small (sectors d - 1 - es)) by (unfold is_u64; lia).
  set (sec := padded (es * sector_size d) _).
  set (bh := place_header (sectors d - 1) 1 _ _). set (ph := place_header 1 _ 2 _).
  assert (is_u64 (sectors d - 1) ∧ is_u64 (sectors d - 1 - es)) as [Hu1 Hu2] by (unfold is_u64; lia).
  assert (Z.of_nat (length sec) = es * sector_size d) as Hls.
  { apply length_padded. rewrite length_entries, Hlen by done. lia. }
  assert (∀ h, header_wf h → Z.of_nat (length (padded (sector_size d) (gpt_header_bytes h))) = 1 * sector_size d) as Hlh.
  { intros h Hhw. rewrite length_padded by (rewrite length_header by done; lia). lia. }
  pose proof (store_header_wf d g Hg) as Hshw.
  assert (header_wf bh) by (by apply place_header_wf). assert (header_wf ph) by (by apply place_header_wf).
  assert (∀ st : storage D, devs st = devs s → the_dev disk st = d) as Hdev by (intros st E; unfold d, the_dev; by rewrite E).
  unfold and_write at 1. cbv iota.
  destruct (disk_write disk s (sectors d - 1 - es) es sec) as (s1 & -> & D1 & V1 & R1 & O1); [done|lia|lia|fold d; lia|done|].
  cbn [obind and_write]. pose proof (Hdev s1 V1) as E1.
  destruct (disk_write disk s1 (sectors d - 1) 1 (padded (sector_size d) (gpt_header_bytes bh)))
    as (s2 & -> & D2 & V2 & R2 & O2); [done|lia|lia|rewrite E1; lia|rewrite E1; auto|].
  cbn [obind and_write]. rewrite V1 in V2. pose proof (Hdev s2 V2) as E2.
  destruct (disk_write disk s2 2 es sec) as (s3 & -> & D3 & V3 & R3 & O3); [done|lia|lia|rewrite E2; lia|by rewrite E2|].
  cbn [obind and_write]. rewrite V2 in V3. pose proof (Hdev s3 V3) as E3.
  destruct (disk_write disk s3 1 1 (padded (sector_size d) (gpt_header_bytes ph)))
    as (s4 & -> & D4 & V4 & R4 & O4); [done|lia|lia|rewrite E3; lia|rewrite E3; auto|].
  cbn [obind and_write]. rewrite V3 in V4. pose proof (Hdev s4 V4) as E4.
  destruct (write_protective_mbr_effect disk s4 D4) as (s5 & E & D5 & V5 & O5 & T5). rewrite V4 in V5.
  exists s5. split; [exact E|]. pose proof (Hdev s5 V5) as E5.
  assert (blockdev_read disk 2 es s5 = Ret (Some sec)) as Hr2.
  { rewrite O5, O4, R3 by (unfold is_u64, is_u32; lia). done. }
  assert (blockdev_read disk 1 1 s5 = Ret (Some (padded (sector_size d) (gpt_header_bytes ph)))) as Hr1.
  { rewrite O5, R4 by (unfold is_u64, is_u32; lia). done. }
  split; [done|]. split; [done|]. split_and!.
  - fold d. rewrite <- E5. apply (gpt_load_reads disk s5 g D5); rewrite E5; done.
  - fold d es. rewrite Hr2. rewrite O5, O4, O3, O2 by (unfold is_u64, is_u32; lia). done.
  - fold d es. rewrite O5, O4, O3 by (unfold is_u64, is_u32; lia). done.
  - fold d es. intros lba count Hl Hc ? ?. unfold is_u64, is_u32 in Hl, Hc.
    rewrite O5, O4, O3, O2, O1 by (unfold is_u64, is_u32; lia). done.
  - intros mbr Hm1 Hm2. apply (T5 mbr); [|done]. rewrite O4, O3, O2, O1 by (unfold is_u64, is_u32; lia). done.
Qed.
End gpt.

(** ** Scanning *)
Section scan.
  Context {D : Type} `{BlockDriver D}.
  Context (can_alloc : Z → bool) (Hmem : ∀ n, can_alloc n = true).

(** The disk's own slot and every driver are as before. *)
Definition same_disk (disk : nat) (s s' : storage D) : Prop :=
  disks s' = disks s ∧ the_dev disk s' = the_dev disk s.

Lemma blockdev_read_same disk lba count (s s' : storage D) :
  kind (the_dev disk s) = BLOCKDEV_KIND_DISK → same_disk disk s s' →
  blockdev_read disk lba count s' = blockdev_read disk lba count s.
Proof.
  intros Hk [Hd He]. unfold blockdev_read, io_ok. cbn [resolve]. rewrite He, Hk.
  repeat case_if; try done. cbn [obind]. by rewrite He, Hd.
Qed.

Lemma gpt_load_same disk (s s' : storage D) :
  kind (the_dev disk s) = BLOCKDEV_KIND_DISK → same_disk disk s s' →
  gpt_load can_alloc disk s' = gpt_load can_alloc disk s.
Proof.
  intros Hk Hs. pose proof Hs as [_ He]. unfold gpt_load, read_sectors. rewrite He.
  rewrite (blockdev_read_same disk _ _ s s' Hk Hs).
  destruct (can_alloc _); [|done]. destruct (blockdev_read _ _ _ _) as [[hdr|]| | |]; try done. cbn [obind].
  repeat (case_if; [done|]). by rewrite (blockdev_read_same disk _ _ s s' Hk Hs).
Qed.

Lemma partition_table_type_same disk (s s' : storage D) :
  kind (the_dev disk s) = BLOCKDEV_KIND_DISK → same_disk disk s s' →
  partition_table_type can_alloc disk s' = partition_table_type can_alloc disk s.
Proof.
  intros Hk Hs. pose proof Hs as [_ He]. unfold partition_table_type, read_sectors.
  by rewrite He, (blockdev_read_same disk _ _ s s' Hk Hs).
Qed.

Lemma same_disk_trans disk (s1 s2 s3 : storage D) : same_disk disk s1 s2 → same_disk disk s2 s3 → same_disk disk s1 s3.
Proof. intros [? ?] [? ?]. split; congruence. Qed.

(** Changing only the identity fields of a device. *)
Lemma set_ids_ok (s : storage D) i mt tg pg lb :
  table_ok s → table_ok (set_devs (<[i := set_ids mt tg pg lb (the_dev i s)]> (devs s)) s).
Proof.
  intros Hok. apply insert_dev_ok; [done|done|]. intros Hu. cbn [used set_ids] in Hu.
  pose proof Hok as [_ Hall]. pose proof (Hall i _ (the_dev_used i s Hu) Hu) as Hi.
  unfold dev_ok in *. cbn [kind set_ids]. destruct (kind (the_dev i s)) eqn:Hk; [exact Hi|].
  destruct Hi as (p & pd & Hp & Hpd & Hpu & Hpk & Hrest). exists p, pd. split; [done|]. split; [|done].
  cbn [devs set_devs]. rewrite list_lookup_insert_ne; [done|]. intros ->.
  rewrite (the_dev_lookup _ _ _ Hpd) in Hk. congruence.
Qed.

Lemma the_dev_insert (s : storage D) i j d :
  the_dev j (set_devs (<[i := d]> (devs s)) s) =
  if decide (i = j ∧ (i < length (devs s))%nat) then d else the_dev j s.
Proof.
  unfold the_dev. cbn [devs set_devs]. rewrite !nth_lookup. case_decide as Hc.
  - destruct Hc as [-> Hl]. by rewrite list_lookup_insert_eq.
  - destruct (decide (i = j)) as [->|]; [|by rewrite list_lookup_insert_ne].
    by rewrite list_insert_ge by (apply Nat.nlt_ge; tauto).
Qed.

(** One step of a scan: a device for the range at most, nothing else. *)
Definition scan_step (disk : nat) (s s' : storage D) (allowed : Z → Z → Prop) : Prop :=
  table_ok s' ∧ same_disk disk s s' ∧
  ∀ i, part_of s' disk i →
    (part_of s disk i ∧ start_lba (the_dev i s') = start_lba (the_dev i s) ∧
     sectors (the_dev i s') = sectors (the_dev i s)) ∨
    allowed (start_lba (the_dev i s')) (sectors (the_dev i s')).

Lemma add_and_label (s : storage D) disk number lba nsec mt tg pg lb p s1 :
  table_ok s → used (the_dev disk s) = true → kind (the_dev disk s) = BLOCKDEV_KIND_DISK →
  is_u64 lba → is_u64 nsec → blockdev_add_partition disk number lba nsec s = (p, s1) →
  let s2 := match p with
            | Some p => set_devs (<[p := set_ids mt tg pg lb (the_dev p s1)]> (devs s1)) s1
            | None => s1 end in
  scan_step disk s s2 (λ st n, st = lba ∧ n = nsec).
Proof.
  intros Hok Hu Hk Hl Hn E. pose proof (add_partition_spec s disk number lba nsec Hok Hu Hl Hn) as Hs.
  rewrite E in Hs. cbn [fst snd] in Hs. destruct Hs as [Hok1 Hs].
  destruct p as [p|]; cbv zeta.
  2:{ subst s1. split; [done|]. split; [done|]. auto. }
  destruct Hs as (Hpu & Hpk & Hpp & Hps & Hpn & _ & _ & _ & Hother).
  assert (p ≠ disk) as Hne.
  { intros ->.
    assert (dev_ok s1 (the_dev disk s1)) as Hd by (destruct Hok1 as [_ Ha]; apply (Ha disk); [by apply the_dev_used|done]).
    unfold dev_ok in Hd. rewrite Hpk in Hd. destruct Hd as (q & qd & Hq & Hqd & Hqu & Hqk & _).
    rewrite Hpp in Hq. injection Hq as <-. rewrite (the_dev_lookup _ _ _ Hqd) in Hpk. congruence. }
  assert (disks s1 = disks s) as Hdisks.
  { revert E. unfold blockdev_add_partition. repeat case_if; try (by intros [= <- <-]).
    destruct (first_index _ _); [by intros [= <- <-]|]. destruct (blockdev_alloc s); by intros [= <- <-]. }
  split; [by apply set_ids_ok|]. split.
  - split; [done|]. rewrite the_dev_insert, decide_False by tauto. by apply Hother.
  - intros i. unfold part_of. rewrite the_dev_insert. case_decide as Hc.
    + destruct Hc as [<- _]. intros _. right. by cbn [start_lba sectors set_ids].
    + destruct (decide (i = p)) as [->|Hi].
      * intros _. right. auto.
      * rewrite Hother by done. intros Hp. by left.
Qed.

Lemma scan_step_weaken disk (s s' : storage D) (P Q : Z → Z → Prop) :
  (∀ a b, P a b → Q a b) → scan_step disk s s' P → scan_step disk s s' Q.
Proof. intros HPQ (H1 & H2 & H3). split; [done|]. split; [done|]. intros i Hi. destruct (H3 i Hi); auto. Qed.

Lemma scan_step_trans disk (s1 s2 s3 : storage D) P :
  scan_step disk s1 s2 P → scan_step disk s2 s3 P → scan_step disk s1 s3 P.
Proof.
  intros (_ & H2 & H3) (G1 & G2 & G3). split; [done|]. split; [by eapply same_disk_trans|].
  intros i Hi. destruct (G3 i Hi) as [(Hp & E1 & E2)|]; [|by right]. rewrite E1, E2.
  destruct (H3 i Hp) as [(? & F1 & F2)|]; [left; rewrite F1, F2; auto|by right].
Qed.

Lemma scan_step_refl disk (s : storage D) P : table_ok s → scan_step disk s s P.
Proof. intros. split; [done|]. split; [done|]. auto. Qed.

(** What a GPT entry, or an MBR entry, registers. *)
Definition gpt_claims (l : list gpt_entry) (st n : Z) : Prop :=
  ∃ e, e ∈ l ∧ guid_is_zero (ge_type_guid e) = false ∧ st = ge_first_lba e ∧
    n = ge_last_lba e - ge_first_lba e + 1.
Definition mbr_claims (l : list mbr_entry) (st n : Z) : Prop :=
  ∃ e, e ∈ l ∧ type e ≠ 0 ∧ st = lba_first e ∧ n = me_sectors e.

Lemma scan_gpt_step disk l : ∀ k found (s : storage D),
  table_ok s → used (the_dev disk s) = true → kind (the_dev disk s) = BLOCKDEV_KIND_DISK →
  Forall (λ e, is_u64 (ge_first_lba e) ∧ is_u64 (ge_last_lba e)) l →
  scan_step disk s (scan_gpt disk k l (found, s)).2 (gpt_claims l).
Proof.
  induction l as [|e l IH]; intros k found s Hok Hu Hk Hl; [by apply scan_step_refl|].
  inversion_clear Hl as [|? ? [Hf Hla] Hl']. cbn [scan_gpt].
  destruct (scan_gpt_entry disk k e (found, s)) as [found1 s1] eqn:E1.
  assert (scan_step disk s s1 (gpt_claims (e :: l))) as H1.
  { revert E1. unfold scan_gpt_entry. case_if; [intros [= <- <-]; by apply scan_step_refl|].
    apply orb_false_iff in Heqb as [Hz Hlt]. bool_to_prop. unfold is_u64 in Hf, Hla.
    destruct (decide (ge_last_lba e - ge_first_lba e + 1 < 18446744073709551616)) as [Hfit|Hwrap].
    2:{ replace (ge_last_lba e - ge_first_lba e + 1) with 18446744073709551616 by lia.
        change (u64 18446744073709551616) with 0. unfold blockdev_add_partition at 1.
        rewrite orb_true_r. intros [= <- <-]. by apply scan_step_refl. }
    rewrite u64_small by (unfold is_u64; lia).
    destruct (blockdev_add_partition _ _ _ _ s) as [p s0] eqn:Ea.
    pose proof (add_and_label s disk _ (ge_first_lba e) (ge_last_lba e - ge_first_lba e + 1) 0 (ge_type_guid e) (ge_unique_guid e) (utf16_to_ascii 36 (ge_name e))
      p s0 Hok Hu Hk ltac:(unfold is_u64; lia) ltac:(unfold is_u64; lia) Ea) as Hs. cbv zeta in Hs.
    intros E1. assert (s1 = match p with Some p0 => _ | None => s0 end) as -> by (destruct p; by injection E1).
    eapply scan_step_weaken; [|exact Hs]. intros st n [-> ->]. exists e. split; [by left|]. auto. }
  eapply scan_step_trans; [exact H1|]. destruct H1 as (Hok1 & [Hd1 He1] & _).
  rewrite <- He1 in Hu, Hk. eapply scan_step_weaken; [|by apply IH].
  intros st n (e' & Hin & ?). exists e'. split; [by right|done].
Qed.

Lemma scan_mbr_step disk sig l : ∀ k found (s : storage D),
  table_ok s → used (the_dev disk s) = true → kind (the_dev disk s) = BLOCKDEV_KIND_DISK →
  Forall (λ e, is_u64 (lba_first e) ∧ is_u64 (me_sectors e)) l →
  scan_step disk s (scan_mbr disk sig k l (found, s)).2 (mbr_claims l).
Proof.
  induction l as [|e l IH]; intros k found s Hok Hu Hk Hl; [by apply scan_step_refl|].
  inversion_clear Hl as [|? ? [Hf Hla] Hl']. cbn [scan_mbr].
  destruct (scan_mbr_entry disk sig k e (found, s)) as [found1 s1] eqn:E1.
  assert (scan_step disk s s1 (mbr_claims (e :: l))) as H1.
  { revert E1. unfold scan_mbr_entry. case_if; [intros [= <- <-]; by apply scan_step_refl|].
    apply orb_false_iff in Heqb as [Hz _]. bool_to_prop.
    destruct (blockdev_add_partition _ _ _ _ s) as [p s0] eqn:Ea.
    pose proof (add_and_label s disk _ _ _ (type e) (replicate 16 0) (sig ++ replicate 11 0 ++ [u8 (Z.of_nat k + 1)]) []
      p s0 Hok Hu Hk Hf Hla Ea) as Hs. cbv zeta in Hs.
    intros E1. assert (s1 = match p with Some p0 => _ | None => s0 end) as -> by (destruct p; by injection E1).
    eapply scan_step_weaken; [|exact Hs]. intros st n [-> ->]. exists e. split; [by left|]. auto. }
  eapply scan_step_trans; [exact H1|]. destruct H1 as (Hok1 & [Hd1 He1] & _).
  rewrite <- He1 in Hu, Hk. eapply scan_step_weaken; [|by apply IH].
  intros st n (e' & Hin & ?). exists e'. split; [by right|done].
Qed.

(** [blockdev_remove_partitions] leaves only mounted partitions of the disk. *)
Lemma remove_partitions_spec disk (s : storage D) :
  table_ok s → used (the_dev disk s) = true → kind (the_dev disk s) = BLOCKDEV_KIND_DISK →
  let s' := blockdev_remove_partitions disk s in
  table_ok s' ∧ same_disk disk s s' ∧
  ∀ i, part_of s' disk i → part_of s disk i ∧ 0 ≤ mounted_drive (the_dev i s) ∧ the_dev i s' = the_dev i s.
Proof.
  intros Hok Hu Hk s'. split; [by apply remove_partitions_ok|].
  assert (∀ i, the_dev i s' = let d := the_dev i s in
    if used d && bool_decide (parent d = Some disk) && (mounted_drive d <? 0) then set_used false d else d) as Hdev.
  { intros i. unfold s', the_dev. cbn [devs set_devs blockdev_remove_partitions]. rewrite !nth_lookup, list_lookup_fmap.
    destruct (devs s !! i); done. }
  pose proof Hok as [_ Hall]. pose proof (Hall disk _ (the_dev_used _ _ Hu) Hu) as Hd. unfold dev_ok in Hd.
  rewrite Hk in Hd. destruct Hd as (Hnone & _). split.
  - split; [done|]. rewrite Hdev. cbv zeta. rewrite Hnone, bool_decide_eq_false_2, andb_false_r by done. done.
  - intros i [Hu' Hp']. rewrite Hdev in Hu', Hp'. cbv zeta in *.
    destruct (used (the_dev i s) && _ && _) eqn:Hc; [done|]. split; [done|]. split.
    + rewrite Hu', bool_decide_eq_true_2 in Hc by done. cbn [andb] in Hc. bool_to_prop. lia.
    + rewrite Hdev. cbv zeta. by rewrite Hc.
Qed.
End scan.

Lemma unle_range l : Forall is_u8 l → 0 ≤ unle l < 256 ^ Z.of_nat (length l).
Proof.
  induction 1 as [|b l Hb Hl IH]; [done|]. cbn [unle length]. rewrite Nat2Z.inj_succ, Z.pow_succ_r by lia.
  unfold is_u8 in Hb. lia.
Qed.

Lemma unle_u64 l : Forall is_u8 l → is_u64 (unle (take 8 l)).
Proof.
  intros Hl. pose proof (unle_range (take 8 l) (Forall_take _ _ _ Hl)) as Hr. rewrite length_take in Hr.
  assert (256 ^ Z.of_nat (8 `min` length l) ≤ 256 ^ 8) by (apply Z.pow_le_mono_r; lia). unfold is_u64. lia.
Qed.

Lemma unle_u32 l : Forall is_u8 l → is_u32 (unle (take 4 l)).
Proof.
  intros Hl. pose proof (unle_range (take 4 l) (Forall_take _ _ _ Hl)) as Hr. rewrite length_take in Hr.
  assert (256 ^ Z.of_nat (4 `min` length l) ≤ 256 ^ 4) by (apply Z.pow_le_mono_r; lia). unfold is_u32. lia.
Qed.

Lemma entries_of_u64 n : ∀ raw, Forall is_u8 raw →
  Forall (λ e, is_u64 (ge_first_lba e) ∧ is_u64 (ge_last_lba e)) (entries_of n raw).
Proof.
  induction n as [|n IH]; intros raw Hr; [constructor|]. cbn [entries_of]. constructor.
  - split; apply unle_u64, Forall_drop, Forall_take, Hr.
  - apply IH, Forall_drop, Hr.
Qed.

Lemma mbr_entries_u64 mbr : Forall is_u8 mbr →
  Forall (λ e, is_u64 (lba_first e) ∧ is_u64 (me_sectors e)) (mbr_entries mbr).
Proof.
  intros Hm. apply Forall_forall. intros e He. unfold mbr_entries in He. apply list_elem_of_fmap in He as (i & -> & _).
  unfold mbr_entry_of. cbn [lba_first me_sectors].
  assert (∀ k, is_u32 (unle (take 4 (drop k (drop (446 + 16 * i) mbr))))) as Hk
    by (intros k; apply unle_u32, Forall_drop, Forall_drop, Hm).
  pose proof (Hk 8%nat). pose proof (Hk 12%nat). unfold is_u32, is_u64 in *. lia.
Qed.

Section scan_all.
  Context {D : Type} `{BlockDriver D}.
  Context (can_alloc : Z → bool).

(** A disk the partition code works on: in use, sectors of at least 512
    bytes, and holding bytes. *)
Definition scannable (disk : nat) (s : storage D) : Prop :=
  table_ok s ∧ used (the_dev disk s) = true ∧ kind (the_dev disk s) = BLOCKDEV_KIND_DISK ∧
  512 ≤ sector_size (the_dev disk s) < 4294967296 ∧ ∀ x, is_u8 (dev_byte disk s x).

Lemma scannable_same disk (s s' : storage D) :
  scannable disk s → table_ok s' → same_disk disk s s' → scannable disk s'.
Proof.
  intros (Hok & Hu & Hk & Hss & Hb) Hok' [Hd He]. unfold scannable. rewrite He. split_and!; try done; try lia.
  intros x. specialize (Hb x). unfold dev_byte, dev_disk, dev_start in *. rewrite He, Hk in *. by rewrite Hd, He.
Qed.

Lemma read_scannable disk (s : storage D) lba count :
  scannable disk s → is_u64 lba → is_u32 count →
  ∃ r, blockdev_read disk lba count s = Ret r ∧ ∀ b, r = Some b → Forall is_u8 b.
Proof.
  intros (Hok & Hu & Hk & Hss & Hb) Hl Hc. rewrite blockdev_read_spec by done. eexists. split; [done|].
  intros b. case_if; [intros [= <-]; constructor|]. case_if; [|done]. intros [= <-].
  apply Forall_fmap, Forall_forall. intros x _. apply Hb.
Qed.

Lemma read_sectors_scannable disk (s : storage D) lba count :
  scannable disk s → is_u64 lba → is_u32 count →
  ∃ r, read_sectors can_alloc disk lba count s = Ret r ∧ ∀ b, r = Some b → Forall is_u8 b.
Proof.
  intros Hs Hl Hc. unfold read_sectors. case_if; [by apply read_scannable|]. eexists. split; [done|]. done.
Qed.

(** [gpt_load] always returns, and what it accepts has 64-bit LBAs. *)
Lemma gpt_load_ret disk (s : storage D) :
  scannable disk s →
  ∃ r, gpt_load can_alloc disk s = Ret r ∧ ∀ g, r = Some g →
    Forall (λ e, is_u64 (ge_first_lba e) ∧ is_u64 (ge_last_lba e)) (entries g).
Proof.
  intros Hs. pose proof Hs as (Hok & Hu & Hk & Hss & Hb). unfold gpt_load.
  destruct (read_sectors_scannable disk s 1 1 Hs) as (r & -> & Hr); [done..|]. cbn [obind].
  destruct r as [hdr|]; [|by eexists]. specialize (Hr hdr eq_refl).
  rewrite (proj2 (Z.ltb_ge _ _)) by (unfold sizeof_gpt_header; lia). case_if; [by eexists|].
  destruct (entry_sectors_spec _ Hss) as [Hes _].
  destruct (read_sectors_scannable disk s (entries_lba (gpt_header_of hdr)) (gpt_entry_sectors (the_dev disk s)) Hs)
    as (r & -> & Hraw); [apply unle_u64, Forall_drop, Hr|unfold is_u32; lia|].
  cbn [obind]. destruct r as [raw|]; [|by eexists]. specialize (Hraw raw eq_refl).
  repeat (case_if; [by eexists|]). eexists. split; [done|]. intros g Hg. apply (inj Some) in Hg. subst g. cbn [entries].
  apply entries_of_u64, Forall_app. split; [by apply Forall_take|]. by apply Forall_replicate.
Qed.

Lemma partition_table_type_ret disk (s : storage D) :
  scannable disk s → ∃ t, partition_table_type can_alloc disk s = Ret t.
Proof.
  intros Hs. pose proof Hs as (Hok & Hu & Hk & Hss & Hb). unfold partition_table_type. case_if; [by eexists|].
  destruct (read_sectors_scannable disk s 0 1 Hs) as (r & -> & Hr); [done..|]. cbn [obind].
  destruct r; [|by eexists]. rewrite (proj2 (Z.ltb_ge _ _)) by lia. by eexists.
Qed.

(** The table on the disk lists the range. *)
Definition on_disk (disk : nat) (s : storage D) (st n : Z) : Prop :=
  (∃ g, gpt_load can_alloc disk s = Ret (Some g) ∧ gpt_claims (entries g) st n) ∨
  (∃ mbr, blockdev_read disk 0 1 s = Ret (Some mbr) ∧ mbr_claims (mbr_entries mbr) st n).

(** A good table whose partitions of the disk are mounted ones from before or
    entries of the table on the disk. *)
Definition scan_result (disk : nat) (s s' : storage D) : Prop :=
  table_ok s' ∧ same_disk disk s s' ∧
  ∀ i, part_of s' disk i →
    (part_of s disk i ∧ 0 ≤ mounted_drive (the_dev i s) ∧ start_lba (the_dev i s') = start_lba (the_dev i s) ∧
     sectors (the_dev i s') = sectors (the_dev i s)) ∨
    on_disk disk s (start_lba (the_dev i s')) (sectors (the_dev i s')).

Lemma partition_scan_spec disk (s : storage D) :
  scannable disk s →
  ∃ found s', partition_scan can_alloc disk s = Ret (found, s') ∧ scan_result disk s s'.
Proof.
  intros Hs. pose proof Hs as (Hok & Hu & Hk & Hss & Hb). unfold partition_scan.
  rewrite bool_decide_eq_false_2 by (intros Hn; by apply Hn). cbv zeta.
  destruct (remove_partitions_spec disk s Hok Hu Hk) as (Hok1 & Hsame1 & Hrem). cbv zeta in *.
  set (s1 := blockdev_remove_partitions disk s) in *.
  pose proof (scannable_same disk s s1 Hs Hok1 Hsame1) as Hs1.
  assert (∀ (P : Z → Z → Prop) s2, scan_step disk s1 s2 P → (∀ a b, P a b → on_disk disk s a b) →
    scan_result disk s s2) as Hfin.
  { intros P s2 (H2 & H3 & H4) HP. split; [done|]. split; [by eapply same_disk_trans|]. intros i Hi.
    destruct (H4 i Hi) as [(Hp & -> & ->)|]; [|right; auto]. destruct (Hrem i Hp) as (? & ? & ->). left. auto. }
  assert (∃ found s', Ret (0, s1) = Ret (found, s') ∧ scan_result disk s s') as Hstop
    by (exists 0, s1; split; [done|]; apply (Hfin (λ _ _, False)); [by apply scan_step_refl|done]).
  pose proof Hs1 as (_ & Hu1 & Hk1 & _).
  destruct (partition_table_type_ret disk s1 Hs1) as (t & ->). cbn [obind]. destruct t; [exact Hstop|..|exact Hstop].
  - destruct (read_sectors_scannable disk s1 0 1 Hs1) as (r & Er & Hr); [done..|]. rewrite Er. cbn [obind].
    destruct r as [mbr|]; [|exact Hstop]. specialize (Hr mbr eq_refl).
    destruct (scan_mbr disk (take 4 (drop 440 mbr)) 0 (mbr_entries mbr) (0, s1)) as [fnd s2] eqn:E2.
    exists fnd, s2. split; [done|]. apply (Hfin (mbr_claims (mbr_entries mbr))).
    + pose proof (scan_mbr_step disk (take 4 (drop 440 mbr)) (mbr_entries mbr) 0 0 s1 Hok1 Hu1 Hk1 (mbr_entries_u64 _ Hr)) as Hst.
      by rewrite E2 in Hst.
    + intros a b Hc. right. exists mbr. split; [|done].
      rewrite <- (blockdev_read_same disk 0 1 s s1 Hk Hsame1). revert Er. unfold read_sectors. case_if; [done|done].
  - destruct (gpt_load_ret disk s1 Hs1) as (r & Er & Hr). rewrite Er. cbn [obind].
    destruct r as [g|]; [|exact Hstop]. specialize (Hr g eq_refl).
    destruct (scan_gpt disk 0 (take (Z.to_nat (num_entries (header g))) (entries g)) (0, s1)) as [fnd s2] eqn:E2.
    exists fnd, s2. split; [done|]. apply (Hfin (gpt_claims (take (Z.to_nat (num_entries (header g))) (entries g)))).
    + pose proof (scan_gpt_step disk (take (Z.to_nat (num_entries (header g))) (entries g)) 0 0 s1 Hok1 Hu1 Hk1
        (Forall_take _ _ _ Hr)) as Hst. by rewrite E2 in Hst.
    + intros a b (e & He & Hc). left. exists g. split; [|by exists e; split; [eapply elem_of_take in He as (? & ? & _); by eapply list_elem_of_lookup_2|]].
      by rewrite <- (gpt_load_same can_alloc disk s s1 Hk Hsame1).
Qed.
End scan_all.

(** ** Building tables *)

Lemma lor_u8 a b : is_u8 a → is_u8 b → is_u8 (Z.lor a b).
Proof.
  unfold is_u8. intros Ha Hb. split; [apply Z.lor_nonneg; lia|].
  destruct (decide (Z.lor a b = 0)) as [->|]; [lia|].
  assert (0 ≤ Z.lor a b) by (apply Z.lor_nonneg; lia). apply (Z.log2_lt_pow2 _ 8); [lia|].
  rewrite Z.log2_lor by lia. apply Z.max_lub_lt.
  all: match goal with |- Z.log2 ?v < 8 => destruct (decide (v = 0)) as [->|]; [done|]; apply Z.log2_lt_pow2; lia end.
Qed.

Lemma land_u8 a b : 0 ≤ a → is_u8 b → is_u8 (Z.land a b).
Proof.
  unfold is_u8. intros Ha Hb. split; [apply Z.land_nonneg; lia|].
  destruct (decide (Z.land a b = 0)) as [->|]; [lia|].
  assert (0 ≤ Z.land a b) by (apply Z.land_nonneg; lia). apply (Z.log2_lt_pow2 _ 8); [lia|].
  pose proof (Z.log2_land a b ltac:(lia) ltac:(lia)).
  assert (Z.log2 b < 8) by (destruct (decide (b = 0)) as [->|]; [done|]; apply Z.log2_lt_pow2; lia). lia.
Qed.

Lemma guid_random_wf rnd : bytes_of_len 16 rnd → bytes_of_len 16 (guid_random rnd).
Proof.
  intros [Hl Hb]. assert (∀ i, is_u8 (byte rnd i)) as Hn.
  { intros i. unfold byte. destruct (rnd !! i) eqn:E; [|done]. simpl. by eapply Forall_lookup_1 in Hb. }
  split; [unfold guid_random; by rewrite !length_insert|]. unfold guid_random.
  apply Forall_insert; [apply Forall_insert; [done|]|]; apply lor_u8; try done; apply land_u8; try done; apply Hn.
Qed.

Lemma ascii_to_utf16_wf n l : length (ascii_to_utf16 n l) = n ∧ Forall is_u16 (ascii_to_utf16 n l).
Proof.
  revert l. induction n as [|n IH]; intros l; [split; [done|constructor]|]. cbn [ascii_to_utf16].
  destruct l as [|c l].
  - destruct (IH []) as [H1 H2]. split; [by cbn; rewrite H1|]. by constructor.
  - destruct (IH l) as [H1 H2]. split; [by cbn; rewrite H1|]. constructor; [|done].
    pose proof (u8_range c). unfold is_u8, is_u16 in *. lia.
Qed.

Lemma kind_guid_wf k : bytes_of_len 16 (kind_guid k).
Proof. destruct k; (split; [done|]); apply Forall_forall; intros x Hx; revert x Hx; apply Forall_forall; vm_compute; repeat constructor; discriminate. Qed.

Lemma new_gpt_entry_wf k label rnd st n :
  bytes_of_len 16 rnd → is_u64 st → 0 < n → st + n ≤ 18446744073709551616 →
  entry_wf (new_gpt_entry k label rnd st n) ∧ ge_last_lba (new_gpt_entry k label rnd st n) = st + n - 1.
Proof.
  intros Hr Hst Hn Hle. unfold is_u64 in Hst. unfold new_gpt_entry.
  assert (u64 (st + n - 1) = st + n - 1) as E by (apply u64_small; unfold is_u64; lia).
  destruct (ascii_to_utf16_wf 36 (default (partition_kind_name k) label)) as [H1 H2].
  split; [|exact E]. unfold entry_wf. cbn [ge_type_guid ge_unique_guid ge_first_lba ge_last_lba ge_attributes ge_name].
  rewrite E. split; [apply kind_guid_wf|]. split; [by apply guid_random_wf|].
  split; [done|]. split; [unfold is_u64; lia|]. split; [done|]. done.
Qed.

Lemma empty_entry_wf : entry_wf empty_entry.
Proof. unfold entry_wf, bytes_of_len. cbn. split_and!; try done; repeat constructor; done. Qed.

Section build.
  Context {D : Type} `{BlockDriver D}.
  Context (can_alloc : Z → bool) (Hmem : ∀ n, can_alloc n = true).

(** What [add_to_gpt] does: nothing, or one free entry becomes the new
    partition on an unused range and the table on the disk has it. *)
Definition added (disk : nat) (g : gpt) (start nsec : Z) (k : partition_kind) (label : option (list Z))
    (rnd : list Z) (s : storage D) (r : option Z) (s' : storage D) : Prop :=
  let space := space_answer s disk (first_usable_lba (header g)) (last_usable_lba (header g) + 1) start nsec in
  match r with
  | None => s' = s ∧ ((∀ e, e ∈ entries g → guid_is_zero (ge_type_guid e) = false) ∨ space None)
  | Some number =>
      ∃ slot e0 st n, number = Z.of_nat slot + 1 ∧ entries g !! slot = Some e0 ∧
        guid_is_zero (ge_type_guid e0) = true ∧ space (Some (st, n)) ∧ devs s' = devs s ∧
        gpt_load can_alloc disk s' = Ret (Some (stored (the_dev disk s)
          (mk_gpt (header g) (<[slot := new_gpt_entry k label rnd st n]> (entries g)) (entry_sectors g))))
  end.

Lemma add_to_gpt_spec disk (s : storage D) g start nsec k label rnd :
  gpt_disk disk s → gpt_load can_alloc disk s = Ret (Some g) → gpt_wf (the_dev disk s) g →
  first_usable_lba (header g) ≤ sectors (the_dev disk s) →
  last_usable_lba (header g) + 1 ≤ sectors (the_dev disk s) →
  sectors (the_dev disk s) + PART_ALIGN_BYTES < 18446744073709551616 →
  is_u64 start → is_u64 nsec → bytes_of_len 16 rnd →
  ∃ r s', add_to_gpt can_alloc disk start nsec k label rnd s = Ret (r, s') ∧
    added disk g start nsec k label rnd s r s'.
Proof.
  intros Hd Hg Hwf Hf Hl Hs Hst Hn Hr. pose proof Hd as (Hok & Hu & Hk & Hw & Hss & Hsec).
  pose proof Hwf as ((?&?&?&?&?&?&?&?&Hfu&Hlu&?&?&?&?) & _ & _ & Hlen & Hent & Hes). unfold is_u64 in Hfu, Hlu.
  unfold add_to_gpt. rewrite Hg. cbn [obind].
  destruct (first_index _ (entries g)) as [slot|] eqn:Ef.
  2:{ exists None, s. split; [done|]. split; [done|]. left. apply first_index_None in Ef.
      by rewrite Forall_forall in Ef. }
  apply first_index_Some in Ef as (e0 & He0 & Hz & _).
  assert (u64 (last_usable_lba (header g) + 1) = last_usable_lba (header g) + 1) as Eu
    by (apply u64_small; unfold is_u64, PART_ALIGN_BYTES in *; lia).
  pose proof (find_space_spec s disk (first_usable_lba (header g)) (last_usable_lba (header g) + 1) start nsec
    Hok Hu ltac:(lia) Hl Hs Hst Hn) as Hsp.
  rewrite Eu. destruct (find_space _ _ _ _ _ s) as [[st n]|].
  2:{ exists None, s. split; [done|]. split; [done|]. by right. }
  pose proof Hsp as (Hs1 & Hs2 & Hs3 & _). unfold PART_ALIGN_BYTES in Hs.
  set (e := new_gpt_entry k label rnd st n).
  assert (entry_wf e) as Hew by (apply new_gpt_entry_wf; unfold is_u64; lia || done).
  set (g' := mk_gpt (header g) (<[slot := e]> (entries g)) (entry_sectors g)).
  assert (gpt_wf (the_dev disk s) g') as Hwf'.
  { destruct Hwf as (W1 & W2 & W3 & W4 & W5 & W6). split_and!; try done; try apply W3.
    - cbn. by rewrite length_insert.
    - cbn. by apply Forall_insert. }
  destruct (gpt_store_effect can_alloc Hmem disk s g' Hd Hwf') as (s' & -> & Heff). cbn [obind].
  exists (Some (Z.of_nat slot + 1)), s'. split; [done|]. exists slot, e0, st, n.
  destruct Heff as (_ & Hdv & Hload & _). split_and!; done.
Qed.
End build.

Section create.
  Context {D : Type} `{BlockDriver D}.
  Context (can_alloc : Z → bool) (Hmem : ∀ n, can_alloc n = true).

Lemma read_prefix disk (s : storage D) lba count count' b :
  table_ok s → used (the_dev disk s) = true → is_u64 lba → is_u32 count → 0 < count' ≤ count →
  0 < sector_size (the_dev disk s) →
  blockdev_read disk lba count s = Ret (Some b) →
  blockdev_read disk lba count' s = Ret (Some (take (Z.to_nat (count' * sector_size (the_dev disk s))) b)).
Proof.
  intros Hok Hu Hl Hc Hc' Hss. unfold is_u32 in Hc. rewrite !blockdev_read_spec by (done || unfold is_u32; lia).
  rewrite !(proj2 (Z.eqb_neq _ _)) by lia.
  destruct (decide (lba + count ≤ sectors (the_dev disk s))); [|by rewrite bool_decide_eq_false_2].
  rewrite !bool_decide_eq_true_2 by lia. intros E. injection E as <-. do 2 f_equal.
  rewrite <- fmap_take. f_equal. set (ss := sector_size (the_dev disk s)) in *.
  apply list_eq. intros k. destruct (decide (Z.of_nat k < count' * ss)).
  - rewrite lookup_take_lt by lia. rewrite !lookup_seqZ_lt by nia. done.
  - rewrite lookup_take_ge, lookup_seqZ_ge by lia. done.
Qed.

(** A scan of a disk whose GPT is known. *)
Lemma partition_scan_gpt disk (s : storage D) g :
  table_ok s → used (the_dev disk s) = true → kind (the_dev disk s) = BLOCKDEV_KIND_DISK →
  partition_table_type can_alloc disk s = Ret PART_TABLE_GPT → gpt_load can_alloc disk s = Ret (Some g) →
  Forall (λ e, is_u64 (ge_first_lba e) ∧ is_u64 (ge_last_lba e)) (entries g) →
  ∃ found s', partition_scan can_alloc disk s = Ret (found, s') ∧ table_ok s' ∧ same_disk disk s s' ∧
    ∀ i, part_of s' disk i →
      (part_of s disk i ∧ 0 ≤ mounted_drive (the_dev i s)) ∨
      gpt_claims (entries g) (start_lba (the_dev i s')) (sectors (the_dev i s')).
Proof.
  intros Hok Hu Hk Ht Hg He. unfold partition_scan.
  rewrite bool_decide_eq_false_2 by (intros Hn; by apply Hn). cbv zeta.
  destruct (remove_partitions_spec disk s Hok Hu Hk) as (Hok1 & Hsame1 & Hrem). cbv zeta in *.
  set (s1 := blockdev_remove_partitions disk s) in *. pose proof Hsame1 as [_ He1].
  rewrite (partition_table_type_same can_alloc disk s s1 Hk Hsame1), Ht. cbn [obind].
  rewrite (gpt_load_same can_alloc disk s s1 Hk Hsame1), Hg. cbn [obind].
  destruct (scan_gpt disk 0 (take (Z.to_nat (num_entries (header g))) (entries g)) (0, s1)) as [fnd s2] eqn:E2.
  pose proof (scan_gpt_step disk (take (Z.to_nat (num_entries (header g))) (entries g)) 0 0 s1 Hok1
    ltac:(by rewrite He1) ltac:(by rewrite He1) (Forall_take _ _ _ He)) as (H1 & H2 & H3).
  rewrite E2 in H1, H2, H3. cbn [snd] in *.
  exists fnd, s2. split; [done|]. split; [done|]. split; [by eapply same_disk_trans|]. intros i Hi.
  destruct (H3 i Hi) as [(Hp & _)|(e & Hin & Hc)]; [left; by destruct (Hrem i Hp) as (? & ? & _)|].
  right. exists e. split; [|done]. apply elem_of_take in Hin as (j & Hj & _). by eapply list_elem_of_lookup_2.
Qed.

Lemma no_magic_in_zeros n : (7 ≤ n)%nat → has_at (replicate n 0) 0 MAGIC_TEXT = false.
Proof.
  intros Hn. unfold has_at. rewrite drop_0, take_replicate. change (length MAGIC_TEXT) with 7%nat.
  rewrite Nat.min_l by lia. done.
Qed.

(** The header [partition_create_table] starts from. *)
Definition fresh_header (d : blockdev) (rnd : list Z) : gpt_header :=
  mk_gpt_header (txt "EFI PART") 65536 92 0 0 0 0 (u64 (2 + gpt_entry_sectors d))
    (u64 (sectors d - 2 - gpt_entry_sectors d)) (guid_random rnd) 0 0 0 0.

Lemma fresh_gpt_wf d rnd :
  512 ≤ sector_size d → bytes_of_len 16 rnd →
  gpt_wf d (mk_gpt (fresh_header d rnd) (replicate 128 empty_entry) (gpt_entry_sectors d)).
Proof.
  intros Hss Hr. split; [|split; [done|split; [cbn; lia|split; [reflexivity|split;
    [by apply Forall_replicate, empty_entry_wf|done]]]]].
  unfold header_wf. cbn [header fresh_header signature disk_guid revision header_size header_crc32 reserved my_lba
    alternate_lba first_usable_lba last_usable_lba entries_lba num_entries entry_size entries_crc32].
  split; [split; [done|]; vm_compute; repeat constructor; discriminate|]. split; [by apply guid_random_wf|].
  split_and!; try done; apply u64_range.
Qed.

(** A fresh GPT on the disk and no partitions but mounted ones. *)
Definition fresh_gpt (disk : nat) (s s' : storage D) : Prop :=
  let d := the_dev disk s in
  table_ok s' ∧ the_dev disk s' = d ∧ partition_table_type can_alloc disk s' = Ret PART_TABLE_GPT ∧
  (∃ g, gpt_load can_alloc disk s' = Ret (Some g) ∧ gpt_wf d g ∧
     entries g = replicate 128 empty_entry ∧
     first_usable_lba (header g) = 2 + gpt_entry_sectors d ∧
     last_usable_lba (header g) = sectors d - 2 - gpt_entry_sectors d) ∧
  ∀ i, part_of s' disk i → part_of s disk i ∧ 0 ≤ mounted_drive (the_dev i s).

Lemma stored_wf d g :
  gpt_wf d g → is_u64 (sectors d - 1) → gpt_wf d (stored d g).
Proof.
  intros Hg Hs. pose proof (store_header_wf d g Hg) as Hh. pose proof Hg as (_ & Hsig & Hsz & Hlen & Hent & Hes).
  split; [by apply place_header_wf|]. done.
Qed.

Lemma create_gpt_spec disk (s : storage D) t rnd sig :
  gpt_disk disk s → t ≠ PART_TABLE_MBR → sector_size (the_dev disk s) ≤ 16384 →
  4194304 / sector_size (the_dev disk s) ≤ sectors (the_dev disk s) → bytes_of_len 16 rnd →
  ∃ s', partition_create_table can_alloc disk t rnd sig s = Ret (true, s') ∧ fresh_gpt disk s s'.
Proof.
  intros Hd Ht Hmax Hmin Hr. pose proof Hd as (Hok & Hu & Hk & Hw & Hss & Hsec).
  pose proof (used_sectors disk s Hok Hu) as Hn. unfold is_u64 in Hn.
  unfold partition_create_table. set (d := the_dev disk s) in *. set (ss := sector_size d) in *.
  rewrite bool_decide_eq_false_2 by (intros Hx; by apply Hx). rewrite (proj2 (Z.ltb_ge _ _)) by lia.
  assert (match match t with PART_TABLE_AUTO => PART_TABLE_GPT | _ => t end with
          | PART_TABLE_MBR => true | _ => false end = false) as -> by (by destruct t).
  cbn [andb]. rewrite Hmem. cbn [negb].
  assert (64 ≤ 1048576 / ss ≤ 2048) as Hwipe.
  { split; [apply Z.div_le_lower_bound; lia|]. assert (1048576 / ss < 2049); [apply Z.div_lt_upper_bound; lia|lia]. }
  assert (4 * (1048576 / ss) ≤ 4194304 / ss) as H4.
  { apply Z.div_le_lower_bound; [lia|]. pose proof (Z.mul_div_le 1048576 ss ltac:(lia)). lia. }
  change PART_ALIGN_BYTES with 1048576. rewrite (u32_small (1048576 / ss)) by (unfold is_u32; lia).
  set (wipe := 1048576 / ss) in *.
  rewrite (proj2 (Z.ltb_lt 64 (sectors d))) by lia. rewrite (proj2 (Z.ltb_ge wipe 64)) by lia.
  rewrite (u64_small (sectors d - 64)) by (unfold is_u64; lia).
  assert (∀ st : storage D, devs st = devs s → the_dev disk st = d) as Hdev by (intros st E; unfold d, the_dev; by rewrite E).
  assert (∀ n, 0 ≤ n → Z.of_nat (length (bytes_zero (n * ss))) = n * ss) as Hzl
    by (intros n ?; unfold bytes_zero; rewrite length_replicate; nia).
  unfold and_write at 1. cbv iota.
  destruct (disk_write disk s 0 wipe (bytes_zero (wipe * ss))) as (s1 & -> & D1 & V1 & R1 & O1);
    [done|lia|lia|fold d; lia|fold d ss; apply Hzl; lia|].
  cbn [obind]. unfold and_write at 1. pose proof (Hdev s1 V1) as E1.
  destruct (disk_write disk s1 (sectors d - 64) 64 (bytes_zero (64 * ss))) as (s2 & -> & D2 & V2 & R2 & O2);
    [done|lia|lia|rewrite E1; lia|rewrite E1; apply Hzl; lia|].
  cbn [obind negb]. rewrite Hmem. cbn [negb]. rewrite V1 in V2. pose proof (Hdev s2 V2) as E2.
  change (mk_gpt_header _ _ _ _ _ _ _ _ _ _ _ _ _ _) with (fresh_header d rnd).
  set (g0 := mk_gpt (fresh_header d rnd) _ _).
  assert (gpt_wf d g0) as Hg0 by (apply fresh_gpt_wf; [lia|done]).
  destruct (gpt_store_effect can_alloc Hmem disk s2 g0 D2) as (s3 & -> & Heff); [by rewrite E2|].
  cbn [obind]. destruct Heff as (D3 & V3 & Hload & _ & _ & _ & Hty). rewrite E2 in Hload. rewrite V2 in V3.
  pose proof (Hdev s3 V3) as E3. pose proof D3 as (Hok3 & Hu3 & Hk3 & _). destruct D1 as (Hok1 & Hu1 & _).
  assert (partition_table_type can_alloc disk s3 = Ret PART_TABLE_GPT) as Hgpt.
  { apply (Hty (take (Z.to_nat (1 * ss)) (bytes_zero (wipe * ss)))).
    - rewrite O2 by (unfold is_u64, is_u32; lia). unfold ss. rewrite <- E1 at 1.
      apply (read_prefix disk s1 0 wipe); try done; rewrite ?E1; try lia; unfold is_u32; lia.
    - unfold bytes_zero. rewrite take_replicate. apply no_magic_in_zeros. nia. }
  assert (is_u64 (sectors d - 1)) as Hlast by (unfold is_u64; lia).
  pose proof (stored_wf d g0 Hg0 Hlast) as Hsw.
  assert (Forall (λ e, is_u64 (ge_first_lba e) ∧ is_u64 (ge_last_lba e)) (entries (stored d g0))) as Hents
    by (apply Forall_replicate; done).
  destruct (partition_scan_gpt disk s3 _ Hok3 Hu3 Hk3 Hgpt Hload Hents) as (fnd & s4 & -> & Hok4 & Hs4 & Hparts).
  cbn [obind]. exists s4. split; [done|]. pose proof Hs4 as [_ E4]. unfold fresh_gpt. fold d.
  split; [done|]. split; [by rewrite E4|]. split; [by rewrite (partition_table_type_same can_alloc disk s3 s4)|]. split.
  - exists (stored d g0). split; [by rewrite (gpt_load_same can_alloc disk s3 s4)|]. split; [done|]. split; [done|].
    destruct (entry_sectors_spec d Hss) as [Hes _].
    split; (cbn [stored header place_header set_header_crc32 store_header first_usable_lba last_usable_lba g0 fresh_header];
      apply u64_small; unfold is_u64; lia).
  - intros i Hi. destruct (Hparts i Hi) as [[Hp Hm]|(e & Hin & Hz & _)].
    + unfold part_of, the_dev in *. rewrite V3 in *. done.
    + apply elem_of_replicate in Hin as [-> _]. done.
Qed.
End create.

(** ** Properties *)

(** [partition_crc32], which works through a table of 256 precomputed
    values, is the CRC-32 computed bit by bit, and stays in 32 bits. *)
Theorem partition_crc32_correct data :
  Forall is_u8 data → partition_crc32 data = crc32_ref data ∧ is_u32 (partition_crc32 data).
Proof.
  intros Hd. split; [|by apply crc_range]. unfold partition_crc32, crc32_ref.
  by destruct (crc_fold_eq data 4294967295) as [-> _].
Qed.

Lemma partition_crc32_correct_witness :
  partition_crc32 [49; 50; 51; 52; 53; 54; 55; 56; 57] = 3421780262 ∧
  crc32_ref [49; 50; 51; 52; 53; 54; 55; 56; 57] = 3421780262.
Proof.
  destruct (partition_crc32_correct [49; 50; 51; 52; 53; 54; 55; 56; 57]) as [E _].
  - repeat constructor; discriminate.
  - rewrite <- E. split; vm_compute; reflexivity.
Defined.

Section properties.
  Context {D : Type} `{BlockDriver D}.

(** C27. [find_space] on a consistent table: a range it returns lies in the
    allowed window, is not empty, meets no partition of the disk, starts where
    asked or else on an alignment boundary, and has the length asked for. When
    it returns false, no such range exists. *)
Theorem find_space_correct (s : storage D) disk first last_excl start nsec :
  table_ok s → used (the_dev disk s) = true → 0 ≤ first ≤ sectors (the_dev disk s) →
  last_excl ≤ sectors (the_dev disk s) →
  sectors (the_dev disk s) + PART_ALIGN_BYTES < 18446744073709551616 →
  is_u64 start → is_u64 nsec →
  match find_space disk first last_excl start nsec s with
  | Some (st, n) =>
      first ≤ st ∧ 0 < n ∧ st + n ≤ last_excl ∧
      (∀ i, part_of s disk i → st + n ≤ start_lba (the_dev i s) ∨
         start_lba (the_dev i s) + sectors (the_dev i s) ≤ st) ∧
      (start ≠ 0 → st = start) ∧ (start = 0 → st mod align_lba (the_dev disk s) = 0) ∧ (nsec ≠ 0 → n = nsec)
  | None =>
      ∀ st, (start ≠ 0 → st = start) → (start = 0 → st mod align_lba (the_dev disk s) = 0) →
        first ≤ st → st + Z.max 1 nsec ≤ last_excl →
        ¬ (∀ i, part_of s disk i → st + Z.max 1 nsec ≤ start_lba (the_dev i s) ∨
             start_lba (the_dev i s) + sectors (the_dev i s) ≤ st)
  end.
Proof. apply find_space_spec. Qed.

(** C21. With memory for its buffers, [gpt_store] on a disk with room writes
    everything, and [gpt_load] then accepts the table and returns the entries
    that were stored, under a header placed at LBA 1; the backup entries at the
    end of the disk are the primary ones, the backup header is the table's with
    its own place and checksum, sector 0 makes the disk a GPT disk unless a
    file system starts there, and no sector between the two copies changes. *)
Theorem gpt_store_load can_alloc disk (s : storage D) g :
  (∀ n, can_alloc n = true) → gpt_disk disk s → gpt_wf (the_dev disk s) g →
  ∃ s', gpt_store can_alloc disk g s = Ret (true, s') ∧ store_effect can_alloc disk g s s'.
Proof. intros. by apply gpt_store_effect. Qed.

(** [partition_scan] of any disk contents, whatever the heap answers,
    returns with a consistent table, changes neither the disk nor its slot, and
    every partition of the disk it leaves was mounted before (and kept its
    range) or is listed by an accepted GPT or an MBR entry of the disk. *)
Theorem partition_scan_sound can_alloc disk (s : storage D) :
  scannable disk s →
  ∃ found s', partition_scan can_alloc disk s = Ret (found, s') ∧ scan_result can_alloc disk s s'.
Proof. apply partition_scan_spec. Qed.

(** [partition_create_table] for a GPT (or AUTO) on a writable disk of at
    least 4 MiB leaves an accepted, empty table whose usable range is between
    the two copies, whatever the disk held before, and removes every partition
    device of the disk that is not mounted. *)
Theorem partition_create_gpt_correct can_alloc disk (s : storage D) t rnd sig :
  (∀ n, can_alloc n = true) → gpt_disk disk s → t ≠ PART_TABLE_MBR →
  sector_size (the_dev disk s) ≤ 16384 →
  4194304 / sector_size (the_dev disk s) ≤ sectors (the_dev disk s) → bytes_of_len 16 rnd →
  ∃ s', partition_create_table can_alloc disk t rnd sig s = Ret (true, s') ∧ fresh_gpt can_alloc disk s s'.
Proof. intros. by apply create_gpt_spec. Qed.

(** The GPT half of [partition_add]: it returns; on success exactly one
    free entry of the table on the disk has become the new partition, on a
    range inside the usable area that meets no registered partition of the
    disk, and every other entry is as it was; otherwise nothing changed and
    there was no free entry or no such range. *)
Theorem partition_add_gpt_correct can_alloc disk (s : storage D) g start nsec k label rnd :
  (∀ n, can_alloc n = true) → gpt_disk disk s → gpt_load can_alloc disk s = Ret (Some g) →
  gpt_wf (the_dev disk s) g → first_usable_lba (header g) ≤ sectors (the_dev disk s) →
  last_usable_lba (header g) + 1 ≤ sectors (the_dev disk s) →
  sectors (the_dev disk s) + PART_ALIGN_BYTES < 18446744073709551616 →
  is_u64 start → is_u64 nsec → bytes_of_len 16 rnd →
  ∃ r s', add_to_gpt can_alloc disk start nsec k label rnd s = Ret (r, s') ∧
    added can_alloc disk g start nsec k label rnd s r s'.
Proof. intros. by apply add_to_gpt_spec. Qed.
End properties.

(** A blank disk of 4 MiB and a table on it. *)
Definition blank_disk : storage ramdisk :=
  (blockdev_register_disk RAM_PREFIX [] 512 8192 0 true 0
     (mk_storage (replicate BLOCKDEV_MAX dev_zero) [mk_ramdisk (λ _, 0) 8192])).2.
Definition demo_rnd : list Z := replicate 16 170.
Definition demo_gpt : gpt :=
  mk_gpt (fresh_header (the_dev 0 blank_disk) demo_rnd)
    (<[0%nat := new_gpt_entry PART_KIND_ESP None demo_rnd 2048 100]> (replicate 128 empty_entry))
    (gpt_entry_sectors (the_dev 0 blank_disk)).

Lemma blank_disk_ok : gpt_disk 0 blank_disk.
Proof.
  split; [|vm_compute; split_and!; congruence].
  apply register_disk_ok; [apply (blockdev_init_ok (mk_storage [] [mk_ramdisk (λ _, 0) 8192]))|].
  split; [unfold is_u64; lia|]. split; [lia|]. split; [lia|].
  exists (mk_ramdisk (λ _, 0) 8192). split; [reflexivity|]. split; [reflexivity|]. simpl. lia.
Qed.

Lemma demo_rnd_ok : bytes_of_len 16 demo_rnd.
Proof. split; [done|]. by apply Forall_replicate. Qed.

Lemma demo_gpt_ok : gpt_wf (the_dev 0 blank_disk) demo_gpt.
Proof.
  destruct (fresh_gpt_wf (the_dev 0 blank_disk) demo_rnd) as (W1 & W2 & W3 & W4 & W5 & W6);
    [vm_compute; discriminate|apply demo_rnd_ok|].
  split; [exact W1|]. split; [exact W2|]. split; [exact W3|]. split; [reflexivity|]. split; [|exact W6].
  apply Forall_insert; [exact W5|]. apply new_gpt_entry_wf; [apply demo_rnd_ok|unfold is_u64; lia|lia|lia].
Qed.

Lemma find_space_correct_witness :
  find_space 0 1 64 40 0 demo3 = Some (40, 24) ∧ find_space 0 1 64 30 0 demo3 = None ∧
  ¬ (∀ i, part_of demo3 0 i → 30 + 1 ≤ start_lba (the_dev i demo3) ∨
       start_lba (the_dev i demo3) + sectors (the_dev i demo3) ≤ 30).
Proof.
  split; [vm_compute; reflexivity|]. assert (find_space 0 1 64 30 0 demo3 = None) as E by (vm_compute; reflexivity).
  split; [exact E|]. pose proof (find_space_correct demo3 0 1 64 30 0 demo3_ok) as Hf. rewrite E in Hf.
  apply (Hf ltac:(vm_compute; reflexivity) ltac:(vm_compute; split; discriminate) ltac:(vm_compute; discriminate)
    ltac:(vm_compute; reflexivity) ltac:(unfold is_u64; lia) ltac:(unfold is_u64; lia) 30); lia.
Defined.

Lemma gpt_store_load_witness :
  ∃ s', gpt_store (λ _, true) 0 demo_gpt blank_disk = Ret (true, s') ∧
    gpt_load (λ _, true) 0 s' = Ret (Some (stored (the_dev 0 blank_disk) demo_gpt)).
Proof.
  destruct (gpt_store_load (λ _, true) 0 blank_disk demo_gpt (λ _, eq_refl) blank_disk_ok demo_gpt_ok)
    as (s' & E & _ & _ & Hl & _).
  exists s'. split; [exact E|exact Hl].
Defined.

Lemma partition_scan_sound_witness :
  ∃ found s', partition_scan (λ _, true) 0 blank_disk = Ret (found, s') ∧ table_ok s'.
Proof.
  destruct (partition_scan_sound (λ _, true) 0 blank_disk) as (f & s' & E & Hok & _).
  - destruct blank_disk_ok as (H1 & H2 & H3 & _ & H5 & _). split; [exact H1|]. split; [exact H2|].
    split; [exact H3|]. split; [exact H5|]. intros x. vm_compute. split; congruence.
  - exists f, s'. split; [exact E|exact Hok].
Defined.

Lemma partition_create_gpt_correct_witness :
  ∃ s', partition_create_table (λ _, true) 0 PART_TABLE_AUTO demo_rnd 7 blank_disk = Ret (true, s') ∧
    partition_table_type (λ _, true) 0 s' = Ret PART_TABLE_GPT.
Proof.
  destruct (partition_create_gpt_correct (λ _, true) 0 blank_disk PART_TABLE_AUTO demo_rnd 7 (λ _, eq_refl) blank_disk_ok)
    as (s' & E & _ & _ & Ht & _); [discriminate|vm_compute; discriminate|vm_compute; discriminate|apply demo_rnd_ok|].
  exists s'. split; [exact E|exact Ht].
Defined.

Lemma partition_add_gpt_correct_witness :
  ∃ s r s', gpt_load (λ _, true) 0 s = Ret (Some (stored (the_dev 0 blank_disk) demo_gpt)) ∧
    add_to_gpt (λ _, true) 0 0 0 PART_KIND_MINIMAFS None demo_rnd s = Ret (r, s').
Proof.
  destruct (gpt_store_effect (λ _, true) (λ _, eq_refl) 0 blank_disk demo_gpt blank_disk_ok demo_gpt_ok)
    as (s & _ & Hd & Hdv & Hl & _).
  assert (the_dev 0 s = the_dev 0 blank_disk) as He by (unfold the_dev; by rewrite Hdv).
  destruct (partition_add_gpt_correct (λ _, true) 0 s _ 0 0 PART_KIND_MINIMAFS None demo_rnd (λ _, eq_refl) Hd Hl)
    as (r & s' & E & _).
  - rewrite He. apply stored_wf; [apply demo_gpt_ok|vm_compute; split; congruence].
  - rewrite He. vm_compute. discriminate.
  - rewrite He. vm_compute. discriminate.
  - rewrite He. vm_compute. reflexivity.
  - unfold is_u64; lia.
  - unfold is_u64; lia.
  - apply demo_rnd_ok.
  - exists s, r, s'. split; [exact Hl|exact E].
Defined.
