(* ===== verification/Time.v ===== *)
(** * Time ([src/impl/time.c], [src/impl/rtc.c], the CMOS helpers of
    [src/intf/x86_64/port.h])

    The wall clock kept from the PIT, its formatting and parsing, and the
    CMOS real-time clock it is read from and written to. The CMOS registers
    are a function from register numbers to bytes; the chip is taken to be
    between updates (status A bit 7 clear), so the waits end at once. *)

From stdpp Require Import sorting.
From S2P Require Import Prelude CString.

Open Scope c_scope.

(** [datetime_t] *)
Record datetime := mk_dt { year : Z; month : Z; day : Z; hour : Z; minute : Z; second : Z }.
#[export] Instance datetime_eq_dec : EqDecision datetime.
Proof. solve_decision. Defined.

(** [duration_t] *)
Record duration := mk_duration { d_days : Z; d_hours : Z; d_minutes : Z; d_seconds : Z; d_milliseconds : Z }.

(** ** Calendar *)

Definition time_is_leap_year (y : Z) : bool :=
  ((y mod 4 =? 0) && negb (y mod 100 =? 0)) || (y mod 400 =? 0).

Definition month_days : list Z := [0; 31; 28; 31; 30; 31; 30; 31; 31; 30; 31; 30; 31].

Definition time_days_in_month (m y : Z) : Z :=
  if (m <? 1) || (12 <? m) then 0
  else if (m =? 2) && time_is_leap_year y then 29
  else nth (Z.to_nat m) month_days 0.

Definition time_validate_datetime (d : datetime) : bool :=
  if (month d <? 1) || (12 <? month d) then false
  else if (day d <? 1) || (time_days_in_month (month d) (year d) <? day d) then false
  else if 24 <=? hour d then false
  else if 60 <=? minute d then false
  else if 60 <=? second d then false
  else true.

(** Zeller's congruence; C's [%] and [/] truncate. *)
Definition time_get_day_of_week (d : datetime) : Z :=
  let y := if month d <? 3 then year d - 1 else year d in
  let m := if month d <? 3 then month d + 12 else month d in
  let h := Z.rem (day d + Z.quot (13 * (m + 1)) 5 + y + Z.quot y 4 - Z.quot y 100 + Z.quot y 400) 7 in
  u8 (Z.rem (h + 6) 7).

(** The body of [time_tick]'s loop: one second on. *)
Definition next_second (d : datetime) : datetime :=
  let s := u8 (second d + 1) in
  if negb (60 <=? s) then mk_dt (year d) (month d) (day d) (hour d) (minute d) s
  else
    let mi := u8 (minute d + 1) in
    if negb (60 <=? mi) then mk_dt (year d) (month d) (day d) (hour d) mi 0
    else
      let h := u8 (hour d + 1) in
      if negb (24 <=? h) then mk_dt (year d) (month d) (day d) h 0 0
      else
        let dd := u8 (day d + 1) in
        if negb (time_days_in_month (month d) (year d) <? dd) then mk_dt (year d) (month d) dd 0 0 0
        else
          let mo := u8 (month d + 1) in
          if negb (12 <? mo) then mk_dt (year d) mo 1 0 0 0
          else mk_dt (u16 (year d + 1)) 1 1 0 0 0.

(** ** The clock *)

Record clock := mk_clock {
  system_uptime_ms : Z; last_pit_ticks : Z; current_datetime : datetime; last_rtc_update_ms : Z;
  time_str_bufs : list (list Z); time_str_idx : Z; cmos : Z → Z
}.

Definition set_datetime (d : datetime) (c : clock) : clock :=
  mk_clock (system_uptime_ms c) (last_pit_ticks c) d (last_rtc_update_ms c) (time_str_bufs c)
    (time_str_idx c) (cmos c).
Definition set_cmos (m : Z → Z) (c : clock) : clock :=
  mk_clock (system_uptime_ms c) (last_pit_ticks c) (current_datetime c) (last_rtc_update_ms c)
    (time_str_bufs c) (time_str_idx c) m.

Fixpoint tick_loop (fuel : nat) (c : clock) : outcome clock :=
  match fuel with
  | O => Hang
  | S fuel' =>
      if 1000 <=? u64 (system_uptime_ms c - last_rtc_update_ms c) then
        tick_loop fuel' (mk_clock (system_uptime_ms c) (last_pit_ticks c) (next_second (current_datetime c))
          (u64 (last_rtc_update_ms c + 1000)) (time_str_bufs c) (time_str_idx c) (cmos c))
      else Ret c
  end.

(** [ticks] is what [pit_get_ticks] returns. A frequency of 0 divides by
    zero. *)
Definition time_tick (pit_frequency ticks : Z) (c : clock) : outcome clock :=
  if pit_frequency =? 0 then Undef
  else
    let elapsed_ticks := u64 (ticks - last_pit_ticks c) in
    let ms_elapsed := u64 (elapsed_ticks * 1000) / pit_frequency in
    let up := u64 (system_uptime_ms c + ms_elapsed) in
    tick_loop (S (Z.to_nat (u64 (up - last_rtc_update_ms c) / 1000)))
      (mk_clock up ticks (current_datetime c) (last_rtc_update_ms c) (time_str_bufs c) (time_str_idx c) (cmos c)).

Definition time_get_uptime_ms (c : clock) : Z := system_uptime_ms c.
Definition time_get_uptime_sec (c : clock) : Z := system_uptime_ms c / 1000.
Definition time_get_datetime (c : clock) : datetime := current_datetime c.

Definition time_ms_to_duration (ms : Z) : duration :=
  let total_sec := ms / 1000 in
  let total_min := total_sec / 60 in
  let total_hours := total_min / 60 in
  mk_duration (total_hours / 24) (total_hours mod 24) (total_min mod 60) (total_sec mod 60) (ms mod 1000).

(** ** The CMOS real-time clock *)

Definition RTC_SECONDS : Z := 0.
Definition RTC_MINUTES : Z := 2.
Definition RTC_HOURS : Z := 4.
Definition RTC_DAY : Z := 7.
Definition RTC_MONTH : Z := 8.
Definition RTC_YEAR : Z := 9.
Definition RTC_CENTURY : Z := 50.
Definition RTC_STATUS_B : Z := 11.

Definition bcd_to_binary (bcd : Z) : Z := u8 (Z.shiftr (Z.land bcd 240) 4 * 10 + Z.land bcd 15).
Definition binary_to_bcd (v : Z) : Z := u8 (Z.lor (Z.shiftl (v / 10) 4) (v mod 10)).

Definition cmos_read (m : Z → Z) (reg : Z) : Z := m reg.
Definition cmos_write (m : Z → Z) (reg value : Z) : Z → Z := λ r, if r =? reg then value else m r.

(** Status B bit 2: the registers hold binary, not BCD. *)
Definition is_binary (m : Z → Z) : bool := negb (Z.land (cmos_read m RTC_STATUS_B) 4 =? 0).

Definition rtc_read_reg (m : Z → Z) (reg : Z) : Z :=
  if is_binary m then cmos_read m reg else bcd_to_binary (cmos_read m reg).

(** The verification loop of [rtc_write_reg]. *)
Fixpoint rtc_verify (n : nat) (m : Z → Z) (reg value : Z) : Z → Z :=
  match n with
  | O => m
  | S n' =>
      let check := rtc_read_reg m reg in
      if (check =? value) || (check =? bcd_to_binary value) then m
      else rtc_verify n' (cmos_write m reg value) reg value
  end.

Definition rtc_write_reg (m : Z → Z) (reg value : Z) : Z → Z :=
  let value := if is_binary m then value else binary_to_bcd value in
  rtc_verify 3 (cmos_write m reg value) reg value.

Definition rtc_seconds (m : Z → Z) : Z := rtc_read_reg m RTC_SECONDS.
Definition rtc_minutes (m : Z → Z) : Z := rtc_read_reg m RTC_MINUTES.
Definition rtc_hours (m : Z → Z) : Z :=
  let hour := rtc_read_reg m RTC_HOURS in
  let status_b := rtc_read_reg m RTC_STATUS_B in
  if Z.land status_b 2 =? 0 then
    let pm := negb (Z.land hour 128 =? 0) in
    let hour := Z.land hour 127 in
    let hour := if Z.land status_b 4 =? 0 then bcd_to_binary hour else hour in
    let hour := if pm && (hour <? 12) then u8 (hour + 12) else hour in
    if negb pm && (hour =? 12) then 0 else hour
  else hour.
Definition rtc_day (m : Z → Z) : Z := rtc_read_reg m RTC_DAY.
Definition rtc_month (m : Z → Z) : Z := rtc_read_reg m RTC_MONTH.
Definition rtc_year (m : Z → Z) : Z :=
  let year := rtc_read_reg m RTC_YEAR in
  let century := rtc_read_reg m RTC_CENTURY in
  let century := if (century <? 19) || (99 <? century) then 20 else century in
  u16 (century * 100 + year).

Definition rtc_get_datetime (m : Z → Z) : datetime :=
  mk_dt (rtc_year m) (rtc_month m) (rtc_day m) (rtc_hours m) (rtc_minutes m) (rtc_seconds m).

(** Sets 24-hour mode. *)
Definition rtc_init (m : Z → Z) : Z → Z := cmos_write m RTC_STATUS_B (Z.lor (m RTC_STATUS_B) 2).

Definition rtc_write_year (m : Z → Z) (y : Z) : Z → Z :=
  rtc_write_reg (rtc_write_reg m RTC_YEAR (u8 (y mod 100))) RTC_CENTURY (u8 (y / 100)).

Definition write_rtc_if_needed (c : clock) : clock :=
  let d := current_datetime c in
  let now := rtc_get_datetime (cmos c) in
  let m := cmos c in
  let m := if second now =? second d then m else rtc_write_reg m RTC_SECONDS (second d) in
  let m := if minute now =? minute d then m else rtc_write_reg m RTC_MINUTES (minute d) in
  let m := if hour now =? hour d then m else rtc_write_reg m RTC_HOURS (hour d) in
  let m := if day now =? day d then m else rtc_write_reg m RTC_DAY (day d) in
  let m := if month now =? month d then m else rtc_write_reg m RTC_MONTH (month d) in
  let m := if year now =? year d then m else rtc_write_year m (year d) in
  set_cmos m c.

(** ** Setters *)

Definition time_set_datetime (d : datetime) (c : clock) : clock :=
  if time_validate_datetime d then write_rtc_if_needed (set_datetime d c) else c.
Definition time_set_year (y : Z) (c : clock) : clock :=
  let d := current_datetime c in
  write_rtc_if_needed (set_datetime (mk_dt y (month d) (day d) (hour d) (minute d) (second d)) c).
Definition time_set_month (m : Z) (c : clock) : clock :=
  let d := current_datetime c in
  if (1 <=? m) && (m <=? 12)
  then write_rtc_if_needed (set_datetime (mk_dt (year d) m (day d) (hour d) (minute d) (second d)) c) else c.
Definition time_set_day (dd : Z) (c : clock) : clock :=
  let d := current_datetime c in
  if (1 <=? dd) && (dd <=? 31)
  then write_rtc_if_needed (set_datetime (mk_dt (year d) (month d) dd (hour d) (minute d) (second d)) c) else c.
Definition time_set_hour (h : Z) (c : clock) : clock :=
  let d := current_datetime c in
  if h <? 24
  then write_rtc_if_needed (set_datetime (mk_dt (year d) (month d) (day d) h (minute d) (second d)) c) else c.
Definition time_set_minute (mi : Z) (c : clock) : clock :=
  let d := current_datetime c in
  if mi <? 60
  then write_rtc_if_needed (set_datetime (mk_dt (year d) (month d) (day d) (hour d) mi (second d)) c) else c.
Definition time_set_second (s : Z) (c : clock) : clock :=
  let d := current_datetime c in
  if s <? 60
  then write_rtc_if_needed (set_datetime (mk_dt (year d) (month d) (day d) (hour d) (minute d) s) c) else c.
Definition time_set_date (y m dd : Z) (c : clock) : clock :=
  let d := current_datetime c in
  write_rtc_if_needed (set_datetime (mk_dt y m dd (hour d) (minute d) (second d)) c).
Definition time_set_time (h mi s : Z) (c : clock) : clock :=
  let d := current_datetime c in
  write_rtc_if_needed (set_datetime (mk_dt (year d) (month d) (day d) h mi s) c).

(** ** Text *)

(** Two and four decimal digits, as the code writes them into a [char]. *)
Definition d2 (v : Z) : list Z := [u8 (48 + v / 10); u8 (48 + v mod 10)].
Definition d4 (v : Z) : list Z :=
  [u8 (48 + v / 1000); u8 (48 + v / 100 mod 10); u8 (48 + v / 10 mod 10); u8 (48 + v mod 10)].

Definition time_format_time (d : datetime) : list Z := d2 (hour d) ++ [58] ++ d2 (minute d) ++ [58] ++ d2 (second d).
Definition time_format_date (d : datetime) : list Z := d4 (year d) ++ [45] ++ d2 (month d) ++ [45] ++ d2 (day d).

(** A C string ends at its first zero byte. *)
Fixpoint until_zero (l : list Z) : list Z :=
  match l with [] => [] | x :: r => if x =? 0 then [] else x :: until_zero r end.

(** Into a buffer of [bufsize] bytes; 19 characters at most. *)
Definition time_format_datetime (bufsize : Z) (d : datetime) : option (list Z) :=
  if bufsize <? 20 then None
  else Some (until_zero (time_format_date d) ++ [32] ++ until_zero (time_format_time d)).

Definition time_str_12h (d : datetime) : list Z :=
  let h := if hour d =? 0 then 12 else if 12 <? hour d then hour d - 12 else hour d in
  d2 h ++ [58] ++ d2 (minute d) ++ [58] ++ d2 (second d) ++ [32] ++
  (if 12 <=? hour d then txt "PM" else txt "AM").
Definition date_str_us (d : datetime) : list Z := d2 (month d) ++ [47] ++ d2 (day d) ++ [47] ++ d4 (year d).
Definition date_str_eu (d : datetime) : list Z := d2 (day d) ++ [47] ++ d2 (month d) ++ [47] ++ d4 (year d).

Definition time_get_month_name (m : Z) : list Z :=
  nth (Z.to_nat (if (1 <=? m) && (m <=? 12) then m else 0))
    [txt "Invalid"; txt "January"; txt "February"; txt "March"; txt "April"; txt "May"; txt "June";
     txt "July"; txt "August"; txt "September"; txt "October"; txt "November"; txt "December"] [].
Definition time_get_month_name_short (m : Z) : list Z :=
  nth (Z.to_nat (if (1 <=? m) && (m <=? 12) then m else 0))
    [txt "Inv"; txt "Jan"; txt "Feb"; txt "Mar"; txt "Apr"; txt "May"; txt "Jun";
     txt "Jul"; txt "Aug"; txt "Sep"; txt "Oct"; txt "Nov"; txt "Dec"] [].
Definition time_get_weekday_name (d : Z) : list Z :=
  if d <=? 6
  then nth (Z.to_nat d) [txt "Sunday"; txt "Monday"; txt "Tuesday"; txt "Wednesday"; txt "Thursday";
                         txt "Friday"; txt "Saturday"] []
  else txt "Invalid".
Definition time_get_weekday_name_short (d : Z) : list Z :=
  if d <=? 6
  then nth (Z.to_nat d) [txt "Sun"; txt "Mon"; txt "Tue"; txt "Wed"; txt "Thu"; txt "Fri"; txt "Sat"] []
  else txt "Inv".

Definition datetime_str_readable (d : datetime) : list Z :=
  time_get_weekday_name_short (time_get_day_of_week d) ++ [44; 32] ++
  time_get_month_name_short (month d) ++ [32] ++ d2 (day d) ++ [32] ++ d4 (year d) ++ [32] ++
  d2 (hour d) ++ [58] ++ d2 (minute d) ++ [58] ++ d2 (second d).

(** [for (...; temp[i] && pos < limit; ...)]: the digits that still fit. *)
Definition add_digits (limit : Z) (v : Z) (buf : list Z) : list Z :=
  buf ++ take (Z.to_nat (limit - Z.of_nat (length buf))) (uint_text v).

Definition uptime_parts (ms : Z) : Z * Z * Z * Z :=
  let total_sec := ms / 1000 in
  (total_sec / 86400, total_sec mod 86400 / 3600, total_sec mod 3600 / 60, total_sec mod 60).

Definition time_format_uptime (bufsize ms : Z) : option (list Z) :=
  if bufsize <? 20 then None
  else
    let '(days, hours, minutes, seconds) := uptime_parts ms in
    let b := [] in
    let b := if 0 <? days then add_digits (bufsize - 2) days b ++ [100; 32] else b in
    let b := if (0 <? hours) || (0 <? days) then add_digits (bufsize - 2) hours b ++ [104; 32] else b in
    let b := if (0 <? minutes) || (0 <? hours) || (0 <? days)
             then add_digits (bufsize - 2) minutes b ++ [109; 32] else b in
    Some (add_digits (bufsize - 1) seconds b ++ [115]).

Definition uptime_str_short (ms : Z) : list Z :=
  let '(days, hours, minutes, seconds) := uptime_parts ms in
  uint_text days ++ [58] ++ d2 hours ++ [58] ++ d2 minutes ++ [58] ++ d2 seconds.

Definition uptime_str_human (ms : Z) : list Z :=
  let '(days, hours, minutes, _) := uptime_parts ms in
  let b := [] in
  let b := if 0 <? days
           then add_digits 60 days b ++ (if days =? 1 then txt " day" else txt " days") ++
                (if 0 <? hours then txt ", " else [])
           else b in
  let b := if (0 <? hours) || (0 <? days)
           then add_digits 60 hours b ++ (if hours =? 1 then txt " hour" else txt " hours") else b in
  if (days =? 0) && (hours =? 0)
  then add_digits 60 minutes b ++ (if minutes =? 1 then txt " min" else txt " mins") else b.

(** The ring of four result buffers: the text lands in the next one. *)
Definition put_str (text : list Z) (c : clock) : outcome (Z * clock) :=
  let k := Z.rem (time_str_idx c) 4 in
  let* bufs := oset (time_str_bufs c) k text in
  Ret (k, mk_clock (system_uptime_ms c) (last_pit_ticks c) (current_datetime c) (last_rtc_update_ms c)
            bufs (i32 (time_str_idx c + 1)) (cmos c)).
Definition time_str (c : clock) : outcome (Z * clock) := put_str (time_format_time (current_datetime c)) c.
Definition date_str (c : clock) : outcome (Z * clock) := put_str (time_format_date (current_datetime c)) c.
Definition datetime_str (c : clock) : outcome (Z * clock) :=
  put_str (default [] (time_format_datetime 64 (current_datetime c))) c.
Definition uptime_str (c : clock) : outcome (Z * clock) :=
  put_str (default [] (time_format_uptime 64 (system_uptime_ms c))) c.

(** [ticks] is what [pit_get_ticks] returns; the log line takes a result
    buffer. *)
Definition time_init (ticks : Z) (c : clock) : outcome clock :=
  let c := mk_clock 0 ticks (rtc_get_datetime (cmos c)) 0 (time_str_bufs c) (time_str_idx c) (cmos c) in
  let* r := datetime_str c in
  Ret (snd r).

(** Parsing "YYYY-MM-DD HH:MM:SS"; [at_ s i] is [datetime_str[i] - '0'] with
    the character signed. *)
Definition at_ (s : list Z) (i : nat) : Z := as_char (nth i s 0) - 48.
Definition parse_datetime (s : list Z) : datetime :=
  mk_dt (u16 (at_ s 0 * 1000 + at_ s 1 * 100 + at_ s 2 * 10 + at_ s 3))
    (u8 (at_ s 5 * 10 + at_ s 6)) (u8 (at_ s 8 * 10 + at_ s 9))
    (u8 (at_ s 11 * 10 + at_ s 12)) (u8 (at_ s 14 * 10 + at_ s 15)) (u8 (at_ s 17 * 10 + at_ s 18)).

Definition time_set_from_str (s : list Z) (c : clock) : bool * clock :=
  if Z.of_nat (length s) <? 19 then (false, c)
  else
    let c := set_datetime (parse_datetime s) c in
    if time_validate_datetime (parse_datetime s) then (true, write_rtc_if_needed c) else (false, c).

(** The comparisons of [time_set_from_str_if_newer], in its order. *)
Definition is_newer (b r : datetime) : bool :=
  if negb (year b =? year r) then year r <? year b
  else if negb (month b =? month r) then month r <? month b
  else if negb (day b =? day r) then day r <? day b
  else if negb (hour b =? hour r) then hour r <? hour b
  else if negb (minute b =? minute r) then minute r <? minute b
  else negb (second b <=? second r).

Definition time_set_from_str_if_newer (s : list Z) (c : clock) : bool * clock :=
  if Z.of_nat (length s) <? 19 then (false, c)
  else
    let b := parse_datetime s in
    if negb (time_validate_datetime b) then (false, c)
    else if is_newer b (current_datetime c) then (true, write_rtc_if_needed (set_datetime b c))
    else (false, c).

(** ** The calendar against a day count

    [civil_day] numbers the days of the proleptic Gregorian calendar, with 1
    for 1 January of year 1, from a table of the days before each month;
    [abs_seconds] is the second of that count a date and time denotes. *)

Definition leap_days (y : Z) : Z := y / 4 - y / 100 + y / 400.
Definition days_before : list Z := [0; 31; 59; 90; 120; 151; 181; 212; 243; 273; 304; 334].
Definition civil_day (y m d : Z) : Z :=
  365 * (y - 1) + leap_days (y - 1) + nth (Z.to_nat (m - 1)) days_before 0
  + (leap_days y - leap_days (y - 1)) * (if 2 <? m then 1 else 0) + d.
Definition abs_seconds (d : datetime) : Z :=
  civil_day (year d) (month d) (day d) * 86400 + hour d * 3600 + minute d * 60 + second d.

(** The fields at their widths, and what [time_validate_datetime] accepts. *)
Definition dt_typed (d : datetime) : Prop :=
  is_u16 (year d) ∧ is_u8 (month d) ∧ is_u8 (day d) ∧ is_u8 (hour d) ∧ is_u8 (minute d) ∧ is_u8 (second d).
Definition dt_valid (d : datetime) : Prop := dt_typed d ∧ time_validate_datetime d = true.

#[export] Instance is_u8_decision x : Decision (is_u8 x).
Proof. unfold is_u8. apply _. Defined.
#[export] Instance is_u16_decision x : Decision (is_u16 x).
Proof. unfold is_u16. apply _. Defined.
#[export] Instance dt_valid_decision d : Decision (dt_valid d).
Proof. unfold dt_valid, dt_typed. apply _. Defined.

(** A property of the twelve months is proved by trying all twelve. *)
Lemma month_forall (P : Z → Prop) :
  P 1 → P 2 → P 3 → P 4 → P 5 → P 6 → P 7 → P 8 → P 9 → P 10 → P 11 → P 12 → ∀ m, 1 ≤ m ≤ 12 → P m.
Proof.
  intros. assert (m = 1 ∨ m = 2 ∨ m = 3 ∨ m = 4 ∨ m = 5 ∨ m = 6 ∨ m = 7 ∨ m = 8 ∨ m = 9 ∨ m = 10 ∨ m = 11 ∨ m = 12)
    as Hm by lia. repeat destruct Hm as [->|Hm]; subst; done.
Qed.

Lemma leap_year_days y :
  leap_days y - leap_days (y - 1) = if time_is_leap_year y then 1 else 0.
Proof.
  unfold leap_days, time_is_leap_year.
  destruct (Z.eqb_spec (y mod 4) 0), (Z.eqb_spec (y mod 100) 0), (Z.eqb_spec (y mod 400) 0); simpl;
    Z.div_mod_to_equations; lia.
Qed.

Lemma time_days_in_month_range m y : 1 ≤ m ≤ 12 → 28 ≤ time_days_in_month m y ≤ 31.
Proof.
  revert m. apply month_forall; unfold time_days_in_month; simpl; try lia.
  destruct (time_is_leap_year y); lia.
Qed.

Lemma dt_valid_iff d :
  dt_valid d ↔ is_u16 (year d) ∧ 1 ≤ month d ≤ 12 ∧ 1 ≤ day d ≤ time_days_in_month (month d) (year d)
    ∧ 0 ≤ hour d < 24 ∧ 0 ≤ minute d < 60 ∧ 0 ≤ second d < 60.
Proof.
  unfold dt_valid, dt_typed, time_validate_datetime, is_u8, is_u16. split.
  - intros [? H]. repeat case_if; try done. bool_to_prop. repeat split; lia || tauto.
  - intros (? & ? & ? & ? & ? & ?). pose proof (time_days_in_month_range (month d) (year d)).
    split; [repeat split; tauto || lia|].
    repeat case_if; try done; exfalso; repeat (match goal with H : _ || _ = true |- _ => apply orb_true_iff in H as [] end);
      bool_to_prop; lia.
Qed.

(** Evaluate table look-ups and tests at known months. *)
Ltac eval_tables :=
  repeat match goal with
  | |- context [nth (Z.to_nat ?k) ?l 0] =>
      let v := eval vm_compute in (nth (Z.to_nat k) l 0) in change (nth (Z.to_nat k) l 0) with v
  | |- context [Z.ltb ?a ?b] =>
      let v := eval vm_compute in (Z.ltb a b) in
      match v with true => idtac | false => idtac end; change (Z.ltb a b) with v
  | |- context [Z.eqb ?a ?b] =>
      let v := eval vm_compute in (Z.eqb a b) in
      match v with true => idtac | false => idtac end; change (Z.eqb a b) with v
  end; cbn [orb andb].

(** The month after has the next day number, in every month and year. *)
Lemma civil_day_next_month y m :
  1 ≤ m < 12 → civil_day y m (time_days_in_month m y) + 1 = civil_day y (m + 1) 1.
Proof.
  intros Hm. unfold civil_day. rewrite !leap_year_days. assert (1 ≤ m ≤ 12) as Hm' by lia.
  revert m Hm' Hm. apply (month_forall (λ m, 1 ≤ m < 12 → _)); intros; try lia;
    unfold time_days_in_month; eval_tables; destruct (time_is_leap_year y); simpl andb; cbv iota; lia.
Qed.

Lemma civil_day_next_year y : civil_day y 12 31 + 1 = civil_day (y + 1) 1 1.
Proof.
  unfold civil_day. eval_tables. cbv iota. replace (y + 1 - 1) with y by lia. lia.
Qed.

(** One second on: still a date, and the next second of the count. *)
Lemma next_second_spec d :
  dt_valid d → year d < 65535 →
  dt_valid (next_second d) ∧ abs_seconds (next_second d) = abs_seconds d + 1 ∧ year (next_second d) ≤ year d + 1.
Proof.
  intros Hd Hy. apply dt_valid_iff in Hd as (Hy0 & Hm & Hdd & Hh & Hmi & Hs).
  pose proof (time_days_in_month_range (month d) (year d) Hm).
  rewrite dt_valid_iff. unfold is_u16 in *. unfold abs_seconds, next_second.
  rewrite !u8_small, u16_small by (unfold is_u8, is_u16; lia).
  destruct (Z.leb_spec 60 (second d + 1)); simpl; [|lia].
  destruct (Z.leb_spec 60 (minute d + 1)); simpl; [|lia].
  destruct (Z.leb_spec 24 (hour d + 1)); simpl; [|lia].
  destruct (Z.ltb_spec (time_days_in_month (month d) (year d)) (day d + 1)) as [Hl|]; simpl.
  2: { split; [lia|]. unfold civil_day. lia. }
  assert (day d = time_days_in_month (month d) (year d)) as Hde by lia.
  destruct (Z.ltb_spec 12 (month d + 1)); simpl.
  - assert (month d = 12) as Hm12 by lia. rewrite Hm12 in Hde |- *. change (time_days_in_month 12 (year d)) with 31 in Hde.
    rewrite Hde, <- civil_day_next_year. change (time_days_in_month 1 _) with 31. lia.
  - pose proof (time_days_in_month_range (month d + 1) (year d)).
    rewrite <- civil_day_next_month by lia. rewrite Hde. lia.
Qed.

(** ** The order of dates is the order of the count *)

Lemma civil_day_month_le y m k :
  1 ≤ m → m + Z.of_nat k ≤ 12 → civil_day y m 1 ≤ civil_day y (m + Z.of_nat k) 1.
Proof.
  intros Hm. induction k as [|k IH]; intros Hk; [by rewrite Z.add_0_r|].
  replace (m + Z.of_nat (S k)) with (m + Z.of_nat k + 1) by lia.
  rewrite <- civil_day_next_month by lia. pose proof (time_days_in_month_range (m + Z.of_nat k) y).
  unfold civil_day in *. lia.
Qed.

Lemma civil_day_year_le y k : civil_day y 1 1 ≤ civil_day (y + Z.of_nat k) 1 1.
Proof.
  induction k as [|k IH]; [by rewrite Z.add_0_r|].
  replace (y + Z.of_nat (S k)) with (y + Z.of_nat k + 1) by lia. rewrite <- civil_day_next_year.
  pose proof (civil_day_month_le (y + Z.of_nat k) 1 11). change (1 + Z.of_nat 11) with 12 in *.
  unfold civil_day in *. lia.
Qed.

Lemma civil_day_month_lt y m m' d d' :
  1 ≤ m → m < m' → m' ≤ 12 → d ≤ time_days_in_month m y → 1 ≤ d' → civil_day y m d < civil_day y m' d'.
Proof.
  intros. pose proof (civil_day_month_le y (m + 1) (Z.to_nat (m' - (m + 1)))) as Hle.
  rewrite Z2Nat.id in Hle by lia. replace (m + 1 + (m' - (m + 1))) with m' in Hle by lia.
  rewrite <- civil_day_next_month in Hle by lia. unfold civil_day in *. lia.
Qed.

Lemma civil_day_year_lt y y' m m' d d' :
  y < y' → 1 ≤ m ≤ 12 → 1 ≤ m' ≤ 12 → d ≤ time_days_in_month m y → 1 ≤ d' → civil_day y m d < civil_day y' m' d'.
Proof.
  intros. pose proof (civil_day_year_le (y + 1) (Z.to_nat (y' - (y + 1)))) as Hle.
  rewrite Z2Nat.id in Hle by lia. replace (y + 1 + (y' - (y + 1))) with y' in Hle by lia.
  rewrite <- civil_day_next_year in Hle.
  assert (civil_day y m d ≤ civil_day y 12 31).
  { destruct (decide (m = 12)) as [->|]; [change (time_days_in_month 12 y) with 31 in *; unfold civil_day; lia|].
    pose proof (civil_day_month_lt y m 12 d 31). lia. }
  assert (civil_day y' 1 1 ≤ civil_day y' m' d').
  { destruct (decide (m' = 1)) as [->|]; [unfold civil_day; lia|].
    pose proof (civil_day_month_lt y' 1 m' 1 d'). change (time_days_in_month 1 y') with 31 in *. lia. }
  lia.
Qed.

Lemma is_newer_spec b r : dt_valid b → dt_valid r → is_newer b r = (abs_seconds r <? abs_seconds b).
Proof.
  intros Hb%dt_valid_iff Hr%dt_valid_iff. unfold is_newer, abs_seconds.
  destruct Hb as (? & ? & ? & ? & ? & ?), Hr as (? & ? & ? & ? & ? & ?).
  symmetry. destruct (Z.eqb_spec (year b) (year r)) as [Ey|Ny]; simpl.
  2: { destruct (Z.ltb_spec (year r) (year b)).
       - pose proof (civil_day_year_lt (year r) (year b) (month r) (month b) (day r) (day b)).
         apply Z.ltb_lt. lia.
       - pose proof (civil_day_year_lt (year b) (year r) (month b) (month r) (day b) (day r)).
         apply Z.ltb_ge. lia. }
  rewrite Ey in *. destruct (Z.eqb_spec (month b) (month r)) as [Em|Nm]; simpl.
  2: { destruct (Z.ltb_spec (month r) (month b)).
       - pose proof (civil_day_month_lt (year r) (month r) (month b) (day r) (day b)). apply Z.ltb_lt. lia.
       - pose proof (civil_day_month_lt (year r) (month b) (month r) (day b) (day r)). apply Z.ltb_ge. lia. }
  rewrite Em in *. unfold civil_day.
  destruct (Z.eqb_spec (day b) (day r)), (Z.eqb_spec (hour b) (hour r)), (Z.eqb_spec (minute b) (minute r));
    simpl; match goal with |- context [negb (?a <=? ?b)] => rewrite <- (Z.ltb_antisym a b) | _ => idtac end;
    match goal with |- _ = (?a <? ?b) => destruct (Z.ltb_spec a b) end; apply Z.ltb_lt || apply Z.ltb_ge; lia.
Qed.

(** ** The tick loop *)

(** The start of the last year the 16-bit year field holds. *)
Definition calendar_end : Z := abs_seconds (mk_dt 65535 1 1 0 0 0).

Lemma before_calendar_end d : dt_valid d → abs_seconds d < calendar_end → year d < 65535.
Proof.
  intros (Hy & Hm & Hd & Hr)%dt_valid_iff Hlt. destruct (Z.lt_ge_cases (year d) 65535); [done|exfalso].
  unfold is_u16 in Hy. unfold calendar_end, abs_seconds in Hlt. simpl in Hlt.
  assert (year d = 65535) as E by lia. rewrite E in *.
  destruct (decide (month d = 1)) as [Em|].
  - rewrite Em in *. unfold civil_day in Hlt. lia.
  - pose proof (civil_day_month_lt 65535 1 (month d) 1 (day d)). change (time_days_in_month 1 65535) with 31 in *. lia.
Qed.

(** A clock started at second [t0]: its date is [t0] plus the whole seconds
    counted into [last_rtc_update_ms], which is within a second of the uptime. *)
Definition clock_at (t0 : Z) (c : clock) : Prop :=
  dt_valid (current_datetime c) ∧ 0 ≤ last_rtc_update_ms c ≤ system_uptime_ms c
  ∧ is_u64 (system_uptime_ms c) ∧ last_rtc_update_ms c = 1000 * (abs_seconds (current_datetime c) - t0).

(** Everything of the clock the ticks leave alone. *)
Definition same_rest (c c' : clock) : Prop :=
  time_str_bufs c' = time_str_bufs c ∧ time_str_idx c' = time_str_idx c ∧ cmos c' = cmos c.

Lemma tick_loop_spec t0 fuel : ∀ c,
  clock_at t0 c → t0 + system_uptime_ms c / 1000 < calendar_end →
  (Z.to_nat ((system_uptime_ms c - last_rtc_update_ms c) / 1000) < fuel)%nat →
  ∃ c', tick_loop fuel c = Ret c' ∧ clock_at t0 c' ∧ same_rest c c'
    ∧ system_uptime_ms c' = system_uptime_ms c ∧ last_pit_ticks c' = last_pit_ticks c
    ∧ system_uptime_ms c' < last_rtc_update_ms c' + 1000.
Proof.
  induction fuel as [|fuel IH]; intros c Hc Hend Hf; [lia|]. simpl.
  destruct Hc as (Hd & Hl & Hu & Hlast). rewrite u64_small by (unfold is_u64 in *; lia).
  destruct (Z.leb_spec 1000 (system_uptime_ms c - last_rtc_update_ms c)) as [Hle|Hlt].
  - assert (abs_seconds (current_datetime c) < calendar_end) as Hce by (Z.div_mod_to_equations; lia).
    destruct (next_second_spec (current_datetime c)) as (Hv & Ha & _); [done|by apply before_calendar_end|].
    rewrite u64_small by (unfold is_u64 in *; lia).
    match goal with |- ∃ _, tick_loop _ ?cc = _ ∧ _ =>
      destruct (IH cc) as (c' & Hr & Hc' & Hs & Hup & Hpt & Hlt); [| | |exists c'; split; [exact Hr|]; done] end.
    + unfold clock_at; simpl; split_and!; try done; unfold is_u64 in *; lia.
    + done.
    + simpl. Z.div_mod_to_equations. lia.
  - exists c. unfold clock_at, same_rest. split_and!; try done; unfold is_u64 in *; lia.
Qed.

(** One tick: the uptime grows by the milliseconds of the elapsed ticks and
    the date follows it. *)
Lemma time_tick_spec t0 f ticks c :
  0 < f → clock_at t0 c → system_uptime_ms c * f ≤ 1000 * last_pit_ticks c →
  0 ≤ last_pit_ticks c ≤ ticks → ticks * 1000 < 2 ^ 64 → t0 + ticks / f < calendar_end →
  ∃ c', time_tick f ticks c = Ret c' ∧ clock_at t0 c' ∧ same_rest c c'
    ∧ system_uptime_ms c' = system_uptime_ms c + (ticks - last_pit_ticks c) * 1000 / f
    ∧ system_uptime_ms c' * f ≤ 1000 * ticks ∧ last_pit_ticks c' = ticks
    ∧ system_uptime_ms c' < last_rtc_update_ms c' + 1000.
Proof.
  intros Hf Hc Hup Ht Hov Hend. unfold time_tick. rewrite (proj2 (Z.eqb_neq _ _)) by lia.
  destruct Hc as (Hd & Hl & Hu & Hlast). rewrite (u64_small (ticks - _)) by (unfold is_u64; lia).
  rewrite (u64_small (_ * 1000)) by (unfold is_u64; lia).
  set (ms := (ticks - last_pit_ticks c) * 1000 / f).
  assert (0 ≤ ms) as Hms by (apply Z.div_pos; lia).
  assert (ms * f ≤ (ticks - last_pit_ticks c) * 1000) as Hmf by (unfold ms; rewrite Z.mul_comm; apply Z.mul_div_le; lia).
  assert ((system_uptime_ms c + ms) * f ≤ 1000 * ticks) as Hb by lia.
  assert (system_uptime_ms c + ms ≤ 1000 * ticks) by nia.
  rewrite (u64_small (system_uptime_ms c + ms)) by (unfold is_u64 in *; lia).
  assert ((system_uptime_ms c + ms) / 1000 ≤ ticks / f) as Hsec.
  { apply Z.div_le_lower_bound; [done|]. apply (Z.mul_le_mono_pos_r _ _ 1000); [lia|].
    pose proof (Z.mul_div_le (system_uptime_ms c + ms) 1000). nia. }
  rewrite u64_small by (unfold is_u64 in *; lia).
  match goal with |- ∃ _, tick_loop ?fu ?cc = _ ∧ _ => destruct (tick_loop_spec t0 fu cc) as (c' & Hr & Hc' & Hs & E & E' & Hlt) end.
  - unfold clock_at; simpl; split_and!; try done; unfold is_u64 in *; lia.
  - simpl. lia.
  - simpl. lia.
  - simpl in *. exists c'. rewrite E, E'. split_and!; try done; lia.
Qed.

(** The timer interrupt at the readings [ts] of the tick counter. *)
Fixpoint time_ticks (f : Z) (ts : list Z) (c : clock) : outcome clock :=
  match ts with
  | [] => Ret c
  | t :: ts' => let* c := time_tick f t c in time_ticks f ts' c
  end.

Lemma last_default (x d : Z) (l : list Z) : List.last (x :: l) d = List.last l x.
Proof.
  revert x d. induction l as [|y l IH]; intros x d; [done|].
  transitivity (List.last l y); [apply (IH y d)|symmetry; apply (IH y x)].
Qed.

Lemma time_ticks_spec t0 f ts : ∀ c,
  0 < f → clock_at t0 c → system_uptime_ms c * f ≤ 1000 * last_pit_ticks c →
  system_uptime_ms c < last_rtc_update_ms c + 1000 →
  0 ≤ last_pit_ticks c → Sorted Z.le (last_pit_ticks c :: ts) →
  Forall (λ t, t * 1000 < 2 ^ 64 ∧ t0 + t / f < calendar_end) ts →
  ∃ c', time_ticks f ts c = Ret c' ∧ clock_at t0 c' ∧ same_rest c c'
    ∧ system_uptime_ms c' < last_rtc_update_ms c' + 1000
    ∧ last_pit_ticks c' = List.last ts (last_pit_ticks c)
    ∧ (1000 mod f = 0 →
       system_uptime_ms c' = system_uptime_ms c + (List.last ts (last_pit_ticks c) - last_pit_ticks c) * (1000 / f)).
Proof.
  induction ts as [|t ts IH]; intros c Hf Hc Hup Hlt H0 Hs Hb; simpl time_ticks.
  { exists c. unfold same_rest. split_and!; try done. simpl. lia. }
  apply Sorted_inv in Hs as [Hs Hhd]. apply HdRel_inv in Hhd. apply Forall_cons in Hb as [[Hb1 Hb2] Hb].
  destruct (time_tick_spec t0 f t c) as (c1 & -> & Hc1 & Hr1 & Hu1 & Hb1' & Hp1 & Hlt1); try done.
  simpl obind. destruct (IH c1) as (c2 & -> & Hc2 & Hr2 & Hlt2 & Hp2 & Hx); try done; try (rewrite Hp1; done || lia).
  exists c2. rewrite Hp1 in *. assert (same_rest c c2) by (unfold same_rest in *; intuition congruence).
  assert (List.last ts t = List.last (t :: ts) (last_pit_ticks c)) as Hl.
  { symmetry. apply last_default. }
  rewrite Hl in *. split_and!; try done. intros Hm. rewrite Hx, Hu1 by done.
  apply Z.mod_divide in Hm as [q Hq]; [|lia]. rewrite Hq, Z.div_mul, Z.mul_assoc, Z.div_mul by lia. lia.
Qed.

(** C39. The clock read from the CMOS chip and then driven by timer interrupts
    always shows a valid date and time, exactly the whole seconds of uptime
    after the one it was started at; the loop of every tick ends; and when
    the timer's period is a whole number of milliseconds the uptime is
    exactly the time between the first and the last tick. *)
Theorem time_keeps_running (f t : Z) (ts : list Z) (c : clock) :
  0 < f →
  dt_valid (rtc_get_datetime (cmos c)) →
  length (time_str_bufs c) = 4%nat → 0 ≤ time_str_idx c < 2 ^ 31 - 1 →
  0 ≤ t → Sorted Z.le (t :: ts) →
  Forall (λ x, x * 1000 < 2 ^ 64 ∧ abs_seconds (rtc_get_datetime (cmos c)) + x / f < calendar_end) ts →
  ∃ c', (let* c1 := time_init t c in time_ticks f ts c1) = Ret c'
    ∧ dt_valid (time_get_datetime c')
    ∧ abs_seconds (time_get_datetime c') = abs_seconds (rtc_get_datetime (cmos c)) + time_get_uptime_sec c'
    ∧ (1000 mod f = 0 → time_get_uptime_ms c' = (List.last ts t - t) * (1000 / f)).
Proof.
  intros Hf Hv Hbl Hi Ht Hs Hb. unfold time_init, datetime_str, put_str. cbn [time_str_idx time_str_bufs].
  pose proof (Z.rem_bound_pos (time_str_idx c) 4).
  rewrite oset_in by (rewrite Hbl; lia). cbn [obind snd].
  match goal with |- ∃ _, time_ticks _ _ ?cc = _ ∧ _ =>
    destruct (time_ticks_spec (abs_seconds (rtc_get_datetime (cmos c))) f ts cc) as (c' & -> & Hc & _ & Hlt & _ & Hx) end;
    try done.
  - unfold clock_at; simpl; split_and!; try done; unfold is_u64; lia.
  - simpl. lia.
  - exists c'. destruct Hc as (Hv' & Hl & _ & Hc). unfold time_get_uptime_sec, time_get_uptime_ms, time_get_datetime.
    split; [done|]. split; [exact Hv'|]. split; [Z.div_mod_to_equations; lia|]. intros. rewrite Hx by done. simpl. lia.
Qed.

(** 28 February 2024 23:59:59 BCD in 24-hour mode, five ticks of 1 kHz. *)
Definition witness_cmos : Z → Z := λ r,
  if r =? RTC_SECONDS then 0x59 else if r =? RTC_MINUTES then 0x59 else if r =? RTC_HOURS then 0x23
  else if r =? RTC_DAY then 0x28 else if r =? RTC_MONTH then 0x02 else if r =? RTC_YEAR then 0x24
  else if r =? RTC_CENTURY then 0x20 else if r =? RTC_STATUS_B then 2 else 0.
Definition witness_clock : clock := mk_clock 0 0 (mk_dt 0 0 0 0 0 0) 0 [[]; []; []; []] 0 witness_cmos.

Lemma time_keeps_running_witness :
  ∃ c', (let* c1 := time_init 7 witness_clock in time_ticks 1000 [8; 500; 1006; 1007; 3007] c1) = Ret c'
    ∧ time_get_datetime c' = mk_dt 2024 2 29 0 0 2 ∧ time_get_uptime_ms c' = 3000.
Proof.
  destruct (time_keeps_running 1000 7 [8; 500; 1006; 1007; 3007] witness_clock) as (c' & Hr & Hv & Ha & Hu);
    [lia|vm_compute; intuition congruence|done|simpl; lia|lia|repeat constructor; lia| |].
  { assert (abs_seconds (rtc_get_datetime (cmos witness_clock)) = 63844847999) as -> by (vm_compute; reflexivity).
    assert (calendar_end = 2068053292800) as -> by (vm_compute; reflexivity).
    repeat apply Forall_cons_2; try apply Forall_nil_2; split; try lia; (apply Z.lt_le_trans with (63844847999 + 5); [|lia]);
    vm_compute; reflexivity. }
  exists c'. split; [exact Hr|]. split; [|rewrite Hu; reflexivity].
  vm_compute in Hr. injection Hr as <-. reflexivity.
Defined.

(** ** Weekdays *)

Lemma zeller_mod a : 0 ≤ a → u8 (Z.rem (Z.rem a 7 + 6) 7) = (a + 6) mod 7.
Proof.
  intros Ha. pose proof (Z.mod_pos_bound a 7). pose proof (Z.mod_pos_bound (a + 6) 7).
  rewrite (Z.rem_mod_nonneg a 7), Z.rem_mod_nonneg, Z.add_mod_idemp_l by lia.
  apply u8_small. unfold is_u8. lia.
Qed.

(** [time_get_day_of_week] (Zeller's congruence in truncating arithmetic) is
    the day count modulo seven, 0 for Sunday, for every date from year 1 on. *)
Theorem day_of_week_correct (d : datetime) :
  dt_valid d → 1 ≤ year d →
  time_get_day_of_week d = civil_day (year d) (month d) (day d) mod 7.
Proof.
  intros (Hy & Hm & Hd & _)%dt_valid_iff H1. unfold is_u16 in Hy.
  pose proof (time_days_in_month_range (month d) (year d) Hm).
  unfold time_get_day_of_week, civil_day. rewrite leap_year_days.
  assert (∀ m y dd, 1 ≤ m ≤ 12 → 1 ≤ y < 65536 → 1 ≤ dd ≤ 31 →
    u8 (Z.rem (Z.rem (dd + Z.quot (13 * ((if m <? 3 then m + 12 else m) + 1)) 5 + (if m <? 3 then y - 1 else y)
      + Z.quot (if m <? 3 then y - 1 else y) 4 - Z.quot (if m <? 3 then y - 1 else y) 100
      + Z.quot (if m <? 3 then y - 1 else y) 400) 7 + 6) 7)
    = (365 * (y - 1) + leap_days (y - 1) + nth (Z.to_nat (m - 1)) days_before 0
       + (if time_is_leap_year y then 1 else 0) * (if 2 <? m then 1 else 0) + dd) mod 7) as Hz.
  { clear. intros m y dd Hm. revert m Hm. apply (month_forall (λ m, _ → _ → _)); intros Hy Hd;
      rewrite <- leap_year_days; eval_tables; cbv iota; unfold leap_days; rewrite !Z.quot_div_nonneg by lia;
      (rewrite zeller_mod; [|Z.div_mod_to_equations; lia]); Z.div_mod_to_equations; lia. }
  apply Hz; lia.
Qed.

Lemma day_of_week_correct_witness :
  time_get_day_of_week (mk_dt 2000 2 29 0 0 0) = civil_day 2000 2 29 mod 7
  ∧ time_get_weekday_name (time_get_day_of_week (mk_dt 2000 2 29 0 0 0)) = txt "Tuesday".
Proof.
  split; [|reflexivity].
  apply (day_of_week_correct (mk_dt 2000 2 29 0 0 0)); [by apply (bool_decide_unpack _); vm_compute|simpl; lia].
Defined.

(** ** The CMOS chip *)

(** BCD loses nothing below 100. *)
Lemma bcd_roundtrip v : 0 ≤ v < 100 → bcd_to_binary (binary_to_bcd v) = v.
Proof.
  intros Hv. assert (forallb (λ v, bcd_to_binary (binary_to_bcd v) =? v) (seqZ 0 100) = true) as H by reflexivity.
  rewrite forallb_forall in H. apply Z.eqb_eq, H, list_elem_of_In, elem_of_seqZ. lia.
Qed.

(** A register write is accepted at the first check, reads back as the value
    and changes no other register. *)
Lemma rtc_read_write m reg v r :
  reg ≠ RTC_STATUS_B → 0 ≤ v < 100 →
  rtc_read_reg (rtc_write_reg m reg v) r = if r =? reg then v else rtc_read_reg m r.
Proof.
  intros Hreg Hv. unfold rtc_write_reg.
  assert (∀ x, is_binary (cmos_write m reg x) = is_binary m) as Hb.
  { intros x. unfold is_binary, cmos_read, cmos_write. by rewrite (proj2 (Z.eqb_neq RTC_STATUS_B reg)). }
  assert (rtc_verify 3 (cmos_write m reg (if is_binary m then v else binary_to_bcd v)) reg
            (if is_binary m then v else binary_to_bcd v)
          = cmos_write m reg (if is_binary m then v else binary_to_bcd v)) as ->.
  { assert (∀ x, rtc_read_reg (cmos_write m reg x) reg = if is_binary m then x else bcd_to_binary x) as Hc.
    { intros x. unfold rtc_read_reg. rewrite Hb. unfold cmos_read, cmos_write. by rewrite Z.eqb_refl. }
    cbn [rtc_verify]. rewrite Hc. destruct (is_binary m); by rewrite Z.eqb_refl, ?orb_true_r. }
  unfold rtc_read_reg. rewrite Hb. unfold cmos_read, cmos_write.
  destruct (Z.eqb_spec r reg); [|done]. destruct (is_binary m); [done|]. by apply bcd_roundtrip.
Qed.

(** One conditional write of [write_rtc_if_needed]. *)
Lemma rtc_read_sync m reg now v r :
  reg ≠ RTC_STATUS_B → 0 ≤ v < 100 →
  rtc_read_reg (if now =? v then m else rtc_write_reg m reg v) r
  = if r =? reg then (if now =? v then rtc_read_reg m r else v) else rtc_read_reg m r.
Proof.
  intros. destruct (Z.eqb_spec now v); [by destruct (r =? reg)|]. by apply rtc_read_write.
Qed.

(** The chip is in 24-hour mode, as [rtc_hours] tests it. *)
Definition rtc_24h (m : Z → Z) : Prop := Z.land (rtc_read_reg m RTC_STATUS_B) 2 ≠ 0.

Lemma rtc_hours_24h m : rtc_24h m → rtc_hours m = rtc_read_reg m RTC_HOURS.
Proof. intros H. unfold rtc_hours. by rewrite (proj2 (Z.eqb_neq _ _) H). Qed.

Lemma rtc_read_write_year m y r :
  1900 ≤ y ≤ 9999 →
  rtc_read_reg (rtc_write_year m y) r
  = if r =? RTC_CENTURY then y / 100 else if r =? RTC_YEAR then y mod 100 else rtc_read_reg m r.
Proof.
  intros Hy. unfold rtc_write_year.
  rewrite (u8_small (y mod 100)), (u8_small (y / 100)) by (unfold is_u8; Z.div_mod_to_equations; lia).
  rewrite !rtc_read_write by (done || Z.div_mod_to_equations; lia). done.
Qed.

(** What the readers give is determined by the registers read. *)
Lemma rtc_get_datetime_eq m d :
  rtc_24h m → rtc_read_reg m RTC_SECONDS = second d → rtc_read_reg m RTC_MINUTES = minute d →
  rtc_read_reg m RTC_HOURS = hour d → rtc_read_reg m RTC_DAY = day d → rtc_read_reg m RTC_MONTH = month d →
  rtc_year m = year d → rtc_get_datetime m = d.
Proof.
  intros H24 Hs Hmi Hh Hd Hmo Hy. unfold rtc_get_datetime, rtc_seconds, rtc_minutes, rtc_day, rtc_month.
  rewrite rtc_hours_24h by done. rewrite Hs, Hmi, Hh, Hd, Hmo, Hy. by destruct d.
Qed.

(** Which register [r] is, and whether the value was already there. *)
Ltac rtc_cases r :=
  unfold RTC_CENTURY, RTC_YEAR, RTC_MONTH, RTC_DAY, RTC_HOURS, RTC_MINUTES, RTC_SECONDS;
  repeat match goal with |- context [r =? ?k] => destruct (Z.eqb_spec r k); [subst r; cbn [Z.eqb Pos.eqb]|] end;
  try done; match goal with |- context [?a =? ?b] => by destruct (Z.eqb_spec a b) end.

Lemma write_rtc_spec c :
  rtc_24h (cmos c) → dt_valid (current_datetime c) → 1900 ≤ year (current_datetime c) ≤ 9999 →
  rtc_get_datetime (cmos (write_rtc_if_needed c)) = current_datetime c
  ∧ current_datetime (write_rtc_if_needed c) = current_datetime c
  ∧ rtc_24h (cmos (write_rtc_if_needed c)).
Proof.
  intros H24 Hv Hy. apply dt_valid_iff in Hv as (_ & Hm & Hd & Hh & Hmi & Hs).
  pose proof (time_days_in_month_range (month (current_datetime c)) (year (current_datetime c)) Hm).
  unfold write_rtc_if_needed. set (d := current_datetime c) in *. set (now := rtc_get_datetime (cmos c)).
  match goal with |- context [set_cmos ?m _] => set (m6 := m) end. cbn [set_cmos cmos current_datetime].
  assert (∀ r, rtc_read_reg m6 r =
    if r =? RTC_CENTURY then (if year now =? year d then rtc_read_reg (cmos c) r else year d / 100)
    else if r =? RTC_YEAR then (if year now =? year d then rtc_read_reg (cmos c) r else year d mod 100)
    else if r =? RTC_MONTH then month d else if r =? RTC_DAY then day d else if r =? RTC_HOURS then hour d
    else if r =? RTC_MINUTES then minute d else if r =? RTC_SECONDS then second d
    else rtc_read_reg (cmos c) r) as Hr.
  { intros r. unfold m6. destruct (year now =? year d); rewrite ?rtc_read_write_year by done;
      rewrite !rtc_read_sync by (done || lia); unfold now, rtc_get_datetime, rtc_seconds, rtc_minutes, rtc_day, rtc_month;
      cbn [second minute hour day month]; rewrite (rtc_hours_24h _ H24); rtc_cases r. }
  assert (rtc_24h m6) as H24' by (unfold rtc_24h; rewrite Hr; exact H24).
  split_and!; [|done|done]. apply rtc_get_datetime_eq; try (rewrite Hr; reflexivity); [done|].
  unfold rtc_year. rewrite !Hr. cbn [Z.eqb RTC_YEAR RTC_CENTURY Pos.eqb].
  destruct (Z.eqb_spec (year now) (year d)) as [E|_]; [exact E|].
  replace ((year d / 100 <? 19) || (99 <? year d / 100)) with false by
    (symmetry; apply orb_false_intro; apply Z.ltb_ge; Z.div_mod_to_equations; lia).
  rewrite u16_small by (unfold is_u16; Z.div_mod_to_equations; lia). Z.div_mod_to_equations; lia.
Qed.

(** Setting a valid date and time of the years 1900 to 9999 moves both the
    clock and the chip there: what [time_init] would read back is what was
    set. An invalid one is refused and changes nothing. *)
Theorem time_set_datetime_correct (d : datetime) (c : clock) :
  rtc_24h (cmos c) → dt_typed d → 1900 ≤ year d ≤ 9999 →
  if decide (time_validate_datetime d = true)
  then current_datetime (time_set_datetime d c) = d ∧ rtc_get_datetime (cmos (time_set_datetime d c)) = d
       ∧ rtc_24h (cmos (time_set_datetime d c))
  else time_set_datetime d c = c.
Proof.
  intros H24 Ht Hy. unfold time_set_datetime. destruct (decide _) as [Hv|Hv].
  - rewrite Hv. destruct (write_rtc_spec (set_datetime d c)) as (H1 & H2 & H3); [done|by split|done|]. done.
  - by apply not_true_is_false in Hv as ->.
Qed.

Lemma time_set_datetime_correct_witness :
  rtc_get_datetime (cmos (time_set_datetime (mk_dt 1999 12 31 23 59 58) witness_clock)) = mk_dt 1999 12 31 23 59 58.
Proof.
  refine (proj1 (proj2 (time_set_datetime_correct (mk_dt 1999 12 31 23 59 58) witness_clock _ _ _)));
    [vm_compute; congruence|vm_compute; intuition congruence|simpl; lia].
Defined.

(** ** Text *)

Lemma d2_spec v : 0 ≤ v < 100 →
  ∃ a b, d2 v = [48 + a; 48 + b] ∧ 0 ≤ a < 10 ∧ 0 ≤ b < 10 ∧ v = a * 10 + b.
Proof.
  intros. exists (v / 10), (v mod 10). unfold d2. rewrite !u8_small by (unfold is_u8; Z.div_mod_to_equations; lia).
  split_and!; try done; Z.div_mod_to_equations; lia.
Qed.

Lemma d4_spec v : 0 ≤ v < 10000 →
  ∃ a b c d, d4 v = [48 + a; 48 + b; 48 + c; 48 + d] ∧ 0 ≤ a < 10 ∧ 0 ≤ b < 10 ∧ 0 ≤ c < 10 ∧ 0 ≤ d < 10
    ∧ v = a * 1000 + b * 100 + c * 10 + d.
Proof.
  intros. exists (v / 1000), (v / 100 mod 10), (v / 10 mod 10), (v mod 10). unfold d4.
  rewrite !u8_small by (unfold is_u8; Z.div_mod_to_equations; lia).
  split_and!; try done; Z.div_mod_to_equations; lia.
Qed.

Lemma until_zero_id l : Forall (λ x, x ≠ 0) l → until_zero l = l.
Proof.
  induction 1 as [|x l Hx _ IH]; simpl; [done|]. by rewrite (proj2 (Z.eqb_neq x 0) Hx), IH.
Qed.

Lemma digit_char a : 0 ≤ a < 10 → as_char (48 + a) - 48 = a.
Proof. intros. unfold as_char. rewrite (proj2 (Z.ltb_lt _ _)) by lia. lia. Qed.

Lemma parse_format d :
  dt_valid d → year d ≤ 9999 →
  ∃ s, time_format_datetime 64 d = Some s ∧ length s = 19%nat ∧ parse_datetime s = d.
Proof.
  intros (Hy & Hm & Hd & Hh & Hmi & Hs)%dt_valid_iff Hy9. unfold is_u16 in Hy.
  pose proof (time_days_in_month_range (month d) (year d) Hm).
  unfold time_format_datetime, time_format_date, time_format_time.
  destruct (d4_spec (year d)) as (y1 & y2 & y3 & y4 & -> & ? & ? & ? & ? & Ey); [lia|].
  destruct (d2_spec (month d)) as (m1 & m2 & -> & ? & ? & Em); [lia|].
  destruct (d2_spec (day d)) as (a1 & a2 & -> & ? & ? & Ea); [lia|].
  destruct (d2_spec (hour d)) as (h1 & h2 & -> & ? & ? & Eh); [lia|].
  destruct (d2_spec (minute d)) as (n1 & n2 & -> & ? & ? & En); [lia|].
  destruct (d2_spec (second d)) as (s1 & s2 & -> & ? & ? & Es); [lia|].
  rewrite !until_zero_id by (repeat constructor; lia). eexists. split; [reflexivity|]. split; [reflexivity|].
  unfold parse_datetime, at_. cbn [nth app]. rewrite !digit_char by done.
  rewrite <- Ey, <- Em, <- Ea, <- Eh, <- En, <- Es.
  rewrite u16_small, !u8_small by (unfold is_u8, is_u16; lia). by destruct d.
Qed.

(** The text [time_format_datetime] writes for a valid date up to year 9999
    is 19 characters, and [time_set_from_str] accepts it and sets the clock
    to exactly that date (and, from 1900 on, the chip too). *)
Theorem datetime_text_roundtrip (d : datetime) (c : clock) :
  dt_valid d → year d ≤ 9999 →
  ∃ s, time_format_datetime 64 d = Some s ∧ length s = 19%nat
    ∧ fst (time_set_from_str s c) = true
    ∧ current_datetime (snd (time_set_from_str s c)) = d
    ∧ (rtc_24h (cmos c) → 1900 ≤ year d → rtc_get_datetime (cmos (snd (time_set_from_str s c))) = d).
Proof.
  intros Hv Hy. destruct (parse_format d Hv Hy) as (s & Hs & Hl & Hp). exists s.
  unfold time_set_from_str. rewrite Hl, Hp, (proj2 Hv). cbn [fst snd Z.of_nat Z.ltb]. 
  split_and!; try done. intros H24 H19. by destruct (write_rtc_spec (set_datetime d c)).
Qed.

Lemma datetime_text_roundtrip_witness :
  ∃ s, time_format_datetime 64 (mk_dt 2024 2 29 7 5 9) = Some s ∧ s = txt "2024-02-29 07:05:09"
    ∧ current_datetime (snd (time_set_from_str s witness_clock)) = mk_dt 2024 2 29 7 5 9.
Proof.
  destruct (datetime_text_roundtrip (mk_dt 2024 2 29 7 5 9) witness_clock) as (s & Hs & _ & _ & Hc & _);
    [by apply (bool_decide_unpack _); vm_compute|simpl; lia|].
  exists s. split; [exact Hs|]. split; [|exact Hc]. vm_compute in Hs. injection Hs as <-. reflexivity.
Defined.

(** [time_set_from_str_if_newer] moves the clock exactly when the text has
    19 characters, denotes a valid date and that date is strictly later than
    the clock's; otherwise it returns false and changes nothing. *)
Theorem time_set_if_newer_correct (s : list Z) (c : clock) :
  dt_valid (current_datetime c) →
  if decide ((19 ≤ length s)%nat ∧ time_validate_datetime (parse_datetime s) = true
             ∧ abs_seconds (current_datetime c) < abs_seconds (parse_datetime s))
  then time_set_from_str_if_newer s c = (true, write_rtc_if_needed (set_datetime (parse_datetime s) c))
  else time_set_from_str_if_newer s c = (false, c).
Proof.
  intros Hc. unfold time_set_from_str_if_newer.
  assert (dt_typed (parse_datetime s)) as Ht.
  { unfold dt_typed, parse_datetime. simpl. eauto 10 with cint. }
  destruct (Z.ltb_spec (Z.of_nat (length s)) 19); [by rewrite decide_False by lia|].
  destruct (time_validate_datetime (parse_datetime s)) eqn:Hv; simpl; [|by rewrite decide_False by naive_solver].
  rewrite is_newer_spec by done.
  destruct (Z.ltb_spec (abs_seconds (current_datetime c)) (abs_seconds (parse_datetime s))).
  - by rewrite decide_True by (split_and!; done || lia).
  - by rewrite decide_False by lia.
Qed.

Lemma time_set_if_newer_correct_witness :
  ∃ c', time_set_from_str_if_newer (txt "2024-03-01 00:00:00")
          (set_datetime (mk_dt 2024 2 29 23 59 59) witness_clock) = (true, c')
    ∧ current_datetime c' = mk_dt 2024 3 1 0 0 0.
Proof.
  pose proof (time_set_if_newer_correct (txt "2024-03-01 00:00:00")
                (set_datetime (mk_dt 2024 2 29 23 59 59) witness_clock)) as H.
  rewrite decide_True in H by (split_and!; vm_compute; [lia|reflexivity|reflexivity]).
  eexists. split; [apply H; by apply (bool_decide_unpack _); vm_compute|vm_compute; reflexivity].
Defined.

(** ** Behaviour that is not what was meant *)

(** [time_set_from_str] stores the parsed fields before it validates them: a
    refused text leaves an impossible date in the clock. *)
Lemma time_set_from_str_clobbers :
  time_set_from_str (txt "2024-02-31 00:00:00") witness_clock
  = (false, set_datetime (mk_dt 2024 2 31 0 0 0) witness_clock).
Proof. reflexivity. Qed.

(** In 12-hour BCD mode the hour is decoded twice, and bit 7 is lost in the
    first decoding: 12 PM, stored as 0x92, reads as hour 62. *)
Lemma rtc_hours_12h_wrong :
  rtc_hours (λ r, if r =? RTC_HOURS then 0x92 else 0) = 62.
Proof. reflexivity. Qed.

(** In BCD mode status register B goes through the BCD decoder as well: with
    the update interrupt enabled (0x12, 24-hour mode) it reads 12, whose bit 1
    is clear, and 12:00 is taken for a 12-hour clock's midnight. *)
Lemma rtc_hours_status_decoded :
  rtc_hours (λ r, if r =? RTC_HOURS then 0x12 else if r =? RTC_STATUS_B then 0x12 else 0) = 0.
Proof. reflexivity. Qed.

(** ** Durations *)

(** The two ways the code splits milliseconds agree, and lose nothing. *)
Theorem duration_split ms :
  0 ≤ ms →
  let d := time_ms_to_duration ms in
  uptime_parts ms = (d_days d, d_hours d, d_minutes d, d_seconds d)
  ∧ ms = (((d_days d * 24 + d_hours d) * 60 + d_minutes d) * 60 + d_seconds d) * 1000 + d_milliseconds d
  ∧ 0 ≤ d_hours d < 24 ∧ 0 ≤ d_minutes d < 60 ∧ 0 ≤ d_seconds d < 60 ∧ 0 ≤ d_milliseconds d < 1000.
Proof.
  intros Hms. unfold time_ms_to_duration, uptime_parts. simpl.
  split; [|split_and!; Z.div_mod_to_equations; lia].
  repeat apply (f_equal2 pair); Z.div_mod_to_equations; lia.
Qed.
