(* ===== verification/Boot.v ===== *)
(** * Boot information ([src/impl/kernel/memlayout.c],
    [src/impl/kernel/multiboot2parse.c])

    The multiboot2 structure GRUB leaves in memory: its tags, the kernel
    command line, the framebuffer tag, the boot modules, the memory map, and
    the two decisions made from the map, which range of RAM the heap gets
    and which identity-mapped pages are never cached. Memory is a function
    from addresses to bytes, the structure starts at [mb]; it lies below
    2^63, so pointer arithmetic does not wrap. *)

From S2P Require Import Prelude CString.

Open Scope c_scope.

(** ** The structure *)

Definition total_size (m : Z → Z) (mb : Z) : Z := load32 m mb.
Definition tag_type (m : Z → Z) (tag : Z) : Z := load32 m tag.
Definition tag_size (m : Z → Z) (tag : Z) : Z := load32 m (tag + 4).
Definition entry_size (m : Z → Z) (tag : Z) : Z := load32 m (tag + 8).
Definition mod_start (m : Z → Z) (tag : Z) : Z := load32 m (tag + 8).
Definition mod_end (m : Z → Z) (tag : Z) : Z := load32 m (tag + 12).
Definition ent_base (m : Z → Z) (e : Z) : Z := load64 m e.
Definition ent_length (m : Z → Z) (e : Z) : Z := load64 m (e + 8).
Definition ent_type (m : Z → Z) (e : Z) : Z := load32 m (e + 16).

Definition MB2_TAG_MODULE : Z := 3.
Definition MB2_TAG_MMAP : Z := 6.
Definition MB2_MEM_AVAILABLE : Z := 1.
Definition MB2_MEM_ACPI_RECLAIMABLE : Z := 3.
Definition MB2_MEM_ACPI_NVS : Z := 4.
Definition MB_COPY_SIZE : Z := 65536.

Definition memlayout_save_multiboot (m : Z → Z) (mb g_mb_copy : Z) : Z * (Z → Z) :=
  if (mb =? 0) || (total_size m mb <? 8) || (MB_COPY_SIZE <? total_size m mb) then (mb, m)
  else (g_mb_copy, memcpy m g_mb_copy mb (total_size m mb)).

(** [(size + 7u) & ~7u] in 32 bits: 0 for a size above 2^32 - 8. *)
Definition tag_advance (size : Z) : Z := Z.land (u32 (size + 7)) 4294967288.

(** The callback gets the tag's address and the context; [mem] is the memory
    the context holds, which a callback may write. *)
Fixpoint tag_loop {A : Type} (fuel : nat) (mem : A → Z → Z) (type : Z) (fn : Z → A → outcome A)
    (cursor fin : Z) (ctx : A) : outcome A :=
  match fuel with
  | O => Hang
  | S fuel' =>
      if negb (cursor + 8 <=? fin) then Ret ctx
      else if (tag_type (mem ctx) cursor =? 0) || (tag_size (mem ctx) cursor <? 8) then Ret ctx
      else
        let* ctx := (if tag_type (mem ctx) cursor =? type then fn cursor ctx else Ret ctx) in
        tag_loop fuel' mem type fn (cursor + tag_advance (tag_size (mem ctx) cursor)) fin ctx
  end.

(** A tag takes at least 8 bytes, so [total_size / 8] steps are enough. *)
Definition for_each_tag {A : Type} (mem : A → Z → Z) (mb type : Z) (fn : Z → A → outcome A) (ctx : A) :
    outcome A :=
  if mb =? 0 then Ret ctx
  else
    let size := total_size (mem ctx) mb in
    tag_loop (S (Z.to_nat (size / 8))) mem type fn (mb + 8) (mb + size) ctx.

(** ** Modules *)

Fixpoint word_end (fuel : nat) (m : Z → Z) (p : Z) : outcome Z :=
  match fuel with
  | O => Hang
  | S fuel' => if negb (m p =? 0) && negb (m p =? 32) then word_end fuel' m (p + 1) else Ret p
  end.

Definition module_name_matches (fuel : nat) (m : Z → Z) (cmdline name : Z) : outcome bool :=
  let* n := strlen fuel m name in
  let* we := word_end fuel m cmdline in
  let len := we - cmdline in
  if (len =? n) && (strncmp m cmdline name (Z.to_nat n) =? 0) then Ret true
  else if (n <? len) && (m (cmdline + len - n - 1) =? 47)
          && (strncmp m (cmdline + len - n) name (Z.to_nat n) =? 0) then Ret true
  else Ret false.

(** [module_find_t], with the memory [out] is in. *)
Record module_find := mk_find { f_mem : Z → Z; f_found : bool; f_index : Z }.

Definition module_find_cb (fuel : nat) (name out want_index : Z) (tag : Z) (f : module_find) :
    outcome module_find :=
  let m := f_mem f in
  let idx := f_index f in
  let f1 := mk_find m (f_found f) (u32 (idx + 1)) in
  if f_found f then Ret f1
  else
    let* hit := (if negb (name =? 0) then module_name_matches fuel m (tag + 16) name
                 else Ret (idx =? want_index)) in
    if negb hit then Ret f1
    else
      let m := store64 m out (mod_start m tag) in
      let m := store64 m (out + 8) (mod_end m tag) in
      let m := snd (strncpy m (out + 16) (tag + 16) 127) in
      let m := store8 m (out + 16 + 127) 0 in
      Ret (mk_find m true (u32 (idx + 1))).

(** [sizeof(memlayout_module_t)] *)
Definition MODULE_T : Z := 144.

Definition memlayout_find_module (fuel : nat) (m : Z → Z) (mb name out : Z) : outcome (bool * (Z → Z)) :=
  if (out =? 0) || (name =? 0) then Ret (false, m)
  else
    let m := memset m out 0 MODULE_T in
    let* f := for_each_tag f_mem mb MB2_TAG_MODULE (module_find_cb fuel name out 0) (mk_find m false 0) in
    Ret (f_found f, f_mem f).

Definition memlayout_get_module (fuel : nat) (m : Z → Z) (mb index out : Z) : outcome (bool * (Z → Z)) :=
  if out =? 0 then Ret (false, m)
  else
    let m := memset m out 0 MODULE_T in
    let* f := for_each_tag f_mem mb MB2_TAG_MODULE (module_find_cb fuel 0 out index) (mk_find m false 0) in
    Ret (f_found f, f_mem f).

(** ** The heap region *)

Definition MAX_RESERVED : Z := 24.

(** [pick_t]; [reserved] holds the first [reserved_count] ranges. *)
Record pick := mk_pick { reserved : list (Z * Z); limit : Z; best_start : Z; best_end : Z }.

(** [(x + 0xFFF) & ~0xFFFull] and [x & ~0xFFFull] *)
Definition page_up (x : Z) : Z := Z.land (u64 (x + 4095)) 18446744073709547520.
Definition page_down (x : Z) : Z := Z.land x 18446744073709547520.

Definition reserve_module_cb (m : Z → Z) (tag : Z) (p : pick) : outcome pick :=
  if Z.of_nat (length (reserved p)) <? MAX_RESERVED
  then Ret (mk_pick (reserved p ++ [(page_down (mod_start m tag), page_up (mod_end m tag))])
              (limit p) (best_start p) (best_end p))
  else Ret p.

(** The test of the loop in [consider], negated: the range overlaps. *)
Definition meets (start fin : Z) (r : Z * Z) : bool := negb ((snd r <=? start) || (fin <=? fst r)).

(** The loop stops at the first range that overlaps. The fuel bounds the
    depth of the recursion: neither part overlaps that range again. *)
Fixpoint consider (fuel : nat) (p : pick) (start fin : Z) : outcome pick :=
  match fuel with
  | O => Hang
  | S fuel' =>
      let start := page_up start in
      let fin := page_down fin in
      if fin <=? start then Ret p
      else
        match List.find (meets start fin) (reserved p) with
        | Some r =>
            let* p := consider fuel' p start (fst r) in
            consider fuel' p (snd r) fin
        | None =>
            if u64 (best_end p - best_start p) <? fin - start
            then Ret (mk_pick (reserved p) (limit p) start fin)
            else Ret p
        end
  end.

(** The loop both memory-map callbacks have; an entry takes at least 24
    bytes. *)
Fixpoint entry_loop {A : Type} (fuel : nat) (size fin : Z) (body : Z → A → outcome A) (e : Z) (ctx : A) :
    outcome A :=
  match fuel with
  | O => Hang
  | S fuel' =>
      if negb (e + size <=? fin) then Ret ctx
      else
        let* ctx := body e ctx in
        entry_loop fuel' size fin body (e + size) ctx
  end.

Definition for_each_entry {A : Type} (m : Z → Z) (body : Z → A → outcome A) (tag : Z) (ctx : A) : outcome A :=
  if entry_size m tag <? 24 then Ret ctx
  else entry_loop (S (Z.to_nat (tag_size m tag / entry_size m tag))) (entry_size m tag)
         (tag + tag_size m tag) body (tag + 16) ctx.

Definition pick_entry (m : Z → Z) (e : Z) (p : pick) : outcome pick :=
  if negb (ent_type m e =? MB2_MEM_AVAILABLE) then Ret p
  else
    let s := ent_base m e in
    let x := u64 (ent_base m e + ent_length m e) in
    let x := if limit p <? x then limit p else x in
    if s <? x then consider (S (S (length (reserved p)))) p s x else Ret p.

Definition mmap_pick_cb (m : Z → Z) (tag : Z) (p : pick) : outcome pick := for_each_entry m (pick_entry m) tag p.

Definition IDENTITY_MAP_GIB : Z := 4.

(** [None] is [false]; otherwise the range stored through [start] and [end]. *)
Definition memlayout_pick_heap_region (m : Z → Z) (mb kernel_end : Z) : outcome (option (Z * Z)) :=
  let p := mk_pick [(0, page_up kernel_end)] (Z.shiftl IDENTITY_MAP_GIB 30) 0 0 in
  let* p := for_each_tag (λ _, m) mb MB2_TAG_MODULE (reserve_module_cb m) p in
  let* p := for_each_tag (λ _, m) mb MB2_TAG_MMAP (mmap_pick_cb m) p in
  if best_end p <=? best_start p then Ret None else Ret (Some (best_start p, best_end p)).

(** ** Cache policy *)

(** One flag per 2 MiB page of the identity map. *)
Definition RAM_PAGES : Z := IDENTITY_MAP_GIB * 512.

Fixpoint mark_ram (fuel : nat) (i last : Z) (ram : list bool) : outcome (list bool) :=
  match fuel with
  | O => Hang
  | S fuel' =>
      if (i <=? last) && (i <? RAM_PAGES) then
        let* ram := oset ram i true in
        mark_ram fuel' (u64 (i + 1)) last ram
      else Ret ram
  end.

Definition cache_entry (m : Z → Z) (e : Z) (ram : list bool) : outcome (list bool) :=
  if negb (ent_type m e =? MB2_MEM_AVAILABLE) && negb (ent_type m e =? MB2_MEM_ACPI_RECLAIMABLE)
     && negb (ent_type m e =? MB2_MEM_ACPI_NVS) then Ret ram
  else if ent_length m e =? 0 then Ret ram
  else
    let first := Z.shiftr (ent_base m e) 21 in
    let last := Z.shiftr (u64 (ent_base m e + ent_length m e - 1)) 21 in
    mark_ram (S (Z.to_nat RAM_PAGES)) first last ram.

Definition mmap_cache_cb (m : Z → Z) (tag : Z) (ram : list bool) : outcome (list bool) :=
  for_each_entry m (cache_entry m) tag ram.

(** The new [page_table_l2] and the number of pages marked. PWT and PCD are
    bits 3 and 4. *)
Definition uncache (f : bool) (entry : Z) : Z := if f then entry else Z.lor entry 24.

Definition memlayout_apply_cache_policy (m : Z → Z) (mb : Z) (page_table_l2 : list Z) :
    outcome (list Z * Z) :=
  let* ram := for_each_tag (λ _, m) mb MB2_TAG_MMAP (mmap_cache_cb m) (replicate (Z.to_nat RAM_PAGES) false) in
  let* ram := oset ram 0 true in
  Ret (zip_with uncache ram page_table_l2, Z.of_nat (length (filter (λ f, f = false) ram))).

(** ** Total memory ([multiboot2parse.c]) *)

Fixpoint sum_entries (n : nat) (m : Z → Z) (e total : Z) : Z :=
  match n with
  | O => total
  | S n' =>
      sum_entries n' m (e + 24)
        (if ent_type m e =? MB2_MEM_AVAILABLE then u64 (total + ent_length m e) else total)
  end.

Fixpoint total_loop (fuel : nat) (m : Z → Z) (ptr fin total : Z) : outcome Z :=
  match fuel with
  | O => Hang
  | S fuel' =>
      if negb (ptr <? fin) then Ret total
      else if tag_type m ptr =? 0 then Ret total
      else
        let* total :=
          (if tag_type m ptr =? 6 then
             if entry_size m ptr =? 0 then Undef
             else Ret (sum_entries (Z.to_nat (u64 (tag_size m ptr - 16) / entry_size m ptr)) m (ptr + 16) total)
           else Ret total) in
        total_loop fuel' m (ptr + tag_advance (tag_size m ptr)) fin total
  end.

Definition get_total_memory (m : Z → Z) (mb : Z) : outcome Z :=
  total_loop (S (Z.to_nat (total_size m mb / 8))) m (mb + 8) (mb + total_size m mb) 0.

(** ** Bounded tag search: framebuffer and command line *)

(** [((uintptr_t)tag->size + 7) & ~(uintptr_t)7] *)
Definition tag_advance64 (size : Z) : Z := Z.land (size + 7) 18446744073709551608.

(** The loop of the three functions below: the first tag of the type, or
    none when the list ends or a tag does not fit. *)
Fixpoint find_tag (fuel : nat) (m : Z → Z) (type cursor fin : Z) : outcome (option Z) :=
  match fuel with
  | O => Hang
  | S fuel' =>
      if negb ((cursor <=? fin) && (8 <=? fin - cursor)) then Ret None
      else if (tag_size m cursor <? 8) || (fin - cursor <? tag_size m cursor) then Ret None
      else if tag_type m cursor =? 0 then Ret None
      else if tag_type m cursor =? type then Ret (Some cursor)
      else
        let advance := tag_advance64 (tag_size m cursor) in
        if fin - cursor <? advance then Ret None
        else find_tag fuel' m type (cursor + advance) fin
  end.

Definition search (m : Z → Z) (mb type : Z) : outcome (option Z) :=
  find_tag (S (Z.to_nat (total_size m mb / 8))) m type (mb + 8) (mb + total_size m mb).

Definition UINTPTR_MAX : Z := 18446744073709551615.

(** The fields of [multiboot2_framebuffer_info_t] in order. *)
Definition fb_fields (m : Z → Z) (tag : Z) : list Z :=
  [load64 m (tag + 8); load32 m (tag + 16); load32 m (tag + 20); load32 m (tag + 24); m (tag + 28);
   m (tag + 29); m (tag + 32); m (tag + 33); m (tag + 34); m (tag + 35); m (tag + 36); m (tag + 37)].

Definition multiboot2_get_framebuffer (m : Z → Z) (mb : Z) : outcome (option (list Z)) :=
  if (mb =? 0) || (total_size m mb <? 8) then Ret None
  else if UINTPTR_MAX - mb <? total_size m mb then Ret None
  else
    let* t := search m mb 8 in
    match t with
    | None => Ret None
    | Some tag =>
        if tag_size m tag <? 38 then Ret None
        else if negb (m (tag + 29) =? 1) then Ret None
        else Ret (Some (fb_fields m tag))
    end.

Definition cmdline_is_space (c : Z) : bool := (c =? 32) || (c =? 9) || (c =? 13) || (c =? 10).

(** [while (pos < length && space) pos++] *)
Fixpoint skip_spaces (fuel : nat) (m : Z → Z) (line len pos : Z) : outcome Z :=
  match fuel with
  | O => Hang
  | S fuel' =>
      if (pos <? len) && cmdline_is_space (m (line + pos)) then skip_spaces fuel' m line len (pos + 1)
      else Ret pos
  end.

(** [while (pos < length && line[pos] && !space) pos++] *)
Fixpoint skip_word (fuel : nat) (m : Z → Z) (line len pos : Z) : outcome Z :=
  match fuel with
  | O => Hang
  | S fuel' =>
      if (pos <? len) && negb (m (line + pos) =? 0) && negb (cmdline_is_space (m (line + pos)))
      then skip_word fuel' m line len (pos + 1)
      else Ret pos
  end.

(** [while (i < n && line[a + i] == key[i]) i++], then [i == n]. *)
Fixpoint same_bytes (n : nat) (m : Z → Z) (a b : Z) : bool :=
  match n with
  | O => true
  | S n' => if m a =? m b then same_bytes n' m (a + 1) (b + 1) else false
  end.

(** The word loop of both command-line functions: the first word the test
    accepts, as its start and end. *)
Fixpoint find_word (fuel : nat) (m : Z → Z) (test : Z → Z → bool) (line len pos : Z) :
    outcome (option (Z * Z)) :=
  match fuel with
  | O => Hang
  | S fuel' =>
      if negb ((pos <? len) && negb (m (line + pos) =? 0)) then Ret None
      else
        let* word := skip_spaces fuel m line len pos in
        let* pos := skip_word fuel m line len word in
        if test word pos then Ret (Some (word, pos))
        else find_word fuel' m test line len pos
  end.

(** [token_length] is the length of the string at [token]. *)
Definition multiboot2_has_cmdline_token (fuel : nat) (m : Z → Z) (mb token : Z) : outcome bool :=
  if (mb =? 0) || (token =? 0) then Ret false
  else if (m token =? 0) || (total_size m mb <? 8) then Ret false
  else
    let* token_length := strlen fuel m token in
    if UINTPTR_MAX - mb <? total_size m mb then Ret false
    else
      let* t := search m mb 1 in
      match t with
      | None => Ret false
      | Some tag =>
          let len := tag_size m tag - 8 in
          let* w := find_word (S (Z.to_nat len)) m
            (λ a b, (b - a =? token_length) && same_bytes (Z.to_nat token_length) m (tag + 8 + a) token)
            (tag + 8) len 0 in
          Ret (match w with Some _ => true | None => false end)
      end.

(** [for (j = ...; j < pos && o + 1 < out_size; j++) out[o++] = line[j]] *)
Fixpoint copy_value (n : nat) (m : Z → Z) (src out : Z) : Z → Z :=
  match n with O => m | S n' => copy_value n' (store8 m out (m src)) (src + 1) (out + 1) end.

Definition multiboot2_get_cmdline_value (fuel : nat) (m : Z → Z) (mb key out out_size : Z) :
    outcome (bool * (Z → Z)) :=
  if (mb =? 0) || (key =? 0) || (out =? 0) || (out_size =? 0) then Ret (false, m)
  else
    let m := store8 m out 0 in
    let* key_length := strlen fuel m key in
    let* t := search m mb 1 in
    match t with
    | None => Ret (false, m)
    | Some tag =>
        let line := tag + 8 in
        let len := tag_size m tag - 8 in
        let* w := find_word (S (Z.to_nat len)) m
          (λ a b, (key_length <? b - a) && same_bytes (Z.to_nat key_length) m (line + a) key) line len 0 in
        match w with
        | None => Ret (false, m)
        | Some (word, pos) =>
            let n := Z.min (pos - (word + key_length)) (out_size - 1) in
            let m := copy_value (Z.to_nat n) m (line + word + key_length) out in
            Ret (true, store8 m (out + n) 0)
        end
    end.

(** ** The tags and entries the loops visit *)

(** A loop over a list with a body that may not return. *)
Fixpoint ofold {A B : Type} (f : B → A → outcome A) (l : list B) (ctx : A) : outcome A :=
  match l with
  | [] => Ret ctx
  | x :: l' => let* ctx := f x ctx in ofold f l' ctx
  end.

Lemma ofold_app {A B} (f : B → A → outcome A) l1 l2 ctx :
  ofold f (l1 ++ l2) ctx = (let* c := ofold f l1 ctx in ofold f l2 c).
Proof.
  revert ctx. induction l1 as [|x l1 IH]; intros ctx; simpl; [done|].
  destruct (f x ctx); simpl; [apply IH|done..].
Qed.

(** The loop invariant rule. *)
Lemma ofold_inv {A B} (P : list B → A → Prop) (f : B → A → outcome A) l :
  (∀ done x ctx, x ∈ l → P done ctx → ∃ ctx', f x ctx = Ret ctx' ∧ P (done ++ [x]) ctx') →
  ∀ ctx, P [] ctx → ∃ ctx', ofold f l ctx = Ret ctx' ∧ P l ctx'.
Proof.
  intros Hf. assert (∀ don rest ctx, (∀ x, x ∈ rest → x ∈ l) → P don ctx →
    ∃ ctx', ofold f rest ctx = Ret ctx' ∧ P (don ++ rest) ctx') as H.
  { intros don rest. revert don. induction rest as [|x rest IH]; intros don ctx Hin HP; simpl.
    { exists ctx. by rewrite app_nil_r. }
    destruct (Hf don x ctx) as (c1 & -> & H1); [apply Hin; set_solver|done|]. simpl.
    destruct (IH (don ++ [x]) c1) as (c2 & -> & H2); [set_solver|done|].
    exists c2. by rewrite <- app_assoc in H2. }
  intros ctx HP. by apply (H [] l ctx).
Qed.

(** The addresses of the tags from [cursor] on, up to the end tag, the end of
    the structure or a tag shorter than its header. *)
Fixpoint tags (fuel : nat) (m : Z → Z) (cursor fin : Z) : outcome (list Z) :=
  match fuel with
  | O => Hang
  | S fuel' =>
      if negb (cursor + 8 <=? fin) then Ret []
      else if (tag_type m cursor =? 0) || (tag_size m cursor <? 8) then Ret []
      else let* l := tags fuel' m (cursor + tag_advance (tag_size m cursor)) fin in Ret (cursor :: l)
  end.
Definition boot_tags (m : Z → Z) (mb : Z) : outcome (list Z) :=
  tags (S (Z.to_nat (total_size m mb / 8))) m (mb + 8) (mb + total_size m mb).
Definition tags_of (m : Z → Z) (type : Z) (l : list Z) : list Z := filter (λ a, tag_type m a = type) l.

Lemma tag_loop_tags {A} m type (fn : Z → A → outcome A) fuel cursor fin l : ∀ ctx,
  tags fuel m cursor fin = Ret l →
  tag_loop fuel (λ _, m) type fn cursor fin ctx = ofold fn (tags_of m type l) ctx.
Proof.
  revert cursor l. induction fuel as [|fuel IH]; intros cursor l ctx Ht; simpl in Ht |- *; [done|].
  destruct (negb (cursor + 8 <=? fin)); [by injection Ht as <-|].
  destruct ((tag_type m cursor =? 0) || _); [by injection Ht as <-|].
  apply obind_ret_inv in Ht as (l' & Hl' & [= <-]). unfold tags_of. rewrite filter_cons.
  destruct (Z.eqb_spec (tag_type m cursor) type); [rewrite decide_True by done|rewrite decide_False by done].
  - simpl. destruct (fn cursor ctx); simpl; [|done..]. by apply IH.
  - by apply IH.
Qed.

Lemma for_each_tag_tags {A} m mb type (fn : Z → A → outcome A) l ctx :
  mb ≠ 0 → boot_tags m mb = Ret l →
  for_each_tag (λ _, m) mb type fn ctx = ofold fn (tags_of m type l) ctx.
Proof.
  intros Hmb Hl. unfold for_each_tag. rewrite (proj2 (Z.eqb_neq _ _) Hmb). by apply tag_loop_tags.
Qed.

(** The entries of a memory-map tag. *)
Definition entries (m : Z → Z) (tag : Z) : list Z :=
  if entry_size m tag <? 24 then []
  else (λ k, tag + 16 + k * entry_size m tag) <$> seqZ 0 ((tag_size m tag - 16) / entry_size m tag).

Lemma entry_loop_seq {A} (body : Z → A → outcome A) size fin e0 fuel : ∀ k ctx,
  0 < size → 0 ≤ k → (Z.to_nat ((fin - e0) / size - k) < fuel)%nat →
  entry_loop fuel size fin body (e0 + k * size) ctx
  = ofold body ((λ i, e0 + i * size) <$> seqZ k ((fin - e0) / size - k)) ctx.
Proof.
  induction fuel as [|fuel IH]; intros k ctx Hs Hk Hf; [lia|]. simpl.
  destruct (Z.leb_spec (e0 + k * size + size) fin) as [Hle|Hgt]; simpl.
  - assert (k < (fin - e0) / size) by (apply Z.lt_le_trans with (k + 1); [lia|]; apply Z.div_le_lower_bound; lia).
    rewrite seqZ_cons by lia. simpl. destruct (body (e0 + k * size) ctx) as [ctx'| | |]; simpl; [|done..].
    replace (e0 + k * size + size) with (e0 + (k + 1) * size) by lia. rewrite IH by lia.
    unfold Z.succ. do 3 f_equal. lia.
  - assert ((fin - e0) / size < k + 1) by (apply Z.div_lt_upper_bound; lia).
    by rewrite seqZ_nil by lia.
Qed.

Lemma for_each_entry_entries {A} m (body : Z → A → outcome A) tag ctx :
  for_each_entry m body tag ctx = ofold body (entries m tag) ctx.
Proof.
  unfold for_each_entry, entries. destruct (Z.ltb_spec (entry_size m tag) 24) as [|Hs]; [done|].
  pose proof (entry_loop_seq body (entry_size m tag) (tag + tag_size m tag) (tag + 16)
    (S (Z.to_nat (tag_size m tag / entry_size m tag))) 0 ctx) as H.
  rewrite Z.mul_0_l, Z.add_0_r in H. rewrite H; [| lia | lia |].
  - rewrite Z.sub_0_r. do 3 f_equal. f_equal. lia.
  - replace (tag + tag_size m tag - (tag + 16)) with (tag_size m tag - 16) by lia.
    assert ((tag_size m tag - 16) / entry_size m tag ≤ tag_size m tag / entry_size m tag) by (apply Z.div_le_mono; lia).
    lia.
Qed.

(** All entries of all memory-map tags, in the order they are visited. *)
Definition map_entries (m : Z → Z) (l : list Z) : list Z := tags_of m MB2_TAG_MMAP l ≫= entries m.

Lemma for_each_map_entry {A} m mb (body : Z → A → outcome A) l ctx :
  mb ≠ 0 → boot_tags m mb = Ret l →
  for_each_tag (λ _, m) mb MB2_TAG_MMAP (for_each_entry m body) ctx = ofold body (map_entries m l) ctx.
Proof.
  intros Hmb Hl. rewrite (for_each_tag_tags m mb _ _ l) by done. unfold map_entries. clear Hl.
  revert ctx. induction (tags_of m MB2_TAG_MMAP l) as [|t ts IH]; intros ctx; simpl; [done|].
  rewrite ofold_app, for_each_entry_entries. destruct (ofold body (entries m t) ctx); simpl; [apply IH|done..].
Qed.

(** ** The heap region is the largest free piece *)

Definition page_aligned (x : Z) : Prop := x mod 4096 = 0.

Lemma page_down_eq x : 0 ≤ x < 2 ^ 64 → page_down x = x / 4096 * 4096.
Proof.
  intros. unfold page_down. change 18446744073709547520 with (u64 (Z.lnot (2 ^ 12 - 1))). by rewrite mask_pow2 by lia.
Qed.
Lemma page_up_eq x : 0 ≤ x < 2 ^ 63 → page_up x = (x + 4095) / 4096 * 4096.
Proof.
  intros. unfold page_up. rewrite u64_small by (unfold is_u64; lia).
  change 18446744073709547520 with (u64 (Z.lnot (2 ^ 12 - 1))). by rewrite mask_pow2 by lia.
Qed.
Lemma page_down_id x : 0 ≤ x < 2 ^ 64 → page_aligned x → page_down x = x.
Proof. intros Hx Ha. rewrite page_down_eq by done. unfold page_aligned in Ha. Z.div_mod_to_equations. lia. Qed.
Lemma page_up_id x : 0 ≤ x < 2 ^ 63 → page_aligned x → page_up x = x.
Proof. intros Hx Ha. rewrite page_up_eq by done. unfold page_aligned in Ha. Z.div_mod_to_equations. lia. Qed.

(** An aligned address is beyond a rounded one exactly when it is beyond the
    address itself. *)
Lemma page_up_le x a : 0 ≤ x < 2 ^ 63 → page_aligned a → page_up x ≤ a ↔ x ≤ a.
Proof. intros Hx Ha. rewrite page_up_eq by done. unfold page_aligned in Ha. split; Z.div_mod_to_equations; lia. Qed.
Lemma page_down_ge x a : 0 ≤ x < 2 ^ 64 → page_aligned a → a ≤ page_down x ↔ a ≤ x.
Proof. intros Hx Ha. rewrite page_down_eq by done. unfold page_aligned in Ha. split; Z.div_mod_to_equations; lia. Qed.
Lemma page_up_aligned x : 0 ≤ x < 2 ^ 63 → page_aligned (page_up x).
Proof. intros. rewrite page_up_eq by done. unfold page_aligned. by rewrite Z.mod_mul by lia. Qed.
Lemma page_down_aligned x : 0 ≤ x < 2 ^ 64 → page_aligned (page_down x).
Proof. intros. rewrite page_down_eq by done. unfold page_aligned. by rewrite Z.mod_mul by lia. Qed.
Lemma page_up_range x : 0 ≤ x < 2 ^ 63 → x ≤ page_up x < x + 4096.
Proof. intros. rewrite page_up_eq by done. Z.div_mod_to_equations. lia. Qed.
Lemma page_down_range x : 0 ≤ x < 2 ^ 64 → x - 4096 < page_down x ≤ x.
Proof. intros. rewrite page_down_eq by done. Z.div_mod_to_equations. lia. Qed.

(** [r] leaves [[a, b)] alone. *)
Definition avoids (a b : Z) (r : Z * Z) : Prop := snd r ≤ a ∨ b ≤ fst r.
(** An aligned, non-empty piece of [[s, e)] that avoids every range. *)
Definition piece (rs : list (Z * Z)) (s e a b : Z) : Prop :=
  s ≤ a ∧ a < b ∧ b ≤ e ∧ page_aligned a ∧ page_aligned b ∧ Forall (avoids a b) rs.
Definition range_ok (r : Z * Z) : Prop :=
  0 ≤ fst r < 2 ^ 62 ∧ 0 ≤ snd r < 2 ^ 63 ∧ page_aligned (fst r) ∧ page_aligned (snd r).

Definition best (p : pick) : Z := best_end p - best_start p.
(** From [p] to [p'] over the candidates [C]: nothing but the best changes,
    the best is the old one or a candidate, and none is larger. *)
Definition improves (C : Z → Z → Prop) (p p' : pick) : Prop :=
  reserved p' = reserved p ∧ limit p' = limit p ∧ best p ≤ best p'
  ∧ (best_start p' = best_start p ∧ best_end p' = best_end p ∨ C (best_start p') (best_end p'))
  ∧ ∀ a b, C a b → b - a ≤ best p'.

Lemma improves_trans (C1 C2 : Z → Z → Prop) p1 p2 p3 :
  improves C1 p1 p2 → improves C2 p2 p3 → improves (λ a b, C1 a b ∨ C2 a b) p1 p3.
Proof.
  intros (R1 & L1 & B1 & [[S1 E1]|D1] & M1) (R2 & L2 & B2 & D2 & M2); unfold improves;
    split_and!; try congruence; try lia.
  - destruct D2 as [[-> ->]|D2]; [left; split; congruence|right; by right].
  - intros a b [HC|HC]; [specialize (M1 _ _ HC); lia|by apply M2].
  - destruct D2 as [[-> ->]|D2]; [right; by left|right; by right].
  - intros a b [HC|HC]; [specialize (M1 _ _ HC); lia|by apply M2].
Qed.

Lemma improves_ext (C C' : Z → Z → Prop) p p' :
  (∀ a b, C a b ↔ C' a b) → improves C p p' → improves C' p p'.
Proof.
  intros H (R & L & B & D & M). unfold improves. split_and!; try done.
  - destruct D as [?|D]; [by left|right; by apply H].
  - intros a b HC. apply M. by apply H.
Qed.

Lemma improves_none (C : Z → Z → Prop) p : (∀ a b, ¬ C a b) → improves C p p.
Proof.
  intros H. unfold improves. split_and!; try done; [by left|]. intros a b HC. by destruct (H a b).
Qed.

(** The ranges that overlap a piece, and so the fuel, shrink. *)
Definition overlapping (rs : list (Z * Z)) (s e : Z) : nat := length (filter (λ r, meets s e r = true) rs).

Lemma overlapping_lt rs s e s' e' r :
  s ≤ s' → e' ≤ e → r ∈ rs → meets s e r = true → meets s' e' r = false →
  (overlapping rs s' e' < overlapping rs s e)%nat.
Proof.
  intros Hs He Hr Hm Hm'. unfold overlapping.
  assert (∀ x, meets s' e' x = true → meets s e x = true) as Himp.
  { intros x. unfold meets. destruct (Z.leb_spec (snd x) s), (Z.leb_spec (snd x) s'),
      (Z.leb_spec e (fst x)), (Z.leb_spec e' (fst x)); simpl; try done; lia. }
  assert (∀ l, (length (filter (λ r, meets s' e' r = true) l) ≤ length (filter (λ r, meets s e r = true) l))%nat) as Hle.
  { induction l as [|x l IH]; [done|]. rewrite !filter_cons. specialize (Himp x).
    destruct (decide (meets s' e' x = true)); [rewrite decide_True by auto; simpl; lia|].
    destruct (decide (meets s e x = true)); simpl; lia. }
  apply list_elem_of_split in Hr as (l1 & l2 & ->). rewrite !filter_app, !filter_cons, !length_app.
  rewrite Hm, Hm', decide_False, decide_True by done. simpl. pose proof (Hle l1). pose proof (Hle l2). lia.
Qed.

Lemma consider_spec fuel : ∀ p s e,
  Forall range_ok (reserved p) → best_start p ≤ best_end p → best p < 2 ^ 63 →
  0 ≤ s < 2 ^ 63 → 0 ≤ e < 2 ^ 63 →
  (overlapping (reserved p) (page_up s) (page_down e) < fuel)%nat →
  ∃ p', consider fuel p s e = Ret p' ∧ improves (piece (reserved p) s e) p p'
    ∧ best_start p' ≤ best_end p' ∧ best p' < 2 ^ 63.
Proof.
  induction fuel as [|fuel IH]; intros p s e Hr Hb Hb63 Hs He Hf; [lia|]. cbn [consider].
  pose proof (page_up_range s Hs). pose proof (page_down_range e ltac:(lia)).
  pose proof (page_up_aligned s Hs) as Hsa. pose proof (page_down_aligned e ltac:(lia)) as Hea.
  assert (∀ a b, piece (reserved p) s e a b ↔ piece (reserved p) (page_up s) (page_down e) a b) as Hp.
  { intros a b. unfold piece. split; intros (? & ? & ? & Ha & Hb' & ?); split_and!; try done; try lia.
    - by apply page_up_le.
    - apply page_down_ge; [lia|done|done]. }
  revert Hf Hsa Hea Hp. set (s1 := page_up s) in *. set (e1 := page_down e) in *. intros Hf Hsa Hea Hp.
  destruct (Z.leb_spec e1 s1).
  { exists p. split_and!; try done. apply improves_none. intros a b (? & ? & ? & ?)%Hp. lia. }
  destruct (List.find (meets s1 e1) (reserved p)) as [r|] eqn:Hfind.
  - apply find_some in Hfind as [Hin Hm]. apply list_elem_of_In in Hin.
    destruct (proj1 (Forall_forall _ _) Hr r Hin) as (Hr1 & Hr2 & Ha1 & Ha2).
    assert (s1 < snd r ∧ fst r < e1) as [Hlt1 Hlt2].
    { unfold meets in Hm. apply negb_true_iff, orb_false_elim in Hm as [?%Z.leb_gt ?%Z.leb_gt]. done. }
    assert (page_up s1 = s1) as Es by (apply page_up_id; [lia|done]).
    assert (page_down (fst r) = fst r) as Er1 by (apply page_down_id; [lia|done]).
    assert (page_up (snd r) = snd r) as Er2 by (apply page_up_id; [lia|done]).
    assert (page_down e1 = e1) as Ee by (apply page_down_id; [lia|done]).
    destruct (IH p s1 (fst r)) as (p1 & -> & Hi1 & Hb1 & Hb1'); try done; try lia.
    { rewrite Es, Er1. enough (overlapping (reserved p) s1 (fst r) < overlapping (reserved p) s1 e1)%nat by lia.
      apply overlapping_lt with r; try done; try lia. unfold meets. by rewrite Z.leb_refl, orb_true_r. }
    simpl. pose proof (proj1 Hi1) as Hres. destruct (IH p1 (snd r) e1) as (p2 & -> & Hi2 & Hb2 & Hb2'); try done; try lia.
    { by rewrite Hres. }
    { rewrite Hres, Er2, Ee. enough (overlapping (reserved p) (snd r) e1 < overlapping (reserved p) s1 e1)%nat by lia.
      apply overlapping_lt with r; try done; try lia. unfold meets. by rewrite Z.leb_refl. }
    exists p2. split_and!; try done. rewrite Hres in Hi2.
    eapply improves_ext; [|exact (improves_trans _ _ _ _ _ Hi1 Hi2)].
    intros a b. rewrite Hp. unfold piece. split.
    + intros [(? & ? & ? & ?)|(? & ? & ? & ?)]; split_and!; tauto || lia.
    + intros (? & ? & ? & ? & ? & Hav). pose proof (proj1 (Forall_forall _ _) Hav r Hin) as [Hv|Hv].
      * right. split_and!; try done.
      * left. split_and!; try done.
  - assert (Forall (avoids s1 e1) (reserved p)) as Hav.
    { apply Forall_forall. intros r Hin%list_elem_of_In. pose proof (find_none _ _ Hfind r Hin) as Hm.
      unfold meets in Hm. apply negb_false_iff, orb_true_iff in Hm as [?%Z.leb_le|?%Z.leb_le]; [by left|by right]. }
    assert (piece (reserved p) s e s1 e1) as Hpc by (apply Hp; unfold piece; split_and!; done || lia).
    rewrite u64_small by (unfold is_u64, best in *; lia).
    destruct (Z.ltb_spec (best_end p - best_start p) (e1 - s1)).
    + eexists. split; [done|]. unfold improves, best. simpl. split_and!; try done; try lia; try by right.
      intros a b (? & ? & ? & ?)%Hp. lia.
    + eexists. split; [done|]. unfold improves, best in *. simpl. split_and!; try done; try lia; try by left.
      intros a b (? & ? & ? & ?)%Hp. lia.
Qed.

Lemma mload_range n m : bytes m → ∀ a, 0 ≤ mload n m a < 256 ^ Z.of_nat n.
Proof.
  intros Hm. induction n as [|n IH]; intros a; [done|].
  change (mload (S n) m a) with (m a + 256 * mload n m (a + 1)). pose proof (Hm a) as Ha. unfold is_u8 in Ha.
  specialize (IH (a + 1)). rewrite Nat2Z.inj_succ, Z.pow_succ_r by lia. lia.
Qed.

Lemma load32_range m a : bytes m → is_u32 (load32 m a).
Proof. intros Hm. apply (mload_range 4 m Hm). Qed.
Lemma load64_range m a : bytes m → is_u64 (load64 m a).
Proof. intros Hm. apply (mload_range 8 m Hm). Qed.

(** A page-aligned piece of available RAM below the identity-map limit, above
    the kernel, that touches no boot module. *)
Definition free_piece (m : Z → Z) (kernel_end : Z) (l : list Z) (a b : Z) : Prop :=
  page_aligned a ∧ page_aligned b ∧ kernel_end ≤ a ∧ a < b ∧ b ≤ 2 ^ 32
  ∧ (∃ e, e ∈ map_entries m l ∧ ent_type m e = MB2_MEM_AVAILABLE
        ∧ ent_base m e ≤ a ∧ b ≤ ent_base m e + ent_length m e ∧ ent_base m e + ent_length m e < 2 ^ 64)
  ∧ ∀ t, t ∈ tags_of m MB2_TAG_MODULE l → mod_end m t ≤ a ∨ b ≤ mod_start m t.

(** The ranges reserved for the modules [ts]. *)
Definition module_ranges (m : Z → Z) (ts : list Z) : list (Z * Z) :=
  (λ t, (page_down (mod_start m t), page_up (mod_end m t))) <$> ts.

Lemma reserve_modules m ts : ∀ p,
  (length (reserved p) + length ts ≤ 24)%nat →
  ofold (reserve_module_cb m) ts p
  = Ret (mk_pick (reserved p ++ module_ranges m ts) (limit p) (best_start p) (best_end p)).
Proof.
  induction ts as [|t ts IH]; intros p Hl; simpl in *.
  { rewrite app_nil_r. by destruct p. }
  unfold reserve_module_cb at 1. rewrite (proj2 (Z.ltb_lt _ _)) by (unfold MAX_RESERVED; lia). simpl.
  rewrite IH by (simpl; rewrite length_app; simpl; lia). simpl. by rewrite <- app_assoc.
Qed.

(** One entry of the map: the pieces it offers. *)
Definition entry_piece (m : Z → Z) (rs : list (Z * Z)) (lim : Z) (e a b : Z) : Prop :=
  ent_type m e = MB2_MEM_AVAILABLE ∧ ent_base m e + ent_length m e < 2 ^ 64
  ∧ piece rs (ent_base m e) (Z.min (ent_base m e + ent_length m e) lim) a b.

Lemma overlapping_le rs s e : (overlapping rs s e ≤ length rs)%nat.
Proof. unfold overlapping. apply length_filter. Qed.

Lemma pick_entry_spec m e p :
  bytes m → Forall range_ok (reserved p) → 0 ≤ limit p < 2 ^ 62 →
  best_start p ≤ best_end p → best p < 2 ^ 63 →
  ∃ p', pick_entry m e p = Ret p' ∧ improves (entry_piece m (reserved p) (limit p) e) p p'
    ∧ best_start p' ≤ best_end p' ∧ best p' < 2 ^ 63.
Proof.
  intros Hm Hr Hl Hb Hb63. unfold pick_entry.
  destruct (Z.eqb_spec (ent_type m e) MB2_MEM_AVAILABLE) as [Ht|Ht]; cbn [negb].
  2: { exists p. split_and!; try done. apply improves_none. intros a b [? _]. done. }
  pose proof (load64_range m e Hm) as Hbase. pose proof (load64_range m (e + 8) Hm) as Hlen.
  fold (ent_base m e) in Hbase. fold (ent_length m e) in Hlen. unfold is_u64 in *.
  set (B := ent_base m e) in *. set (L := ent_length m e) in *.
  assert (∀ x, (if limit p <? x then limit p else x) = Z.min x (limit p)) as Hmin.
  { intros x. destruct (Z.ltb_spec (limit p) x); lia. }
  rewrite Hmin. destruct (Z.lt_ge_cases (B + L) (2 ^ 64)) as [Hlt|Hge].
  - rewrite u64_small by (unfold is_u64; lia). destruct (Z.ltb_spec B (Z.min (B + L) (limit p))).
    + edestruct (consider_spec (S (S (length (reserved p)))) p B (Z.min (B + L) (limit p))) as (p' & -> & Hi & Hb' & Hb'');
        try done; try lia.
      { pose proof (overlapping_le (reserved p) (page_up B) (page_down (Z.min (B + L) (limit p)))). lia. }
      exists p'. split_and!; try done. eapply improves_ext; [|exact Hi].
      intros a b. unfold entry_piece. fold B L. tauto.
    + exists p. split_and!; try done. apply improves_none. intros a b (_ & _ & Hp). unfold piece in Hp. fold B L in Hp. lia.
  - assert (u64 (B + L) = B + L - 2 ^ 64) as ->.
    { unfold u64. symmetry. apply (Z.mod_unique_pos _ _ 1); lia. }
    rewrite (proj2 (Z.ltb_ge _ _)) by lia. exists p. split_and!; try done. apply improves_none.
    intros a b (_ & Hlt & _). fold B L in Hlt. lia.
Qed.

(** The invariant of the scan over the entries visited so far. *)
Definition scan_inv (m : Z → Z) (p0 : pick) (don : list Z) (p : pick) : Prop :=
  improves (λ a b, ∃ e, e ∈ don ∧ entry_piece m (reserved p0) (limit p0) e a b) p0 p
  ∧ best_start p ≤ best_end p ∧ best p < 2 ^ 63.

Lemma scan_entries_spec m p0 es :
  bytes m → Forall range_ok (reserved p0) → 0 ≤ limit p0 < 2 ^ 62 →
  best_start p0 ≤ best_end p0 → best p0 < 2 ^ 63 →
  ∃ p, ofold (pick_entry m) es p0 = Ret p ∧ scan_inv m p0 es p.
Proof.
  intros Hm Hr Hl Hb Hb63. apply ofold_inv.
  - intros don e p _ (Hi & Hb' & Hb''). pose proof Hi as (Er & El & _).
    destruct (pick_entry_spec m e p) as (p' & -> & Hi' & ? & ?); try done; [by rewrite Er|by rewrite El|].
    exists p'. split; [done|]. split_and!; try done. rewrite Er, El in Hi'.
    eapply improves_ext; [|exact (improves_trans _ _ _ _ _ Hi Hi')]. intros a b. split.
    + intros [(e' & ? & ?)|?]; [exists e'|exists e]; set_solver.
    + intros (e' & [?| ->%list_elem_of_singleton]%elem_of_app & ?); [left; by exists e'|by right].
  - split_and!; try done. apply improves_none. intros a b (e & He & _). set_solver.
Qed.

(** The pieces the scan considers are the free pieces of the specification. *)
Lemma free_piece_iff m kernel_end l a b :
  bytes m → 0 ≤ kernel_end < 2 ^ 62 →
  (∃ e, e ∈ map_entries m l
    ∧ entry_piece m ((0, page_up kernel_end) :: module_ranges m (tags_of m MB2_TAG_MODULE l)) (2 ^ 32) e a b)
  ↔ free_piece m kernel_end l a b.
Proof.
  intros Hm Hk. assert (∀ t, 0 ≤ mod_start m t < 2 ^ 64 ∧ 0 ≤ mod_end m t < 2 ^ 63) as Hmod.
  { intros t. pose proof (load32_range m (t + 8) Hm). pose proof (load32_range m (t + 12) Hm).
    unfold mod_start, mod_end, is_u32 in *. lia. }
  unfold entry_piece, free_piece, piece. split.
  - intros (e & He & Ht & Hw & Ha & Hab & Hb & Haa & Hba & [Hav0 Hav]%Forall_cons).
    destruct Hav0 as [Hav0|Hav0]; simpl in Hav0.
    2: { pose proof (load64_range m e Hm) as Hbase. fold (ent_base m e) in Hbase. unfold is_u64 in Hbase. lia. }
    rewrite page_up_le in Hav0 by (done || lia). split_and!; try done; try lia.
    + exists e. split_and!; try done. lia.
    + intros t Hin. pose proof (Hmod t). unfold module_ranges in Hav. rewrite Forall_fmap in Hav. pose proof (proj1 (Forall_forall _ _) Hav t Hin) as [Hv|Hv]; simpl in Hv.
      * left. by rewrite page_up_le in Hv by (done || lia).
      * right. by rewrite page_down_ge in Hv by (done || lia).
  - intros (Haa & Hba & Hk' & Hab & Hb & (e & He & Ht & Hbase & Hlen & Hw) & Hmods).
    exists e. split_and!; try done; [lia|]. apply Forall_cons. split.
    + left. simpl. by rewrite page_up_le by (done || lia).
    + apply Forall_fmap, Forall_forall. intros t Hin. pose proof (Hmod t). destruct (Hmods t Hin); [left|right]; simpl.
      * by rewrite page_up_le by (done || lia).
      * by rewrite page_down_ge by (done || lia).
Qed.

(** C38. On a well-formed tag list with at most 23 modules (the code keeps no
    more, see [heap_region_ignores_24th_module]),
    [memlayout_pick_heap_region] returns the largest page-aligned piece of
    available RAM below 4 GiB that starts above the kernel and touches no
    boot module, and [false] exactly when there is none. *)
Theorem heap_region_correct (m : Z → Z) (mb kernel_end : Z) (l : list Z) :
  bytes m → mb ≠ 0 → 0 ≤ kernel_end < 2 ^ 62 →
  boot_tags m mb = Ret l → (length (tags_of m MB2_TAG_MODULE l) ≤ 23)%nat →
  ∃ r, memlayout_pick_heap_region m mb kernel_end = Ret r
    ∧ match r with
      | Some (s, e) => free_piece m kernel_end l s e ∧ ∀ a b, free_piece m kernel_end l a b → b - a ≤ e - s
      | None => ∀ a b, ¬ free_piece m kernel_end l a b
      end.
Proof.
  intros Hm Hmb Hk Hl Hn. unfold memlayout_pick_heap_region.
  rewrite (for_each_tag_tags m mb _ _ l) by done. rewrite reserve_modules by (simpl; lia). cbn [obind].
  unfold mmap_pick_cb. rewrite (for_each_map_entry m mb (pick_entry m) l) by done.
  change (Z.shiftl IDENTITY_MAP_GIB 30) with (2 ^ 32). cbn [reserved limit best_start best_end].
  match goal with |- context [ofold _ _ ?p] => destruct (scan_entries_spec m p (map_entries m l)) as (p' & -> & Hi & Hb & _) end;
    try done.
  { apply Forall_app. split; [apply Forall_singleton|apply Forall_fmap, Forall_forall; intros t _].
    - unfold range_ok. simpl. pose proof (page_up_range kernel_end ltac:(lia)).
      split_and!; try done; try lia. apply page_up_aligned. lia.
    - assert (is_u32 (mod_start m t) ∧ is_u32 (mod_end m t)) as [H1 H2] by (split; by apply load32_range).
      unfold is_u32 in *. unfold range_ok, compose. simpl.
      pose proof (page_up_range (mod_end m t) ltac:(lia)). pose proof (page_down_range (mod_start m t) ltac:(lia)).
      assert (0 ≤ page_down (mod_start m t)) by (rewrite page_down_eq by lia; Z.div_mod_to_equations; lia).
      split_and!; lia || (apply page_down_aligned; lia) || (apply page_up_aligned; lia). }
  destruct Hi as (_ & _ & _ & Hd & Hmax). cbn [reserved limit best_start best_end obind app] in *.
  destruct (Z.leb_spec (best_end p') (best_start p')) as [Hle|Hgt].
  - exists None. split; [done|]. intros a b Hfp. pose proof Hfp as (_ & _ & _ & ? & _).
    apply free_piece_iff in Hfp; [|done|done]. specialize (Hmax a b Hfp). unfold best in Hmax. lia.
  - exists (Some (best_start p', best_end p')). split; [done|]. split.
    + apply free_piece_iff; [done|done|]. destruct Hd as [[? ?]|Hd]; [lia|exact Hd].
    + intros a b Hfp. apply free_piece_iff in Hfp; [|done|done]. by apply Hmax.
Qed.

(** ** Concrete boot information *)

Fixpoint le_bytes (n : nat) (v : Z) : list Z :=
  match n with O => [] | S n' => v mod 256 :: le_bytes n' (v / 256) end.
(** The structure at address 65536. *)
Definition boot_mem (l : list Z) : Z → Z :=
  λ a, if a <? 65536 then 0 else nth (Z.to_nat (a - 65536)) l 0.
Definition module_tag (s e : Z) : list Z := le_bytes 4 3 ++ le_bytes 4 17 ++ le_bytes 4 s ++ le_bytes 4 e ++ replicate 8 0.
Definition map_tag (es : list (Z * Z * Z)) : list Z :=
  le_bytes 4 6 ++ le_bytes 4 (16 + 24 * Z.of_nat (length es)) ++ le_bytes 4 24 ++ le_bytes 4 0
  ++ (es ≫= λ '(b, len, t), le_bytes 8 b ++ le_bytes 8 len ++ le_bytes 4 t ++ le_bytes 4 0).
Definition boot_info (ts : list (list Z)) : list Z :=
  let body := concat ts ++ le_bytes 4 0 ++ le_bytes 4 8 in
  le_bytes 4 (8 + Z.of_nat (length body)) ++ le_bytes 4 0 ++ body.

Lemma boot_mem_bytes l : forallb (λ x, (0 <=? x) && (x <? 256)) l = true → bytes (boot_mem l).
Proof.
  intros H a. unfold boot_mem, is_u8. destruct (a <? 65536); [lia|].
  destruct (nth_in_or_default (Z.to_nat (a - 65536)) l 0) as [Hin| ->]; [|lia].
  rewrite forallb_forall in H. specialize (H _ Hin). bool_to_prop. lia.
Qed.

(** 640 KiB of low memory, a reserved hole, 127 MiB from 1 MiB on with a
    module in the middle. *)
Definition witness_info : list Z :=
  boot_info [module_tag 0x2000000 0x2345678;
             map_tag [(0, 0x9FC00, 1); (0xF0000, 0x10000, 2); (0x100000, 0x7F00000, 1)]].

Lemma heap_region_correct_witness :
  memlayout_pick_heap_region (boot_mem witness_info) 65536 0x345678 = Ret (Some (0x2346000, 0x8000000))
  ∧ free_piece (boot_mem witness_info) 0x345678 [65544; 65568] 0x2346000 0x8000000.
Proof.
  assert (memlayout_pick_heap_region (boot_mem witness_info) 65536 0x345678 = Ret (Some (0x2346000, 0x8000000))) as E
    by (vm_compute; reflexivity).
  split; [exact E|].
  destruct (heap_region_correct (boot_mem witness_info) 65536 0x345678 [65544; 65568]) as (r & Hr & Hs);
    [apply boot_mem_bytes; vm_compute; reflexivity|lia|lia|vm_compute; reflexivity| |].
  { assert (length (tags_of (boot_mem witness_info) MB2_TAG_MODULE [65544; 65568]) = 1%nat) as -> by (vm_compute; reflexivity). lia. }
  rewrite E in Hr. injection Hr as <-. exact (proj1 Hs).
Defined.

(** Modules beyond the 23 that fit the table are not reserved: the region
    picked here contains the 24th module. *)
Lemma heap_region_ignores_24th_module :
  memlayout_pick_heap_region
    (boot_mem (boot_info (replicate 23 (module_tag 0x100000 0x101000) ++
                          [module_tag 0x3000000 0x3001000; map_tag [(0x100000, 0x7F00000, 1)]]))) 65536 0x200000
  = Ret (Some (0x200000, 0x8000000)).
Proof. vm_compute. reflexivity. Qed.

(** A tag whose size rounds up past 2^32 stops the cursor: the loop never
    ends. *)
Lemma tag_advance_stuck : tag_advance 0xFFFFFFFC = 0.
Proof. reflexivity. Qed.

(** Otherwise every step advances by at least the header, so the tag walk
    ends. *)
Lemma tag_advance_ge size : 8 ≤ size ≤ 4294967288 → size ≤ tag_advance size.
Proof.
  intros Hs. unfold tag_advance, u32. rewrite Z.mod_small by lia.
  assert (Z.land (size + 7) 4294967288 = (size + 7) / 8 * 8) as ->.
  { rewrite <- (Z.mod_small (size + 7) (2 ^ 32)) at 1 by lia. rewrite <- Z.land_ones by lia.
    rewrite <- Z.land_assoc. change (Z.land (Z.ones 32) 4294967288) with (Z.land (Z.ones 32) (u64 (Z.lnot (2 ^ 3 - 1)))).
    rewrite Z.land_assoc, Z.land_ones, Z.mod_small by lia. by rewrite mask_pow2 by lia. }
  Z.div_mod_to_equations. lia.
Qed.

Lemma tags_ret fuel m fin : ∀ cursor,
  (Z.to_nat ((fin - cursor) / 8) < fuel)%nat →
  (∃ l, tags fuel m cursor fin = Ret l) ∨ ∃ a, cursor ≤ a < fin ∧ 4294967288 < tag_size m a.
Proof.
  induction fuel as [|fuel IH]; intros cursor Hf; [lia|]. simpl.
  destruct (Z.leb_spec (cursor + 8) fin); simpl; [|left; by eexists].
  destruct ((tag_type m cursor =? 0) || (tag_size m cursor <? 8)) eqn:E; [left; by eexists|].
  apply orb_false_elim in E as [_ E%Z.ltb_ge].
  destruct (Z.le_gt_cases (tag_size m cursor) 4294967288) as [Hle|Hgt]; [|right; exists cursor; lia].
  pose proof (tag_advance_ge (tag_size m cursor) ltac:(lia)).
  destruct (IH (cursor + tag_advance (tag_size m cursor))) as [(l & ->)|(a & ? & ?)].
  - assert (fin - (cursor + tag_advance (tag_size m cursor)) ≤ fin - cursor - 8) as Hle' by lia.
    apply (Z.div_le_mono _ _ 8) in Hle'; [|lia].
    replace (fin - cursor - 8) with (fin - cursor + (-1) * 8) in Hle' by lia. rewrite Z.div_add in Hle' by lia.
    assert (1 ≤ (fin - cursor) / 8) by (apply Z.div_le_lower_bound; lia). lia.
  - left. by eexists.
  - right. exists a. lia.
Qed.

(** The tag walk ends unless a tag claims a size within 8 bytes of 4 GiB. *)
Lemma boot_tags_ret m mb :
  (∀ a, mb ≤ a < mb + total_size m mb → tag_size m a ≤ 4294967288) → ∃ l, boot_tags m mb = Ret l.
Proof.
  intros H. destruct (tags_ret (S (Z.to_nat (total_size m mb / 8))) m (mb + total_size m mb) (mb + 8)) as [?|(a & Ha & Hs)];
    [|done|].
  - assert ((mb + total_size m mb - (mb + 8)) / 8 ≤ total_size m mb / 8) by (apply Z.div_le_mono; lia). lia.
  - specialize (H a). lia.
Qed.

(** ** Cache policy *)

(** Some entry of a RAM type overlaps the 2 MiB page [i]. *)
Definition ram_type (t : Z) : Prop := t = MB2_MEM_AVAILABLE ∨ t = MB2_MEM_ACPI_RECLAIMABLE ∨ t = MB2_MEM_ACPI_NVS.
Definition touches (m : Z → Z) (i e : Z) : Prop :=
  ram_type (ent_type m e) ∧ ent_base m e < (i + 1) * 2 ^ 21 ∧ i * 2 ^ 21 < ent_base m e + ent_length m e
  ∧ 0 < ent_length m e.

#[export] Instance touches_decision m i e : Decision (touches m i e).
Proof. unfold touches, ram_type. apply _. Defined.

Lemma mark_ram_spec fuel : ∀ i last ram,
  length ram = Z.to_nat RAM_PAGES → 0 ≤ i < 2 ^ 63 → (Z.to_nat (RAM_PAGES - i) < fuel)%nat →
  ∃ ram', mark_ram fuel i last ram = Ret ram' ∧ length ram' = Z.to_nat RAM_PAGES
    ∧ ∀ k, 0 ≤ k < RAM_PAGES →
        nth (Z.to_nat k) ram' false = nth (Z.to_nat k) ram false || ((i <=? k) && (k <=? last)).
Proof.
  induction fuel as [|fuel IH]; intros i last ram Hl Hi Hf; [lia|]. cbn [mark_ram].
  destruct ((i <=? last) && (i <? RAM_PAGES)) eqn:E.
  - bool_to_prop. rewrite oset_in by lia. cbn [obind]. rewrite u64_small by (unfold is_u64; lia).
    assert (RAM_PAGES = 2048) as HR by reflexivity.
    destruct (IH (i + 1) last (<[Z.to_nat i := true]> ram)) as (ram' & -> & Hl' & Hk); [by rewrite length_insert|lia|lia|].
    exists ram'. split_and!; try done. intros k Hk'. rewrite Hk by done. destruct (decide (k = i)) as [->|Hne].
    + rewrite (nth_lookup_Some (<[Z.to_nat i:=true]> ram) _ _ true) by (apply list_lookup_insert_eq; lia).
      rewrite Z.leb_refl, (proj2 (Z.leb_le i last)) by lia. by rewrite orb_true_r.
    + rewrite !nth_lookup, list_lookup_insert_ne by lia. f_equal.
      destruct (Z.leb_spec (i + 1) k), (Z.leb_spec i k); simpl; try done; lia.
  - exists ram. split_and!; try done. intros k Hk.
    replace ((i <=? k) && (k <=? last)) with false; [by rewrite orb_false_r|]. symmetry.
    apply andb_false_iff in E. apply andb_false_iff. rewrite !Z.leb_gt, Z.ltb_ge in *. lia.
Qed.

Lemma cache_entry_spec m e ram :
  bytes m → length ram = Z.to_nat RAM_PAGES → ent_base m e + ent_length m e ≤ 2 ^ 64 →
  ∃ ram', cache_entry m e ram = Ret ram' ∧ length ram' = Z.to_nat RAM_PAGES
    ∧ ∀ k, 0 ≤ k < RAM_PAGES → nth (Z.to_nat k) ram' false = nth (Z.to_nat k) ram false || bool_decide (touches m k e).
Proof.
  intros Hm Hl Hw. unfold cache_entry.
  assert (is_u64 (ent_base m e) ∧ is_u64 (ent_length m e)) as [HB HL] by (split; by apply load64_range).
  unfold is_u64 in *.
  destruct (_ && _ && _) eqn:Ht.
  { exists ram. split_and!; try done. intros k _. bool_to_prop. rewrite bool_decide_eq_false_2, orb_false_r; [done|].
    unfold touches, ram_type. tauto. }
  assert (ram_type (ent_type m e)) as Hty.
  { unfold ram_type. apply andb_false_iff in Ht as [Ht|Ht]; [apply andb_false_iff in Ht as [Ht|Ht]|]; bool_to_prop; tauto. }
  destruct (Z.eqb_spec (ent_length m e) 0) as [E0|N0].
  { exists ram. split_and!; try done. intros k _. rewrite bool_decide_eq_false_2, orb_false_r; [done|]. unfold touches. lia. }
  rewrite u64_small by (unfold is_u64; lia). rewrite !Z.shiftr_div_pow2 by lia.
  set (B := ent_base m e) in *. set (L := ent_length m e) in *.
  destruct (Z.lt_ge_cases (B / 2 ^ 21) (2 ^ 63)) as [Hlt|Hge]; [|Z.div_mod_to_equations; lia].
  destruct (mark_ram_spec (S (Z.to_nat RAM_PAGES)) (B / 2 ^ 21) ((B + L - 1) / 2 ^ 21) ram) as (ram' & -> & Hl' & Hk);
    [done|split; [apply Z.div_pos; lia|done]| |].
  { assert (0 ≤ B / 2 ^ 21) by (apply Z.div_pos; lia). lia. }
  exists ram'. split_and!; try done. intros k Hk'. rewrite Hk by done. f_equal.
  assert (touches m k e ↔ B < (k + 1) * 2097152 ∧ k * 2097152 < B + L) as Ht'
    by (unfold touches; fold B L; change (2 ^ 21) with 2097152; intuition lia).
  rewrite (bool_decide_ext _ _ Ht'). change (2 ^ 21) with 2097152.
  destruct (Z.leb_spec (B / 2097152) k), (Z.leb_spec k ((B + L - 1) / 2097152)); simpl; symmetry;
    (apply bool_decide_eq_true_2 || apply bool_decide_eq_false_2); clear Hk Hl Hl' Ht' Hty; Z.div_mod_to_equations; lia.
Qed.

Lemma scan_ram_spec m es :
  bytes m → Forall (λ e, ent_base m e + ent_length m e ≤ 2 ^ 64) es →
  ∃ ram, ofold (cache_entry m) es (replicate (Z.to_nat RAM_PAGES) false) = Ret ram
    ∧ length ram = Z.to_nat RAM_PAGES
    ∧ ∀ k, 0 ≤ k < RAM_PAGES → (nth (Z.to_nat k) ram false = true ↔ ∃ e, e ∈ es ∧ touches m k e).
Proof.
  intros Hm Hw.
  destruct (ofold_inv (λ don ram, length ram = Z.to_nat RAM_PAGES ∧ ∀ k, 0 ≤ k < RAM_PAGES →
    (nth (Z.to_nat k) ram false = true ↔ ∃ e, e ∈ don ∧ touches m k e)) (cache_entry m) es) with
    (ctx := replicate (Z.to_nat RAM_PAGES) false) as (ram & Hr & Hl & Hk).
  - intros don e ram Hin [Hl Hk]. rewrite Forall_forall in Hw.
    destruct (cache_entry_spec m e ram) as (ram' & -> & Hl' & Hk'); [done|done|by apply Hw|].
    exists ram'. split_and!; try done. intros k Hkk. rewrite Hk', orb_true_iff, Hk, bool_decide_eq_true by done. split.
    + intros [(e' & ? & ?)|?]; [exists e'|exists e]; set_solver.
    + intros (e' & [?| ->%list_elem_of_singleton]%elem_of_app & ?); [left; by exists e'|by right].
  - split; [apply length_replicate|]. intros k _. rewrite nth_lookup.
    destruct (replicate (Z.to_nat RAM_PAGES) false !! Z.to_nat k) as [b|] eqn:E; simpl.
    + apply lookup_replicate in E as [-> _]. split; [done|]. intros (e & He & _). set_solver.
    + split; [done|]. intros (e & He & _). set_solver.
  - exists ram. done.
Qed.

(** [memlayout_apply_cache_policy] sets PWT and PCD exactly on the pages of
    the identity map, page 0 apart, that no RAM entry of the memory map
    touches; every other page-directory entry keeps its value, and the count
    it reports is the number of pages marked. *)
Theorem cache_policy_correct (m : Z → Z) (mb : Z) (l : list Z) (page_table_l2 : list Z) :
  bytes m → mb ≠ 0 → boot_tags m mb = Ret l →
  Forall (λ e, ent_base m e + ent_length m e ≤ 2 ^ 64) (map_entries m l) →
  length page_table_l2 = Z.to_nat RAM_PAGES →
  ∃ pt ram, memlayout_apply_cache_policy m mb page_table_l2
              = Ret (pt, Z.of_nat (length (filter (λ f, f = false) ram)))
    ∧ length ram = Z.to_nat RAM_PAGES
    ∧ (∀ k, 0 ≤ k < RAM_PAGES →
         (nth (Z.to_nat k) ram false = true ↔ k = 0 ∨ ∃ e, e ∈ map_entries m l ∧ touches m k e))
    ∧ ∀ k v, 0 ≤ k < RAM_PAGES → page_table_l2 !! Z.to_nat k = Some v →
        pt !! Z.to_nat k = Some (if nth (Z.to_nat k) ram false then v else Z.lor v 24).
Proof.
  intros Hm Hmb Hl Hw Hpt. unfold memlayout_apply_cache_policy, mmap_cache_cb.
  rewrite (for_each_map_entry m mb (cache_entry m) l) by done.
  destruct (scan_ram_spec m (map_entries m l) Hm Hw) as (ram & -> & Hlr & Hk). cbn [obind].
  assert (0 < Z.of_nat (length ram)) as Hpos by (rewrite Hlr; vm_compute; done).
  rewrite oset_in by lia. cbn [obind]. change (Z.to_nat 0) with 0%nat.
  exists (zip_with uncache (<[0%nat := true]> ram) page_table_l2), (<[0%nat := true]> ram).
  split; [done|]. split; [by rewrite length_insert|]. split.
  - intros k Hkr. destruct (decide (k = 0)) as [->|Hne].
    + rewrite (nth_lookup_Some (<[0%nat:=true]> ram) _ _ true) by (apply list_lookup_insert_eq; lia). tauto.
    + rewrite nth_lookup, list_lookup_insert_ne, <- nth_lookup by lia. rewrite Hk by done. tauto.
  - intros k v Hkr Hv. destruct (lookup_lt_is_Some_2 (<[0%nat := true]> ram) (Z.to_nat k)) as [f Hf].
    { rewrite length_insert. lia. }
    rewrite lookup_zip_with, Hf. simpl. rewrite Hv. simpl. by rewrite (nth_lookup_Some _ _ _ _ Hf).
Qed.

Lemma cache_policy_correct_witness :
  ∃ pt ram, memlayout_apply_cache_policy (boot_mem witness_info) 65536 (replicate 2048 131)
            = Ret (pt, Z.of_nat (length (filter (λ f, f = false) ram)))
    ∧ length (filter (λ f, f = false) ram) = 1984%nat.
Proof.
  destruct (cache_policy_correct (boot_mem witness_info) 65536 [65544; 65568] (replicate 2048 131))
    as (pt & ram & Hr & _);
    [apply boot_mem_bytes; vm_compute; reflexivity|lia|vm_compute; reflexivity| |by rewrite length_replicate|].
  { assert (map_entries (boot_mem witness_info) [65544; 65568] = [65584; 65608; 65632]) as -> by (vm_compute; reflexivity).
    repeat constructor; vm_compute; discriminate. }
  exists pt, ram. split; [exact Hr|]. apply Nat2Z.inj.
  assert (snd <$> (match memlayout_apply_cache_policy (boot_mem witness_info) 65536 (replicate 2048 131) with
           Ret x => Some x | _ => None end) = Some 1984) as E by (vm_compute; reflexivity).
  rewrite Hr in E. cbn in E. by injection E as ->.
Defined.

(** ** The bounded search *)

Lemma tag_advance64_ge size : 0 ≤ size < 2 ^ 32 → size ≤ tag_advance64 size < size + 8.
Proof.
  intros Hs. unfold tag_advance64. change 18446744073709551608 with (u64 (Z.lnot (2 ^ 3 - 1))).
  rewrite mask_pow2 by lia. change (2 ^ 3) with 8. Z.div_mod_to_equations. lia.
Qed.

(** Two memories that agree on the structure. *)
Definition agree (m m' : Z → Z) (a b : Z) : Prop := ∀ x, a ≤ x < b → m' x = m x.

Lemma agree_load n m m' a b x :
  agree m m' a b → a ≤ x → x + Z.of_nat n ≤ b → mload n m' x = mload n m x.
Proof. intros H ? ?. apply mload_ext. intros y Hy. apply H. lia. Qed.

(** The search ends; a tag it finds lies inside the structure, whole; and
    nothing outside the structure is read. *)
Lemma find_tag_spec fuel m type fin : ∀ cursor,
  bytes m → (Z.to_nat ((fin - cursor) / 8) < fuel)%nat →
  ∃ r, find_tag fuel m type cursor fin = Ret r
    ∧ (∀ t, r = Some t → cursor ≤ t ∧ 8 ≤ tag_size m t ∧ t + tag_size m t ≤ fin ∧ tag_type m t = type)
    ∧ ∀ m', agree m m' cursor fin → find_tag fuel m' type cursor fin = Ret r.
Proof.
  induction fuel as [|fuel IH]; intros cursor Hm Hf; [lia|]. cbn [find_tag].
  destruct (Z.leb_spec cursor fin), (Z.leb_spec 8 (fin - cursor)); cbn [andb negb];
    try (exists None; split_and!; naive_solver).
  assert (∀ m', agree m m' cursor fin → tag_size m' cursor = tag_size m cursor ∧ tag_type m' cursor = tag_type m cursor) as Hag.
  { intros m' Ha. split; apply (agree_load 4 m m' cursor fin); try done; lia. }
  destruct ((tag_size m cursor <? 8) || (fin - cursor <? tag_size m cursor)) eqn:E1.
  { exists None. split_and!; try done. intros m' Ha. destruct (Hag m' Ha) as [-> ->]. by rewrite E1. }
  destruct (tag_type m cursor =? 0) eqn:E2.
  { exists None. split_and!; try done. intros m' Ha. destruct (Hag m' Ha) as [-> ->]. by rewrite E1, E2. }
  destruct (tag_type m cursor =? type) eqn:E3.
  { exists (Some cursor). split_and!; try done.
    - intros t [= <-]. bool_to_prop. lia.
    - intros m' Ha. destruct (Hag m' Ha) as [-> ->]. by rewrite E1, E2, E3. }
  destruct (fin - cursor <? tag_advance64 (tag_size m cursor)) eqn:E4.
  { exists None. split_and!; try done. intros m' Ha. destruct (Hag m' Ha) as [-> ->]. by rewrite E1, E2, E3, E4. }
  pose proof (load32_range m (cursor + 4) Hm) as Hsz. fold (tag_size m cursor) in Hsz. unfold is_u32 in Hsz.
  pose proof (tag_advance64_ge (tag_size m cursor) ltac:(lia)) as Hadv.
  assert (8 ≤ tag_size m cursor) by (bool_to_prop; lia).
  destruct (IH (cursor + tag_advance64 (tag_size m cursor))) as (r & Hr & Ht & Ha); [done| |].
  { assert (fin - (cursor + tag_advance64 (tag_size m cursor)) ≤ fin - cursor + (-1) * 8) as Hle by lia.
    apply (Z.div_le_mono _ _ 8) in Hle; [|lia]. rewrite Z.div_add in Hle by lia.
    assert (1 ≤ (fin - cursor) / 8) by (apply Z.div_le_lower_bound; lia). lia. }
  exists r. split_and!; try done.
  - intros t Htt. specialize (Ht t Htt). lia.
  - intros m' Hag'. destruct (Hag m' Hag') as [-> ->]. rewrite E1, E2, E3, E4. apply Ha.
    intros x Hx. apply Hag'. lia.
Qed.

Lemma search_spec m mb type :
  bytes m →
  ∃ r, search m mb type = Ret r
    ∧ (∀ t, r = Some t → mb + 8 ≤ t ∧ 8 ≤ tag_size m t ∧ t + tag_size m t ≤ mb + total_size m mb ∧ tag_type m t = type)
    ∧ ∀ m', agree m m' mb (mb + Z.max 8 (total_size m mb)) → search m' mb type = Ret r.
Proof.
  intros Hm. destruct (find_tag_spec (S (Z.to_nat (total_size m mb / 8))) m type (mb + total_size m mb) (mb + 8))
    as (r & Hr & Ht & Ha); [done| |].
  { assert ((mb + total_size m mb - (mb + 8)) / 8 ≤ total_size m mb / 8) by (apply Z.div_le_mono; lia). lia. }
  exists r. split_and!; try done. intros m' Hag. unfold search.
  assert (total_size m' mb = total_size m mb) as -> by (apply (agree_load 4 m m' mb (mb + 8)); try lia; intros x Hx; apply Hag; lia).
  apply Ha. intros x Hx. apply Hag. lia.
Qed.

(** Whatever the boot information holds, [multiboot2_get_framebuffer]
    returns, reads no byte outside the structure, and what it returns are the
    fields of a framebuffer tag of RGB type that lies inside it. *)
Theorem framebuffer_safe (m : Z → Z) (mb : Z) :
  bytes m →
  ∃ r, multiboot2_get_framebuffer m mb = Ret r
    ∧ (∀ m', agree m m' mb (mb + Z.max 8 (total_size m mb)) → multiboot2_get_framebuffer m' mb = Ret r)
    ∧ ∀ fb, r = Some fb → ∃ tag, mb + 8 ≤ tag ∧ tag + 38 ≤ mb + total_size m mb ∧ tag_type m tag = 8
        ∧ m (tag + 29) = 1 ∧ fb = fb_fields m tag.
Proof.
  intros Hm. unfold multiboot2_get_framebuffer.
  assert (∀ m', agree m m' mb (mb + Z.max 8 (total_size m mb)) → total_size m' mb = total_size m mb) as Hts.
  { intros m' Ha. apply (agree_load 4 m m' mb (mb + 8)); try lia. intros x Hx. apply Ha. lia. }
  destruct ((mb =? 0) || (total_size m mb <? 8)) eqn:E1.
  { exists None. split_and!; try done. intros m' Ha. by rewrite (Hts m' Ha), E1. }
  destruct (UINTPTR_MAX - mb <? total_size m mb) eqn:E2.
  { exists None. split_and!; try done. intros m' Ha. by rewrite (Hts m' Ha), E1, E2. }
  destruct (search_spec m mb 8 Hm) as (t & Ht & Hin & Hag). rewrite Ht. cbn [obind].
  destruct t as [tag|].
  2: { exists None. split_and!; try done. intros m' Ha. rewrite (Hts m' Ha), E1, E2, (Hag m' Ha). done. }
  destruct (Hin tag eq_refl) as (H1 & H2 & H3 & H4).
  assert (∀ m', agree m m' mb (mb + Z.max 8 (total_size m mb)) → agree m m' tag (tag + tag_size m tag)) as Hsub.
  { intros m' Ha x Hx. apply Ha. lia. }
  assert (∀ m', agree m m' mb (mb + Z.max 8 (total_size m mb)) → tag_size m' tag = tag_size m tag) as Hsz.
  { intros m' Ha. apply (agree_load 4 m m' tag (tag + tag_size m tag)); try lia. by apply Hsub. }
  destruct (tag_size m tag <? 38) eqn:E3.
  { exists None. split_and!; try done. intros m' Ha. rewrite (Hts m' Ha), E1, E2, (Hag m' Ha). cbn [obind].
    by rewrite (Hsz m' Ha), E3. }
  apply Z.ltb_ge in E3 as E3'.
  destruct (negb (m (tag + 29) =? 1)) eqn:E4.
  { exists None. split_and!; try done. intros m' Ha. rewrite (Hts m' Ha), E1, E2, (Hag m' Ha). cbn [obind].
    rewrite (Hsz m' Ha), E3, (Hsub m' Ha) by lia. by rewrite E4. }
  exists (Some (fb_fields m tag)). split_and!; try done.
  - intros m' Ha. rewrite (Hts m' Ha), E1, E2, (Hag m' Ha). cbn [obind].
    rewrite (Hsz m' Ha), E3, (Hsub m' Ha) by lia. rewrite E4. do 2 f_equal. unfold fb_fields.
    rewrite (agree_load 8 m m' tag (tag + tag_size m tag) (tag + 8)), (agree_load 4 m m' tag (tag + tag_size m tag) (tag + 16)),
      (agree_load 4 m m' tag (tag + tag_size m tag) (tag + 20)), (agree_load 4 m m' tag (tag + tag_size m tag) (tag + 24))
      by (lia || by apply Hsub).
    by rewrite !(Hsub m' Ha) by lia.
  - intros fb [= <-]. exists tag. bool_to_prop. split_and!; try done; lia.
Qed.

(** An 800x600 RGB framebuffer behind a command line. *)
Definition fb_info : list Z :=
  boot_info [le_bytes 4 1 ++ le_bytes 4 40 ++ txt "quiet  ramfs=64 root=hd0p1" ++ replicate 6 0;
             le_bytes 4 8 ++ le_bytes 4 38 ++ le_bytes 8 0xFD000000 ++ le_bytes 4 3200 ++ le_bytes 4 800
             ++ le_bytes 4 600 ++ [32; 1; 0; 0; 16; 8; 8; 8; 0; 8; 0; 0]].

Lemma framebuffer_safe_witness :
  ∃ r, multiboot2_get_framebuffer (boot_mem fb_info) 65536 = Ret r
    ∧ r = Some [0xFD000000; 3200; 800; 600; 32; 1; 16; 8; 8; 8; 0; 8].
Proof.
  destruct (framebuffer_safe (boot_mem fb_info) 65536) as (r & Hr & _); [apply boot_mem_bytes; vm_compute; reflexivity|].
  exists r. split; [exact Hr|]. vm_compute in Hr. injection Hr as <-. reflexivity.
Defined.

(** ** The command line *)

(** The words of a command line: runs of non-space bytes, up to the first
    zero byte. *)
Fixpoint words_from (cur l : list Z) : list (list Z) :=
  let flush := if decide (cur = []) then [] else [cur] in
  match l with
  | [] => flush
  | c :: l' =>
      if c =? 0 then flush
      else if cmdline_is_space c then flush ++ words_from [] l'
      else words_from (cur ++ [c]) l'
  end.
Definition words (l : list Z) : list (list Z) := words_from [] l.

(** The [n] bytes at [a]. *)
Definition slice (m : Z → Z) (a n : Z) : list Z := (λ i, m (a + i)) <$> seqZ 0 n.

Lemma slice_cons m a n : 0 < n → slice m a n = m a :: slice m (a + 1) (n - 1).
Proof.
  intros Hn. unfold slice. rewrite seqZ_cons by lia. rewrite fmap_cons, Z.add_0_r. f_equal.
  replace (Z.pred n) with (n - 1) by lia. change (Z.succ 0) with (1 + 0). rewrite <- (fmap_add_seqZ 1 0 (n - 1)).
  rewrite <- list_fmap_compose. apply list_fmap_ext. intros i x _. simpl. f_equal. lia.
Qed.

Lemma slice_nil m a n : n ≤ 0 → slice m a n = [].
Proof. intros. unfold slice. by rewrite seqZ_nil by lia. Qed.

Lemma slice_length m a n : length (slice m a n) = Z.to_nat n.
Proof. unfold slice. by rewrite length_fmap, length_seqZ. Qed.

Lemma skip_spaces_spec fuel m line len : ∀ pos,
  0 ≤ pos ≤ len → (Z.to_nat (len - pos) < fuel)%nat →
  ∃ pos', skip_spaces fuel m line len pos = Ret pos' ∧ pos ≤ pos' ≤ len
    ∧ words (slice m (line + pos) (len - pos)) = words (slice m (line + pos') (len - pos'))
    ∧ (pos' < len → cmdline_is_space (m (line + pos')) = false)
    ∧ (pos < len → cmdline_is_space (m (line + pos)) = true → pos < pos').
Proof.
  induction fuel as [|fuel IH]; intros pos Hp Hf; [lia|]. cbn [skip_spaces].
  destruct (Z.ltb_spec pos len); cbn [andb].
  2: { exists pos. split_and!; try done; lia. }
  destruct (cmdline_is_space (m (line + pos))) eqn:E.
  - destruct (IH (pos + 1)) as (pos' & -> & Hr & Hw & Hs & _); [lia|lia|].
    exists pos'. split_and!; try done; try lia. rewrite <- Hw, slice_cons by lia. unfold words at 1. cbn [words_from].
    assert (m (line + pos) =? 0 = false) as -> by (unfold cmdline_is_space in E; apply Z.eqb_neq; intros Hz; by rewrite Hz in E).
    rewrite E. simpl. f_equal. f_equal; lia.
  - exists pos. split_and!; try done; lia.
Qed.

Lemma skip_word_spec fuel m line len : ∀ pos cur,
  0 ≤ pos ≤ len → (Z.to_nat (len - pos) < fuel)%nat →
  ∃ pos', skip_word fuel m line len pos = Ret pos' ∧ pos ≤ pos' ≤ len
    ∧ words_from cur (slice m (line + pos) (len - pos))
      = (let w := cur ++ slice m (line + pos) (pos' - pos) in if decide (w = []) then [] else [w])
        ++ words (slice m (line + pos') (len - pos'))
    ∧ (pos < len → m (line + pos) ≠ 0 → cmdline_is_space (m (line + pos)) = false → pos < pos').
Proof.
  induction fuel as [|fuel IH]; intros pos cur Hp Hf; [lia|]. cbn [skip_word].
  destruct (Z.ltb_spec pos len) as [Hlt|Hge]; cbn [andb].
  2: { exists pos. split_and!; try done; try lia. rewrite !slice_nil by lia. rewrite app_nil_r.
       cbn [words_from words]. by rewrite app_nil_r. }
  destruct (Z.eqb_spec (m (line + pos)) 0) as [Hz|Hnz]; cbn [andb negb].
  { exists pos. split_and!; try done; try lia. rewrite (slice_nil _ _ (pos - pos)), app_nil_r by lia.
    rewrite slice_cons by lia. unfold words. cbn [words_from]. rewrite Hz. simpl. by rewrite app_nil_r. }
  destruct (cmdline_is_space (m (line + pos))) eqn:E; cbn [andb negb].
  { exists pos. split_and!; try done; try lia. rewrite (slice_nil _ _ (pos - pos)), app_nil_r by lia.
    rewrite slice_cons by lia. unfold words. cbn [words_from]. rewrite (proj2 (Z.eqb_neq _ _) Hnz), E. simpl. done. }
  destruct (IH (pos + 1) (cur ++ [m (line + pos)])) as (pos' & -> & Hr & Hw & _); [lia|lia|].
  exists pos'. split_and!; try done; try lia.
  rewrite (slice_cons m (line + pos) (len - pos)), (slice_cons m (line + pos) (pos' - pos)) by lia. cbn [words_from].
  rewrite (proj2 (Z.eqb_neq _ _) Hnz), E. replace (line + pos + 1) with (line + (pos + 1)) by lia.
  replace (len - pos - 1) with (len - (pos + 1)) by lia. rewrite Hw. rewrite <- app_assoc. cbn [app].
  replace (pos' - pos - 1) with (pos' - (pos + 1)) by lia. done.
Qed.

(** The word loop finds the first word the test accepts. *)
Lemma find_word_spec m (test : Z → Z → bool) (T : list Z → bool) line len fuel : ∀ pos,
  (∀ a b, 0 ≤ a ≤ b → b ≤ len → test a b = T (slice m (line + a) (b - a))) → T [] = false →
  0 ≤ pos ≤ len → (Z.to_nat (len - pos) < fuel)%nat →
  ∃ r, find_word fuel m test line len pos = Ret r
    ∧ match r with
      | Some (a, b) => 0 ≤ a ≤ b ∧ b ≤ len
          ∧ List.find T (words (slice m (line + pos) (len - pos))) = Some (slice m (line + a) (b - a))
      | None => List.find T (words (slice m (line + pos) (len - pos))) = None
      end.
Proof.
  induction fuel as [|fuel IH]; intros pos Htest HT Hp Hf; [lia|]. cbn [find_word].
  destruct (Z.ltb_spec pos len) as [Hlt|Hge]; cbn [andb negb].
  2: { exists None. split; [done|]. by rewrite slice_nil by lia. }
  destruct (Z.eqb_spec (m (line + pos)) 0) as [Hz|Hnz]; cbn [negb].
  { exists None. split; [done|]. rewrite slice_cons by lia. unfold words. cbn [words_from]. by rewrite Hz. }
  destruct (skip_spaces_spec (S fuel) m line len pos) as (wd & -> & Hwd & Hw1 & Hns & Hadv1); [lia|lia|]. cbn [obind].
  destruct (skip_word_spec (S fuel) m line len wd []) as (p2 & -> & Hp2 & Hw2 & Hadv2); [lia|lia|]. cbn [obind].
  rewrite Hw1. unfold words at 1 2. rewrite Hw2. cbn [app].
  rewrite Htest by lia. set (w := slice m (line + wd) (p2 - wd)) in *.
  destruct (T w) eqn:ET.
  - exists (Some (wd, p2)). split; [done|]. split_and!; try lia.
    rewrite decide_False by (intros Hw0; rewrite Hw0, HT in ET; done). simpl. by rewrite ET.
  - assert (pos < p2) as Hlt2.
    { destruct (cmdline_is_space (m (line + pos))) eqn:Es; [specialize (Hadv1 Hlt eq_refl); lia|].
      destruct (decide (wd = pos)) as [->|]; [by apply Hadv2|lia]. }
    destruct (IH p2) as (r & -> & Hr); [done|done|lia|lia|]. exists r. split; [done|].
    assert (∀ X, List.find T ((if decide (w = []) then [] else [w]) ++ X) = List.find T X) as Hfx.
    { intros X. destruct (decide (w = [])); [done|]. simpl. by rewrite ET. }
    destruct r as [[a b]|]; rewrite !Hfx; done.
Qed.

(** [same_bytes] compares lists. *)
Lemma same_bytes_slice m a b n :
  same_bytes n m a b = bool_decide (slice m a (Z.of_nat n) = slice m b (Z.of_nat n)).
Proof.
  revert a b. induction n as [|n IH]; intros a b; cbn [same_bytes].
  { rewrite !slice_nil by lia. symmetry. by apply bool_decide_eq_true_2. }
  rewrite (slice_cons m a), (slice_cons m b) by lia. replace (Z.of_nat (S n) - 1) with (Z.of_nat n) by lia.
  destruct (Z.eqb_spec (m a) (m b)) as [->|Hne].
  - rewrite IH. apply bool_decide_ext. split; [by intros ->|by intros [= ->]].
  - symmetry. apply bool_decide_eq_false_2. intros [= ? ?]. done.
Qed.

Lemma slice_lookup m a n i : (i < Z.to_nat n)%nat → slice m a n !! i = Some (m (a + Z.of_nat i)).
Proof.
  intros Hi. unfold slice. rewrite list_lookup_fmap, lookup_seqZ_lt by lia. simpl. done.
Qed.

Lemma slice_ext m m' a n : (∀ x, a ≤ x < a + n → m' x = m x) → slice m' a n = slice m a n.
Proof.
  intros H. apply list_eq. intros i. destruct (decide (i < Z.to_nat n)%nat) as [Hi|Hi].
  - rewrite !slice_lookup by done. f_equal. apply H. lia.
  - rewrite !lookup_ge_None_2; [done|rewrite slice_length; lia..].
Qed.

Lemma slice_take m a n k : 0 ≤ k ≤ n → take (Z.to_nat k) (slice m a n) = slice m a k.
Proof.
  intros H. apply list_eq. intros i. destruct (decide (i < Z.to_nat k)%nat) as [Hi|Hi].
  - rewrite lookup_take_lt, !slice_lookup by lia. done.
  - rewrite lookup_take_ge by lia. symmetry. apply lookup_ge_None_2. rewrite slice_length. lia.
Qed.

Lemma slice_cstr m a l : cstr m a l → slice m a (Z.of_nat (length l)) = l.
Proof.
  intros [H _ _]. apply list_eq. intros i. destruct (l !! i) as [v|] eqn:E.
  - apply lookup_lt_Some in E as Hi. rewrite slice_lookup by lia. by rewrite (H i v E).
  - apply lookup_ge_None in E. apply lookup_ge_None_2. rewrite slice_length. lia.
Qed.

Lemma words_from_nz l : ∀ cur, Forall (λ v, v ≠ 0) cur → Forall (Forall (λ v, v ≠ 0)) (words_from cur l).
Proof.
  assert (∀ cur : list Z, Forall (λ v, v ≠ 0) cur →
    Forall (Forall (λ v, v ≠ 0)) (if decide (cur = []) then [] else [cur])) as Hfl.
  { intros cur Hc. destruct (decide _); [done|]. by apply Forall_singleton. }
  induction l as [|c l IH]; intros cur Hc; cbn [words_from]; [by apply Hfl|].
  destruct (Z.eqb_spec c 0); [by apply Hfl|]. destruct (cmdline_is_space c).
  - apply Forall_app. split; [by apply Hfl|by apply IH].
  - apply IH, Forall_app. split; [done|by apply Forall_singleton].
Qed.

Lemma copy_value_spec n : ∀ m src out,
  bytes m → (src + Z.of_nat n ≤ out ∨ out + Z.of_nat n ≤ src) →
  ∀ x, copy_value n m src out x = if (out <=? x) && (x <? out + Z.of_nat n) then m (src + (x - out)) else m x.
Proof.
  induction n as [|n IH]; intros m src out Hb Hd x; cbn [copy_value].
  { destruct (Z.leb_spec out x), (Z.ltb_spec x (out + Z.of_nat 0)); simpl; try done. lia. }
  rewrite IH; [|by apply bytes_store8|lia].
  destruct (Z.leb_spec (out + 1) x), (Z.ltb_spec x (out + 1 + Z.of_nat n)), (Z.leb_spec out x),
    (Z.ltb_spec x (out + Z.of_nat (S n))); simpl; try lia; rewrite store8_at by apply Hb.
  - destruct (Z.eqb_spec (src + 1 + (x - (out + 1))) out); [lia|]. f_equal. lia.
  - destruct (Z.eqb_spec x out); [lia|]. done.
  - destruct (Z.eqb_spec x out); [subst; f_equal; lia|lia].
  - destruct (Z.eqb_spec x out); [lia|]. done.
Qed.

(** The first word that starts with the key and has more. *)
Definition has_key (k w : list Z) : bool := (length k <? length w)%nat && bool_decide (take (length k) w = k).

(** The words of the command-line tag the search finds. *)
Definition cmdline_words (m : Z → Z) (t : option Z) : list (list Z) :=
  match t with Some tag => words (slice m (tag + 8) (tag_size m tag - 8)) | None => [] end.

Lemma key_test m line len key k a b :
  cstr m key k → 0 ≤ a ≤ b → b ≤ len →
  (Z.of_nat (length k) <? b - a) && same_bytes (Z.to_nat (Z.of_nat (length k))) m (line + a) key
  = has_key k (slice m (line + a) (b - a)).
Proof.
  intros Hk Ha Hb. unfold has_key. rewrite slice_length, same_bytes_slice, !Nat2Z.id, (slice_cstr m key k Hk).
  destruct (Z.ltb_spec (Z.of_nat (length k)) (b - a)).
  - rewrite (proj2 (Nat.ltb_lt _ _)) by lia. simpl. rewrite <- (slice_take m (line + a) (b - a)) by lia. by rewrite Nat2Z.id.
  - by rewrite (proj2 (Nat.ltb_ge _ _)) by lia.
Qed.

Lemma token_test m line key k a b :
  cstr m key k → 0 ≤ a ≤ b →
  (b - a =? Z.of_nat (length k)) && same_bytes (Z.to_nat (Z.of_nat (length k))) m (line + a) key
  = bool_decide (slice m (line + a) (b - a) = k).
Proof.
  intros Hk Ha. rewrite same_bytes_slice, Nat2Z.id, (slice_cstr m key k Hk).
  destruct (Z.eqb_spec (b - a) (Z.of_nat (length k))) as [->|Hne]; simpl; [done|].
  symmetry. apply bool_decide_eq_false_2. intros E. apply (f_equal length) in E. rewrite slice_length in E. lia.
Qed.

(** [multiboot2_has_cmdline_token] is true exactly when the token is one of
    the words of the command line. *)
Theorem cmdline_token_correct (fuel : nat) (m : Z → Z) (mb token : Z) (k : list Z) :
  bytes m → 0 < mb → mb + 2 ^ 32 < 2 ^ 64 → token ≠ 0 → cstr m token k → k ≠ [] → (length k < fuel)%nat →
  8 ≤ total_size m mb →
  ∃ t, search m mb 1 = Ret t
    ∧ multiboot2_has_cmdline_token fuel m mb token = Ret (bool_decide (k ∈ cmdline_words m t)).
Proof.
  intros Hm Hmb Hhi Htok Hk Hne Hf Hts. destruct (search_spec m mb 1 Hm) as (t & Ht & Hin & _).
  exists t. split; [done|]. unfold multiboot2_has_cmdline_token.
  rewrite (proj2 (Z.eqb_neq mb 0)), (proj2 (Z.eqb_neq token 0)) by lia. cbn [orb].
  assert (m token ≠ 0) as Hnz. { destruct k as [|c k]; [done|]. by apply cstr_cons in Hk as (-> & ? & _). }
  rewrite (proj2 (Z.eqb_neq _ _) Hnz), (proj2 (Z.ltb_ge _ _) Hts). cbn [orb].
  rewrite (strlen_spec fuel m token k) by done. cbn [obind].
  pose proof (load32_range m mb Hm) as Hr. fold (total_size m mb) in Hr. unfold is_u32 in Hr.
  rewrite (proj2 (Z.ltb_ge _ _)) by (unfold UINTPTR_MAX; lia). rewrite Ht. cbn [obind].
  destruct t as [tag|]; [|by rewrite bool_decide_eq_false_2 by set_solver].
  destruct (Hin tag eq_refl) as (_ & Hsz & _). cbn [cmdline_words].
  destruct (find_word_spec m (λ a b, (b - a =? Z.of_nat (length k)) && same_bytes (Z.to_nat (Z.of_nat (length k))) m (tag + 8 + a) token)
    (λ w, bool_decide (w = k)) (tag + 8) (tag_size m tag - 8) (S (Z.to_nat (tag_size m tag - 8))) 0) as (r & -> & Hr').
  { intros a b Ha Hb. by apply token_test. }
  { by apply bool_decide_eq_false_2. }
  { lia. }
  { lia. }
  cbn [obind]. rewrite Z.add_0_r, Z.sub_0_r in Hr'. f_equal. destruct r as [[a b]|].
  - destruct Hr' as (_ & _ & Hfd). apply find_some in Hfd as [Hi%list_elem_of_In Hd%bool_decide_eq_true].
    symmetry. apply bool_decide_eq_true_2. by rewrite Hd in Hi.
  - symmetry. apply bool_decide_eq_false_2. intros Hi%list_elem_of_In. pose proof (find_none _ _ Hr' k Hi) as Hd.
    cbv beta in Hd. by rewrite bool_decide_eq_true_2 in Hd.
Qed.

(** [multiboot2_get_cmdline_value] finds the first word of the command line
    that starts with the key, copies the rest of it, cut to the buffer, as a
    C string and changes nothing else; without such a word it returns false
    and leaves an empty string. *)
Theorem cmdline_value_correct (fuel : nat) (m : Z → Z) (mb key out out_size : Z) (k : list Z) :
  bytes m → mb ≠ 0 → key ≠ 0 → out ≠ 0 → 0 < out_size →
  cstr m key k → (length k < fuel)%nat →
  (out + out_size ≤ mb ∨ mb + Z.max 8 (total_size m mb) ≤ out) →
  (out + out_size ≤ key ∨ key + Z.of_nat (length k) < out) →
  ∃ t m', search m mb 1 = Ret t
    ∧ (∀ x, x < out ∨ out + out_size ≤ x → m' x = m x)
    ∧ match List.find (has_key k) (cmdline_words m t) with
      | Some w => multiboot2_get_cmdline_value fuel m mb key out out_size = Ret (true, m')
          ∧ cstr m' out (take (Z.to_nat (out_size - 1)) (drop (length k) w))
      | None => multiboot2_get_cmdline_value fuel m mb key out out_size = Ret (false, m') ∧ cstr m' out []
      end.
Proof.
  intros Hm Hmb Hkey Hout Hn Hk Hf Hdi Hdk. destruct (search_spec m mb 1 Hm) as (t & Ht & Hin & Hag).
  exists t. unfold multiboot2_get_cmdline_value.
  rewrite (proj2 (Z.eqb_neq mb 0)), (proj2 (Z.eqb_neq key 0)), (proj2 (Z.eqb_neq out 0)), (proj2 (Z.eqb_neq out_size 0)) by lia.
  cbn [orb]. set (m1 := store8 m out 0).
  assert (∀ x, m1 x = if x =? out then 0 else m x) as Hm1 by (intros x; by apply store8_at).
  assert (∀ x, x < out ∨ out + out_size ≤ x → m1 x = m x) as Hfr.
  { intros x Hx. rewrite Hm1. destruct (Z.eqb_spec x out); [lia|done]. }
  assert (bytes m1) as Hb1 by by apply bytes_store8.
  assert (cstr m1 key k) as Hk1. { apply (cstr_ext m); [done|]. intros x Hx. apply Hfr. lia. }
  rewrite (strlen_spec fuel m1 key k) by done. cbn [obind].
  rewrite (Hag m1) by (intros x Hx; apply Hfr; lia). cbn [obind].
  assert (cstr m1 out []) as Hempty.
  { constructor; [done| |done]. simpl. rewrite Z.add_0_r, Hm1. by rewrite Z.eqb_refl. }
  destruct t as [tag|]; [|exists m1; by split_and!].
  destruct (Hin tag eq_refl) as (H1 & H2 & H3 & _). cbn [cmdline_words].
  assert (tag_size m1 tag = tag_size m tag) as Hsz.
  { apply mload_ext. intros x Hx. apply Hfr. lia. }
  rewrite Hsz.
  assert (slice m1 (tag + 8) (tag_size m tag - 8) = slice m (tag + 8) (tag_size m tag - 8)) as Hsl.
  { apply slice_ext. intros x Hx. apply Hfr. lia. }
  destruct (find_word_spec m1 (λ a b, (Z.of_nat (length k) <? b - a) && same_bytes (Z.to_nat (Z.of_nat (length k))) m1 (tag + 8 + a) key)
    (has_key k) (tag + 8) (tag_size m tag - 8) (S (Z.to_nat (tag_size m tag - 8))) 0) as (r & -> & Hr').
  { intros a b Ha Hb. by apply (key_test m1 (tag + 8) (tag_size m tag - 8)). }
  { done. }
  { lia. }
  { lia. }
  cbn [obind]. rewrite Z.add_0_r, Z.sub_0_r, Hsl in Hr'. destruct r as [[a b]|].
  2: { rewrite Hr'. exists m1. by split_and!. }
  destruct Hr' as (Ha & Hb & Hfd). rewrite Hfd.
  pose proof (find_some _ _ Hfd) as [Hwin Hkey1]. apply list_elem_of_In in Hwin.
  unfold has_key in Hkey1. apply andb_prop in Hkey1 as [Hlen%Nat.ltb_lt _]. rewrite slice_length in Hlen.
  set (n := Z.min (b - (a + Z.of_nat (length k))) (out_size - 1)).
  set (src := tag + 8 + a + Z.of_nat (length k)).
  set (m2 := copy_value (Z.to_nat n) m1 src out).
  assert (∀ x, m2 x = if (out <=? x) && (x <? out + n) then m1 (src + (x - out)) else m1 x) as Hm2.
  { intros x. unfold m2. rewrite copy_value_spec by (done || lia). by rewrite Z2Nat.id by lia. }
  exists (store8 m2 (out + n) 0).
  assert (∀ x, store8 m2 (out + n) 0 x = if x =? out + n then 0 else m2 x) as Hm3 by (intros x; by apply store8_at).
  split_and!; try done.
  { intros x Hx. rewrite Hm3, Hm2. destruct (Z.eqb_spec x (out + n)); [lia|].
    destruct (Z.leb_spec out x), (Z.ltb_spec x (out + n)); simpl; try lia; by apply Hfr. }
  assert (Forall (λ v, v ≠ 0) (slice m1 (tag + 8 + a) (b - a))) as Hnz.
  { apply (proj1 (Forall_forall _ _) (words_from_nz _ [] (Forall_nil_2 _)) _ Hwin). }
  assert (length (take (Z.to_nat (out_size - 1)) (drop (length k) (slice m1 (tag + 8 + a) (b - a)))) = Z.to_nat n) as Hlv.
  { rewrite length_take, length_drop, slice_length. lia. }
  constructor.
  - intros i v Hi. apply lookup_lt_Some in Hi as Hil. rewrite Hlv in Hil.
    rewrite lookup_take_lt, lookup_drop, slice_lookup in Hi by lia. injection Hi as <-.
    rewrite Hm3, Hm2. destruct (Z.eqb_spec (out + Z.of_nat i) (out + n)); [lia|].
    rewrite (proj2 (Z.leb_le _ _)), (proj2 (Z.ltb_lt _ _)) by lia. simpl. f_equal. unfold src. lia.
  - rewrite Hlv, Z2Nat.id, Hm3, Z.eqb_refl by lia. done.
  - by apply Forall_take, Forall_drop.
Qed.

(** The same memory with a C string at address 4096. *)
Definition with_text (l : list Z) (m : Z → Z) : Z → Z :=
  λ x, if (4096 <=? x) && (x <? 4096 + Z.of_nat (length l)) then nth (Z.to_nat (x - 4096)) l 0 else m x.

Lemma with_text_bytes l m : Forall is_u8 l → bytes m → bytes (with_text l m).
Proof.
  intros Hl Hm x. unfold with_text. case_if; [|done].
  destruct (nth_in_or_default (Z.to_nat (x - 4096)) l 0) as [Hin| ->]; [|unfold is_u8; lia].
  rewrite Forall_forall in Hl. by apply Hl, list_elem_of_In.
Qed.

Lemma with_text_cstr l m :
  Forall (λ v, v ≠ 0) l → m (4096 + Z.of_nat (length l)) = 0 → cstr (with_text l m) 4096 l.
Proof.
  intros Hl Hm. constructor; [| |done].
  - intros i v Hi. apply lookup_lt_Some in Hi as Hil. unfold with_text.
    rewrite (proj2 (Z.leb_le _ _)), (proj2 (Z.ltb_lt _ _)) by lia. simpl.
    replace (Z.to_nat (4096 + Z.of_nat i - 4096)) with i by lia. by apply nth_lookup_Some.
  - unfold with_text. by rewrite (proj2 (Z.ltb_ge _ _)), andb_false_r by lia.
Qed.

Lemma cmdline_value_correct_witness :
  ∃ m', multiboot2_get_cmdline_value 10 (with_text (txt "ramfs=") (boot_mem fb_info)) 65536 4096 8192 8 = Ret (true, m')
    ∧ cstr m' 8192 (txt "64").
Proof.
  destruct (cmdline_value_correct 10 (with_text (txt "ramfs=") (boot_mem fb_info)) 65536 4096 8192 8 (txt "ramfs="))
    as (t & m' & Ht & _ & Hv).
  - apply with_text_bytes; [repeat constructor; unfold is_u8; simpl; lia|apply boot_mem_bytes; vm_compute; reflexivity].
  - lia.
  - lia.
  - lia.
  - lia.
  - apply with_text_cstr; [repeat constructor; discriminate|reflexivity].
  - simpl. lia.
  - left. lia.
  - right. simpl. lia.
  - assert (List.find (has_key (txt "ramfs="))
      (cmdline_words (with_text (txt "ramfs=") (boot_mem fb_info)) t) = Some (txt "ramfs=64")) as E.
    { vm_compute in Ht. injection Ht as <-. vm_compute. reflexivity. }
    rewrite E in Hv. exists m'. exact Hv.
Defined.

Lemma cmdline_token_correct_witness :
  multiboot2_has_cmdline_token 10 (with_text (txt "quiet") (boot_mem fb_info)) 65536 4096 = Ret true
  ∧ multiboot2_has_cmdline_token 10 (with_text (txt "root") (boot_mem fb_info)) 65536 4096 = Ret false.
Proof.
  split; [|vm_compute; reflexivity].
  destruct (cmdline_token_correct 10 (with_text (txt "quiet") (boot_mem fb_info)) 65536 4096 (txt "quiet")) as (t & Ht & Hr);
    [|lia|lia|lia|apply with_text_cstr; [repeat constructor; discriminate|reflexivity]|discriminate|simpl; lia|vm_compute; discriminate|].
  - apply with_text_bytes; [repeat constructor; unfold is_u8; simpl; lia|apply boot_mem_bytes; vm_compute; reflexivity].
  - rewrite Hr. vm_compute in Ht. injection Ht as <-. vm_compute. reflexivity.
Defined.

(** ** Total memory *)

(** A tag of size 0 keeps [get_total_memory] where it is forever. *)
Lemma total_memory_size0_hangs :
  get_total_memory (boot_mem (boot_info [le_bytes 4 9 ++ le_bytes 4 0])) 65536 = Hang.
Proof. vm_compute. reflexivity. Qed.

(** Entries longer than 24 bytes are read at the wrong stride: two available
    entries of 1 MiB in 32-byte records count as one. *)
Lemma total_memory_ignores_entry_size :
  let rec b := le_bytes 8 b ++ le_bytes 8 0x100000 ++ le_bytes 4 1 ++ le_bytes 4 0 ++ le_bytes 8 0 in
  get_total_memory (boot_mem (boot_info
    [le_bytes 4 6 ++ le_bytes 4 80 ++ le_bytes 4 32 ++ le_bytes 4 0 ++ rec 0x100000 ++ rec 0x200000])) 65536
  = Ret 0x100000.
Proof. vm_compute. reflexivity. Qed.
