(* ===== verification/Sched.v ===== *)
(** * Processes and the scheduler ([src/impl/proc/scheduler.c], the life cycle
    in [src/impl/proc/proc.c] and [src/impl/handlers/prochandler.c])

    Process control blocks live in a finite map from addresses; a pointer to
    a block that was freed is not in the map, and following it is [Undef].
    The run queues are the linked lists of the code, threaded through
    [rq_next], one per core and level, and the list of all processes is
    threaded through [next]. Address 0 is NULL; the static idle contexts
    [g_ap_idle[i]] are at the negative address [-1 - i]. [cpu] is the core an
    operation runs on, [now] what [time_get_uptime_ms] returns. Each operation
    is one step: the locks it takes are released when it returns. *)

From stdpp Require Import gmap.
From S2P Require Import Prelude.

Open Scope c_scope.

Definition MAX_CPUS : Z := 16.
Definition SCHED_NUM_LEVELS : Z := 3.
Definition SCHED_LEVEL_INTERACTIVE : Z := 0.
Definition SCHED_LEVEL_BACKGROUND : Z := 2.
Definition sched_level_quantum_ticks : list Z := [20; 50; 100].
Definition SCHED_BOOST_INTERVAL_TICKS : Z := 20000.
Definition SCHED_REBALANCE_INTERVAL_TICKS : Z := 200.
Definition SMP_MASTER_CPU_ID : Z := 0.
Definition STACK_SIZE : Z := 16384.

(** [process_state_t], [process_privilege_t] *)
Inductive process_state := READY | RUNNING | WAITING | PAUSED | ZOMBIE | TERMINATED.
#[export] Instance process_state_eq_dec : EqDecision process_state.
Proof. solve_decision. Defined.
Inductive privilege := KERNEL | USER.
#[export] Instance privilege_eq_dec : EqDecision privilege.
Proof. solve_decision. Defined.

Definition dead (st : process_state) : bool :=
  match st with ZOMBIE | TERMINATED => true | _ => false end.

(** What the clean-up pass gives back. *)
Record resources := mk_res {
  kernel_stack : Z; kernel_stack_page_backed : bool; kernel_stack_pages : Z;
  user_image_phys : Z; user_image_pages : Z; user_stack_phys : Z; user_stack_pages : Z
}.

(** [process_t], the fields the scheduler and the life cycle use. [named] is
    [name[0] != 0]. *)
Record process := mk_proc {
  pid : Z; named : bool; state : process_state; wake_time_ms : Z; cpu_time_ms : Z; next : Z;
  sched_level : Z; sched_cpu : Z; sched_ticks_used : Z; rq_next : Z; priv : privilege; res : resources;
  cleanup_entry : Z; cleanup_deadline_ms : Z; cleanup_requested : bool; cleanup_invoked : bool;
  exit_code : Z; crashed : bool; crash_vector : Z; on_cpu : Z
}.

Definition set_state (v : process_state) (p : process) : process :=
  mk_proc (pid p) (named p) v (wake_time_ms p) (cpu_time_ms p) (next p) (sched_level p) (sched_cpu p)
    (sched_ticks_used p) (rq_next p) (priv p) (res p) (cleanup_entry p) (cleanup_deadline_ms p)
    (cleanup_requested p) (cleanup_invoked p) (exit_code p) (crashed p) (crash_vector p) (on_cpu p).
Definition set_wake (v : Z) (p : process) : process :=
  mk_proc (pid p) (named p) (state p) v (cpu_time_ms p) (next p) (sched_level p) (sched_cpu p)
    (sched_ticks_used p) (rq_next p) (priv p) (res p) (cleanup_entry p) (cleanup_deadline_ms p)
    (cleanup_requested p) (cleanup_invoked p) (exit_code p) (crashed p) (crash_vector p) (on_cpu p).
Definition set_cpu_time (v : Z) (p : process) : process :=
  mk_proc (pid p) (named p) (state p) (wake_time_ms p) v (next p) (sched_level p) (sched_cpu p)
    (sched_ticks_used p) (rq_next p) (priv p) (res p) (cleanup_entry p) (cleanup_deadline_ms p)
    (cleanup_requested p) (cleanup_invoked p) (exit_code p) (crashed p) (crash_vector p) (on_cpu p).
Definition set_next (v : Z) (p : process) : process :=
  mk_proc (pid p) (named p) (state p) (wake_time_ms p) (cpu_time_ms p) v (sched_level p) (sched_cpu p)
    (sched_ticks_used p) (rq_next p) (priv p) (res p) (cleanup_entry p) (cleanup_deadline_ms p)
    (cleanup_requested p) (cleanup_invoked p) (exit_code p) (crashed p) (crash_vector p) (on_cpu p).
(** [sched_level], [sched_cpu] and [sched_ticks_used] together. *)
Definition set_sched (level cpu ticks : Z) (p : process) : process :=
  mk_proc (pid p) (named p) (state p) (wake_time_ms p) (cpu_time_ms p) (next p) level cpu
    ticks (rq_next p) (priv p) (res p) (cleanup_entry p) (cleanup_deadline_ms p)
    (cleanup_requested p) (cleanup_invoked p) (exit_code p) (crashed p) (crash_vector p) (on_cpu p).
Definition set_rq_next (v : Z) (p : process) : process :=
  mk_proc (pid p) (named p) (state p) (wake_time_ms p) (cpu_time_ms p) (next p) (sched_level p) (sched_cpu p)
    (sched_ticks_used p) v (priv p) (res p) (cleanup_entry p) (cleanup_deadline_ms p)
    (cleanup_requested p) (cleanup_invoked p) (exit_code p) (crashed p) (crash_vector p) (on_cpu p).
Definition set_on_cpu (v : Z) (p : process) : process :=
  mk_proc (pid p) (named p) (state p) (wake_time_ms p) (cpu_time_ms p) (next p) (sched_level p) (sched_cpu p)
    (sched_ticks_used p) (rq_next p) (priv p) (res p) (cleanup_entry p) (cleanup_deadline_ms p)
    (cleanup_requested p) (cleanup_invoked p) (exit_code p) (crashed p) (crash_vector p) v.
Definition set_named (v : bool) (p : process) : process :=
  mk_proc (pid p) v (state p) (wake_time_ms p) (cpu_time_ms p) (next p) (sched_level p) (sched_cpu p)
    (sched_ticks_used p) (rq_next p) (priv p) (res p) (cleanup_entry p) (cleanup_deadline_ms p)
    (cleanup_requested p) (cleanup_invoked p) (exit_code p) (crashed p) (crash_vector p) (on_cpu p).
Definition set_cleanup (requested invoked : bool) (deadline : Z) (p : process) : process :=
  mk_proc (pid p) (named p) (state p) (wake_time_ms p) (cpu_time_ms p) (next p) (sched_level p) (sched_cpu p)
    (sched_ticks_used p) (rq_next p) (priv p) (res p) (cleanup_entry p) deadline
    requested invoked (exit_code p) (crashed p) (crash_vector p) (on_cpu p).
Definition set_exit (code : Z) (cr : bool) (vec : Z) (p : process) : process :=
  mk_proc (pid p) (named p) (state p) (wake_time_ms p) (cpu_time_ms p) (next p) (sched_level p) (sched_cpu p)
    (sched_ticks_used p) (rq_next p) (priv p) (res p) (cleanup_entry p) (cleanup_deadline_ms p)
    (cleanup_requested p) (cleanup_invoked p) code cr vec (on_cpu p).
Definition set_cleanup_entry (v : Z) (p : process) : process :=
  mk_proc (pid p) (named p) (state p) (wake_time_ms p) (cpu_time_ms p) (next p) (sched_level p) (sched_cpu p)
    (sched_ticks_used p) (rq_next p) (priv p) (res p) v (cleanup_deadline_ms p)
    (cleanup_requested p) (cleanup_invoked p) (exit_code p) (crashed p) (crash_vector p) (on_cpu p).

Abbreviation pmap := (gmap Z process).

Definition getp (ps : pmap) (a : Z) : outcome process :=
  match ps !! a with Some p => Ret p | None => Undef end.
Definition updp (f : process → process) (a : Z) (ps : pmap) : outcome pmap :=
  let* p := getp ps a in Ret (<[a := f p]> ps).

(** ** Run queues *)

(** [percpu_runqueue_t] *)
Record rq := mk_rq { head : list Z; tail : list Z; count : list Z }.
Definition rq_empty : rq := mk_rq [0; 0; 0] [0; 0; 0] [0; 0; 0].

Definition rq_push (ps : pmap) (q : rq) (a level : Z) : outcome (pmap * rq) :=
  let* ps := updp (set_rq_next 0) a ps in
  let* t := oget (tail q) level in
  let* r := (if negb (t =? 0) then let* ps := updp (set_rq_next a) t ps in Ret (ps, head q)
             else let* h := oset (head q) level a in Ret (ps, h)) in
  let* tl := oset (tail q) level a in
  let* c := oget (count q) level in
  let* cs := oset (count q) level (u32 (c + 1)) in
  Ret (fst r, mk_rq (snd r) tl cs).

(** The popped process, 0 when the level is empty. *)
Definition rq_pop (ps : pmap) (q : rq) (level : Z) : outcome (Z * pmap * rq) :=
  let* a := oget (head q) level in
  if a =? 0 then Ret (0, ps, q)
  else
    let* p := getp ps a in
    let* hs := oset (head q) level (rq_next p) in
    let* ts := (if rq_next p =? 0 then oset (tail q) level 0 else Ret (tail q)) in
    let* ps := updp (set_rq_next 0) a ps in
    let* c := oget (count q) level in
    let* cs := oset (count q) level (u32 (c - 1)) in
    Ret (a, ps, mk_rq hs ts cs).

Definition rq_pop_highest (ps : pmap) (q : rq) : outcome (Z * pmap * rq) :=
  let* r := rq_pop ps q 0 in
  if negb (fst (fst r) =? 0) then Ret r
  else
    let* r := rq_pop (snd (fst r)) (snd r) 1 in
    if negb (fst (fst r) =? 0) then Ret r
    else rq_pop (snd (fst r)) (snd r) 2.

Definition rq_total (q : rq) : Z := u32 (foldl Z.add 0 (count q)).

(** ** The scheduler's state *)

(** [cpu_local_t] *)
Record cpu_local := mk_cpu {
  online : bool; current_process : Z; usage_total_ticks : Z; usage_busy_ticks : Z;
  usage_window_ticks : Z; usage_window_busy_ticks : Z; usage_last_percent : Z
}.

(** Calls of other components. *)
Inductive event :=
| EvExit (pid : Z)                          (** window manager, GPU, screen: the process is gone *)
| EvExited (pid code : Z) (cr : bool) (vec : Z)  (** [command_user_process_exited] *)
| EvForget (a : Z)                          (** [wm_watchdog_forget] *)
| EvFreePages (a n : Z)                     (** [free_pages] *)
| EvFreeMem (a : Z)                         (** [free_mem] *)
| EvHeap (a : Z)                            (** [proc_user_heap_cleanup] *)
| EvSpace (a : Z).                          (** [proc_destroy_address_space] *)

Record sched := mk_sched {
  procs : pmap; g_runqueues : list rq; g_deferred_reap : list Z; g_cpus : list cpu_local; tss_rsp0 : list Z;
  proc_list_head : Z; pid_counter : Z; g_cpu_count : Z; g_online_cpu_count : Z;
  scheduler_on : bool; total_context_switches : Z; idle_cycles : Z; g_global_tick_count : Z;
  events : list event
}.

Definition with_procs (v : pmap) (s : sched) : sched :=
  mk_sched v (g_runqueues s) (g_deferred_reap s) (g_cpus s) (tss_rsp0 s) (proc_list_head s) (pid_counter s)
    (g_cpu_count s) (g_online_cpu_count s) (scheduler_on s) (total_context_switches s) (idle_cycles s)
    (g_global_tick_count s) (events s).
Definition with_rqs (v : list rq) (s : sched) : sched :=
  mk_sched (procs s) v (g_deferred_reap s) (g_cpus s) (tss_rsp0 s) (proc_list_head s) (pid_counter s)
    (g_cpu_count s) (g_online_cpu_count s) (scheduler_on s) (total_context_switches s) (idle_cycles s)
    (g_global_tick_count s) (events s).
Definition with_deferred (v : list Z) (s : sched) : sched :=
  mk_sched (procs s) (g_runqueues s) v (g_cpus s) (tss_rsp0 s) (proc_list_head s) (pid_counter s)
    (g_cpu_count s) (g_online_cpu_count s) (scheduler_on s) (total_context_switches s) (idle_cycles s)
    (g_global_tick_count s) (events s).
Definition with_cpus (v : list cpu_local) (s : sched) : sched :=
  mk_sched (procs s) (g_runqueues s) (g_deferred_reap s) v (tss_rsp0 s) (proc_list_head s) (pid_counter s)
    (g_cpu_count s) (g_online_cpu_count s) (scheduler_on s) (total_context_switches s) (idle_cycles s)
    (g_global_tick_count s) (events s).
Definition with_tss (v : list Z) (s : sched) : sched :=
  mk_sched (procs s) (g_runqueues s) (g_deferred_reap s) (g_cpus s) v (proc_list_head s) (pid_counter s)
    (g_cpu_count s) (g_online_cpu_count s) (scheduler_on s) (total_context_switches s) (idle_cycles s)
    (g_global_tick_count s) (events s).
Definition with_head (v : Z) (s : sched) : sched :=
  mk_sched (procs s) (g_runqueues s) (g_deferred_reap s) (g_cpus s) (tss_rsp0 s) v (pid_counter s)
    (g_cpu_count s) (g_online_cpu_count s) (scheduler_on s) (total_context_switches s) (idle_cycles s)
    (g_global_tick_count s) (events s).
Definition with_pid (v : Z) (s : sched) : sched :=
  mk_sched (procs s) (g_runqueues s) (g_deferred_reap s) (g_cpus s) (tss_rsp0 s) (proc_list_head s) v
    (g_cpu_count s) (g_online_cpu_count s) (scheduler_on s) (total_context_switches s) (idle_cycles s)
    (g_global_tick_count s) (events s).
Definition with_counts (sw idle gtick : Z) (s : sched) : sched :=
  mk_sched (procs s) (g_runqueues s) (g_deferred_reap s) (g_cpus s) (tss_rsp0 s) (proc_list_head s) (pid_counter s)
    (g_cpu_count s) (g_online_cpu_count s) (scheduler_on s) sw idle gtick (events s).
Definition log (l : list event) (s : sched) : sched :=
  mk_sched (procs s) (g_runqueues s) (g_deferred_reap s) (g_cpus s) (tss_rsp0 s) (proc_list_head s) (pid_counter s)
    (g_cpu_count s) (g_online_cpu_count s) (scheduler_on s) (total_context_switches s) (idle_cycles s)
    (g_global_tick_count s) (events s ++ l).
Definition schedulerInit (s : sched) : sched :=
  mk_sched (procs s) (g_runqueues s) (g_deferred_reap s) (g_cpus s) (tss_rsp0 s) (proc_list_head s) (pid_counter s)
    (g_cpu_count s) (g_online_cpu_count s) true (total_context_switches s) (idle_cycles s)
    (g_global_tick_count s) (events s).

Definition upd (f : process → process) (a : Z) (s : sched) : outcome sched :=
  let* ps := updp f a (procs s) in Ret (with_procs ps s).

Definition current (cpu : Z) (s : sched) : outcome Z :=
  let* c := oget (g_cpus s) cpu in Ret (current_process c).
Definition set_current (cpu a : Z) (s : sched) : outcome sched :=
  let* c := oget (g_cpus s) cpu in
  let* cs := oset (g_cpus s) cpu (mk_cpu (online c) a (usage_total_ticks c) (usage_busy_ticks c)
               (usage_window_ticks c) (usage_window_busy_ticks c) (usage_last_percent c)) in
  Ret (with_cpus cs s).

(** [rq_push] and [rq_pop] on a core's queue. *)
Definition push_on (cpu a level : Z) (s : sched) : outcome sched :=
  let* q := oget (g_runqueues s) cpu in
  let* r := rq_push (procs s) q a level in
  let* qs := oset (g_runqueues s) cpu (snd r) in
  Ret (with_rqs qs (with_procs (fst r) s)).

(** ** Enqueueing and dequeueing *)

(** The loop of [pick_least_loaded_cpu] over the first [n] cores. *)
Fixpoint least_loop (qs : list rq) (cpu best_cpu best_load : Z) : Z :=
  match qs with
  | [] => best_cpu
  | q :: qs' =>
      if rq_total q <? best_load then least_loop qs' (cpu + 1) cpu (rq_total q)
      else least_loop qs' (cpu + 1) best_cpu best_load
  end.
Definition pick_least_loaded_cpu (s : sched) : Z :=
  let n := g_online_cpu_count s in
  let n := if n =? 0 then 1 else n in
  let n := if MAX_CPUS <? n then MAX_CPUS else n in
  least_loop (take (Z.to_nat n) (g_runqueues s)) 0 0 4294967295.

Definition scheduler_enqueue_new (a : Z) (s : sched) : outcome sched :=
  if a =? 0 then Ret s
  else
    let cpu := pick_least_loaded_cpu s in
    let* s := upd (set_sched SCHED_LEVEL_INTERACTIVE cpu 0) a s in
    push_on cpu a SCHED_LEVEL_INTERACTIVE s.

Definition scheduler_enqueue_existing (a : Z) (s : sched) : outcome sched :=
  if a =? 0 then Ret s
  else
    let* p := getp (procs s) a in
    if MAX_CPUS <=? sched_cpu p then scheduler_enqueue_new a s
    else
      let* s := upd (set_sched SCHED_LEVEL_INTERACTIVE (sched_cpu p) 0) a s in
      push_on (sched_cpu p) a SCHED_LEVEL_INTERACTIVE s.

(** The search of one level; [None] when [a] is not there. *)
Fixpoint dequeue_walk (fuel : nat) (ps : pmap) (q : rq) (a level prev curr : Z) : outcome (option (pmap * rq)) :=
  match fuel with
  | O => Hang
  | S fuel' =>
      if curr =? 0 then Ret None
      else
        let* p := getp ps curr in
        if curr =? a then
          let* r := (if negb (prev =? 0) then let* ps := updp (set_rq_next (rq_next p)) prev ps in Ret (ps, head q)
                     else let* h := oset (head q) level (rq_next p) in Ret (ps, h)) in
          let* t := oget (tail q) level in
          let* ts := (if t =? curr then oset (tail q) level prev else Ret (tail q)) in
          let* c := oget (count q) level in
          let* cs := oset (count q) level (u32 (c - 1)) in
          let* ps := updp (set_rq_next 0) curr (fst r) in
          Ret (Some (ps, mk_rq (snd r) ts cs))
        else dequeue_walk fuel' ps q a level curr (rq_next p)
  end.

Definition dequeue_level (ps : pmap) (q : rq) (a level : Z) : outcome (option (pmap * rq)) :=
  let* h := oget (head q) level in
  dequeue_walk (S (size ps)) ps q a level 0 h.

Definition dequeue_from (ps : pmap) (q : rq) (a : Z) : outcome (pmap * rq) :=
  let* r := dequeue_level ps q a 0 in
  match r with
  | Some r => Ret r
  | None =>
      let* r := dequeue_level ps q a 1 in
      match r with
      | Some r => Ret r
      | None =>
          let* r := dequeue_level ps q a 2 in
          match r with Some r => Ret r | None => Ret (ps, q) end
      end
  end.

Definition scheduler_dequeue (a : Z) (s : sched) : outcome sched :=
  if a =? 0 then Ret s
  else
    let* p := getp (procs s) a in
    if MAX_CPUS <=? sched_cpu p then Ret s
    else
      let* q := oget (g_runqueues s) (sched_cpu p) in
      let* r := dequeue_from (procs s) q a in
      let* qs := oset (g_runqueues s) (sched_cpu p) (snd r) in
      Ret (with_rqs qs (with_procs (fst r) s)).

(** ** Balancing and boosting *)

(** One core's load in [scheduler_rebalance]: queued work and a running
    process. *)
Definition cpu_load (s : sched) (cpu : Z) : outcome Z :=
  let* q := oget (g_runqueues s) cpu in
  let* c := oget (g_cpus s) cpu in
  if current_process c =? 0 then Ret (rq_total q)
  else
    let* p := getp (procs s) (current_process c) in
    Ret (if decide (state p = RUNNING) then u32 (rq_total q + 1) else rq_total q).

(** busiest core and load, idlest core and load *)
Fixpoint loads_loop (n : nat) (s : sched) (cpu : Z) (b bl i il : Z) : outcome (Z * Z * Z * Z) :=
  match n with
  | O => Ret (b, bl, i, il)
  | S n' =>
      let* load := cpu_load s cpu in
      let '(b, bl) := if bl <? load then (cpu, load) else (b, bl) in
      let '(i, il) := if load <? il then (cpu, load) else (i, il) in
      loads_loop n' s (cpu + 1) b bl i il
  end.

(** The candidates of one level: the process with the least CPU time among
    the user processes that are not live on a core. *)
Fixpoint migrant_walk (fuel : nat) (ps : pmap) (level curr : Z) (best : Z * Z * Z) : outcome (Z * Z * Z) :=
  match fuel with
  | O => Hang
  | S fuel' =>
      if curr =? 0 then Ret best
      else
        let* p := getp ps curr in
        let best :=
          if negb (on_cpu p =? 0) then best
          else if negb (bool_decide (priv p = USER)) then best
          else if cpu_time_ms p <? snd best then (curr, level, cpu_time_ms p)
          else best in
        migrant_walk fuel' ps level (rq_next p) best
  end.

Fixpoint migrant_levels (n : nat) (ps : pmap) (q : rq) (level : Z) (best : Z * Z * Z) : outcome (Z * Z * Z) :=
  match n with
  | O => Ret best
  | S n' =>
      let* h := oget (head q) level in
      let* best := migrant_walk (S (size ps)) ps level h best in
      migrant_levels n' ps q (level + 1) best
  end.

(** The unlinking of the migrant is that of [scheduler_dequeue] in its
    level. *)
Definition scheduler_rebalance (s : sched) : outcome sched :=
  let n := g_online_cpu_count s in
  if (n <? 2) || (MAX_CPUS <? n) then Ret s
  else
    let* l := loads_loop (Z.to_nat n) s 0 0 0 0 4294967295 in
    let '(busiest, busiest_load, idlest, idlest_load) := l in
    if (busiest =? idlest) || (busiest_load <? u32 (idlest_load + 2)) then Ret s
    else
      let* src := oget (g_runqueues s) busiest in
      let* m := migrant_levels 3 (procs s) src 0 (0, 0, 18446744073709551615) in
      let '(migrant, level, _) := m in
      if migrant =? 0 then Ret s
      else
        let* r := dequeue_level (procs s) src migrant level in
        match r with
        | None => Undef
        | Some (ps, src) =>
            let* qs := oset (g_runqueues s) busiest src in
            let s := with_rqs qs (with_procs ps s) in
            let* p := getp (procs s) migrant in
            let* s := upd (set_sched (sched_level p) idlest (sched_ticks_used p)) migrant s in
            push_on idlest migrant (sched_level p) s
        end.

(** The inner loop of [scheduler_priority_boost]. *)
Fixpoint boost_loop (fuel : nat) (ps : pmap) (q : rq) (level : Z) : outcome (pmap * rq) :=
  match fuel with
  | O => Hang
  | S fuel' =>
      let* r := rq_pop ps q level in
      let '(a, ps, q) := r in
      if a =? 0 then Ret (ps, q)
      else
        let* p := getp ps a in
        let* ps := updp (set_sched SCHED_LEVEL_INTERACTIVE (sched_cpu p) 0) a ps in
        let* r := rq_push ps q a SCHED_LEVEL_INTERACTIVE in
        boost_loop fuel' (fst r) (snd r) level
  end.

Definition boost_rq (ps : pmap) (q : rq) : outcome (pmap * rq) :=
  let* r := boost_loop (S (size ps)) ps q 1 in
  boost_loop (S (size (fst r))) (fst r) (snd r) 2.

Fixpoint boost_cpus (n : nat) (cpu : Z) (s : sched) : outcome sched :=
  match n with
  | O => Ret s
  | S n' =>
      let* q := oget (g_runqueues s) cpu in
      let* r := boost_rq (procs s) q in
      let* qs := oset (g_runqueues s) cpu (snd r) in
      boost_cpus n' (cpu + 1) (with_rqs qs (with_procs (fst r) s))
  end.

Definition scheduler_priority_boost (s : sched) : outcome sched :=
  let n := g_online_cpu_count s in
  let n := if MAX_CPUS <? n then MAX_CPUS else n in
  boost_cpus (Z.to_nat n) 0 s.

(** ** Sleeping and waking *)

(** [ready] *)
Definition ready (cpu : Z) (s : sched) : outcome sched :=
  let* c := current cpu s in
  if c =? 0 then Ret s else upd (set_state READY) c s.

Fixpoint wake_loop (fuel : nat) (cpu now curr : Z) (s : sched) : outcome sched :=
  match fuel with
  | O => Hang
  | S fuel' =>
      if curr =? 0 then Ret s
      else
        let* p := getp (procs s) curr in
        let* s :=
          (if decide (state p = WAITING) then
             if (0 <? wake_time_ms p) && (wake_time_ms p <=? now) && (sched_cpu p =? cpu) then
               let* s := upd (set_state READY) curr s in
               let* s := upd (set_wake 0) curr s in
               let* s := upd (set_sched SCHED_LEVEL_INTERACTIVE (sched_cpu p) 0) curr s in
               push_on cpu curr SCHED_LEVEL_INTERACTIVE s
             else Ret s
           else Ret s) in
        wake_loop fuel' cpu now (next p) s
  end.
Definition wake_sleeping_processes (cpu now : Z) (s : sched) : outcome sched :=
  wake_loop (S (size (procs s))) cpu now (proc_list_head s) s.

(** ** Dispatch *)

(** Over the first [g_cpu_count] cores. *)
Definition process_is_current_on_any_cpu (a : Z) (s : sched) : bool :=
  if a =? 0 then false
  else
    let n := if MAX_CPUS <? g_cpu_count s then MAX_CPUS else g_cpu_count s in
    existsb (λ c, online c && (current_process c =? a)) (take (Z.to_nat n) (g_cpus s)).

Definition smp_is_master_core_id (cpu : Z) : bool := cpu =? SMP_MASTER_CPU_ID.
Definition idle_addr (cpu : Z) : Z := -1 - cpu.
Definition scheduler_is_idle_process (a : Z) : bool := (-16 <=? a) && (a <=? -1).

(** The idle context of a core other than the boot core, set up at first
    use; 0 is NULL. *)
Definition ap_idle_for (cpu : Z) (s : sched) : outcome (Z * sched) :=
  if (MAX_CPUS <=? cpu) || smp_is_master_core_id cpu then Ret (0, s)
  else
    let idle := idle_addr cpu in
    let* p := getp (procs s) idle in
    if named p then Ret (idle, s)
    else
      let* s := upd (λ p, set_named true (set_sched SCHED_LEVEL_BACKGROUND cpu (sched_ticks_used p) p)) idle s in
      Ret (idle, s).

(** What is given back for a process that is cleaned up, in the order of the
    calls. *)
Definition release (a : Z) (p : process) : list event :=
  let r := res p in
  [EvForget a]
  ++ (if kernel_stack r =? 0 then []
      else if kernel_stack_page_backed r then [EvFreePages (kernel_stack r - STACK_SIZE) (kernel_stack_pages r)]
      else [EvFreeMem (kernel_stack r - STACK_SIZE)])
  ++ [EvHeap a]
  ++ (if user_image_phys r =? 0 then [] else [EvFreePages (user_image_phys r) (user_image_pages r)])
  ++ (if user_stack_phys r =? 0 then [] else [EvFreePages (user_stack_phys r) (user_stack_pages r)])
  ++ (if decide (priv p = USER) then [EvSpace a] else [])
  ++ [EvFreeMem a].

(** A dead process is unlinked and freed; the result has the next one to look
    at. *)
Definition reap (prev curr : Z) (p : process) (s : sched) : outcome (Z * sched) :=
  let* s := (if negb (prev =? 0) then upd (set_next (next p)) prev s else Ret (with_head (next p) s)) in
  let s := log (release curr p) s in
  let s := with_procs (delete curr (procs s)) s in
  let* n := (if negb (prev =? 0) then let* q := getp (procs s) prev in Ret (next q) else Ret (proc_list_head s)) in
  Ret (n, s).

(** The clean-up pass. [skip] are the processes whose stack may still be in
    use: the deferred ones of every core. *)
Fixpoint cleanup_loop (fuel : nat) (skip : list Z) (prev curr : Z) (s : sched) : outcome sched :=
  match fuel with
  | O => Hang
  | S fuel' =>
      if curr =? 0 then Ret s
      else
        let* p := getp (procs s) curr in
        if dead (state p) then
          if bool_decide (curr ∈ skip) || process_is_current_on_any_cpu curr s
          then cleanup_loop fuel' skip curr (next p) s
          else
            let* r := reap prev curr p s in
            cleanup_loop fuel' skip prev (fst r) (snd r)
        else cleanup_loop fuel' skip curr (next p) s
  end.

Definition cleanup (cpu : Z) (s : sched) : outcome sched :=
  let* d := oget (g_deferred_reap s) cpu in
  let skip := g_deferred_reap s in
  let* ds := oset (g_deferred_reap s) cpu 0 in
  let s := with_deferred ds s in
  cleanup_loop (S (size (procs s))) skip 0 (proc_list_head s) s.

(** The dispatch loop: the first process popped that is READY. *)
Fixpoint pick_next (fuel : nat) (ps : pmap) (q : rq) : outcome (Z * pmap * rq) :=
  match fuel with
  | O => Hang
  | S fuel' =>
      let* r := rq_pop_highest ps q in
      let '(a, ps, q) := r in
      if a =? 0 then Ret (0, ps, q)
      else
        let* p := getp ps a in
        if decide (state p = READY) then Ret (a, ps, q) else pick_next fuel' ps q
  end.

(** [switch_to] and the part of [context_switch] the scheduler sees. *)
Definition switch_to (from to : Z) (s : sched) : outcome sched :=
  let* s := upd (set_on_cpu 1) to s in
  if from =? 0 then Ret s else upd (set_on_cpu 0) from s.

Definition defer_if_dead (cpu old : Z) (s : sched) : outcome sched :=
  if old =? 0 then Ret s
  else
    let* p := getp (procs s) old in
    if dead (state p) then let* ds := oset (g_deferred_reap s) cpu old in Ret (with_deferred ds s) else Ret s.

(** Nothing is ready on this core. *)
Definition no_next (cpu old idle : Z) (s : sched) : outcome sched :=
  let* st := (if old =? 0 then Ret None else let* p := getp (procs s) old in Ret (Some (state p))) in
  if bool_decide (st = Some RUNNING) || bool_decide (st = Some READY) then
    let* s := upd (set_state RUNNING) old s in
    set_current cpu old s
  else
    let s := with_counts (total_context_switches s) (u64 (idle_cycles s + 1)) (g_global_tick_count s) s in
    if negb (idle =? 0) && negb (old =? 0) && negb (old =? idle) then
      let* s := defer_if_dead cpu old s in
      let* s := upd (set_state RUNNING) idle s in
      let* s := set_current cpu idle s in
      switch_to old idle s
    else Ret s.

(** The outgoing process, if it was still running, goes behind its level. *)
Definition requeue_old (cpu old idle : Z) (s : sched) : outcome sched :=
  if old =? 0 then Ret s
  else
    let* p := getp (procs s) old in
    if bool_decide (state p = RUNNING) && negb (old =? idle) then
      let* s := upd (set_state READY) old s in
      push_on cpu old (sched_level p) s
    else Ret s.

(** [nx] becomes the core's process. *)
Definition install (cpu nx : Z) (s : sched) : outcome sched :=
  let* s := upd (λ p, set_sched (sched_level p) (sched_cpu p) 0 p) nx s in
  let* s := upd (set_state RUNNING) nx s in
  let* s := set_current cpu nx s in
  let* p := getp (procs s) nx in
  if kernel_stack (res p) =? 0 then Ret s
  else let* t := oset (tss_rsp0 s) cpu (kernel_stack (res p)) in Ret (with_tss t s).

(** The switch: a core without a process parks its boot context, the boot
    core carries on as its first process. *)
Definition enter (cpu old idle nx : Z) (s : sched) : outcome sched :=
  if (old =? 0) && negb (smp_is_master_core_id cpu) then
    let* s := upd (set_state RUNNING) idle s in
    switch_to idle nx s
  else if old =? 0 then Ret s
  else
    let s := with_counts (u64 (total_context_switches s + 1)) (idle_cycles s) (g_global_tick_count s) s in
    switch_to old nx s.

Definition dispatch (cpu old idle nx : Z) (s : sched) : outcome sched :=
  let* s := requeue_old cpu old idle s in
  let* s := defer_if_dead cpu old s in
  let* s := install cpu nx s in
  enter cpu old idle nx s.

(** The process the core leaves, marked live on it, and its idle context. *)
Definition claim_old (cpu : Z) (s : sched) : outcome (Z * Z * sched) :=
  let* old := current cpu s in
  let* s := (if old =? 0 then Ret s else upd (set_on_cpu 1) old s) in
  let* r := ap_idle_for cpu s in
  Ret (old, fst r, snd r).

(** [schedule_irqs_off]; [schedule] only brackets it with the interrupt
    flag. *)
Definition schedule (cpu : Z) (s : sched) : outcome sched :=
  let* s := cleanup cpu s in
  let* r := claim_old cpu s in
  let '(old, idle, s) := r in
  let* q := oget (g_runqueues s) cpu in
  let* r := pick_next (S (size (procs s))) (procs s) q in
  let '(nx, ps, q) := r in
  let* qs := oset (g_runqueues s) cpu q in
  let s := with_rqs qs (with_procs ps s) in
  if nx =? 0 then no_next cpu old idle s else dispatch cpu old idle nx s.

(** Without a current process [sleep] only waits. *)
Definition sleep (cpu now milliseconds : Z) (s : sched) : outcome sched :=
  if milliseconds =? 0 then Ret s
  else
    let* c := current cpu s in
    if c =? 0 then Ret s
    else
      let* s := upd (set_wake (u64 (now + milliseconds))) c s in
      let* s := upd (set_state WAITING) c s in
      schedule cpu s.

Definition process_exit_with_status (cpu code : Z) (cr : bool) (vec : Z) (s : sched) : outcome sched :=
  let* c := current cpu s in
  if c =? 0 then Panic
  else
    let* s := upd (set_exit code cr vec) c s in
    let* p := getp (procs s) c in
    let s := log [EvExit (pid p); EvExited (pid p) code cr vec] s in
    let* s := upd (set_state TERMINATED) c s in
    schedule cpu s.
Definition process_exit (cpu : Z) (s : sched) : outcome sched := process_exit_with_status cpu 0 false 0 s.

(** ** The timer tick *)

(** The result's flag says that the core left the code for good: the loop
    killed the process it runs in, and [schedule] took the core away. *)
Fixpoint expire_loop (fuel : nat) (cpu now curr : Z) (s : sched) : outcome (bool * sched) :=
  match fuel with
  | O => Hang
  | S fuel' =>
      if curr =? 0 then Ret (false, s)
      else
        let* p := getp (procs s) curr in
        if negb (cleanup_requested p) || dead (state p) || (now <? cleanup_deadline_ms p)
        then expire_loop fuel' cpu now (next p) s
        else
          let s := log [EvExit (pid p)] s in
          let* s := upd (set_state ZOMBIE) curr s in
          let* s := scheduler_dequeue curr s in
          let* c := current cpu s in
          let* s := (if curr =? c then schedule cpu s else Ret s) in
          let* c' := current cpu s in
          if (curr =? c) && negb (curr =? c') then Ret (true, s)
          else
            let* p := getp (procs s) curr in
            expire_loop fuel' cpu now (next p) s
  end.
Definition expire_cleanup_requests (cpu now : Z) (s : sched) : outcome (bool * sched) :=
  expire_loop (S (size (procs s))) cpu now (proc_list_head s) s.

(** The usage counters of a tick. *)
Definition account (busy : bool) (c : cpu_local) : cpu_local :=
  let wt := u32 (usage_window_ticks c + 1) in
  let wb := if busy then u32 (usage_window_busy_ticks c + 1) else usage_window_busy_ticks c in
  let '(wt, wb, last) :=
    if 1000 <=? wt then (0, 0, u32 (wb * 100) / wt) else (wt, wb, usage_last_percent c) in
  mk_cpu (online c) (current_process c) (u64 (usage_total_ticks c + 1))
    (if busy then u64 (usage_busy_ticks c + 1) else usage_busy_ticks c) wt wb last.

Definition usage_tick (cpu : Z) (s : sched) : outcome sched :=
  if cpu <? MAX_CPUS then
    let* c := oget (g_cpus s) cpu in
    let* busy :=
      (if current_process c =? 0 then Ret false
       else
         let* p := getp (procs s) (current_process c) in
         Ret (bool_decide (state p = RUNNING) && negb (scheduler_is_idle_process (current_process c)))) in
    let* cs := oset (g_cpus s) cpu (account busy c) in
    Ret (with_cpus cs s)
  else Ret s.

(** A level better than [level] has work queued. *)
Definition better_ready (q : rq) (level : Z) : bool :=
  existsb (λ c, negb (c =? 0)) (take (Z.to_nat level) (count q)).

(** The running process [c] of [scheduler_tick] pays for the tick. *)
Definition charge_tick (c : Z) (s : sched) : outcome sched :=
  let* s := upd (λ p, set_sched (sched_level p) (sched_cpu p) (u32 (sched_ticks_used p + 1)) p) c s in
  upd (λ p, set_cpu_time (u64 (cpu_time_ms p + 1)) p) c s.

Definition quantum_tick (cpu : Z) (s : sched) : outcome sched :=
  let* c := current cpu s in
  let* p := getp (procs s) c in
  let level := if SCHED_NUM_LEVELS <=? sched_level p then SCHED_NUM_LEVELS - 1 else sched_level p in
  let* better := (if cpu <? MAX_CPUS then let* q := oget (g_runqueues s) cpu in Ret (better_ready q level)
                  else Ret false) in
  if better then schedule cpu s
  else
    let* quantum := oget sched_level_quantum_ticks level in
    if quantum <=? sched_ticks_used p then
      let lv := if sched_level p <? SCHED_NUM_LEVELS - 1 then u32 (sched_level p + 1) else sched_level p in
      let* s := upd (set_sched lv (sched_cpu p) 0) c s in
      schedule cpu s
    else Ret s.

(** The part of [scheduler_tick] after the clean-up requests. A core that had
    no process and gets one leaves here on a core other than the boot core:
    its boot context becomes the idle context, and the accounting below waits
    until that one is resumed; it is not modelled for this case. *)
Definition tick_rest (cpu : Z) (s : sched) : outcome sched :=
  let* c := current cpu s in
  let was_idle := c =? 0 in
  let* s := (if was_idle then schedule cpu s else Ret s) in
  let* c := current cpu s in
  if was_idle && negb (c =? 0) && negb (smp_is_master_core_id cpu) then Ret s
  else
    let* s := usage_tick cpu s in
    if was_idle || (c =? 0) then Ret s
    else if scheduler_is_idle_process c then
      let* q := oget (g_runqueues s) cpu in
      if 0 <? rq_total q then schedule cpu s else Ret s
    else
      let* s := charge_tick c s in
      let my_tick := u64 (g_global_tick_count s + 1) in
      let s := with_counts (total_context_switches s) (idle_cycles s) my_tick s in
      let* s := (if my_tick mod SCHED_BOOST_INTERVAL_TICKS =? 0 then scheduler_priority_boost s else Ret s) in
      let* s := (if my_tick mod SCHED_REBALANCE_INTERVAL_TICKS =? 0 then scheduler_rebalance s else Ret s) in
      quantum_tick cpu s.

Definition scheduler_tick (cpu now : Z) (s : sched) : outcome sched :=
  if negb (scheduler_on s) then Ret s
  else
    let* s := wake_sleeping_processes cpu now s in
    let* r := expire_cleanup_requests cpu now s in
    if fst r then Ret (snd r) else tick_rest cpu (snd r).

(** ** Creation, killing, pausing *)

(** [proc_create_ex] once the block [a], its page tables and stacks are
    there: the process is listed, and a kernel process is queued. *)
Definition new_process (pr : privilege) (r : resources) (entry : Z) (n : Z) (nx : Z) : process :=
  mk_proc n true READY 0 0 nx 0 0 0 0 pr r entry 0 false false 0 false 0 0.
Definition proc_create_ex (pr : privilege) (r : resources) (a : Z) (s : sched) : outcome sched :=
  let n := pid_counter s in
  let s := with_pid (u64 (n + 1)) s in
  let s := with_procs (<[a := new_process pr r 0 n (proc_list_head s)]> (procs s)) s in
  let s := with_head a s in
  match pr with
  | USER => upd (set_state PAUSED) a s
  | KERNEL => scheduler_enqueue_new a s
  end.

Definition proc_start (a : Z) (s : sched) : outcome sched :=
  if a =? 0 then Ret s
  else
    let* p := getp (procs s) a in
    if decide (state p = PAUSED) then
      let* s := upd (set_state READY) a s in scheduler_enqueue_new a s
    else Ret s.

Definition kill (a : Z) (s : sched) : outcome sched :=
  if a =? 0 then Ret s
  else
    let* p := getp (procs s) a in
    let s := log [EvExit (pid p)] s in
    let* s := upd (set_state ZOMBIE) a s in
    scheduler_dequeue a s.

(** The process with this pid, 0 when there is none. *)
Fixpoint find_pid (fuel : nat) (ps : pmap) (n curr : Z) : outcome Z :=
  match fuel with
  | O => Hang
  | S fuel' =>
      if curr =? 0 then Ret 0
      else
        let* p := getp ps curr in
        if pid p =? n then Ret curr else find_pid fuel' ps n (next p)
  end.
Definition findProcessByPID (n : Z) (s : sched) : outcome Z :=
  find_pid (S (size (procs s))) (procs s) n (proc_list_head s).

Definition killProcess (cpu n : Z) (s : sched) : outcome (bool * sched) :=
  if n =? 0 then Ret (false, s)
  else
    let* a := findProcessByPID n s in
    if a =? 0 then Ret (false, s)
    else
      let* p := getp (procs s) a in
      if dead (state p) then Ret (false, s)
      else
        let s := log [EvExit (pid p)] s in
        let* s := upd (set_state ZOMBIE) a s in
        let* s := scheduler_dequeue a s in
        let* c := current cpu s in
        if a =? c then let* s := schedule cpu s in Ret (true, s) else Ret (true, s).

Definition requestProcessCleanup (cpu now n : Z) (s : sched) : outcome (bool * sched) :=
  let* a := findProcessByPID n s in
  if a =? 0 then Ret (false, s)
  else
    let* p := getp (procs s) a in
    if negb (bool_decide (priv p = USER)) || dead (state p) then Ret (false, s)
    else if cleanup_entry p =? 0 then killProcess cpu n s
    else
      let* s := upd (set_cleanup true false (u64 (now + 1000))) a s in
      Ret (true, s).

Definition pauseProcess (cpu n : Z) (s : sched) : outcome (bool * sched) :=
  let* a := findProcessByPID n s in
  if a =? 0 then Ret (false, s)
  else
    let* p := getp (procs s) a in
    if bool_decide (state p = PAUSED) || dead (state p) then Ret (false, s)
    else
      let* s := upd (set_state PAUSED) a s in
      let* s := scheduler_dequeue a s in
      let* c := current cpu s in
      if a =? c then let* s := schedule cpu s in Ret (true, s) else Ret (true, s).

Definition unpauseProcess (n : Z) (s : sched) : outcome (bool * sched) :=
  let* a := findProcessByPID n s in
  if a =? 0 then Ret (false, s)
  else
    let* p := getp (procs s) a in
    if decide (state p = PAUSED) then
      let* s := upd (set_state READY) a s in
      let* s := scheduler_enqueue_existing a s in
      Ret (true, s)
    else Ret (false, s).

(** [createProcessWithPrivilege]: the state of a kernel process is written
    once more after it was queued. *)
Definition createProcess_tail (a : Z) (s : sched) : outcome sched := upd (set_state READY) a s.
Definition createProcess (r : resources) (a : Z) (s : sched) : outcome sched :=
  let* s := proc_create_ex KERNEL r a s in createProcess_tail a s.
Definition createUserProcess (r : resources) (a : Z) (s : sched) : outcome sched := proc_create_ex USER r a s.

(** [SYS_REGISTER_CLEANUP] of the process the core runs; the flag is the
    system call's success. *)
Definition register_cleanup (cpu entry : Z) (s : sched) : outcome (bool * sched) :=
  let* c := current cpu s in
  if (c =? 0) || (entry =? 0) then Ret (false, s)
  else
    let* p := getp (procs s) c in
    if decide (priv p = USER) then
      let* s := upd (λ p, set_cleanup false false (cleanup_deadline_ms p) (set_cleanup_entry entry p)) c s in
      Ret (true, s)
    else Ret (false, s).

(** ** The cores, and the state at boot *)

Definition cpu_zero (on : bool) : cpu_local := mk_cpu on 0 0 0 0 0 0.
(** [smp_init_bsp]: only the boot core is online. *)
Definition smp_init_bsp : list cpu_local := cpu_zero true :: replicate 15 (cpu_zero false).

(** A core that came up: [ap_entry_c] has marked it online and
    [smp_start_aps] has counted it. *)
Definition ap_online (s : sched) : outcome sched :=
  let cpu := g_cpu_count s in
  let* c := oget (g_cpus s) cpu in
  let* cs := oset (g_cpus s) cpu (mk_cpu true 0 (usage_total_ticks c) (usage_busy_ticks c)
               (usage_window_ticks c) (usage_window_busy_ticks c) (usage_last_percent c)) in
  Ret (mk_sched (procs s) (g_runqueues s) (g_deferred_reap s) cs (tss_rsp0 s) (proc_list_head s) (pid_counter s)
    (u32 (cpu + 1)) (u32 (g_online_cpu_count s + 1)) (scheduler_on s) (total_context_switches s) (idle_cycles s)
    (g_global_tick_count s) (events s)).

(** The zeroed [g_ap_idle[i]], and every static object as the loader leaves
    it. *)
Definition zero_res : resources := mk_res 0 false 0 0 0 0 0.
Definition idle_zero : process := mk_proc 0 false READY 0 0 0 0 0 0 0 KERNEL zero_res 0 0 false false 0 false 0 0.
Definition idle_blocks : pmap := list_to_map ((λ i, (idle_addr (Z.of_nat i), idle_zero)) <$> seq 0 16).
Definition sched_boot : sched :=
  mk_sched idle_blocks (replicate 16 rq_empty) (replicate 16 0) smp_init_bsp (replicate 16 0) 0 1 1 1 false 0 0 0 [].

(** ** The operations, as the steps of the system *)

Inductive op :=
| OInit
| OOnline
| OTick (cpu now : Z)
| OSchedule (cpu : Z)
| OSleep (cpu now ms : Z)
| OExit (cpu code : Z) (cr : bool) (vec : Z)
| OKill (a : Z)
| OKillPid (cpu n : Z)
| OCleanup (cpu now n : Z)
| ORegister (cpu entry : Z)
| OPause (cpu n : Z)
| OUnpause (n : Z)
| OStart (a : Z)
| OCreate (r : resources) (a : Z)
| OCreateUser (r : resources) (a : Z).

Definition exec (o : op) (s : sched) : outcome sched :=
  match o with
  | OInit => Ret (schedulerInit s)
  | OOnline => ap_online s
  | OTick cpu now => scheduler_tick cpu now s
  | OSchedule cpu => schedule cpu s
  | OSleep cpu now ms => sleep cpu now ms s
  | OExit cpu code cr vec => process_exit_with_status cpu code cr vec s
  | OKill a => kill a s
  | OKillPid cpu n => let* r := killProcess cpu n s in Ret (snd r)
  | OCleanup cpu now n => let* r := requestProcessCleanup cpu now n s in Ret (snd r)
  | ORegister cpu entry => let* r := register_cleanup cpu entry s in Ret (snd r)
  | OPause cpu n => let* r := pauseProcess cpu n s in Ret (snd r)
  | OUnpause n => let* r := unpauseProcess n s in Ret (snd r)
  | OStart a => proc_start a s
  | OCreate r a => createProcess r a s
  | OCreateUser r a => createUserProcess r a s
  end.
Fixpoint exec_all (os : list op) (s : sched) : outcome sched :=
  match os with
  | [] => Ret s
  | o :: os => let* s := exec o s in exec_all os s
  end.
