(* ===== verification/SchedQueue.v ===== *)
(** * The run queues are FIFO lists ([rq_push], [rq_pop], [scheduler_dequeue])

    The queues are linked through the process blocks. [view] is a block map
    without those links; [rq_rep] says that a queue record and the links stand
    for one list per level, and [qrep] does so for the queues of all cores.
    The lemmas give each queue operation its effect on the lists and show that
    it leaves the rest of the blocks alone. *)

From stdpp Require Import gmap.
From S2P Require Import Prelude Sched.

Open Scope c_scope.

(** ** The linked lists of the queues *)

(** The [rq_next] field of a block, and a block without it: what the queue
    operations change and what they keep. *)
Definition rqn (ps : pmap) (a : Z) : option Z := rq_next <$> ps !! a.
Definition erase (p : process) : process := set_rq_next 0 p.
Definition view (ps : pmap) : pmap := erase <$> ps.

Lemma getp_ret (ps : pmap) a p : ps !! a = Some p → getp ps a = Ret p.
Proof. intros E. unfold getp. by rewrite E. Qed.

Lemma updp_ret f (ps : pmap) a p : ps !! a = Some p → updp f a ps = Ret (<[a := f p]> ps).
Proof. intros E. unfold updp. by rewrite (getp_ret _ _ _ E). Qed.

Lemma erase_set_rq_next v p : erase (set_rq_next v p) = erase p.
Proof. done. Qed.

Lemma view_lookup ps a : view ps !! a = erase <$> ps !! a.
Proof. apply lookup_fmap. Qed.

Lemma view_rq_next ps a p v : ps !! a = Some p → view (<[a := set_rq_next v p]> ps) = view ps.
Proof.
  intros E. unfold view. rewrite fmap_insert, erase_set_rq_next. apply insert_id. by rewrite lookup_fmap, E.
Qed.

Lemma view_size ps : size (view ps) = size ps.
Proof. unfold view. apply map_size_fmap. Qed.

Lemma rqn_insert ps a p v b : rqn (<[a := set_rq_next v p]> ps) b = if decide (a = b) then Some v else rqn ps b.
Proof.
  unfold rqn. destruct (decide (a = b)) as [->|]; [by rewrite lookup_insert_eq|by rewrite lookup_insert_ne].
Qed.

(** [l] is linked: each block points to the next one of the list. *)
Definition chain (ps : pmap) (l : list Z) : Prop :=
  ∀ i a, l !! i = Some a → rqn ps a = Some (default 0 (l !! S i)).

Lemma chain_ext ps ps' l : (∀ a, a ∈ l → rqn ps' a = rqn ps a) → chain ps l → chain ps' l.
Proof.
  intros H Hc i a Hi. rewrite H; [by apply Hc|]. by eapply list_elem_of_lookup_2.
Qed.

Lemma chain_some ps l a : chain ps l → a ∈ l → ∃ p, ps !! a = Some p.
Proof.
  intros Hc (i & Hi)%list_elem_of_lookup_1. specialize (Hc i a Hi). unfold rqn in Hc.
  destruct (ps !! a); [by eexists|done].
Qed.

Lemma chain_tail ps a l : chain ps (a :: l) → chain ps l.
Proof. intros Hc i b Hi. apply (Hc (S i) b Hi). Qed.

Lemma chain_head ps a l : chain ps (a :: l) → rqn ps a = Some (default 0 (l !! 0%nat)).
Proof. intros Hc. apply (Hc 0%nat a eq_refl). Qed.

Lemma nodup_lookup_ne {A} (l : list A) i j a b :
  NoDup l → l !! i = Some a → l !! j = Some b → i ≠ j → a ≠ b.
Proof. intros Hn Hi Hj Hne ->. apply Hne. by eapply NoDup_lookup. Qed.

(** Linking [a] behind the last block. *)
Lemma chain_snoc ps ps' l a :
  chain ps l → NoDup l → a ∉ l →
  rqn ps' a = Some 0 → (∀ t, last l = Some t → rqn ps' t = Some a) →
  (∀ b, b ∈ l → last l ≠ Some b → rqn ps' b = rqn ps b) →
  chain ps' (l ++ [a]).
Proof.
  intros Hc Hn Ha H0 Ht Hb i x Hi. destruct (decide (i < length l)%nat) as [Hlt|Hge].
  - rewrite lookup_app_l in Hi by done. destruct (decide (S i < length l)%nat) as [Hlt2|Hge2].
    + rewrite (lookup_app_l _ _ (S i)) by done. rewrite Hb; [by apply Hc|by eapply list_elem_of_lookup_2|].
      rewrite last_lookup. intros Hlast.
      pose proof (NoDup_lookup _ _ _ _ Hn Hi Hlast). lia.
    + assert (last l = Some x) as Hl by (rewrite last_lookup; by replace (pred (length l)) with i by lia).
      rewrite (lookup_app_r _ _ (S i)) by lia. replace (S i - length l)%nat with 0%nat by lia. by apply Ht.
  - rewrite lookup_app_r in Hi by lia. apply list_lookup_singleton_Some in Hi as [Hi <-].
    rewrite lookup_ge_None_2 by (rewrite length_app; simpl; lia). done.
Qed.

(** Unlinking [a] from the middle. *)
Lemma chain_remove ps ps' l1 a l2 :
  chain ps (l1 ++ a :: l2) → NoDup (l1 ++ a :: l2) →
  (∀ t, last l1 = Some t → rqn ps' t = Some (default 0 (l2 !! 0%nat))) →
  (∀ b, b ∈ l1 ++ l2 → last l1 ≠ Some b → rqn ps' b = rqn ps b) →
  chain ps' (l1 ++ l2).
Proof.
  intros Hc Hn Ht Hb i x Hi. destruct (decide (i < length l1)%nat) as [Hlt|Hge].
  - rewrite lookup_app_l in Hi by done. destruct (decide (S i < length l1)%nat) as [Hlt2|Hge2].
    + rewrite Hb; [|apply elem_of_app; left; by eapply list_elem_of_lookup_2|].
      * rewrite (Hc i x) by (by rewrite lookup_app_l by done). by rewrite !(lookup_app_l _ _ (S i)) by done.
      * rewrite last_lookup. intros Hlast. apply NoDup_app in Hn as [Hn _].
        pose proof (NoDup_lookup _ _ _ _ Hn Hi Hlast). lia.
    + rewrite Ht by (rewrite last_lookup; by replace (pred (length l1)) with i by lia).
      rewrite (lookup_app_r _ _ (S i)) by lia. by replace (S i - length l1)%nat with 0%nat by lia.
  - rewrite lookup_app_r in Hi by lia. rewrite Hb.
    + rewrite (Hc (S i) x).
      * rewrite !lookup_app_r by lia. replace (S (S i) - length l1)%nat with (S (S (i - length l1))) by lia.
        by replace (S i - length l1)%nat with (S (i - length l1)) by lia.
      * rewrite lookup_app_r by lia. by replace (S i - length l1)%nat with (S (i - length l1)) by lia.
    + apply elem_of_app. right. by eapply list_elem_of_lookup_2.
    + intros Hl. apply last_Some_elem_of in Hl. apply NoDup_app in Hn as (_ & Hn & _).
      apply (Hn x Hl). right. by eapply list_elem_of_lookup_2.
Qed.

(** ** One run queue *)

(** The three levels hold the lists [Ql 0], [Ql 1], [Ql 2]. *)
Record level_rep (ps : pmap) (q : rq) (lv : Z) (l : list Z) : Prop := {
  lr_head : head q !! Z.to_nat lv = Some (default 0 (l !! 0%nat));
  lr_tail : tail q !! Z.to_nat lv = Some (default 0 (last l));
  lr_count : count q !! Z.to_nat lv = Some (Z.of_nat (length l));
  lr_chain : chain ps l;
  lr_nodup : NoDup l;
  lr_nz : 0 ∉ l
}.

Definition level_ok (lv : Z) : Prop := 0 ≤ lv < 3.

Record rq_rep (ps : pmap) (q : rq) (Ql : Z → list Z) : Prop := {
  rr_head : length (head q) = 3%nat;
  rr_tail : length (tail q) = 3%nat;
  rr_count : length (count q) = 3%nat;
  rr_levels : ∀ lv, level_ok lv → level_rep ps q lv (Ql lv);
  rr_disj : ∀ lv lv' a, level_ok lv → level_ok lv' → a ∈ Ql lv → a ∈ Ql lv' → lv = lv';
  rr_small : ∀ lv, level_ok lv → Z.of_nat (length (Ql lv)) < 2 ^ 31
}.

Definition setl (Ql : Z → list Z) (lv : Z) (l : list Z) : Z → list Z := λ x, if x =? lv then l else Ql x.
Lemma setl_eq Ql lv l : setl Ql lv l lv = l.
Proof. unfold setl. by rewrite Z.eqb_refl. Qed.
Lemma setl_ne Ql lv l x : x ≠ lv → setl Ql lv l x = Ql x.
Proof. intros. unfold setl. by rewrite (proj2 (Z.eqb_neq _ _)). Qed.

Lemma to_nat_ne a b : 0 ≤ a → 0 ≤ b → a ≠ b → Z.to_nat a ≠ Z.to_nat b.
Proof. lia. Qed.

(** Another level is not touched when one level's cells and its blocks are. *)
Lemma level_rep_other ps ps' q q' lv x l :
  0 ≤ lv → 0 ≤ x → x ≠ lv → level_rep ps q x l →
  (∃ v, head q' = <[Z.to_nat lv := v]> (head q)) ∨ head q' = head q →
  (∃ v, tail q' = <[Z.to_nat lv := v]> (tail q)) ∨ tail q' = tail q →
  (∃ v, count q' = <[Z.to_nat lv := v]> (count q)) →
  (∀ b, b ∈ l → rqn ps' b = rqn ps b) →
  level_rep ps' q' x l.
Proof.
  intros H0 Hx Hne [Hh Ht Hc Hch Hn Hnz] H1 H2 (v3 & H3) Hb. pose proof (to_nat_ne lv x H0 Hx ltac:(lia)).
  constructor; try done.
  - destruct H1 as [(v & ->)| ->]; [by rewrite list_lookup_insert_ne|done].
  - destruct H2 as [(v & ->)| ->]; [by rewrite list_lookup_insert_ne|done].
  - by rewrite H3, list_lookup_insert_ne.
  - by apply (chain_ext ps).
Qed.

Lemma default_last_nz (l : list Z) : 0 ∉ l → l ≠ [] → ∃ t, last l = Some t ∧ t ≠ 0 ∧ t ∈ l.
Proof.
  intros Hnz Hne. destruct (last l) as [t|] eqn:E.
  - apply last_Some_elem_of in E as Hin. exists t. split_and!; try done. by intros ->.
  - by apply last_None in E.
Qed.

(** At most cell [lv] of an array changed. *)
Definition cell {A} (lv : Z) (l l' : list A) : Prop := (∃ v, l' = <[Z.to_nat lv := v]> l) ∨ l' = l.
Lemma cell_set {A} lv (l : list A) v : cell lv l (<[Z.to_nat lv := v]> l).
Proof. left. by eexists. Qed.
Lemma cell_refl {A} lv (l : list A) : cell lv l l.
Proof. by right. Qed.
Lemma cell_length {A} lv (l l' : list A) : cell lv l l' → length l' = length l.
Proof. intros [(v & ->)| ->]; by rewrite ?length_insert. Qed.
#[export] Hint Resolve cell_set cell_refl : cint.

(** One level of a queue gets a new list. *)
Lemma rq_rep_level ps ps' q q' Ql lv l' :
  rq_rep ps q Ql → level_ok lv →
  cell lv (head q) (head q') → cell lv (tail q) (tail q') → (∃ v, count q' = <[Z.to_nat lv := v]> (count q)) →
  level_rep ps' q' lv l' → (∀ x b, level_ok x → x ≠ lv → b ∈ Ql x → rqn ps' b = rqn ps b ∧ b ∉ l') →
  Z.of_nat (length l') < 2 ^ 31 → rq_rep ps' q' (setl Ql lv l').
Proof.
  intros [Hlh Hlt Hlc Hlev Hdis Hsmall] Hlv Hh Ht Hc Hrep Hb Hsm.
  constructor; [by rewrite (cell_length _ _ _ Hh)|by rewrite (cell_length _ _ _ Ht)|destruct Hc as [v ->]; by rewrite length_insert| | |].
  - intros x Hx. destruct (decide (x = lv)) as [->|Hne]; [by rewrite setl_eq|]. rewrite setl_ne by done.
    unfold level_ok in *. apply (level_rep_other ps ps' q q' lv); try done; try lia; [by apply Hlev|]. intros b Hin. by apply (Hb x b).
  - intros x y b Hx Hy. unfold setl. destruct (Z.eqb_spec x lv), (Z.eqb_spec y lv); subst; try done.
    + intros H1 H2. by destruct (Hb y b Hy).
    + intros H1 H2. by destruct (Hb x b Hx).
    + by apply Hdis.
  - intros x Hx. unfold setl. destruct (Z.eqb_spec x lv); [done|by apply Hsmall].
Qed.

(** The new block is linked behind the tail. *)
Lemma link_tail ps q a lv l p :
  level_rep ps q lv l → length (head q) = 3%nat → level_ok lv → ps !! a = Some p → a ∉ l →
  ∃ ps2 h2, (if negb (default 0 (last l) =? 0)
      then let* ps := updp (set_rq_next a) (default 0 (last l)) (<[a := set_rq_next 0 p]> ps) in Ret (ps, head q)
      else let* h := oset (head q) lv a in Ret (<[a := set_rq_next 0 p]> ps, h)) = Ret (ps2, h2)
    ∧ view ps2 = view ps ∧ h2 !! Z.to_nat lv = Some (default 0 ((l ++ [a]) !! 0%nat)) ∧ cell lv (head q) h2
    ∧ chain ps2 (l ++ [a]) ∧ (∀ b, b ≠ a → b ∉ l → rqn ps2 b = rqn ps b).
Proof.
  intros [Hh _ _ Hch Hn Hnz] Hlh Hlv Hp Hal. unfold level_ok in Hlv. set (ps1 := <[a := set_rq_next 0 p]> ps).
  assert (rqn ps1 a = Some 0) as Hra by (unfold ps1; by rewrite rqn_insert, decide_True).
  assert (∀ b, b ≠ a → rqn ps1 b = rqn ps b) as Hrb by (intros b Hb; unfold ps1; by rewrite rqn_insert, decide_False).
  assert (view ps1 = view ps) as Hv1 by by apply view_rq_next.
  destruct (decide (l = [])) as [->|Nl].
  - change (negb (default 0 (last []) =? 0)) with false. cbv iota.
    rewrite oset_in by (rewrite Hlh; lia). exists ps1, (<[Z.to_nat lv := a]> (head q)).
    split_and!; auto with cint; [apply list_lookup_insert_eq; rewrite Hlh; lia|]. apply (chain_snoc ps _ []); try done.
    intros b Hb%not_elem_of_nil. done.
  - destruct (default_last_nz _ Hnz Nl) as (t & Et & Ht0 & Htin). rewrite Et. change (default 0 (Some t)) with t.
    rewrite (proj2 (Z.eqb_neq t 0)) by done. cbn [negb]. destruct (chain_some _ _ _ Hch Htin) as (pt & Hpt).
    assert (t ≠ a) as Hta by (intros ->; done).
    assert (ps1 !! t = Some pt) as Hpt1 by (unfold ps1; by rewrite lookup_insert_ne).
    rewrite (updp_ret _ _ _ _ Hpt1). cbn [obind]. exists (<[t := set_rq_next a pt]> ps1), (head q).
    assert (∀ b, b ≠ a → b ≠ t → rqn (<[t := set_rq_next a pt]> ps1) b = rqn ps b) as Hrb2.
    { intros b Hb Hbt. rewrite rqn_insert, decide_False by congruence. by apply Hrb. }
    split_and!; auto with cint; [by rewrite view_rq_next| | |].
    + rewrite lookup_app_l by (destruct l; [done|simpl; lia]). done.
    + apply (chain_snoc ps); try done; [by rewrite rqn_insert, decide_False|rewrite Et; intros t' [= <-]; by rewrite rqn_insert, decide_True|].
      intros b Hb Hbl. apply Hrb2; congruence.
    + intros b Hb Hbl. apply Hrb2; congruence.
Qed.

Lemma rq_push_spec ps q Ql a lv p :
  rq_rep ps q Ql → level_ok lv → ps !! a = Some p → a ≠ 0 →
  (∀ x, level_ok x → a ∉ Ql x) → Z.of_nat (length (Ql lv)) + 1 < 2 ^ 31 →
  ∃ ps' q', rq_push ps q a lv = Ret (ps', q')
    ∧ rq_rep ps' q' (setl Ql lv (Ql lv ++ [a])) ∧ view ps' = view ps
    ∧ (∀ b, b ≠ a → b ∉ Ql lv → rqn ps' b = rqn ps b).
Proof.
  intros Hr Hlv Hp Ha Hnq Hsm. pose proof Hr as [Hlh Hlt Hlc Hlev Hdis Hsmall].
  pose proof (Hlev lv Hlv) as Hrep. pose proof Hrep as [Hh Ht Hc Hch Hn Hnz].
  assert (0 ≤ lv < 3) as Hlv' by done. assert (a ∉ Ql lv) as Hal by by apply Hnq.
  unfold rq_push. rewrite (updp_ret _ _ _ _ Hp). cbn [obind]. rewrite (oget_in _ _ _ (proj1 Hlv') Ht). cbn [obind].
  destruct (link_tail ps q a lv (Ql lv) p Hrep Hlh Hlv Hp Hal) as (ps2 & h2 & -> & Hv2 & Hh2 & Hhf & Hch2 & Hb2).
  cbn [obind]. rewrite oset_in by (rewrite Hlt; lia). cbn [obind].
  rewrite (oget_in _ _ _ (proj1 Hlv') Hc). cbn [obind]. rewrite oset_in by (rewrite Hlc; lia). cbn [obind fst snd].
  rewrite u32_small by (unfold is_u32; lia). do 2 eexists. split; [done|]. split_and!; [|done|done].
  apply (rq_rep_level ps _ q); simpl; auto with cint; [by eexists| | |rewrite length_app; simpl; lia].
  - constructor; simpl; try done.
    + rewrite last_snoc. apply list_lookup_insert_eq. lia.
    + rewrite list_lookup_insert_eq by lia. rewrite length_app. simpl. f_equal. lia.
    + apply NoDup_app. split_and!; [done| |apply NoDup_singleton]. intros b Hb ->%list_elem_of_singleton. done.
    + rewrite elem_of_app, list_elem_of_singleton. naive_solver.
  - intros x b Hx Hne Hb. assert (b ≠ a) by (intros ->; by apply (Hnq x)).
    assert (b ∉ Ql lv) by (intros Hin; by apply Hne, (Hdis x lv b)). split; [by apply Hb2|].
    rewrite elem_of_app, list_elem_of_singleton. naive_solver.
Qed.

Lemma rq_rep_ext ps ps' q Ql :
  rq_rep ps q Ql → (∀ lv a, level_ok lv → a ∈ Ql lv → rqn ps' a = rqn ps a) → rq_rep ps' q Ql.
Proof.
  intros [? ? ? Hlev ? ?] H. constructor; try done. intros lv Hlv. destruct (Hlev lv Hlv) as [? ? ? Hc ? ?].
  constructor; try done. apply (chain_ext ps); [|done]. intros a Ha. by apply (H lv).
Qed.

Lemma rq_rep_setl_id ps q Ql lv : rq_rep ps q Ql → rq_rep ps q (setl Ql lv (Ql lv)).
Proof.
  intros [? ? ? Hlev Hd Hs].
  assert (∀ x, setl Ql lv (Ql lv) x = Ql x) as E by (intros x; unfold setl; by destruct (Z.eqb_spec x lv); subst).
  constructor; try done; intros; rewrite ?E in *; eauto.
Qed.

Lemma rq_pop_spec ps q Ql lv a r :
  rq_rep ps q Ql → level_ok lv → Ql lv = a :: r →
  ∃ ps' q', rq_pop ps q lv = Ret (a, ps', q') ∧ a ≠ 0
    ∧ rq_rep ps' q' (setl Ql lv r) ∧ view ps' = view ps ∧ is_Some (ps' !! a)
    ∧ (∀ b, b ≠ a → rqn ps' b = rqn ps b).
Proof.
  intros Hr Hlv Hl. pose proof Hr as [Hlh Hlt Hlc Hlev Hdis Hsmall].
  destruct (Hlev lv Hlv) as [Hh Ht Hc Hch Hn Hnz]. rewrite Hl in *. unfold level_ok in Hlv.
  assert (a ≠ 0) as Ha0 by (intros ->; apply Hnz; by left).
  unfold rq_pop. rewrite (oget_in _ _ _ (proj1 Hlv) Hh). cbn [obind].
  change (default 0 ((a :: r) !! 0%nat)) with a. rewrite (proj2 (Z.eqb_neq a 0)) by done.
  destruct (chain_some _ _ a Hch ltac:(by left)) as (p & Hp). rewrite (getp_ret _ _ _ Hp). cbn [obind].
  assert (rq_next p = default 0 (r !! 0%nat)) as Hnx.
  { pose proof (chain_head _ _ _ Hch) as H. unfold rqn in H. rewrite Hp in H. by injection H. }
  rewrite oset_in by (rewrite Hlh; lia). cbn [obind].
  apply NoDup_cons in Hn as [Har Hn]. rewrite not_elem_of_cons in Hnz.
  assert (∃ ts, (if rq_next p =? 0 then oset (tail q) lv 0 else Ret (tail q)) = Ret ts
    ∧ ts !! Z.to_nat lv = Some (default 0 (last r)) ∧ cell lv (tail q) ts) as (ts & -> & Hts & Htf).
  { destruct r as [|b r].
    - rewrite Hnx. simpl. rewrite oset_in by (rewrite Hlt; lia). eexists. split; [done|].
      split; [apply list_lookup_insert_eq; lia|auto with cint].
    - rewrite Hnx. change (default 0 ((b :: r) !! 0%nat)) with b.
      rewrite (proj2 (Z.eqb_neq b 0)) by (intros ->; apply (proj2 Hnz); by left).
      exists (tail q). split_and!; auto with cint. }
  cbn [obind]. rewrite (updp_ret _ _ _ _ Hp). cbn [obind].
  rewrite (oget_in _ _ _ (proj1 Hlv) Hc). cbn [obind]. rewrite oset_in by (rewrite Hlc; lia). cbn [obind].
  pose proof (Hsmall lv Hlv) as Hsm. rewrite Hl in Hsm. simpl in Hsm.
  rewrite u32_small by (unfold is_u32; simpl; lia).
  assert (∀ b, b ≠ a → rqn (<[a := set_rq_next 0 p]> ps) b = rqn ps b) as Hrb
    by (intros b Hb; by rewrite rqn_insert, decide_False).
  do 2 eexists. split; [done|]. split; [done|]. split_and!; [|by apply view_rq_next|by rewrite lookup_insert_eq|done].
  apply (rq_rep_level ps _ q); simpl; auto with cint; [by eexists| | |lia].
  - constructor; simpl; try done; [rewrite list_lookup_insert_eq by lia; by rewrite Hnx| | |tauto].
    + rewrite list_lookup_insert_eq by lia. f_equal. lia.
    + apply (chain_ext ps); [|by eapply chain_tail]. intros b Hb. apply Hrb. by intros ->.
  - intros x b Hx Hne Hb. assert (b ∉ a :: r) as Hbl by (rewrite <- Hl; intros Hin; by apply Hne, (Hdis x lv b)).
    apply not_elem_of_cons in Hbl as [? ?]. split; [by apply Hrb|done].
Qed.

Lemma rq_pop_empty ps q Ql lv :
  rq_rep ps q Ql → level_ok lv → Ql lv = [] → rq_pop ps q lv = Ret (0, ps, q).
Proof.
  intros [_ _ _ Hlev _ _] Hlv Hl. destruct (Hlev lv Hlv) as [Hh _ _ _ _ _]. rewrite Hl in Hh.
  unfold rq_pop. unfold level_ok in Hlv. rewrite (oget_in _ _ _ (proj1 Hlv) Hh). done.
Qed.

(** The highest level with work, and the list it holds. *)
Definition top (Ql : Z → list Z) : option Z :=
  if decide (Ql 0 = []) then if decide (Ql 1 = []) then if decide (Ql 2 = []) then None else Some 2 else Some 1
  else Some 0.

Lemma list_ne {A} (l : list A) : l ≠ [] → ∃ a r, l = a :: r.
Proof. destruct l; [done|by eauto]. Qed.

Lemma rq_pop_highest_spec ps q Ql :
  rq_rep ps q Ql →
  match top Ql with
  | None => rq_pop_highest ps q = Ret (0, ps, q) ∧ ∀ lv, level_ok lv → Ql lv = []
  | Some lv => level_ok lv ∧ (∀ x, 0 ≤ x < lv → Ql x = []) ∧ ∃ a r ps' q', Ql lv = a :: r
      ∧ rq_pop_highest ps q = Ret (a, ps', q') ∧ a ≠ 0
      ∧ rq_rep ps' q' (setl Ql lv r) ∧ view ps' = view ps ∧ is_Some (ps' !! a)
      ∧ (∀ b, b ≠ a → rqn ps' b = rqn ps b)
  end.
Proof.
  intros Hr. unfold top, rq_pop_highest.
  assert (level_ok 0 ∧ level_ok 1 ∧ level_ok 2) as (H0 & H1 & H2) by (unfold level_ok; lia).
  assert (∀ lv a r, Ql lv = a :: r → level_ok lv → (∀ x, 0 ≤ x < lv → Ql x = []) → ∀ F : outcome (Z * pmap * rq),
    F = rq_pop ps q lv → level_ok lv ∧ (∀ x, 0 ≤ x < lv → Ql x = []) ∧ ∃ a r ps' q', Ql lv = a :: r
      ∧ F = Ret (a, ps', q') ∧ a ≠ 0 ∧ rq_rep ps' q' (setl Ql lv r) ∧ view ps' = view ps ∧ is_Some (ps' !! a)
      ∧ (∀ b, b ≠ a → rqn ps' b = rqn ps b)) as Hgo.
  { intros lv a r Hl Hlv Hx F ->. destruct (rq_pop_spec ps q Ql lv a r Hr Hlv Hl) as (ps' & q' & E & Ha & ? & ? & ? & ?).
    split_and!; try done. exists a, r, ps', q'. split_and!; done. }
  assert (∀ lv a r, Ql lv = a :: r → level_ok lv → ∀ k : Z * pmap * rq → outcome (Z * pmap * rq),
    (let* r := rq_pop ps q lv in if negb (fst (fst r) =? 0) then Ret r else k r) = rq_pop ps q lv) as Hstop.
  { intros lv a r Hl Hlv k. destruct (rq_pop_spec ps q Ql lv a r Hr Hlv Hl) as (ps' & q' & -> & Ha & _). simpl.
    by rewrite (proj2 (Z.eqb_neq a 0)). }
  destruct (decide (Ql 0 = [])) as [E0|N0].
  2: { destruct (list_ne _ N0) as (a & r & E0). apply (Hgo 0 a r E0 H0); [lia|]. by apply (Hstop 0 a r). }
  rewrite (rq_pop_empty ps q Ql 0) by done. cbn [obind fst snd]. change (negb (0 =? 0)) with false. cbv iota.
  destruct (decide (Ql 1 = [])) as [E1|N1].
  2: { destruct (list_ne _ N1) as (a & r & E1). apply (Hgo 1 a r E1 H1); [|by apply (Hstop 1 a r)].
       intros x Hx. by replace x with 0 by lia. }
  rewrite (rq_pop_empty ps q Ql 1) by done. cbn [obind fst snd]. change (negb (0 =? 0)) with false. cbv iota.
  destruct (decide (Ql 2 = [])) as [E2|N2].
  - split; [by apply (rq_pop_empty ps q Ql 2)|]. intros lv Hlv. unfold level_ok in Hlv.
    assert (lv = 0 ∨ lv = 1 ∨ lv = 2) as [-> |[-> | ->]] by lia; done.
  - destruct (list_ne _ N2) as (a & r & E2). apply (Hgo 2 a r E2 H2); [|done].
    intros x Hx. assert (x = 0 ∨ x = 1) as [-> | ->] by lia; done.
Qed.

(** ** Unlinking a process *)

Lemma chain_size ps l : chain ps l → NoDup l → (length l ≤ size ps)%nat.
Proof.
  intros Hc Hn. rewrite <- size_dom. rewrite <- (size_list_to_set (C := gset Z) l) by done.
  apply subseteq_size. intros a Ha%elem_of_list_to_set. destruct (chain_some _ _ _ Hc Ha) as (p & Hp).
  apply elem_of_dom. by eexists.
Qed.

Lemma dequeue_walk_none ps q a lv fuel : ∀ prev l,
  chain ps l → 0 ∉ l → a ∉ l → (length l < fuel)%nat →
  dequeue_walk fuel ps q a lv prev (default 0 (l !! 0%nat)) = Ret None.
Proof.
  induction fuel as [|fuel IH]; intros prev l Hc Hnz Ha Hf; [lia|]. destruct l as [|b l]; [done|].
  change (default 0 ((b :: l) !! 0%nat)) with b. cbn [dequeue_walk].
  rewrite not_elem_of_cons in Hnz, Ha. rewrite (proj2 (Z.eqb_neq b 0)) by naive_solver.
  destruct (chain_some _ _ b Hc ltac:(by left)) as (p & Hp). rewrite (getp_ret _ _ _ Hp). cbn [obind].
  rewrite (proj2 (Z.eqb_neq b a)) by naive_solver.
  pose proof (chain_head _ _ _ Hc) as Hh. unfold rqn in Hh. rewrite Hp in Hh. injection Hh as ->.
  apply IH; [by eapply chain_tail|tauto|tauto|simpl in Hf; lia].
Qed.

(** The walk reaches [a] behind [l1] with [prev] the last of [l1]. *)
Lemma dequeue_walk_at ps q a lv l2 fuel : ∀ l0 l1,
  chain ps (l0 ++ l1 ++ a :: l2) → 0 ∉ l0 ++ l1 ++ a :: l2 → NoDup (l0 ++ l1 ++ a :: l2) → (length l1 < fuel)%nat →
  ∃ fuel', dequeue_walk fuel ps q a lv (default 0 (last l0)) (default 0 ((l1 ++ a :: l2) !! 0%nat))
    = dequeue_walk (S fuel') ps q a lv (default 0 (last (l0 ++ l1))) a.
Proof.
  induction fuel as [|fuel IH]; intros l0 l1 Hc Hnz Hn Hf; [lia|]. destruct l1 as [|b l1].
  { exists fuel. rewrite app_nil_r. done. }
  change (default 0 (((b :: l1) ++ a :: l2) !! 0%nat)) with b. cbn [dequeue_walk].
  assert (b ∈ l0 ++ (b :: l1) ++ a :: l2) as Hbin by set_solver.
  assert (b ≠ 0) as Hb0 by (intros ->; done). rewrite (proj2 (Z.eqb_neq b 0)) by done.
  destruct (chain_some _ _ b Hc Hbin) as (p & Hp). rewrite (getp_ret _ _ _ Hp). cbn [obind].
  assert (b ≠ a) as Hba.
  { intros ->. apply NoDup_app in Hn as (_ & _ & Hn). apply NoDup_app in Hn as (_ & Hn & _). apply (Hn a); by left. }
  rewrite (proj2 (Z.eqb_neq b a)) by done.
  assert (rq_next p = default 0 ((l1 ++ a :: l2) !! 0%nat)) as ->.
  { pose proof (Hc (length l0) b) as H. rewrite lookup_app_r in H by lia. rewrite Nat.sub_diag in H.
    specialize (H eq_refl). unfold rqn in H. rewrite Hp in H. injection H as ->.
    rewrite lookup_app_r by lia. by replace (S (length l0) - length l0)%nat with 1%nat by lia. }
  destruct (IH (l0 ++ [b]) l1) as (fuel' & E).
  - by rewrite <- app_assoc.
  - by rewrite <- app_assoc.
  - by rewrite <- app_assoc.
  - simpl in Hf. lia.
  - exists fuel'. rewrite last_snoc in E. change (default 0 (Some b)) with b in E. rewrite E.
    by rewrite <- app_assoc.
Qed.

(** Unlinking [a], whose successors are [l2], behind the last of [l1]. *)
Lemma unlink_head ps q lv l1 a l2 nxt p :
  level_rep ps q lv (l1 ++ a :: l2) → length (head q) = 3%nat → level_ok lv → ps !! a = Some p → nxt = default 0 (l2 !! 0%nat) →
  ∃ ps1 h1, (if negb (default 0 (last l1) =? 0)
      then let* ps := updp (set_rq_next nxt) (default 0 (last l1)) ps in Ret (ps, head q)
      else let* h := oset (head q) lv nxt in Ret (ps, h)) = Ret (ps1, h1)
    ∧ view ps1 = view ps ∧ h1 !! Z.to_nat lv = Some (default 0 ((l1 ++ l2) !! 0%nat)) ∧ cell lv (head q) h1
    ∧ ps1 !! a = Some p ∧ (∀ t, last l1 = Some t → rqn ps1 t = Some (default 0 (l2 !! 0%nat)))
    ∧ (∀ b, last l1 ≠ Some b → rqn ps1 b = rqn ps b).
Proof.
  intros [Hh _ _ Hch Hn Hnz] Hlh Hlv Hp ->. unfold level_ok in Hlv. apply NoDup_app in Hn as (_ & Hn12 & _).
  assert (a ∉ l1) as Han1 by (intros H; apply (Hn12 a H); by left).
  destruct (decide (l1 = [])) as [->|Nl].
  - change (negb (default 0 (last []) =? 0)) with false. cbv iota. rewrite oset_in by (rewrite Hlh; lia). cbn [obind].
    do 2 eexists. split; [done|]. split_and!; auto with cint; [|done]. rewrite list_lookup_insert_eq by lia. done.
  - destruct (default_last_nz l1) as (t & Et & Ht0 & Htin); [set_solver|done|]. rewrite Et.
    change (default 0 (Some t)) with t. rewrite (proj2 (Z.eqb_neq t 0)) by done. cbn [negb].
    destruct (chain_some _ _ t Hch ltac:(set_solver)) as (pt & Hpt). rewrite (updp_ret _ _ _ pt) by done. cbn [obind].
    do 2 eexists. split; [done|]. split_and!; auto with cint.
    + by apply view_rq_next.
    + rewrite Hh. by destruct l1.
    + rewrite lookup_insert_ne; [done|]. by intros ->.
    + intros t' [= <-]. by rewrite rqn_insert, decide_True.
    + intros b Hb. by rewrite rqn_insert, decide_False by congruence.
Qed.

Lemma last_app_cons (l1 l2 : list Z) b : last (l1 ++ b :: l2) = last (b :: l2).
Proof. rewrite last_app. destruct (last (b :: l2)) eqn:E; [done|]. by apply last_None in E. Qed.

Lemma unlink_tail q lv l1 a l2 :
  tail q !! Z.to_nat lv = Some (default 0 (last (l1 ++ a :: l2))) → a ∉ l2 → length (tail q) = 3%nat → level_ok lv →
  ∃ ts, (if default 0 (last (l1 ++ a :: l2)) =? a then oset (tail q) lv (default 0 (last l1)) else Ret (tail q)) = Ret ts
    ∧ ts !! Z.to_nat lv = Some (default 0 (last (l1 ++ l2))) ∧ cell lv (tail q) ts.
Proof.
  intros Ht Hal2 Hlt Hlv. unfold level_ok in Hlv. destruct l2 as [|b l2].
  - rewrite last_snoc. change (default 0 (Some a)) with a. rewrite Z.eqb_refl, oset_in by (rewrite Hlt; lia).
    eexists. split; [done|]. split; [|auto with cint]. rewrite list_lookup_insert_eq by lia. by rewrite app_nil_r.
  - rewrite last_app_cons, last_cons_cons in Ht |- *. rewrite last_app_cons.
    destruct (last (b :: l2)) as [t|] eqn:El; [|by apply last_None in El].
    change (default 0 (Some t)) with t in *. apply last_Some_elem_of in El.
    rewrite (proj2 (Z.eqb_neq t a)) by (intros ->; done). exists (tail q). split_and!; auto with cint.
Qed.

(** The walk, at the process. *)
Lemma dequeue_here ps q Ql lv l1 a l2 f :
  rq_rep ps q Ql → level_ok lv → Ql lv = l1 ++ a :: l2 →
  ∃ ps' q', dequeue_walk (S f) ps q a lv (default 0 (last l1)) a = Ret (Some (ps', q'))
    ∧ rq_rep ps' q' (setl Ql lv (l1 ++ l2)) ∧ view ps' = view ps ∧ (∀ b, b ∉ l1 ++ a :: l2 → rqn ps' b = rqn ps b).
Proof.
  intros Hr Hlv El. pose proof Hr as [Hlh Hlt Hlc Hlev Hdis Hsmall]. pose proof (Hlev lv Hlv) as Hrep.
  pose proof (Hsmall lv Hlv) as Hsm. rewrite El, length_app in Hsm. simpl in Hsm. rewrite El in Hrep.
  pose proof Hrep as [_ Ht Hc Hch Hn Hnz]. assert (0 ≤ lv < 3) as Hlv' by done.
  cbn [dequeue_walk]. rewrite (proj2 (Z.eqb_neq a 0)) by (intros ->; set_solver).
  destruct (chain_some _ _ a Hch ltac:(set_solver)) as (p & Hp). rewrite (getp_ret _ _ _ Hp). cbn [obind]. rewrite Z.eqb_refl.
  assert (rq_next p = default 0 (l2 !! 0%nat)) as Hnx.
  { pose proof (Hch (length l1) a) as H. rewrite lookup_app_r in H by lia. rewrite Nat.sub_diag in H.
    specialize (H eq_refl). unfold rqn in H. rewrite Hp in H. injection H as ->.
    rewrite lookup_app_r by lia. by replace (S (length l1) - length l1)%nat with 1%nat by lia. }
  apply NoDup_app in Hn as Hn'. destruct Hn' as (Hn1 & Hn12 & [Han2 Hn2]%NoDup_cons).
  destruct (unlink_head ps q lv l1 a l2 (rq_next p) p Hrep Hlh Hlv Hp Hnx) as (ps1 & h1 & -> & Hv1 & Hh1 & Hhf & H1a & H1t & H1b).
  cbn [obind fst snd]. rewrite (oget_in _ _ _ (proj1 Hlv') Ht). cbn [obind].
  destruct (unlink_tail q lv l1 a l2 Ht Han2 Hlt Hlv) as (ts & -> & Hts & Htf).
  cbn [obind]. rewrite (oget_in _ _ _ (proj1 Hlv') Hc). cbn [obind]. rewrite oset_in by (rewrite Hlc; lia). cbn [obind].
  rewrite (updp_ret _ _ _ _ H1a). cbn [obind]. rewrite u32_small by (unfold is_u32; rewrite length_app; simpl; lia).
  assert (∀ b, b ≠ a → last l1 ≠ Some b → rqn (<[a := set_rq_next 0 p]> ps1) b = rqn ps b) as Hrb
    by (intros b Hb Hbl; rewrite rqn_insert, decide_False by done; by apply H1b).
  assert (∀ b, b ∉ l1 ++ a :: l2 → rqn (<[a := set_rq_next 0 p]> ps1) b = rqn ps b) as Hout.
  { intros b Hb. apply Hrb; [set_solver|]. intros Hl%last_Some_elem_of. set_solver. }
  do 2 eexists. split; [done|]. split_and!; [|by rewrite view_rq_next|done].
  apply (rq_rep_level ps _ q); simpl; auto with cint; [by eexists| | |rewrite length_app; lia].
  - constructor; simpl; try done; [|apply (chain_remove ps _ l1 a l2); try done| |set_solver].
    + rewrite list_lookup_insert_eq by lia. rewrite !length_app. simpl. f_equal. lia.
    + intros t Et. rewrite rqn_insert, decide_False; [by apply H1t|]. intros ->. apply last_Some_elem_of in Et. apply (Hn12 t Et). by left.
    + intros b Hb Hbl. apply Hrb; [|done]. intros ->. apply elem_of_app in Hb as [Hb|Hb]; [apply (Hn12 a Hb); by left|done].
    + apply NoDup_app. split_and!; try done. intros x Hx1 Hx2. apply (Hn12 x Hx1). by right.
  - intros x b Hx Hne Hb. assert (b ∉ l1 ++ a :: l2) by (rewrite <- El; intros Hin; by apply Hne, (Hdis x lv b)).
    split; [by apply Hout|set_solver].
Qed.

Lemma dequeue_level_spec ps q Ql lv a :
  rq_rep ps q Ql → level_ok lv →
  if decide (a ∈ Ql lv) then
    ∃ l1 l2 ps' q', Ql lv = l1 ++ a :: l2 ∧ dequeue_level ps q a lv = Ret (Some (ps', q'))
      ∧ rq_rep ps' q' (setl Ql lv (l1 ++ l2)) ∧ view ps' = view ps ∧ (∀ b, b ∉ Ql lv → rqn ps' b = rqn ps b)
  else dequeue_level ps q a lv = Ret None.
Proof.
  intros Hr Hlv. destruct (rr_levels _ _ _ Hr lv Hlv) as [Hh _ _ Hch Hn Hnz]. pose proof (chain_size _ _ Hch Hn) as Hsz.
  unfold dequeue_level. rewrite (oget_in _ _ _ (proj1 Hlv) Hh). cbn [obind].
  destruct (decide (a ∈ Ql lv)) as [Hin|Hout]; [|apply dequeue_walk_none; done || lia].
  apply list_elem_of_split in Hin as (l1 & l2 & El). exists l1, l2. rewrite El in Hch, Hn, Hnz, Hsz |- *.
  destruct (dequeue_walk_at ps q a lv l2 (S (size ps)) [] l1) as (f & E); [done|done|done|rewrite length_app in Hsz; lia|].
  change (default 0 (last [])) with 0 in E. cbn [app] in E. rewrite E.
  destruct (dequeue_here ps q Ql lv l1 a l2 f Hr Hlv El) as (ps' & q' & -> & ?). by exists ps', q'.
Qed.

(** ** All run queues *)

Definition cpu_ok (c : Z) : Prop := 0 ≤ c < 16.

Record qrep (ps : pmap) (qs : list rq) (Q : Z → Z → list Z) : Prop := {
  qr_len : length qs = 16%nat;
  qr_rep : ∀ c, cpu_ok c → ∃ q, qs !! Z.to_nat c = Some q ∧ rq_rep ps q (Q c);
  qr_disj : ∀ c c' l l' a, cpu_ok c → cpu_ok c' → level_ok l → level_ok l' → a ∈ Q c l → a ∈ Q c' l' → c = c'
}.

(** [a] is in no queue. *)
Definition unqueued (Q : Z → Z → list Z) (a : Z) : Prop := ∀ c l, cpu_ok c → level_ok l → a ∉ Q c l.

Definition setc (Q : Z → Z → list Z) (c : Z) (Ql : Z → list Z) : Z → Z → list Z := λ x, if x =? c then Ql else Q x.
Lemma setc_eq Q c Ql : setc Q c Ql c = Ql.
Proof. unfold setc. by rewrite Z.eqb_refl. Qed.
Lemma setc_ne Q c Ql x : x ≠ c → setc Q c Ql x = Q x.
Proof. intros. unfold setc. by rewrite (proj2 (Z.eqb_neq _ _)). Qed.

Lemma qrep_oget ps qs Q c : qrep ps qs Q → cpu_ok c → ∃ q, oget qs c = Ret q ∧ rq_rep ps q (Q c).
Proof.
  intros [_ H _] Hc. destruct (H c Hc) as (q & Hq & Hr). exists q. split; [|done].
  unfold cpu_ok in Hc. apply oget_in; [lia|done].
Qed.

Lemma qrep_oset ps qs Q c q : qrep ps qs Q → cpu_ok c → oset qs c q = Ret (<[Z.to_nat c := q]> qs).
Proof. intros [Hl _ _] Hc. unfold cpu_ok in Hc. apply oset_in. lia. Qed.

Lemma qrep_ext ps ps' qs Q :
  qrep ps qs Q → (∀ c l a, cpu_ok c → level_ok l → a ∈ Q c l → rqn ps' a = rqn ps a) → qrep ps' qs Q.
Proof.
  intros [Hl Hr Hd] H. constructor; try done. intros c Hc. destruct (Hr c Hc) as (q & Hq & Hrq).
  exists q. split; [done|]. apply (rq_rep_ext ps); [done|]. intros l a Hlv Ha. by apply (H c l).
Qed.

(** Replacing one core's queue. *)
Lemma qrep_set ps ps' qs Q c q Ql :
  qrep ps qs Q → cpu_ok c → rq_rep ps' q Ql →
  (∀ c' l a, cpu_ok c' → level_ok l → c' ≠ c → a ∈ Q c' l → rqn ps' a = rqn ps a) →
  (∀ l a, level_ok l → a ∈ Ql l → (∃ l', level_ok l' ∧ a ∈ Q c l') ∨ unqueued Q a) →
  qrep ps' (<[Z.to_nat c := q]> qs) (setc Q c Ql).
Proof.
  intros [Hl Hr Hd] Hc Hq Hother Hsub. constructor.
  - by rewrite length_insert.
  - intros x Hx. destruct (decide (x = c)) as [->|Hne].
    + exists q. rewrite setc_eq. split; [|done]. unfold cpu_ok in Hc. apply list_lookup_insert_eq. lia.
    + rewrite setc_ne by done. destruct (Hr x Hx) as (q' & Hq' & Hr'). exists q'.
      unfold cpu_ok in *. rewrite list_lookup_insert_ne by lia. split; [done|].
      apply (rq_rep_ext ps); [done|]. intros l a Hlv Ha. by apply (Hother x l).
  - assert (∀ x l l' a, cpu_ok x → level_ok l → level_ok l' → x ≠ c → a ∈ Ql l → a ∈ Q x l' → False) as Hno.
    { intros x l l' a Hx Hlv Hlv' Hne Ha Ha'. destruct (Hsub l a Hlv Ha) as [(l2 & Hl2 & Ha2)|Hu].
      - apply Hne. by apply (Hd x c l' l2 a).
      - by apply (Hu x l'). }
    intros x y l l' a Hx Hy Hlv Hlv'. unfold setc.
    destruct (Z.eqb_spec x c), (Z.eqb_spec y c); subst; try done.
    + intros Ha Ha'. exfalso. by apply (Hno y l l' a).
    + intros Ha' Ha. exfalso. by apply (Hno x l' l a).
    + intros Ha Ha'. by apply (Hd x y l l' a).
Qed.

Definition add_to (Q : Z → Z → list Z) (c l a : Z) : Z → Z → list Z := setc Q c (setl (Q c) l (Q c l ++ [a])).

Lemma elem_add_to Q c l a c' l' b :
  b ∈ add_to Q c l a c' l' ↔ b ∈ Q c' l' ∨ (b = a ∧ c' = c ∧ l' = l).
Proof.
  unfold add_to, setc, setl. destruct (Z.eqb_spec c' c) as [->|]; [destruct (Z.eqb_spec l' l) as [->|]|].
  - rewrite elem_of_app, list_elem_of_singleton. naive_solver.
  - naive_solver.
  - naive_solver.
Qed.

Lemma push_on_spec s Q c lv a p :
  qrep (procs s) (g_runqueues s) Q → cpu_ok c → level_ok lv → procs s !! a = Some p → a ≠ 0 → unqueued Q a →
  Z.of_nat (length (Q c lv)) + 1 < 2 ^ 31 →
  ∃ ps qs, push_on c a lv s = Ret (with_rqs qs (with_procs ps s))
    ∧ qrep ps qs (add_to Q c lv a) ∧ view ps = view (procs s).
Proof.
  intros Hq Hc Hlv Hp Ha Hu Hsm. unfold push_on.
  destruct (qrep_oget _ _ _ c Hq Hc) as (q & -> & Hr). cbn [obind].
  destruct (rq_push_spec _ _ _ a lv p Hr) as (ps' & q' & -> & Hr' & Hv & Hrb); try done.
  { intros x Hx. by apply Hu. }
  cbn [obind fst snd]. rewrite (qrep_oset _ _ _ c q' Hq Hc). cbn [obind].
  exists ps', (<[Z.to_nat c := q']> (g_runqueues s)). split; [done|]. split; [|done].
  apply (qrep_set (procs s)); try done.
  - intros c' l b Hc' Hl Hne Hb. apply Hrb.
    + intros ->. by apply (Hu c' l).
    + intros Hb'. apply Hne. by apply (qr_disj _ _ _ Hq c' c l lv b).
  - intros l b Hl. unfold setl. destruct (Z.eqb_spec l lv) as [->|].
    + intros [Hb| ->%list_elem_of_singleton]%elem_of_app; [left; by exists lv|by right].
    + intros Hb. left. by exists l.
Qed.

(** Removing [a] from every queue. *)
Definition unlink (a : Z) (Q : Z → Z → list Z) : Z → Z → list Z := λ c l, filter (λ x, x ≠ a) (Q c l).

Lemma elem_unlink a Q c l b : b ∈ unlink a Q c l ↔ b ∈ Q c l ∧ b ≠ a.
Proof. unfold unlink. rewrite list_elem_of_filter. tauto. Qed.

Lemma filter_id_ne (l : list Z) a : a ∉ l → filter (λ x, x ≠ a) l = l.
Proof.
  induction l as [|b l IH]; intros Ha; [done|]. rewrite not_elem_of_cons in Ha. rewrite filter_cons, decide_True by naive_solver.
  f_equal. apply IH. tauto.
Qed.

Lemma filter_split (l1 l2 : list Z) a : NoDup (l1 ++ a :: l2) → filter (λ x, x ≠ a) (l1 ++ a :: l2) = l1 ++ l2.
Proof.
  intros (Hn1 & Hd & [Ha Hn2]%NoDup_cons)%NoDup_app. rewrite filter_app, filter_cons, decide_False by naive_solver.
  rewrite !filter_id_ne; [done|done|]. intros H. apply (Hd a H). by left.
Qed.

Lemma rq_rep_ql ps q Ql Ql' : (∀ l, level_ok l → Ql l = Ql' l) → rq_rep ps q Ql → rq_rep ps q Ql'.
Proof.
  intros E [? ? ? Hlev Hd Hs]. constructor; try done; intros; rewrite <- ?E in * by done; eauto.
Qed.

Lemma dequeue_from_spec ps q Ql a :
  rq_rep ps q Ql →
  ∃ ps' q', dequeue_from ps q a = Ret (ps', q') ∧ rq_rep ps' q' (λ l, filter (λ x, x ≠ a) (Ql l))
    ∧ view ps' = view ps ∧ (∀ b, (∀ l, level_ok l → b ∉ Ql l) → rqn ps' b = rqn ps b).
Proof.
  intros Hr. assert (level_ok 0 ∧ level_ok 1 ∧ level_ok 2) as (H0 & H1 & H2) by (unfold level_ok; lia).
  assert (∀ lv, level_ok lv → a ∈ Ql lv → ∃ ps' q', dequeue_level ps q a lv = Ret (Some (ps', q'))
    ∧ rq_rep ps' q' (λ l, filter (λ x, x ≠ a) (Ql l)) ∧ view ps' = view ps
    ∧ (∀ b, (∀ l, level_ok l → b ∉ Ql l) → rqn ps' b = rqn ps b)) as Hin.
  { intros lv Hlv Ha. pose proof (dequeue_level_spec ps q Ql lv a Hr Hlv) as H. rewrite decide_True in H by done.
    destruct H as (l1 & l2 & ps' & q' & El & E & Hr' & Hv & Hb). exists ps', q'. split_and!; try done.
    - apply (rq_rep_ql _ _ (setl Ql lv (l1 ++ l2))); [|done]. intros l Hl. unfold setl.
      destruct (Z.eqb_spec l lv) as [->|Hne].
      + rewrite El. symmetry. apply filter_split. rewrite <- El. by apply (rr_levels _ _ _ Hr lv).
      + symmetry. apply filter_id_ne. intros Ha'. apply Hne. by apply (rr_disj _ _ _ Hr l lv a).
    - intros b Hbl. apply Hb. by apply Hbl. }
  assert (∀ lv, level_ok lv → a ∉ Ql lv → dequeue_level ps q a lv = Ret None) as Hout.
  { intros lv Hlv Ha. pose proof (dequeue_level_spec ps q Ql lv a Hr Hlv) as H. by rewrite decide_False in H. }
  unfold dequeue_from.
  destruct (decide (a ∈ Ql 0)) as [I0|O0]; [destruct (Hin 0 H0 I0) as (ps' & q' & -> & ?); exists ps', q'; done|].
  rewrite (Hout 0 H0 O0). cbn [obind].
  destruct (decide (a ∈ Ql 1)) as [I1|O1]; [destruct (Hin 1 H1 I1) as (ps' & q' & -> & ?); exists ps', q'; done|].
  rewrite (Hout 1 H1 O1). cbn [obind].
  destruct (decide (a ∈ Ql 2)) as [I2|O2]; [destruct (Hin 2 H2 I2) as (ps' & q' & -> & ?); exists ps', q'; done|].
  rewrite (Hout 2 H2 O2). cbn [obind]. exists ps, q. split_and!; try done.
  apply (rq_rep_ql _ _ Ql); [|done]. intros l Hl. symmetry. apply filter_id_ne. unfold level_ok in Hl.
  assert (l = 0 ∨ l = 1 ∨ l = 2) as [-> |[-> | ->]] by lia; done.
Qed.

Lemma scheduler_dequeue_spec s Q a p :
  qrep (procs s) (g_runqueues s) Q → procs s !! a = Some p → a ≠ 0 → cpu_ok (sched_cpu p) →
  (∀ c l, cpu_ok c → level_ok l → a ∈ Q c l → c = sched_cpu p) →
  ∃ ps qs, scheduler_dequeue a s = Ret (with_rqs qs (with_procs ps s)) ∧ qrep ps qs (unlink a Q) ∧ view ps = view (procs s).
Proof.
  intros Hq Hp Ha Hc Hown. unfold scheduler_dequeue. rewrite (proj2 (Z.eqb_neq a 0)) by done.
  rewrite (getp_ret _ _ _ Hp). cbn [obind]. pose proof Hc as Hc'. unfold cpu_ok in Hc'.
  rewrite (proj2 (Z.leb_gt _ _)) by (unfold MAX_CPUS; lia).
  destruct (qrep_oget _ _ _ _ Hq Hc) as (q & -> & Hr). cbn [obind].
  destruct (dequeue_from_spec _ _ _ a Hr) as (ps' & q' & -> & Hr' & Hv & Hb). cbn [obind fst snd].
  rewrite (qrep_oset _ _ _ _ q' Hq Hc). cbn [obind].
  exists ps', (<[Z.to_nat (sched_cpu p) := q']> (g_runqueues s)). split; [done|]. split; [|done].
  assert (qrep ps' (<[Z.to_nat (sched_cpu p) := q']> (g_runqueues s)) (setc Q (sched_cpu p) (λ l, filter (λ x, x ≠ a) (Q (sched_cpu p) l)))) as [? Hrep Hdis].
  { apply (qrep_set (procs s)); try done.
    - intros c' l b Hc2 Hl Hne Hbin. apply Hb. intros l' Hl' Hb'. apply Hne. by apply (qr_disj _ _ _ Hq c' (sched_cpu p) l l' b).
    - intros l b Hl [_ Hb']%list_elem_of_filter. left. by exists l. }
  assert (∀ c l, cpu_ok c → level_ok l → unlink a Q c l = setc Q (sched_cpu p) (λ l, filter (λ x, x ≠ a) (Q (sched_cpu p) l)) c l) as E.
  { intros c l Hcc Hl. unfold setc, unlink. destruct (Z.eqb_spec c (sched_cpu p)) as [->|Hne]; [done|].
    apply filter_id_ne. intros Hin. by apply Hne, (Hown c l). }
  constructor; [done| |].
  - intros c Hcc. destruct (Hrep c Hcc) as (q0 & ? & ?). exists q0. split; [done|].
    eapply rq_rep_ql; [|done]. intros l Hl. symmetry. by apply E.
  - intros c c' l l' b H1 H2 H3 H4. rewrite !E by done. by apply Hdis.
Qed.
