(* ===== verification/SchedInv.v ===== *)
(** * The scheduler's invariant, and what keeps it

    [core] is the invariant over the blocks, the queues as lists, the list of
    all processes and what each core runs; [inv] adds the representation of
    the queues and the sizes of the arrays. The first part shows which changes
    keep it; the second gives the effect of stopping, resuming and waking
    processes, of the clean-up pass and of the dispatch of [schedule]. *)

From stdpp Require Import gmap.
From S2P Require Import Prelude Sched SchedQueue.

Open Scope c_scope.

(** ** The invariant *)

(** [V] are the blocks without their queue links, [Q] the queues as lists,
    [L] the list of all processes. *)

Definition curr (cpus : list cpu_local) (c : Z) : Z :=
  match cpus !! Z.to_nat c with Some x => current_process x | None => 0 end.

(** The global list is linked through [next]. *)
Definition linked (V : pmap) (h : Z) (L : list Z) : Prop :=
  h = default 0 (L !! 0%nat) ∧ ∀ i a, L !! i = Some a → next <$> V !! a = Some (default 0 (L !! S i)).

Definition is_idle (a : Z) : Prop := -16 ≤ a ≤ -1.

(** A queued process is READY and belongs to that core and level; a READY
    process is queued (none is lost); the process a core runs is listed and
    belongs to the core, or is its idle context, and is not READY nor asleep,
    so it is in no queue; a RUNNING process is the one its core runs. While a
    core is inside [sleep] ([x]) its process may already be marked asleep. *)
Record core (x : option Z) (V : pmap) (Q : Z → Z → list Z) (L : list Z) (h : Z) (cpus : list cpu_local) (n : Z) : Prop := {
  c_list : linked V h L;
  c_nodup : NoDup L;
  c_pos : ∀ a, a ∈ L → 0 < a;
  c_dom : ∀ a, is_Some (V !! a) ↔ a ∈ L ∨ is_idle a;
  c_small : Z.of_nat (length L) < 2 ^ 30;
  c_range : ∀ a v, a ∈ L → V !! a = Some v → cpu_ok (sched_cpu v) ∧ level_ok (sched_level v);
  c_queued : ∀ c l a, cpu_ok c → level_ok l → a ∈ Q c l →
    a ∈ L ∧ ∃ v, V !! a = Some v ∧ state v = READY ∧ sched_cpu v = c ∧ sched_level v = l;
  c_ready : ∀ a v, a ∈ L → V !! a = Some v → state v = READY → a ∈ Q (sched_cpu v) (sched_level v);
  c_ncpu : length cpus = 16%nat;
  c_current : ∀ c, cpu_ok c → curr cpus c ≠ 0 →
    (c < n ∧ ∃ y, cpus !! Z.to_nat c = Some y ∧ online y = true)
    ∧ ∃ v, V !! curr cpus c = Some v ∧ state v ≠ READY ∧ (state v = WAITING → x = Some c)
      ∧ (curr cpus c ∈ L ∧ sched_cpu v = c ∨ curr cpus c = idle_addr c ∧ c ≠ 0 ∧ state v = RUNNING);
  c_running : ∀ a v, a ∈ L → V !! a = Some v → state v = RUNNING → curr cpus (sched_cpu v) = a
}.

Definition inert (f : process → process) : Prop :=
  ∀ p, state (f p) = state p ∧ sched_cpu (f p) = sched_cpu p ∧ sched_level (f p) = sched_level p ∧ next (f p) = next p.

Lemma linked_upd V h L a v f :
  linked V h L → V !! a = Some v → next (f v) = next v → linked (<[a := f v]> V) h L.
Proof.
  intros [Hh Hl] Ha Hn. split; [done|]. intros i b Hi. destruct (decide (a = b)) as [->|Hne].
  - rewrite lookup_insert_eq. simpl. rewrite Hn. specialize (Hl i b Hi). by rewrite Ha in Hl.
  - rewrite lookup_insert_ne by done. by apply Hl.
Qed.

Lemma dom_upd (V : pmap) (L : list Z) a v v' :
  V !! a = Some v → (∀ b, is_Some (V !! b) ↔ b ∈ L ∨ is_idle b) →
  ∀ b, is_Some (<[a := v']> V !! b) ↔ b ∈ L ∨ is_idle b.
Proof.
  intros Ha H b. rewrite <- H. destruct (decide (a = b)) as [->|Hne].
  - rewrite lookup_insert_eq, Ha. split; by eexists.
  - by rewrite lookup_insert_ne.
Qed.

(** A field the invariant does not speak of. *)
Lemma core_inert x V Q L h cpus n a v f :
  core x V Q L h cpus n → V !! a = Some v → inert f → core x (<[a := f v]> V) Q L h cpus n.
Proof.
  intros [Hl Hnd Hpos Hdom Hsm Hrg Hq Hrd Hnc Hcur Hrun] Ha Hf. destruct (Hf v) as (F1 & F2 & F3 & F4).
  constructor; try done.
  - by apply linked_upd.
  - by apply (dom_upd V L a v).
  - intros b w Hb. destruct (decide (a = b)) as [->|Hne]; [rewrite lookup_insert_eq; intros [= <-]|rewrite lookup_insert_ne by done].
    + rewrite F2, F3. by apply (Hrg b).
    + by apply Hrg.
  - intros c l b Hc Hlv Hb. destruct (Hq c l b Hc Hlv Hb) as (HL & w & Hw & E). split; [done|].
    destruct (decide (a = b)) as [->|Hne]; [|exists w; by rewrite lookup_insert_ne].
    exists (f v). rewrite lookup_insert_eq. split; [done|]. rewrite Ha in Hw. injection Hw as ->. by rewrite F1, F2, F3.
  - intros b w Hb. destruct (decide (a = b)) as [->|Hne]; [rewrite lookup_insert_eq; intros [= <-]|rewrite lookup_insert_ne by done].
    + rewrite F1, F2, F3. by apply Hrd.
    + by apply Hrd.
  - intros c Hc Hcc. destruct (Hcur c Hc Hcc) as (Hon & w & Hw & E). split; [done|].
    destruct (decide (a = curr cpus c)) as [->|Hne]; [|exists w; by rewrite lookup_insert_ne].
    exists (f v). rewrite lookup_insert_eq. split; [done|]. rewrite Ha in Hw. injection Hw as ->. by rewrite F1, F2.
  - intros b w Hb. destruct (decide (a = b)) as [->|Hne]; [rewrite lookup_insert_eq; intros [= <-]|rewrite lookup_insert_ne by done].
    + rewrite F1, F2. by apply Hrun.
    + by apply Hrun.
Qed.

(** A process that is no core's current one and in no queue becomes READY
    and is queued. *)
Lemma core_make_ready x V Q L h cpus n a v v' :
  core x V Q L h cpus n → a ∈ L → V !! a = Some v → state v ≠ READY →
  (∀ c, cpu_ok c → curr cpus c ≠ a) →
  state v' = READY → next v' = next v → cpu_ok (sched_cpu v') → level_ok (sched_level v') →
  core x (<[a := v']> V) (add_to Q (sched_cpu v') (sched_level v') a) L h cpus n.
Proof.
  intros [Hl Hnd Hpos Hdom Hsm Hrg Hq Hrd Hnc Hcur Hrun] HaL Ha Hst Hnc' Hs' Hn' Hc' Hl'.
  constructor; try done.
  - change v' with ((λ _, v') v). by apply linked_upd.
  - by apply (dom_upd V L a v).
  - intros b w Hb. destruct (decide (a = b)) as [->|Hne]; [rewrite lookup_insert_eq; by intros [= <-]|].
    rewrite lookup_insert_ne by done. by apply Hrg.
  - intros c l b Hc Hlv Hb. apply elem_add_to in Hb as [Hb|(-> & -> & ->)].
    + destruct (Hq c l b Hc Hlv Hb) as (HL & w & Hw & E & ?). split; [done|].
      destruct (decide (a = b)) as [->|Hne]; [congruence|exists w; by rewrite lookup_insert_ne].
    + split; [done|]. exists v'. by rewrite lookup_insert_eq.
  - intros b w Hb. rewrite elem_add_to.
    destruct (decide (a = b)) as [->|Hne]; [rewrite lookup_insert_eq; intros [= <-] _; by right|].
    rewrite lookup_insert_ne by done. intros. left. by apply Hrd.
  - intros c Hc Hcc. destruct (Hcur c Hc Hcc) as (Hon & w & Hw & E). split; [done|].
    exists w. rewrite lookup_insert_ne; [done|]. intros ->. by apply (Hnc' c).
  - intros b w Hb. destruct (decide (a = b)) as [->|Hne]; [rewrite lookup_insert_eq; intros [= <-]; congruence|].
    rewrite lookup_insert_ne by done. by apply Hrun.
Qed.

(** A process is stopped (killed, paused or exited) and unlinked. *)
Lemma core_stop x V Q Q' L h cpus n a v v' :
  core x V Q L h cpus n → a ∈ L → V !! a = Some v →
  state v' ≠ READY → state v' ≠ RUNNING → (state v' = WAITING → ∀ c, cpu_ok c → curr cpus c = a → x = Some c) →
  next v' = next v → sched_cpu v' = sched_cpu v → sched_level v' = sched_level v →
  (∀ c l b, cpu_ok c → level_ok l → b ∈ Q' c l ↔ b ∈ Q c l ∧ b ≠ a) →
  core x (<[a := v']> V) Q' L h cpus n.
Proof.
  intros [Hl Hnd Hpos Hdom Hsm Hrg Hq Hrd Hnc Hcur Hrun] HaL Ha S1 S2 S3 Hn' Hc' Hl' HQ.
  constructor; try done.
  - change v' with ((λ _, v') v). by apply linked_upd.
  - by apply (dom_upd V L a v).
  - intros b w Hb. destruct (decide (a = b)) as [->|Hne]; [rewrite lookup_insert_eq; intros [= <-]|].
    + rewrite Hc', Hl'. by apply (Hrg b).
    + rewrite lookup_insert_ne by done. by apply Hrg.
  - intros c l b Hc Hlv [Hb Hne]%HQ; [|done|done]. destruct (Hq c l b Hc Hlv Hb) as (HL & w & Hw & E). split; [done|].
    exists w. by rewrite lookup_insert_ne.
  - intros b w Hb. destruct (decide (a = b)) as [->|Hne]; [rewrite lookup_insert_eq; by intros [= <-]|].
    rewrite lookup_insert_ne by done. intros Hw Hs. destruct (Hrg b w Hb Hw). apply HQ; try done. split; [by apply Hrd|done].
  - intros c Hc Hcc. destruct (Hcur c Hc Hcc) as (Hon & w & Hw & E1 & E2 & E3). split; [done|].
    destruct (decide (a = curr cpus c)) as [->|Hne]; [|exists w; by rewrite lookup_insert_ne].
    exists v'. rewrite lookup_insert_eq. rewrite Ha in Hw. injection Hw as ->. rewrite Hc'.
    split_and!; try done; [intros Hw; by apply (S3 Hw c)|]. left. destruct E3 as [?|(E3 & _)]; [done|].
    pose proof (Hpos _ HaL). unfold idle_addr, cpu_ok in *. lia.
  - intros b w Hb. destruct (decide (a = b)) as [->|Hne]; [rewrite lookup_insert_eq; by intros [= <-]|].
    rewrite lookup_insert_ne by done. by apply Hrun.
Qed.

(** ** Changing what a core runs *)

Definition put_curr (c a : Z) (cpus : list cpu_local) : list cpu_local :=
  match cpus !! Z.to_nat c with
  | Some x => <[Z.to_nat c := mk_cpu (online x) a (usage_total_ticks x) (usage_busy_ticks x)
                                (usage_window_ticks x) (usage_window_busy_ticks x) (usage_last_percent x)]> cpus
  | None => cpus
  end.

Lemma put_curr_length c a cpus : length (put_curr c a cpus) = length cpus.
Proof. unfold put_curr. destruct (cpus !! Z.to_nat c); [apply length_insert|done]. Qed.

Lemma curr_put cpus c a c' :
  length cpus = 16%nat → cpu_ok c → cpu_ok c' → curr (put_curr c a cpus) c' = if decide (c' = c) then a else curr cpus c'.
Proof.
  intros Hl Hc Hc'. unfold put_curr, curr. unfold cpu_ok in *.
  destruct (lookup_lt_is_Some_2 cpus (Z.to_nat c)) as [x Hx]; [lia|]. rewrite Hx.
  destruct (decide (c' = c)) as [->|Hne].
  - by rewrite list_lookup_insert_eq by lia.
  - by rewrite list_lookup_insert_ne by lia.
Qed.

Lemma put_put c a b cpus : put_curr c b (put_curr c a cpus) = put_curr c b cpus.
Proof.
  unfold put_curr. destruct (cpus !! Z.to_nat c) as [x|] eqn:E; [|by rewrite E].
  rewrite list_lookup_insert_eq by (by eapply lookup_lt_Some). simpl. by rewrite list_insert_insert_eq.
Qed.

Lemma online_put cpus c a c' y :
  cpus !! Z.to_nat c' = Some y → ∃ y', put_curr c a cpus !! Z.to_nat c' = Some y' ∧ online y' = online y.
Proof.
  intros Hy. unfold put_curr. destruct (cpus !! Z.to_nat c) as [x|] eqn:E; [|by exists y].
  destruct (decide (Z.to_nat c' = Z.to_nat c)) as [Ec|Hne].
  - rewrite Ec in *. rewrite E in Hy. injection Hy as ->. rewrite list_lookup_insert_eq by (by eapply lookup_lt_Some). by eexists.
  - rewrite list_lookup_insert_ne by done. by exists y.
Qed.

(** The core leaves a process that is not RUNNING (or its idle context). *)
Lemma core_leave V Q L h cpus n c v :
  core (Some c) V Q L h cpus n → cpu_ok c → curr cpus c ≠ 0 → V !! curr cpus c = Some v →
  (state v = RUNNING → curr cpus c ∉ L) →
  core None V Q L h (put_curr c 0 cpus) n.
Proof.
  intros [Hl Hnd Hpos Hdom Hsm Hrg Hq Hrd Hnc Hcur Hrun] Hc Hcc Hv Hnr.
  constructor; try done.
  - by rewrite put_curr_length.
  - intros c' Hc'. rewrite curr_put by done. destruct (decide (c' = c)) as [->|Hne]; [done|]. intros Hcc'.
    destruct (Hcur c' Hc' Hcc') as ((Hn & y & Hy & Ho) & w & Hw & E1 & E2 & E3). split.
    + split; [done|]. destruct (online_put cpus c 0 c' y Hy) as (y' & ? & ?). exists y'. split; [done|congruence].
    + exists w. split_and!; try done. intros Hs. specialize (E2 Hs). congruence.
  - intros b w Hb Hw Hs. destruct (Hrg b w Hb Hw) as [Hr _]. rewrite curr_put by done.
    specialize (Hrun b w Hb Hw Hs). destruct (decide (sched_cpu w = c)) as [E|]; [|done].
    rewrite E in Hrun. subst b. exfalso. rewrite Hv in Hw. injection Hw as ->. by apply Hnr.
Qed.

(** A core that has no process yet. *)
Lemma core_weaken V Q L h cpus n c : core (Some c) V Q L h cpus n → curr cpus c = 0 → core None V Q L h cpus n.
Proof.
  intros [Hl Hnd Hpos Hdom Hsm Hrg Hq Hrd Hnc Hcur Hrun] H0. constructor; try done.
  intros c' Hc' Hcc. destruct (Hcur c' Hc' Hcc) as (Hon & w & Hw & E1 & E2 & E3). split; [done|]. exists w.
  split_and!; try done. intros Hs. specialize (E2 Hs). congruence.
Qed.

Lemma core_strengthen V Q L h cpus n c : core None V Q L h cpus n → core (Some c) V Q L h cpus n.
Proof.
  intros [Hl Hnd Hpos Hdom Hsm Hrg Hq Hrd Hnc Hcur Hrun]. constructor; try done.
  intros c' Hc' Hcc. destruct (Hcur c' Hc' Hcc) as (Hon & w & Hw & E1 & E2 & E3). split; [done|]. exists w.
  split_and!; try done. intros Hs. specialize (E2 Hs). done.
Qed.

(** The RUNNING process of the core goes back into its queue. *)
Lemma core_requeue V Q L h cpus n c v :
  core (Some c) V Q L h cpus n → cpu_ok c → curr cpus c ∈ L → V !! curr cpus c = Some v → state v = RUNNING →
  core None (<[curr cpus c := set_state READY v]> V) (add_to Q c (sched_level v) (curr cpus c)) L h (put_curr c 0 cpus) n.
Proof.
  intros Hcore Hc HL Hv Hs. pose proof Hcore as [Hl Hnd Hpos Hdom Hsm Hrg Hq Hrd Hnc Hcur Hrun].
  assert (curr cpus c ≠ 0) as Hne0 by (pose proof (Hpos _ HL); lia).
  destruct (Hcur c Hc Hne0) as (_ & w & Hw & _ & _ & [[_ Hcpu]|[Hid _]]).
  2: { pose proof (Hpos _ HL). unfold idle_addr, cpu_ok in *. lia. }
  rewrite Hv in Hw. injection Hw as <-.
  remember (curr cpus c) as a eqn:Eac.
  constructor; try done.
  - apply (linked_upd V h L a v (set_state READY)); done.
  - by apply (dom_upd V L a v).
  - intros b w Hb. destruct (decide (a = b)) as [->|Hne]; [rewrite lookup_insert_eq; intros [= <-]; exact (Hrg b v Hb Hv)|].
    rewrite lookup_insert_ne by done. by apply Hrg.
  - intros c' l b Hc' Hlv Hb. apply elem_add_to in Hb as [Hb|(-> & -> & ->)].
    + destruct (Hq c' l b Hc' Hlv Hb) as (HL' & w & Hw & E & ?). split; [done|].
      destruct (decide (a = b)) as [->|Hne]; [congruence|exists w; by rewrite lookup_insert_ne].
    + split; [done|]. exists (set_state READY v). by rewrite lookup_insert_eq.
  - intros b w Hb. rewrite elem_add_to. destruct (decide (a = b)) as [->|Hne].
    + rewrite lookup_insert_eq. intros [= <-] _. right. simpl. done.
    + rewrite lookup_insert_ne by done. intros. left. by apply Hrd.
  - by rewrite put_curr_length.
  - intros c' Hc'. rewrite curr_put by done. destruct (decide (c' = c)) as [->|Hnec]; [done|]. intros Hcc'.
    destruct (Hcur c' Hc' Hcc') as ((Hn & y & Hy & Ho) & w & Hw & E1 & E2 & E3). split.
    + split; [done|]. destruct (online_put cpus c 0 c' y Hy) as (y' & ? & ?). exists y'. split; [done|congruence].
    + exists w. destruct (decide (a = curr cpus c')) as [Ea|Hnea].
      * exfalso. destruct E3 as [[_ E3]|[E3 _]]; [rewrite <- Ea in Hw; congruence|].
        pose proof (Hpos _ HL). unfold idle_addr, cpu_ok in *. lia.
      * rewrite lookup_insert_ne by done. split_and!; try done. intros Hsw. specialize (E2 Hsw). congruence.
  - intros b w Hb. destruct (decide (a = b)) as [->|Hne]; [rewrite lookup_insert_eq; by intros [= <-]|].
    rewrite lookup_insert_ne by done. intros Hw Hsw. destruct (Hrg b w Hb Hw) as [Hr _]. rewrite curr_put by done.
    specialize (Hrun b w Hb Hw Hsw). destruct (decide (sched_cpu w = c)) as [E|]; [|done].
    rewrite E in Hrun. congruence.
Qed.

(** A core without a process takes the head of one of its queues. *)
Lemma core_take V Q L h cpus n c l a r v v' y :
  core None V Q L h cpus n → cpu_ok c → level_ok l → curr cpus c = 0 → Q c l = a :: r → NoDup (a :: r) →
  c < n → cpus !! Z.to_nat c = Some y → online y = true →
  V !! a = Some v → state v' = RUNNING → next v' = next v → sched_cpu v' = sched_cpu v → sched_level v' = sched_level v →
  core None (<[a := v']> V) (setc Q c (setl (Q c) l r)) L h (put_curr c a cpus) n.
Proof.
  intros Hcore Hc Hlv H0 HQ HND Hn Hy Ho Hv Hs' Hn' Hc' Hl'.
  pose proof Hcore as [Hl Hnd Hpos Hdom Hsm Hrg Hq Hrd Hnc Hcur Hrun].
  destruct (Hq c l a Hc Hlv) as (HL & w & Hw & Es & Ec & El); [rewrite HQ; by left|].
  rewrite Hv in Hw. injection Hw as <-. apply NoDup_cons in HND as [Har Hnr].
  assert (∀ b c' l', b ∈ setc Q c (setl (Q c) l r) c' l' ↔ b ∈ Q c' l' ∧ (b ≠ a ∨ ¬ (c' = c ∧ l' = l))) as HQ'.
  { intros b c' l'. unfold setc, setl. destruct (Z.eqb_spec c' c) as [->|]; [destruct (Z.eqb_spec l' l) as [->|]|]; try tauto.
    rewrite HQ, elem_of_cons. split.
    - intros Hb. split; [by right|]. left. by intros ->.
    - intros [[->|Hb] [?|?]]; tauto. }
  assert (a ≠ 0) as Ha0 by (pose proof (Hpos _ HL); lia).
  constructor; try done.
  - change v' with ((λ _, v') v). by apply linked_upd.
  - by apply (dom_upd V L a v).
  - intros b w Hb. destruct (decide (a = b)) as [->|Hne]; [rewrite lookup_insert_eq; intros [= <-]|].
    + rewrite Hc', Hl'. by apply (Hrg b).
    + rewrite lookup_insert_ne by done. by apply Hrg.
  - intros c' l' b Hcc Hll [Hb Hne]%HQ'. destruct (Hq c' l' b Hcc Hll Hb) as (HL' & w & Hw & E & E' & E''). split; [done|].
    exists w. rewrite lookup_insert_ne; [done|]. intros <-. rewrite Hv in Hw. injection Hw as <-. destruct Hne as [?|Hne]; [done|].
    apply Hne. split; congruence.
  - intros b w Hb. destruct (decide (a = b)) as [->|Hne]; [rewrite lookup_insert_eq; intros [= <-]; congruence|].
    rewrite lookup_insert_ne by done. intros. apply HQ'. split; [by apply Hrd|]. left. congruence.
  - by rewrite put_curr_length.
  - intros c' Hcc. rewrite curr_put by done. destruct (decide (c' = c)) as [->|Hnec]; intros Hcc'.
    + split.
      * split; [done|]. destruct (online_put cpus c a c y Hy) as (y' & ? & ?). exists y'. split; [done|congruence].
      * exists v'. rewrite lookup_insert_eq. split_and!; try congruence. left. split; [done|congruence].
    + destruct (Hcur c' Hcc Hcc') as ((Hn2 & y2 & Hy2 & Ho2) & w & Hw & E1 & E2 & E3). split.
      * split; [done|]. destruct (online_put cpus c a c' y2 Hy2) as (y' & ? & ?). exists y'. split; [done|congruence].
      * exists w. rewrite lookup_insert_ne; [done|]. intros Ea. rewrite <- Ea in Hw. rewrite Hv in Hw. injection Hw as <-. done.
  - intros b w Hb. destruct (decide (a = b)) as [->|Hne].
    + rewrite lookup_insert_eq. intros [= <-] _. rewrite Hc', Ec, curr_put, decide_True by done. done.
    + rewrite lookup_insert_ne by done. intros Hw Hsw. destruct (Hrg b w Hb Hw) as [Hr _]. rewrite curr_put by done.
      specialize (Hrun b w Hb Hw Hsw). destruct (decide (sched_cpu w = c)) as [E|]; [|done].
      rewrite E, H0 in Hrun. pose proof (Hpos _ Hb). lia.
Qed.

(** A core without a process parks in its idle context. *)
Lemma core_idle V Q L h cpus n c v v' y :
  core None V Q L h cpus n → cpu_ok c → c ≠ 0 → curr cpus c = 0 →
  c < n → cpus !! Z.to_nat c = Some y → online y = true →
  V !! idle_addr c = Some v → state v' = RUNNING →
  core None (<[idle_addr c := v']> V) Q L h (put_curr c (idle_addr c) cpus) n.
Proof.
  intros Hcore Hc Hc0 H0 Hn Hy Ho Hv Hs'.
  pose proof Hcore as [Hl Hnd Hpos Hdom Hsm Hrg Hq Hrd Hnc Hcur Hrun].
  assert (∀ b, b ∈ L → idle_addr c ≠ b) as Hni by (intros b Hb E; pose proof (Hpos b Hb); unfold idle_addr, cpu_ok in *; lia).
  constructor; try done.
  - destruct Hl as [Hh Hl]. split; [done|]. intros i b Hi. rewrite lookup_insert_ne; [by apply Hl|].
    apply Hni. by eapply list_elem_of_lookup_2.
  - by apply (dom_upd V L _ v).
  - intros b w Hb. rewrite lookup_insert_ne by auto. by apply Hrg.
  - intros c' l b Hc' Hlv Hb. destruct (Hq c' l b Hc' Hlv Hb) as (HL & w & ?). split; [done|]. exists w.
    by rewrite lookup_insert_ne by auto.
  - intros b w Hb. rewrite lookup_insert_ne by auto. by apply Hrd.
  - by rewrite put_curr_length.
  - intros c' Hcc. rewrite curr_put by done. destruct (decide (c' = c)) as [->|Hnec]; intros Hcc'.
    + split.
      * split; [done|]. destruct (online_put cpus c (idle_addr c) c y Hy) as (y' & ? & ?). exists y'. split; [done|congruence].
      * exists v'. rewrite lookup_insert_eq. split_and!; try congruence. by right.
    + destruct (Hcur c' Hcc Hcc') as ((Hn2 & y2 & Hy2 & Ho2) & w & Hw & E1 & E2 & E3). split.
      * split; [done|]. destruct (online_put cpus c (idle_addr c) c' y2 Hy2) as (y' & ? & ?). exists y'. split; [done|congruence].
      * exists w. rewrite lookup_insert_ne; [done|]. intros Ea. destruct E3 as [[E3 _]|[E3 _]]; [by apply (Hni _ E3)|].
        rewrite E3 in Ea. unfold idle_addr in Ea. lia.
  - intros b w Hb. rewrite lookup_insert_ne by auto. intros Hw Hsw. destruct (Hrg b w Hb Hw) as [Hr _]. rewrite curr_put by done.
    specialize (Hrun b w Hb Hw Hsw). destruct (decide (sched_cpu w = c)) as [E|]; [|done].
    rewrite E, H0 in Hrun. pose proof (Hpos _ Hb). lia.
Qed.

(** A queued process moves to another queue. *)
Lemma core_move x V Q Q' L h cpus n a v v' :
  core x V Q L h cpus n → a ∈ L → V !! a = Some v → state v = READY →
  state v' = READY → next v' = next v → cpu_ok (sched_cpu v') → level_ok (sched_level v') →
  (∀ c l b, cpu_ok c → level_ok l →
     b ∈ Q' c l ↔ (b ∈ Q c l ∧ b ≠ a) ∨ (b = a ∧ c = sched_cpu v' ∧ l = sched_level v')) →
  core x (<[a := v']> V) Q' L h cpus n.
Proof.
  intros [Hl Hnd Hpos Hdom Hsm Hrg Hq Hrd Hnc Hcur Hrun] HaL Ha Hst Hs' Hn' Hc' Hl' HQ.
  constructor; try done.
  - change v' with ((λ _, v') v). by apply linked_upd.
  - by apply (dom_upd V L a v).
  - intros b w Hb. destruct (decide (a = b)) as [->|Hne]; [rewrite lookup_insert_eq; by intros [= <-]|].
    rewrite lookup_insert_ne by done. by apply Hrg.
  - intros c l b Hc Hlv [[Hb Hne]|(-> & -> & ->)]%HQ; [| |done|done].
    + destruct (Hq c l b Hc Hlv Hb) as (HL & w & Hw & E). split; [done|]. exists w. by rewrite lookup_insert_ne.
    + split; [done|]. exists v'. by rewrite lookup_insert_eq.
  - intros b w Hb. destruct (decide (a = b)) as [->|Hne].
    + rewrite lookup_insert_eq. intros [= <-] _. apply HQ; try done. by right.
    + rewrite lookup_insert_ne by done. intros Hw Hs. destruct (Hrg b w Hb Hw). apply HQ; try done. left. split; [by apply Hrd|done].
  - intros c Hc Hcc. destruct (Hcur c Hc Hcc) as (Hon & w & Hw & E1 & E2). split; [done|].
    exists w. rewrite lookup_insert_ne; [done|]. intros ->. congruence.
  - intros b w Hb. destruct (decide (a = b)) as [->|Hne]; [rewrite lookup_insert_eq; intros [= <-]; congruence|].
    rewrite lookup_insert_ne by done. by apply Hrun.
Qed.

(** A dead process nobody runs leaves the list and is freed. *)
Lemma core_delete x V V' Q L1 a L2 h cpus n v :
  core x V Q (L1 ++ a :: L2) h cpus n → V !! a = Some v → dead (state v) = true →
  (∀ c, cpu_ok c → curr cpus c ≠ a) →
  V' !! a = None →
  (∀ b, b ≠ a → V' !! b = if decide (last L1 = Some b) then set_next (next v) <$> V !! b else V !! b) →
  core x V' Q (L1 ++ L2) (default 0 ((L1 ++ L2) !! 0%nat)) cpus n.
Proof.
  intros [[Hh Hl] Hnd Hpos Hdom Hsm Hrg Hq Hrd Hnc Hcur Hrun] Ha Hdead Hnocur HVa HV.
  assert (a ∈ L1 ++ a :: L2) as HaL by set_solver.
  apply NoDup_app in Hnd as Hnd'. destruct Hnd' as (Hn1 & Hn12 & [Han2 Hn2]%NoDup_cons).
  assert (a ∉ L1) as Han1 by (intros H; apply (Hn12 a H); by left).
  assert (∀ b, b ∈ L1 ++ L2 → b ∈ L1 ++ a :: L2 ∧ b ≠ a) as Hsub.
  { intros b Hb. split; [set_solver|]. intros ->. set_solver. }
  assert (∀ b w', b ≠ a → V' !! b = Some w' → ∃ w, V !! b = Some w ∧ state w' = state w ∧ sched_cpu w' = sched_cpu w
    ∧ sched_level w' = sched_level w) as Hback.
  { intros b w' Hb Hw'. rewrite HV in Hw' by done. destruct (decide _); [|by exists w'].
    apply fmap_Some in Hw' as (w & Hw & ->). exists w. done. }
  assert (∀ b w, b ≠ a → V !! b = Some w → ∃ w', V' !! b = Some w' ∧ state w' = state w ∧ sched_cpu w' = sched_cpu w
    ∧ sched_level w' = sched_level w) as Hfwd.
  { intros b w Hb Hw. rewrite HV by done. rewrite Hw. destruct (decide _); simpl; by eexists. }
  assert (next v = default 0 (L2 !! 0%nat)) as Hnv.
  { specialize (Hl (length L1) a). rewrite lookup_app_r, Nat.sub_diag in Hl by lia. specialize (Hl eq_refl).
    rewrite Ha in Hl. injection Hl as ->. rewrite lookup_app_r by lia. by replace (S (length L1) - length L1)%nat with 1%nat by lia. }
  constructor.
  - split; [done|]. intros i b Hi. destruct (decide (i < length L1)%nat) as [Hlt|Hge].
    + rewrite lookup_app_l in Hi by done. assert (b ∈ L1) as Hb1 by (by eapply list_elem_of_lookup_2).
      rewrite HV by (intros ->; done). pose proof (Hl i b ltac:(by rewrite lookup_app_l)) as Hlb.
      destruct (decide (S i < length L1)%nat) as [Hlt2|Hge2].
      * rewrite decide_False.
        -- rewrite Hlb. by rewrite !(lookup_app_l _ _ (S i)) by done.
        -- rewrite last_lookup. intros Hlast. pose proof (NoDup_lookup _ _ _ _ Hn1 Hi Hlast). lia.
      * rewrite decide_True by (rewrite last_lookup; by replace (pred (length L1)) with i by lia).
        destruct (V !! b); [|done]. simpl. rewrite Hnv, (lookup_app_r _ _ (S i)) by lia.
        by replace (S i - length L1)%nat with 0%nat by lia.
    + rewrite lookup_app_r in Hi by lia. assert (b ∈ L2) as Hb2 by (by eapply list_elem_of_lookup_2).
      rewrite HV by (intros ->; done).
      rewrite decide_False by (intros Hlast%last_Some_elem_of; apply (Hn12 b Hlast); by right).
      pose proof (Hl (S i) b) as Hlb. rewrite lookup_app_r in Hlb by lia.
      replace (S i - length L1)%nat with (S (i - length L1)) in Hlb by lia. rewrite (Hlb Hi).
      rewrite !lookup_app_r by lia. replace (S (S i) - length L1)%nat with (S (S (i - length L1))) by lia.
      by replace (S i - length L1)%nat with (S (i - length L1)) by lia.
  - apply NoDup_app. split_and!; try done. intros b Hb1 Hb2. apply (Hn12 b Hb1). by right.
  - intros b Hb. apply Hpos. by apply Hsub.
  - intros b. destruct (decide (b = a)) as [->|Hne].
    + rewrite HVa. split; [by intros [? ?]|]. intros [Hb|Hb]; [by destruct (Hsub a Hb)|].
      pose proof (Hpos a HaL). unfold is_idle in Hb. lia.
    + rewrite HV by done. rewrite elem_of_app. specialize (Hdom b). rewrite elem_of_app, elem_of_cons in Hdom.
      destruct (decide _); rewrite ?fmap_is_Some; rewrite Hdom; naive_solver.
  - rewrite length_app in *. simpl in Hsm. lia.
  - intros b w Hb Hw. destruct (Hsub b Hb) as [Hb' Hne]. destruct (Hback b w Hne Hw) as (w0 & Hw0 & _ & E2 & E3).
    rewrite E2, E3. by apply (Hrg b).
  - intros c l b Hc Hlv Hb. destruct (Hq c l b Hc Hlv Hb) as (HL & w & Hw & E1 & E2 & E3).
    assert (b ≠ a) as Hne by (intros ->; rewrite Ha in Hw; injection Hw as ->; by rewrite E1 in Hdead).
    split; [set_solver|]. destruct (Hfwd b w Hne Hw) as (w' & Hw' & F1 & F2 & F3). exists w'. split_and!; congruence.
  - intros b w Hb Hw Hs. destruct (Hsub b Hb) as [Hb' Hne]. destruct (Hback b w Hne Hw) as (w0 & Hw0 & E1 & E2 & E3).
    rewrite E2, E3. apply Hrd; congruence.
  - done.
  - intros c Hc Hcc. destruct (Hcur c Hc Hcc) as (Hon & w & Hw & E1 & E2 & E3). split; [done|].
    destruct (Hfwd _ w (Hnocur c Hc) Hw) as (w' & Hw' & F1 & F2 & F3). exists w'. rewrite F1, F2. split_and!; try done.
    destruct E3 as [[E3 ?]|?]; [left; split; [|done]|by right]. pose proof (Hnocur c Hc). set_solver.
  - intros b w Hb Hw Hs. destruct (Hsub b Hb) as [Hb' Hne]. destruct (Hback b w Hne Hw) as (w0 & Hw0 & E1 & E2 & E3).
    rewrite E2. apply Hrun; congruence.
Qed.

(** A new process, parked. *)
Lemma core_create x V Q L h cpus n a v :
  core x V Q L h cpus n → 0 < a → a ∉ L → state v ≠ READY → state v ≠ RUNNING → next v = h →
  cpu_ok (sched_cpu v) → level_ok (sched_level v) → Z.of_nat (length L) + 1 < 2 ^ 30 →
  core x (<[a := v]> V) Q (a :: L) a cpus n.
Proof.
  intros [[Hh Hl] Hnd Hpos Hdom Hsm Hrg Hq Hrd Hnc Hcur Hrun] Ha HaL Hs1 Hs2 Hnx Hc Hlv Hlen.
  assert (V !! a = None) as HVa.
  { apply eq_None_not_Some. intros [HL|Hi]%Hdom; [done|]. unfold is_idle in Hi. lia. }
  assert (∀ b w, V !! b = Some w → b ≠ a) as Hne by (intros b w Hb ->; congruence).
  constructor; try done.
  - split; [done|]. intros [|i] b Hi; simpl in Hi.
    + injection Hi as <-. rewrite lookup_insert_eq. simpl. by rewrite Hnx, Hh.
    + rewrite lookup_insert_ne; [by apply Hl|]. intros ->. apply HaL. by eapply list_elem_of_lookup_2.
  - by apply NoDup_cons.
  - intros b [->|Hb]%elem_of_cons; [done|by apply Hpos].
  - intros b. rewrite elem_of_cons. destruct (decide (a = b)) as [->|Hb].
    + rewrite lookup_insert_eq. split; [tauto|by eexists].
    + rewrite lookup_insert_ne, Hdom by done. naive_solver.
  - simpl length. lia.
  - intros b w Hb. destruct (decide (a = b)) as [->|Hnb]; [rewrite lookup_insert_eq; by intros [= <-]|].
    rewrite lookup_insert_ne by done. apply Hrg. set_solver.
  - intros c l b Hcc Hll Hb. destruct (Hq c l b Hcc Hll Hb) as (HL & w & Hw & E). split; [by right|].
    exists w. rewrite lookup_insert_ne; [done|]. intros ->. by apply (Hne b w).
  - intros b w Hb. destruct (decide (a = b)) as [->|Hnb]; [rewrite lookup_insert_eq; by intros [= <-]|].
    rewrite lookup_insert_ne by done. apply Hrd. set_solver.
  - intros c Hcc Hcur'. destruct (Hcur c Hcc Hcur') as (Hon & w & Hw & E1 & E2 & E3). split; [done|]. exists w.
    rewrite lookup_insert_ne by (intros Ea; by apply (Hne (curr cpus c) w Hw)). split_and!; try done.
    destruct E3 as [[? ?]|?]; [left; split; [by right|done]|by right].
  - intros b w Hb. destruct (decide (a = b)) as [->|Hnb]; [rewrite lookup_insert_eq; by intros [= <-]|].
    rewrite lookup_insert_ne by done. apply Hrun. set_solver.
Qed.

(** ** The state *)

Record inv (x : option Z) (s : sched) (Q : Z → Z → list Z) (L : list Z) : Prop := {
  i_q : qrep (procs s) (g_runqueues s) Q;
  i_core : core x (view (procs s)) Q L (proc_list_head s) (g_cpus s) (g_cpu_count s);
  i_deferred : length (g_deferred_reap s) = 16%nat;
  i_tss : length (tss_rsp0 s) = 16%nat;
  i_count : 0 ≤ g_cpu_count s ≤ 16;
  i_online : 1 ≤ g_online_cpu_count s ≤ 16
}.

(** Everything but the blocks and the queues. *)
Definition rest (s : sched) : sched := with_rqs [] (with_procs ∅ s).

Definition keeps_rq (f : process → process) : Prop :=
  ∀ p, rq_next (f p) = rq_next p ∧ erase (f p) = f (erase p).

Lemma view_some ps a v : view ps !! a = Some v → ∃ p, ps !! a = Some p ∧ v = erase p.
Proof. rewrite view_lookup. intros (p & Hp & ->)%fmap_Some. by exists p. Qed.

Lemma view_insert ps a p f : keeps_rq f → view (<[a := f p]> ps) = <[a := f (erase p)]> (view ps).
Proof. intros Hf. unfold view. rewrite fmap_insert. by rewrite (proj2 (Hf p)). Qed.

Lemma upd_spec s Q a v f :
  qrep (procs s) (g_runqueues s) Q → view (procs s) !! a = Some v → keeps_rq f →
  ∃ ps, upd f a s = Ret (with_procs ps s) ∧ qrep ps (g_runqueues s) Q ∧ view ps = <[a := f v]> (view (procs s)).
Proof.
  intros Hq (p & Hp & ->)%view_some Hf. unfold upd. rewrite (updp_ret _ _ _ _ Hp). cbn [obind].
  eexists. split; [done|]. split; [|by apply view_insert]. apply (qrep_ext (procs s)); [done|].
  intros c l b _ _ _. unfold rqn. destruct (decide (a = b)) as [->|Hne].
  - rewrite lookup_insert_eq, Hp. simpl. f_equal. apply Hf.
  - by rewrite lookup_insert_ne.
Qed.

Lemma getp_view ps a v : view ps !! a = Some v → ∃ p, getp ps a = Ret p ∧ v = erase p.
Proof. intros (p & Hp & ->)%view_some. exists p. split; [by apply getp_ret|done]. Qed.

Lemma set_current_spec c a s :
  length (g_cpus s) = 16%nat → cpu_ok c → set_current c a s = Ret (with_cpus (put_curr c a (g_cpus s)) s).
Proof.
  intros Hl Hc. unfold set_current, put_curr. unfold cpu_ok in Hc.
  destruct (lookup_lt_is_Some_2 (g_cpus s) (Z.to_nat c)) as [y Hy]; [lia|].
  rewrite (oget_in _ _ _ (proj1 Hc) Hy). cbn [obind]. rewrite oset_in by lia. cbn [obind]. by rewrite Hy.
Qed.

Lemma current_spec c s : length (g_cpus s) = 16%nat → cpu_ok c → current c s = Ret (curr (g_cpus s) c).
Proof.
  intros Hl Hc. unfold current, curr. unfold cpu_ok in Hc.
  destruct (lookup_lt_is_Some_2 (g_cpus s) (Z.to_nat c)) as [y Hy]; [lia|].
  by rewrite (oget_in _ _ _ (proj1 Hc) Hy), Hy.
Qed.

Lemma keeps_rq_set_state st : keeps_rq (set_state st).
Proof. done. Qed.
Lemma keeps_rq_set_wake t : keeps_rq (set_wake t).
Proof. done. Qed.
Lemma keeps_rq_set_sched a b c : keeps_rq (set_sched a b c).
Proof. done. Qed.
Lemma keeps_rq_set_on_cpu v : keeps_rq (set_on_cpu v).
Proof. done. Qed.
Lemma keeps_rq_set_next v : keeps_rq (set_next v).
Proof. done. Qed.
#[export] Hint Resolve keeps_rq_set_state keeps_rq_set_wake keeps_rq_set_sched keeps_rq_set_on_cpu keeps_rq_set_next : cint.

Lemma core_ext x V Q Q' L h cpus n :
  (∀ c l b, cpu_ok c → level_ok l → b ∈ Q' c l ↔ b ∈ Q c l) → core x V Q L h cpus n → core x V Q' L h cpus n.
Proof.
  intros E [Hl Hnd Hpos Hdom Hsm Hrg Hq Hrd Hnc Hcur Hrun]. constructor; try done.
  - intros c l a Hc Hlv Ha. apply Hq; try done. by apply E.
  - intros a v Ha Hv Hs. destruct (Hrg a v Ha Hv). apply E; try done. by apply Hrd.
Qed.

(** The queues are short: they hold distinct listed processes. *)
Lemma queue_small x s Q L c l :
  inv x s Q L → cpu_ok c → level_ok l → Z.of_nat (length (Q c l)) < 2 ^ 30.
Proof.
  intros [Hq Hc _ _ _ _] Hcc Hl. destruct (qr_rep _ _ _ Hq c Hcc) as (q & _ & Hr).
  pose proof (lr_nodup _ _ _ _ (rr_levels _ _ _ Hr l Hl)) as Hn.
  assert (length (Q c l) ≤ length L)%nat as Hle.
  { apply submseteq_length, NoDup_submseteq; [done|]. intros a Ha. by apply (c_queued _ _ _ _ _ _ _ Hc c l). }
  pose proof (c_small _ _ _ _ _ _ _ Hc). lia.
Qed.

(** A process that is not READY is in no queue. *)
Lemma not_ready_unqueued x V Q L h cpus n a v :
  core x V Q L h cpus n → V !! a = Some v → state v ≠ READY → unqueued Q a.
Proof.
  intros Hc Hv Hs c l Hcc Hl Hin. destruct (c_queued _ _ _ _ _ _ _ Hc c l a Hcc Hl Hin) as (_ & w & Hw & E & _). congruence.
Qed.

Lemma listed_some x s Q L a : inv x s Q L → a ∈ L → ∃ v, view (procs s) !! a = Some v ∧ 0 < a.
Proof.
  intros [_ Hc _ _ _ _] Ha. destruct (proj2 (c_dom _ _ _ _ _ _ _ Hc a) (or_introl Ha)) as [v Hv]. exists v.
  split; [done|]. by apply (c_pos _ _ _ _ _ _ _ Hc).
Qed.

Lemma next_listed x s Q L don a todo v :
  inv x s Q L → L = don ++ a :: todo → view (procs s) !! a = Some v → next v = default 0 (todo !! 0%nat).
Proof.
  intros [_ Hcore _ _ _ _] HL Hv. destruct (c_list _ _ _ _ _ _ _ Hcore) as [_ Hl]. specialize (Hl (length don) a).
  rewrite HL, lookup_app_r, Nat.sub_diag in Hl by lia. specialize (Hl eq_refl). rewrite Hv in Hl.
  injection Hl as ->. rewrite lookup_app_r by lia. by replace (S (length don) - length don)%nat with 1%nat by lia.
Qed.

(** Stopping a process: [kill], [killProcess], [pauseProcess]. *)
Lemma inv_stop x s Q L a v st :
  inv x s Q L → a ∈ L → view (procs s) !! a = Some v → st ≠ READY → st ≠ RUNNING → st ≠ WAITING →
  ∃ s', (let* s := upd (set_state st) a s in scheduler_dequeue a s) = Ret s'
    ∧ inv x s' (unlink a Q) L ∧ rest s' = rest s ∧ view (procs s') = <[a := set_state st v]> (view (procs s)).
Proof.
  intros Hi Ha Hv S1 S2 S3. pose proof Hi as [Hq Hc Hd Ht Hn Ho].
  destruct (listed_some x s Q L a Hi Ha) as (? & _ & Hpos).
  destruct (upd_spec s Q a v (set_state st) Hq Hv (keeps_rq_set_state st)) as (ps & -> & Hq1 & Hv1). cbn [obind].
  assert (view ps !! a = Some (set_state st v)) as Hva by (rewrite Hv1; apply lookup_insert_eq).
  destruct (view_some _ _ _ Hva) as (p & Hp & Ep).
  assert (sched_cpu p = sched_cpu v) as Ecpu by (by apply (f_equal sched_cpu) in Ep).
  destruct (c_range _ _ _ _ _ _ _ Hc a v Ha Hv) as [Hcr _].
  destruct (scheduler_dequeue_spec (with_procs ps s) Q a p) as (ps2 & qs2 & -> & Hq2 & Hv2); simpl; try done; [lia|by rewrite Ecpu| |].
  { intros c l Hcc Hl Hin. destruct (c_queued _ _ _ _ _ _ _ Hc c l a Hcc Hl Hin) as (_ & w & Hw & _ & E & _). congruence. }
  eexists. split; [done|]. simpl in *. rewrite Hv2, Hv1. split_and!; try done. constructor; simpl; try done.
  rewrite Hv2, Hv1. apply (core_stop x _ Q _ L _ _ _ a v); try done. intros c l b _ _. apply elem_unlink.
Qed.

(** ** Enqueueing *)

Lemma least_loop_range qs : ∀ cpu best load,
  0 ≤ best < cpu ∨ (best = 0 ∧ cpu = 0) →
  0 ≤ cpu → 0 ≤ least_loop qs cpu best load < Z.max 1 (cpu + Z.of_nat (length qs)).
Proof.
  induction qs as [|q qs IH]; intros cpu best load Hb Hc; simpl least_loop; [simpl length; lia|].
  destruct (rq_total q <? load).
  - specialize (IH (cpu + 1) cpu (rq_total q)). simpl length. lia.
  - specialize (IH (cpu + 1) best load). simpl length. lia.
Qed.

Lemma pick_least_loaded_ok x s Q L : inv x s Q L → cpu_ok (pick_least_loaded_cpu s).
Proof.
  intros [Hq _ _ _ _ Ho]. unfold pick_least_loaded_cpu, cpu_ok.
  rewrite (proj2 (Z.eqb_neq (g_online_cpu_count s) 0)) by lia.
  rewrite (proj2 (Z.ltb_ge MAX_CPUS (g_online_cpu_count s))) by (unfold MAX_CPUS; lia).
  pose proof (least_loop_range (take (Z.to_nat (g_online_cpu_count s)) (g_runqueues s)) 0 0 4294967295) as H.
  rewrite length_take, (qr_len _ _ _ Hq) in H. lia.
Qed.

(** Making READY a process that is neither queued nor running, on core [c]. *)
Lemma inv_make_ready x s Q L a v c f :
  inv x s Q L → a ∈ L → view (procs s) !! a = Some v → state v ≠ READY →
  (∀ c', cpu_ok c' → curr (g_cpus s) c' ≠ a) → cpu_ok c → keeps_rq f →
  state (f v) = READY → next (f v) = next v → sched_cpu (f v) = c → sched_level (f v) = 0 →
  ∃ ps s', upd f a s = Ret (with_procs ps s) ∧ push_on c a 0 (with_procs ps s) = Ret s'
    ∧ inv x s' (add_to Q c 0 a) L ∧ rest s' = rest s ∧ view (procs s') = <[a := f v]> (view (procs s)).
Proof.
  intros Hi Ha Hv Hs Hnc Hc Hk F1 F2 F3 F4. pose proof Hi as [Hq Hcore Hd Ht Hn Ho].
  destruct (upd_spec s Q a v f Hq Hv Hk) as (ps & E & Hq1 & Hv1).
  assert (view ps !! a = Some (f v)) as Hva by (rewrite Hv1; apply lookup_insert_eq).
  destruct (view_some _ _ _ Hva) as (p & Hp & _).
  destruct (listed_some x s Q L a Hi Ha) as (_ & _ & Hpos).
  assert (level_ok 0) as Hl0 by (unfold level_ok; lia).
  pose proof (queue_small x s Q L c 0 Hi Hc Hl0).
  destruct (push_on_spec (with_procs ps s) Q c 0 a p) as (ps2 & qs2 & E2 & Hq2 & Hv2); simpl; try done; try lia.
  { by eapply not_ready_unqueued. }
  simpl in Hv2. exists ps, (with_rqs qs2 (with_procs ps2 (with_procs ps s))). split_and!; try done.
  - constructor; simpl; try done. rewrite Hv2, Hv1.
    pose proof (core_make_ready x _ Q L _ _ _ a v (f v) Hcore Ha Hv Hs Hnc F1 F2) as Hmk. rewrite F3, F4 in Hmk. by apply Hmk.
  - simpl. by rewrite Hv2, Hv1.
Qed.

Lemma upd_upd f g a s : (let* s := upd f a s in upd g a s) = upd (λ p, g (f p)) a s.
Proof.
  unfold upd, updp, getp. destruct (procs s !! a) as [p|] eqn:E; [|done]. simpl. rewrite lookup_insert_eq. simpl.
  by rewrite insert_insert_eq.
Qed.

Lemma upd_runqueues f a s s' : upd f a s = Ret s' → rest s' = rest s ∧ g_runqueues s' = g_runqueues s.
Proof. unfold upd. destruct (updp f a (procs s)); simpl; [|done..]. intros [= <-]. done. Qed.

(** Resuming a parked process: [proc_start] and [unpauseProcess] in the
    queue of core [c]. *)
Lemma inv_resume x s Q L a v c :
  inv x s Q L → a ∈ L → view (procs s) !! a = Some v → state v ≠ READY →
  (∀ c', cpu_ok c' → curr (g_cpus s) c' ≠ a) → cpu_ok c →
  ∃ s1 s', upd (set_state READY) a s = Ret s1
    ∧ (let* s := upd (set_sched 0 c 0) a s1 in push_on c a 0 s) = Ret s'
    ∧ inv x s' (add_to Q c 0 a) L ∧ rest s1 = rest s ∧ g_runqueues s1 = g_runqueues s
    ∧ rest s' = rest s ∧ view (procs s1) = <[a := set_state READY v]> (view (procs s))
    ∧ view (procs s') = <[a := set_sched 0 c 0 (set_state READY v)]> (view (procs s)).
Proof.
  intros Hi Ha Hv Hs Hnc Hc. pose proof Hi as [Hq _ _ _ _ _].
  destruct (upd_spec s Q a v (set_state READY) Hq Hv (keeps_rq_set_state READY)) as (ps1 & E1 & _ & Hv1).
  destruct (inv_make_ready x s Q L a v c (λ p, set_sched 0 c 0 (set_state READY p))) as (ps & s' & E & E2 & Hi' & Hr & Hv'); try done.
  exists (with_procs ps1 s), s'. split_and!; try done.
  rewrite <- upd_upd, E1 in E. cbn [obind] in E. rewrite E. done.
Qed.

(** A process that is no core's current one, by its state. *)
Lemma not_current_waiting V Q L h cpus n a v :
  core None V Q L h cpus n → a ∈ L → V !! a = Some v → state v = WAITING → ∀ c, cpu_ok c → curr cpus c ≠ a.
Proof.
  intros Hc Ha Hv Hs c Hcc E. pose proof (c_pos _ _ _ _ _ _ _ Hc a Ha).
  destruct (c_current _ _ _ _ _ _ _ Hc c Hcc) as (_ & w & Hw & _ & Hx & _); [lia|]. rewrite E in Hw.
  rewrite Hv in Hw. injection Hw as <-. by specialize (Hx Hs).
Qed.

(** ** Waking *)

(** The sleepers of the core whose time has come. *)
Definition due (V : pmap) (cpu now : Z) (a : Z) : bool :=
  match V !! a with
  | Some v => bool_decide (state v = WAITING) && (0 <? wake_time_ms v) && (wake_time_ms v <=? now) && (sched_cpu v =? cpu)
  | None => false
  end.
Definition woken (v : process) : process := set_sched 0 (sched_cpu v) 0 (set_wake 0 (set_state READY v)).

(** One process of the pass. *)
Lemma wake_one s Q L a v p cpu now :
  inv None s Q L → a ∈ L → view (procs s) !! a = Some v → v = erase p →
  ∃ s1 Q1, (if decide (state p = WAITING)
     then if (0 <? wake_time_ms p) && (wake_time_ms p <=? now) && (sched_cpu p =? cpu)
          then let* s := upd (set_state READY) a s in let* s := upd (set_wake 0) a s in
               let* s := upd (set_sched SCHED_LEVEL_INTERACTIVE (sched_cpu p) 0) a s in push_on cpu a SCHED_LEVEL_INTERACTIVE s
          else Ret s
     else Ret s) = Ret s1 ∧ inv None s1 Q1 L ∧ rest s1 = rest s
    ∧ (∀ c l, Q1 c l = Q c l ++ if decide (c = cpu ∧ l = 0) then filter (λ a, due (view (procs s)) cpu now a = true) [a] else [])
    ∧ view (procs s1) = <[a := if due (view (procs s)) cpu now a then woken v else v]> (view (procs s)).
Proof.
  intros Hi Ha Hv Ev. assert (due (view (procs s)) cpu now a
    = bool_decide (state p = WAITING) && ((0 <? wake_time_ms p) && (wake_time_ms p <=? now) && (sched_cpu p =? cpu))) as Ed.
  { unfold due. rewrite Hv, Ev. by rewrite !andb_assoc. }
  assert (∀ b, b = false → ∀ c l, Q c l = Q c l ++ (if decide (c = cpu ∧ l = 0) then if decide (b = true) then [a] else [] else [])) as Hnone.
  { intros b -> c l. destruct (decide _); by rewrite app_nil_r. }
  rewrite filter_cons, filter_nil, Ed. destruct (decide (state p = WAITING)) as [Hw|Hw].
  2: { rewrite bool_decide_eq_false_2 by done. exists s, Q. split_and!; try done; [by apply Hnone|by rewrite insert_id]. }
  rewrite bool_decide_eq_true_2 by done. cbn [andb].
  destruct ((0 <? wake_time_ms p) && (wake_time_ms p <=? now) && (sched_cpu p =? cpu)) eqn:Et.
  2: { exists s, Q. split_and!; try done; [by apply Hnone|by rewrite insert_id]. }
  apply andb_prop in Et as [_ Ecpu%Z.eqb_eq]. assert (state v = WAITING) as Hsv by (by rewrite Ev).
  destruct (c_range _ _ _ _ _ _ _ (i_core _ _ _ _ Hi) a v Ha Hv) as [Hcv _].
  destruct (inv_make_ready None s Q L a v cpu (λ q, set_sched 0 (sched_cpu p) 0 (set_wake 0 (set_state READY q))))
    as (ps & s' & E & E2 & Hi' & Hr & Hv'); try done.
  { by rewrite Hsv. } { eapply not_current_waiting; [exact (i_core _ _ _ _ Hi)|done|exact Hv|done]. } { by rewrite Ev, <- Ecpu in *. }
  exists s', (add_to Q cpu 0 a). split_and!; try done.
  - rewrite <- (upd_upd (λ q, set_wake 0 (set_state READY q)) (set_sched 0 (sched_cpu p) 0)), <- upd_upd in E.
    destruct (upd (set_state READY) a s) as [s2| | |]; [|done..]. cbn [obind] in *.
    destruct (upd (set_wake 0) a s2) as [s3| | |]; [|done..]. cbn [obind] in *. unfold SCHED_LEVEL_INTERACTIVE. by rewrite E.
  - intros c l. unfold add_to, setc, setl. destruct (decide (c = cpu ∧ l = 0)) as [[-> ->]|Hne].
    + rewrite decide_True by done. by rewrite !Z.eqb_refl.
    + rewrite app_nil_r. destruct (Z.eqb_spec c cpu) as [->|]; [|done]. destruct (Z.eqb_spec l 0) as [->|]; [|done]. tauto.
  - rewrite Hv'. unfold woken. by rewrite Ev.
Qed.

Lemma wake_loop_spec cpu now L (V0 : pmap) fuel : ∀ s Q don todo,
  inv None s Q L → L = don ++ todo → (length todo < fuel)%nat →
  (∀ a, a ∈ todo → view (procs s) !! a = V0 !! a) →
  ∃ s' Q', wake_loop fuel cpu now (default 0 (todo !! 0%nat)) s = Ret s' ∧ inv None s' Q' L ∧ rest s' = rest s
    ∧ (∀ c l, Q' c l = Q c l ++ if decide (c = cpu ∧ l = 0) then filter (λ a, due V0 cpu now a = true) todo else [])
    ∧ (∀ a, a ∉ todo → view (procs s') !! a = view (procs s) !! a)
    ∧ (∀ a v, a ∈ todo → V0 !! a = Some v → view (procs s') !! a = Some (if due V0 cpu now a then woken v else v)).
Proof.
  induction fuel as [|fuel IH]; intros s Q don todo Hi HL Hf HV; [lia|]. cbn [wake_loop].
  destruct todo as [|a todo].
  { exists s, Q. split_and!; try done; [|set_solver]. intros c l. destruct (decide _); by rewrite app_nil_r. }
  change (default 0 ((a :: todo) !! 0%nat)) with a. cbn [length] in Hf.
  assert (a ∈ L) as Ha by (rewrite HL; set_solver). destruct (listed_some None s Q L a Hi Ha) as (v & Hv & Hpos).
  rewrite (proj2 (Z.eqb_neq a 0)) by lia. destruct (getp_view _ _ _ Hv) as (p & -> & Ev). cbn [obind].
  assert (V0 !! a = Some v) as HV0 by (rewrite <- HV by (by left); done).
  assert (due (view (procs s)) cpu now a = due V0 cpu now a) as Ed by (unfold due; by rewrite HV0, Hv).
  pose proof (c_nodup _ _ _ _ _ _ _ (i_core _ _ _ _ Hi)) as HND. rewrite HL in HND.
  apply NoDup_app in HND as (_ & _ & [Hat _]%NoDup_cons).
  destruct (wake_one s Q L a v p cpu now Hi Ha Hv Ev) as (s1 & Q1 & -> & Hi1 & Hr1 & HQ1 & Hv1). cbn [obind].
  replace (next p) with (next v) by (by rewrite Ev). rewrite (next_listed None s Q L don a todo v Hi HL Hv).
  rewrite filter_cons, filter_nil, Ed in HQ1. rewrite Ed in Hv1.
  destruct (IH s1 Q1 (don ++ [a]) todo) as (s' & Q' & -> & Hi' & Hr' & HQ' & Hout & Hin); try done; [by rewrite <- app_assoc|lia| |].
  { intros b Hb. rewrite Hv1, lookup_insert_ne by (intros ->; done). apply HV. by right. }
  exists s', Q'. split_and!; try done; [congruence| | |].
  - intros c l. rewrite HQ', HQ1, <- app_assoc. f_equal. destruct (decide (c = cpu ∧ l = 0)); [|done].
    rewrite filter_cons. by destruct (decide _).
  - intros b Hb. apply not_elem_of_cons in Hb as [Hb1' Hb2]. rewrite Hout by done. by rewrite Hv1, lookup_insert_ne.
  - intros b w Hb Hw. apply elem_of_cons in Hb as [->|Hb]; [|by apply Hin].
    rewrite Hout by done. rewrite HV0 in Hw. injection Hw as <-. by rewrite Hv1, lookup_insert_eq.
Qed.

(** The lengths and counters [inv] asks for. *)
Definition sized (s : sched) : Prop :=
  length (g_deferred_reap s) = 16%nat ∧ length (tss_rsp0 s) = 16%nat ∧ 0 ≤ g_cpu_count s ≤ 16 ∧ 1 ≤ g_online_cpu_count s ≤ 16.

Lemma inv_sized x s Q L : inv x s Q L → sized s.
Proof. by intros []. Qed.

Lemma inv_intro x s Q L :
  qrep (procs s) (g_runqueues s) Q → core x (view (procs s)) Q L (proc_list_head s) (g_cpus s) (g_cpu_count s) → sized s →
  inv x s Q L.
Proof. intros Hq Hc (? & ? & ? & ?). by constructor. Qed.

Lemma inv_strengthen s Q L c : inv None s Q L → inv (Some c) s Q L.
Proof. intros []. constructor; try done. by apply core_strengthen. Qed.

Lemma rest_eq s s0 :
  rest s = rest s0 →
  proc_list_head s = proc_list_head s0 ∧ g_cpus s = g_cpus s0 ∧ g_cpu_count s = g_cpu_count s0
  ∧ g_online_cpu_count s = g_online_cpu_count s0 ∧ g_deferred_reap s = g_deferred_reap s0 ∧ tss_rsp0 s = tss_rsp0 s0
  ∧ scheduler_on s = scheduler_on s0 ∧ pid_counter s = pid_counter s0.
Proof. destruct s, s0. unfold rest. simpl. intros E. injection E as. split_and!; congruence. Qed.

(** A step changed of the process blocks neither the core nor the level nor
    the privilege, and the state only of those in [X]. *)
Definition steady (X : Z → Prop) (V V' : pmap) : Prop :=
  ∀ d w', 0 < d → V' !! d = Some w' → ∃ w, V !! d = Some w ∧ sched_cpu w' = sched_cpu w
    ∧ sched_level w' = sched_level w ∧ priv w' = priv w ∧ (¬ X d → state w' = state w).

Lemma steady_refl X V : steady X V V.
Proof. intros d w _ Hw. by exists w. Qed.

Lemma steady_weaken (X Y : Z → Prop) V V' : steady X V V' → (∀ d, X d → Y d) → steady Y V V'.
Proof. intros H HXY d w' Hd Hw'. destruct (H d w' Hd Hw') as (w & ? & ? & ? & ? & Hs). exists w. split_and!; auto. Qed.

Lemma steady_trans X V1 V2 V3 : steady X V1 V2 → steady X V2 V3 → steady X V1 V3.
Proof.
  intros H12 H23 d w3 Hd Hw3. destruct (H23 d w3 Hd Hw3) as (w2 & Hw2 & A2 & A3 & A4 & A5).
  destruct (H12 d w2 Hd Hw2) as (w1 & Hw1 & B2 & B3 & B4 & B5). exists w1. split_and!; try congruence.
  intros HX. rewrite A5 by done. by apply B5.
Qed.

Lemma steady_insert (X : Z → Prop) V a v f :
  V !! a = Some v → sched_cpu (f v) = sched_cpu v → sched_level (f v) = sched_level v → priv (f v) = priv v →
  X a ∨ a ≤ 0 ∨ state (f v) = state v → steady X V (<[a := f v]> V).
Proof.
  intros Hv F2 F3 F4 Hs d w' Hd. destruct (decide (a = d)) as [<-|Hne].
  - rewrite lookup_insert_eq. intros [= <-]. exists v. split_and!; try done. by destruct Hs as [|[?|]]; [|lia|].
  - rewrite lookup_insert_ne by done. by apply steady_refl.
Qed.

Lemma view_is_some ps a : is_Some (view ps !! a) ↔ is_Some (ps !! a).
Proof. by rewrite view_lookup, fmap_is_Some. Qed.

Lemma size_listed x s Q L : inv x s Q L → (length L ≤ size (procs s))%nat.
Proof.
  intros [_ Hc _ _ _ _]. rewrite <- view_size, <- size_dom, <- (size_list_to_set (C := gset Z) L) by apply Hc.
  apply subseteq_size. intros a Ha%elem_of_list_to_set. apply elem_of_dom. apply (c_dom _ _ _ _ _ _ _ Hc). by left.
Qed.

Lemma current_anywhere x s Q L a :
  inv x s Q L → 0 < a → process_is_current_on_any_cpu a s = false → ∀ c, cpu_ok c → curr (g_cpus s) c ≠ a.
Proof.
  intros [_ Hcore _ _ Hn _] Ha Hf c Hc Ec. unfold process_is_current_on_any_cpu in Hf.
  rewrite (proj2 (Z.eqb_neq a 0)) in Hf by lia.
  rewrite (proj2 (Z.ltb_ge MAX_CPUS (g_cpu_count s))) in Hf by (unfold MAX_CPUS; lia).
  destruct (c_current _ _ _ _ _ _ _ Hcore c Hc) as ((Hlt & y & Hy & Ho) & _); [lia|].
  apply not_true_iff_false in Hf. apply Hf. apply existsb_exists. exists y. split.
  - apply list_elem_of_In, list_elem_of_lookup. exists (Z.to_nat c). unfold cpu_ok in Hc.
    rewrite lookup_take_lt by lia. done.
  - rewrite Ho. simpl. unfold curr in Ec. rewrite Hy in Ec. by apply Z.eqb_eq.
Qed.

(** The processes the pass frees. *)
Definition reaped (V : pmap) (skip : list Z) (s : sched) (a : Z) : bool :=
  match V !! a with
  | Some v => dead (state v) && negb (bool_decide (a ∈ skip) || process_is_current_on_any_cpu a s)
  | None => false
  end.

(** Fields the clean-up pass leaves alone. *)
Definition stable (s s' : sched) : Prop :=
  g_cpus s' = g_cpus s ∧ g_cpu_count s' = g_cpu_count s ∧ g_online_cpu_count s' = g_online_cpu_count s
  ∧ g_deferred_reap s' = g_deferred_reap s ∧ tss_rsp0 s' = tss_rsp0 s ∧ g_runqueues s' = g_runqueues s
  ∧ scheduler_on s' = scheduler_on s ∧ pid_counter s' = pid_counter s.

Lemma stable_refl s : stable s s.
Proof. by split_and!. Qed.
Lemma stable_trans s1 s2 s3 : stable s1 s2 → stable s2 s3 → stable s1 s3.
Proof. intros (?&?&?&?&?&?&?&?) (?&?&?&?&?&?&?&?). split_and!; congruence. Qed.
Lemma stable_sized s s' : stable s s' → sized s → sized s'.
Proof. intros (_ & E1 & E2 & E3 & E4 & _). unfold sized. by rewrite E1, E2, E3, E4. Qed.

(** Unlinking the block behind the last of [don]. *)
Lemma unlink_spec x s Q don a todo v nxt :
  inv x s Q (don ++ a :: todo) → view (procs s) !! a = Some v → nxt = next v →
  ∃ s1, (if negb (default 0 (last don) =? 0) then upd (set_next nxt) (default 0 (last don)) s
         else Ret (with_head nxt s)) = Ret s1
    ∧ proc_list_head s1 = default 0 ((don ++ todo) !! 0%nat) ∧ stable s s1
    ∧ (∀ b, rqn (procs s1) b = rqn (procs s) b)
    ∧ (∀ b, view (procs s1) !! b = if decide (last don = Some b) then set_next (next v) <$> view (procs s) !! b else view (procs s) !! b).
Proof.
  intros Hi Hv ->. pose proof (i_core _ _ _ _ Hi) as Hcore. destruct (last don) as [t|] eqn:El.
  - change (default 0 (Some t)) with t. apply last_Some_elem_of in El as Hin.
    destruct (listed_some x s Q _ t Hi ltac:(set_solver)) as (w & Hw & Htp). rewrite (proj2 (Z.eqb_neq t 0)) by lia. cbn [negb].
    destruct (view_some _ _ _ Hw) as (pt & Hpt & Ew). unfold upd. rewrite (updp_ret _ _ _ _ Hpt). cbn [obind].
    eexists. split; [done|]. simpl. split; [destruct (c_list _ _ _ _ _ _ _ Hcore) as [-> _]; by destruct don|].
    split; [by split_and!|]. split.
    + intros b. unfold rqn. destruct (decide (t = b)) as [->|]; [by rewrite lookup_insert_eq, Hpt|by rewrite lookup_insert_ne].
    + intros b. rewrite (view_insert (procs s) t pt (set_next (next v))) by done. destruct (decide (Some t = Some b)) as [[= ->]|Hne].
      * by rewrite lookup_insert_eq, Hw, Ew.
      * by rewrite lookup_insert_ne by congruence.
  - apply last_None in El as ->. change (default 0 None) with 0. simpl. eexists. split; [done|]. simpl.
    split; [by apply (next_listed x s Q (a :: todo) [] a todo v)|]. split; [by split_and!|done].
Qed.

Lemma reap_spec x s Q don a todo v p :
  inv x s Q (don ++ a :: todo) → view (procs s) !! a = Some v → v = erase p → dead (state p) = true →
  (∀ c, cpu_ok c → curr (g_cpus s) c ≠ a) →
  ∃ s', reap (default 0 (last don)) a p s = Ret (default 0 (todo !! 0%nat), s') ∧ inv x s' Q (don ++ todo) ∧ stable s s'
    ∧ steady (λ _, False) (view (procs s)) (view (procs s')) ∧ (∀ b, b ∈ todo → view (procs s') !! b = view (procs s) !! b).
Proof.
  intros Hi Hv Ev Edead Hnocur. pose proof Hi as [Hq Hcore _ _ _ _].
  pose proof (c_nodup _ _ _ _ _ _ _ Hcore) as (_ & Hdon & [Hat _]%NoDup_cons)%NoDup_app.
  destruct (unlink_spec x s Q don a todo v (next p) Hi Hv) as (s1 & E1 & Hh1 & St & Hrq1 & Hv1); [by rewrite Ev|].
  unfold reap. rewrite E1. cbn [obind]. set (s2 := with_procs _ _). pose proof St as (G1 & G2 & _ & _ & _ & G6 & _).
  assert (stable s s2) as St2 by done.
  assert (∀ b, b ≠ a → view (procs s2) !! b = if decide (last don = Some b) then set_next (next v) <$> view (procs s) !! b else view (procs s) !! b) as Hv2.
  { intros b Hb. rewrite <- Hv1. unfold s2. simpl. by rewrite !view_lookup, lookup_delete_ne. }
  assert (view (procs s2) !! a = None) as Hva by (unfold s2; simpl; by rewrite view_lookup, lookup_delete_eq).
  assert (inv x s2 Q (don ++ todo)) as Hi2.
  { apply inv_intro; [| |by eapply stable_sized, inv_sized].
    - simpl. rewrite G6. apply (qrep_ext (procs s)); [done|]. intros c l b Hc Hl Hb.
      rewrite <- Hrq1. unfold rqn. rewrite lookup_delete_ne; [done|]. intros <-.
      destruct (c_queued _ _ _ _ _ _ _ Hcore c l a Hc Hl Hb) as (_ & w & Hw & Es & _). rewrite Hv in Hw. injection Hw as <-.
      rewrite Ev in Es. simpl in Es. by rewrite Es in Edead.
    - change (proc_list_head s2) with (proc_list_head s1). rewrite Hh1. simpl g_cpus. simpl g_cpu_count. rewrite G1, G2.
      apply (core_delete x (view (procs s)) _ Q don a todo (proc_list_head s) _ _ v); try done. by rewrite Ev. }
  assert ((if negb (default 0 (last don) =? 0) then let* q := getp (procs s2) (default 0 (last don)) in Ret (next q)
           else Ret (proc_list_head s2)) = Ret (default 0 (todo !! 0%nat))) as ->.
  { clear E1 Hv1 Hv2 Hdon. destruct don as [|t don' _] using rev_ind; [simpl; by rewrite Hh1|]. rewrite last_snoc.
    change (default 0 (Some t)) with t.
    destruct (listed_some x s2 Q _ t Hi2 ltac:(set_solver)) as (w & Hw & Htp). rewrite (proj2 (Z.eqb_neq t 0)) by lia. cbn [negb].
    destruct (getp_view _ _ _ Hw) as (q & -> & Ew). cbn [obind]. f_equal. change (next q) with (next (erase q)). rewrite <- Ew.
    apply (next_listed x s2 Q _ don' t todo w Hi2); [by rewrite <- app_assoc|done]. }
  cbn [obind]. exists s2. split_and!; try done.
  - intros d w' Hd Hw'. destruct (decide (d = a)) as [->|Hne]; [congruence|]. rewrite Hv2 in Hw' by done.
    destruct (decide _); [|by exists w']. apply fmap_Some in Hw' as (w & Hw & ->). by exists w.
  - intros b Hb. rewrite Hv2 by (intros ->; done). rewrite decide_False; [done|].
    intros El%last_Some_elem_of. apply (Hdon b El). by right.
Qed.

Lemma cleanup_loop_spec x skip s0 (V0 : pmap) fuel : ∀ s Q don todo,
  inv x s Q (don ++ todo) → (length todo < fuel)%nat → g_cpus s = g_cpus s0 → g_cpu_count s = g_cpu_count s0 →
  (∀ a, a ∈ todo → view (procs s) !! a = V0 !! a) →
  ∃ s', cleanup_loop fuel skip (default 0 (last don)) (default 0 (todo !! 0%nat)) s = Ret s'
    ∧ inv x s' Q (don ++ filter (λ a, reaped V0 skip s0 a = false) todo) ∧ stable s s'
    ∧ steady (λ _, False) (view (procs s)) (view (procs s')).
Proof.
  induction fuel as [|fuel IH]; intros s Q don todo Hi Hf Hg1 Hg2 HV; [lia|]. cbn [cleanup_loop].
  destruct todo as [|a todo]; [exists s; rewrite filter_nil; split_and!; auto using stable_refl, steady_refl|].
  change (default 0 ((a :: todo) !! 0%nat)) with a. cbn [length] in Hf.
  destruct (listed_some x s Q _ a Hi ltac:(set_solver)) as (v & Hv & Hpos).
  rewrite (proj2 (Z.eqb_neq a 0)) by lia. destruct (getp_view _ _ _ Hv) as (p & -> & Ev). cbn [obind].
  assert (V0 !! a = Some v) as HV0 by (rewrite <- HV by (by left); done).
  assert (reaped V0 skip s0 a = dead (state p) && negb (bool_decide (a ∈ skip) || process_is_current_on_any_cpu a s)) as Er.
  { unfold reaped, process_is_current_on_any_cpu. by rewrite HV0, Ev, Hg1, Hg2. }
  assert (reaped V0 skip s0 a = false →
    ∃ s', cleanup_loop fuel skip a (next p) s = Ret s' ∧ inv x s' Q (don ++ filter (λ a, reaped V0 skip s0 a = false) (a :: todo))
      ∧ stable s s' ∧ steady (λ _, False) (view (procs s)) (view (procs s'))) as Hkeep.
  { intros Hre. rewrite filter_cons, decide_True by done.
    replace (next p) with (next v) by (by rewrite Ev). rewrite (next_listed x s Q (don ++ a :: todo) don a todo v Hi eq_refl Hv).
    destruct (IH s Q (don ++ [a]) todo) as (s' & E & Hi' & Hrest); try done; [by rewrite <- app_assoc|lia|intros b Hb; apply HV; by right|].
    exists s'. rewrite last_snoc in E. by rewrite <- app_assoc in Hi'. }
  destruct (dead (state p)) eqn:Edead; [|apply Hkeep; by rewrite Er].
  destruct (bool_decide (a ∈ skip) || process_is_current_on_any_cpu a s) eqn:Esk; [apply Hkeep; by rewrite Er|].
  apply orb_false_elim in Esk as [_ Enc].
  destruct (reap_spec x s Q don a todo v p Hi Hv Ev Edead (current_anywhere x s Q _ a Hi Hpos Enc)) as (s2 & -> & Hi2 & St & Sd & Hb).
  cbn [obind fst snd]. pose proof St as (G1 & G2 & _).
  destruct (IH s2 Q don todo) as (s' & -> & Hi' & St' & Sd'); try done; [lia|congruence|congruence| |].
  { intros b Hin. rewrite Hb by done. apply HV. by right. }
  exists s'. rewrite filter_cons, decide_False by (by rewrite Er). split_and!; eauto using stable_trans, steady_trans.
Qed.

(** The pass frees exactly the [reaped] processes. *)
Lemma cleanup_spec x s Q L c :
  inv x s Q L → cpu_ok c →
  ∃ s', cleanup c s = Ret s' ∧ inv x s' Q (filter (λ a, reaped (view (procs s)) (g_deferred_reap s) s a = false) L)
    ∧ stable (with_deferred (<[Z.to_nat c := 0]> (g_deferred_reap s)) s) s'
    ∧ steady (λ _, False) (view (procs s)) (view (procs s')).
Proof.
  intros Hi Hc. pose proof Hi as [Hq Hcore Hd Ht Hn Ho]. unfold cleanup. unfold cpu_ok in Hc.
  destruct (oget_is_ret (g_deferred_reap s) c) as (d & -> & _); [lia|]. cbn [obind].
  rewrite oset_in by lia. cbn [obind].
  set (s1 := with_deferred (<[Z.to_nat c := 0]> (g_deferred_reap s)) s).
  assert (inv x s1 Q L) as Hi1 by (constructor; simpl; try done; by rewrite length_insert).
  pose proof (size_listed x s1 Q L Hi1) as Hsz. pose proof (c_list _ _ _ _ _ _ _ Hcore) as [Hh _].
  change (proc_list_head s1) with (proc_list_head s). rewrite Hh.
  apply (cleanup_loop_spec x (g_deferred_reap s) s (view (procs s)) (S (size (procs s1))) s1 Q [] L); try done. lia.
Qed.

(** ** Dispatch *)

(** An idle context changes. *)
Lemma core_upd_idle x V Q L h cpus n a v v' :
  core x V Q L h cpus n → is_idle a → V !! a = Some v → state v' = state v ∨ state v' = RUNNING →
  core x (<[a := v']> V) Q L h cpus n.
Proof.
  intros [Hl Hnd Hpos Hdom Hsm Hrg Hq Hrd Hnc Hcur Hrun] Hid Hv Hs.
  assert (∀ b, b ∈ L → a ≠ b) as Hni by (intros b Hb E; pose proof (Hpos b Hb); unfold is_idle in *; lia).
  constructor; try done.
  - destruct Hl as [Hh Hl]. split; [done|]. intros i b Hi. rewrite lookup_insert_ne; [by apply Hl|].
    apply Hni. by eapply list_elem_of_lookup_2.
  - by apply (dom_upd V L _ v).
  - intros b w Hb. rewrite lookup_insert_ne by auto. by apply Hrg.
  - intros c' l b Hc' Hlv Hb. destruct (Hq c' l b Hc' Hlv Hb) as (HL & w & ?). split; [done|]. exists w.
    by rewrite lookup_insert_ne by auto.
  - intros b w Hb. rewrite lookup_insert_ne by auto. by apply Hrd.
  - intros c Hc Hcc. destruct (Hcur c Hc Hcc) as (Hon & w & Hw & E1 & E2 & E3). split; [done|].
    destruct (decide (a = curr cpus c)) as [->|Hne]; [|exists w; by rewrite lookup_insert_ne].
    exists v'. rewrite lookup_insert_eq. rewrite Hv in Hw. injection Hw as <-.
    split_and!; try done; [destruct Hs as [-> | ->]; done|intros Hw; apply E2; destruct Hs as [<- | Hs]; [done|congruence]|].
    destruct E3 as [[E3 _]|(E3 & ? & E4)]; [by destruct (Hni _ E3)|right]. split_and!; try done. destruct Hs as [-> | ->]; done.
  - intros b w Hb. rewrite lookup_insert_ne by auto. by apply Hrun.
Qed.

Lemma idle_addr_is_idle c : cpu_ok c → is_idle (idle_addr c).
Proof. unfold cpu_ok, is_idle, idle_addr. lia. Qed.

(** Replacing the blocks and the queues, in [inv]. *)
Lemma inv_with x y s s' Q Q' L L' :
  inv x s Q L → with_head 0 (rest s') = with_head 0 (rest s) →
  qrep (procs s') (g_runqueues s') Q' →
  core y (view (procs s')) Q' L' (proc_list_head s') (g_cpus s') (g_cpu_count s') → inv y s' Q' L'.
Proof.
  intros [_ _ Hd Ht Hn Ho] Hr Hq Hc. constructor; try done.
  - change (g_deferred_reap s') with (g_deferred_reap (with_head 0 (rest s'))). by rewrite Hr.
  - change (tss_rsp0 s') with (tss_rsp0 (with_head 0 (rest s'))). by rewrite Hr.
  - change (g_cpu_count s') with (g_cpu_count (with_head 0 (rest s'))). by rewrite Hr.
  - change (g_online_cpu_count s') with (g_online_cpu_count (with_head 0 (rest s'))). by rewrite Hr.
Qed.

Lemma ap_idle_spec x s Q L c :
  inv x s Q L → cpu_ok c →
  ∃ ps, ap_idle_for c s = Ret (if c =? 0 then 0 else idle_addr c, with_procs ps s) ∧ inv x (with_procs ps s) Q L
    ∧ (∀ a, a ≠ idle_addr c → view ps !! a = view (procs s) !! a) ∧ (c = 0 → ps = procs s)
    ∧ (∀ v, view ps !! idle_addr c = Some v → ∃ w, view (procs s) !! idle_addr c = Some w ∧ state v = state w).
Proof.
  intros Hi Hc. pose proof Hi as [Hq Hcore _ _ _ _]. unfold ap_idle_for, smp_is_master_core_id, SMP_MASTER_CPU_ID.
  pose proof Hc as Hc'. unfold cpu_ok in Hc'. rewrite (proj2 (Z.leb_gt MAX_CPUS c)) by (unfold MAX_CPUS; lia). cbn [orb].
  assert (with_procs (procs s) s = s) as Es by (by destruct s).
  destruct (Z.eqb_spec c 0) as [->|Hc0].
  { exists (procs s). rewrite Es. split_and!; try done. intros v Hv. by exists v. }
  destruct (proj2 (c_dom _ _ _ _ _ _ _ Hcore (idle_addr c))) as [v Hv]; [right; by apply idle_addr_is_idle|].
  destruct (getp_view _ _ _ Hv) as (p & -> & Ev). cbn [obind]. destruct (named p).
  { exists (procs s). rewrite Es. split_and!; try done. intros w Hw. by exists w. }
  destruct (upd_spec s Q (idle_addr c) v (λ p, set_named true (set_sched SCHED_LEVEL_BACKGROUND c (sched_ticks_used p) p)) Hq Hv)
    as (ps & -> & Hq' & Hv'); [done|]. cbn [obind].
  exists ps. split_and!; try done.
  - apply (inv_with x x s _ Q Q L L); try done. simpl. rewrite Hv'.
    apply (core_upd_idle x _ Q L _ _ _ (idle_addr c) v); try done; [by apply idle_addr_is_idle|by left].
  - intros a Ha. rewrite Hv'. by rewrite lookup_insert_ne.
  - intros w Hw. rewrite Hv', lookup_insert_eq in Hw. injection Hw as <-. exists v. done.
Qed.

(** Everything queued is READY, so the first process popped is dispatched. *)
Lemma pick_next_spec x s Q L c q fuel :
  inv x s Q L → cpu_ok c → rq_rep (procs s) q (Q c) →
  match top (Q c) with
  | None => pick_next (S fuel) (procs s) q = Ret (0, procs s, q)
  | Some l => level_ok l ∧ ∃ a r ps' q', Q c l = a :: r ∧ pick_next (S fuel) (procs s) q = Ret (a, ps', q') ∧ a ∈ L
      ∧ rq_rep ps' q' (setl (Q c) l r) ∧ view ps' = view (procs s) ∧ (∀ b, b ≠ a → rqn ps' b = rqn (procs s) b)
  end.
Proof.
  intros Hi Hc Hr. pose proof Hi as [Hq Hcore _ _ _ _]. pose proof (rq_pop_highest_spec _ _ _ Hr) as H.
  destruct (top (Q c)) as [l|].
  - destruct H as (Hl & _ & a & r & ps' & q' & EQ & E & Ha & Hr' & Hv & [p Hp] & Hb). split; [done|].
    exists a, r, ps', q'. cbn [pick_next]. rewrite E. cbn [obind]. rewrite (proj2 (Z.eqb_neq a 0)) by done.
    rewrite (getp_ret _ _ _ Hp). cbn [obind].
    destruct (c_queued _ _ _ _ _ _ _ Hcore c l a Hc Hl) as (HL & v & Hv0 & Es & _); [rewrite EQ; by left|].
    assert (state p = READY) as Hs.
    { rewrite <- Hv, view_lookup, Hp in Hv0. injection Hv0 as <-. done. }
    rewrite decide_True by done. split_and!; done.
  - destruct H as [E _]. cbn [pick_next]. rewrite E. done.
Qed.

Lemma inert_upd x s Q L a v f :
  inv x s Q L → view (procs s) !! a = Some v → keeps_rq f → inert f →
  ∃ ps, upd f a s = Ret (with_procs ps s) ∧ inv x (with_procs ps s) Q L ∧ view ps = <[a := f v]> (view (procs s)).
Proof.
  intros Hi Hv Hk Hf. pose proof Hi as [Hq Hcore _ _ _ _].
  destruct (upd_spec s Q a v f Hq Hv Hk) as (ps & E & Hq' & Hv'). exists ps. split_and!; try done.
  apply (inv_with x x s _ Q Q L L); try done. simpl. rewrite Hv'. by apply core_inert.
Qed.

Lemma switch_to_spec x s Q L a b :
  inv x s Q L → is_Some (procs s !! a) → is_Some (procs s !! b) → a ≠ 0 →
  ∃ ps, switch_to a b s = Ret (with_procs ps s) ∧ inv x (with_procs ps s) Q L ∧ ∀ X, steady X (view (procs s)) (view ps).
Proof.
  intros Hi [va Ha]%view_is_some [vb Hb]%view_is_some Ha0. unfold switch_to. rewrite (proj2 (Z.eqb_neq a 0)) by done.
  destruct (inert_upd x s Q L b vb (set_on_cpu 1) Hi Hb) as (ps1 & -> & Hi1 & E1); [done|done|]. cbn [obind].
  assert (is_Some (view ps1 !! a)) as [wa Ha1] by (rewrite E1; apply lookup_insert_is_Some'; right; by eexists).
  destruct (inert_upd x (with_procs ps1 s) Q L a wa (set_on_cpu 0) Hi1 Ha1) as (ps2 & -> & Hi2 & E2); [done|done|].
  simpl in *. exists ps2. split_and!; try done. intros X. apply (steady_trans _ _ (view ps1)).
  - rewrite E1. apply steady_insert; try done. right. by right.
  - rewrite E2. apply steady_insert; try done. right. by right.
Qed.

Lemma defer_spec x s Q L c old v :
  inv x s Q L → cpu_ok c → old ≠ 0 → view (procs s) !! old = Some v →
  ∃ ds, defer_if_dead c old s = Ret (with_deferred ds s) ∧ inv x (with_deferred ds s) Q L
    ∧ ds = if dead (state v) then <[Z.to_nat c := old]> (g_deferred_reap s) else g_deferred_reap s.
Proof.
  intros Hi Hc Ho Hv. unfold defer_if_dead. rewrite (proj2 (Z.eqb_neq old 0)) by done.
  destruct (getp_view _ _ _ Hv) as (p & -> & Ev). cbn [obind]. pose proof Hi as [Hq Hcore Hd Ht Hn Hon].
  replace (state v) with (state p) by (by rewrite Ev). destruct (dead (state p)).
  - unfold cpu_ok in Hc. rewrite oset_in by lia. cbn [obind]. eexists. split_and!; try done.
    constructor; simpl; try done. by rewrite length_insert.
  - exists (g_deferred_reap s). assert (with_deferred (g_deferred_reap s) s = s) as -> by (by destruct s). done.
Qed.

Definition started (v : process) : process := set_state RUNNING (set_sched (sched_level v) (sched_cpu v) 0 v).

Lemma put_curr_id c cpus : put_curr c (curr cpus c) cpus = cpus.
Proof.
  unfold put_curr, curr. destruct (cpus !! Z.to_nat c) as [y|] eqn:E; [|done]. apply list_insert_id. rewrite E. by destruct y.
Qed.

Lemma curr_put_ne cpus c a c' : length cpus = 16%nat → cpu_ok c → cpu_ok c' → c' ≠ c → curr (put_curr c a cpus) c' = curr cpus c'.
Proof. intros. by rewrite curr_put, decide_False. Qed.

(** The core, freed of its old process, takes [nx]. *)
Lemma install_spec s Q Q' L c l nx r y v :
  qrep (procs s) (g_runqueues s) Q' → sized s →
  core None (view (procs s)) Q L (proc_list_head s) (put_curr c 0 (g_cpus s)) (g_cpu_count s) →
  (∀ x z b, cpu_ok x → level_ok z → b ∈ Q' x z ↔ b ∈ setc Q c (setl (Q c) l r) x z) →
  cpu_ok c → level_ok l → Q c l = nx :: r → NoDup (nx :: r) → length (g_cpus s) = 16%nat →
  c < g_cpu_count s → g_cpus s !! Z.to_nat c = Some y → online y = true → view (procs s) !! nx = Some v →
  ∃ ps t, install c nx s = Ret (with_tss t (with_cpus (put_curr c nx (g_cpus s)) (with_procs ps s)))
    ∧ inv None (with_tss t (with_cpus (put_curr c nx (g_cpus s)) (with_procs ps s))) Q' L
    ∧ view ps = <[nx := started v]> (view (procs s)).
Proof.
  intros Hq (Hd & Ht & Hn & Hon) Hcore HQ Hc Hl HQc HND Hlen Hlt Hy Ho Hv. unfold install.
  destruct (upd_spec s Q' nx v (λ p, set_sched (sched_level p) (sched_cpu p) 0 p) Hq Hv) as (ps1 & -> & Hq1 & Hv1); [done|]. cbn [obind].
  assert (view ps1 !! nx = Some (set_sched (sched_level v) (sched_cpu v) 0 v)) as Hn1 by (rewrite Hv1; apply lookup_insert_eq).
  destruct (upd_spec (with_procs ps1 s) Q' nx _ (set_state RUNNING) Hq1 Hn1) as (ps2 & -> & Hq2 & Hv2); [done|]. cbn [obind].
  simpl in Hv2. rewrite Hv1, insert_insert_eq in Hv2. fold (started v) in Hv2.
  rewrite (set_current_spec c nx (with_procs ps2 (with_procs ps1 s)) Hlen Hc). cbn [obind].
  change (with_cpus (put_curr c nx (g_cpus (with_procs ps2 (with_procs ps1 s)))) (with_procs ps2 (with_procs ps1 s)))
    with (with_cpus (put_curr c nx (g_cpus s)) (with_procs ps2 s)).
  set (s3 := with_cpus (put_curr c nx (g_cpus s)) (with_procs ps2 s)).
  assert (view (procs s3) !! nx = Some (started v)) as Hn3 by (simpl; rewrite Hv2; apply lookup_insert_eq).
  destruct (getp_view _ _ _ Hn3) as (p & -> & _). cbn [obind].
  assert (core None (view (procs s3)) Q' L (proc_list_head s3) (g_cpus s3) (g_cpu_count s3)) as Hcore3.
  { simpl. rewrite Hv2. apply (core_ext None _ (setc Q c (setl (Q c) l r))); [done|].
    assert (curr (put_curr c 0 (g_cpus s)) c = 0) as H0 by (by rewrite curr_put, decide_True).
    destruct (online_put (g_cpus s) c 0 c y Hy) as (y' & Hy' & Ho').
    pose proof (core_take _ Q L _ _ _ c l nx r v (started v) y' Hcore Hc Hl H0 HQc HND Hlt Hy') as Hk.
    rewrite put_put in Hk. apply Hk; done || congruence. }
  assert (∀ t, length t = 16%nat → inv None (with_tss t s3) Q' L) as Hfin.
  { intros t Htl. apply inv_intro; [done|done|]. unfold sized. simpl. done. }
  exists ps2. destruct (kernel_stack (res p) =? 0).
  - exists (tss_rsp0 s). assert (with_tss (tss_rsp0 s) s3 = s3) as Es by (by destruct s). fold s3. rewrite Es. split; [done|]. split; [rewrite <- Es; by apply Hfin|done].
  - unfold cpu_ok in Hc. rewrite oset_in by (simpl; lia). eexists. split; [done|]. split; [|done]. apply Hfin. by rewrite length_insert.
Qed.

(** The requeue decision of [dispatch]. *)
Definition requeues (V : pmap) (L : list Z) (old : Z) : bool :=
  match V !! old with Some v => bool_decide (state v = RUNNING) && bool_decide (old ∈ L) | None => false end.
Definition after_dispatch (V : pmap) (Q : Z → Z → list Z) (L : list Z) (c l old : Z) (r : list Z) : Z → Z → list Z :=
  let Qp := setc Q c (setl (Q c) l r) in
  match V !! old with
  | Some v => if requeues V L old then add_to Qp c (sched_level v) old else Qp
  | None => Qp
  end.

Lemma mem_pop_add Q c l nx r k old x z b :
  Q c l = nx :: r → old ≠ nx →
  b ∈ add_to (setc Q c (setl (Q c) l r)) c k old x z
  ↔ b ∈ setc (add_to Q c k old) c (setl (add_to Q c k old c) l (if decide (k = l) then r ++ [old] else r)) x z.
Proof.
  intros HQ Hne. rewrite elem_add_to. unfold setc, setl, add_to. unfold setc, setl.
  destruct (Z.eqb_spec x c) as [->|Hx]; [|naive_solver]. rewrite !Z.eqb_refl.
  destruct (Z.eqb_spec z l) as [->|Hz].
  - destruct (decide (k = l)) as [->|Hk].
    + rewrite elem_of_app, list_elem_of_singleton. naive_solver.
    + split; [intros [?|(_ & _ & ?)]; [done|congruence]|by left].
  - destruct (Z.eqb_spec z k) as [->|Hzk].
    + rewrite elem_of_app, list_elem_of_singleton. naive_solver.
    + split; [intros [?|(_ & _ & ?)]; [done|congruence]|by left].
Qed.

(** *** [dispatch] of [nx], the head of level [l] of core [c] *)

Section dispatch.
Context (s0 s : sched) (Q : Z → Z → list Z) (L : list Z) (c l nx : Z) (r : list Z) (y : cpu_local).
Let old := curr (g_cpus s0) c.
Let idle := if c =? 0 then 0 else idle_addr c.
Let V := view (procs s0).
Let Qp := setc Q c (setl (Q c) l r).
Let Q' := after_dispatch V Q L c l old r.
Context (Hi : inv (Some c) s0 Q L) (Hrest : rest s = rest s0) (Hview : view (procs s) = V)
  (Hq : qrep (procs s) (g_runqueues s) Qp) (Hc : cpu_ok c) (Hl : level_ok l) (HQ : Q c l = nx :: r) (HND : NoDup (nx :: r))
  (Hlt : c < g_cpu_count s0) (Hy : g_cpus s0 !! Z.to_nat c = Some y) (Ho : online y = true).
Let Hcore := i_core _ _ _ _ Hi.

(** The state once the outgoing process has left the core. *)
Record gone (sA : sched) (QA : Z → Z → list Z) (rA : list Z) : Prop := {
  g_q : qrep (procs sA) (g_runqueues sA) Q';
  g_core : core None (view (procs sA)) QA L (proc_list_head sA) (put_curr c 0 (g_cpus sA)) (g_cpu_count sA);
  g_head : QA c l = nx :: rA;
  g_nodup : NoDup (nx :: rA);
  g_rest : rest sA = rest s0;
  g_mem : ∀ x z b, cpu_ok x → level_ok z → b ∈ Q' x z ↔ b ∈ setc QA c (setl (QA c) l rA) x z;
  g_nx : view (procs sA) !! nx = V !! nx;
  g_steady : steady (eq old) V (view (procs sA));
  g_old : old ≠ 0 → is_Some (procs sA !! old)
}.

Lemma next_not_old : nx ∈ L ∧ nx ≠ old ∧ ∃ v, V !! nx = Some v.
Proof.
  destruct (c_queued _ _ _ _ _ _ _ Hcore c l nx Hc Hl) as (HnL & vn & Hvn & Esn & _); [rewrite HQ; by left|].
  split; [done|]. split; [|by exists vn]. intros E. pose proof (c_pos _ _ _ _ _ _ _ Hcore nx HnL).
  destruct (c_current _ _ _ _ _ _ _ Hcore c Hc) as (_ & w & Hw & Hs & _); [fold old; lia|]. fold old in Hw. rewrite <- E in Hw. congruence.
Qed.

(** Nothing is requeued and the core leaves its process, if it has one. *)
Lemma gone_unqueued :
  requeues V L old = false → core None V Q L (proc_list_head s0) (put_curr c 0 (g_cpus s0)) (g_cpu_count s0) →
  (old ≠ 0 → is_Some (V !! old)) → gone s Q r.
Proof.
  intros Hrq Hleft Hsome. destruct (rest_eq _ _ Hrest) as (R1 & R2 & R3 & _).
  assert (Q' = Qp) as EQ by (unfold Q', after_dispatch; rewrite Hrq; by destruct (V !! old)).
  constructor; try done.
  - by rewrite EQ.
  - by rewrite Hview, R1, R2, R3.
  - by rewrite EQ.
  - by rewrite Hview.
  - rewrite Hview. apply steady_refl.
  - intros No. rewrite <- view_is_some, Hview. by apply Hsome.
Qed.

Lemma gone_requeued v :
  V !! old = Some v → state v = RUNNING → old ∈ L →
  ∃ sA, (let* s := upd (set_state READY) old s in push_on c old (sched_level v) s) = Ret sA
    ∧ gone sA (add_to Q c (sched_level v) old) (if decide (sched_level v = l) then r ++ [old] else r).
Proof.
  intros Hv Hrun HoL. destruct (rest_eq _ _ Hrest) as (R1 & R2 & R3 & _). destruct next_not_old as (HnL & Hno & _).
  pose proof (c_pos _ _ _ _ _ _ _ Hcore old HoL) as Hpos. destruct (c_range _ _ _ _ _ _ _ Hcore old v HoL Hv) as [_ Hlv].
  assert (unqueued Q old) as HuQ by (eapply not_ready_unqueued; [exact Hcore|exact Hv|by rewrite Hrun]).
  assert (view (procs s) !! old = Some v) as Hvs by (by rewrite Hview).
  destruct (upd_spec s _ old v (set_state READY) Hq Hvs) as (ps1 & -> & Hq1 & Hv1); [done|]. cbn [obind].
  assert (view ps1 !! old = Some (set_state READY v)) as Ho1 by (rewrite Hv1; apply lookup_insert_eq).
  destruct (view_some _ _ _ Ho1) as (po & Hpo & _).
  assert (unqueued Qp old) as Hu.
  { intros x z Hx Hz Hin. apply (HuQ x z Hx Hz). unfold Qp, setc, setl in Hin.
    destruct (Z.eqb_spec x c) as [->|]; [destruct (Z.eqb_spec z l) as [->|]|]; try done. rewrite HQ. by right. }
  destruct (push_on_spec (with_procs ps1 s) Qp c (sched_level v) old po) as (ps2 & qs2 & E2 & Hq2 & Hv2); simpl; try done; [lia| |].
  { unfold Qp, setc, setl. rewrite Z.eqb_refl. pose proof (queue_small _ _ _ _ c (sched_level v) Hi Hc Hlv).
    destruct (Z.eqb_spec (sched_level v) l) as [E|]; [|lia]. rewrite E, HQ in *. simpl in *. lia. }
  simpl in Hv2. assert (Q' = add_to Qp c (sched_level v) old) as EQ.
  { unfold Q', after_dispatch, requeues. by rewrite Hv, !bool_decide_eq_true_2. }
  eexists. split; [exact E2|]. constructor; simpl; try done.
  - by rewrite EQ.
  - rewrite Hv2, Hv1, Hview, R1, R2, R3. by apply core_requeue.
  - unfold add_to, setc, setl. rewrite Z.eqb_refl. destruct (Z.eqb_spec l (sched_level v)) as [->|Hne].
    + rewrite decide_True by done. by rewrite HQ.
    + by rewrite decide_False.
  - apply NoDup_cons in HND as [Hnr' Hnd]. destruct (decide _); [|by apply NoDup_cons]. apply NoDup_cons. split.
    + rewrite elem_of_app, list_elem_of_singleton. naive_solver.
    + apply NoDup_app. split_and!; [done| |apply NoDup_singleton]. intros b Hb ->%list_elem_of_singleton.
      apply (HuQ c l Hc Hl). rewrite HQ. by right.
  - rewrite EQ. intros x z b _ _. by apply (mem_pop_add Q c l nx r).
  - by rewrite Hv2, Hv1, lookup_insert_ne, Hview.
  - rewrite Hv2, Hv1, Hview. apply steady_insert; try done. by left.
  - intros _. by rewrite <- view_is_some, Hv2, Hv1, lookup_insert_eq.
Qed.

Lemma null_no_block : V !! 0 = None.
Proof.
  apply eq_None_not_Some. intros [H0|H0]%(c_dom _ _ _ _ _ _ _ Hcore).
  - pose proof (c_pos _ _ _ _ _ _ _ Hcore 0 H0). lia.
  - unfold is_idle in H0. lia.
Qed.

Lemma requeue_spec : ∃ sA QA rA, requeue_old c old idle s = Ret sA ∧ gone sA QA rA.
Proof.
  unfold requeue_old. destruct (Z.eqb_spec old 0) as [Eo|No].
  { exists s, Q, r. split; [done|]. apply gone_unqueued; [unfold requeues; by rewrite Eo, null_no_block| |done].
    rewrite <- Eo at 1. unfold old. rewrite put_curr_id. by apply core_weaken with c. }
  destruct (c_current _ _ _ _ _ _ _ Hcore c Hc No) as (_ & v & Hv & Hnr & Hwait & Hkind). fold old V in Hv, Hkind.
  destruct (getp_view (procs s) old v) as (p & -> & Ev); [by rewrite Hview|]. cbn [obind].
  assert (state p = state v ∧ sched_level p = sched_level v) as [-> ->] by (by rewrite Ev).
  destruct (bool_decide (state v = RUNNING) && negb (old =? idle)) eqn:Ereq.
  - apply andb_prop in Ereq as [Hrun%bool_decide_eq_true Hni%negb_true_iff%Z.eqb_neq].
    destruct Hkind as [[HoL _]|(E & Hc0 & _)].
    + destruct (gone_requeued v Hv Hrun HoL) as (sA & -> & Hg). by eauto.
    + exfalso. unfold idle in Hni. by rewrite (proj2 (Z.eqb_neq c 0)) in Hni.
  - assert (state v = RUNNING → old ∉ L) as Hnl.
    { intros Hrun HoL. rewrite bool_decide_eq_true_2 in Ereq by done. apply negb_false_iff, Z.eqb_eq in Ereq.
      pose proof (c_pos _ _ _ _ _ _ _ Hcore old HoL). unfold idle, idle_addr, cpu_ok in *. destruct (c =? 0); lia. }
    exists s, Q, r. split; [done|]. apply gone_unqueued; [|by apply (core_leave _ Q L _ _ _ c v)|by rewrite Hv].
    unfold requeues. rewrite Hv. destruct (decide (state v = RUNNING)) as [Hr|Hr].
    + by rewrite (bool_decide_eq_false_2 (old ∈ L)), andb_false_r by auto.
    + by rewrite bool_decide_eq_false_2.
Qed.

(** Fields that [schedule] leaves alone. *)
Definition kept (s s' : sched) : Prop :=
  g_cpu_count s' = g_cpu_count s ∧ g_online_cpu_count s' = g_online_cpu_count s ∧ scheduler_on s' = scheduler_on s
  ∧ pid_counter s' = pid_counter s ∧ proc_list_head s' = proc_list_head s.

(** The processes whose state changes. *)
Definition touched (d : Z) : Prop := d = old ∨ d = nx.

Lemma defer_ret sA QA rA : gone sA QA rA → ∃ ds, defer_if_dead c old sA = Ret (with_deferred ds sA) ∧ length ds = 16%nat.
Proof.
  intros Hg. destruct (rest_eq _ _ (g_rest _ _ _ Hg)) as (_ & _ & _ & _ & A5 & _). pose proof (i_deferred _ _ _ _ Hi) as Hd.
  assert (with_deferred (g_deferred_reap sA) sA = sA) as Eself by (by destruct sA).
  unfold defer_if_dead. destruct (Z.eqb_spec old 0) as [Eo|No]; [exists (g_deferred_reap sA); rewrite Eself; split; [done|congruence]|].
  destruct (g_old _ _ _ Hg No) as [po Hpo]. rewrite (getp_ret _ _ _ Hpo). cbn [obind]. destruct (dead (state po)).
  - unfold cpu_ok in Hc. rewrite oset_in by (rewrite A5, Hd; lia). eexists. split; [done|]. by rewrite length_insert, A5.
  - exists (g_deferred_reap sA). rewrite Eself. split; [done|congruence].
Qed.

(** The switch changes nothing the invariant speaks of. *)
Lemma enter_spec s4 :
  inv None s4 Q' L → is_Some (procs s4 !! nx) → (old ≠ 0 → is_Some (procs s4 !! old)) →
  ∃ s', enter c old idle nx s4 = Ret s' ∧ inv None s' Q' L ∧ g_cpus s' = g_cpus s4 ∧ kept s4 s'
    ∧ steady touched (view (procs s4)) (view (procs s')).
Proof.
  intros Hi4 Hnx Hold. unfold enter, smp_is_master_core_id, SMP_MASTER_CPU_ID. destruct (Z.eqb_spec old 0) as [Eo|No]; cbn [andb].
  - unfold idle. destruct (Z.eqb_spec c 0) as [Ec0|Hc0]; cbn [negb]; [exists s4; split_and!; done || apply steady_refl|].
    destruct (proj2 (c_dom _ _ _ _ _ _ _ (i_core _ _ _ _ Hi4) (idle_addr c))) as [vi Hvi]; [right; by apply idle_addr_is_idle|].
    destruct (upd_spec s4 _ (idle_addr c) vi (set_state RUNNING) (i_q _ _ _ _ Hi4) Hvi) as (ps5 & -> & Hq5 & Hv5); [done|]. cbn [obind].
    assert (inv None (with_procs ps5 s4) Q' L) as Hi5.
    { apply (inv_with None None s4 _ Q' _ L L); try done. simpl. rewrite Hv5.
      apply (core_upd_idle None _ _ L _ _ _ _ vi); try done; [apply Hi4|by apply idle_addr_is_idle|by right]. }
    assert (∀ d, is_Some (procs s4 !! d) → is_Some (ps5 !! d)) as Hsome.
    { intros d. rewrite <- (view_is_some (procs s4)), <- (view_is_some ps5), Hv5. intros. apply lookup_insert_is_Some'. by right. }
    destruct (switch_to_spec None (with_procs ps5 s4) _ L (idle_addr c) nx Hi5) as (ps6 & -> & Hi6 & Hv6); simpl; auto.
    { apply Hsome. rewrite <- view_is_some. by eexists. }
    { unfold idle_addr, cpu_ok in *. lia. }
    eexists. split; [done|]. split_and!; try done. apply (steady_trans _ _ (view ps5)); [|apply Hv6].
    rewrite Hv5. apply steady_insert; try done. right. left. unfold idle_addr, cpu_ok in *. lia.
  - set (s5 := with_counts _ _ _ s4). assert (inv None s5 Q' L) as Hi5 by (destruct Hi4; by constructor).
    destruct (switch_to_spec None s5 _ L old nx Hi5) as (ps6 & -> & Hi6 & Hv6); simpl; auto.
    eexists. split; [done|]. split_and!; try done.
Qed.

Lemma dispatch_spec :
  ∃ s', dispatch c old idle nx s = Ret s' ∧ inv None s' Q' L ∧ g_cpus s' = put_curr c nx (g_cpus s0) ∧ kept s0 s'
    ∧ steady touched V (view (procs s')).
Proof.
  unfold dispatch. destruct requeue_spec as (sA & QA & rA & -> & Hg). cbn [obind].
  destruct (rest_eq _ _ (g_rest _ _ _ Hg)) as (A1 & A2 & A3 & A4 & A5 & A6 & A7 & A8).
  destruct (defer_ret sA QA rA Hg) as (ds & -> & Hds). cbn [obind]. destruct next_not_old as (HnL & Hno & vn & Hvn).
  assert (length (g_cpus s0) = 16%nat) as Hlen by apply (c_ncpu _ _ _ _ _ _ _ Hcore).
  destruct (install_spec (with_deferred ds sA) QA Q' L c l nx rA y vn (g_q _ _ _ Hg)) as (ps & t & -> & Hi4 & V4); simpl; try done; try congruence.
  { destruct (inv_sized _ _ _ _ Hi) as (_ & ? & ? & ?). unfold sized. simpl. by rewrite A3, A4, A6. }
  { apply (g_core _ _ _ Hg). } { apply (g_mem _ _ _ Hg). } { apply (g_head _ _ _ Hg). } { apply (g_nodup _ _ _ Hg). }
  { by rewrite (g_nx _ _ _ Hg). }
  cbn [obind]. simpl in V4. set (s4 := with_tss t _) in *.
  destruct (enter_spec s4 Hi4) as (s' & -> & Hi' & C' & (K1 & K2 & K3 & K4 & K5) & St).
  { rewrite <- view_is_some. simpl. by rewrite V4, lookup_insert_eq. }
  { intros No. rewrite <- view_is_some. simpl. rewrite V4. apply lookup_insert_is_Some'. right. rewrite view_is_some. by apply (g_old _ _ _ Hg). }
  exists s'. split; [done|]. split; [done|]. split; [rewrite C'; simpl; by rewrite A2|].
  split; [unfold kept; simpl in *; split_and!; congruence|].
  apply (steady_trans _ _ (view (procs s4))); [|done].
  apply (steady_trans _ _ (view (procs sA))); [eapply steady_weaken; [apply (g_steady _ _ _ Hg)|intros d <-; unfold touched; auto]|].
  simpl. rewrite V4. apply steady_insert; try done; [by rewrite (g_nx _ _ _ Hg)|]. left. unfold touched. auto.
Qed.
End dispatch.

Lemma core_awake V Q L h cpus n c :
  core (Some c) V Q L h cpus n → (∀ v, V !! curr cpus c = Some v → state v ≠ WAITING) → core None V Q L h cpus n.
Proof.
  intros [Hl Hnd Hpos Hdom Hsm Hrg Hq Hrd Hnc Hcur Hrun] Hw. constructor; try done.
  intros c' Hc' Hcc. destruct (Hcur c' Hc' Hcc) as (Hon & w & Hw' & E1 & E2 & E3). split; [done|]. exists w.
  split_and!; try done. intros Hs. specialize (E2 Hs). injection E2 as ->. by destruct (Hw w Hw').
Qed.

Lemma inv_counts x s Q L a b d : inv x s Q L → inv x (with_counts a b d s) Q L.
Proof. intros []. by constructor. Qed.

(** *** Nothing is ready on core [c] *)

Section no_next.
Context (s : sched) (Q : Z → Z → list Z) (L : list Z) (c : Z) (y : cpu_local).
Let old := curr (g_cpus s) c.
Let idle := if c =? 0 then 0 else idle_addr c.
Let V := view (procs s).
Context (Hi : inv (Some c) s Q L) (Hc : cpu_ok c) (Hlt : c < g_cpu_count s) (Hy : g_cpus s !! Z.to_nat c = Some y) (Ho : online y = true).
Let Hcore := i_core _ _ _ _ Hi.
Let Hlen := c_ncpu _ _ _ _ _ _ _ Hcore.

(** The core keeps its process or goes to its idle context; only on the boot
    core a sleeping process may stay. *)
Record quiet (s' : sched) : Prop := {
  q_inv : inv (Some c) s' Q L;
  q_awake : c ≠ 0 ∨ (∀ v, V !! old = Some v → state v ≠ WAITING) → inv None s' Q L;
  q_kept : kept s s';
  q_others : ∀ c', cpu_ok c' → c' ≠ c → curr (g_cpus s') c' = curr (g_cpus s) c';
  q_online : ∀ c' z, g_cpus s !! c' = Some z → ∃ z', g_cpus s' !! c' = Some z' ∧ online z' = online z;
  q_steady : steady (λ _, False) V (view (procs s'));
  q_who : curr (g_cpus s') c = old ∨ curr (g_cpus s') c = idle_addr c
}.

(** Nothing but a counter changes. *)
Lemma quiet_same ps sw idl gt :
  qrep ps (g_runqueues s) Q → view ps = V →
  (c ≠ 0 ∨ (∀ v, V !! old = Some v → state v ≠ WAITING) → core None V Q L (proc_list_head s) (g_cpus s) (g_cpu_count s)) →
  quiet (with_counts sw idl gt (with_procs ps s)).
Proof.
  intros Hq Hv Hcond. assert (∀ x, core x V Q L (proc_list_head s) (g_cpus s) (g_cpu_count s) →
    inv x (with_counts sw idl gt (with_procs ps s)) Q L) as Hx.
  { intros x Hx. apply inv_counts, (inv_with (Some c) x s _ Q Q L L); try done. simpl. by rewrite Hv. }
  constructor; simpl; try done; auto.
  - intros c' z Hz. by exists z.
  - rewrite Hv. apply steady_refl.
Qed.

(** The core leaves its process for the idle context. *)
Lemma park_spec v sw idl gt :
  V !! old = Some v → old ≠ 0 → state v ≠ RUNNING → c ≠ 0 →
  ∃ s', (let* s := defer_if_dead c old (with_counts sw idl gt s) in
         let* s := upd (set_state RUNNING) (idle_addr c) s in
         let* s := set_current c (idle_addr c) s in
         switch_to old (idle_addr c) s) = Ret s' ∧ quiet s'.
Proof.
  intros Hv No Hnr Hc0. destruct (defer_spec (Some c) (with_counts sw idl gt s) Q L c old v (inv_counts _ _ _ _ _ _ _ Hi) Hc No Hv) as (ds & -> & Hi2 & _). cbn [obind].
  set (s2 := with_deferred ds (with_counts sw idl gt s)) in *.
  destruct (proj2 (c_dom _ _ _ _ _ _ _ Hcore (idle_addr c))) as [vi Hvi]; [right; by apply idle_addr_is_idle|].
  destruct (upd_spec s2 Q (idle_addr c) vi (set_state RUNNING) (i_q _ _ _ _ Hi2) Hvi) as (ps3 & -> & Hq3 & Hv3); [done|]. cbn [obind].
  rewrite set_current_spec by done. cbn [obind]. simpl g_cpus. simpl in Hv3.
  set (s4 := with_cpus (put_curr c (idle_addr c) (g_cpus s)) (with_procs ps3 s2)).
  assert (inv None s4 Q L) as Hi4.
  { apply inv_intro; [done| |apply (inv_sized _ _ _ _ Hi2)]. simpl. rewrite Hv3.
    assert (state v = RUNNING → old ∉ L) as Hnl by done.
    pose proof (core_leave _ Q L _ _ _ c v Hcore Hc No Hv Hnl) as Hlv.
    destruct (online_put (g_cpus s) c 0 c y Hy) as (y' & Hy' & Ho').
    pose proof (core_idle _ Q L _ _ _ c vi (set_state RUNNING vi) y' Hlv Hc Hc0) as Hk. rewrite put_put in Hk.
    apply Hk; try done; try congruence. by rewrite curr_put, decide_True. }
  assert (∀ d w, V !! d = Some w → is_Some (ps3 !! d)) as Hsome.
  { intros d w Hw. rewrite <- view_is_some, Hv3. apply lookup_insert_is_Some'. right. by eexists. }
  destruct (switch_to_spec None s4 Q L old (idle_addr c) Hi4) as (ps6 & -> & Hi6 & Hv6); simpl; eauto.
  eexists. split; [done|]. constructor; simpl; try done.
  - by apply inv_strengthen.
  - intros c' Hc' Hne. by apply curr_put_ne.
  - intros c' z Hz. pose proof (online_put (g_cpus s) c (idle_addr c) (Z.of_nat c') z) as H. rewrite Nat2Z.id in H. by apply H.
  - apply (steady_trans _ _ (view ps3)); [|apply Hv6]. rewrite Hv3. apply steady_insert; try done.
    right. left. unfold idle_addr, cpu_ok in *. lia.
  - right. by rewrite curr_put, decide_True.
Qed.

Lemma no_next_spec : ∃ s', no_next c old idle s = Ret s' ∧ quiet s'.
Proof.
  assert (with_procs (procs s) s = s) as Es by (by destruct s).
  assert (∀ a b d, with_counts a b d (with_procs (procs s) s) = with_counts a b d s) as Ec by (intros; by rewrite Es).
  unfold no_next. destruct (Z.eqb_spec old 0) as [Eo|No].
  { cbn [obind]. rewrite !bool_decide_eq_false_2 by done. cbn [orb negb]. rewrite andb_false_r. cbn [andb].
    eexists. split; [done|]. rewrite <- Ec. apply quiet_same; [apply Hi|done|]. intros _. by apply core_weaken with c. }
  destruct (c_current _ _ _ _ _ _ _ Hcore c Hc No) as (_ & v & Hv & Hnr & _ & Hkind). fold old V in Hv, Hkind.
  destruct (getp_view _ _ _ Hv) as (p & -> & Ev). cbn [obind]. assert (state p = state v) as -> by (by rewrite Ev).
  rewrite (bool_decide_eq_false_2 (Some (state v) = Some READY)), orb_false_r by congruence.
  destruct (bool_decide (Some (state v) = Some RUNNING)) eqn:Erun.
  - apply bool_decide_eq_true in Erun as [= Hrun].
    destruct (upd_spec s Q old v (set_state RUNNING) (i_q _ _ _ _ Hi) Hv) as (ps & -> & Hq1 & Hv1); [done|]. cbn [obind].
    rewrite set_current_spec by done. simpl g_cpus. unfold old at 1. rewrite put_curr_id. eexists. split; [done|].
    change (with_cpus (g_cpus s) (with_procs ps s))
      with (with_counts (total_context_switches s) (idle_cycles s) (g_global_tick_count s) (with_procs ps s)).
    apply quiet_same; [done| |].
    + rewrite Hv1. apply insert_id. fold V. rewrite Hv. f_equal. destruct v. simpl in *. by rewrite Hrun.
    + intros _. apply (core_awake _ _ _ _ _ _ c Hcore). fold old V. intros w Hw. rewrite Hv in Hw. injection Hw as <-. by rewrite Hrun.
  - apply bool_decide_eq_false in Erun. assert (state v ≠ RUNNING) as Hnrun by congruence. cbn [negb]. rewrite andb_true_r.
    set (s1 := with_counts _ _ _ s). destruct (negb (idle =? 0) && negb (old =? idle)) eqn:Eid.
    + apply andb_prop in Eid as [Ei1%negb_true_iff%Z.eqb_neq _].
      assert (c ≠ 0) as Hc0 by (intros E; apply Ei1; unfold idle; by rewrite E).
      replace idle with (idle_addr c) by (unfold idle; by rewrite (proj2 (Z.eqb_neq c 0))). by apply (park_spec v).
    + exists s1. split; [done|]. unfold s1. rewrite <- Ec. apply quiet_same; [apply Hi|done|]. intros Hcond.
      apply (core_awake _ _ _ _ _ _ c Hcore). fold old V. intros w Hw. destruct Hcond as [Hc0|Hcond]; [|by apply Hcond].
      unfold idle in Eid. rewrite (proj2 (Z.eqb_neq c 0)) in Eid by done.
      rewrite (proj2 (Z.eqb_neq (idle_addr c) 0)) in Eid by (unfold idle_addr, cpu_ok in *; lia). cbn [negb andb] in Eid.
      apply negb_false_iff, Z.eqb_eq in Eid. exfalso. destruct Hkind as [[HoL _]|(_ & _ & ?)]; [|congruence].
      pose proof (c_pos _ _ _ _ _ _ _ Hcore old HoL). unfold idle_addr, cpu_ok in *. lia.
Qed.
End no_next.
