(* ===== verification/SchedSafe.v ===== *)
(** * Every run of the scheduler is safe

    The effect of [schedule], of the timer tick with its boost and rebalance
    passes and of every operation of the life cycle, over the invariant of
    SchedInv; then the system as a step relation from the state at boot, with
    the theorems on all its runs, and runs that leave the guards. *)

From stdpp Require Import gmap.
From S2P Require Import Prelude Sched SchedQueue SchedInv.

Open Scope c_scope.

(** ** [schedule] *)

(** A core that may take processes: it exists and is online. *)
Definition on_line (s : sched) (c : Z) : Prop :=
  cpu_ok c ∧ c < g_cpu_count s ∧ ∃ y, g_cpus s !! Z.to_nat c = Some y ∧ online y = true.

(** What no step of a core changes for the others. *)
Definition frame (s s' : sched) : Prop :=
  (∀ c, on_line s c → on_line s' c) ∧ g_cpu_count s' = g_cpu_count s ∧ g_online_cpu_count s' = g_online_cpu_count s
  ∧ scheduler_on s' = scheduler_on s ∧ pid_counter s' = pid_counter s.

Lemma frame_refl s : frame s s.
Proof. by split_and!. Qed.

Lemma frame_trans s1 s2 s3 : frame s1 s2 → frame s2 s3 → frame s1 s3.
Proof. intros (A1 & A2 & A3 & A4 & A5) (B1 & B2 & B3 & B4 & B5). split_and!; try congruence. auto. Qed.

(** [frame], when the core table keeps its cores online. *)
Lemma frame_intro s s' :
  (∀ i z, g_cpus s !! i = Some z → ∃ z', g_cpus s' !! i = Some z' ∧ online z' = online z) →
  g_cpu_count s' = g_cpu_count s → g_online_cpu_count s' = g_online_cpu_count s →
  scheduler_on s' = scheduler_on s → pid_counter s' = pid_counter s → frame s s'.
Proof.
  intros H E1 E2 E3 E4. split_and!; try done. intros c (Hc & Hlt & y & Hy & Ho). split; [done|]. rewrite E1. split; [done|].
  destruct (H _ y Hy) as (z & ? & ?). exists z. split; [done|congruence].
Qed.

Lemma frame_same s s' :
  g_cpus s' = g_cpus s → g_cpu_count s' = g_cpu_count s → g_online_cpu_count s' = g_online_cpu_count s →
  scheduler_on s' = scheduler_on s → pid_counter s' = pid_counter s → frame s s'.
Proof. intros E. apply frame_intro. rewrite E. intros i z Hz. by exists z. Qed.

Lemma frame_rest s s' : rest s' = rest s → frame s s'.
Proof. intros (_ & ? & ? & ? & _ & _ & ? & ?)%rest_eq. by apply frame_same. Qed.

Lemma frame_log s l : frame s (log l s).
Proof. by split_and!. Qed.
#[export] Hint Resolve frame_log frame_refl frame_trans frame_rest : cint.

(** The state in which the core looks for its next process. *)
Lemma claim_spec s Q L c :
  inv (Some c) s Q L → cpu_ok c →
  ∃ s', claim_old c s = Ret (curr (g_cpus s) c, if c =? 0 then 0 else idle_addr c, s') ∧ inv (Some c) s' Q L
    ∧ rest s' = rest s ∧ steady (λ _, False) (view (procs s)) (view (procs s')).
Proof.
  intros Hi Hc. pose proof (i_core _ _ _ _ Hi) as Hcore. unfold claim_old.
  rewrite current_spec by (apply Hcore || done). cbn [obind]. set (old := curr (g_cpus s) c).
  assert (∃ ps2, (if old =? 0 then Ret s else upd (set_on_cpu 1) old s) = Ret (with_procs ps2 s) ∧ inv (Some c) (with_procs ps2 s) Q L
    ∧ steady (λ _, False) (view (procs s)) (view ps2)) as (ps2 & -> & Hi2 & St2).
  { destruct (Z.eqb_spec old 0) as [Eo|No].
    - exists (procs s). assert (with_procs (procs s) s = s) as -> by (by destruct s). split_and!; auto using steady_refl.
    - destruct (c_current _ _ _ _ _ _ _ Hcore c Hc No) as (_ & v & Hv & _).
      destruct (upd_spec s Q old v (set_on_cpu 1) (i_q _ _ _ _ Hi) Hv) as (ps & -> & Hq2 & Hv2); [done|].
      exists ps. split; [done|]. split; [apply (inv_with (Some c) (Some c) s _ Q Q L L); try done; simpl; rewrite Hv2; by apply core_inert|].
      rewrite Hv2. apply steady_insert; try done. right. by right. }
  cbn [obind]. destruct (ap_idle_spec (Some c) (with_procs ps2 s) Q L c Hi2 Hc) as (ps3 & -> & Hi3 & V3 & _). cbn [obind fst snd].
  exists (with_procs ps3 s). split_and!; try done. apply (steady_trans _ _ (view ps2)); [done|].
  intros d w' Hd Hw'. simpl in Hw'. rewrite V3 in Hw' by (unfold idle_addr, cpu_ok in *; lia). by exists w'.
Qed.

Lemma reaped_not_current x s Q L c skip :
  inv x s Q L → cpu_ok c → curr (g_cpus s) c ∈ L → reaped (view (procs s)) skip s (curr (g_cpus s) c) = false.
Proof.
  intros Hi Hc HL. unfold reaped. destruct (view (procs s) !! _); [|done].
  assert (process_is_current_on_any_cpu (curr (g_cpus s) c) s = true) as ->; [|by rewrite orb_true_r, andb_false_r].
  destruct (process_is_current_on_any_cpu (curr (g_cpus s) c) s) eqn:E; [done|].
  pose proof (c_pos _ _ _ _ _ _ _ (i_core _ _ _ _ Hi) _ HL) as Hp. by destruct (current_anywhere _ s Q L _ Hi Hp E c Hc).
Qed.

(** The requeue decision is the same before and after the clean-up. *)
Lemma after_dispatch_steady V V' Q L L' c l old r :
  steady (λ _, False) V V' → (old ∈ L ↔ old ∈ L') → (old ∈ L' → 0 < old ∧ is_Some (V' !! old)) →
  after_dispatch V' Q L' c l old r = after_dispatch V Q L c l old r.
Proof.
  intros St HL Hp. destruct (decide (old ∈ L')) as [Hin|Hout].
  - destruct (Hp Hin) as [Hpos [w' Hw']]. destruct (St old w' Hpos Hw') as (w & Hw & _ & El & _ & Es).
    unfold after_dispatch, requeues. rewrite Hw, Hw', El, Es by tauto. by rewrite (bool_decide_ext _ _ HL).
  - unfold after_dispatch, requeues. rewrite (bool_decide_eq_false_2 (old ∈ L)), (bool_decide_eq_false_2 (old ∈ L')) by tauto.
    destruct (V !! old), (V' !! old); by rewrite ?andb_false_r.
Qed.

(** The dispatch half of [schedule], on a state without garbage. *)
Lemma choose_spec s Q L c y :
  inv (Some c) s Q L → cpu_ok c → c < g_cpu_count s → g_cpus s !! Z.to_nat c = Some y → online y = true →
  let V := view (procs s) in
  let old := curr (g_cpus s) c in
  let idle := if c =? 0 then 0 else idle_addr c in
  ∃ s' Q', (let* q := oget (g_runqueues s) c in
            let* r := pick_next (S (size (procs s))) (procs s) q in
            let '(nx, ps, q) := r in
            let* qs := oset (g_runqueues s) c q in
            let s := with_rqs qs (with_procs ps s) in
            if nx =? 0 then no_next c old idle s else dispatch c old idle nx s) = Ret s'
    ∧ (c ≠ 0 ∨ top (Q c) ≠ None ∨ (∀ v, V !! old = Some v → state v ≠ WAITING) → inv None s' Q' L)
    ∧ inv (Some c) s' Q' L ∧ frame s s'
    ∧ (∀ c', cpu_ok c' → c' ≠ c → curr (g_cpus s') c' = curr (g_cpus s) c')
    ∧ match top (Q c) with
      | Some l => ∃ nx r, Q c l = nx :: r ∧ curr (g_cpus s') c = nx ∧ Q' = after_dispatch V Q L c l old r
      | None => Q' = Q ∧ (curr (g_cpus s') c = old ∨ curr (g_cpus s') c = idle_addr c)
      end.
Proof.
  intros Hi Hc Hlt Hy Ho V old idle. pose proof (i_core _ _ _ _ Hi) as Hcore. pose proof (c_ncpu _ _ _ _ _ _ _ Hcore) as Hlen.
  destruct (qrep_oget _ _ _ c (i_q _ _ _ _ Hi) Hc) as (q & Eq & Hr). rewrite Eq. cbn [obind]. apply oget_ret in Eq as [_ Eq].
  pose proof (pick_next_spec (Some c) s Q L c q (size (procs s)) Hi Hc Hr) as Hpick. destruct (top (Q c)) as [l|].
  - destruct Hpick as (Hl & nx & r & ps4 & q4 & EQ & -> & HnL & Hr4 & V4 & Hb4). cbn [obind].
    rewrite (qrep_oset _ _ _ c q4 (i_q _ _ _ _ Hi) Hc). cbn [obind].
    pose proof (c_pos _ _ _ _ _ _ _ Hcore nx HnL) as Hnp. rewrite (proj2 (Z.eqb_neq nx 0)) by lia.
    pose proof (lr_nodup _ _ _ _ (rr_levels _ _ _ Hr l Hl)) as HND. rewrite EQ in HND.
    assert (qrep ps4 (<[Z.to_nat c := q4]> (g_runqueues s)) (setc Q c (setl (Q c) l r))) as Hq4.
    { apply (qrep_set (procs s)); try done; [apply Hi| |].
      - intros c' l' a Hc' Hl' Hne Ha. apply Hb4. intros ->. apply Hne.
        apply (qr_disj _ _ _ (i_q _ _ _ _ Hi) c' c l' l nx); try done. rewrite EQ. by left.
      - intros l' a Hl' Ha. left. unfold setl in Ha. destruct (Z.eqb_spec l' l) as [->|]; [|by exists l'].
        exists l. split; [done|]. rewrite EQ. by right. }
    destruct (dispatch_spec s (with_rqs (<[Z.to_nat c := q4]> (g_runqueues s)) (with_procs ps4 s)) Q L c l nx r y) as
      (s' & E & Hi' & G' & (K1 & K2 & K3 & K4 & K5) & _); try done.
    exists s', (after_dispatch V Q L c l old r). split; [exact E|]. split; [done|]. split; [by apply inv_strengthen|]. split_and!.
    + apply frame_intro; try done. rewrite G'. intros i z Hz. pose proof (online_put (g_cpus s) c nx (Z.of_nat i) z) as H.
      rewrite Nat2Z.id in H. by apply H.
    + intros c' Hc' Hne. rewrite G'. by apply curr_put_ne.
    + exists nx, r. split_and!; try done. by rewrite G', curr_put, decide_True.
  - rewrite Hpick. cbn [obind]. rewrite (qrep_oset _ _ _ c q (i_q _ _ _ _ Hi) Hc). cbn [obind Z.eqb].
    assert (with_rqs (<[Z.to_nat c := q]> (g_runqueues s)) (with_procs (procs s) s) = s) as -> by (rewrite list_insert_id by done; by destruct s).
    destruct (no_next_spec s Q L c y Hi Hc Hlt Hy Ho) as (s' & E & [Hi' Haw (K1 & K2 & K3 & K4 & K5) Hoth Honl _ Hwho]).
    exists s', Q. split; [exact E|]. split; [intros [?|[?|?]]; [apply Haw; by left|done|apply Haw; by right]|].
    split_and!; try done. by apply frame_intro.
Qed.

(** The effect of [schedule] on a state that satisfies the invariant (its
    own process may be marked asleep already): dead processes that are not in
    use are freed, the first process of the best level gets the core and the
    outgoing one, if it was RUNNING, goes to the end of its level; without
    ready work the process stays, or the core parks in its idle context. *)
Lemma schedule_spec s Q L c :
  inv (Some c) s Q L → on_line s c →
  let V := view (procs s) in
  let old := curr (g_cpus s) c in
  let L' := filter (λ a, reaped V (g_deferred_reap s) s a = false) L in
  ∃ s' Q', schedule c s = Ret s'
    ∧ (c ≠ 0 ∨ top (Q c) ≠ None ∨ (∀ v, V !! old = Some v → state v ≠ WAITING) → inv None s' Q' L')
    ∧ inv (Some c) s' Q' L' ∧ frame s s'
    ∧ (∀ c', cpu_ok c' → c' ≠ c → curr (g_cpus s') c' = curr (g_cpus s) c')
    ∧ match top (Q c) with
      | Some l => ∃ nx r, Q c l = nx :: r ∧ curr (g_cpus s') c = nx ∧ Q' = after_dispatch V Q L c l old r
      | None => Q' = Q ∧ (curr (g_cpus s') c = old ∨ curr (g_cpus s') c = idle_addr c)
      end.
Proof.
  intros Hi (Hc & Hlt & y & Hy & Hon) V old L'. unfold schedule.
  destruct (cleanup_spec (Some c) s Q L c Hi Hc) as (s1 & -> & Hi1 & (C1 & C2 & C3 & _ & _ & _ & C7 & C8) & St1). cbn [obind].
  simpl in C1, C2, C3, C7, C8. fold V L' in Hi1.
  destruct (claim_spec s1 Q L' c Hi1 Hc) as (s2 & -> & Hi2 & R2 & St2). cbn [obind]. rewrite C1. fold old.
  destruct (rest_eq _ _ R2) as (_ & G1 & G2 & G3 & _ & _ & G7 & G8). rewrite C1 in G1.
  pose proof (steady_trans _ _ _ _ St1 St2) as St.
  destruct (choose_spec s2 Q L' c y Hi2 Hc) as (s' & Q' & E & Hnone & Hi' & F & Hoth & Hm); [congruence|by rewrite G1|done|].
  rewrite G1 in E, Hnone, Hoth, Hm. fold old in E, Hnone, Hm. exists s', Q'. split; [exact E|].
  assert (old ∈ L ↔ old ∈ L') as HoL.
  { unfold L'. rewrite list_elem_of_filter. split; [|tauto]. intros HoL. split; [by eapply reaped_not_current|done]. }
  split; [|split; [done|split; [|split; [done|]]]].
  - intros [?|[?|Hw]]; apply Hnone; [by left|by (right; left)|]. right. right. intros w2 Hw2.
    destruct (decide (0 < old)) as [Hp|Hp].
    + destruct (St old w2 Hp Hw2) as (w & Hw0 & _ & _ & _ & Es). rewrite Es by tauto. by apply Hw.
    + destruct (decide (old = 0)) as [E0|N0].
      * exfalso. rewrite E0 in Hw2. destruct (proj1 (c_dom _ _ _ _ _ _ _ (i_core _ _ _ _ Hi2) 0)) as [H0|H0]; [by eexists| |unfold is_idle in H0; lia].
        pose proof (c_pos _ _ _ _ _ _ _ (i_core _ _ _ _ Hi2) 0 H0). lia.
      * destruct (c_current _ _ _ _ _ _ _ (i_core _ _ _ _ Hi2) c Hc) as (_ & w & Hw0 & _ & _ & [[HL _]|(_ & _ & Hrun)]); rewrite G1 in *; [done| |].
        -- pose proof (c_pos _ _ _ _ _ _ _ (i_core _ _ _ _ Hi2) _ HL). unfold old in *. lia.
        -- fold old in Hw0. rewrite Hw2 in Hw0. injection Hw0 as <-. by rewrite Hrun.
  - eapply frame_trans; [|exact F]. apply frame_same; congruence.
  - destruct (top (Q c)) as [l|]; [|done]. destruct Hm as (nx & r & EQ & Ecur & ->). exists nx, r. split_and!; try done.
    apply after_dispatch_steady; [done|done|]. intros Hin. destruct (listed_some _ _ _ _ old Hi2 Hin) as (w & Hw & Hp). split; [done|by eexists].
Qed.

(** ** Clean-up requests that run out *)

Lemma awake_current s Q L c :
  inv None s Q L → cpu_ok c → ∀ v, view (procs s) !! curr (g_cpus s) c = Some v → state v ≠ WAITING.
Proof.
  intros [_ Hcore _ _ _ _] Hc v Hv Hs. destruct (decide (curr (g_cpus s) c = 0)) as [E|N].
  - rewrite E in Hv. destruct (proj1 (c_dom _ _ _ _ _ _ _ Hcore 0)) as [H0|H0]; [by eexists| |].
    + pose proof (c_pos _ _ _ _ _ _ _ Hcore 0 H0). lia.
    + unfold is_idle in H0. lia.
  - destruct (c_current _ _ _ _ _ _ _ Hcore c Hc N) as (_ & w & Hw & _ & Hx & _).
    rewrite Hv in Hw. injection Hw as <-. by specialize (Hx Hs).
Qed.

(** [schedule] between operations. *)
Lemma schedule_ok s Q L c :
  inv None s Q L → on_line s c →
  ∃ s' Q', schedule c s = Ret s'
    ∧ inv None s' Q' (filter (λ a, reaped (view (procs s)) (g_deferred_reap s) s a = false) L) ∧ frame s s'.
Proof.
  intros Hi Hon. pose proof Hon as (Hc & _).
  destruct (schedule_spec s Q L c (inv_strengthen _ _ _ c Hi) Hon) as (s' & Q' & E & Hi' & _ & F & _).
  exists s', Q'. split; [done|]. split; [|done]. apply Hi'. right. right. by eapply awake_current.
Qed.

Lemma inv_log x s Q L l : inv x s Q L → inv x (log l s) Q L.
Proof. intros []. by constructor. Qed.

Lemma expire_loop_spec cpu now fuel : ∀ s Q don todo,
  inv None s Q (don ++ todo) → on_line s cpu → (length todo < fuel)%nat →
  ∃ b s' Q' L', expire_loop fuel cpu now (default 0 (todo !! 0%nat)) s = Ret (b, s') ∧ inv None s' Q' L' ∧ frame s s'.
Proof.
  induction fuel as [|fuel IH]; intros s Q don todo Hi Hon Hf; [lia|]. cbn [expire_loop].
  destruct todo as [|a todo].
  { exists false, s, Q, (don ++ []). split_and!; auto with cint. }
  change (default 0 ((a :: todo) !! 0%nat)) with a. cbn [length] in Hf. pose proof Hon as (Hc & _).
  assert (a ∈ don ++ a :: todo) as Ha by set_solver. destruct (listed_some _ _ _ _ a Hi Ha) as (v & Hv & Hpos).
  rewrite (proj2 (Z.eqb_neq a 0)) by lia. destruct (getp_view _ _ _ Hv) as (p & -> & Ev). cbn [obind].
  destruct (negb (cleanup_requested p) || dead (state p) || (now <? cleanup_deadline_ms p)).
  { replace (next p) with (next v) by (by rewrite Ev). rewrite (next_listed _ _ _ _ _ _ _ _ Hi eq_refl Hv).
    destruct (IH s Q (don ++ [a]) todo) as (b & s' & Q' & L' & E & ?); try done; [by rewrite <- app_assoc|lia|]. by exists b, s', Q', L'. }
  destruct (inv_stop None (log [EvExit (pid p)] s) Q _ a v ZOMBIE (inv_log _ _ _ _ _ Hi) Ha Hv) as (s1 & E1 & Hi1 & R1 & V1); try done.
  destruct (upd (set_state ZOMBIE) a (log [EvExit (pid p)] s)) as [s2| | |]; [|done..]. cbn [obind] in E1 |- *. rewrite E1.
  cbn [obind]. rewrite current_spec; [|apply (c_ncpu _ _ _ _ _ _ _ (i_core _ _ _ _ Hi1))|done]. cbn [obind].
  assert (frame s s1) as F1.
  { eapply frame_trans; [apply frame_log|apply frame_rest, R1]. }
  assert (∃ s4 Q4 don4 todo4, (if a =? curr (g_cpus s1) cpu then schedule cpu s1 else Ret s1) = Ret s4
    ∧ inv None s4 Q4 (don4 ++ a :: todo4) ∧ frame s s4 ∧ (length todo4 ≤ length todo)%nat) as (s4 & Q4 & don4 & todo4 & -> & Hi4 & F4 & Hle).
  { destruct (Z.eqb_spec a (curr (g_cpus s1) cpu)) as [Eac|]; [|by exists s1, (unlink a Q), don, todo].
    assert (on_line s1 cpu) as Hon1 by (by apply F1).
    destruct (schedule_ok s1 _ _ cpu Hi1 Hon1) as (s4 & Q4 & E4 & Hi4 & F4).
    rewrite filter_app, filter_cons_True in Hi4.
    - eexists s4, Q4, _, _. split; [done|]. split; [done|]. split; [eauto with cint|]. apply length_filter.
    - unfold reaped. rewrite V1, lookup_insert_eq. assert (process_is_current_on_any_cpu a s1 = true) as ->; [|by rewrite orb_true_r, andb_false_r].
      destruct (process_is_current_on_any_cpu a s1) eqn:E; [done|].
      by destruct (current_anywhere _ s1 _ _ a Hi1 Hpos E cpu Hc). }
  cbn [obind]. rewrite current_spec; [|apply (c_ncpu _ _ _ _ _ _ _ (i_core _ _ _ _ Hi4))|done]. cbn [obind].
  destruct ((a =? curr (g_cpus s1) cpu) && negb (a =? curr (g_cpus s4) cpu)).
  { by exists true, s4, Q4, (don4 ++ a :: todo4). }
  destruct (listed_some _ _ _ _ a Hi4) as (v4 & Hv4 & _); [set_solver|].
  destruct (getp_view _ _ _ Hv4) as (p4 & -> & Ev4). cbn [obind].
  replace (next p4) with (next v4) by (by rewrite Ev4). rewrite (next_listed _ _ _ _ _ _ _ _ Hi4 eq_refl Hv4).
  destruct (IH s4 Q4 (don4 ++ [a]) todo4) as (b & s' & Q' & L' & E & Hi' & F'); try done; [by rewrite <- app_assoc|by apply F4|lia|].
  exists b, s', Q', L'. split_and!; eauto with cint.
Qed.

Lemma expire_spec cpu now s Q L :
  inv None s Q L → on_line s cpu →
  ∃ b s' Q' L', expire_cleanup_requests cpu now s = Ret (b, s') ∧ inv None s' Q' L' ∧ frame s s'.
Proof.
  intros Hi Hon. unfold expire_cleanup_requests. destruct (c_list _ _ _ _ _ _ _ (i_core _ _ _ _ Hi)) as [-> _].
  apply (expire_loop_spec cpu now _ s Q [] L); try done. pose proof (size_listed _ _ _ _ Hi). lia.
Qed.

Lemma wake_spec s Q L cpu now :
  inv None s Q L → cpu_ok cpu →
  ∃ s' Q', wake_sleeping_processes cpu now s = Ret s' ∧ inv None s' Q' L ∧ rest s' = rest s
    ∧ (∀ c l, Q' c l = Q c l ++ if decide (c = cpu ∧ l = 0) then filter (λ a, due (view (procs s)) cpu now a = true) L else [])
    ∧ (∀ a v, a ∈ L → view (procs s) !! a = Some v →
         view (procs s') !! a = Some (if due (view (procs s)) cpu now a then woken v else v)).
Proof.
  intros Hi Hc. unfold wake_sleeping_processes. destruct (c_list _ _ _ _ _ _ _ (i_core _ _ _ _ Hi)) as [-> _].
  pose proof (size_listed _ _ _ _ Hi).
  destruct (wake_loop_spec cpu now L (view (procs s)) (S (size (procs s))) s Q [] L) as (s' & Q' & E & Hi' & R & HQ & _ & HV); try done; [lia|].
  by exists s', Q'.
Qed.

(** ** The priority boost *)

Definition boosted (v : process) : process := set_sched 0 (sched_cpu v) 0 v.
(** One core's queues afterwards: everything at the best level, the order of
    the levels and of each level kept. *)
Definition flat (Ql : Z → list Z) : Z → list Z := λ l, if l =? 0 then Ql 0 ++ Ql 1 ++ Ql 2 else [].

(** The state while the boost works on the queue of core [c]. *)
Definition at_rq (s : sched) (c : Z) (ps : pmap) (q : rq) : sched :=
  with_rqs (<[Z.to_nat c := q]> (g_runqueues s)) (with_procs ps s).

Lemma at_rq_rep x s c ps q Q L : inv x (at_rq s c ps q) Q L → cpu_ok c → rq_rep ps q (Q c).
Proof.
  intros [Hq _ _ _ _ _] Hc. pose proof (qr_len _ _ _ Hq) as Hl. simpl in Hl. rewrite length_insert in Hl.
  destruct (qr_rep _ _ _ Hq c Hc) as (q' & E & Hr). simpl in E, Hr. unfold cpu_ok in Hc.
  rewrite list_lookup_insert_eq in E by lia. by injection E as <-.
Qed.

(** Moving the first process of level [lv] to the end of level 0. *)
Lemma boost_one x s c lv ps q Q L a r :
  inv x (at_rq s c ps q) Q L → cpu_ok c → 0 < lv < 3 → Q c lv = a :: r →
  ∃ ps1 q1 p ps2 ps3 q3 v, rq_pop ps q lv = Ret (a, ps1, q1) ∧ a ≠ 0 ∧ getp ps1 a = Ret p
    ∧ updp (set_sched 0 (sched_cpu p) 0) a ps1 = Ret ps2 ∧ rq_push ps2 q1 a 0 = Ret (ps3, q3)
    ∧ view ps !! a = Some v ∧ view ps3 = <[a := boosted v]> (view ps)
    ∧ inv x (at_rq s c ps3 q3) (setc Q c (setl (setl (Q c) lv r) 0 (Q c 0 ++ [a]))) L.
Proof.
  intros Hi Hc Hlv HQ. assert (level_ok lv ∧ level_ok 0) as [Hl Hl0] by (unfold level_ok; lia).
  pose proof (at_rq_rep _ _ _ _ _ _ _ Hi Hc) as Hr. pose proof Hi as [Hq Hcore _ _ _ _].
  pose proof (queue_small _ _ _ _ c 0 Hi Hc Hl0) as Hsm.
  destruct (c_queued _ _ _ _ _ _ _ Hcore c lv a Hc Hl) as (HaL & v & Hv & Es & Ec & El); [rewrite HQ; by left|].
  destruct (rq_pop_spec ps q (Q c) lv a r Hr Hl HQ) as (ps1 & q1 & E1 & Ha0 & Hr1 & V1 & [p Hp] & B1).
  assert (erase p = v) as Ep by (simpl in Hv; rewrite <- V1, view_lookup, Hp in Hv; by injection Hv).
  set (ps2 := <[a := set_sched 0 (sched_cpu p) 0 p]> ps1).
  assert (∀ b, rqn ps2 b = rqn ps1 b) as B2.
  { intros b. unfold rqn, ps2. destruct (decide (a = b)) as [<-|]; [by rewrite lookup_insert_eq, Hp|by rewrite lookup_insert_ne]. }
  assert (∀ z, level_ok z → a ∉ setl (Q c) lv r z) as Hout.
  { intros z Hz. pose proof (lr_nodup _ _ _ _ (rr_levels _ _ _ Hr lv Hl)) as Hn. rewrite HQ in Hn. apply NoDup_cons in Hn as [Hn _].
    unfold setl. destruct (Z.eqb_spec z lv) as [->|Hne]; [done|]. intros Hin.
    apply Hne. apply (rr_disj _ _ _ Hr z lv a Hz Hl Hin). rewrite HQ. by left. }
  destruct (rq_push_spec ps2 q1 (setl (Q c) lv r) a 0 (set_sched 0 (sched_cpu p) 0 p)) as (ps3 & q3 & E3 & Hr3 & V3 & B3); try done.
  { apply (rq_rep_ext ps1); [done|]. intros. apply B2. }
  { apply lookup_insert_eq. }
  { rewrite setl_ne by lia. lia. }
  rewrite (setl_ne (Q c) lv r 0) in Hr3, B3 by lia.
  assert (view ps3 = <[a := boosted v]> (view ps)) as V3'.
  { rewrite V3. unfold ps2. rewrite (view_insert ps1 a p (set_sched 0 (sched_cpu p) 0)) by done. by rewrite V1, Ep, <- Ep. }
  exists ps1, q1, p, ps2, ps3, q3, v. rewrite (updp_ret _ _ _ _ Hp), (getp_ret _ _ _ Hp). split_and!; try done.
  apply (inv_with x x (at_rq s c ps q) _ Q _ L L); try done.
  - pose proof (qrep_set ps ps3 _ Q c q3 (setl (setl (Q c) lv r) 0 (Q c 0 ++ [a])) Hq Hc Hr3) as H.
    simpl in H. rewrite list_insert_insert_eq in H. apply H.
    + intros c' l b Hc' Hlb Hne Hb. assert (b ≠ a) by (intros ->; apply Hne, (qr_disj _ _ _ Hq c' c l lv a); try done; rewrite HQ; by left).
      rewrite B3, B2, B1; try done. intros Hb0. by apply Hne, (qr_disj _ _ _ Hq c' c l 0 b).
    + intros l b Hlb Hb. left. unfold setl in Hb. destruct (Z.eqb_spec l 0) as [->|].
      * apply elem_of_app in Hb as [Hb|Hb]; [by exists 0|]. apply list_elem_of_singleton in Hb as ->. exists lv. rewrite HQ. split; [done|by left].
      * destruct (Z.eqb_spec l lv) as [->|]; [|by exists l]. exists lv. rewrite HQ. split; [done|by right].
  - simpl. rewrite V3'. apply (core_move x _ Q _ L _ _ _ a v); try done; [by rewrite <- Ec in Hc|].
    intros c' l b Hc' Hlb. simpl. rewrite Ec. unfold setc. destruct (Z.eqb_spec c' c) as [->|Hne].
    + unfold setl at 1. destruct (Z.eqb_spec l 0) as [->|Hl'].
      * rewrite elem_of_app, list_elem_of_singleton. specialize (Hout 0 Hl0). rewrite setl_ne in Hout by lia. naive_solver.
      * specialize (Hout l Hlb). unfold setl in Hout |- *. destruct (Z.eqb_spec l lv) as [Elv|]; [rewrite Elv in *|].
        -- rewrite HQ, elem_of_cons. naive_solver.
        -- naive_solver.
    + split; [|naive_solver]. intros Hb. left. split; [done|]. intros ->.
      apply Hne, (qr_disj _ _ _ Hq c' c l lv a); try done. rewrite HQ. by left.
Qed.

Lemma boost_loop_spec x s c lv L fuel : ∀ ps q Q todo,
  inv x (at_rq s c ps q) Q L → cpu_ok c → 0 < lv < 3 → Q c lv = todo → (length todo < fuel)%nat →
  ∃ ps' q' Q', boost_loop fuel ps q lv = Ret (ps', q') ∧ inv x (at_rq s c ps' q') Q' L
    ∧ (∀ c' l, Q' c' l = if decide (c' = c) then if decide (l = lv) then [] else if decide (l = 0) then Q c 0 ++ todo else Q c l
                        else Q c' l)
    ∧ (∀ a, view ps' !! a = if bool_decide (a ∈ todo) then boosted <$> view ps !! a else view ps !! a).
Proof.
  induction fuel as [|fuel IH]; intros ps q Q todo Hi Hc Hlv HQ Hf; [lia|]. cbn [boost_loop].
  destruct todo as [|a r].
  { assert (level_ok lv) as Hl by (unfold level_ok; lia). rewrite (rq_pop_empty ps q (Q c)); try done; [|by eapply at_rq_rep].
    cbn [obind]. exists ps, q, Q. split_and!; try done.
    intros c' l. destruct (decide (c' = c)) as [->|]; [|done]. destruct (decide (l = lv)) as [->|]; [done|].
    destruct (decide (l = 0)) as [->|]; [by rewrite app_nil_r|done]. }
  destruct (boost_one x s c lv ps q Q L a r Hi Hc Hlv HQ) as (ps1 & q1 & p & ps2 & ps3 & q3 & v & -> & Ha0 & Eg & Eu & Ep & Hv & V3 & Hi3).
  cbn [obind]. rewrite (proj2 (Z.eqb_neq a 0)) by done. rewrite Eg. cbn [obind]. unfold SCHED_LEVEL_INTERACTIVE. rewrite Eu. cbn [obind].
  rewrite Ep. cbn [obind fst snd].
  pose proof (lr_nodup _ _ _ _ (rr_levels _ _ _ (at_rq_rep _ _ _ _ _ _ _ Hi Hc) lv ltac:(unfold level_ok; lia))) as Hn.
  rewrite HQ in Hn. apply NoDup_cons in Hn as [Hn _].
  destruct (IH ps3 q3 _ r Hi3) as (ps' & q' & Q' & E & Hi' & HQ' & V'); try done.
  { rewrite setc_eq, setl_ne, setl_eq by lia. done. }
  { simpl in Hf. lia. }
  exists ps', q', Q'. split_and!; try done.
  - intros c' l. rewrite HQ'. destruct (decide (c' = c)) as [->|Hne]; [|by rewrite setc_ne].
    destruct (decide (l = lv)) as [->|]; [done|]. rewrite setc_eq. destruct (decide (l = 0)) as [->|].
    + by rewrite setl_eq, <- app_assoc.
    + by rewrite !setl_ne.
  - intros b. rewrite V', V3. destruct (decide (a = b)) as [<-|Hne].
    + rewrite bool_decide_eq_false_2, bool_decide_eq_true_2, lookup_insert_eq, Hv by set_solver. done.
    + rewrite lookup_insert_ne by done. rewrite (bool_decide_ext (b ∈ a :: r) (b ∈ r)); [done|]. set_solver.
Qed.

(** One core. *)
Lemma boost_rq_spec x s Q L c q :
  inv x s Q L → cpu_ok c → g_runqueues s !! Z.to_nat c = Some q →
  ∃ ps' q' Q', boost_rq (procs s) q = Ret (ps', q') ∧ inv x (at_rq s c ps' q') Q' L
    ∧ (∀ l, level_ok l → Q' c l = flat (Q c) l) ∧ (∀ c' l, c' ≠ c → Q' c' l = Q c' l)
    ∧ (∀ a, view ps' !! a = if bool_decide (a ∈ Q c 1 ++ Q c 2) then boosted <$> view (procs s) !! a else view (procs s) !! a).
Proof.
  intros Hi Hc Eq. unfold boost_rq.
  assert (at_rq s c (procs s) q = s) as Es by (unfold at_rq; rewrite list_insert_id by done; by destruct s).
  assert (∀ ps q Q l, inv x (at_rq s c ps q) Q L → level_ok l → (length (Q c l) < S (size ps))%nat) as Hsz.
  { intros ps0 q0 Q0 l Hi0 Hl. pose proof (rr_levels _ _ _ (at_rq_rep _ _ _ _ _ _ _ Hi0 Hc) l Hl) as Hr.
    pose proof (chain_size _ _ (lr_chain _ _ _ _ Hr) (lr_nodup _ _ _ _ Hr)). lia. }
  assert (level_ok 1 ∧ level_ok 2) as [L1 L2] by (unfold level_ok; lia).
  destruct (boost_loop_spec x s c 1 L (S (size (procs s))) (procs s) q Q (Q c 1)) as (ps1 & q1 & Q1 & -> & Hi1 & HQ1 & V1); try done.
  { by rewrite Es. } { apply (Hsz _ q); [by rewrite Es|done]. }
  cbn [obind fst snd].
  destruct (boost_loop_spec x s c 2 L (S (size ps1)) ps1 q1 Q1 (Q1 c 2)) as (ps2 & q2 & Q2 & -> & Hi2 & HQ2 & V2); try done.
  { by apply (Hsz _ q1). }
  assert (Q1 c 2 = Q c 2) as E12 by (by rewrite HQ1, decide_True).
  assert (Q1 c 0 = Q c 0 ++ Q c 1) as E10 by (by rewrite HQ1, decide_True).
  assert (Q1 c 1 = []) as E11 by (by rewrite HQ1, decide_True).
  exists ps2, q2, Q2. split_and!; try done.
  - intros l Hl. rewrite HQ2, decide_True, E12, E10 by done. unfold flat, level_ok in *.
    destruct (decide (l = 2)) as [->|]; [done|]. destruct (decide (l = 0)) as [->|]; [by rewrite <- app_assoc|].
    assert (l = 1) as -> by lia. done.
  - intros c' l Hne. by rewrite HQ2, decide_False, HQ1, decide_False.
  - intros a. rewrite V2, V1, E12. destruct (bool_decide (a ∈ Q c 2)) eqn:B2, (bool_decide (a ∈ Q c 1)) eqn:B1.
    + rewrite bool_decide_eq_true in B1, B2. pose proof Hi as [Hq _ _ _ _ _].
      destruct (qr_rep _ _ _ Hq c Hc) as (q' & _ & Hr). pose proof (rr_disj _ _ _ Hr 1 2 a L1 L2 B1 B2). done.
    + rewrite (bool_decide_eq_true_2 (a ∈ _ ++ _)); [done|]. apply elem_of_app. right. by apply bool_decide_eq_true in B2.
    + rewrite (bool_decide_eq_true_2 (a ∈ _ ++ _)); [done|]. apply elem_of_app. left. by apply bool_decide_eq_true in B1.
    + rewrite (bool_decide_eq_false_2 (a ∈ _ ++ _)); [done|]. apply bool_decide_eq_false in B1, B2. set_solver.
Qed.

Lemma boost_cpus_spec x L k : ∀ s Q cpu,
  inv x s Q L → 0 ≤ cpu → cpu + Z.of_nat k ≤ 16 →
  ∃ s' Q', boost_cpus k cpu s = Ret s' ∧ inv x s' Q' L ∧ rest s' = rest s
    ∧ (∀ c l, level_ok l → Q' c l = if decide (cpu ≤ c < cpu + Z.of_nat k) then flat (Q c) l else Q c l)
    ∧ (∀ a v, view (procs s) !! a = Some v → view (procs s') !! a = Some v ∨ view (procs s') !! a = Some (boosted v)).
Proof.
  induction k as [|k IH]; intros s Q cpu Hi H0 Hk; cbn [boost_cpus].
  { exists s, Q. split_and!; try done; [|by left]. intros c l Hl. rewrite decide_False by lia. done. }
  assert (cpu_ok cpu) as Hc by (unfold cpu_ok; lia).
  destruct (qrep_oget _ _ _ cpu (i_q _ _ _ _ Hi) Hc) as (q & Eq & Hr). rewrite Eq. cbn [obind]. apply oget_ret in Eq as [_ Eq].
  destruct (boost_rq_spec x s Q L cpu q Hi Hc Eq) as (ps1 & q1 & Q1 & -> & Hi1 & HQ1 & HQo & V1). cbn [obind fst snd].
  rewrite (qrep_oset _ _ _ cpu q1 (i_q _ _ _ _ Hi) Hc). cbn [obind].
  destruct (IH (at_rq s cpu ps1 q1) Q1 (cpu + 1) Hi1) as (s' & Q' & E & Hi' & R' & HQ' & V'); [lia|lia|].
  exists s', Q'. split_and!; try done.
  - intros c l Hl. rewrite HQ' by done. destruct (decide (cpu = c)) as [<-|Hne].
    + rewrite decide_False by lia. rewrite decide_True by lia. by apply HQ1.
    + destruct (decide (cpu + 1 ≤ c < cpu + 1 + Z.of_nat k)).
      * rewrite decide_True by lia. unfold flat. by rewrite !HQo by done.
      * rewrite decide_False by lia. by apply HQo.
  - intros a v Hv. assert (view ps1 !! a = Some v ∨ view ps1 !! a = Some (boosted v)) as [H|H].
    { rewrite V1, Hv. destruct (bool_decide _); [by right|by left]. }
    + by apply V'.
    + destruct (V' a _ H) as [?|?]; by right.
Qed.

Lemma boost_spec x s Q L :
  inv x s Q L →
  ∃ s' Q', scheduler_priority_boost s = Ret s' ∧ inv x s' Q' L ∧ rest s' = rest s
    ∧ (∀ c l, level_ok l → 0 ≤ c < g_online_cpu_count s → Q' c l = flat (Q c) l)
    ∧ (∀ c l, level_ok l → g_online_cpu_count s ≤ c → Q' c l = Q c l)
    ∧ (∀ a v, view (procs s) !! a = Some v → view (procs s') !! a = Some v ∨ view (procs s') !! a = Some (boosted v)).
Proof.
  intros Hi. pose proof (i_online _ _ _ _ Hi) as Ho. unfold scheduler_priority_boost.
  rewrite (proj2 (Z.ltb_ge MAX_CPUS _)) by (unfold MAX_CPUS; lia).
  destruct (boost_cpus_spec x L (Z.to_nat (g_online_cpu_count s)) s Q 0 Hi) as (s' & Q' & E & Hi' & R & HQ & HV); [lia|lia|].
  exists s', Q'. split_and!; try done.
  - intros c l Hl Hc. rewrite HQ by done. by rewrite decide_True by lia.
  - intros c l Hl Hc. rewrite HQ by done. by rewrite decide_False by lia.
Qed.

(** ** Rebalancing *)

Lemma rq_total_bound x s Q L c q :
  inv x s Q L → cpu_ok c → g_runqueues s !! Z.to_nat c = Some q →
  rq_total q = Z.of_nat (length (Q c 0) + length (Q c 1) + length (Q c 2)) ∧ 0 ≤ rq_total q < 3 * 2 ^ 30.
Proof.
  intros Hi Hc Eq. destruct (qr_rep _ _ _ (i_q _ _ _ _ Hi) c Hc) as (q' & E & Hr). rewrite Eq in E. injection E as <-.
  assert (level_ok 0 ∧ level_ok 1 ∧ level_ok 2) as (L0 & L1 & L2) by (unfold level_ok; lia).
  pose proof (queue_small _ _ _ _ c 0 Hi Hc L0). pose proof (queue_small _ _ _ _ c 1 Hi Hc L1). pose proof (queue_small _ _ _ _ c 2 Hi Hc L2).
  pose proof (lr_count _ _ _ _ (rr_levels _ _ _ Hr 0 L0)) as C0. pose proof (lr_count _ _ _ _ (rr_levels _ _ _ Hr 1 L1)) as C1.
  pose proof (lr_count _ _ _ _ (rr_levels _ _ _ Hr 2 L2)) as C2. pose proof (rr_count _ _ _ Hr) as Hl.
  unfold rq_total. destruct (count q) as [|k0 [|k1 [|k2 [|? ?]]]]; [done..| |done].
  change (Z.to_nat 0) with 0%nat in C0. change (Z.to_nat 1) with 1%nat in C1. change (Z.to_nat 2) with 2%nat in C2.
  simpl in C0, C1, C2. injection C0 as ->. injection C1 as ->. injection C2 as ->.
  assert (u32 (foldl Z.add 0 [Z.of_nat (length (Q c 0)); Z.of_nat (length (Q c 1)); Z.of_nat (length (Q c 2))])
    = Z.of_nat (length (Q c 0) + length (Q c 1) + length (Q c 2))) as ->; [|lia].
  cbn [foldl]. rewrite u32_small; unfold is_u32; lia.
Qed.

Lemma cpu_load_ret x s Q L c :
  inv x s Q L → cpu_ok c → ∃ load, cpu_load s c = Ret load ∧ 0 ≤ load ≤ 3 * 2 ^ 30.
Proof.
  intros Hi Hc. unfold cpu_load. destruct (qrep_oget _ _ _ c (i_q _ _ _ _ Hi) Hc) as (q & Eq & _). rewrite Eq. cbn [obind].
  apply oget_ret in Eq as [_ Eq]. destruct (rq_total_bound x s Q L c q Hi Hc Eq) as [_ Hb].
  pose proof (i_core _ _ _ _ Hi) as Hcore. pose proof (c_ncpu _ _ _ _ _ _ _ Hcore) as Hl. unfold cpu_ok in Hc.
  destruct (oget_is_ret (g_cpus s) c) as (y & -> & Hy); [lia|]. cbn [obind].
  destruct (Z.eqb_spec (current_process y) 0) as [|Hne]; [exists (rq_total q); split; [done|lia]|].
  assert (curr (g_cpus s) c = current_process y) as Ecur by (unfold curr; by rewrite Hy).
  destruct (c_current _ _ _ _ _ _ _ Hcore c Hc) as (_ & v & Hv & _); [by rewrite Ecur|]. rewrite Ecur in Hv.
  destruct (getp_view _ _ _ Hv) as (p & -> & _). cbn [obind]. destruct (decide _).
  - eexists. split; [done|]. rewrite u32_small; unfold is_u32; lia.
  - eexists. split; [done|]. lia.
Qed.

Lemma loads_loop_spec x s Q L k : ∀ cpu b bl i il,
  inv x s Q L → 0 ≤ cpu → cpu + Z.of_nat k ≤ 16 →
  ∃ b' bl' i' il', loads_loop k s cpu b bl i il = Ret (b', bl', i', il')
    ∧ (b' = b ∧ bl' = bl ∨ cpu ≤ b' < cpu + Z.of_nat k ∧ cpu_load s b' = Ret bl')
    ∧ (i' = i ∧ il' = il ∨ cpu ≤ i' < cpu + Z.of_nat k ∧ cpu_load s i' = Ret il')
    ∧ bl ≤ bl' ∧ il' ≤ il
    ∧ (∀ c load, cpu ≤ c < cpu + Z.of_nat k → cpu_load s c = Ret load → il' ≤ load ≤ bl').
Proof.
  induction k as [|k IH]; intros cpu b bl i il Hi H0 Hk; cbn [loads_loop].
  { exists b, bl, i, il. split_and!; auto; lia. }
  destruct (cpu_load_ret x s Q L cpu Hi) as (load & E & Hl); [unfold cpu_ok; lia|]. rewrite E. cbn [obind].
  pose proof (IH (cpu + 1) (if bl <? load then cpu else b) (if bl <? load then load else bl)
    (if load <? il then cpu else i) (if load <? il then load else il) Hi) as H.
  destruct H as (b' & bl' & i' & il' & E' & Hb & Hil & Hbl & Hle & Hall); [lia|lia|].
  exists b', bl', i', il'. split.
  { rewrite <- E'. by destruct (bl <? load), (load <? il). }
  assert (cpu_load s cpu = Ret load) as E2 by done. destruct (Z.ltb_spec bl load), (Z.ltb_spec load il); split_and!; try lia;
    try (destruct Hb as [[-> ->]|[? ?]]; [solve [left; done|right; split; [lia|done]]|right; split; [lia|done]]);
    try (destruct Hil as [[-> ->]|[? ?]]; [solve [left; done|right; split; [lia|done]]|right; split; [lia|done]]);
    intros c ld Hc Hld; (destruct (decide (c = cpu)) as [->|]; [assert (ld = load) by congruence; lia|specialize (Hall c ld); lia || (apply Hall; [lia|done])]).
Qed.

(** A process the pass may move. *)
Definition movable (V : pmap) (a : Z) : option Z :=
  match V !! a with
  | Some v => if (on_cpu v =? 0) && bool_decide (priv v = USER) then Some (cpu_time_ms v) else None
  | None => None
  end.

Lemma migrant_walk_spec ps lv fuel : ∀ l best,
  chain ps l → 0 ∉ l → (length l < fuel)%nat →
  ∃ best', migrant_walk fuel ps lv (default 0 (l !! 0%nat)) best = Ret best'
    ∧ (best' = best ∨ snd (fst best') = lv ∧ fst (fst best') ∈ l ∧ movable (view ps) (fst (fst best')) = Some (snd best'))
    ∧ snd best' ≤ snd best ∧ (∀ a t, a ∈ l → movable (view ps) a = Some t → snd best' ≤ t).
Proof.
  induction fuel as [|fuel IH]; intros l best Hch H0 Hf; [lia|]. cbn [migrant_walk]. destruct l as [|a l].
  { exists best. split_and!; try done; [by left|]. set_solver. }
  change (default 0 ((a :: l) !! 0%nat)) with a. apply not_elem_of_cons in H0 as [Ha H0].
  rewrite (proj2 (Z.eqb_neq a 0)) by done. destruct (chain_some _ _ _ Hch (list_elem_of_here _ _)) as (p & Hp).
  rewrite (getp_ret _ _ _ Hp). cbn [obind]. pose proof (chain_head _ _ _ Hch) as Hn. unfold rqn in Hn. rewrite Hp in Hn.
  injection Hn as ->.
  assert (movable (view ps) a = if (on_cpu p =? 0) && bool_decide (priv p = USER) then Some (cpu_time_ms p) else None) as Em.
  { unfold movable. by rewrite view_lookup, Hp. }
  set (b1 := if negb (on_cpu p =? 0) then best else if negb (bool_decide (priv p = USER)) then best
             else if cpu_time_ms p <? snd best then (a, lv, cpu_time_ms p) else best).
  assert ((b1 = best ∨ b1 = (a, lv, cpu_time_ms p) ∧ movable (view ps) a = Some (cpu_time_ms p)) ∧ snd b1 ≤ snd best
    ∧ (∀ t, movable (view ps) a = Some t → snd b1 ≤ t)) as (Hb1 & Hle & Hmin).
  { rewrite Em. unfold b1. destruct (on_cpu p =? 0); [|split_and!; [by left|done|done]].
    destruct (bool_decide (priv p = USER)); [|split_and!; [by left|done|done]]. cbn [negb andb].
    destruct (Z.ltb_spec (cpu_time_ms p) (snd best)); split_and!; try (by left); try (by right); simpl; try lia; intros t [= <-]; lia. }
  destruct (IH l b1) as (b2 & E2 & Hb2 & Hle2 & Hmin2); [by eapply chain_tail|done|simpl in Hf; lia|].
  exists b2. split; [done|]. split_and!; [|lia|].
  - destruct Hb2 as [->|(? & ? & ?)]; [|right; split_and!; try done; by right].
    destruct Hb1 as [->|[-> ?]]; [by left|right; split_and!; try done; by left].
  - intros c t [->|Hc]%elem_of_cons Ht; [specialize (Hmin t Ht); lia|by eapply Hmin2].
Qed.

Lemma migrant_levels_spec ps q Ql k : ∀ lv best,
  rq_rep ps q Ql → 0 ≤ lv → lv + Z.of_nat k ≤ 3 →
  ∃ best', migrant_levels k ps q lv best = Ret best'
    ∧ (best' = best ∨ ∃ z, z = snd (fst best') ∧ level_ok z ∧ fst (fst best') ∈ Ql z ∧ movable (view ps) (fst (fst best')) = Some (snd best'))
    ∧ snd best' ≤ snd best
    ∧ (∀ z a t, lv ≤ z < lv + Z.of_nat k → a ∈ Ql z → movable (view ps) a = Some t → snd best' ≤ t).
Proof.
  induction k as [|k IH]; intros lv best Hr H0 Hk; cbn [migrant_levels].
  { exists best. split_and!; try done; [by left|]. lia. }
  assert (level_ok lv) as Hl by (unfold level_ok; lia). pose proof (rr_levels _ _ _ Hr lv Hl) as [Hh _ _ Hch Hnd Hnz].
  rewrite (oget_in _ _ _ H0 Hh). cbn [obind].
  destruct (migrant_walk_spec ps lv (S (size ps)) (Ql lv) best Hch Hnz) as (b1 & -> & Hb1 & Hle1 & Hm1).
  { pose proof (chain_size _ _ Hch Hnd). lia. }
  cbn [obind]. destruct (IH (lv + 1) b1 Hr) as (b2 & E & Hb2 & Hle2 & Hm2); [lia|lia|]. exists b2. split; [done|]. split_and!; [|lia|].
  - destruct Hb2 as [->|?]; [|by right]. destruct Hb1 as [->|(E1 & E2 & E3)]; [by left|]. right. exists lv. done.
  - intros z a t Hz Ha Ht. destruct (decide (z = lv)) as [->|]; [specialize (Hm1 a t Ha Ht); lia|]. apply (Hm2 z a t); [lia|done|done].
Qed.

(** What one pass does: nothing, or the least-used movable process of the
    busiest core goes to the end of its level on the idlest core. *)
Definition migration (s : sched) (Q Q' : Z → Z → list Z) (src dst lv a : Z) : Prop :=
  (∃ ls ld, cpu_load s src = Ret ls ∧ cpu_load s dst = Ret ld ∧ ld + 2 ≤ ls
     ∧ ∀ c load, 0 ≤ c < g_online_cpu_count s → cpu_load s c = Ret load → ld ≤ load ≤ ls)
  ∧ 0 ≤ src < g_online_cpu_count s ∧ 0 ≤ dst < g_online_cpu_count s ∧ src ≠ dst ∧ level_ok lv ∧ a ∈ Q src lv
  ∧ (∃ t, movable (view (procs s)) a = Some t
     ∧ ∀ z b u, level_ok z → b ∈ Q src z → movable (view (procs s)) b = Some u → t ≤ u)
  ∧ (∀ c l, cpu_ok c → level_ok l → Q' c l = add_to (unlink a Q) dst lv a c l).

(** The move itself. *)
Lemma migrate_spec x s Q L src dst q lv a v :
  inv x s Q L → cpu_ok src → cpu_ok dst → level_ok lv → g_runqueues s !! Z.to_nat src = Some q → a ∈ Q src lv →
  view (procs s) !! a = Some v →
  ∃ s' Q', (let* r := dequeue_level (procs s) q a lv in
            match r with
            | None => Undef
            | Some (ps, q) =>
                let* qs := oset (g_runqueues s) src q in
                let s := with_rqs qs (with_procs ps s) in
                let* p := getp (procs s) a in
                let* s := upd (set_sched (sched_level p) dst (sched_ticks_used p)) a s in
                push_on dst a (sched_level p) s
            end) = Ret s'
    ∧ inv x s' Q' L ∧ rest s' = rest s
    ∧ (∀ c l, cpu_ok c → level_ok l → Q' c l = add_to (unlink a Q) dst lv a c l)
    ∧ view (procs s') = <[a := set_sched (sched_level v) dst (sched_ticks_used v) v]> (view (procs s)).
Proof.
  intros Hi Hcb Hci Hlv Eq Hin Hv. pose proof Hi as [Hq Hcore _ _ _ _].
  destruct (qr_rep _ _ _ Hq src Hcb) as (q' & E & Hr). rewrite Eq in E. injection E as <-.
  destruct (c_queued _ _ _ _ _ _ _ Hcore src lv a Hcb Hlv Hin) as (HaL & w & Hw & Es & Ecpu & Elv). rewrite Hv in Hw. injection Hw as <-.
  pose proof (c_pos _ _ _ _ _ _ _ Hcore a HaL) as Hpos.
  pose proof (dequeue_level_spec (procs s) q (Q src) lv a Hr Hlv) as Hd. rewrite decide_True in Hd by done.
  destruct Hd as (l1 & l2 & ps1 & q1 & EQ & -> & Hr1 & V1 & B1). cbn [obind].
  rewrite (qrep_oset _ _ _ src q1 Hq Hcb). cbn [obind procs with_rqs with_procs].
  assert (NoDup (l1 ++ a :: l2)) as HND by (rewrite <- EQ; apply (rr_levels _ _ _ Hr lv Hlv)).
  set (Q1 := setc Q src (setl (Q src) lv (l1 ++ l2))).
  assert (qrep ps1 (<[Z.to_nat src := q1]> (g_runqueues s)) Q1) as Hq1.
  { apply (qrep_set (procs s)); try done.
    - intros c' l d Hc' Hl' Hne Hd. apply B1. intros Hd'. by apply Hne, (qr_disj _ _ _ Hq c' src l lv d).
    - intros l d Hl Hd. left. unfold setl in Hd. destruct (Z.eqb_spec l lv) as [->|]; [|by exists l]. exists lv. split; [done|]. rewrite EQ. set_solver. }
  assert (view ps1 !! a = Some v) as Hv1 by (by rewrite V1). destruct (getp_view _ _ _ Hv1) as (p & -> & Ep). cbn [obind].
  assert (sched_level p = lv ∧ sched_ticks_used p = sched_ticks_used v) as [-> ->] by (by rewrite Ep in *).
  set (s1 := with_rqs _ _). destruct (upd_spec s1 Q1 a v (set_sched lv dst (sched_ticks_used v)) Hq1 Hv1) as (ps2 & -> & Hq2 & V2); [done|].
  cbn [obind].
  assert (∀ c l, cpu_ok c → level_ok l → Q1 c l = unlink a Q c l) as HQ1.
  { intros c l Hc Hl. unfold Q1, setc, setl, unlink. destruct (Z.eqb_spec c src) as [->|Hcne].
    - destruct (Z.eqb_spec l lv) as [->|Hlne]; [by rewrite EQ, filter_split|].
      rewrite filter_id_ne; [done|]. intros Hx. by apply Hlne, (rr_disj _ _ _ Hr l lv a).
    - rewrite filter_id_ne; [done|]. intros Hx. by apply Hcne, (qr_disj _ _ _ Hq c src l lv a). }
  assert (view ps2 !! a = Some (set_sched lv dst (sched_ticks_used v) v)) as Hv2 by (rewrite V2; apply lookup_insert_eq).
  destruct (view_some _ _ _ Hv2) as (p2 & Hp2 & _).
  destruct (push_on_spec (with_procs ps2 s1) Q1 dst lv a p2) as (ps3 & qs3 & -> & Hq3 & V3); try done; [lia| | |].
  { intros c l Hc Hl. rewrite HQ1 by done. rewrite elem_unlink. tauto. }
  { rewrite HQ1 by done. pose proof (queue_small _ _ _ _ dst lv Hi Hci Hlv). unfold unlink.
    pose proof (length_filter (λ x, x ≠ a) (Q dst lv)). lia. }
  assert (view ps3 = <[a:=set_sched lv dst (sched_ticks_used v) v]> (view (procs s))) as V3' by (rewrite V3; simpl; rewrite V2; simpl; by rewrite V1).
  assert (∀ c l, cpu_ok c → level_ok l → add_to Q1 dst lv a c l = add_to (unlink a Q) dst lv a c l) as Hadd.
  { intros c l Hc Hl. unfold add_to, setc, setl. destruct (Z.eqb_spec c dst) as [->|]; [|by apply HQ1].
    destruct (Z.eqb_spec l lv) as [->|]; by rewrite HQ1. }
  eexists _, (add_to Q1 dst lv a). split; [done|]. split_and!; try done; [|simpl; by rewrite Elv].
  apply (inv_with x x s _ Q _ L L); try done. simpl. rewrite V3'.
  apply (core_move x _ Q _ L _ _ _ a v); try done. intros c l d Hc Hl. simpl. rewrite Hadd by done. by rewrite elem_add_to, elem_unlink.
Qed.

Lemma rebalance_spec x s Q L :
  inv x s Q L →
  ∃ s' Q', scheduler_rebalance s = Ret s' ∧ inv x s' Q' L ∧ rest s' = rest s
    ∧ (s' = s ∧ Q' = Q ∨ ∃ src dst lv a v, migration s Q Q' src dst lv a ∧ view (procs s) !! a = Some v
         ∧ view (procs s') = <[a := set_sched (sched_level v) dst (sched_ticks_used v) v]> (view (procs s))).
Proof.
  intros Hi. pose proof (i_online _ _ _ _ Hi) as Ho. pose proof Hi as [Hq Hcore _ _ _ _].
  assert (∃ s' Q', Ret s = Ret s' ∧ inv x s' Q' L ∧ rest s' = rest s ∧ (s' = s ∧ Q' = Q
    ∨ ∃ src dst lv a v, migration s Q Q' src dst lv a ∧ view (procs s) !! a = Some v
         ∧ view (procs s') = <[a := set_sched (sched_level v) dst (sched_ticks_used v) v]> (view (procs s)))) as Hsame.
  { exists s, Q. split_and!; try done. by left. }
  unfold scheduler_rebalance. destruct ((g_online_cpu_count s <? 2) || (MAX_CPUS <? g_online_cpu_count s)) eqn:En; [exact Hsame|].
  apply orb_false_iff in En as [En%Z.ltb_ge _].
  destruct (loads_loop_spec x s Q L (Z.to_nat (g_online_cpu_count s)) 0 0 0 0 4294967295 Hi) as
    (b & bl & i & il & -> & Hb & Hil & Hb0 & Hi0 & Hall); [lia|lia|]. cbn [obind].
  destruct ((b =? i) || (bl <? u32 (il + 2))) eqn:Ec; [exact Hsame|].
  apply orb_false_iff in Ec as [Eb%Z.eqb_neq El%Z.ltb_ge].
  destruct (cpu_load_ret x s Q L 0 Hi) as (ld0 & E0 & Hld0); [unfold cpu_ok; lia|]. pose proof (Hall 0 ld0 ltac:(lia) E0) as H0.
  destruct Hil as [[-> ->]|[Hir Eil]]; [lia|].
  destruct (cpu_load_ret x s Q L i Hi) as (ldi & Ei & Hldi); [unfold cpu_ok; lia|]. assert (ldi = il) as -> by congruence.
  rewrite u32_small in El by (unfold is_u32; lia). destruct Hb as [[-> ->]|[Hbr Ebl]]; [lia|].
  assert (cpu_ok b ∧ cpu_ok i) as [Hcb Hci] by (unfold cpu_ok; lia).
  destruct (qrep_oget _ _ _ b Hq Hcb) as (q & Eq & Hr). rewrite Eq. cbn [obind]. apply oget_ret in Eq as [_ Eq].
  destruct (migrant_levels_spec (procs s) q (Q b) 3 0 (0, 0, 18446744073709551615) Hr) as ([[a lv] t] & -> & Hbest & _ & Hmin); [lia|lia|].
  cbn [obind]. cbn [fst snd] in Hbest, Hmin. destruct (Z.eqb_spec a 0) as [->|Ha0]; [exact Hsame|].
  destruct Hbest as [[= -> -> ->]|(z & -> & Hlv & Hin & Hmov)]; [done|].
  destruct (c_queued _ _ _ _ _ _ _ Hcore b lv a Hcb Hlv Hin) as (_ & v & Hv & _).
  destruct (migrate_spec x s Q L b i q lv a v Hi Hcb Hci Hlv Eq Hin Hv) as (s' & Q' & E & Hi' & R & HQ' & V').
  exists s', Q'. split; [exact E|]. split_and!; try done. right. exists b, i, lv, a, v. split_and!; try done. unfold migration.
  split; [exists bl, il; split_and!; try done; intros c load Hc; apply Hall; lia|].
  split; [lia|]. split; [lia|]. split; [done|]. split; [done|]. split; [done|]. split; [|done].
  exists t. split; [done|]. intros z d u Hz Hd Hu. apply (Hmin z d u); [unfold level_ok in Hz; lia|done|done].
Qed.

(** ** The tick *)

(** The accounting of a core does not matter to the invariant. *)
Lemma core_cpus x V Q L h cpus cpus' n :
  core x V Q L h cpus n → length cpus' = 16%nat →
  (∀ i y, cpus !! i = Some y → ∃ y', cpus' !! i = Some y' ∧ online y' = online y ∧ current_process y' = current_process y) →
  core x V Q L h cpus' n.
Proof.
  intros [Hl Hnd Hpos Hdom Hsm Hrg Hq Hrd Hnc Hcur Hrun] Hlen H.
  assert (∀ c, cpu_ok c → curr cpus' c = curr cpus c) as Hcc.
  { intros c Hc. unfold curr. unfold cpu_ok in Hc. destruct (lookup_lt_is_Some_2 cpus (Z.to_nat c)) as [y Hy]; [lia|].
    destruct (H _ y Hy) as (y' & Hy' & _ & E). by rewrite Hy, Hy'. }
  constructor; try done.
  - intros c Hc. rewrite Hcc by done. intros H0. destruct (Hcur c Hc H0) as ((Hn & y & Hy & Ho) & Hv). split; [|done].
    split; [done|]. destruct (H _ y Hy) as (y' & Hy' & Ho' & _). exists y'. split; [done|congruence].
  - intros a v Ha Hv Hs. destruct (Hrg a v Ha Hv) as [Hr _]. rewrite Hcc by done. by apply Hrun.
Qed.

Lemma usage_spec s Q L c :
  inv None s Q L → cpu_ok c →
  ∃ s', usage_tick c s = Ret s' ∧ inv None s' Q L ∧ frame s s' ∧ curr (g_cpus s') c = curr (g_cpus s) c ∧ procs s' = procs s.
Proof.
  intros Hi Hc. pose proof Hi as [Hq Hcore Hd Ht Hn Ho]. pose proof (c_ncpu _ _ _ _ _ _ _ Hcore) as Hl.
  unfold usage_tick. pose proof Hc as Hc'. unfold cpu_ok in Hc'. rewrite (proj2 (Z.ltb_lt c MAX_CPUS)) by (unfold MAX_CPUS; lia).
  destruct (oget_is_ret (g_cpus s) c) as (y & -> & Hy); [lia|]. cbn [obind].
  assert (curr (g_cpus s) c = current_process y) as Ecur by (unfold curr; by rewrite Hy).
  assert (∃ b, (if current_process y =? 0 then Ret false
    else let* p := getp (procs s) (current_process y) in
         Ret (bool_decide (state p = RUNNING) && negb (scheduler_is_idle_process (current_process y)))) = Ret b) as (b & ->).
  { destruct (Z.eqb_spec (current_process y) 0) as [|Hne]; [by eexists|].
    destruct (c_current _ _ _ _ _ _ _ Hcore c Hc) as (_ & v & Hv & _); [by rewrite Ecur|]. rewrite Ecur in Hv.
    destruct (getp_view _ _ _ Hv) as (p & -> & _). by eexists. }
  cbn [obind]. rewrite oset_in by lia. cbn [obind].
  assert (∀ i z, g_cpus s !! i = Some z → ∃ z', <[Z.to_nat c := account b y]> (g_cpus s) !! i = Some z'
    ∧ online z' = online z ∧ current_process z' = current_process z) as Hput.
  { intros i z Hz. destruct (decide (Z.to_nat c = i)) as [<-|Hne].
    - rewrite list_lookup_insert_eq by lia. rewrite Hy in Hz. injection Hz as <-. eexists. split; [done|].
      unfold account. by destruct (1000 <=? _).
    - rewrite list_lookup_insert_ne by done. by exists z. }
  eexists. split; [done|]. split_and!; try done.
  - constructor; try done. simpl. apply (core_cpus None _ Q L _ (g_cpus s)); [done|by rewrite length_insert|done].
  - split_and!; try done. intros c' (Hcc & Hlt & z & Hz & Hoz). split; [done|]. split; [done|]. destruct (Hput _ z Hz) as (z' & ? & ? & ?).
    exists z'. split; [done|congruence].
  - simpl. rewrite Ecur. unfold curr. destruct (Hput _ y Hy) as (z' & Hz' & _ & E). by rewrite Hz'.
Qed.

(** The level of a process that is not queued may change. *)
Lemma core_relevel x V Q L h cpus n a v lv t :
  core x V Q L h cpus n → V !! a = Some v → state v ≠ READY → level_ok lv →
  core x (<[a := set_sched lv (sched_cpu v) t v]> V) Q L h cpus n.
Proof.
  intros Hcore Ha Hs Hlv. pose proof Hcore as [Hl Hnd Hpos Hdom Hsm Hrg Hq Hrd Hnc Hcur Hrun].
  constructor; try done.
  - by apply (linked_upd V h L a v (set_sched lv (sched_cpu v) t)).
  - by apply (dom_upd V L a v).
  - intros b w Hb. destruct (decide (a = b)) as [->|Hne]; [rewrite lookup_insert_eq; intros [= <-]|rewrite lookup_insert_ne by done; by apply Hrg].
    split; [|done]. by apply (Hrg b v).
  - intros c l b Hc Hlb Hb. destruct (Hq c l b Hc Hlb Hb) as (HL & w & Hw & E & ?). split; [done|].
    exists w. rewrite lookup_insert_ne; [done|]. intros ->. congruence.
  - intros b w Hb. destruct (decide (a = b)) as [->|Hne]; [rewrite lookup_insert_eq; intros [= <-] ?; done|rewrite lookup_insert_ne by done; by apply Hrd].
  - intros c Hc Hcc. destruct (Hcur c Hc Hcc) as (Hon & w & Hw & E). split; [done|].
    destruct (decide (a = curr cpus c)) as [->|Hne]; [|exists w; by rewrite lookup_insert_ne].
    eexists. rewrite lookup_insert_eq. split; [done|]. rewrite Ha in Hw. by injection Hw as ->.
  - intros b w Hb. destruct (decide (a = b)) as [->|Hne]; [rewrite lookup_insert_eq; intros [= <-]|rewrite lookup_insert_ne by done; by apply Hrun].
    apply (Hrun b v Hb Ha).
Qed.

Lemma charge_spec s Q L c v :
  inv None s Q L → view (procs s) !! c = Some v →
  ∃ s', charge_tick c s = Ret s' ∧ inv None s' Q L ∧ rest s' = rest s.
Proof.
  intros Hi Hv. unfold charge_tick.
  destruct (inert_upd None s Q L c v (λ p, set_sched (sched_level p) (sched_cpu p) (u32 (sched_ticks_used p + 1)) p) Hi Hv) as (ps & -> & Hi1 & V1);
    [done|done|]. cbn [obind].
  destruct (inert_upd None (with_procs ps s) Q L c (set_sched (sched_level v) (sched_cpu v) (u32 (sched_ticks_used v + 1)) v) (λ p, set_cpu_time (u64 (cpu_time_ms p + 1)) p) Hi1) as (ps2 & -> & Hi2 & _);
    [simpl; rewrite V1; apply lookup_insert_eq|done|done|]. by eexists.
Qed.

(** The process a core runs, unless it is the idle context, is listed. *)
Lemma current_listed x s Q L c :
  inv x s Q L → cpu_ok c → curr (g_cpus s) c ≠ 0 → scheduler_is_idle_process (curr (g_cpus s) c) = false →
  curr (g_cpus s) c ∈ L.
Proof.
  intros Hi Hc H0 Hid. destruct (c_current _ _ _ _ _ _ _ (i_core _ _ _ _ Hi) c Hc H0) as (_ & v & _ & _ & _ & [[? _]|(E & _)]); [done|].
  rewrite E in Hid. unfold scheduler_is_idle_process, idle_addr, cpu_ok in *. lia.
Qed.

Lemma quantum_spec s Q L c :
  inv None s Q L → on_line s c → curr (g_cpus s) c ∈ L →
  ∃ s' Q' L', quantum_tick c s = Ret s' ∧ inv None s' Q' L' ∧ frame s s'.
Proof.
  intros Hi Hon HcL. pose proof Hon as (Hc & _). pose proof Hi as [Hq Hcore _ _ _ _]. unfold quantum_tick.
  rewrite current_spec by (apply Hcore || done). cbn [obind].
  destruct (listed_some _ _ _ _ _ Hi HcL) as (v & Hv & Hpos). destruct (getp_view _ _ _ Hv) as (p & -> & Ev). cbn [obind].
  destruct (c_range _ _ _ _ _ _ _ Hcore _ v HcL Hv) as [_ Hl].
  assert (sched_level p = sched_level v) as El by (by rewrite Ev). rewrite El. unfold level_ok in Hl.
  rewrite (proj2 (Z.leb_gt SCHED_NUM_LEVELS (sched_level v))) by (unfold SCHED_NUM_LEVELS; lia).
  pose proof Hc as Hc'. unfold cpu_ok in Hc'. rewrite (proj2 (Z.ltb_lt c MAX_CPUS)) by (unfold MAX_CPUS; lia).
  destruct (qrep_oget _ _ _ c Hq Hc) as (q & -> & _). cbn [obind].
  assert (∀ s1, inv None s1 Q L → frame s s1 → ∃ s' Q' L', schedule c s1 = Ret s' ∧ inv None s' Q' L' ∧ frame s s') as Hsch.
  { intros s1 Hi1 F1. destruct (schedule_ok s1 Q L c Hi1) as (s' & Q' & E & ? & ?); [by apply F1|].
    eexists s', Q', _. split_and!; eauto with cint. }
  destruct (better_ready q (sched_level v)); [apply Hsch; auto with cint|].
  destruct (oget_is_ret sched_level_quantum_ticks (sched_level v)) as (quantum & -> & _); [simpl; lia|]. cbn [obind].
  destruct (quantum <=? sched_ticks_used p); [|exists s, Q, L; split_and!; auto with cint].
  assert (sched_cpu p = sched_cpu v) as -> by (by rewrite Ev).
  assert (∃ lv, (if sched_level v <? SCHED_NUM_LEVELS - 1 then u32 (sched_level v + 1) else sched_level v) = lv ∧ level_ok lv) as (lv & -> & Hlv).
  { unfold SCHED_NUM_LEVELS, level_ok. destruct (Z.ltb_spec (sched_level v) (3 - 1)); eexists; (split; [done|]).
    - rewrite u32_small by (unfold is_u32; lia). lia.
    - lia. }
  destruct (upd_spec s Q _ v (set_sched lv (sched_cpu v) 0) Hq Hv) as (ps & -> & Hq' & Hv'); [done|]. cbn [obind].
  apply Hsch; [|by apply frame_rest]. apply (inv_with None None s _ Q Q L L); try done. simpl. rewrite Hv'.
  apply core_relevel; try done.
  destruct (c_current _ _ _ _ _ _ _ Hcore c Hc) as (_ & w & Hw & Hne & _); [lia|]. congruence.
Qed.

Lemma tick_rest_spec s Q L c :
  inv None s Q L → on_line s c → ∃ s' Q' L', tick_rest c s = Ret s' ∧ inv None s' Q' L' ∧ frame s s'.
Proof.
  intros Hi Hon. pose proof Hon as (Hc & _). unfold tick_rest.
  rewrite current_spec by (apply Hi || done). cbn [obind].
  assert (∃ s1 Q1 L1, (if curr (g_cpus s) c =? 0 then schedule c s else Ret s) = Ret s1 ∧ inv None s1 Q1 L1 ∧ frame s s1) as
    (s1 & Q1 & L1 & -> & Hi1 & F1).
  { destruct (curr (g_cpus s) c =? 0); [|exists s, Q, L; split_and!; auto with cint].
    destruct (schedule_ok s Q L c Hi Hon) as (s' & Q' & ? & ? & ?). by eexists s', Q', _. }
  cbn [obind]. rewrite current_spec by (apply Hi1 || done). cbn [obind]. destruct (_ && _); [by exists s1, Q1, L1|].
  destruct (usage_spec s1 Q1 L1 c Hi1 Hc) as (s2 & -> & Hi2 & F2 & Ec & Ep). cbn [obind].
  assert (on_line s2 c) as Hon2 by (by apply F2, F1).
  destruct ((curr (g_cpus s) c =? 0) || (curr (g_cpus s1) c =? 0)) eqn:E0; [exists s2, Q1, L1; split_and!; eauto with cint|].
  apply orb_false_iff in E0 as [_ E0%Z.eqb_neq].
  destruct (scheduler_is_idle_process (curr (g_cpus s1) c)) eqn:Eid.
  { destruct (qrep_oget _ _ _ c (i_q _ _ _ _ Hi2) Hc) as (q & -> & _). cbn [obind].
    destruct (0 <? rq_total q); [|exists s2, Q1, L1; split_and!; eauto with cint].
    destruct (schedule_ok s2 Q1 L1 c Hi2 Hon2) as (s' & Q' & ? & ? & ?). eexists s', Q', _. split_and!; eauto with cint. }
  rewrite <- Ec in *. pose proof (current_listed None s2 Q1 L1 c Hi2 Hc E0 Eid) as HcL.
  destruct (listed_some _ _ _ _ _ Hi2 HcL) as (v & Hv & _).
  destruct (charge_spec s2 Q1 L1 _ v Hi2 Hv) as (s3 & -> & Hi3 & R3). cbn [obind].
  set (s3' := with_counts _ _ _ s3). assert (inv None s3' Q1 L1) as Hi3' by (by apply inv_counts).
  assert (frame s s3' ∧ g_cpus s3' = g_cpus s2) as [F3 G3].
  { split; [|change (g_cpus s3') with (g_cpus (rest s3)); by rewrite R3].
    apply (frame_trans _ s3); [|by split_and!]. eauto with cint. }
  clearbody s3'. cbv zeta.
  assert (∀ t s4 Q4, inv None s4 Q4 L1 → frame s s4 → g_cpus s4 = g_cpus s2 →
    ∃ s5 Q5, (if t mod SCHED_BOOST_INTERVAL_TICKS =? 0 then scheduler_priority_boost s4 else Ret s4) = Ret s5
      ∧ inv None s5 Q5 L1 ∧ frame s s5 ∧ g_cpus s5 = g_cpus s2) as Hb.
  { intros t s4 Q4 Hi4 F4 G4. destruct (_ =? 0); [|by exists s4, Q4].
    destruct (boost_spec None s4 Q4 L1 Hi4) as (s5 & Q5 & ? & ? & R5 & _). exists s5, Q5. split_and!; eauto with cint.
    change (g_cpus s5) with (g_cpus (rest s5)). by rewrite R5. }
  assert (∀ t s4 Q4, inv None s4 Q4 L1 → frame s s4 → g_cpus s4 = g_cpus s2 →
    ∃ s5 Q5, (if t mod SCHED_REBALANCE_INTERVAL_TICKS =? 0 then scheduler_rebalance s4 else Ret s4) = Ret s5
      ∧ inv None s5 Q5 L1 ∧ frame s s5 ∧ g_cpus s5 = g_cpus s2) as Hr.
  { intros t s4 Q4 Hi4 F4 G4. destruct (_ =? 0); [|by exists s4, Q4].
    destruct (rebalance_spec None s4 Q4 L1 Hi4) as (s5 & Q5 & ? & ? & R5 & _). exists s5, Q5. split_and!; eauto with cint.
    change (g_cpus s5) with (g_cpus (rest s5)). by rewrite R5. }
  destruct (Hb (u64 (g_global_tick_count s3 + 1)) s3' Q1 Hi3' F3 G3) as (s4 & Q4 & -> & Hi4 & F4 & G4). cbn [obind].
  destruct (Hr (u64 (g_global_tick_count s3 + 1)) s4 Q4 Hi4 F4 G4) as (s5 & Q5 & -> & Hi5 & F5 & G5). cbn [obind].
  destruct (quantum_spec s5 Q5 L1 c Hi5) as (s6 & Q6 & L6 & E6 & Hi6 & F6); [by apply F5|by rewrite G5|].
  exists s6, Q6, L6. split_and!; eauto with cint.
Qed.

Lemma tick_spec s Q L c now :
  inv None s Q L → on_line s c → ∃ s' Q' L', scheduler_tick c now s = Ret s' ∧ inv None s' Q' L' ∧ frame s s'.
Proof.
  intros Hi Hon. pose proof Hon as (Hc & _). unfold scheduler_tick.
  destruct (scheduler_on s); [|exists s, Q, L; split_and!; auto with cint]. cbn [negb].
  destruct (wake_spec s Q L c now Hi Hc) as (s1 & Q1 & -> & Hi1 & R1 & _). cbn [obind].
  assert (frame s s1) as F1 by auto with cint.
  destruct (expire_spec c now s1 Q1 L Hi1) as (b & s2 & Q2 & L2 & -> & Hi2 & F2); [by apply F1|]. cbn [obind fst snd].
  destruct b; [exists s2, Q2, L2; split_and!; eauto with cint|].
  destruct (tick_rest_spec s2 Q2 L2 c Hi2) as (s3 & Q3 & L3 & E & Hi3 & F3); [by apply F2, F1|].
  exists s3, Q3, L3. split_and!; eauto with cint.
Qed.

(** ** The other operations *)

(** Stopping the process of a core, in place: it is in no queue. *)
Lemma inv_stop_current s Q L c v st :
  inv None s Q L → cpu_ok c → curr (g_cpus s) c ∈ L → view (procs s) !! curr (g_cpus s) c = Some v →
  st ≠ READY → st ≠ RUNNING →
  ∃ ps, upd (set_state st) (curr (g_cpus s) c) s = Ret (with_procs ps s) ∧ inv (Some c) (with_procs ps s) Q L
    ∧ (st ≠ WAITING → inv None (with_procs ps s) Q L).
Proof.
  intros Hi Hc HcL Hv S1 S2. pose proof Hi as [Hq Hcore _ _ _ _]. set (a := curr (g_cpus s) c) in *.
  pose proof (c_pos _ _ _ _ _ _ _ Hcore a HcL) as Hpos.
  destruct (c_current _ _ _ _ _ _ _ Hcore c Hc) as (_ & w & Hw & Hnr & _ & Hwhere); [fold a; lia|]. fold a in Hw, Hwhere.
  rewrite Hv in Hw. injection Hw as <-.
  assert (sched_cpu v = c) as Ec by (destruct Hwhere as [[_ ?]|(E & _)]; [done|unfold idle_addr, cpu_ok in *; lia]).
  assert (∀ c', cpu_ok c' → curr (g_cpus s) c' = a → c' = c) as Huniq.
  { intros c' Hc' E. destruct (c_current _ _ _ _ _ _ _ Hcore c' Hc') as (_ & w & Hw & _ & _ & [[_ E2]|(E2 & _)]); [lia| |].
    - rewrite E in Hw. congruence.
    - unfold idle_addr, cpu_ok in *. lia. }
  destruct (upd_spec s Q a v (set_state st) Hq Hv) as (ps & -> & Hq' & Hv'); [done|]. exists ps. split; [done|].
  assert (∀ x, (st = WAITING → x = Some c) → core x (view (procs s)) Q L (proc_list_head s) (g_cpus s) (g_cpu_count s) →
    inv x (with_procs ps s) Q L) as H.
  { intros x Hx Hcx. apply (inv_with None x s _ Q Q L L); try done. simpl. rewrite Hv'. apply (core_stop x _ Q Q L _ _ _ a v); try done.
    - intros Hw c' Hc' E. rewrite (Huniq c' Hc' E). by apply Hx.
    - intros c' l b Hc' Hl. split; [|tauto]. intros Hb. split; [done|]. intros ->.
      by apply (not_ready_unqueued _ _ _ _ _ _ _ a v Hcore Hv Hnr c' l). }
  split; [apply H; [done|by apply core_strengthen]|]. intros Hst. by apply H.
Qed.

Definition has_work (s : sched) (c : Z) : bool :=
  match g_runqueues s !! Z.to_nat c with Some q => existsb (λ h, negb (h =? 0)) (head q) | None => false end.

Lemma has_work_top x s Q L c : inv x s Q L → cpu_ok c → has_work s c = true → top (Q c) ≠ None.
Proof.
  intros Hi Hc Hw Ht. destruct (qr_rep _ _ _ (i_q _ _ _ _ Hi) c Hc) as (q & E & Hr). unfold has_work in Hw. rewrite E in Hw.
  assert (level_ok 0 ∧ level_ok 1 ∧ level_ok 2) as (L0 & L1 & L2) by (unfold level_ok; lia).
  pose proof (lr_head _ _ _ _ (rr_levels _ _ _ Hr 0 L0)) as H0. pose proof (lr_head _ _ _ _ (rr_levels _ _ _ Hr 1 L1)) as H1.
  pose proof (lr_head _ _ _ _ (rr_levels _ _ _ Hr 2 L2)) as H2. pose proof (rr_head _ _ _ Hr) as Hl.
  unfold top in Ht. destruct (decide (Q c 0 = [])) as [E0|]; [|done]. destruct (decide (Q c 1 = [])) as [E1|]; [|done].
  destruct (decide (Q c 2 = [])) as [E2|]; [|done]. rewrite E0 in H0. rewrite E1 in H1. rewrite E2 in H2.
  destruct (head q) as [|h0 [|h1 [|h2 [|? ?]]]]; [done..| |done].
  change (Z.to_nat 1) with 1%nat in H1. change (Z.to_nat 2) with 2%nat in H2. simpl in H0, H1, H2.
  injection H0 as ->. injection H1 as ->. injection H2 as ->. done.
Qed.

Lemma sleep_spec s Q L c now ms :
  inv None s Q L → on_line s c → curr (g_cpus s) c ∈ L → c ≠ 0 ∨ has_work s c = true →
  ∃ s' Q' L', sleep c now ms s = Ret s' ∧ inv None s' Q' L' ∧ frame s s'.
Proof.
  intros Hi Hon HcL Hw. pose proof Hon as (Hc & _). unfold sleep.
  destruct (ms =? 0); [exists s, Q, L; split_and!; auto with cint|].
  rewrite current_spec by (apply Hi || done). cbn [obind].
  destruct (listed_some _ _ _ _ _ Hi HcL) as (v & Hv & Hpos). rewrite (proj2 (Z.eqb_neq _ 0)) by lia.
  destruct (inert_upd None s Q L _ v (set_wake (u64 (now + ms))) Hi Hv) as (ps & -> & Hi1 & V1); [done|done|]. cbn [obind].
  destruct (inv_stop_current (with_procs ps s) Q L c (set_wake (u64 (now + ms)) v) WAITING Hi1 Hc HcL) as (ps2 & E2 & Hi2 & _); try done.
  { simpl. rewrite V1. apply lookup_insert_eq. }
  simpl in E2. rewrite E2. cbn [obind]. set (s2 := with_procs ps2 _).
  destruct (schedule_spec s2 Q L c Hi2 Hon) as (s' & Q' & E & Hi' & _ & F & _).
  eexists s', Q', _. split; [done|]. split; [|done]. apply Hi'.
  destruct Hw as [|Hw]; [by left|]. right. left. by eapply has_work_top.
Qed.

Lemma exit_spec s Q L c code cr vec :
  inv None s Q L → on_line s c → curr (g_cpus s) c ∈ L →
  ∃ s' Q' L', process_exit_with_status c code cr vec s = Ret s' ∧ inv None s' Q' L' ∧ frame s s'.
Proof.
  intros Hi Hon HcL. pose proof Hon as (Hc & _). unfold process_exit_with_status.
  rewrite current_spec by (apply Hi || done). cbn [obind].
  destruct (listed_some _ _ _ _ _ Hi HcL) as (v & Hv & Hpos). rewrite (proj2 (Z.eqb_neq _ 0)) by lia.
  destruct (inert_upd None s Q L _ v (set_exit code cr vec) Hi Hv) as (ps & -> & Hi1 & V1); [done|done|]. cbn [obind].
  assert (view ps !! curr (g_cpus s) c = Some (set_exit code cr vec v)) as Hv1 by (rewrite V1; apply lookup_insert_eq).
  destruct (getp_view ps _ _ Hv1) as (p & Ep & _). cbn [procs with_procs]. rewrite Ep. cbn [obind].
  destruct (inv_stop_current (log [EvExit (pid p); EvExited (pid p) code cr vec] (with_procs ps s)) Q L c _ TERMINATED
    (inv_log _ _ _ _ _ Hi1) Hc HcL Hv1) as (ps2 & E2 & _ & Hi2); [done|done|].
  simpl in E2. rewrite E2. cbn [obind]. set (s2 := with_procs ps2 _) in *.
  destruct (schedule_ok s2 Q L c) as (s' & Q' & E & Hi' & F'); [by apply Hi2|done|]. eexists s', Q', _. split_and!; try done. 
Qed.

Lemma find_pid_spec x s Q L n fuel : ∀ don todo,
  inv x s Q L → L = don ++ todo → (length todo < fuel)%nat →
  ∃ a, find_pid fuel (procs s) n (default 0 (todo !! 0%nat)) = Ret a
    ∧ (a = 0 ∧ (∀ b v, b ∈ todo → view (procs s) !! b = Some v → pid v ≠ n)
       ∨ a ∈ todo ∧ ∃ v, view (procs s) !! a = Some v ∧ pid v = n).
Proof.
  induction fuel as [|fuel IH]; intros don todo Hi HL Hf; [lia|]. cbn [find_pid]. destruct todo as [|a todo].
  { exists 0. split; [done|]. left. split; [done|]. set_solver. }
  change (default 0 ((a :: todo) !! 0%nat)) with a. cbn [length] in Hf.
  destruct (listed_some x s Q L a Hi) as (v & Hv & Hpos); [rewrite HL; set_solver|].
  rewrite (proj2 (Z.eqb_neq a 0)) by lia. destruct (getp_view _ _ _ Hv) as (p & -> & Ev). cbn [obind].
  assert (pid p = pid v ∧ next p = next v) as [-> ->] by (by rewrite Ev).
  destruct (Z.eqb_spec (pid v) n) as [E|Hne].
  { exists a. split; [done|]. right. split; [by left|]. by exists v. }
  rewrite (next_listed x s Q L don a todo v Hi HL Hv).
  destruct (IH (don ++ [a]) todo Hi) as (b & E & Hb); [by rewrite <- app_assoc|lia|]. exists b. split; [done|].
  destruct Hb as [[-> Hall]|[Hb ?]]; [left|right; split; [by right|done]]. split; [done|].
  intros b w [->|Hb]%elem_of_cons Hw; [congruence|by eapply Hall].
Qed.

Lemma find_spec x s Q L n :
  inv x s Q L →
  ∃ a, findProcessByPID n s = Ret a
    ∧ (a = 0 ∧ (∀ b v, b ∈ L → view (procs s) !! b = Some v → pid v ≠ n)
       ∨ a ∈ L ∧ 0 < a ∧ ∃ v p, view (procs s) !! a = Some v ∧ getp (procs s) a = Ret p ∧ v = erase p ∧ pid v = n).
Proof.
  intros Hi. unfold findProcessByPID. destruct (c_list _ _ _ _ _ _ _ (i_core _ _ _ _ Hi)) as [-> _].
  pose proof (size_listed _ _ _ _ Hi). destruct (find_pid_spec x s Q L n (S (size (procs s))) [] L Hi) as (a & E & Ha); [done|lia|].
  exists a. split; [done|]. destruct Ha as [?|(HaL & v & Hv & Hp)]; [by left|right].
  destruct (listed_some _ _ _ _ a Hi HaL) as (_ & _ & Hpos). destruct (getp_view _ _ _ Hv) as (p & ? & ?). by eauto 10.
Qed.

(** Stopping any process from core [c]; when it is the core's own the core
    goes on to the next one. *)
Lemma stop_spec s Q L c a v st l :
  inv None s Q L → on_line s c → a ∈ L → view (procs s) !! a = Some v → st ≠ READY → st ≠ RUNNING → st ≠ WAITING →
  ∃ s' Q' L', (let* s := upd (set_state st) a (log l s) in
               let* s := scheduler_dequeue a s in
               let* k := current c s in
               if a =? k then let* s := schedule c s in Ret (true, s) else Ret (true, s)) = Ret (true, s')
    ∧ inv None s' Q' L' ∧ frame s s'.
Proof.
  intros Hi Hon Ha Hv S1 S2 S3. pose proof Hon as (Hc & _).
  destruct (inv_stop None (log l s) Q L a v st (inv_log _ _ _ _ _ Hi) Ha Hv) as (s1 & E1 & Hi1 & R1 & V1); try done.
  destruct (upd (set_state st) a (log l s)) as [s2| | |]; [|done..]. cbn [obind] in E1 |- *. rewrite E1. cbn [obind].
  rewrite current_spec by (apply Hi1 || done). cbn [obind].
  assert (frame s s1) as F1 by (eapply frame_trans; [apply (frame_log s l)|by apply frame_rest]).
  destruct (a =? curr (g_cpus s1) c); [|by exists s1, (unlink a Q), L].
  destruct (schedule_ok s1 _ L c Hi1) as (s' & Q' & -> & Hi' & F'); [by apply F1|]. eexists s', Q', _. split_and!; eauto with cint.
Qed.

Lemma log_nil s : log [] s = s.
Proof. unfold log. rewrite app_nil_r. by destruct s. Qed.

Lemma kill_pid_spec s Q L c n :
  inv None s Q L → on_line s c → ∃ b s' Q' L', killProcess c n s = Ret (b, s') ∧ inv None s' Q' L' ∧ frame s s'.
Proof.
  intros Hi Hon. unfold killProcess. destruct (n =? 0); [exists false, s, Q, L; split_and!; auto with cint|].
  destruct (find_spec None s Q L n Hi) as (a & -> & Ha). cbn [obind].
  destruct Ha as [[-> _]|(HaL & Hpos & v & p & Hv & Ep & Ev & _)]; [exists false, s, Q, L; split_and!; auto with cint|].
  rewrite (proj2 (Z.eqb_neq a 0)) by lia. rewrite Ep. cbn [obind].
  destruct (dead (state p)); [exists false, s, Q, L; split_and!; auto with cint|].
  destruct (stop_spec s Q L c a v ZOMBIE [EvExit (pid p)] Hi Hon HaL Hv) as (s' & Q' & L' & -> & ? & ?); try done.
  by exists true, s', Q', L'.
Qed.

Lemma pause_spec s Q L c n :
  inv None s Q L → on_line s c → ∃ b s' Q' L', pauseProcess c n s = Ret (b, s') ∧ inv None s' Q' L' ∧ frame s s'.
Proof.
  intros Hi Hon. unfold pauseProcess. destruct (find_spec None s Q L n Hi) as (a & -> & Ha). cbn [obind].
  destruct Ha as [[-> _]|(HaL & Hpos & v & p & Hv & Ep & Ev & _)]; [exists false, s, Q, L; split_and!; auto with cint|].
  rewrite (proj2 (Z.eqb_neq a 0)) by lia. rewrite Ep. cbn [obind].
  destruct (_ || _); [exists false, s, Q, L; split_and!; auto with cint|].
  destruct (stop_spec s Q L c a v PAUSED [] Hi Hon HaL Hv) as (s' & Q' & L' & E & ? & ?); try done. rewrite log_nil in E. rewrite E.
  by exists true, s', Q', L'.
Qed.

Lemma cleanup_request_spec s Q L c now n :
  inv None s Q L → on_line s c → ∃ b s' Q' L', requestProcessCleanup c now n s = Ret (b, s') ∧ inv None s' Q' L' ∧ frame s s'.
Proof.
  intros Hi Hon. unfold requestProcessCleanup. destruct (find_spec None s Q L n Hi) as (a & -> & Ha). cbn [obind].
  destruct Ha as [[-> _]|(HaL & Hpos & v & p & Hv & Ep & Ev & _)]; [exists false, s, Q, L; split_and!; auto with cint|].
  rewrite (proj2 (Z.eqb_neq a 0)) by lia. rewrite Ep. cbn [obind].
  destruct (_ || _); [exists false, s, Q, L; split_and!; auto with cint|].
  destruct (cleanup_entry p =? 0); [by apply kill_pid_spec with Q L|].
  destruct (inert_upd None s Q L a v (set_cleanup true false (u64 (now + 1000))) Hi Hv) as (ps & -> & Hi1 & _); [done|done|].
  exists true, (with_procs ps s), Q, L. split_and!; auto with cint.
Qed.

Lemma register_spec s Q L c entry :
  inv None s Q L → cpu_ok c → ∃ b s', register_cleanup c entry s = Ret (b, s') ∧ inv None s' Q L ∧ frame s s'.
Proof.
  intros Hi Hc. unfold register_cleanup. rewrite current_spec by (apply Hi || done). cbn [obind].
  destruct ((curr (g_cpus s) c =? 0) || (entry =? 0)) eqn:E; [exists false, s; split_and!; auto with cint|].
  apply orb_false_iff in E as [E%Z.eqb_neq _].
  destruct (c_current _ _ _ _ _ _ _ (i_core _ _ _ _ Hi) c Hc E) as (_ & v & Hv & _).
  destruct (getp_view _ _ _ Hv) as (p & -> & _). cbn [obind].
  destruct (decide (priv p = USER)); [|exists false, s; split_and!; auto with cint].
  destruct (inert_upd None s Q L _ v (λ p, set_cleanup false false (cleanup_deadline_ms p) (set_cleanup_entry entry p)) Hi Hv)
    as (ps & -> & Hi1 & _); [done|done|]. exists true, (with_procs ps s). split_and!; auto with cint.
Qed.

Lemma kill_spec s Q L a :
  inv None s Q L → a = 0 ∨ a ∈ L → ∃ s' Q', kill a s = Ret s' ∧ inv None s' Q' L ∧ frame s s'.
Proof.
  intros Hi Ha. unfold kill. destruct (Z.eqb_spec a 0) as [|H0]; [exists s, Q; split_and!; auto with cint|].
  destruct Ha as [?|Ha]; [done|]. destruct (listed_some _ _ _ _ a Hi Ha) as (v & Hv & Hpos).
  destruct (getp_view _ _ _ Hv) as (p & -> & _). cbn [obind].
  destruct (inv_stop None (log [EvExit (pid p)] s) Q L a v ZOMBIE (inv_log _ _ _ _ _ Hi) Ha Hv) as (s1 & E1 & Hi1 & R1 & V1); try done.
  rewrite E1. exists s1, (unlink a Q). split_and!; try done. eapply frame_trans; [apply (frame_log s [EvExit (pid p)])|by apply frame_rest].
Qed.

(** No core runs [a]. *)
Definition off_core (s : sched) (a : Z) : Prop := ∀ c, cpu_ok c → curr (g_cpus s) c ≠ a.

Lemma start_spec s Q L a :
  inv None s Q L → a = 0 ∨ a ∈ L ∧ off_core s a →
  ∃ s' Q', proc_start a s = Ret s' ∧ inv None s' Q' L ∧ frame s s'.
Proof.
  intros Hi Ha. unfold proc_start. destruct (Z.eqb_spec a 0) as [|H0]; [exists s, Q; split_and!; auto with cint|].
  destruct Ha as [?|[Ha Hoff]]; [done|]. destruct (listed_some _ _ _ _ a Hi Ha) as (v & Hv & Hpos).
  destruct (getp_view _ _ _ Hv) as (p & -> & Ev). cbn [obind].
  destruct (decide (state p = PAUSED)) as [Hs|]; [|exists s, Q; split_and!; auto with cint].
  assert (state v = PAUSED) as Hsv by (by rewrite Ev).
  pose proof (pick_least_loaded_ok None s Q L Hi) as Hc.
  destruct (inv_resume None s Q L a v (pick_least_loaded_cpu s) Hi Ha Hv) as (s1 & s' & -> & E & Hi' & R1 & G1 & R' & _); try done; [by rewrite Hsv|].
  cbn [obind]. unfold scheduler_enqueue_new. rewrite (proj2 (Z.eqb_neq a 0)) by lia.
  assert (pick_least_loaded_cpu s1 = pick_least_loaded_cpu s) as ->.
  { unfold pick_least_loaded_cpu. rewrite G1. change (g_online_cpu_count s1) with (g_online_cpu_count (rest s1)). by rewrite R1. }
  unfold SCHED_LEVEL_INTERACTIVE. rewrite E. exists s', (add_to Q (pick_least_loaded_cpu s) 0 a). split_and!; auto with cint.
Qed.

Lemma unpause_spec s Q L n :
  inv None s Q L → (∀ a v, view (procs s) !! a = Some v → pid v = n → 0 < a → off_core s a) →
  ∃ b s' Q', unpauseProcess n s = Ret (b, s') ∧ inv None s' Q' L ∧ frame s s'.
Proof.
  intros Hi Hoff. unfold unpauseProcess. destruct (find_spec None s Q L n Hi) as (a & -> & Ha). cbn [obind].
  destruct Ha as [[-> _]|(HaL & Hpos & v & p & Hv & Ep & Ev & Hn)]; [exists false, s, Q; split_and!; auto with cint|].
  rewrite (proj2 (Z.eqb_neq a 0)) by lia. rewrite Ep. cbn [obind].
  destruct (decide (state p = PAUSED)) as [Hs|]; [|exists false, s, Q; split_and!; auto with cint].
  assert (state v = PAUSED) as Hsv by (by rewrite Ev).
  destruct (c_range _ _ _ _ _ _ _ (i_core _ _ _ _ Hi) a v HaL Hv) as [Hc _].
  destruct (inv_resume None s Q L a v (sched_cpu v) Hi HaL Hv) as (s1 & s' & -> & E & Hi' & R1 & G1 & R' & V1 & _); try done; [by rewrite Hsv|by eapply Hoff|].
  cbn [obind]. unfold scheduler_enqueue_existing. rewrite (proj2 (Z.eqb_neq a 0)) by lia.
  destruct (getp_view (procs s1) a (set_state READY v)) as (p1 & -> & E1); [rewrite V1; apply lookup_insert_eq|]. cbn [obind].
  assert (sched_cpu p1 = sched_cpu v) as -> by (by apply (f_equal sched_cpu) in E1).
  pose proof Hc as Hc'. unfold cpu_ok in Hc'. rewrite (proj2 (Z.leb_gt MAX_CPUS (sched_cpu v))) by (unfold MAX_CPUS; lia).
  unfold SCHED_LEVEL_INTERACTIVE. rewrite E. cbn [obind]. exists true, s', (add_to Q (sched_cpu v) 0 a). split_and!; auto with cint.
Qed.

(** ** Creation *)

(** The state once the new block is linked, with any state in the block. *)
Definition linked_in (a : Z) (p : process) (s : sched) : sched :=
  with_head a (with_procs (<[a := p]> (procs s)) (with_pid (u64 (pid_counter s + 1)) s)).

Lemma create_parked s Q L a p :
  inv None s Q L → 0 < a → procs s !! a = None → Z.of_nat (length L) + 1 < 2 ^ 30 →
  state p = PAUSED → next p = proc_list_head s → sched_cpu p = 0 → sched_level p = 0 →
  inv None (linked_in a p s) Q (a :: L).
Proof.
  intros Hi Ha Hnone Hlen Hs Hn Hc Hl. pose proof Hi as [Hq Hcore Hd Ht Hcn Ho].
  assert (view (procs s) !! a = None) as HV by (by rewrite view_lookup, Hnone).
  assert (a ∉ L) as HaL. { intros HaL. destruct (proj2 (c_dom _ _ _ _ _ _ _ Hcore a) (or_introl HaL)) as [? ?]. congruence. }
  constructor; try done; simpl.
  - apply (qrep_ext (procs s)); [done|]. intros c l b Hcc Hll Hb. unfold rqn. rewrite lookup_insert_ne; [done|].
    intros <-. apply HaL. by apply (c_queued _ _ _ _ _ _ _ Hcore c l).
  - unfold view. rewrite fmap_insert. apply (core_create None _ Q L (proc_list_head s)); simpl; try done; rewrite ?Hs, ?Hc, ?Hl; try done; unfold cpu_ok, level_ok; lia.
Qed.

Lemma create_user_spec s Q L r a :
  inv None s Q L → 0 < a → procs s !! a = None → Z.of_nat (length L) + 1 < 2 ^ 30 →
  ∃ s', createUserProcess r a s = Ret s' ∧ inv None s' Q (a :: L).
Proof.
  intros Hi Ha Hnone Hlen. unfold createUserProcess, proc_create_ex. cbv zeta. unfold upd. cbn [procs with_head with_procs with_pid proc_list_head pid_counter].
  rewrite (updp_ret _ _ _ _ (lookup_insert_eq _ _ _)). cbn [obind]. rewrite insert_insert_eq.
  pose proof (create_parked s Q L a (set_state PAUSED (new_process USER r 0 (pid_counter s) (proc_list_head s))) Hi Ha Hnone Hlen) as H.
  eexists. split; [done|]. by apply H.
Qed.

Lemma create_kernel_spec s Q L r a :
  inv None s Q L → 0 < a → procs s !! a = None → Z.of_nat (length L) + 1 < 2 ^ 30 →
  let c := pick_least_loaded_cpu s in
  ∃ s', createProcess r a s = Ret s' ∧ inv None s' (add_to Q c 0 a) (a :: L).
Proof.
  intros Hi Ha Hnone Hlen c. set (b := new_process KERNEL r 0 (pid_counter s) (proc_list_head s)).
  pose proof (create_parked s Q L a (set_state PAUSED b) Hi Ha Hnone Hlen eq_refl eq_refl eq_refl eq_refl) as Hi1.
  set (s1 := linked_in a (set_state PAUSED b) s) in *.
  assert (cpu_ok c) as Hc by (by eapply pick_least_loaded_ok).
  assert (view (procs s1) !! a = Some (set_state PAUSED b)) as Hv by (unfold s1; simpl; by rewrite view_lookup, lookup_insert_eq).
  destruct (inv_make_ready None s1 Q (a :: L) a (set_state PAUSED b) c (λ p, set_sched 0 c 0 (set_state READY p)) Hi1) as
    (ps & s' & E & E2 & Hi' & _ & Hv'); try done; [by left| |].
  { intros c' Hc' Ec. change (curr (g_cpus s1) c') with (curr (g_cpus s) c') in Ec.
    destruct (c_current _ _ _ _ _ _ _ (i_core _ _ _ _ Hi) c' Hc') as (_ & w & Hw & _); [lia|].
    rewrite Ec, view_lookup, Hnone in Hw. done. }
  assert (upd (set_sched 0 c 0) a (linked_in a b s) = Ret (with_procs ps s1)) as E1.
  { rewrite <- E. unfold upd, s1, linked_in. cbn [procs with_head with_procs with_pid].
    rewrite !(updp_ret _ _ _ _ (lookup_insert_eq _ _ _)). cbn [obind]. by rewrite !insert_insert_eq. }
  unfold createProcess, proc_create_ex. cbv zeta. unfold scheduler_enqueue_new. rewrite (proj2 (Z.eqb_neq a 0)) by lia.
  match goal with |- context [upd (set_sched _ ?k _)] => change k with c end. unfold SCHED_LEVEL_INTERACTIVE.
  match goal with |- context [upd (set_sched 0 c 0) a ?k] => change k with (linked_in a b s) end.
  rewrite E1. cbn [obind]. rewrite E2. cbn [obind]. unfold createProcess_tail.
  assert (view (procs s') !! a = Some (set_sched 0 c 0 (set_state READY (set_state PAUSED b)))) as Hva by (rewrite Hv'; apply lookup_insert_eq).
  destruct (upd_spec s' _ a _ (set_state READY) (i_q _ _ _ _ Hi') Hva) as (ps2 & -> & Hq2 & V2); [done|].
  eexists. split; [done|]. apply (inv_with None None s' _ (add_to Q c 0 a) _ (a :: L) _); try done. simpl. rewrite V2.
  rewrite insert_id; [apply Hi'|]. exact Hva.
Qed.

(** ** Another core *)

Lemma online_spec s Q L :
  inv None s Q L → g_cpu_count s < 16 → g_online_cpu_count s < 16 →
  ∃ s', ap_online s = Ret s' ∧ inv None s' Q L ∧ (∀ c, on_line s c → on_line s' c) ∧ on_line s' (g_cpu_count s).
Proof.
  intros Hi H1 H2. pose proof Hi as [Hq Hcore Hd Ht Hn Ho]. pose proof (c_ncpu _ _ _ _ _ _ _ Hcore) as Hl.
  unfold ap_online. destruct (oget_is_ret (g_cpus s) (g_cpu_count s)) as (y & -> & Hy); [lia|]. cbn [obind].
  rewrite oset_in by lia. cbn [obind]. set (k := g_cpu_count s) in *. set (y' := mk_cpu true _ _ _ _ _ _).
  rewrite !u32_small by (unfold is_u32; lia).
  set (cs := <[Z.to_nat k := y']> (g_cpus s)).
  assert (curr (g_cpus s) k = 0) as Hk0.
  { destruct (decide (curr (g_cpus s) k = 0)) as [|Hne]; [done|].
    destruct (c_current _ _ _ _ _ _ _ Hcore k) as ((Hlt & _) & _); [unfold cpu_ok; lia|done|]. fold k in Hlt. lia. }
  assert (∀ c, cpu_ok c → curr cs c = curr (g_cpus s) c) as Hcc.
  { intros c Hc. unfold cs, curr. unfold cpu_ok in Hc. destruct (decide (c = k)) as [->|Hne].
    - rewrite list_lookup_insert_eq by lia. unfold curr in Hk0. by rewrite Hy in *.
    - by rewrite list_lookup_insert_ne by lia. }
  assert (∀ c z, 0 ≤ c → c ≠ k → g_cpus s !! Z.to_nat c = Some z → cs !! Z.to_nat c = Some z) as Hoth.
  { intros c z H0 Hne Hz. unfold cs. by rewrite list_lookup_insert_ne by lia. }
  eexists. split; [done|]. split_and!.
  - constructor; try done; simpl; try lia. destruct Hcore as [Hli Hnd Hpos Hdom Hsm Hrg Hqd Hrd Hnc Hcur Hrun]. constructor; try done.
    + unfold cs. by rewrite length_insert.
    + intros c Hc. rewrite Hcc by done. intros H0. destruct (Hcur c Hc H0) as ((Hlt & z & Hz & Hoz) & Hrest). split; [|done].
      split; [lia|]. exists z. split; [|done]. apply Hoth; unfold cpu_ok in Hc; try lia; try done.
    + intros a v Ha Hv Hs. destruct (Hrg a v Ha Hv) as [Hr _]. rewrite Hcc by done. by apply Hrun.
  - intros c (Hc & Hlt & z & Hz & Hoz). split; [done|]. simpl. split; [lia|]. exists z. split; [|done].
    apply Hoth; unfold cpu_ok in Hc; try lia; try done.
  - split; [unfold cpu_ok; lia|]. simpl. split; [lia|]. exists y'. split; [|done]. unfold cs. apply list_lookup_insert_eq. lia.
Qed.

(** ** The state at boot *)

Definition no_queues : Z → Z → list Z := λ _ _, [].

Lemma idle_blocks_lookup a : is_Some (idle_blocks !! a) ↔ is_idle a.
Proof.
  unfold idle_blocks, is_idle. rewrite <- elem_of_dom, dom_list_to_map_L, elem_of_list_to_set.
  rewrite <- list_fmap_compose, list_elem_of_fmap. split.
  - intros (i & -> & Hi%elem_of_seq). simpl. unfold idle_addr. lia.
  - intros Ha. exists (Z.to_nat (-1 - a)). rewrite elem_of_seq. simpl. unfold idle_addr. split; lia.
Qed.

Lemma boot_inv : inv None sched_boot no_queues [].
Proof.
  constructor; [| |done|done|done|done].
  - split; [done| |intros c c' l l' a _ _ _ _ []%not_elem_of_nil]. intros c Hc. exists rq_empty. unfold cpu_ok in Hc.
    change (g_runqueues sched_boot) with (replicate 16 rq_empty). split; [apply lookup_replicate_2; lia|].
    split; try done; [|intros lv lv' a _ _ []%not_elem_of_nil].
    intros lv Hlv. unfold level_ok in Hlv.
    assert (lv = 0 ∨ lv = 1 ∨ lv = 2) as [->|[->| ->]] by lia; (split; [done|done|done|done|constructor|apply not_elem_of_nil]).
  - constructor.
    + split; [done|]. intros i a Hi. by rewrite lookup_nil in Hi.
    + constructor.
    + intros a []%not_elem_of_nil.
    + intros a. change (procs sched_boot) with idle_blocks. rewrite view_lookup, fmap_is_Some, idle_blocks_lookup.
      split; [by right|]. intros [[]%not_elem_of_nil|?]; done.
    + done.
    + intros a v []%not_elem_of_nil.
    + intros c l a _ _ []%not_elem_of_nil.
    + intros a v []%not_elem_of_nil.
    + done.
    + intros c Hc Hne. exfalso. apply Hne. unfold curr, cpu_ok in *. change (g_cpus sched_boot) with smp_init_bsp.
      destruct (decide (c = 0)) as [->|]; [done|]. unfold smp_init_bsp. rewrite lookup_cons_ne_0 by lia.
      rewrite lookup_replicate_2 by lia. done.
    + intros a v []%not_elem_of_nil.
Qed.

(** ** Every run is safe *)

(** When an operation may happen. A core acts once it is online; [sleep] and
    [process_exit] are called by a process, and on the boot core, which has
    no idle context, [sleep] needs other work there; a process is resumed
    only after its core has left it; a new block is fresh. *)
Definition runs (s : sched) (c : Z) : Prop := 0 < curr (g_cpus s) c.
Definition allowed (o : op) (s : sched) : Prop :=
  match o with
  | OInit => True
  | OOnline => g_cpu_count s < 16 ∧ g_online_cpu_count s < 16
  | OTick c _ | OSchedule c | OKillPid c _ | OCleanup c _ _ | ORegister c _ | OPause c _ => on_line s c
  | OSleep c _ _ => on_line s c ∧ runs s c ∧ (c ≠ 0 ∨ has_work s c = true)
  | OExit c _ _ _ => on_line s c ∧ runs s c
  | OKill a => a = 0 ∨ 0 < a ∧ is_Some (procs s !! a)
  | OUnpause n => ∀ a p, procs s !! a = Some p → pid p = n → 0 < a → off_core s a
  | OStart a => a = 0 ∨ 0 < a ∧ is_Some (procs s !! a) ∧ off_core s a
  | OCreate _ a | OCreateUser _ a => 0 < a ∧ procs s !! a = None ∧ Z.of_nat (size (procs s)) < 2 ^ 30 - 1
  end.

Inductive reach : sched → Prop :=
| reach_boot : reach sched_boot
| reach_step s s' o : reach s → allowed o s → exec o s = Ret s' → reach s'.

Lemma block_listed x s Q L a : inv x s Q L → 0 < a → is_Some (procs s !! a) → a ∈ L.
Proof.
  intros [_ Hcore _ _ _ _] Ha Hp. destruct (proj1 (c_dom _ _ _ _ _ _ _ Hcore a)) as [?|Hid]; [|done|].
  - by rewrite view_lookup, fmap_is_Some.
  - unfold is_idle in Hid. lia.
Qed.

Lemma runs_listed x s Q L c : inv x s Q L → cpu_ok c → runs s c → curr (g_cpus s) c ∈ L.
Proof.
  intros Hi Hc Hr. unfold runs in Hr. eapply current_listed; [done|done|lia|]. unfold scheduler_is_idle_process. lia.
Qed.

Lemma step_ok o s Q L : inv None s Q L → allowed o s → ∃ s' Q' L', exec o s = Ret s' ∧ inv None s' Q' L'.
Proof.
  intros Hi Ha. destruct o; simpl in Ha |- *.
  - eexists _, Q, L. split; [done|]. destruct Hi. by constructor.
  - destruct (online_spec s Q L Hi) as (s' & ? & ? & _); [tauto..|]. by eauto.
  - destruct (tick_spec s Q L cpu now Hi Ha) as (s' & Q' & L' & ? & ? & _). by eauto.
  - destruct (schedule_ok s Q L cpu Hi Ha) as (s' & Q' & ? & ? & _). by eauto.
  - destruct Ha as (Hon & Hr & Hw). pose proof Hon as (Hc & _).
    destruct (sleep_spec s Q L cpu now ms Hi Hon (runs_listed _ _ _ _ _ Hi Hc Hr) Hw) as (s' & Q' & L' & ? & ? & _). by eauto.
  - destruct Ha as (Hon & Hr). pose proof Hon as (Hc & _).
    destruct (exit_spec s Q L cpu code cr vec Hi Hon (runs_listed _ _ _ _ _ Hi Hc Hr)) as (s' & Q' & L' & ? & ? & _). by eauto.
  - destruct (kill_spec s Q L a Hi) as (s' & Q' & ? & ? & _); [|by eauto].
    destruct Ha as [?|[? ?]]; [by left|right; by eapply block_listed].
  - destruct (kill_pid_spec s Q L cpu n Hi Ha) as (b & s' & Q' & L' & -> & ? & _). by eauto.
  - destruct (cleanup_request_spec s Q L cpu now n Hi Ha) as (b & s' & Q' & L' & -> & ? & _). by eauto.
  - destruct Ha as (Hc & _). destruct (register_spec s Q L cpu entry Hi Hc) as (b & s' & -> & ? & _). by eauto.
  - destruct (pause_spec s Q L cpu n Hi Ha) as (b & s' & Q' & L' & -> & ? & _). by eauto.
  - destruct (unpause_spec s Q L n Hi) as (b & s' & Q' & -> & ? & _); [|by eauto].
    intros a v (p & Hp & ->)%view_some. simpl. by apply Ha.
  - destruct (start_spec s Q L a Hi) as (s' & Q' & ? & ? & _); [|by eauto].
    destruct Ha as [?|(? & ? & ?)]; [by left|right; split; [by eapply block_listed|done]].
  - destruct Ha as (H0 & Hn & Hsz). pose proof (size_listed _ _ _ _ Hi).
    destruct (create_kernel_spec s Q L r a Hi H0 Hn) as (s' & ? & ?); [lia|]. by eauto.
  - destruct Ha as (H0 & Hn & Hsz). pose proof (size_listed _ _ _ _ Hi).
    destruct (create_user_spec s Q L r a Hi H0 Hn) as (s' & ? & ?); [lia|]. by eauto.
Qed.

Lemma reach_inv s : reach s → ∃ Q L, inv None s Q L.
Proof.
  induction 1 as [|s s' o _ (Q & L & Hi) Ha E]; [exists no_queues, []; apply boot_inv|].
  destruct (step_ok o s Q L Hi Ha) as (s'' & Q' & L' & E' & Hi'). rewrite E in E'. injection E' as <-. by exists Q', L'.
Qed.

(** For concrete runs. *)
Definition after (o : op) (s : sched) : sched := match exec o s with Ret s' => s' | _ => s end.
Lemma reach_after o s : reach s → allowed o s → reach (after o s).
Proof.
  intros Hr Ha. destruct (reach_inv s Hr) as (Q & L & Hi). destruct (step_ok o s Q L Hi Ha) as (s' & _ & _ & E & _).
  apply (reach_step s _ o); [done|done|]. unfold after. by rewrite E.
Qed.

Definition a_stack : resources := mk_res 65536 false 0 0 0 0 0.
Definition two_cores : sched :=
  after (OCreate a_stack 200) (after (OCreate a_stack 100) (after OInit (after OOnline sched_boot))).

Lemma fresh_block (s : sched) (a : Z) (b : bool) :
  b = (0 <? a) && bool_decide (procs s !! a = None) && (Z.of_nat (size (procs s)) <? 2 ^ 30 - 1) → b = true →
  0 < a ∧ procs s !! a = None ∧ Z.of_nat (size (procs s)) < 2 ^ 30 - 1.
Proof.
  intros -> ((H1%Z.ltb_lt & H2%bool_decide_eq_true)%andb_prop & H3%Z.ltb_lt)%andb_prop. done.
Qed.

Lemma two_cores_reach : reach two_cores.
Proof.
  unfold two_cores. apply reach_after; [apply reach_after; [apply reach_after; [apply reach_after; [apply reach_boot|]|]|]|].
  - by vm_compute.
  - exact I.
  - eapply fresh_block; [reflexivity|by vm_compute].
  - eapply fresh_block; [reflexivity|by vm_compute].
Qed.

Lemma on_line_check s c y :
  (0 <=? c) && (c <? 16) && (c <? g_cpu_count s) = true → g_cpus s !! Z.to_nat c = Some y → online y = true → on_line s c.
Proof. intros H Hy Ho. unfold on_line, cpu_ok. split; [lia|]. split; [lia|]. by exists y. Qed.

(** C5. From boot on, in any order of the operations of any number of cores (each
    under its guard), the invariant holds, and every allowed operation
    returns: no freed block is followed, no list or queue walk hangs and
    nothing panics. *)
Theorem sched_safe s :
  reach s → (∃ Q L, inv None s Q L) ∧ ∀ o, allowed o s → ∃ s', exec o s = Ret s'.
Proof.
  intros Hr. destruct (reach_inv s Hr) as (Q & L & Hi). split; [by exists Q, L|].
  intros o Ha. destruct (step_ok o s Q L Hi Ha) as (s' & _ & _ & E & _). by exists s'.
Qed.

Lemma sched_safe_witness : reach two_cores ∧ ∃ s', exec (OTick 1 5) two_cores = Ret s'.
Proof.
  split; [exact two_cores_reach|]. apply (sched_safe two_cores two_cores_reach).
  eapply on_line_check; by vm_compute.
Defined.

(** C7. No process is lost and none is in two places: in a reachable state the
    blocks are the listed processes, a process is READY exactly when it is in
    one of the queues, in a single place of a single queue of the core and
    level its block names, and not on a core; and a RUNNING process is the
    current one of exactly one core. *)
Theorem no_process_lost s :
  reach s → ∃ Q L, qrep (procs s) (g_runqueues s) Q ∧ linked (view (procs s)) (proc_list_head s) L ∧ NoDup L
    ∧ ∀ a p, 0 < a → procs s !! a = Some p →
        a ∈ L
        ∧ (state p = READY ↔ ∃ c l, cpu_ok c ∧ level_ok l ∧ a ∈ Q c l)
        ∧ (∀ c l, cpu_ok c → level_ok l → a ∈ Q c l → c = sched_cpu p ∧ l = sched_level p ∧ NoDup (Q c l) ∧ off_core s a)
        ∧ (state p = RUNNING → curr (g_cpus s) (sched_cpu p) = a)
        ∧ (∀ c c', cpu_ok c → cpu_ok c' → curr (g_cpus s) c = a → curr (g_cpus s) c' = a → c = c').
Proof.
  intros Hr. destruct (reach_inv s Hr) as (Q & L & Hi). pose proof Hi as [Hq Hcore _ _ _ _]. exists Q, L.
  split_and!; [done|apply Hcore|apply Hcore|]. intros a p Ha Hp.
  assert (a ∈ L) as HaL by (eapply block_listed; [done|done|by eexists]).
  assert (view (procs s) !! a = Some (erase p)) as Hv by (by rewrite view_lookup, Hp).
  destruct (c_range _ _ _ _ _ _ _ Hcore a _ HaL Hv) as [Hc Hl]. simpl in Hc, Hl.
  assert (∀ c, cpu_ok c → curr (g_cpus s) c = a → state p ≠ READY ∧ sched_cpu p = c) as Hcur.
  { intros c Hcc E. destruct (c_current _ _ _ _ _ _ _ Hcore c Hcc) as (_ & w & Hw & Hs & _ & Hwh); [lia|].
    rewrite E, Hv in Hw. injection Hw as <-. split; [done|]. destruct Hwh as [[_ ?]|(E2 & _)]; [done|unfold idle_addr, cpu_ok in *; lia]. }
  split_and!; try done.
  - split.
    + intros Hs. exists (sched_cpu p), (sched_level p). split_and!; try done. by apply (c_ready _ _ _ _ _ _ _ Hcore a (erase p)).
    + intros (c & l & Hcc & Hll & Hin). destruct (c_queued _ _ _ _ _ _ _ Hcore c l a Hcc Hll Hin) as (_ & w & Hw & E & _). rewrite Hv in Hw. injection Hw as <-. done.
  - intros c l Hcc Hll Hin. destruct (c_queued _ _ _ _ _ _ _ Hcore c l a Hcc Hll Hin) as (_ & w & Hw & Es & E1 & E2).
    rewrite Hv in Hw. injection Hw as <-. split_and!; try done.
    + destruct (qr_rep _ _ _ Hq c Hcc) as (q & _ & Hrq). apply (rr_levels _ _ _ Hrq l Hll).
    + intros c' Hcc' E. by destruct (Hcur c' Hcc' E).
  - intros Hs. by apply (c_running _ _ _ _ _ _ _ Hcore a (erase p)).
  - intros c c' H1 H2 E1 E2. destruct (Hcur c H1 E1) as [_ <-]. by destruct (Hcur c' H2 E2).
Qed.

Lemma no_process_lost_witness : reach two_cores ∧ ∃ Q L, qrep (procs two_cores) (g_runqueues two_cores) Q
  ∧ linked (view (procs two_cores)) (proc_list_head two_cores) L.
Proof.
  split; [exact two_cores_reach|]. destruct (no_process_lost two_cores two_cores_reach) as (Q & L & Hq & Hl & _). by exists Q, L.
Defined.

(** ** What the operations do *)

(** The queues and the list of [two_cores]: one process on each core. *)
Definition two_queues : Z → Z → list Z := add_to (add_to no_queues 0 0 100) 1 0 200.

Lemma two_cores_inv : inv None two_cores two_queues [200; 100].
Proof.
  assert (∃ s1, ap_online sched_boot = Ret s1 ∧ inv None s1 no_queues []) as (s1 & E1 & Hi1).
  { destruct (online_spec sched_boot no_queues [] boot_inv) as (s1 & ? & ? & _); [by vm_compute..|]. by exists s1. }
  assert (after OOnline sched_boot = s1) as E1' by (unfold after; simpl exec; by rewrite E1).
  assert (inv None (schedulerInit s1) no_queues []) as Hi2 by (destruct Hi1; by constructor).
  destruct (create_kernel_spec (schedulerInit s1) no_queues [] a_stack 100 Hi2) as (s3 & E3 & Hi3); [done|by rewrite <- E1'|done|].
  assert (after (OCreate a_stack 100) (schedulerInit s1) = s3) as E3' by (unfold after; simpl exec; by rewrite E3).
  destruct (create_kernel_spec s3 _ [100] a_stack 200 Hi3) as (s4 & E4 & Hi4); [done|by rewrite <- E3', <- E1'|done|].
  assert (two_cores = s4) as ->.
  { unfold two_cores. rewrite E1'. change (after OInit s1) with (schedulerInit s1). rewrite E3'. unfold after. simpl exec. by rewrite E4. }
  assert (pick_least_loaded_cpu (schedulerInit s1) = 0) as F1 by (rewrite <- E1'; by vm_compute).
  assert (pick_least_loaded_cpu s3 = 1) as F2 by (rewrite <- E3', <- E1'; by vm_compute).
  by rewrite F1, F2 in Hi4.
Qed.

(** C25. [schedule] frees exactly the dead processes that are neither on a core nor
    deferred; then the first process of the best level that has one gets the
    core, and the outgoing one, if it was still running, goes to the end of
    its level; with no ready process the core keeps its process or parks in
    its idle context, and the queues do not change. The other cores keep
    their processes. *)
Theorem schedule_correct s Q L c :
  inv None s Q L → on_line s c →
  let V := view (procs s) in
  let old := curr (g_cpus s) c in
  ∃ s' Q', schedule c s = Ret s'
    ∧ inv None s' Q' (filter (λ a, reaped V (g_deferred_reap s) s a = false) L)
    ∧ match top (Q c) with
      | Some l => ∃ nx r, Q c l = nx :: r ∧ curr (g_cpus s') c = nx ∧ Q' = after_dispatch V Q L c l old r
      | None => Q' = Q ∧ (curr (g_cpus s') c = old ∨ curr (g_cpus s') c = idle_addr c)
      end
    ∧ ∀ c', cpu_ok c' → c' ≠ c → curr (g_cpus s') c' = curr (g_cpus s) c'.
Proof.
  intros Hi Hon V old. pose proof Hon as (Hc & _).
  destruct (schedule_spec s Q L c (inv_strengthen _ _ _ c Hi) Hon) as (s' & Q' & E & Hi' & _ & _ & Ho & Hm).
  exists s', Q'. split_and!; try done. apply Hi'. right. right. by eapply awake_current.
Qed.

Lemma schedule_correct_witness : ∃ s', schedule 1 two_cores = Ret s' ∧ curr (g_cpus s') 1 = 200.
Proof.
  destruct (schedule_correct two_cores two_queues [200; 100] 1 two_cores_inv) as (s' & Q' & E & _ & Hm & _).
  - eapply on_line_check; by vm_compute.
  - exists s'. split; [exact E|]. destruct Hm as (nx & r & Hq & Hc & _). rewrite Hc. vm_compute in Hq. by injection Hq.
Defined.

(** The wake-up pass of a core makes READY exactly the sleepers assigned to
    that core whose time has come, puts them at the interactive level with a
    fresh quantum, and appends them to that level's queue in the order of the
    process list; no other queue and no other process changes. *)
Theorem wake_correct s Q L cpu now :
  inv None s Q L → cpu_ok cpu →
  ∃ s' Q', wake_sleeping_processes cpu now s = Ret s' ∧ inv None s' Q' L ∧ rest s' = rest s
    ∧ (∀ c l, Q' c l = Q c l ++ if decide (c = cpu ∧ l = 0) then filter (λ a, due (view (procs s)) cpu now a = true) L else [])
    ∧ (∀ a v, a ∈ L → view (procs s) !! a = Some v →
         view (procs s') !! a = Some (if due (view (procs s)) cpu now a then woken v else v)).
Proof. apply wake_spec. Qed.

Lemma wake_correct_witness : ∃ s', wake_sleeping_processes 0 7 two_cores = Ret s' ∧ rest s' = rest two_cores.
Proof.
  destruct (wake_correct two_cores two_queues [200; 100] 0 7 two_cores_inv) as (s' & Q' & E & _ & R & _); [unfold cpu_ok; lia|].
  exists s'. split; [exact E|exact R].
Defined.

(** The anti-starvation boost: on every online core the queues of the three
    levels become one queue at the interactive level, level by level and each
    in its order; a block keeps everything but its level and its used ticks. *)
Theorem boost_correct x s Q L :
  inv x s Q L →
  ∃ s' Q', scheduler_priority_boost s = Ret s' ∧ inv x s' Q' L ∧ rest s' = rest s
    ∧ (∀ c, 0 ≤ c < g_online_cpu_count s → Q' c 0 = Q c 0 ++ Q c 1 ++ Q c 2 ∧ Q' c 1 = [] ∧ Q' c 2 = [])
    ∧ (∀ c l, level_ok l → g_online_cpu_count s ≤ c → Q' c l = Q c l)
    ∧ (∀ a v, view (procs s) !! a = Some v → view (procs s') !! a = Some v ∨ view (procs s') !! a = Some (boosted v)).
Proof.
  intros Hi. destruct (boost_spec x s Q L Hi) as (s' & Q' & E & Hi' & R & HQ & Ho & HV). exists s', Q'. split_and!; try done.
  intros c Hc. rewrite !HQ by (unfold level_ok; lia). done.
Qed.

Lemma boost_correct_witness : ∃ s', scheduler_priority_boost two_cores = Ret s' ∧ rest s' = rest two_cores.
Proof.
  destruct (boost_correct None two_cores two_queues [200; 100] two_cores_inv) as (s' & Q' & E & _ & R & _).
  exists s'. split; [exact E|exact R].
Defined.

(** The rebalance pass changes nothing, or moves one process from the core with
    the greatest load to the end of its level on the core with the least, when
    the loads differ by two or more: the queued user process that is not live
    on a core and has used the least CPU time. *)
Theorem rebalance_correct x s Q L :
  inv x s Q L →
  ∃ s' Q', scheduler_rebalance s = Ret s' ∧ inv x s' Q' L ∧ rest s' = rest s
    ∧ (s' = s ∧ Q' = Q ∨ ∃ src dst lv a v, migration s Q Q' src dst lv a ∧ view (procs s) !! a = Some v
         ∧ view (procs s') = <[a := set_sched (sched_level v) dst (sched_ticks_used v) v]> (view (procs s))).
Proof. apply rebalance_spec. Qed.

Lemma rebalance_correct_witness : ∃ s', scheduler_rebalance two_cores = Ret s' ∧ rest s' = rest two_cores.
Proof.
  destruct (rebalance_correct None two_cores two_queues [200; 100] two_cores_inv) as (s' & Q' & E & _ & R & _).
  exists s'. split; [exact E|exact R].
Defined.

(** ** Runs outside the guards *)

Definition run_out (os : list op) : outcome sched := exec_all os sched_boot.
Definition busy_cores : list op :=
  [OInit; OOnline; OCreate a_stack 100; OCreate a_stack 200; OTick 0 1; OTick 1 1;
   OCreate a_stack 300; OCreate a_stack 400; OCreate a_stack 500; OCreate a_stack 600].

(** A process paused from another core and resumed before its core has left it
    is queued while it runs. When it then exits, [process_exit_with_status]
    does not take it out of the queue, the clean-up pass frees it there, and
    the next dispatch follows the freed block. *)
Lemma unpause_running_use_after_free :
  run_out (busy_cores ++ [OPause 0 2; OUnpause 2; OExit 1 0 false 0; OSchedule 1; OSchedule 1]) = Undef.
Proof. by vm_compute. Qed.

(** The same on the boot core: with nothing else ready, [sleep] returns at once
    with its process marked asleep; the wake-up then queues the running
    process. *)
Lemma boot_core_sleep_use_after_free :
  run_out [OInit; OCreate a_stack 100; OTick 0 1; OSleep 0 10 5; OCreate a_stack 200; OCreate a_stack 300;
           OTick 0 15; OExit 0 0 false 0; OSchedule 0; OSchedule 0] = Undef.
Proof. by vm_compute. Qed.

(** [createProcessWithPrivilege] writes READY once more after the process was
    queued. When a core has already dispatched it, it is not requeued at its
    next preemption: READY, on no core and in no queue, it never runs again. *)
Lemma create_race_loses_process :
  ∃ s, (let* s := run_out [OInit; OCreate a_stack 100] in
        let* s := proc_create_ex KERNEL a_stack 200 s in
        let* s := exec_all [OTick 0 1; OSleep 0 1 5] s in
        let* s := createProcess_tail 200 s in
        exec_all [OCreate a_stack 300; OSchedule 0] s) = Ret s
    ∧ state <$> procs s !! 200 = Some READY ∧ map head (g_runqueues s) = replicate 16 [0; 0; 0]
    ∧ Forall (λ y, current_process y ≠ 200) (g_cpus s).
Proof. eexists. split; [by vm_compute|]. split; [by vm_compute|]. split; [by vm_compute|]. by repeat constructor. Qed.

(** A process killed from another core while it is entering [sleep] is marked
    asleep and woken again: the kill that was reported is lost. *)
Lemma sleep_undoes_kill :
  ∃ s s', run_out [OInit; OOnline; OCreate a_stack 100; OCreate a_stack 200; OTick 0 1; OTick 1 1] = Ret s
    ∧ (let* r := killProcess 0 2 s in if fst r then exec_all [OSleep 1 10 5; OTick 1 15] (snd r) else Undef) = Ret s'
    ∧ state <$> procs s' !! 200 = Some RUNNING.
Proof. eexists _, _. split; [by vm_compute|]. split; by vm_compute. Qed.
