(* ===== verification/Extent.v ===== *)
(** * The block allocator of MinimaFS ([src/impl/filesystem/minimafs.c])

    Free space of a volume is kept as a sorted list of used extents. The live
    prefix of the C array is the list [ext] ([n] is its length); [cap] is the
    array's capacity. Growing the array asks the heap: [can_alloc bytes]
    answers whether [alloc_unzeroed] succeeds. The spin lock is taken and
    released inside each function; [block_alloc_mark_used], [block_alloc_run]
    and [block_free_run] are one step each.

    The theorems: the list stays sorted, separated and inside the volume with
    an exact free count; marking, allocating and freeing are union, first fit
    and difference on the set of used blocks; the runs handed out in any
    sequence of calls never overlap. When the heap refuses to grow the array,
    a run is handed out without being recorded: [alloc_oom_hands_out_twice]. *)

From S2P Require Import Prelude.

Open Scope c_scope.

Module extent.

Record minimafs_extent := mk_ext { start : Z; count : Z }.

Record block_alloc := mk_alloc {
  ext : list minimafs_extent; cap : Z; total_blocks : Z; free_blocks : Z
}.

Definition NO_BLOCK : Z := 4294967295.

Definition set_ext (l : list minimafs_extent) (a : block_alloc) : block_alloc :=
  mk_alloc l (cap a) (total_blocks a) (free_blocks a).
Definition set_cap (c : Z) (a : block_alloc) : block_alloc :=
  mk_alloc (ext a) c (total_blocks a) (free_blocks a).
Definition set_free (f : Z) (a : block_alloc) : block_alloc :=
  mk_alloc (ext a) (cap a) (total_blocks a) f.

(** [a->n] *)
Definition n (a : block_alloc) : Z := Z.of_nat (length (ext a)).
(** [(uint64_t)x.start + x.count] *)
Definition x_end (x : minimafs_extent) : Z := u64 (start x + count x).

(** [while (cap < need) cap *= 2]: 32 doublings of a 32-bit value either
    reach [need] or end at 0, which never does. *)
Fixpoint grow_cap (fuel : nat) (c need : Z) : outcome Z :=
  match fuel with
  | O => Hang
  | S fuel' => if c <? need then grow_cap fuel' (u32 (c * 2)) need else Ret c
  end.

Definition sizeof_extent : Z := 8.

Definition ba_reserve (can_alloc : Z → bool) (need : Z) (a : block_alloc) :
    outcome (bool * block_alloc) :=
  if need <=? cap a then Ret (true, a)
  else
    let* c := grow_cap 34 (if cap a =? 0 then 256 else cap a) need in
    if can_alloc (c * sizeof_extent) then Ret (true, set_cap c a) else Ret (false, a).

Definition block_alloc_init (total : Z) (a : block_alloc) : block_alloc :=
  mk_alloc [] (cap a) total total.

(** The first loop of [ba_mark_used_locked]: the extents before index [i]
    and those from it on. *)
Fixpoint split_before (s : Z) (l : list minimafs_extent) :
    list minimafs_extent * list minimafs_extent :=
  match l with
  | [] => ([], [])
  | x :: r => if x_end x <? s then let '(p, q) := split_before s r in (x :: p, q) else ([], l)
  end.

(** The second loop: the merged range [ms, me), the blocks of [s, e) that
    were used already, how many extents it ran over ([j - i]) and the ones
    from [j] on. *)
Fixpoint absorb (s e ms me already : Z) (l : list minimafs_extent) :
    Z * Z * Z * nat * list minimafs_extent :=
  match l with
  | [] => (ms, me, already, 0%nat, [])
  | x :: r =>
      if start x <=? me then
        let xs := start x in
        let xe := x_end x in
        let os := if s <? xs then xs else s in
        let oe := if xe <? e then xe else e in
        let already := if os <? oe then u64 (already + (oe - os)) else already in
        let ms := if xs <? ms then xs else ms in
        let me := if me <? xe then xe else me in
        let '(ms, me, already, k, q) := absorb s e ms me already r in
        (ms, me, already, S k, q)
      else (ms, me, already, 0%nat, l)
  end.

Definition ba_mark_used_locked (can_alloc : Z → bool) (st cnt : Z) (a : block_alloc) :
    outcome block_alloc :=
  if (cnt =? 0) || (total_blocks a <=? st) then Ret a
  else
    let s := st in
    let e := if total_blocks a <? u64 (st + cnt) then total_blocks a else u64 (st + cnt) in
    let '(pre, post) := split_before s (ext a) in
    let '(ms, me, already, k, rest) := absorb s e s e 0 post in
    let newly := u64 (u64 (e - s) - already) in
    let a := set_free (if newly <? free_blocks a then u32 (free_blocks a - u32 newly) else 0) a in
    let merged := mk_ext (u32 ms) (u32 (me - ms)) in
    match k with
    | O =>
        let* (ok, a) := ba_reserve can_alloc (n a + 1) a in
        if ok then Ret (set_ext (pre ++ merged :: post) a) else Ret a
    | _ => Ret (set_ext (pre ++ merged :: rest) a)
    end.

Definition block_alloc_mark_used := ba_mark_used_locked.

(** The search of [block_alloc_run]; the last round is the gap up to the end
    of the volume. *)
Fixpoint find_run (total cnt cursor : Z) (l : list minimafs_extent) : Z :=
  match l with
  | [] => if (cursor <? total) && (cnt <=? total - cursor) then u32 cursor else NO_BLOCK
  | x :: r =>
      if (cursor <? start x) && (cnt <=? start x - cursor) then u32 cursor
      else find_run total cnt (if cursor <? x_end x then x_end x else cursor) r
  end.

Definition block_alloc_run (can_alloc : Z → bool) (cnt : Z) (a : block_alloc) :
    outcome (Z * block_alloc) :=
  if cnt =? 0 then Ret (NO_BLOCK, a)
  else
    let found := find_run (total_blocks a) cnt 1 (ext a) in
    if found =? NO_BLOCK then Ret (found, a)
    else let* a := ba_mark_used_locked can_alloc found cnt a in Ret (found, a).

(** [block_alloc] *)
Definition block_alloc_one (can_alloc : Z → bool) := block_alloc_run can_alloc 1.

(** The loop of [block_free_run] from index [i] on: [pre] holds the extents
    before [i], [l] those from [i] on. *)
Fixpoint free_loop (can_alloc : Z → bool) (s e : Z) (pre l : list minimafs_extent)
    (a : block_alloc) : outcome block_alloc :=
  match l with
  | [] => Ret (set_ext pre a)
  | x :: r =>
      let xs := start x in
      let xe := x_end x in
      if xe <=? s then free_loop can_alloc s e (pre ++ [x]) r a
      else if e <=? xs then Ret (set_ext (pre ++ l) a)
      else
        let os := if s <? xs then xs else s in
        let oe := if xe <? e then xe else e in
        let a := set_free (u32 (free_blocks a + u32 (oe - os))) (set_ext (pre ++ l) a) in
        match xs <? s, e <? xe with
        | true, true =>
            let* (ok, a) := ba_reserve can_alloc (n a + 1) a in
            if ok then Ret (set_ext (pre ++ mk_ext xs (u32 (s - xs)) :: mk_ext (u32 e) (u32 (xe - e)) :: r) a)
            else Ret a
        | true, false => free_loop can_alloc s e (pre ++ [mk_ext xs (u32 (s - xs))]) r a
        | false, true => Ret (set_ext (pre ++ mk_ext (u32 e) (u32 (xe - e)) :: r) a)
        | false, false => free_loop can_alloc s e pre r a
        end
  end.

Definition block_free_run (can_alloc : Z → bool) (block_num cnt : Z) (a : block_alloc) :
    outcome block_alloc :=
  if cnt =? 0 then Ret a
  else free_loop can_alloc block_num (u64 (block_num + cnt)) [] (ext a) a.

(** ** The set of used blocks *)

Definition blocks (l : list minimafs_extent) : list Z := l ≫= λ x, seqZ (start x) (count x).
Arguments blocks : simpl never.
Definition taken (a : block_alloc) (b : Z) : Prop := b ∈ blocks (ext a).

(** Extents are non-empty, end inside the volume and are separated by at
    least one free block; the first begins at [lo] or after. *)
Fixpoint separated (lo hi : Z) (l : list minimafs_extent) : Prop :=
  match l with
  | [] => True
  | x :: r => lo ≤ start x ∧ 0 < count x ∧ start x + count x ≤ hi ∧
              separated (start x + count x + 1) hi r
  end.

Record wf (a : block_alloc) : Prop := {
  wf_total : 0 ≤ total_blocks a ≤ 4294967295;
  wf_ext : separated 0 (total_blocks a) (ext a);
  wf_free : free_blocks a = total_blocks a - Z.of_nat (length (blocks (ext a)));
  wf_cap : 0 ≤ cap a
}.

(** ** Lemmas on separated lists *)

Fixpoint after (lo : Z) (l : list minimafs_extent) : Z :=
  match l with [] => lo | x :: r => after (start x + count x + 1) r end.

Lemma blocks_cons x l : blocks (x :: l) = seqZ (start x) (count x) ++ blocks l.
Proof. done. Qed.
Lemma blocks_app l k : blocks (l ++ k) = blocks l ++ blocks k.
Proof. apply bind_app. Qed.
Lemma elem_blocks_cons b x l :
  b ∈ blocks (x :: l) ↔ start x ≤ b < start x + count x ∨ b ∈ blocks l.
Proof. rewrite blocks_cons, elem_of_app, elem_of_seqZ. done. Qed.
Lemma elem_blocks_app b l k : b ∈ blocks (l ++ k) ↔ b ∈ blocks l ∨ b ∈ blocks k.
Proof. by rewrite blocks_app, elem_of_app. Qed.
Lemma elem_blocks_nil b : b ∈ blocks [] ↔ False.
Proof. apply elem_of_nil. Qed.

Definition size (l : list minimafs_extent) : Z := Z.of_nat (length (blocks l)).
Lemma size_nil : size [] = 0.
Proof. done. Qed.
Lemma size_cons x l : 0 ≤ count x → size (x :: l) = count x + size l.
Proof. intros. unfold size. rewrite blocks_cons, length_app, length_seqZ. lia. Qed.
Lemma size_app l k : size (l ++ k) = size l + size k.
Proof. unfold size. rewrite blocks_app, length_app. lia. Qed.
Lemma size_nonneg l : 0 ≤ size l.
Proof. unfold size. lia. Qed.

Create HintDb extent discriminated.
#[export] Hint Rewrite elem_blocks_cons elem_blocks_app elem_blocks_nil size_nil size_app : extent.

Lemma separated_app lo hi l k :
  separated lo hi (l ++ k) ↔ separated lo hi l ∧ separated (after lo l) hi k.
Proof. revert lo. induction l as [|x l IH]; intros lo; simpl; [tauto|]. rewrite IH. tauto. Qed.

Lemma separated_weaken lo lo' hi l : lo' ≤ lo → separated lo hi l → separated lo' hi l.
Proof. destruct l; simpl; [done|]. intros ? (? & ? & ? & ?). repeat split; try done; lia. Qed.

Lemma separated_head lo lo' hi l :
  (∀ x, head l = Some x → lo ≤ start x) → separated lo' hi l → separated lo hi l.
Proof. destruct l as [|x l]; simpl; [done|]. intros Hh (? & ? & ? & ?). specialize (Hh _ eq_refl). done. Qed.

Lemma separated_le lo hi l b : separated lo hi l → b ∈ blocks l → lo ≤ b < hi.
Proof.
  revert lo. induction l as [|x l IH]; intros lo; simpl.
  { intros _ Hb%elem_blocks_nil. done. }
  intros (? & ? & ? & Hs) [?|Hb]%elem_blocks_cons; [lia|]. specialize (IH _ Hs Hb). lia.
Qed.

Lemma separated_size lo hi l : separated lo hi l → l = [] ∨ lo + size l ≤ hi.
Proof.
  revert lo. induction l as [|x l IH]; intros lo; simpl; [auto|].
  intros (? & ? & ? & Hs). right. rewrite size_cons by lia.
  destruct (IH _ Hs) as [->|?]; rewrite ?size_nil; lia.
Qed.

Lemma separated_length lo hi l : separated lo hi l → l = [] ∨ lo + 2 * Z.of_nat (length l) - 1 ≤ hi.
Proof.
  revert lo. induction l as [|x l IH]; intros lo; simpl; [auto|].
  intros (? & ? & ? & Hs). right. destruct (IH _ Hs) as [->|?]; simpl; lia.
Qed.

Lemma after_le lo hi l : separated lo hi l → lo ≤ after lo l.
Proof.
  revert lo. induction l as [|x l IH]; intros lo; simpl; [lia|].
  intros (? & ? & ? & Hs). specialize (IH _ Hs). lia.
Qed.

Lemma before_after lo hi l b : separated lo hi l → b ∈ blocks l → b + 1 < after lo l.
Proof.
  revert lo. induction l as [|x l IH]; intros lo; simpl.
  { intros _ Hb%elem_blocks_nil. done. }
  intros (? & ? & ? & Hs) [?|Hb]%elem_blocks_cons; [|by apply IH].
  apply after_le in Hs. lia.
Qed.

Lemma x_end_eq x hi : 0 ≤ start x → 0 ≤ count x → start x + count x ≤ hi → hi ≤ 4294967295 →
  x_end x = start x + count x.
Proof. intros. unfold x_end. apply u64_small. unfold is_u64. lia. Qed.

Lemma snoc_middle (x : minimafs_extent) l k : (l ++ [x]) ++ k = l ++ x :: k.
Proof. by rewrite <- app_assoc. Qed.

(** ** Growing the array *)

Lemma grow_cap_ret need : need ≤ 2147483648 → ∀ fuel c,
  0 < c → need ≤ c * 2 ^ Z.of_nat fuel → ∃ c', grow_cap (S fuel) c need = Ret c' ∧ need ≤ c' ∧ c ≤ c'.
Proof.
  intros Hn. induction fuel as [|fuel IH]; intros c Hc Hf.
  - exists c. simpl in *. rewrite (proj2 (Z.ltb_ge _ _)) by lia. repeat split; lia.
  - simpl. destruct (Z.ltb_spec c need); [|exists c; repeat split; lia].
    rewrite u32_small by (unfold is_u32; lia).
    destruct (IH (c * 2)) as (c' & ? & ? & ?); [lia| |exists c'; repeat split; try done; lia].
    rewrite Nat2Z.inj_succ, Z.pow_succ_r in Hf by lia. lia.
Qed.

(** [ba_reserve] returns; only the capacity can change. *)
Lemma ba_reserve_ret can_alloc need a :
  0 ≤ cap a → need ≤ 2147483648 →
  ∃ ok c, ba_reserve can_alloc need a = Ret (ok, set_cap c a) ∧ 0 ≤ c ∧ (ok = true → need ≤ c) ∧
    ((∀ b, can_alloc b = true) → ok = true).
Proof.
  intros Hc Hn. unfold ba_reserve.
  assert (set_cap (cap a) a = a) as Ha by (by destruct a).
  destruct (Z.leb_spec need (cap a)); [exists true, (cap a); by rewrite Ha|].
  destruct (grow_cap_ret need Hn 33 (if cap a =? 0 then 256 else cap a)) as (c & -> & ? & ?).
  1,2: destruct (Z.eqb_spec (cap a) 0); change (2 ^ Z.of_nat 33) with 8589934592; lia.
  simpl. destruct (can_alloc _) eqn:Hca; [exists true, c|exists false, (cap a); rewrite Ha];
    (split; [done|]); destruct (Z.eqb_spec (cap a) 0); repeat split; try done; try lia.
  all: intros Hall; by rewrite Hall in Hca.
Qed.

(** ** Marking *)

Lemma split_before_spec s hi l : hi ≤ 4294967295 → ∀ lo p q,
  0 ≤ lo → separated lo hi l → split_before s l = (p, q) →
  l = p ++ q ∧ (lo ≤ s → after lo p ≤ s) ∧ (∀ x, head q = Some x → s ≤ start x + count x).
Proof.
  intros Hhi. induction l as [|x l IH]; intros lo p q Hlo; simpl.
  { intros _ [= <- <-]. simpl. done. }
  intros (? & ? & ? & Hs). rewrite (x_end_eq x hi) by lia.
  destruct (Z.ltb_spec (start x + count x) s) as [Hlt|Hge].
  - destruct (split_before s l) as [p' q'] eqn:E. intros [= <- <-].
    destruct (IH (start x + count x + 1) p' q' ltac:(lia) Hs eq_refl) as (-> & Ha & Hq). simpl.
    split; [done|]. split; [intros; apply Ha; lia|done].
  - intros [= <- <-]. simpl. split; [done|]. split; [done|]. intros y [= <-]. lia.
Qed.

Lemma absorb_spec s e hi l : hi ≤ 4294967295 → 0 ≤ s < e → ∀ lo ms me al ms' me' al' k rest,
  separated lo hi l → 0 ≤ lo → (∀ x, head l = Some x → s ≤ start x + count x) →
  ms ≤ s → (ms = s ∨ s ≤ lo) → e ≤ me ≤ hi → (me = e ∨ me < lo) →
  0 ≤ al ≤ Z.max 0 (Z.min lo e - s) →
  absorb s e ms me al l = (ms', me', al', k, rest) →
  ∃ q, l = q ++ rest ∧ length q = k ∧ 0 ≤ al' ≤ e - s ∧
    ms' ≤ s ∧ e ≤ me' ≤ hi ∧ Z.min lo ms ≤ ms' ∧
    me' - ms' = me - ms + size q - (al' - al) ∧
    separated (me' + 1) hi rest ∧
    (∀ b, ms' ≤ b < me' ↔ ms ≤ b < me ∨ b ∈ blocks q).
Proof.
  intros Hhi Hse. induction l as [|x l IH]; intros lo ms me al ms' me' al' k rest; simpl.
  { intros. simplify_eq. exists []. rewrite size_nil. setoid_rewrite elem_blocks_nil.
    repeat split; try done; try lia; naive_solver. }
  intros (? & ? & ? & Hs) ? Hh ? ? ? ? ?. specialize (Hh x eq_refl).
  rewrite (x_end_eq x hi) by lia. destruct (Z.leb_spec (start x) me) as [Hle|Hgt].
  - destruct (absorb s e _ _ _ l) as [[[[ms1 me1] al1] k1] r1] eqn:E. intros [= <- <- <- <- <-].
    apply (IH (start x + count x + 1)) in E as (q & -> & Hk & Hal & Hms & Hme & Hlo & Hsz & Hr & Hb);
      [|done|lia|..].
    2: { intros y Hy. destruct l as [|z l]; [done|]. simpl in *. simplify_eq. lia. }
    2-6: repeat match goal with |- context [?a <? ?b] => destruct (Z.ltb_spec a b) end;
      try rewrite u64_small by (unfold is_u64; lia); lia.
    exists (x :: q). rewrite size_cons by lia. split; [done|]. split; [simpl; lia|].
    assert (∀ b, b ∈ blocks (x :: q) ↔ start x ≤ b < start x + count x ∨ b ∈ blocks q)
      as Hx by (intros; apply elem_blocks_cons).
    setoid_rewrite Hx. clear Hx.
    repeat match goal with H : context [?a <? ?b] |- _ => destruct (Z.ltb_spec a b) end;
      rewrite ?u64_small in * by (unfold is_u64; lia);
      split_and!; try done; try lia; intros b; rewrite Hb; intuition lia.
  - intros [= <- <- <- <- <-]. exists []. rewrite size_nil. setoid_rewrite elem_blocks_nil.
    repeat split; try done; try lia; naive_solver.
Qed.

(** What marking leaves behind when the array could grow (or did not have to). *)
Lemma mark_used_spec can_alloc st cnt a :
  wf a → is_u32 st → is_u32 cnt → (∀ b, can_alloc b = true) →
  ∃ a', ba_mark_used_locked can_alloc st cnt a = Ret a' ∧ wf a' ∧
    total_blocks a' = total_blocks a ∧
    ∀ b, taken a' b ↔ taken a b ∨ st ≤ b < Z.min (st + cnt) (total_blocks a).
Proof.
  intros [Ht He Hf Hc] Hst Hcnt Hoom. unfold is_u32 in *. unfold ba_mark_used_locked, taken.
  destruct (Z.eqb_spec cnt 0) as [->|Hc0]; [|destruct (Z.leb_spec (total_blocks a) st)]; simpl.
  1,2: exists a; split; [done|]; split; [done|]; split; [done|]; intros b; intuition lia.
  rewrite u64_small by (unfold is_u64; lia).
  set (e := if total_blocks a <? st + cnt then _ else _).
  assert (e = Z.min (st + cnt) (total_blocks a)) as Hee by (unfold e; destruct (Z.ltb_spec (total_blocks a) (st + cnt)); lia).
  clearbody e. rewrite <- Hee.
  destruct (split_before st (ext a)) as [pre post] eqn:Esp.
  apply (split_before_spec st (total_blocks a)) with (lo := 0) in Esp as (Hl & Hp & Hq); [|lia..|done].
  rewrite Hl in He. apply separated_app in He as [Hpre Hpost]. pose proof (after_le _ _ _ Hpre).
  destruct (absorb st e st e 0 post) as [[[[ms me] al] k] rest] eqn:Eab.
  apply (absorb_spec st e (total_blocks a)) with (lo := after 0 pre) in Eab
    as (q & -> & Hk & Hal & Hms & Hme & Hlo & Hsz & Hr & Hb); [|try done; lia..].
  assert (separated 0 (total_blocks a) (pre ++ mk_ext ms (me - ms) :: rest)) as Hsep.
  { apply separated_app. split; [done|]. simpl. rewrite Zplus_minus. specialize (Hp ltac:(lia)).
    repeat split; try done; lia. }
  assert (size (pre ++ mk_ext ms (me - ms) :: rest) = size (ext a) + (e - st - al)) as Hsize.
  { rewrite Hl, !size_app, size_cons by (simpl; lia). simpl. lia. }
  destruct (separated_size _ _ _ Hsep) as [Hnil|Hle]; [by destruct pre|].
  fold (size (ext a)) in Hf. rewrite !(u64_small (e - st)), (u64_small (_ - al)) by (unfold is_u64; lia).
  rewrite (u32_small ms), (u32_small (me - ms)), (u32_small (e - st - al)) by (unfold is_u32; lia).
  set (f := if _ <? free_blocks a then _ else 0).
  assert (f = total_blocks a - size (pre ++ mk_ext ms (me - ms) :: rest)) as Hfe.
  { unfold f. destruct (Z.ltb_spec (e - st - al) (free_blocks a)); [|lia].
    pose proof (size_nonneg (ext a)). rewrite u32_small by (unfold is_u32; lia). lia. }
  clearbody f.
  assert (∀ b, b ∈ blocks (pre ++ mk_ext ms (me - ms) :: rest) ↔ b ∈ blocks (ext a) ∨ st ≤ b < e) as Hmem.
  { intros b. rewrite Hl. autorewrite with extent. simpl. rewrite Zplus_minus, Hb. tauto. }
  destruct k as [|k].
  - destruct q; [|done]. destruct (separated_length _ _ _ Hsep) as [?|Hlen]; [by destruct pre|].
    rewrite length_app in Hlen. simpl in Hlen.
    destruct (ba_reserve_ret can_alloc (n (set_free f a) + 1) (set_free f a)) as (ok & c & -> & ? & ? & Hok).
    { done. } { unfold n. simpl. rewrite Hl, length_app. simpl. lia. }
    rewrite Hok by done. simpl. eexists. split; [done|]. split; [|split; [done|exact Hmem]].
    split; simpl; try done; lia.
  - eexists. split; [done|]. split; [|split; [done|exact Hmem]]. split; simpl; try done; lia.
Qed.

(** ** First fit *)

(** [cnt] free blocks inside the volume from block [r] on. *)
Definition fits_at (hi cnt : Z) (l : list minimafs_extent) (r : Z) : Prop :=
  r + cnt ≤ hi ∧ ∀ b, r ≤ b < r + cnt → b ∉ blocks l.

Lemma first_gap_spec hi cnt l : hi ≤ 4294967295 → 0 < cnt → ∀ lo cursor,
  separated lo hi l → 0 ≤ lo → 1 ≤ cursor → lo ≤ cursor + 1 →
  (find_run hi cnt cursor l ≠ NO_BLOCK →
     cursor ≤ find_run hi cnt cursor l ∧ fits_at hi cnt l (find_run hi cnt cursor l)) ∧
  ∀ r, cursor ≤ r → fits_at hi cnt l r →
    find_run hi cnt cursor l ≠ NO_BLOCK ∧ find_run hi cnt cursor l ≤ r.
Proof.
  intros Hhi Hcnt. unfold NO_BLOCK, fits_at.
  induction l as [|x l IH]; intros lo cursor; simpl.
  - intros _ ???. destruct (Z.ltb_spec cursor hi), (Z.leb_spec cnt (hi - cursor)); simpl;
      (split; [|intros r ? [? _]; rewrite ?u32_small by (unfold is_u32; lia); lia]).
    2-4: done.
    rewrite u32_small by (unfold is_u32; lia). intros _. split; [lia|]. split; [lia|].
    intros b _ Hb%elem_blocks_nil. done.
  - intros (? & ? & ? & Hs) ???. rewrite (x_end_eq x hi) by lia.
    destruct (Z.ltb_spec cursor (start x)), (Z.leb_spec cnt (start x - cursor)); simpl.
    { rewrite u32_small by (unfold is_u32; lia). split; [intros _|intros r ??; lia].
      split; [lia|]. split; [lia|]. intros b Hr [?|Hb]%elem_blocks_cons; [lia|].
      apply (separated_le _ _ _ _ Hs) in Hb. lia. }
    all: set (c := if cursor <? start x + count x then _ else _);
      assert (c = Z.max cursor (start x + count x)) as ->
        by (unfold c; destruct (Z.ltb_spec cursor (start x + count x)); lia);
      destruct (IH _ (Z.max cursor (start x + count x)) Hs ltac:(lia) ltac:(lia) ltac:(lia)) as [IH1 IH2];
      split; [intros Hne; destruct (IH1 Hne) as (Hc & ? & Hfree); split; [lia|]; split; [lia|];
              intros b Hr [?|Hb]%elem_blocks_cons; [lia|by apply (Hfree b)]|];
      intros r Hr [Hle Hfree];
      (destruct (decide (Z.max cursor (start x + count x) ≤ r)) as [Hge|Hlt];
        [apply IH2; [done|]; split; [done|]; intros b ? ?; apply (Hfree b); [done|]; apply elem_blocks_cons; auto|]);
      exfalso; apply (Hfree (Z.max r (start x))); try lia; apply elem_blocks_cons; left; lia.
Qed.

(** The answer of [block_alloc_run]: the lowest run of [cnt] free blocks from
    block 1 on, now taken; or no block and nothing changed when there is none. *)
Definition alloc_answer (cnt : Z) (a : block_alloc) (r : Z) (a' : block_alloc) : Prop :=
  if r =? NO_BLOCK then a' = a ∧ ∀ b, 1 ≤ b → ¬ fits_at (total_blocks a) cnt (ext a) b
  else 1 ≤ r ∧ fits_at (total_blocks a) cnt (ext a) r ∧
       (∀ b, 1 ≤ b → fits_at (total_blocks a) cnt (ext a) b → r ≤ b) ∧
       (∀ b, taken a' b ↔ taken a b ∨ r ≤ b < r + cnt) ∧
       total_blocks a' = total_blocks a ∧ free_blocks a' = free_blocks a - cnt.

Lemma wf_nodup lo hi l : separated lo hi l → NoDup (blocks l).
Proof.
  revert lo. induction l as [|x l IH]; intros lo; [intros; apply NoDup_nil_2|].
  intros (? & ? & ? & Hs). rewrite blocks_cons. apply NoDup_app.
  split; [apply NoDup_seqZ|]. split; [|eauto].
  intros b Hb%elem_of_seqZ Hin. apply (separated_le _ _ _ _ Hs) in Hin. lia.
Qed.

(** Taking [cnt] blocks that were free takes [cnt] off the free count. *)
Lemma free_count_taken a a' r cnt :
  wf a → wf a' → 0 ≤ cnt → total_blocks a' = total_blocks a → (∀ b, r ≤ b < r + cnt → ¬ taken a b) →
  (∀ b, taken a' b ↔ taken a b ∨ r ≤ b < r + cnt) → free_blocks a' = free_blocks a - cnt.
Proof.
  intros [_ He Hf _] [_ He' Hf' _] Hc Ht Hn Hb. rewrite Hf, Hf', Ht.
  assert (Permutation (blocks (ext a')) (blocks (ext a) ++ seqZ r cnt)) as ->.
  { apply NoDup_Permutation; [by eapply wf_nodup|..].
    - apply NoDup_app. split; [by eapply wf_nodup|]. split; [|apply NoDup_seqZ].
      intros b Hin Hr%elem_of_seqZ. by apply (Hn b).
    - intros b. rewrite elem_of_app, elem_of_seqZ. apply Hb. }
  rewrite length_app, length_seqZ. lia.
Qed.

Lemma alloc_run_spec can_alloc cnt a :
  wf a → 0 < cnt < 4294967296 → (∀ b, can_alloc b = true) →
  ∃ r a', block_alloc_run can_alloc cnt a = Ret (r, a') ∧ wf a' ∧ alloc_answer cnt a r a'.
Proof.
  intros Hwf Hcnt Hoom. pose proof Hwf as [Ht He Hf Hc]. unfold block_alloc_run.
  rewrite (proj2 (Z.eqb_neq _ _)) by lia.
  destruct (first_gap_spec (total_blocks a) cnt (ext a) ltac:(lia) ltac:(lia) 0 1 He) as [H1 H2]; [lia..|].
  set (r := find_run _ _ _ _) in *. clearbody r. unfold alloc_answer.
  destruct (Z.eqb_spec r NO_BLOCK) as [->|Hne].
  - exists NO_BLOCK, a. split; [done|]. split; [done|]. rewrite Z.eqb_refl. split; [done|].
    intros b Hb Hfit. by destruct (H2 b Hb Hfit).
  - destruct (H1 Hne) as (Hr & Hle & Hfree).
    destruct (mark_used_spec can_alloc r cnt a Hwf) as (a' & -> & Hwf' & Ht' & Hb); [unfold is_u32; lia..|done|].
    assert (∀ b, taken a' b ↔ taken a b ∨ r ≤ b < r + cnt) as Hb' by (intros b; rewrite Hb; intuition lia).
    exists r, a'. split; [done|]. split; [done|]. rewrite (proj2 (Z.eqb_neq _ _)) by done.
    split_and!; try done; [intros b ? Hfit; by destruct (H2 b)|].
    apply (free_count_taken a a' r); try done; lia.
Qed.

(** ** Freeing *)

(** The result of the loop: the list of [a'] is sound and holds [l] without
    the blocks [s, e). *)
Definition freed (s e hi : Z) (l : list minimafs_extent) (a' : block_alloc) : Prop :=
  wf a' ∧ total_blocks a' = hi ∧ ∀ b, taken a' b ↔ b ∈ blocks l ∧ ¬ (s ≤ b < e).

Lemma freed_intro s e hi l l' a :
  0 ≤ hi ≤ 4294967295 → 0 ≤ cap a → total_blocks a = hi → separated 0 hi l' →
  free_blocks a = hi - size l' →
  (∀ b, b ∈ blocks l' ↔ b ∈ blocks l ∧ ¬ (s ≤ b < e)) → freed s e hi l (set_ext l' a).
Proof. intros ?? <- ???. split; [by split|done]. Qed.

Lemma freed_ext s e hi l l' a :
  (∀ b, ¬ (s ≤ b < e) → b ∈ blocks l ↔ b ∈ blocks l') → freed s e hi l a → freed s e hi l' a.
Proof. intros Hl (? & ? & Hb). split; [done|]. split; [done|]. intros b. rewrite Hb. naive_solver. Qed.

Section free_loop.
  Context (can_alloc : Z → bool) (s e hi : Z).
  Context (Hhi : 0 ≤ hi ≤ 4294967295) (Hse : 0 ≤ s < e).

(** The split of one extent in two, the only case that needs room. *)
Lemma free_split pre x l a :
  (∀ b, can_alloc b = true) → 0 ≤ cap a → total_blocks a = hi →
  separated 0 hi (pre ++ x :: l) → start x < s → e < start x + count x →
  ext a = pre ++ x :: l → free_blocks a = hi - size (pre ++ x :: l) + (e - s) →
  ∃ a' c, ba_reserve can_alloc (n a + 1) a = Ret (true, a') ∧ a' = set_cap c a ∧
    freed s e hi (pre ++ x :: l)
      (set_ext (pre ++ mk_ext (start x) (s - start x) :: mk_ext e (start x + count x - e) :: l) a').
Proof.
  intros Hoom Hc Ht Hsep Hl Hr He Hf.
  pose proof Hsep as [Hp (? & ? & ? & Hs)]%separated_app.
  assert (separated 0 hi (pre ++ mk_ext (start x) (s - start x) :: mk_ext e (start x + count x - e) :: l)) as Hnew.
  { apply separated_app. split; [done|]. simpl.
    replace (e + (start x + count x - e)) with (start x + count x) by lia. repeat split; try done; lia. }
  destruct (separated_length _ _ _ Hnew) as [Hnil|Hlen]; [by destruct pre|].
  rewrite length_app in Hlen. simpl in Hlen.
  destruct (ba_reserve_ret can_alloc (n a + 1) a Hc) as (ok & c & -> & ? & ? & Hok).
  { unfold n. rewrite He, length_app. simpl. lia. }
  rewrite Hok by done. exists (set_cap c a), c. split; [done|]. split; [done|].
  apply freed_intro; simpl; try done.
  - rewrite Hf. rewrite !size_app, !size_cons by (simpl; lia). simpl. lia.
  - intros b. autorewrite with extent. simpl.
    pose proof (before_after _ _ _ b Hp). pose proof (separated_le _ _ _ b Hs). intuition lia.
Qed.

Lemma free_loop_spec : (∀ b, can_alloc b = true) → ∀ l pre a,
  total_blocks a = hi → 0 ≤ cap a → separated 0 hi (pre ++ l) →
  (∀ b, b ∈ blocks pre → b < s ∨ e ≤ b) → free_blocks a = hi - size (pre ++ l) →
  ∃ a', free_loop can_alloc s e pre l a = Ret a' ∧ freed s e hi (pre ++ l) a'.
Proof.
  intros Hoom. induction l as [|x l IH]; intros pre a Ht Hc Hsep Hpre Hf; simpl.
  { rewrite app_nil_r in *. eexists. split; [done|]. apply freed_intro; try done.
    intros b. specialize (Hpre b). intuition lia. }
  pose proof Hsep as [Hp (? & ? & ? & Hs)]%separated_app. pose proof (after_le _ _ _ Hp).
  destruct (separated_size _ _ _ Hsep) as [Hnil|Hsize]; [by destruct pre|].
  pose proof (size_nonneg (pre ++ x :: l)).
  rewrite (x_end_eq x hi) by lia.
  destruct (Z.leb_spec (start x + count x) s) as [|Hxs].
  { destruct (IH (pre ++ [x]) a) as (a' & -> & Hfr); rewrite ?snoc_middle in *; try done; [|by eauto].
    intros b. autorewrite with extent. specialize (Hpre b). intuition lia. }
  destruct (Z.leb_spec e (start x)) as [|Hxe].
  { eexists. split; [done|]. apply freed_intro; try done. intros b. autorewrite with extent.
    specialize (Hpre b). pose proof (separated_le _ _ _ b Hs). intuition lia. }
  set (g := free_blocks a + _). assert (g = Z.min (start x + count x) e - Z.max (start x) s + free_blocks a) as Hg.
  { unfold g. destruct (Z.ltb_spec s (start x)), (Z.ltb_spec (start x + count x) e); rewrite u32_small by (unfold is_u32; lia); lia. }
  clearbody g.
  rewrite size_app, size_cons in Hf, Hsize by lia.
  pose proof (size_nonneg pre). pose proof (size_nonneg l). rewrite (u32_small g) by (unfold is_u32; lia).
  destruct (Z.ltb_spec (start x) s), (Z.ltb_spec e (start x + count x)).
  - edestruct (free_split pre x l) as (a' & c & -> & -> & Hfr).
    9: simpl; eexists; rewrite !u32_small by (unfold is_u32; lia); split; [done|exact Hfr].
    all: simpl; try done; rewrite size_app, size_cons by lia; lia.
  - rewrite u32_small by (unfold is_u32; lia).
    edestruct (IH (pre ++ [mk_ext (start x) (s - start x)])) as (a' & -> & Hfr);
      [done|done| | |..|eexists; split; [done|]; revert Hfr; apply freed_ext; intros b];
      rewrite ?snoc_middle; simpl.
    + apply separated_app. split; [done|]. simpl. repeat split; try done; try lia.
      eapply separated_weaken; [|done]. lia.
    + intros b. autorewrite with extent. simpl. specialize (Hpre b). intuition lia.
    + rewrite size_app, size_cons by (simpl; lia). simpl. lia.
    + autorewrite with extent. simpl. intuition lia.
  - rewrite !u32_small by (unfold is_u32; lia). eexists. split; [done|]. apply freed_intro; simpl; try done.
    + apply separated_app. split; [done|]. simpl.
      replace (e + (start x + count x - e)) with (start x + count x) by lia. repeat split; try done; lia.
    + rewrite size_app, size_cons by (simpl; lia). simpl. lia.
    + intros b. autorewrite with extent. simpl. specialize (Hpre b).
      pose proof (separated_le _ _ _ b Hs). intuition lia.
  - edestruct (IH pre) as (a' & -> & Hfr);
      [done|done| |done|..|eexists; split; [done|]; revert Hfr; apply freed_ext; intros b]; simpl.
    + apply separated_app. split; [done|]. eapply separated_weaken; [|done]. lia.
    + rewrite size_app. lia.
    + autorewrite with extent. intuition lia.
Qed.
End free_loop.

Lemma free_run_spec can_alloc st cnt a :
  wf a → is_u32 st → is_u32 cnt → (∀ b, can_alloc b = true) →
  ∃ a', block_free_run can_alloc st cnt a = Ret a' ∧ wf a' ∧ total_blocks a' = total_blocks a ∧
    ∀ b, taken a' b ↔ taken a b ∧ ¬ (st ≤ b < st + cnt).
Proof.
  intros Hwf Hst Hcnt Hoom. unfold block_free_run, is_u32 in *.
  destruct (Z.eqb_spec cnt 0) as [->|]; [exists a; split_and!; try done; intros; intuition lia|].
  rewrite u64_small by (unfold is_u64; lia). destruct Hwf as [Ht He Hf Hc].
  apply (free_loop_spec can_alloc st (st + cnt) (total_blocks a) ltac:(lia) ltac:(lia) Hoom (ext a) []); try done.
  intros b Hb%elem_blocks_nil. done.
Qed.

(** ** What the allocator promises *)

Lemma init_wf total a : 0 ≤ total ≤ 4294967295 → 0 ≤ cap a → wf (block_alloc_init total a).
Proof. intros. split; simpl; try done. lia. Qed.

(** [block_alloc_run] is first fit on the set of used blocks: when some
    run of [cnt] free blocks lies in the volume above block 0 it returns the
    lowest one, which becomes used and nothing else changes; otherwise it
    returns 0xFFFFFFFF and changes nothing. The free count stays exact and
    the extent list sorted and separated. It always returns. *)
Theorem block_alloc_run_correct can_alloc cnt a :
  wf a → 0 < cnt < 4294967296 → (∀ b, can_alloc b = true) →
  ∃ r a', block_alloc_run can_alloc cnt a = Ret (r, a') ∧ wf a' ∧ alloc_answer cnt a r a'.
Proof. apply alloc_run_spec. Qed.

(** [block_free_run] takes exactly the blocks [st, st + cnt) out of the
    set of used blocks, whatever extents they cross: extents are cut, split
    in two or dropped, the list stays sorted and separated and the free count
    grows by the blocks that were used. It always returns. *)
Theorem block_free_run_correct can_alloc st cnt a :
  wf a → is_u32 st → is_u32 cnt → (∀ b, can_alloc b = true) →
  ∃ a', block_free_run can_alloc st cnt a = Ret a' ∧ wf a' ∧ total_blocks a' = total_blocks a ∧
    ∀ b, taken a' b ↔ taken a b ∧ ¬ (st ≤ b < st + cnt).
Proof. apply free_run_spec. Qed.

(** *** Sequences of calls *)

(** The allocator and the runs its callers hold. *)
Inductive alloc_step (can_alloc : Z → bool) :
    block_alloc * list minimafs_extent → block_alloc * list minimafs_extent → Prop :=
| step_alloc a a' own cnt r :
    0 < cnt < 4294967296 → block_alloc_run can_alloc cnt a = Ret (r, a') → r ≠ NO_BLOCK →
    alloc_step can_alloc (a, own) (a', mk_ext r cnt :: own)
| step_full a a' own cnt :
    0 < cnt < 4294967296 → block_alloc_run can_alloc cnt a = Ret (NO_BLOCK, a') →
    alloc_step can_alloc (a, own) (a', own)
| step_free a a' own1 own2 x :
    block_free_run can_alloc (start x) (count x) a = Ret a' →
    alloc_step can_alloc (a, own1 ++ x :: own2) (a', own1 ++ own2).

(** No block is in two runs; a block is used exactly when it was at the start
    ([base]) or is in a run; runs lie in the volume, above block 0, and hold
    no block of [base]. *)
Record held (base : list Z) (total : Z) (st : block_alloc * list minimafs_extent) : Prop := {
  held_wf : wf st.1;
  held_total : total_blocks st.1 = total;
  held_taken : ∀ b, taken st.1 b ↔ b ∈ base ++ blocks st.2;
  held_range : Forall (λ x, 1 ≤ start x ∧ 0 < count x ∧ start x + count x ≤ total) st.2;
  held_apart : NoDup (base ++ blocks st.2)
}.

Lemma held_free_count base total a own :
  held base total (a, own) → free_blocks a = total - Z.of_nat (length base) - size own.
Proof.
  intros [[_ He Hf _] <- Htk _ Hnd]. simpl in *. rewrite Hf.
  assert (Permutation (blocks (ext a)) (base ++ blocks own)) as ->.
  { apply NoDup_Permutation; [by eapply wf_nodup|done|exact Htk]. }
  rewrite length_app. unfold size. lia.
Qed.

Lemma held_alloc can_alloc base total a a' own cnt r :
  (∀ b, can_alloc b = true) → 0 < cnt < 4294967296 → held base total (a, own) →
  block_alloc_run can_alloc cnt a = Ret (r, a') → r ≠ NO_BLOCK → held base total (a', mk_ext r cnt :: own).
Proof.
  intros Hoom Hcnt [Hwf Ht Htk Hrg Hap] Hrun Hne. simpl in *.
  destruct (alloc_run_spec can_alloc cnt a Hwf Hcnt Hoom) as (r1 & a1 & Hrun' & Hwf' & Hans).
  rewrite Hrun in Hrun'. injection Hrun' as <- <-. unfold alloc_answer in Hans.
  rewrite (proj2 (Z.eqb_neq _ _)) in Hans by done. destruct Hans as (Hr & [Hle Hfree] & _ & Hb & Ht' & _).
  split; simpl; [done|congruence|..].
  - intros b. rewrite Hb, Htk, !elem_of_app, elem_blocks_cons. simpl. tauto.
  - constructor; [simpl; lia|done].
  - rewrite blocks_cons. simpl. rewrite (Permutation_app_comm (seqZ _ _)), app_assoc.
    apply NoDup_app. split; [done|]. split; [|apply NoDup_seqZ].
    intros b Hin Hsq%elem_of_seqZ. by apply (Hfree b), Htk.
Qed.

Lemma held_free can_alloc base total a a' own1 own2 x :
  (∀ b, can_alloc b = true) → held base total (a, own1 ++ x :: own2) →
  block_free_run can_alloc (start x) (count x) a = Ret a' → held base total (a', own1 ++ own2).
Proof.
  intros Hoom [Hwf Ht Htk Hrg Hap] Hrun. simpl in *.
  apply Forall_app in Hrg as [Hrg1 [Hx Hrg2]%Forall_cons]. pose proof (wf_total _ Hwf).
  destruct (free_run_spec can_alloc (start x) (count x) a Hwf) as (a1 & Hrun' & Hwf' & Ht' & Hb);
    [unfold is_u32; lia..|done|]. rewrite Hrun in Hrun'. injection Hrun' as <-.
  assert (base ++ blocks (own1 ++ x :: own2) ≡ₚ seqZ (start x) (count x) ++ base ++ blocks (own1 ++ own2)) as Hperm.
  { rewrite !blocks_app, blocks_cons, !app_assoc, (Permutation_app_comm (base ++ _)), !app_assoc.
    done. }
  rewrite Hperm in Hap. apply NoDup_app in Hap as (_ & Hout & Hap).
  split; simpl; [done|congruence| |by apply Forall_app|done].
  intros b. rewrite Hb, Htk, Hperm, elem_of_app, elem_of_seqZ.
  specialize (Hout b). rewrite elem_of_seqZ in Hout. tauto.
Qed.

Lemma held_step can_alloc base total st st' :
  (∀ b, can_alloc b = true) → alloc_step can_alloc st st' → held base total st → held base total st'.
Proof.
  intros Hoom Hstep Hst. destruct Hstep as [| a a' own cnt Hcnt Hrun |]; [by eapply held_alloc| |by eapply held_free].
  destruct (alloc_run_spec can_alloc cnt a (held_wf _ _ _ Hst) Hcnt Hoom) as (r1 & a1 & Hrun' & _ & Hans).
  rewrite Hrun in Hrun'. injection Hrun' as <- <-. unfold alloc_answer in Hans.
  rewrite Z.eqb_refl in Hans. by destruct Hans as [-> _].
Qed.

(** C23. With a heap that grants the extent array every request, whatever
    sequence of [block_alloc_run] and [block_free_run] calls the callers make,
    each freeing only runs it was given, no block is ever in two runs or in a
    run and in use from the start, every run lies in the volume above block 0,
    the blocks in use are exactly those, and the free count is exact. When the
    heap refuses, [alloc_oom_hands_out_twice] shows that this fails. *)
Theorem block_runs_exclusive can_alloc base total a0 st :
  (∀ b, can_alloc b = true) → held base total (a0, []) → rtc (alloc_step can_alloc) (a0, []) st →
  held base total st ∧ free_blocks st.1 = total - Z.of_nat (length base) - size st.2.
Proof.
  intros Hoom H0 Hsteps. assert (held base total st) as Hst; [|destruct st; eauto using held_free_count].
  induction Hsteps as [|? ? ? Hstep _ IH]; eauto using held_step.
Qed.

(** *** When the heap refuses *)

(** A run that could not be recorded is handed out again by the next call. *)
Lemma alloc_oom_hands_out_twice :
  let a0 := block_alloc_init 64 (mk_alloc [] 0 0 0) in
  ∃ a1 a2, block_alloc_run (λ _, false) 4 a0 = Ret (1, a1) ∧ block_alloc_run (λ _, false) 4 a1 = Ret (1, a2).
Proof. exists (mk_alloc [] 0 64 60), (mk_alloc [] 0 64 56). split; vm_compute; reflexivity. Qed.

(** ** Witnesses *)

(** A volume of 64 blocks with blocks 0, 1, 4 to 7 and 10 to 12 in use. *)
Definition demo : block_alloc := mk_alloc [mk_ext 0 2; mk_ext 4 4; mk_ext 10 3] 256 64 55.
Lemma demo_wf : wf demo.
Proof. split; simpl; try done; lia. Qed.

Lemma block_alloc_run_correct_witness :
  wf demo ∧ alloc_answer 3 demo 13 (mk_alloc [mk_ext 0 2; mk_ext 4 4; mk_ext 10 6] 256 64 52).
Proof.
  split; [exact demo_wf|].
  destruct (block_alloc_run_correct (λ _, true) 3 demo demo_wf) as (r & a' & Hr & _ & Ha); [lia|done|].
  vm_compute in Hr. injection Hr as <- <-. exact Ha.
Defined.

Lemma block_free_run_correct_witness :
  wf demo ∧ wf (mk_alloc [mk_ext 0 2; mk_ext 4 1; mk_ext 12 1] 256 64 60).
Proof.
  split; [exact demo_wf|].
  destruct (block_free_run_correct (λ _, true) 5 7 demo demo_wf) as (a' & Hr & Hw & _); [done..|].
  vm_compute in Hr. injection Hr as <-. exact Hw.
Defined.

Lemma demo_held : held (blocks (ext demo)) 64 (demo, []).
Proof.
  split; simpl; [exact demo_wf|done| |constructor|].
  - done.
  - apply (wf_nodup 0 64 (ext demo)). simpl. lia.
Qed.

Lemma block_runs_exclusive_witness :
  held (blocks (ext demo)) 64 (mk_alloc [mk_ext 0 2; mk_ext 4 4; mk_ext 10 6] 256 64 52, [mk_ext 13 3]).
Proof.
  apply (block_runs_exclusive (λ _, true) (blocks (ext demo)) 64 demo).
  - done.
  - exact demo_held.
  - eapply rtc_l; [|apply rtc_refl]. apply step_alloc; [lia|vm_compute; reflexivity|done].
Defined.
End extent.
