(* ===== verification/FsText.v ===== *)
(** * The on-disk texts of MinimaFS ([src/impl/filesystem/minimafs.c])

    Descriptors and file headers are lines of text. A C string is the list of
    its bytes without the terminator; a pointer into a string is the suffix it
    points at. [chr] and [sub] are [strchr] and [strstr] of string.c on such
    lists ([strstr_is_sub] ties them to the memory-level routines of
    [CString.v]). An array [char x[N]] that is filled by a bounded copy holds
    at most N - 1 bytes.

    The theorems: a file header fits the buffer it is built in; file headers,
    folder descriptors and storage descriptors are read back as they were
    written, for every content the format can carry; and what the formats
    cannot carry. *)

From S2P Require Import Prelude CString.

Open Scope c_scope.

Module fstext.

(** ** Strings *)

Fixpoint chr (c : Z) (s : list Z) : option (list Z) :=
  match s with
  | [] => None
  | x :: r => if x =? c then Some s else chr c r
  end.

(** [strncmp(s, p, strlen(p)) == 0] *)
Definition starts (p s : list Z) : bool := bool_decide (take (length p) s = p).

Fixpoint sub (p s : list Z) : option (list Z) :=
  if starts p s then Some s else match s with [] => None | _ :: r => sub p r end.

(** [strrchr(s, c)] as the index of the last [c]. *)
Fixpoint rchr (c : Z) (s : list Z) : option nat :=
  match s with
  | [] => None
  | x :: r => match rchr c r with
              | Some i => Some (S i)
              | None => if x =? c then Some 0%nat else None
              end
  end.

(** [q - p] for a pointer [q] into the string at [p]. *)
Definition ptr_diff (q p : list Z) : nat := length p - length q.

(** The string a buffer holds: its bytes up to the first NUL. *)
Fixpoint c_string (buf : list Z) : list Z :=
  match buf with
  | [] => []
  | x :: r => if x =? 0 then [] else x :: c_string r
  end.

(** ** Sizes and constants of [minimafs.h] *)

Definition MINIMAFS_BLOCK_SIZE : Z := 4096.
Definition MINIMAFS_MAX_FILENAME : nat := 256.
Definition MINIMAFS_MAX_ENTRY_NAME : nat := 64.
Definition MINIMAFS_MAX_PATH : nat := 1024.
Definition MINIMAFS_MAX_DRIVES : Z := 99.
Definition MINIMAFS_MAX_ROOT_ENTRIES : nat := 64.
Definition MINIMAFS_MAGIC : Z := 1296649798.

(** ** Tags *)

Definition tag_start (tag : string) : list Z := take 127 (txt "@" ++ txt tag ++ txt ":").

(** [len >= max_len ? max_len - 1 : len] bytes from [start]. *)
Definition copy_value (max_len len : nat) (s : list Z) : list Z :=
  take (if (max_len <=? len)%nat then max_len - 1 else len) s.

(** Drop trailing blanks. *)
Fixpoint trim (v : list Z) : list Z :=
  match v with
  | [] => []
  | c :: r => match trim r with
              | [] => if (c =? 32) || (c =? 9) then [] else [c]
              | r' => c :: r'
              end
  end.

Definition parse_tag (line : list Z) (tag : string) (max_len : nat) : option (list Z) :=
  match sub (tag_start tag) line with
  | None => None
  | Some p =>
      let s := drop (length (tag_start tag)) p in
      match s with
      | 39 :: s' =>
          match chr 39 s' with
          | None => None
          | Some e => Some (copy_value max_len (ptr_diff e s') s')
          end
      | _ =>
          match chr 64 s with
          | None => None
          | Some e => Some (trim (copy_value max_len (ptr_diff e s) s))
          end
      end
  end.

Definition parse_tag_bool (line : list Z) (tag : string) : bool :=
  match parse_tag line tag 16 with
  | None => false
  | Some v => bool_decide (v = txt "True") || bool_decide (v = txt "true") || bool_decide (v = txt "1")
  end.

Definition hex_value (c : Z) : Z :=
  if (48 <=? c) && (c <=? 57) then c - 48
  else if (97 <=? c) && (c <=? 102) then c - 97 + 10
  else if (65 <=? c) && (c <=? 70) then c - 65 + 10
  else 0.

Definition parse_hex (v : list Z) : Z := foldl (λ r c, u64 (u64 (Z.shiftl r 4) + hex_value c)) 0 v.
Definition parse_dec (v : list Z) : Z :=
  foldl (λ r c, if (48 <=? c) && (c <=? 57) then u64 (r * 10 + (c - 48)) else r) 0 v.

Definition parse_tag_uint64 (line : list Z) (tag : string) : Z :=
  match parse_tag line tag 32 with
  | None => 0
  | Some v =>
      match v with
      | 48 :: x :: r => if (x =? 120) || (x =? 88) then parse_hex r else parse_dec v
      | _ => parse_dec v
      end
  end.

(** ** File headers *)

Record minimafs_file_metadata := mk_meta {
  filename : list Z; filetype : list Z; fileformat : list Z;
  file_length : Z; data_length : Z;
  created_date : list Z; last_changed : list Z; parent_folder : list Z;
  runnable : bool; entrypoint : Z; run_with : list Z; hidden : bool;
  block_offset : Z; block_count : Z
}.

Definition meta_zero : minimafs_file_metadata := mk_meta [] [] [] 0 0 [] [] [] false 0 [] false 0 0.

(** [strstr(line, "@X:")] *)
Definition has_tag (line : list Z) (tag : string) : bool :=
  bool_decide (is_Some (sub (txt "@" ++ txt tag ++ txt ":") line)).

Definition text_field (line : list Z) (tag : string) (size : nat) (old : list Z) : list Z :=
  if has_tag line tag then default old (parse_tag line tag size) else old.
Definition num_field (line : list Z) (tag : string) (old : Z) : Z :=
  if has_tag line tag then parse_tag_uint64 line tag else old.
Definition bool_field (line : list Z) (tag : string) (old : bool) : bool :=
  if has_tag line tag then parse_tag_bool line tag else old.

(** The twelve tests of the loop body; each sets a field of its own. *)
Definition parse_header_line (line : list Z) (m : minimafs_file_metadata) : minimafs_file_metadata :=
  mk_meta (text_field line "FILENAME" 256 (filename m))
    (text_field line "FILETYPE" 64 (filetype m))
    (text_field line "FILEFORMAT" 16 (fileformat m))
    (if has_tag line "FILELEN" then u32 (parse_tag_uint64 line "FILELEN") else file_length m)
    (if has_tag line "DATALEN" then u32 (parse_tag_uint64 line "DATALEN") else data_length m)
    (text_field line "CREATEDDATE" 32 (created_date m))
    (text_field line "LASTCHANGED" 32 (last_changed m))
    (text_field line "PARENTFOLDER" 1024 (parent_folder m))
    (bool_field line "RUNNABLE" (runnable m))
    (num_field line "ENTRYPOINT" (entrypoint m))
    (text_field line "RUNWITH" 1024 (run_with m))
    (bool_field line "HIDDEN" (hidden m))
    (block_offset m) (block_count m).

(** The next line: past the newline, or the end of the string. *)
Definition next_line (line : list Z) : list Z :=
  match chr 10 line with Some e => drop 1 e | None => [] end.

Fixpoint parse_header_loop (fuel : nat) (line : list Z) (m : minimafs_file_metadata) :
    outcome minimafs_file_metadata :=
  match fuel with
  | O => Hang
  | S fuel' =>
      match line with
      | [] => Ret m
      | _ => if starts (txt "@DATA@") line then Ret m
             else parse_header_loop fuel' (next_line line) (parse_header_line line m)
      end
  end.

(** [None]: the function returned false and left the metadata alone. *)
Definition minimafs_parse_file_header (data : list Z) : outcome (option minimafs_file_metadata) :=
  if negb (starts (txt "@HEADER@") data) then Ret None
  else let* m := parse_header_loop (S (length data)) data meta_zero in Ret (Some m).

Definition NL : list Z := [10].

(** The text left in the buffer; [header_size] is its length. *)
Definition header_text (m : minimafs_file_metadata) : list Z :=
  txt "@HEADER@" ++ NL ++
  txt "@FILETYPE:" ++ filetype m ++ txt "@" ++ NL ++
  txt "@FILEFORMAT:" ++ fileformat m ++ txt "@" ++ NL ++
  txt "@FILELEN:" ++ uint_text (u32 (file_length m)) ++ txt "@" ++ NL ++
  txt "@DATALEN:" ++ uint_text (u32 (data_length m)) ++ txt "@" ++ NL ++
  txt "@FILENAME:'" ++ filename m ++ txt "'@" ++ NL ++
  txt "@CREATEDDATE:'" ++ created_date m ++ txt "'@" ++ NL ++
  txt "@LASTCHANGED:'" ++ last_changed m ++ txt "'@" ++ NL ++
  txt "@PARENTFOLDER:'" ++ parent_folder m ++ txt "'@" ++ NL ++
  (if runnable m then
     txt "@RUNNABLE:True@" ++ NL ++
     (if entrypoint m =? 0 then [] else txt "@ENTRYPOINT:0x" ++ hex_text (entrypoint m) ++ txt "@" ++ NL) ++
     (match run_with m with [] => [] | w => txt "@RUNWITH:" ++ w ++ txt "@" ++ NL end)
   else txt "@RUNNABLE:False@" ++ NL) ++
  txt "@HIDDEN:" ++ (if hidden m then txt "True" else txt "False") ++ txt "@" ++ NL ++
  txt "@DATA@" ++ NL.

Definition header_capacity (m : minimafs_file_metadata) : Z :=
  256 + Z.of_nat (length (filetype m) + length (fileformat m) + length (filename m) +
                  length (created_date m) + length (last_changed m) + length (parent_folder m) +
                  length (run_with m)).

(** [can_alloc bytes]: [alloc_unzeroed] succeeds. Writing past the buffer is
    [Undef]. *)
Definition minimafs_generate_file_header (can_alloc : Z → bool) (m : minimafs_file_metadata) :
    outcome (option (list Z)) :=
  if negb (can_alloc (header_capacity m)) then Ret None
  else if header_capacity m <? Z.of_nat (length (header_text m)) + 1 then Undef
  else Ret (Some (header_text m)).

(** ** Folder descriptors *)

Inductive minimafs_filetype :=
| MINIMAFS_TYPE_FILE | MINIMAFS_TYPE_DIR | MINIMAFS_TYPE_EXECUTABLE | MINIMAFS_TYPE_SYMLINK.
#[export] Instance minimafs_filetype_eq_dec : EqDecision minimafs_filetype.
Proof. solve_decision. Defined.

Record minimafs_dir_entry := mk_entry {
  e_name : list Z; e_type : minimafs_filetype; e_block_offset : Z; e_block_count : Z; e_hidden : bool
}.
#[export] Instance minimafs_dir_entry_eq_dec : EqDecision minimafs_dir_entry.
Proof. solve_decision. Defined.

(** [entries] holds the [entry_count] live ones. *)
Record minimafs_folder_desc := mk_folder {
  path : list Z; f_block_offset : Z; entries : list minimafs_dir_entry
}.

Definition is_dec (c : Z) : bool := (48 <=? c) && (c <=? 57).

Fixpoint skip_to_digit (s : list Z) : list Z :=
  match s with [] => [] | c :: r => if is_dec c then s else skip_to_digit r end.
Fixpoint dec_prefix (r : Z) (s : list Z) : Z :=
  match s with [] => r | c :: s' => if is_dec c then dec_prefix (u32 (r * 10 + (c - 48))) s' else r end.
Definition parse_uint32 (s : list Z) : Z := dec_prefix 0 (skip_to_digit s).

(** [line] runs on to the end of the block, past its newline. *)
Definition parse_folder_entry_line (line : list Z) : option minimafs_dir_entry :=
  if negb (starts (txt "ENTRY:") line) then None
  else
    let p := drop 6 line in
    match chr 44 p with
    | None => None
    | Some comma =>
        let name := copy_value MINIMAFS_MAX_ENTRY_NAME (ptr_diff comma p) p in
        let type_start := drop 1 comma in
        match sub (txt ",BLOCK:") type_start with
        | None => None
        | Some block_tag =>
            let type_buf := copy_value 8 (ptr_diff block_tag type_start) type_start in
            Some (mk_entry name
              (if bool_decide (type_buf = txt "DIR") then MINIMAFS_TYPE_DIR else MINIMAFS_TYPE_FILE)
              (parse_uint32 (drop 7 block_tag))
              (match sub (txt ",COUNT:") block_tag with Some t => parse_uint32 (drop 7 t) | None => 1 end)
              (match sub (txt ",HIDDEN:") block_tag with
               | Some t => negb (parse_uint32 (drop 8 t) =? 0) | None => false end))
        end
    end.

(** One round of the loop of [minimafs_read_folder_desc_block]; [line] is not
    empty. *)
Definition parse_folder_line (line : list Z) (d : minimafs_folder_desc) : minimafs_folder_desc :=
  let line_end := default [] (chr 10 line) in
  if starts (txt "FOLDER:") line then
    mk_folder (copy_value MINIMAFS_MAX_PATH (ptr_diff line_end (drop 7 line)) (drop 7 line))
      (f_block_offset d) (entries d)
  else if starts (txt "ENTRY:") line && (length (entries d) <? MINIMAFS_MAX_ROOT_ENTRIES)%nat then
    match parse_folder_entry_line line with
    | Some e => mk_folder (path d) (f_block_offset d) (entries d ++ [e])
    | None => d
    end
  else d.

Fixpoint parse_folder_loop (fuel : nat) (line : list Z) (d : minimafs_folder_desc) :
    outcome minimafs_folder_desc :=
  match fuel with
  | O => Hang
  | S fuel' =>
      match line with
      | [] => Ret d
      | _ => parse_folder_loop fuel' (next_line line) (parse_folder_line line d)
      end
  end.

(** [raw] is the block read into the buffer; the code puts a NUL after it. *)
Definition parse_folder_desc (block : Z) (raw : list Z) : outcome minimafs_folder_desc :=
  let text := c_string raw in
  parse_folder_loop (S (length text)) text (mk_folder [] block []).

Definition entry_line (e : minimafs_dir_entry) : list Z :=
  txt "ENTRY:" ++ e_name e ++ txt "," ++
  (if bool_decide (e_type e = MINIMAFS_TYPE_DIR) then txt "DIR" else txt "FILE") ++
  txt ",BLOCK:" ++ uint_text (u32 (e_block_offset e)) ++ txt ",COUNT:" ++ uint_text (u32 (e_block_count e)) ++
  txt ",HIDDEN:" ++ (if e_hidden e then txt "1" else txt "0") ++ NL.

(** The entries, each after the test of the room left: [None] when it fails. *)
Fixpoint entry_lines (buffer : list Z) (l : list minimafs_dir_entry) : option (list Z) :=
  match l with
  | [] => Some buffer
  | e :: r => if MINIMAFS_BLOCK_SIZE - 128 <? Z.of_nat (length buffer) then None
              else entry_lines (buffer ++ entry_line e) r
  end.

(** The text of a folder descriptor; [None]: "folder.desc too large". *)
Definition folder_text (d : minimafs_folder_desc) : option (list Z) :=
  match entry_lines (txt "FOLDER:" ++ path d ++ NL ++ txt "ENTRIES:" ++
                     uint_text (Z.of_nat (length (entries d))) ++ NL) (entries d) with
  | None => None
  | Some t => Some (t ++ txt "@END" ++ NL)
  end.

(** A block of text, padded with zeros; longer text is out of the buffer
    (which has one byte more than a block, for the NUL). *)
Definition text_block (t : list Z) : outcome (list Z) :=
  if MINIMAFS_BLOCK_SIZE <? Z.of_nat (length t) then Undef
  else Ret (t ++ replicate (Z.to_nat MINIMAFS_BLOCK_SIZE - length t) 0).

(** ** Storage descriptors *)

Record minimafs_storage_desc := mk_sdesc {
  magic : Z; drive_name : list Z; drive_number : Z; password : list Z; password_protected : bool;
  total_size : Z; used_size : Z; free_size : Z;
  total_blocks : Z; used_blocks : Z; free_blocks : Z; root_block : Z;
  filesystem_label : list Z; sd_created_date : list Z; last_mounted : list Z
}.

Definition sd_zero : minimafs_storage_desc := mk_sdesc 0 [] 0 [] false 0 0 0 0 0 0 0 [] [] [].

Definition num_line (tag : string) (v : Z) : list Z := txt "@" ++ txt tag ++ txt ":" ++ uint_text (u32 v) ++ txt "@" ++ NL.
Definition str_line (tag : string) (v : list Z) : list Z := txt "@" ++ txt tag ++ txt ":'" ++ v ++ txt "'@" ++ NL.

Definition storage_text (sd : minimafs_storage_desc) : list Z :=
  num_line "MAGIC" (magic sd) ++
  num_line "DRIVE_NUMBER" (drive_number sd) ++
  str_line "DRIVE_NAME" (drive_name sd) ++
  str_line "PASSWORD" (password sd) ++
  txt "@PASSWORDPROTECTED:" ++ (if password_protected sd then txt "True" else txt "False") ++ txt "@" ++ NL ++
  num_line "TOTAL_SIZE_HI" (Z.shiftr (total_size sd) 32) ++
  num_line "TOTAL_SIZE_LO" (Z.land (total_size sd) 4294967295) ++
  num_line "USED_SIZE_HI" (Z.shiftr (used_size sd) 32) ++
  num_line "USED_SIZE_LO" (Z.land (used_size sd) 4294967295) ++
  num_line "FREE_SIZE_HI" (Z.shiftr (free_size sd) 32) ++
  num_line "FREE_SIZE_LO" (Z.land (free_size sd) 4294967295) ++
  num_line "TOTAL_BLOCKS" (total_blocks sd) ++
  num_line "USED_BLOCKS" (used_blocks sd) ++
  num_line "FREE_BLOCKS" (free_blocks sd) ++
  num_line "ROOT_BLOCK" (root_block sd) ++
  str_line "FILESYSTEM_LABEL" (filesystem_label sd) ++
  str_line "CREATEDDATE" (sd_created_date sd) ++
  str_line "LASTMOUNTED" (last_mounted sd) ++
  txt "@END@" ++ NL.

Definition parse_size (line : list Z) (hi lo : string) : Z :=
  Z.lor (u64 (Z.shiftl (parse_tag_uint64 line hi) 32)) (parse_tag_uint64 line lo).

(** The fields of [minimafs_read_storage_desc] from the block's text. *)
Definition storage_of (buffer : list Z) : minimafs_storage_desc :=
  mk_sdesc (u32 (parse_tag_uint64 buffer "MAGIC"))
    (default [] (parse_tag buffer "DRIVE_NAME" 64))
    (u8 (parse_tag_uint64 buffer "DRIVE_NUMBER"))
    (default [] (parse_tag buffer "PASSWORD" 64))
    (parse_tag_bool buffer "PASSWORDPROTECTED")
    (parse_size buffer "TOTAL_SIZE_HI" "TOTAL_SIZE_LO")
    (parse_size buffer "USED_SIZE_HI" "USED_SIZE_LO")
    (parse_size buffer "FREE_SIZE_HI" "FREE_SIZE_LO")
    (u32 (parse_tag_uint64 buffer "TOTAL_BLOCKS"))
    (u32 (parse_tag_uint64 buffer "USED_BLOCKS"))
    (u32 (parse_tag_uint64 buffer "FREE_BLOCKS"))
    (u32 (parse_tag_uint64 buffer "ROOT_BLOCK"))
    (default [] (parse_tag buffer "FILESYSTEM_LABEL" 64))
    (default [] (parse_tag buffer "CREATEDDATE" 32))
    (default [] (parse_tag buffer "LASTMOUNTED" 32)).

(** The check at its end. *)
Definition storage_valid (sd : minimafs_storage_desc) : bool :=
  negb (negb (magic sd =? MINIMAFS_MAGIC) || (total_blocks sd =? 0) || (total_size sd =? 0) || (root_block sd =? 0)).

(** ** Paths *)

(** [*drive_number] after each digit; [None]: a character that is not one. *)
Fixpoint drive_digits (n : Z) (s : list Z) : option Z :=
  match s with
  | [] => Some n
  | c :: r => if is_dec c then drive_digits (u8 (n * 10 + (c - 48))) r else None
  end.

(** [names] lists, for the slots of [g_drives] in order, [mounted], the name
    and the number. The caller's [local_path] has room for [MINIMAFS_MAX_PATH]
    bytes and the copy has no bound: more is [Undef]. *)
Definition minimafs_parse_path (names : list (bool * list Z * Z)) (p : list Z) :
    outcome (option (Z * list Z)) :=
  match chr 58 p with
  | None => Ret None
  | Some colon =>
      let drive_len := ptr_diff colon p in
      if (drive_len =? 0)%nat || (63 <? drive_len)%nat then Ret None
      else
        let drive_str := take drive_len p in
        let number :=
          match drive_str with
          | c :: _ =>
              if is_dec c then
                match drive_digits 0 drive_str with
                | Some n => if MINIMAFS_MAX_DRIVES <=? n then None else Some n
                | None => None
                end
              else snd <$> (list_find (λ x, x.1.1 = true ∧ x.1.2 = drive_str) names ≫= λ '(_, x), Some x)
          | [] => None
          end in
        match number with
        | None => Ret None
        | Some n => if (MINIMAFS_MAX_PATH <=? length (drop 1 colon))%nat then Undef
                    else Ret (Some (n, drop 1 colon))
        end
  end.

(** (parent, name), each copied into an array of its own *)
Definition minimafs_split_local_path (p : list Z) : outcome (list Z * list Z) :=
  let '(parent, name) := match rchr 47 p with
                         | Some i => (take i p, drop (S i) p)
                         | None => ([], p)
                         end in
  if (MINIMAFS_MAX_FILENAME <=? length name)%nat || (MINIMAFS_MAX_PATH <=? length parent)%nat then Undef
  else Ret (parent, name).

(** [minimafs_find_entry_in_folder]: the first entry of that name. *)
Fixpoint find_entry (l : list minimafs_dir_entry) (name : list Z) : option nat :=
  match l with
  | [] => None
  | e :: r => if bool_decide (e_name e = name) then Some 0%nat else S <$> find_entry r name
  end.

(** ** Helpers for configuration files *)

(** The [index]-th piece of [s] between delimiters, [current] counting on. *)
Fixpoint split_loop (fuel : nat) (s delimiter : list Z) (index current : Z) : outcome (option (list Z)) :=
  match fuel with
  | O => Hang
  | S fuel' =>
      let next := sub delimiter s in
      let token := match next with Some p => take (ptr_diff p s) s | None => s end in
      if current =? index then Ret (Some token)
      else match next with
           | None => Ret None
           | Some p => split_loop fuel' (drop (length delimiter) p) delimiter index (i32 (current + 1))
           end
  end.

Definition getvalfromsplit (can_alloc : Z → bool) (s delimiter : list Z) (index : Z) (output_size : nat) :
    outcome (option (list Z)) :=
  if (index <? 1) || (output_size =? 0)%nat then Ret None
  else if negb (can_alloc (Z.of_nat (length s) + 1)) then Ret None
  else
    let* r := split_loop (S (S (Z.to_nat index))) s delimiter index 1 in
    Ret (take (output_size - 1) <$> r).

Fixpoint skip_blanks (s : list Z) : list Z :=
  match s with [] => [] | c :: r => if (c =? 32) || (c =? 9) then skip_blanks r else s end.
Fixpoint int_digits (r : Z) (s : list Z) : Z :=
  match s with [] => r | c :: s' => if is_dec c then int_digits (i32 (r * 10 + (c - 48))) s' else r end.
Definition minimafs_parse_int (s : list Z) : Z :=
  match skip_blanks s with
  | 45 :: r => i32 (- int_digits 0 r)
  | 43 :: r => int_digits 0 r
  | r => int_digits 0 r
  end.

(** ** Searching *)

Lemma chr_skip (c : Z) (s t : list Z) : c ∉ s → chr c (s ++ c :: t) = Some (c :: t).
Proof.
  induction s as [|x s IH]; intros Hc; simpl; [by rewrite Z.eqb_refl|].
  apply not_elem_of_cons in Hc as [? ?]. rewrite (proj2 (Z.eqb_neq x c)) by done. auto.
Qed.

Lemma ptr_diff_app s t : ptr_diff t (s ++ t) = length s.
Proof. unfold ptr_diff. rewrite length_app. lia. Qed.

Lemma starts_true p s : starts p s = true ↔ ∃ r, s = p ++ r.
Proof.
  unfold starts. rewrite bool_decide_eq_true. split.
  - intros E. exists (drop (length p) s). by rewrite <- E at 1; rewrite take_drop.
  - intros [r ->]. by rewrite take_app_length.
Qed.

Lemma starts_false p s : starts p s = false ↔ ¬ ∃ r, s = p ++ r.
Proof. rewrite <- starts_true. destruct (starts p s); naive_solver. Qed.

Lemma starts_app p r : starts p (p ++ r) = true.
Proof. apply starts_true. eauto. Qed.

Lemma sub_app p r : sub p (p ++ r) = Some (p ++ r).
Proof. destruct (p ++ r) eqn:E; simpl; rewrite <- E, starts_app; done. Qed.

Lemma sub_cons p x s : starts p (x :: s) = false → sub p (x :: s) = sub p s.
Proof. intros E. simpl. by rewrite E. Qed.

(** Text without the needle's first character is passed over. *)
Lemma sub_skip c p s t : c ∉ s → sub (c :: p) (s ++ t) = sub (c :: p) t.
Proof.
  induction s as [|x s IH]; intros Hc; [done|]. apply not_elem_of_cons in Hc as [? ?].
  rewrite <- app_comm_cons, sub_cons; [auto|]. apply starts_false. intros [r [=]]. done.
Qed.

Lemma sub_suffix p s q : sub p s = Some q → ∃ l, s = l ++ q ∧ starts p q = true.
Proof.
  induction s as [|x s IH]; simpl.
  - destruct (starts p []) eqn:E; intros Hq; simplify_eq. by exists [].
  - destruct (starts p (x :: s)) eqn:E; intros Hq; [simplify_eq; by exists []|].
    destruct (IH Hq) as (l & -> & ?). by exists (x :: l).
Qed.

(** A needle that does not occur in a text occurs in none of its suffixes. *)
Lemma sub_none_app p l s : sub p (l ++ s) = None → sub p s = None.
Proof.
  induction l as [|x l IH]; [done|]. rewrite <- app_comm_cons. simpl.
  destruct (starts p _); [done|apply IH].
Qed.

(** Occurring at most once: found from every suffix at the same place or not
    at all. *)
Definition once (p s : list Z) : Prop := ∀ l r, s = l ++ r → sub p r = None ∨ sub p r = sub p s.

Lemma once_intro p s : (∀ q, sub p s = Some q → sub p (drop 1 q) = None) → once p s.
Proof.
  induction s as [|x s IH]; intros Hq l r E.
  - symmetry in E. apply app_nil in E as [-> ->]. auto.
  - destruct l as [|y l]; simpl in E; [subst; auto|]. injection E as <- E.
    simpl in Hq |- *. destruct (starts p (x :: s)) eqn:Es.
    + left. specialize (Hq _ eq_refl). simpl in Hq. subst. by eapply sub_none_app.
    + by apply (IH Hq l).
Qed.

Lemma c_string_app t n : 0 ∉ t → c_string (t ++ replicate n 0) = t.
Proof.
  induction t as [|x t IH]; intros H0; simpl; [by destruct n|].
  apply not_elem_of_cons in H0 as [? ?]. rewrite (proj2 (Z.eqb_neq x 0)) by done. by rewrite IH.
Qed.

Lemma next_line_app l s : 10 ∉ l → next_line (l ++ NL ++ s) = s.
Proof. intros. unfold next_line, NL. simpl. by rewrite chr_skip. Qed.

Lemma next_line_length s : s ≠ [] → (length (next_line s) < length s)%nat.
Proof.
  intros Hs. unfold next_line. destruct (chr 10 s) as [e|] eqn:E.
  - rewrite length_drop. assert (length e ≤ length s)%nat; [|destruct s; [done|simpl in *; lia]].
    clear Hs. revert e E. induction s as [|x s IH]; intros e; simpl; [done|].
    destruct (x =? 10); intros; simplify_eq; simpl; [lia|]. apply IH in E. lia.
  - destruct s; simpl; [done|lia].
Qed.

Lemma next_line_suffix s : ∃ l, s = l ++ next_line s.
Proof.
  unfold next_line. destruct (chr 10 s) as [e|] eqn:E; [|exists s; by rewrite app_nil_r].
  revert e E. induction s as [|x s IH]; intros e; simpl; [done|].
  destruct (x =? 10); intros; simplify_eq.
  - by exists [x].
  - destruct (IH _ E) as [l Hl]. exists (x :: l). by rewrite Hl at 1.
Qed.

(** ** Tagged lines

    A text of lines [@TAG:value@]. Tags and values hold no [@]; a tag holds no
    colon and no newline. *)
Definition plain (l : list Z) : bool := forallb (λ c, negb (c =? 64) && negb (c =? 58) && negb (c =? 10)) l.
Definition pat (t : list Z) : list Z := 64 :: t ++ [58].
Definition field (f : list Z * list Z) : list Z := pat f.1 ++ f.2 ++ [64; 10].
Definition render (fs : list (list Z * list Z)) : list Z := fs ≫= field.

Lemma plain_not c l : plain l = true → c = 64 ∨ c = 58 ∨ c = 10 → c ∉ l.
Proof.
  intros Hp Hc Hin. unfold plain in Hp. rewrite forallb_forall in Hp.
  specialize (Hp c (proj1 (list_elem_of_In _ _) Hin)). bool_to_prop. lia.
Qed.

(** Two texts cut at their first [c] are cut at the same place. *)
Lemma cut_eq (c : Z) (l1 l2 r1 r2 : list Z) : c ∉ l1 → c ∉ l2 → l1 ++ c :: r1 = l2 ++ c :: r2 → l1 = l2 ∧ r1 = r2.
Proof.
  revert l2. induction l1 as [|x l1 IH]; intros [|y l2] H1 H2; simpl; intros E; simplify_eq; try done.
  1,2: set_solver.
  apply not_elem_of_cons in H1 as [_ H1]. apply not_elem_of_cons in H2 as [_ H2].
  destruct (IH l2 H1 H2 ltac:(eassumption)) as [-> ->]. done.
Qed.

Lemma sub_close t r : plain t = true → sub (pat t) (64 :: 10 :: r) = sub (pat t) r.
Proof.
  intros Ht. unfold pat. rewrite sub_cons, sub_cons; [done|..]; apply starts_false; intros [q Hq].
  - done.
  - injection Hq as Hq. destruct t as [|x t]; simpl in Hq; [done|]. injection Hq as <- _.
    apply (plain_not 10 _ Ht); [auto|]. left.
Qed.

Lemma field_app t v r : field (t, v) ++ r = 64 :: t ++ 58 :: v ++ 64 :: 10 :: r.
Proof. unfold field, pat. simpl. by rewrite <- !app_assoc. Qed.

Lemma sub_field_other t t' v r :
  plain t = true → plain t' = true → 64 ∉ v → t ≠ t' → sub (pat t) (field (t', v) ++ r) = sub (pat t) r.
Proof.
  intros Ht Ht' Hv Hne. pose proof (plain_not 58 _ Ht) as H58. pose proof (plain_not 58 _ Ht') as H58'.
  rewrite field_app, sub_cons.
  - unfold pat. rewrite (sub_skip 64) by (apply (plain_not 64); auto).
    change (58 :: v ++ 64 :: 10 :: r) with ([58] ++ v ++ 64 :: 10 :: r).
    rewrite (sub_skip 64 _ [58]) by set_solver. rewrite (sub_skip 64 _ v) by done. by apply sub_close.
  - apply starts_false. intros [q Hq]. injection Hq as Hq. rewrite <- !app_assoc in Hq. simpl in Hq.
    apply cut_eq in Hq as [-> _]; auto.
Qed.

(** A marker line [@WORD@] holds no tag. *)
Lemma sub_marker t w r :
  plain t = true → plain w = true → sub (pat t) (64 :: w ++ 64 :: 10 :: r) = sub (pat t) r.
Proof.
  intros Ht Hw. unfold pat. rewrite sub_cons.
  - rewrite (sub_skip 64) by (apply (plain_not 64); auto). by apply sub_close.
  - apply starts_false. intros [q Hq]. injection Hq as Hq. rewrite <- app_assoc in Hq. simpl in Hq.
    assert (64 ∉ t ∧ 58 ∉ t ∧ 64 ∉ w ∧ 58 ∉ w) as (? & ? & ? & ?) by (split_and!; apply plain_not; auto).
    clear Ht Hw. revert w Hq H1 H2. induction t as [|x t IH]; intros [|y w] Hq ??; simpl in Hq; simplify_eq.
    + set_solver.
    + set_solver.
    + apply (IH ltac:(set_solver) ltac:(set_solver) w); [done|set_solver..].
Qed.

Lemma render_cons f fs : render (f :: fs) = field f ++ render fs.
Proof. done. Qed.
Lemma render_app fs1 fs2 : render (fs1 ++ fs2) = render fs1 ++ render fs2.
Proof. apply bind_app. Qed.

Lemma sub_render t fs r :
  plain t = true → Forall (λ f, plain f.1 = true ∧ 64 ∉ f.2) fs → t ∉ fs.*1 →
  sub (pat t) (render fs ++ r) = sub (pat t) r.
Proof.
  intros Ht. induction fs as [|[t' v] fs IH]; intros Hfs Hin; [done|].
  apply Forall_cons in Hfs as [[? ?] Hfs]. apply not_elem_of_cons in Hin as [Hne Hin].
  rewrite render_cons, <- app_assoc, sub_field_other by done. by apply IH.
Qed.

(** The tag [t] of a rendered text is found at its line; after it, only in the
    rest. *)
Lemma sub_render_found t v fs1 fs2 r :
  plain t = true → Forall (λ f, plain f.1 = true ∧ 64 ∉ f.2) fs1 → t ∉ fs1.*1 →
  sub (pat t) (render (fs1 ++ (t, v) :: fs2) ++ r) = Some (pat t ++ v ++ 64 :: 10 :: render fs2 ++ r).
Proof.
  intros Ht Hfs Hin. rewrite render_app, <- app_assoc, sub_render, render_cons, <- app_assoc, field_app by done.
  replace (64 :: t ++ 58 :: v ++ 64 :: 10 :: render fs2 ++ r) with (pat t ++ v ++ 64 :: 10 :: render fs2 ++ r).
  - apply sub_app.
  - unfold pat. simpl. by rewrite <- !app_assoc.
Qed.

(** *** Reading a value back *)

(** The value of a tag in quotes. *)
Lemma parse_tag_quoted line tag size v r :
  sub (tag_start tag) line = Some (tag_start tag ++ (39 :: v ++ [39]) ++ r) → 39 ∉ v → (length v < size)%nat →
  parse_tag line tag size = Some v.
Proof.
  intros E Hv Hlen. unfold parse_tag. rewrite E, drop_app_length. simpl. rewrite <- app_assoc. simpl.
  rewrite chr_skip, ptr_diff_app by done. unfold copy_value.
  rewrite (proj2 (Nat.leb_gt _ _)) by lia. by rewrite take_app_length.
Qed.

(** A bare value: the text up to the next [@], without trailing blanks. *)
Lemma parse_tag_bare line tag size v r :
  sub (tag_start tag) line = Some (tag_start tag ++ v ++ 64 :: r) → 64 ∉ v → head v ≠ Some 39 →
  (length v < size)%nat → parse_tag line tag size = Some (trim v).
Proof.
  intros E Hv Hq Hlen. unfold parse_tag. rewrite E, drop_app_length.
  assert (chr 64 (v ++ 64 :: r) = Some (64 :: r)) as Hc by (by apply chr_skip).
  assert (copy_value size (ptr_diff (64 :: r) (v ++ 64 :: r)) (v ++ 64 :: r) = v) as Hcp.
  { rewrite ptr_diff_app. unfold copy_value. rewrite (proj2 (Nat.leb_gt _ _)) by lia. by rewrite take_app_length. }
  destruct v as [|x v]; simpl app in *; [by rewrite Hc, Hcp|].
  assert (x ≠ 39) by (intros ->; done).
  rewrite Hc, Hcp. destruct x as [|x|x]; try done. do 6 (destruct x as [x|x|]; try done).
Qed.

(** *** Numbers *)

Lemma parse_dec_digits l : Forall (λ c, 48 ≤ c ≤ 57) l → ∀ r,
  foldl (λ r c, if (48 <=? c) && (c <=? 57) then u64 (r * 10 + (c - 48)) else r) (u64 r) l =
  u64 (digits_value r l).
Proof.
  induction 1 as [|c l Hc Hl IH]; intros r; simpl; [done|].
  rewrite (proj2 (Z.leb_le _ _)), (proj2 (Z.leb_le _ _)) by lia. simpl.
  replace (u64 (u64 r * 10 + (c - 48))) with (u64 (r * 10 + (c - 48))) by wrap_lia. apply IH.
Qed.

Lemma uint_text_value v : is_u64 v → digits_value 0 (uint_text v) = v ∧ Forall (λ c, 48 ≤ c ≤ 57) (uint_text v).
Proof. intros Hv. destruct (uint_to_str_cstr (λ _, 0) v 0 Hv) as (_ & _ & ? & ?). done. Qed.

Lemma parse_dec_uint_text v : is_u64 v → parse_dec (uint_text v) = v.
Proof.
  intros Hv. destruct (uint_text_value v Hv) as [Hd Hf].
  unfold parse_dec. change 0 with (u64 0) at 1. rewrite parse_dec_digits by done. rewrite Hd. by apply u64_small.
Qed.

Lemma trim_id v : Forall (λ c, c ≠ 32 ∧ c ≠ 9) v → trim v = v.
Proof.
  induction 1 as [|c v [? ?] Hv IH]; simpl; [done|]. rewrite IH.
  destruct v; [|done]. by rewrite !(proj2 (Z.eqb_neq _ _)) by done.
Qed.

Lemma trim_digits v : Forall (λ c, 48 ≤ c ≤ 57) v → trim v = v.
Proof. intros H. apply trim_id. eapply Forall_impl; [exact H|]. simpl. lia. Qed.

(** A digit text is no hexadecimal number. *)
Definition number (v : list Z) : Z :=
  match v with
  | 48 :: x :: r => if (x =? 120) || (x =? 88) then parse_hex r else parse_dec v
  | _ => parse_dec v
  end.

Lemma number_digits v : Forall (λ c, 48 ≤ c ≤ 57) v → number v = parse_dec v.
Proof.
  intros Hv. destruct v as [|c [|x r]]; [done| |].
  - unfold number. destruct c as [|c|c]; try done. do 6 (destruct c as [c|c|]; try done).
  - apply Forall_cons in Hv as [_ [Hx _]%Forall_cons]. unfold number.
    rewrite !(proj2 (Z.eqb_neq _ _)) by lia. simpl.
    destruct c as [|c|c]; try done. do 6 (destruct c as [c|c|]; try done).
Qed.

Lemma hex_digit_value d : 0 ≤ d < 16 → hex_value (hex_digit d) = d ∧ hex_digit d ≠ 64 ∧ hex_digit d ≠ 32 ∧ hex_digit d ≠ 9.
Proof.
  intros. assert (d ∈ seqZ 0 16) as Hd by (apply elem_of_seqZ; lia).
  assert (forallb (λ d, (hex_value (hex_digit d) =? d) && negb (hex_digit d =? 64) && negb (hex_digit d =? 32) &&
                        negb (hex_digit d =? 9)) (seqZ 0 16) = true) as Hall by reflexivity.
  rewrite forallb_forall in Hall. specialize (Hall d (proj1 (list_elem_of_In _ _) Hd)). bool_to_prop. done.
Qed.

Lemma hex_loop_value fuel : ∀ v, 0 ≤ v < 16 ^ Z.of_nat fuel →
  parse_hex (reverse (hex_loop fuel v)) = u64 v ∧
  Forall (λ c, c ≠ 64 ∧ c ≠ 32 ∧ c ≠ 9) (hex_loop fuel v) ∧ (length (hex_loop fuel v) ≤ fuel)%nat.
Proof.
  induction fuel as [|fuel IH]; intros v Hv; simpl hex_loop.
  { simpl in Hv. replace v with 0 by lia. done. }
  destruct (Z.eqb_spec v 0) as [->|]; [split_and!; simpl; try done; lia|].
  assert (Z.land v 15 = v mod 16) as -> by (apply (land_ones_mod v 4); lia).
  rewrite Z.shiftr_div_pow2 by lia. change (2 ^ 4) with 16.
  rewrite Nat2Z.inj_succ, Z.pow_succ_r in Hv by lia.
  destruct (IH (v / 16)) as (IHv & IHf & IHl); [Z.div_mod_to_equations; lia|].
  destruct (hex_digit_value (v mod 16)) as (Hd & ? & ?); [by apply Z.mod_pos_bound|].
  split_and!; [|by constructor|simpl; lia].
  rewrite reverse_cons. unfold parse_hex in *. rewrite foldl_app. simpl. rewrite IHv, Hd.
  rewrite Z.shiftl_mul_pow2 by lia. change (2 ^ 4) with 16. wrap_lia.
Qed.

Lemma hex_text_value v : is_u64 v →
  parse_hex (hex_text v) = v ∧ Forall (λ c, c ≠ 64 ∧ c ≠ 32 ∧ c ≠ 9) (hex_text v) ∧ (length (hex_text v) ≤ 16)%nat.
Proof.
  intros Hv. unfold hex_text, is_u64 in *. destruct (Z.eqb_spec v 0) as [->|].
  - split_and!; [done|by repeat constructor|simpl; lia].
  - destruct (hex_loop_value 16 v) as (-> & ? & ?); [change (16 ^ Z.of_nat 16) with 18446744073709551616; lia|].
    rewrite length_reverse. split_and!; [by apply u64_small|by apply Forall_reverse|done].
Qed.

(** The digits of a 32-bit number: at most ten. *)
Lemma uint_loop_digits_length fuel : ∀ v k, 0 ≤ v < 10 ^ Z.of_nat k → (length (uint_loop fuel v) ≤ k)%nat.
Proof.
  induction fuel as [|fuel IH]; intros v k Hv; simpl; [lia|].
  destruct (Z.eqb_spec v 0) as [->|]; simpl; [lia|]. destruct k as [|k]; [simpl in Hv; lia|].
  rewrite Nat2Z.inj_succ, Z.pow_succ_r in Hv by lia.
  specialize (IH (v / 10) k ltac:(Z.div_mod_to_equations; lia)). lia.
Qed.

Lemma uint_loop_length_mono fuel : ∀ a b, 0 ≤ a ≤ b → (length (uint_loop fuel a) ≤ length (uint_loop fuel b))%nat.
Proof.
  induction fuel as [|fuel IH]; intros a b Hab; [done|]. cbn [uint_loop].
  destruct (Z.eqb_spec a 0); [simpl; lia|]. destruct (Z.eqb_spec b 0); [lia|]. simpl.
  specialize (IH (a / 10) (b / 10)). pose proof (Z.div_le_mono a b 10). pose proof (Z.div_pos a 10). lia.
Qed.

Lemma uint_text_length_mono a b : 0 ≤ a ≤ b → (length (uint_text a) ≤ length (uint_text b))%nat.
Proof.
  intros Hab. pose proof (uint_loop_length_mono 64 a b Hab). pose proof (uint_text_nonempty b ltac:(lia)) as Hb. unfold uint_text in *.
  destruct (Z.eqb_spec a 0); [|destruct (Z.eqb_spec b 0); [lia|by rewrite !length_reverse]].
  set (t := if b =? 0 then _ else _) in *. clearbody t. destruct t; [done|simpl; lia].
Qed.

Lemma uint_text_u32_length v : (length (uint_text (u32 v)) ≤ 10)%nat.
Proof.
  unfold uint_text. case_if; [simpl; lia|]. rewrite length_reverse. apply uint_loop_digits_length.
  pose proof (u32_range v) as H. unfold is_u32 in H. change (10 ^ Z.of_nat 10) with 10000000000. lia.
Qed.

(** *** The fields of a rendered text *)

Definition fields_ok (fs : list (list Z * list Z)) : Prop :=
  Forall (λ f, plain f.1 = true ∧ 64 ∉ f.2) fs ∧ NoDup fs.*1.

Lemma render_lookup t v fs r :
  fields_ok fs → (t, v) ∈ fs →
  ∃ r', sub (pat t) (render fs ++ r) = Some (pat t ++ v ++ 64 :: 10 :: r') ∧
    (sub (pat t) r = None → sub (pat t) (t ++ [58] ++ v ++ 64 :: 10 :: r') = None).
Proof.
  intros [Hok Hnd] Hin. apply list_elem_of_split in Hin as (fs1 & fs2 & ->).
  apply Forall_app in Hok as [Hok1 [[Ht Hv] Hok2]%Forall_cons]. simpl in Ht, Hv.
  rewrite fmap_app in Hnd. apply NoDup_app in Hnd as (_ & Hnd1 & Hnd2). simpl in Hnd1, Hnd2.
  apply NoDup_cons in Hnd2 as [Hnd2 _].
  exists (render fs2 ++ r). split.
  - apply sub_render_found; [done..|]. intros Hin. apply (Hnd1 _ Hin). left.
  - intros Hr. unfold pat. rewrite (sub_skip 64) by (apply (plain_not 64); auto).
    rewrite (sub_skip 64 _ [58]) by set_solver. rewrite (sub_skip 64 _ v) by done.
    fold (pat t). by rewrite sub_close, sub_render.
Qed.

(** The tags the header parser looks for. *)
Definition header_tags : list string :=
  ["FILENAME"; "FILETYPE"; "FILEFORMAT"; "FILELEN"; "DATALEN"; "CREATEDDATE"; "LASTCHANGED";
   "PARENTFOLDER"; "RUNNABLE"; "ENTRYPOINT"; "RUNWITH"; "HIDDEN"]%string.

Lemma parse_header_loop_step fuel s m :
  s ≠ [] → starts (txt "@DATA@") s = false →
  parse_header_loop (S fuel) s m = parse_header_loop fuel (next_line s) (parse_header_line s m).
Proof. intros ? Hs. destruct s; [done|]. simpl. by rewrite Hs. Qed.

(** A text in which each tag occurs at most once is read in its first round:
    the later rounds find what the first one found, or nothing. *)
Section header_once.
  Context (T : list Z) (Honce : ∀ tag, tag ∈ header_tags → once (pat (txt tag)) T).

Lemma tag_found l s tag :
  T = l ++ s → tag ∈ header_tags → tag_start tag = pat (txt tag) →
  (has_tag s tag = false ∨ has_tag s tag = true ∧ has_tag T tag = true) ∧
  (has_tag s tag = true → ∀ size, parse_tag s tag size = parse_tag T tag size).
Proof.
  intros E Hin Hst. unfold has_tag, parse_tag. rewrite Hst.
  change (txt "@" ++ txt tag ++ txt ":") with (pat (txt tag)).
  destruct (Honce tag Hin l s E) as [Hn|Hs]; [rewrite Hn|rewrite Hs]; split; try done.
  - left. by apply bool_decide_eq_false, eq_None_not_Some.
  - destruct (bool_decide _); auto.
Qed.

Lemma parse_header_again l s m :
  T = l ++ s → parse_header_line s (parse_header_line T m) = parse_header_line T m.
Proof.
  intros E.
  assert (∀ tag, tag ∈ header_tags → tag_start tag = pat (txt tag) →
    (∀ size old, text_field s tag size (text_field T tag size old) = text_field T tag size old) ∧
    (∀ old, num_field s tag (num_field T tag old) = num_field T tag old) ∧
    (∀ old, bool_field s tag (bool_field T tag old) = bool_field T tag old) ∧
    (∀ old, (if has_tag s tag then u32 (parse_tag_uint64 s tag) else
               if has_tag T tag then u32 (parse_tag_uint64 T tag) else old) =
            if has_tag T tag then u32 (parse_tag_uint64 T tag) else old)) as Hf.
  { intros tag Hin Hst. destruct (tag_found l s tag E Hin Hst) as [Hh Hp].
    unfold text_field, num_field, bool_field, parse_tag_uint64, parse_tag_bool.
    destruct Hh as [->|[Hs HT]]; [done|]. rewrite Hs, HT. setoid_rewrite (Hp Hs).
    split_and!; try done. intros size old. by destruct (parse_tag T tag size). }
  unfold parse_header_line. simpl.
  f_equal; apply Hf; (reflexivity || (apply (bool_decide_unpack _); vm_compute; exact I)).
Qed.

Lemma parse_header_loop_once fuel s l m :
  T = l ++ s → (length s < fuel)%nat →
  parse_header_loop fuel s (parse_header_line T m) = Ret (parse_header_line T m).
Proof.
  revert s l. induction fuel as [|fuel IH]; intros s l E Hf; [lia|]. simpl.
  destruct s as [|x s']; [done|]. set (s := x :: s') in *.
  destruct (starts _ _); [done|]. rewrite (parse_header_again l s) by done.
  destruct (next_line_suffix s) as [k Hk]. apply (IH _ (l ++ k)); [by rewrite <- app_assoc, <- Hk|].
  pose proof (next_line_length s ltac:(done)). lia.
Qed.

Lemma parse_header_first :
  starts (txt "@HEADER@") T = true →
  minimafs_parse_file_header T = Ret (Some (parse_header_line T meta_zero)).
Proof.
  intros Hst. unfold minimafs_parse_file_header. rewrite Hst. simpl negb. cbv iota.
  apply starts_true in Hst as [r Hr]. 
  assert (starts (txt "@DATA@") T = false) as Hd by (rewrite Hr; reflexivity).
  assert (parse_header_loop (S (length T)) T meta_zero = Ret (parse_header_line T meta_zero)) as ->; [|done].
  assert (T ≠ []) as Hne by (by rewrite Hr).
  rewrite parse_header_loop_step by done. destruct (next_line_suffix T) as [k Hk].
  apply (parse_header_loop_once _ _ k); [done|]. by apply next_line_length.
Qed.
End header_once.

(** ** The file header is read back *)

Definition header_fields (m : minimafs_file_metadata) : list (list Z * list Z) :=
  [(txt "FILETYPE", filetype m); (txt "FILEFORMAT", fileformat m);
   (txt "FILELEN", uint_text (u32 (file_length m))); (txt "DATALEN", uint_text (u32 (data_length m)));
   (txt "FILENAME", 39 :: filename m ++ [39]); (txt "CREATEDDATE", 39 :: created_date m ++ [39]);
   (txt "LASTCHANGED", 39 :: last_changed m ++ [39]); (txt "PARENTFOLDER", 39 :: parent_folder m ++ [39]);
   (txt "RUNNABLE", if runnable m then txt "True" else txt "False")] ++
  (if runnable m && negb (entrypoint m =? 0) then [(txt "ENTRYPOINT", txt "0x" ++ hex_text (entrypoint m))] else []) ++
  (if runnable m && negb (bool_decide (run_with m = [])) then [(txt "RUNWITH", run_with m)] else []) ++
  [(txt "HIDDEN", if hidden m then txt "True" else txt "False")].

(** Literals as lists of numbers, and a chain of [++] in normal form. *)
Ltac txt_lit :=
  repeat match goal with |- context [txt ?s] => let v := eval vm_compute in (txt s) in change (txt s) with v end.
Ltac app_normal := repeat first [rewrite <- app_assoc | progress (simpl app)].

Lemma header_text_fields m r :
  header_text m ++ r = txt "@HEADER@" ++ NL ++ render (header_fields m) ++ txt "@DATA@" ++ NL ++ r.
Proof.
  unfold header_text, header_fields, NL. rewrite !render_app. destruct (runnable m); cbn [andb].
  - destruct (entrypoint m =? 0); destruct (run_with m) as [|w ws] eqn:Hw;
      [rewrite bool_decide_true by done|rewrite bool_decide_false by done|
       rewrite bool_decide_true by done|rewrite bool_decide_false by done];
      cbn [negb render mbind list_bind]; unfold field, pat; cbn [fst snd]; txt_lit; app_normal; reflexivity.
  - cbn [negb render mbind list_bind]; unfold field, pat; cbn [fst snd]; txt_lit; app_normal; reflexivity.
Qed.

(** What the two kinds of value can carry. *)
Definition quoted (size : nat) (v : list Z) : Prop := 64 ∉ v ∧ 39 ∉ v ∧ (length v < size)%nat.
Definition bare (size : nat) (v : list Z) : Prop :=
  64 ∉ v ∧ head v ≠ Some 39 ∧ trim v = v ∧ (length v < size)%nat.

(** Reading the fields of a text [T] in which tags are found as in the
    rendered [fs] followed by [tail]. *)
Section read_back.
  Context (fs : list (list Z * list Z)) (T tail : list Z).
  Context (Hfs : fields_ok fs).
  Context (HT : ∀ t, plain t = true → sub (pat t) T = sub (pat t) (render fs ++ tail)).

Lemma field_found tag v :
  tag_start tag = pat (txt tag) → (txt tag, v) ∈ fs → plain (txt tag) = true ∧ 64 ∉ v ∧ has_tag T tag = true ∧
    ∃ r, sub (tag_start tag) T = Some (tag_start tag ++ v ++ 64 :: 10 :: r) ∧
      (sub (pat (txt tag)) tail = None → sub (pat (txt tag)) (txt tag ++ [58] ++ v ++ 64 :: 10 :: r) = None).
Proof.
  intros Hst Hin. pose proof (proj1 (Forall_forall _ _) (proj1 Hfs) _ Hin) as [Hp Hv]. simpl in Hp, Hv.
  destruct (render_lookup (txt tag) v fs tail Hfs Hin) as (r & Hr & Hn).
  split; [done|]. split; [done|]. unfold has_tag. rewrite Hst. split; [|exists r; by rewrite HT].
  apply bool_decide_eq_true. change (txt "@" ++ txt tag ++ txt ":") with (pat (txt tag)).
  rewrite HT, Hr by done. eauto.
Qed.

Lemma field_absent tag :
  tag_start tag = pat (txt tag) → plain (txt tag) = true → txt tag ∉ fs.*1 → sub (pat (txt tag)) tail = None →
  has_tag T tag = false ∧ sub (pat (txt tag)) T = None.
Proof.
  intros Hst Hp Hin Htl. assert (sub (pat (txt tag)) T = None) as Hn.
  { rewrite HT by done. by rewrite sub_render by (try done; apply Hfs). }
  split; [|done]. unfold has_tag. change (txt "@" ++ txt tag ++ txt ":") with (pat (txt tag)).
  rewrite Hn. apply bool_decide_eq_false. by intros [? [=]].
Qed.

Lemma field_once tag v :
  tag_start tag = pat (txt tag) → (txt tag, v) ∈ fs → sub (pat (txt tag)) tail = None → once (pat (txt tag)) T.
Proof.
  intros Hst Hin Htl. destruct (field_found tag v Hst Hin) as (_ & _ & _ & r & Hr & Hn). rewrite Hst in Hr.
  apply once_intro. intros q Hq. rewrite Hr in Hq. injection Hq as <-.
  change (sub (pat (txt tag)) ((txt tag ++ [58]) ++ v ++ 64 :: 10 :: r) = None).
  rewrite <- app_assoc. by apply Hn.
Qed.

Lemma read_quoted tag size v :
  tag_start tag = pat (txt tag) → (txt tag, 39 :: v ++ [39]) ∈ fs → quoted size v → parse_tag T tag size = Some v.
Proof.
  intros Hst Hin (? & ? & ?). destruct (field_found tag _ Hst Hin) as (_ & _ & _ & r & Hr & _).
  by eapply parse_tag_quoted.
Qed.

Lemma read_bare tag size v :
  tag_start tag = pat (txt tag) → (txt tag, v) ∈ fs → bare size v → parse_tag T tag size = Some v.
Proof.
  intros Hst Hin (? & ? & Htr & ?). destruct (field_found tag _ Hst Hin) as (_ & _ & _ & r & Hr & _).
  rewrite <- Htr. by eapply parse_tag_bare.
Qed.

Lemma bare_digits size v : Forall (λ c, 48 ≤ c ≤ 57) v → (length v < size)%nat → bare size v.
Proof.
  intros Hv Hl. split_and!; [|destruct v as [|c v]; [done|]|by apply trim_digits|done].
  - intros Hin. pose proof (proj1 (Forall_forall _ _) Hv _ Hin). simpl in *. lia.
  - apply Forall_cons in Hv as [? _]. simpl. intros [=]. lia.
Qed.

Lemma read_number tag n :
  tag_start tag = pat (txt tag) → (txt tag, uint_text (u32 n)) ∈ fs → parse_tag_uint64 T tag = u32 n.
Proof.
  intros Hst Hin. assert (is_u64 (u32 n)) as Hn by (pose proof (u32_range n) as H; unfold is_u32, is_u64 in *; lia).
  destruct (uint_text_value _ Hn) as [Hd Hf]. pose proof (uint_text_u32_length n).
  assert (parse_tag T tag 32 = Some (uint_text (u32 n))) as Hp by (apply read_bare; try done; apply bare_digits; [done|lia]).
  change (match parse_tag T tag 32 with None => 0 | Some v => number v end = u32 n). rewrite Hp.
  rewrite number_digits by done. by apply parse_dec_uint_text.
Qed.

Lemma read_bool tag (b : bool) :
  tag_start tag = pat (txt tag) → (txt tag, if b then txt "True" else txt "False") ∈ fs → parse_tag_bool T tag = b.
Proof.
  intros Hst Hin. unfold parse_tag_bool.
  assert (parse_tag T tag 16 = Some (if b then txt "True" else txt "False")) as ->; [|by destruct b].
  apply read_bare; try done. destruct b; (split_and!; [by apply (bool_decide_unpack _)|done|done|vm_compute; lia]).
Qed.

Lemma read_hex tag e :
  tag_start tag = pat (txt tag) → is_u64 e → (txt tag, txt "0x" ++ hex_text e) ∈ fs → parse_tag_uint64 T tag = e.
Proof.
  intros Hst He Hin. destruct (hex_text_value e He) as (Hv & Hf & Hl).
  assert (parse_tag T tag 32 = Some (txt "0x" ++ hex_text e)) as Hp.
  { apply read_bare; try done. split_and!.
    - rewrite elem_of_app. intros [Hx|Hx]; [by vm_compute in Hx; set_solver|].
      pose proof (proj1 (Forall_forall _ _) Hf _ Hx). simpl in *. lia.
    - done.
    - apply trim_id. apply Forall_app. split; [by repeat constructor|]. eapply Forall_impl; [exact Hf|]. simpl. tauto.
    - rewrite length_app. change (length (txt "0x")) with 2%nat. lia. }
  change (match parse_tag T tag 32 with None => 0 | Some v => number v end = e). rewrite Hp. exact Hv.
Qed.
End read_back.

(** What a header can carry: the values have no [@] and no quote where one
    would end them, fit their arrays, and what is not printed is not there. *)
Record header_ok (m : minimafs_file_metadata) : Prop := {
  ok_filetype : bare 64 (filetype m);
  ok_fileformat : bare 16 (fileformat m);
  ok_filename : quoted 256 (filename m);
  ok_created : quoted 32 (created_date m);
  ok_changed : quoted 32 (last_changed m);
  ok_parent : quoted 1024 (parent_folder m);
  ok_runwith : bare 1024 (run_with m);
  ok_lengths : is_u32 (file_length m) ∧ is_u32 (data_length m);
  ok_entry : is_u64 (entrypoint m);
  ok_run : runnable m = false → entrypoint m = 0 ∧ run_with m = []
}.

(** Text in which the parser finds no tag. *)
Definition no_tags (s : list Z) : Prop := ∀ tag, tag ∈ header_tags → sub (pat (txt tag)) s = None.

Lemma quoted_no_at size v : quoted size v → 64 ∉ 39 :: v ++ [39].
Proof. intros (? & _ & _). set_solver. Qed.

Lemma uint_text_no_at v : 64 ∉ uint_text (u32 v).
Proof.
  intros Hin. pose proof (u32_range v) as Hr. destruct (uint_text_value (u32 v)) as [_ Hf]; [unfold is_u32, is_u64 in *; lia|].
  pose proof (proj1 (Forall_forall _ _) Hf _ Hin). simpl in *. lia.
Qed.

Lemma bool_no_at (b : bool) : 64 ∉ (if b then txt "True" else txt "False").
Proof. destruct b; by apply (bool_decide_unpack _). Qed.

Lemma hex_no_at e : is_u64 e → 64 ∉ txt "0x" ++ hex_text e.
Proof.
  intros He [Hin|Hin]%elem_of_app; [by vm_compute in Hin; set_solver|].
  destruct (hex_text_value e He) as (_ & Hf & _). pose proof (proj1 (Forall_forall _ _) Hf _ Hin). simpl in *. tauto.
Qed.

Lemma header_fields_ok m : header_ok m → fields_ok (header_fields m).
Proof.
  intros []. unfold fields_ok, header_fields. split.
  - repeat first [apply Forall_app; split|apply Forall_cons; split|apply Forall_nil; exact I|case_if]; cbn [fst snd];
      try (split; [reflexivity|]); eauto using quoted_no_at, uint_text_no_at, bool_no_at, hex_no_at.
    all: first [apply ok_filetype0|apply ok_fileformat0|apply ok_runwith0|by apply (bool_decide_unpack _)].
  - repeat case_if; (apply (bool_decide_unpack _); vm_compute; exact I).
Qed.

Lemma header_subs m r t :
  plain t = true →
  sub (pat t) (header_text m ++ r) = sub (pat t) (render (header_fields m) ++ txt "@DATA@" ++ NL ++ r).
Proof. intros Ht. rewrite header_text_fields. by apply (sub_marker t (txt "HEADER")). Qed.

Lemma header_tail tag r : plain (txt tag) = true → tag ∈ header_tags → no_tags r →
  sub (pat (txt tag)) (txt "@DATA@" ++ NL ++ r) = None.
Proof.
  intros Hp Hin Hr. rewrite <- (Hr tag Hin). by apply (sub_marker _ (txt "DATA")).
Qed.

Definition set_blocks (o c : Z) (m : minimafs_file_metadata) : minimafs_file_metadata :=
  mk_meta (filename m) (filetype m) (fileformat m) (file_length m) (data_length m) (created_date m)
    (last_changed m) (parent_folder m) (runnable m) (entrypoint m) (run_with m) (hidden m) o c.

Lemma header_tags_ok tag : tag ∈ header_tags → tag_start tag = pat (txt tag) ∧ plain (txt tag) = true.
Proof.
  intros Hin. assert (forallb (λ tag, bool_decide (tag_start tag = pat (txt tag)) && plain (txt tag)) header_tags = true)
    as Hall by (vm_compute; reflexivity).
  rewrite forallb_forall in Hall. specialize (Hall tag (proj1 (list_elem_of_In _ _) Hin)).
  apply andb_prop in Hall as [H1 H2]. by apply bool_decide_eq_true in H1.
Qed.

Lemma header_once m r tag : header_ok m → no_tags r → tag ∈ header_tags → once (pat (txt tag)) (header_text m ++ r).
Proof.
  intros Hm Hr Hin. destruct (header_tags_ok tag Hin) as [Hst Hp].
  pose proof (header_fields_ok m Hm) as Hfs. pose proof (header_tail tag r Hp Hin Hr) as Htl.
  destruct (decide (txt tag ∈ (header_fields m).*1)) as [Hf|Hf].
  - apply list_elem_of_fmap in Hf as ([t v] & Ht & Hf). simpl in Ht. subst t.
    by eapply (field_once _ _ _ Hfs (header_subs m r)).
  - apply once_intro. intros q Hq.
    destruct (field_absent _ _ _ Hfs (header_subs m r) tag Hst Hp Hf Htl) as [_ Hn]. congruence.
Qed.

(** The [k]-th of the fields that are always printed. *)
Tactic Notation "nth_field" integer(k) :=
  unfold header_fields; apply elem_of_app; left; do k apply list_elem_of_further; apply list_elem_of_here.

(** The fields that are printed only for runnable files. *)
Lemma header_entrypoint m r : header_ok m → no_tags r → num_field (header_text m ++ r) "ENTRYPOINT" 0 = entrypoint m.
Proof.
  intros Hm Hr. pose proof (header_fields_ok m Hm) as Hfs.
  assert ("ENTRYPOINT"%string ∈ header_tags) as Hin by (apply (bool_decide_unpack _); vm_compute; exact I).
  destruct (header_tags_ok _ Hin) as [Hst Hp]. pose proof (header_tail _ r Hp Hin Hr) as Htl. unfold num_field.
  destruct (runnable m && negb (entrypoint m =? 0)) eqn:E.
  - assert ((txt "ENTRYPOINT", txt "0x" ++ hex_text (entrypoint m)) ∈ header_fields m) as Hf.
    { unfold header_fields. rewrite E, !elem_of_app. right; left. left. }
    destruct (field_found _ _ _ Hfs (header_subs m r) "ENTRYPOINT" _ Hst Hf) as (_ & _ & -> & _).
    by apply (read_hex _ _ _ Hfs (header_subs m r)); [|apply Hm|].
  - destruct (field_absent _ _ _ Hfs (header_subs m r) "ENTRYPOINT" Hst Hp) as [-> _]; [|done|].
    + unfold header_fields. rewrite E. repeat case_if; (apply (bool_decide_unpack _); vm_compute; exact I).
    + destruct (runnable m) eqn:Hrun; [simpl in E; bool_to_prop; lia|]. by destruct (ok_run m Hm Hrun) as [-> _].
Qed.

Lemma header_runwith m r : header_ok m → no_tags r → text_field (header_text m ++ r) "RUNWITH" 1024 [] = run_with m.
Proof.
  intros Hm Hr. pose proof (header_fields_ok m Hm) as Hfs.
  assert ("RUNWITH"%string ∈ header_tags) as Hin by (apply (bool_decide_unpack _); vm_compute; exact I).
  destruct (header_tags_ok _ Hin) as [Hst Hp]. pose proof (header_tail _ r Hp Hin Hr) as Htl. unfold text_field.
  destruct (runnable m && negb (bool_decide (run_with m = []))) eqn:E.
  - assert ((txt "RUNWITH", run_with m) ∈ header_fields m) as Hf.
    { unfold header_fields. rewrite E, !elem_of_app. right; right; left. left. }
    destruct (field_found _ _ _ Hfs (header_subs m r) "RUNWITH" _ Hst Hf) as (_ & _ & -> & _).
    by rewrite (read_bare _ _ _ Hfs (header_subs m r) "RUNWITH" 1024 _ Hst Hf) by apply Hm.
  - destruct (field_absent _ _ _ Hfs (header_subs m r) "RUNWITH" Hst Hp) as [-> _]; [|done|].
    + unfold header_fields. rewrite E. repeat case_if; (apply (bool_decide_unpack _); vm_compute; exact I).
    + destruct (runnable m) eqn:Hrun; [|by destruct (ok_run m Hm Hrun) as [_ ->]].
      simpl in E. apply negb_false_iff, bool_decide_eq_true in E. done.
Qed.

Lemma header_line_read m r :
  header_ok m → no_tags r → parse_header_line (header_text m ++ r) meta_zero = set_blocks 0 0 m.
Proof.
  intros Hm Hr. pose proof (header_fields_ok m Hm) as Hfs. set (T := header_text m ++ r).
  assert (∀ tag v, tag_start tag = pat (txt tag) → (txt tag, v) ∈ header_fields m → has_tag T tag = true) as Hhas.
  { intros tag v Hst Hf. by destruct (field_found _ _ _ Hfs (header_subs m r) tag v Hst Hf) as (_ & _ & ? & _). }
  assert (∀ tag size v, tag_start tag = pat (txt tag) → (txt tag, 39 :: v ++ [39]) ∈ header_fields m → quoted size v →
    text_field T tag size [] = v) as Hq.
  { intros tag size v Hst Hf Hv. unfold text_field. rewrite (Hhas tag _ Hst Hf). unfold T.
    by rewrite (read_quoted _ _ _ Hfs (header_subs m r) tag size v). }
  assert (∀ tag size v, tag_start tag = pat (txt tag) → (txt tag, v) ∈ header_fields m → bare size v →
    text_field T tag size [] = v) as Hb.
  { intros tag size v Hst Hf Hv. unfold text_field. rewrite (Hhas tag _ Hst Hf). unfold T.
    by rewrite (read_bare _ _ _ Hfs (header_subs m r) tag size v). }
  assert (∀ tag v, is_u32 v → tag_start tag = pat (txt tag) → (txt tag, uint_text (u32 v)) ∈ header_fields m →
    (if has_tag T tag then u32 (parse_tag_uint64 T tag) else 0) = v) as Hn.
  { intros tag v Hv Hst Hf. rewrite (Hhas tag _ Hst Hf). unfold T.
    rewrite (read_number _ _ _ Hfs (header_subs m r) tag v) by done.
    rewrite (u32_small v) by done. by apply u32_small. }
  assert (∀ tag (b : bool), tag_start tag = pat (txt tag) →
    (txt tag, if b then txt "True" else txt "False") ∈ header_fields m → bool_field T tag false = b) as Hbl.
  { intros tag b Hst Hf. unfold bool_field. rewrite (Hhas tag _ Hst Hf). by apply (read_bool _ _ _ Hfs (header_subs m r)). }
  unfold parse_header_line, set_blocks. simpl.
  f_equal.
  - apply Hq; [reflexivity|nth_field 4|apply Hm].
  - apply Hb; [reflexivity|nth_field 0|apply Hm].
  - apply Hb; [reflexivity|nth_field 1|apply Hm].
  - apply Hn; [apply Hm|reflexivity|nth_field 2].
  - apply Hn; [apply Hm|reflexivity|nth_field 3].
  - apply Hq; [reflexivity|nth_field 5|apply Hm].
  - apply Hq; [reflexivity|nth_field 6|apply Hm].
  - apply Hq; [reflexivity|nth_field 7|apply Hm].
  - apply Hbl; [reflexivity|nth_field 8].
  - by apply header_entrypoint.
  - by apply header_runwith.
  - apply Hbl; [reflexivity|]. unfold header_fields. rewrite !elem_of_app. do 3 right. apply list_elem_of_here.
Qed.

Lemma parse_header_text m r :
  header_ok m → no_tags r → minimafs_parse_file_header (header_text m ++ r) = Ret (Some (set_blocks 0 0 m)).
Proof.
  intros Hm Hr. rewrite parse_header_first; [by rewrite header_line_read| |].
  - intros tag Hin. by apply header_once.
  - apply starts_true. eexists. rewrite header_text_fields. reflexivity.
Qed.

(** Round trip: [minimafs_parse_file_header] reads back every field that
    [minimafs_generate_file_header] printed (the block numbers are not
    printed), whatever follows the header, provided the values fit the format
    and no tag of the header occurs in what follows. *)
Theorem file_header_roundtrip m r :
  header_ok m → no_tags r → minimafs_parse_file_header (header_text m ++ r) = Ret (Some (set_blocks 0 0 m)).
Proof. apply parse_header_text. Qed.

Lemma header_text_length m : is_u64 (entrypoint m) → Z.of_nat (length (header_text m)) + 1 ≤ header_capacity m.
Proof.
  intros He. unfold header_capacity, header_text.
  pose proof (uint_text_u32_length (file_length m)). pose proof (uint_text_u32_length (data_length m)).
  destruct (hex_text_value _ He) as (_ & _ & Hh).
  rewrite !length_app.
  destruct (runnable m), (entrypoint m =? 0), (run_with m) as [|w ws], (hidden m); rewrite ?length_app;
    txt_lit; unfold NL; simpl length; lia.
Qed.

Lemma generate_header_ok can_alloc m :
  is_u64 (entrypoint m) →
  minimafs_generate_file_header can_alloc m =
    Ret (if can_alloc (header_capacity m) then Some (header_text m) else None).
Proof.
  intros He. unfold minimafs_generate_file_header. destruct (can_alloc _); [|done]. cbn [negb].
  pose proof (header_text_length m He). by rewrite (proj2 (Z.ltb_ge _ _)) by lia.
Qed.

(** The buffer of [minimafs_generate_file_header], 256 bytes and the
    lengths of the strings, is large enough for every metadata: the function
    never writes past it. *)
Theorem file_header_fits can_alloc m :
  is_u64 (entrypoint m) →
  minimafs_generate_file_header can_alloc m =
    Ret (if can_alloc (header_capacity m) then Some (header_text m) else None).
Proof. apply generate_header_ok. Qed.

(** ** Folder descriptors are read back *)

Record entry_ok (e : minimafs_dir_entry) : Prop := {
  ok_name : 44 ∉ e_name e ∧ 10 ∉ e_name e ∧ 0 ∉ e_name e ∧ (length (e_name e) < MINIMAFS_MAX_ENTRY_NAME)%nat;
  ok_type : e_type e = MINIMAFS_TYPE_FILE ∨ e_type e = MINIMAFS_TYPE_DIR;
  ok_blocks : is_u32 (e_block_offset e) ∧ is_u32 (e_block_count e)
}.

Record folder_ok (d : minimafs_folder_desc) : Prop := {
  ok_path : 10 ∉ path d ∧ 0 ∉ path d ∧ (length (path d) < MINIMAFS_MAX_PATH)%nat;
  ok_entries : Forall entry_ok (entries d);
  ok_count : (length (entries d) ≤ MINIMAFS_MAX_ROOT_ENTRIES)%nat
}.

Lemma is_dec_true c : 48 ≤ c ≤ 57 → is_dec c = true.
Proof. intros. unfold is_dec. by rewrite !(proj2 (Z.leb_le _ _)) by lia. Qed.

Lemma dec_prefix_digits l r : Forall (λ c, 48 ≤ c ≤ 57) l → (∀ c, head r = Some c → is_dec c = false) →
  ∀ acc, dec_prefix (u32 acc) (l ++ r) = u32 (digits_value acc l).
Proof.
  intros Hl Hr. induction Hl as [|c l Hc Hl IH]; intros acc; simpl.
  - destruct r as [|c r]; simpl; [done|]. by rewrite Hr.
  - rewrite is_dec_true by lia.
    replace (u32 (u32 acc * 10 + (c - 48))) with (u32 (acc * 10 + (c - 48))) by wrap_lia. apply IH.
Qed.

Lemma parse_uint32_text v r : is_u32 v → (∀ c, head r = Some c → is_dec c = false) →
  parse_uint32 (uint_text v ++ r) = v.
Proof.
  intros Hv Hr. assert (is_u64 v) as Hv' by (unfold is_u32, is_u64 in *; lia).
  destruct (uint_text_value v Hv') as [Hd Hf]. unfold parse_uint32.
  assert (skip_to_digit (uint_text v ++ r) = uint_text v ++ r) as ->.
  { destruct (uint_text v) as [|c l] eqn:E; [by apply uint_text_nonempty in E; [|apply Hv]|].
    apply Forall_cons in Hf as [? _]. simpl. by rewrite is_dec_true. }
  change 0 with (u32 0) at 1. rewrite dec_prefix_digits by done. rewrite Hd. by apply u32_small.
Qed.

Lemma digits_not c v : is_u32 v → ¬ (48 ≤ c ≤ 57) → c ∉ uint_text v.
Proof.
  intros Hv Hc Hin. destruct (uint_text_value v) as [_ Hf]; [unfold is_u32, is_u64 in *; lia|].
  by apply (proj1 (Forall_forall _ _) Hf _) in Hin.
Qed.

Lemma starts_mismatch k p q r :
  (k ≤ length p)%nat → (k ≤ length q)%nat → take k p ≠ take k q → starts p (q ++ r) = false.
Proof.
  intros Hp Hq Hne. apply starts_false. intros [r' Hr]. apply Hne. apply (f_equal (take k)) in Hr.
  by rewrite !take_app_le in Hr by done.
Qed.

(** Past a literal that begins like the needle but differs in its second
    character, and past text without commas. *)
Lemma sub_past_comma p q s r :
  head p = Some 44 → head q = Some 44 → (2 ≤ length p)%nat → (2 ≤ length q)%nat → take 2 p ≠ take 2 q →
  44 ∉ tail q → 44 ∉ s → sub p (q ++ s ++ r) = sub p r.
Proof.
  intros Hp Hq Hlp Hlq Hne Htl Hs. destruct p as [|? p]; [done|]. destruct q as [|? q]; [done|].
  simpl in Hp, Hq, Htl. simplify_eq. rewrite <- app_comm_cons, sub_cons.
  - by rewrite (sub_skip 44 p q), (sub_skip 44 p s).
  - rewrite app_comm_cons. by apply (starts_mismatch 2).
Qed.

(** The side conditions of [sub_past_comma] for literals and numbers. *)
Ltac past_comma :=
  rewrite sub_past_comma;
  [|match goal with
    | |- head _ = _ => reflexivity
    | |- (_ ≤ _)%nat => vm_compute; lia
    | |- take _ _ ≠ _ => vm_compute; discriminate
    | |- 44 ∉ tail _ => by apply (bool_decide_unpack _)
    | |- _ => apply digits_not; [done|lia]
    end..].

Lemma parse_entry_line e r : entry_ok e → parse_folder_entry_line (entry_line e ++ r) = Some e.
Proof.
  intros [(Hc & _ & _ & Hlen) Hty [Hbo Hbc]]. unfold entry_line. rewrite !u32_small by done.
  set (ty := if bool_decide _ then txt "DIR" else txt "FILE").
  set (hid := if e_hidden e then txt "1" else txt "0").
  rewrite <- !app_assoc. set (r3 := txt ",HIDDEN:" ++ _).
  set (r2 := txt ",COUNT:" ++ _). set (r1 := txt ",BLOCK:" ++ _).
  assert (44 ∉ ty) as Hty44 by (unfold ty; destruct (bool_decide _); by apply (bool_decide_unpack _)).
  unfold parse_folder_entry_line. rewrite starts_app. cbn [negb]. rewrite (drop_app_length' (txt "ENTRY:")) by done.
  change (txt "," ++ ty ++ r1) with (44 :: ty ++ r1). rewrite chr_skip, ptr_diff_app by done.
  change (drop 1 (44 :: ty ++ r1)) with (ty ++ r1).
  assert (sub (txt ",BLOCK:") (ty ++ r1) = Some r1) as ->.
  { change (txt ",BLOCK:") with (44 :: txt "BLOCK:") at 1. rewrite sub_skip by done. apply sub_app. }
  assert (sub (txt ",COUNT:") r1 = Some r2) as ->.
  { unfold r1. past_comma. apply sub_app. }
  assert (sub (txt ",HIDDEN:") r1 = Some r3) as ->.
  { unfold r1. past_comma. unfold r2. past_comma. apply sub_app. }
  rewrite ptr_diff_app. unfold copy_value.
  rewrite (proj2 (Nat.leb_gt _ _)), take_app_length by done.
  rewrite (proj2 (Nat.leb_gt 8 (length ty))), take_app_length by (unfold ty; destruct (bool_decide _); vm_compute; lia).
  unfold r1, r2, r3. rewrite !drop_app_length' by done. rewrite !parse_uint32_text by (done || by intros ? [= <-]).
  destruct e as [nm tp bo bc hd]. simpl in *. f_equal. f_equal.
  - unfold ty. destruct Hty as [->| ->]; reflexivity.
  - unfold hid. destruct hd; reflexivity.
Qed.

(** What a line of the text does to the descriptor. *)
Lemma entry_line_no_nl e : entry_ok e → ∃ l, entry_line e = l ++ NL ∧ 10 ∉ l ∧ 0 ∉ l.
Proof.
  intros [(_ & Hnl & H0 & _) _ [Hbo Hbc]]. unfold entry_line. rewrite !u32_small by done.
  rewrite !app_assoc. eexists. split; [reflexivity|]. rewrite <- !app_assoc.
  assert (∀ (b : bool) (x y : list Z), 10 ∉ x → 10 ∉ y → 10 ∉ if b then x else y) as Hif by (by intros []).
  assert (∀ (b : bool) (x y : list Z), 0 ∉ x → 0 ∉ y → 0 ∉ if b then x else y) as Hif0 by (by intros []).
  rewrite !not_elem_of_app. split_and!; try done;
    first [apply digits_not; [done|lia] | apply Hif | apply Hif0 | idtac]; by apply (bool_decide_unpack _).
Qed.

Lemma entry_line_length e : entry_ok e → (length (entry_line e) ≤ 118)%nat.
Proof.
  intros [(_ & _ & _ & Hlen) _ _]. unfold entry_line, MINIMAFS_MAX_ENTRY_NAME in *. rewrite !length_app.
  pose proof (uint_text_u32_length (e_block_offset e)). pose proof (uint_text_u32_length (e_block_count e)).
  destruct (bool_decide _), (e_hidden e); txt_lit; unfold NL; simpl length; lia.
Qed.

Lemma next_line_entry e r : entry_ok e → next_line (entry_line e ++ r) = r.
Proof. intros He. destruct (entry_line_no_nl e He) as (l & -> & ? & _). rewrite <- app_assoc. by apply next_line_app. Qed.

Lemma parse_folder_loop_step fuel s d :
  s ≠ [] → parse_folder_loop (S fuel) s d = parse_folder_loop fuel (next_line s) (parse_folder_line s d).
Proof. by destruct s. Qed.

(** The loop over the lines of the entries [es], [done] being read already. *)
Lemma parse_entries es p b : ∀ fuel done r,
  Forall entry_ok es → (length done + length es ≤ MINIMAFS_MAX_ROOT_ENTRIES)%nat → (length es ≤ fuel)%nat →
  parse_folder_loop fuel ((es ≫= entry_line) ++ r) (mk_folder p b done) =
  parse_folder_loop (fuel - length es) r (mk_folder p b (done ++ es)).
Proof.
  induction es as [|e es IH]; intros fuel dn r Hok Hlen Hf.
  { simpl. by rewrite app_nil_r, Nat.sub_0_r. }
  apply Forall_cons in Hok as [He Hok]. destruct fuel as [|fuel]; [simpl in Hf; lia|]. simpl in Hlen, Hf.
  change ((e :: es) ≫= entry_line) with (entry_line e ++ (es ≫= entry_line)).
  change (S fuel - length (e :: es))%nat with (fuel - length es)%nat.
  rewrite <- app_assoc. set (rest := (es ≫= entry_line) ++ r).
  rewrite parse_folder_loop_step by done. rewrite next_line_entry by done.
  unfold parse_folder_line.
  rewrite (starts_mismatch 1 (txt "FOLDER:") (entry_line e) rest);
    [|vm_compute; lia|unfold entry_line; rewrite length_app; change (length (txt "ENTRY:")) with 6%nat; lia
     |unfold entry_line; rewrite take_app_le by (vm_compute; lia); vm_compute; discriminate].
  assert (starts (txt "ENTRY:") (entry_line e ++ rest) = true) as ->.
  { unfold entry_line. rewrite <- app_assoc. apply starts_app. }
  cbn [entries andb]. rewrite (proj2 (Nat.ltb_lt _ _)) by lia. rewrite parse_entry_line by done. cbn [path f_block_offset].
  unfold rest. rewrite IH; [|done|rewrite length_app; simpl; lia|lia]. by rewrite <- app_assoc.
Qed.

Lemma entry_lines_spec l : ∀ b t, entry_lines b l = Some t →
  t = b ++ (l ≫= entry_line) ∧ (Forall entry_ok l → Z.of_nat (length t) ≤ Z.max (Z.of_nat (length b)) 4086).
Proof.
  induction l as [|e l IH]; intros b t; simpl; unfold MINIMAFS_BLOCK_SIZE.
  { intros [= <-]. rewrite app_nil_r. split; [done|lia]. }
  destruct (Z.ltb_spec (4096 - 128) (Z.of_nat (length b))) as [|Hb]; [done|].
  intros Ht. apply IH in Ht as [-> Hlen]. rewrite <- app_assoc. split; [done|].
  intros [He Hl]%Forall_cons. specialize (Hlen Hl). pose proof (entry_line_length e He).
  rewrite <- app_assoc, (length_app b (entry_line e)) in Hlen. lia.
Qed.

Lemma no_nul_bind es : Forall entry_ok es → 0 ∉ es ≫= entry_line.
Proof.
  intros Hes [e [Hin He]]%list_elem_of_bind. rewrite Forall_forall in Hes. specialize (Hes _ He).
  destruct (entry_line_no_nl e Hes) as (l & Hl & _ & H0). rewrite Hl in Hin. unfold NL in Hin. set_solver.
Qed.

Lemma folder_text_shape d t : folder_ok d → folder_text d = Some t →
  t = txt "FOLDER:" ++ path d ++ NL ++ txt "ENTRIES:" ++ uint_text (Z.of_nat (length (entries d))) ++ NL ++
      (entries d ≫= entry_line) ++ txt "@END" ++ NL ∧
  (length t ≤ 4091)%nat ∧ 0 ∉ t.
Proof.
  intros [(Hnl & H0 & Hlen) Hes Hcnt]. unfold folder_text. destruct (entry_lines _ _) as [u|] eqn:E; [|done].
  intros [= <-]. apply entry_lines_spec in E as [-> Hsz]. specialize (Hsz Hes).
  assert (is_u32 (Z.of_nat (length (entries d)))) as Hn by (unfold is_u32, MINIMAFS_MAX_ROOT_ENTRIES in *; lia).
  split; [by rewrite <- !app_assoc|]. split.
  - rewrite length_app. change (length (txt "@END" ++ NL)) with 5%nat. revert Hsz.
    set (l := length (_ ++ (entries d ≫= entry_line))). rewrite !length_app.
    pose proof (uint_text_u32_length (Z.of_nat (length (entries d)))) as Hd. rewrite u32_small in Hd by done.
    unfold MINIMAFS_MAX_PATH in Hlen. txt_lit. unfold NL. simpl length. lia.
  - rewrite !not_elem_of_app. split_and!; try done; try (by apply (bool_decide_unpack _));
      [apply digits_not; [done|lia]|by apply no_nul_bind].
Qed.

Lemma entry_lines_length es : (length es ≤ length (es ≫= entry_line))%nat.
Proof.
  induction es as [|e es IH]; [done|]. change ((e :: es) ≫= entry_line) with (entry_line e ++ (es ≫= entry_line)).
  rewrite length_app. simpl length at 1. assert (1 ≤ length (entry_line e))%nat; [|lia].
  unfold entry_line. rewrite length_app. change (length (txt "ENTRY:")) with 6%nat. lia.
Qed.

Lemma parse_folder_text d t fuel : folder_ok d → folder_text d = Some t → (length (entries d) + 4 ≤ fuel)%nat →
  parse_folder_loop fuel t (mk_folder [] (f_block_offset d) []) = Ret d.
Proof.
  intros Hd Ht Hfuel. destruct (folder_text_shape d t Hd Ht) as (-> & _ & _). destruct Hd as [(Hnl & _ & Hlen) Hes Hcnt].
  set (num := uint_text _). set (rest2 := (entries d ≫= entry_line) ++ _).
  set (rest1 := txt "ENTRIES:" ++ num ++ NL ++ rest2).
  assert (10 ∉ num) as Hnum.
  { unfold num. apply digits_not; [unfold is_u32, MINIMAFS_MAX_ROOT_ENTRIES in *; lia|lia]. }
  assert (next_line (txt "FOLDER:" ++ path d ++ NL ++ rest1) = rest1) as Hn1.
  { rewrite app_assoc. apply next_line_app. apply not_elem_of_app. split; [by apply (bool_decide_unpack _)|done]. }
  assert (next_line rest1 = rest2) as Hn2.
  { unfold rest1. rewrite app_assoc. apply next_line_app. apply not_elem_of_app. split; [by apply (bool_decide_unpack _)|done]. }
  assert (parse_folder_line (txt "FOLDER:" ++ path d ++ NL ++ rest1) (mk_folder [] (f_block_offset d) []) =
          mk_folder (path d) (f_block_offset d) []) as Hl1.
  { unfold parse_folder_line. rewrite starts_app, (drop_app_length' (txt "FOLDER:")) by done.
    rewrite app_assoc. unfold NL. cbn [app]. rewrite chr_skip; [|apply not_elem_of_app; split; [by apply (bool_decide_unpack _)|done]].
    cbn [default]. rewrite ptr_diff_app. unfold copy_value. rewrite (proj2 (Nat.leb_gt _ _)) by done.
    by rewrite take_app_length. }
  assert (∀ d', parse_folder_line rest1 d' = d') as Hl2.
  { intros d'. unfold parse_folder_line, rest1. rewrite (starts_mismatch 1 (txt "FOLDER:") (txt "ENTRIES:")),
      (starts_mismatch 5 (txt "ENTRY:") (txt "ENTRIES:")); [done|vm_compute; (lia || discriminate)..]. }
  destruct fuel as [|[|fuel]]; [lia..|].
  rewrite parse_folder_loop_step by done. rewrite Hn1, Hl1.
  rewrite parse_folder_loop_step by done. rewrite Hn2, Hl2. unfold rest2.
  rewrite parse_entries by (done || lia). destruct (fuel - _)%nat as [|[|k]] eqn:Hk; [lia..|].
  rewrite parse_folder_loop_step by done. by destruct d.
Qed.

Lemma folder_block_ok d t :
  folder_ok d → folder_text d = Some t →
  ∃ raw, text_block t = Ret raw ∧ Z.of_nat (length raw) = MINIMAFS_BLOCK_SIZE ∧
    parse_folder_desc (f_block_offset d) raw = Ret d.
Proof.
  intros Hd Ht. destruct (folder_text_shape d t Hd Ht) as (Hshape & Hlen & H0).
  unfold text_block, MINIMAFS_BLOCK_SIZE. rewrite (proj2 (Z.ltb_ge _ _)) by lia. eexists. split; [done|].
  split; [rewrite length_app, length_replicate; lia|]. unfold parse_folder_desc. rewrite c_string_app by done.
  apply parse_folder_text; try done. rewrite Hshape, !length_app. pose proof (entry_lines_length (entries d)).
  change (length (txt "@END")) with 4%nat. unfold NL. simpl length. lia.
Qed.

(** Round trip: the block that [minimafs_write_folder_desc] builds for a
    descriptor (when it finds room for it) never overruns the block and is
    read back by [minimafs_read_folder_desc_block] as the same descriptor,
    provided names carry no comma, newline or NUL and fit their arrays. *)
Theorem folder_desc_roundtrip d t :
  folder_ok d → folder_text d = Some t →
  ∃ raw, text_block t = Ret raw ∧ Z.of_nat (length raw) = MINIMAFS_BLOCK_SIZE ∧
    parse_folder_desc (f_block_offset d) raw = Ret d.
Proof. apply folder_block_ok. Qed.

(** ** Storage descriptors are read back *)

Definition storage_fields (sd : minimafs_storage_desc) : list (list Z * list Z) :=
  let num tag v := (txt tag, uint_text (u32 v)) in
  let str tag v := (txt tag, 39 :: v ++ [39]) in
  [num "MAGIC"%string (magic sd); num "DRIVE_NUMBER"%string (drive_number sd);
   str "DRIVE_NAME"%string (drive_name sd); str "PASSWORD"%string (password sd);
   (txt "PASSWORDPROTECTED", if password_protected sd then txt "True" else txt "False");
   num "TOTAL_SIZE_HI"%string (Z.shiftr (total_size sd) 32); num "TOTAL_SIZE_LO"%string (Z.land (total_size sd) 4294967295);
   num "USED_SIZE_HI"%string (Z.shiftr (used_size sd) 32); num "USED_SIZE_LO"%string (Z.land (used_size sd) 4294967295);
   num "FREE_SIZE_HI"%string (Z.shiftr (free_size sd) 32); num "FREE_SIZE_LO"%string (Z.land (free_size sd) 4294967295);
   num "TOTAL_BLOCKS"%string (total_blocks sd); num "USED_BLOCKS"%string (used_blocks sd);
   num "FREE_BLOCKS"%string (free_blocks sd); num "ROOT_BLOCK"%string (root_block sd);
   str "FILESYSTEM_LABEL"%string (filesystem_label sd); str "CREATEDDATE"%string (sd_created_date sd);
   str "LASTMOUNTED"%string (last_mounted sd)].

Record storage_ok (sd : minimafs_storage_desc) : Prop := {
  ok_drive_name : quoted 64 (drive_name sd) ∧ 0 ∉ drive_name sd;
  ok_password : quoted 64 (password sd) ∧ 0 ∉ password sd;
  ok_label : quoted 64 (filesystem_label sd) ∧ 0 ∉ filesystem_label sd;
  ok_sd_created : quoted 32 (sd_created_date sd) ∧ 0 ∉ sd_created_date sd;
  ok_mounted : quoted 32 (last_mounted sd) ∧ 0 ∉ last_mounted sd;
  ok_sizes : is_u64 (total_size sd) ∧ is_u64 (used_size sd) ∧ is_u64 (free_size sd);
  ok_nums : is_u32 (magic sd) ∧ is_u8 (drive_number sd) ∧ is_u32 (total_blocks sd) ∧ is_u32 (used_blocks sd) ∧
            is_u32 (free_blocks sd) ∧ is_u32 (root_block sd)
}.

Lemma num_line_field tag v : num_line tag v = field (txt tag, uint_text (u32 v)).
Proof.
  unfold num_line, field, pat, NL. cbn [fst snd]. change (txt "@") with [64]. change (txt ":") with [58].
  by app_normal.
Qed.
Lemma str_line_field tag v : str_line tag v = field (txt tag, 39 :: v ++ [39]).
Proof.
  unfold str_line, field, pat, NL. cbn [fst snd]. change (txt "@") with [64]. change (txt ":'") with [58; 39].
  change (txt "'@") with [39; 64]. by app_normal.
Qed.

Lemma storage_text_fields sd : storage_text sd = render (storage_fields sd) ++ txt "@END@" ++ NL.
Proof.
  unfold storage_text. rewrite !num_line_field, !str_line_field. unfold storage_fields. rewrite !render_cons.
  rewrite <- !app_assoc. do 4 f_equal. rewrite (field_app (txt "PASSWORDPROTECTED")). unfold NL at 1.
  set (R := field (txt "TOTAL_SIZE_HI", _) ++ _). change (render [] ++ txt "@END@" ++ NL) with (txt "@END@" ++ NL).
  fold R. set (b := if password_protected sd then _ else _). clearbody R b. txt_lit. by app_normal.
Qed.

Lemma storage_fields_ok sd : storage_ok sd → fields_ok (storage_fields sd).
Proof.
  intros [[Hq1 _] [Hq2 _] [Hq3 _] [Hq4 _] [Hq5 _] _ _]. unfold fields_ok, storage_fields. split.
  - repeat first [apply Forall_cons; split|apply Forall_nil; exact I]; cbn [fst snd];
      (split; [reflexivity|]); eauto using quoted_no_at, uint_text_no_at, bool_no_at.
  - apply (bool_decide_unpack _). vm_compute. exact I.
Qed.

Lemma size_halves v : is_u64 v →
  Z.lor (u64 (Z.shiftl (u32 (Z.shiftr v 32)) 32)) (u32 (Z.land v 4294967295)) = v.
Proof.
  intros Hv. unfold is_u64 in Hv. rewrite Z.shiftr_div_pow2 by lia. change (2 ^ 32) with 4294967296.
  change 4294967295 with (2 ^ 32 - 1). rewrite land_ones_mod by lia. change (2 ^ 32) with 4294967296.
  rewrite (u32_small (v / _)) by (unfold is_u32; Z.div_mod_to_equations; lia).
  rewrite (u32_small (v mod _)) by (unfold is_u32; Z.div_mod_to_equations; lia).
  rewrite u64_small.
  - rewrite shiftl_lor_add; [|lia|change (2 ^ 32) with 4294967296; Z.div_mod_to_equations; lia].
    change (2 ^ 32) with 4294967296. Z.div_mod_to_equations. lia.
  - rewrite Z.shiftl_mul_pow2 by lia. change (2 ^ 32) with 4294967296. unfold is_u64. Z.div_mod_to_equations. lia.
Qed.

Tactic Notation "nth_sfield" integer(k) :=
  unfold storage_fields; do k apply list_elem_of_further; apply list_elem_of_here.

Lemma storage_of_text sd : storage_ok sd → storage_of (storage_text sd) = sd.
Proof.
  intros Hsd. pose proof (storage_fields_ok sd Hsd) as Hfs. rewrite storage_text_fields.
  set (T := render _ ++ _).
  assert (∀ t, plain t = true → sub (pat t) T = sub (pat t) (render (storage_fields sd) ++ txt "@END@" ++ NL)) as HT by done.
  assert (∀ tag size v, tag_start tag = pat (txt tag) → (txt tag, 39 :: v ++ [39]) ∈ storage_fields sd →
    quoted size v ∧ 0 ∉ v → default [] (parse_tag T tag size) = v) as Hq.
  { intros tag size v Hst Hin [Hv _]. by rewrite (read_quoted _ _ _ Hfs HT tag size v). }
  assert (∀ tag v, tag_start tag = pat (txt tag) → (txt tag, uint_text (u32 v)) ∈ storage_fields sd →
    parse_tag_uint64 T tag = u32 v) as Hn.
  { intros tag v Hst Hin. by apply (read_number _ _ _ Hfs HT). }
  assert (∀ tag v, is_u32 v → tag_start tag = pat (txt tag) → (txt tag, uint_text (u32 v)) ∈ storage_fields sd →
    u32 (parse_tag_uint64 T tag) = v) as Hn32.
  { intros tag v Hv Hst Hin. rewrite (Hn tag v Hst Hin), (u32_small v) by done. by apply u32_small. }
  destruct Hsd as [Hdn Hpw Hlb Hcr Hlm (Hs1 & Hs2 & Hs3) (Hm & Hd & Ht & Hu & Hf & Hr)].
  unfold storage_of, parse_size. destruct sd as [mg dn dnum pw pp ts us fs tb ub fb rb lb cr lm]. f_equal.
  - by apply Hn32; [|reflexivity|nth_sfield 0].
  - by apply Hq; [reflexivity|nth_sfield 2|].
  - rewrite (Hn "DRIVE_NUMBER"%string dnum); [|reflexivity|nth_sfield 1].
    cbn [drive_number] in Hd. unfold is_u8 in Hd. rewrite u32_small by (unfold is_u32; lia). by apply u8_small.
  - by apply Hq; [reflexivity|nth_sfield 3|].
  - apply (read_bool _ _ _ Hfs HT); [reflexivity|nth_sfield 4].
  - rewrite (Hn "TOTAL_SIZE_HI"%string (Z.shiftr ts 32)), (Hn "TOTAL_SIZE_LO"%string (Z.land ts 4294967295));
      [by apply size_halves|reflexivity|nth_sfield 6|reflexivity|nth_sfield 5].
  - rewrite (Hn "USED_SIZE_HI"%string (Z.shiftr us 32)), (Hn "USED_SIZE_LO"%string (Z.land us 4294967295));
      [by apply size_halves|reflexivity|nth_sfield 8|reflexivity|nth_sfield 7].
  - rewrite (Hn "FREE_SIZE_HI"%string (Z.shiftr fs 32)), (Hn "FREE_SIZE_LO"%string (Z.land fs 4294967295));
      [by apply size_halves|reflexivity|nth_sfield 10|reflexivity|nth_sfield 9].
  - by apply Hn32; [|reflexivity|nth_sfield 11].
  - by apply Hn32; [|reflexivity|nth_sfield 12].
  - by apply Hn32; [|reflexivity|nth_sfield 13].
  - by apply Hn32; [|reflexivity|nth_sfield 14].
  - by apply Hq; [reflexivity|nth_sfield 15|].
  - by apply Hq; [reflexivity|nth_sfield 16|].
  - by apply Hq; [reflexivity|nth_sfield 17|].
Qed.

Lemma num_line_length tag v n : (length (txt tag) + 14 ≤ n)%nat → (length (num_line tag v) ≤ n)%nat.
Proof.
  intros Hn. rewrite num_line_field. unfold field, pat. cbn [fst snd]. rewrite !length_app.
  pose proof (uint_text_u32_length v). simpl length. rewrite length_app. simpl length. lia.
Qed.
Lemma str_line_length tag v k n :
  (length v < k)%nat → (length (txt tag) + k + 6 ≤ n)%nat → (length (str_line tag v) ≤ n)%nat.
Proof.
  intros Hk Hn. rewrite str_line_field. unfold field, pat. cbn [fst snd]. rewrite !length_app.
  simpl length. rewrite !length_app. simpl length. lia.
Qed.

Lemma storage_text_length sd : storage_ok sd → (length (storage_text sd) ≤ 1000)%nat.
Proof.
  intros [[[_ [_ ?]] _] [[_ [_ ?]] _] [[_ [_ ?]] _] [[_ [_ ?]] _] [[_ [_ ?]] _] _ _].
  assert (∀ tag v, (length (txt tag) ≤ 20)%nat → (length (num_line tag v) ≤ 34)%nat) as Hn
    by (intros; apply num_line_length; lia).
  assert (∀ tag v, (length v < 64)%nat → (length (txt tag) ≤ 20)%nat → (length (str_line tag v) ≤ 90)%nat) as Hs
    by (intros; eapply str_line_length; [done|lia]).
  unfold storage_text. rewrite !length_app.
  repeat match goal with
  | |- context [length (num_line ?t ?v)] =>
      let H := fresh in pose proof (Hn t v ltac:(vm_compute; lia)) as H; revert H; generalize (length (num_line t v)); intros
  | |- context [length (str_line ?t ?v)] =>
      let H := fresh in pose proof (Hs t v ltac:(lia) ltac:(vm_compute; lia)) as H; revert H;
      generalize (length (str_line t v)); intros
  end.
  assert (length (if password_protected sd then txt "True" else txt "False") ≤ 5)%nat
    by (destruct (password_protected sd); vm_compute; lia).
  change (length (txt "@PASSWORDPROTECTED:")) with 19%nat. change (length (txt "@END@")) with 5%nat.
  change (length (txt "@")) with 1%nat. change (length NL) with 1%nat. lia.
Qed.

Lemma storage_text_no_nul sd : storage_ok sd → 0 ∉ storage_text sd.
Proof.
  intros Hsd. rewrite storage_text_fields, not_elem_of_app. split; [|by apply (bool_decide_unpack _)].
  assert (Forall (λ f, 0 ∉ f.1 ∧ 0 ∉ f.2) (storage_fields sd)) as Hall.
  { destruct Hsd as [[_ ?] [_ ?] [_ ?] [_ ?] [_ ?] _ _]. unfold storage_fields.
    repeat first [apply Forall_cons; split|apply Forall_nil; exact I]; cbn [fst snd];
      (split; [by apply (bool_decide_unpack _)|]).
    all: first [apply digits_not; [apply u32_range|lia]
               |destruct (password_protected sd); by apply (bool_decide_unpack _)
               |rewrite not_elem_of_cons, not_elem_of_app; split_and!; [done|done|set_solver]]. }
  intros Hin. unfold render in Hin. apply list_elem_of_bind in Hin as ([t v] & Hin & Hf).
  rewrite Forall_forall in Hall. destruct (Hall _ Hf) as [H1 H2]. cbn [fst snd] in *.
  unfold field, pat in Hin. cbn [fst snd] in Hin. set_solver.
Qed.

Lemma storage_block_ok sd :
  storage_ok sd →
  ∃ raw, text_block (storage_text sd) = Ret raw ∧ Z.of_nat (length raw) = MINIMAFS_BLOCK_SIZE ∧
    storage_of (c_string raw) = sd.
Proof.
  intros Hsd. pose proof (storage_text_length sd Hsd). unfold text_block, MINIMAFS_BLOCK_SIZE.
  rewrite (proj2 (Z.ltb_ge _ _)) by lia. eexists. split; [done|].
  split; [rewrite length_app, length_replicate; lia|].
  rewrite c_string_app by (by apply storage_text_no_nul). by apply storage_of_text.
Qed.

(** Round trip: the block that [minimafs_write_storage_desc] builds for a
    storage descriptor never overruns the block and is read back by
    [minimafs_read_storage_desc] as the same descriptor, 64-bit sizes
    included, provided its strings carry no quote, no [@] and no NUL. *)
Theorem storage_desc_roundtrip sd :
  storage_ok sd →
  ∃ raw, text_block (storage_text sd) = Ret raw ∧ Z.of_nat (length raw) = MINIMAFS_BLOCK_SIZE ∧
    storage_of (c_string raw) = sd.
Proof. apply storage_block_ok. Qed.

(** ** The searches are those of string.c *)

Lemma starts_prefix p s : starts p s = true ↔ p `prefix_of` s.
Proof. apply starts_true. Qed.

Lemma sub_first p s i :
  (i ≤ length s)%nat → p `prefix_of` drop i s → (∀ j, (j < i)%nat → ¬ (p `prefix_of` drop j s)) → sub p s = Some (drop i s).
Proof.
  revert s. induction i as [|i IH]; intros s Hi Hp Hmin.
  - rewrite drop_0 in *. apply starts_prefix in Hp. destruct s; simpl; by rewrite Hp.
  - destruct s as [|x s]; [simpl in Hi; lia|]. rewrite sub_cons.
    + apply IH; [simpl in Hi; lia|done|]. intros j Hj. apply (Hmin (S j)). lia.
    + apply not_true_iff_false. rewrite starts_prefix. apply (Hmin 0%nat). lia.
Qed.

Lemma sub_nowhere p s : (∀ i, (i ≤ length s)%nat → ¬ (p `prefix_of` drop i s)) → sub p s = None.
Proof.
  induction s as [|x s IH]; intros Hn.
  - simpl. destruct (starts p []) eqn:E; [|done]. apply starts_prefix in E. by destruct (Hn 0%nat).
  - rewrite sub_cons; [apply IH; intros i Hi; apply (Hn (S i)); simpl; lia|].
    apply not_true_iff_false. rewrite starts_prefix. apply (Hn 0%nat). simpl. lia.
Qed.

(** [sub] is [strstr] of string.c: the pointer it returns is the suffix. *)
Lemma strstr_is_sub fuel m h n l k :
  cstr m h l → cstr m n k → 0 < h → (length l + length k < fuel)%nat →
  strstr fuel m h n = Ret (match sub k l with Some q => h + Z.of_nat (ptr_diff q l) | None => 0 end).
Proof.
  intros Hh Hn Hpos Hf. destruct (strstr_correct fuel m h n l k Hh Hn Hpos Hf) as (r & -> & [[-> Hno]|(i & Hi & -> & Hp & Hmin)]).
  - by rewrite sub_nowhere.
  - rewrite (sub_first k l i) by done. unfold ptr_diff. rewrite length_drop. do 2 f_equal. lia.
Qed.

(** ** Paths *)

(** A path with a drive number: the number is the drive's for every number in
    range, and the rest is the local path. *)
Lemma parse_path_number names n p :
  0 ≤ n < MINIMAFS_MAX_DRIVES → (length p < MINIMAFS_MAX_PATH)%nat →
  minimafs_parse_path names (uint_text n ++ 58 :: p) = Ret (Some (n, p)).
Proof.
  intros Hn Hp. unfold MINIMAFS_MAX_DRIVES in *. assert (is_u32 n) as Hu by (unfold is_u32; lia).
  unfold minimafs_parse_path. rewrite chr_skip by (apply digits_not; [done|lia]). rewrite ptr_diff_app.
  assert (n ∈ seqZ 0 99) as Hin by (apply elem_of_seqZ; lia).
  assert (Forall (λ n, ((length (uint_text n) =? 0)%nat || (63 <? length (uint_text n))%nat) = false ∧
            head (uint_text n) ≠ None ∧ (is_dec <$> head (uint_text n)) = Some true ∧
            drive_digits 0 (uint_text n) = Some n) (seqZ 0 99)) as Hall by (apply (bool_decide_unpack _); vm_compute; exact I).
  rewrite Forall_forall in Hall. destruct (Hall n Hin) as (-> & _ & Hd & Hdd). rewrite take_app_length.
  destruct (uint_text n) as [|c l]; [done|]. simpl in Hd. injection Hd as ->. rewrite Hdd.
  rewrite (proj2 (Z.leb_gt _ _)) by (unfold MINIMAFS_MAX_DRIVES; lia). cbn [drop].
  by rewrite (proj2 (Nat.leb_gt _ _)).
Qed.

(** The drive number is accumulated in a byte: 256 names drive 0. *)
Lemma parse_path_wraps : minimafs_parse_path [] (txt "256:/etc") = Ret (Some (0, txt "/etc")).
Proof. vm_compute. reflexivity. Qed.

Lemma rchr_last c l s : c ∉ s → rchr c (l ++ c :: s) = Some (length l).
Proof.
  intros Hs. assert (rchr c (c :: s) = Some 0%nat) as H0.
  { simpl. rewrite Z.eqb_refl. clear l. assert (rchr c s = None) as ->; [|done].
    induction s as [|x s IH]; [done|]. apply not_elem_of_cons in Hs as [? ?]. simpl. rewrite IH by done.
    by rewrite (proj2 (Z.eqb_neq _ _)). }
  induction l as [|x l IH]; [done|]. rewrite <- app_comm_cons. simpl rchr. by rewrite IH.
Qed.

(** A local path splits at its last slash. *)
Lemma split_local_path_spec parent name :
  47 ∉ name → (length name < MINIMAFS_MAX_FILENAME)%nat → (length parent < MINIMAFS_MAX_PATH)%nat →
  minimafs_split_local_path (parent ++ 47 :: name) = Ret (parent, name).
Proof.
  intros Hn Hl Hp. unfold minimafs_split_local_path. rewrite rchr_last by done.
  rewrite take_app_length. replace (drop (S (length parent)) (parent ++ 47 :: name)) with name.
  - rewrite (proj2 (Nat.leb_gt _ _)), (proj2 (Nat.leb_gt _ _)) by done. done.
  - replace (S (length parent)) with (length parent + 1)%nat by lia. by rewrite <- drop_drop, drop_app_length.
Qed.

(** ** What the formats cannot carry *)

(** Tags in a file's data are taken for tags of its header: this file, not
    runnable when written, is read back as runnable. *)
Definition demo_meta : minimafs_file_metadata :=
  mk_meta (txt "a.txt") (txt "text") (txt "txt") 229 15 (txt "01Jan2026") (txt "01Jan2026") (txt "/etc") false 0 [] false 0 0.

Lemma header_data_overrides :
  runnable demo_meta = false ∧
  ∃ m, minimafs_parse_file_header (header_text demo_meta ++ txt "@RUNNABLE:True@") = Ret (Some m) ∧ runnable m = true.
Proof. split; [done|]. eexists. split; [vm_compute; reflexivity|reflexivity]. Qed.

(** A comma in a name ends it. *)
Lemma entry_comma_lost :
  ∃ e, parse_folder_entry_line (entry_line (mk_entry (txt "a,b") MINIMAFS_TYPE_DIR 5 1 false)) = Some e ∧
    e_name e = txt "a" ∧ e_type e = MINIMAFS_TYPE_FILE.
Proof. eexists. split; [vm_compute; reflexivity|split; reflexivity]. Qed.

(** ** Witnesses *)

Lemma demo_meta_ok : header_ok demo_meta.
Proof.
  split; try (unfold is_u32, is_u64; simpl; lia); try done;
    repeat split; try (vm_compute; lia); try done; by apply (bool_decide_unpack _).
Qed.

Lemma file_header_roundtrip_witness :
  minimafs_parse_file_header (header_text demo_meta ++ txt "hello, world@END") = Ret (Some demo_meta).
Proof.
  apply (file_header_roundtrip demo_meta (txt "hello, world@END") demo_meta_ok).
  intros tag Hin. assert (forallb (λ tag, bool_decide (sub (pat (txt tag)) (txt "hello, world@END") = None)) header_tags = true)
    as Hall by (vm_compute; reflexivity).
  rewrite forallb_forall in Hall. specialize (Hall tag (proj1 (list_elem_of_In _ _) Hin)). by apply bool_decide_eq_true in Hall.
Defined.

Lemma file_header_fits_witness :
  minimafs_generate_file_header (λ _, true) demo_meta = Ret (Some (header_text demo_meta)).
Proof. apply (file_header_fits (λ _, true) demo_meta). unfold is_u64. simpl. lia. Defined.

Definition demo_folder : minimafs_folder_desc :=
  mk_folder (txt "/etc") 7 [mk_entry (txt "conf") MINIMAFS_TYPE_DIR 9 1 false; mk_entry (txt "a.txt") MINIMAFS_TYPE_FILE 10 3 true].

Lemma demo_folder_ok : folder_ok demo_folder.
Proof.
  split; [split_and!; by apply (bool_decide_unpack _)| |vm_compute; lia].
  repeat constructor; simpl; try (by apply (bool_decide_unpack _)); try lia; auto; vm_compute; lia.
Qed.

Lemma folder_desc_roundtrip_witness :
  ∃ t raw, folder_text demo_folder = Some t ∧ text_block t = Ret raw ∧ parse_folder_desc 7 raw = Ret demo_folder.
Proof.
  destruct (folder_text demo_folder) as [t|] eqn:Ht; [|by vm_compute in Ht].
  destruct (folder_desc_roundtrip demo_folder t demo_folder_ok Ht) as (raw & Hb & _ & Hp).
  exists t, raw. done.
Defined.

Definition demo_sdesc : minimafs_storage_desc :=
  mk_sdesc MINIMAFS_MAGIC (txt "data") 2 [] false 17179869184 8192 17179860992 4194304 2 4194302 1 [] (txt "01Jan2026") (txt "01Jan2026").

Lemma demo_sdesc_ok : storage_ok demo_sdesc.
Proof.
  split; try (unfold is_u8, is_u32, is_u64; simpl; unfold MINIMAFS_MAGIC; lia);
    (split; [split_and!; [by apply (bool_decide_unpack _)..|vm_compute; lia]|by apply (bool_decide_unpack _)]).
Qed.

Lemma storage_desc_roundtrip_witness :
  ∃ raw, text_block (storage_text demo_sdesc) = Ret raw ∧ storage_of (c_string raw) = demo_sdesc.
Proof.
  destruct (storage_desc_roundtrip demo_sdesc demo_sdesc_ok) as (raw & Hb & _ & Hs). by exists raw.
Defined.
End fstext.
