(* ===== verification/Fs.v ===== *)
(** * MinimaFS ([src/impl/filesystem/minimafs.c])

    The file system over the block devices of [Block.v], the extent allocator
    of [Extent.v] and the texts of [FsText.v]. State: record [fsys] holds the
    tables [g_drives], [g_block_alloc], [g_dma_bounce], [g_self_test_done] and
    [g_file_handle_pool], and the block devices. A drive is its index in
    [g_drives] (its [drive_number] field always equals it), a file handle its
    index in the pool, a device its index in the device table.

    Every function is in the state and outcome monad [fsM]: [Undef] is a copy
    past an array, a null dereference or a read of bytes never written, [Hang]
    a loop that never ends. [env] carries what a call finds around it: which
    sizes [alloc_unzeroed] and [alloc] give ([can_alloc]), whether
    [alloc_pages_zeroed] gives the 16 pages of a bounce buffer ([can_pages])
    and the date text ([now]). The scratch pools (folder descriptors,
    metadata, path buffers) are free when a call starts and a call gives back
    what it took; the spin locks are free likewise. Serial output and the
    polling delays have no effect on the state and are left out. *)

From S2P Require Import Prelude CString Time Net Block Extent FsText.
Import fstext.

Open Scope c_scope.

Module minimafs.

(** ** State *)

Record env := mk_env { can_alloc : Z → bool; can_pages : bool; now : list Z }.

Record drive := mk_drive {
  mounted : bool; d_name : list Z; sdesc : minimafs_storage_desc; device : option nat
}.
Definition drive_zero : drive := mk_drive false [] sd_zero None.

Record file_handle := mk_handle {
  h_drive : nat; h_path : list Z; h_meta : minimafs_file_metadata;
  h_data : option (list Z); h_data_size : Z; h_position : Z;
  h_modified : bool; h_read_only : bool;
  h_streaming : bool; h_block_offset : Z; h_block_count : Z; h_data_offset : Z;
  h_cache : option (list Z); h_cached : Z
}.

Section minimafs.
  Context {D : Type} `{BlockDriver D}.

Record fsys := mk_fsys {
  drives : list drive; allocs : list extent.block_alloc; bounce : list bool; tested : list bool;
  handles : list (option file_handle); store : storage D
}.

Definition set_drives (l : list drive) (s : fsys) : fsys :=
  mk_fsys l (allocs s) (bounce s) (tested s) (handles s) (store s).
Definition set_allocs (l : list extent.block_alloc) (s : fsys) : fsys :=
  mk_fsys (drives s) l (bounce s) (tested s) (handles s) (store s).
Definition set_bounce (l : list bool) (s : fsys) : fsys :=
  mk_fsys (drives s) (allocs s) l (tested s) (handles s) (store s).
Definition set_tested (l : list bool) (s : fsys) : fsys :=
  mk_fsys (drives s) (allocs s) (bounce s) l (handles s) (store s).
Definition set_handles (l : list (option file_handle)) (s : fsys) : fsys :=
  mk_fsys (drives s) (allocs s) (bounce s) (tested s) l (store s).
Definition set_store (st : storage D) (s : fsys) : fsys :=
  mk_fsys (drives s) (allocs s) (bounce s) (tested s) (handles s) st.

(** ** The monad *)

Definition fsM (A : Type) : Type := fsys → outcome (A * fsys).
#[global] Instance fsM_ret : MRet fsM := λ A a s, Ret (a, s).
#[global] Instance fsM_bind : MBind fsM := λ A B k m s, let* (a, s) := m s in k a s.
Definition lift {A} (o : outcome A) : fsM A := λ s, let* a := o in Ret (a, s).
Definition gets {A} (f : fsys → A) : fsM A := λ s, Ret (f s, s).
Definition modify (f : fsys → fsys) : fsM unit := λ s, Ret (tt, f s).

(** ** Drives *)

Definition MAX_DRIVES : nat := 99.

(** [get_drive] and the test [!drive || !drive->mounted]: the slot. *)
Definition get_drive (n : Z) : option nat := if MINIMAFS_MAX_DRIVES <=? n then None else Some (Z.to_nat n).
Definition the_drive (dn : nat) (s : fsys) : drive := nth dn (drives s) drive_zero.
Definition the_alloc (dn : nat) (s : fsys) : extent.block_alloc :=
  nth dn (allocs s) (extent.mk_alloc [] 0 0 0).
Definition put_drive (dn : nat) (d : drive) : fsM () := modify (λ s, set_drives (<[dn := d]> (drives s)) s).
Definition put_alloc (dn : nat) (a : extent.block_alloc) : fsM () :=
  modify (λ s, set_allocs (<[dn := a]> (allocs s)) s).

Definition minimafs_init : fsM () :=
  modify (λ s, mk_fsys (replicate MAX_DRIVES drive_zero) (allocs s) (replicate MAX_DRIVES false)
                       (replicate MAX_DRIVES false) (handles s) (store s)).

Definition ensure_dma_bounce (E : env) (dn : nat) : fsM bool :=
  b ← gets bounce;
  if nth dn b false then mret true
  else if can_pages E then modify (set_bounce (<[dn := true]> b));; mret true
  else mret false.

(** ** Block I/O *)

Definition DMA_BOUNCE_BLOCKS : Z := 16.

Fixpoint read_loop (fuel : nat) (dev : nat) (spb cur remaining : Z) : fsM (option (list Z)) :=
  match fuel with
  | O => lift Hang
  | S fuel' =>
      if 0 <? remaining then
        let chunk := if DMA_BOUNCE_BLOCKS <? remaining then DMA_BOUNCE_BLOCKS else remaining in
        st ← gets store;
        r ← lift (blockdev_read dev (u64 (cur * spb)) (u32 (chunk * spb)) st);
        match r with
        | None => mret None
        | Some b =>
            rest ← read_loop fuel' dev spb (u32 (cur + chunk)) (remaining - chunk);
            mret (match rest with Some l => Some (b ++ l) | None => None end)
        end
      else mret (Some [])
  end.

Definition minimafs_read_blocks (E : env) (dn : nat) (block_num count : Z) : fsM (option (list Z)) :=
  d ← gets (the_drive dn);
  match device d with
  | None => mret None
  | Some dev =>
      ss ← gets (λ s, sector_size (the_dev dev (store s)));
      if (ss =? 0) || negb (MINIMAFS_BLOCK_SIZE mod ss =? 0) then mret None
      else
        ok ← ensure_dma_bounce E dn;
        if negb ok then mret None
        else if count =? 0 then mret (Some [])
        else read_loop (S (Z.to_nat count)) dev (MINIMAFS_BLOCK_SIZE / ss) block_num count
  end.

Fixpoint write_loop (fuel : nat) (dev : nat) (spb cur remaining : Z) (buf : list Z) : fsM bool :=
  match fuel with
  | O => lift Hang
  | S fuel' =>
      if 0 <? remaining then
        let chunk := if DMA_BOUNCE_BLOCKS <? remaining then DMA_BOUNCE_BLOCKS else remaining in
        let bytes := Z.to_nat (chunk * MINIMAFS_BLOCK_SIZE) in
        st ← gets store;
        '(ok, st) ← lift (blockdev_write dev (u64 (cur * spb)) (u32 (chunk * spb)) (take bytes buf) st);
        modify (set_store st);;
        if (ok : bool) then write_loop fuel' dev spb (u32 (cur + chunk)) (remaining - chunk) (drop bytes buf)
        else mret false
      else mret true
  end.

Definition minimafs_write_blocks (E : env) (dn : nat) (block_num count : Z) (buf : list Z) : fsM bool :=
  d ← gets (the_drive dn);
  match device d with
  | None => mret false
  | Some dev =>
      ss ← gets (λ s, sector_size (the_dev dev (store s)));
      if ss =? 0 then mret false
      else
        ok ← ensure_dma_bounce E dn;
        if negb ok then mret false
        else if count =? 0 then mret true
        else if negb (MINIMAFS_BLOCK_SIZE mod ss =? 0) then mret false
        else write_loop (S (Z.to_nat count)) dev (MINIMAFS_BLOCK_SIZE / ss) block_num count buf
  end.

(** ** The allocator of a drive *)

Definition alloc_run (E : env) (dn : nat) (cnt : Z) : fsM Z :=
  a ← gets (the_alloc dn);
  '(r, a) ← lift (extent.block_alloc_run (can_alloc E) cnt a);
  put_alloc dn a;; mret r.
Definition free_run (E : env) (dn : nat) (st cnt : Z) : fsM () :=
  a ← gets (the_alloc dn);
  a ← lift (extent.block_free_run (can_alloc E) st cnt a);
  put_alloc dn a.
Definition mark_used (E : env) (dn : nat) (st cnt : Z) : fsM () :=
  a ← gets (the_alloc dn);
  a ← lift (extent.block_alloc_mark_used (can_alloc E) st cnt a);
  put_alloc dn a.

(** ** storage.desc *)

Definition minimafs_write_storage_desc (E : env) (dn : nat) : fsM bool :=
  d ← gets (the_drive dn);
  let t := storage_text (sdesc d) in
  b ← lift (text_block t);
  if MINIMAFS_BLOCK_SIZE <=? Z.of_nat (length t) then mret false
  else minimafs_write_blocks E dn 0 1 b.

Definition minimafs_read_storage_desc (E : env) (dn : nat) : fsM (option minimafs_storage_desc) :=
  if negb (can_alloc E (MINIMAFS_BLOCK_SIZE + 1)) then mret None
  else
    r ← minimafs_read_blocks E dn 0 1;
    match r with
    | None => mret None
    | Some raw => let sd := storage_of (c_string raw) in mret (if storage_valid sd then Some sd else None)
    end.

(** The counters of the allocator and the date, put into the descriptor. *)
Definition refreshed (date : list Z) (a : extent.block_alloc) (sd : minimafs_storage_desc) : minimafs_storage_desc :=
  let used := u32 (extent.total_blocks a - extent.free_blocks a) in
  let used_sz := u64 (used * MINIMAFS_BLOCK_SIZE) in
  mk_sdesc (magic sd) (drive_name sd) (drive_number sd) (password sd) (password_protected sd)
    (total_size sd) used_sz (u64 (total_size sd - used_sz))
    (total_blocks sd) used (extent.free_blocks a) (root_block sd)
    (filesystem_label sd) (sd_created_date sd) date.

Definition minimafs_refresh_storage_desc (E : env) (dn : nat) : fsM () :=
  d ← gets (the_drive dn);
  a ← gets (the_alloc dn);
  let sd := refreshed (now E) a (sdesc d) in
  put_drive dn (mk_drive (mounted d) (d_name d) sd (device d));;
  if negb (magic sd =? MINIMAFS_MAGIC) || (total_blocks sd =? 0) then mret tt
  else _ ← minimafs_write_storage_desc E dn; mret tt.

(** The entry is not looked at: the root's entries live in its folder.desc. *)
Definition minimafs_storage_add_entry (E : env) (dn : nat) : fsM bool := minimafs_write_storage_desc E dn.

(** ** folder.desc *)

Definition minimafs_read_folder_desc_block (E : env) (dn : nat) (block : Z) : fsM (option minimafs_folder_desc) :=
  r ← minimafs_read_blocks E dn block 1;
  match r with
  | None => mret None
  | Some raw => d ← lift (parse_folder_desc block raw); mret (Some d)
  end.

(** The components of a path between slashes. *)
Fixpoint tokens (acc s : list Z) : list (list Z) :=
  match s with
  | [] => match acc with [] => [] | _ => [acc] end
  | c :: r => if c =? 47 then match acc with [] => tokens [] r | _ => acc :: tokens [] r end
              else tokens (acc ++ [c]) r
  end.

(** The first directory of that name. *)
Fixpoint find_subdir (l : list minimafs_dir_entry) (name : list Z) : option minimafs_dir_entry :=
  match l with
  | [] => None
  | e :: r => if bool_decide (e_type e = MINIMAFS_TYPE_DIR) && bool_decide (e_name e = name) then Some e
              else find_subdir r name
  end.

Fixpoint walk (E : env) (dn : nat) (block : Z) (toks : list (list Z)) : fsM (option Z) :=
  match toks with
  | [] => mret (Some block)
  | t :: r =>
      d ← minimafs_read_folder_desc_block E dn block;
      match d with
      | None => mret None
      | Some d =>
          match find_subdir (entries d) t with
          | None => mret None
          | Some e => walk E dn (e_block_offset e) r
          end
      end
  end.

Definition is_root (p : list Z) : bool := bool_decide (p = []) || bool_decide (p = [47]).

Definition minimafs_get_folder_block (E : env) (dn : nat) (p : list Z) : fsM (option Z) :=
  root ← gets (λ s, root_block (sdesc (the_drive dn s)));
  if is_root p then mret (Some root)
  else if negb (can_alloc E (Z.of_nat (length p) + 1)) then mret None
  else walk E dn root (tokens [] p).

Definition minimafs_read_folder_desc (E : env) (dn : nat) (p : list Z) : fsM (option minimafs_folder_desc) :=
  b ← minimafs_get_folder_block E dn p;
  match b with
  | None => mret None
  | Some block =>
      r ← minimafs_read_folder_desc_block E dn block;
      match r with
      | None => mret None
      | Some d => mret (Some (match path d with
                              | [] => mk_folder (take (MINIMAFS_MAX_PATH - 1) p) (f_block_offset d) (entries d)
                              | _ => d
                              end))
      end
  end.

Definition minimafs_write_folder_desc (E : env) (dn : nat) (d : minimafs_folder_desc) : fsM bool :=
  if f_block_offset d =? 0 then mret false
  else if (MINIMAFS_MAX_ROOT_ENTRIES <? length (entries d))%nat then mret false
  else
    match folder_text d with
    | None => mret false
    | Some t => b ← lift (text_block t); minimafs_write_blocks E dn (f_block_offset d) 1 b
    end.

(** ** Scanning a volume at mount time *)

(** The blocks a file of that length takes, as the code rounds. *)
Definition blocks_for (len : Z) : Z :=
  u32 (u32 (len + MINIMAFS_BLOCK_SIZE - 1) / MINIMAFS_BLOCK_SIZE * MINIMAFS_BLOCK_SIZE) / MINIMAFS_BLOCK_SIZE.

Definition minimafs_calc_file_block_count (E : env) (dn : nat) (block : Z) : fsM Z :=
  if negb (can_alloc E (MINIMAFS_BLOCK_SIZE + 1)) then mret 1
  else
    r ← minimafs_read_blocks E dn block 1;
    match r with
    | None => mret 1
    | Some raw =>
        m ← lift (minimafs_parse_file_header (c_string raw));
        let len := file_length (default meta_zero m) in
        mret (blocks_for (if len =? 0 then MINIMAFS_BLOCK_SIZE else len))
    end.

(** Marks the entries and collects the directories among them. *)
Fixpoint scan_entries (E : env) (dn : nat) (l : list minimafs_dir_entry) : fsM (list Z) :=
  match l with
  | [] => mret []
  | e :: r =>
      n ← (if e_block_count e =? 0 then
             if bool_decide (e_type e = MINIMAFS_TYPE_DIR) then mret 1
             else minimafs_calc_file_block_count E dn (e_block_offset e)
           else mret (e_block_count e));
      mark_used E dn (e_block_offset e) n;;
      subs ← scan_entries E dn r;
      mret (if bool_decide (e_type e = MINIMAFS_TYPE_DIR) then e_block_offset e :: subs else subs)
  end.

(** [fuel] bounds the depth of the recursion. *)
Fixpoint minimafs_scan_directory (fuel : nat) (E : env) (dn : nat) (block : Z) : fsM () :=
  match fuel with
  | O => lift Hang
  | S fuel' =>
      r ← minimafs_read_folder_desc_block E dn block;
      match r with
      | None => mret tt
      | Some d =>
          subs ← scan_entries E dn (entries d);
          (fix each (l : list Z) : fsM () :=
             match l with
             | [] => mret tt
             | b :: l' => minimafs_scan_directory fuel' E dn b;; each l'
             end) subs
      end
  end.

(** ** Writing a file's blocks *)

(** [minimafs_copy_segment_to_block]: the part of [src] (at [src_start] in the
    file) that falls into the block at [block_offset]; [None] is a null
    pointer. *)
Definition minimafs_copy_segment_to_block (block : list Z) (block_offset : Z) (src : option (list Z))
    (src_len src_start : Z) : outcome (list Z) :=
  match src with
  | None => Ret block
  | Some src =>
      if src_len =? 0 then Ret block
      else
        let block_end := u32 (block_offset + MINIMAFS_BLOCK_SIZE) in
        let src_end := u32 (src_start + src_len) in
        if (src_end <=? block_offset) || (block_end <=? src_start) then Ret block
        else
          let copy_start := if block_offset <? src_start then src_start else block_offset in
          let copy_end := if src_end <? block_end then src_end else block_end in
          let len := u32 (copy_end - copy_start) in
          let at_block := copy_start - block_offset in
          let at_src := copy_start - src_start in
          if (MINIMAFS_BLOCK_SIZE <? at_block + len) || (Z.of_nat (length src) <? at_src + len) then Undef
          else Ret (take (Z.to_nat at_block) block ++ take (Z.to_nat len) (drop (Z.to_nat at_src) src) ++
                    drop (Z.to_nat (at_block + len)) block)
  end.

Definition FOOTER : list Z := txt "@END" ++ NL.

(** The [idx]-th block of the file: header, two segments and footer. *)
Definition file_block (header : list Z) (seg1 : option (list Z)) (len1 : Z) (seg2 : option (list Z)) (len2 : Z)
    (idx : Z) : outcome (list Z) :=
  let hs := Z.of_nat (length header) in
  let bo := u32 (idx * MINIMAFS_BLOCK_SIZE) in
  let* b := minimafs_copy_segment_to_block (replicate (Z.to_nat MINIMAFS_BLOCK_SIZE) 0) bo (Some header) hs 0 in
  let* b := minimafs_copy_segment_to_block b bo seg1 len1 hs in
  let* b := minimafs_copy_segment_to_block b bo seg2 len2 (u32 (hs + len1)) in
  minimafs_copy_segment_to_block b bo (Some FOOTER) 5 (u32 (hs + u32 (len1 + len2))).

(** The blocks from [idx] on, [n] of them. *)
Fixpoint file_blocks (n : nat) (header : list Z) (seg1 : option (list Z)) (len1 : Z) (seg2 : option (list Z))
    (len2 idx : Z) : outcome (list Z) :=
  match n with
  | O => Ret []
  | S n' =>
      let* b := file_block header seg1 len1 seg2 len2 idx in
      let* r := file_blocks n' header seg1 len1 seg2 len2 (idx + 1) in
      Ret (b ++ r)
  end.

Definition set_lengths (fl dl : Z) (m : minimafs_file_metadata) : minimafs_file_metadata :=
  mk_meta (filename m) (filetype m) (fileformat m) fl dl (created_date m) (last_changed m) (parent_folder m)
    (runnable m) (entrypoint m) (run_with m) (hidden m) (block_offset m) (block_count m).

(** The two passes that settle the header's length, and the header: [None]
    when the heap refuses. *)
Definition settle_header (E : env) (m : minimafs_file_metadata) (data_size : Z) :
    outcome (option (minimafs_file_metadata * list Z)) :=
  let gen m := minimafs_generate_file_header (can_alloc E) m in
  let with_header (hs : Z) := set_lengths (u32 (hs + data_size + 5)) data_size m in
  let* h1 := gen (with_header 0) in
  match h1 with
  | None => Ret None
  | Some h1 =>
      let* h2 := gen (with_header (Z.of_nat (length h1))) in
      match h2 with
      | None => Ret None
      | Some h2 =>
          let m := with_header (Z.of_nat (length h2)) in
          let* h3 := gen m in
          match h3 with None => Ret None | Some h3 => Ret (Some (m, h3)) end
      end
  end.

(** Where the file goes: its old run when that is long enough, its tail given
    back; else a new run, the old one given back. *)
Definition place_file (E : env) (dn : nat) (bc start old_count : Z) : fsM (option Z) :=
  if negb (start =? 0) && (bc <=? old_count) then
    (if bc <? old_count then free_run E dn (u32 (start + bc)) (old_count - bc) else mret tt);;
    mret (Some start)
  else
    r ← alloc_run E dn bc;
    if r =? extent.NO_BLOCK then mret None
    else
      (if 0 <? old_count then free_run E dn start old_count else mret tt);;
      mret (Some r).

(** The chunks of at most 16 blocks. *)
Fixpoint write_file_loop (fuel : nat) (E : env) (dn : nat) (start bc i : Z) (header : list Z)
    (seg1 : option (list Z)) (len1 : Z) (seg2 : option (list Z)) (len2 : Z) : fsM bool :=
  match fuel with
  | O => lift Hang
  | S fuel' =>
      if i <? bc then
        let chunk := if DMA_BOUNCE_BLOCKS <? bc - i then DMA_BOUNCE_BLOCKS else bc - i in
        buf ← lift (file_blocks (Z.to_nat chunk) header seg1 len1 seg2 len2 i);
        ok ← minimafs_write_blocks E dn (u32 (start + i)) chunk buf;
        if (ok : bool) then write_file_loop fuel' E dn start bc (i + chunk) header seg1 len1 seg2 len2
        else mret false
      else mret true
  end.

(** The metadata comes back with its lengths and blocks. *)
Definition minimafs_write_file_to_disk_segments (E : env) (dn : nat) (m : minimafs_file_metadata)
    (seg1 : option (list Z)) (len1 : Z) (seg2 : option (list Z)) (len2 : Z) :
    fsM (bool * minimafs_file_metadata) :=
  let data_size := u32 (len1 + len2) in
  r ← lift (settle_header E m data_size);
  match r with
  | None => mret (false, m)
  | Some (m, header) =>
      let total_size := u32 (Z.of_nat (length header) + data_size + 5) in
      let bc := blocks_for total_size in
      p ← place_file E dn bc (block_offset m) (block_count m);
      match p with
      | None => mret (false, m)
      | Some start =>
          let m := set_blocks start bc m in
          let buffer_blocks := if bc <? DMA_BOUNCE_BLOCKS then bc else DMA_BOUNCE_BLOCKS in
          if negb (can_alloc E (MINIMAFS_BLOCK_SIZE * buffer_blocks)) && negb (buffer_blocks =? 1) then
            free_run E dn start bc;; mret (false, m)
          else
            ok ← write_file_loop (S (Z.to_nat bc)) E dn start bc 0 header seg1 len1 seg2 len2;
            if (ok : bool) then minimafs_refresh_storage_desc E dn;; mret (true, m)
            else free_run E dn start bc;; mret (false, m)
      end
  end.

Definition minimafs_write_file_to_disk (E : env) (dn : nat) (m : minimafs_file_metadata)
    (data : option (list Z)) (len : Z) : fsM (bool * minimafs_file_metadata) :=
  minimafs_write_file_to_disk_segments E dn m data len None 0.

(** ** Creating files *)

(** [minimafs_parse_path] with the mounted drives, and the mounted test that
    every operation makes: the drive and the local path. *)
Definition drive_names (s : fsys) : list (bool * list Z * Z) :=
  imap (λ i d, (mounted d, d_name d, Z.of_nat i)) (drives s).

Definition resolve_path (p : list Z) : fsM (option (nat * list Z)) :=
  names ← gets drive_names;
  r ← lift (minimafs_parse_path names p);
  match r with
  | None => mret None
  | Some (n, local) =>
      match get_drive n with
      | None => mret None
      | Some dn => d ← gets (the_drive dn); mret (if mounted d then Some (dn, local) else None)
      end
  end.

Definition PATH_STORAGE : Z := 2304.

(** A fresh metadata record for [name] in [parent]. *)
Definition new_meta (E : env) (name ftype fformat parent : list Z) : minimafs_file_metadata :=
  mk_meta (take 255 name) (take 63 ftype) (take 15 fformat) 0 0 (now E) (now E) (take 1023 parent)
    false 0 [] false 0 0.

Definition minimafs_create_file (E : env) (p ftype fformat : list Z) : fsM bool :=
  if negb (can_alloc E PATH_STORAGE) then mret false
  else
    r ← resolve_path p;
    match r with
    | None => mret false
    | Some (dn, local) =>
        '(parent, name) ← lift (minimafs_split_local_path local);
        pd ← minimafs_read_folder_desc E dn parent;
        match pd with
        | None => mret false
        | Some pd =>
            let existing := find_entry (entries pd) name in
            if match existing with
               | Some i => bool_decide (e_type <$> (entries pd !! i) ≠ Some MINIMAFS_TYPE_DIR)
               | None => false
               end then mret false
            else if (MINIMAFS_MAX_ROOT_ENTRIES <=? length (entries pd))%nat then mret false
            else
              '(ok, m) ← minimafs_write_file_to_disk E dn (new_meta E name ftype fformat parent) None 0;
              if negb ok then mret false
              else
                let e := mk_entry (take (MINIMAFS_MAX_ENTRY_NAME - 1) name) MINIMAFS_TYPE_FILE
                           (block_offset m) (block_count m) false in
                minimafs_write_folder_desc E dn (mk_folder (path pd) (f_block_offset pd) (entries pd ++ [e]))
        end
    end.

(** ** Opening files *)

(** [g_file_handle_pool]: the first free slot. *)
Definition HANDLE_POOL_SIZE : nat := 64.
Definition minimafs_acquire_file_handle : fsM (option nat) :=
  l ← gets handles;
  mret (first_index (λ h, match h with None => true | Some _ => false end) l).
Definition put_handle (h : nat) (v : option file_handle) : fsM () :=
  modify (λ s, set_handles (<[h := v]> (handles s)) s).

Definition STREAMING_THRESHOLD : Z := 16384.
Definition INLINE_DATA : Z := 512.
Definition NO_CACHE : Z := 4294967295.

(** Where the data begins in the first block, and how long it is: from the
    header, from the file length when the header gives none, cut at the end
    of the blocks. *)
Definition data_offset_of (text : list Z) : Z :=
  match sub (txt "@DATA@" ++ NL) text with Some q => Z.of_nat (ptr_diff q text) + 7 | None => 0 end.

Definition data_length_of (m : minimafs_file_metadata) (data_offset total_size : Z) : Z :=
  let len := data_length m in
  let len := if (len =? 0) && (u32 (data_offset + 5) <? file_length m)
             then u32 (file_length m - data_offset - 5) else len in
  if total_size <? u32 (data_offset + len)
  then if data_offset <? total_size then total_size - data_offset else 0
  else len.

(** A handle on the entry [e], before its data. *)
Definition new_handle (dn : nat) (p : list Z) (ro : bool) (e : minimafs_dir_entry) : file_handle :=
  mk_handle dn (take (MINIMAFS_MAX_PATH - 1) p) meta_zero None 0 0 false ro false
    (e_block_offset e) (e_block_count e) 0 None NO_CACHE.

Definition with_data (m : minimafs_file_metadata) (data : option (list Z)) (size off : Z) (streaming : bool)
    (cache : option (list Z)) (h : file_handle) : file_handle :=
  mk_handle (h_drive h) (h_path h) m data size (h_position h) (h_modified h) (h_read_only h) streaming
    (h_block_offset h) (h_block_count h) off cache (h_cached h).

(** The contents of a fresh block buffer are never read: [h_cached] says that
    no block is in it. *)
Definition fresh_cache : option (list Z) := Some (replicate (Z.to_nat MINIMAFS_BLOCK_SIZE) 0).

(** The data of the file, loaded or to be streamed: [None] when it cannot be. *)
Definition load_data (E : env) (dn : nat) (e : minimafs_dir_entry) (m : minimafs_file_metadata)
    (total off len : Z) (h : file_handle) : fsM (option file_handle) :=
  if (STREAMING_THRESHOLD <? len) && can_alloc E MINIMAFS_BLOCK_SIZE then
    mret (Some (with_data m None len off true fresh_cache h))
  else if len =? 0 then mret (Some (with_data m None len off false None h))
  else if negb (can_alloc E total) && (MINIMAFS_BLOCK_SIZE <? total) then
    mret (if can_alloc E MINIMAFS_BLOCK_SIZE then Some (with_data m None len off true fresh_cache h) else None)
  else
    r ← minimafs_read_blocks E dn (e_block_offset e) (e_block_count e);
    match r with
    | None => mret None
    | Some raw =>
        if (INLINE_DATA <? len) && negb (can_alloc E len) then mret None
        else if total <? off + len then lift Undef
        else mret (Some (with_data m (Some (take (Z.to_nat len) (drop (Z.to_nat off) raw))) len off false None h))
    end.

(** From the directory entry to the filled handle. The first block is read
    into a heap buffer of exactly its size, and searching it runs past the end
    when it has no NUL; the static buffer used when the heap refuses has one
    more byte, always NUL. *)
Definition open_entry (E : env) (dn : nat) (p : list Z) (ro : bool) (e : minimafs_dir_entry) : fsM (option nat) :=
  if bool_decide (e_type e = MINIMAFS_TYPE_DIR) then mret None
  else
    h ← minimafs_acquire_file_handle;
    match h with
    | None => mret None
    | Some h =>
        let hd := new_handle dn p ro e in
        let total := u32 (e_block_count e * MINIMAFS_BLOCK_SIZE) in
        if total =? 0 then put_handle h (Some hd);; mret (Some h)
        else
          r ← minimafs_read_blocks E dn (e_block_offset e) 1;
          match r with
          | None => mret None
          | Some first =>
              if can_alloc E MINIMAFS_BLOCK_SIZE && negb (bool_decide (0 ∈ first)) then lift Undef
              else
                let text := c_string first in
                m ← lift (minimafs_parse_file_header text);
                let m := set_blocks (e_block_offset e) (e_block_count e) (default meta_zero m) in
                let off := data_offset_of text in
                r ← load_data E dn e m total off (data_length_of m off total) hd;
                match r with
                | None => mret None
                | Some hd => put_handle h (Some hd);; mret (Some h)
                end
          end
    end.

Definition minimafs_open (E : env) (p : list Z) (ro : bool) : fsM (option nat) :=
  r ← resolve_path p;
  match r with
  | None => mret None
  | Some (dn, local) =>
      '(parent, name) ← lift (minimafs_split_local_path local);
      pd ← minimafs_read_folder_desc E dn parent;
      match pd with
      | None => mret None
      | Some pd =>
          e ← (match find_entry (entries pd) name with
               | Some i => mret (entries pd !! i)
               | None =>
                   if ro then mret None
                   else
                     ok ← minimafs_create_file E p (txt "binary") (txt "bin");
                     if negb ok then mret None
                     else
                       pd ← minimafs_read_folder_desc E dn parent;
                       match pd with
                       | None => mret None
                       | Some pd => mret (find_entry (entries pd) name ≫= λ i, entries pd !! i)
                       end
               end);
          match e with
          | None => mret None
          | Some e => open_entry E dn p ro e
          end
      end
  end.

(** ** Closing, reading, writing *)

(** The entry of a file after its blocks were written. *)
Definition update_entry (o c : Z) (hid : bool) (e : minimafs_dir_entry) : minimafs_dir_entry :=
  mk_entry (e_name e) (e_type e) o c hid.

Definition minimafs_close (E : env) (h : nat) : fsM () :=
  l ← gets handles;
  match nth h l None with
  | None => lift Undef
  | Some hd =>
      d ← gets (the_drive (h_drive hd));
      (if h_modified hd && negb (h_read_only hd) && mounted d && can_alloc E 1024 then
         names ← gets drive_names;
         r ← lift (minimafs_parse_path names (h_path hd));
         match r with
         | None => mret tt
         | Some (_, local) =>
             '(ok, m) ← minimafs_write_file_to_disk E (h_drive hd) (h_meta hd) (h_data hd) (h_data_size hd);
             if negb ok || negb (can_alloc E 256) then mret tt
             else
               '(parent, name) ← lift (minimafs_split_local_path local);
               pd ← minimafs_read_folder_desc E (h_drive hd) parent;
               match pd with
               | None => mret tt
               | Some pd =>
                   match find_entry (entries pd) name with
                   | None => mret tt
                   | Some i =>
                       _ ← minimafs_write_folder_desc E (h_drive hd)
                             (mk_folder (path pd) (f_block_offset pd)
                                (alter (update_entry (block_offset m) (block_count m) (hidden m)) i (entries pd)));
                       mret tt
                   end
               end
         end
       else mret tt);;
      put_handle h None
  end.

Definition set_position (pos : Z) (hd : file_handle) : file_handle :=
  mk_handle (h_drive hd) (h_path hd) (h_meta hd) (h_data hd) (h_data_size hd) pos (h_modified hd)
    (h_read_only hd) (h_streaming hd) (h_block_offset hd) (h_block_count hd) (h_data_offset hd)
    (h_cache hd) (h_cached hd).
Definition set_cache (b : list Z) (idx : Z) (hd : file_handle) : file_handle :=
  mk_handle (h_drive hd) (h_path hd) (h_meta hd) (h_data hd) (h_data_size hd) (h_position hd) (h_modified hd)
    (h_read_only hd) (h_streaming hd) (h_block_offset hd) (h_block_count hd) (h_data_offset hd)
    (Some b) idx.

(** The streaming loop: the bytes read and the handle. Each round copies at
    least one byte. *)
Fixpoint stream_loop (fuel : nat) (E : env) (remaining : Z) (hd : file_handle) : fsM (list Z * file_handle) :=
  match fuel with
  | O => lift Hang
  | S fuel' =>
      if 0 <? remaining then
        let file_offset := u32 (h_data_offset hd + h_position hd) in
        let block_index := file_offset / MINIMAFS_BLOCK_SIZE in
        let offset_in_blk := file_offset mod MINIMAFS_BLOCK_SIZE in
        if h_block_count hd <=? block_index then mret ([], hd)
        else
          r ← (if block_index =? h_cached hd then mret (Some hd)
               else
                 b ← minimafs_read_blocks E (h_drive hd) (u32 (h_block_offset hd + block_index)) 1;
                 mret (match b with Some b => Some (set_cache b block_index hd) | None => None end));
          match r with
          | None => mret ([], hd)
          | Some hd =>
              let avail := MINIMAFS_BLOCK_SIZE - offset_in_blk in
              let left := u32 (h_data_size hd - h_position hd) in
              let copy := if remaining <? avail then remaining else avail in
              let copy := if left <? copy then left else copy in
              match h_cache hd with
              | None => lift Undef
              | Some cache =>
                  '(rest, hd) ← stream_loop fuel' E (remaining - copy) (set_position (u32 (h_position hd + copy)) hd);
                  mret (take (Z.to_nat copy) (drop (Z.to_nat offset_in_blk) cache) ++ rest, hd)
              end
          end
      else mret ([], hd)
  end.

(** The bytes read; the C function returns their number. *)
Definition minimafs_read (E : env) (h : nat) (size : Z) : fsM (list Z) :=
  l ← gets handles;
  match nth h l None with
  | None => mret []
  | Some hd =>
      if h_data_size hd <=? h_position hd then mret []
      else
        let available := h_data_size hd - h_position hd in
        let to_read := if size <? available then size else available in
        if h_streaming hd then
          match h_cache hd with
          | None => mret []
          | Some _ =>
              d ← gets (the_drive (h_drive hd));
              if negb (mounted d) then mret []
              else
                '(b, hd) ← stream_loop (S (Z.to_nat to_read)) E to_read hd;
                put_handle h (Some hd);; mret b
          end
        else
          match h_data hd with
          | None => mret []
          | Some data =>
              put_handle h (Some (set_position (u32 (h_position hd + to_read)) hd));;
              mret (take (Z.to_nat to_read) (drop (Z.to_nat (h_position hd)) data))
          end
  end.

(** [data] with [buf] over it at [pos]. *)
Definition splice (data : list Z) (pos : Z) (buf : list Z) : list Z :=
  take (Z.to_nat pos) data ++ buf ++ drop (Z.to_nat pos + length buf) data.

Definition touch (E : env) (len : Z) (m : minimafs_file_metadata) : minimafs_file_metadata :=
  mk_meta (filename m) (filetype m) (fileformat m) (file_length m) len (created_date m) (now E) (parent_folder m)
    (runnable m) (entrypoint m) (run_with m) (hidden m) (block_offset m) (block_count m).

(** The number of bytes written. Bytes of a grown buffer that nothing wrote
    are not known: reading them back would be [Undef], so is leaving them. *)
Definition minimafs_write (E : env) (h : nat) (buf : list Z) : fsM Z :=
  l ← gets handles;
  match nth h l None with
  | None => mret 0
  | Some hd =>
      if h_read_only hd then mret 0
      else
        let size := Z.of_nat (length buf) in
        let needed := u32 (h_position hd + size) in
        let grow := h_data_size hd <? needed in
        if grow && (INLINE_DATA <? needed) && negb (can_alloc E needed) then mret 0
        else
          let data_size := if grow then needed else h_data_size hd in
          match h_data hd with
          | None =>
              if (grow && (h_position hd =? 0) && (h_data_size hd =? 0)) || (size =? 0) then
                put_handle h (Some (mk_handle (h_drive hd) (h_path hd) (touch E data_size (h_meta hd))
                  (if grow then Some buf else None)
                  data_size (h_position hd + size) true false (h_streaming hd) (h_block_offset hd)
                  (h_block_count hd) (h_data_offset hd) (h_cache hd) (h_cached hd)));; mret size
              else lift Undef
          | Some data =>
              if (data_size <? h_position hd + size) || (h_data_size hd <? h_position hd) then lift Undef
              else
                put_handle h (Some (mk_handle (h_drive hd) (h_path hd) (touch E data_size (h_meta hd))
                  (Some (splice data (h_position hd) buf))
                  data_size (h_position hd + size) true false (h_streaming hd) (h_block_offset hd)
                  (h_block_count hd) (h_data_offset hd) (h_cache hd) (h_cached hd)));; mret size
          end
  end.

Definition minimafs_seek (h : nat) (offset : Z) : fsM bool :=
  l ← gets handles;
  match nth h l None with
  | None => mret false
  | Some hd =>
      put_handle h (Some (set_position (if h_data_size hd <? offset then h_data_size hd else offset) hd));; mret true
  end.

Definition minimafs_tell (h : nat) : fsM Z :=
  gets (λ s, match nth h (handles s) None with Some hd => h_position hd | None => 0 end).
Definition minimafs_size (h : nat) : fsM Z :=
  gets (λ s, match nth h (handles s) None with Some hd => h_data_size hd | None => 0 end).
Definition minimafs_eof (h : nat) : fsM bool :=
  gets (λ s, match nth h (handles s) None with Some hd => h_data_size hd <=? h_position hd | None => true end).

(** ** Deleting, directories *)

(** The entry's blocks are given back before the directory is written. *)
Definition minimafs_delete_file (E : env) (p : list Z) : fsM bool :=
  r ← resolve_path p;
  match r with
  | None => mret false
  | Some (dn, local) =>
      '(parent, name) ← lift (minimafs_split_local_path local);
      pd ← minimafs_read_folder_desc E dn parent;
      match pd with
      | None => mret false
      | Some pd =>
          match find_entry (entries pd) name with
          | None => mret false
          | Some i =>
              match entries pd !! i with
              | None => lift Undef
              | Some e =>
                  if bool_decide (e_type e = MINIMAFS_TYPE_DIR) then mret false
                  else
                    (if 0 <? e_block_count e then free_run E dn (e_block_offset e) (e_block_count e) else mret tt);;
                    minimafs_refresh_storage_desc E dn;;
                    minimafs_write_folder_desc E dn (mk_folder (path pd) (f_block_offset pd) (delete i (entries pd)))
              end
          end
      end
  end.

Definition minimafs_mkdir (E : env) (p : list Z) : fsM bool :=
  r ← resolve_path p;
  match r with
  | None => mret false
  | Some (dn, local) =>
      if is_root local then mret true
      else
        '(parent, name) ← lift (minimafs_split_local_path local);
        if bool_decide (name = []) then mret false
        else
          pd ← minimafs_read_folder_desc E dn parent;
          match pd with
          | None => mret false
          | Some pd =>
              match find_entry (entries pd) name with
              | Some i => mret (bool_decide (e_type <$> (entries pd !! i) = Some MINIMAFS_TYPE_DIR))
              | None =>
                  b ← alloc_run E dn 1;
                  if b =? extent.NO_BLOCK then mret false
                  else if (MINIMAFS_MAX_ROOT_ENTRIES <=? length (entries pd))%nat then
                    free_run E dn b 1;; mret false
                  else if (MINIMAFS_MAX_ENTRY_NAME <=? length name)%nat then lift Undef
                  else
                    ok ← minimafs_write_folder_desc E dn
                           (mk_folder (path pd) (f_block_offset pd)
                              (entries pd ++ [mk_entry name MINIMAFS_TYPE_DIR b 1 false]));
                    if negb ok then free_run E dn b 1;; mret false
                    else
                      ok ← minimafs_write_folder_desc E dn (mk_folder local b []);
                      if negb ok then free_run E dn b 1;; mret false
                      else minimafs_refresh_storage_desc E dn;; mret true
              end
          end
  end.

Definition minimafs_rmdir (E : env) (p : list Z) : fsM bool :=
  r ← resolve_path p;
  match r with
  | None => mret false
  | Some (dn, local) =>
      if is_root local then mret false
      else
        target ← minimafs_read_folder_desc E dn local;
        match target with
        | None => mret false
        | Some target =>
            if (0 <? length (entries target))%nat then mret false
            else
              '(parent, name) ← lift (minimafs_split_local_path local);
              pd ← minimafs_read_folder_desc E dn parent;
              match pd with
              | None => mret false
              | Some pd =>
                  match find_entry (entries pd) name ≫= (λ i, e ← entries pd !! i; Some (i, e)) with
                  | None => mret false
                  | Some (i, e) =>
                      if negb (bool_decide (e_type e = MINIMAFS_TYPE_DIR)) then mret false
                      else
                        ok ← minimafs_write_folder_desc E dn
                               (mk_folder (path pd) (f_block_offset pd) (delete i (entries pd)));
                        if negb ok then mret false
                        else
                          (if e_block_offset e =? 0 then mret tt else free_run E dn (e_block_offset e) 1);;
                          minimafs_refresh_storage_desc E dn;; mret true
                  end
              end
        end
  end.

Definition minimafs_list_dir (E : env) (p : list Z) (max_entries : nat) : fsM (list minimafs_dir_entry) :=
  r ← resolve_path p;
  match r with
  | None => mret []
  | Some (dn, local) =>
      d ← minimafs_read_folder_desc E dn local;
      match d with
      | None => mret []
      | Some d => mret (take max_entries (filter (λ e, e_hidden e = false) (entries d)))
      end
  end.

Definition minimafs_exists (E : env) (p : list Z) : fsM bool :=
  r ← resolve_path p;
  match r with
  | None => mret false
  | Some (dn, local) =>
      '(parent, name) ← lift (minimafs_split_local_path local);
      if bool_decide (name = []) then mret true
      else
        pd ← minimafs_read_folder_desc E dn parent;
        match pd with
        | None => mret false
        | Some pd => mret (bool_decide (is_Some (find_entry (entries pd) name)))
        end
  end.

Definition minimafs_is_dir (E : env) (p : list Z) : fsM bool :=
  r ← resolve_path p;
  match r with
  | None => mret false
  | Some (dn, local) =>
      if is_root local then mret true
      else
        '(parent, name) ← lift (minimafs_split_local_path local);
        pd ← minimafs_read_folder_desc E dn parent;
        match pd with
        | None => mret false
        | Some pd =>
            mret (bool_decide (find_entry (entries pd) name ≫= (λ i, e_type <$> entries pd !! i) = Some MINIMAFS_TYPE_DIR))
        end
  end.

(** ** Mounting and formatting *)

Definition set_mounted_drive (n : Z) (d : blockdev) : blockdev :=
  mk_dev (used d) (kind d) (name d) (model d) (sector_size d) (sectors d) (ctx d) (can_write d)
    (max_transfer d) (Block.parent d) (start_lba d) (part_number d) (mbr_type d) (type_guid d)
    (part_guid d) (label d) (Block.fs d) n.
Definition put_mounted_drive (dev : nat) (n : Z) : fsM () :=
  modify (λ s, set_store (set_devs (<[dev := set_mounted_drive n (the_dev dev (store s))]> (devs (store s))) (store s)) s).

Definition minimafs_self_test_drive (E : env) (dn dev : nat) : fsM bool :=
  ss ← gets (λ s, sector_size (the_dev dev (store s)));
  if ss =? 0 then mret false
  else
    ok ← ensure_dma_bounce E dn;
    if negb ok then mret false
    else if negb (MINIMAFS_BLOCK_SIZE mod ss =? 0) then mret false
    else
      st ← gets store;
      r ← lift (blockdev_read dev 0 (MINIMAFS_BLOCK_SIZE / ss) st);
      mret (match r with Some _ => true | None => false end).

Definition sizeof_storage_desc : Z := 5432.

Definition set_device (dev : option nat) (d : drive) : drive := mk_drive (mounted d) (d_name d) (sdesc d) dev.

(** The self test, once per drive. *)
Definition self_test_once (E : env) (dn dev : nat) : fsM bool :=
  t ← gets (λ s, nth dn (tested s) false);
  if t : bool then mret true
  else
    ok ← minimafs_self_test_drive E dn dev;
    if negb ok then mret false
    else modify (λ s, set_tested (<[dn := true]> (tested s)) s);; mret true.

(** [fuel] bounds the depth of directories scanned. The result is the C
    function's: 1 is success. *)
Definition minimafs_mount (fuel : nat) (E : env) (dev : option nat) (drive_number : Z) : fsM Z :=
  match get_drive drive_number, dev with
  | Some dn, Some dev =>
      d ← gets (the_drive dn);
      md ← gets (λ s, mounted_drive (the_dev dev (store s)));
      if mounted d then mret 2
      else if 0 <=? md then mret 2
      else
        put_drive dn (set_device (Some dev) d);;
        ok ← self_test_once E dn dev;
        if negb ok then mret 0
        else if negb (can_alloc E sizeof_storage_desc) then mret 0
        else
          r ← minimafs_read_storage_desc E dn;
          match r with
          | None => mret 3
          | Some sd =>
              size ← gets (λ s, blockdev_size_bytes (the_dev dev (store s)));
              if negb (magic sd =? MINIMAFS_MAGIC) || (root_block sd =? 0) || (total_blocks sd =? 0) then mret 5
              else if total_blocks sd <=? root_block sd then mret 4
              else if size <? u64 (total_blocks sd * MINIMAFS_BLOCK_SIZE) then mret 5
              else
                put_drive dn (mk_drive false
                  (match drive_name sd with [] => uint_text drive_number | nm => take 63 nm end) sd (Some dev));;
                a ← gets (the_alloc dn);
                put_alloc dn (extent.block_alloc_init (total_blocks sd) a);;
                mark_used E dn 0 1;;
                mark_used E dn (root_block sd) 1;;
                minimafs_scan_directory fuel E dn (root_block sd);;
                minimafs_refresh_storage_desc E dn;;
                d ← gets (the_drive dn);
                put_drive dn (mk_drive true (d_name d) (sdesc d) (device d));;
                put_mounted_drive dev drive_number;;
                mret 1
          end
  | _, _ => mret 0
  end.

Definition minimafs_unmount (E : env) (drive_number : Z) : fsM bool :=
  match get_drive drive_number with
  | None => mret false
  | Some dn =>
      d ← gets (the_drive dn);
      if negb (mounted d) then mret false
      else
        minimafs_refresh_storage_desc E dn;;
        _ ← minimafs_write_storage_desc E dn;
        modify (λ s, set_bounce (<[dn := false]> (bounce s)) s);;
        d ← gets (the_drive dn);
        (match device d with Some dev => put_mounted_drive dev (-1) | None => mret tt end);;
        put_drive dn (mk_drive false (d_name d) (sdesc d) None);;
        mret true
  end.

Definition MINIMAFS_MAX_BLOCKS : Z := 4294967294.

Definition empty_root : list Z := txt "FOLDER:/" ++ NL ++ txt "ENTRIES:0" ++ NL ++ txt "@END" ++ NL.

(** The descriptor of a new volume. *)
Definition new_sdesc (E : env) (drive_number : Z) (nm : option (list Z)) (size total root : Z) : minimafs_storage_desc :=
  mk_sdesc MINIMAFS_MAGIC (take 63 (default (uint_text drive_number) nm)) drive_number [] false
    size (u64 (2 * MINIMAFS_BLOCK_SIZE)) (u64 (size - u64 (2 * MINIMAFS_BLOCK_SIZE)))
    total 2 (u32 (total - 2)) root [] (now E) (now E).

(** The allocator of the drive is reset before the drive number is checked:
    a number past the table is an access out of it. *)
Definition minimafs_format (E : env) (dev : option nat) (size drive_number : Z) (nm : option (list Z)) : fsM bool :=
  let size := if MINIMAFS_MAX_BLOCKS <? size / MINIMAFS_BLOCK_SIZE then MINIMAFS_MAX_BLOCKS * MINIMAFS_BLOCK_SIZE else size in
  let total := u32 (size / MINIMAFS_BLOCK_SIZE) in
  if total <? 16 then mret false
  else
    match get_drive drive_number with
    | None => lift Undef
    | Some dn =>
        a ← gets (the_alloc dn);
        put_alloc dn (extent.block_alloc_init total a);;
        d ← gets (the_drive dn);
        put_drive dn (set_device dev d);;
        if negb (can_alloc E sizeof_storage_desc) then mret false
        else
          root ← alloc_run E dn 1;
          if (root =? 0) || (root =? extent.NO_BLOCK) then mret false
          else
            mark_used E dn 0 1;;
            mark_used E dn root 1;;
            put_drive dn (mk_drive (mounted d) (d_name d) (new_sdesc E drive_number nm size total root) dev);;
            ok ← minimafs_write_storage_desc E dn;
            if negb ok then mret false
            else if negb (can_alloc E MINIMAFS_BLOCK_SIZE) then mret false
            else
              b ← lift (text_block empty_root);
              minimafs_write_blocks E dn root 1 b
    end.

(** ** Metadata *)

Definition minimafs_get_metadata (E : env) (p : list Z) : fsM (option minimafs_file_metadata) :=
  h ← minimafs_open E p true;
  match h with
  | None => mret None
  | Some h =>
      m ← gets (λ s, h_meta <$> nth h (handles s) None);
      minimafs_close E h;; mret m
  end.

(** [strncpy] into a record that was copied whole: the old tail is cleared. *)
Definition merged_meta (E : env) (old new : minimafs_file_metadata) : minimafs_file_metadata :=
  mk_meta (filename old) (take 63 (filetype new)) (take 15 (fileformat new)) (file_length old) (data_length old)
    (created_date old) (now E) (parent_folder old) (runnable new) (entrypoint new) (take 1023 (run_with new))
    (hidden new) (block_offset old) (block_count old).

Definition minimafs_set_metadata (E : env) (p : list Z) (meta : minimafs_file_metadata) : fsM bool :=
  h ← minimafs_open E p false;
  match h with
  | None => mret false
  | Some h =>
      l ← gets handles;
      match nth h l None with
      | None => lift Undef
      | Some hd =>
          let updated := merged_meta E (h_meta hd) meta in
          d ← gets (the_drive (h_drive hd));
          ok ← (if negb (can_alloc E 1024) || negb (mounted d) then mret false
                else
                  names ← gets drive_names;
                  r ← lift (minimafs_parse_path names (h_path hd));
                  match r with
                  | None => mret false
                  | Some (_, local) =>
                      '(ok, m) ← minimafs_write_file_to_disk E (h_drive hd) updated (h_data hd) (h_data_size hd);
                      (if negb ok || negb (can_alloc E 256) then mret tt
                       else
                         '(parent, name) ← lift (minimafs_split_local_path local);
                         pd ← minimafs_read_folder_desc E (h_drive hd) parent;
                         match pd with
                         | None => mret tt
                         | Some pd =>
                             match find_entry (entries pd) name with
                             | None => mret tt
                             | Some i =>
                                 _ ← minimafs_write_folder_desc E (h_drive hd)
                                       (mk_folder (path pd) (f_block_offset pd)
                                          (alter (λ e, update_entry (e_block_offset e) (e_block_count e) (hidden m) e)
                                             i (entries pd)));
                                 mret tt
                             end
                         end);;
                      mret ok
                  end);
          minimafs_close E h;; mret ok
      end
  end.

Definition minimafs_get_storage_desc (drive_number : Z) : fsM (option minimafs_storage_desc) :=
  match get_drive drive_number with
  | None => mret None
  | Some dn => d ← gets (the_drive dn); mret (if mounted d then Some (sdesc d) else None)
  end.

(** ** Writing a whole file *)

Definition minimafs_write_file_segments (E : env) (p : list Z) (seg1 : option (list Z)) (len1 : Z)
    (seg2 : option (list Z)) (len2 : Z) (ftype fformat : option (list Z)) : fsM bool :=
  r ← resolve_path p;
  match r with
  | None => mret false
  | Some (dn, local) =>
      '(parent, name) ← lift (minimafs_split_local_path local);
      pd ← minimafs_read_folder_desc E dn parent;
      match pd with
      | None => mret false
      | Some pd =>
          let existing := find_entry (entries pd) name ≫= (λ i, e ← entries pd !! i; Some (i, e)) in
          if match existing with Some (_, e) => bool_decide (e_type e = MINIMAFS_TYPE_DIR) | None => false end
          then mret false
          else
            let m := new_meta E name (default (txt "binary") ftype) (default (txt "bin") fformat) parent in
            let m := match existing with
                     | Some (_, e) =>
                         mk_meta (filename m) (filetype m) (fileformat m) 0 0 (created_date m) (last_changed m)
                           (parent_folder m) false 0 [] (e_hidden e) (e_block_offset e) (e_block_count e)
                     | None => m
                     end in
            '(ok, m) ← minimafs_write_file_to_disk_segments E dn m seg1 len1 seg2 len2;
            if negb ok then mret false
            else
              match existing with
              | Some (i, _) =>
                  minimafs_write_folder_desc E dn
                    (mk_folder (path pd) (f_block_offset pd)
                       (alter (update_entry (block_offset m) (block_count m) (hidden m)) i (entries pd)))
              | None =>
                  if (MINIMAFS_MAX_ROOT_ENTRIES <=? length (entries pd))%nat then mret false
                  else
                    minimafs_write_folder_desc E dn
                      (mk_folder (path pd) (f_block_offset pd)
                         (entries pd ++ [mk_entry (take (MINIMAFS_MAX_ENTRY_NAME - 1) name) MINIMAFS_TYPE_FILE
                                           (block_offset m) (block_count m) (hidden m)]))
              end
      end
  end.

(** ** Lines and searches *)

(** One character per round; carriage returns are dropped. The bytes left in
    the file bound the rounds. *)
Fixpoint line_loop (fuel : nat) (E : env) (h : nat) (room : nat) (acc : list Z) : fsM (list Z) :=
  match fuel with
  | O => lift Hang
  | S fuel' =>
      eof ← minimafs_eof h;
      if (room <=? length acc)%nat || eof then mret acc
      else
        r ← minimafs_read E h 1;
        match r with
        | [c] => if c =? 10 then mret acc
                 else line_loop fuel' E h room (if c =? 13 then acc else acc ++ [c])
        | _ => mret acc
        end
  end.

(** The line; the C function returns whether it is not empty. *)
Definition minimafs_read_line (E : env) (h : nat) (buffer_size : nat) : fsM (list Z) :=
  if (buffer_size =? 0)%nat then mret []
  else
    size ← minimafs_size h;
    pos ← minimafs_tell h;
    line_loop (S (S (Z.to_nat (size - pos)))) E h (buffer_size - 1) [].

Definition CHUNK : Z := 4096.

(** The search loop of [findinfile]; [fuel] bounds its rounds. *)
Fixpoint find_loop (fuel : nat) (E : env) (h : nat) (needle : list Z) (file_size offset : Z) : fsM Z :=
  match fuel with
  | O => lift Hang
  | S fuel' =>
      if offset <? file_size then
        let to_read := if CHUNK <? file_size - offset then CHUNK else file_size - offset in
        _ ← minimafs_seek h offset;
        buf ← minimafs_read E h to_read;
        match buf with
        | [] => mret (-1)
        | _ =>
            match sub needle buf with
            | Some q => mret (i32 (offset + Z.of_nat (ptr_diff q buf)))
            | None =>
                let got := Z.of_nat (length buf) in
                let nl := Z.of_nat (length needle) in
                find_loop fuel' E h needle file_size
                  (u32 (if (1 <? nl) && (nl - 1 <=? got) then offset + (got - (nl - 1)) else offset + got))
            end
        end
      else mret (-1)
  end.

Definition findinfile (fuel : nat) (E : env) (needle p : list Z) : fsM Z :=
  h ← minimafs_open E p true;
  match h with
  | None => mret (-1)
  | Some h =>
      file_size ← minimafs_size h;
      let nl := Z.of_nat (length needle) in
      r ← (if (nl =? 0) || (file_size <? nl) || negb (can_alloc E (CHUNK + nl)) then mret (-1)
           else find_loop fuel E h needle file_size 0);
      minimafs_close E h;; mret r
  end.

Definition minimafs_get_config_value (fuel : nat) (E : env) (key p : list Z) (output_size : nat) :
    fsM (option (list Z)) :=
  offset ← findinfile fuel E key p;
  if offset <? 0 then mret None
  else
    h ← minimafs_open E p true;
    match h with
    | None => mret None
    | Some h =>
        _ ← minimafs_seek h offset;
        line ← minimafs_read_line E h 256;
        minimafs_close E h;;
        if bool_decide (line = []) then mret None
        else lift (getvalfromsplit (can_alloc E) line (txt "=") 2 output_size)
    end.

(** ** Appending *)

Record old_data_reader := mk_odr {
  file_block_no : Z; file_off : Z; data_len : Z; data_pos : Z; cached_block : Z; block_buf : list Z
}.

Definition odr_set (pos cb : Z) (buf : list Z) (r : old_data_reader) : old_data_reader :=
  mk_odr (file_block_no r) (file_off r) (data_len r) pos cb buf.

(** The bytes copied and the reader; each round copies at least one byte. *)
Fixpoint odr_read (fuel : nat) (E : env) (dn : nat) (r : old_data_reader) (len : Z) : fsM (list Z * old_data_reader) :=
  match fuel with
  | O => lift Hang
  | S fuel' =>
      if (0 <? len) && (data_pos r <? data_len r) then
        let fp := u32 (file_off r + data_pos r) in
        let bi := fp / MINIMAFS_BLOCK_SIZE in
        let off_blk := fp mod MINIMAFS_BLOCK_SIZE in
        l ← (if bi =? cached_block r then mret (Some (block_buf r))
             else minimafs_read_blocks E dn (u32 (file_block_no r + bi)) 1);
        match l with
        | None => mret ([], r)
        | Some buf =>
            let avail := MINIMAFS_BLOCK_SIZE - off_blk in
            let left := data_len r - data_pos r in
            let cp := if avail <? len then avail else len in
            let cp := if left <? cp then left else cp in
            '(rest, r) ← odr_read fuel' E dn (odr_set (data_pos r + cp) bi buf r) (len - cp);
            mret (take (Z.to_nat cp) (drop (Z.to_nat off_blk) buf) ++ rest, r)
        end
      else mret ([], r)
  end.

(** The state of the copy: the segment (0 header, 1 old data, 2 new data, 3
    footer, 4 done), the positions in it and the reader. *)
Record append_state := mk_app { seg : nat; seg_pos : Z; new_pos : Z; reader : old_data_reader }.

(** The loop that fills one block. A read that fails leaves the state as it
    was, and the code tries again. *)
Fixpoint append_block (fuel : nat) (E : env) (dn : nat) (header data : list Z) (out : list Z) (a : append_state) :
    fsM (list Z * append_state) :=
  match fuel with
  | O => lift Hang
  | S fuel' =>
      let rem := MINIMAFS_BLOCK_SIZE - Z.of_nat (length out) in
      if (0 <? rem) && (seg a <? 4)%nat then
        match seg a with
        | 0%nat =>
            let avail := Z.of_nat (length header) - seg_pos a in
            let cp := if rem <? avail then rem else avail in
            let a' := if Z.of_nat (length header) <=? seg_pos a + cp then mk_app 1 0 (new_pos a) (reader a)
                      else mk_app 0 (seg_pos a + cp) (new_pos a) (reader a) in
            append_block fuel' E dn header data
              (out ++ take (Z.to_nat cp) (drop (Z.to_nat (seg_pos a)) header)) a'
        | 1%nat =>
            if data_len (reader a) <=? data_pos (reader a) then
              append_block fuel' E dn header data out (mk_app 2 0 (new_pos a) (reader a))
            else
              let avail := data_len (reader a) - data_pos (reader a) in
              let cp := if rem <? avail then rem else avail in
              '(got, r) ← odr_read (S (Z.to_nat cp)) E dn (reader a) cp;
              append_block fuel' E dn header data (out ++ got)
                (if data_len r <=? data_pos r then mk_app 2 0 (new_pos a) r else mk_app 1 (seg_pos a) (new_pos a) r)
        | 2%nat =>
            if Z.of_nat (length data) <=? new_pos a then
              append_block fuel' E dn header data out (mk_app 3 0 (new_pos a) (reader a))
            else
              let avail := Z.of_nat (length data) - new_pos a in
              let cp := if rem <? avail then rem else avail in
              let a' := if Z.of_nat (length data) <=? new_pos a + cp then mk_app 3 0 (new_pos a + cp) (reader a)
                        else mk_app 2 (seg_pos a) (new_pos a + cp) (reader a) in
              append_block fuel' E dn header data
                (out ++ take (Z.to_nat cp) (drop (Z.to_nat (new_pos a)) data)) a'
        | _ =>
            let avail := 5 - seg_pos a in
            let cp := if rem <? avail then rem else avail in
            append_block fuel' E dn header data
              (out ++ take (Z.to_nat cp) (drop (Z.to_nat (seg_pos a)) FOOTER))
              (mk_app (if 5 <=? seg_pos a + cp then 4 else 3) (seg_pos a + cp) (new_pos a) (reader a))
        end
      else mret (out ++ replicate (Z.to_nat rem) 0, a)
  end.

(** The blocks of the new file: every round of a block fills it, moves to the
    next segment or waits for the device, so that 4096 and a few rounds are
    enough unless the device fails for ever. *)
Fixpoint append_blocks (n : nat) (E : env) (dn : nat) (start : Z) (header data : list Z) (a : append_state) : fsM bool :=
  match n with
  | O => mret true
  | S n' =>
      '(b, a) ← append_block (Z.to_nat MINIMAFS_BLOCK_SIZE + 8) E dn header data [] a;
      ok ← minimafs_write_blocks E dn start 1 b;
      if (ok : bool) then append_blocks n' E dn (u32 (start + 1)) header data a else mret false
  end.

Definition sizeof_folder_desc : Z := 6152.

Definition minimafs_append_file (E : env) (p data : list Z) : fsM bool :=
  if bool_decide (data = []) || negb (can_alloc E 1024 && can_alloc E 256) then mret false
  else
    r ← resolve_path p;
    match r with
    | None => mret false
    | Some (dn, local) =>
        '(parent, name) ← lift (minimafs_split_local_path local);
        if negb (can_alloc E sizeof_folder_desc) then mret false
        else
          pd ← minimafs_read_folder_desc E dn parent;
          match pd with
          | None => mret false
          | Some pd =>
              match find_entry (entries pd) name ≫= (λ i, e ← entries pd !! i; Some (i, e)) with
              | None => mret false
              | Some (i, e) =>
                  if bool_decide (e_type e = MINIMAFS_TYPE_DIR) || negb (can_alloc E (MINIMAFS_BLOCK_SIZE + 1)) then mret false
                  else
                    first ← minimafs_read_blocks E dn (e_block_offset e) 1;
                    match first with
                    | None => mret false
                    | Some first =>
                        let text := c_string first in
                        m ← lift (minimafs_parse_file_header text);
                        match m, sub (txt "@DATA@" ++ NL) text with
                        | Some m, Some q =>
                            let old_header := Z.of_nat (ptr_diff q text) + 7 in
                            let old_len := if file_length m =? 0 then u32 (e_block_count e * MINIMAFS_BLOCK_SIZE)
                                           else file_length m in
                            let old_data := if u32 (old_header + 5) <? old_len then u32 (old_len - old_header - 5) else 0 in
                            let new_len := u32 (old_data + Z.of_nat (length data)) in
                            r ← lift (settle_header E (touch E new_len m) new_len);
                            match r with
                            | None => mret false
                            | Some (m, header) =>
                                let total := u32 (Z.of_nat (length header) + new_len + 5) in
                                let bc := u32 (total + MINIMAFS_BLOCK_SIZE - 1) / MINIMAFS_BLOCK_SIZE in
                                start ← alloc_run E dn bc;
                                if start =? extent.NO_BLOCK then mret false
                                else if negb (can_alloc E MINIMAFS_BLOCK_SIZE) then free_run E dn start bc;; mret false
                                else
                                  ok ← append_blocks (Z.to_nat bc) E dn start header data
                                         (mk_app 0 0 0 (mk_odr (e_block_offset e) old_header old_data 0 NO_CACHE []));
                                  if negb ok then free_run E dn start bc;; mret false
                                  else
                                    (if 0 <? e_block_count e then free_run E dn (e_block_offset e) (e_block_count e)
                                     else mret tt);;
                                    ok ← minimafs_write_folder_desc E dn
                                           (mk_folder (path pd) (f_block_offset pd)
                                              (alter (update_entry start bc (e_hidden e)) i (entries pd)));
                                    if negb ok then mret false
                                    else minimafs_refresh_storage_desc E dn;; mret true
                            end
                        | _, _ => mret false
                        end
                    end
              end
          end
    end.

(** ** The date *)

(** [minimafs_get_datetime] into a buffer of at least ten bytes. *)
Definition minimafs_get_datetime (dt : datetime) : list Z :=
  let mon := time_get_month_name_short (month dt) in
  let mon := match mon with [] => txt "???" | _ => mon end in
  [u8 (48 + day dt / 10); u8 (48 + day dt mod 10); byte mon 0; byte mon 1; byte mon 2;
   48 + (year dt / 1000) mod 10; 48 + (year dt / 100) mod 10; 48 + (year dt / 10) mod 10; 48 + year dt mod 10].
End minimafs.
End minimafs.
