(* ===== verification/FsDisk.v ===== *)
(** * MinimaFS on its device

    The block I/O of [Fs.v] on a device that works: the volume as an array of
    4 KiB blocks ([blk]), what reading and writing blocks does to it, whatever
    the sector size and the chunking. The other MinimaFS proofs use these
    lemmas only. *)

From S2P Require Import Prelude CString Time Net Block Extent FsText Fs.
Import fstext minimafs.

Open Scope c_scope.

Module fsdisk.
Section fsdisk.
  Context {D : Type} `{BlockDriver D}.

Abbreviation fsys := (fsys (D := D)).

(** ** The monad *)

Lemma bind_eq {A B} (m : fsM (D := D) A) (k : A → fsM B) s a s' :
  m s = Ret (a, s') → (m ≫= k) s = k a s'.
Proof. intros E. unfold mbind, fsM_bind. by rewrite E. Qed.

Lemma bind_gets {A B} (f : fsys → A) (k : A → fsM B) s : (gets f ≫= k) s = k (f s) s.
Proof. done. Qed.
Lemma bind_lift {A B} (o : outcome A) (k : A → fsM B) (s : fsys) a : o = Ret a → (lift o ≫= k) s = k a s.
Proof. by intros ->. Qed.
Lemma bind_modify {B} (f : fsys → fsys) (k : () → fsM B) s : (modify f ≫= k) s = k tt (f s).
Proof. done. Qed.
Lemma bind_mret {A B} (a : A) (k : A → fsM B) (s : fsys) : (mret a ≫= k) s = k a s.
Proof. done. Qed.

(** ** A volume that works *)

(** Drive [dn] lives on device [dev], which is in the table, can be written,
    has sectors that divide a block and room for [total] blocks; its bounce
    buffer is there. *)
Record on_device (dn dev : nat) (total : Z) (s : fsys) : Prop := {
  od_device : device (the_drive dn s) = Some dev;
  od_table : table_ok (store s);
  od_used : used (the_dev dev (store s)) = true;
  od_write : can_write (the_dev (dev_disk dev (store s)) (store s)) = true;
  od_sector : 0 < sector_size (the_dev dev (store s)) ∧ MINIMAFS_BLOCK_SIZE mod sector_size (the_dev dev (store s)) = 0;
  od_total : 0 < total ≤ 4294967295;
  od_size : total * (MINIMAFS_BLOCK_SIZE / sector_size (the_dev dev (store s))) ≤ sectors (the_dev dev (store s));
  od_bounce : nth dn (bounce s) false = true
}.

(** The bytes of [n] blocks from block [b] on. *)
Definition blks (dev : nat) (st : storage D) (b n : Z) : list Z :=
  dev_byte dev st <$> seqZ (b * MINIMAFS_BLOCK_SIZE) (n * MINIMAFS_BLOCK_SIZE).
Abbreviation blk dev st b := (blks dev st b 1).

Lemma blks_length dev st b n : 0 ≤ n → Z.of_nat (length (blks dev st b n)) = n * MINIMAFS_BLOCK_SIZE.
Proof. intros. unfold blks. rewrite length_fmap, length_seqZ. unfold MINIMAFS_BLOCK_SIZE. lia. Qed.

Lemma blks_app dev st b n k : 0 ≤ n → 0 ≤ k → blks dev st b (n + k) = blks dev st b n ++ blks dev st (b + n) k.
Proof.
  intros. unfold blks, MINIMAFS_BLOCK_SIZE. rewrite Z.mul_add_distr_r, seqZ_app by lia. rewrite fmap_app.
  do 3 f_equal. lia.
Qed.

Lemma blks_nil dev st b : blks dev st b 0 = [].
Proof. done. Qed.

(** Bytes [off, off + len) of the blocks from [b] on. *)
Lemma blks_slice dev st b n off len : 0 ≤ off → 0 ≤ len → off + len ≤ n * MINIMAFS_BLOCK_SIZE →
  take (Z.to_nat len) (drop (Z.to_nat off) (blks dev st b n)) =
  dev_byte dev st <$> seqZ (b * MINIMAFS_BLOCK_SIZE + off) len.
Proof.
  intros. unfold blks. rewrite <- fmap_drop, <- fmap_take. f_equal. apply list_eq. intros i.
  destruct (decide (Z.of_nat i < len)).
  - rewrite lookup_take_lt, lookup_drop by lia. rewrite !lookup_seqZ_lt by lia. f_equal. lia.
  - rewrite lookup_take_ge by lia. by rewrite lookup_seqZ_ge by lia.
Qed.

(** Blocks are the same when each of them is. *)
Lemma blks_ext_blocks dev (st st' : storage D) b n (P : Z → Prop) :
  (∀ x, P x → blks dev st' x 1 = blks dev st x 1) → (∀ x, b ≤ x < b + n → P x) →
  blks dev st' b n = blks dev st b n.
Proof.
  intros Heq HP. destruct (decide (0 ≤ n)) as [Hn|]; [|unfold blks, MINIMAFS_BLOCK_SIZE; by rewrite seqZ_nil by lia].
  revert b HP. pattern n. apply natlike_ind; [done| |done]. intros k Hk IH b HP.
  replace (Z.succ k) with (1 + k) by lia. rewrite !blks_app by lia. rewrite Heq by (apply HP; lia).
  f_equal. apply IH. intros. apply HP. lia.
Qed.

Section io.
  Context (dn dev : nat) (total : Z).

(** The sectors of a block. *)
Lemma od_spb s : on_device dn dev total s →
  0 < MINIMAFS_BLOCK_SIZE / sector_size (the_dev dev (store s)) ≤ 4096 ∧
  MINIMAFS_BLOCK_SIZE / sector_size (the_dev dev (store s)) * sector_size (the_dev dev (store s)) = MINIMAFS_BLOCK_SIZE.
Proof.
  intros [_ _ _ _ [Hp Hm] _ _ _]. set (ss := sector_size _) in *. unfold MINIMAFS_BLOCK_SIZE in *.
  apply Z.div_exact in Hm; [|lia]. assert (4096 / ss ≤ 4096) by (apply Z.div_le_upper_bound; nia). nia.
Qed.

Lemma od_sectors_bound s b n : on_device dn dev total s → 0 ≤ b → 0 ≤ n → b + n ≤ total →
  let spb := MINIMAFS_BLOCK_SIZE / sector_size (the_dev dev (store s)) in
  is_u64 (b * spb) ∧ b * spb + n * spb ≤ sectors (the_dev dev (store s)) ∧ is_u32 (n * spb) ∨ 16 < n.
Proof.
  intros Hod Hb Hn Hle spb. destruct (od_spb s Hod) as [Hspb _]. fold spb in Hspb.
  destruct (decide (16 < n)); [by right|left].
  pose proof (od_size _ _ _ _ Hod) as Hsz. fold spb in Hsz. pose proof (od_total _ _ _ _ Hod).
  unfold is_u64, is_u32. split; [nia|]. split; nia.
Qed.

Lemma read_loop_ok s : on_device dn dev total s → ∀ fuel b n,
  0 ≤ b → 0 ≤ n < Z.of_nat fuel → b + n ≤ total →
  read_loop fuel dev (MINIMAFS_BLOCK_SIZE / sector_size (the_dev dev (store s))) b n s =
    Ret (Some (blks dev (store s) b n), s).
Proof.
  intros Hod. destruct (od_spb s Hod) as [Hspb Hmul]. set (spb := _ / _) in *.
  pose proof (od_total _ _ _ _ Hod) as Htot.
  induction fuel as [|fuel IH]; intros b n Hb Hn Hle; [lia|]. cbn [read_loop].
  destruct (Z.ltb_spec 0 n); [|by replace n with 0 by lia].
  set (chunk := if _ <? n then _ else _).
  assert (1 ≤ chunk ≤ 16 ∧ chunk ≤ n) as Hc by (unfold chunk, DMA_BOUNCE_BLOCKS; destruct (Z.ltb_spec 16 n); lia).
  clearbody chunk. destruct (od_sectors_bound s b chunk Hod) as [(Hu & Hin & Hu32)|?]; [lia..| |lia].
  fold spb in Hu, Hin, Hu32. rewrite bind_gets.
  rewrite (bind_lift _ _ s (Some (blks dev (store s) b chunk))).
  - rewrite (bind_eq _ _ s (Some (blks dev (store s) (b + chunk) (n - chunk))) s).
    + unfold mret, fsM_ret. rewrite <- blks_app by lia. do 4 f_equal. lia.
    + rewrite u32_small by (unfold is_u32; lia). apply IH; lia.
  - rewrite u64_small, u32_small by done. rewrite blockdev_read_spec by (done || apply Hod).
    rewrite (proj2 (Z.eqb_neq _ _)) by nia. rewrite bool_decide_eq_true_2 by done. do 2 f_equal. unfold blks.
    rewrite <- !Z.mul_assoc, Hmul. done.
Qed.

(** Reading blocks of the volume gives their bytes and changes nothing. *)
Lemma read_blocks_ok E s b n : on_device dn dev total s → 0 ≤ b → 0 ≤ n → b + n ≤ total →
  minimafs_read_blocks E dn b n s = Ret (Some (blks dev (store s) b n), s).
Proof.
  intros Hod Hb Hn Hle. unfold minimafs_read_blocks. rewrite bind_gets, (od_device _ _ _ _ Hod), bind_gets.
  destruct (od_sector _ _ _ _ Hod) as [Hp Hm]. rewrite (proj2 (Z.eqb_neq _ 0)), Hm, Z.eqb_refl by lia. cbn [orb negb].
  rewrite (bind_eq _ _ s true s).
  - cbn [negb]. destruct (Z.eqb_spec n 0) as [->|]; [done|]. apply read_loop_ok; try done. lia.
  - unfold ensure_dma_bounce. rewrite bind_gets, (od_bounce _ _ _ _ Hod). done.
Qed.

(** What the device holds after [buf] was written from block [b] on. *)
Record written (b n : Z) (buf : list Z) (s s' : fsys) : Prop := {
  wr_frame : s' = set_store (store s') s;
  wr_devs : devs (store s') = devs (store s);
  wr_table : table_ok (store s');
  wr_bytes : ∀ x, dev_byte dev (store s') x =
    if (b * MINIMAFS_BLOCK_SIZE <=? x) && (x <? (b + n) * MINIMAFS_BLOCK_SIZE)
    then default 0 (buf !! Z.to_nat (x - b * MINIMAFS_BLOCK_SIZE)) else dev_byte dev (store s) x
}.

Lemma the_dev_devs i (st st' : storage D) : devs st' = devs st → the_dev i st' = the_dev i st.
Proof. intros E. unfold the_dev. by rewrite E. Qed.

Lemma dev_disk_devs i (st st' : storage D) : devs st' = devs st → dev_disk i st' = dev_disk i st.
Proof. intros E. unfold dev_disk. by rewrite (the_dev_devs _ _ _ E). Qed.

(** A state that differs from a working one in the contents of its device. *)
Lemma od_frame s st' : on_device dn dev total s → devs st' = devs (store s) → table_ok st' →
  on_device dn dev total (set_store st' s).
Proof.
  intros [] Hd Ht. split; simpl; rewrite ?(dev_disk_devs _ _ _ Hd), ?(the_dev_devs _ _ _ Hd); done.
Qed.

Lemma od_written b n buf s s' : on_device dn dev total s → written b n buf s s' → on_device dn dev total s'.
Proof. intros Hod [-> Hd Ht _]. simpl in *. by apply od_frame. Qed.

Lemma blockdev_write_bytes s lba cnt buf : on_device dn dev total s → is_u64 lba → is_u32 cnt → 0 < cnt →
  Z.of_nat (length buf) = cnt * sector_size (the_dev dev (store s)) → lba + cnt ≤ sectors (the_dev dev (store s)) →
  ∃ st', blockdev_write dev lba cnt buf (store s) = Ret (true, st') ∧ devs st' = devs (store s) ∧ table_ok st' ∧
    ∀ x, dev_byte dev st' x =
      if (lba * sector_size (the_dev dev (store s)) <=? x) && (x <? (lba + cnt) * sector_size (the_dev dev (store s)))
      then default 0 (buf !! Z.to_nat (x - lba * sector_size (the_dev dev (store s)))) else dev_byte dev (store s) x.
Proof.
  intros Hod Hl Hc Hc0 Hlen Hin. destruct Hod as [_ Ht Hu Hw _ _ _ _].
  destruct (blockdev_write_spec dev lba cnt buf (store s)) as (drv & drv' & Hd & Hds & Ho & E); [done..|].
  eexists. split; [exact E|]. split; [done|].
  split; [by eapply (overwrite_keeps_table (store s) _ drv drv')|].
  by apply (dev_byte_written (store s) dev lba cnt buf drv drv').
Qed.

Lemma written_nil b s : on_device dn dev total s → written b 0 [] s s.
Proof.
  intros Hod. split; [by destruct s|done|apply Hod|]. intros x.
  destruct (Z.leb_spec (b * MINIMAFS_BLOCK_SIZE) x), (Z.ltb_spec x ((b + 0) * MINIMAFS_BLOCK_SIZE)); simpl; try done.
  unfold MINIMAFS_BLOCK_SIZE in *. lia.
Qed.

Lemma written_app b n k buf1 buf2 s s1 s2 :
  0 ≤ n → 0 ≤ k → Z.of_nat (length buf1) = n * MINIMAFS_BLOCK_SIZE →
  written b n buf1 s s1 → written (b + n) k buf2 s1 s2 → written b (n + k) (buf1 ++ buf2) s s2.
Proof.
  intros Hn Hk Hlen [Hf1 Hd1 Ht1 Hb1] [Hf2 Hd2 Ht2 Hb2]. unfold MINIMAFS_BLOCK_SIZE in *. split; try congruence.
  - rewrite Hf2 at 1. rewrite Hf1 at 1. done.
  - intros x. rewrite Hb2, Hb1. unfold MINIMAFS_BLOCK_SIZE.
    destruct (Z.leb_spec ((b + n) * 4096) x), (Z.ltb_spec x ((b + n + k) * 4096)), (Z.leb_spec (b * 4096) x),
      (Z.ltb_spec x ((b + n) * 4096)), (Z.ltb_spec x ((b + (n + k)) * 4096)); simpl; try lia; try done.
    + rewrite lookup_app_r by lia. do 2 f_equal. lia.
    + by rewrite lookup_app_l by lia.
Qed.

Lemma write_loop_ok : ∀ fuel b n buf s spb, on_device dn dev total s →
  spb = MINIMAFS_BLOCK_SIZE / sector_size (the_dev dev (store s)) →
  0 ≤ b → 0 ≤ n < Z.of_nat fuel → b + n ≤ total → Z.of_nat (length buf) = n * MINIMAFS_BLOCK_SIZE →
  ∃ s', write_loop fuel dev spb b n buf s = Ret (true, s') ∧ written b n buf s s'.
Proof.
  induction fuel as [|fuel IH]; intros b n buf s spb Hod Hspb Hb Hn Hle Hlen; [lia|]. cbn [write_loop].
  destruct (od_spb s Hod) as [Hr Hmul]. rewrite <- Hspb in Hr, Hmul. pose proof (od_total _ _ _ _ Hod) as Htot.
  destruct (Z.ltb_spec 0 n).
  2:{ exists s. split; [done|]. replace n with 0 in * by lia. simpl in Hlen.
      destruct buf; [by apply written_nil|simpl in Hlen; lia]. }
  set (chunk := if _ <? n then _ else _).
  assert (1 ≤ chunk ≤ 16 ∧ chunk ≤ n) as Hc by (unfold chunk, DMA_BOUNCE_BLOCKS; destruct (Z.ltb_spec 16 n); lia).
  clearbody chunk. destruct (od_sectors_bound s b chunk Hod) as [(Hu & Hin & Hu32)|?]; [lia..| |lia].
  rewrite <- Hspb in Hu, Hin, Hu32. cbv zeta. set (bytes := Z.to_nat (chunk * MINIMAFS_BLOCK_SIZE)).
  assert (Z.of_nat (length (take bytes buf)) = chunk * MINIMAFS_BLOCK_SIZE) as Hlt.
  { unfold bytes, MINIMAFS_BLOCK_SIZE in *. rewrite length_take. lia. }
  destruct (blockdev_write_bytes s (b * spb) (chunk * spb) (take bytes buf) Hod) as (st' & Hw & Hd & Ht & Hx); [done|done|nia| |done|].
  { rewrite Hlt, <- Z.mul_assoc, Hmul. done. }
  rewrite bind_gets. rewrite (bind_lift _ _ s (true, st')) by (by rewrite u64_small, u32_small).
  rewrite bind_modify. cbv iota.
  assert (written b chunk (take bytes buf) s (set_store st' s)) as Hw1.
  { split; simpl; try done. intros x. rewrite Hx. rewrite <- !Z.mul_add_distr_r, <- !Z.mul_assoc, Hmul. done. }
  pose proof (od_written _ _ _ _ _ Hod Hw1) as Hod1.
  destruct (IH (b + chunk) (n - chunk) (drop bytes buf) (set_store st' s) spb) as (s' & E & Hw2); try done; try lia.
  { by rewrite (the_dev_devs _ _ _ Hd). }
  { unfold bytes, MINIMAFS_BLOCK_SIZE in *. rewrite length_drop. lia. }
  rewrite u32_small by (unfold is_u32; lia). exists s'. split; [exact E|].
  rewrite <- (take_drop bytes buf). replace n with (chunk + (n - chunk)) by lia.
  eapply written_app; try done; lia.
Qed.

(** Writing blocks of the volume puts the buffer there and changes no other
    byte of the device. *)
Lemma write_blocks_ok E s b n buf : on_device dn dev total s → 0 ≤ b → 0 < n → b + n ≤ total →
  Z.of_nat (length buf) = n * MINIMAFS_BLOCK_SIZE →
  ∃ s', minimafs_write_blocks E dn b n buf s = Ret (true, s') ∧ written b n buf s s'.
Proof.
  intros Hod Hb Hn Hle Hlen. unfold minimafs_write_blocks. rewrite bind_gets, (od_device _ _ _ _ Hod), bind_gets.
  destruct (od_sector _ _ _ _ Hod) as [Hp Hm]. rewrite (proj2 (Z.eqb_neq _ 0)) by lia.
  rewrite (bind_eq _ _ s true s) by (unfold ensure_dma_bounce; rewrite bind_gets, (od_bounce _ _ _ _ Hod); done).
  cbn [negb]. rewrite (proj2 (Z.eqb_neq n 0)) by lia. rewrite Hm, Z.eqb_refl. cbn [negb].
  apply write_loop_ok; try done. lia.
Qed.

Lemma written_same b n buf s s' : written b n buf s s' → 0 ≤ n → Z.of_nat (length buf) = n * MINIMAFS_BLOCK_SIZE →
  blks dev (store s') b n = buf.
Proof.
  intros [_ _ _ Hx] Hn Hlen. unfold blks, MINIMAFS_BLOCK_SIZE in *. apply list_eq. intros i. rewrite list_lookup_fmap.
  destruct (decide (Z.of_nat i < n * 4096)).
  - rewrite lookup_seqZ_lt by lia. simpl. rewrite Hx. rewrite (proj2 (Z.leb_le _ _)), (proj2 (Z.ltb_lt _ _)) by lia. simpl.
    replace (Z.to_nat _) with i by lia. destruct (lookup_lt_is_Some_2 buf i) as [y ->]; [lia|done].
  - rewrite lookup_seqZ_ge by lia. symmetry. apply lookup_ge_None. lia.
Qed.

Lemma written_other b n buf s s' b' n' : written b n buf s s' → 0 ≤ n' → b' + n' ≤ b ∨ b + n ≤ b' →
  blks dev (store s') b' n' = blks dev (store s) b' n'.
Proof.
  intros [_ _ _ Hx] Hn Hap. unfold blks, MINIMAFS_BLOCK_SIZE in *. apply list_fmap_ext. intros i x Hi.
  apply lookup_seqZ in Hi as [-> Hi]. rewrite Hx.
  destruct (Z.leb_spec (b * 4096) (b' * 4096 + Z.of_nat i)), (Z.ltb_spec (b' * 4096 + Z.of_nat i) ((b + n) * 4096));
    simpl; try done. lia.
Qed.
End io.
End fsdisk.
End fsdisk.
