(* ===== verification/FsFile.v ===== *)
(** * The blocks of a file

    [minimafs_write_file_to_disk_segments] cuts header, data and footer into
    blocks with 32-bit offset arithmetic. The lemmas here show that the blocks
    written are the file's image ([image]): header, the two segments, the
    footer, then zeros. *)

From S2P Require Import Prelude CString Time Net Block Extent FsText Fs FsDisk.
Import fstext minimafs fsdisk.

Open Scope c_scope.

Module fsfile.

(** ** One segment, one block *)

(** A segment as the C code passes it: a pointer, possibly null, and a
    length. *)
Definition seg_is (seg : option (list Z)) (len : Z) (l : list Z) : Prop :=
  len = Z.of_nat (length l) ∧ (seg = Some l ∨ seg = None ∧ l = []).

Definition over (f : Z → Z) (st : Z) (l : list Z) : Z → Z :=
  λ x, if (st <=? x) && (x <? st + Z.of_nat (length l)) then default 0 (l !! Z.to_nat (x - st)) else f x.

Lemma over_nil f st x : over f st [] x = f x.
Proof.
  unfold over. destruct (Z.leb_spec st x), (Z.ltb_spec x (st + Z.of_nat (length (A := Z) []))); cbn [andb]; try done.
  simpl in *. lia.
Qed.

(** Decide the comparisons of the goal, each one way only. *)
Ltac decide_range :=
  repeat match goal with
  | |- context [?u <=? ?v] => destruct (Z.leb_spec u v); try lia
  | |- context [?u <? ?v] => destruct (Z.ltb_spec u v); try lia
  end; cbn [andb].

Lemma take_seqZ k b n : 0 ≤ k ≤ n → take (Z.to_nat k) (seqZ b n) = seqZ b k.
Proof.
  intros. apply list_eq. intros i. destruct (decide (Z.of_nat i < k)).
  - rewrite lookup_take_lt by lia. by rewrite !lookup_seqZ_lt by lia.
  - rewrite lookup_take_ge by lia. by rewrite lookup_seqZ_ge by lia.
Qed.
Lemma drop_seqZ k b n : 0 ≤ k → drop (Z.to_nat k) (seqZ b n) = seqZ (b + k) (n - k).
Proof.
  intros. apply list_eq. intros i. rewrite lookup_drop. destruct (decide (Z.of_nat i < n - k)).
  - rewrite !lookup_seqZ_lt by lia. f_equal. lia.
  - by rewrite !lookup_seqZ_ge by lia.
Qed.

Lemma slice_over f st l a k : 0 ≤ k → st ≤ a → a + k ≤ st + Z.of_nat (length l) →
  take (Z.to_nat k) (drop (Z.to_nat (a - st)) l) = over f st l <$> seqZ a k.
Proof.
  intros. apply list_eq. intros i. rewrite list_lookup_fmap. destruct (decide (Z.of_nat i < k)).
  - rewrite lookup_take_lt, lookup_drop, lookup_seqZ_lt by lia. simpl. unfold over.
    rewrite (proj2 (Z.leb_le _ _)), (proj2 (Z.ltb_lt _ _)) by lia. simpl.
    replace (Z.to_nat (a + Z.of_nat i - st)) with (Z.to_nat (a - st) + i)%nat by lia.
    destruct (lookup_lt_is_Some_2 l (Z.to_nat (a - st) + i)) as [y ->]; [lia|done].
  - rewrite lookup_take_ge by lia. by rewrite lookup_seqZ_ge by lia.
Qed.

Lemma over_outside f st l a k : (∀ x, a ≤ x < a + k → x < st ∨ st + Z.of_nat (length l) ≤ x) →
  over f st l <$> seqZ a k = f <$> seqZ a k.
Proof.
  intros Ho. apply list_fmap_ext. intros i x Hx. apply lookup_seqZ in Hx as [-> Hi]. unfold over.
  specialize (Ho (a + Z.of_nat i) ltac:(lia)).
  destruct (Z.leb_spec st (a + Z.of_nat i)), (Z.ltb_spec (a + Z.of_nat i) (st + Z.of_nat (length l))); simpl; try done. lia.
Qed.

(** Copying a segment into a block overlays it where it meets the block. *)
Lemma copy_segment_ok f bo seg len l st :
  seg_is seg len l → 0 ≤ bo → bo + 4096 < 4294967296 → 0 ≤ st → st + len < 4294967296 →
  minimafs_copy_segment_to_block (f <$> seqZ bo 4096) bo seg len st = Ret (over f st l <$> seqZ bo 4096).
Proof.
  intros [-> Hseg] Hbo Hbe Hst Hse. unfold minimafs_copy_segment_to_block.
  assert (l = [] → over f st l <$> seqZ bo 4096 = f <$> seqZ bo 4096) as Hnil.
  { intros ->. apply list_fmap_ext. intros i x _. apply over_nil. }
  destruct Hseg as [->|[-> ->]]; [|by rewrite Hnil].
  destruct (Z.eqb_spec (Z.of_nat (length l)) 0) as [E|E]; [rewrite Hnil; [done|by destruct l]|].
  unfold MINIMAFS_BLOCK_SIZE. rewrite !u32_small by (unfold is_u32; lia).
  destruct (Z.leb_spec (st + Z.of_nat (length l)) bo), (Z.leb_spec (bo + 4096) st); cbn [orb].
  1-3: rewrite over_outside; [done|intros; lia].
  set (cs := if bo <? st then st else bo). set (ce := if _ <? bo + 4096 then _ else _).
  assert (cs = Z.max bo st) as -> by (unfold cs; destruct (Z.ltb_spec bo st); lia).
  assert (ce = Z.min (st + Z.of_nat (length l)) (bo + 4096)) as ->
    by (unfold ce; destruct (Z.ltb_spec (st + Z.of_nat (length l)) (bo + 4096)); lia).
  set (cs := Z.max bo st). set (ce := Z.min _ _). assert (bo ≤ cs < ce ∧ st ≤ cs ∧ ce ≤ bo + 4096 ∧ ce ≤ st + Z.of_nat (length l)) as Hc by lia.
  rewrite u32_small by (unfold is_u32; lia).
  destruct (Z.ltb_spec 4096 (cs - bo + (ce - cs))); [lia|].
  destruct (Z.ltb_spec (Z.of_nat (length l)) (cs - st + (ce - cs))); [lia|]. cbn [orb]. f_equal.
  rewrite <- fmap_take, <- fmap_drop, take_seqZ, drop_seqZ by lia. rewrite (slice_over f) by lia.
  rewrite <- (over_outside f st l bo) by (intros; lia).
  rewrite <- (over_outside f st l (bo + (cs - bo + (ce - cs)))) by (intros; lia).
  rewrite <- !fmap_app. f_equal.
  replace (bo + (cs - bo + (ce - cs))) with (bo + (cs - bo) + (ce - cs)) by lia.
  replace cs with (bo + (cs - bo)) at 2 by lia.
  rewrite <- seqZ_app by lia. rewrite <- seqZ_app by lia. f_equal. lia.
Qed.

(** ** The image of a file *)

Definition contents (header l1 l2 : list Z) : list Z := header ++ l1 ++ l2 ++ FOOTER.
Definition image (header l1 l2 : list Z) (x : Z) : Z := default 0 (contents header l1 l2 !! Z.to_nat x).

Lemma footer_length : length FOOTER = 5%nat.
Proof. reflexivity. Qed.

Lemma image_over header l1 l2 x : 0 ≤ x →
  over (over (over (over (λ _, 0) 0 header) (Z.of_nat (length header)) l1)
    (Z.of_nat (length header) + Z.of_nat (length l1)) l2)
    (Z.of_nat (length header) + (Z.of_nat (length l1) + Z.of_nat (length l2))) FOOTER x = image header l1 l2 x.
Proof.
  intros Hx. unfold over, image, contents. rewrite footer_length.
  set (h := length header). set (a := length l1). set (b := length l2).
  destruct (decide (x < Z.of_nat h)).
  { rewrite lookup_app_l by lia. decide_range. by rewrite Z.sub_0_r. }
  rewrite lookup_app_r by lia. destruct (decide (x < Z.of_nat h + Z.of_nat a)).
  { rewrite lookup_app_l by lia. decide_range. do 2 f_equal. lia. }
  rewrite lookup_app_r by lia. destruct (decide (x < Z.of_nat h + Z.of_nat a + Z.of_nat b)).
  { rewrite lookup_app_l by lia. decide_range. do 2 f_equal. lia. }
  rewrite lookup_app_r by lia. destruct (decide (x < Z.of_nat h + (Z.of_nat a + Z.of_nat b) + 5)).
  - decide_range. do 2 f_equal. lia.
  - decide_range. by rewrite (lookup_ge_None_2 FOOTER) by (rewrite footer_length; lia).
Qed.

(** A block of the file, as long as the offsets stay in 32 bits. *)
Lemma file_block_ok header seg1 len1 l1 seg2 len2 l2 idx :
  seg_is seg1 len1 l1 → seg_is seg2 len2 l2 → 0 ≤ idx → idx * 4096 + 4096 < 4294967296 →
  Z.of_nat (length (contents header l1 l2)) < 4294967296 →
  file_block header seg1 len1 seg2 len2 idx = Ret (image header l1 l2 <$> seqZ (idx * 4096) 4096).
Proof.
  intros H1 H2 Hidx Hbe Hlen. pose proof H1 as [-> _]. pose proof H2 as [-> _].
  unfold contents in Hlen. rewrite !length_app, footer_length in Hlen.
  unfold file_block, MINIMAFS_BLOCK_SIZE. rewrite !u32_small by (unfold is_u32; rewrite ?u32_small by (unfold is_u32; lia); lia).
  assert (replicate (Z.to_nat 4096) 0 = (λ _, 0) <$> seqZ (idx * 4096) 4096) as ->.
  { apply list_eq. intros i. rewrite list_lookup_fmap. destruct (decide (i < 4096)%nat).
    - rewrite lookup_replicate_2, lookup_seqZ_lt by lia. done.
    - rewrite lookup_ge_None_2 by (rewrite length_replicate; lia). by rewrite lookup_seqZ_ge by lia. }
  rewrite (copy_segment_ok _ _ _ _ header) by (try (split; [done|by left]); lia). cbn [obind].
  rewrite (copy_segment_ok _ _ _ _ l1) by (done || lia). cbn [obind].
  rewrite (copy_segment_ok _ _ _ _ l2) by (done || lia). cbn [obind].
  rewrite (copy_segment_ok _ _ _ _ FOOTER) by (try (split; [reflexivity|by left]); lia).
  f_equal. apply list_fmap_ext. intros i x Hx. apply lookup_seqZ in Hx as [-> Hi]. apply image_over. lia.
Qed.

Lemma file_blocks_ok header seg1 len1 l1 seg2 len2 l2 : ∀ n idx,
  seg_is seg1 len1 l1 → seg_is seg2 len2 l2 → 0 ≤ idx → (idx + Z.of_nat n) * 4096 < 4294967296 →
  Z.of_nat (length (contents header l1 l2)) < 4294967296 →
  file_blocks n header seg1 len1 seg2 len2 idx = Ret (image header l1 l2 <$> seqZ (idx * 4096) (Z.of_nat n * 4096)).
Proof.
  induction n as [|n IH]; intros idx H1 H2 Hidx Hb Hlen; [done|]. cbn [file_blocks].
  rewrite (file_block_ok _ _ _ l1 _ _ l2) by (done || lia). cbn [obind]. rewrite IH by (done || lia). cbn [obind].
  rewrite <- fmap_app. do 2 f_equal.
  replace (Z.of_nat (S n) * 4096) with (4096 + Z.of_nat n * 4096) by lia. rewrite seqZ_app by lia. do 2 f_equal. lia.
Qed.

(** ** The blocks on disk *)

Section write_file.
  Context {D : Type} `{BlockDriver D}.
  Context (dn dev : nat) (total : Z).
  Context (header : list Z) (seg1 : option (list Z)) (len1 : Z) (l1 : list Z)
          (seg2 : option (list Z)) (len2 : Z) (l2 : list Z).
  Context (Hs1 : seg_is seg1 len1 l1) (Hs2 : seg_is seg2 len2 l2).
  Context (Hlen : Z.of_nat (length (contents header l1 l2)) < 4294967296).

Lemma write_file_loop_ok E start bc : 0 ≤ start → bc * 4096 < 4294967296 → start + bc ≤ total → ∀ fuel i (s : fsys),
  on_device dn dev total s → 0 ≤ i ≤ bc → bc - i < Z.of_nat fuel →
  ∃ s', write_file_loop fuel E dn start bc i header seg1 len1 seg2 len2 s = Ret (true, s') ∧
    written dev (start + i) (bc - i) (image header l1 l2 <$> seqZ (i * 4096) ((bc - i) * 4096)) s s'.
Proof.
  intros Hst Hbc Htot. induction fuel as [|fuel IH]; intros i s Hod Hi Hf; [lia|]. cbn [write_file_loop].
  pose proof (od_total _ _ _ _ Hod) as Ht.
  destruct (Z.ltb_spec i bc).
  2:{ exists s. split; [done|]. replace (bc - i) with 0 by lia. by apply written_nil with dn total. }
  set (chunk := if _ <? bc - i then _ else _).
  assert (1 ≤ chunk ≤ bc - i) as Hc by (unfold chunk, DMA_BOUNCE_BLOCKS; destruct (Z.ltb_spec 16 (bc - i)); lia).
  clearbody chunk. set (buf := image header l1 l2 <$> seqZ (i * 4096) (chunk * 4096)).
  assert (Z.of_nat (length buf) = chunk * MINIMAFS_BLOCK_SIZE) as Hbl.
  { unfold buf, MINIMAFS_BLOCK_SIZE. rewrite length_fmap, length_seqZ. lia. }
  rewrite (bind_lift _ _ s buf) by (rewrite (file_blocks_ok _ _ _ l1 _ _ l2); try done; try lia; unfold buf; do 3 f_equal; lia).
  rewrite u32_small by (unfold is_u32; lia).
  destruct (write_blocks_ok dn dev total E s (start + i) chunk buf Hod) as (s1 & Hw & Hwr); [lia..|done|].
  rewrite (bind_eq _ _ s true s1) by done.
  destruct (IH (i + chunk) s1) as (s2 & E2 & Hwr2); [by eapply od_written|lia|lia|].
  exists s2. split; [done|]. replace (bc - i) with (chunk + (bc - (i + chunk))) by lia.
  rewrite Z.mul_add_distr_r, seqZ_app, fmap_app by lia. fold buf.
  eapply written_app; [lia|lia|done|done|].
  replace (i * 4096 + chunk * 4096) with ((i + chunk) * 4096) by lia.
  replace (start + i + chunk) with (start + (i + chunk)) by lia. done.
Qed.
End write_file.

(** What the blocks of a file hold, as a list. *)
Lemma image_list header l1 l2 n : Z.of_nat (length (contents header l1 l2)) ≤ n →
  image header l1 l2 <$> seqZ 0 n =
  contents header l1 l2 ++ replicate (Z.to_nat (n - Z.of_nat (length (contents header l1 l2)))) 0.
Proof.
  intros Hn. set (c := contents header l1 l2) in *. apply list_eq. intros i. rewrite list_lookup_fmap.
  destruct (decide (Z.of_nat i < n)).
  - rewrite lookup_seqZ_lt by lia. simpl. unfold image. fold c. replace (Z.to_nat (0 + Z.of_nat i)) with i by lia.
    destruct (decide (i < length c)%nat).
    + rewrite lookup_app_l by done. destruct (lookup_lt_is_Some_2 c i) as [y ->]; done.
    + rewrite lookup_app_r by lia. rewrite lookup_replicate_2 by lia. by rewrite lookup_ge_None_2 by lia.
  - rewrite lookup_seqZ_ge by lia. symmetry. apply lookup_ge_None. rewrite length_app, length_replicate. lia.
Qed.

Lemma blocks_for_spec n : 0 < n < 4294963200 → let b := blocks_for n in
  0 < b ∧ n ≤ b * 4096 < n + 4096 ∧ b * 4096 < 4294967296.
Proof.
  intros Hn. cbv zeta. unfold blocks_for, MINIMAFS_BLOCK_SIZE.
  rewrite (u32_small (n + 4096 - 1)) by (unfold is_u32; lia).
  rewrite u32_small by (unfold is_u32; Z.div_mod_to_equations; lia).
  rewrite Z.div_mul by lia. Z.div_mod_to_equations. lia.
Qed.
End fsfile.
