(* ===== verification/FsInv.v ===== *)
(** * The invariant of a MinimaFS volume

    The directories of a volume are a map from block numbers to folder
    descriptors ([dirs]). [dirs_ok] says that they form a tree over disjoint
    runs of blocks; [volume] that the device holds them, that the allocator
    has every block of them in use and that the drive is mounted. The lemmas
    show what looking up a path does and what adding, changing and removing an
    entry does to the map. *)

From S2P Require Import Prelude CString Time Net Block Extent FsText Fs FsDisk FsFile.
Import fstext minimafs fsdisk fsfile.

Open Scope c_scope.

Module fsinv.

(** ** Lists over the directories *)

Abbreviation dirmap := (gmap Z minimafs_folder_desc).

Definition over_dirs {A} (f : minimafs_folder_desc → list A) (dirs : dirmap) : list A :=
  map_to_list dirs ≫= λ p, f p.2.

Lemma over_dirs_lookup {A} (f : minimafs_folder_desc → list A) (dirs : dirmap) b d :
  dirs !! b = Some d → over_dirs f dirs ≡ₚ f d ++ over_dirs f (delete b dirs).
Proof.
  intros Hb. unfold over_dirs. rewrite <- (map_to_list_delete dirs b d) by done. done.
Qed.

Lemma over_dirs_insert {A} (f : minimafs_folder_desc → list A) (dirs : dirmap) b d :
  over_dirs f (<[b := d]> dirs) ≡ₚ f d ++ over_dirs f (delete b dirs).
Proof.
  rewrite (over_dirs_lookup f _ b d) by apply lookup_insert_eq. by rewrite delete_insert_eq.
Qed.

Lemma elem_over_dirs {A} (f : minimafs_folder_desc → list A) (dirs : dirmap) x :
  x ∈ over_dirs f dirs ↔ ∃ b d, dirs !! b = Some d ∧ x ∈ f d.
Proof.
  unfold over_dirs. rewrite list_elem_of_bind. split.
  - intros ([b d] & Hx & Hin%elem_of_map_to_list). eauto.
  - intros (b & d & Hb & Hx). exists (b, d). split; [done|]. by apply elem_of_map_to_list.
Qed.

(** ** Entries *)

Definition is_dir (e : minimafs_dir_entry) : bool := bool_decide (e_type e = MINIMAFS_TYPE_DIR).
Definition run_of (e : minimafs_dir_entry) : list Z := seqZ (e_block_offset e) (e_block_count e).

Definition targets (d : minimafs_folder_desc) : list Z :=
  e_block_offset <$> filter (λ e, is_dir e = true) (entries d).
Definition runs (d : minimafs_folder_desc) : list Z := filter (λ e, is_dir e = false) (entries d) ≫= run_of.

Definition set_entries (l : list minimafs_dir_entry) (d : minimafs_folder_desc) : minimafs_folder_desc :=
  mk_folder (path d) (f_block_offset d) l.

Lemma targets_app d l e : targets (set_entries (l ++ [e]) d) =
  targets (set_entries l d) ++ (if is_dir e then [e_block_offset e] else []).
Proof.
  unfold targets, set_entries. simpl. rewrite filter_app, fmap_app. f_equal.
  destruct (is_dir e) eqn:E; [rewrite filter_cons_True by done|rewrite filter_cons_False by (by rewrite E)]; done.
Qed.
Lemma runs_app d l e : runs (set_entries (l ++ [e]) d) =
  runs (set_entries l d) ++ (if is_dir e then [] else run_of e).
Proof.
  unfold runs, set_entries. simpl. rewrite filter_app, bind_app. f_equal.
  destruct (is_dir e) eqn:E; [rewrite filter_cons_False by (by rewrite E)|rewrite filter_cons_True by done]; [done|].
  simpl. by rewrite app_nil_r.
Qed.

(** The [i]-th entry in front. *)
Lemma entries_perm d i e : entries d !! i = Some e →
  targets d ≡ₚ (if is_dir e then [e_block_offset e] else []) ++ targets (set_entries (delete i (entries d)) d) ∧
  runs d ≡ₚ (if is_dir e then [] else run_of e) ++ runs (set_entries (delete i (entries d)) d).
Proof.
  intros Hi. unfold targets, runs, set_entries. simpl.
  assert (entries d ≡ₚ e :: delete i (entries d)) as Hp by (by apply delete_Permutation).
  split; rewrite Hp at 1; destruct (is_dir e) eqn:E.
  - by rewrite filter_cons_True.
  - by rewrite filter_cons_False by (by rewrite E).
  - by rewrite filter_cons_False by (by rewrite E).
  - by rewrite filter_cons_True.
Qed.

(** ** The directories of a sound volume *)

Record dir_good (d : minimafs_folder_desc) : Prop := {
  dg_ok : folder_ok d;
  dg_path : path d ≠ [];
  dg_entries : Forall (λ e, (is_dir e = true → e_block_count e = 1) ∧ 0 < e_block_count e) (entries d)
}.

(** The blocks a volume uses: its descriptor, the root, the directories, the
    files. *)
Definition owned (root : Z) (dirs : dirmap) : list Z :=
  0 :: root :: over_dirs targets dirs ++ over_dirs runs dirs.

Record dirs_ok (root total : Z) (dirs : dirmap) : Prop := {
  do_good : ∀ b d, dirs !! b = Some d → dir_good d ∧ f_block_offset d = b;
  do_tree : ∀ b, is_Some (dirs !! b) ↔ b = root ∨ b ∈ over_dirs targets dirs;
  do_nodup : NoDup (owned root dirs);
  do_range : ∀ b, b ∈ owned root dirs → 0 ≤ b < total
}.

Lemma dirs_ok_block root total dirs b d : dirs_ok root total dirs → dirs !! b = Some d →
  b ∈ owned root dirs ∧ b ≠ 0 ∧ b ∉ over_dirs runs dirs.
Proof.
  intros [_ Htree Hnd _] Hb. assert (b = root ∨ b ∈ over_dirs targets dirs) as Hbb by (apply Htree; eauto).
  unfold owned in *. apply NoDup_cons in Hnd as [H0 Hnd]. apply NoDup_cons in Hnd as [Hr Hnd].
  apply NoDup_app in Hnd as (_ & Hd & _).
  assert (b ∈ root :: over_dirs targets dirs ++ over_dirs runs dirs) as Hin.
  { apply elem_of_cons. rewrite elem_of_app. tauto. }
  split_and!; [by right|intros ->; done|].
  destruct Hbb as [->|Hbb]; [|by apply Hd]. intros ?. apply Hr. apply elem_of_app. by right.
Qed.

(** Replacing the entries of one directory: the owned blocks, with the ones
    of that directory in front. *)
Lemma owned_lookup root dirs b d : dirs !! b = Some d →
  owned root dirs ≡ₚ targets d ++ runs d ++ owned root (delete b dirs).
Proof.
  intros Hb. unfold owned. rewrite (over_dirs_lookup targets _ _ _ Hb), (over_dirs_lookup runs _ _ _ Hb).
  set (A := targets d). set (B := runs d). set (P := over_dirs targets _). set (Q := over_dirs runs _).
  solve_Permutation.
Qed.

Lemma owned_insert root dirs b d :
  owned root (<[b := d]> dirs) ≡ₚ targets d ++ runs d ++ owned root (delete b dirs).
Proof.
  rewrite (owned_lookup root _ b d) by apply lookup_insert_eq. by rewrite delete_insert_eq.
Qed.

(** ** Changing an entry *)

(** The directory [b] gets the descriptor [d'] with the same subdirectories,
    and files that use the blocks [new] instead of [old]. *)
Lemma dirs_ok_update root total dirs b d d' old new keep :
  dirs_ok root total dirs → dirs !! b = Some d → dir_good d' → f_block_offset d' = b →
  targets d' ≡ₚ targets d → runs d ≡ₚ old ++ keep → runs d' ≡ₚ new ++ keep →
  NoDup new → (∀ x, x ∈ new → 0 ≤ x < total ∧ (x ∈ owned root dirs → x ∈ old)) →
  dirs_ok root total (<[b := d']> dirs) ∧
  ∀ x, x ∈ owned root (<[b := d']> dirs) ↔ x ∈ new ∨ x ∈ owned root dirs ∧ x ∉ old.
Proof.
  intros [Hgood Htree Hnd Hrange] Hb Hg' Hfb Ht Hr Hr' Hnn Hnew.
  set (rest := targets d ++ keep ++ owned root (delete b dirs)).
  assert (owned root dirs ≡ₚ old ++ rest) as Hp.
  { rewrite (owned_lookup root dirs b d Hb), Hr. unfold rest. set (O := owned _ _). solve_Permutation. }
  assert (owned root (<[b := d']> dirs) ≡ₚ new ++ rest) as Hp'.
  { rewrite owned_insert, Hr', Ht. unfold rest. set (O := owned _ _). solve_Permutation. }
  rewrite Hp in Hnd. apply NoDup_app in Hnd as (_ & Hor & Hndr).
  assert (∀ x, x ∈ owned root (<[b := d']> dirs) ↔ x ∈ new ∨ x ∈ owned root dirs ∧ x ∉ old) as Hmem.
  { intros x. rewrite Hp', Hp, !elem_of_app. specialize (Hor x).
    destruct (decide (x ∈ old)), (decide (x ∈ rest)); tauto. }
  split; [|done]. split.
  - intros b' d0. destruct (decide (b = b')) as [<-|Hne].
    + rewrite lookup_insert_eq. by intros [= <-].
    + rewrite lookup_insert_ne by done. apply Hgood.
  - intros b'. rewrite over_dirs_insert, Ht, <- (over_dirs_lookup targets dirs b d Hb), <- Htree.
    rewrite lookup_insert_is_Some'. naive_solver.
  - rewrite Hp'. apply NoDup_app. split_and!; [done| |done]. intros x Hx Hxr.
    destruct (Hnew x Hx) as [_ Ho]. apply (Hor x); [|done]. apply Ho. rewrite Hp. apply elem_of_app. by right.
  - intros x [Hx|[Hx _]]%Hmem; [by apply Hnew|by apply Hrange].
Qed.

(** A new empty directory [nb] under [b]. *)
Lemma dirs_ok_mkdir root total dirs b d e nd :
  dirs_ok root total dirs → dirs !! b = Some d → is_dir e = true → dir_good (set_entries (entries d ++ [e]) d) →
  dir_good nd → f_block_offset nd = e_block_offset e → entries nd = [] →
  0 ≤ e_block_offset e < total → e_block_offset e ∉ owned root dirs →
  let dirs' := <[e_block_offset e := nd]> (<[b := set_entries (entries d ++ [e]) d]> dirs) in
  dirs_ok root total dirs' ∧ ∀ x, x ∈ owned root dirs' ↔ x = e_block_offset e ∨ x ∈ owned root dirs.
Proof.
  intros Hok Hb He Hg Hgn Hfn Hen Hrg Hno dirs'. pose proof (dirs_ok_block _ _ _ _ _ Hok Hb) as (Hbo & _ & _).
  set (nb := e_block_offset e) in *. assert (b ≠ nb) as Hne by (intros ->; done).
  destruct Hok as [Hgood Htree Hnd Hrange].
  assert (dirs !! nb = None) as Hfresh.
  { apply eq_None_not_Some. intros [d0 Hd0]. apply Hno. by eapply (dirs_ok_block root total). }
  set (d' := set_entries _ d) in *.
  assert (∀ A (f : _ → list A), f nd = [] → over_dirs f dirs' ≡ₚ f d' ++ over_dirs f (delete b dirs)) as Hod.
  { intros A f Hf. unfold dirs'. rewrite over_dirs_insert, Hf, delete_id by (rewrite lookup_insert_ne; done).
    apply over_dirs_insert. }
  assert (targets nd = [] ∧ runs nd = []) as [Htn Hrn] by (unfold targets, runs; by rewrite Hen).
  assert (targets d' = targets d ++ [nb]) as Htd.
  { unfold d'. rewrite targets_app, He. by destruct d. }
  assert (runs d' = runs d) as Hrd by (unfold d'; rewrite runs_app, He, app_nil_r; by destruct d).
  assert (owned root dirs' ≡ₚ nb :: owned root dirs) as Hp.
  { unfold owned. rewrite (Hod _ targets Htn), (Hod _ runs Hrn), Htd, Hrd.
    rewrite (over_dirs_lookup targets dirs b d Hb), (over_dirs_lookup runs dirs b d Hb).
    set (P := over_dirs targets _). set (Q := over_dirs runs _). solve_Permutation. }
  assert (∀ x, x ∈ owned root dirs' ↔ x = nb ∨ x ∈ owned root dirs) as Hmem by (intros x; by rewrite Hp, elem_of_cons).
  split; [|done]. split.
  - intros b' d0. unfold dirs'. destruct (decide (nb = b')) as [<-|Hne']; [rewrite lookup_insert_eq; by intros [= <-]|].
    rewrite lookup_insert_ne by done. destruct (decide (b = b')) as [<-|Hne2].
    + rewrite lookup_insert_eq. intros [= <-]. split; [done|]. by apply Hgood in Hb as [_ ?].
    + rewrite lookup_insert_ne by done. apply Hgood.
  - intros b'. rewrite (Hod _ targets Htn), Htd. unfold dirs'. rewrite !lookup_insert_is_Some'.
    specialize (Htree b'). rewrite (over_dirs_lookup targets dirs b d Hb) in Htree. rewrite !elem_of_app in *.
    rewrite list_elem_of_singleton. assert (b = b' → is_Some (dirs !! b')) by (intros <-; eauto). naive_solver.
  - rewrite Hp. by apply NoDup_cons.
  - intros x [->|Hx]%Hmem; [done|by apply Hrange].
Qed.

(** The empty directory that entry [i] of [b] names goes away. *)
Lemma dirs_ok_rmdir root total dirs b d i e nd :
  dirs_ok root total dirs → dirs !! b = Some d → entries d !! i = Some e → is_dir e = true →
  dirs !! e_block_offset e = Some nd → entries nd = [] → dir_good (set_entries (delete i (entries d)) d) →
  let dirs' := delete (e_block_offset e) (<[b := set_entries (delete i (entries d)) d]> dirs) in
  e_block_offset e ≠ b ∧ dirs_ok root total dirs' ∧
  ∀ x, x ∈ owned root dirs' ↔ x ∈ owned root dirs ∧ x ≠ e_block_offset e.
Proof.
  intros Hok Hb Hi He Hnb Hen Hg dirs'. set (nb := e_block_offset e) in *.
  destruct (entries_perm d i e Hi) as [Htp Hrp]. rewrite He in Htp, Hrp. simpl app in Htp, Hrp. fold nb in Htp.
  destruct Hok as [Hgood Htree Hnd Hrange].
  assert (nb ≠ b) as Hne.
  { intros Heq. assert (Some d = Some nd) as [= ->] by (rewrite <- Hb, <- Heq; done). by rewrite Hen in Hi. }
  set (d' := set_entries _ d) in *.
  assert (targets nd = [] ∧ runs nd = []) as [Htn Hrn] by (unfold targets, runs; by rewrite Hen).
  assert (∀ A (f : _ → list A), f nd = [] → over_dirs f dirs' ≡ₚ f d' ++ over_dirs f (delete b dirs)) as Hod.
  { intros A f Hf. rewrite <- over_dirs_insert. rewrite (over_dirs_lookup f (<[b := d']> dirs) nb nd), Hf; [done|].
    by rewrite lookup_insert_ne. }
  assert (owned root dirs ≡ₚ nb :: owned root dirs') as Hp.
  { unfold owned. rewrite (Hod _ targets Htn), (Hod _ runs Hrn).
    rewrite (over_dirs_lookup targets dirs b d Hb), (over_dirs_lookup runs dirs b d Hb), Htp, Hrp.
    set (P := over_dirs targets _). set (Q := over_dirs runs _). solve_Permutation. }
  rewrite Hp in Hnd. pose proof Hnd as [Hnin Hnd']%NoDup_cons.
  assert (∀ x, x ∈ owned root dirs' ↔ x ∈ owned root dirs ∧ x ≠ nb) as Hmem.
  { intros x. rewrite Hp, elem_of_cons. destruct (decide (x = nb)) as [->|]; tauto. }
  split; [done|]. split; [|done]. split.
  - intros b' d0 [Hne' Hl]%lookup_delete_Some. destruct (decide (b = b')) as [<-|Hne2].
    + rewrite lookup_insert_eq in Hl. injection Hl as <-. split; [done|]. by apply Hgood in Hb as [_ ?].
    + rewrite lookup_insert_ne in Hl by done. by apply Hgood.
  - intros b'. rewrite (Hod _ targets Htn). unfold dirs'. rewrite lookup_delete_is_Some, lookup_insert_is_Some'.
    specialize (Htree b'). rewrite (over_dirs_lookup targets dirs b d Hb), Htp in Htree.
    assert (nb ≠ root ∧ nb ∉ targets d' ++ over_dirs targets (delete b dirs)) as [Hnr Hnt].
    { unfold owned in Hnin. rewrite (Hod _ targets Htn) in Hnin. set_solver. }
    simpl in Htree. rewrite elem_of_cons in Htree. fold d' in Htree.
    assert (b = b' → is_Some (dirs !! b')) by (intros <-; eauto).
    destruct (decide (nb = b')) as [<-|]; [tauto|]. naive_solver.
  - done.
  - intros x [Hx _]%Hmem. by apply Hrange.
Qed.
End fsinv.
