(* ===== verification/FsVol.v ===== *)
(** * Operations on a sound volume

    [volume]: the drive is mounted on a working device that holds the
    directories [dirs], and the allocator has their blocks in use. What the
    building blocks of the file operations do to it: looking up a folder,
    writing a folder, allocating and freeing runs, refreshing the storage
    descriptor, writing a file's blocks. The heap answers every request here
    ([roomy]). *)

From S2P Require Import Prelude CString Time Net Block Extent FsText Fs FsDisk FsFile FsInv.
Import fstext minimafs fsdisk fsfile fsinv.

Open Scope c_scope.

Module fsvol.

(** The heap gives every size asked for; the date text can be stored. *)
Record roomy (E : env) : Prop := {
  rm_alloc : ∀ n, can_alloc E n = true;
  rm_pages : can_pages E = true;
  rm_now : quoted 32 (now E) ∧ 0 ∉ now E
}.

Section fsvol.
  Context {D : Type} `{BlockDriver D}.
  Abbreviation fsys := (fsys (D := D)).
  Context (E : env) (HE : roomy E) (dn dev : nat).

Abbreviation total_of s := (extent.total_blocks (the_alloc dn s)).
Definition root_of (s : fsys) : Z := root_block (sdesc (the_drive dn s)).

(** The drive's slot, its device and its descriptor. *)
Record frame (s : fsys) : Prop := {
  fr_slot : (dn < length (drives s))%nat ∧ (dn < length (allocs s))%nat;
  fr_dev : on_device dn dev (total_of s) s;
  fr_alloc : extent.wf (the_alloc dn s);
  fr_sdesc : storage_ok (sdesc (the_drive dn s)) ∧ magic (sdesc (the_drive dn s)) = MINIMAFS_MAGIC ∧
             total_blocks (sdesc (the_drive dn s)) ≠ 0
}.

Definition on_disk (dirs : dirmap) (s : fsys) : Prop :=
  ∀ b d, dirs !! b = Some d → parse_folder_desc b (blks dev (store s) b 1) = Ret d.

Record volume (dirs : dirmap) (s : fsys) : Prop := {
  v_frame : frame s;
  v_mounted : mounted (the_drive dn s) = true;
  v_dirs : dirs_ok (root_of s) (total_of s) dirs;
  v_disk : on_disk dirs s;
  v_taken : ∀ b, b ∈ owned (root_of s) dirs → extent.taken (the_alloc dn s) b
}.

(** ** Looking up folders *)

Lemma read_folder_block dirs s b d : volume dirs s → dirs !! b = Some d →
  minimafs_read_folder_desc_block E dn b s = Ret (Some d, s).
Proof.
  intros [Hf _ Hd Hdisk _] Hb. unfold minimafs_read_folder_desc_block.
  destruct (dirs_ok_block _ _ _ _ _ Hd Hb) as (Hin & _ & _). apply (do_range _ _ _ Hd) in Hin.
  rewrite (bind_eq _ _ s _ s) by (eapply read_blocks_ok; [apply Hf|lia..]). cbv beta iota.
  by rewrite (bind_lift _ _ s d) by (by apply Hdisk).
Qed.

(** Walking a path down the map. *)
Fixpoint walk_dirs (dirs : dirmap) (b : Z) (toks : list (list Z)) : option Z :=
  match toks with
  | [] => Some b
  | t :: r => d ← dirs !! b; e ← find_subdir (entries d) t; walk_dirs dirs (e_block_offset e) r
  end.

Lemma find_dir_spec l t e : find_subdir l t = Some e → e ∈ l ∧ is_dir e = true ∧ e_name e = t.
Proof.
  induction l as [|x l IH]; simpl; [done|]. fold (is_dir x). destruct (is_dir x) eqn:Ed; simpl.
  - case_bool_decide; intros Hf; [simplify_eq; split; [left|done]|]. apply IH in Hf as (? & ? & ?). split; [by right|done].
  - intros Hf. apply IH in Hf as (? & ? & ?). split; [by right|done].
Qed.

Lemma dir_entry_target dirs root total b d e : dirs_ok root total dirs → dirs !! b = Some d → e ∈ entries d → is_dir e = true →
  is_Some (dirs !! e_block_offset e).
Proof.
  intros Hok Hb Hin He. apply (do_tree _ _ _ Hok). right. apply elem_over_dirs. exists b, d. split; [done|].
  unfold targets. apply list_elem_of_fmap. exists e. split; [done|]. by apply list_elem_of_filter.
Qed.

Lemma walk_ok dirs s : volume dirs s → ∀ toks b, is_Some (dirs !! b) →
  walk E dn b toks s = Ret (walk_dirs dirs b toks, s).
Proof.
  intros Hv. induction toks as [|t toks IH]; intros b [d Hb]; [done|]. cbn [walk walk_dirs].
  rewrite (bind_eq _ _ s _ s) by (by eapply read_folder_block). rewrite Hb. cbn [mbind option_bind].
  destruct (find_subdir (entries d) t) as [e|] eqn:He; [|done]. apply find_dir_spec in He as (Hin & Hdir & _).
  cbn [mbind option_bind]. apply IH. by eapply dir_entry_target; [apply Hv|..].
Qed.

Definition folder_block (dirs : dirmap) (root : Z) (p : list Z) : option Z :=
  if is_root p then Some root else walk_dirs dirs root (tokens [] p).
Definition folder_at (dirs : dirmap) (root : Z) (p : list Z) : option minimafs_folder_desc :=
  b ← folder_block dirs root p; dirs !! b.

Lemma walk_dirs_some dirs root total : dirs_ok root total dirs → ∀ toks b b', is_Some (dirs !! b) →
  walk_dirs dirs b toks = Some b' → is_Some (dirs !! b').
Proof.
  intros Hok. induction toks as [|t toks IH]; intros b b' Hb; simpl; [by intros [= <-]|].
  destruct Hb as [d Hb]. rewrite Hb. simpl. destruct (find_subdir _ _) as [e|] eqn:He; simpl; [|done].
  apply find_dir_spec in He as (? & ? & _). apply IH. by eapply dir_entry_target.
Qed.

Lemma root_some dirs root total : dirs_ok root total dirs → is_Some (dirs !! root).
Proof. intros Hok. apply (do_tree _ _ _ Hok). by left. Qed.

(** [minimafs_read_folder_desc] finds the folder of a path in the map. *)
Lemma read_folder_ok dirs s p : volume dirs s →
  minimafs_read_folder_desc E dn p s = Ret (folder_at dirs (root_of s) p, s).
Proof.
  intros Hv. pose proof (v_dirs _ _ Hv) as Hok. pose proof (root_some _ _ _ Hok) as Hroot.
  unfold minimafs_read_folder_desc.
  rewrite (bind_eq _ _ s (folder_block dirs (root_of s) p) s).
  2:{ unfold minimafs_get_folder_block, folder_block. rewrite bind_gets. destruct (is_root p); [done|].
      rewrite (rm_alloc _ HE). cbn [negb]. by apply walk_ok. }
  unfold folder_at. destruct (folder_block dirs (root_of s) p) as [b|] eqn:Hfb; [|done]. cbn [mbind option_bind].
  assert (is_Some (dirs !! b)) as [d Hd].
  { unfold folder_block in Hfb. destruct (is_root p); [by simplify_eq|]. by eapply walk_dirs_some. }
  rewrite (bind_eq _ _ s _ s) by (by eapply read_folder_block). rewrite Hd. cbv beta iota.
  destruct (do_good _ _ _ Hok b d Hd) as [[_ Hpath _] _]. by destruct (path d) eqn:Hp; [|rewrite <- ?Hp; destruct d; simpl in *; subst].
Qed.

Lemma folder_at_some dirs s p d : volume dirs s → folder_at dirs (root_of s) p = Some d →
  ∃ b, dirs !! b = Some d ∧ f_block_offset d = b ∧ dir_good d ∧ 0 < b < total_of s.
Proof.
  intros Hv Hd. unfold folder_at in Hd. destruct (folder_block _ _ p) as [b|]; [|done]. simpl in Hd. exists b.
  destruct (do_good _ _ _ (v_dirs _ _ Hv) b d Hd) as [Hg Hb].
  destruct (dirs_ok_block _ _ _ _ _ (v_dirs _ _ Hv) Hd) as (Hin & H0 & _).
  apply (do_range _ _ _ (v_dirs _ _ Hv)) in Hin. split_and!; try done; lia.
Qed.
(** ** Steps of the file operations *)

(** From [s] to [s'] the drive stays in order, the open files are the same and
    the blocks of [keep] hold what they held. *)
Record moved (keep : Z → Prop) (s s' : fsys) : Prop := {
  mv_frame : frame s';
  mv_root : root_of s' = root_of s;
  mv_total : total_of s' = total_of s;
  mv_mounted : mounted (the_drive dn s') = mounted (the_drive dn s);
  mv_handles : handles s' = handles s;
  mv_keep : ∀ b, keep b → blks dev (store s') b 1 = blks dev (store s) b 1
}.

Lemma moved_refl keep s : frame s → moved keep s s.
Proof. by split. Qed.

Lemma moved_trans (k1 k2 : Z → Prop) s1 s2 s3 : moved k1 s1 s2 → moved k2 s2 s3 → moved (λ b, k1 b ∧ k2 b) s1 s3.
Proof. intros [? ? ? ? ? K1] [? ? ? ? ? K2]. split; [done|congruence..|]. intros b []. by rewrite K2, K1. Qed.

Lemma moved_weaken (k1 k2 : Z → Prop) s s' : (∀ b, k2 b → k1 b) → moved k1 s s' → moved k2 s s'.
Proof. intros Hk []. split; auto. Qed.

Lemma frame_store s st : frame s → devs st = devs (store s) → table_ok st → frame (set_store st s).
Proof. intros [] Hd Ht. split; try done. by apply od_frame. Qed.

Lemma moved_written b n buf s s' : frame s → 0 ≤ n → written dev b n buf s s' →
  moved (λ x, x < b ∨ b + n ≤ x) s s' ∧ the_alloc dn s' = the_alloc dn s.
Proof.
  intros Hf Hn Hw. pose proof Hw as [Hs Hd Ht _]. rewrite Hs. split; [split; try done|done].
  - by apply frame_store.
  - simpl. intros x Hx. eapply written_other; [done|lia|lia].
Qed.

Lemma frame_alloc s a : frame s → extent.wf a → extent.total_blocks a = total_of s →
  frame (set_allocs (<[dn := a]> (allocs s)) s) ∧ the_alloc dn (set_allocs (<[dn := a]> (allocs s)) s) = a.
Proof.
  intros [[Hs1 Hs2] Hd Ha Hsd] Hwf Ht.
  assert (the_alloc dn (set_allocs (<[dn := a]> (allocs s)) s) = a) as Heq.
  { unfold the_alloc, set_allocs. simpl. by rewrite nth_lookup, list_lookup_insert_eq. }
  split; [|done]. split; rewrite ?Heq, ?Ht; try done; [simpl; rewrite length_insert; done|by destruct Hd; split].
Qed.

Lemma moved_alloc keep s a : frame s → extent.wf a → extent.total_blocks a = total_of s →
  moved keep s (set_allocs (<[dn := a]> (allocs s)) s) ∧ the_alloc dn (set_allocs (<[dn := a]> (allocs s)) s) = a.
Proof.
  intros Hf Hwf Ht. destruct (frame_alloc s a Hf Hwf Ht) as [Hf' Heq]. split; [|done]. split; try done. by rewrite Heq.
Qed.

(** Allocating a run. *)
Lemma alloc_run_ok s cnt : frame s → 0 < cnt < 4294967296 →
  ∃ r s', alloc_run E dn cnt s = Ret (r, s') ∧ moved (λ _, True) s s' ∧
    extent.alloc_answer cnt (the_alloc dn s) r (the_alloc dn s').
Proof.
  intros Hf Hc. destruct (extent.alloc_run_spec (can_alloc E) cnt (the_alloc dn s)) as (r & a & Ha & Hwf & Hans);
    [apply Hf|done|apply HE|].
  assert (extent.total_blocks a = total_of s) as Ht.
  { unfold extent.alloc_answer in Hans. destruct (r =? _); [by destruct Hans as [-> _]|tauto]. }
  destruct (moved_alloc (λ _, True) s a Hf Hwf Ht) as [Hm Heq].
  exists r, (set_allocs (<[dn := a]> (allocs s)) s). rewrite Heq. split; [|done].
  unfold alloc_run. rewrite bind_gets, (bind_lift _ _ s (r, a)) by done. unfold put_alloc. by rewrite bind_modify.
Qed.

Lemma free_run_ok s st cnt : frame s → is_u32 st → is_u32 cnt →
  ∃ s', free_run E dn st cnt s = Ret (tt, s') ∧ moved (λ _, True) s s' ∧
    ∀ b, extent.taken (the_alloc dn s') b ↔ extent.taken (the_alloc dn s) b ∧ ¬ (st ≤ b < st + cnt).
Proof.
  intros Hf Hst Hc. destruct (extent.free_run_spec (can_alloc E) st cnt (the_alloc dn s)) as (a & Ha & Hwf & Ht & Hb);
    [apply Hf|done|done|apply HE|].
  destruct (moved_alloc (λ _, True) s a Hf Hwf Ht) as [Hm Heq].
  exists (set_allocs (<[dn := a]> (allocs s)) s). rewrite Heq. split; [|done].
  unfold free_run. by rewrite bind_gets, (bind_lift _ _ s a) by done.
Qed.

(** Writing a folder descriptor. *)
Lemma write_folder_ok s d t : frame s → folder_ok d → folder_text d = Some t → 0 < f_block_offset d < total_of s →
  ∃ s', minimafs_write_folder_desc E dn d s = Ret (true, s') ∧ moved (λ b, b ≠ f_block_offset d) s s' ∧
    the_alloc dn s' = the_alloc dn s ∧
    parse_folder_desc (f_block_offset d) (blks dev (store s') (f_block_offset d) 1) = Ret d.
Proof.
  intros Hf Hd Ht Hb. destruct (folder_block_ok d t Hd Ht) as (raw & Hraw & Hlen & Hp).
  unfold minimafs_write_folder_desc. rewrite (proj2 (Z.eqb_neq _ 0)), Ht by lia.
  rewrite (proj2 (Nat.ltb_ge _ _)) by apply Hd. rewrite (bind_lift _ _ s raw) by done.
  destruct (write_blocks_ok dn dev _ E s (f_block_offset d) 1 raw (fr_dev _ Hf)) as (s' & Hw & Hwr); [lia..|].
  destruct (moved_written _ 1 raw _ _ Hf ltac:(lia) Hwr) as [Hm Ha]. exists s'. split; [done|].
  split; [eapply moved_weaken; [|done]; intros x Hx; cbv beta in *; lia|]. split; [done|].
  by rewrite (written_same _ _ _ _ _ _ Hwr) by (done || lia).
Qed.

(** Refreshing the storage descriptor. *)
Lemma refreshed_ok a sd : storage_ok sd → extent.wf a → storage_ok (refreshed (now E) a sd).
Proof.
  intros [] [Ht He Hfree _]. split; simpl; try done; [apply HE|..].
  - split; [tauto|]. split; apply u64_range.
  - assert (0 ≤ extent.free_blocks a ≤ 4294967295).
    { pose proof (extent.separated_size _ _ _ He) as Hs. unfold extent.size in Hs. rewrite Hfree.
      destruct Hs as [->|Hs]; [simpl|]; lia. }
    split_and!; try tauto; [apply u32_range|unfold is_u32; lia].
Qed.

Lemma frame_drive s sd : frame s → storage_ok sd → magic sd = MINIMAFS_MAGIC → total_blocks sd ≠ 0 →
  let d := the_drive dn s in let s' := set_drives (<[dn := mk_drive (mounted d) (d_name d) sd (device d)]> (drives s)) s in
  frame s' ∧ the_drive dn s' = mk_drive (mounted d) (d_name d) sd (device d).
Proof.
  intros [[Hs1 Hs2] Hd Ha Hsd] Hok Hmg Htb d s'.
  assert (the_drive dn s' = mk_drive (mounted d) (d_name d) sd (device d)) as Heq.
  { unfold the_drive, s', set_drives. simpl. by rewrite nth_lookup, list_lookup_insert_eq. }
  split; [|done]. split; rewrite ?Heq; try done; [simpl; by rewrite length_insert|].
  destruct Hd. split; rewrite ?Heq; done.
Qed.

Lemma refresh_ok s : frame s →
  ∃ s', minimafs_refresh_storage_desc E dn s = Ret (tt, s') ∧ moved (λ b, b ≠ 0) s s' ∧
    the_alloc dn s' = the_alloc dn s ∧
    sdesc (the_drive dn s') = refreshed (now E) (the_alloc dn s) (sdesc (the_drive dn s)).
Proof.
  intros Hf. destruct (fr_sdesc _ Hf) as (Hok & Hmg & Htb). pose proof (fr_alloc _ Hf) as Hwf.
  pose proof (refreshed_ok _ _ Hok Hwf) as Hok'. set (sd := refreshed _ _ _) in *.
  destruct (frame_drive s sd Hf Hok') as [Hf1 Heq]; [done..|]. cbv zeta in Hf1, Heq.
  set (s1 := set_drives _ s) in *. destruct (storage_block_ok sd Hok') as (raw & Hraw & Hlen & _).
  destruct (write_blocks_ok dn dev _ E s1 0 1 raw (fr_dev _ Hf1)) as (s' & Hw & Hwr).
  1,2: lia. { pose proof (od_total _ _ _ _ (fr_dev _ Hf1)). lia. } { lia. }
  destruct (moved_written _ 1 raw _ _ Hf1 ltac:(lia) Hwr) as [[Hm1 Hm2 Hm3 Hmm Hm4 Hm5] Ha].
  exists s'. split.
  - unfold minimafs_refresh_storage_desc. rewrite !bind_gets. fold sd. unfold put_drive. rewrite bind_modify. fold s1.
    change (magic sd) with (magic (sdesc (the_drive dn s))). change (total_blocks sd) with (total_blocks (sdesc (the_drive dn s))).
    rewrite Hmg, Z.eqb_refl, (proj2 (Z.eqb_neq _ 0)) by done. cbn [negb orb].
    rewrite (bind_eq _ _ s1 true s'); [done|]. unfold minimafs_write_storage_desc. rewrite bind_gets, Heq. cbn [sdesc].
    rewrite (bind_lift _ _ s1 raw) by done. pose proof (storage_text_length sd Hok').
    rewrite (proj2 (Z.leb_gt _ _)) by (unfold MINIMAFS_BLOCK_SIZE; lia). done.
  - assert (the_drive dn s' = the_drive dn s1) as Hdr by (rewrite (wr_frame _ _ _ _ _ _ Hwr); done).
    split; [|split; [done|by rewrite Hdr, Heq]]. split; try done; [by rewrite Hm2; unfold root_of; rewrite Heq|by rewrite Hmm, Heq|].
    intros b Hb. rewrite Hm5 by lia. done.
Qed.
(** ** Writing a file *)

(** Metadata whose header stays within the first block. *)
Definition meta_fits (m : minimafs_file_metadata) : Prop := is_u64 (entrypoint m) ∧ header_capacity m ≤ 4096.

Lemma header_length_mono m fl fl' dl : 0 ≤ fl ≤ fl' → fl' < 4294967296 →
  (length (header_text (set_lengths fl dl m)) ≤ length (header_text (set_lengths fl' dl m)))%nat.
Proof.
  intros H1 H2. pose proof (uint_text_length_mono fl fl' H1). unfold header_text.
  cbn [set_lengths file_length data_length filename filetype fileformat created_date last_changed parent_folder
       runnable entrypoint run_with hidden]. rewrite !length_app, (u32_small fl), (u32_small fl') by (unfold is_u32; lia). lia.
Qed.

Lemma header_small m fl dl : meta_fits m → Z.of_nat (length (header_text (set_lengths fl dl m))) < 4096.
Proof. intros [He Hc]. pose proof (header_text_length (set_lengths fl dl m) He). unfold header_capacity in *. simpl in *. lia. Qed.

(** The length in the header is never more than the length of the file. *)
Lemma settle_ok m ds : meta_fits m → 0 ≤ ds < 4294950000 → ∃ fl,
  settle_header E m ds = Ret (Some (set_lengths fl ds m, header_text (set_lengths fl ds m))) ∧
  ds + 5 ≤ fl ≤ Z.of_nat (length (header_text (set_lengths fl ds m))) + ds + 5.
Proof.
  intros Hm Hds. destruct Hm as [He Hc] eqn:Hmm. unfold settle_header.
  rewrite generate_header_ok, (rm_alloc _ HE) by done. cbn [obind]. set (h1 := header_text _).
  rewrite generate_header_ok, (rm_alloc _ HE) by done. cbn [obind]. set (h2 := header_text _).
  rewrite generate_header_ok, (rm_alloc _ HE) by done. cbn [obind].
  pose proof (header_small m (u32 (0 + ds + 5)) ds Hm) as H1. fold h1 in H1.
  pose proof (header_small m (u32 (Z.of_nat (length h1) + ds + 5)) ds Hm) as H2. fold h2 in H2.
  eexists. split; [done|]. rewrite (u32_small (Z.of_nat (length h2) + ds + 5)) by (unfold is_u32; lia). split; [lia|].
  assert (length h1 ≤ length h2)%nat as H12.
  { unfold h1, h2. rewrite !u32_small by (unfold is_u32; lia). apply header_length_mono; lia. }
  assert (length h2 ≤ length (header_text (set_lengths (Z.of_nat (length h2) + ds + 5) ds m)))%nat; [|lia].
  unfold h2 at 1. rewrite u32_small by (unfold is_u32; lia). apply header_length_mono; lia.
Qed.

(** The run a file has: none, or a run of used blocks. *)
Definition old_run (o c : Z) (s : fsys) : Prop :=
  o = 0 ∧ c = 0 ∨ 0 < o ∧ 0 < c ∧ o + c ≤ total_of s ∧ ∀ x, o ≤ x < o + c → extent.taken (the_alloc dn s) x.

(** The run the file gets, and the used blocks after that. *)
Record placed (o c start bc : Z) (s s' : fsys) : Prop := {
  pl_run : 0 < start ∧ start + bc ≤ total_of s;
  pl_fresh : ∀ x, start ≤ x < start + bc → o ≤ x < o + c ∨ ¬ extent.taken (the_alloc dn s) x;
  pl_taken : ∀ x, extent.taken (the_alloc dn s') x ↔
    extent.taken (the_alloc dn s) x ∧ ¬ (o ≤ x < o + c) ∨ start ≤ x < start + bc
}.

(** No [n] free blocks in a row. *)
Definition no_run (n : Z) (s : fsys) : Prop :=
  ∀ b, 1 ≤ b → ¬ extent.fits_at (total_of s) n (extent.ext (the_alloc dn s)) b.

Lemma no_run_weaken n k s : n ≤ k → no_run n s → no_run k s.
Proof. intros Hnk Hn b Hb [Hfit Hf]. apply (Hn b Hb). split; [lia|]. intros x Hx. apply Hf. lia. Qed.

(** Freeing [cnt] blocks, none of them possibly. *)
Lemma free_some_ok s (b : bool) st cnt : frame s → is_u32 st → is_u32 cnt → (b = false → cnt = 0) →
  ∃ s', (if b then free_run E dn st cnt else mret tt) s = Ret (tt, s') ∧ moved (λ _, True) s s' ∧
    ∀ x, extent.taken (the_alloc dn s') x ↔ extent.taken (the_alloc dn s) x ∧ ¬ (st ≤ x < st + cnt).
Proof.
  intros Hf Hst Hc Hb. destruct b; [by apply free_run_ok|]. rewrite Hb by done. exists s.
  split_and!; [done|by apply moved_refl|]. intros x. intuition lia.
Qed.

Lemma place_file_ok s bc o c : frame s → 0 < bc < 4294967296 → old_run o c s →
  ∃ r s', place_file E dn bc o c s = Ret (r, s') ∧ moved (λ _, True) s s' ∧
    match r with Some start => placed o c start bc s s' | None => the_alloc dn s' = the_alloc dn s ∧ no_run bc s end.
Proof.
  intros Hf Hbc Ho. pose proof (od_total _ _ _ _ (fr_dev _ Hf)) as Htot. unfold place_file.
  assert (is_u32 o ∧ is_u32 c) as [Huo Huc] by (unfold old_run, is_u32 in *; lia).
  destruct (negb (o =? 0) && (bc <=? c)) eqn:Hin.
  - destruct (Z.eqb_spec o 0), (Z.leb_spec bc c); try done. destruct Ho as [[? _]|(Ho & Hc & Hoc & Htk)]; [done|].
    destruct (free_some_ok s (bc <? c) (u32 (o + bc)) (c - bc) Hf) as (s' & E1 & Hm & Hb).
    { apply u32_range. } { unfold is_u32 in *; lia. } { intros ?%Z.ltb_ge; lia. }
    rewrite u32_small in E1, Hb by (unfold is_u32; lia). rewrite u32_small by (unfold is_u32; lia).
    exists (Some o), s'. rewrite (bind_eq _ _ s tt s') by done. split_and!; [done|done|]. split; [lia|auto with lia|].
    intros x. rewrite Hb. specialize (Htk x). destruct (decide (o ≤ x < o + c)), (decide (o ≤ x < o + bc)); intuition lia.
  - destruct (alloc_run_ok s bc Hf) as (r & s1 & E1 & Hm & Hans); [lia|]. rewrite (bind_eq _ _ s r s1) by done.
    unfold extent.alloc_answer in Hans. destruct (Z.eqb_spec r extent.NO_BLOCK) as [->|Hr].
    { exists None, s1. destruct Hans as [-> Hno]. done. }
    destruct Hans as (Hr1 & [Hfit Hfree] & _ & Htk1 & _ & _).
    destruct (free_some_ok s1 (0 <? c) o c) as (s2 & E2 & Hm2 & Hb); [apply Hm|done|done| |].
    { intros ?%Z.ltb_ge. unfold is_u32 in *. lia. }
    exists (Some r), s2. rewrite (bind_eq _ _ s1 tt s2) by done. split; [done|].
    split; [eapply moved_weaken; [|by eapply moved_trans]; done|]. split; [lia|intros x Hx; right; by apply Hfree|].
    intros x. rewrite Hb, Htk1. specialize (Hfree x). unfold extent.taken in *.
    destruct Ho as [[-> ->]|(Ho & Hc & Hoc & Htk)]; [intuition lia|]. specialize (Htk x). intuition lia.
Qed.

Record wrote (o c : Z) (l : list Z) (m m' : minimafs_file_metadata) (s s' : fsys) : Prop := {
  wt_meta : ∃ fl, m' = set_blocks (block_offset m') (block_count m') (set_lengths fl (Z.of_nat (length l)) m) ∧
              Z.of_nat (length l) + 5 ≤ fl ≤ Z.of_nat (length (header_text m')) + Z.of_nat (length l) + 5;
  wt_count : 0 < block_count m' ∧ block_count m' * 4096 < 4294967296;
  wt_placed : placed o c (block_offset m') (block_count m') s s';
  wt_moved : moved (λ b, b ≠ 0 ∧ ¬ (block_offset m' ≤ b < block_offset m' + block_count m')) s s';
  wt_blocks : ∃ k, blks dev (store s') (block_offset m') (block_count m') =
                header_text m' ++ l ++ FOOTER ++ replicate k 0
}.

(** Blocks that hold [n] bytes and any header. *)
Definition blocks_wanted (n : Z) : Z := n / 4096 + 3.

(** The file is on disk in its run, or there was no run for it and nothing
    changed. *)
Lemma write_file_ok s m seg1 len1 l1 seg2 len2 l2 :
  frame s → meta_fits m → seg_is seg1 len1 l1 → seg_is seg2 len2 l2 → len1 + len2 < 4294950000 →
  old_run (block_offset m) (block_count m) s →
  ∃ r m' s', minimafs_write_file_to_disk_segments E dn m seg1 len1 seg2 len2 s = Ret ((r, m'), s') ∧
    if r : bool then wrote (block_offset m) (block_count m) (l1 ++ l2) m m' s s'
    else moved (λ _, True) s s' ∧ the_alloc dn s' = the_alloc dn s ∧ no_run (blocks_wanted (len1 + len2)) s.
Proof.
  intros Hf Hm Hs1 Hs2 Hlen Ho. pose proof Hs1 as [El1 _]. pose proof Hs2 as [El2 _].
  unfold minimafs_write_file_to_disk_segments. rewrite u32_small by (unfold is_u32; lia).
  destruct (settle_ok m (len1 + len2) Hm) as (fl & Hset & Hfl); [lia|]. rewrite (bind_lift _ _ s _ Hset).
  pose proof (header_small m fl (len1 + len2) Hm) as Hh. set (m1 := set_lengths _ _ m) in *.
  rewrite u32_small by (unfold is_u32; lia).
  destruct (blocks_for_spec (Z.of_nat (length (header_text m1)) + (len1 + len2) + 5)) as (Hbc & Hbl & Hb4); [lia|].
  set (bc := blocks_for _) in *. cbv zeta.
  destruct (place_file_ok s bc (block_offset m) (block_count m) Hf) as (r & s1 & E1 & Hm1 & Hp); [lia|done|].
  change (block_offset m1) with (block_offset m). change (block_count m1) with (block_count m).
  rewrite (bind_eq _ _ s r s1) by done. destruct r as [start|].
  2:{ exists false, m1, s1. destruct Hp as [Ha Hno]. split_and!; [done..|]. eapply no_run_weaken; [|done].
      unfold blocks_wanted. clearbody bc m1. clear -Hbl Hh. Z.div_mod_to_equations. lia. }
  rewrite (rm_alloc _ HE). cbn [negb andb].
  assert (Z.of_nat (length (contents (header_text m1) l1 l2)) = Z.of_nat (length (header_text m1)) + (len1 + len2) + 5) as Hcl.
  { unfold contents. rewrite !length_app, footer_length. lia. }
  destruct (pl_run _ _ _ _ _ _ Hp) as [Hst Hend]. pose proof (mv_frame _ _ _ Hm1) as Hf1.
  destruct (write_file_loop_ok dn dev (total_of s1) (header_text m1) seg1 len1 l1 seg2 len2 l2) with (E := E) (start := start)
    (bc := bc) (fuel := S (Z.to_nat bc)) (i := 0) (s := s1) as (s2 & E2 & Hw); try done; try lia.
  { rewrite (mv_total _ _ _ Hm1). lia. } { apply Hf1. }
  rewrite (bind_eq _ _ s1 true s2) by done.
  rewrite Z.add_0_r, Z.sub_0_r, Z.mul_0_l in Hw. rewrite image_list in Hw by lia.
  destruct (moved_written _ bc _ _ _ Hf1 ltac:(lia) Hw) as [Hm2 Ha2].
  destruct (refresh_ok s2 (mv_frame _ _ _ Hm2)) as (s3 & E3 & Hm3 & Ha3 & _).
  rewrite (bind_eq _ _ s2 tt s3) by done. exists true, (set_blocks start bc m1), s3. split; [done|].
  split; change (block_offset (set_blocks start bc m1)) with start; change (block_count (set_blocks start bc m1)) with bc; [|done|..].
  - exists fl. change (header_text (set_blocks start bc m1)) with (header_text m1).
    rewrite length_app, Nat2Z.inj_add, <- El1, <- El2. done.
  - destruct Hp as [? ? Ht]. split; try done. intros x. by rewrite Ha3, Ha2.
  - eapply moved_weaken; [|exact (moved_trans _ _ _ _ _ (moved_trans _ _ _ _ _ Hm1 Hm2) Hm3)]. intros x [? ?]. cbv beta. lia.
  - exists (Z.to_nat (bc * 4096 - Z.of_nat (length (contents (header_text m1) l1 l2)))).
    assert (blks dev (store s3) start bc = blks dev (store s2) start bc) as ->.
    { apply (blks_ext_blocks _ _ _ _ _ (λ x, x ≠ 0)); [apply Hm3|lia]. }
    rewrite (written_same _ _ _ _ _ _ Hw).
    + unfold contents at 1. change (header_text (set_blocks start bc m1)) with (header_text m1). by rewrite <- !(assoc_L (++)).
    + lia.
    + rewrite length_app, length_replicate. unfold MINIMAFS_BLOCK_SIZE. lia.
Qed.
End fsvol.
End fsvol.
