(* ===== verification/FsOps.v ===== *)
(** * The file operations keep the volume sound

    Each operation that changes a volume (creating, writing and deleting a
    file, making and removing a directory) on a sound volume: it returns, the
    volume is sound again, its directories changed as the operation says, and
    the blocks it does not own hold what they held. [fs_step] puts the
    operations together: any sequence of them keeps the invariant. *)

From S2P Require Import Prelude CString Time Net Block Extent FsText Fs FsDisk FsFile FsInv FsVol.
Import fstext minimafs fsdisk fsfile fsinv fsvol.

Open Scope c_scope.

Module fsops.

(** ** Paths and folders with room *)

(** [p] names [name] in the folder [parent] of drive [dn]. *)
Definition names (dn : nat) (p local parent name : list Z) : Prop :=
  p = uint_text (Z.of_nat dn) ++ 58 :: local ∧ (dn < MAX_DRIVES)%nat ∧ (length local < MINIMAFS_MAX_PATH)%nat ∧
  minimafs_split_local_path local = Ret (parent, name).

(** Room for one more entry in the folder's block. *)
Definition roomy_folder (d : minimafs_folder_desc) : Prop :=
  (length (path d) + 118 * S (length (entries d)) ≤ 3940)%nat.

Lemma entry_lines_fit l : ∀ b, Forall entry_ok l → (length b + 118 * length l ≤ 3968 + 118)%nat → is_Some (entry_lines b l).
Proof.
  induction l as [|e l IH]; intros b Hl Hb; simpl; [done|]. apply Forall_cons in Hl as [He Hl].
  pose proof (entry_line_length e He). simpl in Hb. unfold MINIMAFS_BLOCK_SIZE.
  rewrite (proj2 (Z.ltb_ge _ _)) by lia. apply IH; [done|]. rewrite length_app. lia.
Qed.

Lemma folder_text_fits d : folder_ok d → (length (path d) + 118 * length (entries d) ≤ 3940)%nat → is_Some (folder_text d).
Proof.
  intros [_ Hes Hcnt] Hlen. unfold folder_text.
  pose proof (uint_text_u32_length (Z.of_nat (length (entries d)))) as Hu.
  rewrite u32_small in Hu by (unfold is_u32, MINIMAFS_MAX_ROOT_ENTRIES in *; lia).
  edestruct entry_lines_fit as [t ->]; [exact Hes| |by eexists].
  rewrite !length_app. txt_lit. unfold NL. simpl length. lia.
Qed.

(** ** The entry of a name *)

Lemma find_entry_some l name i : find_entry l name = Some i → ∃ e, l !! i = Some e ∧ e_name e = name.
Proof.
  revert i. induction l as [|e l IH]; intros i; simpl; [done|]. case_bool_decide.
  - intros [= <-]. eauto.
  - destruct (find_entry l name) as [j|]; simpl; [|done]. intros [= <-]. by apply IH.
Qed.

(** ** Folders after a change *)

Definition plain_name (name : list Z) : Prop := 44 ∉ name ∧ 10 ∉ name ∧ 0 ∉ name.

Lemma not_elem_take (x : Z) k l : x ∉ l → x ∉ take k l.
Proof. intros Hx Hin. apply Hx. rewrite <- (take_drop k l). apply elem_of_app. by left. Qed.

(** The entry of [name] becomes [e]: in its place, or at the end. *)
Definition put_entry (name : list Z) (e : minimafs_dir_entry) (d : minimafs_folder_desc) : minimafs_folder_desc :=
  match find_entry (entries d) name with
  | Some i => set_entries (<[i := e]> (entries d)) d
  | None => set_entries (entries d ++ [e]) d
  end.

(** The run of the file [name], empty when there is none. *)
Definition run_at (name : list Z) (d : minimafs_folder_desc) : Z * Z :=
  match find_entry (entries d) name ≫= λ i, entries d !! i with
  | Some e => (e_block_offset e, e_block_count e)
  | None => (0, 0)
  end.

Lemma alter_as_insert {A} (f : A → A) (l : list A) (i : nat) x : l !! i = Some x → alter f i l = <[i := f x]> l.
Proof. revert i. induction l as [|y l IH]; intros [|i] Hi; simpl in *; simplify_eq; [done|]. change (y :: alter f i l = y :: <[i := f x]> l). f_equal. by apply IH. Qed.

Lemma delete_insert_at {A} (l : list A) (i : nat) x : delete i (<[i := x]> l) = delete i l.
Proof. revert i. induction l as [|y l IH]; intros [|i]; [done..|]. simpl. f_equal. apply IH. Qed.

Definition good_entry (e : minimafs_dir_entry) : Prop :=
  entry_ok e ∧ (is_dir e = true → e_block_count e = 1) ∧ 0 < e_block_count e.

Lemma dir_good_iff d : dir_good d ↔ 10 ∉ path d ∧ 0 ∉ path d ∧ (length (path d) < MINIMAFS_MAX_PATH)%nat ∧ path d ≠ [] ∧
  (length (entries d) ≤ MINIMAFS_MAX_ROOT_ENTRIES)%nat ∧ Forall good_entry (entries d).
Proof.
  unfold good_entry. rewrite Forall_and. split.
  - intros [[(? & ? & ?) ? ?] ? ?]. done.
  - intros (? & ? & ? & ? & ? & ? & ?). split; [by split|done|done].
Qed.

Lemma put_entry_good name e d : dir_good d → good_entry e → roomy_folder d →
  dir_good (put_entry name e d) ∧ is_Some (folder_text (put_entry name e d)).
Proof.
  intros Hd He Hr. unfold roomy_folder in Hr.
  assert (path (put_entry name e d) = path d ∧ (length (entries (put_entry name e d)) ≤ S (length (entries d)))%nat ∧
          Forall good_entry (entries (put_entry name e d))) as (Hp & Hl & Hes).
  { apply dir_good_iff in Hd as (_ & _ & _ & _ & _ & Hes). unfold put_entry. destruct (find_entry _ _) as [i|]; simpl.
    - rewrite length_insert. split_and!; [done|lia|by apply Forall_insert].
    - rewrite length_app. simpl. split_and!; [done|lia|]. apply Forall_app. by rewrite Forall_singleton. }
  assert (dir_good (put_entry name e d)) as Hg.
  { apply dir_good_iff in Hd as (? & ? & ? & ? & ? & _). apply dir_good_iff. rewrite Hp. split_and!; try done.
    unfold MINIMAFS_MAX_ROOT_ENTRIES. lia. }
  split; [done|]. apply folder_text_fits; [apply Hg|]. rewrite Hp. lia.
Qed.

(** A file put into a folder changes no subdirectory, and the runs by the
    file's own. *)
Lemma put_entry_runs name e d : is_dir e = false →
  (∀ i e0, find_entry (entries d) name = Some i → entries d !! i = Some e0 → is_dir e0 = false) →
  ∃ keep, targets (put_entry name e d) ≡ₚ targets d ∧ runs d ≡ₚ seqZ (run_at name d).1 (run_at name d).2 ++ keep ∧
    runs (put_entry name e d) ≡ₚ run_of e ++ keep.
Proof.
  intros He Hold. unfold put_entry, run_at. destruct (find_entry (entries d) name) as [i|] eqn:Hf; simpl.
  - destruct (find_entry_some _ _ _ Hf) as (e0 & Hi & _). rewrite Hi. simpl. specialize (Hold i e0 eq_refl Hi).
    destruct (entries_perm d i e0 Hi) as [Ht Hr]. rewrite Hold in Ht, Hr.
    set (d' := set_entries (<[i:=e]> (entries d)) d). assert (entries d' !! i = Some e) as Hi'.
    { simpl. rewrite list_lookup_insert_eq; [done|]. by eapply lookup_lt_Some. }
    destruct (entries_perm d' i e Hi') as [Ht' Hr']. rewrite He in Ht', Hr'.
    assert (delete i (entries d') = delete i (entries d)) as Hdel.
    { simpl. apply delete_insert_at. }
    assert (set_entries (delete i (entries d')) d' = set_entries (delete i (entries d)) d) as Hsd by (by rewrite Hdel).
    rewrite Hsd in Ht', Hr'. simpl app in Ht, Ht'. exists (runs (set_entries (delete i (entries d)) d)).
    split; [by rewrite Ht, Ht'|]. done.
  - exists (runs d). rewrite targets_app, runs_app, He, app_nil_r. destruct d as [p o l]; unfold set_entries; simpl.
    split; [done|]. split; [done|]. apply Permutation_app_comm.
Qed.

Lemma delete_good d i : dir_good d → roomy_folder d →
  dir_good (set_entries (delete i (entries d)) d) ∧ is_Some (folder_text (set_entries (delete i (entries d)) d)).
Proof.
  intros Hd Hr. unfold roomy_folder in Hr. pose proof Hd as (? & ? & ? & ? & ? & Hes)%dir_good_iff.
  pose proof (sublist_delete (entries d) i) as Hs. pose proof (sublist_length _ _ Hs).
  assert (dir_good (set_entries (delete i (entries d)) d)) as Hg.
  { apply dir_good_iff. simpl. split_and!; try done; [lia|]. by apply Forall_delete. }
  split; [done|]. apply folder_text_fits; [apply Hg|]. simpl. lia.
Qed.

(** ** Paths and the walk *)

Lemma split_inv local parent name : minimafs_split_local_path local = Ret (parent, name) →
  47 ∉ name ∧ (local = parent ++ 47 :: name ∨ parent = [] ∧ local = name).
Proof.
  intros Hs. unfold minimafs_split_local_path in Hs.
  assert (∀ c s, match rchr c s with Some i => s = take i s ++ c :: drop (S i) s ∧ c ∉ drop (S i) s | None => c ∉ s end) as Hr.
  { intros c l. induction l as [|x l IH]; simpl; [apply not_elem_of_nil|]. destruct (rchr c l) as [j|] eqn:Hrc.
    - destruct IH as [IH1 IH2]. simpl. split; [by rewrite <- IH1|done].
    - destruct (Z.eqb_spec x c) as [->|Hx]; simpl; [by rewrite drop_0|]. apply not_elem_of_cons. done. }
  specialize (Hr 47 local). destruct (rchr 47 local) as [i|].
  - destruct (_ || _); [done|]. injection Hs as <- <-. destruct Hr as [Heq Hn]. split; [done|by left].
  - destruct (_ || _); [done|]. injection Hs as <- <-. split; [done|by right].
Qed.

Lemma tokens_word acc s : 47 ∉ s → acc ++ s ≠ [] → tokens acc s = [acc ++ s].
Proof.
  revert acc. induction s as [|c s IH]; intros acc Hs Hne; simpl.
  - rewrite app_nil_r in *. by destruct acc.
  - apply not_elem_of_cons in Hs as [Hc Hs]. rewrite (proj2 (Z.eqb_neq _ _)) by congruence.
    rewrite IH by (done || (intros Hx; apply app_eq_nil in Hx as [Hx _]; apply app_eq_nil in Hx as [_ ?]; done)).
    by rewrite <- (assoc_L (++)).
Qed.

Lemma tokens_snoc acc s name : 47 ∉ name → name ≠ [] → tokens acc (s ++ 47 :: name) = tokens acc s ++ [name].
Proof.
  intros Hn Hne. assert (tokens [] name = [name]) as Hw by (by apply tokens_word). revert acc.
  induction s as [|c s IH]; intros acc; simpl.
  - destruct acc; [done|]. simpl. by rewrite Hw.
  - destruct (c =? 47); [|apply IH]. destruct acc; rewrite IH; done.
Qed.

Lemma walk_dirs_app dirs toks1 toks2 b : walk_dirs dirs b (toks1 ++ toks2) = walk_dirs dirs b toks1 ≫= λ b', walk_dirs dirs b' toks2.
Proof.
  revert b. induction toks1 as [|t toks IH]; intros b; simpl; [done|]. destruct (dirs !! b) as [d|]; simpl; [|done].
  destruct (find_subdir (entries d) t) as [e|]; simpl; [apply IH|done].
Qed.

Lemma folder_block_walk dirs root p : folder_block dirs root p = walk_dirs dirs root (tokens [] p).
Proof.
  unfold folder_block, is_root. destruct (bool_decide_reflect (p = [])) as [->|]; [done|].
  by destruct (bool_decide_reflect (p = [47])) as [->|].
Qed.

(** The folder [parent/name] is the directory [name] of the folder [parent]. *)
Lemma folder_block_name dirs root local parent name : minimafs_split_local_path local = Ret (parent, name) → name ≠ [] →
  folder_block dirs root local =
    b ← folder_block dirs root parent; d ← dirs !! b; e ← find_subdir (entries d) name; Some (e_block_offset e).
Proof.
  intros Hs Hne. apply split_inv in Hs as [Hn [->|[-> ->]]]; rewrite !folder_block_walk.
  - by rewrite tokens_snoc, walk_dirs_app.
  - by rewrite tokens_word.
Qed.

Lemma find_dir_entry l name i e : find_entry l name = Some i → l !! i = Some e → is_dir e = true → find_subdir l name = Some e.
Proof.
  revert i. induction l as [|x l IH]; intros i; simpl; [done|]. case_bool_decide as Hx.
  - intros [= <-]. simpl. intros [= ->] Hd. unfold is_dir in Hd. by rewrite Hd.
  - destruct (find_entry l name) as [j|] eqn:Hf; simpl; [|done]. intros [= <-]. simpl. intros Hi Hd.
    rewrite andb_false_r. by eapply IH.
Qed.

Section ops.
  Context {D : Type} `{BlockDriver D}.
  Abbreviation fsys := (fsys (D := D)).
  Context (E : env) (HE : roomy E) (dn dev : nat).
  Abbreviation total_of s := (extent.total_blocks (the_alloc dn s)).
  Abbreviation root_of := (root_of dn).
  Abbreviation frame := (frame dn dev).
  Abbreviation volume := (volume dn dev).
  Abbreviation moved := (moved dn dev).

Lemma resolve_names_ok p local parent name dirs s : names dn p local parent name → volume dirs s →
  resolve_path p s = Ret (Some (dn, local), s).
Proof.
  intros (-> & Hdn & Hlen & _) Hv. unfold resolve_path. rewrite bind_gets.
  rewrite (bind_lift _ _ s (Some (Z.of_nat dn, local))).
  - unfold get_drive, MAX_DRIVES in *. rewrite (proj2 (Z.leb_gt _ _)) by (unfold MINIMAFS_MAX_DRIVES; lia).
    rewrite bind_gets, Nat2Z.id, (v_mounted _ _ _ _ Hv). done.
  - apply parse_path_number; [|done]. unfold MINIMAFS_MAX_DRIVES, MAX_DRIVES in *. lia.
Qed.

(** ** Putting a changed folder on disk *)

(** The file [m'] was written from the run [o, c) on; now its folder [b] gets
    the descriptor [d']. *)
Lemma store_entry dirs s s1 b d d' t o c l m m' keep :
  volume dirs s → wrote dn dev o c l m m' s s1 → dirs !! b = Some d → dir_good d' → f_block_offset d' = b →
  folder_text d' = Some t → targets d' ≡ₚ targets d → runs d ≡ₚ seqZ o c ++ keep →
  runs d' ≡ₚ seqZ (block_offset m') (block_count m') ++ keep →
  ∃ s', minimafs_write_folder_desc E dn d' s1 = Ret (true, s') ∧ volume (<[b := d']> dirs) s' ∧
    moved (λ x, x ≠ 0 ∧ x ≠ b ∧ ¬ (block_offset m' ≤ x < block_offset m' + block_count m')) s s' ∧
    blks dev (store s') (block_offset m') (block_count m') = blks dev (store s1) (block_offset m') (block_count m').
Proof.
  intros [Hf Hmt Hd Hdisk Htk] [_ Hbc Hp Hm _] Hb Hg Hfb Ht Htg Hr Hr'. set (st := block_offset m') in *. set (bc := block_count m') in *.
  destruct Hp as [Hrun Hfresh Htaken]. destruct (dirs_ok_block _ _ _ _ _ Hd Hb) as (Hbo & Hb0 & Hbr).
  pose proof (do_range _ _ _ Hd _ Hbo) as Hbrange.
  assert (∀ x, x ∈ seqZ o c → x ∈ over_dirs runs dirs) as Hold.
  { intros x Hx. apply elem_over_dirs. exists b, d. split; [done|]. rewrite Hr. apply elem_of_app. by left. }
  assert (∀ x, st ≤ x < st + bc → x ∈ owned (root_of s) dirs → x ∈ seqZ o c) as Hnew.
  { intros x Hx Hox. destruct (Hfresh x Hx) as [?|Hn]; [by apply elem_of_seqZ|]. by destruct Hn; apply Htk. }
  destruct (dirs_ok_update _ _ _ b d d' (seqZ o c) (seqZ st bc) keep Hd Hb Hg Hfb Htg Hr Hr') as [Hok' Hmem].
  { apply NoDup_seqZ. } { intros x Hx%elem_of_seqZ. split; [lia|by apply Hnew]. }
  destruct (write_folder_ok E dn dev s1 d' t) as (s' & Hw & Hm' & Ha & Hparse).
  { apply Hm. } { apply Hg. } { done. } { rewrite Hfb, (mv_total _ _ _ _ _ Hm). lia. }
  assert (∀ b' d0, dirs !! b' = Some d0 → ¬ (st ≤ b' < st + bc)) as Hdirs.
  { intros b' d0 Hb' Hx. destruct (dirs_ok_block _ _ _ _ _ Hd Hb') as (Ho & _ & Hnr). by apply Hnr, Hold, Hnew. }
  exists s'. pose proof (moved_trans _ _ _ _ _ _ _ Hm Hm') as Hmm. split; [done|]. split; [split|split].
  - apply Hm'.
  - by rewrite (mv_mounted _ _ _ _ _ Hmm).
  - rewrite (mv_root _ _ _ _ _ Hmm), (mv_total _ _ _ _ _ Hmm). done.
  - intros b' d0. destruct (decide (b = b')) as [<-|Hne].
    + rewrite lookup_insert_eq. intros [= <-]. by rewrite <- Hfb.
    + rewrite lookup_insert_ne by done. intros Hb'. rewrite (mv_keep _ _ _ _ _ Hmm); [by apply Hdisk|].
      rewrite Hfb. destruct (dirs_ok_block _ _ _ _ _ Hd Hb') as (_ & H0 & _). split_and!; try done. by eapply Hdirs.
  - intros x. rewrite (mv_root _ _ _ _ _ Hmm), Hmem, Ha, Htaken, !elem_of_seqZ. intros [?|[Hx Hno]]; [by right|].
    left. split; [by apply Htk|done].
  - eapply moved_weaken; [|done]. rewrite Hfb. intros x (? & ? & ?). done.
  - eapply blks_ext_blocks; [apply Hm'|]. intros x Hx ->. rewrite Hfb in Hx. by eapply Hdirs.
Qed.
(** ** Files *)

(** The blocks of [e] hold the file: header, data, footer, zeros. *)
Definition stored (e : minimafs_dir_entry) (m : minimafs_file_metadata) (l : list Z) (s : fsys) : Prop :=
  ∃ k, blks dev (store s) (e_block_offset e) (e_block_count e) = header_text m ++ l ++ FOOTER ++ replicate k 0.

(** What putting the file [name] with data [l] and metadata [m] into the
    folder [d] did. *)
Record file_put (dirs : dirmap) (d : minimafs_folder_desc) (name : list Z) (m0 : minimafs_file_metadata) (l : list Z)
    (e : minimafs_dir_entry) (m : minimafs_file_metadata) (s s' : fsys) : Prop := {
  fp_entry : is_dir e = false ∧ e_hidden e = hidden m;
  fp_count : 0 < e_block_count e ∧ e_block_count e * 4096 < 4294967296;
  fp_meta : ∃ fl, m = set_blocks (e_block_offset e) (e_block_count e) (set_lengths fl (Z.of_nat (length l)) m0) ∧
              Z.of_nat (length l) + 5 ≤ fl ≤ Z.of_nat (length (header_text m)) + Z.of_nat (length l) + 5;
  fp_volume : volume (<[f_block_offset d := put_entry name e d]> dirs) s';
  fp_stored : stored e m l s';
  fp_moved : moved (λ x, x ∈ owned (root_of s) dirs ∧ x ≠ 0 ∧ x ≠ f_block_offset d ∧
                         ¬ (run_at name d).1 ≤ x < (run_at name d).1 + (run_at name d).2) s s'
}.

Lemma volume_idle dirs s s' : volume dirs s → moved (λ _, True) s s' → the_alloc dn s' = the_alloc dn s → volume dirs s'.
Proof.
  intros [Hf Hmt Hd Hdisk Htk] Hm Ha. split; [apply Hm|by rewrite (mv_mounted _ _ _ _ _ Hm)|by rewrite (mv_root _ _ _ _ _ Hm), (mv_total _ _ _ _ _ Hm)|..].
  - intros b d Hb. rewrite (mv_keep _ _ _ _ _ Hm) by done. by apply Hdisk.
  - intros x. rewrite (mv_root _ _ _ _ _ Hm), Ha. apply Htk.
Qed.

Lemma run_at_old dirs s b d name : volume dirs s → dirs !! b = Some d →
  (∀ i e, find_entry (entries d) name = Some i → entries d !! i = Some e → is_dir e = false) →
  old_run dn (run_at name d).1 (run_at name d).2 s.
Proof.
  intros Hv Hb Hold. pose proof (v_dirs _ _ _ _ Hv) as Hok. unfold run_at. destruct (find_entry (entries d) name) as [i|] eqn:Hf; simpl; [|by left].
  destruct (find_entry_some _ _ _ Hf) as (e & Hi & _). rewrite Hi. simpl. specialize (Hold i e eq_refl Hi).
  assert (0 < e_block_count e) as Hc.
  { destruct (do_good _ _ _ Hok b d Hb) as [Hg _]. destruct (proj1 (Forall_lookup _ _) (dg_entries _ Hg) i e Hi). done. }
  assert (∀ x, e_block_offset e ≤ x < e_block_offset e + e_block_count e → x ∈ over_dirs runs dirs) as Hrun.
  { intros x Hx. apply elem_over_dirs. exists b, d. split; [done|]. unfold runs. apply list_elem_of_bind. exists e.
    split; [by apply elem_of_seqZ|]. apply list_elem_of_filter. split; [done|]. by eapply list_elem_of_lookup_2. }
  assert (∀ x, x ∈ over_dirs runs dirs → x ∈ owned (root_of s) dirs ∧ x ≠ 0) as Hown.
  { intros x Hx. split; [do 2 right; apply elem_of_app; by right|]. pose proof (do_nodup _ _ _ Hok) as [H0 _]%NoDup_cons.
    intros ->. apply H0. right. apply elem_of_app. by right. }
  right. assert (∀ x, e_block_offset e ≤ x < e_block_offset e + e_block_count e → 0 < x < total_of s ∧ extent.taken (the_alloc dn s) x) as Hx.
  { intros x Hx. destruct (Hown x (Hrun x Hx)) as [Ho H0]. pose proof (do_range _ _ _ Hok x Ho). split; [lia|by apply (v_taken _ _ _ _ Hv)]. }
  destruct (Hx (e_block_offset e)) as [? _]; [lia|]. destruct (Hx (e_block_offset e + e_block_count e - 1)) as [? _]; [lia|].
  split_and!; [lia..|]. intros x Hxr. by apply Hx.
Qed.

(** Writing the blocks and then the folder. *)
Lemma put_file dirs s b d name m seg1 len1 l1 seg2 len2 l2 :
  volume dirs s → dirs !! b = Some d → roomy_folder d →
  (∀ i e, find_entry (entries d) name = Some i → entries d !! i = Some e → is_dir e = false) →
  meta_fits m → run_at name d = (block_offset m, block_count m) →
  seg_is seg1 len1 l1 → seg_is seg2 len2 l2 → len1 + len2 < 4294950000 →
  ∃ r m' s1, minimafs_write_file_to_disk_segments E dn m seg1 len1 seg2 len2 s = Ret ((r, m'), s1) ∧
    if r : bool then
      ∀ nm ty, plain_name nm → (length nm < 64)%nat → ty = MINIMAFS_TYPE_FILE →
      let e := mk_entry nm ty (block_offset m') (block_count m') (hidden m') in
      ∃ s', minimafs_write_folder_desc E dn (put_entry name e d) s1 = Ret (true, s') ∧
            file_put dirs d name m (l1 ++ l2) e m' s s'
    else volume dirs s1 ∧ moved (λ _, True) s s1 ∧ no_run dn (blocks_wanted (Z.of_nat (length (l1 ++ l2)))) s.
Proof.
  intros Hv Hb Hroom Hold Hm Hrun Hs1 Hs2 Hlen. pose proof (run_at_old _ _ _ _ _ Hv Hb Hold) as Ho.
  rewrite Hrun in Ho. simpl in Ho.
  destruct (write_file_ok E HE dn dev s m seg1 len1 l1 seg2 len2 l2) as (r & m' & s1 & E1 & Hr); [apply Hv|done..|].
  exists r, m', s1. split; [done|]. destruct r.
  2:{ destruct Hr as (? & Ha & Hno). split; [by eapply volume_idle|]. destruct Hs1 as [-> _], Hs2 as [-> _].
      by rewrite length_app, Nat2Z.inj_add. }
  intros nm ty Hnm Hnl -> e. pose proof Hr as [(fl & Hmeta & Hfl) Hc Hp Hmv (k & Hblks)].
  pose proof (od_total _ _ _ _ (fr_dev _ _ _ (v_frame _ _ _ _ Hv))) as Htot. pose proof (pl_run _ _ _ _ _ _ _ Hp) as Hpr.
  assert (good_entry e) as He.
  { destruct Hnm as (? & ? & ?). split; [split; simpl; unfold is_u32; [done|by left|lia]|]. split; [done|]. simpl. lia. }
  destruct (do_good _ _ _ (v_dirs _ _ _ _ Hv) b d Hb) as [Hg Hfb].
  destruct (put_entry_good name e d Hg He Hroom) as [Hg' [t Ht]].
  destruct (put_entry_runs name e d) as (keep & Htg & Hk & Hk'); [done|done|]. rewrite Hrun in Hk.
  destruct (store_entry dirs s s1 b d (put_entry name e d) t _ _ _ _ _ keep Hv Hr Hb Hg') as (s' & Hw & Hv' & Hm' & Hbk); try done.
  { unfold put_entry. by destruct (find_entry _ _). }
  exists s'. split; [done|]. split.
  - done.
  - exact Hc.
  - exists fl. done.
  - by rewrite Hfb.
  - exists k. simpl. by rewrite Hbk, Hblks.
  - eapply moved_weaken; [|done]. rewrite Hfb, Hrun. simpl. intros x (Hx & H0 & Hxb & Hno). split_and!; [done..|].
    intros Hin. destruct (pl_fresh _ _ _ _ _ _ _ Hp x Hin) as [?|Hn]; [by apply Hno|]. by apply Hn, (v_taken _ _ _ _ Hv).
Qed.
Definition file_named (name : list Z) (d : minimafs_folder_desc) : Prop :=
  ∀ i e, find_entry (entries d) name = Some i → entries d !! i = Some e → is_dir e = false.

(** The metadata [minimafs_write_file_segments] starts from. *)
Definition seg_meta (name ft ff parent : list Z) (d : minimafs_folder_desc) : minimafs_file_metadata :=
  let m := new_meta E name ft ff parent in
  match find_entry (entries d) name ≫= λ i, entries d !! i with
  | Some e => mk_meta (filename m) (filetype m) (fileformat m) 0 0 (created_date m) (last_changed m)
                (parent_folder m) false 0 [] (e_hidden e) (e_block_offset e) (e_block_count e)
  | None => m
  end.

Lemma now_small : (length (now E) < 32)%nat.
Proof. destruct (rm_now _ HE) as [(_ & _ & ?) _]. done. Qed.

Lemma new_meta_fits name ft ff parent : meta_fits (new_meta E name ft ff parent).
Proof.
  pose proof now_small. split; [done|]. unfold header_capacity, new_meta. simpl filetype. simpl fileformat. simpl filename.
  simpl created_date. simpl last_changed. simpl parent_folder. simpl run_with. rewrite !length_take. simpl length. lia.
Qed.

Lemma seg_meta_fits name ft ff parent d : meta_fits (seg_meta name ft ff parent d).
Proof.
  unfold seg_meta. destruct (_ ≫= _); [|apply new_meta_fits]. destruct (new_meta_fits name ft ff parent) as [_ Hc].
  split; [done|]. exact Hc.
Qed.

Lemma seg_meta_run name ft ff parent d : run_at name d = (block_offset (seg_meta name ft ff parent d), block_count (seg_meta name ft ff parent d)).
Proof. unfold seg_meta, run_at. by destruct (_ ≫= _). Qed.

(** What a file operation that succeeds or does nothing leaves. *)
Definition put_or_not (dirs : dirmap) (d : minimafs_folder_desc) (name : list Z) (m0 : minimafs_file_metadata)
    (l : list Z) (s : fsys) (r : bool) (s' : fsys) : Prop :=
  if r then ∃ e m, e_name e = take 63 name ∧ file_put dirs d name m0 l e m s s'
  else volume dirs s' ∧ moved (λ _, True) s s' ∧ no_run dn (blocks_wanted (Z.of_nat (length l))) s.

Lemma roomy_count d : roomy_folder d → (length (entries d) < 64)%nat.
Proof. unfold roomy_folder. lia. Qed.

(** The common beginning: the path is split and the parent folder read. *)
Lemma open_parent {A} (k : minimafs_folder_desc → fsM A) (no : A) dirs s parent d :
  volume dirs s → folder_at dirs (root_of s) parent = Some d →
  (pd ← minimafs_read_folder_desc E dn parent; match pd with None => mret no | Some pd => k pd end) s = k d s.
Proof. intros Hv Hd. rewrite (bind_eq _ _ s (Some d) s); [done|]. rewrite <- Hd. eapply read_folder_ok; done. Qed.

Lemma write_segments_ok dirs s p local parent name d seg1 len1 l1 seg2 len2 l2 ft ff :
  volume dirs s → names dn p local parent name → folder_at dirs (root_of s) parent = Some d → roomy_folder d →
  plain_name name → file_named name d → seg_is seg1 len1 l1 → seg_is seg2 len2 l2 → len1 + len2 < 4294950000 →
  ∃ r s', minimafs_write_file_segments E p seg1 len1 seg2 len2 ft ff s = Ret (r, s') ∧
    put_or_not dirs d name (seg_meta name (default (txt "binary") ft) (default (txt "bin") ff) parent d) (l1 ++ l2) s r s'.
Proof.
  intros Hv Hn Hd Hroom Hpn Hfile Hs1 Hs2 Hlen. pose proof Hn as (_ & _ & _ & Hsplit).
  destruct (folder_at_some _ _ _ _ _ _ Hv Hd) as (b & Hb & Hfb & Hg & Hbr).
  unfold minimafs_write_file_segments. rewrite (bind_eq _ _ s _ s) by (by eapply resolve_names_ok). cbv beta iota.
  rewrite (bind_lift _ _ s (parent, name)) by done. erewrite open_parent by done. cbv zeta.
  set (m0 := seg_meta _ _ _ _ _).
  destruct (put_file dirs s b d name m0 seg1 len1 l1 seg2 len2 l2) as (r & m' & s1 & E1 & Hr); try done.
  { apply seg_meta_fits. } { apply seg_meta_run. }
  destruct (find_entry (entries d) name) as [i|] eqn:Hf.
  - destruct (find_entry_some _ _ _ Hf) as (e0 & Hi & Hname). pose proof (Hfile i e0 Hf Hi) as Hnd.
    assert ((Some i ≫= λ i, e ← entries d !! i; Some (i, e)) = Some (i, e0)) as -> by (simpl; by rewrite Hi).
    cbv beta iota. unfold is_dir in Hnd. rewrite Hnd.
    assert (mk_meta _ _ _ _ _ _ _ _ _ _ _ _ _ _ = m0) as ->.
    { unfold m0, seg_meta. rewrite Hf. cbn [mbind option_bind]. rewrite Hi. done. }
    rewrite (bind_eq _ _ s _ _ E1). cbv beta iota. destruct r; cbn [negb]; [|by exists false, s1].
    destruct (proj1 (Forall_lookup _ _) (ok_entries _ (dg_ok _ Hg)) i e0 Hi) as [(? & ? & ? & Hl) Hty _].
    destruct (Hr (e_name e0) (e_type e0)) as (s' & Hw & Hput); [done|done|by destruct Hty as [?|Hty]; [|rewrite Hty in Hnd]|].
    rewrite (alter_as_insert _ _ _ _ Hi). unfold put_entry in Hw. rewrite Hf in Hw.
    exists true, s'. split; [exact Hw|]. eexists _, m'. split; [|exact Hput]. simpl. rewrite <- Hname.
    rewrite take_ge; [done|]. unfold MINIMAFS_MAX_ENTRY_NAME in Hl. lia.
  - cbn [mbind option_bind]. assert (new_meta E name (default (txt "binary") ft) (default (txt "bin") ff) parent = m0) as ->.
    { unfold m0, seg_meta. by rewrite Hf. }
    rewrite (bind_eq _ _ s _ _ E1). cbv beta iota. destruct r; cbn [negb]; [|by exists false, s1].
    pose proof (roomy_count _ Hroom). rewrite (proj2 (Nat.leb_gt _ _)) by (unfold MINIMAFS_MAX_ROOT_ENTRIES; lia).
    destruct (Hr (take 63 name) MINIMAFS_TYPE_FILE) as (s' & Hw & Hput).
    { destruct Hpn as (? & ? & ?). split_and!; by apply not_elem_take. } { rewrite length_take. lia. } { done. }
    unfold put_entry in Hw. rewrite Hf in Hw. exists true, s'. split; [exact Hw|]. eexists _, m'. split; [|exact Hput]. done.
Qed.

Lemma create_ok dirs s p local parent name d ft ff :
  volume dirs s → names dn p local parent name → folder_at dirs (root_of s) parent = Some d → roomy_folder d →
  plain_name name → find_entry (entries d) name = None →
  ∃ r s', minimafs_create_file E p ft ff s = Ret (r, s') ∧
    put_or_not dirs d name (new_meta E name ft ff parent) [] s r s'.
Proof.
  intros Hv Hn Hd Hroom Hpn Hf. pose proof Hn as (_ & _ & _ & Hsplit).
  destruct (folder_at_some _ _ _ _ _ _ Hv Hd) as (b & Hb & Hfb & Hg & Hbr).
  unfold minimafs_create_file. rewrite (rm_alloc _ HE). cbn [negb].
  rewrite (bind_eq _ _ s _ s) by (by eapply resolve_names_ok). cbv beta iota.
  rewrite (bind_lift _ _ s (parent, name)) by done. erewrite open_parent by done. cbv zeta. rewrite Hf.
  pose proof (roomy_count _ Hroom). rewrite (proj2 (Nat.leb_gt _ _)) by (unfold MINIMAFS_MAX_ROOT_ENTRIES; lia).
  destruct (put_file dirs s b d name (new_meta E name ft ff parent) None 0 [] None 0 []) as (r & m' & s1 & E1 & Hr); try done.
  { intros i e Hi. by rewrite Hf in Hi. } { apply new_meta_fits. } { unfold run_at. by rewrite Hf. }
  { split; [done|by right]. } { split; [done|by right]. }
  unfold minimafs_write_file_to_disk. rewrite (bind_eq _ _ s _ _ E1). cbv beta iota. destruct r; cbn [negb]; [|by exists false, s1].
  destruct (Hr (take 63 name) MINIMAFS_TYPE_FILE) as (s' & Hw & Hput).
  { destruct Hpn as (? & ? & ?). split_and!; by apply not_elem_take. } { rewrite length_take. lia. } { done. }
  unfold put_entry in Hw. rewrite Hf in Hw.
  assert (hidden m' = false) as Hh.
  { destruct Hput as [_ _ (fl & -> & _) _ _ _]. done. }
  rewrite Hh in Hw. exists true, s'. split; [exact Hw|]. eexists _, m'. split; [|exact Hput]. done.
Qed.
(** ** Deleting a file *)

Record file_gone (dirs : dirmap) (d : minimafs_folder_desc) (i : nat) (e : minimafs_dir_entry) (s s' : fsys) : Prop := {
  fg_volume : volume (<[f_block_offset d := set_entries (delete i (entries d)) d]> dirs) s';
  fg_free : ∀ x, extent.taken (the_alloc dn s') x ↔ extent.taken (the_alloc dn s) x ∧ x ∉ run_of e;
  fg_moved : moved (λ x, x ≠ 0 ∧ x ≠ f_block_offset d) s s'
}.

Lemma volume_intro dirs s s' dirs' (keep : Z → Prop) : volume dirs s → moved keep s s' →
  dirs_ok (root_of s) (total_of s) dirs' → on_disk dev dirs' s' →
  (∀ x, x ∈ owned (root_of s) dirs' → extent.taken (the_alloc dn s') x) → volume dirs' s'.
Proof.
  intros Hv Hm Hok Hdisk Htk. split; [apply Hm|rewrite (mv_mounted _ _ _ _ _ Hm); apply Hv| |done|].
  - by rewrite (mv_root _ _ _ _ _ Hm), (mv_total _ _ _ _ _ Hm).
  - by rewrite (mv_root _ _ _ _ _ Hm).
Qed.

(** The directories that did not change are still on disk. *)
Lemma on_disk_insert dirs s s' b d (keep : Z → Prop) : volume dirs s → moved keep s s' →
  (∀ x d', dirs !! x = Some d' → x ≠ b → keep x) →
  parse_folder_desc b (blks dev (store s') b 1) = Ret d → on_disk dev (<[b := d]> dirs) s'.
Proof.
  intros Hv Hm Hk Hp b' d'. destruct (decide (b = b')) as [<-|Hne].
  - rewrite lookup_insert_eq. by intros [= <-].
  - rewrite lookup_insert_ne by done. intros Hb'. rewrite (mv_keep _ _ _ _ _ Hm); [by apply (v_disk _ _ _ _ Hv)|].
    by eapply Hk.
Qed.

Lemma dir_not_zero dirs s b d : volume dirs s → dirs !! b = Some d → b ≠ 0.
Proof. intros Hv Hb. by destruct (dirs_ok_block _ _ _ _ _ (v_dirs _ _ _ _ Hv) Hb) as (_ & ? & _). Qed.

Lemma delete_ok dirs s p local parent name d i e :
  volume dirs s → names dn p local parent name → folder_at dirs (root_of s) parent = Some d → roomy_folder d →
  find_entry (entries d) name = Some i → entries d !! i = Some e → is_dir e = false →
  ∃ s', minimafs_delete_file E p s = Ret (true, s') ∧ file_gone dirs d i e s s'.
Proof.
  intros Hv Hn Hd Hroom Hf Hi Hnd. pose proof Hn as (_ & _ & _ & Hsplit).
  destruct (folder_at_some _ _ _ _ _ _ Hv Hd) as (b & Hb & Hfb & Hg & Hbr).
  destruct (delete_good d i Hg Hroom) as [Hg' [t Ht]]. set (d' := set_entries _ d) in *.
  destruct (proj1 (Forall_lookup _ _) (dg_entries _ Hg) i e Hi) as [_ Hc].
  destruct (ok_blocks _ (proj1 (Forall_lookup _ _) (ok_entries _ (dg_ok _ Hg)) i e Hi)) as [Huo Huc].
  unfold minimafs_delete_file. rewrite (bind_eq _ _ s _ s) by (by eapply resolve_names_ok). cbv beta iota.
  rewrite (bind_lift _ _ s (parent, name)) by done. erewrite open_parent by done. rewrite Hf, Hi. cbv beta iota.
  unfold is_dir in Hnd. rewrite Hnd. rewrite (proj2 (Z.ltb_lt _ _)) by done.
  destruct (free_run_ok E HE dn dev s _ _ (v_frame _ _ _ _ Hv) Huo Huc) as (s1 & E1 & Hm1 & Htk1).
  rewrite (bind_eq _ _ s tt s1) by done.
  destruct (refresh_ok E HE dn dev s1) as (s2 & E2 & Hm2 & Ha2 & _); [apply Hm1|]. rewrite (bind_eq _ _ s1 tt s2) by done.
  pose proof (moved_trans _ _ _ _ _ _ _ Hm1 Hm2) as Hm12.
  destruct (write_folder_ok E dn dev s2 d' t) as (s3 & E3 & Hm3 & Ha3 & Hp3); [apply Hm2|apply Hg'|done| |].
  { simpl. rewrite Hfb, (mv_total _ _ _ _ _ Hm12). lia. }
  exists s3. split; [exact E3|]. change (f_block_offset d') with (f_block_offset d) in *. rewrite Hfb in *.
  pose proof (moved_trans _ _ _ _ _ _ _ Hm12 Hm3) as Hm.
  assert (∀ x, extent.taken (the_alloc dn s3) x ↔ extent.taken (the_alloc dn s) x ∧ x ∉ run_of e) as Htk.
  { intros x. rewrite Ha3, Ha2, Htk1. unfold run_of. by rewrite elem_of_seqZ. }
  destruct (entries_perm d i e Hi) as [Htp Hrp]. unfold is_dir in Htp, Hrp. rewrite Hnd in Htp, Hrp. simpl app in Htp.
  destruct (dirs_ok_update _ _ _ b d d' (run_of e) [] (runs d') (v_dirs _ _ _ _ Hv) Hb Hg') as [Hok' Hmem]; try done.
  { by apply NoDup_nil_2. } { by intros x ?%elem_of_nil. }
  split; rewrite ?Hfb; [|done|by eapply moved_weaken; [|done]; intros x []].
  eapply volume_intro; [done..| |].
  - eapply on_disk_insert; [done..| |done]. intros x d0 Hx Hxb. split; [split; [done|by eapply dir_not_zero]|done].
  - intros x [?%elem_of_nil|[Hx Hxr]]%Hmem; [done|]. apply Htk. split; [by apply (v_taken _ _ _ _ Hv)|done].
Qed.

(** ** Making a directory *)

(** An empty directory's descriptor. *)
Lemma new_folder_good local b : 10 ∉ local → 0 ∉ local → (length local < MINIMAFS_MAX_PATH)%nat → local ≠ [] →
  dir_good (mk_folder local b []) ∧ is_Some (folder_text (mk_folder local b [])).
Proof.
  intros H1 H2 H3 H4. assert (dir_good (mk_folder local b [])) as Hg.
  { apply dir_good_iff. simpl. split_and!; try done. unfold MINIMAFS_MAX_ROOT_ENTRIES. lia. }
  split; [done|]. apply folder_text_fits; [apply Hg|]. simpl. unfold MINIMAFS_MAX_PATH in *. lia.
Qed.

Definition dir_entry (name : list Z) (b : Z) : minimafs_dir_entry := mk_entry name MINIMAFS_TYPE_DIR b 1 false.

Record dir_made (dirs : dirmap) (d : minimafs_folder_desc) (local name : list Z) (nb : Z) (s s' : fsys) : Prop := {
  dm_fresh : nb ∉ owned (root_of s) dirs;
  dm_volume : volume (<[nb := mk_folder local nb []]>
                (<[f_block_offset d := set_entries (entries d ++ [dir_entry name nb]) d]> dirs)) s';
  dm_moved : moved (λ x, x ≠ 0 ∧ x ≠ f_block_offset d ∧ x ≠ nb) s s'
}.

Lemma not_is_root (p : list Z) : p ≠ [] → p ≠ [47] → is_root p = false.
Proof. intros. unfold is_root. by rewrite !bool_decide_eq_false_2. Qed.

Lemma mkdir_ok dirs s p local parent name d :
  volume dirs s → names dn p local parent name → folder_at dirs (root_of s) parent = Some d → roomy_folder d →
  plain_name name → (length name < 64)%nat → name ≠ [] → 10 ∉ local → 0 ∉ local → find_entry (entries d) name = None →
  ∃ r s', minimafs_mkdir E p s = Ret (r, s') ∧
    if r : bool then ∃ nb, dir_made dirs d local name nb s s' else volume dirs s' ∧ moved (λ _, True) s s' ∧ no_run dn 1 s.
Proof.
  intros Hv Hn Hd Hroom Hpn Hnl Hne H10 H0 Hf. pose proof Hn as (_ & _ & Hll & Hsplit).
  assert (local ≠ [] ∧ local ≠ [47]) as [Hl1 Hl2].
  { destruct (split_inv _ _ _ Hsplit) as [Hn47 [->|[_ ->]]].
    - split; [intros Hx; apply app_eq_nil in Hx as [_ ?]; done|]. destruct parent as [|c [|]]; simpl; [|done..].
      intros [= Hx]. done.
    - split; [done|]. intros ->. apply Hn47. by left. }
  destruct (folder_at_some _ _ _ _ _ _ Hv Hd) as (b & Hb & Hfb & Hg & Hbr).
  unfold minimafs_mkdir. rewrite (bind_eq _ _ s _ s) by (by eapply resolve_names_ok). cbv beta iota.
  rewrite not_is_root by done. rewrite (bind_lift _ _ s (parent, name)) by done. cbv beta iota.
  rewrite bool_decide_eq_false_2 by done. erewrite open_parent by done. rewrite Hf.
  destruct (alloc_run_ok E HE dn dev s 1 (v_frame _ _ _ _ Hv)) as (nb & s1 & E1 & Hm1 & Hans); [lia|].
  rewrite (bind_eq _ _ s nb s1) by done. unfold extent.alloc_answer in Hans.
  destruct (Z.eqb_spec nb extent.NO_BLOCK) as [->|Hnb].
  { exists false, s1. destruct Hans as [Ha Hno]. split; [done|]. split; [by eapply volume_idle|done]. }
  destruct Hans as (Hnb1 & [Hnbt Hnbf] & _ & Htk1 & _ & _). pose proof (roomy_count _ Hroom).
  rewrite (proj2 (Nat.leb_gt _ _)) by (unfold MINIMAFS_MAX_ROOT_ENTRIES; lia).
  rewrite (proj2 (Nat.leb_gt _ _)) by (unfold MINIMAFS_MAX_ENTRY_NAME; lia).
  pose proof (od_total _ _ _ _ (fr_dev _ _ _ (v_frame _ _ _ _ Hv))) as Htot.
  assert (nb ∉ owned (root_of s) dirs) as Hfresh.
  { intros Hin. apply (Hnbf nb); [lia|]. by apply (v_taken _ _ _ _ Hv). }
  assert (b ≠ nb) as Hbn by (intros ->; by apply Hfresh, (dirs_ok_block _ _ _ _ _ (v_dirs _ _ _ _ Hv) Hb)).
  assert (good_entry (dir_entry name nb)) as He.
  { destruct Hpn as (? & ? & ?). split; [split; simpl; unfold is_u32; [done|by right|lia]|]. split; [done|]. simpl. lia. }
  destruct (put_entry_good name _ d Hg He Hroom) as [Hg' [t Ht]]. unfold put_entry in Hg', Ht. rewrite Hf in Hg', Ht.
  destruct (new_folder_good local nb) as [Hgn [tn Htn]]; [done..|].
  destruct (write_folder_ok E dn dev s1 (set_entries (entries d ++ [dir_entry name nb]) d) t) as (s2 & E2 & Hm2 & Ha2 & Hp2);
    [apply Hm1|apply Hg'|done| |].
  { simpl. rewrite Hfb, (mv_total _ _ _ _ _ Hm1). lia. }
  rewrite (bind_eq _ _ s1 true s2) by done. cbn [negb].
  pose proof (moved_trans _ _ _ _ _ _ _ Hm1 Hm2) as Hm12.
  destruct (write_folder_ok E dn dev s2 (mk_folder local nb []) tn) as (s3 & E3 & Hm3 & Ha3 & Hp3); [apply Hm2|apply Hgn|done| |].
  { simpl. rewrite (mv_total _ _ _ _ _ Hm12). lia. }
  rewrite (bind_eq _ _ s2 true s3) by done. cbn [negb]. simpl f_block_offset in Hm3, Hp3.
  change (f_block_offset (set_entries _ d)) with (f_block_offset d) in Hm2, Hp2, Hm12.
  destruct (refresh_ok E HE dn dev s3) as (s4 & E4 & Hm4 & Ha4 & _); [apply Hm3|].
  rewrite (bind_eq _ _ s3 tt s4) by done. exists true, s4. split; [done|]. exists nb.
  pose proof (moved_trans _ _ _ _ _ _ _ (moved_trans _ _ _ _ _ _ _ Hm12 Hm3) Hm4) as Hm. rewrite Hfb in *.
  destruct (dirs_ok_mkdir _ _ _ b d (dir_entry name nb) (mk_folder local nb []) (v_dirs _ _ _ _ Hv) Hb) as [Hok' Hmem];
    try done; [simpl; lia|].
  split; rewrite ?Hfb; [done| |refine (moved_weaken _ _ _ _ _ _ _ Hm); intros x (? & ? & ?); tauto].
  eapply volume_intro; [done..| |].
  - intros b' d0. simpl e_block_offset. destruct (decide (nb = b')) as [<-|Hn1].
    + rewrite lookup_insert_eq. intros [= <-]. rewrite (mv_keep _ _ _ _ _ Hm4) by lia. done.
    + rewrite lookup_insert_ne by done. destruct (decide (b = b')) as [<-|Hn2].
      * rewrite lookup_insert_eq. intros [= <-]. rewrite (mv_keep _ _ _ _ _ Hm4) by (by eapply dir_not_zero).
        rewrite (mv_keep _ _ _ _ _ Hm3) by done. done.
      * rewrite lookup_insert_ne by done. intros Hb'. rewrite (mv_keep _ _ _ _ _ Hm); [by apply (v_disk _ _ _ _ Hv)|].
        pose proof (dir_not_zero _ _ _ _ Hv Hb'). cbv beta. split_and!; try done; congruence.
  - intros x [->|Hx]%Hmem; rewrite Ha4, Ha3, Ha2, Htk1; [right; simpl; lia|]. left. by apply (v_taken _ _ _ _ Hv).
Qed.
(** ** Removing a directory *)

Record dir_removed (dirs : dirmap) (d : minimafs_folder_desc) (i : nat) (nb : Z) (s s' : fsys) : Prop := {
  dr_volume : volume (delete nb (<[f_block_offset d := set_entries (delete i (entries d)) d]> dirs)) s';
  dr_free : ∀ x, extent.taken (the_alloc dn s') x ↔ extent.taken (the_alloc dn s) x ∧ x ≠ nb;
  dr_moved : moved (λ x, x ≠ 0 ∧ x ≠ f_block_offset d) s s'
}.

Lemma names_root dn' p local parent name : names dn' p local parent name → name ≠ [] → is_root local = false.
Proof.
  intros (_ & _ & _ & Hs) Hne. destruct (split_inv _ _ _ Hs) as [Hn [->|[_ ->]]]; apply not_is_root.
  - intros Hx. apply app_eq_nil in Hx as [_ ?]. done.
  - destruct parent as [|c [|]]; simpl; [|done..]. intros [= Hx]. done.
  - done.
  - intros ->. apply Hn. by left.
Qed.

Lemma rmdir_ok dirs s p local parent name d i e nd :
  volume dirs s → names dn p local parent name → folder_at dirs (root_of s) parent = Some d → roomy_folder d →
  find_entry (entries d) name = Some i → entries d !! i = Some e → is_dir e = true → name ≠ [] →
  dirs !! e_block_offset e = Some nd → entries nd = [] →
  ∃ s', minimafs_rmdir E p s = Ret (true, s') ∧ dir_removed dirs d i (e_block_offset e) s s'.
Proof.
  intros Hv Hn Hd Hroom Hf Hi Hdir Hne Hnd Hempty. pose proof Hn as (_ & _ & _ & Hsplit).
  destruct (folder_at_some _ _ _ _ _ _ Hv Hd) as (b & Hb & Hfb & Hg & Hbr).
  destruct (delete_good d i Hg Hroom) as [Hg' [t Ht]]. set (d' := set_entries _ d) in *. set (nb := e_block_offset e) in *.
  assert (folder_at dirs (root_of s) local = Some nd) as Htarget.
  { unfold folder_at in Hd |- *. rewrite (folder_block_name _ _ _ _ _ Hsplit Hne).
    destruct (folder_block dirs (root_of s) parent) as [b'|]; [|done]. simpl in Hd |- *. rewrite Hd. simpl.
    rewrite (find_dir_entry _ _ _ _ Hf Hi Hdir). done. }
  destruct (dirs_ok_rmdir _ _ dirs b d i e nd (v_dirs _ _ _ _ Hv) Hb Hi Hdir Hnd Hempty Hg') as (Hnb & Hok' & Hmem).
  fold nb d' in Hnb, Hok', Hmem.
  destruct (dirs_ok_block _ _ _ _ _ (v_dirs _ _ _ _ Hv) Hnd) as (Hno & Hn0 & _). fold nb in Hno, Hn0.
  pose proof (do_range _ _ _ (v_dirs _ _ _ _ Hv) _ Hno) as Hnr.
  pose proof (od_total _ _ _ _ (fr_dev _ _ _ (v_frame _ _ _ _ Hv))) as Htot.
  unfold minimafs_rmdir. rewrite (bind_eq _ _ s _ s) by (by eapply resolve_names_ok). cbv beta iota.
  rewrite (names_root _ _ _ _ _ Hn Hne). erewrite open_parent by done. rewrite Hempty.
  change (0 <? length [])%nat with false. cbv iota.
  rewrite (bind_lift _ _ s (parent, name)) by done. erewrite open_parent by done. rewrite Hf.
  assert ((Some i ≫= λ i, e ← entries d !! i; Some (i, e)) = Some (i, e)) as -> by (simpl; by rewrite Hi). cbv beta iota.
  unfold is_dir in Hdir. rewrite Hdir. cbn [negb].
  destruct (write_folder_ok E dn dev s d' t) as (s1 & E1 & Hm1 & Ha1 & Hp1); [apply Hv|apply Hg'|done| |].
  { simpl. rewrite Hfb. lia. }
  change (f_block_offset d') with (f_block_offset d) in *. rewrite Hfb in Hm1, Hp1.
  rewrite (bind_eq _ _ s true s1) by exact E1. cbn [negb]. rewrite (proj2 (Z.eqb_neq _ 0)) by done.
  destruct (free_run_ok E HE dn dev s1 nb 1) as (s2 & E2 & Hm2 & Htk2); [apply Hm1|unfold is_u32; lia..|].
  rewrite (bind_eq _ _ s1 tt s2) by done.
  destruct (refresh_ok E HE dn dev s2) as (s3 & E3 & Hm3 & Ha3 & _); [apply Hm2|]. rewrite (bind_eq _ _ s2 tt s3) by done.
  exists s3. split; [done|]. pose proof (moved_trans _ _ _ _ _ _ _ (moved_trans _ _ _ _ _ _ _ Hm1 Hm2) Hm3) as Hm.
  assert (∀ x, extent.taken (the_alloc dn s3) x ↔ extent.taken (the_alloc dn s) x ∧ x ≠ nb) as Htk.
  { intros x. rewrite Ha3, Htk2, Ha1. intuition lia. }
  split; rewrite ?Hfb; [|done|refine (moved_weaken _ _ _ _ _ _ _ Hm); intros x (? & ?); cbv beta; tauto].
  eapply volume_intro; [done..| |].
  - intros b' d0 [Hb'n Hl]%lookup_delete_Some. revert Hl.
    eapply (on_disk_insert dirs s s3 b d'); [done..| |].
    + intros x d1 Hx Hxb. cbv beta. pose proof (dir_not_zero _ _ _ _ Hv Hx). done.
    + rewrite (mv_keep _ _ _ _ _ Hm3) by (by eapply dir_not_zero). by rewrite (mv_keep _ _ _ _ _ Hm2).
  - intros x [Hx Hxn]%Hmem. apply Htk. split; [by apply (v_taken _ _ _ _ Hv)|done].
Qed.

End ops.
End fsops.
