(* ===== verification/FsSpec.v ===== *)
(** * What the file operations promise

    [fs_op] lists the operations that change a mounted volume, [run_op] runs
    the code, [effect] says what each does to the directories alone: the
    abstract state is the map of folder descriptors, without device, allocator
    or buffers. [fs_refines]: on a sound volume every operation under its guard
    returns, does an effect the specification allows, leaves a sound volume and
    touches no other file. *)

From S2P Require Import Prelude CString Time Net Block Extent FsText Fs FsDisk FsFile FsInv FsVol FsOps.
Import fstext minimafs fsdisk fsfile fsinv fsvol fsops.

Open Scope c_scope.

Module fsspec.

Inductive fs_op :=
| OpCreate (p ftype fformat : list Z)
| OpWrite (p l1 l2 : list Z) (ftype fformat : option (list Z))
| OpDelete (p : list Z)
| OpMkdir (p : list Z)
| OpRmdir (p : list Z).

(** The path [p] names [name] in the folder [d], which has room. *)
Record target (dn : nat) (dirs : dirmap) (root : Z) (p local parent name : list Z) (d : minimafs_folder_desc) : Prop := {
  tg_names : names dn p local parent name;
  tg_folder : folder_at dirs root parent = Some d;
  tg_roomy : roomy_folder d;
  tg_plain : plain_name name
}.

(** When an operation may be called: the parent folder exists and has room,
    the name can be stored; a new name is not in use, a removed directory is
    empty. *)
Definition guard (dn : nat) (dirs : dirmap) (root : Z) (op : fs_op) : Prop :=
  match op with
  | OpCreate p _ _ => ∃ local parent name d, target dn dirs root p local parent name d ∧ find_entry (entries d) name = None
  | OpWrite p l1 l2 _ _ => ∃ local parent name d, target dn dirs root p local parent name d ∧ file_named name d ∧
      Z.of_nat (length (l1 ++ l2)) < 4294950000
  | OpDelete p => ∃ local parent name d i e, target dn dirs root p local parent name d ∧
      find_entry (entries d) name = Some i ∧ entries d !! i = Some e ∧ is_dir e = false
  | OpMkdir p => ∃ local parent name d, target dn dirs root p local parent name d ∧
      (length name < 64)%nat ∧ name ≠ [] ∧ 10 ∉ local ∧ 0 ∉ local ∧ find_entry (entries d) name = None
  | OpRmdir p => ∃ local parent name d i e nd, target dn dirs root p local parent name d ∧ name ≠ [] ∧
      find_entry (entries d) name = Some i ∧ entries d !! i = Some e ∧ is_dir e = true ∧
      dirs !! e_block_offset e = Some nd ∧ entries nd = []
  end.

(** The abstract operations. Creating, writing and making a directory may
    also fail, for want of blocks, and then change nothing. *)
Inductive effect (dn : nat) (dirs : dirmap) (root : Z) : fs_op → bool → dirmap → Prop :=
| effect_create p ft ff local parent name d e :
    target dn dirs root p local parent name d → e_name e = take 63 name → is_dir e = false →
    effect dn dirs root (OpCreate p ft ff) true (<[f_block_offset d := put_entry name e d]> dirs)
| effect_write p l1 l2 ft ff local parent name d e :
    target dn dirs root p local parent name d → e_name e = take 63 name → is_dir e = false →
    effect dn dirs root (OpWrite p l1 l2 ft ff) true (<[f_block_offset d := put_entry name e d]> dirs)
| effect_delete p local parent name d i :
    target dn dirs root p local parent name d → find_entry (entries d) name = Some i →
    effect dn dirs root (OpDelete p) true (<[f_block_offset d := set_entries (delete i (entries d)) d]> dirs)
| effect_mkdir p local parent name d nb :
    target dn dirs root p local parent name d → dirs !! nb = None →
    effect dn dirs root (OpMkdir p) true
      (<[nb := mk_folder local nb []]> (<[f_block_offset d := set_entries (entries d ++ [dir_entry name nb]) d]> dirs))
| effect_rmdir p local parent name d i e :
    target dn dirs root p local parent name d → find_entry (entries d) name = Some i → entries d !! i = Some e →
    effect dn dirs root (OpRmdir p) true
      (delete (e_block_offset e) (<[f_block_offset d := set_entries (delete i (entries d)) d]> dirs))
| effect_full op :
    match op with OpDelete _ | OpRmdir _ => False | _ => True end → effect dn dirs root op false dirs.

(** ** Files and the one an operation names *)

Definition file_in (dirs : dirmap) (e : minimafs_dir_entry) : Prop :=
  ∃ b d, dirs !! b = Some d ∧ e ∈ entries d ∧ is_dir e = false.

Definition op_path (op : fs_op) : list Z :=
  match op with OpCreate p _ _ | OpWrite p _ _ _ _ | OpDelete p | OpMkdir p | OpRmdir p => p end.

Definition names_file (dn : nat) (dirs : dirmap) (root : Z) (op : fs_op) (e : minimafs_dir_entry) : Prop :=
  ∃ local parent name d i, target dn dirs root (op_path op) local parent name d ∧
    find_entry (entries d) name = Some i ∧ entries d !! i = Some e.

Lemma file_in_runs dirs e x : file_in dirs e → x ∈ run_of e → x ∈ over_dirs runs dirs.
Proof.
  intros (b & d & Hb & Hin & He) Hx. apply elem_over_dirs. exists b, d. split; [done|].
  apply list_elem_of_bind. exists e. split; [done|]. by apply list_elem_of_filter.
Qed.

Lemma runs_owned root dirs x : x ∈ over_dirs runs dirs → x ∈ owned root dirs.
Proof. intros Hx. do 2 right. apply elem_of_app. by right. Qed.

(** Two files of a sound volume share no block. *)
Lemma runs_apart root total dirs b d i e e0 x : dirs_ok root total dirs → dirs !! b = Some d → entries d !! i = Some e →
  is_dir e = false → file_in dirs e0 → e0 ≠ e → x ∈ run_of e → x ∉ run_of e0.
Proof.
  intros Hok Hb Hi He (b0 & d0 & Hb0 & Hin & He0) Hne Hx Hx0.
  destruct (entries_perm d i e Hi) as [_ Hr]. rewrite He in Hr. set (rest := set_entries (delete i (entries d)) d) in *.
  pose proof (do_nodup _ _ _ Hok) as Hnd. rewrite (owned_lookup root dirs b d Hb), Hr in Hnd.
  apply NoDup_app in Hnd as (_ & _ & Hnd). rewrite <- app_assoc in Hnd. apply NoDup_app in Hnd as (_ & Hd & _).
  apply (Hd x Hx). apply elem_of_app. destruct (decide (b0 = b)) as [->|Hbb].
  - left. assert (d0 = d) as -> by congruence. apply list_elem_of_bind. exists e0. split; [done|]. apply list_elem_of_filter.
    split; [done|]. simpl.
    rewrite (delete_Permutation _ _ _ Hi) in Hin. apply elem_of_cons in Hin as [?|?]; done.
  - right. apply runs_owned, elem_over_dirs. exists b0, d0. split; [by rewrite lookup_delete_ne|].
    apply list_elem_of_bind. exists e0. split; [done|]. by apply list_elem_of_filter.
Qed.

Section spec.
  Context {D : Type} `{BlockDriver D}.
  Abbreviation fsys := (fsys (D := D)).
  Context (E : env) (HE : roomy E) (dn dev : nat).
  Abbreviation root_of := (root_of dn).
  Abbreviation volume := (volume dn dev).
  Abbreviation moved := (moved dn dev).

Definition run_op (op : fs_op) : fsM bool :=
  match op with
  | OpCreate p ft ff => minimafs_create_file E p ft ff
  | OpWrite p l1 l2 ft ff =>
      minimafs_write_file_segments E p (Some l1) (Z.of_nat (length l1)) (Some l2) (Z.of_nat (length l2)) ft ff
  | OpDelete p => minimafs_delete_file E p
  | OpMkdir p => minimafs_mkdir E p
  | OpRmdir p => minimafs_rmdir E p
  end.

(** The blocks of [e] hold what they held. *)
Definition untouched (e : minimafs_dir_entry) (s s' : fsys) : Prop :=
  blks dev (store s') (e_block_offset e) (e_block_count e) = blks dev (store s) (e_block_offset e) (e_block_count e).

(** The free run that makes [op] succeed. *)
Definition space_for (op : fs_op) : Z :=
  match op with
  | OpCreate _ _ _ => blocks_wanted 0
  | OpWrite _ l1 l2 _ _ => blocks_wanted (Z.of_nat (length (l1 ++ l2)))
  | OpMkdir _ => 1
  | OpDelete _ | OpRmdir _ => 0
  end.

Record simulates (dirs : dirmap) (s : fsys) (op : fs_op) (r : bool) (dirs' : dirmap) (s' : fsys) : Prop := {
  sm_effect : effect dn dirs (root_of s) op r dirs';
  sm_refused : r = false → no_run dn (space_for op) s;
  sm_volume : volume dirs' s';
  sm_root : root_of s' = root_of s;
  sm_handles : handles s' = handles s;
  sm_others : ∀ e, file_in dirs e → ¬ names_file dn dirs (root_of s) op e → untouched e s s'
}.

Lemma untouched_moved (keep : Z → Prop) s s' e : moved keep s s' → (∀ x, x ∈ run_of e → keep x) → untouched e s s'.
Proof. intros Hm Hk. eapply blks_ext_blocks; [apply Hm|]. intros x Hx. by apply Hk, elem_of_seqZ. Qed.

(** The blocks of a file are none of the descriptors'. *)
Lemma file_apart dirs s e x : volume dirs s → file_in dirs e → x ∈ run_of e →
  x ∈ owned (root_of s) dirs ∧ x ≠ 0 ∧ ∀ b d, dirs !! b = Some d → x ≠ b.
Proof.
  intros Hv He Hx. pose proof (v_dirs _ _ _ _ Hv) as Hok. pose proof (file_in_runs _ _ _ He Hx) as Hr.
  split; [by apply runs_owned|]. split.
  - pose proof (do_nodup _ _ _ Hok) as [H0 _]%NoDup_cons. intros ->. apply H0. right. apply elem_of_app. by right.
  - intros b d Hb ->. destruct (dirs_ok_block _ _ _ _ _ Hok Hb) as (_ & _ & ?). done.
Qed.

Lemma folder_listed dirs s p d : volume dirs s → folder_at dirs (root_of s) p = Some d → dirs !! f_block_offset d = Some d.
Proof. intros Hv Hd. destruct (folder_at_some _ _ _ _ _ _ Hv Hd) as (b & Hb & <- & _). done. Qed.

Lemma simulates_idle dirs s op s' : volume dirs s → volume dirs s' → moved (λ _, True) s s' →
  no_run dn (space_for op) s →
  match op with OpDelete _ | OpRmdir _ => False | _ => True end → simulates dirs s op false dirs s'.
Proof.
  intros Hv Hv' Hm Hno Hop. split; [by constructor|done|done|apply Hm|apply Hm|]. intros e _ _. by eapply untouched_moved.
Qed.

Lemma simulates_put dirs s op p local parent name d m0 l r s' :
  volume dirs s → target dn dirs (root_of s) p local parent name d → file_named name d → op_path op = p →
  match op with OpCreate _ _ _ | OpWrite _ _ _ _ _ => space_for op = blocks_wanted (Z.of_nat (length l)) | _ => False end →
  put_or_not dn dev dirs d name m0 l s r s' → ∃ dirs', simulates dirs s op r dirs' s'.
Proof.
  intros Hv Ht Hf Hp Hop Hput. destruct r; simpl in Hput.
  2:{ destruct Hput as (Hv' & Hm & Hno). exists dirs. apply simulates_idle; try done; destruct op; try done; by rewrite Hop. }
  destruct Hput as (e & m & Hname & [[Hdir _] _ _ Hv' _ Hm]). exists (<[f_block_offset d := put_entry name e d]> dirs).
  split; [|done|done|apply Hm|apply Hm|].
  - destruct op; try done; simpl in Hp; subst; by econstructor.
  - intros e0 He0 Hno. eapply untouched_moved; [exact Hm|]. intros x Hx.
    pose proof (folder_listed _ _ _ _ Hv (tg_folder _ _ _ _ _ _ _ _ Ht)) as Hb.
    destruct (file_apart _ _ _ _ Hv He0 Hx) as (Hxo & Hx0 & Hxd). split_and!; [done|done|by eapply Hxd|].
    unfold run_at. destruct (find_entry (entries d) name) as [i|] eqn:Hfe; simpl; [|lia].
    destruct (find_entry_some _ _ _ Hfe) as (e1 & Hi & _). rewrite Hi. simpl. rewrite <- elem_of_seqZ. intros Hx1.
    eapply (runs_apart _ _ _ _ _ i e1 e0 x (v_dirs _ _ _ _ Hv) Hb Hi); try done; [by eapply Hf|].
    intros ->. apply Hno. exists local, parent, name, d, i. by rewrite Hp.
Qed.

Lemma refines_create dirs s p ft ff : volume dirs s → guard dn dirs (root_of s) (OpCreate p ft ff) →
  ∃ r s' dirs', run_op (OpCreate p ft ff) s = Ret (r, s') ∧ simulates dirs s (OpCreate p ft ff) r dirs' s'.
Proof.
  intros Hv (local & parent & name & d & Ht & Hf). pose proof Ht as [Hn Hd Hroom Hpn].
  destruct (create_ok E HE dn dev dirs s p local parent name d ft ff) as (r & s' & Hr & Hput); try done.
  edestruct (simulates_put dirs s (OpCreate p ft ff) p local parent name d (new_meta E name ft ff parent) []) as [dirs' Hs]; [done|exact Ht| |done|done|exact Hput|].
  { intros i e Hi. by rewrite Hf in Hi. }
  by exists r, s', dirs'.
Qed.

Lemma refines_write dirs s p l1 l2 ft ff : volume dirs s → guard dn dirs (root_of s) (OpWrite p l1 l2 ft ff) →
  ∃ r s' dirs', run_op (OpWrite p l1 l2 ft ff) s = Ret (r, s') ∧ simulates dirs s (OpWrite p l1 l2 ft ff) r dirs' s'.
Proof.
  intros Hv (local & parent & name & d & Ht & Hf & Hl). pose proof Ht as [Hn Hd Hroom Hpn].
  rewrite length_app, Nat2Z.inj_add in Hl.
  destruct (write_segments_ok E HE dn dev dirs s p local parent name d (Some l1) (Z.of_nat (length l1)) l1
    (Some l2) (Z.of_nat (length l2)) l2 ft ff) as (r & s' & Hr & Hput); try done; try (by split; [|left]).
  edestruct simulates_put with (l := l1 ++ l2) (op := OpWrite p l1 l2 ft ff) as [dirs' Hs]; [done|exact Ht|done|done|done|exact Hput|].
  by exists r, s', dirs'.
Qed.

Lemma refines_delete dirs s p : volume dirs s → guard dn dirs (root_of s) (OpDelete p) →
  ∃ r s' dirs', run_op (OpDelete p) s = Ret (r, s') ∧ simulates dirs s (OpDelete p) r dirs' s'.
Proof.
  intros Hv (local & parent & name & d & i & e & Ht & Hf & Hi & Hdir). pose proof Ht as [Hn Hd Hroom Hpn].
  destruct (delete_ok E HE dn dev dirs s p local parent name d i e) as (s' & Hr & [Hv' _ Hm]); try done.
  eexists true, s', _. split; [done|]. split; [by econstructor|done|exact Hv'|apply Hm|apply Hm|].
  intros e0 He0 _. eapply untouched_moved; [exact Hm|]. intros x Hx.
  destruct (file_apart _ _ _ _ Hv He0 Hx) as (_ & Hx0 & Hxd). split; [done|]. eapply Hxd. by eapply folder_listed.
Qed.

Lemma refines_mkdir dirs s p : volume dirs s → guard dn dirs (root_of s) (OpMkdir p) →
  ∃ r s' dirs', run_op (OpMkdir p) s = Ret (r, s') ∧ simulates dirs s (OpMkdir p) r dirs' s'.
Proof.
  intros Hv (local & parent & name & d & Ht & Hl & Hne & H10 & H0 & Hf). pose proof Ht as [Hn Hd Hroom Hpn].
  destruct (mkdir_ok E HE dn dev dirs s p local parent name d) as (r & s' & Hr & Hput); try done.
  destruct r; [|exists false, s', dirs; split; [done|]; destruct Hput as (? & ? & ?); by apply simulates_idle].
  destruct Hput as (nb & [Hfresh Hv' Hm]). eexists true, s', _. split; [done|].
  split; [|done|exact Hv'|apply Hm|apply Hm|].
  - eapply effect_mkdir; [done|]. apply eq_None_not_Some. intros [d0 Hd0]. apply Hfresh.
    by destruct (dirs_ok_block _ _ _ _ _ (v_dirs _ _ _ _ Hv) Hd0).
  - intros e0 He0 _. eapply untouched_moved; [exact Hm|]. intros x Hx.
    destruct (file_apart _ _ _ _ Hv He0 Hx) as (Hxo & Hx0 & Hxd). split_and!; [done| |by intros ->].
    eapply Hxd. by eapply folder_listed.
Qed.

Lemma refines_rmdir dirs s p : volume dirs s → guard dn dirs (root_of s) (OpRmdir p) →
  ∃ r s' dirs', run_op (OpRmdir p) s = Ret (r, s') ∧ simulates dirs s (OpRmdir p) r dirs' s'.
Proof.
  intros Hv (local & parent & name & d & i & e & nd & Ht & Hne & Hf & Hi & Hdir & Hnd & Hempty). pose proof Ht as [Hn Hd Hroom Hpn].
  destruct (rmdir_ok E HE dn dev dirs s p local parent name d i e nd) as (s' & Hr & [Hv' _ Hm]); try done.
  eexists true, s', _. split; [done|]. split; [by econstructor|done|exact Hv'|apply Hm|apply Hm|].
  intros e0 He0 _. eapply untouched_moved; [exact Hm|]. intros x Hx.
  destruct (file_apart _ _ _ _ Hv He0 Hx) as (_ & Hx0 & Hxd). split; [done|]. eapply Hxd. by eapply folder_listed.
Qed.

Lemma refines_op dirs s op : volume dirs s → guard dn dirs (root_of s) op →
  ∃ r s' dirs', run_op op s = Ret (r, s') ∧ simulates dirs s op r dirs' s'.
Proof.
  destruct op; [apply refines_create|apply refines_write|apply refines_delete|apply refines_mkdir|apply refines_rmdir].
Qed.
End spec.
End fsspec.
