(* ===== verification/FsRead.v ===== *)
(** * Reading files

    Opening a file of a sound volume finds the data that was stored in its
    blocks ([open_ok]), and reading through the handle gives the data from the
    position on, whether the file was loaded whole or is streamed block by
    block ([read_ok]): [view] is the relation between a handle and the data it
    stands for. *)

From S2P Require Import Prelude CString Time Net Block Extent FsText Fs FsDisk FsFile FsInv FsVol FsOps FsSpec.
Import fstext minimafs fsdisk fsfile fsinv fsvol fsops fsspec.

Open Scope c_scope.

Module fsread.

(** ** The header in the first block *)

Definition MARK : list Z := txt "@DATA@" ++ NL.

Lemma mark_field t v r : plain t = true → (6 ≤ length t)%nat → 64 ∉ v → sub MARK (field (t, v) ++ r) = sub MARK r.
Proof.
  intros Ht Hl Hv. pose proof (plain_not 64 _ Ht ltac:(auto)) as Ht64. rewrite field_app.
  change MARK with (64 :: [68; 65; 84; 65; 64; 10]). rewrite sub_cons.
  - replace (t ++ 58 :: v ++ 64 :: 10 :: r) with ((t ++ 58 :: v) ++ 64 :: 10 :: r) by (by rewrite <- (assoc_L (++))).
    rewrite sub_skip by (rewrite elem_of_app, elem_of_cons; naive_solver).
    rewrite sub_cons by (apply starts_false; by intros [q [=]]).
    change (10 :: r) with ([10] ++ r). apply sub_skip. by apply (bool_decide_unpack _).
  - apply starts_false. intros [q Hq]. injection Hq as Hq. do 6 (destruct t as [|? t]; [simpl in Hl; lia|]).
    simpl in Hq. injection Hq as -> -> -> -> -> _. apply Ht64. set_solver.
Qed.

Lemma mark_fields fs r : Forall (λ f, plain f.1 = true ∧ (6 ≤ length f.1)%nat ∧ 64 ∉ f.2) fs →
  sub MARK (render fs ++ r) = sub MARK r.
Proof.
  induction fs as [|[t v] fs IH]; intros Hfs; [done|]. apply Forall_cons in Hfs as [(? & ? & ?) Hfs].
  rewrite render_cons, <- (assoc_L (++)), mark_field by done. by apply IH.
Qed.

Lemma header_fields_marks m : header_ok m → Forall (λ f, plain f.1 = true ∧ (6 ≤ length f.1)%nat ∧ 64 ∉ f.2) (header_fields m).
Proof.
  intros Hm. destruct (header_fields_ok m Hm) as [Hf _]. assert (Forall (λ f, (6 ≤ length f.1)%nat) (header_fields m)) as Hl.
  { unfold header_fields. repeat case_if; repeat constructor; simpl; lia. }
  rewrite Forall_forall in *. intros f Hin. destruct (Hf f Hin). split_and!; [done|by apply Hl|done].
Qed.

(** The data begins right after the header. *)
Lemma header_mark m r : header_ok m → sub MARK (header_text m ++ r) = Some (MARK ++ r).
Proof.
  intros Hm. rewrite header_text_fields. change (txt "@HEADER@" ++ NL) with (txt "@HEADER@" ++ NL).
  assert (sub MARK (txt "@HEADER@" ++ NL ++ (render (header_fields m) ++ txt "@DATA@" ++ NL ++ r)) =
          sub MARK (render (header_fields m) ++ txt "@DATA@" ++ NL ++ r)) as ->.
  { txt_lit. change MARK with (64 :: [68; 65; 84; 65; 64; 10]). unfold NL. simpl app.
    rewrite sub_cons by (apply starts_false; by intros [q [=]]).
    change (sub ?p (?a :: ?b :: ?c :: ?d :: ?e :: ?f :: ?s)) with (sub p ([a; b; c; d; e; f] ++ s)).
    rewrite sub_skip by (by apply (bool_decide_unpack _)).
    rewrite sub_cons by (apply starts_false; by intros [q [=]]).
    change (10 :: ?s) with ([10] ++ s). apply sub_skip. by apply (bool_decide_unpack _). }
  rewrite mark_fields by (by apply header_fields_marks).
  replace (txt "@DATA@" ++ NL ++ r) with (MARK ++ r) by (unfold MARK; by rewrite <- (assoc_L (++))). apply sub_app.
Qed.

Lemma header_data_offset m r : header_ok m → data_offset_of (header_text m ++ r) = Z.of_nat (length (header_text m)).
Proof.
  intros Hm. unfold data_offset_of. change (txt "@DATA@" ++ NL) with MARK. rewrite header_mark by done.
  assert (∃ h, header_text m = h ++ MARK) as [h Hh].
  { exists (txt "@HEADER@" ++ NL ++ render (header_fields m)). pose proof (header_text_fields m []) as Hx.
    rewrite !app_nil_r in Hx. rewrite Hx. unfold MARK. by rewrite <- !(assoc_L (++)). }
  rewrite Hh, <- (assoc_L (++)), ptr_diff_app, length_app. change (length MARK) with 7%nat. lia.
Qed.

(** No NUL in the header. *)
Definition nul_free (m : minimafs_file_metadata) : Prop :=
  0 ∉ filetype m ∧ 0 ∉ fileformat m ∧ 0 ∉ filename m ∧ 0 ∉ created_date m ∧ 0 ∉ last_changed m ∧
  0 ∉ parent_folder m ∧ 0 ∉ run_with m.

Lemma render_no_nul fs : Forall (λ f, 0 ∉ f.1 ∧ 0 ∉ f.2) fs → 0 ∉ render fs.
Proof.
  induction fs as [|[t v] fs IH]; intros Hfs; [apply not_elem_of_nil|]. apply Forall_cons in Hfs as [[? ?] Hfs].
  rewrite render_cons, not_elem_of_app. split; [|by apply IH]. rewrite <- (app_nil_r (field _)), field_app.
  rewrite !not_elem_of_cons, not_elem_of_app, !not_elem_of_cons, not_elem_of_app, !not_elem_of_cons.
  simpl in *. split_and!; try done. apply not_elem_of_nil.
Qed.

Lemma hex_no_nul e : is_u64 e → 0 ∉ txt "0x" ++ hex_text e.
Proof.
  intros He. rewrite not_elem_of_app. split; [by apply (bool_decide_unpack _)|].
  assert (∀ fuel v, 0 ∉ hex_loop fuel v) as Hl.
  { induction fuel as [|fuel IH]; intros v; simpl; [apply not_elem_of_nil|]. case_if; [apply not_elem_of_nil|].
    apply not_elem_of_cons. split; [|apply IH]. change 15 with (Z.ones 4). rewrite Z.land_ones by lia. unfold hex_digit.
    pose proof (Z.mod_pos_bound v (2 ^ 4) ltac:(lia)). case_if; lia. }
  unfold hex_text. case_if; [by apply (bool_decide_unpack _)|]. rewrite elem_of_reverse. apply Hl.
Qed.

Lemma header_no_nul m : is_u64 (entrypoint m) → nul_free m → 0 ∉ header_text m.
Proof.
  intros He (? & ? & ? & ? & ? & ? & ?). pose proof (header_text_fields m []) as Hx. rewrite !app_nil_r in Hx. rewrite Hx.
  assert (∀ v, 0 ∉ uint_text (u32 v)) as Hu by (intros v; apply digits_not; [apply u32_range|lia]).
  assert (∀ v : list Z, 0 ∉ v → 0 ∉ 39 :: v ++ [39]) as Hq by set_solver.
  rewrite !not_elem_of_app. split_and!; try by apply (bool_decide_unpack _).
  apply render_no_nul. unfold header_fields.
  repeat first [apply Forall_app; split|apply Forall_cons; split|apply Forall_nil; exact I|case_if]; cbn [fst snd];
    (split; [by apply (bool_decide_unpack _)|]); eauto using hex_no_nul; by apply (bool_decide_unpack _).
Qed.
(** ** The text of the first block *)

Lemma c_string_prefix h x : 0 ∉ h → c_string (h ++ x) = h ++ c_string x.
Proof.
  induction h as [|c h IH]; intros Hh; [done|]. apply not_elem_of_cons in Hh as [? ?]. simpl.
  rewrite (proj2 (Z.eqb_neq c 0)) by done. by rewrite IH.
Qed.

(** What [c_string] finds in a piece of [x] followed by zeros is a piece of
    [x]. *)
Lemma c_string_piece x : ∀ n k, ∃ z, x = c_string (take n (x ++ replicate k 0)) ++ z.
Proof.
  induction x as [|c x IH]; intros n k.
  - exists []. destruct k, n; done.
  - destruct n as [|n]; [by exists (c :: x)|]. simpl. destruct (Z.eqb_spec c 0); [by exists (c :: x)|].
    destruct (IH n k) as [z Hz]. exists z. by rewrite Hz at 1.
Qed.

Lemma sub_piece p x z : sub p (x ++ z) = None → sub p x = None.
Proof.
  intros Hn. destruct (sub p x) as [q|] eqn:Hq; [|done]. apply sub_suffix in Hq as (l & -> & Hs).
  apply starts_true in Hs as [r ->]. rewrite <- !(assoc_L (++)) in Hn. apply sub_none_app in Hn. by rewrite sub_app in Hn.
Qed.

Lemma no_tags_piece x z : no_tags (x ++ z) → no_tags x.
Proof. intros Hn tag Hin. eapply sub_piece. by apply Hn. Qed.

(** ** Handles and what they stand for *)

Section read.
  Context {D : Type} `{BlockDriver D}.
  Abbreviation fsys := (fsys (D := D)).
  Context (E : env) (HE : roomy E) (dn dev : nat).
  Abbreviation root_of := (root_of dn).
  Abbreviation volume := (volume dn dev).

(** The bytes of the volume from byte [x] on. *)
Definition vol_bytes (s : fsys) (x n : Z) : list Z := dev_byte dev (store s) <$> seqZ x n.

(** The handle stands for the data [l]: loaded, or to be read block by block
    through the cache. *)
Definition view (hd : file_handle) (l : list Z) (s : fsys) : Prop :=
  h_drive hd = dn ∧ h_data_size hd = Z.of_nat (length l) ∧ h_data_size hd < 4294967296 ∧ 0 ≤ h_position hd ≤ h_data_size hd ∧
  if h_streaming hd then
    0 ≤ h_data_offset hd ∧ 0 ≤ h_block_offset hd ∧
    h_data_offset hd + h_data_size hd ≤ h_block_count hd * 4096 ∧ h_block_count hd * 4096 < 4294967296 ∧
    h_block_offset hd + h_block_count hd ≤ extent.total_blocks (the_alloc dn s) ∧
    l = vol_bytes s (h_block_offset hd * 4096 + h_data_offset hd) (h_data_size hd) ∧
    ∃ c, h_cache hd = Some c ∧
      (h_cached hd = NO_CACHE ∨ 0 ≤ h_cached hd ∧ c = blks dev (store s) (h_block_offset hd + h_cached hd) 1)
  else l = [] ∨ h_data hd = Some l.

(** What [minimafs_open] needs of the entry [e]: its blocks hold the file, its
    header can be read back, the data has none of its tags and the first block
    a NUL. *)
Record openable (e : minimafs_dir_entry) (m : minimafs_file_metadata) (l : list Z) (s : fsys) : Prop := {
  op_stored : stored dev e m l s;
  op_count : 0 < e_block_count e ∧ e_block_count e * 4096 < 4294967296;
  op_run : 0 < e_block_offset e ∧ e_block_offset e + e_block_count e ≤ extent.total_blocks (the_alloc dn s);
  op_header : header_ok m ∧ nul_free m ∧ header_capacity m ≤ 4096;
  op_length : data_length m = Z.of_nat (length l) ∧ file_length m ≤ Z.of_nat (length (header_text m)) + Z.of_nat (length l) + 5;
  op_tags : no_tags (l ++ FOOTER);
  op_nul : 0 ∈ blks dev (store s) (e_block_offset e) 1
}.

Lemma header_len m : header_ok m → header_capacity m ≤ 4096 → Z.of_nat (length (header_text m)) < 4096.
Proof. intros Hm Hc. pose proof (header_text_length m (ok_entry _ Hm)). lia. Qed.

Lemma first_block e m l s : openable e m l s → ∃ r, no_tags r ∧
  c_string (blks dev (store s) (e_block_offset e) 1) = header_text m ++ r.
Proof.
  intros [[k Hk] Hc _ (Hm & Hnf & Hcap) _ Ht _]. pose proof (header_len m Hm Hcap).
  replace (e_block_count e) with (1 + (e_block_count e - 1)) in Hk by lia. rewrite blks_app in Hk by lia.
  pose proof (blks_length dev (store s) (e_block_offset e) 1 ltac:(lia)) as Hbl. unfold MINIMAFS_BLOCK_SIZE in Hbl.
  assert (blks dev (store s) (e_block_offset e) 1 = take 4096 (header_text m ++ (l ++ FOOTER) ++ replicate k 0)) as ->.
  { rewrite <- (assoc_L (++) l), <- Hk. replace 4096%nat with (length (blks dev (store s) (e_block_offset e) 1)) by lia.
    by rewrite take_app_length. }
  rewrite take_app_ge by lia. rewrite c_string_prefix by (by apply header_no_nul; [apply Hm|]).
  eexists. split; [|done]. destruct (c_string_piece (l ++ FOOTER) (4096 - length (header_text m)) k) as [z Hz].
  rewrite Hz in Ht. by eapply no_tags_piece.
Qed.

Lemma stored_bytes e m l s : stored dev e m l s → 0 ≤ e_block_count e → Z.of_nat (length (header_text m)) + Z.of_nat (length l) + 5 ≤ e_block_count e * 4096 ∧
  vol_bytes s (e_block_offset e * 4096 + Z.of_nat (length (header_text m))) (Z.of_nat (length l)) = l.
Proof.
  intros [k Hk] Hc. pose proof (blks_length dev (store s) (e_block_offset e) _ Hc) as Hl. rewrite Hk, !length_app in Hl.
  unfold MINIMAFS_BLOCK_SIZE in Hl. rewrite footer_length in Hl. split; [lia|].
  unfold vol_bytes. change 4096 with MINIMAFS_BLOCK_SIZE.
  rewrite <- (blks_slice dev (store s) _ (e_block_count e)) by (unfold MINIMAFS_BLOCK_SIZE; lia).
  by rewrite Hk, !Nat2Z.id, drop_app_length, take_app_length.
Qed.

(** Opening: the handle stands for the data. *)
Lemma open_entry_ok dirs s p ro e m l h : volume dirs s → is_dir e = false → openable e m l s →
  first_index (λ h, match h with None => true | Some _ => false end) (handles s) = Some h →
  ∃ hd, open_entry E dn p ro e s = Ret (Some h, set_handles (<[h := Some hd]> (handles s)) s) ∧ view hd l s ∧
    h_position hd = 0 ∧ h_streaming hd = (STREAMING_THRESHOLD <? Z.of_nat (length l)) ∧ h_read_only hd = ro ∧
    h_meta hd = set_blocks (e_block_offset e) (e_block_count e) m ∧ h_modified hd = false.
Proof.
  intros Hv Hdir Ho Hh. pose proof (fr_dev _ _ _ (v_frame _ _ _ _ Hv)) as Hod. pose proof (od_total _ _ _ _ Hod) as Htot.
  destruct (first_block e m l s Ho) as (r & Hr & Htext).
  destruct Ho as [Hst [Hc Hc32] [Hb Hbt] (Hm & Hnf & Hcap) [Hdl Hfl] Ht Hnul]. pose proof (header_len m Hm Hcap) as Hhl.
  destruct (stored_bytes e m l s Hst) as [Hfit Hbytes]; [lia|].
  unfold open_entry. unfold is_dir in Hdir. rewrite Hdir.
  rewrite (bind_eq _ _ s (Some h) s) by (unfold minimafs_acquire_file_handle; by rewrite bind_gets, Hh). cbv zeta.
  rewrite (u32_small (_ * MINIMAFS_BLOCK_SIZE)) by (unfold is_u32, MINIMAFS_BLOCK_SIZE; lia).
  rewrite (proj2 (Z.eqb_neq _ 0)) by (unfold MINIMAFS_BLOCK_SIZE; lia).
  rewrite (bind_eq _ _ s _ s) by (eapply read_blocks_ok; [done|lia..]). cbv beta iota.
  rewrite (bool_decide_eq_true_2 (0 ∈ _)) by done. cbn [negb]. rewrite andb_false_r. rewrite Htext.
  rewrite (bind_lift _ _ s (Some (set_blocks 0 0 m))) by (by apply parse_header_text).
  rewrite header_data_offset by done. cbn [default]. set (m' := set_blocks (e_block_offset e) _ _).
  assert (m' = set_blocks (e_block_offset e) (e_block_count e) m) as Hm' by done.
  set (off := Z.of_nat (length (header_text m))) in *. set (len := Z.of_nat (length l)) in *.
  set (total := e_block_count e * MINIMAFS_BLOCK_SIZE). assert (total = e_block_count e * 4096) as Htt by done.
  assert (data_length_of m' off total = len) as ->.
  { unfold data_length_of. change (data_length m') with (data_length m). change (file_length m') with (file_length m).
    rewrite Hdl. rewrite (u32_small (off + 5)) by (unfold is_u32; lia).
    assert (((len =? 0) && (off + 5 <? file_length m)) = false) as ->.
    { destruct (Z.eqb_spec len 0); [|done]. simpl. apply Z.ltb_ge. lia. }
    rewrite u32_small by (unfold is_u32; lia). by rewrite (proj2 (Z.ltb_ge _ _)) by lia. }
  set (hd0 := new_handle dn p ro e).
  assert (∀ hd, load_data E dn e m' total off len hd0 s = Ret (Some hd, s) →
    (r ← load_data E dn e m' total off len hd0;
     match r with None => mret None | Some hd => put_handle h (Some hd);; mret (Some h) end) s =
    Ret (Some h, set_handles (<[h := Some hd]> (handles s)) s)) as Hput.
  { intros hd Hl. by rewrite (bind_eq _ _ s _ s Hl). }
  unfold load_data in Hput at 1. rewrite !(rm_alloc _ HE) in Hput. unfold STREAMING_THRESHOLD in *.
  destruct (Z.ltb_spec 16384 len) as [Hbig|Hsmall]; cbn [andb] in Hput.
  - eexists. split; [apply Hput; done|]. split; [|done]. unfold view, hd0, with_data, new_handle. simpl. split_and!; try lia; try done.
    eexists. split; [done|by left].
  - destruct (Z.eqb_spec len 0) as [Hz|Hnz].
    { eexists. split; [apply Hput; done|]. split; [|done]. unfold view, hd0, with_data, new_handle. simpl. split_and!; try lia; try done. left.
      destruct l; [done|unfold len in Hz; simpl in Hz; lia]. }
    cbn [negb andb] in Hput. eexists. split; [apply Hput|].
    + rewrite (bind_eq _ _ s _ s) by (eapply read_blocks_ok; [done|lia..]). cbv beta iota. rewrite andb_false_r.
      rewrite (proj2 (Z.ltb_ge _ _)) by lia. done.
    + split; [|done]. unfold view, hd0, with_data, new_handle. cbn [h_drive h_data_size h_position h_streaming h_data]. split_and!; try lia; try done. right. f_equal. destruct Hst as [k Hk]. rewrite Hk.
      unfold off, len. by rewrite !Nat2Z.id, drop_app_length, take_app_length.
Qed.
(** ** Reading through a handle *)

(** The handles differ in the position and the cache only. *)
Definition same_file (hd hd' : file_handle) : Prop :=
  h_drive hd' = h_drive hd ∧ h_path hd' = h_path hd ∧ h_meta hd' = h_meta hd ∧ h_data hd' = h_data hd ∧
  h_data_size hd' = h_data_size hd ∧ h_modified hd' = h_modified hd ∧ h_read_only hd' = h_read_only hd ∧
  h_streaming hd' = h_streaming hd.

Lemma vol_bytes_slice s x n k j : 0 ≤ k → 0 ≤ j → k + j ≤ n →
  take (Z.to_nat j) (drop (Z.to_nat k) (vol_bytes s x n)) = vol_bytes s (x + k) j.
Proof. intros. unfold vol_bytes. rewrite <- fmap_drop, <- fmap_take, drop_seqZ, take_seqZ by lia. done. Qed.

Lemma stream_ok dirs s l : volume dirs s → ∀ fuel remaining hd, view hd l s → h_streaming hd = true →
  0 ≤ remaining ≤ h_data_size hd - h_position hd → remaining < Z.of_nat fuel →
  ∃ hd', stream_loop fuel E remaining hd s =
           Ret ((vol_bytes s (h_block_offset hd * 4096 + h_data_offset hd + h_position hd) remaining, hd'), s) ∧
    view hd' l s ∧ same_file hd hd' ∧ h_position hd' = h_position hd + remaining.
Proof.
  intros Hv. pose proof (fr_dev _ _ _ (v_frame _ _ _ _ Hv)) as Hod. pose proof (od_total _ _ _ _ Hod) as Htot.
  induction fuel as [|fuel IH]; intros remaining hd Hview Hstr Hrem Hf; [lia|]. cbn [stream_loop].
  destruct (Z.ltb_spec 0 remaining) as [Hpos|].
  2:{ replace remaining with 0 by lia. exists hd. split; [done|]. rewrite Z.add_0_r. done. }
  destruct Hview as (Hdn & Hsz & Hsz32 & Hp & Hview). rewrite Hstr in Hview.
  destruct Hview as (Ho & Hbo & Hfit & Hbc & Htt & Hl & c & Hc & Hcached).
  set (pos := h_position hd) in *. set (off := h_data_offset hd) in *. set (bo := h_block_offset hd) in *.
  cbv zeta. rewrite (u32_small (off + pos)) by (unfold is_u32; lia). unfold MINIMAFS_BLOCK_SIZE at 1 2 3 4 5 6 7 8.
  set (bi := (off + pos) / 4096). set (inb := (off + pos) mod 4096).
  assert (off + pos = bi * 4096 + inb ∧ 0 ≤ inb < 4096) as [Hdiv Hinb].
  { unfold bi, inb. pose proof (Z.div_mod (off + pos) 4096). pose proof (Z.mod_pos_bound (off + pos) 4096). lia. }
  assert (0 ≤ bi < h_block_count hd) as Hbi by lia. rewrite (proj2 (Z.leb_gt _ _)) by lia.
  set (blk := blks dev (store s) (bo + bi) 1).
  (* the block comes into the cache *)
  assert (∃ hd1, (if bi =? h_cached hd then mret (Some hd)
      else b ← minimafs_read_blocks E (h_drive hd) (u32 (bo + bi)) 1;
           mret (match b with Some b => Some (set_cache b bi hd) | None => None end)) s = Ret (Some hd1, s) ∧
    h_cache hd1 = Some blk ∧ (h_cached hd1 = bi) ∧ same_file hd hd1 ∧ h_position hd1 = pos ∧ h_data_offset hd1 = off ∧
    h_block_offset hd1 = bo ∧ h_block_count hd1 = h_block_count hd) as (hd1 & E1 & Hc1 & Hci & Hsame & Hp1 & Ho1 & Hb1 & Hn1).
  { destruct (Z.eqb_spec bi (h_cached hd)) as [Heq|].
    - exists hd. split; [done|]. destruct Hcached as [Hno|[_ Hcb]]; [unfold NO_CACHE in Hno; lia|].
      rewrite <- Heq in Hcb. rewrite Hc, Hcb. done.
    - rewrite u32_small by (unfold is_u32; lia). rewrite Hdn.
      rewrite (bind_eq _ _ s (Some blk) s) by (eapply read_blocks_ok; [done|lia..]).
      by exists (set_cache blk bi hd). }
  rewrite (bind_eq _ _ s _ s E1). cbv beta iota. pose proof Hsame as (_ & _ & _ & _ & Hs1 & _ & _ & Hst1).
  rewrite Hs1, Hp1, Hc1, (u32_small (h_data_size hd - pos)) by (unfold is_u32; lia).
  set (copy := if h_data_size hd - pos <? _ then _ else _).
  assert (1 ≤ copy ≤ remaining ∧ inb + copy ≤ 4096) as Hcopy.
  { unfold copy, MINIMAFS_BLOCK_SIZE. repeat case_match; lia. }
  clearbody copy. rewrite u32_small by (unfold is_u32; lia).
  destruct (IH (remaining - copy) (set_position (pos + copy) hd1)) as (hd' & E2 & Hv' & Hsame' & Hp').
  { unfold view. simpl. rewrite Hst1, Hstr, Hs1, Ho1, Hb1, Hn1, Hc1, Hci. pose proof Hsame as (-> & _).
    split_and!; try done; try lia. exists blk. split; [done|]. right. split; [lia|done]. }
  { simpl. by rewrite Hst1. } { simpl. rewrite Hs1. lia. } { lia. }
  rewrite (bind_eq _ _ s _ s E2). cbv beta iota. exists hd'. split; [|split; [done|split]].
  - unfold mret, fsM_ret. do 3 f_equal. simpl. rewrite Hb1, Ho1. unfold blk. rewrite blks_slice by (unfold MINIMAFS_BLOCK_SIZE; lia).
    unfold vol_bytes, MINIMAFS_BLOCK_SIZE. rewrite <- fmap_app. f_equal.
    replace remaining with (copy + (remaining - copy)) at 2 by lia. rewrite seqZ_app by lia. f_equal; f_equal; lia.
  - unfold same_file in *. simpl in Hsame'. naive_solver congruence.
  - rewrite Hp'. simpl. lia.
Qed.

Lemma read_ok dirs s l h hd size : volume dirs s → nth h (handles s) None = Some hd → view hd l s → 0 ≤ size →
  ∃ hd', minimafs_read E h size s =
      Ret (take (Z.to_nat size) (drop (Z.to_nat (h_position hd)) l), set_handles (<[h := Some hd']> (handles s)) s) ∧
    view hd' l s ∧ same_file hd hd' ∧ h_position hd' = Z.min (h_position hd + size) (h_data_size hd).
Proof.
  intros Hv Hh Hview Hsize. pose proof Hview as (Hdn & Hsz & Hsz32 & Hp & Hrest).
  assert (∀ hd' : file_handle, hd' = hd → set_handles (<[h := Some hd']> (handles s)) s = s) as Hid.
  { intros ? ->. destruct s as [a b c d hs st]. unfold set_handles. simpl in *. f_equal. apply list_insert_id.
    rewrite nth_lookup in Hh. destruct (hs !! h); simpl in Hh; congruence. }
  unfold minimafs_read. rewrite bind_gets, Hh. destruct (Z.leb_spec (h_data_size hd) (h_position hd)) as [Hend|Hlt].
  { exists hd. rewrite Hid by done. split; [|split; [done|split; [done|lia]]].
    rewrite drop_ge by lia. by rewrite take_nil. }
  cbv zeta. set (n := if size <? _ then _ else _).
  assert (n = Z.min size (h_data_size hd - h_position hd)) as Hn by (unfold n; destruct (Z.ltb_spec size (h_data_size hd - h_position hd)); lia).
  assert (take (Z.to_nat size) (drop (Z.to_nat (h_position hd)) l) = take (Z.to_nat n) (drop (Z.to_nat (h_position hd)) l)) as ->.
  { destruct (decide (size ≤ h_data_size hd - h_position hd)); [by replace n with size by lia|].
    rewrite !take_ge; [done|rewrite length_drop; lia..]. }
  destruct (h_streaming hd) eqn:Hstr.
  - destruct Hrest as (Ho & Hbo & Hfit & Hbc & Htt & Hl & c & Hc & Hcached). rewrite Hc. rewrite bind_gets, Hdn.
    rewrite (v_mounted _ _ _ _ Hv). cbn [negb].
    destruct (stream_ok dirs s l Hv (S (Z.to_nat n)) n hd Hview Hstr) as (hd' & E1 & Hv' & Hsame & Hp'); [lia..|].
    rewrite (bind_eq _ _ s _ s E1). exists hd'. split; [|split; [done|split; [done|lia]]]. cbv beta iota.
    unfold put_handle. rewrite bind_modify. unfold mret, fsM_ret. do 2 f_equal.
    rewrite Hl. by rewrite vol_bytes_slice by lia.
  - rewrite u32_small by (unfold is_u32; lia). destruct Hrest as [->|Hdata]; [simpl in Hsz; lia|]. rewrite Hdata.
    unfold put_handle. rewrite bind_modify. eexists. split; [done|]. split; [|split; [done|simpl; lia]].
    unfold view. simpl. rewrite Hstr. split_and!; try done; try lia. by right.
Qed.
End read.
End fsread.
