(* ===== verification/FsMount.v ===== *)
(** * Formatting and mounting

    [minimafs_format] on any working device followed by [minimafs_mount] gives
    a sound volume whose only directory is the empty root, with all blocks
    free but the descriptor and the root ([format_mount_ok]). *)

From S2P Require Import Prelude CString Time Net Block Extent FsText Fs FsDisk FsFile FsInv FsVol FsOps.
Import fstext minimafs fsdisk fsfile fsinv fsvol fsops.

Open Scope c_scope.

Module fsmount.
Section fsmount.
  Context {D : Type} `{BlockDriver D}.
  Abbreviation fsys := (fsys (D := D)).
  Context (E : env) (HE : roomy E) (dn dev : nat).
  Abbreviation total_of s := (extent.total_blocks (the_alloc dn s)).
  Abbreviation frame := (frame dn dev).
  Abbreviation volume := (volume dn dev).
  Abbreviation moved := (moved dn dev).

(** A slot without a volume, and a device that works and has [total] blocks. *)
Record blank (total : Z) (s : fsys) : Prop := {
  bk_slot : (dn < MAX_DRIVES)%nat ∧ (dn < length (drives s))%nat ∧ (dn < length (allocs s))%nat ∧ (dn < length (bounce s))%nat;
  bk_mounted : mounted (the_drive dn s) = false;
  bk_table : table_ok (store s);
  bk_used : used (the_dev dev (store s)) = true;
  bk_write : can_write (the_dev (dev_disk dev (store s)) (store s)) = true;
  bk_sector : 0 < sector_size (the_dev dev (store s)) ∧ MINIMAFS_BLOCK_SIZE mod sector_size (the_dev dev (store s)) = 0;
  bk_total : 16 ≤ total ≤ MINIMAFS_MAX_BLOCKS;
  bk_size : total * MINIMAFS_BLOCK_SIZE ≤ sectors (the_dev dev (store s)) * sector_size (the_dev dev (store s)) < 18446744073709551616;
  bk_free : mounted_drive (the_dev dev (store s)) < 0;
  bk_cap : 0 ≤ extent.cap (the_alloc dn s)
}.

(** ** The device in the slot *)

Lemma the_drive_put (s : fsys) d : (dn < length (drives s))%nat → the_drive dn (set_drives (<[dn := d]> (drives s)) s) = d.
Proof. intros Hl. unfold the_drive, set_drives. simpl. by rewrite nth_lookup, list_lookup_insert_eq. Qed.
Lemma the_alloc_put (s : fsys) a : (dn < length (allocs s))%nat → the_alloc dn (set_allocs (<[dn := a]> (allocs s)) s) = a.
Proof. intros Hl. unfold the_alloc, set_allocs. simpl. by rewrite nth_lookup, list_lookup_insert_eq. Qed.

(** Everything [on_device] asks for but the bounce buffer. *)
Record attached (total : Z) (s : fsys) : Prop := {
  at_device : device (the_drive dn s) = Some dev;
  at_table : table_ok (store s);
  at_used : used (the_dev dev (store s)) = true;
  at_write : can_write (the_dev (dev_disk dev (store s)) (store s)) = true;
  at_sector : 0 < sector_size (the_dev dev (store s)) ∧ MINIMAFS_BLOCK_SIZE mod sector_size (the_dev dev (store s)) = 0;
  at_total : 0 < total ≤ 4294967295;
  at_size : total * (MINIMAFS_BLOCK_SIZE / sector_size (the_dev dev (store s))) ≤ sectors (the_dev dev (store s));
  at_bounce : (dn < length (bounce s))%nat
}.

(** The bounce buffer comes with the first transfer. *)
Definition with_bounce (s : fsys) : fsys := if nth dn (bounce s) false then s else set_bounce (<[dn := true]> (bounce s)) s.

Lemma ensure_ok s : ensure_dma_bounce E dn s = Ret (true, with_bounce s).
Proof.
  unfold ensure_dma_bounce, with_bounce. rewrite bind_gets. destruct (nth dn (bounce s) false); [done|].
  by rewrite (rm_pages _ HE).
Qed.

Lemma attached_on_device total s : attached total s → on_device dn dev total (with_bounce s).
Proof.
  intros []. unfold with_bounce. destruct (nth dn (bounce s) false) eqn:Hb; split; try done.
  simpl. by rewrite nth_lookup, list_lookup_insert_eq.
Qed.

Lemma with_bounce_idle s : nth dn (bounce (with_bounce s)) false = true → with_bounce (with_bounce s) = with_bounce s.
Proof. intros Hb. unfold with_bounce at 1. by rewrite Hb. Qed.

Lemma write_bounce total s b n buf : attached total s →
  minimafs_write_blocks E dn b n buf s = minimafs_write_blocks E dn b n buf (with_bounce s).
Proof.
  intros Ha. pose proof (od_bounce _ _ _ _ (attached_on_device _ _ Ha)) as Hb. unfold minimafs_write_blocks.
  assert (∀ A (f : fsys → A), (∀ l, f (set_bounce l s) = f s) → f (with_bounce s) = f s) as Hf.
  { intros A f Hf. unfold with_bounce. by destruct (nth dn (bounce s) false). }
  rewrite !bind_gets, (Hf _ (the_drive dn)), (at_device _ _ Ha) by done. rewrite !bind_gets, (Hf _ (λ s, sector_size (the_dev dev (store s)))) by done.
  rewrite (proj2 (Z.eqb_neq _ 0)) by (destruct (at_sector _ _ Ha); lia).
  etransitivity; [apply bind_eq, ensure_ok|]. symmetry. etransitivity; [apply bind_eq, ensure_ok|]. by rewrite with_bounce_idle.
Qed.
(** ** Formatting *)

Definition root_folder (root : Z) : minimafs_folder_desc := mk_folder [47] root [].

(** The volume's name as [minimafs_format] stores it can be stored. *)
Definition name_fits (nm : option (list Z)) : Prop := match nm with Some l => 64 ∉ l ∧ 39 ∉ l ∧ 0 ∉ l | None => True end.

(** What a freshly formatted drive looks like: the descriptor in the slot and
    on block 0, the empty root on block 1. *)
Record formatted (size total : Z) (nm : option (list Z)) (s : fsys) : Prop := {
  fm_device : on_device dn dev total s;
  fm_slot : (dn < length (drives s))%nat ∧ (dn < length (allocs s))%nat;
  fm_mounted : mounted (the_drive dn s) = false;
  fm_alloc : extent.wf (the_alloc dn s) ∧ total_of s = total ∧ ∀ b, extent.taken (the_alloc dn s) b ↔ b = 0 ∨ b = 1;
  fm_sdesc : sdesc (the_drive dn s) = new_sdesc E (Z.of_nat dn) nm size total 1;
  fm_desc : storage_of (c_string (blks dev (store s) 0 1)) = sdesc (the_drive dn s);
  fm_root : parse_folder_desc 1 (blks dev (store s) 1 1) = Ret (root_folder 1)
}.

Lemma new_sdesc_ok nm size total : (dn < MAX_DRIVES)%nat → name_fits nm → is_u64 size → 16 ≤ total ≤ MINIMAFS_MAX_BLOCKS →
  storage_ok (new_sdesc E (Z.of_nat dn) nm size total 1).
Proof.
  intros Hdn Hnm Hs Ht. destruct (rm_now _ HE) as [Hn1 Hn2]. unfold MAX_DRIVES, MINIMAFS_MAX_BLOCKS in *.
  assert (∀ c, 48 ≤ c ≤ 57 ∨ c ∉ uint_text (Z.of_nat dn)) as Hd.
  { intros c. destruct (decide (48 ≤ c ≤ 57)); [by left|right]. apply digits_not; [unfold is_u32; lia|done]. }
  split; simpl; try done; try (by split; [split_and!; [apply not_elem_of_nil..|simpl; lia]|apply not_elem_of_nil]).
  - split; [split_and!|].
    + apply not_elem_take. destruct nm as [l|]; [apply Hnm|]. destruct (Hd 64); [lia|done].
    + apply not_elem_take. destruct nm as [l|]; [apply Hnm|]. destruct (Hd 39); [lia|done].
    + rewrite length_take. lia.
    + apply not_elem_take. destruct nm as [l|]; [apply Hnm|]. destruct (Hd 0); [lia|done].
  - split_and!; [done|apply u64_range..].
  - split_and!; try (unfold is_u32, is_u8, MINIMAFS_MAGIC; lia). apply u32_range.
Qed.

Lemma empty_root_block : ∃ raw, text_block empty_root = Ret raw ∧ Z.of_nat (length raw) = MINIMAFS_BLOCK_SIZE ∧
  parse_folder_desc 1 raw = Ret (root_folder 1).
Proof. eexists. split; [vm_compute; reflexivity|]. split; vm_compute; reflexivity. Qed.
Definition with_alloc (a : extent.block_alloc) (s : fsys) : fsys := set_allocs (<[dn := a]> (allocs s)) s.
Definition with_drive (d : drive) (s : fsys) : fsys := set_drives (<[dn := d]> (drives s)) s.

Lemma get_drive_ok : (dn < MAX_DRIVES)%nat → get_drive (Z.of_nat dn) = Some dn.
Proof.
  intros Hdn. unfold get_drive, MAX_DRIVES, MINIMAFS_MAX_DRIVES in *. rewrite (proj2 (Z.leb_gt _ _)) by lia.
  by rewrite Nat2Z.id.
Qed.

(** Marking blocks in the drive's allocator. *)
Lemma mark_ok s st cnt : (dn < length (allocs s))%nat → extent.wf (the_alloc dn s) → is_u32 st → is_u32 cnt →
  ∃ a, mark_used E dn st cnt s = Ret (tt, with_alloc a s) ∧ the_alloc dn (with_alloc a s) = a ∧ extent.wf a ∧
    extent.total_blocks a = total_of s ∧
    ∀ b, extent.taken a b ↔ extent.taken (the_alloc dn s) b ∨ st ≤ b < Z.min (st + cnt) (total_of s).
Proof.
  intros Hl Hwf Hst Hc. destruct (extent.mark_used_spec (can_alloc E) st cnt _ Hwf Hst Hc) as (a & Ha & Hwf' & Ht & Hb); [apply HE|].
  exists a. split; [|split; [by apply the_alloc_put|done]]. unfold mark_used. by rewrite bind_gets, (bind_lift _ _ s a).
Qed.

(** The first block of an empty volume is block 1. *)
Lemma first_alloc s total : (dn < length (allocs s))%nat → 16 ≤ total ≤ 4294967294 →
  extent.wf (the_alloc dn s) → total_of s = total → (∀ b, ¬ extent.taken (the_alloc dn s) b) →
  ∃ a, alloc_run E dn 1 s = Ret (1, with_alloc a s) ∧ the_alloc dn (with_alloc a s) = a ∧ extent.wf a ∧
    extent.total_blocks a = total ∧ ∀ b, extent.taken a b ↔ b = 1.
Proof.
  intros Hl Ht Hwf Htot Hfree.
  destruct (extent.alloc_run_spec (can_alloc E) 1 _ Hwf) as (r & a & Ha & Hwf' & Hans); [lia|apply HE|].
  assert (extent.fits_at (total_of s) 1 (extent.ext (the_alloc dn s)) 1) as Hfit.
  { split; [lia|]. intros b _. apply Hfree. }
  unfold extent.alloc_answer in Hans. destruct (Z.eqb_spec r extent.NO_BLOCK) as [->|_].
  { destruct Hans as [_ Hno]. exfalso. apply (Hno 1); [lia|done]. }
  destruct Hans as (Hr1 & _ & Hlow & Htk & Htot' & _). assert (r = 1) as -> by (specialize (Hlow 1 ltac:(lia) Hfit); lia).
  exists a. split; [|split; [by apply the_alloc_put|split; [done|split; [congruence|]]]].
  - unfold alloc_run. by rewrite bind_gets, (bind_lift _ _ s (1, a)).
  - intros b. rewrite Htk. specialize (Hfree b). intuition lia.
Qed.

Lemma blank_attached total s s' : blank total s → device (the_drive dn s') = Some dev → store s' = store s →
  bounce s' = bounce s → attached total s'.
Proof.
  intros [] Hd Hs Hb. destruct bk_sector0 as [Hss Hmod]. split; rewrite ?Hs, ?Hb; [assumption..|split; assumption|unfold MINIMAFS_MAX_BLOCKS in *; lia| |tauto].
  - destruct bk_size0 as [Hsz _]. set (ss := sector_size _) in *. unfold MINIMAFS_BLOCK_SIZE in *.
    apply Z.div_exact in Hmod; [|lia]. nia.
Qed.

Lemma format_ok size nm s : let total := size / MINIMAFS_BLOCK_SIZE in
  blank total s → name_fits nm → is_u64 size →
  ∃ s', minimafs_format E (Some dev) size (Z.of_nat dn) nm s = Ret (true, s') ∧ formatted size total nm s' ∧
    devs (store s') = devs (store s).
Proof.
  intros total Hb Hnm Hsize. pose proof Hb as [(Hdn & Hld & Hla & Hlb) Hmt Htab _ _ _ Ht _ _ Hcap].
  unfold MINIMAFS_MAX_BLOCKS in Ht. unfold minimafs_format. fold total.
  rewrite (proj2 (Z.ltb_ge MINIMAFS_MAX_BLOCKS total)) by (unfold MINIMAFS_MAX_BLOCKS; lia). cbv zeta. fold total. rewrite (u32_small total) by (unfold is_u32; lia). rewrite (proj2 (Z.ltb_ge _ _)) by lia.
  rewrite get_drive_ok by done. rewrite bind_gets. unfold put_alloc. rewrite bind_modify.
  set (a0 := extent.block_alloc_init total (the_alloc dn s)). fold (with_alloc a0 s). set (s1 := with_alloc a0 s).
  assert (extent.wf a0) as Hwf0 by (apply extent.init_wf; [lia|done]).
  rewrite bind_gets. unfold put_drive. rewrite bind_modify. fold (with_drive (set_device (Some dev) (the_drive dn s1)) s1).
  set (s2 := with_drive _ s1). assert (the_alloc dn s2 = a0) as Ha2 by (by apply the_alloc_put).
  rewrite (rm_alloc _ HE). cbn [negb].
  assert (length (allocs s2) = length (allocs s)) as Hl2 by (unfold s2, s1; simpl; apply length_insert).
  destruct (first_alloc s2 total) as (a1 & E1 & Ha1 & Hwf1 & Ht1 & Hb1); rewrite ?Ha2; try done; [by rewrite Hl2|intros b []%elem_of_nil|].
  rewrite (bind_eq _ _ s2 _ _ E1). change ((1 =? 0) || (1 =? extent.NO_BLOCK)) with false. cbv iota.
  set (s3 := with_alloc a1 s2) in *. assert (length (allocs s3) = length (allocs s)) as Hl3 by (rewrite <- Hl2; apply length_insert).
  destruct (mark_ok s3 0 1) as (a2 & E2 & Ha2' & Hwf2 & Ht2 & Hb2); rewrite ?Ha1; try done; [by rewrite Hl3|].
  rewrite (bind_eq _ _ s3 _ _ E2). set (s4 := with_alloc a2 s3) in *.
  assert (length (allocs s4) = length (allocs s)) as Hl4 by (rewrite <- Hl3; apply length_insert).
  destruct (mark_ok s4 1 1) as (a3 & E3 & Ha3 & Hwf3 & Ht3 & Hb3); rewrite ?Ha2'; try done; [by rewrite Hl4|].
  rewrite (bind_eq _ _ s4 _ _ E3). set (s5 := with_alloc a3 s4) in *. rewrite bind_modify.
  set (sd := new_sdesc E (Z.of_nat dn) nm size total 1). set (d6 := mk_drive _ _ sd _). fold (with_drive d6 s5). set (s6 := with_drive d6 s5).
  assert (the_drive dn s6 = d6) as Hd6 by (apply the_drive_put; unfold s5, s4, s3, s2, s1; simpl; by rewrite length_insert).
  assert (attached total s6) as Hat by (apply (blank_attached total s); [done|by rewrite Hd6|done|done]).
  pose proof (attached_on_device _ _ Hat) as Hod6. set (s7 := with_bounce s6) in *.
  assert (storage_ok sd) as Hsd by (apply new_sdesc_ok; done).
  destruct (storage_block_ok sd Hsd) as (raw & Hraw & Hlen & Hdesc).
  destruct (write_blocks_ok dn dev total E s7 0 1 raw Hod6) as (s8 & E8 & Hw8); [lia..|].
  rewrite (bind_eq _ _ s6 true s8).
  2:{ unfold minimafs_write_storage_desc. rewrite bind_gets, Hd6. cbn [sdesc d6]. rewrite (bind_lift _ _ s6 raw) by done.
      pose proof (storage_text_length sd Hsd). rewrite (proj2 (Z.leb_gt _ _)) by (unfold MINIMAFS_BLOCK_SIZE; lia).
      by rewrite (write_bounce total). }
  rewrite (rm_alloc _ HE). cbn [negb]. destruct empty_root_block as (rawr & Hrr & Hrl & Hrp). rewrite (bind_lift _ _ s8 rawr) by done.
  pose proof (od_written dn dev total _ _ _ _ _ Hod6 Hw8) as Hod8.
  destruct (write_blocks_ok dn dev total E s8 1 1 rawr Hod8) as (s9 & E9 & Hw9); [lia..|].
  exists s9. split; [exact E9|]. pose proof (od_written dn dev total _ _ _ _ _ Hod8 Hw9) as Hod9.
  assert (∀ A (f : fsys → A), (∀ x st, f (set_store st x) = f x) → (∀ x l, f (set_bounce l x) = f x) → f s9 = f s6) as Hsame.
  { intros A f Hst Hbo. rewrite (wr_frame _ _ _ _ _ _ Hw9), Hst, (wr_frame _ _ _ _ _ _ Hw8), Hst. unfold s7, with_bounce.
    destruct (nth dn (bounce s6) false); [done|apply Hbo]. }
  assert (the_alloc dn s9 = a3) as Ha9 by (by rewrite (Hsame _ (the_alloc dn))).
  assert (the_drive dn s9 = d6) as Hd9 by (by rewrite (Hsame _ (the_drive dn))).
  split; [split|].
  - done.
  - rewrite (Hsame _ (λ s, length (drives s))), (Hsame _ (λ s, length (allocs s))) by done.
    unfold s6, with_drive. simpl. by rewrite !length_insert.
  - rewrite Hd9. simpl. change (mounted (the_drive dn s1) = false). done.
  - rewrite Ha1 in Ht2, Hb2. rewrite Ha2' in Ht3, Hb3. rewrite Ha9. split_and!; [done|congruence|].
    intros b. rewrite Hb3, Hb2, Hb1, Ht2, Ht1. lia.
  - by rewrite Hd9.
  - rewrite Hd9, (written_other _ _ _ _ _ _ _ _ Hw9) by lia. by rewrite (written_same _ _ _ _ _ _ Hw8) by (done || lia).
  - by rewrite (written_same _ _ _ _ _ _ Hw9) by (done || lia).
  - rewrite (wr_devs _ _ _ _ _ _ Hw9), (wr_devs _ _ _ _ _ _ Hw8). unfold s7, with_bounce. by destruct (nth dn _ _).
Qed.
(** ** Mounting *)

Lemma self_test_ok s total : on_device dn dev total s → 1 ≤ total → (dn < length (drives s))%nat →
  ∃ t, self_test_once E dn dev s = Ret (true, set_tested t s).
Proof.
  intros Hod Ht Hl. unfold self_test_once. rewrite bind_gets. destruct (nth dn (tested s) false).
  { exists (tested s). by destruct s. }
  assert (minimafs_self_test_drive E dn dev s = Ret (true, s)) as Hst.
  { unfold minimafs_self_test_drive. rewrite bind_gets. destruct (od_sector _ _ _ _ Hod) as [Hss Hmod].
    rewrite (proj2 (Z.eqb_neq _ 0)) by lia. rewrite (bind_eq _ _ s true s).
    2:{ unfold ensure_dma_bounce. by rewrite bind_gets, (od_bounce _ _ _ _ Hod). }
    rewrite Hmod. cbn [negb Z.eqb]. rewrite bind_gets. destruct (od_spb dn dev total s Hod) as [Hspb _].
    pose proof (od_size _ _ _ _ Hod) as Hsz. set (spb := MINIMAFS_BLOCK_SIZE / _) in *.
    rewrite (bind_lift _ _ s (Some (blks dev (store s) 0 1))); [done|].
    rewrite blockdev_read_spec by (try apply Hod; unfold is_u64, is_u32; lia).
    rewrite (proj2 (Z.eqb_neq _ _)) by lia. rewrite bool_decide_eq_true_2 by nia. do 2 f_equal. unfold blks.
    destruct (od_spb dn dev total s Hod) as [_ Hm]. fold spb in Hm. by rewrite Z.mul_0_l, Hm, Z.mul_1_l. }
  rewrite (bind_eq _ _ s _ _ Hst). cbn [negb]. rewrite bind_modify. by eexists.
Qed.

Lemma on_device_same s s' total : on_device dn dev total s → device (the_drive dn s') = Some dev → store s' = store s →
  bounce s' = bounce s → on_device dn dev total s'.
Proof. intros [] Hd Hs Hb. by split; rewrite ?Hs, ?Hb. Qed.

(** A change of [mounted_drive] is not seen by the block I/O. *)
Lemma the_dev_mounted (st : storage D) n i :
  the_dev i (set_devs (<[dev := set_mounted_drive n (the_dev dev st)]> (devs st)) st) =
  if decide (i = dev ∧ (dev < length (devs st))%nat) then set_mounted_drive n (the_dev i st) else the_dev i st.
Proof.
  unfold the_dev. simpl. rewrite !nth_lookup. case_decide as Hc.
  - destruct Hc as [-> Hl]. by rewrite list_lookup_insert_eq.
  - destruct (decide (i = dev)) as [->|]; [|by rewrite list_lookup_insert_ne].
    rewrite list_insert_ge by lia. done.
Qed.

Lemma mounted_table (st : storage D) n : table_ok st → table_ok (set_devs (<[dev := set_mounted_drive n (the_dev dev st)]> (devs st)) st).
Proof.
  intros Hok. apply insert_dev_ok; [done|done|]. intros Hu. cbn [used set_mounted_drive] in Hu.
  pose proof Hok as [_ Hall]. pose proof (Hall dev _ (the_dev_used dev st Hu) Hu) as Hi.
  unfold dev_ok in *. cbn [kind set_mounted_drive]. destruct (kind (the_dev dev st)) eqn:Hk; [exact Hi|].
  destruct Hi as (p & pd & Hp & Hpd & Hpu & Hpk & Hrest). exists p, pd. split; [done|]. split; [|done].
  cbn [devs set_devs]. rewrite list_lookup_insert_ne; [done|]. intros ->.
  rewrite (the_dev_lookup _ _ _ Hpd) in Hk. congruence.
Qed.

Lemma mounted_fields (st : storage D) n {A} (f : blockdev → A) : (∀ d, f (set_mounted_drive n d) = f d) → ∀ i,
  f (the_dev i (set_devs (<[dev := set_mounted_drive n (the_dev dev st)]> (devs st)) st)) = f (the_dev i st).
Proof. intros Hf i. rewrite the_dev_mounted. by case_decide. Qed.

Lemma mounted_bytes (st : storage D) n b k : blks dev (set_devs (<[dev := set_mounted_drive n (the_dev dev st)]> (devs st)) st) b k = blks dev st b k.
Proof.
  unfold blks. apply list_fmap_ext. intros i x _. unfold dev_byte, dev_start, dev_disk.
  rewrite !(mounted_fields st n kind), !(mounted_fields st n Block.parent), !(mounted_fields st n ctx),
    !(mounted_fields st n start_lba), !(mounted_fields st n sector_size) by done. done.
Qed.

Lemma on_device_mounted s total n : on_device dn dev total s →
  on_device dn dev total (set_store (set_devs (<[dev := set_mounted_drive n (the_dev dev (store s))]> (devs (store s))) (store s)) s).
Proof.
  intros []. split; simpl; try done; [by apply mounted_table|..];
    unfold dev_disk; rewrite ?(mounted_fields (store s) n kind), ?(mounted_fields (store s) n Block.parent),
    ?(mounted_fields (store s) n used), ?(mounted_fields (store s) n can_write),
    ?(mounted_fields (store s) n sector_size), ?(mounted_fields (store s) n sectors) by done; done.
Qed.
Lemma empty_root_dirs total : 16 ≤ total → dirs_ok 1 total {[1 := root_folder 1]}.
Proof.
  intros Ht. assert (∀ A (f : minimafs_folder_desc → list A), f (root_folder 1) = [] → over_dirs f {[1 := root_folder 1]} = []) as Ho.
  { intros A f Hf. unfold over_dirs. rewrite map_to_list_singleton. simpl. by rewrite Hf. }
  split.
  - intros b d [<- <-]%lookup_singleton_Some. split; [|done]. apply dir_good_iff. simpl.
    split_and!; try done; try (by apply (bool_decide_unpack _)); unfold MINIMAFS_MAX_PATH, MINIMAFS_MAX_ROOT_ENTRIES; lia.
  - intros b. rewrite Ho by done. rewrite lookup_singleton_is_Some. set_solver.
  - unfold owned. rewrite !Ho by done. by apply (bool_decide_unpack _).
  - intros b. unfold owned. rewrite !Ho by done. simpl. rewrite !elem_of_cons, elem_of_nil. lia.
Qed.

Lemma mount_ok fuel size total nm s : (dn < MAX_DRIVES)%nat → formatted size total nm s → name_fits nm → is_u64 size →
  total = size / MINIMAFS_BLOCK_SIZE → 16 ≤ total ≤ MINIMAFS_MAX_BLOCKS →
  mounted_drive (the_dev dev (store s)) < 0 → total * MINIMAFS_BLOCK_SIZE ≤ blockdev_size_bytes (the_dev dev (store s)) →
  ∃ s', minimafs_mount (S fuel) E (Some dev) (Z.of_nat dn) s = Ret (1, s') ∧ volume {[1 := root_folder 1]} s' ∧
    root_of dn s' = 1 ∧ total_of s' = total ∧ (∀ b, extent.taken (the_alloc dn s') b ↔ b = 0 ∨ b = 1) ∧
    handles s' = handles s.
Proof.
  intros Hdn [Hod [Hld Hla] Hmt (Hwf & Htot & Htk) Hsd Hdesc Hroot] Hnm Hsize Hts Htr Hmd Hbytes.
  pose proof (new_sdesc_ok nm size total Hdn Hnm Hsize Htr) as Hsdok. set (sd := new_sdesc _ _ _ _ _ _) in *.
  unfold MINIMAFS_MAX_BLOCKS in Htr.
  unfold minimafs_mount. rewrite get_drive_ok by done. rewrite !bind_gets, Hmt.
  rewrite (proj2 (Z.leb_gt _ _)) by lia. unfold put_drive. rewrite bind_modify.
  fold (with_drive (set_device (Some dev) (the_drive dn s)) s). set (s1 := with_drive _ s).
  assert (the_drive dn s1 = set_device (Some dev) (the_drive dn s)) as Hd1 by (by apply the_drive_put).
  assert (on_device dn dev total s1) as Hod1 by (eapply (on_device_same s); [done|by rewrite Hd1|done|done]).
  assert (length (drives s1) = length (drives s)) as Hl1 by (unfold s1; simpl; apply length_insert).
  destruct (self_test_ok s1 total Hod1) as (t & Et); [lia|by rewrite Hl1|].
  rewrite (bind_eq _ _ s1 _ _ Et). cbn [negb]. set (s2 := set_tested t s1). rewrite (rm_alloc _ HE). cbn [negb].
  assert (on_device dn dev total s2) as Hod2.
  { eapply (on_device_same s1); [done| |done|done]. change (the_drive dn s2) with (the_drive dn s1). by rewrite Hd1. }
  rewrite (bind_eq _ _ s2 (Some sd) s2).
  2:{ unfold minimafs_read_storage_desc. rewrite (rm_alloc _ HE). cbn [negb].
      rewrite (bind_eq _ _ s2 _ s2) by (eapply read_blocks_ok; [done|lia..]). cbv beta iota.
      change (store s2) with (store s). rewrite Hdesc, Hsd.
      assert (storage_valid sd = true) as ->; [|done]. unfold storage_valid. cbn [magic total_blocks total_size root_block sd new_sdesc].
      assert (size ≠ 0) by (intros ->; rewrite Z.div_0_l in Hts by done; lia).
      rewrite Z.eqb_refl, (proj2 (Z.eqb_neq total 0)), (proj2 (Z.eqb_neq size 0)) by lia. done. }
  cbv beta iota. rewrite bind_gets. change (store s2) with (store s).
  cbn [magic total_blocks root_block sd new_sdesc]. rewrite Z.eqb_refl. rewrite (proj2 (Z.eqb_neq total 0)) by lia.
  change (1 =? 0) with false. cbn [negb orb]. rewrite (proj2 (Z.leb_gt _ _)) by lia.
  rewrite u64_small by (unfold is_u64, MINIMAFS_BLOCK_SIZE; lia). rewrite (proj2 (Z.ltb_ge _ _)) by lia.
  rewrite bind_modify. set (d3 := mk_drive false _ _ _). fold (with_drive d3 s2). set (s3 := with_drive d3 s2).
  assert (the_drive dn s3 = d3) as Hd3 by (apply the_drive_put; change (drives s2) with (drives s1); by rewrite Hl1).
  rewrite bind_gets. unfold put_alloc. rewrite bind_modify. set (a0 := extent.block_alloc_init total _).
  fold (with_alloc a0 s3). set (s4 := with_alloc a0 s3).
  assert (the_alloc dn s4 = a0) as Ha4 by (by apply the_alloc_put).
  assert (extent.wf a0) as Hwf0 by (apply extent.init_wf; [lia|apply Hwf]).
  assert (length (allocs s4) = length (allocs s)) as Hl4 by (unfold s4; simpl; apply length_insert).
  destruct (mark_ok s4 0 1) as (a5 & E5 & Ha5 & Hwf5 & Ht5 & Hb5); rewrite ?Ha4; try done; [by rewrite Hl4|].
  rewrite (bind_eq _ _ s4 _ _ E5). set (s5 := with_alloc a5 s4) in *. rewrite Ha4 in Ht5, Hb5. change (extent.total_blocks a0) with total in Ht5, Hb5.
  assert (length (allocs s5) = length (allocs s)) as Hl5 by (rewrite <- Hl4; apply length_insert).
  destruct (mark_ok s5 1 1) as (a6 & E6 & Ha6 & Hwf6 & Ht6 & Hb6); rewrite ?Ha5; try done; [by rewrite Hl5|].
  rewrite (bind_eq _ _ s5 _ _ E6). set (s6 := with_alloc a6 s5) in *. rewrite Ha5 in Ht6, Hb6.
  assert (on_device dn dev total s6) as Hod6.
  { eapply (on_device_same s2); [done| |done|done]. change (the_drive dn s6) with (the_drive dn s3). by rewrite Hd3. }
  rewrite (bind_eq _ _ s6 tt s6).
  2:{ cbn [minimafs_scan_directory]. rewrite (bind_eq _ _ s6 (Some (root_folder 1)) s6); [done|].
      unfold minimafs_read_folder_desc_block. rewrite (bind_eq _ _ s6 _ s6) by (eapply read_blocks_ok; [done|lia..]).
      cbv beta iota. by rewrite (bind_lift _ _ s6 (root_folder 1)). }
  assert (frame s6) as Hf6.
  { split.
    - split; [|change (allocs s6) with (<[dn := a6]> (allocs s5)); by rewrite length_insert, Hl5]. change (drives s6) with (<[dn := d3]> (drives s1)).
      by rewrite length_insert, Hl1.
    - rewrite Ha6, Ht6, Ht5. exact Hod6.
    - by rewrite Ha6.
    - change (the_drive dn s6) with (the_drive dn s3). rewrite Hd3. simpl. split; [exact Hsdok|]. split; [done|lia]. }
  destruct (refresh_ok E HE dn dev s6 Hf6) as (s7 & E7 & Hm7 & Ha7 & Hd7). rewrite (bind_eq _ _ s6 tt s7) by done.
  rewrite bind_gets, bind_modify. set (d8 := mk_drive true _ _ _). fold (with_drive d8 s7). set (s8 := with_drive d8 s7).
  pose proof (mv_frame _ _ _ _ _ Hm7) as Hf7.
  assert (the_drive dn s8 = d8) as Hd8 by (apply the_drive_put, Hf7).
  unfold put_mounted_drive. rewrite bind_modify. eexists. split; [done|].
  set (s9 := set_store _ s8). change (store s8) with (store s7) in s9.
  assert (the_drive dn s9 = d8) as Hd9 by done. assert (the_alloc dn s9 = a6) as Ha9.
  { change (the_alloc dn s9) with (the_alloc dn s7). by rewrite Ha7. }
  assert (root_of dn s9 = 1) as Hr9.
  { unfold root_of. rewrite Hd9. unfold d8. simpl. rewrite Hd7. change (the_drive dn s6) with (the_drive dn s3). by rewrite Hd3. }
  assert (total_of s9 = total) as Ht9 by (rewrite Ha9; congruence).
  assert (∀ b, extent.taken (the_alloc dn s9) b ↔ b = 0 ∨ b = 1) as Htk9.
  { intros b. rewrite Ha9, Hb6, Hb5, Ht5. unfold extent.taken at 1. simpl. rewrite extent.elem_blocks_nil. lia. }
  split; [|split_and!; try done; change (handles s9) with (handles s7); by rewrite (mv_handles _ _ _ _ _ Hm7)].
  split.
  - split.
    + split; [unfold s9, s8; simpl; rewrite length_insert|]; apply Hf7.
    + rewrite Ht9. apply (on_device_mounted s8). eapply (on_device_same s7); [|by rewrite Hd8; apply Hf7|done|done].
      replace total with (total_of s7) by (rewrite Ha7, Ha6; congruence). apply Hf7.
    + by rewrite Ha9.
    + rewrite Hd9. unfold d8. simpl. apply Hf7.
  - by rewrite Hd9.
  - rewrite Hr9, Ht9. apply empty_root_dirs. lia.
  - intros b d [<- <-]%lookup_singleton_Some. unfold s9. simpl. rewrite mounted_bytes.
    rewrite (mv_keep _ _ _ _ _ Hm7) by done. exact Hroot.
  - intros x. rewrite Hr9, Htk9. unfold owned, over_dirs. rewrite map_to_list_singleton. simpl.
    rewrite !elem_of_cons, elem_of_nil. tauto.
Qed.

(** Formatting and mounting. *)
Lemma format_mount_ok fuel size nm s : let total := size / MINIMAFS_BLOCK_SIZE in
  blank total s → name_fits nm → is_u64 size →
  ∃ s1 s2, minimafs_format E (Some dev) size (Z.of_nat dn) nm s = Ret (true, s1) ∧
    minimafs_mount (S fuel) E (Some dev) (Z.of_nat dn) s1 = Ret (1, s2) ∧ volume {[1 := root_folder 1]} s2 ∧
    root_of dn s2 = 1 ∧ total_of s2 = total ∧ (∀ b, extent.taken (the_alloc dn s2) b ↔ b = 0 ∨ b = 1).
Proof.
  intros total Hb Hnm Hsize. destruct (format_ok size nm s Hb Hnm Hsize) as (s1 & E1 & Hf & Hdevs).
  destruct Hb as [(Hdn & _) _ _ _ _ _ Ht [Hs1 Hs2] Hmd _]. fold total in Hf, Ht.
  destruct (mount_ok fuel size total nm s1 Hdn Hf) as (s2 & E2 & Hv & Hr & Htt & Htk & _); try done.
  - by rewrite (the_dev_devs _ _ _ Hdevs).
  - rewrite (the_dev_devs _ _ _ Hdevs). unfold blockdev_size_bytes. unfold MINIMAFS_BLOCK_SIZE, MINIMAFS_MAX_BLOCKS in *.
    rewrite u64_small by (unfold is_u64; lia). lia.
  - exists s1, s2. done.
Qed.
End fsmount.
End fsmount.
