(* ===== verification/FsSafe.v ===== *)
(** * MinimaFS: files read back and searched

    A file put into a folder can be opened ([put_openable], [write_holds_ok])
    and read at any place ([write_read_ok]); the loop of [findinfile] finds the
    first occurrence of a text and never ends when there is none. The theorems
    of [FsClaims.v] are these lemmas and those of the files before. *)

From S2P Require Import Prelude CString Time Net Block Extent FsText Fs FsDisk FsFile FsInv FsVol FsOps FsSpec FsRead FsMount.
Import fstext minimafs fsdisk fsfile fsinv fsvol fsops fsspec fsread fsmount.

Open Scope c_scope.

Module fssafe.

(** ** The folder after a file was put into it *)

Lemma find_dir_insert l i e e0 t : l !! i = Some e0 → is_dir e0 = false → is_dir e = false →
  find_subdir (<[i := e]> l) t = find_subdir l t.
Proof.
  unfold is_dir. revert i. induction l as [|x l IH]; intros [|i]; simpl; [done..| |].
  - intros [= ->] -> ->. done.
  - intros Hi H0 He. by rewrite IH.
Qed.

Lemma find_dir_snoc l e t : is_dir e = false → find_subdir (l ++ [e]) t = find_subdir l t.
Proof. unfold is_dir. induction l as [|x l IH]; simpl; [by intros ->|]. intros He. by rewrite IH. Qed.

Lemma find_dir_put name e d t : is_dir e = false → file_named name d → find_subdir (entries (put_entry name e d)) t = find_subdir (entries d) t.
Proof.
  intros He Hf. unfold put_entry. destruct (find_entry (entries d) name) as [i|] eqn:Hfe; simpl; [|by apply find_dir_snoc].
  destruct (find_entry_some _ _ _ Hfe) as (e0 & Hi & _). by eapply find_dir_insert; [done|eapply Hf|].
Qed.

Lemma walk_dirs_put dirs b d name e : dirs !! b = Some d → is_dir e = false → file_named name d → ∀ toks x,
  walk_dirs (<[b := put_entry name e d]> dirs) x toks = walk_dirs dirs x toks.
Proof.
  intros Hb He Hf. induction toks as [|t toks IH]; intros x; simpl; [done|]. destruct (decide (b = x)) as [<-|Hne].
  - rewrite lookup_insert_eq, Hb. simpl. rewrite find_dir_put by done.
    destruct (find_subdir (entries d) t) as [e0|]; simpl; [apply IH|done].
  - rewrite lookup_insert_ne by done. destruct (dirs !! x) as [d0|]; simpl; [|done].
    destruct (find_subdir (entries d0) t) as [e0|]; simpl; [apply IH|done].
Qed.

Lemma folder_at_put dirs root parent d name e : folder_at dirs root parent = Some d → dirs !! f_block_offset d = Some d →
  is_dir e = false → file_named name d → (∀ b d', dirs !! b = Some d' → f_block_offset d' = b) →
  folder_at (<[f_block_offset d := put_entry name e d]> dirs) root parent = Some (put_entry name e d).
Proof.
  intros Hd Hb He Hf Hok. unfold folder_at in *. rewrite folder_block_walk in *. rewrite (walk_dirs_put _ _ d) by done.
  destruct (walk_dirs dirs root (tokens [] parent)) as [b|]; [|done]. simpl in *. rewrite <- (Hok _ _ Hd).
  by rewrite lookup_insert_eq.
Qed.

Lemma find_entry_put name e d : e_name e = name →
  ∃ i, find_entry (entries (put_entry name e d)) name = Some i ∧ entries (put_entry name e d) !! i = Some e.
Proof.
  intros He. unfold put_entry. destruct (find_entry (entries d) name) as [i|] eqn:Hf; simpl.
  - exists i. destruct (find_entry_some _ _ _ Hf) as (e0 & Hi & _).
    split; [|by rewrite list_lookup_insert_eq by (by eapply lookup_lt_Some)].
    revert i Hf Hi. induction (entries d) as [|x l IH]; intros i; simpl; [done|]. case_bool_decide as Hx.
    + intros [= <-] _. simpl. by rewrite bool_decide_eq_true_2.
    + destruct (find_entry l name) as [j|]; simpl; [|done]. intros [= <-] Hi. simpl in *.
      rewrite bool_decide_eq_false_2 by done. by rewrite (IH j).
  - exists (length (entries d)). split; [|apply list_lookup_middle; done].
    induction (entries d) as [|x l IH]; simpl in *; [by rewrite bool_decide_eq_true_2|].
    case_bool_decide as Hx; [done|]. destruct (find_entry l name); [done|]. by rewrite IH.
Qed.

(** The tags of a concrete text are decided by computation. *)
Lemma tags_check l : forallb (λ tag, bool_decide (sub (pat (txt tag)) l = None)) header_tags = true → no_tags l.
Proof.
  intros Hall tag Hin. rewrite forallb_forall in Hall. specialize (Hall tag (proj1 (list_elem_of_In _ _) Hin)).
  by apply bool_decide_eq_true in Hall.
Qed.

Section claims.
  Context {D : Type} `{BlockDriver D}.
  Abbreviation fsys := (fsys (D := D)).
  Context (E : env) (HE : roomy E) (dn dev : nat).
  Abbreviation root_of := (root_of dn).
  Abbreviation volume := (volume dn dev).

(** ** Written files are read back *)

(** Names, types and data that a header can carry and that cannot be taken
    for one, and room for a NUL in the first block. *)
Record storable (m0 : minimafs_file_metadata) (l : list Z) : Prop := {
  st_fields : bare 64 (filetype m0) ∧ bare 16 (fileformat m0) ∧ quoted 256 (filename m0) ∧ quoted 1024 (parent_folder m0);
  st_nul : 0 ∉ filetype m0 ∧ 0 ∉ fileformat m0 ∧ 0 ∉ filename m0 ∧ 0 ∉ parent_folder m0;
  st_tags : no_tags (l ++ FOOTER);
  st_first : header_capacity m0 + Z.of_nat (length l) + 5 ≤ 4096 ∨ 0 ∈ take (Z.to_nat (4096 - header_capacity m0)) l
}.

(** Metadata as the two writing operations make it. *)
Definition fresh_meta (m0 : minimafs_file_metadata) : Prop :=
  created_date m0 = now E ∧ last_changed m0 = now E ∧ runnable m0 = false ∧ entrypoint m0 = 0 ∧ run_with m0 = [] ∧
  header_capacity m0 ≤ 4096.

Lemma put_openable dirs d name m0 l e m s s' : file_put dn dev dirs d name m0 l e m s s' → storable m0 l → fresh_meta m0 →
  Z.of_nat (length l) < 4294950000 → 0 < e_block_offset e → e_block_offset e + e_block_count e ≤ extent.total_blocks (the_alloc dn s') →
  openable dn dev e m l s'.
Proof.
  intros [[Hdir _] Hc (fl & -> & Hfl) Hv Hst _] [(Hty & Hfm & Hnm & Hpf) (N1 & N2 & N3 & N4) Htags Hfirst] (Hcr & Hlc & Hrun & Hen & Hrw & Hcap) Hl Ho Hot.
  destruct (rm_now _ HE) as [Hn1 Hn2]. set (m := set_blocks _ _ _) in *.
  assert (header_capacity m = header_capacity m0) as Hcm by done.
  assert (Z.of_nat (length (header_text m)) < header_capacity m0) as Hhl.
  { pose proof (header_text_length m) as Ht. change (entrypoint m) with (entrypoint m0) in Ht. rewrite Hen in Ht.
    specialize (Ht ltac:(done)). lia. }
  assert (header_ok m) as Hm.
  { split; simpl; rewrite ?Hcr, ?Hlc, ?Hrun, ?Hen, ?Hrw; try done.
    - split; [apply not_elem_of_nil|]. split; [done|]. split; [done|simpl; lia].
    - unfold is_u32. lia. }
  split; try done.
  - split; [done|]. split; [|by rewrite Hcm]. unfold nul_free. simpl. rewrite Hcr, Hlc, Hrw.
    split_and!; try done; apply not_elem_of_nil.
  - split; [done|]. change (file_length m) with fl. lia.
  - destruct Hst as [k Hk]. pose proof Hk as Hk1.
    replace (e_block_count e) with (1 + (e_block_count e - 1)) in Hk1 by lia. rewrite blks_app in Hk1 by lia.
    pose proof (blks_length dev (store s') (e_block_offset e) 1 ltac:(lia)) as Hbl. unfold MINIMAFS_BLOCK_SIZE in Hbl.
    pose proof (blks_length dev (store s') (e_block_offset e) (e_block_count e) ltac:(lia)) as Hbl2. rewrite Hk in Hbl2.
    rewrite !length_app, length_replicate, footer_length in Hbl2. unfold MINIMAFS_BLOCK_SIZE in Hbl2.
    assert (blks dev (store s') (e_block_offset e) 1 = take 4096 (header_text m ++ l ++ FOOTER ++ replicate k 0)) as ->.
    { rewrite <- Hk1. replace 4096%nat with (length (blks dev (store s') (e_block_offset e) 1)) by lia. by rewrite take_app_length. }
    rewrite take_app_ge by lia. apply elem_of_app. right. destruct Hfirst as [Hshort|Hin].
    + apply list_elem_of_lookup. exists (length l + 5)%nat. rewrite lookup_take_lt by lia.
      rewrite lookup_app_r by lia. rewrite lookup_app_r by (rewrite footer_length; lia). rewrite footer_length.
      apply lookup_replicate_2. lia.
    + apply list_elem_of_lookup in Hin as [i Hi]. apply lookup_take_Some in Hi as [Hi Hlt].
      apply list_elem_of_lookup. exists i. rewrite lookup_take_lt by lia. by apply lookup_app_l_Some.
Qed.
Lemma volume_handles dirs s hs : volume dirs s → volume dirs (set_handles hs s).
Proof. intros [[? [] ? ?] ? ? ? ?]. by split; [split; [|split|..]|..]. Qed.

Lemma view_handles hd l s hs : view dn dev hd l s → view dn dev hd l (set_handles hs s).
Proof. done. Qed.

Definition free_handle (s : fsys) (h : nat) : Prop :=
  first_index (λ h, match h with None => true | Some _ => false end) (handles s) = Some h.

Lemma open_ok dirs s p ro local parent name d i e m l h :
  volume dirs s → names dn p local parent name → folder_at dirs (root_of s) parent = Some d →
  find_entry (entries d) name = Some i → entries d !! i = Some e → is_dir e = false → openable dn dev e m l s → free_handle s h →
  ∃ hd, minimafs_open E p ro s = Ret (Some h, set_handles (<[h := Some hd]> (handles s)) s) ∧ view dn dev hd l s ∧
    h_position hd = 0 ∧ h_streaming hd = (STREAMING_THRESHOLD <? Z.of_nat (length l)) ∧ h_read_only hd = ro ∧
    h_meta hd = set_blocks (e_block_offset e) (e_block_count e) m ∧ h_modified hd = false.
Proof.
  intros Hv Hn Hd Hf Hi Hdir Ho Hh. pose proof Hn as (_ & _ & _ & Hsplit).
  destruct (open_entry_ok E HE dn dev dirs s p ro e m l h Hv Hdir Ho Hh) as (hd & Ho' & Hrest). exists hd. split; [|done].
  unfold minimafs_open. rewrite (bind_eq _ _ s _ s) by (by eapply resolve_names_ok). cbv beta iota.
  rewrite (bind_lift _ _ s (parent, name)) by done. erewrite open_parent by done. rewrite Hf.
  rewrite (bind_mret (entries d !! i)). by rewrite Hi.
Qed.

Lemma seek_ok dirs s h hd l off : volume dirs s → nth h (handles s) None = Some hd → view dn dev hd l s → 0 ≤ off →
  ∃ hd', minimafs_seek h off s = Ret (true, set_handles (<[h := Some hd']> (handles s)) s) ∧ view dn dev hd' l s ∧
    h_position hd' = Z.min off (Z.of_nat (length l)).
Proof.
  intros Hv Hh Hview Hoff. pose proof Hview as (Hdn & Hsz & Hsz32 & Hp & Hrest). unfold minimafs_seek.
  rewrite bind_gets, Hh. unfold put_handle. rewrite bind_modify. eexists. split; [done|].
  assert ((if h_data_size hd <? off then h_data_size hd else off) = Z.min off (Z.of_nat (length l))) as ->.
  { destruct (Z.ltb_spec (h_data_size hd) off); lia. }
  split; [|done]. unfold view. simpl. split_and!; try done; lia.
Qed.

Lemma nth_insert_some {A} (l : list (option A)) h x y : nth h l None = Some y → nth h (<[h := Some x]> l) None = Some x.
Proof.
  intros Hn. rewrite nth_lookup in Hn |- *. rewrite list_lookup_insert_eq; [done|].
  apply lookup_lt_is_Some_1. destruct (l !! h); [done|]. done.
Qed.

(** Reading at any offset of an open file. *)
Lemma seek_read_ok dirs s h hd l off n : volume dirs s → nth h (handles s) None = Some hd → view dn dev hd l s → 0 ≤ off → 0 ≤ n →
  ∃ s1 s2, minimafs_seek h off s = Ret (true, s1) ∧
    minimafs_read E h n s1 = Ret (take (Z.to_nat n) (drop (Z.to_nat off) l), s2) ∧ store s2 = store s.
Proof.
  intros Hv Hh Hview Hoff Hn. destruct (seek_ok dirs s h hd l off Hv Hh Hview Hoff) as (hd1 & E1 & Hview1 & Hp1).
  set (s1 := set_handles (<[h:=Some hd1]> (handles s)) s) in *.
  destruct (read_ok E dn dev dirs s1 l h hd1 n) as (hd2 & E2 & _); [by apply volume_handles|by eapply nth_insert_some|done|done|].
  assert (drop (Z.to_nat off) l = drop (Z.to_nat (h_position hd1)) l) as ->.
  { rewrite Hp1. destruct (decide (off ≤ Z.of_nat (length l))); [f_equal; lia|]. by rewrite !drop_ge by lia. }
  exists s1. eexists. split; [exact E1|]. split; [exact E2|done].
Qed.

Lemma seg_meta_fresh name ft ff parent d : fresh_meta (seg_meta E name ft ff parent d).
Proof.
  destruct (seg_meta_fits E HE name ft ff parent d) as [_ Hc]. unfold fresh_meta. split_and!; try done;
    unfold seg_meta; by destruct (_ ≫= _).
Qed.

Lemma first_index_nth {A} (f : A → bool) l h : first_index f l = Some h → is_Some (l !! h).
Proof.
  revert h. induction l as [|x l IH]; intros h; simpl; [done|]. destruct (f x); [intros [= <-]; eauto|].
  destruct (first_index f l) as [j|]; simpl; [|done]. intros [= <-]. by apply IH.
Qed.

(** The file [name] of [d] holds [l]. *)
Record holds (dirs : dirmap) (s : fsys) (p local parent name : list Z) (d : minimafs_folder_desc) (i : nat)
    (e : minimafs_dir_entry) (m : minimafs_file_metadata) (l : list Z) : Prop := {
  ho_names : names dn p local parent name;
  ho_folder : folder_at dirs (root_of s) parent = Some d;
  ho_entry : find_entry (entries d) name = Some i ∧ entries d !! i = Some e ∧ is_dir e = false;
  ho_open : openable dn dev e m l s
}.

(** What is put is held. *)
Lemma put_holds dirs s s' p local parent name d m0 l e m : volume dirs s → names dn p local parent name →
  folder_at dirs (root_of s) parent = Some d → file_named name d → (length name < 64)%nat → e_name e = take 63 name →
  file_put dn dev dirs d name m0 l e m s s' → storable m0 l → fresh_meta m0 → Z.of_nat (length l) < 4294950000 →
  ∃ i, holds (<[f_block_offset d := put_entry name e d]> dirs) s' p local parent name (put_entry name e d) i e m l.
Proof.
  intros Hv Hn Hd Hfile Hnl Hname Hput Hst Hfm Hlen. rewrite take_ge in Hname by lia. pose proof Hput as [[Hdir _] _ _ Hv1 _ Hm].
  assert (∀ b d', dirs !! b = Some d' → f_block_offset d' = b) as Hok by (intros b d' Hb; by apply (do_good _ _ _ (v_dirs _ _ _ _ Hv))).
  pose proof (folder_listed _ _ _ _ _ _ Hv Hd) as Hb.
  pose proof (folder_at_put _ _ _ _ name e Hd Hb Hdir Hfile Hok) as Hd1. set (d1 := put_entry name e d) in *.
  rewrite <- (mv_root _ _ _ _ _ Hm) in Hd1.
  destruct (find_entry_put name e d Hname) as (i & Hf & Hi). fold d1 in Hf, Hi.
  assert (run_at name d1 = (e_block_offset e, e_block_count e)) as Hra.
  { unfold run_at. rewrite Hf. simpl. by rewrite Hi. }
  assert (old_run dn (e_block_offset e) (e_block_count e) s') as Hrun.
  { pose proof (run_at_old dn dev _ _ (f_block_offset d) d1 name Hv1) as Hro. rewrite Hra in Hro. apply Hro.
    - by rewrite lookup_insert_eq.
    - intros j e' Hj He'. rewrite Hf in Hj. injection Hj as <-. rewrite Hi in He'. by injection He' as <-. }
  destruct (fp_count _ _ _ _ _ _ _ _ _ _ _ Hput) as [Hc _]. exists i. split; [done|done|done|].
  eapply put_openable; [done..| |]; destruct Hrun as [[? ?]|?]; lia.
Qed.

Lemma write_holds_ok dirs s p local parent name d l1 l2 ft ff :
  volume dirs s → names dn p local parent name → folder_at dirs (root_of s) parent = Some d → roomy_folder d →
  plain_name name → (length name < 64)%nat → file_named name d → Z.of_nat (length (l1 ++ l2)) < 4294950000 →
  storable (seg_meta E name (default (txt "binary") ft) (default (txt "bin") ff) parent d) (l1 ++ l2) →
  ∃ r s1, minimafs_write_file_segments E p (Some l1) (Z.of_nat (length l1)) (Some l2) (Z.of_nat (length l2)) ft ff s = Ret (r, s1) ∧
    if r : bool then ∃ dirs1 d1 i e m, volume dirs1 s1 ∧ holds dirs1 s1 p local parent name d1 i e m (l1 ++ l2) ∧ handles s1 = handles s
    else volume dirs s1 ∧ moved dn dev (λ _, True) s s1 ∧ no_run dn (blocks_wanted (Z.of_nat (length (l1 ++ l2)))) s.
Proof.
  intros Hv Hn Hd Hroom Hpn Hnl Hfile Hlen Hst. pose proof Hlen as Hlen'. rewrite length_app, Nat2Z.inj_add in Hlen.
  destruct (write_segments_ok E HE dn dev dirs s p local parent name d (Some l1) (Z.of_nat (length l1)) l1
    (Some l2) (Z.of_nat (length l2)) l2 ft ff) as (r & s1 & E1 & Hput); try done; try (by split; [|left]).
  exists r, s1. split; [done|]. destruct r; [|done]. destruct Hput as (e & m & Hname & Hput).
  destruct (put_holds dirs s s1 p local parent name d _ (l1 ++ l2) e m Hv Hn Hd Hfile Hnl Hname Hput Hst) as [i Hho];
    [apply seg_meta_fresh|done|]. eexists _, _, i, e, m. split; [apply Hput|]. split; [exact Hho|apply (fp_moved _ _ _ _ _ _ _ _ _ _ _ Hput)].
Qed.

Lemma write_read_ok dirs s p local parent name d l1 l2 ft ff h :
  volume dirs s → names dn p local parent name → folder_at dirs (root_of s) parent = Some d → roomy_folder d →
  plain_name name → (length name < 64)%nat → file_named name d → Z.of_nat (length (l1 ++ l2)) < 4294950000 →
  storable (seg_meta E name (default (txt "binary") ft) (default (txt "bin") ff) parent d) (l1 ++ l2) → free_handle s h →
  ∃ r s1, minimafs_write_file_segments E p (Some l1) (Z.of_nat (length l1)) (Some l2) (Z.of_nat (length l2)) ft ff s = Ret (r, s1) ∧
    if r : bool then
      ∃ s2, minimafs_open E p true s1 = Ret (Some h, s2) ∧
        ∀ off n, 0 ≤ off → 0 ≤ n → ∃ s3 s4, minimafs_seek h off s2 = Ret (true, s3) ∧
          minimafs_read E h n s3 = Ret (take (Z.to_nat n) (drop (Z.to_nat off) (l1 ++ l2)), s4)
    else volume dirs s1 ∧ moved dn dev (λ _, True) s s1 ∧ no_run dn (blocks_wanted (Z.of_nat (length (l1 ++ l2)))) s.
Proof.
  intros Hv Hn Hd Hroom Hpn Hnl Hfile Hlen Hst Hh.
  destruct (write_holds_ok dirs s p local parent name d l1 l2 ft ff) as (r & s1 & E1 & Hr); try done.
  exists r, s1. split; [done|]. destruct r; [|done].
  destruct Hr as (dirs1 & d1 & i & e & m & Hv1 & [_ Hd1 (Hf & Hi & Hdir) Hop] & Hhs).
  assert (free_handle s1 h) as Hh1 by (unfold free_handle; by rewrite Hhs).
  destruct (open_ok _ s1 p true local parent name d1 i e m (l1 ++ l2) h Hv1 Hn Hd1 Hf Hi Hdir Hop Hh1) as (hd & E2 & Hview & _).
  eexists. split; [exact E2|]. intros off n Hoff Hnn.
  edestruct seek_read_ok as (s3 & s4 & E3 & E4 & _); [by apply volume_handles|..|exact Hoff|exact Hnn|by exists s3, s4].
  - simpl. rewrite nth_lookup, list_lookup_insert_eq; [done|]. apply lookup_lt_is_Some_1. by eapply first_index_nth.
  - by apply view_handles.
Qed.
(** ** Searching a file *)

Lemma sub_take_none p (x : list Z) n : sub p x = None → sub p (take n x) = None.
Proof. intros Hn. eapply sub_piece. by rewrite take_drop. Qed.
Lemma sub_drop_none p (x : list Z) n : sub p x = None → sub p (drop n x) = None.
Proof. intros Hn. apply (sub_none_app p (take n x)). by rewrite take_drop. Qed.

(** The chunk read in one round. *)
Lemma find_round dirs s h hd l offset (needle : list Z) (k : list Z → fsM Z) :
  volume dirs s → nth h (handles s) None = Some hd → view dn dev hd l s → 0 ≤ offset < Z.of_nat (length l) →
  let n := if CHUNK <? Z.of_nat (length l) - offset then CHUNK else Z.of_nat (length l) - offset in
  ∃ hd' s', s' = set_handles (<[h := Some hd']> (handles s)) s ∧ view dn dev hd' l s' ∧ h_modified hd' = h_modified hd ∧
    (_ ← minimafs_seek h offset; buf ← minimafs_read E h n; k buf) s =
    k (take (Z.to_nat n) (drop (Z.to_nat offset) l)) s'.
Proof.
  intros Hv Hh Hview Ho n. assert (0 < n ≤ Z.of_nat (length l) - offset) as Hn.
  { unfold n, CHUNK. destruct (Z.ltb_spec 4096 (Z.of_nat (length l) - offset)); lia. }
  pose proof Hview as (Hdn & Hsz & Hsz32 & Hp & _).
  assert (minimafs_seek h offset s = Ret (true, set_handles (<[h := Some (set_position offset hd)]> (handles s)) s)) as Es.
  { unfold minimafs_seek. rewrite bind_gets, Hh. unfold put_handle. rewrite bind_modify.
    by rewrite (proj2 (Z.ltb_ge _ _)) by lia. }
  set (s1 := set_handles _ s) in *. rewrite (bind_eq _ _ s _ _ Es).
  assert (view dn dev (set_position offset hd) l s1) as Hview1.
  { destruct Hview as (? & ? & ? & ? & Hrest). unfold view. simpl. split_and!; try done; lia. }
  destruct (read_ok E dn dev dirs s1 l h (set_position offset hd) n) as (hd' & Er & Hview' & Hsame & _);
    [by apply volume_handles|by eapply nth_insert_some|done|lia|].
  rewrite (bind_eq _ _ s1 _ _ Er). exists hd', (set_handles (<[h := Some hd']> (handles s)) s).
  split; [done|]. split; [done|]. split; [by destruct Hsame as (_ & _ & _ & _ & _ & -> & _)|].
  f_equal. unfold s1, set_handles. simpl. by rewrite list_insert_insert_eq.
Qed.

(** A needle of two characters or more that is not in the file is looked for
    for ever: at the end the search steps back by its length less one and
    reads the same bytes again. *)
Lemma find_loop_hangs dirs l needle h : sub needle l = None → (2 ≤ length needle ≤ length l)%nat → Z.of_nat (length needle) ≤ CHUNK →
  Z.of_nat (length l) < 4294967296 →
  ∀ fuel s hd offset, volume dirs s → nth h (handles s) None = Some hd → view dn dev hd l s →
  0 ≤ offset ≤ Z.of_nat (length l) - (Z.of_nat (length needle) - 1) →
  find_loop fuel E h needle (Z.of_nat (length l)) offset s = Hang.
Proof.
  intros Hn Hlen Hc Hl32. unfold CHUNK in Hc. induction fuel as [|fuel IH]; intros s hd offset Hv Hh Hview Ho; [done|].
  cbn [find_loop]. rewrite (proj2 (Z.ltb_lt _ _)) by lia. cbv zeta.
  edestruct (find_round dirs s h hd l offset needle) as (hd' & s' & Hs' & Hview' & _ & ->); [done..|lia|].
  set (n := if CHUNK <? _ then _ else _). assert (n = Z.min 4096 (Z.of_nat (length l) - offset)) as Hnn.
  { unfold n, CHUNK. destruct (Z.ltb_spec 4096 (Z.of_nat (length l) - offset)); lia. }
  set (buf := take _ _). assert (length buf = Z.to_nat n) as Hb by (unfold buf; rewrite length_take, length_drop; lia).
  assert (sub needle buf = None) as Hnb by (by apply sub_take_none, sub_drop_none).
  destruct buf as [|b buf'] eqn:Hbuf; [simpl in Hb; lia|]. rewrite <- Hbuf in *. rewrite Hnb.
  rewrite (proj2 (Z.ltb_lt 1 _)), (proj2 (Z.leb_le _ _)) by lia. cbn [andb]. rewrite u32_small by (unfold is_u32; lia).
  eapply IH; [| |exact Hview'|lia]; subst s'; [by apply volume_handles|by eapply nth_insert_some].
Qed.

Lemma sub_index needle (l : list Z) q : sub needle l = Some q →
  let k := (length l - length q)%nat in l = take k l ++ q ∧ (k + length needle ≤ length l)%nat ∧ starts needle q = true.
Proof.
  intros Hs. apply sub_suffix in Hs as (a & -> & Hq). cbv zeta. rewrite length_app.
  replace (length a + length q - length q)%nat with (length a) by lia. rewrite take_app_length. split; [done|].
  apply starts_true in Hq as Hr. destruct Hr as [r ->]. rewrite length_app. split; [lia|done].
Qed.

(** No occurrence begins before the first one. *)
Lemma sub_before needle (l : list Z) q j : sub needle l = Some q → (j < length l - length q)%nat → starts needle (drop j l) = false.
Proof.
  revert j. induction l as [|x l IH]; intros j Hs Hj; [simpl in Hj; lia|]. simpl in Hs.
  destruct (starts needle (x :: l)) eqn:Hx; [injection Hs as <-; simpl in Hj; lia|]. destruct j as [|j]; [done|]. simpl.
  apply IH; [done|]. simpl in Hj. lia.
Qed.

Lemma sub_here needle (l : list Z) : starts needle l = true → sub needle l = Some l.
Proof. intros Hs. destruct l as [|x l]; simpl; by rewrite Hs. Qed.

Lemma starts_take needle (x : list Z) n : (length needle ≤ n)%nat → starts needle (take n x) = starts needle x.
Proof. intros Hn. unfold starts. by rewrite take_take, Nat.min_l. Qed.

(** Searching a window of [l] that begins before the first occurrence finds
    it when it fits the window, and nothing otherwise. *)
Lemma sub_window needle (l : list Z) q n : ∀ o, needle ≠ [] → sub needle l = Some q → let k := (length l - length q)%nat in (o ≤ k)%nat →
  if decide (k + length needle ≤ o + n)%nat
  then ∃ q', sub needle (take n (drop o l)) = Some q' ∧ ptr_diff q' (take n (drop o l)) = (k - o)%nat
  else sub needle (take n (drop o l)) = None.
Proof.
  intros o Hne Hs k Hok. destruct (sub_index _ _ _ Hs) as (Hl & Hfit & Hst). fold k in Hl, Hfit.
  assert (length needle ≠ 0)%nat as Hn0 by (by destruct needle).
  assert (∀ j, (o ≤ j < k)%nat → starts needle (drop j l) = false) as Hbefore.
  { intros j Hj. eapply sub_before; [done|]. fold k. lia. }
  assert (drop k l = q) as Hq.
  { rewrite Hl at 1. assert (length (take k l) = k) as Hk by (rewrite length_take; lia). by rewrite <- Hk at 1; rewrite drop_app_length. }
  clear Hl Hs. remember (k - o)%nat as d eqn:Hd. revert o n Hok Hd Hbefore. induction d as [|d IH]; intros o n Hok Hd Hbefore.
  - assert (o = k) as -> by lia. rewrite Hq. case_decide as Hc.
    + eexists. split; [apply sub_here; rewrite starts_take by lia; done|]. unfold ptr_diff. lia.
    + destruct (sub needle (take n q)) as [q'|] eqn:Hs; [|done]. destruct (sub_index _ _ _ Hs) as (_ & Hlen & _).
      rewrite length_take in Hlen. lia.
  - assert (∃ x r, drop o l = x :: r ∧ drop (S o) l = r) as (x & r & Hx & Hr).
    { destruct (drop o l) as [|x r] eqn:Hx; [apply (f_equal length) in Hx; rewrite length_drop in Hx; simpl in Hx; lia|].
      exists x, r. split; [done|]. replace (S o) with (o + 1)%nat by lia. by rewrite <- drop_drop, Hx. }
    destruct n as [|n].
    + case_decide; [lia|]. rewrite take_0. destruct (sub needle []) as [q'|] eqn:Hs; [|done].
      destruct (sub_index _ _ _ Hs) as (_ & Hlen & _). simpl in Hlen. lia.
    + rewrite Hx. simpl take. rewrite <- Hr. specialize (IH (S o) n ltac:(lia) ltac:(lia)).
      assert (starts needle (x :: take n (drop (S o) l)) = false) as Hns.
      { pose proof (Hbefore o ltac:(lia)) as Hb. rewrite Hx in Hb. rewrite Hr.
        change (x :: take n r) with (take (S n) (x :: r)). destruct (starts needle (take (S n) (x :: r))) eqn:Hst'; [|done].
        apply starts_true in Hst' as [z Hz]. rewrite <- Hb. symmetry. apply starts_true.
        exists (z ++ drop (S n) (x :: r)). by rewrite (assoc_L (++)), <- Hz, take_drop. }
      assert (∀ j, (S o ≤ j < k)%nat → starts needle (drop j l) = false) as Hb' by (intros; apply Hbefore; lia).
      specialize (IH Hb'). rewrite sub_cons by done. replace (o + S n)%nat with (S o + n)%nat by lia.
      case_decide as Hc; [|done]. destruct IH as (q' & Hs' & Hp'). exists q'. split; [done|].
      pose proof (sub_suffix _ _ _ Hs') as (a & Ha & _). unfold ptr_diff in *. simpl. rewrite Ha, length_app in *. lia.
Qed.

(** The search finds the first occurrence. *)
Lemma find_loop_finds dirs l needle q h : sub needle l = Some q → needle ≠ [] → Z.of_nat (length needle) ≤ CHUNK →
  Z.of_nat (length l) < 4294967296 →
  ∀ fuel s hd offset, volume dirs s → nth h (handles s) None = Some hd → view dn dev hd l s → h_modified hd = false →
  0 ≤ offset ≤ Z.of_nat (length l) - Z.of_nat (length q) → Z.of_nat (length l) - offset < Z.of_nat fuel →
  ∃ hd' s', find_loop fuel E h needle (Z.of_nat (length l)) offset s =
      Ret (i32 (Z.of_nat (length l) - Z.of_nat (length q)), s') ∧
    s' = set_handles (<[h := Some hd']> (handles s)) s ∧ h_modified hd' = false.
Proof.
  intros Hs Hne Hc Hl32. unfold CHUNK in Hc. destruct (sub_index _ _ _ Hs) as (_ & Hfit & _).
  assert (1 ≤ length needle)%nat as Hn1 by (destruct needle; [done|simpl; lia]).
  assert (length q ≤ length l)%nat as Hql by (apply sub_suffix in Hs as (a & -> & _); rewrite length_app; lia).
  induction fuel as [|fuel IH]; intros s hd offset Hv Hh Hview Hmod Ho Hf; [lia|].
  cbn [find_loop]. rewrite (proj2 (Z.ltb_lt _ _)) by lia. cbv zeta.
  edestruct (find_round dirs s h hd l offset needle) as (hd' & s' & Hs' & Hview' & Hmod' & ->); [done..|lia|].
  set (n := if CHUNK <? _ then _ else _). assert (n = Z.min 4096 (Z.of_nat (length l) - offset)) as Hnn.
  { unfold n, CHUNK. destruct (Z.ltb_spec 4096 (Z.of_nat (length l) - offset)); lia. }
  pose proof (sub_window needle l q (Z.to_nat n) (Z.to_nat offset) Hne Hs ltac:(lia)) as Hw.
  set (buf := take _ _) in *. assert (length buf = Z.to_nat n) as Hb by (unfold buf; rewrite length_take, length_drop; lia).
  destruct buf as [|b buf'] eqn:Hbuf; [simpl in Hb; lia|]. rewrite <- Hbuf in *. case_decide as Hd.
  - destruct Hw as (q' & -> & Hp). exists hd', s'. split; [|by rewrite Hmod'].
    unfold mret, fsM_ret. rewrite Hp. do 3 f_equal. lia.
  - rewrite Hw. assert (n = 4096) as Hn4 by lia.
    assert ((if (1 <? Z.of_nat (length needle)) && (Z.of_nat (length needle) - 1 <=? Z.of_nat (length buf))
             then offset + (Z.of_nat (length buf) - (Z.of_nat (length needle) - 1)) else offset + Z.of_nat (length buf)) =
            offset + (4096 - (Z.of_nat (length needle) - 1))) as ->.
    { destruct (Z.ltb_spec 1 (Z.of_nat (length needle))), (Z.leb_spec (Z.of_nat (length needle) - 1) (Z.of_nat (length buf))); simpl; lia. }
    rewrite u32_small by (unfold is_u32; lia).
    destruct (IH s' hd' (offset + (4096 - (Z.of_nat (length needle) - 1)))) as (hd2 & s2 & -> & -> & Hm2); try lia.
    { subst s'. by apply volume_handles. } { subst s'. by eapply nth_insert_some. } { done. } { by rewrite Hmod'. }
    exists hd2. eexists. split; [done|]. split; [|done]. subst s'. unfold set_handles. simpl. by rewrite list_insert_insert_eq.
Qed.
End claims.
End fssafe.
