(* ===== verification/FsClaims.v ===== *)
(** * MinimaFS: what the development shows of it

    The theorems about a mounted volume, stated once each, with a RAM disk of
    twenty blocks that the code formatted and mounted as the concrete input.
    [run_ops] runs a list of operations, [run_spec] the specification's answer
    to it, [allowed] asks the guard of each operation in every directory map
    the specification allows before it. *)

From S2P Require Import Prelude CString Time Net Block Extent FsText Fs FsDisk FsFile FsInv FsVol FsOps FsSpec FsRead FsMount FsSafe.
Import fstext minimafs fsdisk fsfile fsinv fsvol fsops fsspec fsread fsmount fssafe.

Open Scope c_scope.

Module fsclaims.

(** ** Sequences of operations *)

Inductive allowed (dn : nat) (root : Z) : dirmap → list fs_op → Prop :=
| allowed_nil dirs : allowed dn root dirs []
| allowed_cons dirs op ops : guard dn dirs root op → (∀ r dirs', effect dn dirs root op r dirs' → allowed dn root dirs' ops) →
    allowed dn root dirs (op :: ops).

Inductive run_spec (dn : nat) (root : Z) : dirmap → list fs_op → list bool → dirmap → Prop :=
| run_nil dirs : run_spec dn root dirs [] [] dirs
| run_cons dirs op r dirs1 ops rs dirs2 : effect dn dirs root op r dirs1 → run_spec dn root dirs1 ops rs dirs2 →
    run_spec dn root dirs (op :: ops) (r :: rs) dirs2.

Section claims.
  Context {D : Type} `{BlockDriver D}.
  Abbreviation fsys := (fsys (D := D)).
  Context (E : env) (HE : roomy E) (dn dev : nat).
  Abbreviation root_of := (root_of dn).
  Abbreviation volume := (volume dn dev).

Fixpoint run_ops (ops : list fs_op) : fsM (D := D) (list bool) :=
  match ops with
  | [] => mret []
  | op :: ops => r ← run_op E op; rs ← run_ops ops; mret (r :: rs)
  end.

Lemma run_ops_ok ops : ∀ dirs s, volume dirs s → allowed dn (root_of s) dirs ops →
  ∃ rs s' dirs', run_ops ops s = Ret (rs, s') ∧ run_spec dn (root_of s) dirs ops rs dirs' ∧ volume dirs' s' ∧ handles s' = handles s.
Proof.
  induction ops as [|op ops IH]; intros dirs s Hv Ha; inversion Ha as [|? ? ? Hg Hn]; subst.
  { exists [], s, dirs. split_and!; [done|constructor|done|done]. }
  destruct (refines_op E HE dn dev dirs s op Hv Hg) as (r & s1 & dirs1 & E1 & [He _ Hv1 Hr Hh _]).
  destruct (IH dirs1 s1 Hv1) as (rs & s2 & dirs2 & E2 & Hs & Hv2 & Hh2); [rewrite Hr; by eapply Hn|].
  exists (r :: rs), s2, dirs2. split_and!; [|rewrite Hr in Hs; by econstructor|done|congruence].
  cbn [run_ops]. rewrite (bind_eq _ _ s r s1) by done. by rewrite (bind_eq _ _ s1 rs s2).
Qed.

(** ** The search of [findinfile] on an open file *)

Lemma close_clean s h hd : nth h (handles s) None = Some hd → h_modified hd = false →
  minimafs_close E h s = Ret (tt, set_handles (<[h := None]> (handles s)) s).
Proof. intros Hh Hm. unfold minimafs_close. rewrite bind_gets, Hh, bind_gets, Hm. done. Qed.

(** Opening and closing again leaves the handle table as it was. *)
Lemma handles_back (s : fsys) h x : free_handle s h → set_handles (<[h := None]> (<[h := x]> (handles s))) s = s.
Proof.
  intros Hf. destruct s as [a b c t hs st]. unfold set_handles, free_handle in *. simpl in *. f_equal.
  rewrite list_insert_insert_eq. apply list_insert_id. revert h Hf. induction hs as [|y hs IH]; intros h; simpl; [done|].
  destruct y; [|by intros [= <-]]. destruct (first_index _ hs) eqn:Hi; simpl; [|done]. intros [= <-]. by apply IH.
Qed.

(** A held file is opened, read in one piece and closed. *)
Lemma whole_file dirs s p local parent name d i e m l h : volume dirs s →
  holds dn dev dirs s p local parent name d i e m l → free_handle s h →
  ∃ s1 s2, minimafs_open E p true s = Ret (Some h, s1) ∧ minimafs_size h s1 = Ret (Z.of_nat (length l), s1) ∧
    minimafs_close E h s1 = Ret (tt, s) ∧ minimafs_read E h (Z.of_nat (length l)) s1 = Ret (l, s2) ∧ minimafs_close E h s2 = Ret (tt, s).
Proof.
  intros Hv [Hn Hd (Hf & Hi & Hdir) Ho] Hh.
  destruct (open_ok E HE dn dev dirs s p true local parent name d i e m l h) as (hd & E1 & Hview & Hp & _ & _ & _ & Hm); try done.
  set (s1 := set_handles (<[h := Some hd]> (handles s)) s) in *.
  assert (nth h (handles s1) None = Some hd) as Hh1.
  { simpl. rewrite nth_lookup, list_lookup_insert_eq; [done|]. apply lookup_lt_is_Some_1. by eapply first_index_nth. }
  destruct (read_ok E dn dev dirs s1 l h hd (Z.of_nat (length l))) as (hd' & E2 & _ & Hsame & _);
    [by apply volume_handles|done|by apply view_handles|lia|].
  rewrite Hp in E2. change (Z.to_nat 0) with 0%nat in E2. rewrite drop_0, take_ge in E2 by lia.
  exists s1. eexists. split; [exact E1|]. split; [|split; [|split; [exact E2|]]].
  - unfold minimafs_size, gets. rewrite Hh1. by destruct Hview as (_ & -> & _).
  - rewrite (close_clean s1 h hd) by done. exact (f_equal (λ x, Ret (tt, x)) (handles_back s h (Some hd) Hh)).
  - rewrite (close_clean _ h hd'); [|by eapply nth_insert_some|unfold same_file in Hsame; naive_solver congruence].
    change (handles (set_handles _ s1)) with (<[h := Some hd']> (<[h := Some hd]> (handles s))). rewrite list_insert_insert_eq.
    exact (f_equal (λ x, Ret (tt, x)) (handles_back s h (Some hd) Hh)).
Qed.

Lemma view_length hd l s : view dn dev hd l s → Z.of_nat (length l) < 4294967296.
Proof. intros (_ & <- & ? & _). done. Qed.

Lemma findinfile_opens dirs s p local parent name d i e m l needle fuel h : volume dirs s →
  holds dn dev dirs s p local parent name d i e m l → free_handle s h → (1 ≤ length needle ≤ length l)%nat →
  ∃ hd, view dn dev hd l s ∧ h_modified hd = false ∧
    let s1 := set_handles (<[h := Some hd]> (handles s)) s in
    nth h (handles s1) None = Some hd ∧ volume dirs s1 ∧ view dn dev hd l s1 ∧
    findinfile fuel E needle p s =
      (r ← find_loop fuel E h needle (Z.of_nat (length l)) 0; minimafs_close E h;; mret r) s1.
Proof.
  intros Hv [Hn Hd (Hf & Hi & Hdir) Ho] Hh Hlen.
  destruct (open_ok E HE dn dev dirs s p true local parent name d i e m l h) as (hd & E1 & Hview & _ & _ & _ & _ & Hm); try done.
  exists hd. split; [done|]. split; [done|]. cbv zeta. set (s1 := set_handles _ s).
  assert (nth h (handles s1) None = Some hd) as Hh1.
  { simpl. rewrite nth_lookup, list_lookup_insert_eq; [done|]. apply lookup_lt_is_Some_1. by eapply first_index_nth. }
  split; [done|]. split; [by apply volume_handles|]. split; [by apply view_handles|].
  unfold findinfile. rewrite (bind_eq _ _ s (Some h) s1) by done. cbv beta iota. unfold minimafs_size. rewrite bind_gets, Hh1.
  destruct Hview as (_ & -> & _). rewrite (rm_alloc _ HE), (proj2 (Z.eqb_neq _ 0)), (proj2 (Z.ltb_ge _ _)) by lia. done.
Qed.

Lemma findinfile_ok dirs s p local parent name d i e m l needle q fuel h : volume dirs s →
  holds dn dev dirs s p local parent name d i e m l → free_handle s h → sub needle l = Some q → needle ≠ [] →
  Z.of_nat (length needle) ≤ CHUNK → (length l < fuel)%nat →
  findinfile fuel E needle p s = Ret (i32 (Z.of_nat (length l) - Z.of_nat (length q)), s).
Proof.
  intros Hv Hho Hh Hs Hne Hc Hf. destruct (sub_index _ _ _ Hs) as (_ & Hfit & _). pose proof Hh as Hfree.
  assert (1 ≤ length needle)%nat by (destruct needle; [done|simpl; lia]).
  destruct (findinfile_opens dirs s p local parent name d i e m l needle fuel h) as (hd & Hvw & Hm & Hh1 & Hv1 & Hview & ->); [done..|lia|].
  pose proof (view_length _ _ _ Hvw) as Hl.
  set (s1 := set_handles _ s) in *.
  destruct (find_loop_finds E dn dev dirs l needle q h Hs Hne Hc Hl fuel s1 hd 0) as (hd2 & s2 & E2 & -> & Hm2); try done; [|lia|].
  { apply sub_suffix in Hs as (a & -> & _). rewrite length_app. lia. }
  rewrite (bind_eq _ _ s1 _ _ E2). erewrite (bind_eq _ _ _ tt); [|by eapply close_clean; [eapply nth_insert_some|]].
  change (handles (set_handles _ s1)) with (<[h := Some hd2]> (<[h := Some hd]> (handles s))). rewrite list_insert_insert_eq.
  exact (f_equal (λ x, Ret (_, x)) (handles_back s h (Some hd) Hfree)).
Qed.

Lemma findinfile_hangs dirs s p local parent name d i e m l needle fuel h : volume dirs s →
  holds dn dev dirs s p local parent name d i e m l → free_handle s h → sub needle l = None → (2 ≤ length needle ≤ length l)%nat →
  Z.of_nat (length needle) ≤ CHUNK →
  findinfile fuel E needle p s = Hang.
Proof.
  intros Hv Hho Hh Hs Hlen Hc.
  destruct (findinfile_opens dirs s p local parent name d i e m l needle fuel h) as (hd & Hvw & _ & Hh1 & Hv1 & Hview & ->); [done..|lia|].
  pose proof (view_length _ _ _ Hvw) as Hl.
  unfold mbind, fsM_bind. erewrite find_loop_hangs; try done. lia.
Qed.

(** ** The theorems *)

(** C2. On a mounted volume whose directories are a sound tree on disk
    ([volume]), with a heap that grants every request ([roomy]), creating,
    writing, deleting a file and making and removing a directory return under
    their guard: the parent folder exists and its block has room for one more
    entry (up to 33 of them when its path is short), the name has no comma,
    newline or NUL; a created name is new, a written or deleted one is not a
    directory's, the data are below 4 GiB - 17 KiB, a made directory has a new
    name of 1 to 63 characters, a removed one is empty. What they return and do
    to the directories is then an effect of the abstract operation, refusal
    needs a volume without a free run for the operation, the volume is sound
    again, and the blocks of every file the operation does not name keep their
    contents. *)
Theorem fs_refines dirs s op : volume dirs s → guard dn dirs (root_of s) op →
  ∃ r s' dirs', run_op E op s = Ret (r, s') ∧ simulates dn dev dirs s op r dirs' s'.
Proof. apply refines_op, HE. Qed.

(** C6. Any sequence of operations whose guards hold along every answer the
    specification allows runs to the end: each operation returns, the answers
    and the directories are those of a run of the specification, and the
    volume on disk is sound after it. *)
Theorem fs_session_refines ops dirs s : volume dirs s → allowed dn (root_of s) dirs ops →
  ∃ rs s' dirs', run_ops ops s = Ret (rs, s') ∧ run_spec dn (root_of s) dirs ops rs dirs' ∧ volume dirs' s' ∧ handles s' = handles s.
Proof. apply run_ops_ok. Qed.

(** C22. Formatting a device of 16 blocks to 4 GiB and mounting it succeed,
    whatever was on it, and leave a sound volume: an empty root directory in
    block 1, blocks 0 and 1 in use and every other one free. *)
Theorem format_mount_correct fuel size nm s : let total := size / MINIMAFS_BLOCK_SIZE in
  blank dn dev total s → name_fits nm → is_u64 size →
  ∃ s1 s2, minimafs_format E (Some dev) size (Z.of_nat dn) nm s = Ret (true, s1) ∧
    minimafs_mount (S fuel) E (Some dev) (Z.of_nat dn) s1 = Ret (1, s2) ∧ volume {[1 := root_folder 1]} s2 ∧
    root_of s2 = 1 ∧ extent.total_blocks (the_alloc dn s2) = total ∧
    (∀ b, extent.taken (the_alloc dn s2) b ↔ b = 0 ∨ b = 1).
Proof. apply format_mount_ok, HE. Qed.

(** C3. A file written in two pieces is read back: on a sound volume, with a
    heap that grants every request, in a folder with room for the entry, under
    a name of at most 63 plain characters that is not a directory's, and for
    storable data, [minimafs_write_file_segments] returns; unless the volume
    has no free run for the file, opening the path then gives the free handle
    and a read of any length at any position returns those bytes of the two
    pieces joined. Storable data hold no tag of the header or the footer
    ([header_data_overrides] shows what one does), and either fit the first
    block behind the header or hold a NUL in it: without one the code searches
    the block past its end. *)
Theorem write_then_read dirs s p local parent name d l1 l2 ft ff h :
  volume dirs s → names dn p local parent name → folder_at dirs (root_of s) parent = Some d → roomy_folder d →
  plain_name name → (length name < 64)%nat → file_named name d → Z.of_nat (length (l1 ++ l2)) < 4294950000 →
  storable (seg_meta E name (default (txt "binary") ft) (default (txt "bin") ff) parent d) (l1 ++ l2) → free_handle s h →
  ∃ r s1, minimafs_write_file_segments E p (Some l1) (Z.of_nat (length l1)) (Some l2) (Z.of_nat (length l2)) ft ff s = Ret (r, s1) ∧
    if r : bool then
      ∃ s2, minimafs_open E p true s1 = Ret (Some h, s2) ∧
        ∀ off n, 0 ≤ off → 0 ≤ n → ∃ s3 s4, minimafs_seek h off s2 = Ret (true, s3) ∧
          minimafs_read E h n s3 = Ret (take (Z.to_nat n) (drop (Z.to_nat off) (l1 ++ l2)), s4)
    else volume dirs s1 ∧ moved dn dev (λ _, True) s s1 ∧ no_run dn (blocks_wanted (Z.of_nat (length (l1 ++ l2)))) s.
Proof. apply write_read_ok, HE. Qed.

(** C33. Reading is independent of how the file was opened: through a handle
    that streams from the disk block by block and through one that holds the
    file in memory, [minimafs_read] returns the bytes of the file at the
    handle's position, as many as asked for and left, advances the position
    by them and keeps the handle a view of the same file. *)
Theorem read_correct dirs s l h hd size : volume dirs s → nth h (handles s) None = Some hd → view dn dev hd l s → 0 ≤ size →
  ∃ hd', minimafs_read E h size s =
      Ret (take (Z.to_nat size) (drop (Z.to_nat (h_position hd)) l), set_handles (<[h := Some hd']> (handles s)) s) ∧
    view dn dev hd' l s ∧ same_file hd hd' ∧ h_position hd' = Z.min (h_position hd + size) (h_data_size hd).
Proof. apply read_ok. Qed.

(** A text that occurs in a file is found: [findinfile] terminates within
    one round per byte of the file, returns the place of the first occurrence,
    also when it lies across two chunks, and leaves the state as it was, the
    handle closed. *)
Theorem findinfile_finds dirs s p local parent name d i e m l needle q fuel h : volume dirs s →
  holds dn dev dirs s p local parent name d i e m l → free_handle s h → sub needle l = Some q → needle ≠ [] →
  Z.of_nat (length needle) ≤ CHUNK → (length l < fuel)%nat →
  findinfile fuel E needle p s = Ret (i32 (Z.of_nat (length l) - Z.of_nat (length q)), s).
Proof. apply findinfile_ok. Qed.

(** A text of two characters or more that does not occur is searched for
    for ever, whatever the fuel. *)
Theorem findinfile_never_returns dirs s p local parent name d i e m l needle fuel h : volume dirs s →
  holds dn dev dirs s p local parent name d i e m l → free_handle s h → sub needle l = None → (2 ≤ length needle ≤ length l)%nat →
  Z.of_nat (length needle) ≤ CHUNK →
  findinfile fuel E needle p s = Hang.
Proof. apply findinfile_hangs. Qed.
End claims.

(** ** A RAM disk of twenty blocks *)

Definition demo_env : env := mk_env (λ _, true) true (txt "01Jan2024").
Definition demo_disk : storage ramdisk :=
  (blockdev_register_disk RAM_PREFIX [] 512 160 0 true 3 (mk_storage (replicate BLOCKDEV_MAX dev_zero) [mk_ramdisk (λ _, 0) 160])).2.
Definition demo_fs : fsys (D := ramdisk) :=
  mk_fsys (replicate MAX_DRIVES drive_zero) (replicate MAX_DRIVES (extent.mk_alloc [] 0 0 0))
    (replicate MAX_DRIVES false) (replicate MAX_DRIVES false) (replicate 64 None) demo_disk.

Lemma demo_roomy : roomy demo_env.
Proof. split; [done|done|]. split; [split_and!|]; vm_compute; set_solver || lia. Qed.

Lemma demo_disk_ok : table_ok demo_disk.
Proof.
  apply register_disk_ok; [apply (blockdev_init_ok (mk_storage [] _))|].
  split; [done|]. split; [done|]. split; [done|]. eexists. split; [reflexivity|]. done.
Qed.

Lemma demo_blank : blank 0 0 20 demo_fs.
Proof.
  split; try reflexivity; [split_and!; vm_compute; lia|apply demo_disk_ok|by vm_compute|..]; unfold MINIMAFS_MAX_BLOCKS, MINIMAFS_BLOCK_SIZE.
  - lia.
  - change (sectors (the_dev 0 (store demo_fs))) with 160. change (sector_size (the_dev 0 (store demo_fs))) with 512. lia.
Qed.
Definition root1 : dirmap := {[1 := root_folder 1]}.

Lemma demo_mounted : ∃ s, volume 0 0 root1 s ∧ root_of 0 s = 1 ∧ handles s = replicate 64 None ∧
  ∀ n, n ≤ 18 → ¬ no_run 0 n s.
Proof.
  destruct (format_mount_ok demo_env demo_roomy 0 0 0 81920 (Some (txt "Demo")) demo_fs) as (s1 & s2 & _ & _ & Hv & Hr & Ht & Htk);
    [apply demo_blank|by split_and!; apply (bool_decide_unpack _); vm_compute|done|]. exists (set_handles (replicate 64 None) s2).
  split; [by apply volume_handles|]. split; [done|]. split; [done|]. intros n Hn Hno.
  change (extent.total_blocks (the_alloc 0 s2) = 20) in Ht.
  apply (Hno 2); [lia|]. split; [change (2 + n ≤ extent.total_blocks (the_alloc 0 s2)); lia|].
  intros b Hb Hin. apply Htk in Hin. lia.
Qed.

(** The path "0:/a" names "a" in the root directory. *)
Lemma demo_target dirs d c : c = 97 ∨ c = 98 → dirs !! 1 = Some d → roomy_folder d →
  target 0 dirs 1 (txt "0:/" ++ [c]) (txt "/" ++ [c]) [] [c] d.
Proof.
  intros Hc Hd Hr. split; [|done|done|].
  - split; [done|]. split; [unfold MAX_DRIVES; lia|]. split; [unfold MINIMAFS_MAX_PATH; simpl; lia|].
    by destruct Hc as [-> | ->].
  - destruct Hc as [-> | ->]; split_and!; apply (bool_decide_unpack _); by vm_compute.
Qed.

Lemma demo_target_inv dirs c local parent name d : c = 97 ∨ c = 98 → target 0 dirs 1 (txt "0:/" ++ [c]) local parent name d →
  parent = [] ∧ name = [c] ∧ dirs !! 1 = Some d.
Proof.
  intros Hc [(Hp & _ & _ & Hs) Hd _ _]. injection Hp as <-.
  assert (parent = [] ∧ name = [c]) as [-> ->] by (destruct Hc as [-> | ->]; by injection Hs as <- <-).
  done.
Qed.

Lemma demo_guard dirs d c : c = 97 ∨ c = 98 → dirs !! 1 = Some d → roomy_folder d → find_entry (entries d) [c] = None →
  guard 0 dirs 1 (OpMkdir (txt "0:/" ++ [c])).
Proof.
  intros Hc Hd Hr Hf. exists (txt "/" ++ [c]), [], [c], d. split; [by apply demo_target|].
  split; [simpl; lia|]. split; [done|]. split_and!; [..|done]; destruct Hc as [-> | ->]; apply (bool_decide_unpack _); by vm_compute.
Qed.

Lemma fs_refines_witness : ∃ s r s' dirs',
  run_op demo_env (OpMkdir (txt "0:/a")) s = Ret (r, s') ∧ simulates 0 0 root1 s (OpMkdir (txt "0:/a")) r dirs' s'.
Proof.
  destruct demo_mounted as (s & Hv & Hr & _). exists s.
  apply (fs_refines demo_env demo_roomy 0 0 root1 s (OpMkdir (txt "0:/a")) Hv).
  rewrite Hr. apply (demo_guard _ (root_folder 1) 97); [by left|done|vm_compute; lia|done].
Defined.

Lemma fs_session_refines_witness : ∃ s rs s' dirs',
  run_ops demo_env [OpMkdir (txt "0:/a"); OpMkdir (txt "0:/b")] s = Ret (rs, s') ∧
  run_spec 0 1 root1 [OpMkdir (txt "0:/a"); OpMkdir (txt "0:/b")] rs dirs'.
Proof.
  destruct demo_mounted as (s & Hv & Hr & _).
  destruct (fs_session_refines demo_env demo_roomy 0 0 [OpMkdir (txt "0:/a"); OpMkdir (txt "0:/b")] root1 s Hv)
    as (rs & s' & dirs' & E1 & Hs & _); [|exists s, rs, s', dirs'; by rewrite Hr in Hs].
  rewrite Hr. constructor; [apply (demo_guard _ (root_folder 1) 97); [by left|done|vm_compute; lia|done]|].
  intros r dirs1 He. constructor; [|intros; constructor].
  inversion He as [| | |? local parent name d nb Ht Hnb| |]; subst.
  - destruct (demo_target_inv _ 97 _ _ _ _ ltac:(by left) Ht) as (_ & -> & Hd). injection Hd as <-.
    apply (demo_guard _ (set_entries (entries (root_folder 1) ++ [dir_entry [97] nb]) (root_folder 1)) 98);
      [by right| |vm_compute; lia|done].
    rewrite lookup_insert_ne; [by rewrite lookup_insert_eq|]. intros ->. done.
  - apply (demo_guard _ (root_folder 1) 98); [by right|done|vm_compute; lia|done].
Defined.

Lemma format_mount_correct_witness : ∃ s1 s2,
  minimafs_format demo_env (Some 0%nat) 81920 (Z.of_nat 0) (Some (txt "Demo")) demo_fs = Ret (true, s1) ∧
  minimafs_mount 1 demo_env (Some 0%nat) (Z.of_nat 0) s1 = Ret (1, s2) ∧ volume 0 0 root1 s2.
Proof.
  destruct (format_mount_correct demo_env demo_roomy 0 0 0 81920 (Some (txt "Demo")) demo_fs) as (s1 & s2 & E1 & E2 & Hv & _);
    [apply demo_blank|by split_and!; apply (bool_decide_unpack _); vm_compute|done|].
  exists s1, s2. exact (conj E1 (conj E2 Hv)).
Defined.

(** ** A small file *)

Definition demo_1 : list Z := txt "name=".
Definition demo_2 : list Z := txt "demo".

Lemma demo_storable : storable (seg_meta demo_env [97] (txt "binary") (txt "bin") [] (root_folder 1)) (demo_1 ++ demo_2).
Proof.
  split.
  - split_and!; apply (bool_decide_unpack _); by vm_compute.
  - split_and!; apply (bool_decide_unpack _); by vm_compute.
  - apply tags_check. vm_compute. reflexivity.
  - left. vm_compute. done.
Qed.

Lemma demo_write : ∃ s s1 dirs d i e m, volume 0 0 root1 s ∧ root_of 0 s = 1 ∧ free_handle s 0 ∧
  minimafs_write_file_segments demo_env (txt "0:/a") (Some demo_1) (Z.of_nat (length demo_1))
    (Some demo_2) (Z.of_nat (length demo_2)) None None s = Ret (true, s1) ∧
  volume 0 0 dirs s1 ∧ holds 0 0 dirs s1 (txt "0:/a") (txt "/a") [] [97] d i e m (demo_1 ++ demo_2) ∧ free_handle s1 0.
Proof.
  destruct demo_mounted as (s & Hv & Hr & Hh & Hroom).
  destruct (demo_target root1 (root_folder 1) 97) as [Hn Hd Hro Hp]; [by left|done|vm_compute; lia|].
  destruct (write_holds_ok demo_env demo_roomy 0 0 root1 s (txt "0:/a") (txt "/a") [] [97] (root_folder 1) demo_1 demo_2 None None)
    as (r & s1 & E1 & Hres); try done; [by rewrite Hr|simpl; lia|apply demo_storable|].
  destruct r; [|destruct Hres as (_ & _ & Hno); exfalso; eapply Hroom; [|exact Hno]; vm_compute; done].
  destruct Hres as (dirs1 & d1 & i & e & m & Hv1 & Hho & Hhs). exists s, s1, dirs1, d1, i, e, m.
  split; [done|]. split; [done|]. unfold free_handle. rewrite Hhs, Hh. done.
Qed.

Lemma write_then_read_witness : ∃ s s1 s2 s3 s4,
  minimafs_write_file_segments demo_env (txt "0:/a") (Some demo_1) (Z.of_nat (length demo_1))
    (Some demo_2) (Z.of_nat (length demo_2)) None None s = Ret (true, s1) ∧
  minimafs_open demo_env (txt "0:/a") true s1 = Ret (Some 0%nat, s2) ∧
  minimafs_seek 0 5 s2 = Ret (true, s3) ∧ minimafs_read demo_env 0 100 s3 = Ret (demo_2, s4).
Proof.
  destruct demo_mounted as (s & Hv & Hr & Hhs & Hroom).
  destruct (demo_target root1 (root_folder 1) 97) as [Hn Hd Hro Hp]; [by left|done|vm_compute; lia|].
  destruct (write_then_read demo_env demo_roomy 0 0 root1 s (txt "0:/a") (txt "/a") [] [97] (root_folder 1) demo_1 demo_2 None None 0)
    as (r & s1 & E1 & Hres); [exact Hv|exact Hn|by rewrite Hr|exact Hro|exact Hp|simpl; lia|done|done|apply demo_storable|
      by unfold free_handle; rewrite Hhs|].
  destruct r; [|destruct Hres as (_ & _ & Hno); exfalso; eapply Hroom; [|exact Hno]; vm_compute; done].
  destruct Hres as (s2 & E2 & Hrd). destruct (Hrd 5 100) as (s3 & s4 & E3 & E4); [lia..|].
  by exists s, s1, s2, s3, s4.
Defined.

Lemma findinfile_finds_witness : ∃ s, findinfile 10 demo_env (txt "de") (txt "0:/a") s = Ret (5, s).
Proof.
  destruct demo_write as (_ & s & dirs & d & i & e & m & _ & _ & _ & _ & Hv & Hho & Hh). exists s.
  apply (findinfile_finds demo_env demo_roomy 0 0 dirs s (txt "0:/a") (txt "/a") [] [97] d i e m (demo_1 ++ demo_2) (txt "de") (txt "demo") 10 0);
    [exact Hv|exact Hho|exact Hh|done|done|done|simpl; lia].
Defined.

Lemma findinfile_never_returns_witness : ∃ s, ∀ fuel, findinfile fuel demo_env (txt "zz") (txt "0:/a") s = Hang.
Proof.
  destruct demo_write as (_ & s & dirs & d & i & e & m & _ & _ & _ & _ & Hv & Hho & Hh). exists s. intros fuel.
  apply (findinfile_never_returns demo_env demo_roomy 0 0 dirs s (txt "0:/a") (txt "/a") [] [97] d i e m (demo_1 ++ demo_2) (txt "zz") fuel 0);
    [exact Hv|exact Hho|exact Hh|done|simpl; lia|done].
Defined.

Lemma read_correct_witness : ∃ s hd, h_position hd = 0 ∧ nth 0 (handles s) None = Some hd ∧
  ∃ s', minimafs_read demo_env 0 4 s = Ret (txt "name", s').
Proof.
  destruct demo_write as (_ & s & dirs & d & i & e & m & _ & _ & _ & _ & Hv & [Hn Hd (Hf & Hi & Hdir) Ho] & Hh).
  destruct (open_ok demo_env demo_roomy 0 0 dirs s (txt "0:/a") true (txt "/a") [] [97] d i e m (demo_1 ++ demo_2) 0)
    as (hd & _ & Hview & Hp & _); [exact Hv|exact Hn|exact Hd|exact Hf|exact Hi|exact Hdir|exact Ho|exact Hh|].
  set (s1 := set_handles (<[0%nat := Some hd]> (handles s)) s).
  assert (nth 0 (handles s1) None = Some hd) as Hh1.
  { simpl. rewrite nth_lookup, list_lookup_insert_eq; [done|]. apply lookup_lt_is_Some_1. by eapply first_index_nth. }
  exists s1, hd. split; [done|]. split; [done|].
  destruct (read_correct demo_env 0 0 dirs s1 (demo_1 ++ demo_2) 0 hd 4) as (hd' & E1 & _);
    [by apply volume_handles|done|by apply view_handles|lia|]. rewrite Hp in E1. eexists. exact E1.
Defined.
End fsclaims.
