(* ===== verification/Sha.v ===== *)
(** * SHA-256, HMAC and HKDF

    The hash of [impl/kernel/kcrypto.c] with its streaming context, and the
    keyed functions that [impl/net/tls13.c] builds on it. Bytes are [Z], arrays
    are lists of their C length; a store outside an array is [Undef]. The
    specification is one-shot: pad the message, fold the compression function
    over its blocks. *)

From S2P Require Import Prelude.

Open Scope c_scope.

Module sha.

(** ** The compression function *)

(** The source's table, its constants in decimal. *)
Definition K256 : list Z :=
  [1116352408; 1899447441; 3049323471; 3921009573; 961987163; 1508970993; 2453635748; 2870763221;
   3624381080; 310598401; 607225278; 1426881987; 1925078388; 2162078206; 2614888103; 3248222580;
   3835390401; 4022224774; 264347078; 604807628; 770255983; 1249150122; 1555081692; 1996064986;
   2554220882; 2821834349; 2952996808; 3210313671; 3336571891; 3584528711; 113926993; 338241895;
   666307205; 773529912; 1294757372; 1396182291; 1695183700; 1986661051; 2177026350; 2456956037;
   2730485921; 2820302411; 3259730800; 3345764771; 3516065817; 3600352804; 4094571909; 275423344;
   430227734; 506948616; 659060556; 883997877; 958139571; 1322822218; 1537002063; 1747873779;
   1955562222; 2024104815; 2227730452; 2361852424; 2428436474; 2756734187; 3204031479; 3329325298].

Definition rotr32 (x n : Z) : Z := Z.lor (Z.shiftr x n) (u32 (Z.shiftl x (32 - n))).

(** The word of the bytes [4 * i] and after, big-endian. *)
Definition word_at (l : list Z) (i : nat) : Z :=
  Z.lor (Z.lor (Z.lor (Z.shiftl (nth (4 * i) l 0) 24) (Z.shiftl (nth (4 * i + 1) l 0) 16))
    (Z.shiftl (nth (4 * i + 2) l 0) 8)) (nth (4 * i + 3) l 0).

(** The words 16 to 63 of the schedule. *)
Fixpoint schedule_words (n : nat) (w : list Z) : list Z :=
  match n with
  | O => w
  | S n' =>
      let i := length w in
      let x := nth (i - 15) w 0 in
      let y := nth (i - 2) w 0 in
      let s0 := Z.lxor (Z.lxor (rotr32 x 7) (rotr32 x 18)) (Z.shiftr x 3) in
      let s1 := Z.lxor (Z.lxor (rotr32 y 17) (rotr32 y 19)) (Z.shiftr y 10) in
      schedule_words n' (w ++ [u32 (nth (i - 16) w 0 + s0 + nth (i - 7) w 0 + s1)])
  end.

Record regs := mk_regs { ra : Z; rb : Z; rc : Z; rd : Z; re : Z; rf : Z; rg : Z; rh : Z }.

Definition sha_round (r : regs) (kw : Z * Z) : regs :=
  let '(mk_regs a b c d e f g h) := r in
  let S1 := Z.lxor (Z.lxor (rotr32 e 6) (rotr32 e 11)) (rotr32 e 25) in
  let ch := Z.lxor (Z.land e f) (Z.land (Z.lnot e) g) in
  let temp1 := u32 (h + S1 + ch + kw.1 + kw.2) in
  let S0 := Z.lxor (Z.lxor (rotr32 a 2) (rotr32 a 13)) (rotr32 a 22) in
  let maj := Z.lxor (Z.lxor (Z.land a b) (Z.land a c)) (Z.land b c) in
  let temp2 := u32 (S0 + maj) in
  mk_regs (u32 (temp1 + temp2)) a b c (u32 (d + temp1)) e f g.

Definition sha256_block (st : regs) (block : list Z) : regs :=
  let w := schedule_words 48 (word_at block <$> seq 0 16) in
  let r := fold_left sha_round (zip K256 w) st in
  mk_regs (u32 (ra st + ra r)) (u32 (rb st + rb r)) (u32 (rc st + rc r)) (u32 (rd st + rd r))
    (u32 (re st + re r)) (u32 (rf st + rf r)) (u32 (rg st + rg r)) (u32 (rh st + rh r)).

(** ** The streaming context *)

Record kcrypto_sha256_ctx := mk_ctx { cx_state : regs; bitlen : Z; buffer : list Z; buffered : nat }.

Definition sha_init_regs : regs :=
  mk_regs 0x6a09e667 0xbb67ae85 0x3c6ef372 0xa54ff53a 0x510e527f 0x9b05688c 0x1f83d9ab 0x5be0cd19.

(** The buffer is the caller's, not cleared. *)
Definition kcrypto_sha256_init (ctx : kcrypto_sha256_ctx) : kcrypto_sha256_ctx :=
  mk_ctx sha_init_regs 0 (buffer ctx) 0.

(** [memcpy(buf + pos, l, length l)]. *)
Definition put (pos : nat) (l buf : list Z) : outcome (list Z) :=
  if (pos + length l <=? length buf)%nat then Ret (take pos buf ++ l ++ drop (pos + length l) buf) else Undef.

(** [while (len >= 64)]: the state and what is left of the data. *)
Fixpoint block_loop (fuel : nat) (st : regs) (p : list Z) : outcome (regs * list Z) :=
  match fuel with
  | O => Hang
  | S fuel' => if (64 <=? length p)%nat then block_loop fuel' (sha256_block st (take 64 p)) (drop 64 p) else Ret (st, p)
  end.

Definition kcrypto_sha256_update (ctx : kcrypto_sha256_ctx) (p : list Z) : outcome kcrypto_sha256_ctx :=
  let bl := u64 (bitlen ctx + u64 (Z.of_nat (length p) * 8)) in
  let rest st buf p :=
    let* (st, p) := block_loop (S (length p)) st p in
    if (length p =? 0)%nat then Ret (mk_ctx st bl buf 0)
    else let* buf := put 0 p buf in Ret (mk_ctx st bl buf (length p)) in
  if (buffered ctx =? 0)%nat then rest (cx_state ctx) (buffer ctx) p
  else
    let need := (64 - buffered ctx)%nat in
    let n := if (length p <? need)%nat then length p else need in
    let* buf := put (buffered ctx) (take n p) (buffer ctx) in
    let b := (buffered ctx + n)%nat in
    if (b <? 64)%nat then Ret (mk_ctx (cx_state ctx) bl buf b)
    else rest (sha256_block (cx_state ctx) buf) buf (drop n p).

(** The bytes of [v], the most significant first. *)
Definition be_bytes (n : nat) (v : Z) : list Z := (λ i, u8 (Z.shiftr v (8 * Z.of_nat i))) <$> rev (seq 0 n).

Definition digest (st : regs) : list Z :=
  be_bytes 4 (ra st) ++ be_bytes 4 (rb st) ++ be_bytes 4 (rc st) ++ be_bytes 4 (rd st) ++
  be_bytes 4 (re st) ++ be_bytes 4 (rf st) ++ be_bytes 4 (rg st) ++ be_bytes 4 (rh st).

(** [final] works on a copy: the context stays as it is. *)
Definition kcrypto_sha256_final (ctx : kcrypto_sha256_ctx) : outcome (list Z) :=
  let* buf := put (buffered ctx) [0x80] (buffer ctx) in
  let b := S (buffered ctx) in
  let* (st, buf, b) :=
    (if (56 <? b)%nat then
       let* buf := put b (replicate (64 - b) 0) buf in
       Ret (sha256_block (cx_state ctx) buf, buf, 0%nat)
     else Ret (cx_state ctx, buf, b)) in
  let* buf := put b (replicate (56 - b) 0) buf in
  let* buf := put 56 (be_bytes 8 (bitlen ctx)) buf in
  Ret (digest (sha256_block st buf)).

Definition kcrypto_sha256 (junk : kcrypto_sha256_ctx) (data : list Z) : outcome (list Z) :=
  let* ctx := kcrypto_sha256_update (kcrypto_sha256_init junk) data in kcrypto_sha256_final ctx.

(** ** HMAC and HKDF (tls13.c) *)

Definition xor_bytes (a b : list Z) : list Z := zip_with Z.lxor a b.

Definition hmac_sha256 (junk : kcrypto_sha256_ctx) (key msg : list Z) : outcome (list Z) :=
  let* k := (if (64 <? length key)%nat then let* h := kcrypto_sha256 junk key in put 0 h (replicate 64 0)
             else put 0 key (replicate 64 0)) in
  let ipad := xor_bytes k (replicate 64 0x36) in
  let opad := xor_bytes k (replicate 64 0x5c) in
  let* h := kcrypto_sha256_update (kcrypto_sha256_init junk) ipad in
  let* h := kcrypto_sha256_update h msg in
  let* inner := kcrypto_sha256_final h in
  let* h := kcrypto_sha256_update (kcrypto_sha256_init h) opad in
  let* h := kcrypto_sha256_update h inner in
  kcrypto_sha256_final h.

Definition hkdf_extract (junk : kcrypto_sha256_ctx) (salt ikm : list Z) : outcome (list Z) :=
  hmac_sha256 junk (if (length salt =? 0)%nat then replicate 32 0 else salt) ikm.

(** The bytes still to come; [t] is the last block, [block] has 256 bytes. *)
Fixpoint hkdf_loop (fuel : nat) (junk : kcrypto_sha256_ctx) (prk info t : list Z) (counter : Z) (out_len : nat) :
    outcome (list Z) :=
  match fuel with
  | O => Hang
  | S fuel' =>
      if (out_len =? 0)%nat then Ret []
      else
        let block := (if counter =? 1 then [] else t) ++ info ++ [counter] in
        if (256 <? length block)%nat then Undef
        else
          let* t := hmac_sha256 junk prk block in
          let n := if (32 <? out_len)%nat then 32%nat else out_len in
          let* rest := hkdf_loop fuel' junk prk info t (u8 (counter + 1)) (out_len - n) in
          Ret (take n t ++ rest)
  end.

Definition hkdf_expand (junk : kcrypto_sha256_ctx) (prk info : list Z) (out_len : nat) : outcome (list Z) :=
  hkdf_loop (S out_len) junk prk info (replicate 32 0) 1 out_len.

Definition hkdf_label (junk : kcrypto_sha256_ctx) (secret label context : list Z) (out_len : nat) : outcome (list Z) :=
  let full := (6 + length label)%nat in
  let info := be_bytes 2 (u16 (Z.of_nat out_len)) ++ [u8 (Z.of_nat full)] ++ txt "tls13 " ++ label ++
              [u8 (Z.of_nat (length context))] ++ context in
  if (96 <? length info)%nat then Undef else hkdf_expand junk secret info out_len.

(** ** The specification *)

Fixpoint hash_blocks (n : nat) (st : regs) (l : list Z) : regs :=
  match n with
  | O => st
  | S n' => hash_blocks n' (sha256_block st (take 64 l)) (drop 64 l)
  end.

(** The zeros that bring the length to 56 modulo 64. *)
Definition pad_zeros (n : nat) : nat := ((119 - n mod 64) mod 64)%nat.

Definition pad (msg : list Z) : list Z :=
  msg ++ [0x80] ++ replicate (pad_zeros (length msg)) 0 ++ be_bytes 8 (u64 (Z.of_nat (length msg) * 8)).

Definition sha256_spec (msg : list Z) : list Z :=
  digest (hash_blocks (length (pad msg) / 64) sha_init_regs (pad msg)).

Definition key_block (key : list Z) : list Z :=
  let k := if (64 <? length key)%nat then sha256_spec key else key in k ++ replicate (64 - length k) 0.

Definition hmac_spec (key msg : list Z) : list Z :=
  sha256_spec (xor_bytes (key_block key) (replicate 64 0x5c) ++
    sha256_spec (xor_bytes (key_block key) (replicate 64 0x36) ++ msg)).

(** The blocks T(i), T(i + 1), ... of HKDF-Expand. *)
Fixpoint hkdf_blocks (n : nat) (prk info t : list Z) (i : Z) : list (list Z) :=
  match n with
  | O => []
  | S n' => let t := hmac_spec prk (t ++ info ++ [i]) in t :: hkdf_blocks n' prk info t (i + 1)
  end.

Definition hkdf_expand_spec (prk info : list Z) (out_len : nat) : list Z :=
  take out_len (concat (hkdf_blocks ((out_len + 31) / 32) prk info [] 1)).

(** ** The context is the message so far *)

Lemma put_ok pos l buf : (pos + length l ≤ length buf)%nat → put pos l buf = Ret (take pos buf ++ l ++ drop (pos + length l) buf).
Proof. intros. unfold put. by rewrite (proj2 (Nat.leb_le _ _)). Qed.

Lemma be_bytes_length n v : length (be_bytes n v) = n.
Proof. unfold be_bytes. by rewrite length_fmap, length_rev, length_seq. Qed.

Lemma digest_length st : length (digest st) = 32%nat.
Proof. unfold digest. by rewrite !length_app, !be_bytes_length. Qed.

Lemma hash_blocks_app n m st a b : length a = (64 * n)%nat → hash_blocks (n + m) st (a ++ b) = hash_blocks m (hash_blocks n st a) b.
Proof.
  revert st a. induction n as [|n IH]; intros st a Ha; cbn [Nat.add hash_blocks].
  { by destruct a. }
  rewrite take_app_le, drop_app_le by lia. apply IH. rewrite length_drop. lia.
Qed.

Lemma hash_blocks_one st a : length a = 64%nat → hash_blocks 1 st a = sha256_block st a.
Proof. intros Ha. simpl. by rewrite take_ge by lia. Qed.

Lemma block_loop_ok fuel st p : (length p < fuel)%nat →
  ∃ n a b, p = a ++ b ∧ length a = (64 * n)%nat ∧ (length b < 64)%nat ∧ block_loop fuel st p = Ret (hash_blocks n st a, b).
Proof.
  revert st p. induction fuel as [|fuel IH]; intros st p Hf; [lia|]. cbn [block_loop].
  destruct (Nat.leb_spec 64 (length p)).
  - destruct (IH (sha256_block st (take 64 p)) (drop 64 p)) as (n & a & b & Hp & Ha & Hb & ->); [rewrite length_drop; lia|].
    exists (S n), (take 64 p ++ a), b. rewrite <- (assoc_L (++)), <- Hp, take_drop. split_and!; [done| |done|].
    + rewrite length_app, length_take. lia.
    + change (S n) with (1 + n)%nat. rewrite hash_blocks_app by (rewrite length_take; lia).
      by rewrite hash_blocks_one by (rewrite length_take; lia).
  - exists 0%nat, [], p. by split_and!.
Qed.

(** [msg] has been hashed but for [tail], which is in the buffer. *)
Definition hashed (ctx : kcrypto_sha256_ctx) (msg : list Z) : Prop :=
  ∃ n a tail, msg = a ++ tail ∧ length a = (64 * n)%nat ∧ (length tail < 64)%nat ∧
    cx_state ctx = hash_blocks n sha_init_regs a ∧ bitlen ctx = u64 (Z.of_nat (length msg) * 8) ∧
    length (buffer ctx) = 64%nat ∧ buffered ctx = length tail ∧ take (length tail) (buffer ctx) = tail.

Lemma hashed_init ctx : length (buffer ctx) = 64%nat → hashed (kcrypto_sha256_init ctx) [].
Proof. intros Hb. exists 0%nat, [], []. split_and!; done || (cbn; lia). Qed.

Lemma bitlen_add n m : u64 (u64 (n * 8) + u64 (m * 8)) = u64 ((n + m) * 8).
Proof. unfold u64. rewrite <- Zplus_mod. f_equal. lia. Qed.

(** What is done once the buffer is empty. *)
Lemma update_rest st n a buf p bl : length a = (64 * n)%nat → st = hash_blocks n sha_init_regs a → length buf = 64%nat →
  bl = u64 (Z.of_nat (length (a ++ p)) * 8) →
  ∃ ctx', (let* (st, p) := block_loop (S (length p)) st p in
           if (length p =? 0)%nat then Ret (mk_ctx st bl buf 0)
           else let* buf := put 0 p buf in Ret (mk_ctx st bl buf (length p))) = Ret ctx' ∧ hashed ctx' (a ++ p).
Proof.
  intros Ha -> Hbuf ->. destruct (block_loop_ok (S (length p)) (hash_blocks n sha_init_regs a) p) as (m & x & y & -> & Hx & Hy & ->); [lia|].
  cbn [obind]. assert (∀ b, length b = 64%nat → take (length y) b = y → hashed (mk_ctx (hash_blocks m (hash_blocks n sha_init_regs a) x)
    (u64 (Z.of_nat (length (a ++ x ++ y)) * 8)) b (length y)) (a ++ x ++ y)) as Hh.
  { intros b Hb Ht. exists (n + m)%nat, (a ++ x), y. rewrite <- (assoc_L (++)), hash_blocks_app, length_app by done.
    split_and!; try done. lia. }
  destruct (Nat.eqb_spec (length y) 0) as [H0|H0].
  - eexists. split; [done|]. specialize (Hh buf Hbuf). rewrite H0 in Hh. apply Hh. symmetry. by apply length_zero_iff_nil.
  - rewrite put_ok by lia. cbn [obind]. eexists. split; [done|]. apply Hh.
    + rewrite !length_app, length_drop. simpl. lia.
    + simpl. by rewrite take_app_length.
Qed.

Lemma update_ok ctx msg p : hashed ctx msg → ∃ ctx', kcrypto_sha256_update ctx p = Ret ctx' ∧ hashed ctx' (msg ++ p).
Proof.
  intros (n & a & t & -> & Ha & Ht & Hst & Hbl & Hbuf & Hb & Htk). unfold kcrypto_sha256_update. rewrite Hb, Hbl, bitlen_add.
  rewrite <- Nat2Z.inj_add, <- length_app. destruct (Nat.eqb_spec (length t) 0) as [H0|H0].
  { apply length_zero_iff_nil in H0 as ->. rewrite app_nil_r. by eapply update_rest. }
  set (k := if (length p <? 64 - length t)%nat then length p else (64 - length t)%nat).
  assert (k = (length p `min` (64 - length t))%nat) as Hk by (unfold k; destruct (Nat.ltb_spec (length p) (64 - length t)); lia).
  clearbody k. rewrite put_ok by (rewrite length_take; lia). cbn [obind]. set (buf := take _ _ ++ _).
  assert (length (take k p) = k) as Hlk by (rewrite length_take; lia).
  assert (length buf = 64%nat) as Hlb by (unfold buf; rewrite !length_app, length_drop, length_take; lia).
  assert (take (length t + k) buf = t ++ take k p) as Htb.
  { unfold buf. rewrite Htk. rewrite (assoc_L (++)), take_app_le by (rewrite length_app; lia).
    apply take_ge. rewrite length_app. lia. }
  destruct (Nat.ltb_spec (length t + k) 64).
  - eexists. split; [done|]. replace k with (length p) in * by lia. rewrite (take_ge p) in Htb by lia.
    exists n, a, (t ++ p). rewrite (assoc_L (++)), length_app. split_and!; try done.
  - destruct (update_rest (sha256_block (cx_state ctx) buf) (n + 1) (a ++ t ++ take k p) buf (drop k p)
      (u64 (Z.of_nat (length ((a ++ t) ++ p)) * 8))) as (ctx' & E & Hh).
    + rewrite !length_app. lia.
    + rewrite hash_blocks_app by done. rewrite hash_blocks_one by (rewrite length_app; lia).
      rewrite Hst. f_equal. rewrite <- Htb. symmetry. apply take_ge. lia.
    + done.
    + by rewrite <- !(assoc_L (++)), take_drop.
    + exists ctx'. split; [exact E|]. by rewrite <- !(assoc_L (++)), take_drop in Hh; rewrite <- (assoc_L (++)).
Qed.

(** Padding brings the message to whole blocks. *)
Lemma pad_split a t n : length a = (64 * n)%nat → (length t < 64)%nat →
  pad (a ++ t) = a ++ t ++ [0x80] ++ replicate (if (55 <? length t)%nat then 119 - length t else 55 - length t) 0 ++
                 be_bytes 8 (u64 (Z.of_nat (length (a ++ t)) * 8)).
Proof.
  intros Ha Ht. unfold pad, pad_zeros. rewrite <- (assoc_L (++)). do 4 f_equal. f_equal. rewrite length_app, Ha.
  rewrite (Nat.add_comm (64 * n)), (Nat.mul_comm 64), Nat.Div0.mod_add, (Nat.mod_small (length t)) by done.
  destruct (Nat.ltb_spec 55 (length t)); [by rewrite Nat.mod_small by lia|].
  replace (119 - length t)%nat with (55 - length t + 1 * 64)%nat by lia. rewrite Nat.Div0.mod_add. by rewrite Nat.mod_small by lia.
Qed.

Lemma final_ok ctx msg : hashed ctx msg → kcrypto_sha256_final ctx = Ret (sha256_spec msg).
Proof.
  intros (n & a & t & -> & Ha & Ht & Hst & Hbl & Hbuf & Hb & Htk). unfold kcrypto_sha256_final, sha256_spec.
  rewrite Hbl, Hb, Hst. set (bl := u64 _). rewrite (pad_split a t n), put_ok by (simpl; lia). cbn [obind].
  fold bl. rewrite Htk. set (buf := t ++ [0x80] ++ drop _ _).
  assert (length buf = 64%nat) as Hlb by (unfold buf; rewrite !length_app, length_drop; simpl; lia).
  assert (take (S (length t)) buf = t ++ [0x80]) as Htb.
  { unfold buf. rewrite (assoc_L (++)). apply take_app_length'. rewrite length_app. simpl. lia. }
  destruct (Nat.ltb_spec 56 (S (length t))) as [H56|H56].
  - rewrite put_ok by (rewrite length_replicate; lia). cbn [obind]. rewrite Htb, length_replicate.
    rewrite (drop_ge buf) by lia. rewrite app_nil_r. set (b1 := (t ++ _) ++ _).
    assert (length b1 = 64%nat) as Hb1 by (unfold b1; rewrite !length_app, length_replicate; simpl; lia).
    rewrite put_ok by (rewrite length_replicate; lia). cbn [obind]. rewrite length_replicate, take_0. rewrite app_nil_l.
    set (b2 := replicate (56 - 0) 0 ++ drop (0 + (56 - 0)) b1).
    rewrite put_ok by (unfold b2; rewrite length_app, length_replicate, be_bytes_length, length_drop; lia). cbn [obind].
    rewrite be_bytes_length. unfold b2. rewrite take_app_length', drop_ge, app_nil_r
      by (rewrite ?length_app, ?length_drop, length_replicate; lia).
    rewrite (proj2 (Nat.ltb_lt _ _)) by lia.
    replace (119 - length t)%nat with ((63 - length t) + 56)%nat by lia. rewrite replicate_add.
    replace (63 - length t)%nat with (64 - S (length t))%nat by lia.
    assert (a ++ t ++ [0x80] ++ (replicate (64 - S (length t)) 0%Z ++ replicate 56 0%Z) ++ be_bytes 8 bl =
            a ++ b1 ++ replicate 56 0%Z ++ be_bytes 8 bl) as -> by (unfold b1; by rewrite <- !(assoc_L (++))).
    replace (length (a ++ b1 ++ replicate 56 0%Z ++ be_bytes 8 bl) / 64)%nat with (n + (1 + 1))%nat.
    2:{ rewrite !length_app, Ha, Hb1, be_bytes_length, length_replicate.
        replace (64 * n + (64 + (56 + 8)))%nat with ((n + 2) * 64)%nat by lia. by rewrite Nat.div_mul. }
    rewrite !hash_blocks_app, !hash_blocks_one by (rewrite ?length_app, ?be_bytes_length, ?length_replicate; done). done.
  - cbn [obind]. rewrite put_ok by (rewrite length_replicate; lia). cbn [obind]. rewrite Htb, length_replicate.
    set (b2 := (t ++ [0x80]) ++ replicate (56 - S (length t)) 0 ++ drop (S (length t) + (56 - S (length t))) buf).
    rewrite put_ok by (unfold b2; rewrite !length_app, length_replicate, be_bytes_length, length_drop; simpl; lia). cbn [obind].
    rewrite be_bytes_length.
    assert (take 56 b2 = (t ++ [0x80]) ++ replicate (56 - S (length t)) 0%Z) as ->.
    { unfold b2. rewrite (assoc_L (++) (t ++ _)). apply take_app_length'. rewrite !length_app, length_replicate. simpl. lia. }
    rewrite (drop_ge b2), app_nil_r by (unfold b2; rewrite !length_app, length_drop, length_replicate; simpl; lia).
    rewrite (proj2 (Nat.ltb_ge _ _)) by lia. replace (56 - S (length t))%nat with (55 - length t)%nat by lia.
    replace (length _ / 64)%nat with (n + 1)%nat.
    2:{ rewrite !length_app, Ha, be_bytes_length, length_replicate. simpl length.
        replace (64 * n + (length t + (1 + (55 - length t + 8))))%nat with ((n + 1) * 64)%nat by lia. by rewrite Nat.div_mul. }
    rewrite hash_blocks_app, hash_blocks_one by (rewrite ?length_app, ?be_bytes_length, ?length_replicate; simpl; lia).
    by rewrite <- !(assoc_L (++)).
Qed.

Lemma sha256_ok junk msg : length (buffer junk) = 64%nat → kcrypto_sha256 junk msg = Ret (sha256_spec msg).
Proof.
  intros Hj. unfold kcrypto_sha256. destruct (update_ok _ [] msg (hashed_init _ Hj)) as (ctx & -> & Hc). by apply final_ok.
Qed.

Fixpoint updates (ctx : kcrypto_sha256_ctx) (pieces : list (list Z)) : outcome kcrypto_sha256_ctx :=
  match pieces with
  | [] => Ret ctx
  | p :: r => let* ctx := kcrypto_sha256_update ctx p in updates ctx r
  end.

Lemma updates_ok pieces : ∀ ctx msg, hashed ctx msg → ∃ ctx', updates ctx pieces = Ret ctx' ∧ hashed ctx' (msg ++ concat pieces).
Proof.
  induction pieces as [|p r IH]; intros ctx msg Hc; simpl.
  { exists ctx. by rewrite app_nil_r. }
  destruct (update_ok _ _ p Hc) as (c1 & -> & Hc1). destruct (IH _ _ Hc1) as (c2 & E & Hc2).
  exists c2. by rewrite (assoc_L (++)).
Qed.

(** ** HMAC and HKDF *)

Lemma sha256_spec_length msg : length (sha256_spec msg) = 32%nat.
Proof. apply digest_length. Qed.

(** Hashing a first piece and then a second. *)
Lemma two_pieces ctx a b : length (buffer ctx) = 64%nat →
  ∃ c2, (let* h := kcrypto_sha256_update (kcrypto_sha256_init ctx) a in kcrypto_sha256_update h b) = Ret c2 ∧
    kcrypto_sha256_final c2 = Ret (sha256_spec (a ++ b)) ∧ length (buffer c2) = 64%nat.
Proof.
  intros Hj. destruct (update_ok _ [] a (hashed_init _ Hj)) as (c1 & -> & H1). destruct (update_ok _ _ b H1) as (c2 & E & H2).
  exists c2. split; [exact E|]. split; [by apply final_ok in H2|]. by destruct H2 as (? & ? & ? & _ & _ & _ & _ & _ & ? & _).
Qed.

Lemma key_block_ok junk key : length (buffer junk) = 64%nat →
  (if (64 <? length key)%nat then let* h := kcrypto_sha256 junk key in put 0 h (replicate 64 0)
   else put 0 key (replicate 64 0)) = Ret (key_block key).
Proof.
  intros Hj. unfold key_block. rewrite sha256_ok by done. cbn [obind]. set (k := if (64 <? length key)%nat then sha256_spec key else key).
  assert (length k ≤ 64)%nat as Hk.
  { unfold k. destruct (Nat.ltb_spec 64 (length key)); [rewrite sha256_spec_length|]; lia. }
  transitivity (put 0 k (replicate 64 0)); [unfold k; by destruct (64 <? length key)%nat|].
  rewrite put_ok by (rewrite length_replicate; lia). rewrite take_0, drop_replicate. done.
Qed.

Lemma hmac_ok junk key msg : length (buffer junk) = 64%nat → hmac_sha256 junk key msg = Ret (hmac_spec key msg).
Proof.
  intros Hj. unfold hmac_sha256, hmac_spec. rewrite key_block_ok by done. cbn [obind].
  destruct (two_pieces junk (xor_bytes (key_block key) (replicate 64 0x36)) msg Hj) as (c & E & Hf & Hb).
  destruct (update_ok _ [] (xor_bytes (key_block key) (replicate 64 0x36)) (hashed_init _ Hj)) as (c1 & E1 & _).
  rewrite E1 in *. cbn [obind] in *. rewrite E. cbn [obind]. rewrite Hf. cbn [obind].
  destruct (two_pieces c (xor_bytes (key_block key) (replicate 64 0x5c))
    (sha256_spec (xor_bytes (key_block key) (replicate 64 0x36) ++ msg)) Hb) as (c2 & E2 & Hf2 & _).
  destruct (update_ok _ [] (xor_bytes (key_block key) (replicate 64 0x5c)) (hashed_init _ Hb)) as (c3 & E3 & _).
  rewrite E3 in *. cbn [obind] in *. by rewrite E2.
Qed.

Lemma hmac_length key msg : length (hmac_spec key msg) = 32%nat.
Proof. apply sha256_spec_length. Qed.

Lemma hkdf_blocks_length n prk info t i : length (concat (hkdf_blocks n prk info t i)) = (32 * n)%nat.
Proof.
  revert t i. induction n as [|n IH]; intros t i; [done|]. cbn [hkdf_blocks concat]. rewrite length_app, hmac_length, IH. lia.
Qed.

(** The loop from its [i]-th round. *)
Lemma hkdf_loop_ok junk prk info : length (buffer junk) = 64%nat → (length info ≤ 223)%nat →
  ∀ fuel t i out_len, (out_len < fuel)%nat → 1 ≤ i → i + Z.of_nat ((out_len + 31) / 32) ≤ 256 →
  (i = 1 ∨ length t = 32%nat) →
  hkdf_loop fuel junk prk info t i out_len =
    Ret (take out_len (concat (hkdf_blocks ((out_len + 31) / 32) prk info (if i =? 1 then [] else t) i))).
Proof.
  intros Hj Hi. induction fuel as [|fuel IH]; intros t i n Hf H1 H256 Ht; [lia|]. cbn [hkdf_loop].
  destruct (Nat.eqb_spec n 0) as [->|Hn]; [done|]. cbv zeta.
  assert ((n + 31) / 32 = S ((n - 1) / 32))%nat as Hd.
  { replace (n + 31)%nat with (n - 1 + 1 * 32)%nat by lia. rewrite Nat.div_add by done. lia. }
  rewrite Hd in *. set (t1 := if i =? 1 then [] else t) in *.
  assert (length t1 ≤ 32)%nat by (unfold t1; destruct (Z.eqb_spec i 1); [simpl; lia|destruct Ht; lia]).
  rewrite (proj2 (Nat.ltb_ge _ _)) by (rewrite !length_app; simpl; lia). rewrite hmac_ok by done. cbn [obind hkdf_blocks concat].
  set (tn := hmac_spec _ _). assert (length tn = 32%nat) as Htn by apply hmac_length.
  set (k := if (32 <? n)%nat then 32%nat else n). assert (k = (n `min` 32)%nat) as Hk by (unfold k; destruct (Nat.ltb_spec 32 n); lia).
  clearbody k. destruct (decide (n ≤ 32)%nat) as [Hle|Hgt].
  - replace k with n by lia. rewrite Nat.sub_diag. destruct fuel as [|fuel]; [lia|]. cbn [hkdf_loop Nat.eqb obind].
    by rewrite app_nil_r, take_app_le by lia.
  - replace k with 32%nat by lia. assert ((n - 32 + 31) / 32 = (n - 1) / 32)%nat as Hd2 by (f_equal; lia).
    assert (1 ≤ (n - 1) / 32)%nat by (apply Nat.div_le_lower_bound; lia).
    rewrite (u8_small (i + 1)) by (unfold is_u8; lia). rewrite IH by (rewrite ?Hd2; auto; lia). cbn [obind].
    rewrite (proj2 (Z.eqb_neq (i + 1) 1)), Hd2 by lia. rewrite take_app_ge by lia. rewrite Htn. by rewrite (take_ge tn) by lia.
Qed.

Lemma hkdf_expand_ok junk prk info n : length (buffer junk) = 64%nat → (length info ≤ 223)%nat → (n ≤ 255 * 32)%nat →
  hkdf_expand junk prk info n = Ret (hkdf_expand_spec prk info n).
Proof.
  intros Hj Hi Hn. unfold hkdf_expand. assert ((n + 31) / 32 ≤ 255)%nat.
  { apply Nat.lt_succ_r, Nat.Div0.div_lt_upper_bound. lia. }
  rewrite hkdf_loop_ok by (auto; lia). done.
Qed.

(** HkdfLabel of RFC 8446. *)
Definition label_info (label context : list Z) (n : nat) : list Z :=
  be_bytes 2 (Z.of_nat n) ++ Z.of_nat (6 + length label) :: txt "tls13 " ++ label ++ Z.of_nat (length context) :: context.

(** ** The theorems *)

(** C16. Streaming SHA-256: however a message is cut into pieces, feeding them
    to [kcrypto_sha256_update] one by one and finishing returns, stores nothing
    outside the 64-byte buffer, and gives the hash of the whole message: the
    compression function folded over the blocks of the padded message. *)
Theorem sha256_streaming ctx0 pieces : length (buffer ctx0) = 64%nat →
  ∃ ctx, updates (kcrypto_sha256_init ctx0) pieces = Ret ctx ∧ kcrypto_sha256_final ctx = Ret (sha256_spec (concat pieces)).
Proof.
  intros Hb. destruct (updates_ok pieces _ [] (hashed_init _ Hb)) as (ctx & E & Hc). exists ctx. split; [done|]. by apply final_ok in Hc.
Qed.

(** [hkdf_expand] is HKDF-Expand of RFC 5869 over HMAC-SHA-256: for every
    length up to 255 blocks the concatenation of T(1), T(2), ... cut to it;
    it returns and its 256-byte block buffer is large enough for an info of
    up to 223 bytes. *)
Theorem hkdf_expand_correct junk prk info n : length (buffer junk) = 64%nat → (length info ≤ 223)%nat → (n ≤ 255 * 32)%nat →
  hkdf_expand junk prk info n = Ret (hkdf_expand_spec prk info n) ∧ length (hkdf_expand_spec prk info n) = n.
Proof.
  intros Hj Hi Hn. split; [by apply hkdf_expand_ok|]. unfold hkdf_expand_spec. rewrite length_take, hkdf_blocks_length.
  pose proof (Nat.div_mod (n + 31) 32 ltac:(done)). pose proof (Nat.mod_upper_bound (n + 31) 32 ltac:(done)). lia.
Qed.

(** [hkdf_label] expands the HkdfLabel structure, which fits its buffer of 96
    bytes. *)
Theorem hkdf_label_correct junk secret label context n : length (buffer junk) = 64%nat →
  (length label + length context ≤ 86)%nat → (n ≤ 255 * 32)%nat →
  hkdf_label junk secret label context n = Ret (hkdf_expand_spec secret (label_info label context n) n).
Proof.
  intros Hj Hl Hn. unfold hkdf_label. rewrite u16_small by (unfold is_u16; lia). rewrite !u8_small by (unfold is_u8; lia).
  fold (label_info label context n).
  assert (length (label_info label context n) = 10 + length label + length context)%nat as Hli.
  { unfold label_info. rewrite length_app, be_bytes_length. simpl. rewrite length_app. simpl. lia. }
  cbv zeta. change (be_bytes 2 (Z.of_nat n) ++ [Z.of_nat (6 + length label)] ++ txt "tls13 " ++ label ++
    [Z.of_nat (length context)] ++ context) with (label_info label context n).
  rewrite (proj2 (Nat.ltb_ge _ _)) by lia. by apply hkdf_expand_ok; [|lia|].
Qed.

(** ** Published values: FIPS 180-4, RFC 4231 (case 2), RFC 5869 (case 1) *)

Definition demo : kcrypto_sha256_ctx := mk_ctx sha_init_regs 7 (replicate 64 0xcc) 3.

Lemma sha256_abc : kcrypto_sha256 demo (txt "abc") =
  Ret (be_bytes 32 0xba7816bf8f01cfea414140de5dae2223b00361a396177a9cb410ff61f20015ad).
Proof. vm_compute. reflexivity. Qed.

Lemma sha256_two_blocks : kcrypto_sha256 demo (txt "abcdbcdecdefdefgefghfghighijhijkijkljklmklmnlmnomnopnopq") =
  Ret (be_bytes 32 0x248d6a61d20638b8e5c026930c3e6039a33ce45964ff2167f6ecedd419db06c1).
Proof. vm_compute. reflexivity. Qed.

Lemma hmac_jefe : hmac_sha256 demo (txt "Jefe") (txt "what do ya want for nothing?") =
  Ret (be_bytes 32 0x5bdcc146bf60754e6a042426089575c75a003f089d2739839dec58b964ec3843).
Proof. vm_compute. reflexivity. Qed.

Lemma sha256_streaming_witness : ∃ ctx, updates (kcrypto_sha256_init demo) [txt "a"; []; txt "bc"] = Ret ctx ∧
  kcrypto_sha256_final ctx = Ret (sha256_spec (txt "abc")).
Proof. apply (sha256_streaming demo [txt "a"; []; txt "bc"]). reflexivity. Defined.

Definition demo_prk : list Z := be_bytes 32 0x077709362c2e32df0ddc3f0dc47bba6390b6c73bb50f9c3122ec844ad7c2b3e5.
Definition demo_info : list Z := be_bytes 10 0xf0f1f2f3f4f5f6f7f8f9.

Lemma hkdf_rfc5869 : hkdf_expand demo demo_prk demo_info 42 =
  Ret (be_bytes 42 0x3cb25f25faacd57a90434f64d0362f2a2d2d0a90cf1a5a4c5db02d56ecc4c5bf34007208d5b887185865).
Proof. vm_compute. reflexivity. Qed.

Lemma hkdf_expand_correct_witness : hkdf_expand demo demo_prk demo_info 42 = Ret (hkdf_expand_spec demo_prk demo_info 42).
Proof. apply (hkdf_expand_correct demo demo_prk demo_info 42); [reflexivity|vm_compute; lia|vm_compute; lia]. Defined.

Lemma hkdf_label_correct_witness :
  hkdf_label demo demo_prk (txt "derived") [] 32 = Ret (hkdf_expand_spec demo_prk (label_info (txt "derived") [] 32) 32).
Proof. apply (hkdf_label_correct demo demo_prk (txt "derived") [] 32); [reflexivity|vm_compute; lia|lia]. Defined.
End sha.
