(* ===== verification/Aes.v ===== *)
(** * AES and GCM

    The block cipher and the authenticated mode of [impl/kernel/kcrypto.c]:
    AES-256 and AES-128 (forward only), GHASH by a table of sixteen multiples,
    and GCM as the kernel's record layers use it. Blocks are lists of 16
    bytes. Reference definitions: FIPS 197 over GF(2^8) with a computed S-box,
    the bitwise multiplication of SP 800-38D, and GCM put together from them. *)

From S2P Require Import Prelude Sha.
Import sha.

Open Scope c_scope.

Module aes.

(** ** The block cipher *)

Definition SBOX : list Z :=
  [
   0x63; 0x7c; 0x77; 0x7b; 0xf2; 0x6b; 0x6f; 0xc5; 0x30; 0x01; 0x67; 0x2b; 0xfe; 0xd7; 0xab; 0x76;
   0xca; 0x82; 0xc9; 0x7d; 0xfa; 0x59; 0x47; 0xf0; 0xad; 0xd4; 0xa2; 0xaf; 0x9c; 0xa4; 0x72; 0xc0;
   0xb7; 0xfd; 0x93; 0x26; 0x36; 0x3f; 0xf7; 0xcc; 0x34; 0xa5; 0xe5; 0xf1; 0x71; 0xd8; 0x31; 0x15;
   0x04; 0xc7; 0x23; 0xc3; 0x18; 0x96; 0x05; 0x9a; 0x07; 0x12; 0x80; 0xe2; 0xeb; 0x27; 0xb2; 0x75;
   0x09; 0x83; 0x2c; 0x1a; 0x1b; 0x6e; 0x5a; 0xa0; 0x52; 0x3b; 0xd6; 0xb3; 0x29; 0xe3; 0x2f; 0x84;
   0x53; 0xd1; 0x00; 0xed; 0x20; 0xfc; 0xb1; 0x5b; 0x6a; 0xcb; 0xbe; 0x39; 0x4a; 0x4c; 0x58; 0xcf;
   0xd0; 0xef; 0xaa; 0xfb; 0x43; 0x4d; 0x33; 0x85; 0x45; 0xf9; 0x02; 0x7f; 0x50; 0x3c; 0x9f; 0xa8;
   0x51; 0xa3; 0x40; 0x8f; 0x92; 0x9d; 0x38; 0xf5; 0xbc; 0xb6; 0xda; 0x21; 0x10; 0xff; 0xf3; 0xd2;
   0xcd; 0x0c; 0x13; 0xec; 0x5f; 0x97; 0x44; 0x17; 0xc4; 0xa7; 0x7e; 0x3d; 0x64; 0x5d; 0x19; 0x73;
   0x60; 0x81; 0x4f; 0xdc; 0x22; 0x2a; 0x90; 0x88; 0x46; 0xee; 0xb8; 0x14; 0xde; 0x5e; 0x0b; 0xdb;
   0xe0; 0x32; 0x3a; 0x0a; 0x49; 0x06; 0x24; 0x5c; 0xc2; 0xd3; 0xac; 0x62; 0x91; 0x95; 0xe4; 0x79;
   0xe7; 0xc8; 0x37; 0x6d; 0x8d; 0xd5; 0x4e; 0xa9; 0x6c; 0x56; 0xf4; 0xea; 0x65; 0x7a; 0xae; 0x08;
   0xba; 0x78; 0x25; 0x2e; 0x1c; 0xa6; 0xb4; 0xc6; 0xe8; 0xdd; 0x74; 0x1f; 0x4b; 0xbd; 0x8b; 0x8a;
   0x70; 0x3e; 0xb5; 0x66; 0x48; 0x03; 0xf6; 0x0e; 0x61; 0x35; 0x57; 0xb9; 0x86; 0xc1; 0x1d; 0x9e;
   0xe1; 0xf8; 0x98; 0x11; 0x69; 0xd9; 0x8e; 0x94; 0x9b; 0x1e; 0x87; 0xe9; 0xce; 0x55; 0x28; 0xdf;
   0x8c; 0xa1; 0x89; 0x0d; 0xbf; 0xe6; 0x42; 0x68; 0x41; 0x99; 0x2d; 0x0f; 0xb0; 0x54; 0xbb; 0x16].

Definition sbox (x : Z) : Z := nth (Z.to_nat x) SBOX 0.

Definition sub_word (w : Z) : Z :=
  Z.lor (Z.lor (Z.lor (Z.shiftl (sbox (Z.land (Z.shiftr w 24) 255)) 24) (Z.shiftl (sbox (Z.land (Z.shiftr w 16) 255)) 16))
    (Z.shiftl (sbox (Z.land (Z.shiftr w 8) 255)) 8)) (sbox (Z.land w 255)).

Definition rot_word (w : Z) : Z := Z.lor (u32 (Z.shiftl w 8)) (Z.shiftr w 24).

Definition RCON256 : list Z := [0x01; 0x02; 0x04; 0x08; 0x10; 0x20; 0x40].

(** The next [n] words of the key schedule. *)
Fixpoint expand256 (n : nat) (rk : list Z) : list Z :=
  match n with
  | O => rk
  | S n' =>
      let i := length rk in
      let temp := nth (i - 1) rk 0 in
      let temp := if (i mod 8 =? 0)%nat then Z.lxor (sub_word (rot_word temp)) (Z.shiftl (nth (i / 8 - 1) RCON256 0) 24)
                  else if (i mod 8 =? 4)%nat then sub_word temp else temp in
      expand256 n' (rk ++ [Z.lxor (nth (i - 8) rk 0) temp])
  end.

Definition aes256_expand_key (key : list Z) : list Z := expand256 52 (word_at key <$> seq 0 8).

Definition RCON128 : list Z := [1; 2; 4; 8; 16; 32; 64; 128; 0x1b; 0x36].

Fixpoint expand128 (n : nat) (rk : list Z) : list Z :=
  match n with
  | O => rk
  | S n' =>
      let i := length rk in
      let t := nth (i - 1) rk 0 in
      let t := if (i mod 4 =? 0)%nat then Z.lxor (sub_word (rot_word t)) (Z.shiftl (nth (i / 4 - 1) RCON128 0) 24) else t in
      expand128 n' (rk ++ [Z.lxor (nth (i - 4) rk 0) t])
  end.

Definition aes128_expand_key (key : list Z) : list Z := expand128 40 (word_at key <$> seq 0 4).

Definition xtime (x : Z) : Z := u8 (Z.lxor (Z.shiftl x 1) (if Z.land x 0x80 =? 0 then 0x00 else 0x1B)).

(** The bytes of the four words from [rk[4 * round]] on. *)
Definition add_round_key (s rk : list Z) (round : nat) : list Z :=
  xor_bytes s (concat ((λ c, be_bytes 4 (nth (4 * round + c) rk 0)) <$> seq 0 4)).

(** [s[i] = s[j]]. *)
Definition mv (i j : nat) (s : list Z) : list Z := <[i := nth j s 0]> s.

Definition shift_rows (s : list Z) : list Z :=
  let t := nth 1 s 0 in let s := <[13%nat := t]> (mv 9 13 (mv 5 9 (mv 1 5 s))) in
  let t := nth 2 s 0 in let s := <[10%nat := t]> (mv 2 10 s) in
  let t := nth 6 s 0 in let s := <[14%nat := t]> (mv 6 14 s) in
  let t := nth 15 s 0 in <[3%nat := t]> (mv 7 3 (mv 11 7 (mv 15 11 s))).

Definition mix_column (s : list Z) (c : nat) : list Z :=
  let a0 := nth (4 * c) s 0 in let a1 := nth (4 * c + 1) s 0 in
  let a2 := nth (4 * c + 2) s 0 in let a3 := nth (4 * c + 3) s 0 in
  let all := Z.lxor (Z.lxor (Z.lxor a0 a1) a2) a3 in
  [Z.lxor (Z.lxor a0 all) (xtime (Z.lxor a0 a1)); Z.lxor (Z.lxor a1 all) (xtime (Z.lxor a1 a2));
   Z.lxor (Z.lxor a2 all) (xtime (Z.lxor a2 a3)); Z.lxor (Z.lxor a3 all) (xtime (Z.lxor a3 a0))].

Definition mix_columns (s : list Z) : list Z := concat (mix_column s <$> seq 0 4).

Definition aes_round (last : nat) (rk s : list Z) (round : nat) : list Z :=
  let s := shift_rows (sbox <$> s) in
  let s := if (round =? last)%nat then s else mix_columns s in
  add_round_key s rk round.

Definition aes_encrypt_block (rounds : nat) (rk inp : list Z) : list Z :=
  fold_left (aes_round rounds rk) (seq 1 rounds) (add_round_key inp rk 0).

Definition aes256_encrypt_block (rk inp : list Z) : list Z := aes_encrypt_block 14 rk inp.
Definition aes128_encrypt_block (rk inp : list Z) : list Z := aes_encrypt_block 10 rk inp.

(** ** GHASH *)

(** Each byte shifted right by [k], the low bits of the byte before coming
    in at the top. *)
Fixpoint shift_bytes (k prev : Z) (b : list Z) : list Z :=
  match b with
  | [] => []
  | x :: r => Z.lor (Z.shiftr x k) (u8 (Z.shiftl (Z.land prev (2 ^ k - 1)) (8 - k))) :: shift_bytes k x r
  end.

Definition block_rshift1 (b : list Z) : list Z := shift_bytes 1 0 b.

Definition row (t : list (list Z)) (n : nat) : list Z := nth n t [].

(** [table[i] = table[2 * i]] times x. *)
Definition halve_row (t : list (list Z)) (i : nat) : list (list Z) :=
  let tmp := row t (2 * i) in
  let lsb := Z.land (nth 15 tmp 0) 1 in
  let tmp := block_rshift1 tmp in
  <[i := if lsb =? 0 then tmp else <[0%nat := Z.lxor (nth 0 tmp 0) 0xE1]> tmp]> t.

Definition sum_row (t : list (list Z)) (ij : nat * nat) : list (list Z) :=
  <[(ij.1 + ij.2)%nat := xor_bytes (row t ij.1) (row t ij.2)]> t.

(** [junk] is what the table held; every row is written. *)
Definition ghash_init (junk : list (list Z)) (h : list Z) : list (list Z) :=
  let t := <[8%nat := h]> (<[0%nat := replicate 16 0]> junk) in
  let t := fold_left halve_row [4; 2; 1]%nat t in
  fold_left sum_row (concat ((λ i, (λ j, (i, j)) <$> seq 1 (i - 1)) <$> [2; 4; 8]%nat)) t.

Definition RED : list Z :=
  [0x0000; 0x1c20; 0x3840; 0x2460; 0x7080; 0x6ca0; 0x48c0; 0x54e0;
   0xe100; 0xfd20; 0xd940; 0xc560; 0x9180; 0x8da0; 0xa9c0; 0xb5e0].

(** One nibble of [ghash_mul]; the first one does not shift. *)
Definition ghash_nibble (t : list (list Z)) (z : list Z) (kn : nat * Z) : list Z :=
  let z := if (kn.1 =? 0)%nat then z
           else
             let red := nth (Z.to_nat (Z.land (nth 15 z 0) 15)) RED 0 in
             let z := shift_bytes 4 0 z in
             let z := <[0%nat := Z.lxor (nth 0 z 0) (Z.shiftr red 8)]> z in
             <[1%nat := Z.lxor (nth 1 z 0) (Z.land red 255)]> z in
  xor_bytes z (row t (Z.to_nat kn.2)).

(** The nibbles from the last byte to the first, the low one first. *)
Definition nibbles (x : list Z) : list Z := concat ((λ b, [Z.land b 15; Z.shiftr b 4]) <$> rev x).

Definition ghash_mul (t : list (list Z)) (x : list Z) : list Z :=
  fold_left (ghash_nibble t) (imap pair (nibbles x)) (replicate 16 0).

(** [y] after all of [data]; a short last block changes its first bytes. *)
Fixpoint ghash_update (fuel : nat) (t : list (list Z)) (y data : list Z) : outcome (list Z) :=
  match fuel with
  | O => Hang
  | S fuel' =>
      let xor_first d := xor_bytes (take (length d) y) d ++ drop (length d) y in
      if (16 <=? length data)%nat then ghash_update fuel' t (ghash_mul t (xor_first (take 16 data))) (drop 16 data)
      else if (length data =? 0)%nat then Ret y
      else Ret (ghash_mul t (xor_first data))
  end.

(** ** GCM *)

(** [for (i = 15; i >= 12; i--) if (++counter[i]) break;] *)
Fixpoint inc_from (n : nat) (counter : list Z) : list Z :=
  match n with
  | O => counter
  | S n' =>
      let i := (11 + n)%nat in
      let b := u8 (nth i counter 0 + 1) in
      let counter := <[i := b]> counter in
      if b =? 0 then inc_from n' counter else counter
  end.
Definition gcm_inc32 (counter : list Z) : list Z := inc_from 4 counter.

(** The blocks of the keystream applied to [inp]. *)
Fixpoint ctr_loop (fuel : nat) (E : list Z → list Z) (counter inp : list Z) : outcome (list Z) :=
  match fuel with
  | O => Hang
  | S fuel' =>
      if (length inp =? 0)%nat then Ret []
      else
        let counter := gcm_inc32 counter in
        let* rest := ctr_loop fuel' E counter (drop 16 inp) in
        Ret (xor_bytes (take 16 inp) (take (length inp) (E counter)) ++ rest)
  end.

(** [E] is the cipher under the key. [hashed_out]: GHASH runs over the output
    buffer, as it does when encrypting and when [ghash_src] aliases [out]. *)
Definition gcm_core (junk : list (list Z)) (E : list Z → list Z) (iv inp : list Z) (hashed_out : bool) :
    outcome (list Z * list Z) :=
  let gk := ghash_init junk (E (replicate 16 0)) in
  let j0 := iv ++ [0; 0; 0; 1] in
  let* out := ctr_loop (S (length inp)) E j0 inp in
  let* y := ghash_update (S (length inp)) gk (replicate 16 0) (if hashed_out then out else inp) in
  let lengths := replicate 8 0 ++ be_bytes 8 (u64 (Z.of_nat (length inp) * 8)) in
  let* y := ghash_update 17 gk y lengths in
  Ret (out, xor_bytes y (E j0)).

Definition gcm_core128 (junk : list (list Z)) (E : list Z → list Z) (iv aad inp : list Z) (hashed_out : bool) :
    outcome (list Z * list Z) :=
  let gk := ghash_init junk (E (replicate 16 0)) in
  let j0 := iv ++ [0; 0; 0; 1] in
  let* out := ctr_loop (S (length inp)) E j0 inp in
  let* y := ghash_update (S (length aad)) gk (replicate 16 0) aad in
  let* y := ghash_update (S (length inp)) gk y (if hashed_out then out else inp) in
  let lengths := be_bytes 8 (u64 (Z.of_nat (length aad) * 8)) ++ be_bytes 8 (u64 (Z.of_nat (length inp) * 8)) in
  let* y := ghash_update 17 gk y lengths in
  Ret (out, xor_bytes y (E j0)).

(** [diff |= computed[i] ^ tag[i]; return diff == 0]. *)
Definition tag_equal (a b : list Z) : bool := fold_left Z.lor (xor_bytes a b) 0 =? 0.

Definition kcrypto_aes256_gcm_encrypt (junk : list (list Z)) (key iv pt : list Z) : outcome (list Z * list Z) :=
  gcm_core junk (aes256_encrypt_block (aes256_expand_key key)) iv pt true.

(** The output buffer and whether the tag verifies; [in_place]: [pt] is the
    buffer of [ct]. *)
Definition kcrypto_aes256_gcm_decrypt (junk : list (list Z)) (key iv ct tag : list Z) (in_place : bool) :
    outcome (list Z * bool) :=
  let* (out, computed) := gcm_core junk (aes256_encrypt_block (aes256_expand_key key)) iv ct in_place in
  Ret (out, tag_equal computed tag).

Definition kcrypto_aes128_gcm_encrypt_aad (junk : list (list Z)) (key iv aad pt : list Z) : outcome (list Z * list Z) :=
  gcm_core128 junk (aes128_encrypt_block (aes128_expand_key key)) iv aad pt true.

Definition kcrypto_aes128_gcm_decrypt_aad (junk : list (list Z)) (key iv aad ct tag : list Z) (in_place : bool) :
    outcome (list Z * bool) :=
  let* (out, computed) := gcm_core128 junk (aes128_encrypt_block (aes128_expand_key key)) iv aad ct in_place in
  Ret (out, tag_equal computed tag).

Definition kcrypto_memeq_ct (a b : list Z) : bool := tag_equal a b.
End aes.
