(* ===== verification/Ghash.v ===== *)
(** * GHASH is multiplication in GF(2^128)

    A block of 16 bytes is a 128-bit number, most significant byte first. The
    reference product is Algorithm 1 of SP 800-38D, bit by bit; the table
    method of [kcrypto.c] computes the same. *)

From S2P Require Import Prelude Sha Aes.
Import sha aes.

Open Scope c_scope.

Module ghash.

(** ** Blocks as numbers *)

Definition bytes (l : list Z) : Prop := Forall is_u8 l.
Definition block (l : list Z) : Prop := length l = 16%nat ∧ bytes l.

Fixpoint be (l : list Z) : Z :=
  match l with [] => 0 | x :: r => x * 256 ^ Z.of_nat (length r) + be r end.

Lemma pow256 n : 256 ^ Z.of_nat n = 2 ^ (8 * Z.of_nat n).
Proof. rewrite Z.pow_mul_r by lia. done. Qed.

Lemma pow256_pos n : 0 < 256 ^ Z.of_nat n.
Proof. apply Z.pow_pos_nonneg; lia. Qed.

Lemma be_range l : bytes l → 0 ≤ be l < 256 ^ Z.of_nat (length l).
Proof.
  induction l as [|x r IH]; intros Hl; [done|]. apply Forall_cons in Hl as [Hx Hr]. specialize (IH Hr). unfold is_u8 in Hx.
  cbn [be length]. rewrite Nat2Z.inj_succ, Z.pow_succ_r by lia. pose proof (pow256_pos (length r)). nia.
Qed.

Lemma be_inj l l' : length l = length l' → bytes l → bytes l' → be l = be l' → l = l'.
Proof.
  revert l'. induction l as [|x r IH]; intros [|y r'] Hl H1 H2 Hb; try done. injection Hl as Hl.
  apply Forall_cons in H1 as [Hx H1], H2 as [Hy H2]. pose proof (be_range r H1). pose proof (be_range r' H2).
  cbn [be] in Hb. rewrite <- Hl in *. pose proof (pow256_pos (length r)). assert (x = y) as -> by nia.
  f_equal. apply IH; try done. lia.
Qed.

Lemma be_app a b : be (a ++ b) = be a * 256 ^ Z.of_nat (length b) + be b.
Proof.
  induction a as [|x a IH]; [done|]. cbn [app be]. rewrite IH, length_app, Nat2Z.inj_add, Z.pow_add_r by lia. lia.
Qed.

Lemma high_bit u k n : 0 ≤ u < 2 ^ k → 0 ≤ k ≤ n → Z.testbit u n = false.
Proof. intros Hu Hn. rewrite <- (Z.mod_small u (2 ^ k)) by done. by apply Z.mod_pow2_bits_high. Qed.

Lemma lxor_bound u v k : 0 ≤ k → 0 ≤ u < 2 ^ k → 0 ≤ v < 2 ^ k → 0 ≤ Z.lxor u v < 2 ^ k.
Proof.
  intros Hk Hu Hv. assert (Z.lxor u v = Z.lxor u v mod 2 ^ k) as ->; [|apply Z.mod_pos_bound, Z.pow_pos_nonneg; lia].
  apply Z.bits_inj'. intros n Hn. destruct (Z.ltb_spec n k).
  - by rewrite Z.mod_pow2_bits_low.
  - by rewrite Z.mod_pow2_bits_high, Z.lxor_spec, (high_bit u k), (high_bit v k).
Qed.

Lemma be_bytes_S n v : be_bytes (S n) v = u8 (Z.shiftr v (8 * Z.of_nat n)) :: be_bytes n v.
Proof. unfold be_bytes. rewrite seq_S, rev_app_distr. done. Qed.

Lemma bytes_be_bytes n v : bytes (be_bytes n v).
Proof. induction n as [|n IH]; [apply Forall_nil_2|]. rewrite be_bytes_S. apply Forall_cons. split; [apply u8_range|done]. Qed.

Lemma be_be_bytes n v : be (be_bytes n v) = v mod 256 ^ Z.of_nat n.
Proof.
  induction n as [|n IH]; [by rewrite Z.mod_1_r|]. rewrite be_bytes_S. cbn [be]. rewrite IH, be_bytes_length, Nat2Z.inj_succ, Z.pow_succ_r by lia.
  pose proof (pow256_pos n). rewrite (Z.mul_comm 256), Z.rem_mul_r by lia.
  rewrite Z.shiftr_div_pow2, <- pow256 by lia. unfold u8. lia.
Qed.

Lemma be_bytes_be n l : bytes l → length l = n → be_bytes n (be l) = l.
Proof.
  intros Hl <-. apply be_inj; [apply be_bytes_length|apply bytes_be_bytes|done|].
  rewrite be_be_bytes. by apply Z.mod_small, be_range.
Qed.

(** High and low parts do not interfere. *)
Lemma split_bit a u k n : 0 ≤ k → 0 ≤ u < 2 ^ k → 0 ≤ n →
  Z.testbit (a * 2 ^ k + u) n = if n <? k then Z.testbit u n else Z.testbit a (n - k).
Proof.
  intros Hk Hu Hn. rewrite <- shiftl_lor_add, Z.lor_spec by done. destruct (Z.ltb_spec n k).
  - by rewrite Z.shiftl_spec_low.
  - rewrite Z.shiftl_spec, (high_bit u k) by lia. apply orb_false_r.
Qed.

Lemma lxor_split a b u v k : 0 ≤ k → 0 ≤ u < 2 ^ k → 0 ≤ v < 2 ^ k →
  Z.lxor (a * 2 ^ k + u) (b * 2 ^ k + v) = Z.lxor a b * 2 ^ k + Z.lxor u v.
Proof.
  intros Hk Hu Hv. pose proof (lxor_bound u v k Hk Hu Hv). apply Z.bits_inj'. intros n Hn.
  rewrite Z.lxor_spec, !split_bit by done. destruct (n <? k); by rewrite Z.lxor_spec.
Qed.

Lemma be_xor a b : length a = length b → bytes a → bytes b → be (xor_bytes a b) = Z.lxor (be a) (be b).
Proof.
  revert b. induction a as [|x a IH]; intros [|y b] Hl Ha Hb; try done. injection Hl as Hl.
  apply Forall_cons in Ha as [Hx Ha], Hb as [Hy Hb]. pose proof (be_range a Ha). pose proof (be_range b Hb).
  unfold xor_bytes in *. cbn [zip_with be]. rewrite length_zip_with, <- Hl, Nat.min_id, IH by done.
  rewrite <- Hl in *. rewrite !pow256 in *. by rewrite lxor_split by lia.
Qed.

Lemma bytes_xor a b : bytes a → bytes b → bytes (xor_bytes a b).
Proof.
  revert b. induction a as [|x a IH]; intros [|y b] Ha Hb; try apply Forall_nil_2.
  apply Forall_cons in Ha as [Hx Ha], Hb as [Hy Hb]. apply Forall_cons. split; [by apply (lxor_bound x y 8)|by apply IH].
Qed.

Lemma length_xor a b : length a = length b → length (xor_bytes a b) = length a.
Proof. intros Hl. unfold xor_bytes. rewrite length_zip_with. lia. Qed.

Lemma block_xor a b : block a → block b → block (xor_bytes a b).
Proof. intros [? ?] [? ?]. split; [rewrite length_xor; lia|by apply bytes_xor]. Qed.

(** ** Shifting bytes is dividing *)

Lemma shift_bytes_length k p l : length (shift_bytes k p l) = length l.
Proof. revert p. induction l as [|x l IH]; intros p; simpl; [done|]. by rewrite IH. Qed.

(** One byte: the high bits of [x] below the low bits of [p]. *)
Lemma shift_byte k p x : 0 ≤ k ≤ 8 → is_u8 x → 0 ≤ p →
  let o := Z.lor (Z.shiftr x k) (u8 (Z.shiftl (Z.land p (2 ^ k - 1)) (8 - k))) in
  is_u8 o ∧ o = ((p mod 2 ^ k) * 256 + x) / 2 ^ k.
Proof.
  intros Hk Hx Hp. cbv zeta. rewrite land_ones_mod by lia. unfold is_u8 in *.
  assert (256 = 2 ^ (8 - k) * 2 ^ k) as H256 by (rewrite <- Z.pow_add_r by lia; by replace (8 - k + k) with 8 by lia).
  assert (0 < 2 ^ k) by (apply Z.pow_pos_nonneg; lia). assert (0 < 2 ^ (8 - k)) by (apply Z.pow_pos_nonneg; lia).
  pose proof (Z.mod_pos_bound p (2 ^ k)). set (m := p mod 2 ^ k) in *.
  assert (0 ≤ x / 2 ^ k < 2 ^ (8 - k)).
  { split; [apply Z.div_pos; lia|]. apply Z.div_lt_upper_bound; lia. }
  rewrite u8_small by (unfold is_u8; rewrite Z.shiftl_mul_pow2 by lia; nia).
  rewrite Z.lor_comm, Z.shiftr_div_pow2, shiftl_lor_add by lia.
  rewrite H256 at 2. rewrite Z.mul_assoc, Z.div_add_l by lia. split; [nia|done].
Qed.

Lemma be_shift k l : 0 ≤ k ≤ 8 → ∀ p, bytes l → 0 ≤ p →
  bytes (shift_bytes k p l) ∧
  be (shift_bytes k p l) = ((p mod 2 ^ k) * 256 ^ Z.of_nat (length l) + be l) / 2 ^ k.
Proof.
  intros Hk. assert (0 < 2 ^ k) by (apply Z.pow_pos_nonneg; lia).
  assert (256 = 2 ^ (8 - k) * 2 ^ k) as H256 by (rewrite <- Z.pow_add_r by lia; by replace (8 - k + k) with 8 by lia).
  induction l as [|x l IH]; intros p Hl Hp.
  { split; [apply Forall_nil_2|]. cbn [shift_bytes be length]. rewrite Z.add_0_r, Z.mul_1_r.
    symmetry. apply Z.div_small, Z.mod_pos_bound. done. }
  apply Forall_cons in Hl as [Hx Hl]. destruct (shift_byte k p x Hk Hx Hp) as [Hb Ho]. cbv zeta in Hb, Ho.
  cbn [shift_bytes]. set (o := Z.lor _ _) in *. unfold is_u8 in Hx. destruct (IH x Hl ltac:(lia)) as [Hbs Hbe].
  split; [by apply Forall_cons|]. cbn [be length]. rewrite shift_bytes_length, Hbe, Nat2Z.inj_succ, Z.pow_succ_r by lia.
  set (N := 256 ^ Z.of_nat (length l)) in *. set (y := (p mod 2 ^ k) * 256 + x) in *.
  assert (x mod 2 ^ k = y mod 2 ^ k) as ->.
  { unfold y. rewrite H256, Z.mul_assoc, Z.add_comm, Z.mod_add by lia. done. }
  rewrite Ho. pose proof (Z.div_mod y (2 ^ k) ltac:(lia)) as Hy.
  replace ((p mod 2 ^ k) * (256 * N) + (x * N + be l)) with (y / 2 ^ k * N * 2 ^ k + (y mod 2 ^ k * N + be l)).
  - by rewrite Z.div_add_l by lia.
  - replace (y / 2 ^ k * N * 2 ^ k + (y mod 2 ^ k * N + be l)) with (N * (2 ^ k * (y / 2 ^ k) + y mod 2 ^ k) + be l) by lia.
    rewrite <- Hy. unfold y. lia.
Qed.

(** The low bits are those of the last byte. *)
Lemma be_low l k : block l → 0 ≤ k ≤ 8 → be l mod 2 ^ k = nth 15 l 0 mod 2 ^ k.
Proof.
  intros [Hl _] Hk. destruct (exists_last (l := l)) as (l' & x & ->); [by destruct l|]. rewrite length_app in Hl. simpl in Hl.
  rewrite app_nth2 by lia. replace (15 - length l')%nat with 0%nat by lia. cbn [nth].
  assert (256 = 2 ^ (8 - k) * 2 ^ k) as H256 by (rewrite <- Z.pow_add_r by lia; by replace (8 - k + k) with 8 by lia).
  assert (be (l' ++ [x]) = x + be l' * 2 ^ (8 - k) * 2 ^ k) as ->.
  { rewrite be_app. change (256 ^ Z.of_nat (length [x])) with 256. cbn [be length]. rewrite H256. lia. }
  apply Z.mod_add. pose proof (Z.pow_pos_nonneg 2 k). lia.
Qed.

(** Changing one byte by [c]. *)
Lemma be_alter l : ∀ i c, (i < length l)%nat → bytes l → is_u8 c →
  bytes (<[i := Z.lxor (nth i l 0) c]> l) ∧
  be (<[i := Z.lxor (nth i l 0) c]> l) = Z.lxor (be l) (c * 256 ^ (Z.of_nat (length l) - 1 - Z.of_nat i)).
Proof.
  induction l as [|x l IH]; intros i c Hi Hl Hc; [simpl in Hi; lia|]. apply Forall_cons in Hl as [Hx Hl].
  pose proof (be_range l Hl) as Hr. cbn [length] in *. destruct i as [|i]; cbn [nth].
  - change (<[0%nat := Z.lxor x c]> (x :: l)) with (Z.lxor x c :: l). split; [apply Forall_cons; split; [by apply (lxor_bound x c 8)|done]|].
    cbn [be].
    replace (Z.of_nat (S (length l)) - 1 - Z.of_nat 0) with (Z.of_nat (length l)) by lia. rewrite pow256 in *.
    rewrite <- (Z.add_0_r (c * _)), lxor_split, Z.lxor_0_r by lia. done.
  - destruct (IH i c ltac:(lia) Hl Hc) as [Hb He].
    change (<[S i := Z.lxor (nth i l 0) c]> (x :: l)) with (x :: <[i := Z.lxor (nth i l 0) c]> l).
    split; [by apply Forall_cons|]. cbn [be]. rewrite He, length_insert.
    replace (Z.of_nat (S (length l)) - 1 - Z.of_nat (S i)) with (Z.of_nat (length l) - 1 - Z.of_nat i) by lia.
    set (e := c * _) in *. assert (0 ≤ e < 256 ^ Z.of_nat (length l)) as He'.
    { unfold e, is_u8 in *. set (j := Z.of_nat (length l) - 1 - Z.of_nat i).
      assert (256 ^ (j + 1) ≤ 256 ^ Z.of_nat (length l)) by (apply Z.pow_le_mono_r; lia).
      assert (0 < 256 ^ j) by (apply Z.pow_pos_nonneg; lia). rewrite Z.pow_add_r in * by lia. nia. }
    rewrite pow256 in *. rewrite <- (Z.add_0_l e) at 2. change (0 + e) with (0 * 2 ^ (8 * Z.of_nat (length l)) + e).
    by rewrite lxor_split, Z.lxor_0_r by lia.
Qed.

(** ** The field *)

(** x^128 = x^7 + x^2 + x + 1, the coefficient of x^0 being the top bit. *)
Definition R128 : Z := 0xE1 * 2 ^ 120.
Definition mulX (v : Z) : Z := Z.lxor (Z.shiftr v 1) (if Z.testbit v 0 then R128 else 0).

(** Algorithm 1 of SP 800-38D: the bits of the first factor from the first. *)
Fixpoint gf_loop (bits : list bool) (z v : Z) : Z :=
  match bits with
  | [] => z
  | b :: r => gf_loop r (if b then Z.lxor z v else z) (mulX v)
  end.

Definition byte_bits (b : Z) : list bool := Z.testbit b <$> [7; 6; 5; 4; 3; 2; 1; 0].
Definition block_bits (x : list Z) : list bool := concat (byte_bits <$> x).
Definition gf_mul (x h : list Z) : list Z := be_bytes 16 (gf_loop (block_bits x) 0 (be h)).

Ltac xor_eq := apply Z.bits_inj'; intros ? _; rewrite ?Z.lxor_spec, ?Z.testbit_0_l; repeat destruct (Z.testbit _ _); done.

Lemma mulX_xor a b : mulX (Z.lxor a b) = Z.lxor (mulX a) (mulX b).
Proof.
  unfold mulX. rewrite Z.shiftr_lxor, Z.lxor_spec. destruct (Z.testbit a 0), (Z.testbit b 0); simpl xorb; cbv iota; xor_eq.
Qed.

Lemma mulX_range v : 0 ≤ v < 2 ^ 128 → 0 ≤ mulX v < 2 ^ 128.
Proof.
  intros Hv. apply lxor_bound; [lia|rewrite Z.shiftr_div_pow2 by lia; split; [apply Z.div_pos; lia|apply Z.div_lt_upper_bound; lia]|].
  unfold R128. destruct (Z.testbit v 0); lia.
Qed.

Definition G (bits : list bool) (v : Z) : Z := gf_loop bits 0 v.

Lemma gf_loop_acc bits : ∀ z v, gf_loop bits z v = Z.lxor z (G bits v).
Proof.
  unfold G. induction bits as [|b r IH]; intros z v; cbn [gf_loop]; [by rewrite Z.lxor_0_r|].
  rewrite IH, (IH (if b then _ else 0)). destruct b; rewrite ?Z.lxor_0_l; [by rewrite Z.lxor_assoc|done].
Qed.

Lemma G_cons b r v : G (b :: r) v = Z.lxor (if b then v else 0) (G r (mulX v)).
Proof. unfold G at 1. cbn [gf_loop]. rewrite gf_loop_acc. by destruct b; rewrite ?Z.lxor_0_l. Qed.

Lemma mulX_0 : mulX 0 = 0.
Proof. done. Qed.

Lemma G_mulX bits : ∀ v, G bits (mulX v) = mulX (G bits v).
Proof.
  induction bits as [|b r IH]; intros v; [done|]. rewrite !G_cons, mulX_xor, IH. by destruct b.
Qed.

Lemma G_range bits : ∀ v, 0 ≤ v < 2 ^ 128 → 0 ≤ G bits v < 2 ^ 128.
Proof.
  induction bits as [|b r IH]; intros v Hv; [done|]. rewrite G_cons. apply lxor_bound; [lia|by destruct b|].
  by apply IH, mulX_range.
Qed.

Lemma G_app a b v : G (a ++ b) v = Z.lxor (G a v) (Nat.iter (length a) mulX (G b v)).
Proof.
  revert v. induction a as [|x a IH]; intros v; [done|]. cbn [app length]. rewrite !G_cons, IH, (G_mulX b), Z.lxor_assoc.
  do 2 f_equal. rewrite Nat.iter_succ_r. done.
Qed.

(** Multiplying by x^4 with the table of reductions. *)
Lemma mulX_double w : mulX (2 * w) = w.
Proof.
  unfold mulX. rewrite Z.shiftr_div_pow2, Z.mul_comm by lia. change (2 ^ 1) with 2. rewrite Z.div_mul by lia.
  rewrite (Z.mul_comm w), Z.testbit_even_0. apply Z.lxor_0_r.
Qed.

Definition mulX4 (v : Z) : Z := Nat.iter 4 mulX v.

Lemma mulX4_xor a b : mulX4 (Z.lxor a b) = Z.lxor (mulX4 a) (mulX4 b).
Proof. unfold mulX4. simpl. by rewrite !mulX_xor. Qed.

Lemma mulX4_red v : mulX4 v = Z.lxor (v / 16) (nth (Z.to_nat (v mod 16)) RED 0 * 2 ^ 112).
Proof.
  assert (v = Z.lxor (2 * (2 * (2 * (2 * (v / 16))))) (v mod 16)) as Hv.
  { pose proof (Z.mod_pos_bound v 16 ltac:(lia)).
    pose proof (lxor_split (v / 16) 0 0 (v mod 16) 4 ltac:(lia) ltac:(lia) ltac:(lia)) as Hs.
    rewrite Z.lxor_0_r, Z.lxor_0_l, Z.mul_0_l, Z.add_0_l, Z.add_0_r in Hs.
    replace (2 * (2 * (2 * (2 * (v / 16))))) with (v / 16 * 2 ^ 4) by lia. rewrite Hs.
    change (2 ^ 4) with 16. rewrite Z.mul_comm. apply Z.div_mod. lia. }
  rewrite Hv at 1. rewrite mulX4_xor. f_equal.
  - unfold mulX4. simpl. by rewrite !mulX_double.
  - pose proof (Z.mod_pos_bound v 16 ltac:(lia)) as Hm. set (n := v mod 16) in *. clearbody n.
    assert (∀ n, 0 ≤ n < 16 → mulX4 n = nth (Z.to_nat n) RED 0 * 2 ^ 112) as Hall; [|by apply Hall].
    intros k Hk. assert (forallb (λ n, mulX4 (Z.of_nat n) =? nth n RED 0 * 2 ^ 112) (seq 0 16) = true) as Hf by (vm_compute; done).
    rewrite forallb_forall in Hf. specialize (Hf (Z.to_nat k)). rewrite Z2Nat.id in Hf by lia.
    apply Z.eqb_eq, Hf, in_seq. lia.
Qed.

(** ** The table *)

Definition zero_block : list Z := replicate 16 0.

Definition nibble_bits (n : Z) : list bool := Z.testbit n <$> [3; 2; 1; 0].

Lemma block_be_range l : block l → 0 ≤ be l < 2 ^ 128.
Proof. intros [Hl Hb]. pose proof (be_range l Hb) as Hr. rewrite Hl in Hr. exact Hr. Qed.

Lemma be_zero : be zero_block = 0.
Proof. vm_compute. done. Qed.

Lemma block_zero : block zero_block.
Proof. split; [done|]. apply Forall_replicate. unfold is_u8. lia. Qed.

Lemma block_be_bytes v : block (be_bytes 16 v).
Proof. split; [apply be_bytes_length|apply bytes_be_bytes]. Qed.

(** [halve_row] multiplies by x. *)
Definition half (r : list Z) : list Z :=
  let tmp := block_rshift1 r in
  if Z.land (nth 15 r 0) 1 =? 0 then tmp else <[0%nat := Z.lxor (nth 0 tmp 0) 0xE1]> tmp.

Lemma half_ok r : block r → block (half r) ∧ be (half r) = mulX (be r).
Proof.
  intros Hr. pose proof Hr as [Hl Hb]. unfold half, block_rshift1, mulX.
  destruct (be_shift 1 r ltac:(lia) 0 Hb ltac:(lia)) as [Hs Hbe]. rewrite Z.mod_0_l, Z.mul_0_l, Z.add_0_l in Hbe by lia.
  pose proof (be_low r 1 Hr ltac:(lia)) as Hlow. change (2 ^ 1) with 2 in *.
  rewrite Z.shiftr_div_pow2 by lia. change (2 ^ 1) with 2. rewrite <- Hbe. set (tmp := shift_bytes 1 0 r) in *.
  assert (length tmp = 16%nat) as Hlt by (unfold tmp; by rewrite shift_bytes_length).
  assert (Z.land (nth 15 r 0) 1 = be r mod 2) as -> by (rewrite Hlow; apply (land_ones_mod _ 1); lia).
  rewrite <- Z.bit0_mod. destruct (Z.testbit (be r) 0); cbn [Z.b2z Z.eqb].
  - destruct (be_alter tmp 0 0xE1 ltac:(lia) Hs ltac:(unfold is_u8; lia)) as [Hb' ->]. rewrite Hlt.
    split; [split; [by rewrite length_insert|done]|]. done.
  - split; [done|]. by rewrite Z.lxor_0_r.
Qed.

Lemma halve_row_half t i : halve_row t i = <[i := half (row t (2 * i))]> t.
Proof. done. Qed.

(** The sixteen rows. *)
Lemma ghash_init_rows junk h : length junk = 16%nat →
  let h1 := half h in let h2 := half h1 in let h3 := half h2 in
  ghash_init junk h =
    [zero_block; h3; h2; xor_bytes h2 h3; h1; xor_bytes h1 h3; xor_bytes h1 h2; xor_bytes h1 (xor_bytes h2 h3);
     h; xor_bytes h h3; xor_bytes h h2; xor_bytes h (xor_bytes h2 h3); xor_bytes h h1; xor_bytes h (xor_bytes h1 h3);
     xor_bytes h (xor_bytes h1 h2); xor_bytes h (xor_bytes h1 (xor_bytes h2 h3))].
Proof.
  intros Hj. do 16 (destruct junk as [|? junk]; [done|]). destruct junk; [|done]. cbv zeta. unfold ghash_init.
  cbn [fold_left]. rewrite !halve_row_half. reflexivity.
Qed.

Lemma table_ok junk h n : length junk = 16%nat → block h → 0 ≤ n < 16 →
  block (row (ghash_init junk h) (Z.to_nat n)) ∧
  be (row (ghash_init junk h) (Z.to_nat n)) = G (nibble_bits n) (be h).
Proof.
  intros Hj Hh Hn. rewrite ghash_init_rows by done. destruct (half_ok h Hh) as [B1 E1].
  destruct (half_ok _ B1) as [B2 E2], (half_ok (half (half h))) as [B3 E3]; [by apply half_ok|]. cbv zeta.
  rewrite E2 in E3. rewrite E1 in E2, E3. set (h3 := half (half (half h))) in *. set (h2 := half (half h)) in *. set (h1 := half h) in *.
  assert (∀ a b, block a → block b → be (xor_bytes a b) = Z.lxor (be a) (be b)) as Hx.
  { intros a b [Ha Ba] [Hb Bb]. apply be_xor; [lia|done|done]. }
  assert (n = 0 ∨ n = 1 ∨ n = 2 ∨ n = 3 ∨ n = 4 ∨ n = 5 ∨ n = 6 ∨ n = 7 ∨ n = 8 ∨ n = 9 ∨ n = 10 ∨ n = 11 ∨ n = 12 ∨ n = 13 ∨ n = 14 ∨ n = 15)
    as Hc by lia.
  repeat destruct Hc as [->|Hc]; try subst n;
    repeat match goal with |- context [Z.to_nat ?k] => let v := eval vm_compute in (Z.to_nat k) in change (Z.to_nat k) with v end;
    cbn [row nth];
    (split; [repeat apply block_xor; done || apply block_zero|]);
    rewrite ?Hx, ?E1, ?E2, ?E3 by (repeat apply block_xor; done);
    unfold nibble_bits; cbn [fmap list_fmap]; rewrite !G_cons; cbn [Z.testbit Pos.testbit G gf_loop];
    rewrite ?be_zero, ?Z.lxor_0_l, ?Z.lxor_0_r; done.
Qed.

(** ** The multiplication *)

Lemma red_parts n : 0 ≤ n < 16 → let red := nth (Z.to_nat n) RED 0 in
  is_u8 (Z.shiftr red 8) ∧ is_u8 (Z.land red 255) ∧
  Z.lxor (Z.shiftr red 8 * 256 ^ 15) (Z.land red 255 * 256 ^ 14) = red * 2 ^ 112.
Proof.
  intros Hn. assert (forallb (λ n, let red := nth n RED 0 in (0 <=? Z.shiftr red 8) && (Z.shiftr red 8 <? 256) &&
    (0 <=? Z.land red 255) && (Z.land red 255 <? 256) &&
    (Z.lxor (Z.shiftr red 8 * 256 ^ 15) (Z.land red 255 * 256 ^ 14) =? red * 2 ^ 112)) (seq 0 16) = true) as Hf by (vm_compute; done).
  rewrite forallb_forall in Hf. specialize (Hf (Z.to_nat n) ltac:(apply in_seq; lia)). cbv zeta in *.
  unfold is_u8. rewrite !andb_true_iff in Hf. lia.
Qed.

Lemma ghash_nibble_ok junk h z k n : length junk = 16%nat → block h → block z → 0 ≤ n < 16 → (k = 0%nat → be z = 0) →
  let z' := ghash_nibble (ghash_init junk h) z (k, n) in
  block z' ∧ be z' = Z.lxor (mulX4 (be z)) (G (nibble_bits n) (be h)).
Proof.
  intros Hj Hh Hz Hn Hk. cbv zeta. destruct (table_ok junk h n Hj Hh Hn) as [Hr Hrb]. unfold ghash_nibble. cbn [fst snd].
  set (r := row _ _) in *. set (z1 := if (k =? 0)%nat then z else _).
  assert (block z1 ∧ be z1 = mulX4 (be z)) as [Hz1 Hzb].
  { unfold z1. clear z1. destruct (Nat.eqb_spec k 0) as [->|_]; [by rewrite Hk|]. pose proof Hz as [Hl Hb].
    pose proof (be_low z 4 Hz ltac:(lia)) as Hlow. change (2 ^ 4) with 16 in Hlow.
    assert (Z.land (nth 15 z 0) 15 = be z mod 16) as -> by (rewrite Hlow; apply (land_ones_mod _ 4); lia).
    destruct (red_parts (be z mod 16) ltac:(apply Z.mod_pos_bound; lia)) as (Hu1 & Hu2 & Hred). cbv zeta in *.
    rewrite mulX4_red, <- Hred. set (red := nth _ RED 0) in *.
    destruct (be_shift 4 z ltac:(lia) 0 Hb ltac:(lia)) as [Hs Hbe]. rewrite Z.mod_0_l, Z.mul_0_l, Z.add_0_l in Hbe by lia.
    change (2 ^ 4) with 16 in Hbe. rewrite <- Hbe. set (t := shift_bytes 4 0 z) in *.
    assert (length t = 16%nat) as Hlt by (unfold t; by rewrite shift_bytes_length).
    destruct (be_alter t 0 (Z.shiftr red 8) ltac:(lia) Hs Hu1) as [Hb1 E1]. set (t1 := <[0%nat := _]> t) in *.
    assert (length t1 = 16%nat) as Hl1 by (unfold t1; by rewrite length_insert).
    destruct (be_alter t1 1 (Z.land red 255) ltac:(lia) Hb1 Hu2) as [Hb2 E2].
    split; [split; [by rewrite length_insert|done]|]. rewrite E2, E1, Hlt, Hl1. rewrite Z.lxor_assoc. done. }
  split; [by apply block_xor|]. rewrite be_xor, Hzb, Hrb; [done|destruct Hz1, Hr; lia|apply Hz1|apply Hr].
Qed.

(** Horner's rule over nibbles. *)
Definition horner (h : Z) (ns : list Z) (z : Z) : Z :=
  fold_left (λ z n, Z.lxor (mulX4 z) (G (nibble_bits n) h)) ns z.

Lemma ghash_fold junk h : length junk = 16%nat → block h → ∀ l z, block z → Forall (λ kn, 0 ≤ kn.2 < 16) l →
  match l with kn :: r => (kn.1 = 0%nat → be z = 0) ∧ Forall (λ kn, kn.1 ≠ 0%nat) r | [] => True end →
  let z' := fold_left (ghash_nibble (ghash_init junk h)) l z in block z' ∧ be z' = horner (be h) (snd <$> l) (be z).
Proof.
  intros Hj Hh. induction l as [|[k n] l IH]; intros z Hz Hl Hk; [done|]. apply Forall_cons in Hl as [Hn Hl]. destruct Hk as [Hk Hr].
  destruct (ghash_nibble_ok junk h z k n Hj Hh Hz Hn Hk) as [Hz1 Hb1]. cbn [fold_left fmap list_fmap horner].
  unfold horner. cbn [fold_left]. cbv zeta in *. fold (horner (be h) (snd <$> l)). cbn [snd]. rewrite <- Hb1. apply IH; [done|done|].
  destruct l as [|kn r]; [done|]. apply Forall_cons in Hr as [H0 Hr]. by split.
Qed.

Lemma nibbles_cons b x : nibbles (b :: x) = nibbles x ++ [Z.land b 15; Z.shiftr b 4].
Proof. unfold nibbles. cbn [rev]. rewrite fmap_app, concat_app. done. Qed.

Lemma nibble_range b : is_u8 b → 0 ≤ Z.land b 15 < 16 ∧ 0 ≤ Z.shiftr b 4 < 16.
Proof.
  unfold is_u8. intros Hb. rewrite (land_ones_mod b 4 ltac:(lia) : Z.land b 15 = _), Z.shiftr_div_pow2 by lia. change (2 ^ 4) with 16.
  split; [apply Z.mod_pos_bound; lia|]. split; [apply Z.div_pos; lia|apply Z.div_lt_upper_bound; lia].
Qed.

Lemma byte_bits_nibbles b : byte_bits b = nibble_bits (Z.shiftr b 4) ++ nibble_bits (Z.land b 15).
Proof.
  unfold byte_bits, nibble_bits. cbn [fmap list_fmap app]. rewrite !Z.shiftr_spec, !Z.land_spec by lia.
  cbn [Z.testbit Pos.testbit]. rewrite !andb_true_r. done.
Qed.

Lemma G_nibble n r v : G (nibble_bits n ++ r) v = Z.lxor (G (nibble_bits n) v) (mulX4 (G r v)).
Proof. apply G_app. Qed.

Lemma horner_snoc2 h ns a b z : horner h (ns ++ [a; b]) z =
  Z.lxor (mulX4 (Z.lxor (mulX4 (horner h ns z)) (G (nibble_bits a) h))) (G (nibble_bits b) h).
Proof. unfold horner. by rewrite fold_left_app. Qed.

Lemma block_bits_cons b x : block_bits (b :: x) = nibble_bits (Z.shiftr b 4) ++ nibble_bits (Z.land b 15) ++ block_bits x.
Proof. unfold block_bits. cbn [fmap list_fmap concat]. by rewrite byte_bits_nibbles, <- (assoc_L (++)). Qed.

Lemma horner_bits h x : bytes x → horner h (nibbles x) 0 = G (block_bits x) h.
Proof.
  induction x as [|b x IH]; intros Hx; [done|]. apply Forall_cons in Hx as [Hb Hx].
  rewrite nibbles_cons, horner_snoc2, IH, block_bits_cons, !G_nibble by done.
  by rewrite Z.lxor_comm, (Z.lxor_comm (mulX4 _)).
Qed.

Lemma nibbles_range x : bytes x → Forall (λ n, 0 ≤ n < 16) (nibbles x).
Proof.
  induction x as [|b x IH]; intros Hx; [apply Forall_nil_2|]. apply Forall_cons in Hx as [Hb Hx]. rewrite nibbles_cons.
  apply Forall_app. split; [by apply IH|]. destruct (nibble_range b Hb). by apply Forall_cons_2; [|apply Forall_singleton].
Qed.

Lemma snd_imap_pair {A} (l : list A) (f : nat → nat) : snd <$> imap (λ i x, (f i, x)) l = l.
Proof. revert f. induction l as [|x l IH]; intros f; [done|]. cbn. f_equal. apply (IH (f ∘ S)). Qed.

Lemma ghash_mul_ok junk h x : length junk = 16%nat → block h → block x →
  ghash_mul (ghash_init junk h) x = gf_mul x h.
Proof.
  intros Hj Hh [Hl Hx]. unfold ghash_mul, gf_mul. pose proof (nibbles_range x Hx) as Hn.
  pose proof (ghash_fold junk h Hj Hh (imap pair (nibbles x)) zero_block block_zero) as Hf. cbv zeta in Hf.
  rewrite (snd_imap_pair _ (λ i, i)), be_zero, horner_bits in Hf by done. destruct Hf as [[Hbl Hb] He].
  - apply Forall_lookup. intros i [k n] Hi. apply list_lookup_imap_Some in Hi as (y & Hy & [= -> ->]).
    by eapply Forall_lookup in Hn.
  - destruct (nibbles x) as [|n ns]; [done|]. cbn. split; [done|]. apply Forall_lookup. intros i kn Hi.
    apply list_lookup_imap_Some in Hi as (y & _ & ->). done.
  - fold zero_block. fold (G (block_bits x) (be h)). rewrite <- He. symmetry. by apply be_bytes_be.
Qed.

Lemma gf_mul_block x h : block (gf_mul x h).
Proof. apply block_be_bytes. Qed.

(** C28. The table method is multiplication in GF(2^128): for every hash key
    [h] and block [x], [ghash_mul] with the table of [ghash_init] gives the
    product of SP 800-38D's bit-by-bit algorithm, whatever the table's memory
    held before. *)
Theorem ghash_table_correct junk h x : length junk = 16%nat → block h → block x →
  ghash_mul (ghash_init junk h) x = gf_mul x h.
Proof. apply ghash_mul_ok. Qed.

Lemma ghash_table_correct_witness :
  ghash_mul (ghash_init (replicate 16 []) (be_bytes 16 0x66e94bd4ef8a2c3b884cfa59ca342b2e)) (be_bytes 16 0x0388dace60b6a392f328c2b971b2fe78) =
  be_bytes 16 0x5e2ec746917062882c85b0685353deb7.
Proof.
  rewrite (ghash_table_correct (replicate 16 []) (be_bytes 16 0x66e94bd4ef8a2c3b884cfa59ca342b2e) (be_bytes 16 0x0388dace60b6a392f328c2b971b2fe78)
    eq_refl (block_be_bytes _) (block_be_bytes _)). vm_compute. reflexivity.
Defined.
End ghash.
