(* ===== verification/Gcm.v ===== *)
(** * GCM

    The mode of [kcrypto.c] against SP 800-38D: counter mode from the second
    counter value, GHASH over the padded data, the tag masked with the first
    keystream block. The block cipher is a parameter here that returns blocks;
    [AesSpec.v] puts AES in its place. *)

From S2P Require Import Prelude Sha Aes Ghash.
Import sha aes ghash.

Open Scope c_scope.

Module gcm.

(** ** The specification *)

(** Zeros up to a whole block. *)
Definition pad16 (d : list Z) : list Z := d ++ replicate ((16 - length d mod 16) mod 16) 0.

Fixpoint hash_from (n : nat) (h y d : list Z) : list Z :=
  match n with
  | O => y
  | S n' => hash_from n' h (gf_mul (xor_bytes y (take 16 d)) h) (drop 16 d)
  end.

(** GHASH of a whole number of blocks. *)
Definition hash (h d : list Z) : list Z := hash_from (length d / 16) h zero_block d.

(** [n] blocks of the keystream, from the counter value [c]. *)
Definition keystream (E : list Z → list Z) (iv : list Z) (c : Z) (n : nat) : list Z :=
  concat ((λ k, E (iv ++ be_bytes 4 (c + Z.of_nat k))) <$> seq 0 n).

Definition blocks_of (n : nat) : nat := ((n + 15) / 16)%nat.

Definition ctr (E : list Z → list Z) (iv inp : list Z) : list Z := xor_bytes inp (keystream E iv 2 (blocks_of (length inp))).

Definition gcm_tag (E : list Z → list Z) (iv aad ct : list Z) : list Z :=
  let lengths := be_bytes 8 (Z.of_nat (length aad) * 8) ++ be_bytes 8 (Z.of_nat (length ct) * 8) in
  xor_bytes (hash (E zero_block) (pad16 aad ++ pad16 ct ++ lengths)) (E (iv ++ be_bytes 4 1)).

(** ** GHASH over data *)

Lemma xor_zeros l n : (length l ≤ n)%nat → xor_bytes l (replicate n 0) = l.
Proof.
  unfold xor_bytes. revert n. induction l as [|x l IH]; intros [|n] Hn; simpl in *; try done; [lia|].
  rewrite Z.lxor_0_r, IH by lia. done.
Qed.

Lemma xor_app a1 a2 b1 b2 : length a1 = length b1 → xor_bytes (a1 ++ a2) (b1 ++ b2) = xor_bytes a1 b1 ++ xor_bytes a2 b2.
Proof. intros. unfold xor_bytes. by apply zip_with_app. Qed.

Lemma xor_first_ok y d : length y = 16%nat → (length d ≤ 16)%nat →
  xor_bytes (take (length d) y) d ++ drop (length d) y = xor_bytes y (d ++ replicate (16 - length d) 0).
Proof.
  intros Hy Hd. rewrite <- (take_drop (length d) y) at 3. rewrite xor_app by (rewrite length_take; lia).
  by rewrite (xor_zeros (drop _ _)) by (rewrite length_drop; lia).
Qed.

Lemma bytes_app a b : bytes (a ++ b) ↔ bytes a ∧ bytes b.
Proof. apply Forall_app. Qed.

Lemma bytes_take n a : bytes a → bytes (take n a).
Proof. apply Forall_take. Qed.
Lemma bytes_drop n a : bytes a → bytes (drop n a).
Proof. apply Forall_drop. Qed.
Lemma bytes_zeros n : bytes (replicate n 0).
Proof. apply Forall_replicate. unfold is_u8. lia. Qed.

Lemma pad16_short d : (0 < length d < 16)%nat → pad16 d = d ++ replicate (16 - length d) 0.
Proof. intros Hd. unfold pad16. rewrite (Nat.mod_small (length d)) by lia. by rewrite Nat.mod_small by lia. Qed.

Lemma pad16_long d : (16 ≤ length d)%nat → pad16 d = take 16 d ++ pad16 (drop 16 d).
Proof.
  intros Hd. unfold pad16. rewrite length_drop, (assoc_L (++)), take_drop. do 3 f_equal.
  replace (length d) with (length d - 16 + 1 * 16)%nat at 1 by lia. by rewrite Nat.Div0.mod_add.
Qed.

Lemma pad16_length d : ∃ n, length (pad16 d) = (n * 16)%nat.
Proof.
  unfold pad16. rewrite length_app, length_replicate. pose proof (Nat.div_mod (length d) 16 ltac:(done)) as Hd.
  pose proof (Nat.mod_upper_bound (length d) 16 ltac:(done)). destruct (decide (length d mod 16 = 0)%nat) as [H0|Hne].
  - rewrite H0 in *. exists (length d / 16)%nat. change ((16 - 0) mod 16)%nat with 0%nat. lia.
  - exists (length d / 16 + 1)%nat. rewrite (Nat.mod_small (16 - _)) by lia. lia.
Qed.

Lemma hash_from_app n m h y a b : length a = (n * 16)%nat → hash_from (n + m) h y (a ++ b) = hash_from m h (hash_from n h y a) b.
Proof.
  revert y a. induction n as [|n IH]; intros y a Ha; cbn [Nat.add hash_from]; [by destruct a|].
  rewrite take_app_le, drop_app_le by lia. apply IH. rewrite length_drop. lia.
Qed.

Lemma hash_from_block n h y d : block y → block (hash_from n h y d).
Proof. revert y d. induction n as [|n IH]; intros y d Hy; [done|]. apply IH, gf_mul_block. Qed.

Lemma ghash_update_ok junk h fuel : length junk = 16%nat → block h → ∀ y d, block y → bytes d → (length d < fuel)%nat →
  ghash_update fuel (ghash_init junk h) y d = Ret (hash_from (length (pad16 d) / 16) h y (pad16 d)).
Proof.
  intros Hj Hh. induction fuel as [|fuel IH]; intros y d Hy Hd Hf; [lia|]. cbn [ghash_update].
  destruct (Nat.leb_spec 16 (length d)) as [H16|H16].
  - assert (length (take 16 d) = 16%nat) as Ht by (rewrite length_take; lia). destruct Hy as [Hy1 Hy2].
    assert (xor_bytes (take (length (take 16 d)) y) (take 16 d) ++ drop (length (take 16 d)) y = xor_bytes y (take 16 d)) as ->.
    { rewrite Ht, take_ge, drop_ge, app_nil_r by lia. done. }
    rewrite ghash_mul_ok by (try done; apply block_xor; split; try done; by apply bytes_take).
    rewrite IH by (rewrite ?length_drop; (lia || apply gf_mul_block || by apply bytes_drop)).
    rewrite (pad16_long d) by done. rewrite length_app, Ht. destruct (pad16_length (drop 16 d)) as [n Hn]. rewrite Hn.
    replace (16 + n * 16)%nat with ((1 + n) * 16)%nat by lia. rewrite !Nat.div_mul by done.
    rewrite hash_from_app by (rewrite Ht; lia). cbn [hash_from]. by rewrite (take_ge (take 16 d)) by lia.
  - destruct (Nat.eqb_spec (length d) 0) as [H0|H0].
    { apply length_zero_iff_nil in H0 as ->. done. }
    rewrite pad16_short, length_app, length_replicate by lia. replace (length d + (16 - length d))%nat with (1 * 16)%nat by lia.
    rewrite Nat.div_mul by done. cbn [hash_from]. destruct Hy as [Hy1 Hy2]. rewrite xor_first_ok by lia.
    rewrite take_ge by (rewrite length_app, length_replicate; lia). rewrite ghash_mul_ok; [done|done|done|].
    apply block_xor; split; try done; [rewrite length_app, length_replicate; lia|]. apply bytes_app. split; [done|apply bytes_zeros].
Qed.

(** ** The counter *)

Lemma inc_bytes b3 b2 b1 b0 iv : length iv = 12%nat → bytes [b3; b2; b1; b0] →
  ∃ l, gcm_inc32 (iv ++ [b3; b2; b1; b0]) = iv ++ l ∧ length l = 4%nat ∧ bytes l ∧
    be l = (be [b3; b2; b1; b0] + 1) mod 2 ^ 32.
Proof.
  intros Hiv Hb. do 12 (destruct iv as [|? iv]; [discriminate Hiv|]). destruct iv; [|discriminate Hiv].
  apply Forall_cons in Hb as [H3 Hb]. apply Forall_cons in Hb as [H2 Hb]. apply Forall_cons in Hb as [H1 Hb].
  apply Forall_cons in Hb as [H0 _]. unfold gcm_inc32. cbn [inc_from app nth Nat.add].
  assert (∀ b, is_u8 b → u8 (b + 1) = if b =? 255 then 0 else b + 1) as Hu.
  { intros b Hb. unfold u8, is_u8 in *. destruct (Z.eqb_spec b 255) as [->|]; [done|]. apply Z.mod_small. lia. }
  assert (∀ b, is_u8 b → (if b =? 255 then 0 else b + 1) =? 0 = (b =? 255)) as Hz.
  { intros b Hb. unfold is_u8 in *. destruct (Z.eqb_spec b 255); [done|]. apply Z.eqb_neq. lia. }
  assert (∀ b, is_u8 b → (b =? 255) = false → is_u8 (b + 1)) as Hs by (unfold is_u8; intros b Hb ?%Z.eqb_neq; lia).
  assert (∀ x y z w, be [x; y; z; w] = x * 16777216 + y * 65536 + z * 256 + w) as Hbe by (intros; cbn [be length]; lia).
  rewrite (Hu b0), Hz by done. destruct (b0 =? 255) eqn:E0.
  2:{ exists [b3; b2; b1; b0 + 1]. split; [done|]. split; [done|]. split; [by repeat apply Forall_cons_2; try apply Forall_nil_2; auto|].
      rewrite !Hbe. apply Z.eqb_neq in E0. unfold is_u8 in *. rewrite Z.mod_small; lia. }
  cbn [insert list_insert nth]. rewrite (Hu b1), Hz by done. destruct (b1 =? 255) eqn:E1.
  2:{ exists [b3; b2; b1 + 1; 0]. split; [done|]. split; [done|]. split; [by repeat apply Forall_cons_2; try apply Forall_nil_2; auto|].
      rewrite !Hbe. apply Z.eqb_neq in E1. apply Z.eqb_eq in E0. unfold is_u8 in *. rewrite Z.mod_small; lia. }
  cbn [insert list_insert nth]. rewrite (Hu b2), Hz by done. destruct (b2 =? 255) eqn:E2.
  2:{ exists [b3; b2 + 1; 0; 0]. split; [done|]. split; [done|]. split; [by repeat apply Forall_cons_2; try apply Forall_nil_2; auto|].
      rewrite !Hbe. apply Z.eqb_neq in E2. apply Z.eqb_eq in E0, E1. unfold is_u8 in *. rewrite Z.mod_small; lia. }
  cbn [insert list_insert nth]. rewrite (Hu b3), Hz by done. apply Z.eqb_eq in E0, E1, E2. subst. destruct (b3 =? 255) eqn:E3.
  - apply Z.eqb_eq in E3 as ->. exists [0; 0; 0; 0]. split_and!; [done|done| |done]. by repeat apply Forall_cons_2; try apply Forall_nil_2.
  - exists [b3 + 1; 0; 0; 0]. split; [done|]. split; [done|]. split; [by repeat apply Forall_cons_2; try apply Forall_nil_2; auto|].
    rewrite !Hbe. apply Z.eqb_neq in E3. unfold is_u8 in *. rewrite Z.mod_small; lia.
Qed.

Lemma inc32_ok iv c : length iv = 12%nat → gcm_inc32 (iv ++ be_bytes 4 c) = iv ++ be_bytes 4 (c + 1).
Proof.
  intros Hiv. pose proof (be_be_bytes 4 c) as Hv. pose proof (bytes_be_bytes 4 c) as Hb.
  change (be_bytes 4 c) with [u8 (Z.shiftr c 24); u8 (Z.shiftr c 16); u8 (Z.shiftr c 8); u8 (Z.shiftr c 0)] in *.
  destruct (inc_bytes _ _ _ _ iv Hiv Hb) as (l & -> & Hl & Hbl & Hbe). f_equal.
  apply be_inj; [by rewrite be_bytes_length|done|apply bytes_be_bytes|]. rewrite Hbe, Hv, be_be_bytes.
  change (256 ^ Z.of_nat 4) with (2 ^ 32). by rewrite Zplus_mod_idemp_l.
Qed.

Lemma be_bytes_u64 v : be_bytes 8 (u64 v) = be_bytes 8 v.
Proof.
  apply be_inj; [by rewrite !be_bytes_length|apply bytes_be_bytes..|]. rewrite !be_be_bytes.
  change (256 ^ Z.of_nat 8) with 18446744073709551616. unfold u64. apply Zmod_mod.
Qed.

Lemma xor_take a b n : (length a ≤ n)%nat → xor_bytes a (take n b) = xor_bytes a b.
Proof.
  unfold xor_bytes. revert b n. induction a as [|x a IH]; intros b [|n] Hn; simpl in *; try done; [lia|].
  destruct b; [done|]. cbn. by rewrite IH by lia.
Qed.

Lemma xor_twice a k : (length a ≤ length k)%nat → xor_bytes (xor_bytes a k) k = a.
Proof.
  unfold xor_bytes. revert k. induction a as [|x a IH]; intros [|y k] Hl; simpl in *; try done; [lia|].
  rewrite Z.lxor_assoc, Z.lxor_nilpotent, Z.lxor_0_r, IH by lia. done.
Qed.

Lemma xor_length a b : (length a ≤ length b)%nat → length (xor_bytes a b) = length a.
Proof. intros. unfold xor_bytes. rewrite length_zip_with. lia. Qed.

(** ** A block cipher *)

Section cipher.
  Context (E : list Z → list Z) (HE : ∀ x, block x → block (E x)) (iv : list Z) (Hiv : length iv = 12%nat ∧ bytes iv).

Lemma counter_block c : block (iv ++ be_bytes 4 c).
Proof.
  destruct Hiv as [Hl Hb]. split; [rewrite length_app, be_bytes_length; lia|]. apply bytes_app. split; [done|apply bytes_be_bytes].
Qed.

Lemma keystream_cons c n : keystream E iv c (S n) = E (iv ++ be_bytes 4 c) ++ keystream E iv (c + 1) n.
Proof.
  unfold keystream. cbn [seq fmap list_fmap concat]. rewrite Z.add_0_r. f_equal. f_equal.
  rewrite <- seq_shift, <- list_fmap_compose. apply list_fmap_ext. intros i k _. unfold compose. do 3 f_equal. lia.
Qed.

Lemma keystream_length c n : length (keystream E iv c n) = (n * 16)%nat.
Proof.
  revert c. induction n as [|n IH]; intros c; [done|]. rewrite keystream_cons, length_app, IH.
  destruct (HE _ (counter_block c)) as [-> _]. lia.
Qed.

Lemma keystream_bytes c n : bytes (keystream E iv c n).
Proof.
  revert c. induction n as [|n IH]; intros c; [apply Forall_nil_2|]. rewrite keystream_cons. apply bytes_app.
  split; [apply HE, counter_block|apply IH].
Qed.

Lemma blocks_of_ge n : (n ≤ blocks_of n * 16)%nat.
Proof.
  unfold blocks_of. pose proof (Nat.div_mod (n + 15) 16 ltac:(done)). pose proof (Nat.mod_upper_bound (n + 15) 16 ltac:(done)). lia.
Qed.

Lemma blocks_of_S n : (0 < n)%nat → blocks_of n = S (blocks_of (n - 16)).
Proof.
  intros Hn. unfold blocks_of. destruct (decide (16 ≤ n)%nat).
  - replace (n + 15)%nat with (n - 16 + 15 + 1 * 16)%nat by lia. rewrite Nat.div_add by done. lia.
  - replace (n - 16)%nat with 0%nat by lia. replace (n + 15)%nat with (n - 1 + 1 * 16)%nat by lia.
    rewrite Nat.div_add, Nat.div_small by lia. done.
Qed.

Lemma ctr_loop_ok fuel : ∀ c inp, (length inp < fuel)%nat →
  ctr_loop fuel E (iv ++ be_bytes 4 c) inp = Ret (xor_bytes inp (keystream E iv (c + 1) (blocks_of (length inp)))).
Proof.
  induction fuel as [|fuel IH]; intros c inp Hf; [lia|]. cbn [ctr_loop].
  destruct (Nat.eqb_spec (length inp) 0) as [H0|H0]; [by apply length_zero_iff_nil in H0 as ->|].
  rewrite inc32_ok by apply Hiv. rewrite IH by (rewrite length_drop; lia). cbn [obind]. f_equal.
  rewrite (blocks_of_S (length inp)), keystream_cons, length_drop by lia.
  destruct (HE _ (counter_block (c + 1))) as [Hl _]. set (e := E _) in *. set (ks := keystream _ _ _ _).
  destruct (decide (16 ≤ length inp)%nat).
  - rewrite (take_ge e), <- xor_app, take_drop by (rewrite ?length_take; lia). done.
  - rewrite (take_ge inp), drop_ge, xor_take by lia. rewrite app_nil_r.
    rewrite <- (xor_take inp (e ++ ks) 16), take_app_length' by lia. done.
Qed.

Lemma ctr_length inp : length (ctr E iv inp) = length inp.
Proof. unfold ctr. apply xor_length. rewrite keystream_length. apply blocks_of_ge. Qed.

Lemma ctr_bytes inp : bytes inp → bytes (ctr E iv inp).
Proof. intros. unfold ctr. apply bytes_xor; [done|apply keystream_bytes]. Qed.

Lemma ctr_twice inp : ctr E iv (ctr E iv inp) = inp.
Proof.
  unfold ctr at 1. rewrite ctr_length. unfold ctr. apply xor_twice. rewrite keystream_length. apply blocks_of_ge.
Qed.

Lemma zero_padded : pad16 [] = [].
Proof. done. Qed.

(** Hashing the additional data, the text and the lengths. *)
Lemma hash_parts h a d l : block h → length l = 16%nat →
  hash h (pad16 a ++ pad16 d ++ l) =
  hash_from 1 h (hash_from (length (pad16 d) / 16) h (hash_from (length (pad16 a) / 16) h zero_block (pad16 a)) (pad16 d)) l.
Proof.
  intros Hh Hl. unfold hash. destruct (pad16_length a) as [n Hn], (pad16_length d) as [m Hm]. rewrite !length_app, Hn, Hm, Hl.
  replace (n * 16 + (m * 16 + 16))%nat with ((n + (m + 1)) * 16)%nat by lia. rewrite !Nat.div_mul by done.
  by rewrite !hash_from_app.
Qed.

Lemma pad16_block l : length l = 16%nat → pad16 l = l.
Proof. intros Hl. unfold pad16. rewrite Hl. apply app_nil_r. Qed.

Lemma gcm_core128_ok junk aad inp (hashed_out : bool) : length junk = 16%nat → bytes aad → bytes inp →
  gcm_core128 junk E iv aad inp hashed_out =
    Ret (ctr E iv inp, gcm_tag E iv aad (if hashed_out then ctr E iv inp else inp)).
Proof.
  intros Hj Ha Hi. unfold gcm_core128. fold zero_block. pose proof (HE _ block_zero) as Hh.
  change (iv ++ [0; 0; 0; 1]) with (iv ++ be_bytes 4 1). rewrite ctr_loop_ok by lia. cbn [obind].
  fold (ctr E iv inp). set (d := if hashed_out then _ else _).
  assert (bytes d ∧ length d = length inp) as [Hd Hdl].
  { unfold d. destruct hashed_out; [|done]. split; [by apply ctr_bytes|apply ctr_length]. }
  rewrite ghash_update_ok by (try done; try apply block_zero; lia). cbn [obind].
  rewrite ghash_update_ok by (try done; try (by apply hash_from_block, block_zero); lia). cbn [obind].
  rewrite !be_bytes_u64. set (lens := be_bytes 8 _ ++ _).
  assert (length lens = 16%nat) as Hll by (unfold lens; by rewrite length_app, !be_bytes_length).
  rewrite ghash_update_ok; [|done|done|by apply hash_from_block, hash_from_block, block_zero| |lia].
  2:{ apply bytes_app. split; apply bytes_be_bytes. }
  cbn [obind]. unfold gcm_tag. rewrite Hdl. fold lens. rewrite hash_parts, (pad16_block lens), Hll by done. done.
Qed.

Lemma gcm_core_ok junk inp (hashed_out : bool) : length junk = 16%nat → bytes inp →
  gcm_core junk E iv inp hashed_out = Ret (ctr E iv inp, gcm_tag E iv [] (if hashed_out then ctr E iv inp else inp)).
Proof. intros Hj Hi. by rewrite <- (gcm_core128_ok junk [] inp hashed_out Hj (Forall_nil_2 _) Hi). Qed.

Lemma gcm_tag_block aad ct : block (gcm_tag E iv aad ct).
Proof.
  apply block_xor; [apply hash_from_block, block_zero|apply HE, counter_block].
Qed.
End cipher.

(** ** The tag *)

Lemma lor_fold_zero l : ∀ a, bytes l → is_u8 a → (fold_left Z.lor l a = 0 ↔ a = 0 ∧ Forall (λ x, x = 0) l).
Proof.
  induction l as [|x l IH]; intros a Hl Ha; cbn [fold_left]; [split; [by split; [|apply Forall_nil_2]|by intros []]|].
  apply Forall_cons in Hl as [Hx Hl]. unfold is_u8 in *. rewrite IH, Forall_cons; [|done|].
  - rewrite Z.lor_eq_0_iff. tauto.
  - split; [apply Z.lor_nonneg; lia|]. destruct (decide (Z.lor a x = 0)) as [->|]; [lia|]. apply (Z.log2_lt_pow2 _ 8).
    + assert (0 ≤ Z.lor a x) by (apply Z.lor_nonneg; lia). lia.
    + rewrite Z.log2_lor by lia. apply Z.max_lub_lt.
      * destruct (decide (a = 0)) as [->|]; [done|]. apply Z.log2_lt_pow2; lia.
      * destruct (decide (x = 0)) as [->|]; [done|]. apply Z.log2_lt_pow2; lia.
Qed.

Lemma tag_equal_ok a b : length a = length b → bytes a → bytes b → tag_equal a b = bool_decide (a = b).
Proof.
  intros Hl Ha Hb. unfold tag_equal. apply eq_bool_prop_intro. rewrite bool_decide_spec, Is_true_true, Z.eqb_eq.
  rewrite lor_fold_zero; [|by apply bytes_xor|unfold is_u8; lia]. split; [intros [_ Hf]|intros ->; split; [done|]].
  - unfold xor_bytes in Hf. revert b Hl Hb Hf. induction a as [|x a IH]; intros [|y b] Hl Hb Hf; try done.
    apply Forall_cons in Ha as [Hx Ha], Hb as [Hy Hb], Hf as [Hxy Hf]. apply Z.lxor_eq in Hxy as ->. f_equal. apply IH; auto.
  - clear. unfold xor_bytes. induction b as [|y b IH]; [apply Forall_nil_2|]. apply Forall_cons. split; [apply Z.lxor_nilpotent|done].
Qed.
End gcm.
