(* ===== verification/AesSpec.v ===== *)
(** * AES against FIPS 197, and the theorems about the cipher

    The reference works in GF(2^8) by carry-less multiplication modulo
    x^8 + x^4 + x^3 + x + 1, computes the S-box from inverses, and writes the
    rounds on the 4 by 4 matrix of the standard. *)

From S2P Require Import Prelude Sha Aes Ghash Gcm.
Import sha aes ghash gcm.

Open Scope c_scope.

Module aesspec.

(** ** GF(2^8) *)

Definition clmul (a b : Z) : Z :=
  fold_left (λ acc i, if Z.testbit b i then Z.lxor acc (Z.shiftl a i) else acc) (seqZ 0 8) 0.

(** The remainder modulo 0x11B, from the top bit down. *)
Definition poly_mod (v : Z) : Z :=
  fold_left (λ acc i, if Z.testbit acc (i + 8) then Z.lxor acc (Z.shiftl 0x11B i) else acc) (rev (seqZ 0 8)) v.

Definition gmul (a b : Z) : Z := poly_mod (clmul a b).

(** The inverse; 0 for 0. *)
Definition ginv (a : Z) : Z := default 0 (find (λ b, gmul a b =? 1) (seqZ 0 256)).

(** Bit i of the S-box: bits i, i+4, i+5, i+6, i+7 of the inverse and of 0x63. *)
Definition sbox_bit (x i : Z) : bool :=
  xorb (xorb (xorb (xorb (xorb (Z.testbit x i) (Z.testbit x ((i + 4) mod 8))) (Z.testbit x ((i + 5) mod 8)))
    (Z.testbit x ((i + 6) mod 8))) (Z.testbit x ((i + 7) mod 8))) (Z.testbit 0x63 i).

Definition sbox_ref (a : Z) : Z :=
  fold_left (λ acc i, acc + Z.b2z (sbox_bit (ginv a) i) * 2 ^ i) (seqZ 0 8) 0.

(** ** The rounds on the matrix *)

(** Byte [r] of column [c] is byte [r + 4 * c] of the block. *)
Definition at_rc (s : list Z) (r c : nat) : Z := nth (r + 4 * c) s 0.
Definition matrix (f : nat → nat → Z) : list Z := concat ((λ c, (λ r, f r c) <$> seq 0 4) <$> seq 0 4).

Definition sub_bytes_ref (s : list Z) : list Z := matrix (λ r c, sbox_ref (at_rc s r c)).
Definition shift_rows_ref (s : list Z) : list Z := matrix (λ r c, at_rc s r ((c + r) mod 4)).
Definition mix_columns_ref (s : list Z) : list Z :=
  matrix (λ r c, Z.lxor (Z.lxor (Z.lxor (gmul 2 (at_rc s r c)) (gmul 3 (at_rc s ((r + 1) mod 4) c)))
    (at_rc s ((r + 2) mod 4) c)) (at_rc s ((r + 3) mod 4) c)).

(** Byte [r] of column [c] of the round key: byte [r] of its word [c]. *)
Definition add_round_key_ref (s rk : list Z) (round : nat) : list Z :=
  matrix (λ r c, Z.lxor (at_rc s r c) (Z.shiftr (nth (4 * round + c) rk 0) (8 * (3 - Z.of_nat r)) mod 256)).

Definition round_ref (rk s : list Z) (round : nat) : list Z :=
  add_round_key_ref (mix_columns_ref (shift_rows_ref (sub_bytes_ref s))) rk round.

Definition cipher_ref (rounds : nat) (rk inp : list Z) : list Z :=
  let s := fold_left (round_ref rk) (seq 1 (rounds - 1)) (add_round_key_ref inp rk 0) in
  add_round_key_ref (shift_rows_ref (sub_bytes_ref s)) rk rounds.

(** ** The key expansion, for keys of [nk] words *)

Definition sub_word_ref (w : Z) : Z :=
  be ((λ i, sbox_ref (Z.shiftr w (8 * i) mod 256)) <$> [3; 2; 1; 0]).
Definition rot_word_ref (w : Z) : Z := (w mod 2 ^ 24) * 256 + w / 2 ^ 24.

(** x^(i-1) in GF(2^8). *)
Definition rcon_ref (i : nat) : Z := Nat.iter (i - 1) (gmul 2) 1.

Fixpoint expand_ref (nk n : nat) (w : list Z) : list Z :=
  match n with
  | O => w
  | S n' =>
      let i := length w in
      let temp := nth (i - 1) w 0 in
      let temp := if (i mod nk =? 0)%nat then Z.lxor (sub_word_ref (rot_word_ref temp)) (rcon_ref (i / nk) * 2 ^ 24)
                  else if (6 <? nk)%nat && (i mod nk =? 4)%nat then sub_word_ref temp else temp in
      expand_ref nk n' (w ++ [Z.lxor (nth (i - nk) w 0) temp])
  end.

Definition key_words (nk : nat) (key : list Z) : list Z := (λ i, be (take 4 (drop (4 * i) key))) <$> seq 0 nk.

Definition key_ref (nk rounds : nat) (key : list Z) : list Z := expand_ref nk (4 * (rounds + 1) - nk) (key_words nk key).

Definition aes_ref (nk rounds : nat) (key inp : list Z) : list Z := cipher_ref rounds (key_ref nk rounds key) inp.

(** ** Bytes *)

Lemma sbox_ok x : is_u8 x → sbox x = sbox_ref x ∧ is_u8 (sbox x).
Proof.
  intros Hx. assert ((sbox x =? sbox_ref x) && (0 <=? sbox x) && (sbox x <? 256) = true) as Hs.
  { revert x Hx. apply (byte_forall (λ x, (sbox x =? sbox_ref x) && (0 <=? sbox x) && (sbox x <? 256))). vm_compute. done. }
  unfold is_u8. rewrite !andb_true_iff in Hs. lia.
Qed.

Lemma xtime_ok x : is_u8 x → xtime x = gmul 2 x ∧ Z.lxor (xtime x) x = gmul 3 x ∧ is_u8 (xtime x).
Proof.
  intros Hx. assert ((xtime x =? gmul 2 x) && (Z.lxor (xtime x) x =? gmul 3 x) && (0 <=? xtime x) && (xtime x <? 256) = true) as Hs.
  { revert x Hx. apply (byte_forall (λ x, (xtime x =? gmul 2 x) && (Z.lxor (xtime x) x =? gmul 3 x) && (0 <=? xtime x) && (xtime x <? 256))).
    vm_compute. done. }
  unfold is_u8. rewrite !andb_true_iff in Hs. lia.
Qed.

Lemma xtime_xor x y : is_u8 x → is_u8 y → xtime (Z.lxor x y) = Z.lxor (xtime x) (xtime y).
Proof.
  intros Hx Hy. assert (forallb (λ y, xtime (Z.lxor x y) =? Z.lxor (xtime x) (xtime y)) (seqZ 0 256) = true) as Hf.
  { revert x Hx. apply (byte_forall (λ x, forallb (λ y, xtime (Z.lxor x y) =? Z.lxor (xtime x) (xtime y)) (seqZ 0 256))).
    vm_compute. done. }
  rewrite forallb_forall in Hf. apply Z.eqb_eq, Hf, list_elem_of_In, elem_of_seqZ. unfold is_u8 in Hy. lia.
Qed.

Lemma xor_u8 x y : is_u8 x → is_u8 y → is_u8 (Z.lxor x y).
Proof. apply (lxor_bound x y 8). lia. Qed.

(** ** The rounds *)

Ltac list16 s := do 16 (destruct s as [|? s]; [discriminate|]); destruct s; [|discriminate].

Lemma bytes_map f s : (∀ x, is_u8 x → is_u8 (f x)) → bytes s → bytes (f <$> s).
Proof. intros Hf Hs. apply Forall_fmap. eapply Forall_impl; [exact Hs|]. exact Hf. Qed.

Lemma nth_u8 s i : bytes s → is_u8 (nth i s 0).
Proof.
  intros Hs. destruct (decide (i < length s)%nat).
  - by apply Forall_nth.
  - rewrite nth_overflow by lia. unfold is_u8. lia.
Qed.

Lemma sub_bytes_ok s : block s → sbox <$> s = sub_bytes_ref s.
Proof.
  intros [Hl Hb]. assert (sbox <$> s = sbox_ref <$> s) as ->.
  { apply list_fmap_ext. intros i x Hx. apply sbox_ok. by eapply Forall_lookup in Hx. }
  list16 s. reflexivity.
Qed.

Lemma shift_rows_ok s : length s = 16%nat → shift_rows s = shift_rows_ref s.
Proof. intros Hl. list16 s. reflexivity. Qed.

Lemma mix_ok a b c d : is_u8 a → is_u8 b → is_u8 c → is_u8 d →
  Z.lxor (Z.lxor a (Z.lxor (Z.lxor (Z.lxor a b) c) d)) (xtime (Z.lxor a b)) = Z.lxor (Z.lxor (Z.lxor (gmul 2 a) (gmul 3 b)) c) d.
Proof.
  intros Ha Hb Hc Hd. destruct (xtime_ok a Ha) as (<- & _ & _), (xtime_ok b Hb) as (_ & <- & _). rewrite xtime_xor by done. xor_eq.
Qed.

(** The four bytes of a column appear in the order of the matrix rows. *)
Lemma mix_rotate a b c d : Z.lxor (Z.lxor (Z.lxor a b) c) d = Z.lxor (Z.lxor (Z.lxor b c) d) a.
Proof. xor_eq. Qed.

Lemma mix_ok1 a b c d : is_u8 a → is_u8 b → is_u8 c → is_u8 d →
  Z.lxor (Z.lxor b (Z.lxor (Z.lxor (Z.lxor a b) c) d)) (xtime (Z.lxor b c)) = Z.lxor (Z.lxor (Z.lxor (gmul 2 b) (gmul 3 c)) d) a.
Proof. intros. rewrite mix_rotate. by apply mix_ok. Qed.
Lemma mix_ok2 a b c d : is_u8 a → is_u8 b → is_u8 c → is_u8 d →
  Z.lxor (Z.lxor c (Z.lxor (Z.lxor (Z.lxor a b) c) d)) (xtime (Z.lxor c d)) = Z.lxor (Z.lxor (Z.lxor (gmul 2 c) (gmul 3 d)) a) b.
Proof. intros. rewrite mix_rotate. by apply mix_ok1. Qed.
Lemma mix_ok3 a b c d : is_u8 a → is_u8 b → is_u8 c → is_u8 d →
  Z.lxor (Z.lxor d (Z.lxor (Z.lxor (Z.lxor a b) c) d)) (xtime (Z.lxor d a)) = Z.lxor (Z.lxor (Z.lxor (gmul 2 d) (gmul 3 a)) b) c.
Proof. intros. rewrite mix_rotate. by apply mix_ok2. Qed.

Lemma mix_column_ok s c : bytes s →
  mix_column s c = (λ r, Z.lxor (Z.lxor (Z.lxor (gmul 2 (at_rc s r c)) (gmul 3 (at_rc s ((r + 1) mod 4) c)))
    (at_rc s ((r + 2) mod 4) c)) (at_rc s ((r + 3) mod 4) c)) <$> seq 0 4.
Proof.
  intros Hb. assert (∀ i, is_u8 (nth i s 0)) as Hn by (intros; by apply nth_u8).
  change (seq 0 4) with [0; 1; 2; 3]%nat. cbn [fmap list_fmap].
  change ((0 + 1) mod 4)%nat with 1%nat. change ((0 + 2) mod 4)%nat with 2%nat. change ((0 + 3) mod 4)%nat with 3%nat.
  change ((1 + 1) mod 4)%nat with 2%nat. change ((1 + 2) mod 4)%nat with 3%nat. change ((1 + 3) mod 4)%nat with 0%nat.
  change ((2 + 1) mod 4)%nat with 3%nat. change ((2 + 2) mod 4)%nat with 0%nat. change ((2 + 3) mod 4)%nat with 1%nat.
  change ((3 + 1) mod 4)%nat with 0%nat. change ((3 + 2) mod 4)%nat with 1%nat. change ((3 + 3) mod 4)%nat with 2%nat.
  unfold mix_column, at_rc. rewrite !(Nat.add_comm (4 * c)). change (nth (4 * c) s 0) with (nth (0 + 4 * c) s 0).
  by rewrite mix_ok, mix_ok1, mix_ok2, mix_ok3 by apply Hn.
Qed.

Lemma mix_columns_ok s : bytes s → mix_columns s = mix_columns_ref s.
Proof.
  intros Hb. unfold mix_columns, mix_columns_ref, matrix. f_equal. apply list_fmap_ext. intros j c _. by apply mix_column_ok.
Qed.

Lemma add_round_key_ok s rk round : length s = 16%nat → add_round_key s rk round = add_round_key_ref s rk round.
Proof. intros Hl. list16 s. reflexivity. Qed.

(** ** Everything stays in bytes *)

Lemma bytes_concat l : Forall bytes l → bytes (concat l).
Proof. induction 1; [apply Forall_nil_2|]. by apply Forall_app. Qed.

Lemma block_sub s : block s → block (sbox <$> s).
Proof. intros [Hl Hb]. split; [by rewrite length_fmap|]. apply bytes_map; [|done]. intros x Hx. by apply sbox_ok. Qed.

Lemma block_shift s : block s → block (shift_rows s).
Proof.
  intros [Hl Hb]. rewrite shift_rows_ok by done. split; [done|]. apply bytes_concat, Forall_fmap, Forall_true. intros c.
  apply Forall_fmap, Forall_true. intros r. by apply nth_u8.
Qed.

Lemma block_mix s : block s → block (mix_columns s).
Proof.
  intros [Hl Hb]. split; [done|]. assert (∀ i, is_u8 (nth i s 0)) as Hn by (intros; by apply nth_u8).
  apply bytes_concat, Forall_fmap, Forall_true. intros c. unfold mix_column. cbv zeta.
  repeat (apply Forall_cons_2; [repeat apply xor_u8; try apply Hn; apply xtime_ok, xor_u8; apply Hn|]). apply Forall_nil_2.
Qed.

Lemma block_add s rk round : block s → block (add_round_key s rk round).
Proof.
  intros Hs. apply block_xor; [done|]. split; [cbn [seq fmap list_fmap concat]; rewrite !length_app, !be_bytes_length; done|].
  apply bytes_concat, Forall_fmap, Forall_true. intros c. apply bytes_be_bytes.
Qed.

Lemma block_round last rk s round : block s → block (aes_round last rk s round).
Proof. intros Hs. unfold aes_round. apply block_add. pose proof (block_shift _ (block_sub _ Hs)). case_match; [done|by apply block_mix]. Qed.

Lemma block_rounds last rk l : ∀ s, block s → block (fold_left (aes_round last rk) l s).
Proof. induction l as [|x l IH]; intros s Hs; [done|]. by apply IH, block_round. Qed.

Lemma block_encrypt rounds rk s : block s → block (aes_encrypt_block rounds rk s).
Proof. intros Hs. by apply block_rounds, block_add. Qed.

(** ** The cipher *)

Lemma round_ok last rk s round : block s → round ≠ last → aes_round last rk s round = round_ref rk s round.
Proof.
  intros Hs Hr. unfold aes_round, round_ref. rewrite (proj2 (Nat.eqb_neq _ _)) by done.
  pose proof (block_shift _ (block_sub _ Hs)) as Hsh. pose proof (block_mix _ Hsh) as [Hml _].
  rewrite add_round_key_ok, mix_columns_ok, shift_rows_ok, sub_bytes_ok by (done || apply Hsh || apply (block_sub _ Hs)). done.
Qed.

Lemma last_round_ok last rk s : block s → aes_round last rk s last = add_round_key_ref (shift_rows_ref (sub_bytes_ref s)) rk last.
Proof.
  intros Hs. unfold aes_round. rewrite Nat.eqb_refl. pose proof (block_shift _ (block_sub _ Hs)) as [Hl _].
  rewrite add_round_key_ok, shift_rows_ok, sub_bytes_ok by (done || apply (block_sub _ Hs)). done.
Qed.

Lemma rounds_ok last rk l : ∀ s, block s → Forall (λ r, r ≠ last) l → fold_left (aes_round last rk) l s = fold_left (round_ref rk) l s.
Proof.
  induction l as [|x l IH]; intros s Hs Hl; [done|]. apply Forall_cons in Hl as [Hx Hl]. cbn [fold_left].
  rewrite <- (round_ok last) by done. apply IH; [by apply block_round|done].
Qed.

Lemma cipher_ok rounds rk inp : (1 ≤ rounds)%nat → block inp → aes_encrypt_block rounds rk inp = cipher_ref rounds rk inp.
Proof.
  intros Hr Hi. unfold aes_encrypt_block, cipher_ref. replace rounds with (S (rounds - 1)) at 2 by lia.
  rewrite seq_S, fold_left_app. cbn [fold_left]. replace (1 + (rounds - 1))%nat with rounds by lia.
  pose proof (block_add inp rk 0 Hi) as Hb. rewrite last_round_ok by (by apply block_rounds).
  rewrite rounds_ok; [|done|apply Forall_forall; intros r Hin%list_elem_of_In%in_seq; lia].
  rewrite (add_round_key_ok inp) by apply Hi. done.
Qed.

(** ** The key expansion *)

Lemma word_be a b c d : is_u8 a → is_u8 b → is_u8 c → is_u8 d →
  Z.lor (Z.lor (Z.lor (Z.shiftl a 24) (Z.shiftl b 16)) (Z.shiftl c 8)) d = be [a; b; c; d] ∧ is_u32 (be [a; b; c; d]).
Proof.
  intros Ha Hb Hc Hd. assert (∀ u v, 0 ≤ v < 256 → Z.lor (Z.shiftl u 8) v = u * 256 + v) as Hs by (intros; by apply (shiftl_lor_add _ _ 8)).
  assert (Z.lor (Z.lor (Z.lor (Z.shiftl a 24) (Z.shiftl b 16)) (Z.shiftl c 8)) d =
    Z.lor (Z.shiftl (Z.lor (Z.shiftl (Z.lor (Z.shiftl a 8) b) 8) c) 8) d) as ->.
  { by rewrite !Z.shiftl_lor, !Z.shiftl_shiftl by lia. }
  unfold is_u8, is_u32 in *. rewrite !Hs by lia. cbn [be length]. lia.
Qed.

Lemma word_at_ok key i : bytes key → (4 * i + 4 ≤ length key)%nat → word_at key i = be (take 4 (drop (4 * i) key)) ∧ is_u32 (word_at key i).
Proof.
  intros Hk Hi. destruct (word_be (nth (4 * i) key 0) (nth (4 * i + 1) key 0) (nth (4 * i + 2) key 0) (nth (4 * i + 3) key 0)) as [E Hu];
    try by apply nth_u8.
  unfold word_at. rewrite E. split; [|done]. f_equal.
  apply (list_eq_same_length _ _ 4); [rewrite length_take, length_drop; lia|done|]. intros j x y Hj Hx Hy.
  rewrite lookup_take_lt, lookup_drop in Hy by lia. apply (nth_lookup_Some _ _ 0) in Hy.
  destruct j as [|[|[|[|]]]]; cbn in Hx; [| | | |lia]; injection Hx as <-; rewrite <- Hy; f_equal; lia.
Qed.

Lemma sub_word_ok w : sub_word w = sub_word_ref w ∧ is_u32 (sub_word w).
Proof.
  assert (∀ v, Z.land v 255 = v mod 256) as Hm by (intros v; apply (land_ones_mod v 8); lia).
  assert (∀ v, is_u8 (v mod 256)) as Hu by (intros v; apply Z.mod_pos_bound; lia).
  unfold sub_word, sub_word_ref. cbn [fmap list_fmap]. rewrite !Hm. rewrite Z.mul_0_r, Z.shiftr_0_r.
  change (8 * 3) with 24. change (8 * 2) with 16. change (8 * 1) with 8.
  rewrite <- !(λ v, proj1 (sbox_ok (v mod 256) (Hu v))).
  destruct (word_be (sbox (Z.shiftr w 24 mod 256)) (sbox (Z.shiftr w 16 mod 256)) (sbox (Z.shiftr w 8 mod 256)) (sbox (w mod 256)))
    as [-> ?]; by try apply sbox_ok.
Qed.

Lemma rot_word_ok w : is_u32 w → rot_word w = rot_word_ref w ∧ is_u32 (rot_word w).
Proof.
  intros Hw. unfold rot_word, rot_word_ref, is_u32 in *. rewrite Z.shiftl_mul_pow2, Z.shiftr_div_pow2 by lia.
  assert (u32 (w * 2 ^ 8) = Z.shiftl (w mod 2 ^ 24) 8) as ->.
  { rewrite Z.shiftl_mul_pow2 by lia. unfold u32. change 4294967296 with (2 ^ 24 * 2 ^ 8). by rewrite Z.mul_mod_distr_r. }
  pose proof (Z.mod_pos_bound w (2 ^ 24) ltac:(lia)). assert (0 ≤ w / 2 ^ 24 < 2 ^ 8).
  { split; [apply Z.div_pos; lia|apply Z.div_lt_upper_bound; lia]. }
  rewrite shiftl_lor_add by lia. change (2 ^ 8) with 256 in *. change (2 ^ 24) with 16777216 in *. lia.
Qed.

Lemma xor_u32 x y : is_u32 x → is_u32 y → is_u32 (Z.lxor x y).
Proof. apply (lxor_bound x y 32). lia. Qed.

Lemma rcon_ok l j : (1 ≤ j ≤ length l)%nat → forallb (λ j, (nth (j - 1) l 0 =? rcon_ref j) && (0 <=? rcon_ref j) && (rcon_ref j <? 256)) (seq 1 (length l)) = true →
  Z.shiftl (nth (j - 1) l 0) 24 = rcon_ref j * 2 ^ 24 ∧ is_u32 (rcon_ref j * 2 ^ 24).
Proof.
  intros Hj Hf. rewrite forallb_forall in Hf. specialize (Hf j ltac:(apply in_seq; lia)). rewrite !andb_true_iff in Hf.
  destruct Hf as [[H1 H2] H3]. apply Z.eqb_eq in H1. rewrite H1, Z.shiftl_mul_pow2 by lia. unfold is_u32. change (2 ^ 24) with 16777216. lia.
Qed.

Lemma nth_u32 l i : Forall is_u32 l → is_u32 (nth i l 0).
Proof.
  intros Hl. destruct (decide (i < length l)%nat).
  - by apply Forall_nth.
  - rewrite nth_overflow by lia. unfold is_u32. lia.
Qed.

Lemma expand256_ok n : ∀ rk, (8 ≤ length rk)%nat → (length rk + n ≤ 60)%nat → Forall is_u32 rk → expand256 n rk = expand_ref 8 n rk.
Proof.
  induction n as [|n IH]; intros rk H8 H60 Hrk; [done|]. cbn [expand256 expand_ref]. cbv zeta.
  set (i := length rk) in *. pose proof (nth_u32 rk (i - 1) Hrk) as Ht. set (t := nth (i - 1) rk 0) in *.
  destruct (rot_word_ok t Ht) as [Er Hr], (sub_word_ok (rot_word t)) as [Es Hs], (sub_word_ok t) as [Et Htu].
  change (6 <? 8)%nat with true. cbn [andb]. rewrite <- Et, <- Er, <- Es. set (t1 := if (i mod 8 =? 0)%nat then _ else _).
  assert (t1 = if (i mod 8 =? 0)%nat then Z.lxor (sub_word (rot_word t)) (rcon_ref (i / 8) * 2 ^ 24)
               else if (i mod 8 =? 4)%nat then sub_word t else t) as <-.
  { unfold t1. destruct (_ =? 0)%nat; [|done]. f_equal. apply (rcon_ok RCON256); [|vm_compute; done].
    split; [apply Nat.div_le_lower_bound; lia|]. apply Nat.lt_succ_r, Nat.Div0.div_lt_upper_bound. simpl. lia. }
  apply IH; [rewrite length_app; lia|rewrite length_app; simpl; lia|]. apply Forall_app. split; [done|]. apply Forall_singleton.
  apply xor_u32; [by apply nth_u32|]. unfold t1. destruct (Nat.eqb_spec (i mod 8) 0); [|by destruct (_ =? 4)%nat].
  apply xor_u32; [done|]. destruct (rcon_ok RCON256 (i / 8)) as [-> ?]; [|vm_compute; done|done].
  split; [apply Nat.div_le_lower_bound; lia|]. apply Nat.lt_succ_r, Nat.Div0.div_lt_upper_bound. simpl. lia.
Qed.

Lemma expand128_ok n : ∀ rk, (4 ≤ length rk)%nat → (length rk + n ≤ 44)%nat → Forall is_u32 rk → expand128 n rk = expand_ref 4 n rk.
Proof.
  induction n as [|n IH]; intros rk H8 H60 Hrk; [done|]. cbn [expand128 expand_ref]. cbv zeta.
  set (i := length rk) in *. pose proof (nth_u32 rk (i - 1) Hrk) as Ht. set (t := nth (i - 1) rk 0) in *.
  destruct (rot_word_ok t Ht) as [Er Hr], (sub_word_ok (rot_word t)) as [Es Hs].
  change (6 <? 4)%nat with false. cbn [andb]. rewrite <- Er, <- Es. set (t1 := if (i mod 4 =? 0)%nat then _ else _).
  assert (1 ≤ i / 4 ≤ length RCON128)%nat as Hi.
  { split; [apply Nat.div_le_lower_bound; lia|]. apply Nat.lt_succ_r, Nat.Div0.div_lt_upper_bound. simpl. lia. }
  destruct (rcon_ok RCON128 (i / 4) Hi) as [Ec Hc]; [vm_compute; done|].
  assert (t1 = if (i mod 4 =? 0)%nat then Z.lxor (sub_word (rot_word t)) (rcon_ref (i / 4) * 2 ^ 24) else t) as <-.
  { unfold t1. by rewrite Ec. }
  apply IH; [rewrite length_app; lia|rewrite length_app; simpl; lia|]. apply Forall_app. split; [done|]. apply Forall_singleton.
  apply xor_u32; [by apply nth_u32|]. unfold t1. rewrite Ec. destruct (_ =? 0)%nat; [by apply xor_u32|done].
Qed.

Lemma key_words_ok nk key : bytes key → length key = (4 * nk)%nat →
  word_at key <$> seq 0 nk = key_words nk key ∧ Forall is_u32 (word_at key <$> seq 0 nk).
Proof.
  intros Hk Hl. assert (∀ i, (i < nk)%nat → word_at key i = be (take 4 (drop (4 * i) key)) ∧ is_u32 (word_at key i)) as Hw.
  { intros i Hi. apply word_at_ok; [done|lia]. }
  split; [apply list_fmap_ext|apply Forall_fmap, Forall_lookup]; intros j i Hi; apply lookup_seq in Hi as [-> Hj]; by apply Hw.
Qed.

Lemma aes256_ok key inp : bytes key → length key = 32%nat → block inp →
  aes256_encrypt_block (aes256_expand_key key) inp = aes_ref 8 14 key inp.
Proof.
  intros Hk Hl Hi. unfold aes256_encrypt_block, aes256_expand_key, aes_ref, key_ref. rewrite cipher_ok by (done || lia).
  destruct (key_words_ok 8 key Hk Hl) as [Hw Hu]. rewrite expand256_ok, Hw; [done|by rewrite length_fmap|by rewrite length_fmap|done].
Qed.

Lemma aes128_ok key inp : bytes key → length key = 16%nat → block inp →
  aes128_encrypt_block (aes128_expand_key key) inp = aes_ref 4 10 key inp.
Proof.
  intros Hk Hl Hi. unfold aes128_encrypt_block, aes128_expand_key, aes_ref, key_ref. rewrite cipher_ok by (done || lia).
  destruct (key_words_ok 4 key Hk Hl) as [Hw Hu]. rewrite expand128_ok, Hw; [done|by rewrite length_fmap|by rewrite length_fmap|done].
Qed.

(** ** GCM with AES *)

(** Only blocks are enciphered. *)
Lemma keystream_ext E E' iv c n : (∀ x, block x → E x = E' x) → length iv = 12%nat ∧ bytes iv → keystream E iv c n = keystream E' iv c n.
Proof.
  intros HE Hiv. unfold keystream. f_equal. apply list_fmap_ext. intros i k _. by apply HE, counter_block.
Qed.

Lemma gcm_ext E E' iv aad d : (∀ x, block x → E x = E' x) → length iv = 12%nat ∧ bytes iv →
  ctr E iv d = ctr E' iv d ∧ gcm_tag E iv aad d = gcm_tag E' iv aad d.
Proof.
  intros HE Hiv. split; [unfold ctr; by rewrite (keystream_ext E E')|].
  unfold gcm_tag. rewrite (HE zero_block block_zero), (HE (iv ++ be_bytes 4 1)); [done|by apply counter_block].
Qed.

(** What the two key sizes have in common: a cipher [E] that agrees with the
    reference [E'], a core that runs it. *)
Lemma seal_open E E' iv aad pt (core : list Z → bool → outcome (list Z * list Z)) :
  (∀ x, block x → block (E x)) → (∀ x, block x → E x = E' x) → length iv = 12%nat ∧ bytes iv → bytes pt →
  (∀ d h, bytes d → core d h = Ret (ctr E iv d, gcm_tag E iv aad (if h then ctr E iv d else d))) →
  let ct := ctr E' iv pt in let tag := gcm_tag E' iv aad ct in
  core pt true = Ret (ct, tag) ∧
  ∀ tag', block tag' →
    (let* (out, computed) := core ct false in Ret (out, tag_equal computed tag')) = Ret (pt, bool_decide (tag' = tag)).
Proof.
  intros HE HEE Hiv Hpt Hcore. cbv zeta. pose proof (ctr_bytes E HE iv Hiv pt Hpt) as Hct.
  destruct (gcm_ext E E' iv aad pt HEE Hiv) as [<- _]. destruct (gcm_ext E E' iv aad (ctr E iv pt) HEE Hiv) as [_ <-].
  split; [by apply Hcore|]. intros tag' [Hl' Hb']. rewrite Hcore by done. cbn [obind].
  destruct (gcm_tag_block E HE iv Hiv aad (ctr E iv pt)) as [Hl Hb].
  rewrite (ctr_twice E HE iv Hiv), tag_equal_ok by (done || lia). do 2 f_equal. apply bool_decide_ext. split; by intros ->.
Qed.

(** ** The theorems *)

(** C17. Both block ciphers are AES: the byte-wise code with its S-box table,
    its in-place row rotations and its shortcut for the columns computes the
    cipher of FIPS 197 with the S-box of inverses, the circulant matrix over
    GF(2^8) and the standard's key expansion, for every key and block. *)
Theorem aes_correct key inp : bytes key → block inp →
  (length key = 32%nat → aes256_encrypt_block (aes256_expand_key key) inp = aes_ref 8 14 key inp) ∧
  (length key = 16%nat → aes128_encrypt_block (aes128_expand_key key) inp = aes_ref 4 10 key inp).
Proof. intros Hk Hi. split; intros Hl; [by apply aes256_ok|by apply aes128_ok]. Qed.

(** C18. AES-128-GCM with additional data: encryption returns, gives the
    ciphertext and tag of SP 800-38D over the reference cipher; decryption of
    that ciphertext into another buffer restores the plaintext, and accepts
    exactly that tag. *)
Theorem gcm128_roundtrip junk key iv aad pt : length junk = 16%nat → bytes key ∧ length key = 16%nat →
  length iv = 12%nat ∧ bytes iv → bytes aad → bytes pt →
  let E := aes_ref 4 10 key in let ct := ctr E iv pt in let tag := gcm_tag E iv aad ct in
  kcrypto_aes128_gcm_encrypt_aad junk key iv aad pt = Ret (ct, tag) ∧
  ∀ tag', block tag' → kcrypto_aes128_gcm_decrypt_aad junk key iv aad ct tag' false = Ret (pt, bool_decide (tag' = tag)).
Proof.
  intros Hj [Hk Hkl] Hiv Ha Hp. assert (∀ x, block x → block (aes128_encrypt_block (aes128_expand_key key) x)) as HE by (intros; by apply block_encrypt).
  apply (seal_open (aes128_encrypt_block (aes128_expand_key key)) (aes_ref 4 10 key) iv aad pt
    (gcm_core128 junk (aes128_encrypt_block (aes128_expand_key key)) iv aad)); try done; [by intros; apply aes128_ok|].
  intros d h Hd. by apply gcm_core128_ok.
Qed.

(** AES-256-GCM: the same without additional data. *)
Theorem gcm256_roundtrip junk key iv pt : length junk = 16%nat → bytes key ∧ length key = 32%nat →
  length iv = 12%nat ∧ bytes iv → bytes pt →
  let E := aes_ref 8 14 key in let ct := ctr E iv pt in let tag := gcm_tag E iv [] ct in
  kcrypto_aes256_gcm_encrypt junk key iv pt = Ret (ct, tag) ∧
  ∀ tag', block tag' → kcrypto_aes256_gcm_decrypt junk key iv ct tag' false = Ret (pt, bool_decide (tag' = tag)).
Proof.
  intros Hj [Hk Hkl] Hiv Hp. assert (∀ x, block x → block (aes256_encrypt_block (aes256_expand_key key) x)) as HE by (intros; by apply block_encrypt).
  apply (seal_open (aes256_encrypt_block (aes256_expand_key key)) (aes_ref 8 14 key) iv [] pt
    (gcm_core junk (aes256_encrypt_block (aes256_expand_key key)) iv)); try done; [by intros; apply aes256_ok|].
  intros d h Hd. by apply gcm_core_ok.
Qed.

(** ** Concrete values: FIPS 197 (C.1), the GCM test case of the header *)

Definition demo_key : list Z := be_bytes 16 0x000102030405060708090a0b0c0d0e0f.
Definition demo_plain : list Z := be_bytes 16 0x00112233445566778899aabbccddeeff.
Definition demo_table : list (list Z) := replicate 16 [].

Lemma aes_correct_witness : aes_ref 4 10 demo_key demo_plain = be_bytes 16 0x69c4e0d86a7b0430d8cdb78070b4c55a.
Proof.
  destruct (aes_correct demo_key demo_plain (bytes_be_bytes _ _) (block_be_bytes _)) as [_ H].
  rewrite <- (H eq_refl). vm_compute. reflexivity.
Defined.

Lemma gcm128_roundtrip_witness :
  let ct := ctr (aes_ref 4 10 demo_key) (replicate 12 0) demo_plain in
  let tag := gcm_tag (aes_ref 4 10 demo_key) (replicate 12 0) [23; 3; 3] ct in
  kcrypto_aes128_gcm_encrypt_aad demo_table demo_key (replicate 12 0) [23; 3; 3] demo_plain = Ret (ct, tag).
Proof.
  apply (gcm128_roundtrip demo_table demo_key (replicate 12 0) [23; 3; 3] demo_plain eq_refl
    (conj (bytes_be_bytes _ _) eq_refl) (conj eq_refl (bytes_zeros 12))); [|apply bytes_be_bytes].
  repeat constructor; unfold is_u8; lia.
Defined.

Lemma gcm256_roundtrip_witness :
  kcrypto_aes256_gcm_encrypt demo_table (replicate 32 0) (replicate 12 0) (replicate 16 0) =
  Ret (ctr (aes_ref 8 14 (replicate 32 0)) (replicate 12 0) (replicate 16 0),
       gcm_tag (aes_ref 8 14 (replicate 32 0)) (replicate 12 0) [] (ctr (aes_ref 8 14 (replicate 32 0)) (replicate 12 0) (replicate 16 0))).
Proof.
  apply (gcm256_roundtrip demo_table (replicate 32 0) (replicate 12 0) (replicate 16 0) eq_refl
    (conj (bytes_zeros 32) eq_refl) (conj eq_refl (bytes_zeros 12)) (bytes_zeros 16)).
Defined.

(** The published ciphertext and tag of AES-256-GCM, all zeros. *)
Lemma gcm256_zero : kcrypto_aes256_gcm_encrypt demo_table (replicate 32 0) (replicate 12 0) (replicate 16 0) =
  Ret (be_bytes 16 0xcea7403d4d606b6e074ec5d3baf39d18, be_bytes 16 0xd0d1c8a799996bf0265b98b5d48ab919).
Proof. vm_compute. reflexivity. Qed.

(** Decrypting in place, which the header allows, hashes the plaintext that
    has just been written: the right tag is refused. *)
Lemma gcm_in_place_refused :
  kcrypto_aes256_gcm_decrypt demo_table (replicate 32 0) (replicate 12 0) (be_bytes 16 0xcea7403d4d606b6e074ec5d3baf39d18)
    (be_bytes 16 0xd0d1c8a799996bf0265b98b5d48ab919) true = Ret (replicate 16 0, false).
Proof. vm_compute. reflexivity. Qed.
End aesspec.
