(* ===== verification/X25519.v ===== *)
(** * X25519

    The key exchange of [impl/net/tls13.c]: numbers modulo 2^255 - 19 as
    sixteen signed limbs of weight 2^16 in [int64_t], with loose bounds. Signed
    arithmetic that leaves the 64 bits is undefined in C, so the operations on
    loose limbs are checked ([chk]) and the theorems show [Ret]; packing works
    on limbs of 16 bits. A shift of a negative number is the one of gcc, which
    defines it as on two's complement. The reference is the ladder of RFC 7748 over integers
    modulo p. *)

From S2P Require Import Prelude.

Open Scope c_scope.

Module x25519.

(** ** The code *)

Definition chk (z : Z) : outcome Z := if (- 2 ^ 63 <=? z) && (z <? 2 ^ 63) then Ret z else Undef.

(** Element by element. *)
Fixpoint zip_chk (f : Z → Z → Z) (a b : list Z) : outcome (list Z) :=
  match a, b with
  | x :: a, y :: b => let* z := chk (f x y) in let* r := zip_chk f a b in Ret (z :: r)
  | _, _ => Ret []
  end.

Definition x25519_add (a b : list Z) : outcome (list Z) := zip_chk Z.add a b.
Definition x25519_sub (a b : list Z) : outcome (list Z) := zip_chk Z.sub a b.

(** One round of [x25519_carry]. *)
Definition carry_step (a : list Z) (i : nat) : outcome (list Z) :=
  let* ai := chk (nth i a 0 + 65536) in
  let a := <[i := ai]> a in
  let carry := Z.shiftr ai 16 in
  let* d := chk (carry - 1) in
  let* d37 := (if (i =? 15)%nat then chk (37 * d) else Ret 0) in
  let j := ((i + 1) mod 16)%nat in
  let* d := chk (d + d37) in
  let* aj := chk (nth j a 0 + d) in
  let a := <[j := aj]> a in
  let* s := chk (Z.shiftl carry 16) in
  let* ai := chk (nth i a 0 - s) in
  Ret (<[i := ai]> a).

Fixpoint carry_loop (l : list nat) (a : list Z) : outcome (list Z) :=
  match l with
  | [] => Ret a
  | i :: l => let* a := carry_step a i in carry_loop l a
  end.

Definition x25519_carry (a : list Z) : outcome (list Z) := carry_loop (seq 0 16) a.

(** Both arrays, exchanged when [swap] is 1. *)
Definition x25519_select (a b : list Z) (swap : Z) : list Z * list Z :=
  let t := zip_with (λ x y, Z.land (- swap) (Z.lxor x y)) a b in
  (zip_with Z.lxor a t, zip_with Z.lxor b t).

(** [t[i + j] += a[i] * b[j]] for the pairs [l]. *)
Fixpoint product_loop (l : list (nat * nat)) (a b t : list Z) : outcome (list Z) :=
  match l with
  | [] => Ret t
  | (i, j) :: l =>
      let* m := chk (nth i a 0 * nth j b 0) in
      let* s := chk (nth (i + j) t 0 + m) in
      product_loop l a b (<[(i + j)%nat := s]> t)
  end.

(** [t[i] += 38 * t[i + 16]]. *)
Fixpoint fold_high (lo hi : list Z) : outcome (list Z) :=
  match lo, hi with
  | x :: lo, y :: hi => let* m := chk (38 * y) in let* s := chk (x + m) in let* r := fold_high lo hi in Ret (s :: r)
  | lo, _ => Ret lo
  end.

Definition all_pairs : list (nat * nat) := concat ((λ i, (λ j, (i, j)) <$> seq 0 16) <$> seq 0 16).

Definition x25519_mul (a b : list Z) : outcome (list Z) :=
  let* t := product_loop all_pairs a b (replicate 31 0) in
  let* out := fold_high (take 16 t) (drop 16 t) in
  let* out := x25519_carry out in
  x25519_carry out.

Definition x25519_square (a : list Z) : outcome (list Z) := x25519_mul a a.

(** The rounds [i] of the exponentiation. *)
Fixpoint invert_loop (l : list nat) (inp c : list Z) : outcome (list Z) :=
  match l with
  | [] => Ret c
  | i :: l =>
      let* c := x25519_square c in
      let* c := (if negb (i =? 2)%nat && negb (i =? 4)%nat then x25519_mul c inp else Ret c) in
      invert_loop l inp c
  end.

Definition x25519_invert (inp : list Z) : outcome (list Z) := invert_loop (rev (seq 0 254)) inp inp.

Definition x25519_unpack (inp : list Z) : list Z :=
  let out := (λ i, nth (2 * i) inp 0 + Z.shiftl (nth (2 * i + 1) inp 0) 8) <$> seq 0 16 in
  <[15%nat := Z.land (nth 15 out 0) 0x7fff]> out.

(** The limbs of [t] less those of p, [x25519_pack]'s inner loops: limbs 1 to
    14 of [m], each masked when the next is done. *)
Fixpoint sub_limbs (t : list Z) (prev : Z) : list Z * Z :=
  match t with
  | [] => ([], prev)
  | x :: t =>
      let '(r, last) := sub_limbs t (x - 0xffff - Z.land (Z.shiftr prev 16) 1) in
      (Z.land prev 0xffff :: r, last)
  end.

Definition pack_round (t : list Z) : list Z :=
  let '(m, m14) := sub_limbs (take 14 (drop 1 t)) (nth 0 t 0 - 0xffed) in
  let m15 := nth 15 t 0 - 0x7fff - Z.land (Z.shiftr m14 16) 1 in
  let choose_m := u8 (1 - Z.land (Z.shiftr m15 16) 1) in
  (x25519_select t (m ++ [Z.land m14 0xffff; m15]) choose_m).1.

Definition x25519_pack (inp : list Z) : outcome (list Z) :=
  let* t := x25519_carry inp in
  let* t := x25519_carry t in
  let* t := x25519_carry t in
  let t := pack_round (pack_round t) in
  Ret (concat ((λ x, [u8 x; u8 (Z.shiftr x 8)]) <$> t)).

Definition a24 : list Z := 0xdb41 :: 1 :: replicate 14 0.

Record ladder := mk_ladder { x2 : list Z; z2 : list Z; x3 : list Z; z3 : list Z; swap : Z }.

Definition ladder_step (scalar x : list Z) (s : ladder) (pos : nat) : outcome ladder :=
  let bit := Z.land (Z.shiftr (nth (pos / 8) scalar 0) (Z.of_nat (pos mod 8))) 1 in
  let sw := Z.lxor (swap s) bit in
  let '(x2, x3) := x25519_select (x2 s) (x3 s) sw in
  let '(z2, z3) := x25519_select (z2 s) (z3 s) sw in
  let* a := x25519_add x2 z2 in
  let* b := x25519_sub x2 z2 in
  let* aa := x25519_square a in
  let* bb := x25519_square b in
  let* e := x25519_sub aa bb in
  let* c := x25519_add x3 z3 in
  let* d := x25519_sub x3 z3 in
  let* da := x25519_mul d a in
  let* cb := x25519_mul c b in
  let* t := x25519_add da cb in
  let* x3 := x25519_square t in
  let* t := x25519_sub da cb in
  let* t := x25519_square t in
  let* z3 := x25519_mul x t in
  let* x2 := x25519_mul aa bb in
  let* t := x25519_mul e a24 in
  let* t := x25519_add aa t in
  let* z2 := x25519_mul e t in
  Ret (mk_ladder x2 z2 x3 z3 bit).

Fixpoint ladder_loop (l : list nat) (scalar x : list Z) (s : ladder) : outcome ladder :=
  match l with
  | [] => Ret s
  | pos :: l => let* s := ladder_step scalar x s pos in ladder_loop l scalar x s
  end.

Definition clamp (scalar : list Z) : list Z :=
  let s := <[0%nat := Z.land (nth 0 scalar 0) 248]> scalar in
  let s := <[31%nat := Z.land (nth 31 s 0) 127]> s in
  <[31%nat := Z.lor (nth 31 s 0) 64]> s.

Definition one : list Z := 1 :: replicate 15 0.

Definition x25519 (scalar point : list Z) : outcome (list Z) :=
  let x := x25519_unpack point in
  let* s := ladder_loop (rev (seq 0 255)) (clamp scalar) x (mk_ladder one (replicate 16 0) x one 0) in
  let '(x2, _) := x25519_select (x2 s) (x3 s) (swap s) in
  let '(z2, _) := x25519_select (z2 s) (z3 s) (swap s) in
  let* z2 := x25519_invert z2 in
  let* x2 := x25519_mul x2 z2 in
  x25519_pack x2.

(** ** Values of limbs *)

Definition p25519 : Z := 2 ^ 255 - 19.

Fixpoint val (l : list Z) : Z := match l with [] => 0 | x :: r => x + 65536 * val r end.

Definition within (B : Z) (l : list Z) : Prop := Forall (λ x, - B ≤ x ≤ B) l.
Definition fe (B : Z) (l : list Z) : Prop := length l = 16%nat ∧ within B l.
Definition digits (l : list Z) : Prop := Forall (λ x, 0 ≤ x < 65536) l.

Lemma chk_ok z : - 2 ^ 63 ≤ z < 2 ^ 63 → chk z = Ret z.
Proof. intros Hz. unfold chk. rewrite (proj2 (Z.leb_le _ _)), (proj2 (Z.ltb_lt _ _)) by lia. done. Qed.

Lemma within_weaken B C l : B ≤ C → within B l → within C l.
Proof. intros HBC Hl. eapply Forall_impl; [exact Hl|]. cbv beta. lia. Qed.

Lemma fe_weaken B C l : B ≤ C → fe B l → fe C l.
Proof. intros HBC [? ?]. split; [done|by eapply within_weaken]. Qed.

Lemma val_app a b : val (a ++ b) = val a + 65536 ^ Z.of_nat (length a) * val b.
Proof.
  induction a as [|x a IH]; cbn [app val length]; [lia|]. rewrite IH, Nat2Z.inj_succ, Z.pow_succ_r by lia. lia.
Qed.

Lemma digits_val l : digits l → 0 ≤ val l < 65536 ^ Z.of_nat (length l).
Proof.
  induction l as [|x l IH]; intros Hl; [done|]. apply Forall_cons in Hl as [Hx Hl]. specialize (IH Hl).
  cbn [val length]. rewrite Nat2Z.inj_succ, Z.pow_succ_r by lia. lia.
Qed.

Lemma within_val B l : 0 ≤ B → within B l → - B * (65536 ^ Z.of_nat (length l) - 1) ≤ 65535 * val l ≤ B * (65536 ^ Z.of_nat (length l) - 1).
Proof.
  intros HB. induction l as [|x l IH]; intros Hl; [simpl; lia|]. apply Forall_cons in Hl as [Hx Hl]. specialize (IH Hl).
  cbn [val length]. rewrite Nat2Z.inj_succ, Z.pow_succ_r by lia.
  set (N := 65536 ^ Z.of_nat (length l)) in *. lia.
Qed.

Lemma val_alter l : ∀ k m, (k < length l)%nat → val (<[k := nth k l 0 + m]> l) = val l + m * 65536 ^ Z.of_nat k.
Proof.
  induction l as [|x l IH]; intros [|k] m Hk; cbn [length] in Hk; try lia.
  - change (<[0%nat := nth 0 (x :: l) 0 + m]> (x :: l)) with ((x + m) :: l). cbn [val]. lia.
  - change (<[S k := nth (S k) (x :: l) 0 + m]> (x :: l)) with (x :: <[k := nth k l 0 + m]> l). cbn [val].
    rewrite IH, Nat2Z.inj_succ, Z.pow_succ_r by lia. lia.
Qed.

Lemma nth_within B l i : 0 ≤ B → within B l → - B ≤ nth i l 0 ≤ B.
Proof.
  intros HB Hl. destruct (decide (i < length l)%nat).
  - apply (Forall_nth (λ x, - B ≤ x ≤ B)); done.
  - rewrite nth_overflow by lia. lia.
Qed.

(** ** Adding and subtracting *)

Lemma zip_chk_ok (f : Z → Z → Z) B a b : (∀ x y, - B ≤ x ≤ B → - B ≤ y ≤ B → - 2 ^ 63 ≤ f x y < 2 ^ 63) →
  within B a → within B b → zip_chk f a b = Ret (zip_with f a b).
Proof.
  intros Hf. revert b. induction a as [|x a IH]; intros [|y b] Ha Hb; try done.
  apply Forall_cons in Ha as [Hx Ha], Hb as [Hy Hb]. cbn [zip_chk]. rewrite chk_ok by (by apply Hf). cbn [obind].
  by rewrite IH.
Qed.

Lemma within_zip (f : Z → Z → Z) B C a b : (∀ x y, - B ≤ x ≤ B → - B ≤ y ≤ B → - C ≤ f x y ≤ C) →
  within B a → within B b → within C (zip_with f a b).
Proof.
  intros Hf. revert b. induction a as [|x a IH]; intros [|y b] Ha Hb; try apply Forall_nil_2.
  apply Forall_cons in Ha as [Hx Ha], Hb as [Hy Hb]. apply Forall_cons. split; [by apply Hf|by apply IH].
Qed.

Lemma add_ok B a b : 0 ≤ B < 2 ^ 61 → fe B a → fe B b →
  ∃ c, x25519_add a b = Ret c ∧ fe (2 * B) c ∧ val c = val a + val b.
Proof.
  intros HB [La Ha] [Lb Hb]. unfold x25519_add. rewrite (zip_chk_ok _ B); [|intros; lia|done|done]. eexists. split; [done|].
  split; [split; [rewrite length_zip_with; lia|by apply (within_zip _ B); [intros; lia|..]]|].
  clear Ha Hb HB. rewrite <- Lb in La. clear Lb. revert b La. induction a as [|x a IH]; intros [|y b] Hl; try done.
  injection Hl as Hl. cbn [zip_with val]. rewrite IH by done. lia.
Qed.

Lemma sub_ok B a b : 0 ≤ B < 2 ^ 61 → fe B a → fe B b →
  ∃ c, x25519_sub a b = Ret c ∧ fe (2 * B) c ∧ val c = val a - val b.
Proof.
  intros HB [La Ha] [Lb Hb]. unfold x25519_sub. rewrite (zip_chk_ok _ B); [|intros; lia|done|done]. eexists. split; [done|].
  split; [split; [rewrite length_zip_with; lia|by apply (within_zip _ B); [intros; lia|..]]|].
  clear Ha Hb HB. rewrite <- Lb in La. clear Lb. revert b La. induction a as [|x a IH]; intros [|y b] Hl; try done.
  injection Hl as Hl. cbn [zip_with val]. rewrite IH by done. lia.
Qed.

(** ** Carrying *)

Lemma shift_carry x : Z.shiftr (x + 65536) 16 = x / 65536 + 1.
Proof. rewrite Z.shiftr_div_pow2 by lia. change (2 ^ 16) with (1 * 65536). rewrite Z.mul_1_l. rewrite <- (Z.mul_1_l 65536) at 1. by rewrite Z.div_add by lia. Qed.

Lemma nth_mid {A} (ds : list A) x r d : nth (length ds) (ds ++ x :: r) d = x.
Proof. rewrite app_nth2, Nat.sub_diag by lia. done. Qed.

Lemma insert_mid {A} (ds : list A) x r y : <[length ds := y]> (ds ++ x :: r) = ds ++ y :: r.
Proof. replace (length ds) with (length ds + 0)%nat by lia. by rewrite insert_app_r. Qed.

Lemma carry_mid ds x y r : (length (ds ++ x :: y :: r) = 16)%nat → - 2 ^ 61 ≤ x ≤ 2 ^ 61 → - 2 ^ 61 ≤ y ≤ 2 ^ 61 →
  carry_step (ds ++ x :: y :: r) (length ds) = Ret (ds ++ (x mod 65536) :: (y + x / 65536) :: r).
Proof.
  intros Hl Hx Hy. rewrite length_app in Hl. cbn [length] in Hl. unfold carry_step. rewrite nth_mid.
  pose proof (Z.div_mod x 65536 ltac:(lia)). pose proof (Z.mod_pos_bound x 65536 ltac:(lia)).
  assert (- 2 ^ 45 ≤ x / 65536 ≤ 2 ^ 45) by (split; [apply Z.div_le_lower_bound|apply Z.div_le_upper_bound]; lia).
  rewrite chk_ok by lia. cbn [obind]. rewrite insert_mid, shift_carry. rewrite chk_ok by lia. cbn [obind].
  rewrite (proj2 (Nat.eqb_neq _ _)) by lia. cbn [obind]. rewrite (Nat.mod_small (length ds + 1)) by lia.
  rewrite chk_ok by lia. cbn [obind].
  assert (∀ z, ds ++ z :: y :: r = (ds ++ [z]) ++ y :: r) as Hz by (intros; by rewrite <- (assoc_L (++))).
  assert (∀ z, length (ds ++ [z]) = (length ds + 1)%nat) as Hlz by (intros; by rewrite length_app).
  rewrite Hz, <- (Hlz (x + 65536)), nth_mid. rewrite chk_ok by lia. cbn [obind]. rewrite insert_mid.
  rewrite Z.shiftl_mul_pow2 by lia. change (2 ^ 16) with 65536. rewrite chk_ok by lia. cbn [obind].
  rewrite <- (assoc_L (++)). cbn [app]. rewrite nth_mid, chk_ok by lia. cbn [obind]. rewrite insert_mid. f_equal. f_equal. f_equal; [lia|]. f_equal. lia.
Qed.

Lemma carry_last d0 ds x : length ds = 14%nat → - 2 ^ 61 ≤ x ≤ 2 ^ 61 → - 2 ^ 61 ≤ d0 ≤ 2 ^ 61 →
  carry_step (d0 :: ds ++ [x]) 15 = Ret ((d0 + 38 * (x / 65536)) :: ds ++ [x mod 65536]).
Proof.
  intros Hl Hx Hd. unfold carry_step.
  assert (∀ (e : Z) z, nth 15 (e :: ds ++ [z]) 0 = z) as Hn by (intros; cbn [nth]; rewrite <- Hl; apply nth_mid).
  assert (∀ (e : Z) z z', <[15%nat := z']> (e :: ds ++ [z]) = e :: ds ++ [z']) as Hi.
  { intros. change (<[15%nat := z']> (e :: ds ++ [z])) with (e :: <[14%nat := z']> (ds ++ [z])). rewrite <- Hl. by rewrite insert_mid. }
  rewrite Hn. pose proof (Z.div_mod x 65536 ltac:(lia)). pose proof (Z.mod_pos_bound x 65536 ltac:(lia)).
  assert (- 2 ^ 45 ≤ x / 65536 ≤ 2 ^ 45) by (split; [apply Z.div_le_lower_bound|apply Z.div_le_upper_bound]; lia).
  rewrite chk_ok by lia. cbn [obind]. rewrite Hi, shift_carry. rewrite chk_ok by lia. cbn [obind].
  change (15 =? 15)%nat with true. cbv iota. rewrite chk_ok by lia. cbn [obind]. rewrite chk_ok by lia. cbn [obind].
  change ((15 + 1) mod 16)%nat with 0%nat. cbn [nth]. rewrite chk_ok by lia. cbn [obind].
  change (<[0%nat := ?v]> (d0 :: ?r)) with (v :: r). rewrite Z.shiftl_mul_pow2 by lia. change (2 ^ 16) with 65536.
  rewrite chk_ok by lia. cbn [obind]. rewrite Hn, chk_ok by lia. cbn [obind]. rewrite Hi. f_equal. f_equal; [lia|]. do 2 f_equal. lia.
Qed.

Lemma carry_loop_app l1 l2 a : carry_loop (l1 ++ l2) a = (let* b := carry_loop l1 a in carry_loop l2 b).
Proof.
  revert a. induction l1 as [|i l1 IH]; intros a; [done|]. cbn [app carry_loop]. destruct (carry_step a i); cbn [obind]; auto.
Qed.

Lemma div_bound x k : 0 ≤ k → - (65536 * k) ≤ x ≤ 65536 * k → - k ≤ x / 65536 ≤ k.
Proof. intros. split; [apply Z.div_le_lower_bound|apply Z.div_le_upper_bound]; lia. Qed.

(** The rounds before the last leave digits behind and a top limb. *)
Lemma carry_run r : ∀ ds x, (length (ds ++ x :: r) = 16)%nat → - 2 ^ 61 ≤ x ≤ 2 ^ 61 → within (2 ^ 60) r →
  ∃ r' y, carry_loop (seq (length ds) (length r)) (ds ++ x :: r) = Ret (ds ++ r' ++ [y]) ∧
    length r' = length r ∧ digits r' ∧ - 2 ^ 61 ≤ y ≤ 2 ^ 61 ∧ val (r' ++ [y]) = val (x :: r).
Proof.
  induction r as [|y r IH]; intros ds x Hl Hx Hr.
  - exists [], x. cbn [length seq carry_loop app val]. repeat split; [apply Forall_nil_2|lia|lia].
  - apply Forall_cons in Hr as [Hy Hr]. cbn [length seq carry_loop].
    rewrite carry_mid by (done || lia). cbn [obind].
    pose proof (div_bound x (2 ^ 45) ltac:(lia) ltac:(lia)). pose proof (Z.mod_pos_bound x 65536 ltac:(lia)).
    pose proof (Z.div_mod x 65536 ltac:(lia)).
    destruct (IH (ds ++ [x mod 65536]) (y + x / 65536)) as (r' & z & Hrun & Hlen & Hd & Hz & Hv).
    { rewrite !length_app in *. cbn [length] in *. lia. }
    { lia. } { done. }
    rewrite length_app, Nat.add_1_r, <- !(assoc_L (++)) in Hrun. cbn [app] in Hrun.
    exists (x mod 65536 :: r'), z. rewrite Hrun. split; [done|]. split; [cbn [length]; lia|].
    split; [by apply Forall_cons|]. split; [done|]. cbn [app val] in *. rewrite Hv. lia.
Qed.

(** A carry brings the limbs to 16 bits and what leaves the top comes back
    to limb 0, times 38. *)
Lemma carry_ok a : fe (2 ^ 60) a → ∃ d0 ds c, x25519_carry a = Ret ((d0 + 38 * c) :: ds) ∧ digits (d0 :: ds) ∧
  length ds = 15%nat ∧ val a = val (d0 :: ds) + c * 2 ^ 256 ∧ - 2 ^ 45 ≤ c ≤ 2 ^ 45.
Proof.
  intros [La Ha]. destruct a as [|x r]; [done|]. apply Forall_cons in Ha as [Hx Hr]. injection La as La.
  destruct (carry_run r [] x) as (r' & y & Hrun & Hlen & Hd & Hy & Hv); [cbn [app length]; lia|lia|done|].
  destruct r' as [|d0 ds]; [simpl in Hlen; lia|]. apply Forall_cons in Hd as [Hd0 Hd]. cbn [length] in Hlen.
  cbn [app length] in Hrun. rewrite La in Hrun. exists d0, (ds ++ [y mod 65536]), (y / 65536).
  unfold x25519_carry. change (seq 0 16) with (seq 0 15 ++ [15%nat]). rewrite carry_loop_app, Hrun. cbn [obind carry_loop].
  rewrite carry_last by lia. cbn [obind]. pose proof (div_bound y (2 ^ 45) ltac:(lia) ltac:(lia)).
  pose proof (Z.mod_pos_bound y 65536 ltac:(lia)). pose proof (Z.div_mod y 65536 ltac:(lia)).
  split; [done|]. split; [apply Forall_cons; split; [done|]; apply Forall_app; split; [done|]; by apply Forall_singleton|].
  split; [rewrite length_app; cbn [length]; lia|]. split; [|done].
  rewrite <- Hv. cbn [app val]. rewrite !val_app. cbn [val]. replace (length ds) with 14%nat by lia.
  change (65536 ^ Z.of_nat 14) with (2 ^ 224). lia.
Qed.

Lemma digits_within l : digits l → within 65535 l.
Proof. intros Hl. eapply Forall_impl; [exact Hl|]. cbv beta. lia. Qed.

(** Two carries from the range of a product. *)
Lemma carry_twice a : fe (2 ^ 60) a → ∃ b c, (let* b := x25519_carry a in x25519_carry b) = Ret b ∧ fe 65600 b ∧
  val a = val b + c * p25519.
Proof.
  intros Ha. destruct (carry_ok a Ha) as (d0 & ds & c & -> & Hd & Lds & Hv & Hc). cbn [obind].
  pose proof (digits_val _ Hd) as Hdv. apply Forall_cons in Hd as [Hd0 Hd]. pose proof (digits_val _ Hd) as Hdsv.
  cbn [length] in Hdv. rewrite Lds in Hdv, Hdsv.
  change (65536 ^ Z.of_nat 16) with (2 ^ 256) in *. change (65536 ^ Z.of_nat 15) with (2 ^ 240) in *.
  destruct (carry_ok ((d0 + 38 * c) :: ds)) as (e0 & es & k & -> & He & Les & Hv' & Hk).
  { split; [cbn [length]; lia|]. apply Forall_cons. split; [lia|]. eapply within_weaken; [|by apply digits_within]. lia. }
  pose proof (digits_val _ He) as Hev. apply Forall_cons in He as [He0 He]. cbn [length] in Hev. rewrite Les in Hev.
  change (65536 ^ Z.of_nat 16) with (2 ^ 256) in *. cbn [val] in *.
  assert (- 1 ≤ k ≤ 1) by nia.
  exists ((e0 + 38 * k) :: es), (2 * (c + k)). split; [done|]. split.
  - split; [cbn [length]; lia|]. apply Forall_cons. split; [lia|]. eapply within_weaken; [|by apply digits_within]. lia.
  - cbn [val]. unfold p25519. lia.
Qed.

(** ** Multiplying *)

Definition term (a b : list Z) (ij : nat * nat) : Z := nth ij.1 a 0 * nth ij.2 b 0 * 65536 ^ Z.of_nat (ij.1 + ij.2).
Definition zsum (l : list Z) : Z := foldr Z.add 0 l.

Lemma zsum_app l1 l2 : zsum (l1 ++ l2) = zsum l1 + zsum l2.
Proof. induction l1 as [|x l1 IH]; [done|]. change (x + zsum (l1 ++ l2) = x + zsum l1 + zsum l2). lia. Qed.

Lemma within_insert B l i x : within B l → - B ≤ x ≤ B → within B (<[i := x]> l).
Proof. intros Hl Hx. by apply Forall_insert. Qed.

Lemma product_loop_ok a b l : ∀ t N, fe (2 ^ 18) a → fe (2 ^ 18) b → length t = 31%nat →
  0 ≤ N → N + Z.of_nat (length l) * 2 ^ 36 ≤ 2 ^ 50 → within N t →
  Forall (λ ij, (ij.1 < 16 ∧ ij.2 < 16)%nat) l →
  ∃ t', product_loop l a b t = Ret t' ∧ length t' = 31%nat ∧ within (N + Z.of_nat (length l) * 2 ^ 36) t' ∧
    val t' = val t + zsum (term a b <$> l).
Proof.
  induction l as [|[i j] l IH]; intros t N Ha Hb Lt HN HB Ht Hl.
  - exists t. cbn [length fmap list_fmap zsum foldr] in *. split; [done|]. split; [done|]. split; [|lia].
    eapply within_weaken; [|exact Ht]. lia.
  - apply Forall_cons in Hl as [[Hi Hj] Hl]. cbn [fst snd] in Hi, Hj. cbn [length] in HB. cbn [product_loop].
    pose proof (nth_within (2 ^ 18) a i ltac:(lia) (proj2 Ha)) as Hai. pose proof (nth_within (2 ^ 18) b j ltac:(lia) (proj2 Hb)) as Hbj.
    pose proof (nth_within _ t (i + j) HN Ht) as Ht'.
    assert (- 2 ^ 36 ≤ nth i a 0 * nth j b 0 ≤ 2 ^ 36) as Hm by nia.
    rewrite chk_ok by lia. cbn [obind]. rewrite chk_ok by lia. cbn [obind].
    destruct (IH (<[(i + j)%nat := nth (i + j) t 0 + nth i a 0 * nth j b 0]> t) (N + 2 ^ 36)) as (t' & Hr & Ht1 & Ht2 & Hv).
    { done. } { done. } { by rewrite length_insert. } { lia. } { lia. }
    { apply within_insert; [eapply within_weaken; [|exact Ht]; lia|lia]. } { done. }
    exists t'. split; [exact Hr|]. split; [done|]. split; [eapply within_weaken; [|exact Ht2]; cbn [length]; lia|].
    rewrite Hv, val_alter by lia. cbn [fmap list_fmap zsum foldr]. unfold term at 2. cbn [fst snd]. unfold zsum, fmap. lia.
Qed.

Lemma zsum_row a b i n : zsum (term a b <$> ((λ j, (i, j)) <$> seq 0 n)) =
  nth i a 0 * 65536 ^ Z.of_nat i * zsum ((λ j, nth j b 0 * 65536 ^ Z.of_nat j) <$> seq 0 n).
Proof.
  induction n as [|n IH]; [cbn; lia|]. rewrite seq_S, !fmap_app, !zsum_app, IH. cbn [fmap list_fmap zsum foldr app plus].
  unfold term. cbn [fst snd]. rewrite Nat2Z.inj_add, Z.pow_add_r by lia. lia.
Qed.

Lemma zsum_rows a b n m : zsum (term a b <$> concat ((λ i, (λ j, (i, j)) <$> seq 0 m) <$> seq 0 n)) =
  zsum ((λ i, nth i a 0 * 65536 ^ Z.of_nat i) <$> seq 0 n) * zsum ((λ j, nth j b 0 * 65536 ^ Z.of_nat j) <$> seq 0 m).
Proof.
  induction n as [|n IH]; [cbn; lia|]. rewrite seq_S, !fmap_app, concat_app, fmap_app, !zsum_app, IH.
  cbn [plus fmap list_fmap concat]. rewrite app_nil_r. fold (fmap (M := list) (term a b)). rewrite (zsum_row a b n m).
  cbn [zsum foldr]. lia.
Qed.

Lemma val_sum l : ∀ n, length l = n → zsum ((λ i, nth i l 0 * 65536 ^ Z.of_nat i) <$> seq 0 n) = val l.
Proof.
  induction l as [|x l IH] using rev_ind; intros n Hn; [by subst n|].
  rewrite length_app in Hn. cbn [length] in Hn. replace n with (S (length l)) by lia.
  rewrite seq_S, fmap_app, zsum_app, val_app. cbn [plus fmap list_fmap zsum foldr val]. rewrite nth_mid.
  rewrite <- (IH (length l) eq_refl). unfold zsum at 1 2. f_equal; [|unfold zsum; simpl; lia]. f_equal.
  apply list_fmap_ext. intros k i Hk. apply lookup_seq in Hk as [-> Hk]. by rewrite app_nth1 by lia.
Qed.

Lemma fold_high_ok N lo : ∀ hi, 0 ≤ N ≤ 2 ^ 50 → within N lo → within N hi → (length hi ≤ length lo)%nat →
  ∃ r, fold_high lo hi = Ret r ∧ length r = length lo ∧ within (39 * N) r ∧ val r = val lo + 38 * val hi.
Proof.
  induction lo as [|x lo IH]; intros [|y hi] HN Hlo Hhi Hl.
  - exists []. repeat split; try apply Forall_nil_2.
  - simpl in Hl. lia.
  - exists (x :: lo). repeat split; [|cbn [val]; lia]. eapply within_weaken; [|exact Hlo]. lia.
  - apply Forall_cons in Hlo as [Hx Hlo], Hhi as [Hy Hhi]. cbn [length] in Hl.
    destruct (IH hi HN Hlo Hhi ltac:(lia)) as (r & Hr & Lr & Br & Vr). exists (x + 38 * y :: r).
    cbn [fold_high]. rewrite chk_ok by lia. cbn [obind]. rewrite chk_ok by lia. cbn [obind]. rewrite Hr. cbn [obind].
    split; [done|]. split; [cbn [length]; lia|]. split; [apply Forall_cons; split; [lia|done]|]. cbn [val]. lia.
Qed.

(** Multiplication: the limbs stay in 64 bits and the value is the product
    modulo p. *)
Lemma mul_ok a b : fe (2 ^ 18) a → fe (2 ^ 18) b →
  ∃ c k, x25519_mul a b = Ret c ∧ fe 65600 c ∧ val a * val b = val c + k * p25519.
Proof.
  intros Ha Hb. unfold x25519_mul.
  destruct (product_loop_ok a b all_pairs (replicate 31 0) 0) as (t & -> & Lt & Bt & Vt); [done|done|done|lia|vm_compute; congruence| | |].
  { by apply Forall_replicate. } { by vm_compute; repeat (constructor; [split; apply Nat.ltb_lt; reflexivity|]). }
  cbn [obind]. change (0 + Z.of_nat (length all_pairs) * 2 ^ 36) with (2 ^ 44) in Bt.
  unfold all_pairs in Vt. rewrite zsum_rows, !val_sum in Vt by apply Ha || apply Hb. change (val (replicate 31 0)) with 0 in Vt.
  rewrite <- (take_drop 16 t), val_app, length_take, Lt in Vt. change (65536 ^ Z.of_nat (16 `min` 31)) with (2 ^ 256) in Vt.
  destruct (fold_high_ok (2 ^ 44) (take 16 t) (drop 16 t)) as (r & -> & Lr & Br & Vr).
  { lia. } { by apply Forall_take. } { by apply Forall_drop. } { rewrite length_take, length_drop. lia. }
  cbn [obind]. rewrite length_take, Lt in Lr.
  destruct (carry_twice r) as (c & k & Hc & Bc & Vc); [split; [done|eapply within_weaken; [|exact Br]; lia]|].
  exists c, (k + 2 * val (drop 16 t)). split; [exact Hc|]. split; [done|]. unfold p25519 in *. lia.
Qed.
End x25519.
