(* ===== verification/X25519Spec.v ===== *)
(** * The key exchange against RFC 7748

    The reference is the Montgomery ladder over the integers modulo
    2^255 - 19: for each bit of the scalar, from the top, a differential
    addition and a doubling, with the two points exchanged before and after
    when the bit is set. [eqp] is equality modulo p; the limbs of
    [X25519.v] represent numbers up to it. *)

From S2P Require Import Prelude X25519.

Open Scope c_scope.

Module x25519spec.
Import x25519.

(** ** The reference *)

(** [b ^ e] modulo p, by repeated squaring. *)
Fixpoint powp (b : Z) (e : positive) : Z :=
  match e with
  | xH => b mod p25519
  | xO e => let r := powp b e in (r * r) mod p25519
  | xI e => let r := powp b e in (r * r * b) mod p25519
  end.

(** A point of the ladder, X and Z, numbers modulo p. *)
Definition point : Type := Z * Z.

(** The double of the first point and the sum of both, whose difference has
    the x-coordinate [u]. *)
Definition double_add (u : Z) (s : point * point) : point * point :=
  let '((X2, Z2), (X3, Z3)) := s in
  let AA := ((X2 + Z2) * (X2 + Z2)) mod p25519 in
  let BB := ((X2 - Z2) * (X2 - Z2)) mod p25519 in
  let E := AA - BB in
  let DA := ((X3 - Z3) * (X2 + Z2)) mod p25519 in
  let CB := ((X3 + Z3) * (X2 - Z2)) mod p25519 in
  (((AA * BB) mod p25519, (E * (AA + 121665 * E)) mod p25519),
   (((DA + CB) * (DA + CB)) mod p25519, (u * ((DA - CB) * (DA - CB))) mod p25519)).

Definition cswap (b : bool) (s : point * point) : point * point := if b then (s.2, s.1) else s.

Definition ref_step (u k : Z) (s : point * point) (pos : nat) : point * point :=
  let b := Z.testbit k (Z.of_nat pos) in
  cswap b (double_add u (cswap b s)).

Definition x25519_ref (k u : Z) : Z :=
  let '((X2, Z2), _) := fold_left (ref_step u k) (rev (seq 0 255)) ((1, 0), (u, 1)) in
  (X2 * powp Z2 (Z.to_pos (p25519 - 2))) mod p25519.

(** Little-endian numbers of bytes. *)
Fixpoint le_num (l : list Z) : Z := match l with [] => 0 | b :: r => b + 256 * le_num r end.

Fixpoint to_le (n : nat) (v : Z) : list Z :=
  match n with O => [] | S n => v mod 256 :: to_le n (v / 256) end.

(** The scalar of 32 bytes: a multiple of 8 between 2^254 and 2^255. *)
Definition decode_scalar (k : Z) : Z := 2 ^ 254 + 8 * ((k mod 2 ^ 254) / 8).

(** ** Equality modulo p *)

Definition eqp (x y : Z) : Prop := x mod p25519 = y mod p25519.

#[export] Instance eqp_equiv : Equivalence eqp.
Proof. split; unfold eqp; [intros ?; done|intros ?? H; done|intros ??? H1 H2; by rewrite H1]. Qed.

#[export] Instance eqp_add : Proper (eqp ==> eqp ==> eqp) Z.add.
Proof. intros x x' Hx y y' Hy. unfold eqp in *. by rewrite Zplus_mod, Hx, Hy, <- Zplus_mod. Qed.

#[export] Instance eqp_sub : Proper (eqp ==> eqp ==> eqp) Z.sub.
Proof. intros x x' Hx y y' Hy. unfold eqp in *. by rewrite Zminus_mod, Hx, Hy, <- Zminus_mod. Qed.

#[export] Instance eqp_mul : Proper (eqp ==> eqp ==> eqp) Z.mul.
Proof. intros x x' Hx y y' Hy. unfold eqp in *. by rewrite Zmult_mod, Hx, Hy, <- Zmult_mod. Qed.

Lemma eqp_mod x : eqp (x mod p25519) x.
Proof. unfold eqp. by rewrite Zmod_mod. Qed.

Lemma eqp_shift x y k : x = y + k * p25519 → eqp x y.
Proof. intros ->. unfold eqp. by rewrite Z_mod_plus_full. Qed.

#[export] Instance powp_proper e : Proper (eqp ==> eqp) (λ b, powp b e).
Proof.
  intros x x' Hx. cbv beta. induction e as [e IH|e IH|]; cbn [powp]; rewrite !eqp_mod; [|by rewrite IH|done].
  by rewrite IH, Hx.
Qed.

Lemma powp_spec b e : powp b e = (b ^ Z.pos e) mod p25519.
Proof.
  induction e as [e IH|e IH|]; cbn [powp].
  - rewrite IH. change (Z.pos e~1) with (1 + 2 * Z.pos e). rewrite Z.pow_add_r, Z.pow_mul_r by lia.
    rewrite (Z.pow_2_r b), Z.pow_mul_l, Z.pow_1_r. set (q := b ^ Z.pos e).
    change (eqp (q mod p25519 * (q mod p25519) * b) (b * (q * q))). rewrite eqp_mod. by rewrite Z.mul_comm.
  - rewrite IH. change (Z.pos e~0) with (2 * Z.pos e). rewrite Z.pow_mul_r by lia.
    rewrite (Z.pow_2_r b), Z.pow_mul_l. set (q := b ^ Z.pos e).
    change (eqp (q mod p25519 * (q mod p25519)) (q * q)). by rewrite eqp_mod.
  - by rewrite Z.pow_1_r.
Qed.

(** A step is Montgomery's pair of formulas on the curve of
    y^2 = x^3 + 486662 x^2 + x: the double of the first point, and the sum of
    both from their difference [u]. *)
Lemma double_add_formulas u X2 Z2 X3 Z3 :
  let '((X4, Z4), (X5, Z5)) := double_add u ((X2, Z2), (X3, Z3)) in
  eqp X4 ((X2 * X2 - Z2 * Z2) * (X2 * X2 - Z2 * Z2)) ∧
  eqp Z4 (4 * X2 * Z2 * (X2 * X2 + 486662 * X2 * Z2 + Z2 * Z2)) ∧
  eqp X5 (4 * ((X2 * X3 - Z2 * Z3) * (X2 * X3 - Z2 * Z3))) ∧
  eqp Z5 (4 * u * ((X3 * Z2 - Z3 * X2) * (X3 * Z2 - Z3 * X2))).
Proof.
  cbn [double_add]. split; [|split; [|split]]; rewrite !eqp_mod; apply (eqp_shift _ _ 0); ring.
Qed.

(** ** What limbs stand for *)

(** Limbs as multiplication leaves them, standing for [z]. *)
Definition rep (l : list Z) (z : Z) : Prop := fe 65600 l ∧ eqp (val l) z.
(** The same after one addition or subtraction. *)
Definition loose (l : list Z) (z : Z) : Prop := fe (2 ^ 18) l ∧ eqp (val l) z.

Lemma rep_loose l z : rep l z → loose l z.
Proof. intros [Hl Hz]. split; [|done]. eapply fe_weaken; [|exact Hl]. lia. Qed.

Lemma rep_eqp l z z' : eqp z z' → rep l z → rep l z'.
Proof. intros He [Hl Hz]. split; [done|]. by rewrite Hz. Qed.

Lemma add_rep a b x y : rep a x → rep b y → ∃ c, x25519_add a b = Ret c ∧ loose c (x + y).
Proof.
  intros [Ha Hx] [Hb Hy]. destruct (add_ok 65600 a b) as (c & Hc & Bc & Vc); [lia|done|done|].
  exists c. split; [done|]. split; [eapply fe_weaken; [|exact Bc]; lia|]. by rewrite Vc, Hx, Hy.
Qed.

Lemma sub_rep a b x y : rep a x → rep b y → ∃ c, x25519_sub a b = Ret c ∧ loose c (x - y).
Proof.
  intros [Ha Hx] [Hb Hy]. destruct (sub_ok 65600 a b) as (c & Hc & Bc & Vc); [lia|done|done|].
  exists c. split; [done|]. split; [eapply fe_weaken; [|exact Bc]; lia|]. by rewrite Vc, Hx, Hy.
Qed.

Lemma mul_rep a b x y : loose a x → loose b y → ∃ c, x25519_mul a b = Ret c ∧ rep c (x * y).
Proof.
  intros [Ha Hx] [Hb Hy]. destruct (mul_ok a b Ha Hb) as (c & k & Hc & Bc & Vc). exists c. split; [done|]. split; [done|].
  rewrite <- Hx, <- Hy. symmetry. by apply (eqp_shift _ _ k).
Qed.

Lemma square_rep a x : loose a x → ∃ c, x25519_square a = Ret c ∧ rep c (x * x).
Proof. intros Ha. by apply mul_rep. Qed.

Lemma zip_lxor_l a : ∀ b, length a = length b → zip_with Z.lxor a (zip_with (λ x y, Z.land (-1) (Z.lxor x y)) a b) = b.
Proof.
  induction a as [|x a IH]; intros [|y b] Hl; try done. injection Hl as Hl. cbn [zip_with].
  rewrite Z.land_m1_l, <- Z.lxor_assoc, Z.lxor_nilpotent, Z.lxor_0_l. by rewrite IH.
Qed.

Lemma zip_lxor_r a : ∀ b, length a = length b → zip_with Z.lxor b (zip_with (λ x y, Z.land (-1) (Z.lxor x y)) a b) = a.
Proof.
  induction a as [|x a IH]; intros [|y b] Hl; try done. injection Hl as Hl. cbn [zip_with].
  rewrite Z.land_m1_l, (Z.lxor_comm x y), <- Z.lxor_assoc, Z.lxor_nilpotent, Z.lxor_0_l. by rewrite IH.
Qed.

Lemma zip_lxor_0 a : ∀ b c, length a = length c → length b = length c →
  zip_with Z.lxor c (zip_with (λ x y, Z.land (- 0) (Z.lxor x y)) a b) = c.
Proof.
  induction a as [|x a IH]; intros [|y b] [|z c] Hl Hl'; try done. injection Hl as Hl. injection Hl' as Hl'. cbn [zip_with].
  rewrite Z.land_0_l, Z.lxor_0_r. by rewrite IH.
Qed.

Lemma select_ok a b sw : length a = length b →
  x25519_select a b (Z.b2z sw) = if sw then (b, a) else (a, b).
Proof.
  intros Hl. unfold x25519_select. destruct sw; cbn [Z.b2z].
  - change (- (1)) with (-1). by rewrite zip_lxor_l, zip_lxor_r.
  - by rewrite !zip_lxor_0.
Qed.

(** ** The ladder *)

(** The code's state stands for the two points, exchanged when its pending
    [swap] is set. *)
Definition lrep (s : ladder) (sw : bool) (r : point * point) : Prop :=
  swap s = Z.b2z sw ∧
  let '((X2, Z2), (X3, Z3)) := cswap sw r in rep (x2 s) X2 ∧ rep (z2 s) Z2 ∧ rep (x3 s) X3 ∧ rep (z3 s) Z3.

Lemma cswap_cswap b c r : cswap (xorb b c) (cswap b r) = cswap c r.
Proof. by destruct b, c, r. Qed.

Lemma cswap_invol b r : cswap b (cswap b r) = r.
Proof. by destruct b, r. Qed.

Lemma rep_length a x : rep a x → length a = 16%nat.
Proof. by intros [[? _] _]. Qed.

(** Both exchanges of the code at once. *)
Lemma lrep_select s sw r b : lrep s sw r →
  let '((X2, Z2), (X3, Z3)) := cswap b r in
  ∃ a c d e, x25519_select (x2 s) (x3 s) (Z.lxor (swap s) (Z.b2z b)) = (a, d) ∧
    x25519_select (z2 s) (z3 s) (Z.lxor (swap s) (Z.b2z b)) = (c, e) ∧ rep a X2 ∧ rep c Z2 ∧ rep d X3 ∧ rep e Z3.
Proof.
  intros [-> Hr]. replace (Z.lxor (Z.b2z sw) (Z.b2z b)) with (Z.b2z (xorb sw b)) by by destruct sw, b.
  rewrite <- (cswap_cswap sw b r). destruct (cswap sw r) as [[X2 Z2] [X3 Z3]]. destruct Hr as (H1 & H2 & H3 & H4).
  rewrite !select_ok by (by erewrite !rep_length). destruct (xorb sw b); cbn [cswap fst snd]; eauto 12.
Qed.

Lemma a24_loose : loose a24 121665.
Proof. split; [split; [done|]|done]. unfold a24. repeat (apply Forall_cons; split; [lia|]). apply Forall_nil_2. Qed.

Ltac arith H := match type of H with ∃ c, _ = Ret c ∧ _ => let c := fresh "l" in let E := fresh "E" in
  destruct H as (c & E & ?); rewrite E; cbn [obind]; clear E end.

Lemma ladder_step_ok scalar k x u s sw r pos :
  Z.land (Z.shiftr (nth (pos / 8) scalar 0) (Z.of_nat (pos mod 8))) 1 = Z.b2z (Z.testbit k (Z.of_nat pos)) →
  loose x u → lrep s sw r →
  ∃ s', ladder_step scalar x s pos = Ret s' ∧ lrep s' (Z.testbit k (Z.of_nat pos)) (ref_step u k r pos).
Proof.
  intros Hbit Hx Hs. unfold ladder_step, ref_step. rewrite Hbit. set (b := Z.testbit k (Z.of_nat pos)).
  pose proof (lrep_select s sw r b Hs) as Hsel. destruct (cswap b r) as [[X2 Z2] [X3 Z3]] eqn:Er.
  destruct Hsel as (x2' & z2' & x3' & z3' & -> & -> & H1 & H2 & H3 & H4).
  pose proof (add_rep _ _ _ _ H1 H2) as H. arith H. pose proof (sub_rep _ _ _ _ H1 H2) as H'. arith H'.
  pose proof (square_rep _ _ H) as Haa. arith Haa. pose proof (square_rep _ _ H0) as Hbb. arith Hbb.
  pose proof (sub_rep _ _ _ _ H5 H6) as He. arith He.
  pose proof (add_rep _ _ _ _ H3 H4) as Hc. arith Hc. pose proof (sub_rep _ _ _ _ H3 H4) as Hd. arith Hd.
  pose proof (mul_rep _ _ _ _ H9 H) as Hda. arith Hda. pose proof (mul_rep _ _ _ _ H8 H0) as Hcb. arith Hcb.
  pose proof (add_rep _ _ _ _ H10 H11) as Ht. arith Ht. pose proof (square_rep _ _ H12) as Hx3. arith Hx3.
  pose proof (sub_rep _ _ _ _ H10 H11) as Ht. arith Ht. pose proof (square_rep _ _ H14) as Ht. arith Ht.
  pose proof (mul_rep _ _ _ _ Hx (rep_loose _ _ H15)) as Hz3. arith Hz3.
  pose proof (mul_rep _ _ _ _ (rep_loose _ _ H5) (rep_loose _ _ H6)) as Hx2. arith Hx2.
  pose proof (mul_rep _ _ _ _ H7 a24_loose) as Ht. arith Ht. pose proof (add_rep _ _ _ _ H5 H18) as Ht. arith Ht.
  pose proof (mul_rep _ _ _ _ H7 H19) as Hz2. arith Hz2.
  eexists. split; [reflexivity|]. split; [done|]. rewrite cswap_invol. cbn [double_add x2 z2 x3 z3].
  split; [|split; [|split]]; (eapply rep_eqp; [|eassumption]); rewrite !eqp_mod; [done| |done|done].
  by rewrite (Z.mul_comm 121665).
Qed.

Lemma ladder_loop_ok scalar k x u l : ∀ s sw r,
  Forall (λ pos, Z.land (Z.shiftr (nth (pos / 8) scalar 0) (Z.of_nat (pos mod 8))) 1 = Z.b2z (Z.testbit k (Z.of_nat pos))) l →
  loose x u → lrep s sw r →
  ∃ s' sw', ladder_loop l scalar x s = Ret s' ∧ lrep s' sw' (fold_left (ref_step u k) l r).
Proof.
  induction l as [|pos l IH]; intros s sw r Hl Hx Hs; [by exists s, sw|]. apply Forall_cons in Hl as [Hp Hl].
  destruct (ladder_step_ok scalar k x u s sw r pos Hp Hx Hs) as (s' & Hs' & Hr). cbn [ladder_loop fold_left].
  rewrite Hs'. cbn [obind]. by apply (IH _ _ _ Hl Hx Hr).
Qed.

(** ** Inversion *)

(** The exponent after the rounds [l]. *)
Fixpoint expo (l : list nat) (e : positive) : positive :=
  match l with
  | [] => e
  | i :: l => expo l (if negb (i =? 2)%nat && negb (i =? 4)%nat then xI e else xO e)
  end.

Lemma invert_loop_ok inp z l : rep inp z → ∀ c e, rep c (powp z e) →
  ∃ c', invert_loop l inp c = Ret c' ∧ rep c' (powp z (expo l e)).
Proof.
  intros Hi. induction l as [|i l IH]; intros c e Hc; [by exists c|]. cbn [invert_loop expo].
  pose proof (square_rep _ _ (rep_loose _ _ Hc)) as (d & -> & Hd). cbn [obind].
  destruct (negb (i =? 2)%nat && negb (i =? 4)%nat).
  - pose proof (mul_rep _ _ _ _ (rep_loose _ _ Hd) (rep_loose _ _ Hi)) as (d' & -> & Hd'). cbn [obind].
    apply IH. eapply rep_eqp; [|exact Hd']. cbn [powp]. by rewrite eqp_mod.
  - cbn [obind]. apply IH. eapply rep_eqp; [|exact Hd]. cbn [powp]. by rewrite eqp_mod.
Qed.

Lemma invert_ok a z : rep a z → ∃ c, x25519_invert a = Ret c ∧ rep c (powp z (Z.to_pos (p25519 - 2))).
Proof.
  intros Ha. unfold x25519_invert. replace (Z.to_pos (p25519 - 2)) with (expo (rev (seq 0 254)) 1) by by vm_compute.
  apply invert_loop_ok; [done|]. eapply rep_eqp; [|exact Ha]. cbn [powp]. by rewrite eqp_mod.
Qed.

(** ** Bytes to limbs *)

Lemma le_num_app a b : le_num (a ++ b) = le_num a + 256 ^ Z.of_nat (length a) * le_num b.
Proof.
  induction a as [|x a IH]; cbn [app le_num length]; [lia|]. rewrite IH, Nat2Z.inj_succ, Z.pow_succ_r by lia. lia.
Qed.

Lemma le_num_range l : Forall is_u8 l → 0 ≤ le_num l < 256 ^ Z.of_nat (length l).
Proof.
  induction l as [|x l IH]; intros Hl; [done|]. apply Forall_cons in Hl as [Hx Hl]. specialize (IH Hl). unfold is_u8 in Hx.
  cbn [le_num length]. rewrite Nat2Z.inj_succ, Z.pow_succ_r by lia. lia.
Qed.

(** The number of the bytes, pair by pair. *)
Lemma pairs_val n : ∀ inp, length inp = (2 * n)%nat → Forall is_u8 inp →
  let out := (λ i, nth (2 * i) inp 0 + Z.shiftl (nth (2 * i + 1) inp 0) 8) <$> seq 0 n in
  digits out ∧ val out = le_num inp.
Proof.
  induction n as [|n IH]; intros inp Hl Hb; [by destruct inp; [split; [apply Forall_nil_2|]|]|].
  destruct inp as [|x [|y inp]]; [done|simpl in Hl; lia|]. apply Forall_cons in Hb as [Hx Hb]. apply Forall_cons in Hb as [Hy Hb].
  unfold is_u8 in Hx, Hy. cbn [length] in Hl. destruct (IH inp ltac:(lia) Hb) as [Hd Hv]. cbv zeta. change (seq 0 (S n)) with (0%nat :: seq 1 n).
  rewrite <- fmap_S_seq, fmap_cons, <- list_fmap_compose.
  erewrite (list_fmap_ext _ (λ i, nth (2 * i) inp 0 + Z.shiftl (nth (2 * i + 1) inp 0) 8)).
  2: { intros i k _. unfold compose. replace (2 * S k)%nat with (S (S (2 * k))) by lia. done. }
  cbn [nth plus Nat.mul]. rewrite Z.shiftl_mul_pow2 by lia. change (2 ^ 8) with 256. split.
  - apply Forall_cons. split; [lia|done].
  - cbn [val le_num]. rewrite <- Hv. cbn [Nat.mul plus]. lia.
Qed.

Lemma val_insert_last l x y : val (l ++ [y]) = val (l ++ [x]) + 65536 ^ Z.of_nat (length l) * (y - x).
Proof. rewrite !val_app. cbn [val]. lia. Qed.

(** Unpacking ignores the top bit. *)
Lemma unpack_ok inp : length inp = 32%nat → Forall is_u8 inp →
  digits (x25519_unpack inp) ∧ length (x25519_unpack inp) = 16%nat ∧ val (x25519_unpack inp) = le_num inp mod 2 ^ 255.
Proof.
  intros Hl Hb. destruct (pairs_val 16 inp Hl Hb) as [Hd Hv]. unfold x25519_unpack.
  set (out := (λ i, nth (2 * i) inp 0 + Z.shiftl (nth (2 * i + 1) inp 0) 8) <$> seq 0 16) in *.
  assert (length out = 16%nat) as Lo by (unfold out; by rewrite length_fmap, length_seq).
  destruct (exists_last (l := out)) as (pre & x & Eo); [by intros E; rewrite E in Lo|]. rewrite Eo in *.
  rewrite length_app in Lo. cbn [length] in Lo. assert (length pre = 15%nat) as Lp by lia.
  rewrite <- Lp, nth_mid, insert_mid. apply Forall_app in Hd as [Hp Hx]. apply Forall_singleton in Hx.
  change 0x7fff with (2 ^ 15 - 1). rewrite land_ones_mod by lia. change (2 ^ 15) with 32768.
  pose proof (Z.mod_pos_bound x 32768 ltac:(lia)). split; [apply Forall_app; split; [done|apply Forall_singleton; lia]|].
  split; [rewrite length_app; cbn [length]; lia|]. rewrite <- Hv, !val_app, Lp. cbn [val].
  pose proof (digits_val _ Hp) as Hpv. rewrite Lp in Hpv. change (65536 ^ Z.of_nat 15) with (2 ^ 240) in *.
  pose proof (Z.div_mod x 32768 ltac:(lia)). apply Z.mod_unique_pos with (x / 32768); [lia|]. lia.
Qed.

(** ** Packing *)

Lemma borrow x : -65536 ≤ x < 65536 → 0 ≤ Z.land (Z.shiftr x 16) 1 ≤ 1 ∧ Z.land x 0xffff - 65536 * Z.land (Z.shiftr x 16) 1 = x ∧
  0 ≤ Z.land x 0xffff < 65536.
Proof.
  intros Hx. pose proof (land_ones_mod x 16 ltac:(lia)) as E16. pose proof (land_ones_mod (Z.shiftr x 16) 1 ltac:(lia)) as E1.
  change (2 ^ 16 - 1) with 0xffff in E16. change (2 ^ 1 - 1) with 1 in E1. rewrite E16, E1, Z.shiftr_div_pow2 by lia.
  change (2 ^ 16) with 65536. pose proof (Z.div_mod x 65536 ltac:(lia)). pose proof (Z.mod_pos_bound x 65536 ltac:(lia)).
  assert (x / 65536 = -1 ∨ x / 65536 = 0) as [E|E] by lia; rewrite E in *;
    [change (-1 mod 2 ^ 1) with 1|change (0 mod 2 ^ 1) with 0]; lia.
Qed.

Lemma sub_limbs_ok t : ∀ prev, digits t → -65536 ≤ prev < 65536 →
  let '(r, last) := sub_limbs t prev in digits r ∧ length r = length t ∧ -65536 ≤ last < 65536 ∧
    val r + 65536 ^ Z.of_nat (length t) * last = prev + 65536 * (val t - (65536 ^ Z.of_nat (length t) - 1)).
Proof.
  induction t as [|x t IH]; intros prev Ht Hp; cbn [sub_limbs].
  - repeat split; [apply Forall_nil_2|lia|lia|cbn [val length]; lia].
  - apply Forall_cons in Ht as [Hx Ht]. pose proof (borrow prev Hp) as (Hb & He & Hm).
    specialize (IH (x - 0xffff - Z.land (Z.shiftr prev 16) 1) Ht ltac:(lia)).
    destruct (sub_limbs t _) as [r last]. destruct IH as (Hr & Lr & Hl & Hv).
    split; [by apply Forall_cons|]. split; [cbn [length]; lia|]. split; [done|]. cbn [val length].
    rewrite Nat2Z.inj_succ, Z.pow_succ_r by lia. lia.
Qed.

Lemma split16 (t : list Z) : length t = 16%nat → ∃ x m y, t = x :: m ++ [y] ∧ length m = 14%nat.
Proof.
  intros Hl. destruct t as [|x t]; [done|]. destruct (exists_last (l := t)) as (m & y & ->); [by intros ->|].
  exists x, m, y. split; [done|]. cbn [length] in Hl. rewrite length_app in Hl. cbn [length] in Hl. lia.
Qed.

(** One round subtracts p when the number is not below it. *)
Lemma pack_round_ok t : digits t → length t = 16%nat →
  digits (pack_round t) ∧ length (pack_round t) = 16%nat ∧
  val (pack_round t) = if p25519 <=? val t then val t - p25519 else val t.
Proof.
  intros Hd Hl. destruct (split16 t Hl) as (x & m & y & -> & Lm). clear Hl.
  pose proof Hd as Hd'. apply Forall_cons in Hd' as [Hx Hd']. apply Forall_app in Hd' as [Hm Hy]. apply Forall_cons in Hy as [Hy _].
  unfold pack_round. change (drop 1 (x :: m ++ [y])) with (m ++ [y]). rewrite take_app_le, take_ge by lia.
  change (nth 0 (x :: m ++ [y]) 0) with x. change (nth 15 (x :: m ++ [y]) 0) with (nth 14 (m ++ [y]) 0).
  assert (nth 14 (m ++ [y]) 0 = y) as -> by (rewrite <- Lm; apply nth_mid). pose proof (sub_limbs_ok m (x - 0xffed) Hm ltac:(lia)) as Hs.
  destruct (sub_limbs m (x - 0xffed)) as [r last]. destruct Hs as (Hr & Lr & Hla & Hv).
  pose proof (borrow last Hla) as (Hb & He & Hm14). set (b := Z.land (Z.shiftr last 16) 1) in *.
  pose proof (borrow (y - 0x7fff - b) ltac:(lia)) as (Hb' & He' & Hm15). set (b' := Z.land (Z.shiftr (y - 0x7fff - b) 16) 1) in *.
  rewrite Lm in *. change (65536 ^ Z.of_nat 14) with (2 ^ 224) in Hv.
  pose proof (digits_val _ Hr) as Hrv. rewrite Lr in Hrv. change (65536 ^ Z.of_nat 14) with (2 ^ 224) in Hrv.
  assert (length (x :: m ++ [y]) = length (r ++ [Z.land last 0xffff; y - 0x7fff - b])) as Hlen.
  { cbn [length]. rewrite !length_app. cbn [length]. lia. }
  assert (val (r ++ [Z.land last 0xffff; y - 0x7fff - b]) = val (x :: m ++ [y]) - p25519) as Hval.
  { cbn [val]. rewrite !val_app. cbn [val]. rewrite Lr, Lm. change (65536 ^ Z.of_nat 14) with (2 ^ 224). unfold p25519. lia. }
  assert (val (r ++ [Z.land last 0xffff; y - 0x7fff - b]) = val r + 2 ^ 224 * (Z.land last 0xffff + 65536 * (y - 0x7fff - b))) as E.
  { rewrite val_app, Lr. change (65536 ^ Z.of_nat 14) with (2 ^ 224). cbn [val]. lia. }
  rewrite Hval in E. assert (u8 (1 - b') = Z.b2z (p25519 <=? val (x :: m ++ [y]))) as ->.
  { assert (b' = 0 ∨ b' = 1) by lia. destruct (Z.leb_spec p25519 (val (x :: m ++ [y]))); cbn [Z.b2z].
    - replace b' with 0 by lia. done.
    - replace b' with 1 by lia. done. }
  rewrite select_ok by exact Hlen. destruct (Z.leb_spec p25519 (val (x :: m ++ [y]))) as [Hle|Hle]; cbn [fst].
  2: { split; [done|]. split; [cbn [length]; rewrite length_app; cbn [length]; lia|done]. }
  split; [|split; [rewrite <- Hlen; cbn [length]; rewrite length_app; cbn [length]; lia|done]].
  apply Forall_app. split; [done|]. apply Forall_cons. split; [done|]. apply Forall_cons. split; [|apply Forall_nil_2].
  lia.
Qed.

Lemma bytes_val t : digits t → concat ((λ x, [u8 x; u8 (Z.shiftr x 8)]) <$> t) = to_le (2 * length t) (val t).
Proof.
  induction t as [|x t IH]; intros Ht; [done|]. apply Forall_cons in Ht as [Hx Ht]. rewrite fmap_cons. cbn [concat length val app].
  replace (2 * S (length t))%nat with (S (S (2 * length t))) by lia. cbn [to_le].
  rewrite IH, Z.shiftr_div_pow2 by (done || lia). change (2 ^ 8) with 256. unfold u8.
  pose proof (Z.div_mod x 256 ltac:(lia)). pose proof (Z.mod_pos_bound x 256 ltac:(lia)).
  assert (x / 256 < 256) by (apply Z.div_lt_upper_bound; lia).
  assert ((x + 65536 * val t) / 256 = x / 256 + 256 * val t) as -> by (symmetry; apply Z.div_unique_pos with (x mod 256); lia).
  f_equal; [|f_equal].
  - apply Z.mod_unique_pos with (x / 256 + 256 * val t); lia.
  - rewrite (Z.mul_comm 256), Z_mod_plus_full. done.
  - rewrite (Z.mul_comm 256), Z.div_add, (Z.div_small (x / 256)) by lia. by rewrite Z.add_0_l.
Qed.

(** Three carries bring every limb to 16 bits. *)
Lemma carry_thrice a : fe 65600 a → ∃ t k,
  (let* b := x25519_carry a in let* b := x25519_carry b in x25519_carry b) = Ret t ∧
  digits t ∧ length t = 16%nat ∧ val a = val t + k * p25519.
Proof.
  intros [La Ha]. pose proof (within_val 65600 a ltac:(lia) Ha) as Hv. rewrite La in Hv.
  destruct (carry_ok a) as (d0 & ds & c & -> & Hd & Ld & Vd & _); [split; [done|]; eapply within_weaken; [|exact Ha]; lia|].
  cbn [obind]. pose proof (digits_val _ Hd) as Bd. cbn [length] in Bd. rewrite Ld in Bd.
  change (65536 ^ Z.of_nat 16) with (2 ^ 256) in *. apply Forall_cons in Hd as [Hd0 Hd].
  assert (-2 ≤ c ≤ 1) by lia. cbn [val] in Vd, Bd.
  destruct (carry_ok ((d0 + 38 * c) :: ds)) as (e0 & es & c' & -> & He & Le & Ve & _).
  { split; [cbn [length]; lia|]. apply Forall_cons. split; [lia|]. eapply within_weaken; [|by apply digits_within]. lia. }
  cbn [obind]. pose proof (digits_val _ He) as Be. cbn [length] in Be. rewrite Le in Be.
  change (65536 ^ Z.of_nat 16) with (2 ^ 256) in *. apply Forall_cons in He as [He0 He]. cbn [val] in Ve, Be.
  assert (-1 ≤ c' ≤ 1) by lia.
  assert (0 ≤ e0 + 38 * c' < 65536) as Hf0 by lia.
  assert (digits ((e0 + 38 * c') :: es)) as Hf by by apply Forall_cons.
  pose proof (digits_val _ Hf) as Bf. cbn [length] in Bf. rewrite Le in Bf. cbn [val] in Bf.
  destruct (carry_ok ((e0 + 38 * c') :: es)) as (f0 & fs & c'' & -> & Hg & Lg & Vg & _).
  { split; [cbn [length]; lia|]. eapply within_weaken; [|by apply digits_within]. lia. }
  pose proof (digits_val _ Hg) as Bg. cbn [length] in Bg. rewrite Lg in Bg. cbn [val] in Vg, Bg.
  change (65536 ^ Z.of_nat 16) with (2 ^ 256) in *. assert (c'' = 0) as -> by lia.
  exists (f0 :: fs), (2 * (c + c')). rewrite Z.mul_0_r, Z.add_0_r. split; [done|]. split; [done|]. split; [cbn [length]; lia|].
  cbn [val]. unfold p25519. lia.
Qed.

Lemma pack_ok a z : rep a z → x25519_pack a = Ret (to_le 32 (z mod p25519)).
Proof.
  intros [Ha Hz]. destruct (carry_thrice a Ha) as (t & k & Ht & Hd & Lt & Vt). unfold x25519_pack.
  destruct (x25519_carry a) as [b| | |]; cbn [obind] in Ht; try done.
  destruct (x25519_carry b) as [c| | |] eqn:Eb; cbn [obind] in Ht; try done.
  cbn [obind]. rewrite Eb. cbn [obind]. rewrite Ht. cbn [obind].
  destruct (pack_round_ok t Hd Lt) as (Hd1 & L1 & V1). destruct (pack_round_ok _ Hd1 L1) as (Hd2 & L2 & V2).
  rewrite bytes_val, L2 by done. do 2 f_equal. rewrite V2, V1. rewrite <- Hz. rewrite (eqp_shift _ _ _ Vt).
  pose proof (digits_val _ Hd) as Bt. rewrite Lt in Bt. change (65536 ^ Z.of_nat 16) with (2 ^ 256) in Bt.
  destruct (Z.leb_spec p25519 (val t)); [destruct (Z.leb_spec p25519 (val t - p25519))|
    destruct (Z.leb_spec p25519 (val t)); [lia|]]; clear - Bt H H0; unfold p25519 in *.
  - apply Z.mod_unique_pos with 2; lia.
  - apply Z.mod_unique_pos with 1; lia.
  - symmetry. apply Z.mod_small. lia.
Qed.

(** ** The scalar *)

Lemma scalar_bit l : ∀ pos, Forall is_u8 l →
  Z.land (Z.shiftr (nth (pos / 8) l 0) (Z.of_nat (pos mod 8))) 1 = Z.b2z (Z.testbit (le_num l) (Z.of_nat pos)).
Proof.
  induction l as [|x l IH]; intros pos Hl.
  - cbn [le_num]. rewrite Z.bits_0. destruct (pos / 8)%nat; cbn [nth]; by rewrite Z.shiftr_0_l.
  - apply Forall_cons in Hl as [Hx Hl]. unfold is_u8 in Hx. cbn [le_num].
    assert (∀ y i, Z.land (Z.shiftr y (Z.of_nat i)) 1 = Z.b2z (Z.testbit y (Z.of_nat i))) as Hb.
    { intros y i. change 1 with (2 ^ 1 - 1). rewrite land_ones_mod by lia. change (2 ^ 1) with 2.
      by rewrite Z.testbit_spec' , Z.shiftr_div_pow2 by lia. }
    destruct (decide (pos < 8)%nat) as [Hp|Hp].
    + rewrite Nat.div_small, Nat.mod_small by done. cbn [nth]. rewrite Hb. f_equal.
      rewrite !Z.testbit_odd, !Z.shiftr_div_pow2 by lia. replace (256 * le_num l) with (le_num l * 2 ^ (8 - Z.of_nat pos) * 2 ^ Z.of_nat pos).
      2: { rewrite <- Z.mul_assoc, <- Z.pow_add_r by lia. replace (8 - Z.of_nat pos + Z.of_nat pos) with 8 by lia. lia. }
      rewrite Z.div_add by lia. rewrite Z.odd_add, Z.odd_mul. rewrite (Z.odd_pow 2) by lia. by rewrite andb_false_r, xorb_false_r.
    + replace pos with (pos - 8 + 1 * 8)%nat at 1 2 by lia. rewrite Nat.div_add, Nat.Div0.mod_add by done. rewrite Nat.add_1_r.
      cbn [nth]. rewrite IH by done. f_equal. replace (Z.of_nat pos) with (Z.of_nat (pos - 8) + 8) by lia.
      rewrite <- Z.div_pow2_bits by lia. change (2 ^ 8) with 256. rewrite (Z.mul_comm 256), Z.div_add, (Z.div_small x) by lia.
      by rewrite Z.add_0_l.
Qed.

Lemma clamp_byte x : is_u8 x → Z.land x 248 = 8 * (x / 8) ∧ Z.lor (Z.land x 127) 64 = 64 + x mod 64.
Proof.
  intros Hx. pose proof (byte_forall (λ x, (Z.land x 248 =? 8 * (x / 8)) && (Z.lor (Z.land x 127) 64 =? 64 + x mod 64))) as H.
  specialize (H ltac:(by vm_compute) x Hx). cbv beta in H. apply andb_true_iff in H as [H1 H2]. by apply Z.eqb_eq in H1, H2.
Qed.

Lemma clamp_ok scalar : length scalar = 32%nat → Forall is_u8 scalar →
  Forall is_u8 (clamp scalar) ∧ le_num (clamp scalar) = decode_scalar (le_num scalar).
Proof.
  intros Hl Hb. destruct scalar as [|x r]; [done|]. destruct (exists_last (l := r)) as (m & y & ->); [by intros ->|].
  cbn [length] in Hl. rewrite length_app in Hl. cbn [length] in Hl. assert (length m = 30%nat) as Lm by lia.
  apply Forall_cons in Hb as [Hx Hb]. apply Forall_app in Hb as [Hm Hy]. apply Forall_cons in Hy as [Hy _].
  destruct (clamp_byte x Hx) as [Ex _]. destruct (clamp_byte y Hy) as [_ Ey]. unfold is_u8 in Hx, Hy.
  assert (clamp (x :: m ++ [y]) = 8 * (x / 8) :: m ++ [64 + y mod 64]) as ->.
  { rewrite <- Ex, <- Ey. unfold clamp. cbn [nth].
    assert (∀ u v w, <[31%nat := w]> (u :: m ++ [v]) = u :: m ++ [w]) as Hi.
    { intros. change (<[31%nat := w]> (u :: m ++ [v])) with (u :: <[30%nat := w]> (m ++ [v])). by rewrite <- Lm, insert_mid. }
    assert (∀ (u v : Z), nth 31 (u :: m ++ [v]) 0 = v) as Hn by (intros; cbn [nth]; rewrite <- Lm; apply nth_mid).
    change (<[0%nat := ?z]> (x :: m ++ [y])) with (z :: m ++ [y]). by rewrite Hn, Hi, Hn, Hi. }
  pose proof (Z.div_mod x 8 ltac:(lia)). pose proof (Z.mod_pos_bound x 8 ltac:(lia)).
  pose proof (Z.div_mod y 64 ltac:(lia)). pose proof (Z.mod_pos_bound y 64 ltac:(lia)).
  assert (y / 64 < 4) by (apply Z.div_lt_upper_bound; lia).
  split.
  - apply Forall_cons. split; [unfold is_u8; lia|]. apply Forall_app. split; [done|]. apply Forall_cons. split; [unfold is_u8; lia|done].
  - cbn [le_num]. rewrite !le_num_app, Lm. change (256 ^ Z.of_nat 30) with (2 ^ 240). cbn [le_num].
    pose proof (le_num_range m Hm) as Bm. rewrite Lm in Bm. change (256 ^ Z.of_nat 30) with (2 ^ 240) in Bm.
    unfold decode_scalar.
    assert ((x + 256 * (le_num m + 2 ^ 240 * (y + 256 * 0))) mod 2 ^ 254 = x + 256 * le_num m + 2 ^ 248 * (y mod 64)) as ->.
    { symmetry. apply Z.mod_unique_pos with (y / 64); lia. }
    assert ((x + 256 * le_num m + 2 ^ 248 * (y mod 64)) / 8 = x / 8 + 32 * le_num m + 2 ^ 245 * (y mod 64)) as ->.
    { symmetry. apply Z.div_unique_pos with (x mod 8); lia. }
    lia.
Qed.

(** ** The exchange *)

Lemma x25519_ok scalar point : length scalar = 32%nat → Forall is_u8 scalar → length point = 32%nat → Forall is_u8 point →
  x25519 scalar point = Ret (to_le 32 (x25519_ref (decode_scalar (le_num scalar)) (le_num point mod 2 ^ 255))).
Proof.
  intros Ls Hs Lp Hp. destruct (clamp_ok scalar Ls Hs) as [Hc <-]. destruct (unpack_ok point Lp Hp) as (Hd & Ld & Hv).
  unfold x25519. set (x := x25519_unpack point) in *. set (k := le_num (clamp scalar)). set (u := le_num point mod 2 ^ 255) in *.
  assert (rep x u) as Hx.
  { split; [split; [done|]|by rewrite Hv]. eapply within_weaken; [|by apply digits_within]. lia. }
  assert (rep one 1 ∧ rep (replicate 16 0) 0) as [H1 H0].
  { split; (split; [split; [done|]|done]); unfold one; repeat (apply Forall_cons; split; [lia|]); apply Forall_nil_2. }
  destruct (ladder_loop_ok (clamp scalar) k x u (rev (seq 0 255)) (mk_ladder one (replicate 16 0) x one 0) false ((1, 0), (u, 1)))
    as (s & sw & -> & Hr).
  { apply Forall_forall. intros pos _. by apply scalar_bit. } { by apply rep_loose. } { split; [done|]. cbn. auto. }
  cbn [obind]. pose proof (lrep_select s sw _ false Hr) as Hsel. change (Z.lxor (swap s) (Z.b2z false)) with (Z.lxor (swap s) 0) in Hsel.
  rewrite Z.lxor_0_r in Hsel. unfold x25519_ref. cbn [cswap] in Hsel. fold u.
  destruct (fold_left (ref_step u k) (rev (seq 0 255)) (1, 0, (u, 1))) as [[X2 Z2] [X3 Z3]].
  destruct Hsel as (a & c & d & e & -> & -> & Ha & Hz & _).
  destruct (invert_ok c Z2 Hz) as (z & -> & Hzi). cbn [obind].
  destruct (mul_rep _ _ _ _ (rep_loose _ _ Ha) (rep_loose _ _ Hzi)) as (o & -> & Ho). cbn [obind]. by apply pack_ok.
Qed.

(** C9. X25519: for every scalar and every point of 32 bytes the key exchange
    returns, no limb ever leaves the 64 bits, and the result is the
    little-endian u-coordinate that the ladder of RFC 7748 over the integers
    modulo 2^255 - 19 gives for the clamped scalar and the point without its
    top bit. *)
Theorem x25519_correct scalar point : length scalar = 32%nat → Forall is_u8 scalar → length point = 32%nat → Forall is_u8 point →
  x25519 scalar point = Ret (to_le 32 (x25519_ref (decode_scalar (le_num scalar)) (le_num point mod 2 ^ 255))).
Proof. apply x25519_ok. Qed.

Lemma x25519_correct_witness :
  x25519 (replicate 32 7) (9 :: replicate 31 0) = Ret (to_le 32 (x25519_ref (decode_scalar (le_num (replicate 32 7))) 9)).
Proof.
  apply (x25519_correct (replicate 32 7) (9 :: replicate 31 0)); try reflexivity.
  - repeat (apply Forall_cons; split; [unfold is_u8; lia|]). apply Forall_nil_2.
  - repeat (apply Forall_cons; split; [unfold is_u8; lia|]). apply Forall_nil_2.
Defined.
End x25519spec.
