(* ===== verification/Bytes.v ===== *)
(** * Buffers of bytes

    A buffer is the list of its bytes. [ld] reads a little-endian number and
    [blit] copies bytes into a buffer; both are [Undef] outside it. [rd] and
    [over] are the same without the test. *)

From S2P Require Import Prelude.

Open Scope c_scope.

(** The little-endian number of some bytes, and the bytes of a number. *)
Fixpoint num (l : list Z) : Z := match l with [] => 0 | b :: r => b + 256 * num r end.

Fixpoint lebytes (n : nat) (v : Z) : list Z :=
  match n with O => [] | S n => v mod 256 :: lebytes n (v / 256) end.

Definition rd (n : nat) (l : list Z) (off : Z) : Z := num (take n (drop (Z.to_nat off) l)).

Definition inside (off n : Z) (l : list Z) : bool := (0 <=? off) && (off + n <=? Z.of_nat (length l)).

Definition ld (n : nat) (l : list Z) (off : Z) : outcome Z :=
  if inside off (Z.of_nat n) l then Ret (rd n l off) else Undef.

Definition over (off : nat) (b l : list Z) : list Z := take off l ++ b ++ drop (off + length b) l.

Definition blit (off : Z) (b l : list Z) : outcome (list Z) :=
  if inside off (Z.of_nat (length b)) l then Ret (over (Z.to_nat off) b l) else Undef.

(** The bytes [off] to [off + n] of a buffer. *)
Definition slice (off n : Z) (l : list Z) : list Z := take (Z.to_nat n) (drop (Z.to_nat off) l).

Definition slice_of (off n : Z) (l : list Z) : outcome (list Z) :=
  if inside off n l then Ret (slice off n l) else Undef.

Lemma length_lebytes n v : length (lebytes n v) = n.
Proof. revert v. induction n as [|n IH]; intros v; [done|]. cbn [lebytes length]. by rewrite IH. Qed.

Lemma lebytes_u8 n v : Forall is_u8 (lebytes n v).
Proof.
  revert v. induction n as [|n IH]; intros v; [apply Forall_nil_2|]. cbn [lebytes].
  apply Forall_cons. split; [apply Z.mod_pos_bound; lia|done].
Qed.

Lemma num_range l : Forall is_u8 l → 0 ≤ num l < 256 ^ Z.of_nat (length l).
Proof.
  induction l as [|x l IH]; intros Hl; [done|]. apply Forall_cons in Hl as [Hx Hl]. specialize (IH Hl). unfold is_u8 in Hx.
  cbn [num length]. rewrite Nat2Z.inj_succ, Z.pow_succ_r by lia. lia.
Qed.

Lemma num_lebytes n v : 0 ≤ v < 256 ^ Z.of_nat n → num (lebytes n v) = v.
Proof.
  revert v. induction n as [|n IH]; intros v Hv; [cbn in *; lia|].
  rewrite Nat2Z.inj_succ, Z.pow_succ_r in Hv by lia. cbn [lebytes num]. rewrite IH.
  - pose proof (Z.div_mod v 256 ltac:(lia)). lia.
  - split; [apply Z.div_pos; lia|apply Z.div_lt_upper_bound; lia].
Qed.

Lemma inside_iff off n l : inside off n l = true ↔ 0 ≤ off ∧ off + n ≤ Z.of_nat (length l).
Proof. unfold inside. by rewrite andb_true_iff, !Z.leb_le. Qed.

Lemma ld_ok n l off : 0 ≤ off → off + Z.of_nat n ≤ Z.of_nat (length l) → ld n l off = Ret (rd n l off).
Proof. intros H1 H2. unfold ld. by rewrite (proj2 (inside_iff _ _ _)). Qed.

Lemma blit_ok off b l : 0 ≤ off → off + Z.of_nat (length b) ≤ Z.of_nat (length l) → blit off b l = Ret (over (Z.to_nat off) b l).
Proof. intros H1 H2. unfold blit. by rewrite (proj2 (inside_iff _ _ _)). Qed.

Lemma slice_of_ok off n l : 0 ≤ off → off + n ≤ Z.of_nat (length l) → slice_of off n l = Ret (slice off n l).
Proof. intros H1 H2. unfold slice_of. by rewrite (proj2 (inside_iff _ _ _)). Qed.

Lemma length_slice off n l : 0 ≤ off → 0 ≤ n → off + n ≤ Z.of_nat (length l) → Z.of_nat (length (slice off n l)) = n.
Proof. intros. unfold slice. rewrite length_take, length_drop. lia. Qed.

Lemma nth_slice off n l i : 0 ≤ off → 0 ≤ i < n → nth (Z.to_nat i) (slice off n l) 0 = nth (Z.to_nat (off + i)) l 0.
Proof.
  intros Ho Hi. unfold slice. rewrite !nth_lookup, lookup_take_lt, lookup_drop by lia. do 2 f_equal. lia.
Qed.

Lemma rd_range n l off : Forall is_u8 l → 0 ≤ rd n l off < 256 ^ Z.of_nat n.
Proof.
  intros Hl. unfold rd. pose proof (num_range (take n (drop (Z.to_nat off) l)) ltac:(by apply Forall_take, Forall_drop)) as H.
  rewrite length_take in H. split; [lia|]. eapply Z.lt_le_trans; [apply H|]. apply Z.pow_le_mono_r; lia.
Qed.

(** ** Overwriting *)

Lemma length_over off b l : (off + length b ≤ length l)%nat → length (over off b l) = length l.
Proof. intros H. unfold over. rewrite !length_app, length_take, length_drop. lia. Qed.

Lemma over_u8 off b l : Forall is_u8 b → Forall is_u8 l → Forall is_u8 (over off b l).
Proof. intros. unfold over. repeat (apply Forall_app; split); auto using Forall_take, Forall_drop. Qed.

Lemma nth_over off b l i : (off + length b ≤ length l)%nat →
  nth i (over off b l) 0 = if decide (off ≤ i < off + length b)%nat then nth (i - off) b 0 else nth i l 0.
Proof.
  intros H. unfold over. rewrite !nth_lookup. destruct (decide _) as [Hi|Hi].
  - rewrite lookup_app_r by (rewrite length_take; lia). rewrite length_take, Nat.min_l by lia.
    by rewrite lookup_app_l by lia.
  - destruct (decide (i < off)%nat).
    + by rewrite lookup_app_l, lookup_take_lt by (rewrite ?length_take; lia).
    + rewrite lookup_app_r by (rewrite length_take; lia). rewrite length_take, Nat.min_l by lia.
      rewrite lookup_app_r, lookup_drop by lia. do 2 f_equal. lia.
Qed.

(** Reading depends only on the bytes read. *)
Lemma rd_ext n l l' off : length l = length l' → 0 ≤ off →
  (∀ i, off ≤ i < off + Z.of_nat n → nth (Z.to_nat i) l 0 = nth (Z.to_nat i) l' 0) → rd n l off = rd n l' off.
Proof.
  intros Hl Ho Hi. unfold rd. f_equal. apply list_eq. intros k. destruct (decide (k < n)%nat); [|by rewrite !lookup_take_ge by lia].
  rewrite !lookup_take_lt, !lookup_drop by lia. specialize (Hi (off + Z.of_nat k) ltac:(lia)).
  replace (Z.to_nat (off + Z.of_nat k)) with (Z.to_nat off + k)%nat in Hi by lia.
  rewrite !nth_lookup in Hi. destruct (decide (Z.to_nat off + k < length l)%nat) as [Hk|Hk].
  - destruct (lookup_lt_is_Some_2 l _ Hk) as [x Hx]. rewrite Hl in Hk. destruct (lookup_lt_is_Some_2 l' _ Hk) as [y Hy].
    rewrite Hx, Hy in *. cbn in Hi. by subst.
  - rewrite !lookup_ge_None_2 by lia. done.
Qed.

(** Reading back what was written. *)
Lemma rd_over_same n v l off : (off + n ≤ length l)%nat → 0 ≤ v < 256 ^ Z.of_nat n →
  rd n (over off (lebytes n v) l) (Z.of_nat off) = v.
Proof.
  intros H Hv. unfold rd, over. rewrite Nat2Z.id, drop_app_length' by (rewrite length_take; lia).
  rewrite take_app_length' by (by rewrite length_lebytes). by apply num_lebytes.
Qed.

Lemma rd_over_other n b l off o : (off + length b ≤ length l)%nat → 0 ≤ o →
  o + Z.of_nat n ≤ Z.of_nat off ∨ Z.of_nat (off + length b) ≤ o → rd n (over off b l) o = rd n l o.
Proof.
  intros H Ho Hd. apply rd_ext; [by apply length_over|done|]. intros i Hi. rewrite nth_over by done.
  destruct (decide _); [lia|done].
Qed.
