(* ===== verification/Elf.v ===== *)
(** * The ELF loader ([src/impl/loader/elfloader.c])

    A file is the list of its bytes in a buffer that the loader owns and gives
    back; the image is a second buffer. Every access to either is checked
    ([Undef] outside). Addresses and offsets are 64-bit and wrap. The packed
    structures of [elfloader.h] are read at their field offsets. [mem_env]
    says what the two allocators answer; what is given back to them is the
    list [freed]. Buffers and results passed in are not NULL. Serial output is
    left out. The function nested in [elf_register_page_buffer] is never
    called. *)

From S2P Require Import Prelude Bytes.

Open Scope c_scope.

Module elf.

Definition ELF_MAX_FILE_SIZE : Z := 16 * 1024 * 1024.
Definition ELF_MAX_PHNUM : Z := 64.
Definition ELF_MAX_IMAGE_SIZE : Z := 64 * 1024 * 1024.
Definition ELF_PAGE_BUFFER_SLOTS : nat := 4.

Definition sizeof_Ehdr : Z := 64.
Definition sizeof_Phdr : Z := 56.
Definition sizeof_Dyn : Z := 16.
Definition sizeof_Rela : Z := 24.

Definition ELFCLASS64 : Z := 2.
Definition ELFDATA2LSB : Z := 1.
Definition ET_EXEC : Z := 2.
Definition ET_DYN : Z := 3.
Definition EM_X86_64 : Z := 62.
Definition PT_LOAD : Z := 1.
Definition PT_DYNAMIC : Z := 2.
Definition DT_NULL : Z := 0.
Definition DT_RELA : Z := 7.
Definition DT_RELASZ : Z := 8.
Definition DT_RELAENT : Z := 9.
Definition R_X86_64_RELATIVE : Z := 8.

(** ** State *)

(** What goes back to an allocator. *)
Inductive release := FreeMem (a : Z) | FreePages (a : Z) (n : Z).

Record loader := mk_loader { page_buffers : list (Z * Z); freed : list release }.

Definition set_slots (l : list (Z * Z)) (s : loader) : loader := mk_loader l (freed s).
Definition log (r : release) (s : loader) : loader := mk_loader (page_buffers s) (freed s ++ [r]).

Record elf_loaded_image := mk_image {
  entry_point : Z; base : Z; image_size : Z; page_backed : bool; page_count : Z
}.
Definition no_image : elf_loaded_image := mk_image 0 0 0 false 0.

(** The answers of [alloc] and [alloc_pages_zeroed], 0 when they fail. *)
Record mem_env := mk_env { heap_at : Z → Z; pages_at : Z → Z }.

(** The first slot whose buffer is [a]. *)
Fixpoint slot_of (a : Z) (l : list (Z * Z)) : option nat :=
  match l with
  | [] => None
  | (b, _) :: l => if b =? a then Some O else option_map S (slot_of a l)
  end.

Definition elf_register_page_buffer (buffer pages : Z) (s : loader) : bool * loader :=
  if (buffer =? 0) || (pages =? 0) then (false, s)
  else match slot_of 0 (page_buffers s) with
       | Some i => (true, set_slots (<[i := (buffer, pages)]> (page_buffers s)) s)
       | None => (false, s)
       end.

Definition elf_release_file_buffer (buffer : Z) (s : loader) : loader :=
  match slot_of buffer (page_buffers s) with
  | Some i => set_slots (<[i := (0, 0)]> (page_buffers s))
                (log (FreePages buffer (nth i (page_buffers s) (0, 0)).2) s)
  | None => log (FreeMem buffer) s
  end.

(** ** The header and the program headers *)

Definition e_ident (f : list Z) : outcome (list Z) := slice_of 0 16 f.
Definition e_type (f : list Z) : outcome Z := ld 2 f 16.
Definition e_machine (f : list Z) : outcome Z := ld 2 f 18.
Definition e_entry (f : list Z) : outcome Z := ld 8 f 24.
Definition e_phoff (f : list Z) : outcome Z := ld 8 f 32.
Definition e_phnum (f : list Z) : outcome Z := ld 2 f 56.

Record Elf64_Phdr := mk_phdr {
  p_type : Z; p_offset : Z; p_vaddr : Z; p_filesz : Z; p_memsz : Z
}.

(** The fields of [phdrs[i]] that the loader reads. *)
Definition phdr_at (f : list Z) (phoff i : Z) : outcome Elf64_Phdr :=
  let o := u64 (phoff + i * sizeof_Phdr) in
  let* t := ld 4 f o in
  let* off := ld 8 f (o + 8) in
  let* va := ld 8 f (o + 16) in
  let* fs := ld 8 f (o + 32) in
  let* ms := ld 8 f (o + 40) in
  Ret (mk_phdr t off va fs ms).

(** The span of the image and the last PT_DYNAMIC header, or a refusal. *)
Fixpoint scan_segments (l : list Z) (f : list Z) (phoff file_size image_end : Z) (dyn : option Elf64_Phdr) :
    outcome (option (Z * option Elf64_Phdr)) :=
  match l with
  | [] => Ret (Some (image_end, dyn))
  | i :: l =>
      let* ph := phdr_at f phoff i in
      if p_type ph =? PT_DYNAMIC then scan_segments l f phoff file_size image_end (Some ph)
      else if negb (p_type ph =? PT_LOAD) then scan_segments l f phoff file_size image_end dyn
      else if p_memsz ph <? p_filesz ph then Ret None
      else if file_size <? u64 (p_offset ph + p_filesz ph) then Ret None
      else
        let seg_end := u64 (p_vaddr ph + p_memsz ph) in
        if seg_end <? p_vaddr ph then Ret None
        else scan_segments l f phoff file_size (if image_end <? seg_end then seg_end else image_end) dyn
  end.

(** [memcpy(base + p_vaddr, filebuf + p_offset, p_filesz)] for each segment. *)
Fixpoint copy_segments (l : list Z) (f : list Z) (phoff : Z) (mem : list Z) : outcome (list Z) :=
  match l with
  | [] => Ret mem
  | i :: l =>
      let* ph := phdr_at f phoff i in
      if negb (p_type ph =? PT_LOAD) || (p_filesz ph =? 0) then copy_segments l f phoff mem
      else
        let* b := slice_of (p_offset ph) (p_filesz ph) f in
        let* mem := blit (p_vaddr ph) b mem in
        copy_segments l f phoff mem
  end.

(** ** Relocation *)

Record dyn_info := mk_dyn { rela_off : Z; rela_size : Z; rela_ent : Z }.

Fixpoint dyn_loop (fuel : nat) (mem : list Z) (d i dyn_count : Z) (r : dyn_info) : outcome dyn_info :=
  match fuel with
  | O => Hang
  | S fuel =>
      if i <? dyn_count then
        let* tag := ld 8 mem (u64 (d + i * sizeof_Dyn)) in
        if tag =? DT_NULL then Ret r
        else
          let d_val := ld 8 mem (u64 (d + i * sizeof_Dyn + 8)) in
          let* r := (if tag =? DT_RELA then let* v := d_val in Ret (mk_dyn v (rela_size r) (rela_ent r))
                     else if tag =? DT_RELASZ then let* v := d_val in Ret (mk_dyn (rela_off r) v (rela_ent r))
                     else if tag =? DT_RELAENT then let* v := d_val in Ret (mk_dyn (rela_off r) (rela_size r) v)
                     else Ret r) in
          dyn_loop fuel mem d (i + 1) dyn_count r
      else Ret r
  end.

(** One entry at [o]: its slot gets the runtime address. *)
Definition apply_rela (mem : list Z) (runtime_base o : Z) : outcome (list Z) :=
  let* info := ld 8 mem (u64 (o + 8)) in
  if Z.land info 0xffffffff =? R_X86_64_RELATIVE then
    let* off := ld 8 mem o in
    let* addend := ld 8 mem (u64 (o + 16)) in
    blit off (lebytes 8 (u64 (runtime_base + addend))) mem
  else Ret mem.

Fixpoint rela_loop (fuel : nat) (mem : list Z) (runtime_base off ent i count : Z) : outcome (list Z) :=
  match fuel with
  | O => Hang
  | S fuel =>
      if i <? count then
        let* mem := apply_rela mem runtime_base (u64 (off + i * ent)) in
        rela_loop fuel mem runtime_base off ent (i + 1) count
      else Ret mem
  end.

Definition relocate (mem : list Z) (runtime_base image_end : Z) (ph : Elf64_Phdr) : outcome (list Z) :=
  let fuel := S (length mem) in
  let* r := dyn_loop fuel mem (p_vaddr ph) 0 (p_memsz ph / sizeof_Dyn) (mk_dyn 0 0 sizeof_Rela) in
  if negb (rela_off r =? 0) && negb (rela_size r =? 0) && (sizeof_Rela <=? rela_ent r) &&
     (u64 (rela_off r + rela_size r) <=? image_end)
  then rela_loop fuel mem runtime_base (rela_off r) (rela_ent r) 0 (rela_size r / rela_ent r)
  else Ret mem.

(** ** Loading *)

(** The program header table, [0 .. phnum - 1]. *)
Definition indices (n : Z) : list Z := Z.of_nat <$> seq 0 (Z.to_nat n).

(** [bad] and [good] are the two ways out; on each the file buffer goes
    back. The result is the function's value, [*out], the image's memory and
    the allocators' state. *)
Definition elf_load_buffer_at (M : mem_env) (filebuf : Z) (f : list Z) (load_address : Z) (s : loader) :
    outcome (bool * elf_loaded_image * list Z * loader) :=
  let file_size := Z.of_nat (length f) in
  let bad := Ret (false, no_image, [], elf_release_file_buffer filebuf s) in
  if (file_size <? sizeof_Ehdr) || (ELF_MAX_FILE_SIZE <? file_size) then bad
  else
    let* ident := e_ident f in
    if bool_decide (take 4 ident ≠ 127 :: txt "ELF") || negb (nth 4 ident 0 =? ELFCLASS64) ||
       negb (nth 5 ident 0 =? ELFDATA2LSB) then bad
    else
      let* machine := e_machine f in
      if negb (machine =? EM_X86_64) then bad
      else
        let* type := e_type f in
        if negb (type =? ET_EXEC) && negb (type =? ET_DYN) then bad
        else
          let* phnum := e_phnum f in
          if (phnum =? 0) || (ELF_MAX_PHNUM <? phnum) then bad
          else
            let* phoff := e_phoff f in
            if file_size <? u64 (phoff + phnum * sizeof_Phdr) then bad
            else
              let* entry_offset := e_entry f in
              let* r := scan_segments (indices phnum) f phoff file_size 0 None in
              match r with
              | None => bad
              | Some (image_end, dynamic_ph) =>
                  if (image_end =? 0) || (ELF_MAX_IMAGE_SIZE <? image_end) then bad
                  else if image_end <=? entry_offset then bad
                  else
                    let pages := (image_end + 0xfff) / 0x1000 in
                    let on_heap := negb (heap_at M image_end =? 0) in
                    let b := if on_heap then heap_at M image_end else pages_at M pages in
                    if b =? 0 then bad
                    else
                      let mem := replicate (Z.to_nat (if on_heap then image_end else pages * 0x1000)) 0 in
                      let runtime_base := if load_address =? 0 then b else load_address in
                      let* mem := copy_segments (indices phnum) f phoff mem in
                      let* mem := match dynamic_ph with
                                  | Some ph => relocate mem runtime_base image_end ph
                                  | None => Ret mem
                                  end in
                      Ret (true,
                           mk_image (u64 (runtime_base + entry_offset)) b image_end (negb on_heap) (if on_heap then 0 else pages),
                           mem, elf_release_file_buffer filebuf s)
              end.

Definition elf_load_buffer (M : mem_env) (filebuf : Z) (f : list Z) (s : loader) :=
  elf_load_buffer_at M filebuf f 0 s.

Definition elf_unload (image : elf_loaded_image) (s : loader) : elf_loaded_image * loader :=
  if base image =? 0 then (image, s)
  else (no_image, log (if page_backed image then FreePages (base image) (page_count image) else FreeMem (base image)) s).
End elf.
