(* ===== verification/ElfSpec.v ===== *)
(** * What the ELF loader promises

    The reference reads a file without loops over memory: the segments are the
    program headers, a byte of the image is the byte of the last segment whose
    file part covers it and 0 otherwise, and a relocated slot holds the
    runtime base plus the addend. [tame] says that the offsets in the file do
    not wrap around 2^64, [relocatable] that the dynamic section, the table it
    names and the slots lie in the image; the code tests neither. *)

From S2P Require Import Prelude Bytes Elf.

Open Scope c_scope.

Module elfspec.
Import elf.

(** ** The reference *)

Definition phnum (f : list Z) : Z := rd 2 f 56.
Definition phoff (f : list Z) : Z := rd 8 f 32.
Definition entry (f : list Z) : Z := rd 8 f 24.
Definition file_size (f : list Z) : Z := Z.of_nat (length f).

Definition phdr (f : list Z) (i : Z) : Elf64_Phdr :=
  let o := phoff f + i * sizeof_Phdr in
  mk_phdr (rd 4 f o) (rd 8 f (o + 8)) (rd 8 f (o + 16)) (rd 8 f (o + 32)) (rd 8 f (o + 40)).

Definition phdrs (f : list Z) : list Elf64_Phdr := phdr f <$> indices (phnum f).
Definition is_load (ph : Elf64_Phdr) : bool := p_type ph =? PT_LOAD.

(** The end of the image and the dynamic segment. *)
Definition span (phs : list Elf64_Phdr) : Z :=
  fold_left (λ e ph, if is_load ph then Z.max e (p_vaddr ph + p_memsz ph) else e) phs 0.
Definition dynamic (phs : list Elf64_Phdr) : option Elf64_Phdr :=
  fold_left (λ d ph, if p_type ph =? PT_DYNAMIC then Some ph else d) phs None.

Definition header_good (f : list Z) : bool :=
  (sizeof_Ehdr <=? file_size f) && (file_size f <=? ELF_MAX_FILE_SIZE) &&
  bool_decide (slice 0 4 f = 127 :: txt "ELF") && (nth 4 f 0 =? ELFCLASS64) && (nth 5 f 0 =? ELFDATA2LSB) &&
  (rd 2 f 18 =? EM_X86_64) && ((rd 2 f 16 =? ET_EXEC) || (rd 2 f 16 =? ET_DYN)) &&
  (1 <=? phnum f) && (phnum f <=? ELF_MAX_PHNUM) && (phoff f + phnum f * sizeof_Phdr <=? file_size f).

Definition segment_good (f : list Z) (ph : Elf64_Phdr) : bool :=
  negb (is_load ph) ||
  (p_filesz ph <=? p_memsz ph) && (p_offset ph + p_filesz ph <=? file_size f) && (p_vaddr ph + p_memsz ph <? 2 ^ 64).

(** The files the loader takes. *)
Definition accepts (f : list Z) : bool :=
  header_good f && forallb (segment_good f) (phdrs f) &&
  (0 <? span (phdrs f)) && (span (phdrs f) <=? ELF_MAX_IMAGE_SIZE) && (entry f <? span (phdrs f)).

Definition tame (f : list Z) : Prop :=
  phoff f + phnum f * sizeof_Phdr < 2 ^ 64 ∧ Forall (λ ph, p_offset ph + p_filesz ph < 2 ^ 64) (phdrs f).

(** The byte at [o] of the image before relocation. *)
Definition segment_byte (f : list Z) (phs : list Elf64_Phdr) (o : Z) : Z :=
  fold_left (λ b ph, if is_load ph && (p_vaddr ph <=? o) && (o <? p_vaddr ph + p_filesz ph)
                     then nth (Z.to_nat (p_offset ph + (o - p_vaddr ph))) f 0 else b) phs 0.
Definition loaded (f : list Z) (phs : list Elf64_Phdr) (size : Z) : list Z := segment_byte f phs <$> indices size.

(** The entries of a dynamic section up to DT_NULL. *)
Fixpoint dyn_entries (n : nat) (mem : list Z) (d : Z) : list (Z * Z) :=
  match n with
  | O => []
  | S n => if rd 8 mem d =? DT_NULL then [] else (rd 8 mem d, rd 8 mem (d + 8)) :: dyn_entries n mem (d + sizeof_Dyn)
  end.

Definition dyn_value (tag default : Z) (l : list (Z * Z)) : Z := fold_left (λ v e, if e.1 =? tag then e.2 else v) l default.

(** The relocation table: where it is, how many entries of which size. *)
Definition rela_table (mem : list Z) (image_end : Z) (ph : Elf64_Phdr) : Z * Z * Z :=
  let l := dyn_entries (Z.to_nat (p_memsz ph / sizeof_Dyn)) mem (p_vaddr ph) in
  let off := dyn_value DT_RELA 0 l in
  let size := dyn_value DT_RELASZ 0 l in
  let ent := dyn_value DT_RELAENT sizeof_Rela l in
  if (0 <? off) && (0 <? size) && (sizeof_Rela <=? ent) && (off + size <=? image_end) then (off, ent, size / ent)
  else (0, sizeof_Rela, 0).

(** Slot and value of the relative relocations of the table. *)
Definition relocations (mem : list Z) (runtime_base : Z) (t : Z * Z * Z) : list (Z * Z) :=
  let '(off, ent, count) := t in
  (λ i, let o := off + i * ent in (rd 8 mem o, u64 (runtime_base + rd 8 mem (o + 16)))) <$>
  filter (λ i, rd 8 mem (off + i * ent + 8) mod 2 ^ 32 = R_X86_64_RELATIVE) (indices count).

Definition relocated_byte (relocs : list (Z * Z)) (o b : Z) : Z :=
  fold_left (λ b r, if (r.1 <=? o) && (o <? r.1 + 8) then nth (Z.to_nat (o - r.1)) (lebytes 8 r.2) 0 else b) relocs b.

(** The relocations of a loaded image. *)
Definition image_relocs (mem : list Z) (runtime_base image_end : Z) (dyn : option Elf64_Phdr) : list (Z * Z) :=
  match dyn with Some ph => relocations mem runtime_base (rela_table mem image_end ph) | None => [] end.

Definition relocatable (mem : list Z) (runtime_base image_end : Z) (dyn : option Elf64_Phdr) : Prop :=
  match dyn with
  | None => True
  | Some ph =>
      p_vaddr ph + p_memsz ph ≤ image_end ∧
      (let l := dyn_entries (Z.to_nat (p_memsz ph / sizeof_Dyn)) mem (p_vaddr ph) in
       dyn_value DT_RELA 0 l + dyn_value DT_RELASZ 0 l < 2 ^ 64) ∧
      let '(off, ent, count) := rela_table mem image_end ph in
      Forall (λ r : Z * Z, r.1 + 8 ≤ image_end ∧ (r.1 + 8 ≤ off ∨ off + count * ent ≤ r.1)) (image_relocs mem runtime_base image_end dyn)
  end.

(** The image of a file at [runtime_base], of [size] bytes. *)
Definition image_of (f : list Z) (runtime_base size : Z) : list Z :=
  let mem := loaded f (phdrs f) size in
  (λ o, relocated_byte (image_relocs mem runtime_base (span (phdrs f)) (dynamic (phdrs f))) o (nth (Z.to_nat o) mem 0)) <$> indices size.

(** ** Reading the headers *)

Section file.
  Context (f : list Z) (Hf : Forall is_u8 f).

Lemma rd64 l o : Forall is_u8 l → 0 ≤ rd 8 l o < 2 ^ 64.
Proof. intros Hl. apply (rd_range 8 l o Hl). Qed.

Lemma phdr_at_ok i : 0 ≤ i → phoff f + (i + 1) * sizeof_Phdr ≤ file_size f → file_size f < 2 ^ 64 →
  phdr_at f (phoff f) i = Ret (phdr f i).
Proof.
  intros Hi Hl Hs. unfold phdr_at, phdr, file_size, sizeof_Phdr in *. pose proof (rd64 f 32 Hf) as Hp. fold (phoff f) in Hp.
  rewrite u64_small by (unfold is_u64; lia).
  repeat (rewrite ld_ok by lia; cbn [obind]). done.
Qed.

Lemma phdr_fields ph : ph ∈ phdrs f → 0 ≤ p_offset ph < 2 ^ 64 ∧ 0 ≤ p_vaddr ph < 2 ^ 64 ∧ 0 ≤ p_filesz ph < 2 ^ 64 ∧ 0 ≤ p_memsz ph < 2 ^ 64.
Proof. unfold phdrs. intros H. apply list_elem_of_fmap in H as (i & -> & _). unfold phdr. cbn. repeat split; apply rd64; done. Qed.

Lemma elem_indices i n : i ∈ indices n ↔ 0 ≤ i < n.
Proof.
  unfold indices. rewrite list_elem_of_fmap. split.
  - intros (k & -> & Hk). apply elem_of_seq in Hk. lia.
  - intros Hi. exists (Z.to_nat i). split; [lia|]. apply elem_of_seq. lia.
Qed.

Definition readable (i : Z) : Prop :=
  phdr_at f (phoff f) i = Ret (phdr f i) ∧ p_offset (phdr f i) + p_filesz (phdr f i) < 2 ^ 64 ∧
  0 ≤ p_offset (phdr f i) ∧ 0 ≤ p_vaddr (phdr f i) < 2 ^ 64 ∧ 0 ≤ p_filesz (phdr f i) ∧ 0 ≤ p_memsz (phdr f i) < 2 ^ 64.

Lemma all_readable : tame f → phoff f + phnum f * sizeof_Phdr ≤ file_size f → file_size f < 2 ^ 64 → Forall readable (indices (phnum f)).
Proof.
  intros [_ Ht] Hl Hs. apply Forall_forall. intros i Hi.
  assert (phdr f i ∈ phdrs f) as Hp by (apply list_elem_of_fmap; eauto).
  destruct (phdr_fields _ Hp) as (H1 & H2 & H3 & H4). apply elem_indices in Hi.
  rewrite Forall_forall in Ht. specialize (Ht _ Hp). unfold sizeof_Phdr in Hl.
  split; [apply phdr_at_ok; unfold sizeof_Phdr; lia|]. repeat split; lia.
Qed.

Lemma scan_ok l : ∀ e d, Forall readable l → 0 ≤ e →
  scan_segments l f (phoff f) (file_size f) e d =
  Ret (if forallb (segment_good f) (phdr f <$> l)
       then Some (fold_left (λ e ph, if is_load ph then Z.max e (p_vaddr ph + p_memsz ph) else e) (phdr f <$> l) e,
                  fold_left (λ d ph, if p_type ph =? PT_DYNAMIC then Some ph else d) (phdr f <$> l) d)
       else None).
Proof.
  induction l as [|i l IH]; intros e d Hl He; [done|]. apply Forall_cons in Hl as [(Hi & H1 & H2 & H3 & H4 & H5) Hl].
  cbn [scan_segments]. rewrite Hi. cbn [obind]. rewrite fmap_cons. cbn [forallb fold_left].
  set (ph := phdr f i) in *. unfold segment_good at 1, is_load at 1.
  destruct (Z.eqb_spec (p_type ph) PT_DYNAMIC) as [Ed|Ed].
  { rewrite IH by done. unfold is_load. rewrite Ed. done. }
  destruct (p_type ph =? PT_LOAD) eqn:El; cbn [negb orb]; [|rewrite IH by done; unfold is_load; by rewrite El].
  rewrite u64_small by (unfold is_u64; lia).
  destruct (Z.ltb_spec (p_memsz ph) (p_filesz ph)) as [Hm|Hm]; [by rewrite (proj2 (Z.leb_gt _ _))|].
  rewrite (proj2 (Z.leb_le (p_filesz ph) _)) by done. cbn [andb].
  destruct (Z.ltb_spec (file_size f) (p_offset ph + p_filesz ph)) as [Ho|Ho]; [by rewrite (proj2 (Z.leb_gt _ _))|].
  rewrite (proj2 (Z.leb_le _ (file_size f))) by done. cbn [andb].
  destruct (Z.ltb_spec (p_vaddr ph + p_memsz ph) (2 ^ 64)) as [Hv|Hv]; cbn [andb].
  - rewrite u64_small by (unfold is_u64; lia). rewrite (proj2 (Z.ltb_ge _ (p_vaddr ph))) by lia.
    rewrite IH by (done || (case_if; lia)). unfold is_load. rewrite El.
    replace (if e <? p_vaddr ph + p_memsz ph then p_vaddr ph + p_memsz ph else e) with (Z.max e (p_vaddr ph + p_memsz ph)); [done|].
    destruct (Z.ltb_spec e (p_vaddr ph + p_memsz ph)); lia.
  - assert (u64 (p_vaddr ph + p_memsz ph) = p_vaddr ph + p_memsz ph - 2 ^ 64) as -> by
      (unfold u64; change 18446744073709551616 with (2 ^ 64); symmetry; apply Z.mod_unique_pos with 1; lia).
    by rewrite (proj2 (Z.ltb_lt _ _)) by lia.
Qed.

(** ** Copying the segments *)

Definition seg_step (o b : Z) (ph : Elf64_Phdr) : Z :=
  if is_load ph && (p_vaddr ph <=? o) && (o <? p_vaddr ph + p_filesz ph)
  then nth (Z.to_nat (p_offset ph + (o - p_vaddr ph))) f 0 else b.

Lemma copy_ok l : ∀ mem, Forall readable l → forallb (segment_good f) (phdr f <$> l) = true →
  Forall (λ i, is_load (phdr f i) = true → p_vaddr (phdr f i) + p_memsz (phdr f i) ≤ Z.of_nat (length mem)) l →
  ∃ mem', copy_segments l f (phoff f) mem = Ret mem' ∧ length mem' = length mem ∧
    ∀ o, 0 ≤ o → nth (Z.to_nat o) mem' 0 = fold_left (seg_step o) (phdr f <$> l) (nth (Z.to_nat o) mem 0).
Proof.
  induction l as [|i l IH]; intros mem Hl Hg Hs; [by exists mem|]. apply Forall_cons in Hl as [(Hi & H1 & H2 & H3 & H4 & H5) Hl].
  rewrite fmap_cons in Hg |- *. cbn [forallb] in Hg. apply andb_true_iff in Hg as [Hgi Hg]. apply Forall_cons in Hs as [Hsi Hs].
  cbn [copy_segments fold_left]. rewrite Hi. cbn [obind]. set (ph := phdr f i) in *.
  assert (∀ o, 0 ≤ o → is_load ph && (0 <? p_filesz ph) = false → ∀ b, seg_step o b ph = b) as Hskip.
  { intros o Ho E b. unfold seg_step. destruct (is_load ph); [|done]. cbn [andb] in *. apply Z.ltb_ge in E.
    destruct (Z.leb_spec (p_vaddr ph) o), (Z.ltb_spec o (p_vaddr ph + p_filesz ph)); try done; lia. }
  destruct (negb (p_type ph =? PT_LOAD) || (p_filesz ph =? 0)) eqn:Esk.
  { destruct (IH mem Hl Hg Hs) as (mem' & E & Lm & Hn). exists mem'. split; [done|]. split; [done|]. intros o Ho.
    rewrite Hn by done. rewrite Hskip; [done|done|]. unfold is_load. apply orb_true_iff in Esk as [Esk|Esk].
    - apply negb_true_iff in Esk. by rewrite Esk.
    - apply Z.eqb_eq in Esk. rewrite Esk, andb_comm. done. }
  apply orb_false_iff in Esk as [El Ef]. apply negb_false_iff in El. apply Z.eqb_neq in Ef.
  unfold segment_good, is_load in Hgi, Hsi. rewrite El in Hgi, Hsi. cbn [negb orb] in Hgi. specialize (Hsi eq_refl).
  apply andb_true_iff in Hgi as [Hgi _]. apply andb_true_iff in Hgi as [Hm Ho]. apply Z.leb_le in Hm, Ho.
  rewrite slice_of_ok by (unfold file_size in *; lia). cbn [obind].
  pose proof (length_slice (p_offset ph) (p_filesz ph) f H2 H4 Ho) as Lsl.
  rewrite blit_ok by lia. cbn [obind].
  assert (Z.to_nat (p_vaddr ph) + length (slice (p_offset ph) (p_filesz ph) f) ≤ length mem)%nat as Hin by lia.
  destruct (IH (over (Z.to_nat (p_vaddr ph)) (slice (p_offset ph) (p_filesz ph) f) mem) Hl Hg) as (mem' & E & Lm & Hn).
  { by rewrite length_over. }
  rewrite length_over in Lm by done. exists mem'. split; [done|]. split; [done|]. intros o Hoo. rewrite Hn by done. f_equal.
  rewrite nth_over by done. unfold seg_step, is_load. rewrite El. cbn [andb].
  destruct (decide _) as [Hd|Hd].
  - rewrite (proj2 (Z.leb_le _ _)), (proj2 (Z.ltb_lt _ _)) by lia. cbn [andb].
    replace (Z.to_nat o - Z.to_nat (p_vaddr ph))%nat with (Z.to_nat (o - p_vaddr ph)) by lia.
    rewrite nth_slice by lia. done.
  - destruct (Z.leb_spec (p_vaddr ph) o), (Z.ltb_spec o (p_vaddr ph + p_filesz ph)); try done; lia.
Qed.
End file.

(** ** Relocating *)

Section memory.
  Context (mem0 : list Z) (Hmem : Forall is_u8 mem0) (Hsize : Z.of_nat (length mem0) < 2 ^ 63).

Lemma dyn_ok d cnt n : ∀ fuel i r, cnt = i + Z.of_nat n → (n < fuel)%nat → 0 ≤ i → 0 ≤ d →
  d + cnt * sizeof_Dyn ≤ Z.of_nat (length mem0) →
  let l := dyn_entries n mem0 (d + i * sizeof_Dyn) in
  dyn_loop fuel mem0 d i cnt r =
  Ret (mk_dyn (dyn_value DT_RELA (rela_off r) l) (dyn_value DT_RELASZ (rela_size r) l) (dyn_value DT_RELAENT (rela_ent r) l)).
Proof.
  unfold sizeof_Dyn. induction n as [|n IH]; intros fuel i r Hc Hfu Hi Hd Hl; cbv zeta; (destruct fuel as [|fuel]; [lia|]); cbn [dyn_loop].
  - rewrite (proj2 (Z.ltb_ge _ _)) by lia. by destruct r.
  - rewrite (proj2 (Z.ltb_lt _ _)) by lia. unfold sizeof_Dyn. rewrite !u64_small by (unfold is_u64; lia).
    rewrite !ld_ok by lia. cbn [obind]. cbn [dyn_entries]. destruct (rd 8 mem0 (d + i * 16) =? DT_NULL); [by destruct r|].
    set (e := (rd 8 mem0 (d + i * 16), rd 8 mem0 (d + i * 16 + 8))). unfold dyn_value in *. cbn [fold_left].
    replace (d + i * 16 + sizeof_Dyn) with (d + (i + 1) * 16) by (unfold sizeof_Dyn; lia).
    assert (e.1 = rd 8 mem0 (d + i * 16)) as E1 by done. rewrite !E1.
    set (tag := rd 8 mem0 (d + i * 16)).
    destruct (Z.eqb_spec tag DT_RELA) as [Et|_]; [rewrite Et|
      destruct (Z.eqb_spec tag DT_RELASZ) as [Et|_]; [rewrite ?Et|destruct (Z.eqb_spec tag DT_RELAENT)]];
      cbn [obind]; rewrite (IH fuel (i + 1)) by lia; done.
Qed.

(** The relocations among the entries [l] of a table. *)
Definition relocs_in (rb off ent : Z) (l : list Z) : list (Z * Z) :=
  (λ i, let o := off + i * ent in (rd 8 mem0 o, u64 (rb + rd 8 mem0 (o + 16)))) <$>
  filter (λ i, rd 8 mem0 (off + i * ent + 8) mod 2 ^ 32 = R_X86_64_RELATIVE) l.

Lemma rela_ok rb off ent count n : ∀ fuel i mem, count = i + Z.of_nat n → (n < fuel)%nat → 0 ≤ i → 0 ≤ off → sizeof_Rela ≤ ent →
  off + count * ent ≤ Z.of_nat (length mem0) → length mem = length mem0 →
  (∀ o, off ≤ o < off + count * ent → nth (Z.to_nat o) mem 0 = nth (Z.to_nat o) mem0 0) →
  Forall (λ r : Z * Z, r.1 + 8 ≤ Z.of_nat (length mem0) ∧ (r.1 + 8 ≤ off ∨ off + count * ent ≤ r.1))
    (relocs_in rb off ent (Z.of_nat <$> seq (Z.to_nat i) n)) →
  ∃ mem', rela_loop fuel mem rb off ent i count = Ret mem' ∧ length mem' = length mem0 ∧
    ∀ o, 0 ≤ o → nth (Z.to_nat o) mem' 0 =
      relocated_byte (relocs_in rb off ent (Z.of_nat <$> seq (Z.to_nat i) n)) o (nth (Z.to_nat o) mem 0).
Proof.
  unfold sizeof_Rela. induction n as [|n IH]; intros fuel i mem Hc Hfu Hi Ho He Hl Hm Hag Hr; (destruct fuel as [|fuel]; [lia|]);
    cbn [rela_loop].
  - rewrite (proj2 (Z.ltb_ge _ _)) by lia. exists mem. split; [done|]. split; [done|]. done.
  - rewrite (proj2 (Z.ltb_lt _ _)) by lia. cbn [seq] in Hr |- *. rewrite fmap_cons, Z2Nat.id in Hr |- * by lia.
    replace (S (Z.to_nat i)) with (Z.to_nat (i + 1)) in Hr |- * by lia.
    assert (0 ≤ i * ent ∧ off + i * ent + ent ≤ off + count * ent) as [Hi1 Hi2] by nia.
    assert (∀ k, 0 ≤ k ≤ 16 → rd 8 mem (off + i * ent + k) = rd 8 mem0 (off + i * ent + k)) as Hrd.
    { intros k Hk. apply rd_ext; [done|lia|]. intros o Hoo. apply Hag. lia. }
    pose proof (Hrd 0 ltac:(lia)) as Hrd0. rewrite Z.add_0_r in Hrd0.
    unfold apply_rela. rewrite (u64_small (off + i * ent)), (u64_small (off + i * ent + 8)), (u64_small (off + i * ent + 16)) by (unfold is_u64; lia).
    rewrite !ld_ok by (rewrite ?Hm; lia). cbn [obind]. rewrite Hrd0, !Hrd by lia.
    change 0xffffffff with (2 ^ 32 - 1). rewrite land_ones_mod by lia.
    unfold relocs_in in Hr |- *. rewrite filter_cons in Hr |- *.
    destruct (decide (rd 8 mem0 (off + i * ent + 8) mod 2 ^ 32 = R_X86_64_RELATIVE)) as [Et|Et].
    + rewrite (proj2 (Z.eqb_eq _ _)) by done. rewrite fmap_cons in Hr |- *. apply Forall_cons in Hr as [[Hr1 Hr2] Hr].
      cbn [fst] in Hr1, Hr2. set (ro := rd 8 mem0 (off + i * ent)) in *. pose proof (rd64 mem0 (off + i * ent) Hmem) as Hro. fold ro in Hro.
      set (v := u64 (rb + rd 8 mem0 (off + i * ent + 16))) in *.
      rewrite blit_ok by (rewrite ?length_lebytes, ?Hm; lia). cbn [obind].
      destruct (IH fuel (i + 1) (over (Z.to_nat ro) (lebytes 8 v) mem)) as (mem' & E & Lm & Hn); try done; try lia.
      { rewrite length_over; [done|]. rewrite length_lebytes. lia. }
      { intros o Hoo. rewrite nth_over by (rewrite length_lebytes; lia). rewrite length_lebytes.
        destruct (decide _); [lia|]. by apply Hag. }
      exists mem'. split; [done|]. split; [done|]. intros o Hoo. rewrite Hn by done. unfold relocated_byte at 2. cbn [fold_left].
      unfold relocated_byte. f_equal. cbn [fst snd]. rewrite nth_over, length_lebytes by (rewrite length_lebytes; lia).
      destruct (decide _) as [Hd|Hd].
      * rewrite (proj2 (Z.leb_le _ _)), (proj2 (Z.ltb_lt _ _)) by lia. cbn [andb]. f_equal. lia.
      * destruct (Z.leb_spec ro o), (Z.ltb_spec o (ro + 8)); try done; lia.
    + rewrite (proj2 (Z.eqb_neq _ _)) by done. cbn [obind]. apply IH; try done; lia.
Qed.

Lemma dyn_value_bound tag l v d n : 0 ≤ v < 2 ^ 64 → l = dyn_entries n mem0 d → 0 ≤ dyn_value tag v l < 2 ^ 64.
Proof.
  intros Hv ->. revert v d Hv. induction n as [|n IH]; intros v d Hv; [done|]. cbn [dyn_entries].
  destruct (rd 8 mem0 d =? DT_NULL); [done|]. unfold dyn_value in *. cbn [fold_left fst snd]. apply IH.
  destruct (_ =? tag); [|done]. by apply rd64.
Qed.

Lemma relocate_ok rb image_end ph : 0 ≤ p_vaddr ph → 0 ≤ p_memsz ph → image_end ≤ Z.of_nat (length mem0) →
  relocatable mem0 rb image_end (Some ph) →
  ∃ mem', relocate mem0 rb image_end ph = Ret mem' ∧ length mem' = length mem0 ∧
    ∀ o, 0 ≤ o → nth (Z.to_nat o) mem' 0 = relocated_byte (image_relocs mem0 rb image_end (Some ph)) o (nth (Z.to_nat o) mem0 0).
Proof.
  intros Hv Hms Hie (Hd & Hw & Hr). unfold relocate, image_relocs in *. unfold rela_table in *. cbv zeta in *.
  set (n := Z.to_nat (p_memsz ph / sizeof_Dyn)) in *. unfold sizeof_Dyn in n.
  pose proof (Z.div_mod (p_memsz ph) 16 ltac:(lia)) as Hdm. pose proof (Z.mod_pos_bound (p_memsz ph) 16 ltac:(lia)).
  assert (0 ≤ p_memsz ph / 16) by (apply Z.div_pos; lia).
  rewrite (dyn_ok (p_vaddr ph) (p_memsz ph / sizeof_Dyn) n) by (unfold sizeof_Dyn; lia). rewrite Z.mul_0_l, Z.add_0_r. cbn [obind rela_off rela_size rela_ent].
  set (l := dyn_entries n mem0 (p_vaddr ph)) in *. pose proof (dyn_value_bound DT_RELA l 0 _ _ ltac:(lia) eq_refl) as Bo.
  pose proof (dyn_value_bound DT_RELASZ l 0 _ _ ltac:(lia) eq_refl) as Bs.
  set (off := dyn_value DT_RELA 0 l) in *. set (size := dyn_value DT_RELASZ 0 l) in *. set (ent := dyn_value DT_RELAENT sizeof_Rela l) in *.
  rewrite u64_small by (unfold is_u64; lia).
  replace (negb (off =? 0)) with (0 <? off) by (destruct (Z.ltb_spec 0 off), (Z.eqb_spec off 0); try done; lia).
  replace (negb (size =? 0)) with (0 <? size) by (destruct (Z.ltb_spec 0 size), (Z.eqb_spec size 0); try done; lia).
  destruct ((0 <? off) && (0 <? size) && (sizeof_Rela <=? ent) && (off + size <=? image_end)) eqn:Ec.
  - apply andb_true_iff in Ec as [Ec E4]. apply andb_true_iff in Ec as [Ec E3]. apply andb_true_iff in Ec as [E1 E2].
    apply Z.ltb_lt in E1, E2. apply Z.leb_le in E3, E4. unfold sizeof_Rela in E3.
    pose proof (Z.div_mod size ent ltac:(lia)) as Hsd. pose proof (Z.mod_pos_bound size ent ltac:(lia)).
    assert (0 ≤ size / ent) by (apply Z.div_pos; lia).
    assert (size / ent * 24 ≤ size) by nia.
    destruct (rela_ok rb off ent (size / ent) (Z.to_nat (size / ent)) (S (length mem0)) 0 mem0) as (mem' & E & Lm & Hn); try done; try lia.
    { eapply Forall_impl; [exact Hr|]. cbv beta. intros r [? ?]. split; [lia|done]. }
    exists mem'. split; [done|]. split; [done|]. intros o Ho. by rewrite Hn.
  - exists mem0. done.
Qed.
End memory.

(** ** Loading *)

Lemma nth_indices (g : Z → Z) n o : 0 ≤ o < n → nth (Z.to_nat o) (g <$> indices n) 0 = g o.
Proof.
  intros Ho. unfold indices. rewrite nth_lookup, !list_lookup_fmap, lookup_seq_lt by lia. cbn. f_equal. lia.
Qed.

Lemma length_indices n : length (indices n) = Z.to_nat n.
Proof. unfold indices. by rewrite length_fmap, length_seq. Qed.

Lemma list_eq_nth (a b : list Z) : length a = length b → (∀ o, 0 ≤ o < Z.of_nat (length a) → nth (Z.to_nat o) a 0 = nth (Z.to_nat o) b 0) → a = b.
Proof.
  intros Hl Hn. apply (List.nth_ext _ _ 0 0 Hl). intros k Hk. specialize (Hn (Z.of_nat k) ltac:(lia)). by rewrite Nat2Z.id in Hn.
Qed.

Section load.
  Context (f : list Z) (Hf : Forall is_u8 f) (Ht : tame f).

Lemma span_ge phs : ∀ e, e ≤ fold_left (λ e ph, if is_load ph then Z.max e (p_vaddr ph + p_memsz ph) else e) phs e.
Proof. induction phs as [|ph phs IH]; intros e; cbn [fold_left]; [lia|]. destruct (is_load ph); [etrans; [|apply IH]; lia|apply IH]. Qed.

Lemma span_covers phs ph : ∀ e, ph ∈ phs → is_load ph = true →
  p_vaddr ph + p_memsz ph ≤ fold_left (λ e ph, if is_load ph then Z.max e (p_vaddr ph + p_memsz ph) else e) phs e.
Proof.
  induction phs as [|x phs IH]; intros e Hin Hl; [by apply not_elem_of_nil in Hin|]. apply elem_of_cons in Hin as [<-|Hin]; cbn [fold_left].
  - rewrite Hl. etrans; [|apply span_ge]. lia.
  - by apply IH.
Qed.

Lemma dynamic_in phs ph : ∀ d, fold_left (λ d ph, if p_type ph =? PT_DYNAMIC then Some ph else d) phs d = Some ph → ph ∈ phs ∨ d = Some ph.
Proof.
  induction phs as [|x phs IH]; intros d E; cbn [fold_left] in E; [by right|]. apply IH in E as [E|E]; [left; by right|].
  destruct (_ =? _); [|by right]. injection E as ->. left. by left.
Qed.

Lemma copied size : file_size f < 2 ^ 64 → header_good f = true → forallb (segment_good f) (phdrs f) = true → span (phdrs f) ≤ size →
  copy_segments (indices (phnum f)) f (phoff f) (replicate (Z.to_nat size) 0) = Ret (loaded f (phdrs f) size).
Proof.
  intros Hs Hh Hg Hsp. unfold header_good in Hh. apply andb_true_iff in Hh as [_ Hh]. apply Z.leb_le in Hh.
  destruct (copy_ok f (indices (phnum f)) (replicate (Z.to_nat size) 0) ltac:(by apply all_readable) Hg) as (mem & -> & Lm & Hn).
  { apply Forall_forall. intros i Hi Hl. rewrite length_replicate.
    pose proof (span_covers (phdrs f) (phdr f i) 0 ltac:(apply list_elem_of_fmap; eauto) Hl) as Hc. fold (span (phdrs f)) in Hc. lia. }
  f_equal. rewrite length_replicate in Lm. apply list_eq_nth; [unfold loaded; by rewrite length_fmap, length_indices|].
  intros o Ho. rewrite Hn by lia. unfold loaded. rewrite nth_indices by lia. unfold segment_byte, phdrs. f_equal.
  rewrite nth_lookup, lookup_replicate_2 by lia. done.
Qed.

Lemma segment_byte_u8 phs o : is_u8 (segment_byte f phs o).
Proof.
  assert (∀ b, is_u8 b → is_u8 (fold_left (seg_step f o) phs b)) as H; [|apply H; unfold is_u8; lia].
  induction phs as [|ph phs IH]; intros b Hb; cbn [fold_left]; [done|]. apply IH. unfold seg_step.
  destruct (_ && _); [|done]. rewrite nth_lookup. destruct (f !! _) eqn:E; [|cbn; unfold is_u8; lia]. by eapply Forall_lookup in E.
Qed.

(** What follows a good header. *)
Definition load_body (M : mem_env) (filebuf load_address : Z) (s : loader) : outcome (bool * elf_loaded_image * list Z * loader) :=
  let bad := Ret (false, no_image, [], elf_release_file_buffer filebuf s) in
  let* r := scan_segments (indices (phnum f)) f (phoff f) (file_size f) 0 None in
  match r with
  | None => bad
  | Some (image_end, dynamic_ph) =>
      if (image_end =? 0) || (ELF_MAX_IMAGE_SIZE <? image_end) then bad
      else if image_end <=? entry f then bad
      else
        let pages := (image_end + 0xfff) / 0x1000 in
        let on_heap := negb (heap_at M image_end =? 0) in
        let b := if on_heap then heap_at M image_end else pages_at M pages in
        if b =? 0 then bad
        else
          let mem := replicate (Z.to_nat (if on_heap then image_end else pages * 0x1000)) 0 in
          let runtime_base := if load_address =? 0 then b else load_address in
          let* mem := copy_segments (indices (phnum f)) f (phoff f) mem in
          let* mem := match dynamic_ph with Some ph => relocate mem runtime_base image_end ph | None => Ret mem end in
          Ret (true, mk_image (u64 (runtime_base + entry f)) b image_end (negb on_heap) (if on_heap then 0 else pages),
               mem, elf_release_file_buffer filebuf s)
  end.

Lemma header_cases M filebuf load_address s : elf_load_buffer_at M filebuf f load_address s =
  if header_good f then load_body M filebuf load_address s else Ret (false, no_image, [], elf_release_file_buffer filebuf s).
Proof.
  unfold elf_load_buffer_at, header_good. fold (file_size f). unfold sizeof_Ehdr, file_size.
  destruct (Z.ltb_spec (Z.of_nat (length f)) 64) as [H1|H1]; [by rewrite (proj2 (Z.leb_gt 64 _)) by lia|].
  rewrite (proj2 (Z.leb_le 64 _)) by lia. cbn [orb andb].
  destruct (Z.ltb_spec ELF_MAX_FILE_SIZE (Z.of_nat (length f))) as [H2|H2]; [by rewrite (proj2 (Z.leb_gt _ ELF_MAX_FILE_SIZE)) by lia|].
  rewrite (proj2 (Z.leb_le _ ELF_MAX_FILE_SIZE)) by lia. cbn [andb].
  unfold e_ident, e_machine, e_type, e_phnum, e_phoff, e_entry.
  rewrite slice_of_ok by lia. cbn [obind]. rewrite !ld_ok by lia. cbn [obind].
  assert (take 4 (slice 0 16 f) = slice 0 4 f) as -> by (unfold slice; by rewrite take_take).
  pose proof (nth_slice 0 16 f 4 ltac:(lia) ltac:(lia)) as E4. pose proof (nth_slice 0 16 f 5 ltac:(lia) ltac:(lia)) as E5.
  change (Z.to_nat 4) with 4%nat in E4. change (Z.to_nat (0 + 4)) with 4%nat in E4. change (Z.to_nat 5) with 5%nat in E5.
  change (Z.to_nat (0 + 5)) with 5%nat in E5. rewrite E4, E5.
  destruct (decide (slice 0 4 f = 127 :: txt "ELF")) as [Hi|Hi];
    [rewrite (bool_decide_eq_false_2 (_ ≠ _)), bool_decide_eq_true_2 by (done || tauto)|
     rewrite (bool_decide_eq_true_2 (_ ≠ _)), bool_decide_eq_false_2 by done; done].
  cbn [orb andb]. destruct (nth 4 f 0 =? ELFCLASS64); [|done]. destruct (nth 5 f 0 =? ELFDATA2LSB); [|done]. cbn [negb orb andb].
  destruct (rd 2 f 18 =? EM_X86_64); [|done]. cbn [negb andb].
  destruct (rd 2 f 16 =? ET_EXEC), (rd 2 f 16 =? ET_DYN); cbn [negb andb orb]; try done.
  all: pose proof (rd_range 2 f 56 Hf) as Hn; change (256 ^ Z.of_nat 2) with 65536 in Hn; fold (phnum f) in *.
  all: destruct (Z.eqb_spec (phnum f) 0) as [Hz|Hz]; [by rewrite Hz|]; rewrite (proj2 (Z.leb_le 1 _)) by lia; cbn [orb andb].
  all: destruct (Z.ltb_spec ELF_MAX_PHNUM (phnum f)); [by rewrite (proj2 (Z.leb_gt _ _)) by done|]; rewrite (proj2 (Z.leb_le (phnum f) _)) by done; cbn [andb].
  all: fold (phoff f); pose proof (rd_range 8 f 32 Hf) as Hp; fold (phoff f) in Hp; destruct Ht as [Ht1 _].
  all: rewrite u64_small by (unfold is_u64, sizeof_Phdr in *; lia).
  all: destruct (Z.ltb_spec (Z.of_nat (length f)) (phoff f + phnum f * sizeof_Phdr)); [by rewrite (proj2 (Z.leb_gt _ (Z.of_nat (length f)))) by done|];
       rewrite (proj2 (Z.leb_le _ (Z.of_nat (length f)))) by done; done.
Qed.

Lemma header_size : header_good f = true → file_size f < 2 ^ 64 ∧ phoff f + phnum f * sizeof_Phdr ≤ file_size f.
Proof.
  unfold header_good. intros H. repeat (apply andb_true_iff in H as [H ?]). apply Z.leb_le in H.
  repeat match goal with E : (_ <=? _) = true |- _ => apply Z.leb_le in E end. unfold ELF_MAX_FILE_SIZE in *. split; [lia|done].
Qed.

Lemma accepts_scan : header_good f = true → scan_segments (indices (phnum f)) f (phoff f) (file_size f) 0 None =
  Ret (if forallb (segment_good f) (phdrs f) then Some (span (phdrs f), dynamic (phdrs f)) else None).
Proof. intros Hh. destruct (header_size Hh) as [Hs Hl]. by rewrite (scan_ok f) by (by apply all_readable || done). Qed.

(** A file that is not acceptable is refused, whatever the allocators say. *)
Lemma refused M filebuf load_address s : accepts f = false →
  elf_load_buffer_at M filebuf f load_address s = Ret (false, no_image, [], elf_release_file_buffer filebuf s).
Proof.
  intros Ha. rewrite header_cases. unfold accepts in Ha. destruct (header_good f) eqn:Hh; [|done].
  unfold load_body. rewrite accepts_scan by done. destruct (forallb _ _); cbn [obind]; [|done]. cbn [andb] in Ha.
  pose proof (span_ge (phdrs f) 0) as Hs. fold (span (phdrs f)) in Hs.
  destruct (Z.eqb_spec (span (phdrs f)) 0) as [|Hz]; [done|]. rewrite (proj2 (Z.ltb_lt 0 _)) in Ha by lia. cbn [andb orb] in *.
  destruct (Z.ltb_spec ELF_MAX_IMAGE_SIZE (span (phdrs f))); [done|]. rewrite (proj2 (Z.leb_le _ _)) in Ha by done. cbn [andb] in Ha.
  rewrite (proj2 (Z.leb_le _ _)); [done|]. by apply Z.ltb_ge.
Qed.

Lemma loaded_u8 phs size : Forall is_u8 (loaded f phs size).
Proof. apply Forall_forall. intros x Hx. apply list_elem_of_fmap in Hx as (o & -> & _). apply segment_byte_u8. Qed.

Lemma length_loaded phs size : length (loaded f phs size) = Z.to_nat size.
Proof. unfold loaded. by rewrite length_fmap, length_indices. Qed.

Lemma accepts_parts : accepts f = true → header_good f = true ∧ forallb (segment_good f) (phdrs f) = true ∧
  0 < span (phdrs f) ≤ ELF_MAX_IMAGE_SIZE ∧ entry f < span (phdrs f).
Proof.
  unfold accepts. rewrite !andb_true_iff, !Z.ltb_lt, Z.leb_le. tauto.
Qed.

(** Copying and relocating gives the reference's image. *)
Lemma image_built rb size : accepts f = true → span (phdrs f) ≤ size < 2 ^ 63 →
  relocatable (loaded f (phdrs f) size) rb (span (phdrs f)) (dynamic (phdrs f)) →
  (let* mem := copy_segments (indices (phnum f)) f (phoff f) (replicate (Z.to_nat size) 0) in
   match dynamic (phdrs f) with Some ph => relocate mem rb (span (phdrs f)) ph | None => Ret mem end) = Ret (image_of f rb size).
Proof.
  intros Ha Hsz Hr. destruct (accepts_parts Ha) as (Hh & Hg & Hs0 & _).
  rewrite copied by (try done; try lia; by apply header_size). cbn [obind]. unfold image_of, image_relocs.
  set (mem := loaded f (phdrs f) size) in *.
  assert (length mem = Z.to_nat size) as Lm by apply length_loaded.
  destruct (dynamic (phdrs f)) as [ph|] eqn:Ed.
  - destruct (dynamic_in (phdrs f) ph None Ed) as [Hin|]; [|done]. destruct (phdr_fields f Hf ph Hin) as (_ & H4 & _ & H5).
    destruct (relocate_ok mem (loaded_u8 _ _) ltac:(lia) rb (span (phdrs f)) ph) as (mem' & -> & Lm' & Hn); [lia|lia|lia|done|].
    f_equal. apply list_eq_nth; [rewrite length_fmap, length_indices; lia|]. intros o Ho. rewrite Hn by lia.
    by rewrite nth_indices by lia.
  - f_equal. apply list_eq_nth; [rewrite length_fmap, length_indices; lia|]. intros o Ho. by rewrite nth_indices by lia.
Qed.

Lemma load_ok M filebuf load_address s :
  let e := span (phdrs f) in let pages := (e + 0xfff) / 0x1000 in
  let on_heap := negb (heap_at M e =? 0) in let b := if on_heap then heap_at M e else pages_at M pages in
  let size := if on_heap then e else pages * 0x1000 in let rb := if load_address =? 0 then b else load_address in
  if accepts f && negb (b =? 0) then
    relocatable (loaded f (phdrs f) size) rb e (dynamic (phdrs f)) →
    elf_load_buffer_at M filebuf f load_address s =
      Ret (true, mk_image (u64 (rb + entry f)) b e (negb on_heap) (if on_heap then 0 else pages), image_of f rb size,
           elf_release_file_buffer filebuf s)
  else elf_load_buffer_at M filebuf f load_address s = Ret (false, no_image, [], elf_release_file_buffer filebuf s).
Proof.
  intros e pages on_heap b size rb. destruct (accepts f) eqn:Ha; cbn [andb]; [|by apply refused].
  destruct (accepts_parts Ha) as (Hh & Hg & Hs0 & He). fold e in Hs0, He.
  rewrite header_cases, Hh. unfold load_body. rewrite accepts_scan, Hg by done. cbn [obind]. fold e.
  rewrite (proj2 (Z.eqb_neq e 0)), (proj2 (Z.ltb_ge _ e)), (proj2 (Z.leb_gt e _)) by lia. cbn [orb].
  fold pages on_heap b. destruct (b =? 0); cbn [negb]; [done|]. intros Hr. fold size rb.
  pose proof (image_built rb size Ha) as Hb. fold e in Hb.
  assert (e ≤ size < 2 ^ 63) as Hsz.
  { unfold size, pages, ELF_MAX_IMAGE_SIZE in *. destruct on_heap; [lia|].
    pose proof (Z.div_mod (e + 0xfff) 0x1000 ltac:(lia)). pose proof (Z.mod_pos_bound (e + 0xfff) 0x1000 ltac:(lia)). lia. }
  specialize (Hb Hsz Hr). destruct (copy_segments _ _ _ _) as [mem| | |]; cbn [obind] in Hb |- *; try done. by rewrite Hb.
Qed.
End load.

(** C10. The ELF loader, for every file whose offsets do not wrap ([tame])
    and, when it is accepted, whose relocation data are [relocatable]: the
    dynamic segment lies in the image, its relocation table does not wrap, and
    every relocated slot lies in the image beside the table
    ([elf_reloc_escapes], [elf_dynamic_escapes] show what happens otherwise).
    It refuses exactly the files that the header and segment rules exclude
    (and any file when memory is out), and for the others builds the image
    byte by byte as the program headers say, zero where no file data goes,
    with the runtime base plus addend in each relocated slot, sets the entry
    point, and on every path gives the file buffer back once. *)
Theorem elf_load_correct f M filebuf load_address s : Forall is_u8 f → tame f →
  let e := span (phdrs f) in let pages := (e + 0xfff) / 0x1000 in
  let on_heap := negb (heap_at M e =? 0) in let b := if on_heap then heap_at M e else pages_at M pages in
  let size := if on_heap then e else pages * 0x1000 in let rb := if load_address =? 0 then b else load_address in
  if accepts f && negb (b =? 0) then
    relocatable (loaded f (phdrs f) size) rb e (dynamic (phdrs f)) →
    elf_load_buffer_at M filebuf f load_address s =
      Ret (true, mk_image (u64 (rb + entry f)) b e (negb on_heap) (if on_heap then 0 else pages), image_of f rb size,
           elf_release_file_buffer filebuf s)
  else elf_load_buffer_at M filebuf f load_address s = Ret (false, no_image, [], elf_release_file_buffer filebuf s).
Proof. intros Hf Ht. by apply load_ok. Qed.

(** ** A small program

    One segment of 80 bytes: a dynamic section of three entries, a relocation
    table of one entry, and the slot. *)
Definition demo_phdr (type off va fsz msz : Z) : list Z :=
  lebytes 4 type ++ lebytes 4 0 ++ lebytes 8 off ++ lebytes 8 va ++ lebytes 8 0 ++ lebytes 8 fsz ++ lebytes 8 msz ++ lebytes 8 0.
Definition demo_header (phoff phnum entry : Z) : list Z :=
  127 :: txt "ELF" ++ [2; 1; 1] ++ replicate 9 0 ++ lebytes 2 ET_DYN ++ lebytes 2 EM_X86_64 ++ lebytes 4 1 ++ lebytes 8 entry ++
  lebytes 8 phoff ++ lebytes 8 0 ++ lebytes 4 0 ++ lebytes 2 64 ++ lebytes 2 56 ++ lebytes 2 phnum ++ replicate 6 0.
Definition demo_body (slot : Z) : list Z :=
  lebytes 8 DT_RELA ++ lebytes 8 48 ++ lebytes 8 DT_RELASZ ++ lebytes 8 24 ++ lebytes 16 0 ++
  lebytes 8 slot ++ lebytes 8 R_X86_64_RELATIVE ++ lebytes 8 0x10.
Definition demo_file (slot : Z) : list Z :=
  demo_header 64 2 0x10 ++ demo_phdr PT_LOAD 176 0 72 80 ++ demo_phdr PT_DYNAMIC 176 0 48 48 ++ demo_body slot.
Definition demo_mem : mem_env := mk_env (λ _, 0x500000) (λ _, 0).
Definition demo_loader : loader := mk_loader (replicate ELF_PAGE_BUFFER_SLOTS (0, 0)) [].

Lemma demo_bytes slot : Forall is_u8 (demo_file slot).
Proof.
  unfold demo_file, demo_header, demo_phdr, demo_body. repeat (apply Forall_app; split); auto using lebytes_u8.
  repeat (apply Forall_cons; split; [unfold is_u8; lia|]).
  repeat (apply Forall_app; split); auto using lebytes_u8; repeat (apply Forall_cons; split; [vm_compute; intuition congruence|]); apply Forall_nil_2.
Qed.

Lemma demo_tame slot : tame (demo_file slot).
Proof.
  split; [by vm_compute|]. change (phdrs (demo_file slot)) with [mk_phdr PT_LOAD 176 0 72 80; mk_phdr PT_DYNAMIC 176 0 48 48].
  repeat (apply Forall_cons; split; [cbn; lia|]). apply Forall_nil_2.
Qed.

Lemma demo_relocatable : relocatable (loaded (demo_file 72) (phdrs (demo_file 72)) 80) 0x500000 80 (dynamic (phdrs (demo_file 72))).
Proof.
  change (dynamic (phdrs (demo_file 72))) with (Some (mk_phdr PT_DYNAMIC 176 0 48 48)).
  assert (loaded (demo_file 72) (phdrs (demo_file 72)) 80 = demo_body 72 ++ replicate 8 0) as -> by by vm_compute.
  split; [by vm_compute|]. split; [by vm_compute|]. cbn [image_relocs].
  assert (rela_table (demo_body 72 ++ replicate 8 0) 80 (mk_phdr PT_DYNAMIC 176 0 48 48) = (48, 24, 1)) as -> by by vm_compute.
  assert (relocations (demo_body 72 ++ replicate 8 0) 0x500000 (48, 24, 1) = [(72, 0x500010)]) as -> by by vm_compute.
  apply Forall_cons. split; [cbn; lia|apply Forall_nil_2].
Qed.

Lemma elf_load_correct_witness :
  elf_load_buffer_at demo_mem 0x700000 (demo_file 72) 0 demo_loader =
  Ret (true, mk_image 0x500010 0x500000 80 false 0, demo_body 72 ++ lebytes 8 0x500010, log (FreeMem 0x700000) demo_loader).
Proof.
  pose proof (elf_load_correct (demo_file 72) demo_mem 0x700000 0 demo_loader (demo_bytes 72) (demo_tame 72)) as H.
  cbv zeta in H. change (accepts (demo_file 72) && _) with true in H. cbv iota in H.
  rewrite H; [by vm_compute|]. exact demo_relocatable.
Defined.

(** ** What the loader does not test *)

(** The slot of a relocation is not compared with the image. *)
Lemma elf_reloc_escapes : accepts (demo_file 80) = true ∧ elf_load_buffer_at demo_mem 0x700000 (demo_file 80) 0 demo_loader = Undef.
Proof. by vm_compute. Qed.

(** Neither is the dynamic segment. *)
Definition demo_far_dynamic : list Z :=
  demo_header 64 2 0x10 ++ demo_phdr PT_LOAD 176 0 72 80 ++ demo_phdr PT_DYNAMIC 176 0x10000000 48 48 ++ demo_body 72.
Lemma elf_dynamic_escapes : accepts demo_far_dynamic = true ∧ elf_load_buffer_at demo_mem 0x700000 demo_far_dynamic 0 demo_loader = Undef.
Proof. by vm_compute. Qed.

(** The place of the program headers is added up in 64 bits: one just below
    2^64 passes the test against the file's size. *)
Definition demo_wrapped_phoff : list Z := demo_header (2 ^ 64 - 56) 1 0x10 ++ demo_body 72.
Lemma elf_phoff_wraps : header_good demo_wrapped_phoff = false ∧ elf_load_buffer_at demo_mem 0x700000 demo_wrapped_phoff 0 demo_loader = Undef.
Proof. by vm_compute. Qed.

(** And so is the end of a segment's file part. *)
Definition demo_wrapped_offset : list Z := demo_header 64 1 0x10 ++ demo_phdr PT_LOAD (2 ^ 64 - 8) 0 72 80 ++ demo_body 72.
Lemma elf_offset_wraps : accepts demo_wrapped_offset = false ∧ elf_load_buffer_at demo_mem 0x700000 demo_wrapped_offset 0 demo_loader = Undef.
Proof. by vm_compute. Qed.

(** ** Ownership of the buffers *)

(** A registered page buffer goes back as the pages it was registered with
    and frees its slot; any other goes back to the heap. *)
Lemma release_registered buffer pages s s' : slot_of buffer (page_buffers s) = None →
  Forall (λ p, p.1 = 0 → p.2 = 0) (page_buffers s) → buffer ≠ 0 → elf_register_page_buffer buffer pages s = (true, s') →
  elf_release_file_buffer buffer s' = log (FreePages buffer pages) s.
Proof.
  unfold elf_register_page_buffer. intros Hn Hz Hb. rewrite (proj2 (Z.eqb_neq buffer 0)) by done. cbn [orb].
  destruct (pages =? 0); [done|]. destruct (slot_of 0 (page_buffers s)) as [i|] eqn:Ei; [|done]. intros [= <-].
  unfold elf_release_file_buffer. destruct s as [l fr]. cbn [page_buffers set_slots freed] in *.
  assert (slot_of buffer (<[i := (buffer, pages)]> l) = Some i ∧ nth i (<[i := (buffer, pages)]> l) (0, 0) = (buffer, pages) ∧
          <[i := (0, 0)]> (<[i := (buffer, pages)]> l) = l) as (-> & -> & E).
  { revert i Hn Ei. induction l as [|[a n] l IH]; intros i Hn Ei; [done|]. cbn [slot_of] in *. apply Forall_cons in Hz as [Hz1 Hz].
    destruct (Z.eqb_spec a buffer); [done|]. destruct (Z.eqb_spec a 0) as [->|].
    - injection Ei as <-. cbn. rewrite Z.eqb_refl. cbn in Hz1. by rewrite Hz1.
    - destruct (slot_of 0 l) as [j|]; [|done]. injection Ei as <-. destruct (slot_of buffer l); [done|].
      destruct (IH Hz j eq_refl eq_refl) as (E1 & E2 & E3).
      change (<[S j := (buffer, pages)]> ((a, n) :: l)) with ((a, n) :: <[j := (buffer, pages)]> l).
      change (<[S j := (0, 0)]> ((a, n) :: <[j := (buffer, pages)]> l)) with ((a, n) :: <[j := (0, 0)]> (<[j := (buffer, pages)]> l)).
      cbn [slot_of nth]. rewrite (proj2 (Z.eqb_neq a buffer)), E1, E2, E3 by done. done. }
  cbn [snd]. unfold log. cbn. by rewrite E.
Qed.
End elfspec.
