(* ===== verification/ElfFile.v ===== *)
(** * Loading a program from the file system

    [elf_load_file] over the operations of [Fs.v]: the buffer's address
    [filebuf] and the sizes the heap grants come from the environment. *)

From S2P Require Import Prelude Bytes CString Time Net Block Extent FsText Fs FsDisk FsFile FsInv FsVol FsOps FsSpec FsRead FsMount FsSafe FsClaims Elf ElfSpec.
Import fstext minimafs fsdisk fsfile fsinv fsvol fsops fsspec fsread fsmount fssafe fsclaims elf elfspec.

Open Scope c_scope.

Module elffile.

Section file.
  Context {D : Type} `{BlockDriver D}.
  Abbreviation fsys := (fsys (D := D)).

Definition elf_load_file (E : minimafs.env) (M : mem_env) (filebuf : Z) (p : list Z) (ls : loader) :
    fsM (D := D) (bool * elf_loaded_image * list Z * loader) :=
  h ← minimafs_open E p true;
  match h with
  | None => mret (false, no_image, [], ls)
  | Some h =>
      file_size ← minimafs_size h;
      if negb (can_alloc E file_size) then
        minimafs_close E h;; mret (false, no_image, [], ls)
      else
        b ← minimafs_read E h file_size;
        minimafs_close E h;;
        if negb (Z.of_nat (length b) =? file_size) then mret (false, no_image, [], elf_release_file_buffer filebuf ls)
        else lift (elf_load_buffer M filebuf b ls)
  end.

  Context (E : minimafs.env) (HE : roomy E) (dn dev : nat).
  Abbreviation volume := (volume dn dev).

Lemma load_file_ok M filebuf dirs s p local parent name d i e m l h ls : volume dirs s →
  holds dn dev dirs s p local parent name d i e m l → free_handle s h →
  elf_load_file E M filebuf p ls s = (let* r := elf_load_buffer M filebuf l ls in Ret (r, s)).
Proof.
  intros Hv Hho Hh. destruct (whole_file E HE dn dev dirs s p local parent name d i e m l h Hv Hho Hh) as (s1 & s2 & E1 & E2 & _ & E3 & E4).
  unfold elf_load_file. rewrite (bind_eq _ _ s _ _ E1). cbv beta iota. rewrite (bind_eq _ _ s1 _ _ E2), (rm_alloc _ HE). cbn [negb].
  rewrite (bind_eq _ _ s1 _ _ E3), (bind_eq _ _ s2 _ _ E4), Z.eqb_refl. done.
Qed.

(** C31. A program on disk: for a file that the volume holds, whichever way the
    file system reads it, [elf_load_file] does what the loader does with
    exactly the file's bytes, and leaves the file system as it was, its handle
    closed. *)
Theorem elf_load_file_correct M filebuf dirs s p local parent name d i e m l h ls : volume dirs s →
  holds dn dev dirs s p local parent name d i e m l → free_handle s h →
  elf_load_file E M filebuf p ls s = (let* r := elf_load_buffer M filebuf l ls in Ret (r, s)).
Proof. apply load_file_ok. Qed.
End file.

(** ** The small program on the RAM disk *)

Lemma demo_program_storable : storable (seg_meta demo_env [97] (txt "binary") (txt "bin") [] (root_folder 1)) (demo_file 72).
Proof.
  split.
  - split_and!; apply (bool_decide_unpack _); by vm_compute.
  - split_and!; apply (bool_decide_unpack _); by vm_compute.
  - apply tags_check. vm_compute. reflexivity.
  - left. vm_compute. done.
Qed.

Lemma elf_load_file_correct_witness : ∃ s, elf_load_file demo_env demo_mem 0x700000 (txt "0:/a") demo_loader s =
  Ret ((true, mk_image 0x500010 0x500000 80 false 0, demo_body 72 ++ lebytes 8 0x500010, log (FreeMem 0x700000) demo_loader), s).
Proof.
  destruct demo_mounted as (s & Hv & Hr & Hh & Hroom).
  destruct (demo_target root1 (root_folder 1) 97) as [Hn Hd Hro Hp]; [by left|done|vm_compute; lia|].
  destruct (write_holds_ok demo_env demo_roomy 0 0 root1 s (txt "0:/a") (txt "/a") [] [97] (root_folder 1) (demo_file 72) [] None None)
    as (r & s1 & E1 & Hres); try done; [by rewrite Hr|simpl; lia|rewrite app_nil_r; apply demo_program_storable|].
  destruct r; [|destruct Hres as (_ & _ & Hno); exfalso; eapply Hroom; [|exact Hno]; vm_compute; done].
  destruct Hres as (dirs1 & d1 & i & e & m & Hv1 & Hho & Hhs). exists s1. rewrite app_nil_r in Hho.
  rewrite (elf_load_file_correct demo_env demo_roomy 0 0 demo_mem 0x700000 dirs1 s1 (txt "0:/a") (txt "/a") [] [97] d1 i e m (demo_file 72) 0
    demo_loader Hv1 Hho); [|by unfold free_handle; rewrite Hhs, Hh].
  by vm_compute.
Defined.
End elffile.
