(* ===== verification/NetPoll.v ===== *)
(** * Polling the network for a UDP client

    A client registers a handler for its port and polls. [network_manager_poll]
    hands the waiting frames to [eth_handle_frame] one by one; each call that
    [udp.c] then makes of the client's handler (number [hid]) runs [handle] on
    the payload. *)

From S2P Require Import Prelude Bytes Net.

Open Scope c_scope.

Module netpoll.

Section poll.
  Context {St : Type} (hid : Z) (handle : list Z → St → outcome St).
  Context (tcp : Z → list Z → net → net).

Fixpoint run_calls (l : list udp_call) (d : St) : outcome St :=
  match l with
  | [] => Ret d
  | c :: l =>
      let* d := (if uc_handler c =? hid then handle (uc_data c) d else Ret d) in
      run_calls l d
  end.

(** [network_manager_poll] with the frames [l] waiting. *)
Fixpoint poll_frames (l : list (list Z)) (s : net) (d : St) : outcome (net * St) :=
  match l with
  | [] => Ret (s, d)
  | f :: l =>
      let* s' := eth_handle_frame tcp f s in
      let* d := run_calls (drop (length (calls s)) (calls s')) d in
      poll_frames l s' d
  end.

End poll.

(** What sending to a known hop leaves. *)
Lemma udp_send_state arp_poll iters dst sp dp payload s mac : known_hop dst s = Some mac → Z.of_nat (length payload) ≤ 1472 →
  ∃ s2 q, udp_send arp_poll iters dst sp dp payload s = Ret (true, s2) ∧ sent s2 = sent s ++ [q] ∧
    bindings s2 = bindings s ∧ calls s2 = calls s ∧ local_ip s2 = local_ip s ∧ cache s2 = cache s ∧
    netmask s2 = netmask s ∧ gateway s2 = gateway s ∧ local_mac s2 = local_mac s ∧ is_u16 (ip_id s2).
Proof.
  intros Hk Hl. unfold udp_send. rewrite u16_small by (unfold is_u16; lia). unfold ETH_MTU.
  rewrite (proj2 (Z.ltb_ge _ _)) by lia. cbv zeta. set (ck := if _ =? 0 then _ else _). clearbody ck.
  rewrite (ip_send_known _ _ _ _ _ _ mac) by (done || (rewrite length_app; simpl; lia)). eexists _, _.
  split; [reflexivity|]. split; [reflexivity|]. repeat (split; [done|]). apply u16_range.
Qed.

(** [q] brings the datagram to every host that has address [dst] (or any host,
    for a broadcast) and listens on port [dp]. *)
Definition heard (tcp : Z → list Z → net → net) (q : list Z) (dst src sp dp : Z) (payload : list Z) : Prop :=
  ∀ B i h, local_ip B = dst ∨ dst = BROADCAST_IP →
    first_index (λ b, udp_match dp b && negb (ub_handler b =? 0)) (bindings B) = Some i → ub_handler (nth i (bindings B) udp_empty) = h →
    ∃ B', eth_handle_frame tcp q B = Ret B' ∧ calls B' = calls B ++ [mk_call h src sp payload].

Lemma frame_heard arp_poll iters tcp A A' dst sp dp payload mac q :
  wf_ip A → is_u32 dst → is_u16 sp → is_u16 dp → Forall is_u8 payload → Z.of_nat (length payload) ≤ 1472 → length mac = 6%nat →
  known_hop dst A = Some mac → udp_send arp_poll iters dst sp dp payload A = Ret (true, A') → sent A' = sent A ++ [q] →
  heard tcp q dst (local_ip A) sp dp payload.
Proof.
  intros HwA Hdst Hsp Hdp Hpl Hlen Hmac Hhop Hsend Hsent B i h HB Hi Hh.
  destruct (udp_delivered arp_poll iters tcp A B dst sp dp payload mac i h) as (f' & A'' & B' & E1 & E2 & E3 & E4); try done.
  rewrite Hsend in E1. injection E1 as <-. rewrite Hsent in E2. apply app_inj_2 in E2 as [_ [= <-]]; [|done]. by exists B'.
Qed.

(** It reaches the handler that a client registered for the port. *)
Lemma heard_arrives tcp q dst src sp dp payload port s s1 B : heard tcp q dst src sp dp payload → port ≠ 0 →
  udp_register_handler dp port s = (true, s1) → bindings B = bindings s1 → local_ip B = dst ∨ dst = BROADCAST_IP →
  ∃ B', eth_handle_frame tcp q B = Ret B' ∧ calls B' = calls B ++ [mk_call port src sp payload].
Proof.
  intros Hq Hport Hreg HbB HB. destruct (register_found _ _ _ _ Hreg Hport) as (i & Hi & Hh). by apply (Hq B i); rewrite ?HbB.
Qed.

(** Receiving leaves the configuration and the bindings alone and takes back
    no frame that was sent, if TCP does. *)
Definition same_config (s s' : net) : Prop :=
  local_mac s' = local_mac s ∧ local_ip s' = local_ip s ∧ ip_id s' = ip_id s ∧ bindings s' = bindings s ∧ sent s `prefix_of` sent s'.

Lemma same_config_trans s1 s2 s3 : same_config s1 s2 → same_config s2 s3 → same_config s1 s3.
Proof. unfold same_config. intros (? & ? & ? & ? & ?) (? & ? & ? & ? & ?). repeat split; [congruence..|by etransitivity]. Qed.

Lemma same_config_refl s : same_config s s.
Proof. done. Qed.
#[local] Hint Resolve same_config_refl : core.

Lemma insert_config ip mac s : same_config s (arp_cache_insert ip mac s).
Proof.
  unfold arp_cache_insert. repeat case_if; try done.
  destruct (first_index _ _); [done|]. by destruct (first_index _ _).
Qed.

Lemma send_config dst ty p s : same_config s (eth_send dst ty p s).
Proof. repeat split. by apply prefix_app_r. Qed.

Lemma learn_config mac pkt s : same_config s (eth_learn_sender mac pkt s).
Proof. unfold eth_learn_sender. repeat case_if; auto using insert_config. Qed.

Lemma arp_config pkt s : same_config s (arp_handle_packet pkt s).
Proof.
  unfold arp_handle_packet. case_if; [|apply insert_config].
  eapply same_config_trans; [apply insert_config|apply send_config].
Qed.

Lemma udp_handle_config src data s : same_config s (udp_handle_packet src data s).
Proof. unfold udp_handle_packet. repeat case_if; auto. all: by destruct (first_index _ _). Qed.

Lemma frame_config tcp f s s' : (∀ src p s, same_config s (tcp src p s)) → eth_handle_frame tcp f s = Ret s' → same_config s s'.
Proof.
  intros Ht. unfold eth_handle_frame. case_if; [by intros [= <-]|]. case_if.
  { case_if; intros [= <-]; [apply arp_config|done]. }
  case_if; [|by intros [= <-]]. unfold ip_handle_packet.
  pose proof (learn_config (take 6 (drop 6 f)) (drop 14 f) s) as Hl.
  destruct (ip_demux _ _); [by intros [= <-]|..]; case_if; try done; intros [= <-]; eapply same_config_trans; eauto using udp_handle_config.
Qed.

(** ** Foreign traffic *)

Section traffic.
  Context {St : Type} (hid : Z) (handle : list Z → St → outcome St).
  Context (tcp : Z → list Z → net → net) (Htcp : ∀ src p s, same_config s (tcp src p s)).

(** A frame that a host with the address and the bindings of [s] takes while
    [P] stays true of the client's state: it is for another handler or another
    host, or it is nothing that the client wants. *)
Definition keeps (P : St → Prop) (s : net) (f : list Z) : Prop :=
  ∀ B d, local_ip B = local_ip s → bindings B = bindings s → P d →
    ∃ B' d', eth_handle_frame tcp f B = Ret B' ∧ run_calls hid handle (drop (length (calls B)) (calls B')) d = Ret d' ∧ P d'.

(** A frame to which such a host sends no answer. *)
Definition silent (s : net) (f : list Z) : Prop :=
  ∀ B B', local_ip B = local_ip s → bindings B = bindings s → eth_handle_frame tcp f B = Ret B' → sent B' = sent B.

(** From [B] the host has come to [B'] by taking the frames [l]. *)
Definition took (s : net) (l : list (list Z)) (B B' : net) : Prop :=
  same_config B B' ∧ (Forall (silent s) l → sent B' = sent B).

Lemma took_one s f B B' : local_ip B = local_ip s → bindings B = bindings s → eth_handle_frame tcp f B = Ret B' → took s [f] B B'.
Proof using Htcp. intros H1 H2 E. split; [by eapply frame_config|]. intros Hf. by apply (Forall_inv Hf). Qed.

Lemma took_app s l1 l2 B1 B2 B3 : took s l1 B1 B2 → took s l2 B2 B3 → took s (l1 ++ l2) B1 B3.
Proof.
  intros [H1 S1] [H2 S2]. split; [by eapply same_config_trans|]. intros [F1 F2]%Forall_app. by rewrite S2, S1.
Qed.

Lemma poll_keeps P s l : Forall (keeps P s) l → ∀ B d, local_ip B = local_ip s → bindings B = bindings s → P d →
  ∃ B' d', took s l B B' ∧ P d' ∧ ∀ r, poll_frames hid handle tcp (l ++ r) B d = poll_frames hid handle tcp r B' d'.
Proof using Htcp.
  induction 1 as [|f l Hf _ IH]; intros B d Hip Hb Hd; [by exists B, d|].
  destruct (Hf B d Hip Hb Hd) as (B1 & d1 & E1 & E2 & Hd1). pose proof (took_one s f B B1 Hip Hb E1) as Ht.
  pose proof (proj1 Ht) as (_ & H1 & _ & H2 & _). destruct (IH B1 d1) as (B2 & d2 & Ht2 & Hd2 & E3); [congruence..|done|].
  exists B2, d2. split; [by apply (took_app s [f] l B B1 B2)|]. split; [done|]. intros r. cbn [app poll_frames]. rewrite E1. cbn [obind]. rewrite E2. apply E3.
Qed.

(** One datagram for the client among frames that it does not want. *)
Lemma poll_arrives (P Q : St → Prop) s pre f post src port data :
  Forall (keeps P s) pre → Forall (keeps Q s) post → (∀ d, P d → ∃ d', handle data d = Ret d' ∧ Q d') →
  (∀ B, local_ip B = local_ip s → bindings B = bindings s →
     ∃ B', eth_handle_frame tcp f B = Ret B' ∧ calls B' = calls B ++ [mk_call hid src port data]) →
  ∀ B d, local_ip B = local_ip s → bindings B = bindings s → P d →
  ∃ B' d', took s (pre ++ f :: post) B B' ∧ Q d' ∧ poll_frames hid handle tcp (pre ++ f :: post) B d = Ret (B', d').
Proof using Htcp.
  intros Hpre Hpost Hh Hf B d Hip Hb Hd. destruct (poll_keeps P s pre Hpre B d Hip Hb Hd) as (B1 & d1 & Hc1 & Hd1 & E1).
  pose proof (proj1 Hc1) as (_ & H1 & _ & H2 & _). destruct (Hf B1) as (B2 & E2 & Hcalls); [congruence..|].
  assert (took s [f] B1 B2) as Hc2 by (apply took_one; congruence || done). pose proof (proj1 Hc2) as (_ & H3 & _ & H4 & _).
  destruct (Hh d1 Hd1) as (d2 & Eh & Hd2).
  destruct (poll_keeps Q s post Hpost B2 d2) as (B3 & d3 & Hc3 & Hd3 & E3); [congruence..|done|].
  exists B3, d3. split; [apply (took_app s pre (f :: post) B B1 B3 Hc1), (took_app s [f] post B1 B2 B3 Hc2 Hc3)|]. split; [done|].
  rewrite E1. cbn [poll_frames]. rewrite E2. cbn [obind].
  rewrite Hcalls, drop_app_length. cbn [run_calls uc_handler uc_data]. rewrite Z.eqb_refl, Eh. cbn [obind].
  specialize (E3 []). rewrite app_nil_r in E3. by rewrite E3.
Qed.

(** ARP traffic and frames too short for an Ethernet header reach no client. *)
Lemma arp_calls pkt s : calls (arp_handle_packet pkt s) = calls s.
Proof.
  assert (∀ ip mac s, calls (arp_cache_insert ip mac s) = calls s) as Hi.
  { intros. unfold arp_cache_insert. by repeat case_match. }
  unfold arp_handle_packet. cbv zeta. case_if; [|apply Hi]. by rewrite <- (Hi (net_ntohl (rd32 pkt 14)) (take 6 (drop 8 pkt)) s).
Qed.

Lemma arp_keeps P s f : (length f < 14)%nat ∨ net_ntohs (rd16 f 12) = ETHERTYPE_ARP → keeps P s f.
Proof.
  intros Hf B d _ _ Hd. unfold eth_handle_frame. destruct (Z.ltb_spec (Z.of_nat (length f)) 14) as [|Hl].
  { exists B, d. split; [done|]. by rewrite drop_all. }
  destruct Hf as [?|Hf]; [lia|]. cbv zeta. rewrite Hf, Z.eqb_refl. case_if; eexists _, d; (split; [done|]).
  - by rewrite arp_calls, drop_all.
  - by rewrite drop_all.
Qed.

Lemma arp_silent s f :
  (length f < 14)%nat ∨ net_ntohs (rd16 f 12) = ETHERTYPE_ARP ∧ net_ntohs (rd16 (drop 14 f) 6) ≠ ARP_OP_REQUEST → silent s f.
Proof.
  intros Hf B B' _ _. unfold eth_handle_frame. destruct (Z.ltb_spec (Z.of_nat (length f)) 14) as [|Hl]; [by intros [= <-]|].
  destruct Hf as [?|[Hf Ho]]; [lia|]. cbv zeta. rewrite Hf, Z.eqb_refl. case_if; intros [= <-]; [|done].
  unfold arp_handle_packet. cbv zeta. rewrite (proj2 (Z.eqb_neq _ ARP_OP_REQUEST)) by done. cbn [andb].
  unfold arp_cache_insert. by repeat case_match.
Qed.

(** A frame that makes [udp.c] call a handler is not answered, if TCP calls none. *)
Lemma called_silent s f c : (∀ src p s, calls (tcp src p s) = calls s) →
  (∀ B, local_ip B = local_ip s → bindings B = bindings s → ∃ B', eth_handle_frame tcp f B = Ret B' ∧ calls B' = calls B ++ [c]) →
  silent s f.
Proof.
  intros Ht Hf B B' H1 H2 E. destruct (Hf B H1 H2) as (B2 & E2 & Hc). rewrite E in E2. injection E2 as <-.
  assert (calls B' ≠ calls B) as Hne.
  { rewrite Hc. intros Hx. apply (f_equal length) in Hx. rewrite length_app in Hx. simpl in Hx. lia. }
  revert E Hne. clear Hc. unfold eth_handle_frame. case_if; [by intros [= <-]|]. case_if.
  { case_if; intros [= <-]; [by rewrite arp_calls|done]. }
  case_if; [|by intros [= <-]]. unfold ip_handle_packet.
  assert (∀ mac pkt s, calls (eth_learn_sender mac pkt s) = calls s ∧ sent (eth_learn_sender mac pkt s) = sent s) as Hl.
  { intros. unfold eth_learn_sender, arp_cache_insert. by repeat case_match. }
  destruct (Hl (take 6 (drop 6 f)) (drop 14 f) B) as [L1 L2]. set (B1 := eth_learn_sender _ _ B) in *. clearbody B1.
  rewrite <- L1, <- L2. destruct (ip_demux _ _); [by intros [= <-]|..]; case_if; try done; intros [= <-] Hne; [|by rewrite Ht in Hne].
  unfold udp_handle_packet in *. by repeat case_match.
Qed.
End traffic.

Lemma same_config_wf s s' : same_config s s' → wf_ip s → wf_ip s'.
Proof. unfold same_config, wf_ip. intros (-> & -> & -> & _). done. Qed.
End netpoll.
