(* ===== verification/Dns.v ===== *)
(** * The DNS client ([src/impl/net/dns.c])

    A pointer into a reply is its offset; every byte read of the reply and
    every byte written to the query buffer of 512 bytes is checked ([Undef]
    outside). The client runs on the stack of [Net.v]: frames that a poll
    delivers go through [eth_handle_frame], and the calls it makes of the
    handler registered for port 40053 are the calls of [dns_handle_reply].
    [clock] gives the uptime at each test of the waiting loop and [frames]
    what the poll after it delivers. *)

From S2P Require Import Prelude Bytes Net NetPoll.
Import netpoll.

Open Scope c_scope.

Module dns.

Definition DNS_PORT : Z := 53.
Definition DNS_CLIENT_PORT : Z := 40053.
Definition sizeof_dns_header : Z := 12.
Definition QUERY_SIZE : nat := 512.

(** [g_dns_got_answer], [g_dns_result], [g_dns_id]. *)
Record dns_state := mk_dns { got_answer : bool; result : Z; query_id : Z }.

(** ** The query *)

(** Bytes stored at [p] in [query]; [out] is what is before it. *)
Definition emit (b out : list Z) : outcome (list Z) :=
  if (length out + length b <=? QUERY_SIZE)%nat then Ret (out ++ b) else Undef.

(** The label up to the next dot and what is left: nothing, or the dot and
    the rest. *)
Fixpoint label_of (host : list Z) : list Z :=
  match host with [] => [] | c :: r => if c =? 46 then [] else c :: label_of r end.

Fixpoint dns_encode_name (fuel : nat) (host out : list Z) : outcome (list Z) :=
  match fuel with
  | O => Hang
  | S fuel =>
      let label := label_of host in
      let label_len := u8 (Z.of_nat (length label)) in
      let* out := emit [label_len] out in
      let* out := emit (take (Z.to_nat label_len) label) out in
      match drop (length label) host with
      | [] => emit [0] out
      | _ :: rest => dns_encode_name fuel rest out
      end
  end.

Definition dns_query (id : Z) (hostname : list Z) : outcome (list Z) :=
  let hdr := le16 (net_htons id) ++ le16 (net_htons 0x0100) ++ le16 (net_htons 1) ++ le16 0 ++ le16 0 ++ le16 0 in
  let* p := dns_encode_name (S (length hostname)) hostname hdr in
  let* p := emit [0; 1] p in
  emit [0; 1] p.

(** ** The reply *)

(** [while (p < end && *p) p += *p + 1] *)
Fixpoint skip_labels (fuel : nat) (data : list Z) (p : Z) : outcome Z :=
  match fuel with
  | O => Hang
  | S fuel =>
      if p <? Z.of_nat (length data) then
        let* c := ld 1 data p in
        if c =? 0 then Ret p else skip_labels fuel data (p + (c + 1))
      else Ret p
  end.

(** The name of a question: a compressed one ends the loop. *)
Fixpoint skip_qname (fuel : nat) (data : list Z) (p : Z) : outcome Z :=
  match fuel with
  | O => Hang
  | S fuel =>
      if p <? Z.of_nat (length data) then
        let* c := ld 1 data p in
        if c =? 0 then Ret (p + 1)
        else if Z.land c 0xC0 =? 0xC0 then Ret (p + 2)
        else skip_qname fuel data (p + (c + 1))
      else Ret (p + 1)
  end.

Fixpoint skip_questions (n : nat) (data : list Z) (p : Z) : outcome Z :=
  match n with
  | O => Ret p
  | S n =>
      if p <? Z.of_nat (length data) then
        let* p := skip_qname (S (length data)) data p in
        skip_questions n data (p + 4)
      else Ret p
  end.

Definition ntoh16_at (data : list Z) (p : Z) : outcome Z := let* v := ld 2 data p in Ret (net_ntohs v).

(** The first A record among [n] answers from [p] on. *)
Fixpoint scan_answers (n : nat) (data : list Z) (p : Z) : outcome (option Z) :=
  match n with
  | O => Ret None
  | S n =>
      let len := Z.of_nat (length data) in
      if p + 12 <=? len then
        let* c := ld 1 data p in
        let* p := (if Z.land c 0xC0 =? 0xC0 then Ret (p + 2)
                   else let* p := skip_labels (S (length data)) data p in Ret (p + 1)) in
        let* rtype := ntoh16_at data p in
        let* rdlen := ntoh16_at data (p + 8) in
        let p := p + 10 in
        if (rtype =? 1) && (rdlen =? 4) && (p + 4 <=? len) then
          let* a := ld 4 data p in Ret (Some (net_ntohl a))
        else scan_answers n data (p + rdlen)
      else Ret None
  end.

Definition dns_handle_reply (data : list Z) (d : dns_state) : outcome dns_state :=
  if Z.of_nat (length data) <? sizeof_dns_header then Ret d
  else
    let* id := ntoh16_at data 0 in
    if negb (id =? query_id d) then Ret d
    else
      let* ancount := ntoh16_at data 6 in
      if ancount =? 0 then Ret d
      else
        let* qdcount := ntoh16_at data 4 in
        let* p := skip_questions (Z.to_nat qdcount) data sizeof_dns_header in
        let* a := scan_answers (Z.to_nat ancount) data p in
        match a with
        | Some ip => Ret (mk_dns true ip (query_id d))
        | None => Ret d
        end.

(** ** Resolving *)

(** The handler registered for the client's port. *)
Definition DNS_HANDLER : Z := 1.

Section resolve.
  Context (arp_poll : net → net) (iters : Z → nat) (tcp : Z → list Z → net → net).
  Context (clock : nat → Z) (frames : nat → list (list Z)).

Abbreviation run_calls := (run_calls DNS_HANDLER dns_handle_reply).
Abbreviation poll_frames := (poll_frames DNS_HANDLER dns_handle_reply tcp).

Fixpoint wait_loop (fuel : nat) (i : nat) (start timeout_ms : Z) (s : net) (d : dns_state) : outcome (net * dns_state) :=
  match fuel with
  | O => Hang
  | S fuel =>
      if got_answer d then Ret (s, d)
      else if u64 (clock i - start) <? timeout_ms then
        let* (s, d) := poll_frames (frames i) s d in
        wait_loop fuel (S i) start timeout_ms s d
      else Ret (s, d)
  end.

(** [now] is the uptime when the query is made, [start] when it is sent. *)
Definition dns_resolve (fuel : nat) (now start : Z) (hostname : list Z) (timeout_ms : Z) (s : net) (d : dns_state) :
    outcome (option Z * net * dns_state) :=
  let dns_server := dns_ip s in
  if dns_server =? 0 then Ret (None, s, d)
  else
    let id := u16 now in
    let* query := dns_query id hostname in
    let d := mk_dns false (result d) id in
    let s1 := (udp_register_handler DNS_CLIENT_PORT DNS_HANDLER s).2 in
    let* (_, s2) := udp_send arp_poll iters dns_server DNS_CLIENT_PORT DNS_PORT query s1 in
    let* d := run_calls (drop (length (calls s1)) (calls s2)) d in
    let* (s3, d) := wait_loop fuel 0 start timeout_ms s2 d in
    Ret (if got_answer d then Some (result d) else None, udp_unregister_handler DNS_CLIENT_PORT s3, d).
End resolve.

(** ** Messages, as RFC 1035 lays them out *)

Definition wire_labels (ls : list (list Z)) : list Z := concat ((λ l, Z.of_nat (length l) :: l) <$> ls).
Definition label_ok (l : list Z) : Prop := (1 ≤ length l ≤ 63)%nat.

(** A name: labels and the root, or labels and a pointer. *)
Inductive name := Full (ls : list (list Z)) | Pointer (ls : list (list Z)) (hi lo : Z).

Definition wire_name (n : name) : list Z :=
  match n with
  | Full ls => wire_labels ls ++ [0]
  | Pointer ls hi lo => wire_labels ls ++ [0xC0 + hi; lo]
  end.

Definition name_ok (n : name) : Prop :=
  match n with
  | Full ls => Forall label_ok ls
  | Pointer ls hi lo => Forall label_ok ls ∧ 0 ≤ hi < 64
  end.

(** The owner names the client can step over: no label before a pointer. *)
Definition owner_ok (n : name) : Prop :=
  match n with Full ls => Forall label_ok ls | Pointer ls hi lo => ls = [] ∧ 0 ≤ hi < 64 end.

Record question := mk_question { q_name : name; q_type : Z; q_class : Z }.
Record answer := mk_answer { a_name : name; a_type : Z; a_class : Z; a_ttl : Z; a_data : list Z }.

Definition wire_question (q : question) : list Z := wire_name (q_name q) ++ be16 (q_type q) ++ be16 (q_class q).
Definition wire_answer (a : answer) : list Z :=
  wire_name (a_name a) ++ be16 (a_type a) ++ be16 (a_class a) ++ be32 (a_ttl a) ++ be16 (Z.of_nat (length (a_data a))) ++ a_data a.

Definition reply (id flags : Z) (qs : list question) (ans : list answer) (ns ar : Z) (extra : list Z) : list Z :=
  be16 id ++ be16 flags ++ be16 (Z.of_nat (length qs)) ++ be16 (Z.of_nat (length ans)) ++ be16 ns ++ be16 ar ++
  concat (wire_question <$> qs) ++ concat (wire_answer <$> ans) ++ extra.

(** The address of the first A record. *)
Fixpoint first_a (ans : list answer) : option Z :=
  match ans with
  | [] => None
  | a :: ans => if (a_type a =? 1) && (length (a_data a) =? 4)%nat then Some (foldl (λ v b, 256 * v + b) 0 (a_data a)) else first_a ans
  end.

Definition answer_ok (a : answer) : Prop :=
  owner_ok (a_name a) ∧ is_u16 (a_type a) ∧ is_u16 (a_class a) ∧ is_u32 (a_ttl a) ∧ Z.of_nat (length (a_data a)) < 65536 ∧ Forall is_u8 (a_data a).

(** ** Reading at a known place *)

Lemma rd_at n (pre b post : list Z) : length b = n → rd n (pre ++ b ++ post) (Z.of_nat (length pre)) = num b.
Proof. intros Hb. unfold rd. by rewrite Nat2Z.id, drop_app_length, take_app_length' by done. Qed.

Lemma ld_at n (pre b post : list Z) p : p = Z.of_nat (length pre) → length b = n → ld n (pre ++ b ++ post) p = Ret (num b).
Proof.
  intros -> Hb. rewrite ld_ok by (rewrite ?length_app; lia). by rewrite rd_at.
Qed.

Lemma ntohs_be16 v : is_u16 v → net_ntohs (num (be16 v)) = v.
Proof.
  intros Hv. unfold be16, num. pose proof (Z.div_mod v 256 ltac:(lia)). pose proof (Z.mod_pos_bound v 256 ltac:(lia)).
  assert (v / 256 < 256) by (apply Z.div_lt_upper_bound; unfold is_u16 in Hv; lia).
  assert (0 ≤ v / 256) by (apply Z.div_pos; unfold is_u16 in Hv; lia).
  unfold net_ntohs. rewrite net_htons_eq by (unfold is_u16; lia).
  assert ((v / 256 + 256 * (v mod 256 + 256 * 0)) mod 256 = v / 256) as -> by (symmetry; apply Z.mod_unique_pos with (v mod 256); lia).
  assert ((v / 256 + 256 * (v mod 256 + 256 * 0)) / 256 = v mod 256) as -> by (symmetry; apply Z.div_unique_pos with (v / 256); lia).
  lia.
Qed.

Lemma ntoh16_be16 (pre post : list Z) p v : p = Z.of_nat (length pre) → is_u16 v → ntoh16_at (pre ++ be16 v ++ post) p = Ret v.
Proof. intros -> Hv. unfold ntoh16_at. rewrite (ld_at 2) by done. cbn [obind]. by rewrite ntohs_be16. Qed.

Lemma ntohl_bytes (b : list Z) : length b = 4%nat → Forall is_u8 b → net_ntohl (num b) = foldl (λ v b, 256 * v + b) 0 b.
Proof.
  intros Hl Hb. destruct b as [|x [|y [|z [|w [|]]]]]; try done. repeat (apply Forall_cons in Hb as [? Hb]).
  cbn [num foldl]. unfold net_ntohl.
  replace (x + 256 * (y + 256 * (z + 256 * (w + 256 * 0)))) with (w * 16777216 + z * 65536 + y * 256 + x) by lia.
  rewrite htonl_bytes by done. lia.
Qed.

(** ** Stepping over names *)

Lemma wire_labels_cons l ls : wire_labels (l :: ls) = Z.of_nat (length l) :: l ++ wire_labels ls.
Proof. done. Qed.

Lemma ld_byte (pre : list Z) c post p : p = Z.of_nat (length pre) → ld 1 (pre ++ c :: post) p = Ret c.
Proof. intros ->. change (c :: post) with ([c] ++ post). rewrite (ld_at 1) by done. cbn [num]. f_equal. lia. Qed.

Lemma small_not_compressed c : 0 ≤ c < 64 → (Z.land c 0xC0 =? 0xC0) = false.
Proof.
  intros Hc. assert (Z.land c 0xC0 = 0) as ->; [|done].
  pose proof (byte_forall (λ c, (c <? 64) && negb (Z.land c 0xC0 =? 0))) as H.
  pose proof (byte_forall (λ c, (64 <=? c) || (Z.land c 0xC0 =? 0)) ltac:(by vm_compute) c ltac:(unfold is_u8; lia)) as E.
  cbv beta in E. apply orb_true_iff in E as [E|E]; [apply Z.leb_le in E; lia|by apply Z.eqb_eq in E].
Qed.

Lemma pointer_compressed hi : 0 ≤ hi < 64 → (Z.land (0xC0 + hi) 0xC0 =? 0xC0) = true.
Proof.
  intros Hc. pose proof (byte_forall (λ c, (c <? 0xC0) || (Z.land c 0xC0 =? 0xC0)) ltac:(by vm_compute) (0xC0 + hi) ltac:(unfold is_u8; lia)) as E.
  cbv beta in E. apply orb_true_iff in E as [E|E]; [apply Z.ltb_lt in E; lia|done].
Qed.

Lemma skip_labels_ok ls : ∀ fuel pre post p, Forall label_ok ls → (length ls < fuel)%nat → p = Z.of_nat (length pre) →
  skip_labels fuel (pre ++ wire_labels ls ++ 0 :: post) p = Ret (p + Z.of_nat (length (wire_labels ls))).
Proof.
  induction ls as [|l ls IH]; intros fuel pre post p Hls Hfu ->; (destruct fuel as [|fuel]; [simpl in Hfu; lia|]); cbn [skip_labels].
  - rewrite (proj2 (Z.ltb_lt _ _)) by (rewrite length_app; cbn [wire_labels fmap list_fmap concat app length]; lia).
    cbn [wire_labels fmap list_fmap concat app]. rewrite ld_byte by done. cbn. f_equal. lia.
  - apply Forall_cons in Hls as [[Hl1 Hl2] Hls]. rewrite wire_labels_cons. cbn [app].
    rewrite (proj2 (Z.ltb_lt _ _)) by (rewrite length_app; cbn [length]; lia).
    rewrite ld_byte by done. cbn [obind]. rewrite (proj2 (Z.eqb_neq _ 0)) by lia.
    rewrite <- (assoc_L (++)). change (pre ++ Z.of_nat (length l) :: ?r) with (pre ++ [Z.of_nat (length l)] ++ r).
    rewrite !(assoc_L (++)), <- (assoc_L (++) _ (wire_labels ls)).
    rewrite (IH fuel) by (done || (rewrite ?length_app; cbn [length] in *; lia)). f_equal.
    cbn [length]. rewrite !length_app. lia.
Qed.

Lemma skip_qname_ok n : ∀ fuel pre post p, name_ok n → (length (wire_name n) < fuel)%nat → p = Z.of_nat (length pre) →
  skip_qname fuel (pre ++ wire_name n ++ post) p = Ret (p + Z.of_nat (length (wire_name n))).
Proof.
  assert (∀ ls tail fuel pre post p, Forall label_ok ls → (length ls < fuel)%nat → p = Z.of_nat (length pre) →
    (∀ fuel pre p, (0 < fuel)%nat → p = Z.of_nat (length pre) → skip_qname fuel (pre ++ tail ++ post) p = Ret (p + Z.of_nat (length tail))) →
    skip_qname fuel (pre ++ (wire_labels ls ++ tail) ++ post) p = Ret (p + Z.of_nat (length (wire_labels ls ++ tail)))) as H.
  { induction ls as [|l ls IH]; intros tail fuel pre post p Hls Hfu -> Ht.
    - cbn [wire_labels fmap list_fmap concat app]. apply Ht; [simpl in Hfu; lia|done].
    - destruct fuel as [|fuel]; [simpl in Hfu; lia|]. apply Forall_cons in Hls as [[Hl1 Hl2] Hls]. rewrite wire_labels_cons. cbn [skip_qname app].
      rewrite (proj2 (Z.ltb_lt _ _)) by (rewrite length_app; cbn [length]; lia).
      rewrite ld_byte by done. cbn [obind]. rewrite (proj2 (Z.eqb_neq _ 0)), small_not_compressed by lia.
      rewrite <- !(assoc_L (++)). change (pre ++ Z.of_nat (length l) :: ?r) with (pre ++ [Z.of_nat (length l)] ++ r).
      rewrite (assoc_L (++) pre), (assoc_L (++) _ l), (assoc_L (++) (wire_labels ls)).
      rewrite (IH tail fuel) by (exact Ht || done || (rewrite ?length_app; cbn [length] in *; lia)). f_equal.
      cbn [length]. rewrite !length_app. lia. }
  intros fuel pre post p Hn Hfu Hp.
  assert (∀ ls, (length ls ≤ length (wire_labels ls))%nat) as Hle.
  { induction ls as [|l ls IHl]; [done|]. rewrite wire_labels_cons. cbn [length]. rewrite length_app. lia. }
  destruct n as [ls|ls hi lo]; cbn [wire_name name_ok] in *; rewrite length_app in Hfu; cbn [length] in Hfu; pose proof (Hle ls).
  - apply H; [done|lia|done|]. intros f pr q Hf ->. destruct f as [|f]; [lia|]. cbn [skip_qname app].
    rewrite (proj2 (Z.ltb_lt _ _)) by (rewrite length_app; cbn [length]; lia). rewrite ld_byte by done. done.
  - destruct Hn as [Hls Hhi]. apply H; [done|lia|done|]. intros f pr q Hf ->. destruct f as [|f]; [lia|]. cbn [skip_qname app].
    rewrite (proj2 (Z.ltb_lt _ _)) by (rewrite length_app; cbn [length]; lia). rewrite ld_byte by done. cbn [obind].
    rewrite (proj2 (Z.eqb_neq _ 0)), pointer_compressed by lia. done.
Qed.

Lemma length_wire_question q : length (wire_question q) = (length (wire_name (q_name q)) + 4)%nat.
Proof. unfold wire_question. rewrite !length_app. simpl. lia. Qed.

Lemma skip_questions_ok qs : ∀ pre post p, Forall (λ q, name_ok (q_name q)) qs → p = Z.of_nat (length pre) →
  skip_questions (length qs) (pre ++ concat (wire_question <$> qs) ++ post) p = Ret (p + Z.of_nat (length (concat (wire_question <$> qs)))).
Proof.
  induction qs as [|q qs IH]; intros pre post p Hqs ->; [cbn; f_equal; lia|]. apply Forall_cons in Hqs as [Hq Hqs].
  rewrite fmap_cons. cbn [concat length skip_questions]. rewrite <- (assoc_L (++)).
  assert (1 ≤ length (wire_name (q_name q)))%nat by (destruct (q_name q); cbn [wire_name]; rewrite length_app; simpl; lia).
  rewrite (proj2 (Z.ltb_lt _ _)) by (rewrite !length_app, length_wire_question; lia).
  set (rest := concat (wire_question <$> qs) ++ post).
  assert (∀ fuel, (length (wire_name (q_name q)) < fuel)%nat → skip_qname fuel (pre ++ wire_question q ++ rest) (Z.of_nat (length pre)) =
    Ret (Z.of_nat (length pre) + Z.of_nat (length (wire_name (q_name q))))) as E.
  { intros fuel Hf. unfold wire_question. rewrite <- !(assoc_L (++)). by apply skip_qname_ok. }
  rewrite E by (rewrite !length_app, length_wire_question; lia). cbn [obind].
  unfold rest. rewrite (assoc_L (++) pre). rewrite IH by (done || (rewrite length_app, length_wire_question; lia)).
  f_equal. rewrite length_app, length_wire_question. lia.
Qed.

Lemma owner_skipped nm pre post : owner_ok nm →
  (let* c := ld 1 (pre ++ wire_name nm ++ post) (Z.of_nat (length pre)) in
   if Z.land c 0xC0 =? 0xC0 then Ret (Z.of_nat (length pre) + 2)
   else let* p := skip_labels (S (length (pre ++ wire_name nm ++ post))) (pre ++ wire_name nm ++ post) (Z.of_nat (length pre)) in Ret (p + 1)) =
  Ret (Z.of_nat (length pre + length (wire_name nm))).
Proof.
  intros Hn. destruct nm as [ls|ls hi lo]; cbn [wire_name owner_ok] in *.
  - assert (∃ c r, wire_labels ls ++ [0] = c :: r ∧ 0 ≤ c < 64) as (c & r & Ec & Hc).
    { destruct ls as [|l ls]; [by exists 0, []|]. apply Forall_cons in Hn as [[? ?] _]. rewrite wire_labels_cons.
      eexists _, _. split; [reflexivity|lia]. }
    rewrite <- (assoc_L (++)). cbn [app].
    replace (wire_labels ls ++ 0 :: post) with (c :: r ++ post) at 1 by (change (0 :: post) with ([0] ++ post); by rewrite (assoc_L (++)), Ec).
    rewrite ld_byte by done. cbn [obind]. rewrite small_not_compressed by done.
    assert (length ls ≤ length (wire_labels ls))%nat as Hle.
    { clear. induction ls as [|l ls IHl]; [done|]. rewrite wire_labels_cons. cbn [length]. rewrite length_app. lia. }
    rewrite skip_labels_ok by (done || (rewrite !length_app; lia)). cbn [obind]. f_equal. rewrite length_app. cbn [length]. lia.
  - destruct Hn as [-> Hhi]. cbn [wire_labels fmap list_fmap concat app]. rewrite ld_byte by done. cbn [obind].
    rewrite pointer_compressed by done. f_equal. cbn [length]. lia.
Qed.

Lemma wire_name_pos nm : (1 ≤ length (wire_name nm))%nat.
Proof. destruct nm; cbn [wire_name]; rewrite length_app; simpl; lia. Qed.

Lemma length_wire_answer a : length (wire_answer a) = (length (wire_name (a_name a)) + 10 + length (a_data a))%nat.
Proof. unfold wire_answer. rewrite !length_app. simpl. lia. Qed.

(** What is left of the message after a name is too short for a record: then
    there is none. *)
Lemma no_room a ans extra : (length (wire_answer a ++ concat (wire_answer <$> ans) ++ extra) < 12)%nat → first_a (a :: ans) = None.
Proof.
  rewrite !length_app, length_wire_answer. intros H. pose proof (wire_name_pos (a_name a)) as Hp. cbn [first_a].
  rewrite (proj2 (Nat.eqb_neq _ 4)), andb_false_r by lia. destruct ans as [|b ans]; [done|].
  rewrite fmap_cons in H. cbn [concat] in H. rewrite length_app, length_wire_answer in H. pose proof (wire_name_pos (a_name b)). lia.
Qed.

Lemma scan_answers_ok ans : ∀ pre extra, Forall answer_ok ans →
  scan_answers (length ans) (pre ++ concat (wire_answer <$> ans) ++ extra) (Z.of_nat (length pre)) = Ret (first_a ans).
Proof.
  induction ans as [|a ans IH]; intros pre extra Hans; [done|]. apply Forall_cons in Hans as [(Ho & Ht & Hc & Htt & Hd & Hb) Hans].
  rewrite fmap_cons. cbn [concat length scan_answers]. rewrite <- (assoc_L (++)). set (rest := concat (wire_answer <$> ans) ++ extra).
  destruct (Z.leb_spec (Z.of_nat (length pre) + 12) (Z.of_nat (length (pre ++ wire_answer a ++ rest)))) as [Hr|Hr].
  2: { f_equal. symmetry. apply (no_room a ans extra). fold rest. rewrite length_app in Hr. lia. }
  set (nm := wire_name (a_name a)).
  pose proof (owner_skipped (a_name a) pre (be16 (a_type a) ++ be16 (a_class a) ++ be32 (a_ttl a) ++ be16 (Z.of_nat (length (a_data a))) ++ a_data a ++ rest) Ho) as Es.
  fold nm in Es. unfold wire_answer. fold nm. rewrite <- !(assoc_L (++)).
  set (q := nm ++ be16 (a_type a) ++ be16 (a_class a) ++ be32 (a_ttl a) ++ be16 (Z.of_nat (length (a_data a))) ++ a_data a ++ rest) in *.
  assert (∀ (k : Z → outcome (option Z)) (o : outcome Z) (f : Z → outcome Z), obind o (λ c, obind (f c) k) = obind (obind o f) k) as Hassoc.
  { intros k o f. by destruct o. }
  rewrite (Hassoc _ (ld 1 _ _)), Es. cbn [obind].
  assert (ntoh16_at (pre ++ q) (Z.of_nat (length pre + length nm)) = Ret (a_type a)) as ->.
  { unfold q. rewrite (assoc_L (++) pre). apply ntoh16_be16; [by rewrite length_app|done]. }
  cbn [obind].
  assert (ntoh16_at (pre ++ q) (Z.of_nat (length pre + length nm) + 8) = Ret (Z.of_nat (length (a_data a)))) as ->.
  { unfold q. rewrite (assoc_L (++) pre), (assoc_L (++) (pre ++ nm)), (assoc_L (++) (_ ++ be16 (a_type a))), (assoc_L (++) (_ ++ be16 (a_class a))).
    apply ntoh16_be16; [rewrite !length_app; cbn [be16 be32 length]; lia|unfold is_u16; lia]. }
  cbn [obind first_a].
  assert (pre ++ q = (pre ++ nm ++ be16 (a_type a) ++ be16 (a_class a) ++ be32 (a_ttl a) ++ be16 (Z.of_nat (length (a_data a)))) ++ a_data a ++ rest) as Eq'.
  { unfold q. by rewrite <- !(assoc_L (++)). }
  set (pre' := pre ++ nm ++ be16 (a_type a) ++ be16 (a_class a) ++ be32 (a_ttl a) ++ be16 (Z.of_nat (length (a_data a)))) in *.
  assert (Z.of_nat (length pre + length nm) + 10 = Z.of_nat (length pre')) as Ep.
  { unfold pre'. rewrite !length_app. cbn [be16 be32 length]. lia. }
  rewrite Ep, Eq'. replace (Z.of_nat (length (a_data a)) =? 4) with (length (a_data a) =? 4)%nat.
  2: { destruct (Nat.eqb_spec (length (a_data a)) 4) as [->|]; [done|]. symmetry. apply Z.eqb_neq. lia. }
  destruct (a_type a =? 1); cbn [andb].
  - destruct (Nat.eqb_spec (length (a_data a)) 4) as [El|El]; cbn [andb].
    + rewrite (proj2 (Z.leb_le _ _)) by (rewrite !length_app; lia). rewrite (ld_at 4) by done. cbn [obind]. by rewrite ntohl_bytes.
    + unfold rest. rewrite (assoc_L (++) pre'), <- Nat2Z.inj_add, <- length_app. by apply IH.
  - unfold rest. rewrite (assoc_L (++) pre'), <- Nat2Z.inj_add, <- length_app. by apply IH.
Qed.

(** The header of a reply. *)
Lemma handle_reply_ok id flags qs ans ns ar extra d : query_id d = id → is_u16 id → is_u16 flags → is_u16 ns → is_u16 ar →
  Z.of_nat (length qs) < 65536 → Z.of_nat (length ans) < 65536 → Forall (λ q, name_ok (q_name q)) qs → Forall answer_ok ans →
  dns_handle_reply (reply id flags qs ans ns ar extra) d =
  Ret (match first_a ans with Some ip => mk_dns true ip id | None => d end).
Proof.
  intros Hid Hi Hf Hns Har Hlq Hla Hqs Hans. unfold dns_handle_reply. set (m := reply id flags qs ans ns ar extra).
  assert (length m = (12 + length (concat (wire_question <$> qs) ++ concat (wire_answer <$> ans) ++ extra))%nat) as Lm by done.
  rewrite (proj2 (Z.ltb_ge _ _)) by (unfold sizeof_dns_header; lia).
  assert (ntoh16_at m 0 = Ret id) as -> by by apply (ntoh16_be16 []).
  cbn [obind]. rewrite Hid, Z.eqb_refl. cbn [negb].
  assert (ntoh16_at m 6 = Ret (Z.of_nat (length ans))) as ->.
  { unfold m, reply. rewrite (assoc_L (++)), (assoc_L (++)). apply ntoh16_be16; [done|unfold is_u16; lia]. }
  cbn [obind]. destruct (Z.eqb_spec (Z.of_nat (length ans)) 0) as [E|E]; [by destruct ans|].
  assert (ntoh16_at m 4 = Ret (Z.of_nat (length qs))) as ->.
  { unfold m, reply. rewrite (assoc_L (++)). apply ntoh16_be16; [done|unfold is_u16; lia]. }
  cbn [obind]. rewrite !Nat2Z.id.
  set (hdr := be16 id ++ be16 flags ++ be16 (Z.of_nat (length qs)) ++ be16 (Z.of_nat (length ans)) ++ be16 ns ++ be16 ar).
  assert (m = hdr ++ concat (wire_question <$> qs) ++ concat (wire_answer <$> ans) ++ extra) as -> by done.
  change sizeof_dns_header with (Z.of_nat (length hdr)). rewrite skip_questions_ok by done. cbn [obind].
  rewrite (assoc_L (++) hdr), <- Nat2Z.inj_add, <- length_app, scan_answers_ok by done. cbn [obind]. by destruct (first_a ans).
Qed.

(** ** Writing a query *)

(** A host name: its labels between dots. *)
Fixpoint dotted (ls : list (list Z)) : list Z :=
  match ls with
  | [] => []
  | [l] => l
  | l :: ls => l ++ 46 :: dotted ls
  end.

Definition plain_label (l : list Z) : Prop := label_ok l ∧ 46 ∉ l.

Lemma emit_ok b out : (length out + length b ≤ QUERY_SIZE)%nat → emit b out = Ret (out ++ b).
Proof. intros H. unfold emit. by rewrite (proj2 (Nat.leb_le _ _)). Qed.

Lemma label_of_end l : 46 ∉ l → label_of l = l.
Proof.
  induction l as [|c l IH]; intros Hl; [done|]. apply not_elem_of_cons in Hl as [Hc Hl]. cbn [label_of].
  rewrite (proj2 (Z.eqb_neq c 46)) by congruence. by rewrite IH.
Qed.

Lemma label_of_dot l r : 46 ∉ l → label_of (l ++ 46 :: r) = l.
Proof.
  induction l as [|c l IH]; intros Hl; [done|]. apply not_elem_of_cons in Hl as [Hc Hl]. cbn [app label_of].
  rewrite (proj2 (Z.eqb_neq c 46)) by congruence. by rewrite IH.
Qed.

Lemma encode_ok ls : ∀ fuel out, ls ≠ [] → Forall plain_label ls → (length ls ≤ fuel)%nat →
  (length out + length (wire_name (Full ls)) ≤ QUERY_SIZE)%nat →
  dns_encode_name fuel (dotted ls) out = Ret (out ++ wire_name (Full ls)).
Proof.
  induction ls as [|l ls IH]; intros fuel out Hne Hls Hfu Hsz; [done|]. apply Forall_cons in Hls as [[[Hl1 Hl2] Hd] Hls].
  destruct fuel as [|fuel]; [simpl in Hfu; lia|]. cbn [wire_name] in *. rewrite wire_labels_cons in *.
  rewrite length_app in Hsz. cbn [length] in Hsz. rewrite length_app in Hsz.
  assert (label_of (dotted (l :: ls)) = l) as El by (destruct ls; [by apply label_of_end|by apply label_of_dot]).
  cbn [dns_encode_name]. rewrite El, u8_small by (unfold is_u8; lia). rewrite emit_ok by (cbn [length]; lia). cbn [obind].
  rewrite take_ge by lia. rewrite emit_ok by (rewrite length_app; cbn [length]; lia). cbn [obind].
  destruct ls as [|l' ls].
  - cbn [dotted]. rewrite drop_ge by lia. rewrite emit_ok by (rewrite !length_app; cbn [length] in *; lia).
    cbn [wire_labels fmap list_fmap concat app]. by rewrite app_nil_r, <- !(assoc_L (++)).
  - change (dotted (l :: l' :: ls)) with (l ++ 46 :: dotted (l' :: ls)). rewrite drop_app_length.
    rewrite IH by (done || (cbn [length wire_name] in *; rewrite ?length_app; cbn [length] in *; lia)).
    cbn [wire_name app]. f_equal. by rewrite <- !(assoc_L (++)).
Qed.

Lemma dotted_length ls : ls ≠ [] → Forall plain_label ls → (length ls ≤ S (length (dotted ls)))%nat.
Proof.
  induction ls as [|l ls IH]; intros Hne Hls; [done|]. apply Forall_cons in Hls as [[[? ?] _] Hls].
  destruct ls as [|l' ls]; [simpl; lia|]. specialize (IH ltac:(done) Hls).
  change (dotted (l :: l' :: ls)) with (l ++ 46 :: dotted (l' :: ls)). rewrite length_app. cbn [length] in *. lia.
Qed.

(** The query as RFC 1035 lays it out. *)
Definition query_message (id : Z) (ls : list (list Z)) : list Z :=
  be16 id ++ be16 0x0100 ++ be16 1 ++ be16 0 ++ be16 0 ++ be16 0 ++ wire_question (mk_question (Full ls) 1 1).

Definition host_ok (ls : list (list Z)) : Prop :=
  ls ≠ [] ∧ Forall plain_label ls ∧ (length (wire_labels ls) ≤ 495)%nat.

Lemma query_ok id ls : is_u16 id → host_ok ls → dns_query id (dotted ls) = Ret (query_message id ls).
Proof.
  intros Hid (Hne & Hls & Hsz). unfold dns_query. rewrite !le16_htons by (done || (unfold is_u16; lia)).
  change (le16 0) with (be16 0). set (hdr := be16 id ++ be16 0x0100 ++ be16 1 ++ be16 0 ++ be16 0 ++ be16 0).
  assert (length hdr = 12%nat) as Lh by done.
  assert (length (wire_name (Full ls)) ≤ 496)%nat by (cbn [wire_name]; rewrite length_app; simpl; lia).
  rewrite encode_ok by (done || (pose proof (dotted_length ls Hne Hls); unfold QUERY_SIZE; lia)). cbn [obind].
  rewrite emit_ok by (rewrite !length_app, Lh; cbn [length]; unfold QUERY_SIZE; lia). cbn [obind].
  rewrite emit_ok by (rewrite !length_app, Lh; cbn [length]; unfold QUERY_SIZE; lia). f_equal. unfold query_message, wire_question, hdr. cbn [q_name q_type q_class].
  rewrite <- !(assoc_L (++)). done.
Qed.

(** ** A name resolved over the network *)

Section network.
  Context (arp_poll : net → net) (iters : Z → nat) (tcp : Z → list Z → net → net).
  Context (Htcp : ∀ src p s, same_config s (tcp src p s)).
  Context (clock : nat → Z) (frames : nat → list (list Z)).

Lemma u8_wire_labels ls : Forall (Forall is_u8) ls → Forall label_ok ls → Forall is_u8 (wire_labels ls).
Proof.
  induction ls as [|l ls IH]; intros H1 H2; [apply Forall_nil_2|]. apply Forall_cons in H1 as [Hl H1], H2 as [[? ?] H2].
  rewrite wire_labels_cons. apply Forall_cons. split; [unfold is_u8; lia|]. apply Forall_app. auto.
Qed.

Lemma u8_query id ls : is_u16 id → host_ok ls → Forall (Forall is_u8) ls → Forall is_u8 (query_message id ls).
Proof.
  intros Hid (_ & Hp & _) Hb. unfold query_message, wire_question. cbn [q_name q_type q_class wire_name].
  assert (Forall label_ok ls) by (eapply Forall_impl; [exact Hp|]; by intros ? []).
  repeat (apply Forall_app; split); try (apply be16_u8; unfold is_u16 in *; lia); [by apply u8_wire_labels|].
  apply Forall_cons. split; [unfold is_u8; lia|apply Forall_nil_2].
Qed.

Lemma query_length id ls : host_ok ls → (length (query_message id ls) ≤ 512)%nat.
Proof.
  intros (_ & _ & Hl). unfold query_message, wire_question. cbn [q_name q_type q_class wire_name]. rewrite !length_app. cbn [be16 length]. lia.
Qed.

(** A frame that the resolver of query [id] ignores: traffic for others, and
    datagrams to its port that answer another query or hold no A record. *)
Definition foreign (id : Z) (s : net) (f : list Z) : Prop :=
  ∀ d, query_id d = id → keeps DNS_HANDLER dns_handle_reply tcp (λ d', d' = d) s f.

Lemma foreign_keeps id s l d : Forall (foreign id s) l → query_id d = id → Forall (keeps DNS_HANDLER dns_handle_reply tcp (λ d', d' = d) s) l.
Proof. intros Hl Hd. eapply Forall_impl; [exact Hl|]. intros f Hf. by apply Hf. Qed.

(** Rounds that bring nothing for the resolver. *)
Lemma wait_foreign start timeout s1 d k : got_answer d = false → ∀ fuel i s,
  (∀ j, (i ≤ j < i + k)%nat → u64 (clock j - start) < timeout ∧ Forall (foreign (query_id d) s1) (frames j)) →
  local_ip s = local_ip s1 → bindings s = bindings s1 →
  ∃ s', same_config s s' ∧ wait_loop tcp clock frames (k + fuel) i start timeout s d = wait_loop tcp clock frames fuel (i + k) start timeout s' d.
Proof using Htcp.
  intros Hd. induction k as [|k IH]; intros fuel i s Hj Hip Hb; [exists s; by rewrite Nat.add_0_r|].
  destruct (Hj i) as [Ht Hf]; [lia|].
  destruct (poll_keeps DNS_HANDLER dns_handle_reply tcp Htcp _ s1 _ (foreign_keeps _ _ _ d Hf eq_refl) s d Hip Hb eq_refl) as (s2 & d' & [Hc _] & -> & E).
  specialize (E []). rewrite app_nil_r in E. pose proof Hc as (_ & H1 & _ & H2 & _).
  destruct (IH fuel (S i) s2) as (s3 & Hc3 & E3); [intros j Hj'; apply Hj; lia|congruence..|].
  exists s3. split; [by eapply same_config_trans|]. cbn [Nat.add wait_loop]. rewrite Hd, (proj2 (Z.ltb_lt _ _)) by done.
  rewrite E. cbn [obind poll_frames]. rewrite E3. f_equal. lia.
Qed.

Lemma resolve_answered fuel now start timeout s d ls s1 mac A A' macA qs ans ns ar extra ip k pre f post :
  (k + 2 ≤ fuel)%nat → dns_ip s ≠ 0 → is_u32 (dns_ip s) → wf_ip s → is_u32 (local_ip s) → host_ok ls → Forall (Forall is_u8) ls →
  udp_register_handler DNS_CLIENT_PORT DNS_HANDLER s = (true, s1) → known_hop (dns_ip s) s1 = Some mac → length mac = 6%nat →
  let id := u16 now in let msg := reply id 0x8180 qs ans ns ar extra in
  is_u16 ns → is_u16 ar → Z.of_nat (length qs) < 65536 → Z.of_nat (length ans) < 65536 →
  Forall (λ q, name_ok (q_name q)) qs → Forall answer_ok ans → first_a ans = Some ip →
  wf_ip A → Forall is_u8 msg → Z.of_nat (length msg) ≤ 1472 → known_hop (local_ip s) A = Some macA → length macA = 6%nat →
  udp_send arp_poll iters (local_ip s) DNS_PORT DNS_CLIENT_PORT msg A = Ret (true, A') → sent A' = sent A ++ [f] →
  (∀ j, (j ≤ k)%nat → u64 (clock j - start) < timeout) →
  (∀ j, (j < k)%nat → Forall (foreign id s1) (frames j)) →
  frames k = pre ++ f :: post → Forall (foreign id s1) pre → Forall (foreign id s1) post →
  ∃ q l s', dns_resolve arp_poll iters tcp clock frames fuel now start (dotted ls) timeout s d = Ret (Some ip, s', mk_dns true ip id) ∧
    sent s' = sent s ++ q :: l ∧
    heard tcp q (dns_ip s) (local_ip s) DNS_CLIENT_PORT DNS_PORT (query_message id ls).
Proof using Htcp.
  intros Hfu Hdns Hdns32 Hwf Hip Hhost Hbytes Hreg Hhop Hmac id msg Hns Har Hq Ha Hqs Hans Hfirst HwA Hmsg Hlen HhopA HmacA HsendA HsentA Ht Hfor Hf Hpre Hpost.
  assert (is_u16 id) as Hid by apply u16_range.
  assert (local_ip s1 = local_ip s ∧ dns_ip s1 = dns_ip s ∧ wf_ip s1 ∧ calls s1 = calls s ∧ sent s1 = sent s) as (Hip1 & Hdns1 & Hwf1 & Hcalls1 & Hs1).
  { unfold udp_register_handler in Hreg. repeat (destruct (first_index _ _); [injection Hreg as <-; done|]). done. }
  pose proof (query_length id ls Hhost) as Hql.
  destruct (udp_send_state arp_poll iters (dns_ip s) DNS_CLIENT_PORT DNS_PORT (query_message id ls) s1 mac) as (s2 & q & Es & Hsent & Hb2 & Hc2 & Hip2 & _); [done|lia|].
  destruct (wait_foreign start timeout s1 (mk_dns false (result d) id) k eq_refl (S (S (fuel - k - 2))) 0 s2) as (s3 & Hc3 & E3);
    [intros j ?; split; [apply Ht|apply Hfor]; lia|done..|].
  pose proof Hc3 as (_ & Hip3 & _ & Hb3 & _).
  destruct (poll_arrives DNS_HANDLER dns_handle_reply tcp Htcp (λ d', d' = mk_dns false (result d) id) (λ d', d' = mk_dns true ip id) s1 pre f post
    (local_ip A) DNS_PORT msg) with (B := s3) (d := mk_dns false (result d) id) as (s4 & d4 & [Hc4 _] & -> & E4);
    [by eapply foreign_keeps|by eapply foreign_keeps|..|congruence|congruence|done|].
  { intros ? ->. exists (mk_dns true ip id). unfold msg. rewrite (handle_reply_ok id) by (done || (unfold is_u16; lia)). by rewrite Hfirst. }
  { intros B HipB HbB. apply (heard_arrives tcp f (local_ip s) (local_ip A) DNS_PORT DNS_CLIENT_PORT msg DNS_HANDLER s s1 B); try done; [|left; congruence].
    by apply (frame_heard arp_poll iters tcp A A' (local_ip s) DNS_PORT DNS_CLIENT_PORT msg macA f). }
  destruct (same_config_trans _ _ _ Hc3 Hc4) as (_ & _ & _ & _ & [l Hl]).
  exists q, l, (udp_unregister_handler DNS_CLIENT_PORT s4). split; [|split].
  - unfold dns_resolve. rewrite (proj2 (Z.eqb_neq _ 0)) by done. fold id. rewrite (query_ok id ls) by done. cbn [obind].
    rewrite Hreg. cbn [snd]. rewrite Es. cbn [obind]. rewrite Hc2, drop_all. cbn [netpoll.run_calls obind].
    replace fuel with (k + S (S (fuel - k - 2)))%nat at 1 by lia. rewrite E3. cbn [Nat.add wait_loop got_answer].
    rewrite (proj2 (Z.ltb_lt _ _)) by (by apply Ht). rewrite Hf, E4. done.
  - cbn [udp_unregister_handler set_bindings sent]. rewrite Hl, Hsent, Hs1, <- (assoc_L (++)). done.
  - rewrite <- Hip1. apply (frame_heard arp_poll iters tcp s1 s2 _ _ _ _ mac); try done; [by apply u8_query|lia].
Qed.

(** C29. A DNS answer is read as RFC 1035 writes it: for every reply to the
    client's query with any questions, any answer records whose owner names
    are whole names or lone pointers, and anything after them, the handler
    takes the address of the first A record, stays inside the datagram, and
    leaves the state alone when there is none. Owner names of labels that end
    in a pointer, which the RFC allows, are left out ([owner_ok]): the code
    misreads them ([dns_label_then_pointer]). *)
Theorem dns_reply_correct flags qs ans ns ar extra d : is_u16 (query_id d) → is_u16 flags → is_u16 ns → is_u16 ar →
  Z.of_nat (length qs) < 65536 → Z.of_nat (length ans) < 65536 → Forall (λ q, name_ok (q_name q)) qs → Forall answer_ok ans →
  dns_handle_reply (reply (query_id d) flags qs ans ns ar extra) d =
  Ret (match first_a ans with Some ip => mk_dns true ip (query_id d) | None => d end).
Proof. intros. by apply handle_reply_ok. Qed.

(** C15. A name is resolved: the first frame the client sends is one that the
    server's port 53 receives as the RFC 1035 query for the labels of the host
    name; when the server's answer (its owner names whole names or lone
    pointers, [owner_ok]) arrives in any round of the polling before the
    time-out, among any frames that are not for the resolver, [dns_resolve]
    returns the address of its first A record. *)
Theorem dns_resolve_correct fuel now start timeout s d ls s1 mac A A' macA qs ans ns ar extra ip k pre f post :
  (k + 2 ≤ fuel)%nat → dns_ip s ≠ 0 → is_u32 (dns_ip s) → wf_ip s → is_u32 (local_ip s) → host_ok ls → Forall (Forall is_u8) ls →
  udp_register_handler DNS_CLIENT_PORT DNS_HANDLER s = (true, s1) → known_hop (dns_ip s) s1 = Some mac → length mac = 6%nat →
  let id := u16 now in let msg := reply id 0x8180 qs ans ns ar extra in
  is_u16 ns → is_u16 ar → Z.of_nat (length qs) < 65536 → Z.of_nat (length ans) < 65536 →
  Forall (λ q, name_ok (q_name q)) qs → Forall answer_ok ans → first_a ans = Some ip →
  wf_ip A → Forall is_u8 msg → Z.of_nat (length msg) ≤ 1472 → known_hop (local_ip s) A = Some macA → length macA = 6%nat →
  udp_send arp_poll iters (local_ip s) DNS_PORT DNS_CLIENT_PORT msg A = Ret (true, A') → sent A' = sent A ++ [f] →
  (∀ j, (j ≤ k)%nat → u64 (clock j - start) < timeout) →
  (∀ j, (j < k)%nat → Forall (foreign id s1) (frames j)) →
  frames k = pre ++ f :: post → Forall (foreign id s1) pre → Forall (foreign id s1) post →
  ∃ q l s', dns_resolve arp_poll iters tcp clock frames fuel now start (dotted ls) timeout s d = Ret (Some ip, s', mk_dns true ip id) ∧
    sent s' = sent s ++ q :: l ∧
    heard tcp q (dns_ip s) (local_ip s) DNS_CLIENT_PORT DNS_PORT (query_message id ls).
Proof using Htcp. apply resolve_answered. Qed.

(** Without an answer the wait ends when the clock passes the time-out. *)
Lemma wait_ends start timeout n : ∀ i s d, (∀ k s d, ∃ s' d', poll_frames DNS_HANDLER dns_handle_reply tcp (frames k) s d = Ret (s', d')) →
  timeout ≤ u64 (clock (i + n)%nat - start) → ∃ r, wait_loop tcp clock frames (S n) i start timeout s d = Ret r.
Proof.
  induction n as [|n IH]; intros i s d Hp Ht; cbn [wait_loop]; destruct (got_answer d); eauto.
  - rewrite Nat.add_0_r in Ht. rewrite (proj2 (Z.ltb_ge _ _)) by done. eauto.
  - destruct (u64 (clock i - start) <? timeout); [|eauto]. destruct (Hp i s d) as (s' & d' & ->). cbn [obind].
    apply IH; [done|]. by replace (S i + n)%nat with (i + S n)%nat by lia.
Qed.
End network.

(** ** A client and a server *)

Definition demo_client : net :=
  mk_net [2; 0; 0; 0; 0; 1] 0x0a000002 0xffffff00 0x0a000001 0x0a000001 1
    [mk_arp true 0x0a000001 [2; 0; 0; 0; 0; 9]] (replicate 8 udp_empty) [] [].
Definition demo_server : net :=
  mk_net [2; 0; 0; 0; 0; 9] 0x0a000001 0xffffff00 0 0 1
    [mk_arp true 0x0a000002 [2; 0; 0; 0; 0; 1]] [mk_binding true 53 7] [] [].
Definition demo_host : list (list Z) := [txt "www"; txt "os"].
Definition demo_question : question := mk_question (Full demo_host) 1 1.
Definition demo_answers : list answer :=
  [mk_answer (Pointer [] 0 12) 5 1 60 (wire_name (Full [txt "os"])); mk_answer (Full [txt "os"]) 1 1 60 [10; 1; 2; 3]].

Lemma dns_reply_correct_witness :
  dns_handle_reply (reply 77 0x8180 [demo_question] demo_answers 0 0 [1; 2; 3]) (mk_dns false 0 77) = Ret (mk_dns true 0x0a010203 77).
Proof.
  apply (dns_reply_correct 0x8180 [demo_question] demo_answers 0 0 [1; 2; 3] (mk_dns false 0 77)); try (unfold is_u16; cbn; lia).
  - repeat constructor; simpl; lia.
  - repeat constructor; unfold is_u16, is_u32; simpl; try lia.
Defined.

(** An ARP request in the first round, nothing in the second; the answer comes
    in the third, behind a runt frame. *)
Definition demo_arp : list Z :=
  BROADCAST_MAC ++ [2; 0; 0; 0; 0; 9] ++ le16 (net_htons ETHERTYPE_ARP) ++
  arp_packet ARP_OP_REQUEST [2; 0; 0; 0; 0; 9] 0x0a000001 (replicate 6 0) (le32 (net_htonl 0x0a000002)).
Definition demo_rounds (f : list Z) (i : nat) : list (list Z) :=
  match i with 0%nat => [demo_arp] | 2%nat => [[1; 2; 3]; f; demo_arp] | _ => [] end.

Lemma dns_resolve_correct_witness : ∃ s' f,
  dns_resolve (λ s, s) (λ _, 0%nat) (λ _ _ s, s) (λ i, 5 + 300 * Z.of_nat i) (demo_rounds f) 4 77 0 (txt "www.os") 1000 demo_client (mk_dns false 0 0) =
  Ret (Some 0x0a010203, s', mk_dns true 0x0a010203 77).
Proof.
  destruct (udp_send (λ s, s) (λ _, 0%nat) 0x0a000002 DNS_PORT DNS_CLIENT_PORT (reply 77 0x8180 [demo_question] demo_answers 0 0 []) demo_server)
    as [[r A']| | |] eqn:Es; try by vm_compute in Es.
  assert (∃ f, sent A' = sent demo_server ++ [f] ∧ r = true) as (f & Hf & ->).
  { vm_compute in Es. injection Es as <- <-. by eexists. }
  destruct (dns_resolve_correct (λ s, s) (λ _, 0%nat) (λ _ _ s, s) (λ _ _ s, same_config_refl s) (λ i, 5 + 300 * Z.of_nat i) (demo_rounds f) 4 77 0 1000
    demo_client (mk_dns false 0 0) demo_host
    (udp_register_handler DNS_CLIENT_PORT DNS_HANDLER demo_client).2 [2; 0; 0; 0; 0; 9] demo_server A' [2; 0; 0; 0; 0; 1]
    [demo_question] demo_answers 0 0 [] 0x0a010203 2 [[1; 2; 3]] f [demo_arp]) as (q & l & s' & E & _); try done; try (unfold is_u16, is_u32; cbn; lia).
  - split; [done|]. split; [|simpl; lia]. repeat constructor; simpl; try lia; apply (bool_decide_unpack _); by vm_compute.
  - repeat constructor; vm_compute; intuition congruence.
  - repeat constructor; simpl; lia.
  - repeat constructor; unfold is_u16, is_u32; simpl; try lia.
  - repeat constructor; vm_compute; intuition congruence.
  - intros j Hj. rewrite u64_small; unfold is_u64; lia.
  - intros [|[|j]] Hj; [|apply Forall_nil_2|lia]. apply Forall_singleton. intros ? _. apply arp_keeps. right. reflexivity.
  - apply Forall_singleton. intros ? _. apply arp_keeps. left. simpl. lia.
  - apply Forall_singleton. intros ? _. apply arp_keeps. right. reflexivity.
  - exists s', f. exact E.
Defined.

(** ** What the client does not test *)

(** An owner name of labels that end in a pointer is legal; its pointer is
    taken for a label of 192 bytes, and the record is read past the end. *)
Lemma dns_label_then_pointer :
  dns_handle_reply (reply 77 0x8180 [] [mk_answer (Pointer [txt "www"] 0 12) 1 1 60 [10; 1; 2; 3]] 0 0 []) (mk_dns false 0 77) = Undef.
Proof. by vm_compute. Qed.

(** A label length that leads out of the datagram: the type is read there. *)
Lemma dns_reads_past_end : dns_handle_reply (be16 77 ++ be16 0x8180 ++ be16 0 ++ be16 1 ++ be16 0 ++ be16 0 ++ 100 :: replicate 11 0) (mk_dns false 0 77) = Undef.
Proof. by vm_compute. Qed.

(** A host name of more than 494 characters runs over the query buffer. *)
Lemma dns_query_overruns : dns_query 77 (dotted (replicate 250 [97])) = Undef.
Proof. by vm_compute. Qed.

(** The length of a label is cut to 8 bits: 257 letters ask for one. *)
Lemma dns_label_cut : dns_query 77 (replicate 257 97) = Ret (query_message 77 [[97]]).
Proof. by vm_compute. Qed.
End dns.
