(* ===== verification/Dhcp.v ===== *)
(** * The DHCP client ([src/impl/net/dhcp.c])

    The packet of [dhcp_packet_t] is its bytes; a reply is a datagram of any
    length whose bytes are read with a check ([Undef] outside). The client
    runs on [Net.v] through [NetPoll.v]. A round of a waiting loop is what the
    clock shows at its three readings and the frames its poll delivers. *)

From S2P Require Import Prelude Bytes Net NetPoll Dns.
Import netpoll dns.

Open Scope c_scope.

Module dhcp.

Definition DHCP_CLIENT_PORT : Z := 68.
Definition DHCP_SERVER_PORT : Z := 67.
Definition DHCP_MAGIC_COOKIE : Z := 0x63825363.
Definition DHCPDISCOVER : Z := 1.
Definition DHCPOFFER : Z := 2.
Definition DHCPREQUEST : Z := 3.
Definition DHCPACK : Z := 5.
Definition DHCPNAK : Z := 6.

(** [offsetof(dhcp_packet_t, options)] *)
Definition OPTIONS : Z := 240.

Record dhcp_state := mk_dhcp {
  offer_received : bool; ack_received : bool; nak_received : bool;
  offered_ip : Z; server_ip : Z; offered_netmask : Z; offered_gateway : Z; offered_dns : Z;
  xid : Z; replies_seen : Z; replies_other_xid : Z
}.

(** ** Sending *)

Definition dhcp_put_option (p : list Z) (code : Z) (data : list Z) : list Z := p ++ [code; u8 (Z.of_nat (length data))] ++ data.

(** The bytes that go out: the packet up to the end of its options, 300 at
    least. *)
Definition dhcp_packet (mac : list Z) (id msg_type requested_ip server : Z) : list Z :=
  let p := dhcp_put_option [] 53 [msg_type] in
  let p := if msg_type =? DHCPREQUEST
           then dhcp_put_option (dhcp_put_option p 50 (le32 (net_htonl requested_ip))) 54 (le32 (net_htonl server)) else p in
  let p := dhcp_put_option p 55 [1; 3; 6] ++ [0xFF] in
  let opt_len := u16 (Z.of_nat (length p)) in
  let total_len := u16 (OPTIONS + opt_len) in
  let total_len := if total_len <? 300 then 300 else total_len in
  take (Z.to_nat total_len)
    ([1; 1; 6; 0] ++ le32 (net_htonl id) ++ le16 0 ++ le16 (net_htons 0x8000) ++ replicate 16 0 ++
     take 6 mac ++ replicate 10 0 ++ replicate 64 0 ++ replicate 128 0 ++ le32 (net_htonl DHCP_MAGIC_COOKIE) ++
     p ++ replicate (312 - length p) 0).

(** ** Options of a reply *)

(** Place and length of the first option [code] from [p] on. *)
Fixpoint option_loop (fuel : nat) (data : list Z) (code p : Z) : outcome (option (Z * Z)) :=
  match fuel with
  | O => Hang
  | S fuel =>
      let end_ := Z.of_nat (length data) in
      if p <? end_ then
        let* c := ld 1 data p in
        if c =? 0xFF then Ret None
        else if c =? 0 then option_loop fuel data code (p + 1)
        else if end_ <=? p + 1 then Ret None
        else
          let* len := ld 1 data (p + 1) in
          if end_ <? p + 2 + len then Ret None
          else if c =? code then Ret (Some (p + 2, len))
          else option_loop fuel data code (p + 2 + len)
      else Ret None
  end.

Definition dhcp_find_option (data : list Z) (code : Z) : outcome (option (Z * Z)) :=
  option_loop (S (length data)) data code OPTIONS.

(** [net_ntohl] of the 32 bits at [p]. *)
Definition ntoh32_at (data : list Z) (p : Z) : outcome Z := let* v := ld 4 data p in Ret (net_ntohl v).

(** The value of option [code] when its length passes [test], else [old]. *)
Definition option_u32 (data : list Z) (code : Z) (test : Z → bool) (old : Z) : outcome Z :=
  let* o := dhcp_find_option data code in
  match o with
  | Some (p, l) => if test l then ntoh32_at data p else Ret old
  | None => Ret old
  end.

Definition set_options (m g n : Z) (d : dhcp_state) : dhcp_state :=
  mk_dhcp (offer_received d) (ack_received d) (nak_received d) (offered_ip d) (server_ip d) m g n (xid d) (replies_seen d) (replies_other_xid d).

Definition dhcp_apply_network_options (data : list Z) (d : dhcp_state) : outcome dhcp_state :=
  let* m := option_u32 data 1 (λ l, l =? 4) (offered_netmask d) in
  let* g := option_u32 data 3 (λ l, 4 <=? l) (offered_gateway d) in
  let* n := option_u32 data 6 (λ l, 4 <=? l) (offered_dns d) in
  Ret (set_options m g n d).

Definition count_reply (d : dhcp_state) : dhcp_state :=
  mk_dhcp (offer_received d) (ack_received d) (nak_received d) (offered_ip d) (server_ip d) (offered_netmask d)
    (offered_gateway d) (offered_dns d) (xid d) (u32 (replies_seen d + 1)) (replies_other_xid d).
Definition count_other (d : dhcp_state) : dhcp_state :=
  mk_dhcp (offer_received d) (ack_received d) (nak_received d) (offered_ip d) (server_ip d) (offered_netmask d)
    (offered_gateway d) (offered_dns d) (xid d) (replies_seen d) (u32 (replies_other_xid d + 1)).
Definition set_offer (ip srv : Z) (d : dhcp_state) : dhcp_state :=
  mk_dhcp (offer_received d) (ack_received d) (nak_received d) ip srv (offered_netmask d)
    (offered_gateway d) (offered_dns d) (xid d) (replies_seen d) (replies_other_xid d).
Definition set_flags (o a n : bool) (d : dhcp_state) : dhcp_state :=
  mk_dhcp o a n (offered_ip d) (server_ip d) (offered_netmask d)
    (offered_gateway d) (offered_dns d) (xid d) (replies_seen d) (replies_other_xid d).

Definition dhcp_handle_reply (data : list Z) (d : dhcp_state) : outcome dhcp_state :=
  let d := count_reply d in
  if Z.of_nat (length data) <? OPTIONS then Ret d
  else
    let* id := ntoh32_at data 4 in
    if negb (id =? xid d) then Ret (count_other d)
    else
      let* cookie := ntoh32_at data 236 in
      if negb (cookie =? DHCP_MAGIC_COOKIE) then Ret d
      else
        let* o := dhcp_find_option data 53 in
        match o with
        | None => Ret d
        | Some (p, l) =>
            if l <? 1 then Ret d
            else
              let* type := ld 1 data p in
              if type =? DHCPOFFER then
                let* ip := ntoh32_at data 16 in
                let* siaddr := ntoh32_at data 20 in
                let* srv := option_u32 data 54 (λ l, l =? 4) siaddr in
                let* d := dhcp_apply_network_options data (set_offer ip srv d) in
                Ret (set_flags true (ack_received d) (nak_received d) d)
              else if type =? DHCPACK then
                let* d := dhcp_apply_network_options data d in
                Ret (set_flags (offer_received d) true (nak_received d) d)
              else if type =? DHCPNAK then Ret (set_flags (offer_received d) (ack_received d) true d)
              else Ret d
        end.

(** ** The acquisition *)

Record round := mk_round { t_test : Z; waiting : list (list Z); t_check : Z; t_last : Z }.

Definition DHCP_HANDLER : Z := 2.

Section acquire.
  Context (arp_poll : net → net) (iters : Z → nat) (tcp : Z → list Z → net → net).

Definition dhcp_send (msg_type requested_ip server : Z) (d : dhcp_state) (s : net) : outcome net :=
  let* (_, s) := udp_send arp_poll iters BROADCAST_IP DHCP_CLIENT_PORT DHCP_SERVER_PORT
                   (dhcp_packet (local_mac s) (xid d) msg_type requested_ip server) s in
  Ret s.

(** A waiting loop: until [arrived], with [resend] every two seconds. The
    rounds that are left are part of the result. *)
Fixpoint wait_loop (rounds : list round) (arrived : dhcp_state → bool) (resend : dhcp_state → net → outcome net)
    (start last timeout_ms : Z) (s : net) (d : dhcp_state) : outcome (net * dhcp_state * list round) :=
  if arrived d then Ret (s, d, rounds)
  else
    match rounds with
    | [] => Hang
    | r :: rounds' =>
        if u64 (t_test r - start) <? timeout_ms then
          let* (s, d) := poll_frames DHCP_HANDLER dhcp_handle_reply tcp (waiting r) s d in
          if negb (arrived d) && (2000 <=? u64 (t_check r - last)) then
            let* s := resend d s in
            wait_loop rounds' arrived resend start (t_last r) timeout_ms s d
          else wait_loop rounds' arrived resend start last timeout_ms s d
        else Ret (s, d, rounds)
    end.

Definition answered (d : dhcp_state) : bool := ack_received d || nak_received d.

(** [now], [start1] and [start2] are the uptime when the transaction number
    is made and when each wait begins. *)
Definition dhcp_acquire_internal (rounds : list round) (now start1 start2 timeout_ms : Z) (s : net) :
    outcome (bool * net * dhcp_state) :=
  let d := mk_dhcp false false false 0 0 0xFFFFFF00 0 0 (Z.lxor (u32 now) 0xA5A5A5A5) 0 0 in
  let s := (udp_register_handler DHCP_CLIENT_PORT DHCP_HANDLER s).2 in
  let* s := dhcp_send DHCPDISCOVER 0 0 d s in
  let* (s, d, rounds) := wait_loop rounds offer_received (dhcp_send DHCPDISCOVER 0 0) start1 start1 timeout_ms s d in
  if negb (offer_received d) then Ret (false, udp_unregister_handler DHCP_CLIENT_PORT s, d)
  else
    let* s := dhcp_send DHCPREQUEST (offered_ip d) (server_ip d) d s in
    let* (s, d, _) := wait_loop rounds answered (λ d, dhcp_send DHCPREQUEST (offered_ip d) (server_ip d) d) start2 start2 timeout_ms s d in
    let s := udp_unregister_handler DHCP_CLIENT_PORT s in
    if nak_received d || negb (ack_received d) then Ret (false, s, d)
    else Ret (true, ip_set_dns (offered_dns d) (ip_configure (offered_ip d) (offered_netmask d) (offered_gateway d) s), d).

(** [quiet] only silences the serial output. *)
Definition dhcp_acquire := dhcp_acquire_internal.
Definition dhcp_acquire_quiet := dhcp_acquire_internal.

Definition dhcp_last_stats (d : dhcp_state) : Z * Z := (replies_seen d, replies_other_xid d).
End acquire.

(** ** Any datagram is read safely *)

Lemma ld_u8 data p : Forall is_u8 data → 0 ≤ p < Z.of_nat (length data) → ∃ c, ld 1 data p = Ret c ∧ is_u8 c.
Proof.
  intros Hd Hp. rewrite ld_ok by lia. eexists. split; [reflexivity|]. pose proof (rd_range 1 data p Hd) as H. exact H.
Qed.

Lemma find_safe data code : Forall is_u8 data → ∀ fuel p, 0 ≤ p → (0 < fuel)%nat → (length data < Z.to_nat p + fuel)%nat →
  ∃ r, option_loop fuel data code p = Ret r ∧
    match r with Some (q, l) => p ≤ q ∧ 0 ≤ l ∧ q + l ≤ Z.of_nat (length data) | None => True end.
Proof.
  intros Hd. induction fuel as [|fuel IH]; intros p Hp H0 Hf; cbn [option_loop]; [lia|].
  { destruct (Z.ltb_spec p (Z.of_nat (length data))) as [Hl|]; [|by eexists].
    destruct (ld_u8 data p Hd ltac:(lia)) as (c & -> & Hc). cbn [obind].
    destruct (c =? 0xFF); [by eexists|]. destruct (c =? 0).
    { destruct (IH (p + 1) ltac:(lia) ltac:(lia) ltac:(lia)) as ([[q l]|] & -> & Hr); [|by eexists]. eexists; split; [done|]; cbv beta iota in Hr |- *; lia. }
    destruct (Z.leb_spec (Z.of_nat (length data)) (p + 1)); [by eexists|].
    destruct (ld_u8 data (p + 1) Hd ltac:(lia)) as (len & -> & Hlen). cbn [obind]. unfold is_u8 in Hlen.
    destruct (Z.ltb_spec (Z.of_nat (length data)) (p + 2 + len)); [by eexists|].
    destruct (c =? code); [eexists; split; [done|]; cbv beta iota; lia|].
    destruct (IH (p + 2 + len) ltac:(lia) ltac:(lia) ltac:(lia)) as ([[q l]|] & -> & Hr); [|by eexists]. eexists; split; [done|]; cbv beta iota in Hr |- *; lia. }
Qed.

Lemma find_option_safe data code : Forall is_u8 data → ∃ r, dhcp_find_option data code = Ret r ∧
  match r with Some (q, l) => OPTIONS ≤ q ∧ 0 ≤ l ∧ q + l ≤ Z.of_nat (length data) | None => True end.
Proof. intros Hd. apply find_safe; [done|unfold OPTIONS; lia|lia|lia]. Qed.

Lemma ntoh32_safe data p : 0 ≤ p → p + 4 ≤ Z.of_nat (length data) → ∃ v, ntoh32_at data p = Ret v.
Proof. intros H1 H2. unfold ntoh32_at. rewrite ld_ok by lia. eauto. Qed.

Lemma option_u32_safe data code test old : Forall is_u8 data → (∀ l, test l = true → 4 ≤ l) → ∃ v, option_u32 data code test old = Ret v.
Proof.
  intros Hd Ht. unfold option_u32. destruct (find_option_safe data code Hd) as ([[q l]|] & -> & Hr); cbn [obind]; [|eauto].
  destruct (test l) eqn:E; [|eauto]. apply Ht in E. apply ntoh32_safe; unfold OPTIONS in Hr; lia.
Qed.

Lemma apply_safe data d : Forall is_u8 data → ∃ d', dhcp_apply_network_options data d = Ret d'.
Proof.
  intros Hd. unfold dhcp_apply_network_options.
  destruct (option_u32_safe data 1 (λ l, l =? 4) (offered_netmask d) Hd) as [m ->]; [intros l E; apply Z.eqb_eq in E; lia|]. cbn [obind].
  destruct (option_u32_safe data 3 (λ l, 4 <=? l) (offered_gateway d) Hd) as [g ->]; [intros l E; by apply Z.leb_le in E|]. cbn [obind].
  destruct (option_u32_safe data 6 (λ l, 4 <=? l) (offered_dns d) Hd) as [n ->]; [intros l E; by apply Z.leb_le in E|]. cbn [obind]. eauto.
Qed.

Lemma handle_safe data d : Forall is_u8 data → ∃ d', dhcp_handle_reply data d = Ret d'.
Proof.
  intros Hd. unfold dhcp_handle_reply. unfold OPTIONS. destruct (Z.ltb_spec (Z.of_nat (length data)) 240) as [|Hl]; [eauto|].
  destruct (ntoh32_safe data 4) as [v ->]; [lia|lia|]. cbn [obind]. destruct (negb _); [eauto|].
  destruct (ntoh32_safe data 236) as [w ->]; [lia|lia|]. cbn [obind]. destruct (negb _); [eauto|].
  destruct (find_option_safe data 53 Hd) as ([[q l]|] & -> & Hr); cbn [obind]; [|eauto]. unfold OPTIONS in Hr.
  destruct (Z.ltb_spec l 1); [eauto|]. destruct (ld_u8 data q Hd ltac:(lia)) as (t & -> & _). cbn [obind].
  destruct (t =? DHCPOFFER).
  - destruct (ntoh32_safe data 16) as [ip ->]; [lia|lia|]. cbn [obind]. destruct (ntoh32_safe data 20) as [si ->]; [lia|lia|]. cbn [obind].
    destruct (option_u32_safe data 54 (λ l, l =? 4) si Hd) as [srv ->]; [intros k E; apply Z.eqb_eq in E; lia|]. cbn [obind].
    destruct (apply_safe data (set_offer ip srv (count_reply d)) Hd) as [d' ->]. cbn [obind]. eauto.
  - destruct (t =? DHCPACK); [|destruct (t =? DHCPNAK); eauto]. destruct (apply_safe data (count_reply d) Hd) as [d' ->]. cbn [obind]. eauto.
Qed.

(** ** Messages, as RFC 2131 and 2132 lay them out *)

Inductive opt := PadOpt | Opt (code : Z) (value : list Z).

Definition wire_opt (o : opt) : list Z :=
  match o with PadOpt => [0] | Opt c v => c :: Z.of_nat (length v) :: v end.
Definition wire_opts (l : list opt) : list Z := concat (wire_opt <$> l).
Definition opt_ok (o : opt) : Prop :=
  match o with PadOpt => True | Opt c v => 1 ≤ c ≤ 254 ∧ Z.of_nat (length v) ≤ 255 ∧ Forall is_u8 v end.

(** The value of the first option with a code. *)
Fixpoint opt_value (code : Z) (l : list opt) : option (list Z) :=
  match l with
  | [] => None
  | PadOpt :: l => opt_value code l
  | Opt c v :: l => if c =? code then Some v else opt_value code l
  end.

(** A message: what is before the transaction number, between it and the
    addresses, after them up to the cookie, the options and what follows. *)
Record message := mk_message {
  m_head : list Z; m_xid : Z; m_mid : list Z; m_yiaddr : Z; m_siaddr : Z; m_tail : list Z; m_opts : list opt; m_rest : list Z
}.
Definition wire (m : message) : list Z :=
  m_head m ++ be32 (m_xid m) ++ m_mid m ++ be32 (m_yiaddr m) ++ be32 (m_siaddr m) ++ m_tail m ++ be32 DHCP_MAGIC_COOKIE ++
  wire_opts (m_opts m) ++ m_rest m.
Definition message_ok (m : message) : Prop :=
  length (m_head m) = 4%nat ∧ length (m_mid m) = 8%nat ∧ length (m_tail m) = 212%nat ∧
  is_u32 (m_xid m) ∧ is_u32 (m_yiaddr m) ∧ is_u32 (m_siaddr m) ∧ Forall opt_ok (m_opts m) ∧
  (m_rest m = [] ∨ ∃ r, m_rest m = 0xFF :: r).

Definition be_num (l : list Z) : Z := foldl (λ v b, 256 * v + b) 0 l.

(** The 32-bit value of an option whose length passes [test]. *)
Definition opt_u32 (l : list opt) (code : Z) (test : Z → bool) (old : Z) : Z :=
  match opt_value code l with Some v => if test (Z.of_nat (length v)) then be_num (take 4 v) else old | None => old end.

Definition with_options (l : list opt) (d : dhcp_state) : dhcp_state :=
  set_options (opt_u32 l 1 (λ l, l =? 4) (offered_netmask d)) (opt_u32 l 3 (λ l, 4 <=? l) (offered_gateway d))
    (opt_u32 l 6 (λ l, 4 <=? l) (offered_dns d)) d.

(** What the client makes of a message of its transaction. *)
Definition react (m : message) (d : dhcp_state) : dhcp_state :=
  let d := count_reply d in
  match opt_value 53 (m_opts m) with
  | Some (t :: _) =>
      if t =? DHCPOFFER then
        set_flags true (ack_received d) (nak_received d)
          (with_options (m_opts m) (set_offer (m_yiaddr m) (opt_u32 (m_opts m) 54 (λ l, l =? 4) (m_siaddr m)) d))
      else if t =? DHCPACK then set_flags (offer_received d) true (nak_received d) (with_options (m_opts m) d)
      else if t =? DHCPNAK then set_flags (offer_received d) (ack_received d) true d
      else d
  | _ => d
  end.

Lemma find_ok code l : ∀ fuel pre rest, Forall opt_ok l → (rest = [] ∨ ∃ r, rest = 0xFF :: r) → (length l < fuel)%nat →
  match opt_value code l with
  | Some v => ∃ a b, pre ++ wire_opts l ++ rest = a ++ v ++ b ∧
      option_loop fuel (pre ++ wire_opts l ++ rest) code (Z.of_nat (length pre)) = Ret (Some (Z.of_nat (length a), Z.of_nat (length v)))
  | None => option_loop fuel (pre ++ wire_opts l ++ rest) code (Z.of_nat (length pre)) = Ret None
  end.
Proof.
  induction l as [|o l IH]; intros fuel pre rest Hl Hr Hf; (destruct fuel as [|fuel]; [simpl in Hf; lia|]).
  - cbn [opt_value wire_opts fmap list_fmap concat app option_loop]. destruct Hr as [->|[r ->]].
    + rewrite app_nil_r, Z.ltb_irrefl. done.
    + rewrite (proj2 (Z.ltb_lt _ _)) by (rewrite length_app; cbn [length]; lia). rewrite ld_byte by done. done.
  - apply Forall_cons in Hl as [Ho Hl]. cbn [length] in Hf. unfold wire_opts. rewrite fmap_cons. cbn [concat]. fold (wire_opts l).
    rewrite <- (assoc_L (++) (wire_opt o)). destruct o as [|c v]; cbn [wire_opt app opt_value option_loop].
    + rewrite (proj2 (Z.ltb_lt _ _)) by (rewrite length_app; cbn [length]; lia). rewrite ld_byte by done. cbn [obind].
      change (0 =? 0xFF) with false. change (0 =? 0) with true. cbv iota.
      specialize (IH fuel (pre ++ [0]) rest Hl Hr ltac:(lia)). rewrite <- (assoc_L (++) pre), length_app, Nat2Z.inj_add in IH. exact IH.
    + destruct Ho as (Hc & Hv & Hb). rewrite (proj2 (Z.ltb_lt _ _)) by (rewrite length_app; cbn [length]; lia).
      rewrite ld_byte by done. cbn [obind]. rewrite (proj2 (Z.eqb_neq c 0xFF)), (proj2 (Z.eqb_neq c 0)) by lia.
      rewrite (proj2 (Z.leb_gt _ (Z.of_nat (length pre) + 1))) by (rewrite length_app; cbn [length]; lia).
      change (pre ++ c :: Z.of_nat (length v) :: v ++ wire_opts l ++ rest) with (pre ++ [c] ++ Z.of_nat (length v) :: v ++ wire_opts l ++ rest).
      rewrite (assoc_L (++) pre [c]). rewrite ld_byte by (rewrite length_app; cbn [length]; lia). cbn [obind].
      assert (Z.of_nat (length pre) + 2 + Z.of_nat (length v) ≤ Z.of_nat (length ((pre ++ [c]) ++ Z.of_nat (length v) :: v ++ wire_opts l ++ rest))).
      { rewrite !length_app. cbn [length]. rewrite length_app. lia. }
      rewrite (proj2 (Z.ltb_ge _ _)) by done.
      change ((pre ++ [c]) ++ Z.of_nat (length v) :: v ++ wire_opts l ++ rest) with ((pre ++ [c]) ++ [Z.of_nat (length v)] ++ v ++ wire_opts l ++ rest).
      rewrite (assoc_L (++) (pre ++ [c])). destruct (c =? code).
      * exists ((pre ++ [c]) ++ [Z.of_nat (length v)]), (wire_opts l ++ rest). split; [done|]. do 3 f_equal. rewrite !length_app. cbn [length]. lia.
      * specialize (IH fuel (((pre ++ [c]) ++ [Z.of_nat (length v)]) ++ v) rest Hl Hr ltac:(lia)).
        rewrite <- (assoc_L (++) _ v) in IH.
        replace (Z.of_nat (length (((pre ++ [c]) ++ [Z.of_nat (length v)]) ++ v))) with (Z.of_nat (length pre) + 2 + Z.of_nat (length v)) in IH
          by (rewrite !length_app; cbn [length]; lia). exact IH.
Qed.

Lemma ntoh32_bytes (a b c : list Z) p : p = Z.of_nat (length a) → (4 ≤ length b)%nat → Forall is_u8 b →
  ntoh32_at (a ++ b ++ c) p = Ret (be_num (take 4 b)).
Proof.
  intros -> Hb H8. rewrite <- (take_drop 4 b) at 1. rewrite <- (assoc_L (++)). unfold ntoh32_at.
  rewrite (ld_at 4) by (done || (rewrite length_take; lia)). cbn [obind]. rewrite ntohl_bytes; [done|rewrite length_take; lia|by apply Forall_take].
Qed.

Lemma ntoh32_be32 (a c : list Z) p v : p = Z.of_nat (length a) → is_u32 v → ntoh32_at (a ++ be32 v ++ c) p = Ret v.
Proof.
  intros Hp Hv. rewrite ntoh32_bytes by (done || (simpl; lia) || by apply be32_u8). f_equal. unfold be_num, be32, is_u32 in *. cbn [take foldl].
  pose proof (Z.div_mod v 256 ltac:(lia)). pose proof (Z.div_mod (v / 256) 256 ltac:(lia)). pose proof (Z.div_mod (v / 65536) 256 ltac:(lia)).
  rewrite !Z.div_div in * by lia. change (256 * 256) with 65536 in *. change (65536 * 256) with 16777216 in *. lia.
Qed.

Section message.
  Context (m : message) (Hm : message_ok m).
Let pre : list Z := m_head m ++ be32 (m_xid m) ++ m_mid m ++ be32 (m_yiaddr m) ++ be32 (m_siaddr m) ++ m_tail m ++ be32 DHCP_MAGIC_COOKIE.

Lemma wire_split : wire m = pre ++ wire_opts (m_opts m) ++ m_rest m ∧ length pre = 240%nat.
Proof.
  destruct Hm as (H1 & H2 & H3 & _). unfold wire, pre. rewrite <- !(assoc_L (++)). split; [done|].
  rewrite !length_app, H1, H2, H3. done.
Qed.

Lemma find_option_ok code : match opt_value code (m_opts m) with
  | Some v => ∃ a b, wire m = a ++ v ++ b ∧ dhcp_find_option (wire m) code = Ret (Some (Z.of_nat (length a), Z.of_nat (length v)))
  | None => dhcp_find_option (wire m) code = Ret None
  end.
Proof.
  destruct wire_split as [-> Lp]. destruct Hm as (_ & _ & _ & _ & _ & _ & Ho & Hr).
  pose proof (find_ok code (m_opts m) (S (length (pre ++ wire_opts (m_opts m) ++ m_rest m))) pre (m_rest m) Ho Hr) as H.
  unfold dhcp_find_option. rewrite Lp in H. apply H. rewrite !length_app.
  assert (length (m_opts m) ≤ length (wire_opts (m_opts m)))%nat; [|lia]. generalize (m_opts m). clear.
  intros l. induction l as [|o l IH]; [done|]. unfold wire_opts in *. rewrite fmap_cons. cbn [concat length]. rewrite length_app.
  destruct o; cbn [wire_opt length]; lia.
Qed.

Lemma opt_value_bytes code v l : Forall opt_ok l → opt_value code l = Some v → Forall is_u8 v.
Proof.
  induction l as [|o l IH]; intros Hl E; [done|]. apply Forall_cons in Hl as [Ho Hl]. destruct o as [|c w]; cbn [opt_value] in E; [auto|].
  destruct (c =? code); [injection E as <-; by destruct Ho as (_ & _ & ?)|auto].
Qed.

Lemma option_u32_ok code test old : (∀ l, test l = true → 4 ≤ l) → option_u32 (wire m) code test old = Ret (opt_u32 (m_opts m) code test old).
Proof.
  intros Ht. unfold option_u32, opt_u32. pose proof (find_option_ok code) as H. destruct (opt_value code (m_opts m)) as [v|] eqn:Ev.
  - destruct H as (a & b & Ew & ->). cbn [obind]. destruct (test (Z.of_nat (length v))) eqn:E; [|done]. apply Ht in E. rewrite Ew.
    apply ntoh32_bytes; [done|lia|]. destruct Hm as (_ & _ & _ & _ & _ & _ & Ho & _). by eapply opt_value_bytes.
  - by rewrite H.
Qed.

Lemma apply_ok d : dhcp_apply_network_options (wire m) d = Ret (with_options (m_opts m) d).
Proof.
  unfold dhcp_apply_network_options. rewrite option_u32_ok by (intros l E; apply Z.eqb_eq in E; lia). cbn [obind].
  rewrite option_u32_ok by (intros l E; by apply Z.leb_le in E). cbn [obind].
  rewrite option_u32_ok by (intros l E; by apply Z.leb_le in E). done.
Qed.

Lemma handle_ok d : dhcp_handle_reply (wire m) d = Ret (if m_xid m =? xid d then react m d else count_other (count_reply d)).
Proof.
  destruct wire_split as [Ew Lp]. pose proof Hm as (H1 & H2 & H3 & Hx & Hy & Hs & Ho & _). unfold dhcp_handle_reply.
  rewrite (proj2 (Z.ltb_ge _ _)) by (rewrite Ew, length_app, Lp; unfold OPTIONS; lia).
  assert (ntoh32_at (wire m) 4 = Ret (m_xid m)) as -> by (unfold wire; apply ntoh32_be32; [lia|done]).
  cbn [obind]. change (xid (count_reply d)) with (xid d). destruct (m_xid m =? xid d); cbn [negb]; [|done].
  assert (ntoh32_at (wire m) 236 = Ret DHCP_MAGIC_COOKIE) as ->.
  { unfold wire. do 5 rewrite (assoc_L (++)). apply ntoh32_be32; [rewrite !length_app, H1, H2, H3; done|unfold is_u32, DHCP_MAGIC_COOKIE; lia]. }
  cbn [obind]. rewrite Z.eqb_refl. cbn [negb].
  pose proof (find_option_ok 53) as H53. unfold react. destruct (opt_value 53 (m_opts m)) as [v|]; [|by rewrite H53].
  destruct H53 as (a & b & Ev & ->). cbn [obind]. destruct v as [|t v]; [done|].
  rewrite (proj2 (Z.ltb_ge _ 1)) by (cbn [length]; lia). rewrite Ev at 1. cbn [app]. rewrite ld_byte by done. cbn [obind].
  assert (ntoh32_at (wire m) 16 = Ret (m_yiaddr m)) as ->.
  { unfold wire. do 2 rewrite (assoc_L (++)). apply ntoh32_be32; [rewrite !length_app, H1, H2; done|done]. }
  assert (ntoh32_at (wire m) 20 = Ret (m_siaddr m)) as ->.
  { unfold wire. do 3 rewrite (assoc_L (++)). apply ntoh32_be32; [rewrite !length_app, H1, H2; done|done]. }
  destruct (t =? DHCPOFFER).
  - cbn [obind]. rewrite option_u32_ok by (intros l E; apply Z.eqb_eq in E; lia). cbn [obind]. rewrite apply_ok. done.
  - destruct (t =? DHCPACK); [rewrite apply_ok; done|]. by destruct (t =? DHCPNAK).
Qed.
End message.

(** ** The client's own messages *)

Definition client_opts (t ip srv : Z) : list opt :=
  Opt 53 [t] :: (if t =? DHCPREQUEST then [Opt 50 (be32 ip); Opt 54 (be32 srv)] else []) ++ [Opt 55 [1; 3; 6]].

Definition client_message (mac : list Z) (id t ip srv : Z) : message :=
  mk_message [1; 1; 6; 0] id ([0; 0; 128; 0] ++ replicate 4 0) 0 0 (replicate 4 0 ++ mac ++ replicate 202 0) (client_opts t ip srv)
    (0xFF :: replicate (if t =? DHCPREQUEST then 39 else 51) 0).

Lemma packet_is_message mac id t ip srv : length mac = 6%nat → is_u32 id → is_u32 ip → is_u32 srv → t = DHCPDISCOVER ∨ t = DHCPREQUEST →
  dhcp_packet mac id t ip srv = wire (client_message mac id t ip srv).
Proof.
  intros Hmac Hid Hip Hsrv Ht. unfold dhcp_packet, wire, client_message, client_opts, wire_opts.
  cbn [m_head m_xid m_mid m_yiaddr m_siaddr m_tail m_opts m_rest].
  rewrite (le32_htonl id), (le32_htonl ip), (le32_htonl srv) by done.
  destruct mac as [|a [|b [|c [|d [|e [|f [|]]]]]]]; try done.
  unfold be32. generalize (id / 16777216) (id / 65536 mod 256) (id / 256 mod 256) (id mod 256) (ip / 16777216) (ip / 65536 mod 256)
    (ip / 256 mod 256) (ip mod 256) (srv / 16777216) (srv / 65536 mod 256) (srv / 256 mod 256) (srv mod 256). clear - Ht. intros.
  by destruct Ht as [-> | ->].
Qed.

Lemma client_packet_fits mac id t ip srv : length mac = 6%nat → Forall is_u8 mac → is_u32 id → is_u32 ip → is_u32 srv → t = DHCPDISCOVER ∨ t = DHCPREQUEST →
  Z.of_nat (length (dhcp_packet mac id t ip srv)) ≤ 1472 ∧ Forall is_u8 (dhcp_packet mac id t ip srv).
Proof.
  intros Hmac Hb Hid Hip Hsrv Ht. rewrite packet_is_message by done. unfold wire, client_message, client_opts, wire_opts.
  cbn [m_head m_xid m_mid m_yiaddr m_siaddr m_tail m_opts m_rest].
  assert (∀ n, Forall is_u8 (replicate n 0)) as Hz by (intros n; apply Forall_replicate; unfold is_u8; lia).
  split; [destruct Ht as [-> | ->]; rewrite !length_app, Hmac; simpl; lia|].
  assert (∀ v, is_u32 v → ∃ a b c d, be32 v = [a; b; c; d] ∧ is_u8 a ∧ is_u8 b ∧ is_u8 c ∧ is_u8 d) as Hbe.
  { intros v Hv. pose proof (be32_u8 v Hv) as H. unfold be32 in *. decompose_Forall_hyps. eauto 10. }
  destruct (Hbe id Hid) as (a1 & a2 & a3 & a4 & -> & ?), (Hbe ip Hip) as (b1 & b2 & b3 & b4 & -> & ?), (Hbe srv Hsrv) as (c1 & c2 & c3 & c4 & -> & ?).
  assert (is_u8 t) by (unfold is_u8, DHCPDISCOVER, DHCPREQUEST in *; lia).
  assert (Forall is_u8 (be32 0)) by (by apply be32_u8).
  repeat apply Forall_app_2; auto; [..|destruct Ht as [-> | ->]; cbn [DHCPREQUEST DHCPDISCOVER Z.eqb Pos.eqb app fmap list_fmap concat wire_opt length]|];
    repeat (apply Forall_cons_2; [try (unfold is_u8; lia); naive_solver|]); auto.
Qed.

Section lease.
  Context (arp_poll : net → net) (iters : Z → nat) (tcp : Z → list Z → net → net).
  Context (Htcp : ∀ src p s, same_config s (tcp src p s)) (Hcalls : ∀ src p s, calls (tcp src p s) = calls s).

Lemma send_ok t ip srv d s : wf_ip s → Forall is_u8 (local_mac s) → is_u32 (xid d) → is_u32 ip → is_u32 srv → t = DHCPDISCOVER ∨ t = DHCPREQUEST →
  ∃ s2 q, dhcp_send arp_poll iters t ip srv d s = Ret s2 ∧ sent s2 = sent s ++ [q] ∧ calls s2 = calls s ∧
    bindings s2 = bindings s ∧ local_mac s2 = local_mac s ∧ local_ip s2 = local_ip s ∧ wf_ip s2 ∧
    heard tcp q BROADCAST_IP (local_ip s) DHCP_CLIENT_PORT DHCP_SERVER_PORT (wire (client_message (local_mac s) (xid d) t ip srv)).
Proof.
  intros Hwf Hb Hid Hip Hsrv Ht. pose proof Hwf as (H1 & H2 & H3).
  destruct (client_packet_fits (local_mac s) (xid d) t ip srv) as [Hl H8]; try done.
  destruct (udp_send_state arp_poll iters BROADCAST_IP DHCP_CLIENT_PORT DHCP_SERVER_PORT (dhcp_packet (local_mac s) (xid d) t ip srv) s BROADCAST_MAC)
    as (s2 & q & E & Hsent & Hbi & Hc & Hip2 & _ & _ & _ & Hm & Hi); [done|done|].
  exists s2, q. unfold dhcp_send. rewrite E. cbn [obind]. repeat (split; [done|]). split; [unfold wf_ip; by rewrite Hip2, Hm|].
  rewrite <- packet_is_message by done.
  apply (frame_heard arp_poll iters tcp s s2 _ _ _ _ BROADCAST_MAC); done.
Qed.

Definition fresh (now : Z) : dhcp_state := mk_dhcp false false false 0 0 0xFFFFFF00 0 0 (Z.lxor (u32 now) 0xA5A5A5A5) 0 0.

Lemma xid_u32 a b : is_u32 a → is_u32 b → is_u32 (Z.lxor a b).
Proof.
  unfold is_u32. change 4294967296 with (2 ^ 32). intros Ha Hb.
  assert (Z.lxor a b = Z.lxor a b mod 2 ^ 32) as ->; [|apply Z.mod_pos_bound; lia].
  symmetry. rewrite <- Z.land_ones by lia. apply Z.bits_inj'. intros n Hn. rewrite Z.land_spec.
  destruct (Z.ltb_spec n 32); [by rewrite Z.ones_spec_low, andb_true_r by lia|].
  rewrite Z.ones_spec_high, andb_false_r, Z.lxor_spec by lia.
  rewrite <- (Z.mod_small a (2 ^ 32)), <- (Z.mod_small b (2 ^ 32)) by done. by rewrite !Z.mod_pow2_bits_high by lia.
Qed.

Lemma be_num_u32 v : Forall is_u8 v → (length v ≤ 4)%nat → is_u32 (be_num v).
Proof.
  intros Hb Hl. destruct v as [|a [|b [|c [|d [|]]]]]; cbn [length] in Hl; try lia; decompose_Forall_hyps; unfold is_u8, is_u32, be_num in *; cbn [foldl]; lia.
Qed.

Lemma opt_u32_range l code test old : Forall opt_ok l → is_u32 old → is_u32 (opt_u32 l code test old).
Proof.
  intros Hl Ho. unfold opt_u32. destruct (opt_value code l) as [v|] eqn:E; [|done]. destruct (test _); [|done].
  apply be_num_u32; [apply Forall_take; by eapply opt_value_bytes|rewrite length_take; lia].
Qed.

(** The server that a message names. *)
Definition server_of (m : message) : Z := opt_u32 (m_opts m) 54 (λ l, l =? 4) (m_siaddr m).

Lemma react_offer m d : opt_value 53 (m_opts m) = Some [DHCPOFFER] →
  let d' := react m d in offer_received d' = true ∧ ack_received d' = ack_received d ∧ nak_received d' = nak_received d ∧
  offered_ip d' = m_yiaddr m ∧ server_ip d' = server_of m ∧ xid d' = xid d.
Proof. unfold react. by intros ->. Qed.

Lemma react_ack m d : opt_value 53 (m_opts m) = Some [DHCPACK] →
  let d' := react m d in ack_received d' = true ∧ nak_received d' = nak_received d ∧ offered_ip d' = offered_ip d ∧ xid d' = xid d.
Proof. unfold react. by intros ->. Qed.

Lemma register_state port h s s1 : udp_register_handler port h s = (true, s1) →
  local_ip s1 = local_ip s ∧ local_mac s1 = local_mac s ∧ ip_id s1 = ip_id s ∧ calls s1 = calls s ∧ sent s1 = sent s.
Proof. unfold udp_register_handler. repeat (destruct (first_index _ _); [by intros [= <-]|]). done. Qed.

(** The state but for the two counters that [dhcp_last_stats] reports. *)
Definition lease_of (d : dhcp_state) : dhcp_state :=
  mk_dhcp (offer_received d) (ack_received d) (nak_received d) (offered_ip d) (server_ip d) (offered_netmask d)
    (offered_gateway d) (offered_dns d) (xid d) 0 0.
Definition same_lease (d d' : dhcp_state) : Prop := lease_of d = lease_of d'.

Lemma lease_fields d d' : same_lease d d' →
  offer_received d' = offer_received d ∧ ack_received d' = ack_received d ∧ nak_received d' = nak_received d ∧
  offered_ip d' = offered_ip d ∧ server_ip d' = server_ip d ∧ xid d' = xid d ∧
  offered_netmask d' = offered_netmask d ∧ offered_gateway d' = offered_gateway d ∧ offered_dns d' = offered_dns d.
Proof. unfold same_lease, lease_of. destruct d, d'. cbn. by intros [= -> -> -> -> -> -> -> -> ->]. Qed.

Lemma react_lease m d d' : same_lease d d' → same_lease (react m d) (react m d').
Proof.
  unfold same_lease, lease_of. destruct d, d'. cbn. intros [= -> -> -> -> -> -> -> -> ->]. unfold react.
  repeat case_match; done.
Qed.

(** A frame that belongs to nobody's business here: the client of transaction
    [id] keeps its lease (it may count a datagram, as it does one of another
    transaction), and the host sends no answer. *)
Definition foreign (id : Z) (s : net) (f : list Z) : Prop :=
  silent tcp s f ∧ ∀ d, xid d = id → keeps DHCP_HANDLER dhcp_handle_reply tcp (same_lease d) s f.

Lemma lease_keeps id s l d : Forall (foreign id s) l → xid d = id → Forall (keeps DHCP_HANDLER dhcp_handle_reply tcp (same_lease d) s) l.
Proof. intros Hl Hd. eapply Forall_impl; [exact Hl|]. intros f [_ Hf]. by apply Hf. Qed.

Lemma foreign_silent id s l : Forall (foreign id s) l → Forall (silent tcp s) l.
Proof. intros Hl. eapply Forall_impl; [exact Hl|]. by intros f [? _]. Qed.

(** How often the rounds of a wait make the client send again. *)
Fixpoint resends (w : list round) (last : Z) : nat :=
  match w with
  | [] => 0
  | r :: w => if 2000 <=? u64 (t_check r - last) then S (resends w (t_last r)) else resends w last
  end.

(** What the client keeps of its interface while it waits. *)
Definition as_at (s1 s : net) : Prop := local_ip s = local_ip s1 ∧ local_mac s = local_mac s1 ∧ bindings s = bindings s1 ∧ wf_ip s.

Lemma as_at_took s1 l s s' : as_at s1 s → took tcp s1 l s s' → as_at s1 s'.
Proof.
  intros (H1 & H2 & H3 & Hwf) [Hc _]. pose proof (same_config_wf _ _ Hc Hwf). destruct Hc as (E1 & E2 & _ & E3 & _).
  unfold as_at. by rewrite E1, E2, E3.
Qed.

(** The frame brings message [p] of the client to whoever listens on port 67. *)
Definition brings (s1 : net) (p : message) (q : list Z) : Prop :=
  heard tcp q BROADCAST_IP (local_ip s1) DHCP_CLIENT_PORT DHCP_SERVER_PORT (wire p).

(** Rounds without a message for the client: it only sends again. *)
Lemma wait_rounds arrived resend start timeout s1 d0 p rounds w :
  (∀ d, same_lease d0 d → arrived d = false) →
  (∀ s d, as_at s1 s → same_lease d0 d → ∃ s2 q, resend d s = Ret s2 ∧ as_at s1 s2 ∧ sent s2 = sent s ++ [q] ∧ brings s1 p q) →
  Forall (λ r, u64 (t_test r - start) < timeout) w → Forall (λ r, Forall (foreign (xid d0) s1) (waiting r)) w →
  ∀ last s d, as_at s1 s → same_lease d0 d →
  ∃ s' d' last' qs, wait_loop tcp (w ++ rounds) arrived resend start last timeout s d = wait_loop tcp rounds arrived resend start last' timeout s' d' ∧
    as_at s1 s' ∧ same_lease d0 d' ∧ sent s' = sent s ++ qs ∧ length qs = resends w last ∧ Forall (brings s1 p) qs.
Proof using Htcp.
  intros Harr Hsend Ht Hw. induction w as [|r w IH]; intros last s d Hs Hd.
  { exists s, d, last, []. by rewrite app_nil_r. }
  apply Forall_cons in Ht as [Ht Hts], Hw as [Hf Hw]. specialize (IH Hts Hw). pose proof Hs as (Hip & _ & Hb & _).
  destruct (poll_keeps DHCP_HANDLER dhcp_handle_reply tcp Htcp _ s1 _ (lease_keeps _ _ _ d0 Hf eq_refl) s d Hip Hb Hd) as (s2 & d2 & Htk & Hd2 & E).
  specialize (E []). rewrite app_nil_r in E. pose proof (as_at_took _ _ _ _ Hs Htk) as Hs2.
  pose proof (proj2 Htk (foreign_silent _ _ _ Hf)) as Hsent2.
  cbn [app wait_loop resends]. rewrite (Harr d), (proj2 (Z.ltb_lt _ _)), E by done. cbn [obind poll_frames].
  rewrite (Harr d2) by done. cbn [negb andb]. destruct (2000 <=? u64 (t_check r - last)).
  - destruct (Hsend s2 d2 Hs2 Hd2) as (s3 & q & E3 & Hs3 & Hsent3 & Hq). rewrite E3. cbn [obind].
    destruct (IH (t_last r) s3 d2 Hs3 Hd2) as (s' & d' & last' & qs & E4 & Hs' & Hd' & Hsent & Hlen & Hqs).
    exists s', d', last', (q :: qs). rewrite E4. repeat (split; [done|]). split; [|split; [simpl; by rewrite Hlen|by constructor]].
    rewrite Hsent, Hsent3, Hsent2, <- (assoc_L (++)). done.
  - destruct (IH last s2 d2 Hs2 Hd2) as (s' & d' & last' & qs & E4 & Hs' & Hd' & Hsent & Hlen & Hqs).
    exists s', d', last', qs. rewrite E4. repeat (split; [done|]). by rewrite Hsent, Hsent2.
Qed.

(** The round in which the message arrives. *)
Lemma wait_arrives arrived resend start last timeout s1 s d d0 d1 r rounds pre f post m src :
  waiting r = pre ++ f :: post → Forall (foreign (xid d0) s1) (pre ++ post) → u64 (t_test r - start) < timeout →
  heard tcp f BROADCAST_IP src DHCP_SERVER_PORT DHCP_CLIENT_PORT (wire m) → (∃ s0, udp_register_handler DHCP_CLIENT_PORT DHCP_HANDLER s0 = (true, s1)) →
  message_ok m → m_xid m = xid d0 → d1 = react m d0 → xid d1 = xid d0 →
  arrived d = false → (∀ d', same_lease d1 d' → arrived d' = true) → as_at s1 s → same_lease d0 d →
  ∃ s' d', wait_loop tcp (r :: rounds) arrived resend start last timeout s d = Ret (s', d', rounds) ∧
    as_at s1 s' ∧ same_lease d1 d' ∧ sent s' = sent s.
Proof using Htcp Hcalls.
  intros Hw [Hpre Hpost]%Forall_app Ht Hf [s0 Hreg] Hm Hx -> Hx1 Ha Ha' Hs Hd. pose proof Hs as (Hip & _ & Hb & _).
  assert (∀ B, local_ip B = local_ip s1 → bindings B = bindings s1 →
    ∃ B', eth_handle_frame tcp f B = Ret B' ∧ calls B' = calls B ++ [mk_call DHCP_HANDLER src DHCP_SERVER_PORT (wire m)]) as Hcall.
  { intros B _ HbB. apply (heard_arrives tcp f BROADCAST_IP src DHCP_SERVER_PORT DHCP_CLIENT_PORT (wire m) DHCP_HANDLER s0 s1 B); try done. by right. }
  rewrite <- Hx1 in Hpost.
  destruct (poll_arrives DHCP_HANDLER dhcp_handle_reply tcp Htcp (same_lease d0) (same_lease (react m d0)) s1 pre f post src DHCP_SERVER_PORT (wire m)
    (lease_keeps _ _ _ _ Hpre eq_refl) (lease_keeps _ _ _ _ Hpost eq_refl)) with (B := s) (d := d) as (s' & d' & Htk & Hd' & E); try done.
  { intros x Hx'. exists (react m x). rewrite handle_ok by done.
    assert (xid x = xid d0) as -> by apply (lease_fields _ _ Hx'). rewrite Hx, Z.eqb_refl. split; [done|by apply react_lease]. }
  exists s', d'. split; [|split; [by eapply as_at_took|]].
  - cbn [wait_loop]. rewrite Ha, (proj2 (Z.ltb_lt _ _)), Hw, E by done. cbn [obind]. rewrite (Ha' d') by done. cbn [negb andb].
    destruct rounds as [|r2 rounds]; cbn [wait_loop]; by rewrite (Ha' d').
  - split; [done|]. apply (proj2 Htk). apply Forall_app. split; [by eapply foreign_silent|].
    apply Forall_cons. split; [by eapply called_silent|by eapply foreign_silent].
Qed.

(** A broadcast of the client while it waits. *)
Lemma resend_ok s1 t ip srv s d : as_at s1 s → Forall is_u8 (local_mac s1) → is_u32 (xid d) → is_u32 ip → is_u32 srv →
  t = DHCPDISCOVER ∨ t = DHCPREQUEST →
  ∃ s2 q, dhcp_send arp_poll iters t ip srv d s = Ret s2 ∧ as_at s1 s2 ∧ sent s2 = sent s ++ [q] ∧
    brings s1 (client_message (local_mac s1) (xid d) t ip srv) q.
Proof.
  intros (Hip & Hm & Hb & Hwf) H8 Hx H1 H2 Ht.
  destruct (send_ok t ip srv d s) as (s2 & q & E & Hq & _ & Hb2 & Hm2 & Hi2 & Hwf2 & Hh); try done; [by rewrite Hm|].
  exists s2, q. split; [done|]. split; [unfold as_at; by rewrite Hi2, Hm2, Hb2|]. split; [done|]. by rewrite Hip, Hm in Hh.
Qed.

Lemma acquire_ok w1 r1 w2 r2 rounds now start1 start2 timeout s s1 mo ma fo fa pre1 post1 pre2 post2 src1 src2 :
  wf_ip s → Forall is_u8 (local_mac s) → udp_register_handler DHCP_CLIENT_PORT DHCP_HANDLER s = (true, s1) →
  message_ok mo → m_xid mo = xid (fresh now) → opt_value 53 (m_opts mo) = Some [DHCPOFFER] →
  message_ok ma → m_xid ma = xid (fresh now) → opt_value 53 (m_opts ma) = Some [DHCPACK] →
  heard tcp fo BROADCAST_IP src1 DHCP_SERVER_PORT DHCP_CLIENT_PORT (wire mo) →
  heard tcp fa BROADCAST_IP src2 DHCP_SERVER_PORT DHCP_CLIENT_PORT (wire ma) →
  waiting r1 = pre1 ++ fo :: post1 → waiting r2 = pre2 ++ fa :: post2 →
  Forall (foreign (xid (fresh now)) s1) (pre1 ++ post1 ++ pre2 ++ post2) →
  Forall (λ r, Forall (foreign (xid (fresh now)) s1) (waiting r)) (w1 ++ w2) →
  Forall (λ r, u64 (t_test r - start1) < timeout) (w1 ++ [r1]) →
  Forall (λ r, u64 (t_test r - start2) < timeout) (w2 ++ [r2]) →
  let d := react ma (react mo (fresh now)) in
  ∃ qs1 qs2 s' d',
    dhcp_acquire_internal arp_poll iters tcp (w1 ++ r1 :: w2 ++ r2 :: rounds) now start1 start2 timeout s = Ret (true, s', d') ∧
    same_lease d d' ∧ local_ip s' = m_yiaddr mo ∧ netmask s' = offered_netmask d ∧ gateway s' = offered_gateway d ∧ dns_ip s' = offered_dns d ∧
    sent s' = sent s ++ qs1 ++ qs2 ∧ length qs1 = S (resends w1 start1) ∧ length qs2 = S (resends w2 start2) ∧
    Forall (λ q, heard tcp q BROADCAST_IP (local_ip s) DHCP_CLIENT_PORT DHCP_SERVER_PORT
      (wire (client_message (local_mac s) (xid (fresh now)) DHCPDISCOVER 0 0))) qs1 ∧
    Forall (λ q, heard tcp q BROADCAST_IP (local_ip s) DHCP_CLIENT_PORT DHCP_SERVER_PORT
      (wire (client_message (local_mac s) (xid (fresh now)) DHCPREQUEST (m_yiaddr mo) (server_of mo)))) qs2.
Proof using Htcp Hcalls.
  intros Hwf Hmac Hreg Hmo Hxo Hto Hma Hxa Hta Hfo Hfa Hw1 Hw2 Hfor [Hfw1 Hfw2]%Forall_app [Ht1 Htr1%Forall_inv]%Forall_app [Ht2 Htr2%Forall_inv]%Forall_app d.
  rewrite !Forall_app in Hfor. destruct Hfor as (Hp1 & Hq1 & Hp2 & Hq2).
  destruct (register_state _ _ _ _ Hreg) as (Hi1 & Hm1 & Hid1 & _ & Hs1).
  assert (is_u32 (xid (fresh now))) as Hx by (apply xid_u32; [apply u32_range|unfold is_u32; lia]).
  assert (as_at s1 s1) as Hat by (unfold as_at, wf_ip in *; by rewrite Hi1, Hm1, Hid1).
  assert (is_u32 (m_yiaddr mo) ∧ is_u32 (server_of mo)) as [Hy Hsrv].
  { destruct Hmo as (_ & _ & _ & _ & ? & ? & ? & _). split; [done|by apply opt_u32_range]. }
  rewrite <- Hm1 in Hmac. rewrite <- Hi1, <- Hm1. set (d0 := fresh now) in *.
  destruct (react_offer mo d0 Hto) as (Ho & Ha & Hn & Hip & Hsv & Hxid). set (d1 := react mo d0) in *.
  destruct (react_ack ma d1 Hta) as (Ha2 & Hn2 & Hip2 & Hxid2).
  destruct (resend_ok s1 DHCPDISCOVER 0 0 s1 d0 Hat Hmac Hx) as (s2 & q1 & E1 & Hat2 & Hsent2 & Hb1); [unfold is_u32; lia|unfold is_u32; lia|by left|].
  destruct (wait_rounds offer_received (dhcp_send arp_poll iters DHCPDISCOVER 0 0) start1 timeout s1 d0
    (client_message (local_mac s1) (xid d0) DHCPDISCOVER 0 0) (r1 :: w2 ++ r2 :: rounds) w1) with (last := start1) (s := s2) (d := d0)
    as (s3 & d3 & last3 & qs1 & E3 & Hat3 & Hd3 & Hsent3 & Hlen3 & Hqs1); try done.
  { intros x Hx'. by destruct (lease_fields _ _ Hx') as (-> & _). }
  { intros x y Hxs Hy'. assert (xid d0 = xid y) as Exy by (symmetry; apply (lease_fields _ _ Hy')).
    destruct (resend_ok s1 DHCPDISCOVER 0 0 x y Hxs Hmac) as (x2 & q & Eq & ?); [by rewrite <- Exy|unfold is_u32; lia|unfold is_u32; lia|by left|].
    exists x2, q. rewrite Exy. done. }
  destruct (wait_arrives offer_received (dhcp_send arp_poll iters DHCPDISCOVER 0 0) start1 last3 timeout s1 s3 d3 d0 d1 r1 (w2 ++ r2 :: rounds) pre1 fo post1 mo src1)
    as (s4 & d4 & E4 & Hat4 & Hd4 & Hsent4); try done.
  { by apply Forall_app. } { by eexists. } { by destruct (lease_fields _ _ Hd3) as (-> & _). }
  { intros x Hx'. by destruct (lease_fields _ _ Hx') as (-> & _). }
  assert (∀ y, same_lease d1 y → offered_ip y = m_yiaddr mo ∧ server_ip y = server_of mo ∧ xid y = xid d0) as Hd1.
  { intros y Hy'. destruct (lease_fields _ _ Hy') as (_ & _ & _ & -> & -> & -> & _). done. }
  assert (∀ y, same_lease d1 y → answered y = false) as Hna.
  { intros y Hy'. destruct (lease_fields _ _ Hy') as (_ & Ea & En & _). unfold answered. by rewrite Ea, En, Ha, Hn. }
  assert (∀ x y, as_at s1 x → same_lease d1 y → ∃ x2 q, dhcp_send arp_poll iters DHCPREQUEST (offered_ip y) (server_ip y) y x = Ret x2 ∧ as_at s1 x2 ∧
    sent x2 = sent x ++ [q] ∧ brings s1 (client_message (local_mac s1) (xid d0) DHCPREQUEST (m_yiaddr mo) (server_of mo)) q) as Hreq.
  { intros x y Hxs Hy'. destruct (Hd1 y Hy') as (-> & -> & Exy). rewrite <- Exy. apply resend_ok; try done; [by rewrite Exy|by right]. }
  destruct (Hreq s4 d4 Hat4 Hd4) as (s5 & q2 & E5 & Hat5 & Hsent5 & Hb2).
  assert (xid d1 = xid d0) as Exd by done.
  destruct (wait_rounds answered (λ d, dhcp_send arp_poll iters DHCPREQUEST (offered_ip d) (server_ip d) d) start2 timeout s1 d1 _ (r2 :: rounds) w2 Hna Hreq Ht2)
    with (last := start2) (s := s5) (d := d4) as (s6 & d6 & last6 & qs2 & E6 & Hat6 & Hd6 & Hsent6 & Hlen6 & Hqs2); [by rewrite Exd|done|done|].
  destruct (wait_arrives answered (λ d, dhcp_send arp_poll iters DHCPREQUEST (offered_ip d) (server_ip d) d) start2 last6 timeout s1 s6 d6 d1 d r2 rounds pre2 fa post2 ma src2)
    as (s7 & d7 & E7 & Hat7 & Hd7 & Hsent7); try done.
  { rewrite Exd. by apply Forall_app. } { by eexists. } { by rewrite Exd. } { by apply Hna. }
  { intros y Hy'. destruct (lease_fields _ _ Hy') as (_ & Ea & _). unfold answered. rewrite Ea. unfold d. by rewrite Ha2. }
  destruct (lease_fields _ _ Hd7) as (_ & G1 & G2 & G3 & _ & _ & G4 & G5 & G6).
  eexists (q1 :: qs1), (q2 :: qs2), _, d7. split.
  { unfold dhcp_acquire_internal. fold (fresh now). fold d0. rewrite Hreg. cbn [snd]. rewrite E1. cbn [obind]. rewrite E3, E4. cbn [obind].
    rewrite (proj1 (lease_fields _ _ Hd4)), Ho. cbn [negb]. rewrite E5. cbn [obind]. rewrite E6, E7. cbn [obind].
    rewrite G1, G2. unfold d. rewrite Hn2, Hn, Ha2. cbn [orb negb]. done. }
  split; [done|]. cbn [ip_set_dns ip_configure local_ip netmask gateway dns_ip]. split; [unfold d in *; congruence|]. repeat (split; [done|]).
  split; [|split; [simpl; by rewrite Hlen3|split; [simpl; by rewrite Hlen6|split; by constructor]]].
  cbn. rewrite Hsent7, Hsent6, Hsent5, Hsent4, Hsent3, Hsent2, Hs1, <- !(assoc_L (++)). done.
Qed.

(** C14. A lease is acquired: when a server answers the client's broadcasts
    with an offer and, after the REQUEST, an acknowledgement of the same
    transaction, each in any round of its wait before the time-out and among
    any frames that are not for the client and that the host does not answer,
    [dhcp_acquire_internal] returns true and leaves the interface with the
    offered address and with the netmask, router and name server that the two
    messages carry. The frames it has sent are exactly those of RFC 2131, each
    received by whoever listens on port 67: a DISCOVER, again for every two
    seconds without an offer, then a REQUEST that names the offered address
    and the server, again for every two seconds without an answer. *)
Theorem dhcp_acquire_correct w1 r1 w2 r2 rounds now start1 start2 timeout s s1 mo ma fo fa pre1 post1 pre2 post2 src1 src2 :
  wf_ip s → Forall is_u8 (local_mac s) → udp_register_handler DHCP_CLIENT_PORT DHCP_HANDLER s = (true, s1) →
  message_ok mo → m_xid mo = xid (fresh now) → opt_value 53 (m_opts mo) = Some [DHCPOFFER] →
  message_ok ma → m_xid ma = xid (fresh now) → opt_value 53 (m_opts ma) = Some [DHCPACK] →
  heard tcp fo BROADCAST_IP src1 DHCP_SERVER_PORT DHCP_CLIENT_PORT (wire mo) →
  heard tcp fa BROADCAST_IP src2 DHCP_SERVER_PORT DHCP_CLIENT_PORT (wire ma) →
  waiting r1 = pre1 ++ fo :: post1 → waiting r2 = pre2 ++ fa :: post2 →
  Forall (foreign (xid (fresh now)) s1) (pre1 ++ post1 ++ pre2 ++ post2) →
  Forall (λ r, Forall (foreign (xid (fresh now)) s1) (waiting r)) (w1 ++ w2) →
  Forall (λ r, u64 (t_test r - start1) < timeout) (w1 ++ [r1]) →
  Forall (λ r, u64 (t_test r - start2) < timeout) (w2 ++ [r2]) →
  let d := react ma (react mo (fresh now)) in
  ∃ qs1 qs2 s' d',
    dhcp_acquire_internal arp_poll iters tcp (w1 ++ r1 :: w2 ++ r2 :: rounds) now start1 start2 timeout s = Ret (true, s', d') ∧
    same_lease d d' ∧ local_ip s' = m_yiaddr mo ∧ netmask s' = offered_netmask d ∧ gateway s' = offered_gateway d ∧ dns_ip s' = offered_dns d ∧
    sent s' = sent s ++ qs1 ++ qs2 ∧ length qs1 = S (resends w1 start1) ∧ length qs2 = S (resends w2 start2) ∧
    Forall (λ q, heard tcp q BROADCAST_IP (local_ip s) DHCP_CLIENT_PORT DHCP_SERVER_PORT
      (wire (client_message (local_mac s) (xid (fresh now)) DHCPDISCOVER 0 0))) qs1 ∧
    Forall (λ q, heard tcp q BROADCAST_IP (local_ip s) DHCP_CLIENT_PORT DHCP_SERVER_PORT
      (wire (client_message (local_mac s) (xid (fresh now)) DHCPREQUEST (m_yiaddr mo) (server_of mo)))) qs2.
Proof using Htcp Hcalls. apply acquire_ok. Qed.
End lease.

(** Every reply is read as RFC 2131 and 2132 lay it out: for a message
    with any options in any order, padding between them and any end, the
    handler leaves exactly the state that the abstract reading of the message
    gives, and only counts it when it belongs to another transaction. *)
Theorem dhcp_reply_correct m d : message_ok m →
  dhcp_handle_reply (wire m) d = Ret (if m_xid m =? xid d then react m d else count_other (count_reply d)).
Proof. intros. by apply handle_ok. Qed.

(** C30. No datagram makes the handler read outside of it: whatever its bytes
    and its length, with options cut short or lengths that lead past the end,
    [dhcp_handle_reply] returns. *)
Theorem dhcp_reply_safe data d : Forall is_u8 data → ∃ d', dhcp_handle_reply data d = Ret d'.
Proof. apply handle_safe. Qed.

(** ** A client and a server *)

Definition demo_client : net :=
  mk_net [2; 0; 0; 0; 0; 1] 0 0 0 0 1 (replicate 16 arp_empty) (replicate 8 udp_empty) [] [].
Definition demo_server : net := mk_net [2; 0; 0; 0; 0; 9] 0x0a000001 0xffffff00 0 0 1 [] [mk_binding true 67 7] [] [].
Definition demo_message (t : Z) (opts : list opt) (ip : Z) : message :=
  mk_message [2; 1; 6; 0] (xid (fresh 7)) (replicate 8 0) ip 0 (replicate 212 0)
    (PadOpt :: Opt 53 [t] :: Opt 54 [10; 0; 0; 1] :: opts) [0xFF].
Definition demo_offer : message := demo_message DHCPOFFER [Opt 1 [255; 255; 0; 0]; Opt 3 [10; 0; 0; 1; 10; 0; 0; 2]] 0x0a000005.
Definition demo_ack : message := demo_message DHCPACK [Opt 6 [10; 0; 0; 3]] 0x0a000005.

Lemma demo_message_ok t opts ip : is_u8 t → Forall opt_ok opts → is_u32 ip → message_ok (demo_message t opts ip).
Proof.
  intros Ht Ho Hip. unfold message_ok. cbn [m_head m_xid m_mid m_yiaddr m_siaddr m_tail m_opts m_rest demo_message].
  rewrite !length_replicate. repeat (split; [done || (vm_compute; intuition congruence)|]).
  split; [|right; by exists []]. repeat apply Forall_cons_2; try done; repeat constructor; unfold is_u8 in *; cbn; lia.
Qed.

(** The frame that carries a message of the server to everybody. *)
Definition demo_frame (m : message) : list Z :=
  match udp_send (λ s, s) (λ _, 0%nat) BROADCAST_IP DHCP_SERVER_PORT DHCP_CLIENT_PORT (wire m) demo_server with
  | Ret (_, A) => List.last (sent A) []
  | _ => []
  end.

Lemma demo_heard m : Forall is_u8 (wire m) → Z.of_nat (length (wire m)) ≤ 1472 →
  heard (λ _ _ s, s) (demo_frame m) BROADCAST_IP 0x0a000001 DHCP_SERVER_PORT DHCP_CLIENT_PORT (wire m).
Proof.
  intros Hb Hl. destruct (udp_send_state (λ s, s) (λ _, 0%nat) BROADCAST_IP DHCP_SERVER_PORT DHCP_CLIENT_PORT (wire m) demo_server BROADCAST_MAC)
    as (A & q & E & Hs & _); [done|done|].
  apply (frame_heard (λ s, s) (λ _, 0%nat) _ demo_server A BROADCAST_IP _ _ _ BROADCAST_MAC); try done; try (unfold is_u16, is_u32; cbn; lia).
  - unfold demo_frame. rewrite E, Hs. by rewrite last_last.
Qed.

(** An ARP announcement, and a frame cut short. *)
Definition demo_noise : list (list Z) :=
  [BROADCAST_MAC ++ [2; 0; 0; 0; 0; 9] ++ le16 (net_htons ETHERTYPE_ARP) ++
   arp_packet ARP_OP_REPLY [2; 0; 0; 0; 0; 9] 0x0a000001 (replicate 6 0) (le32 (net_htonl 0x0a000001)); [1; 2; 3]].

Lemma demo_foreign id s : Forall (foreign (λ _ _ s, s) id s) demo_noise.
Proof.
  apply Forall_cons_2; [|apply Forall_singleton]; (split; [apply arp_silent|intros d _; apply arp_keeps]).
  - right. split; [reflexivity|by vm_compute].
  - right. reflexivity.
  - left. simpl. lia.
  - left. simpl. lia.
Qed.

(** The offer comes in the second round, after two seconds and a second
    DISCOVER; the acknowledgement in the second round of the other wait. *)
Lemma dhcp_acquire_correct_witness : ∃ q1 q2 q3 s' d,
  dhcp_acquire_internal (λ s, s) (λ _, 0%nat) (λ _ _ s, s)
    ([mk_round 5 demo_noise 2010 2011] ++ mk_round 2012 (demo_noise ++ demo_frame demo_offer :: demo_noise) 2022 2022 ::
     [mk_round 2030 [] 2040 2040] ++ [mk_round 2041 (demo_frame demo_ack :: demo_noise) 2051 2051]) 7 0 2023 5000 demo_client = Ret (true, s', d) ∧
  local_ip s' = 0x0a000005 ∧ netmask s' = 0xffff0000 ∧ gateway s' = 0x0a000001 ∧ dns_ip s' = 0x0a000003 ∧
  sent s' = [q1; q2; q3].
Proof.
  destruct (dhcp_acquire_correct (λ s, s) (λ _, 0%nat) (λ _ _ s, s) (λ _ _ s, same_config_refl s) (λ _ _ _, eq_refl)
    [mk_round 5 demo_noise 2010 2011] (mk_round 2012 (demo_noise ++ demo_frame demo_offer :: demo_noise) 2022 2022)
    [mk_round 2030 [] 2040 2040] (mk_round 2041 (demo_frame demo_ack :: demo_noise) 2051 2051) [] 7 0 2023 5000 demo_client
    (udp_register_handler DHCP_CLIENT_PORT DHCP_HANDLER demo_client).2 demo_offer demo_ack (demo_frame demo_offer) (demo_frame demo_ack)
    demo_noise demo_noise [] demo_noise 0x0a000001 0x0a000001)
    as (qs1 & qs2 & s' & d' & E & _ & H1 & H2 & H3 & H4 & Hs & L1 & L2 & _).
  - unfold wf_ip, is_u16, is_u32; cbn; lia.
  - apply (bool_decide_unpack _); by vm_compute.
  - reflexivity.
  - apply demo_message_ok; [unfold is_u8, DHCPOFFER, DHCPACK; lia|repeat constructor; try (unfold is_u8; lia); done|unfold is_u32; lia].
  - reflexivity.
  - reflexivity.
  - apply demo_message_ok; [unfold is_u8, DHCPOFFER, DHCPACK; lia|repeat constructor; try (unfold is_u8; lia); done|unfold is_u32; lia].
  - reflexivity.
  - reflexivity.
  - apply demo_heard; [apply (bool_decide_unpack _); by vm_compute|by vm_compute].
  - apply demo_heard; [apply (bool_decide_unpack _); by vm_compute|by vm_compute].
  - reflexivity.
  - reflexivity.
  - rewrite !Forall_app. split_and!; try apply demo_foreign. apply Forall_nil_2.
  - apply Forall_cons_2; [apply demo_foreign|]. apply Forall_singleton, Forall_nil_2.
  - apply Forall_cons_2; [|apply Forall_singleton]; by vm_compute.
  - apply Forall_cons_2; [|apply Forall_singleton]; by vm_compute.
  - destruct qs1 as [|q1 [|q2 [|]]]; [discriminate L1..| |discriminate L1].
    destruct qs2 as [|q3 [|]]; [discriminate L2| |discriminate L2].
    exists q1, q2, q3, s', d'. split; [exact E|]. split; [exact H1|]. split; [exact H2|].
    split; [exact H3|]. split; [exact H4|exact Hs].
Defined.

Lemma dhcp_reply_correct_witness :
  dhcp_handle_reply (wire demo_offer) (fresh 7) = Ret (mk_dhcp true false false 0x0a000005 0x0a000001 0xffff0000 0x0a000001 0 (xid (fresh 7)) 1 0).
Proof.
  apply (dhcp_reply_correct demo_offer (fresh 7)).
  apply demo_message_ok; [unfold is_u8, DHCPOFFER, DHCPACK; lia|repeat constructor; try (unfold is_u8; lia); done|unfold is_u32; lia].
Defined.

Lemma dhcp_reply_safe_witness : ∃ d', dhcp_handle_reply (take 245 (wire demo_offer) ++ [200]) (fresh 7) = Ret d'.
Proof. apply dhcp_reply_safe. apply (bool_decide_unpack _). by vm_compute. Defined.

(** ** What the client does not test *)

(** An offer of a second server that comes after the REQUEST replaces the
    address: the interface is configured with one that was not acknowledged. *)
Lemma dhcp_late_offer : ∃ s' d,
  dhcp_acquire_internal (λ s, s) (λ _, 0%nat) (λ _ _ s, s)
    [mk_round 5 [demo_frame demo_offer] 15 15;
     mk_round 25 [demo_frame (demo_message DHCPOFFER [] 0x0a0000c8); demo_frame demo_ack] 35 35] 7 0 20 1000 demo_client = Ret (true, s', d) ∧
  m_yiaddr demo_ack = 0x0a000005 ∧ local_ip s' = 0x0a0000c8.
Proof. eexists _, _. split; [vm_compute; reflexivity|done]. Qed.
End dhcp.
