(* ===== verification/Fat32.v ===== *)
(** * The FAT32 builder ([src/impl/storage/fat32.c])

    The builder writes a fresh volume onto a device of [Block.v]: boot sector,
    files as they are added, and at the end directories, both FATs and FSInfo.
    The bounce buffer [io] is filled before each use, so it is the bytes that
    are written. [can] says which sizes the heap gives. Names and labels are
    the bytes of C strings without the terminator; pointers are not NULL. *)

From S2P Require Import Prelude Bytes CString Net Block.

Open Scope c_scope.

Module fat32.

Definition FAT32_RESERVED_SECTORS : Z := 32.
Definition FAT32_NUM_FATS : Z := 2.
Definition FAT32_MIN_CLUSTERS : Z := 65525.
Definition FAT32_MAX_CLUSTERS : Z := 4 * 1024 * 1024.
Definition FAT32_MAX_DIRS : Z := 32.
Definition FAT32_EOC : Z := 0x0FFFFFFF.
Definition FAT32_IO_CHUNK : Z := 64 * 1024.
Definition FAT32_DATE : Z := Z.lor (Z.lor (Z.shiftl (2026 - 1980) 9) (Z.shiftl 1 5)) 1.
Definition NO_PARENT : Z := 0xFFFFFFFF.
Definition sizeof_dirent : Z := 32.
Definition sizeof_builder : Z := 840.

Record fat_dirent := mk_dirent {
  d_name : list Z; d_attr : Z; ntres : Z; crt_time_tenth : Z; crt_time : Z; crt_date : Z; lst_acc_date : Z;
  fst_clus_hi : Z; wrt_time : Z; wrt_date : Z; fst_clus_lo : Z; file_size : Z
}.
Definition dirent_zero : fat_dirent := mk_dirent (replicate 11 0) 0 0 0 0 0 0 0 0 0 0 0.

Definition dirent_bytes (e : fat_dirent) : list Z :=
  d_name e ++ [d_attr e; ntres e; crt_time_tenth e] ++ lebytes 2 (crt_time e) ++ lebytes 2 (crt_date e) ++
  lebytes 2 (lst_acc_date e) ++ lebytes 2 (fst_clus_hi e) ++ lebytes 2 (wrt_time e) ++ lebytes 2 (wrt_date e) ++
  lebytes 2 (fst_clus_lo e) ++ lebytes 4 (file_size e).

Record fat_dir := mk_dir { first_cluster : Z; clusters : Z; capacity : Z; count : Z; entries : list fat_dirent }.

Record fat32_builder := mk_builder {
  dev : nat; bps : Z; spc : Z; cluster_bytes : Z; total_sectors : Z; fat_sectors : Z; data_start : Z;
  cluster_count : Z; next_cluster : Z; fat : list Z; dirs : list fat_dir; failed : bool
}.

Definition set_failed (b : fat32_builder) : fat32_builder :=
  mk_builder (dev b) (bps b) (spc b) (cluster_bytes b) (total_sectors b) (fat_sectors b) (data_start b)
    (cluster_count b) (next_cluster b) (fat b) (dirs b) true.
Definition set_fat (next : Z) (f : list Z) (b : fat32_builder) : fat32_builder :=
  mk_builder (dev b) (bps b) (spc b) (cluster_bytes b) (total_sectors b) (fat_sectors b) (data_start b)
    (cluster_count b) next f (dirs b) (failed b).
Definition set_dirs (l : list fat_dir) (b : fat32_builder) : fat32_builder :=
  mk_builder (dev b) (bps b) (spc b) (cluster_bytes b) (total_sectors b) (fat_sectors b) (data_start b)
    (cluster_count b) (next_cluster b) (fat b) l (failed b).

(** ** Clusters *)

Definition cluster_lba (b : fat32_builder) (cluster : Z) : Z :=
  u64 (data_start b + u64 (u32 (cluster - 2) * spc b)).

(** [for i < n: fat[first + i] = ...] *)
Fixpoint link_clusters (l : list nat) (first n : Z) (f : list Z) : outcome (list Z) :=
  match l with
  | [] => Ret f
  | i :: l =>
      let i := Z.of_nat i in
      let* f := oset f (u32 (first + i)) (if u32 (i + 1) <? n then u32 (first + i + 1) else FAT32_EOC) in
      link_clusters l first n f
  end.

Definition alloc_clusters (n : Z) (b : fat32_builder) : outcome (Z * fat32_builder) :=
  if n =? 0 then Ret (0, b)
  else if u32 (cluster_count b + 2) <? u32 (next_cluster b + n) then Ret (0, set_failed b)
  else
    let first := next_cluster b in
    let* f := link_clusters (seq 0 (Z.to_nat n)) first n (fat b) in
    Ret (first, set_fat (u32 (first + n)) f b).

(** ** Names *)

Definition upper (c : Z) : Z := if (97 <=? c) && (c <=? 122) then c - 97 + 65 else c.

(** [strrchr(name, '.')] *)
Fixpoint last_dot (l : list Z) : option nat :=
  match l with
  | [] => None
  | c :: l => match last_dot l with Some i => Some (S i) | None => if c =? 46 then Some O else None end
  end.

Definition make_83 (name : list Z) : list Z :=
  let base := match last_dot name with Some i => take i name | None => name end in
  let out := over 0 (upper <$> take 8 base) (replicate 11 32) in
  match last_dot name with
  | Some i => over 8 (upper <$> take 3 (drop (S i) name)) out
  | None => out
  end.

(** ** Directories *)

Definition set_cluster (c : Z) (e : fat_dirent) : fat_dirent :=
  mk_dirent (d_name e) (d_attr e) (ntres e) (crt_time_tenth e) (crt_time e) (crt_date e) (lst_acc_date e)
    (u16 (Z.shiftr c 16)) (wrt_time e) (wrt_date e) (u16 c) (file_size e).
Definition set_size (n : Z) (e : fat_dirent) : fat_dirent :=
  mk_dirent (d_name e) (d_attr e) (ntres e) (crt_time_tenth e) (crt_time e) (crt_date e) (lst_acc_date e)
    (fst_clus_hi e) (wrt_time e) (wrt_date e) (fst_clus_lo e) n.
Definition set_name (n : list Z) (e : fat_dirent) : fat_dirent :=
  mk_dirent n (d_attr e) (ntres e) (crt_time_tenth e) (crt_time e) (crt_date e) (lst_acc_date e)
    (fst_clus_hi e) (wrt_time e) (wrt_date e) (fst_clus_lo e) (file_size e).

(** A cleared entry with name, attribute and date. *)
Definition new_entry (name : list Z) (attr : Z) : fat_dirent :=
  mk_dirent name attr 0 0 0 FAT32_DATE FAT32_DATE 0 0 FAT32_DATE 0 0.

(** The entries . and .. *)
Definition dot_entries (first parent : Z) : list fat_dirent :=
  [set_cluster first (new_entry (over 0 [46] (replicate 11 32)) 0x10);
   set_cluster (if parent =? 2 then 0 else parent) (new_entry (over 0 [46; 46] (replicate 11 32)) 0x10)].

Definition put_entries (l : list fat_dirent) (d : fat_dir) : fat_dir :=
  mk_dir (first_cluster d) (clusters d) (capacity d) (count d + Z.of_nat (length l))
    (take (Z.to_nat (count d)) (entries d) ++ l ++ drop (Z.to_nat (count d) + length l) (entries d)).

Section build.
  Context {D : Type} `{BlockDriver D}.
  Context (can : Z → bool).

Definition new_dir (parent_cluster : Z) (b : fat32_builder) : outcome (Z * fat32_builder) :=
  if FAT32_MAX_DIRS <=? Z.of_nat (length (dirs b)) then Ret (0, b)
  else
    let n := 4096 / cluster_bytes b in
    let n := if n =? 0 then 1 else n in
    let* (first, b) := alloc_clusters n b in
    if first =? 0 then Ret (0, b)
    else
      let cap := u32 (n * cluster_bytes b) / sizeof_dirent in
      if negb (can (cap * sizeof_dirent)) then Ret (0, b)
      else
        let d := mk_dir first n cap 0 (replicate (Z.to_nat cap) dirent_zero) in
        let d := if negb (parent_cluster =? NO_PARENT) then put_entries (dot_entries first parent_cluster) d else d in
        Ret (first, set_dirs (dirs b ++ [d]) b).

Definition find_dir (b : fat32_builder) (cluster : Z) : option nat := first_index (λ d, first_cluster d =? cluster) (dirs b).

(** The new entry is set by [fill] as the callers do after [add_entry]. *)
Definition add_entry (dir : Z) (name : list Z) (attr : Z) (fill : fat_dirent → fat_dirent) (b : fat32_builder) :
    bool * fat32_builder :=
  match find_dir b dir with
  | None => (false, set_failed b)
  | Some i =>
      let d := nth i (dirs b) (mk_dir 0 0 0 0 []) in
      if capacity d <=? count d then (false, set_failed b)
      else (true, set_dirs (<[i := put_entries [fill (new_entry (make_83 name) attr)] d]> (dirs b)) b)
  end.

(** ** Writing *)

(** The zeroed buffer is written chunk by chunk. *)
Fixpoint zero_loop (fuel : nat) (b : fat32_builder) (lba n : Z) (st : storage D) : outcome (bool * storage D) :=
  match fuel with
  | O => Hang
  | S fuel =>
      if 0 <? n then
        let per := FAT32_IO_CHUNK / bps b in
        let k := if n <? per then n else per in
        let* (ok, st) := blockdev_write (dev b) lba k (replicate (Z.to_nat (k * bps b)) 0) st in
        if negb ok then Ret (false, st) else zero_loop fuel b (u64 (lba + k)) (n - k) st
      else Ret (true, st)
  end.
Definition write_zero (b : fat32_builder) (lba n : Z) (st : storage D) : outcome (bool * storage D) :=
  zero_loop (S (Z.to_nat n)) b lba n st.

(** The clusters of a file. *)
Definition clusters_for (b : fat32_builder) (size : Z) : Z := u32 (size + cluster_bytes b - 1) / cluster_bytes b.

Fixpoint file_loop (fuel : nat) (b : fat32_builder) (lba : Z) (src : list Z) (st : storage D) : outcome (bool * storage D) :=
  match fuel with
  | O => Hang
  | S fuel =>
      let left_ := Z.of_nat (length src) in
      if 0 <? left_ then
        let n := if left_ <? FAT32_IO_CHUNK then left_ else FAT32_IO_CHUNK in
        let k := (n + bps b - 1) / bps b in
        let io := take (Z.to_nat n) src ++ replicate (Z.to_nat (k * bps b - n)) 0 in
        let* (ok, st) := blockdev_write (dev b) lba k io st in
        if negb ok then Ret (false, st) else file_loop fuel b (u64 (lba + k)) (drop (Z.to_nat n) src) st
      else Ret (true, st)
  end.

Definition fat32_root (b : fat32_builder) : Z := 2.

Definition fat32_mkdir (parent : Z) (name : list Z) (b : fat32_builder) : outcome (Z * fat32_builder) :=
  if failed b then Ret (0, b)
  else
    let* (cluster, b) := new_dir parent b in
    if cluster =? 0 then Ret (0, set_failed b)
    else
      let '(ok, b) := add_entry parent name 0x10 (set_cluster cluster) b in
      Ret (if ok then cluster else 0, b).

Definition fat32_add_file (dir : Z) (name data : list Z) (b : fat32_builder) (st : storage D) :
    outcome (bool * fat32_builder * storage D) :=
  if failed b then Ret (false, b, st)
  else
    let size := Z.of_nat (length data) in
    let n := clusters_for b size in
    let* (first, b) := alloc_clusters n b in
    if negb (n =? 0) && (first =? 0) then Ret (false, b, st)
    else
      let lba := if first =? 0 then 0 else cluster_lba b first in
      let* (ok, st) := file_loop (S (length data)) b lba data st in
      if negb ok then Ret (false, set_failed b, st)
      else
        let '(ok, b) := add_entry dir name 0x20 (λ e, set_size size (set_cluster first e)) b in
        Ret (ok, b, st).

(** ** Finishing *)

Fixpoint dirs_loop (l : list fat_dir) (b : fat32_builder) (st : storage D) : outcome (bool * storage D) :=
  match l with
  | [] => Ret (true, st)
  | d :: l =>
      let* (ok, st) := blockdev_write (dev b) (cluster_lba b (first_cluster d)) (u32 (clusters d * spc b))
                         (concat (dirent_bytes <$> entries d)) st in
      if negb ok then Ret (false, st) else dirs_loop l b st
  end.

Definition fat_bytes (b : fat32_builder) : list Z := concat (lebytes 4 <$> fat b).

(** One copy of the FAT, from sector [s] on. *)
Fixpoint fat_loop (fuel : nat) (b : fat32_builder) (base s : Z) (st : storage D) : outcome (bool * storage D) :=
  match fuel with
  | O => Hang
  | S fuel =>
      if s <? fat_sectors b then
        let per := FAT32_IO_CHUNK / bps b in
        let n := if fat_sectors b - s <? per then fat_sectors b - s else per in
        let part := take (Z.to_nat (n * bps b)) (drop (Z.to_nat (s * bps b)) (fat_bytes b)) in
        let io := part ++ replicate (Z.to_nat (n * bps b) - length part) 0 in
        let* (ok, st) := blockdev_write (dev b) (u64 (base + s)) n io st in
        if negb ok then Ret (false, st) else fat_loop fuel b base (u32 (s + per)) st
      else Ret (true, st)
  end.
Fixpoint copies_loop (l : list Z) (b : fat32_builder) (st : storage D) : outcome (bool * storage D) :=
  match l with
  | [] => Ret (true, st)
  | copy :: l =>
      let* (ok, st) := fat_loop (S (Z.to_nat (fat_sectors b))) b (FAT32_RESERVED_SECTORS + copy * fat_sectors b) 0 st in
      if negb ok then Ret (false, st) else copies_loop l b st
  end.

(** Bytes put at their places in a cleared sector. *)
Definition sector_with (n : Z) (l : list (nat * list Z)) : list Z := foldl (λ s p, over p.1 p.2 s) (replicate (Z.to_nat n) 0) l.

Definition fsinfo (b : fat32_builder) : list Z :=
  sector_with (bps b)
    [(0%nat, lebytes 4 0x41615252); (484%nat, lebytes 4 0x61417272);
     (488%nat, lebytes 4 (cluster_count b + 2 - next_cluster b)); (492%nat, lebytes 4 (next_cluster b));
     (508%nat, lebytes 4 0xAA550000)].

Definition fat32_finish (b : fat32_builder) (st : storage D) : outcome (bool * storage D) :=
  if failed b then Ret (false, st)
  else
    let* (ok, st) := dirs_loop (dirs b) b st in
    if negb ok then Ret (false, st)
    else
      let* (ok, st) := copies_loop [0; 1] b st in
      if negb ok then Ret (false, st)
      else
        let* (ok, st) := blockdev_write (dev b) 1 1 (fsinfo b) st in
        if negb ok then Ret (false, st) else blockdev_write (dev b) 7 1 (fsinfo b) st.

(** ** Creating *)

Fixpoint spc_loop (fuel : nat) (bytes bps spc : Z) : Z :=
  match fuel with
  | O => spc
  | S fuel =>
      if (spc * bps <? 32768) && (FAT32_MAX_CLUSTERS <? bytes / (spc * bps)) then spc_loop fuel bytes bps (spc * 2) else spc
  end.

(** Up to [2 ^ k] rounds of a loop: [inl] goes on, [inr] ends it. *)
Fixpoint rounds {A B} (k : nat) (step : A → A + B) (a : A) : A + B :=
  match k with
  | O => step a
  | S k => match rounds k step a with inl a => rounds k step a | inr b => inr b end
  end.

Definition fat_sz_step (avail spc per : Z) (f : Z) : Z + Z :=
  if f * per <? u32 (avail - u32 (FAT32_NUM_FATS * f)) / spc + 2 then inl (u32 (f + 1)) else inr f.

(** Offsets of the partitions that a device is inside of. *)
Fixpoint hidden_loop (fuel : nat) (p : option nat) (st : storage D) (hidden : Z) : Z :=
  match fuel, p with
  | S fuel, Some i =>
      match kind (the_dev i st) with
      | BLOCKDEV_KIND_PARTITION => hidden_loop fuel (parent (the_dev i st)) st (u64 (hidden + start_lba (the_dev i st)))
      | BLOCKDEV_KIND_DISK => hidden
      end
  | _, _ => hidden
  end.

Definition boot_sector (b : fat32_builder) (hidden volume_id : Z) (lab : list Z) : list Z :=
  sector_with (bps b)
    [(0%nat, [0xEB; 0x58; 0x90]); (3%nat, txt "MINIMAOS"); (11%nat, lebytes 2 (bps b)); (13%nat, [u8 (spc b)]);
     (14%nat, lebytes 2 FAT32_RESERVED_SECTORS); (16%nat, [FAT32_NUM_FATS]); (21%nat, [0xF8]); (24%nat, lebytes 2 63);
     (26%nat, lebytes 2 255); (28%nat, lebytes 4 hidden); (32%nat, lebytes 4 (total_sectors b));
     (36%nat, lebytes 4 (fat_sectors b)); (44%nat, lebytes 4 2); (48%nat, lebytes 2 1); (50%nat, lebytes 2 6);
     (64%nat, [0x80]); (66%nat, [0x29]); (67%nat, lebytes 4 volume_id); (71%nat, lab); (82%nat, txt "FAT32   ");
     (510%nat, [0x55; 0xAA])].

(** The layout of a volume of [total] sectors, if it suits FAT32. *)
Definition layout (d : nat) (ss total : Z) : outcome (option fat32_builder) :=
  let bytes := u64 (total * ss) in
  let sc := spc_loop 8 bytes ss 1 in
  let per_fat_sector := ss / 4 in
  let avail := u32 (total - FAT32_RESERVED_SECTORS) in
  let fat_sz := avail / u32 (sc * per_fat_sector + FAT32_NUM_FATS) in
  let fat_sz := if fat_sz =? 0 then 1 else fat_sz in
  match rounds 33 (fat_sz_step avail sc per_fat_sector) fat_sz with
  | inl _ => Hang
  | inr fat_sz =>
      let ds := u32 (FAT32_RESERVED_SECTORS + u32 (FAT32_NUM_FATS * fat_sz)) in
      let cc := u32 (total - ds) / sc in
      if (cc <? FAT32_MIN_CLUSTERS) || (FAT32_MAX_CLUSTERS <? cc) then Ret None
      else Ret (Some (mk_builder d ss sc (sc * ss) total fat_sz ds cc 2
                        (0x0FFFFFF8 :: FAT32_EOC :: replicate (Z.to_nat cc) 0) [] false))
  end.

Definition fat32_create (d : nat) (label : option (list Z)) (volume_id : Z) (st : storage D) :
    outcome (option fat32_builder * storage D) :=
  let ss := sector_size (the_dev d st) in
  let total := sectors (the_dev d st) in
  if negb (ss =? 512) && negb (ss =? 4096) then Ret (None, st)
  else if 0xFFFFFFFF <? total then Ret (None, st)
  else if negb (can sizeof_builder) then Ret (None, st)
  else
    let* r := layout d ss total in
    match r with
    | None => Ret (None, st)
    | Some b =>
        if negb (can ((cluster_count b + 2) * 4)) || negb (can FAT32_IO_CHUNK) then Ret (None, st)
        else if negb (can ss) then let* (_, st) := fat32_finish b st in Ret (None, st)
        else
          let lab := make_83 (default (txt "NO NAME") label) in
          let bs := boot_sector b (hidden_loop (S BLOCKDEV_MAX) (Some d) st 0) volume_id lab in
          let* (ok, st) := write_zero b 0 FAT32_RESERVED_SECTORS st in
          let* (ok, st) := (if ok then blockdev_write d 0 1 bs st else Ret (false, st)) in
          let* (ok, st) := (if ok then blockdev_write d 6 1 bs st else Ret (false, st)) in
          if negb ok then Ret (None, st)
          else
            let* (root, b) := new_dir NO_PARENT b in
            if negb (root =? 2) then Ret (None, st)
            else Ret (Some (add_entry root [] 0x08 (set_name lab) b).2, st)
    end.
End build.
End fat32.
