(* ===== verification/Fat32Spec.v ===== *)
(** * What the FAT32 builder leaves on the device

    The volume is read back as the FAT32 specification says: geometry from the
    boot sector, chains from a FAT, directories as 32-byte entries. *)

From S2P Require Import Prelude Bytes CString Net Block Fat32.
Import fat32.

Open Scope c_scope.

Module fat32spec.

(** ** Reading a volume, byte by byte *)

Definition le_at (img : Z → Z) (a : Z) (n : nat) : Z := num (img <$> seqZ a (Z.of_nat n)).

Record volume := mk_volume { v_bps : Z; v_spc : Z; v_res : Z; v_nfats : Z; v_fatsz : Z; v_root : Z }.

Definition mount (img : Z → Z) : volume :=
  mk_volume (le_at img 11 2) (le_at img 13 1) (le_at img 14 2) (le_at img 16 1) (le_at img 36 4) (le_at img 44 4).

Definition fat_get (img : Z → Z) (v : volume) (copy c : Z) : Z :=
  Z.land (le_at img ((v_res v + copy * v_fatsz v) * v_bps v + 4 * c) 4) 0x0FFFFFFF.

(** The clusters from [c] to the end mark. *)
Fixpoint chain (fuel : nat) (img : Z → Z) (v : volume) (copy c : Z) : option (list Z) :=
  match fuel with
  | O => None
  | S fuel =>
      let n := fat_get img v copy c in
      if c <? 2 then None
      else if 0x0FFFFFF8 <=? n then Some [c]
      else (λ l, c :: l) <$> chain fuel img v copy n
  end.

Definition cluster_at (img : Z → Z) (v : volume) (c : Z) : list Z :=
  img <$> seqZ ((v_res v + v_nfats v * v_fatsz v + (c - 2) * v_spc v) * v_bps v) (v_spc v * v_bps v).

Definition read_chain (img : Z → Z) (v : volume) (copy c : Z) : option (list Z) :=
  (λ l, concat (cluster_at img v <$> l)) <$> chain (Z.to_nat (v_fatsz v * v_bps v)) img v copy c.

Record entry := mk_entry { e_name : list Z; e_attr : Z; e_cluster : Z; e_size : Z }.

Definition parse_entry (l : list Z) : entry :=
  mk_entry (take 11 l) (nth 11 l 0) (65536 * rd 2 l 20 + rd 2 l 26) (rd 4 l 28).

(** A first byte of 0 ends a directory, 0xE5 is a free entry. *)
Fixpoint parse_dir (fuel : nat) (l : list Z) : list entry :=
  match fuel with
  | O => []
  | S fuel =>
      if nth 0 l 0 =? 0 then []
      else if nth 0 l 0 =? 0xE5 then parse_dir fuel (drop 32 l)
      else parse_entry (take 32 l) :: parse_dir fuel (drop 32 l)
  end.

Definition read_dir (img : Z → Z) (v : volume) (copy c : Z) : option (list entry) :=
  (λ l, parse_dir (length l) l) <$> read_chain img v copy c.

Definition read_file (img : Z → Z) (v : volume) (copy : Z) (e : entry) : option (list Z) :=
  if e_size e =? 0 then Some [] else take (Z.to_nat (e_size e)) <$> read_chain img v copy (e_cluster e).

(** ** Lists of pieces of one length *)

Section uniform.
  Context {A : Type} (f : A → list Z) (m : nat) (Hf : ∀ a, length (f a) = m).

Lemma length_pieces l : length (concat (f <$> l)) = (length l * m)%nat.
Proof. induction l as [|a l IH]; [done|]. rewrite fmap_cons. cbn [concat length]. rewrite length_app, Hf, IH. lia. Qed.

Lemma drop_pieces l k : drop (k * m) (concat (f <$> l)) = concat (f <$> drop k l).
Proof.
  revert k. induction l as [|a l IH]; intros k.
  { rewrite (drop_nil k). change (concat (f <$> [])) with (@nil Z). by rewrite drop_nil. }
  destruct k as [|k]; [done|]. rewrite fmap_cons. cbn [concat drop].
  rewrite drop_app_ge by (rewrite Hf; lia). rewrite Hf. replace (S k * m - m)%nat with (k * m)%nat by lia. apply IH.
Qed.

Lemma piece_at l k a : l !! k = Some a → take m (drop (k * m) (concat (f <$> l))) = f a.
Proof.
  intros Hk. rewrite drop_pieces, (drop_S l a k Hk), fmap_cons. cbn [concat]. rewrite take_app_le by (rewrite Hf; lia).
  apply take_ge. rewrite Hf. lia.
Qed.
End uniform.

Lemma img_slice (img : Z → Z) l a : (∀ i, 0 ≤ i < Z.of_nat (length l) → img (a + i) = nth (Z.to_nat i) l 0) →
  img <$> seqZ a (Z.of_nat (length l)) = l.
Proof.
  intros Hi. apply list_eq. intros k. rewrite list_lookup_fmap. destruct (decide (k < length l)%nat) as [Hk|Hk].
  - rewrite lookup_seqZ_lt by lia. cbn. rewrite Hi by lia. rewrite Nat2Z.id, nth_lookup.
    by destruct (lookup_lt_is_Some_2 l k Hk) as [x ->].
  - rewrite lookup_seqZ_ge by lia. symmetry. apply lookup_ge_None. lia.
Qed.

Lemma le_at_bytes (img : Z → Z) a n v : 0 ≤ v < 256 ^ Z.of_nat n →
  (∀ i, 0 ≤ i < Z.of_nat n → img (a + i) = nth (Z.to_nat i) (lebytes n v) 0) → le_at img a n = v.
Proof.
  intros Hv Hi. unfold le_at. pose proof (img_slice img (lebytes n v) a) as H. rewrite length_lebytes in H.
  rewrite H by done. by apply num_lebytes.
Qed.

Lemma seqZ_eq_ext {A} (f g : Z → A) a n : (∀ x, a ≤ x < a + n → f x = g x) → f <$> seqZ a n = g <$> seqZ a n.
Proof. intros Hx. apply list_fmap_ext. intros k x Hk. apply lookup_seqZ in Hk as [-> ?]. apply Hx. lia. Qed.

(** ** The device *)

Section volume.
  Context {D : Type} `{BlockDriver D}.

Definition img (b : fat32_builder) (st : storage D) : Z → Z := dev_byte (dev b) st.

Record geo_ok (b : fat32_builder) (st : storage D) : Prop := {
  g_table : table_ok st;
  g_used : used (the_dev (dev b) st) = true;
  g_write : can_write (the_dev (dev_disk (dev b) st) st) = true;
  g_ss : sector_size (the_dev (dev b) st) = bps b;
  g_bps : bps b = 512 ∨ bps b = 4096;
  g_spc : 1 ≤ spc b ≤ 64;
  g_cb : cluster_bytes b = spc b * bps b ∧ cluster_bytes b ≤ 32768;
  g_sectors : sectors (the_dev (dev b) st) ≤ 4294967295;
  g_end : data_start b + cluster_count b * spc b ≤ sectors (the_dev (dev b) st);
  g_start : data_start b = 32 + 2 * fat_sectors b;
  g_fat : 0 < fat_sectors b ∧ (cluster_count b + 2) * 4 ≤ fat_sectors b * bps b;
  g_count : 65525 ≤ cluster_count b ≤ 4194304
}.

(** [f] is [g] with [buf] at [a]. *)
Definition patched (f g : Z → Z) (a : Z) (buf : list Z) : Prop :=
  ∀ x, g x = if decide (a ≤ x < a + Z.of_nat (length buf)) then nth (Z.to_nat (x - a)) buf 0 else f x.

Lemma write_ok b st lba n buf : geo_ok b st → 0 ≤ lba → 0 < n → lba + n ≤ sectors (the_dev (dev b) st) →
  Z.of_nat (length buf) = n * bps b →
  ∃ st', blockdev_write (dev b) lba n buf st = Ret (true, st') ∧ geo_ok b st' ∧ patched (img b st) (img b st') (lba * bps b) buf ∧
    devs st' = devs st.
Proof.
  intros [] Hl Hn Hin Hlen. rewrite <- g_ss0 in Hlen.
  destruct (blockdev_write_spec (dev b) lba n buf st) as (drv & drv' & Hd & Hds & Ho & ->); try done; [unfold is_u64; lia|unfold is_u32; lia|].
  eexists. split; [done|].
  pose proof (overwrite_keeps_table st _ drv drv' _ n buf g_table0 Hd Ho) as Hok.
  pose proof (dev_byte_written st (dev b) lba n buf drv drv' g_table0 Hd Hds Ho) as Hw. cbv zeta in Hw.
  split; [by constructor|]. split; [|done]. intros x. unfold img. rewrite Hw, Hlen, g_ss0. rewrite g_ss0 in Hlen.
  rewrite nth_lookup. destruct (decide _) as [Hx|Hx].
  - by rewrite (proj2 (Z.leb_le _ _)), (proj2 (Z.ltb_lt _ _)) by lia.
  - destruct (Z.leb_spec (lba * bps b) x); [|done]. by rewrite (proj2 (Z.ltb_ge _ _)) by lia.
Qed.

Lemma bps_pos b st : geo_ok b st → 512 ≤ bps b ≤ 4096 ∧ FAT32_IO_CHUNK / bps b * bps b = FAT32_IO_CHUNK ∧ 16 ≤ FAT32_IO_CHUNK / bps b.
Proof. intros []. unfold FAT32_IO_CHUNK. destruct g_bps0 as [-> | ->]; vm_compute; intuition congruence. Qed.

(** Same device contents outside [a, a + n). *)
Definition untouched (f g : Z → Z) (a n : Z) : Prop := ∀ x, x < a ∨ a + n ≤ x → g x = f x.

Lemma zero_ok b : ∀ fuel lba n st, geo_ok b st → 0 ≤ lba → 0 ≤ n < Z.of_nat fuel → lba + n ≤ sectors (the_dev (dev b) st) →
  ∃ st', zero_loop fuel b lba n st = Ret (true, st') ∧ geo_ok b st' ∧ devs st' = devs st.
Proof.
  induction fuel as [|fuel IH]; intros lba n st Hg Hl Hn Hin; [lia|]. cbn [zero_loop].
  destruct (Z.ltb_spec 0 n); [|by exists st]. destruct (bps_pos b st Hg) as (Hb & _ & Hper).
  set (k := if _ <? _ then _ else _). assert (1 ≤ k ≤ n) as Hk by (unfold k; case_if; bool_to_prop; lia). clearbody k.
  destruct (write_ok b st lba k (replicate (Z.to_nat (k * bps b)) 0) Hg) as (st1 & -> & Hg1 & _ & Hd); [lia..|rewrite length_replicate; nia|].
  cbn [obind negb]. rewrite u64_small by (destruct Hg; unfold is_u64; lia).
  assert (the_dev (dev b) st1 = the_dev (dev b) st) as Ed by (unfold the_dev; by rewrite Hd).
  destruct (IH (lba + k) (n - k) st1 Hg1) as (st2 & -> & Hg2 & Hd2); [lia|lia|rewrite Ed; lia|]. exists st2. split; [done|]. split; [done|congruence].
Qed.

(** What a file's data leaves: its bytes, and nothing beyond its sectors. *)
Lemma file_ok b : ∀ fuel lba src st, geo_ok b st → 0 ≤ lba → (length src < fuel)%nat →
  (lba + (Z.of_nat (length src) + bps b - 1) / bps b ≤ sectors (the_dev (dev b) st)) →
  ∃ st', file_loop fuel b lba src st = Ret (true, st') ∧ geo_ok b st' ∧ devs st' = devs st ∧
    (∀ i, 0 ≤ i < Z.of_nat (length src) → img b st' (lba * bps b + i) = nth (Z.to_nat i) src 0) ∧
    untouched (img b st) (img b st') (lba * bps b) ((Z.of_nat (length src) + bps b - 1) / bps b * bps b).
Proof.
  induction fuel as [|fuel IH]; intros lba src st Hg Hl Hf Hin; [lia|]. cbn [file_loop].
  destruct (bps_pos b st Hg) as (Hb & Hio & Hper). set (p := bps b) in *. set (per := FAT32_IO_CHUNK / p) in *.
  destruct (Z.ltb_spec 0 (Z.of_nat (length src))) as [Hlen|]; [|exists st; repeat (split; [done|]); split; [intros; lia|done]].
  set (n := if _ <? FAT32_IO_CHUNK then _ else _).
  assert (1 ≤ n ≤ Z.of_nat (length src) ∧ n ≤ FAT32_IO_CHUNK ∧ (n = Z.of_nat (length src) ∨ n = FAT32_IO_CHUNK)) as (Hn & Hn2 & Hn3)
    by (unfold n, FAT32_IO_CHUNK; case_if; bool_to_prop; lia). clearbody n.
  set (k := (n + p - 1) / p). assert (n ≤ k * p < n + p ∧ 1 ≤ k) as [Hk Hk1] by (unfold k; split; [|apply Z.div_le_lower_bound]; Z.div_mod_to_equations; nia).
  set (tot := (Z.of_nat (length src) + p - 1) / p) in *.
  assert (tot = k + (Z.of_nat (length src) - n + p - 1) / p) as Htot.
  { destruct Hn3 as [-> | ->].
    - rewrite Z.sub_diag. replace (0 + p - 1) with (p - 1) by lia. rewrite (Z.div_small (p - 1)) by lia. unfold tot, k. lia.
    - unfold tot, k. rewrite <- Hio. replace (per * p + p - 1) with (per * p + (p - 1)) by lia.
      rewrite Z.div_add_l, (Z.div_small (p - 1)) by lia.
      replace (Z.of_nat (length src) + p - 1) with (per * p + (Z.of_nat (length src) - per * p + p - 1)) by lia.
      rewrite Z.div_add_l by lia. lia. }
  assert (0 ≤ (Z.of_nat (length src) - n + p - 1) / p) by (apply Z.div_pos; lia).
  destruct (write_ok b st lba k (take (Z.to_nat n) src ++ replicate (Z.to_nat (k * p - n)) 0) Hg) as (st1 & -> & Hg1 & Hp & Hd);
    [lia|lia|lia|rewrite length_app, length_take, length_replicate; fold p; lia|]. fold p in Hp.
  cbn [obind negb]. rewrite u64_small by (destruct Hg; unfold is_u64; lia).
  assert (the_dev (dev b) st1 = the_dev (dev b) st) as Ed by (unfold the_dev; by rewrite Hd).
  assert (Z.of_nat (length (drop (Z.to_nat n) src)) = Z.of_nat (length src) - n) as Ldrop by (rewrite length_drop; lia).
  destruct (IH (lba + k) (drop (Z.to_nat n) src) st1 Hg1) as (st2 & -> & Hg2 & Hd2 & Hdata & Hout);
    [lia|lia|rewrite Ed, Ldrop; fold p; lia|]. fold p in Hdata, Hout. rewrite Ldrop in Hdata, Hout.
  exists st2. split; [done|]. split; [done|]. split; [congruence|].
  assert (Z.of_nat (length (take (Z.to_nat n) src ++ replicate (Z.to_nat (k * p - n)) 0)) = k * p) as Lio
    by (rewrite length_app, length_take, length_replicate; lia).
  split.
  - intros i Hi. destruct (decide (i < n)).
    + rewrite Hout by lia. rewrite Hp, Lio, decide_True by lia. rewrite app_nth1 by (rewrite length_take; lia).
      rewrite !nth_lookup, lookup_take_lt by lia. do 2 f_equal. lia.
    + destruct Hn3 as [?|Hn3]; [lia|]. assert (k = per) as -> by (unfold k; rewrite Hn3, <- Hio; replace (per * p + p - 1) with (per * p + (p - 1)) by lia;
        rewrite Z.div_add_l, (Z.div_small (p - 1)) by lia; lia).
      replace (lba * p + i) with ((lba + per) * p + (i - n)) by lia. rewrite Hdata by lia.
      rewrite !nth_lookup, lookup_drop. do 2 f_equal. lia.
  - intros x Hx. rewrite Hout by nia. rewrite Hp, Lio, decide_False by nia. done.
Qed.
(** ** Clusters *)

Lemma div_up a p : 0 < p → a ≤ (a + p - 1) / p * p < a + p.
Proof. intros Hp. pose proof (Z.div_mod (a + p - 1) p ltac:(lia)). pose proof (Z.mod_pos_bound (a + p - 1) p Hp). lia. Qed.

(** What the FAT holds for the [i]th of [n] clusters. *)
Definition link (first n i : Z) : Z := if i + 1 <? n then first + i + 1 else FAT32_EOC.
Definition run (f : list Z) (first n : Z) : Prop := ∀ i, 0 ≤ i < n → f !! Z.to_nat (first + i) = Some (link first n i).

Lemma link_ok first n : 0 ≤ first → first + n < 4294967296 → ∀ m k f, Z.of_nat (k + m) = n → first + n ≤ Z.of_nat (length f) →
  ∃ f', link_clusters (seq k m) first n f = Ret f' ∧ length f' = length f ∧
    (∀ c, (c < Z.to_nat (first + Z.of_nat k))%nat → f' !! c = f !! c) ∧
    (∀ i, Z.of_nat k ≤ i < n → f' !! Z.to_nat (first + i) = Some (link first n i)).
Proof.
  intros H0 H32. induction m as [|m IH]; intros k f Hk Hl; cbn [seq link_clusters].
  - exists f. repeat (split; [done|]). intros. lia.
  - rewrite (u32_small (Z.of_nat k + 1)), (u32_small (first + Z.of_nat k)) by (unfold is_u32; lia).
    rewrite oset_in by lia. cbn [obind]. set (v := if _ <? n then _ else _).
    assert (v = link first n (Z.of_nat k)) as Ev by (unfold v, link; case_if; [apply u32_small; bool_to_prop; unfold is_u32; lia|done]). clearbody v. subst v.
    destruct (IH (S k) (<[Z.to_nat (first + Z.of_nat k):=link first n (Z.of_nat k)]> f)) as (f' & -> & El & Hlt & Hge);
      [lia|rewrite length_insert; lia|]. rewrite length_insert in El. exists f'. split; [done|]. split; [done|]. split.
    + intros c Hc. rewrite Hlt by lia. apply list_lookup_insert_ne. lia.
    + intros i Hi. destruct (decide (i = Z.of_nat k)) as [->|]; [|apply Hge; lia].
      rewrite Hlt by lia. apply list_lookup_insert_eq. lia.
Qed.

Definition pos (b : fat32_builder) (c : Z) : Z := (data_start b + (c - 2) * spc b) * bps b.

(** The FAT is whole and its used part ends at [next_cluster]. *)
Definition fat_ok (b : fat32_builder) : Prop :=
  2 ≤ next_cluster b ≤ cluster_count b + 2 ∧ Z.of_nat (length (fat b)) = cluster_count b + 2.

Lemma alloc_clusters_ok b n : 65525 ≤ cluster_count b ≤ 4194304 → fat_ok b → 0 < n < 16777216 →
  if cluster_count b + 2 <? next_cluster b + n then alloc_clusters n b = Ret (0, set_failed b)
  else ∃ f, alloc_clusters n b = Ret (next_cluster b, set_fat (next_cluster b + n) f b) ∧
    Z.of_nat (length f) = cluster_count b + 2 ∧ run f (next_cluster b) n ∧
    ∀ c, c < next_cluster b → f !! Z.to_nat c = fat b !! Z.to_nat c.
Proof.
  intros Hc [Hn Hl] Hn0. unfold alloc_clusters. rewrite (proj2 (Z.eqb_neq _ _)) by lia.
  rewrite !u32_small by (unfold is_u32; lia). destruct (Z.ltb_spec (cluster_count b + 2) (next_cluster b + n)); [done|].
  destruct (link_ok (next_cluster b) n ltac:(lia) ltac:(lia) (Z.to_nat n) 0 (fat b)) as (f & -> & El & Hlt & Hge); [lia|lia|].
  exists f. cbn [obind]. split; [done|]. split; [lia|]. split.
  - intros i Hi. apply Hge. lia.
  - intros c Hcn. destruct (decide (0 ≤ c)); [apply Hlt; lia|]. replace (Z.to_nat c) with 0%nat by lia. apply Hlt. lia.
Qed.

(** ** Names and entries *)

Definition clus (e : fat_dirent) : Z := 65536 * fst_clus_hi e + fst_clus_lo e.

Record ent_ok (e : fat_dirent) : Prop := {
  en_name : length (d_name e) = 11%nat;
  en_first : nth 0 (d_name e) 0 ≠ 0 ∧ nth 0 (d_name e) 0 ≠ 0xE5;
  en_hi : is_u16 (fst_clus_hi e);
  en_lo : is_u16 (fst_clus_lo e);
  en_size : is_u32 (file_size e)
}.

Lemma dirent_length e : length (d_name e) = 11%nat → length (dirent_bytes e) = 32%nat.
Proof. intros En. unfold dirent_bytes. by rewrite !length_app, !length_lebytes, En. Qed.

Lemma dirent_field n v (a c : list Z) off : Z.of_nat (length a) = off → 0 ≤ v < 256 ^ Z.of_nat n → rd n (a ++ lebytes n v ++ c) off = v.
Proof.
  intros <- Hv. unfold rd. rewrite Nat2Z.id, drop_app_length, take_app_le by (rewrite length_lebytes; lia).
  rewrite take_ge by (rewrite length_lebytes; lia). by apply num_lebytes.
Qed.

Lemma parse_dirent e : ent_ok e → parse_entry (dirent_bytes e) = mk_entry (d_name e) (d_attr e) (clus e) (file_size e).
Proof.
  intros [Hn _ Hh Hl Hs]. unfold is_u16, is_u32 in *.
  set (a := d_name e ++ [d_attr e; ntres e; crt_time_tenth e] ++ lebytes 2 (crt_time e) ++ lebytes 2 (crt_date e) ++ lebytes 2 (lst_acc_date e)).
  set (m := lebytes 2 (wrt_time e) ++ lebytes 2 (wrt_date e)).
  assert (Z.of_nat (length a) = 20) as La by (unfold a; by rewrite !length_app, !length_lebytes, Hn).
  assert (dirent_bytes e = a ++ lebytes 2 (fst_clus_hi e) ++ m ++ lebytes 2 (fst_clus_lo e) ++ lebytes 4 (file_size e)) as E
    by (unfold dirent_bytes, a, m; by rewrite <- !(assoc_L (++))).
  unfold parse_entry. f_equal.
  - unfold dirent_bytes. by apply take_app_length'.
  - unfold dirent_bytes. rewrite app_nth2 by lia. by rewrite Hn.
  - unfold clus. f_equal; [f_equal; rewrite E; by apply dirent_field|]. rewrite E, 2(assoc_L (++)).
    apply dirent_field; [|done]. unfold m. rewrite !length_app, !length_lebytes. lia.
  - rewrite E. replace (a ++ lebytes 2 (fst_clus_hi e) ++ m ++ lebytes 2 (fst_clus_lo e) ++ lebytes 4 (file_size e))
      with ((a ++ lebytes 2 (fst_clus_hi e) ++ m ++ lebytes 2 (fst_clus_lo e)) ++ lebytes 4 (file_size e) ++ []) by (rewrite app_nil_r; by rewrite <- !(assoc_L (++))).
    apply dirent_field; [|done]. unfold m. rewrite !length_app, !length_lebytes. lia.
Qed.

Lemma over_Forall (P : Z → Prop) off b l : Forall P b → Forall P l → Forall P (over off b l).
Proof. intros. unfold over. repeat apply Forall_app_2; auto using Forall_take, Forall_drop. Qed.

(** Names are ASCII. *)
Definition name_ok (n : list Z) : Prop := Forall (λ c, 1 ≤ c ≤ 127) n.

Lemma make_83_ok n : name_ok n → length (make_83 n) = 11%nat ∧ Forall (λ c, 1 ≤ c ≤ 127) (make_83 n).
Proof.
  intros Hn. assert (Forall (λ c, 1 ≤ c ≤ 127) (replicate 11 32)) as Hr by (apply Forall_replicate; lia).
  assert (∀ l, name_ok l → Forall (λ c, 1 ≤ c ≤ 127) (upper <$> l)) as Hup.
  { intros l Hl. apply Forall_fmap. eapply Forall_impl; [exact Hl|]. intros c Hc. cbv beta in *. cbn [compose]. unfold upper. destruct (Z.leb_spec 97 c), (Z.leb_spec c 122); cbn [andb]; lia. }
  assert (∀ k (l : list Z), (length (upper <$> take k l) ≤ k)%nat) as Hlen by (intros; rewrite length_fmap, length_take; lia).
  unfold make_83. destruct (last_dot n) as [i|]; split.
  - assert (∀ l, length (over 0 (upper <$> take 8 l) (replicate 11 32)) = 11%nat) as E.
    { intros l. rewrite length_over by (rewrite length_replicate; pose proof (Hlen 8%nat l); lia). done. }
    rewrite length_over; rewrite E; [done|]. pose proof (Hlen 3%nat (drop (S i) n)). lia.
  - repeat apply over_Forall; auto; apply Hup; unfold name_ok; auto using Forall_take, Forall_drop.
  - rewrite length_over by (rewrite length_replicate; pose proof (Hlen 8%nat n); lia). done.
  - apply over_Forall; auto. apply Hup. by apply Forall_take.
Qed.

Lemma set_cluster_ok c e : 0 ≤ c < 4294967296 → ent_ok e → ent_ok (set_cluster c e) ∧ clus (set_cluster c e) = c.
Proof.
  intros Hc []. split; [constructor; cbn [set_cluster d_name fst_clus_hi fst_clus_lo file_size]; auto using u16_range|].
  unfold clus, set_cluster. cbn [fst_clus_hi fst_clus_lo]. unfold u16. rewrite Z.shiftr_div_pow2 by lia. change (2 ^ 16) with 65536.
  rewrite (Z.mod_small (c / 65536)) by (Z.div_mod_to_equations; lia). pose proof (Z.div_mod c 65536 ltac:(lia)). lia.
Qed.

Lemma new_entry_ok name attr : length name = 11%nat → Forall (λ c, 1 ≤ c ≤ 127) name →
  ent_ok (new_entry name attr) ∧ clus (new_entry name attr) = 0.
Proof.
  intros Hl Hn. split; [|done]. constructor; cbn [new_entry d_name fst_clus_hi fst_clus_lo file_size]; try done.
  destruct name as [|c name]; [done|]. apply Forall_cons in Hn as [? _]. cbn. lia.
Qed.

(** ** The tree *)

Inductive content := IVolume | IDir (h : Z) | IFile (data : list Z).
Record item := mk_item { i_name : list Z; i_attr : Z; i_content : content }.
Record tdir := mk_tdir { t_handle : Z; t_parent : option Z; t_items : list item }.

Definition dot_items (t : tdir) : list item :=
  match t_parent t with
  | None => []
  | Some p => [mk_item (over 0 [46] (replicate 11 32)) 0x10 (IDir (t_handle t));
               mk_item (over 0 [46; 46] (replicate 11 32)) 0x10 (IDir (if p =? 2 then 0 else p))]
  end.
Definition all_items (t : tdir) : list item := dot_items t ++ t_items t.

Definition push (it : item) (t : tdir) : tdir := mk_tdir (t_handle t) (t_parent t) (t_items t ++ [it]).
Definition add_item (h : Z) (it : item) (T : list tdir) : list tdir := (λ t, if t_handle t =? h then push it t else t) <$> T.

Inductive op := Mkdir (parent : Z) (name : list Z) | AddFile (dir : Z) (name data : list Z).

(** The tree after an operation that answered [r]. *)
Definition grow (T : list tdir) (o : op) (r : Z) : list tdir :=
  match o with
  | Mkdir p n => add_item p (mk_item (make_83 n) 0x10 (IDir r)) (T ++ [mk_tdir r (Some p) []])
  | AddFile d n data => add_item d (mk_item (make_83 n) 0x20 (IFile data)) T
  end.

(** ** The invariant of the build *)

(** A file's clusters are linked, hold its bytes and belong to no directory. *)
Definition stored (b : fat32_builder) (I : Z → Z) (first : Z) (data : list Z) : Prop :=
  data = [] ∨
  let n := (Z.of_nat (length data) + cluster_bytes b - 1) / cluster_bytes b in
  2 ≤ first ∧ first + n ≤ next_cluster b ∧ run (fat b) first n ∧
  (∀ i, 0 ≤ i < Z.of_nat (length data) → I (pos b first + i) = nth (Z.to_nat i) data 0) ∧
  Forall (λ d, first_cluster d + clusters d ≤ first ∨ first + n ≤ first_cluster d) (dirs b).

Definition item_ok (b : fat32_builder) (I : Z → Z) (it : item) (e : fat_dirent) : Prop :=
  ent_ok e ∧ d_name e = i_name it ∧ d_attr e = i_attr it ∧
  match i_content it with
  | IVolume => clus e = 0 ∧ file_size e = 0
  | IDir h => clus e = h ∧ file_size e = 0
  | IFile data => stored b I (clus e) data ∧ file_size e = Z.of_nat (length data)
  end.

Record dir_ok (b : fat32_builder) (I : Z → Z) (d : fat_dir) (t : tdir) : Prop := {
  do_handle : first_cluster d = t_handle t;
  do_range : 2 ≤ first_cluster d ∧ 0 < clusters d ∧ first_cluster d + clusters d ≤ next_cluster b;
  do_size : 0 ≤ capacity d ∧ capacity d * 32 = clusters d * cluster_bytes b ∧ clusters d * cluster_bytes b ≤ 32768;
  do_run : run (fat b) (first_cluster d) (clusters d);
  do_entries : ∃ es, entries d = es ++ replicate (Z.to_nat (capacity d) - length es) dirent_zero ∧
    count d = Z.of_nat (length es) ∧ count d ≤ capacity d ∧ Forall2 (item_ok b I) (all_items t) es
}.

(** Directories lie one after the other. *)
Definition ordered (l : list fat_dir) : Prop :=
  ∀ i j d d', (i < j)%nat → l !! i = Some d → l !! j = Some d' → first_cluster d + clusters d ≤ first_cluster d'.

Definition volume_of (b : fat32_builder) : volume := mk_volume (bps b) (spc b) 32 2 (fat_sectors b) 2.

Record inv (b : fat32_builder) (st : storage D) (T : list tdir) : Prop := {
  i_geo : geo_ok b st;
  i_mount : mount (img b st) = volume_of b;
  i_fat : fat_ok b;
  i_going : failed b = false;
  i_dirs : Forall2 (dir_ok b (img b st)) (dirs b) T;
  i_order : ordered (dirs b)
}.

(** What later operations may do: use new clusters only. *)
Record ext (b b' : fat32_builder) (I I' : Z → Z) : Prop := {
  x_geo : bps b' = bps b ∧ spc b' = spc b ∧ cluster_bytes b' = cluster_bytes b ∧ data_start b' = data_start b;
  x_next : next_cluster b ≤ next_cluster b';
  x_fat : ∀ c, c < next_cluster b → fat b' !! Z.to_nat c = fat b !! Z.to_nat c;
  x_img : ∀ x, pos b 2 ≤ x < pos b (next_cluster b) → I' x = I x;
  x_dirs : Forall (λ d', next_cluster b ≤ first_cluster d' ∨
             ∃ d, d ∈ dirs b ∧ first_cluster d' = first_cluster d ∧ clusters d' = clusters d) (dirs b')
}.

Lemma run_ext f f' next first n : (∀ c, c < next → f' !! Z.to_nat c = f !! Z.to_nat c) → first + n ≤ next → run f first n → run f' first n.
Proof. intros Hf Hn Hr i Hi. rewrite Hf by lia. by apply Hr. Qed.

Lemma pos_ext b b' I I' c : ext b b' I I' → pos b' c = pos b c.
Proof. intros [(E1 & E2 & _ & E4) _ _ _ _]. unfold pos. by rewrite E1, E2, E4. Qed.

Lemma stored_ext b b' I I' first data : 1 ≤ spc b → 1 ≤ bps b → cluster_bytes b = spc b * bps b → ext b b' I I' →
  stored b I first data → stored b' I' first data.
Proof.
  intros Hs Hb Hcb Hx [->|Hst]; [by left|right]. pose proof (pos_ext _ _ _ _ first Hx) as Hp. destruct Hx as [(E1 & E2 & E3 & E4) Hn Hf Hi Hd].
  rewrite E3. set (n := _ / _) in *. cbv zeta in Hst |- *. destruct Hst as (H2 & Hle & Hr & Hdata & Hds).
  split; [done|]. split; [lia|]. split; [by eapply run_ext|]. split.
  - intros i Hii. rewrite Hp, Hi; [by apply Hdata|]. unfold pos in *.
    assert (Z.of_nat (length data) ≤ n * cluster_bytes b) by (unfold n; apply div_up; nia).
    assert ((first - 2 + n) * spc b ≤ (next_cluster b - 2) * spc b) by nia. nia.
  - eapply Forall_impl; [exact Hd|]. intros d' [?|(d & Hin & -> & ->)]; [right; lia|].
    rewrite Forall_forall in Hds. by apply Hds.
Qed.

Lemma item_ext b b' I I' it e : 1 ≤ spc b → 1 ≤ bps b → cluster_bytes b = spc b * bps b → ext b b' I I' →
  item_ok b I it e → item_ok b' I' it e.
Proof.
  intros Hs Hb Hcb Hx (He & H1 & H2 & H3). repeat (split; [done|]). destruct (i_content it); try done.
  destruct H3. split; [|done]. by eapply (stored_ext b).
Qed.

Lemma dir_ext b b' I I' d t : 1 ≤ spc b → 1 ≤ bps b → cluster_bytes b = spc b * bps b → ext b b' I I' →
  dir_ok b I d t → dir_ok b' I' d t.
Proof.
  intros Hs Hb Hcb Hx [H1 H2 H3 H4 (es & H5 & H6 & H7 & H8)]. pose proof Hx as [(_ & _ & E3 & _) Hn Hf _ _].
  split; [done|lia|by rewrite E3|eapply run_ext; [exact Hf|lia|done]|]. exists es. repeat (split; [done|]).
  eapply Forall2_impl; [exact H8|]. intros. by eapply (item_ext b).
Qed.
(** ** The operations keep the invariant *)

Lemma geo_unit b st : geo_ok b st → 1 ≤ spc b ∧ 1 ≤ bps b ∧ cluster_bytes b = spc b * bps b.
Proof. intros Hg. destruct (bps_pos b st Hg) as (? & _). destruct Hg. lia. Qed.

(** From [b] to [b']: same geometry and device, more clusters, [dirs'] given. *)
Lemma inv_ext b b' st st' T T' : inv b st T → geo_ok b' st' → volume_of b' = volume_of b → ext b b' (img b st) (img b' st') →
  (∀ x, x < 48 → img b' st' x = img b st x) → fat_ok b' → failed b' = false → ordered (dirs b') →
  Forall2 (dir_ok b' (img b' st')) (dirs b') T' → inv b' st' T'.
Proof.
  intros [Hg Hm Hf Hfl Hd Ho] Hg' Hv Hx Hi Hf' Hfl' Ho' Hd'. constructor; try done.
  rewrite Hv, <- Hm. unfold mount, le_at. f_equal; f_equal; apply seqZ_eq_ext; intros x Hx'; apply Hi; lia.
Qed.

Lemma dirs_ext b b' st st' T : inv b st T → ext b b' (img b st) (img b' st') →
  Forall2 (dir_ok b' (img b' st')) (dirs b) T.
Proof.
  intros [Hg _ _ _ Hd _] Hx. destruct (geo_unit _ _ Hg) as (H1 & H2 & H3).
  eapply Forall2_impl; [exact Hd|]. intros. by eapply (dir_ext b).
Qed.

Lemma dir_below b st T d : inv b st T → d ∈ dirs b → 2 ≤ first_cluster d ∧ 0 < clusters d ∧ first_cluster d + clusters d ≤ next_cluster b.
Proof.
  intros [_ _ _ _ Hd _] Hin. apply list_elem_of_lookup in Hin as [i Hi]. destruct (Forall2_lookup_l _ _ _ _ _ Hd Hi) as (t & _ & Ht). apply Ht.
Qed.

Lemma same_dirs (l : list fat_dir) next : Forall (λ d', next ≤ first_cluster d' ∨ ∃ d, d ∈ l ∧ first_cluster d' = first_cluster d ∧ clusters d' = clusters d) l.
Proof. apply Forall_forall. intros d Hd. right. by exists d. Qed.

(** Taking clusters. *)
Lemma inv_alloc b st T n f : inv b st T → 0 < n → next_cluster b + n ≤ cluster_count b + 2 → Z.of_nat (length f) = cluster_count b + 2 →
  (∀ c, c < next_cluster b → f !! Z.to_nat c = fat b !! Z.to_nat c) →
  let b' := set_fat (next_cluster b + n) f b in ext b b' (img b st) (img b' st) ∧ inv b' st T.
Proof.
  intros Hi Hn Hle Hl Hf b'. assert (ext b b' (img b st) (img b' st)) as Hx by (constructor; try done; [simpl; lia|apply same_dirs]).
  split; [done|]. eapply inv_ext; try done; [destruct Hi as [[] _ _ _ _ _]; by constructor| | |apply Hi|by apply (dirs_ext b b' st st)].
  - destruct (i_fat _ _ _ Hi). split; simpl; [lia|done].
  - apply Hi.
Qed.

Lemma add_item_insert T i t h it : T !! i = Some t → t_handle t = h → (∀ j t', T !! j = Some t' → t_handle t' = h → j = i) →
  add_item h it T = <[i := push it t]> T.
Proof.
  intros Hi Ht Hu. apply list_eq. intros j. unfold add_item. rewrite list_lookup_fmap. destruct (decide (j = i)) as [->|Hne].
  - rewrite Hi, list_lookup_insert_eq by (by eapply lookup_lt_Some). cbn. by rewrite (proj2 (Z.eqb_eq _ _)).
  - rewrite list_lookup_insert_ne by done. destruct (T !! j) as [t'|] eqn:Hj; [|done]. cbn.
    destruct (Z.eqb_spec (t_handle t') h) as [E|]; [|done]. by rewrite (Hu j t') in Hne.
Qed.

Lemma put_dir b I d t it e : dir_ok b I d t → item_ok b I it e → count d < capacity d → dir_ok b I (put_entries [e] d) (push it t).
Proof.
  intros [H1 H2 H3 H4 (es & H5 & H6 & H7 & H8)] He Hc. constructor; try done. exists (es ++ [e]). cbn [put_entries entries count capacity length].
  rewrite H6, H5, Nat2Z.id, take_app_length, drop_app_ge by lia. replace (length es + 1 - length es)%nat with 1%nat by lia.
  rewrite drop_replicate, length_app. cbn [length]. split.
  - rewrite <- (assoc_L (++)). do 2 f_equal. f_equal. lia.
  - split; [lia|]. split; [lia|]. unfold all_items, push. cbn [t_handle t_parent t_items]. rewrite (assoc_L (++)).
    apply Forall2_app; [exact H8|by constructor].
Qed.

Lemma ordered_handle l i j d d' : ordered l → Forall (λ d, 0 < clusters d) l → l !! i = Some d → l !! j = Some d' →
  first_cluster d = first_cluster d' → i = j.
Proof.
  intros Ho Hp Hi Hj E. rewrite Forall_lookup in Hp. pose proof (Hp _ _ Hi). pose proof (Hp _ _ Hj).
  destruct (lt_eq_lt_dec i j) as [[Hlt|?]|Hlt]; [|done|]; [pose proof (Ho _ _ _ _ Hlt Hi Hj)|pose proof (Ho _ _ _ _ Hlt Hj Hi)]; lia.
Qed.

(** A new entry. *)
Lemma inv_entry b st T dir name attr fill it : inv b st T →
  item_ok b (img b st) it (fill (new_entry (make_83 name) attr)) →
  let '(ok, b') := add_entry dir name attr fill b in if ok : bool then inv b' st (add_item dir it T) else failed b' = true.
Proof.
  intros Hi He. unfold add_entry, find_dir. destruct (first_index _ (dirs b)) as [i|] eqn:Ei; [|done].
  destruct (first_index_Some _ _ _ Ei) as (d & Hd & Hh & _). apply Z.eqb_eq in Hh.
  rewrite (nth_lookup_Some _ _ _ _ Hd). destruct (Z.leb_spec (capacity d) (count d)) as [|Hc]; [done|].
  set (b' := set_dirs _ b). pose proof (i_dirs _ _ _ Hi) as Hds.
  destruct (Forall2_lookup_l _ _ _ _ _ Hds Hd) as (t & Ht & Hdt).
  assert (ext b b' (img b st) (img b' st)) as Hx.
  { constructor; try done. apply Forall_insert; [apply same_dirs|]. right. exists d. split; [by eapply list_elem_of_lookup_2|done]. }
  assert (Forall (λ d, 0 < clusters d) (dirs b)) as Hpos.
  { apply Forall_forall. intros x Hin. destruct (dir_below b st T x Hi Hin) as (_ & ? & _). done. }
  eapply inv_ext; try done; try apply Hi; [destruct Hi as [[] _ _ _ _ _]; by constructor| |].
  - intros j k d1 d2 Hjk H1 H2. pose proof (i_order _ _ _ Hi) as Ho.
    assert (∀ m x, dirs b' !! m = Some x → ∃ y, dirs b !! m = Some y ∧ first_cluster x = first_cluster y ∧ clusters x = clusters y) as Hsame.
    { intros m x Hm. simpl in Hm. apply list_lookup_insert_Some in Hm as [(-> & <- & _)|(_ & ?)]; eauto. }
    destruct (Hsame _ _ H1) as (y1 & Hy1 & -> & ->), (Hsame _ _ H2) as (y2 & Hy2 & -> & _). by eapply Ho.
  - rewrite (add_item_insert T i t); [| done|destruct Hdt; congruence|].
    + apply Forall2_insert; [by apply (dirs_ext b b' st st)|]. apply put_dir; [| |done].
      * destruct (geo_unit b st (i_geo _ _ _ Hi)) as (? & ? & ?). by eapply (dir_ext b).
      * destruct (geo_unit b st (i_geo _ _ _ Hi)) as (? & ? & ?). by eapply (item_ext b).
    + intros j t' Hj Hjh. destruct (Forall2_lookup_r _ _ _ _ _ Hds Hj) as (d' & Hd' & Hdt').
      eapply (ordered_handle (dirs b)); [apply Hi|done|done|done|]. destruct Hdt', Hdt. congruence.
Qed.

(** The clusters of a directory. *)
Lemma dir_clusters b st : geo_ok b st → let n := 4096 / cluster_bytes b in let n := if n =? 0 then 1 else n in
  0 < n ≤ 8 ∧ n * cluster_bytes b ≤ 32768 ∧ (∃ cap, n * cluster_bytes b = cap * 32 ∧ 16 ≤ cap).
Proof.
  intros [_ _ _ _ Hb Hs [Hcb Hle] _ _ _ _ _] n n'.
  assert (∃ k, cluster_bytes b = k * 32 ∧ 16 ≤ k) as (k & Hk & Hk1).
  { destruct Hb as [E|E]; rewrite E in Hcb; [exists (spc b * 16)|exists (spc b * 128)]; lia. }
  unfold n', n. destruct (Z.eqb_spec (4096 / cluster_bytes b) 0) as [|Hne].
  - split; [lia|]. split; [lia|]. exists k. lia.
  - assert (0 < 4096 / cluster_bytes b) by (pose proof (Z.div_pos 4096 (cluster_bytes b)); lia).
    pose proof (Z.mul_div_le 4096 (cluster_bytes b) ltac:(lia)).
    split; [split; [done|]; apply Z.div_le_upper_bound; nia|]. split; [lia|]. exists (4096 / cluster_bytes b * k). nia.
Qed.

Definition parent_of (p : Z) : option Z := if p =? NO_PARENT then None else Some p.

Lemma dot_ok b I c p : 0 ≤ c < 4294967296 → 0 ≤ p < 4294967296 →
  Forall2 (item_ok b I) (dot_items (mk_tdir c (Some p) [])) (dot_entries c p).
Proof.
  intros Hc Hp. unfold dot_items, dot_entries. cbn [t_parent t_handle].
  assert (∀ n h, length n = 11%nat → Forall (λ c, 1 ≤ c ≤ 127) n → 0 ≤ h < 4294967296 →
    item_ok b I (mk_item n 0x10 (IDir h)) (set_cluster h (new_entry n 0x10))) as Hok.
  { intros n h Hl Hn Hh. destruct (new_entry_ok n 0x10 Hl Hn) as [He _]. destruct (set_cluster_ok h _ Hh He) as [He' Hcl].
    split; [done|]. split; [done|]. split; [done|]. by split. }
  assert (∀ l, name_ok l → Forall (λ c, 1 ≤ c ≤ 127) (over 0 l (replicate 11 32))) as Hn.
  { intros l Hl. apply over_Forall; [done|]. apply Forall_replicate. lia. }
  apply Forall2_cons; split; [|apply Forall2_cons; split; [|constructor]]; apply Hok; try done; try (apply Hn; repeat constructor; lia).
  destruct (p =? 2); lia.
Qed.

Lemma new_dir_ok can b st T p : inv b st T → (∀ n, 0 ≤ n ≤ 16777224 → can n = true) → 0 ≤ p < 4294967296 →
  ∃ c b', new_dir can p b = Ret (c, b') ∧
    (c ≠ 0 → c = next_cluster b ∧ inv b' st (T ++ [mk_tdir c (parent_of p) []])) ∧
    ((length (dirs b) < 32)%nat → next_cluster b + 8 ≤ cluster_count b + 2 → c ≠ 0).
Proof.
  intros Hi Hcan Hp. unfold new_dir. destruct (Z.leb_spec FAT32_MAX_DIRS (Z.of_nat (length (dirs b)))) as [Hd32|].
  { exists 0, b. split; [done|]. unfold FAT32_MAX_DIRS in Hd32. split; lia. }
  pose proof (i_geo _ _ _ Hi) as Hg. pose proof (i_fat _ _ _ Hi) as Hf.
  destruct (dir_clusters b st Hg) as (Hn & Hcb & cap & Hcap & Hcap0). set (n := if _ =? 0 then _ else _) in *.
  pose proof (alloc_clusters_ok b n (g_count _ _ Hg) Hf ltac:(lia)) as Ha. destruct (Z.ltb_spec (cluster_count b + 2) (next_cluster b + n)).
  { rewrite Ha. cbn [obind]. rewrite Z.eqb_refl. exists 0, (set_failed b). split; [done|]. split; lia. }
  destruct Ha as (f & -> & Hl & Hr & Hlt). cbn [obind]. pose proof (g_count _ _ Hg) as Hcc. destruct Hf as [Hnx _].
  rewrite (proj2 (Z.eqb_neq _ 0)) by lia. set (b1 := set_fat _ f b). change (cluster_bytes b1) with (cluster_bytes b).
  rewrite u32_small by (unfold is_u32; lia). unfold sizeof_dirent. rewrite Hcap, Z.div_mul by lia. rewrite Hcan by lia. cbn [negb].
  set (d0 := mk_dir _ _ _ 0 _). set (d := if negb _ then put_entries _ d0 else d0).
  exists (next_cluster b), (set_dirs (dirs b1 ++ [d]) b1). split; [done|]. split; [intros _; split; [done|]|lia].
  destruct (inv_alloc b st T n f Hi ltac:(lia) ltac:(lia) Hl Hlt) as [Hx1 Hi1]. fold b1 in Hx1, Hi1.
  assert (first_cluster d = next_cluster b ∧ clusters d = n) as [Ed1 Ed2] by (unfold d; case_if; done).
  set (b2 := set_dirs _ b1). assert (ext b b2 (img b st) (img b2 st)) as Hx.
  { destruct Hx1 as [? ? ? ? ?]. constructor; try done. apply Forall_app. split; [apply same_dirs|]. apply Forall_singleton. left. lia. }
  eapply (inv_ext b b2 st st T); try done; try apply Hi1; [destruct Hg; by constructor| |].
  - intros i j x y Hij Hx' Hy. change (dirs b2) with (dirs b ++ [d]) in *.
    apply lookup_app_Some in Hy as [Hy|[Hge Hy]].
    + rewrite lookup_app_l in Hx' by (apply lookup_lt_Some in Hy; lia). by eapply (i_order _ _ _ Hi).
    + destruct (j - length (dirs b))%nat eqn:Ej; [|by rewrite lookup_nil in Hy || by destruct n0]. injection Hy as <-.
      rewrite lookup_app_l in Hx' by lia. apply list_elem_of_lookup_2 in Hx'. apply (dir_below b st T x Hi) in Hx'. lia.
  - change (dirs b2) with (dirs b ++ [d]). apply Forall2_app; [by apply (dirs_ext b b2 st st)|]. apply Forall2_cons. split; [|constructor].
    assert (run (fat b2) (first_cluster d) (clusters d)) as Hr2 by (by rewrite Ed1, Ed2).
    assert (cluster_bytes b2 = cluster_bytes b) as Ecb by done. unfold d, parent_of in *. unfold d0 in *. destruct (p =? NO_PARENT); cbn [negb] in *.
    + constructor; rewrite ?Ecb; cbn [first_cluster clusters capacity t_handle]; try done; [simpl; lia|lia|].
      exists []. cbn [entries count capacity app length]. rewrite Nat.sub_0_r. repeat (split; [done || lia|]). constructor.
    + constructor; rewrite ?Ecb; cbn [first_cluster clusters capacity t_handle put_entries]; try done; [simpl; lia|lia|].
      exists (dot_entries (next_cluster b) p). cbn [entries count capacity app length put_entries]. rewrite drop_replicate.
      split; [done|]. split; [done|]. split; [cbn; lia|]. unfold all_items. rewrite app_nil_r. apply dot_ok; lia.
Qed.

Definition op_ok (o : op) : Prop :=
  match o with
  | Mkdir p n => 0 ≤ p < NO_PARENT ∧ name_ok n
  | AddFile _ n data => name_ok n ∧ Z.of_nat (length data) ≤ 4294934528
  end.

Definition exec (can : Z → bool) (o : op) (b : fat32_builder) (st : storage D) : outcome (Z * fat32_builder * storage D) :=
  match o with
  | Mkdir p n => let* (c, b) := fat32_mkdir can p n b in Ret (c, b, st)
  | AddFile d n data => let* (ok, b, st) := fat32_add_file d n data b st in Ret (if ok : bool then 1 else 0, b, st)
  end.

(** An operation fails for good or makes the tree grow. *)
Definition stepped (o : op) (T : list tdir) (r : Z) (b' : fat32_builder) (st' : storage D) : Prop :=
  (r = 0 ∧ failed b' = true) ∨ (r ≠ 0 ∧ inv b' st' (grow T o r)).

Lemma fat_mkdir_ok can b st T p n : inv b st T → (∀ n, 0 ≤ n ≤ 16777224 → can n = true) → op_ok (Mkdir p n) →
  ∃ r b', exec can (Mkdir p n) b st = Ret (r, b', st) ∧ stepped (Mkdir p n) T r b' st.
Proof.
  intros Hi Hcan [Hp Hn]. unfold NO_PARENT in Hp. cbn [exec]. unfold fat32_mkdir. rewrite (i_going _ _ _ Hi).
  destruct (new_dir_ok can b st T p Hi Hcan ltac:(lia)) as (c & b1 & -> & Hc & _). cbn [obind].
  destruct (Z.eqb_spec c 0) as [|Hc0]; [exists 0, (set_failed b1); split; [done|by left]|].
  destruct (Hc Hc0) as [-> Hi1]. unfold parent_of, NO_PARENT in Hi1. rewrite (proj2 (Z.eqb_neq p _)) in Hi1 by lia.
  pose proof (i_fat _ _ _ Hi) as [Hf _]. pose proof (g_count _ _ (i_geo _ _ _ Hi)). destruct (make_83_ok n Hn) as [Hl Hn'].
  pose proof (inv_entry b1 st _ p n 0x10 (set_cluster (next_cluster b)) (mk_item (make_83 n) 0x10 (IDir (next_cluster b))) Hi1) as He.
  destruct (add_entry p n 16 (set_cluster (next_cluster b)) b1) as [ok b2]. cbn [obind].
  assert (if ok then inv b2 st (grow T (Mkdir p n) (next_cluster b)) else failed b2 = true) as Hb2.
  { apply He. destruct (new_entry_ok (make_83 n) 0x10 Hl Hn') as [Hw _].
    destruct (set_cluster_ok (next_cluster b) _ ltac:(lia) Hw) as [Hw' Hcl]. split; [done|]. split; [done|]. split; [done|]. by split. }
  eexists _, b2. split; [done|]. destruct ok; [right; split; [lia|done]|by left].
Qed.

Lemma add_file_ok can b st T dir n data : inv b st T → op_ok (AddFile dir n data) →
  ∃ r b' st', exec can (AddFile dir n data) b st = Ret (r, b', st') ∧ stepped (AddFile dir n data) T r b' st'.
Proof.
  intros Hi [Hn Hd]. cbn [exec]. unfold fat32_add_file. rewrite (i_going _ _ _ Hi).
  pose proof (i_geo _ _ _ Hi) as Hg. pose proof (i_fat _ _ _ Hi) as Hf. destruct (geo_unit b st Hg) as (Hs1 & Hb1 & Hcb).
  pose proof (g_cb _ _ Hg) as [_ Hcb2]. pose proof (g_count _ _ Hg) as Hcc. destruct (bps_pos b st Hg) as (Hbp & _ & _).
  set (len := Z.of_nat (length data)) in *. unfold clusters_for. rewrite u32_small by (unfold is_u32; lia).
  set (k := (len + cluster_bytes b - 1) / cluster_bytes b). pose proof (div_up len (cluster_bytes b) ltac:(nia)) as Hk. fold k in Hk.
  assert (0 ≤ k) by (apply Z.div_pos; nia). destruct (make_83_ok n Hn) as [Hl Hn']. destruct (new_entry_ok (make_83 n) 0x20 Hl Hn') as [Hw _].
  (* the last step, once the data are in place *)
  assert (∀ first b1 st1, inv b1 st1 T → 0 ≤ first < 4294967296 → stored b1 (img b1 st1) first data →
    let '(ok, b2) := add_entry dir n 0x20 (λ e, set_size len (set_cluster first e)) b1 in
    stepped (AddFile dir n data) T (if ok then 1 else 0) b2 st1) as Hlast.
  { intros first b1 st1 Hi1 Hfirst Hst.
    pose proof (inv_entry b1 st1 T dir n 0x20 (λ e, set_size len (set_cluster first e)) (mk_item (make_83 n) 0x20 (IFile data)) Hi1) as He.
    destruct (add_entry _ _ _ _ b1) as [ok b2]. assert (if ok then inv b2 st1 (grow T (AddFile dir n data) 1) else failed b2 = true) as Hb2.
    { apply He. destruct (set_cluster_ok first _ Hfirst Hw) as [[] Hcl]. split.
      - constructor; try done. cbn [set_size file_size]. unfold is_u32. lia.
      - split; [done|]. split; [done|]. cbn [i_content]. change (clus (set_size len ?e)) with (clus e). by rewrite Hcl. }
    destruct ok; [right; split; [lia|done]|by left]. }
  destruct (decide (k = 0)) as [Ek|Ek].
  - assert (data = []) as -> by (destruct data; [done|cbn [length] in len; lia]). rewrite Ek. cbn [alloc_clusters obind Z.eqb negb andb length file_loop].
    change (Z.of_nat (length [])) with 0. cbn [Z.ltb Z.compare obind negb].
    specialize (Hlast 0 b st Hi ltac:(lia) ltac:(by left)). destruct (add_entry _ _ _ _ b) as [ok b2]. cbn [obind]. eauto.
  - assert (k < 16777216). { unfold k. apply Z.div_lt_upper_bound; nia. }
    pose proof (alloc_clusters_ok b k Hcc Hf ltac:(lia)) as Ha. destruct (Z.ltb_spec (cluster_count b + 2) (next_cluster b + k)).
    { rewrite Ha. cbn [obind]. rewrite (proj2 (Z.eqb_neq k 0)), Z.eqb_refl by done. cbn [negb andb obind]. eexists 0, _, st. split; [done|by left]. }
    destruct Ha as (f & -> & Hfl & Hr & Hlt). destruct Hf as [Hnx _]. cbn [obind]. rewrite (proj2 (Z.eqb_neq (next_cluster b) 0)) by lia.
    rewrite andb_false_r. destruct (inv_alloc b st T k f Hi ltac:(lia) ltac:(lia) Hfl Hlt) as [Hx1 Hi1]. set (b1 := set_fat _ f b) in *.
    set (first := next_cluster b) in *. pose proof (i_geo _ _ _ Hi1) as Hg1.
    assert (0 ≤ (first - 2) * spc b ∧ (first - 2) * spc b + k * spc b ≤ cluster_count b * spc b) as [Hm1 Hm2] by nia.
    assert (cluster_lba b1 first = data_start b + (first - 2) * spc b) as Elba.
    { pose proof (g_end _ _ Hg). pose proof (g_sectors _ _ Hg). pose proof (g_start _ _ Hg). pose proof (g_fat _ _ Hg).
      assert (0 ≤ k * spc b) by nia. unfold cluster_lba. change (data_start b1) with (data_start b).
      change (spc b1) with (spc b). rewrite (u32_small (first - 2)) by (unfold is_u32; lia). rewrite (u64_small (_ * _)), u64_small by (unfold is_u64; lia). done. }
    rewrite Elba. assert ((len + bps b - 1) / bps b ≤ k * spc b) as Hsec.
    { apply Z.lt_succ_r, Z.div_lt_upper_bound; [lia|]. rewrite Hcb in Hk. nia. }
    pose proof (g_start _ _ Hg) as Hst0. pose proof (g_fat _ _ Hg) as [Hfat0 _]. pose proof (g_end _ _ Hg) as Hend.
    destruct (file_ok b1 (S (length data)) (data_start b + (first - 2) * spc b) data st Hg1) as (st1 & -> & Hg2 & Hdv & Hdata & Hout);
      [lia|lia|change (bps b1) with (bps b); change (dev b1) with (dev b); fold len; lia|]. change (bps b1) with (bps b) in *. fold len in Hdata, Hout. cbn [obind negb].
    assert (ext b b1 (img b st) (img b1 st1)) as Hxx.
    { destruct Hx1 as [? ? ? _ ?]. constructor; try done. intros x Hx. apply Hout. left. unfold pos in Hx. fold first in Hx. lia. }
    assert (inv b1 st1 T) as Hi2.
    { eapply (inv_ext b b1 st st1 T); try done; try apply Hi1; [|by apply (dirs_ext b b1 st st1)]. intros x Hx. apply Hout. left. assert (32 ≤ data_start b + (first - 2) * spc b) by lia. nia. }
    assert (stored b1 (img b1 st1) first data) as Hst.
    { right. change (cluster_bytes b1) with (cluster_bytes b). fold len k. split; [lia|]. split; [simpl; lia|]. split; [done|]. split.
      - intros i Hii. by apply Hdata.
      - apply Forall_forall. intros d Hd'. left. apply (dir_below b st T d Hi Hd'). }
    specialize (Hlast first b1 st1 Hi2 ltac:(lia) Hst). destruct (add_entry _ _ _ _ b1) as [ok b2]. cbn [obind]. eauto.
Qed.

(** ** Finishing *)

Lemma cluster_lba_ok b st c : geo_ok b st → 2 ≤ c ≤ cluster_count b + 2 →
  cluster_lba b c = data_start b + (c - 2) * spc b ∧ 0 ≤ (c - 2) * spc b ≤ cluster_count b * spc b.
Proof.
  intros Hg Hc. pose proof (g_end _ _ Hg). pose proof (g_sectors _ _ Hg). pose proof (g_start _ _ Hg). pose proof (g_fat _ _ Hg).
  pose proof (g_spc _ _ Hg). pose proof (g_count _ _ Hg). assert (0 ≤ (c - 2) * spc b ≤ cluster_count b * spc b) as Hm by nia. split; [|done].
  unfold cluster_lba. rewrite (u32_small (c - 2)) by (unfold is_u32; lia). rewrite (u64_small (_ * _)), u64_small by (unfold is_u64; lia). done.
Qed.

Definition dir_bytes (d : fat_dir) : list Z := concat (dirent_bytes <$> entries d).

Definition placed (b : fat32_builder) (d : fat_dir) : Prop :=
  2 ≤ first_cluster d ∧ 0 < clusters d ∧ first_cluster d + clusters d ≤ cluster_count b + 2 ∧ clusters d * cluster_bytes b ≤ 32768 ∧
  Z.of_nat (length (dir_bytes d)) = clusters d * cluster_bytes b.

Lemma dirs_loop_ok b l : ∀ st, geo_ok b st → Forall (placed b) l → ordered l →
  ∃ st', dirs_loop l b st = Ret (true, st') ∧ geo_ok b st' ∧
    Forall (λ d, ∀ i, 0 ≤ i < clusters d * cluster_bytes b → img b st' (pos b (first_cluster d) + i) = nth (Z.to_nat i) (dir_bytes d) 0) l ∧
    ∀ x, Forall (λ d, x < pos b (first_cluster d) ∨ pos b (first_cluster d + clusters d) ≤ x) l → img b st' x = img b st x.
Proof.
  induction l as [|d l IH]; intros st Hg Hl Ho; cbn [dirs_loop]; [by exists st|].
  apply Forall_cons in Hl as [(H2 & H0 & Hle & Hsz & Hlen) Hl]. destruct (cluster_lba_ok b st (first_cluster d) Hg ltac:(lia)) as [El Hm].
  destruct (geo_unit b st Hg) as (Hs1 & Hb1 & Hcb). pose proof (g_start _ _ Hg). pose proof (g_fat _ _ Hg). pose proof (g_end _ _ Hg).
  assert ((first_cluster d - 2) * spc b + clusters d * spc b ≤ cluster_count b * spc b) by nia.
  assert (0 < clusters d * spc b ≤ 32768) by nia. rewrite u32_small by (unfold is_u32; lia). rewrite El.
  assert (clusters d * cluster_bytes b = clusters d * spc b * bps b) as Ecb by (rewrite Hcb; lia).
  destruct (write_ok b st (data_start b + (first_cluster d - 2) * spc b) (clusters d * spc b) (dir_bytes d) Hg) as (st1 & E & Hg1 & Hp & _);
    [lia|lia|lia|lia|]. unfold dir_bytes in E. rewrite E. cbn [obind negb]. fold (pos b (first_cluster d)) in Hp. unfold patched in Hp. rewrite Hlen in Hp.
  assert (ordered l) as Ho1 by (intros i j x y Hij Hx Hy; apply (Ho (S i) (S j)); [lia|done|done]).
  destruct (IH st1 Hg1 Hl Ho1) as (st2 & -> & Hg2 & Hin & Hout). exists st2. split; [done|]. split; [done|]. split.
  - apply Forall_cons. split; [|done]. intros i Hi. rewrite Hout.
    + rewrite Hp, decide_True by lia. do 2 f_equal. lia.
    + apply Forall_forall. intros d' Hd'. left. apply list_elem_of_lookup in Hd' as [j Hj].
      pose proof (Ho 0%nat (S j) d d' ltac:(lia) eq_refl Hj) as Hlt. unfold pos in *. rewrite Ecb in Hi.
      assert ((first_cluster d - 2) * spc b + clusters d * spc b ≤ (first_cluster d' - 2) * spc b) by nia. nia.
  - intros x Hx. apply Forall_cons in Hx as [Hxd Hx]. rewrite Hout by done. rewrite Hp, decide_False; [done|].
    unfold pos in *. rewrite Ecb. replace ((first_cluster d + clusters d - 2) * spc b) with ((first_cluster d - 2) * spc b + clusters d * spc b) in Hxd by lia. lia.
Qed.

Lemma nth_padded (l : list Z) m k i : (i < m)%nat → nth i (take m l ++ replicate k 0) 0 = nth i l 0.
Proof.
  intros Hi. destruct (decide (i < length l)%nat).
  - rewrite app_nth1 by (rewrite length_take; lia). by rewrite !nth_lookup, lookup_take_lt.
  - rewrite app_nth2 by (rewrite length_take; lia). rewrite (nth_overflow l) by lia. rewrite nth_lookup. destruct (replicate k 0 !! _) eqn:E; [by apply lookup_replicate in E as [-> _]|done].
Qed.

(** One copy of the FAT. *)
Lemma fat_loop_ok b base : ∀ fuel s st, geo_ok b st → 32 ≤ base → base + fat_sectors b ≤ sectors (the_dev (dev b) st) →
  0 ≤ s → (0 < fuel)%nat → fat_sectors b - s < Z.of_nat fuel →
  ∃ st', fat_loop fuel b base s st = Ret (true, st') ∧ geo_ok b st' ∧ devs st' = devs st ∧
    ∀ x, img b st' x = if decide ((base + s) * bps b ≤ x < (base + fat_sectors b) * bps b) then nth (Z.to_nat (x - base * bps b)) (fat_bytes b) 0
                       else img b st x.
Proof.
  induction fuel as [|fuel IH]; intros s st Hg Hb Hin Hs H0f Hf; cbn [fat_loop].
  - lia.
  - destruct (bps_pos b st Hg) as (Hbp & Hio & Hper). set (p := bps b) in *. pose proof (g_sectors _ _ Hg). pose proof (g_fat _ _ Hg) as [Hf0 _].
    destruct (Z.ltb_spec s (fat_sectors b)) as [Hlt|].
    2:{ exists st. repeat (split; [done|]). intros x. rewrite decide_False; [done|]. nia. }
    set (n := if _ <? _ then _ else _). assert (1 ≤ n ∧ s + n ≤ fat_sectors b ∧ (n = fat_sectors b - s ∨ n = FAT32_IO_CHUNK / p) ∧ n ≤ FAT32_IO_CHUNK / p) as (Hn & Hn2 & Hn3 & Hn5)
      by (unfold n; case_if; bool_to_prop; lia). clearbody n.
    rewrite u64_small by (unfold is_u64; lia). set (part := take _ _). set (io := part ++ _).
    assert (length part ≤ Z.to_nat (n * p))%nat by (unfold part; rewrite length_take; lia).
    assert (Z.of_nat (length io) = n * p) as Lio by (unfold io; rewrite length_app, length_replicate; nia).
    destruct (write_ok b st (base + s) n io Hg) as (st1 & -> & Hg1 & Hp & Hd); [lia|lia|lia|done|]. cbn [obind negb].
    assert (the_dev (dev b) st1 = the_dev (dev b) st) as Ed by (unfold the_dev; by rewrite Hd). fold p in Hp. unfold patched in Hp. rewrite Lio in Hp.
    assert (∀ x, (base + s) * p ≤ x < (base + s) * p + n * p → img b st1 x = nth (Z.to_nat (x - base * p)) (fat_bytes b) 0) as Hpart.
    { intros x Hx. rewrite Hp, decide_True by lia. unfold io, part. rewrite nth_padded by lia. rewrite !nth_lookup, lookup_drop. do 2 f_equal. nia. }
    pose proof (g_start _ _ Hg). pose proof (g_end _ _ Hg). pose proof (g_count _ _ Hg). pose proof (g_spc _ _ Hg).
    assert (0 ≤ cluster_count b * spc b) by nia. set (per := FAT32_IO_CHUNK / p) in *. assert (per ≤ 128) by (unfold FAT32_IO_CHUNK in Hio; nia).
    rewrite (u32_small (s + per)) by (unfold is_u32; lia).
    destruct (IH (s + per) st1 Hg1 Hb) as (st2 & -> & Hg2 & Hd2 & Himg2); [by rewrite Ed|lia|lia|lia|]. fold p in Himg2.
    exists st2. split; [done|]. split; [done|]. split; [congruence|]. intros x. rewrite Himg2.
    assert ((base + s) * p + n * p = (base + (s + n)) * p) as En by lia.
    assert (n = per ∨ (s + n = fat_sectors b ∧ fat_sectors b ≤ s + per)) as Hn4 by (unfold per in *; lia).
    assert (0 ≤ per * p ∧ 0 ≤ n * p) as [Hpp Hnp] by nia.
    destruct (decide ((base + (s + per)) * p ≤ x < (base + fat_sectors b) * p)) as [Hx|Hx].
    + rewrite decide_True by lia. done.
    + destruct (decide ((base + s) * p ≤ x < (base + fat_sectors b) * p)) as [Hy|Hy].
      * apply Hpart. rewrite En. destruct Hn4 as [-> |[E ?]]; [lia|rewrite E; lia].
      * rewrite Hp, decide_False; [done|]. rewrite En. assert ((base + (s + n)) * p ≤ (base + fat_sectors b) * p) by (apply Z.mul_le_mono_nonneg_r; lia). lia.
Qed.

(** ** Reading back *)

(** Copy [k] of the FAT is on the disk. *)
Definition fat_there (b : fat32_builder) (I : Z → Z) (k : Z) : Prop :=
  ∀ x, 0 ≤ x < fat_sectors b * bps b → I ((32 + k * fat_sectors b) * bps b + x) = nth (Z.to_nat x) (fat_bytes b) 0.

Lemma fat_get_ok b I k c v : fat_there b I k → 0 ≤ c → 4 * c + 4 ≤ fat_sectors b * bps b → fat b !! Z.to_nat c = Some v → 0 ≤ v < 268435456 →
  fat_get I (volume_of b) k c = v.
Proof.
  intros Hf Hc Hin Hv Hr. unfold fat_get. cbn [volume_of v_res v_fatsz v_bps]. rewrite (le_at_bytes _ _ _ v).
  - change 0x0FFFFFFF with (2 ^ 28 - 1). rewrite land_ones_mod by lia. by apply Z.mod_small.
  - cbn. lia.
  - intros i Hi. rewrite <- Z.add_assoc. rewrite Hf by lia. pose proof (piece_at (lebytes 4) 4 (length_lebytes 4) (fat b) _ v Hv) as Hp.
    rewrite <- Hp, !nth_lookup, lookup_take_lt, lookup_drop by lia. unfold fat_bytes. do 2 f_equal. lia.
Qed.

Lemma chain_ok b I k first n : fat_there b I k → (cluster_count b + 2) * 4 ≤ fat_sectors b * bps b → cluster_count b ≤ 4194304 →
  2 ≤ first → first + n ≤ cluster_count b + 2 → run (fat b) first n →
  ∀ fuel i, 0 ≤ i < n → n - i ≤ Z.of_nat fuel → chain fuel I (volume_of b) k (first + i) = Some (seqZ (first + i) (n - i)).
Proof.
  intros Hf Hsz Hcc H2 Hle Hr. induction fuel as [|fuel IH]; intros i Hi Hfu; [lia|]. cbn [chain].
  rewrite (fat_get_ok b I k (first + i) (link first n i) Hf) by (lia || (by apply Hr) || (unfold link, FAT32_EOC; case_if; bool_to_prop; lia)).
  rewrite (proj2 (Z.ltb_ge _ _)) by lia. unfold link. destruct (Z.ltb_spec (i + 1) n).
  - rewrite (proj2 (Z.leb_gt _ _)) by lia. rewrite <- Z.add_assoc, IH by lia. cbn. rewrite (seqZ_cons (first + i)) by lia.
    do 3 f_equal; lia.
  - replace (n - i) with 1 by lia. done.
Qed.

Lemma clusters_area b I : 1 ≤ spc b → 1 ≤ bps b → cluster_bytes b = spc b * bps b → data_start b = 32 + 2 * fat_sectors b →
  ∀ n first, concat (cluster_at I (volume_of b) <$> seqZ first (Z.of_nat n)) = I <$> seqZ (pos b first) (Z.of_nat n * cluster_bytes b).
Proof.
  intros Hs Hb Hcb Hds. induction n as [|n IH]; intros first; [done|]. rewrite seqZ_cons by lia. cbn [fmap list_fmap concat].
  replace (Z.pred (Z.of_nat (S n))) with (Z.of_nat n) by lia. rewrite (IH (Z.succ first)).
  replace (Z.of_nat (S n) * cluster_bytes b) with (cluster_bytes b + Z.of_nat n * cluster_bytes b) by lia. rewrite seqZ_app by nia. rewrite fmap_app. f_equal.
  - unfold cluster_at, pos. cbn [volume_of v_res v_nfats v_fatsz v_spc v_bps]. rewrite Hds, Hcb. done.
  - do 2 f_equal. unfold pos. rewrite Hcb. lia.
Qed.

(** Everything needed to read the finished volume. *)
Record finished (b : fat32_builder) (st : storage D) (I : Z → Z) : Prop := {
  fi_geo : geo_ok b st;
  fi_fats : fat_there b I 0 ∧ fat_there b I 1;
}.

Lemma read_run b st I k first n : finished b st I → k = 0 ∨ k = 1 → 2 ≤ first → first + n ≤ cluster_count b + 2 → 0 < n → run (fat b) first n →
  read_chain I (volume_of b) k first = Some (I <$> seqZ (pos b first) (n * cluster_bytes b)).
Proof.
  intros [Hg [Hf0 Hf1]] Hk H2 Hle Hn Hr. assert (fat_there b I k) as Hf by (by destruct Hk as [-> | ->]).
  pose proof (g_fat _ _ Hg) as [Hp Hsz]. pose proof (g_count _ _ Hg) as Hcc. destruct (geo_unit b st Hg) as (Hs1 & Hb1 & Hcb).
  unfold read_chain. cbn [volume_of v_fatsz v_bps]. fold (volume_of b).
  pose proof (chain_ok b I k first n Hf ltac:(lia) ltac:(lia) H2 Hle Hr (Z.to_nat (fat_sectors b * bps b)) 0 ltac:(lia) ltac:(lia)) as Hc.
  rewrite Z.add_0_r, Z.sub_0_r in Hc. rewrite Hc. cbn. f_equal.
  rewrite <- (Z2Nat.id n) by lia. apply clusters_area; try done. apply Hg.
Qed.

(** What a reader must see of an item. *)
Definition shows (I : Z → Z) (v : volume) (k : Z) (it : item) (en : entry) : Prop :=
  e_name en = i_name it ∧ e_attr en = i_attr it ∧
  match i_content it with
  | IVolume => True
  | IDir h => e_cluster en = h
  | IFile data => e_size en = Z.of_nat (length data) ∧ read_file I v k en = Some data
  end.

(** Every directory of the tree reads as its items, and files as their bytes. *)
Definition reads (I : Z → Z) (v : volume) (k : Z) (T : list tdir) : Prop :=
  Forall (λ t, ∃ es, read_dir I v k (t_handle t) = Some es ∧ Forall2 (shows I v k) (all_items t) es) T.

Definition view (e : fat_dirent) : entry := mk_entry (d_name e) (d_attr e) (clus e) (file_size e).

Lemma parse_dir_ok es m : Forall ent_ok es → ∀ fuel, (length es ≤ fuel)%nat →
  parse_dir fuel (concat (dirent_bytes <$> es ++ replicate m dirent_zero)) = view <$> es.
Proof.
  intros He. induction He as [|e es He Hes IH]; intros fuel Hf; cbn [app].
  - destruct fuel as [|fuel]; [done|]. cbn [parse_dir]. by destruct m.
  - cbn [length] in Hf. destruct fuel as [|fuel]; [lia|]. rewrite !fmap_cons. cbn [concat parse_dir].
    destruct He as [Hn [Hz H5] ? ? ?]. pose proof (dirent_length e Hn) as Hlen.
    assert (∀ r, nth 0 (dirent_bytes e ++ r) 0 = nth 0 (d_name e) 0) as Hh.
    { intros r. rewrite app_nth1 by lia. unfold dirent_bytes. by rewrite app_nth1 by lia. }
    rewrite !Hh, (proj2 (Z.eqb_neq _ _) Hz), (proj2 (Z.eqb_neq _ _) H5).
    rewrite take_app_length', drop_app_length' by done. rewrite parse_dirent by done. f_equal. apply IH. lia.
Qed.

Lemma entries_named b I d t : dir_ok b I d t → Forall (λ e, length (d_name e) = 11%nat) (entries d) ∧ length (entries d) = Z.to_nat (capacity d).
Proof.
  intros [_ _ _ _ (es & -> & Hc & Hle & Hes)]. split; [|rewrite length_app, length_replicate; lia].
  apply Forall_app. split; [|by apply Forall_replicate]. clear -Hes. induction Hes as [|it e l es He _ IH]; constructor; [apply He|done].
Qed.

Lemma dir_placed b st T d : inv b st T → d ∈ dirs b → placed b d.
Proof.
  intros Hi Hin. apply list_elem_of_lookup in Hin as [i Hd]. destruct (Forall2_lookup_l _ _ _ _ _ (i_dirs _ _ _ Hi) Hd) as (t & _ & Ht).
  destruct (entries_named _ _ _ _ Ht) as [Hn Hl]. pose proof (i_fat _ _ _ Hi) as [Hf _]. destruct Ht as [_ ? [? [? ?]] _ _].
  unfold placed. repeat (split; [lia|]). unfold dir_bytes.
  assert (∀ l : list fat_dirent, Forall (λ e, length (d_name e) = 11%nat) l → length (concat (dirent_bytes <$> l)) = (length l * 32)%nat) as Hlen.
  { intros l Hl'. induction Hl' as [|e l He _ IH]; [done|]. rewrite fmap_cons. cbn [concat length]. rewrite length_app, dirent_length, IH by done. lia. }
  rewrite Hlen by done. lia.
Qed.

(** The directories and files of the finished volume. *)
Lemma reads_ok b st T I st' k : inv b st T → finished b st' I → k = 0 ∨ k = 1 →
  Forall (λ d, ∀ i, 0 ≤ i < clusters d * cluster_bytes b → I (pos b (first_cluster d) + i) = nth (Z.to_nat i) (dir_bytes d) 0) (dirs b) →
  (∀ x, pos b 2 ≤ x → Forall (λ d, x < pos b (first_cluster d) ∨ pos b (first_cluster d + clusters d) ≤ x) (dirs b) → I x = img b st x) →
  reads I (volume_of b) k T.
Proof.
  intros Hi Hfin Hk Hdirs Hother. apply Forall_forall. intros t Ht. apply list_elem_of_lookup in Ht as [j Hj].
  destruct (Forall2_lookup_r _ _ _ _ _ (i_dirs _ _ _ Hi) Hj) as (d & Hd & Hdt). pose proof (list_elem_of_lookup_2 _ _ _ Hd) as Hin.
  destruct (dir_placed b st T d Hi Hin) as (H2 & H0 & Hle & _ & Hlen). pose proof (i_geo _ _ _ Hi) as Hg.
  destruct (geo_unit b st Hg) as (Hs1 & Hb1 & Hcb). pose proof Hdt as [Hh _ Hsz Hr (es & Hes & Hc & Hcap & Hit)].
  assert (Forall ent_ok es) as Hents by (clear -Hit; induction Hit as [|? ? ? ? He _ IH]; constructor; [apply He|done]).
  exists (view <$> es). split.
  - unfold read_dir. rewrite <- Hh, (read_run b st' I k _ (clusters d)) by done. cbn. f_equal.
    rewrite Forall_forall in Hdirs. rewrite <- Hlen, img_slice by (intros i Hi'; apply Hdirs; [done|lia]).
    assert (length es ≤ length (dir_bytes d))%nat as Hlees by nia. unfold dir_bytes in *. rewrite Hes in *. by apply parse_dir_ok.
  - apply Forall2_fmap_r. eapply Forall2_impl; [exact Hit|]. clear Hit Hes Hc Hents. intros it e (He & E1 & E2 & E3).
    split; [done|]. split; [done|]. destruct (i_content it) as [|h|data]; [done|apply E3|]. destruct E3 as [Hst Es]. split; [done|].
    unfold read_file. cbn [view e_size e_cluster]. rewrite Es. destruct Hst as [->|(F2 & Fle & Fr & Fd & Fdis)]; [done|].
    destruct (Z.eqb_spec (Z.of_nat (length data)) 0); [by destruct data|]. set (nc := _ / cluster_bytes b) in *.
    pose proof (div_up (Z.of_nat (length data)) (cluster_bytes b) ltac:(nia)) as Hn. fold nc in Hn. pose proof (i_fat _ _ _ Hi) as [Hf _].
    assert (0 < nc) by nia. rewrite (read_run b st' I k _ nc) by (done || lia). cbn. f_equal. rewrite <- fmap_take.
    replace (nc * cluster_bytes b) with (Z.of_nat (length data) + (nc * cluster_bytes b - Z.of_nat (length data))) by lia.
    rewrite seqZ_app by lia. rewrite take_app_length' by (rewrite length_seqZ; lia). apply img_slice. intros i Hii. rewrite Hother; [by apply Fd| |].
    + unfold pos. assert (0 ≤ (clus e - 2) * spc b) by nia. nia.
    + eapply Forall_impl; [exact Fdis|]. intros d' Hd'. unfold pos. rewrite Hcb in Hn. destruct Hd' as [Hd'|Hd'].
      * right. assert ((first_cluster d' + clusters d' - 2) * spc b ≤ (clus e - 2) * spc b) by nia. nia.
      * left. assert ((clus e - 2) * spc b + nc * spc b ≤ (first_cluster d' - 2) * spc b) by nia. nia.
Qed.

Lemma sector_with_length n l : Forall (λ p, (p.1 + length p.2 ≤ Z.to_nat n)%nat) l → length (sector_with n l) = Z.to_nat n.
Proof.
  unfold sector_with. intros Hl. assert (length (replicate (Z.to_nat n) 0) = Z.to_nat n) as E by apply length_replicate.
  revert E. generalize (replicate (Z.to_nat n) 0). induction Hl as [|p l Hp _ IH]; intros s E; [done|]. cbn [foldl]. apply IH.
  rewrite length_over; [done|]. by rewrite E.
Qed.

Lemma pos_two b : pos b 2 = data_start b * bps b.
Proof. unfold pos. lia. Qed.

(** The finished volume is the tree, in both copies of its FAT. *)
Lemma finish_ok b st T : inv b st T →
  ∃ st', fat32_finish b st = Ret (true, st') ∧ mount (img b st') = volume_of b ∧ reads (img b st') (volume_of b) 0 T ∧ reads (img b st') (volume_of b) 1 T.
Proof.
  intros Hi. pose proof (i_geo _ _ _ Hi) as Hg. unfold fat32_finish. rewrite (i_going _ _ _ Hi).
  assert (Forall (placed b) (dirs b)) as Hpl by (apply Forall_forall; intros d Hd; by eapply dir_placed).
  destruct (dirs_loop_ok b (dirs b) st Hg Hpl (i_order _ _ _ Hi)) as (st1 & -> & Hg1 & Hdirs & Hout). cbn [obind negb copies_loop].
  pose proof (g_start _ _ Hg) as Hst. pose proof (g_fat _ _ Hg) as [Hf0 Hfs]. pose proof (g_count _ _ Hg). pose proof (g_spc _ _ Hg).
  assert (0 ≤ cluster_count b * spc b) by nia. destruct (bps_pos b st Hg) as (Hbp & _ & _). set (f := fat_sectors b) in *.
  unfold FAT32_RESERVED_SECTORS. replace (32 + 0 * f) with 32 by lia. replace (32 + 1 * f) with (32 + f) by lia.
  destruct (fat_loop_ok b 32 (S (Z.to_nat f)) 0 st1 Hg1) as (st2 & -> & Hg2 & _ & Himg2);
    [lia|pose proof (g_end _ _ Hg1); fold f; lia|lia|lia|fold f; lia|]. cbn [obind negb].
  destruct (fat_loop_ok b (32 + f) (S (Z.to_nat f)) 0 st2 Hg2) as (st3 & -> & Hg3 & _ & Himg3);
    [lia|pose proof (g_end _ _ Hg2); fold f; lia|lia|lia|fold f; lia|]. cbn [obind negb]. fold f in Himg2, Himg3. rewrite !Z.add_0_r in *.
  assert (Z.of_nat (length (fsinfo b)) = 1 * bps b) as Lfs.
  { unfold fsinfo. rewrite sector_with_length; [lia|]. repeat (apply Forall_cons_2; [cbn [fst snd]; rewrite length_lebytes; lia|]). constructor. }
  destruct (write_ok b st3 1 1 (fsinfo b) Hg3) as (st4 & -> & Hg4 & Hp4 & _); [lia|lia|pose proof (g_end _ _ Hg3); lia|done|]. cbn [obind negb].
  destruct (write_ok b st4 7 1 (fsinfo b) Hg4) as (st5 & -> & Hg5 & Hp5 & _); [lia|lia|pose proof (g_end _ _ Hg4); lia|done|].
  unfold patched in Hp4, Hp5. rewrite Lfs in Hp4, Hp5. exists st5. split; [done|]. set (I := img b st5) in *.
  assert (∀ x, x < bps b ∨ 32 * bps b ≤ x → I x = img b st3 x) as H35 by (intros x Hx; by rewrite Hp5, decide_False, Hp4, decide_False by lia).
  assert ((32 + f + f) * bps b = data_start b * bps b) as Eds by (rewrite Hst; fold f; lia).
  assert (0 < f * bps b) as Hfb by nia.
  assert (∀ x, x < bps b ∨ (32 + f + f) * bps b ≤ x → I x = img b st1 x) as H15.
  { intros x Hx. rewrite H35 by lia. by rewrite Himg3, decide_False, Himg2, decide_False by lia. }
  assert (∀ x, x < bps b → I x = img b st x) as Hlow.
  { intros x Hx. rewrite H15 by lia. apply Hout. apply Forall_forall. intros d Hd. left. rewrite Forall_forall in Hpl. destruct (Hpl d Hd) as [Hd2 _].
    unfold pos. assert (0 ≤ (first_cluster d - 2) * spc b) by nia. nia. }
  assert (finished b st5 I) as Hfin.
  { constructor; [done|]. split; intros x Hx; fold f in Hx |- *.
    - replace ((32 + 0 * f) * bps b + x) with (32 * bps b + x) by lia. rewrite H35 by lia. rewrite Himg3, decide_False by lia.
      rewrite Himg2, decide_True by lia. f_equal. lia.
    - rewrite H35 by lia. rewrite Himg3, decide_True by lia. f_equal. lia. }
  split; [rewrite <- (i_mount _ _ _ Hi); unfold mount, le_at; f_equal; f_equal; apply seqZ_eq_ext; intros x Hx; apply Hlow; lia|].
  assert (Forall (λ d, ∀ i, 0 ≤ i < clusters d * cluster_bytes b → I (pos b (first_cluster d) + i) = nth (Z.to_nat i) (dir_bytes d) 0) (dirs b)) as Hd5.
  { apply Forall_forall. intros d Hd i Hii. rewrite Forall_forall in Hdirs, Hpl. rewrite H15; [by apply Hdirs|]. right. rewrite Eds.
    destruct (Hpl d Hd) as [Hd2 _]. unfold pos. assert (0 ≤ (first_cluster d - 2) * spc b) by nia. nia. }
  assert (∀ x, pos b 2 ≤ x → Forall (λ d, x < pos b (first_cluster d) ∨ pos b (first_cluster d + clusters d) ≤ x) (dirs b) → I x = img b st x) as Ho5.
  { intros x Hx Hd. rewrite H15 by (rewrite pos_two in Hx; lia). by apply Hout. }
  split; apply (reads_ok b st T I st5); auto.
Qed.

(** ** Creating *)

Lemma rounds_mono {A B} (step : A → A + B) a r k j : rounds k step a = inr r → rounds (j + k) step a = inr r.
Proof. intros E. induction j as [|j IH]; [done|]. cbn [Nat.add rounds]. by rewrite IH. Qed.

Lemma fat_size_ok a s per : 992 ≤ a < 4294967296 → 1 ≤ s ≤ 64 → 128 ≤ per ≤ 1024 →
  let f0 := a / (s * per + 2) in let f0 := if f0 =? 0 then 1 else f0 in
  ∃ f, rounds 33 (fat_sz_step a s per) f0 = inr f ∧ f0 ≤ f ≤ f0 + 2 ∧ 2 * f ≤ a ∧ (a - 2 * f) / s + 2 ≤ f * per.
Proof.
  intros Ha Hs Hp q f0. set (m := s * per) in *. assert (128 ≤ m ≤ 65536) as Hm by (unfold m; nia).
  assert (1 ≤ f0 ∧ a < (f0 + 1) * (m + 2) ∧ 2 * (f0 + 2) ≤ a) as (H1 & H2 & H3).
  { pose proof (Z.div_mod a (m + 2) ltac:(lia)) as Hdm. pose proof (Z.mod_pos_bound a (m + 2) ltac:(lia)) as Hmb. fold q in Hdm.
    assert (0 ≤ q) by (apply Z.div_pos; lia). unfold f0. destruct (Z.eqb_spec q 0) as [E|]; [rewrite E in Hdm; lia|].
    split; [lia|]. split; [lia|]. assert (130 * q ≤ a) by nia. lia. }
  assert (∀ f, f0 ≤ f ≤ f0 + 2 → fat_sz_step a s per f = if f * per <? (a - 2 * f) / s + 2 then inl (f + 1) else inr f) as Hstep.
  { intros f Hf. unfold fat_sz_step, FAT32_NUM_FATS. rewrite (u32_small (2 * f)), (u32_small (a - 2 * f)), (u32_small (f + 1)) by (unfold is_u32; lia). done. }
  assert ((a - 2 * (f0 + 2)) / s + 2 ≤ (f0 + 2) * per) as Hlast.
  { assert ((a - 2 * (f0 + 2)) / s < (f0 + 2) * per - 1); [|lia]. apply Z.div_lt_upper_bound; [lia|].
    assert (s * ((f0 + 2) * per - 1) = (f0 + 2) * m - s) as -> by (unfold m; lia). nia. }
  assert (∃ f, rounds 2 (fat_sz_step a s per) f0 = inr f ∧ f0 ≤ f ≤ f0 + 2 ∧ (a - 2 * f) / s + 2 ≤ f * per) as (f & Hr & Hf & Hfit).
  { cbn [rounds]. rewrite (Hstep f0) by lia. destruct (Z.ltb_spec (f0 * per) ((a - 2 * f0) / s + 2)); [|by exists f0; repeat split; lia].
    rewrite (Hstep (f0 + 1)) by lia. destruct (Z.ltb_spec ((f0 + 1) * per) ((a - 2 * (f0 + 1)) / s + 2)); [|by exists (f0 + 1); repeat split; lia].
    replace (f0 + 1 + 1) with (f0 + 2) by lia. rewrite (Hstep (f0 + 2)), (proj2 (Z.ltb_ge _ _)) by lia. exists (f0 + 2). repeat split; lia. }
  exists f. split; [|lia]. by apply (rounds_mono _ _ _ 2 31).
Qed.

Lemma spc_ok bytes ss : ss = 512 ∨ ss = 4096 → let s := spc_loop 8 bytes ss 1 in
  1 ≤ s ≤ 64 ∧ s * ss ≤ 32768 ∧ (bytes / ss ≤ FAT32_MAX_CLUSTERS → s = 1).
Proof.
  intros Hss. cbn [spc_loop]. unfold FAT32_MAX_CLUSTERS. rewrite Z.mul_1_l. repeat case_if; bool_to_prop; destruct Hss as [-> | ->]; lia.
Qed.

Lemma layout_ok d ss total : ss = 512 ∨ ss = 4096 → 1024 ≤ total ≤ 4294967295 →
  ∃ r, layout d ss total = Ret r ∧
    match r with
    | None => ¬ (ss = 512 ∧ 67000 ≤ total ≤ 4194304)
    | Some b => ∃ sc f cc, b = mk_builder d ss sc (sc * ss) total f (32 + 2 * f) cc 2 (0x0FFFFFF8 :: FAT32_EOC :: replicate (Z.to_nat cc) 0) [] false ∧
        1 ≤ sc ≤ 64 ∧ sc * ss ≤ 32768 ∧ 0 < f ∧ 32 + 2 * f + cc * sc ≤ total ∧ (cc + 2) * 4 ≤ f * ss ∧ 65525 ≤ cc ≤ 4194304
    end.
Proof.
  intros Hss Ht. unfold layout. set (sc := spc_loop _ _ _ _).
  destruct (spc_ok (u64 (total * ss)) ss Hss) as (Hs1 & Hs2 & Hs3). fold sc in Hs1, Hs2, Hs3.
  assert (128 ≤ ss / 4 ≤ 1024 ∧ ss = ss / 4 * 4) as [Hper Hss4] by (destruct Hss as [-> | ->]; vm_compute; intuition congruence).
  unfold FAT32_RESERVED_SECTORS, FAT32_NUM_FATS. rewrite (u32_small (total - 32)), (u32_small (sc * (ss / 4) + 2)) by (unfold is_u32; nia).
  destruct (fat_size_ok (total - 32) sc (ss / 4) ltac:(lia) Hs1 Hper) as (f & Hr & Hf0 & Hf2 & Hfit). cbv zeta in Hr. rewrite Hr.
  set (q := (total - 32) / (sc * (ss / 4) + 2)) in *. assert (0 ≤ q) as Hq0 by (apply Z.div_pos; nia).
  assert (q * (sc * (ss / 4) + 2) ≤ total - 32) as Hq by (rewrite Z.mul_comm; apply Z.mul_div_le; nia).
  clearbody q. assert (1 ≤ f) as Hf1. { destruct (Z.eqb_spec q 0); lia. }
  rewrite (u32_small (2 * f)), (u32_small (32 + 2 * f)), (u32_small (total - (32 + 2 * f))) by (unfold is_u32; lia).
  replace (total - (32 + 2 * f)) with (total - 32 - 2 * f) by lia. set (cc := (total - 32 - 2 * f) / sc) in *.
  pose proof (Z.mul_div_le (total - 32 - 2 * f) sc ltac:(lia)) as Hcc. fold cc in Hcc. unfold FAT32_MIN_CLUSTERS, FAT32_MAX_CLUSTERS in *.
  destruct (Z.ltb_spec cc 65525) as [Hlo|]; cbn [orb]; [|destruct (Z.ltb_spec (4 * 1024 * 1024) cc) as [Hhi|]]; (eexists; split; [done|]).
  1, 2: intros [-> Hr2]; assert (sc = 1) as Esc
    by (apply Hs3; rewrite u64_small by (unfold is_u64; lia); rewrite Z.div_mul by lia; lia);
    unfold cc in *; rewrite Esc, Z.div_1_r in *; change (1 * (512 / 4) + 2) with 130 in Hq; destruct (Z.eqb_spec q 0); lia.
  exists sc, f, cc. split; [done|]. assert ((cc + 2) * 4 ≤ f * ss) by (rewrite Hss4; nia). lia.
Qed.

(** A field that no later one covers. *)
Lemma sector_field n l1 off bytes l2 i : Forall (λ p, (p.1 + length p.2 ≤ Z.to_nat n)%nat) (l1 ++ (off, bytes) :: l2) →
  Forall (λ p, (p.1 + length p.2 ≤ off ∨ off + length bytes ≤ p.1)%nat) l2 → (i < length bytes)%nat →
  nth (off + i) (sector_with n (l1 ++ (off, bytes) :: l2)) 0 = nth i bytes 0.
Proof.
  intros Hfit Hdis Hi. apply Forall_app in Hfit as [H1 H2]. apply Forall_cons in H2 as [Hp H2]. cbn [fst snd] in Hp.
  unfold sector_with. rewrite foldl_app. cbn [foldl fst snd]. pose proof (sector_with_length n l1 H1) as L. fold (sector_with n l1).
  set (s := over off bytes (sector_with n l1)).
  assert (length s = Z.to_nat n ∧ nth (off + i) s 0 = nth i bytes 0) as [Ls Hs].
  { unfold s. rewrite length_over, nth_over, decide_True by lia. split; [done|]. f_equal. lia. }
  clearbody s. revert s Ls Hs. induction l2 as [|p l2 IH]; intros s Ls Hs; [done|]. cbn [foldl].
  apply Forall_cons in H2 as [Hpf H2], Hdis as [Hpd Hdis]. apply IH; [done|done|by rewrite length_over; rewrite Ls|].
  rewrite nth_over, decide_False by lia. done.
Qed.

(** A property of the places of all fields of a sector. *)
Ltac each_field :=
  cbn [drop]; repeat (apply Forall_cons_2; [cbn [fst snd]; rewrite ?length_lebytes; cbn [length]; try change (length (txt _)) with 8%nat; lia|]); constructor.

Lemma boot_length b hidden id lab : 512 ≤ bps b → length lab = 11%nat → Z.of_nat (length (boot_sector b hidden id lab)) = bps b.
Proof.
  intros Hb Hl. unfold boot_sector. rewrite sector_with_length; [lia|].
  each_field.
Qed.

Lemma boot_mounts b I hidden id lab : bps b = 512 ∨ bps b = 4096 → 1 ≤ spc b ≤ 64 → 0 ≤ fat_sectors b < 4294967296 → length lab = 11%nat →
  (∀ x, 0 ≤ x < bps b → I x = nth (Z.to_nat x) (boot_sector b hidden id lab) 0) → mount I = volume_of b.
Proof.
  intros Hb Hs Hf Hl HI.
  assert (∀ l1 off n v l2, boot_sector b hidden id lab = sector_with (bps b) (l1 ++ (off, lebytes n v) :: l2) →
    Forall (λ p, (p.1 + length p.2 ≤ Z.to_nat (bps b))%nat) (l1 ++ (off, lebytes n v) :: l2) →
    Forall (λ p, (p.1 + length p.2 ≤ off ∨ off + n ≤ p.1)%nat) l2 → 0 ≤ v < 256 ^ Z.of_nat n → le_at I (Z.of_nat off) n = v) as Hfield.
  { intros l1 off n v l2 E Hfit Hdis Hv. apply le_at_bytes; [done|]. intros i Hi.
    assert (off + n ≤ Z.to_nat (bps b))%nat. { apply Forall_app in Hfit as [_ Hfit]. apply Forall_cons in Hfit as [Hfit _]. cbn [fst snd] in Hfit. by rewrite length_lebytes in Hfit. }
    rewrite HI by lia. rewrite E. replace (Z.to_nat (Z.of_nat off + i)) with (off + Z.to_nat i)%nat by lia.
    apply sector_field; rewrite ?length_lebytes; [done|done|lia]. }
  set (L := [(0%nat, [0xEB; 0x58; 0x90]); (3%nat, txt "MINIMAOS"); (11%nat, lebytes 2 (bps b)); (13%nat, [u8 (spc b)]);
     (14%nat, lebytes 2 FAT32_RESERVED_SECTORS); (16%nat, [FAT32_NUM_FATS]); (21%nat, [0xF8]); (24%nat, lebytes 2 63);
     (26%nat, lebytes 2 255); (28%nat, lebytes 4 hidden); (32%nat, lebytes 4 (total_sectors b));
     (36%nat, lebytes 4 (fat_sectors b)); (44%nat, lebytes 4 2); (48%nat, lebytes 2 1); (50%nat, lebytes 2 6);
     (64%nat, [0x80]); (66%nat, [0x29]); (67%nat, lebytes 4 id); (71%nat, lab); (82%nat, txt "FAT32   ");
     (510%nat, [0x55; 0xAA])] : list (nat * list Z)).
  assert (Forall (λ p, (p.1 + length p.2 ≤ Z.to_nat (bps b))%nat) L) as HL.
  { unfold L. each_field. }
  assert (∀ k off n v, L !! k = Some (off, lebytes n v) →
    Forall (λ p, (p.1 + length p.2 ≤ off ∨ off + n ≤ p.1)%nat) (drop (S k) L) → 0 ≤ v < 256 ^ Z.of_nat n → le_at I (Z.of_nat off) n = v) as Hat.
  { intros k off n v Hk Hd Hv. assert (L = take k L ++ (off, lebytes n v) :: drop (S k) L) as EL.
    { rewrite <- (take_drop k L) at 1. f_equal. by apply drop_S. }
    apply (Hfield (take k L) off n v (drop (S k) L)); [|by rewrite <- EL|done|done]. rewrite <- EL. done. }
  unfold mount, volume_of. f_equal.
  - apply (Hat 2%nat 11%nat 2%nat (bps b)); [done|unfold L; each_field|cbn; lia].
  - apply (Hat 3%nat 13%nat 1%nat (spc b)); [done|unfold L; each_field|cbn; lia].
  - apply (Hat 4%nat 14%nat 2%nat 32); [done|unfold L; each_field|cbn; lia].
  - apply (Hat 5%nat 16%nat 1%nat 2); [done|unfold L; each_field|cbn; lia].
  - apply (Hat 11%nat 36%nat 4%nat (fat_sectors b)); [done|unfold L; each_field|cbn; lia].
  - apply (Hat 12%nat 44%nat 4%nat 2); [done|unfold L; each_field|cbn; lia].
Qed.

Lemma root_entry b st c name attr fill : inv b st [mk_tdir c None []] → (add_entry c name attr fill b).1 = true.
Proof.
  intros Hi. destruct (geo_unit b st (i_geo _ _ _ Hi)) as (Hs1 & Hb1 & Hcb). pose proof (i_dirs _ _ _ Hi) as Hd. apply Forall2_cons_inv_r in Hd as (d & l & [Hh Hr Hs _ (es & He & Hc & _ & Hit)] & Hl & Ed).
  apply Forall2_nil_inv_r in Hl as ->. apply Forall2_nil_inv_l in Hit as ->. unfold add_entry, find_dir. rewrite Ed. cbn [first_index].
  cbn [t_handle] in Hh. rewrite Hh, Z.eqb_refl. cbn [nth]. rewrite Hc. cbn [length].
  destruct (Z.leb_spec (capacity d) (Z.of_nat 0)); [|done]. exfalso.
  assert (0 < clusters d * cluster_bytes b) by nia. lia.
Qed.

Lemma add_entry_dev dir name attr fill b : dev (add_entry dir name attr fill b).2 = dev b.
Proof. unfold add_entry. destruct (find_dir b dir); [|done]. by destruct (_ <=? _). Qed.

Lemma alloc_dev n b c b' : alloc_clusters n b = Ret (c, b') → dev b' = dev b.
Proof.
  unfold alloc_clusters. destruct (n =? 0); [by intros [= _ <-]|]. destruct (_ <? _); [by intros [= _ <-]|].
  destruct (link_clusters _ _ _ _); cbn [obind]; try done. by intros [= _ <-].
Qed.

Lemma new_dir_dev can p b c b' : new_dir can p b = Ret (c, b') → dev b' = dev b.
Proof.
  unfold new_dir. destruct (_ <=? _); [by intros [= _ <-]|]. destruct (alloc_clusters _ b) as [[x y]| | |] eqn:E; cbn [obind]; try done.
  apply alloc_dev in E. destruct (x =? 0); [by intros [= _ <-]|]. destruct (negb (can _)); intros [= _ <-]; done.
Qed.

Lemma exec_dev can o b st r b' st' : exec can o b st = Ret (r, b', st') → dev b' = dev b.
Proof.
  destruct o as [p n|dir n data]; cbn [exec].
  - unfold fat32_mkdir. destruct (failed b); [cbn [obind]; by intros [= _ <- _]|].
    destruct (new_dir can p b) as [[x y]| | |] eqn:E; cbn [obind]; try done. apply new_dir_dev in E.
    destruct (x =? 0); [cbn [obind]; by intros [= _ <- _]|]. pose proof (add_entry_dev p n 16 (set_cluster x) y) as Ha.
    destruct (add_entry _ _ _ _ y). cbn [obind]. intros [= _ <- _]. cbn in Ha. congruence.
  - unfold fat32_add_file. destruct (failed b); [cbn [obind]; by intros [= _ <- _]|].
    destruct (alloc_clusters _ b) as [[x y]| | |] eqn:E; cbn [obind]; try done. apply alloc_dev in E.
    destruct (negb _ && _); [cbn [obind]; by intros [= _ <- _]|].
    destruct (file_loop _ y _ data st) as [[k s]| | |]; cbn [obind]; try done. destruct k; cbn [negb]; [|cbn [obind]; by intros [= _ <- _]].
    set (fill := λ e, _). pose proof (add_entry_dev dir n 32 fill y) as Ha. destruct (add_entry _ _ _ _ y). cbn [obind]. intros [= _ <- _]. cbn in Ha. congruence.
Qed.

Definition roomy (can : Z → bool) : Prop := ∀ n, 0 ≤ n ≤ 16777224 → can n = true.

(** The root directory of a fresh volume. *)
Definition fresh_tree (lab : list Z) : list tdir := [mk_tdir 2 None [mk_item lab 0x08 IVolume]].

Definition volume_label (l : option (list Z)) : list Z := make_83 (default (txt "NO NAME") l).

Lemma volume_created can d l id st : roomy can → table_ok st → used (the_dev d st) = true → can_write (the_dev (dev_disk d st) st) = true →
  1024 ≤ sectors (the_dev d st) → name_ok (default (txt "NO NAME") l) →
  ∃ r st', fat32_create can d l id st = Ret (r, st') ∧
    match r with
    | None => st' = st ∧ ¬ (sector_size (the_dev d st) = 512 ∧ 67000 ≤ sectors (the_dev d st) ≤ 4194304)
    | Some b => dev b = d ∧ inv b st' (fresh_tree (volume_label l))
    end.
Proof.
  intros Hcan Ht Hu Hw Hs Hl. unfold fat32_create. set (ss := sector_size _) in *. set (total := sectors _) in *.
  destruct (decide (ss = 512 ∨ ss = 4096)) as [Hss|Hss].
  2: { rewrite (proj2 (Z.eqb_neq ss 512)), (proj2 (Z.eqb_neq ss 4096)) by lia. exists None, st. split; [done|]. split; [done|lia]. }
  assert (negb (ss =? 512) && negb (ss =? 4096) = false) as -> by (by destruct Hss as [-> | ->]).
  destruct (Z.ltb_spec 0xFFFFFFFF total) as [|Hmax]; [exists None, st; split; [done|]; split; [done|lia]|].
  rewrite (Hcan sizeof_builder) by (unfold sizeof_builder; lia). cbn [negb].
  destruct (layout_ok d ss total Hss ltac:(lia)) as (r & -> & Hr). cbn [obind]. destruct r as [b|]; [|by exists None, st].
  assert (geo_ok b st ∧ dev b = d ∧ bps b = ss ∧ fat_ok b ∧ failed b = false ∧ dirs b = [] ∧ next_cluster b = 2 ∧ fat_sectors b < 4294967296)
    as (Hg & Ed & Eb & Hf & Hfl & Hdirs & Hnx & Hfs).
  { destruct Hr as (sc & f & cc & -> & H1 & H2 & H3 & H4 & H5 & H6). assert (0 ≤ cc * sc) by nia.
    split; [constructor; simpl; try done; lia|]. repeat (split; [done|]).
    split; [split; [simpl; lia|]; cbn [fat length]; rewrite length_replicate; simpl; lia|]. repeat (split; [done|]). simpl. lia. }
  clear Hr. pose proof (g_count _ _ Hg) as Hcc. destruct (bps_pos b st Hg) as (Hbp & _ & _). pose proof (g_start _ _ Hg). pose proof (g_fat _ _ Hg) as [Hfp _].
  pose proof (g_end _ _ Hg) as Hend. pose proof (g_spc _ _ Hg) as Hspc. assert (0 ≤ cluster_count b * spc b) by nia. rewrite Ed in Hend. fold total in Hend.
  rewrite (Hcan ((cluster_count b + 2) * 4)), (Hcan FAT32_IO_CHUNK), (Hcan ss) by (unfold FAT32_IO_CHUNK; lia). cbn [negb orb].
  destruct (make_83_ok _ Hl) as [Hlen Hn]. fold (volume_label l) in *. set (lab := volume_label l) in *. set (bs := boot_sector _ _ _ _).
  destruct (zero_ok b (S (Z.to_nat 32)) 0 32 st Hg) as (st1 & E1 & Hg1 & Hd1); [lia|lia|rewrite Ed; fold total; lia|].
  unfold write_zero, FAT32_RESERVED_SECTORS. rewrite E1. cbn [obind].
  assert (the_dev (dev b) st1 = the_dev d st) as Et1 by (rewrite Ed; unfold the_dev; by rewrite Hd1).
  assert (Z.of_nat (length bs) = 1 * bps b) as Lbs by (unfold bs; rewrite boot_length by (done || lia); lia).
  destruct (write_ok b st1 0 1 bs Hg1) as (st2 & E2 & Hg2 & Hp2 & Hd2); [lia|lia|rewrite Et1; fold total; lia|done|]. rewrite Ed in E2. rewrite E2. cbn [obind].
  assert (the_dev (dev b) st2 = the_dev d st) as Et2 by (rewrite <- Et1; unfold the_dev; by rewrite Hd2).
  destruct (write_ok b st2 6 1 bs Hg2) as (st3 & E3 & Hg3 & Hp3 & Hd3); [lia|lia|rewrite Et2; fold total; lia|done|]. rewrite Ed in E3. rewrite E3. cbn [obind negb].
  unfold patched in Hp2, Hp3. rewrite Lbs in Hp2, Hp3.
  assert (inv b st3 []) as Hi.
  { constructor; try done; [|rewrite Hdirs; constructor|rewrite Hdirs; by intros ? ? ? ? _ ?].
    apply (boot_mounts b _ (hidden_loop (S BLOCKDEV_MAX) (Some d) st 0) id lab); [by rewrite Eb|done|lia|done|].
    intros x Hx. rewrite Hp3, decide_False, Hp2, decide_True by lia. f_equal. lia. }
  destruct (new_dir_ok can b st3 [] NO_PARENT Hi Hcan ltac:(unfold NO_PARENT; lia)) as (c & b2 & End & Hc & Hne). rewrite End. cbn [obind]. apply new_dir_dev in End.
  destruct Hc as [-> Hi2]; [apply Hne; [rewrite Hdirs; simpl; lia|lia]|]. rewrite Hnx in *. cbn [Z.eqb Pos.eqb negb].
  unfold parent_of in Hi2. rewrite Z.eqb_refl in Hi2. cbn [app] in Hi2.
  exists (Some (add_entry 2 [] 8 (set_name lab) b2).2), st3. split; [done|].
  pose proof (root_entry b2 st3 2 [] 8 (set_name lab) Hi2) as Hok.
  pose proof (inv_entry b2 st3 _ 2 [] 8 (set_name lab) (mk_item lab 8 IVolume) Hi2) as He.
  destruct (add_entry 2 [] 8 (set_name lab) b2) as [ok b3] eqn:Eadd. cbn [fst snd] in *. subst ok.
  assert (inv b3 st3 (fresh_tree lab)) as Hi3.
  { apply He. split; [|done]. constructor; cbn [set_name d_name new_entry]; try done. destruct lab as [|x lab']; [done|]. apply Forall_cons in Hn as [? _]. cbn. lia. }
  split; [|done]. rewrite <- Ed. change b3 with (true, b3).2. rewrite <- Eadd, add_entry_dev. done.
Qed.

(** ** The whole build *)

Fixpoint build (can : Z → bool) (l : list op) (b : fat32_builder) (st : storage D) : outcome (list Z * fat32_builder * storage D) :=
  match l with
  | [] => Ret ([], b, st)
  | o :: l =>
      let* (r, b, st) := exec can o b st in
      let* (rs, b, st) := build can l b st in
      Ret (r :: rs, b, st)
  end.

Fixpoint tree_after (T : list tdir) (l : list op) (rs : list Z) : list tdir :=
  match l, rs with
  | o :: l, r :: rs => tree_after (grow T o r) l rs
  | _, _ => T
  end.

Lemma build_failed can l b st : failed b = true → build can l b st = Ret (replicate (length l) 0, b, st).
Proof.
  intros Hf. induction l as [|o l IH]; [done|]. cbn [build length replicate].
  assert (exec can o b st = Ret (0, b, st)) as -> by (destruct o; cbn [exec]; unfold fat32_mkdir, fat32_add_file; by rewrite Hf).
  cbn [obind]. by rewrite IH.
Qed.

Lemma build_ok can l : roomy can → Forall op_ok l → ∀ b st T, inv b st T →
  ∃ rs b' st', build can l b st = Ret (rs, b', st') ∧ dev b' = dev b ∧
    ((failed b' = true ∧ 0 ∈ rs) ∨ (0 ∉ rs ∧ inv b' st' (tree_after T l rs))).
Proof.
  intros Hcan Hl. induction Hl as [|o l Ho Hl IH]; intros b st T Hi; cbn [build].
  { exists [], b, st. split; [done|]. split; [done|]. right. split; [apply not_elem_of_nil|done]. }
  assert (∃ r b1 st1, exec can o b st = Ret (r, b1, st1) ∧ stepped o T r b1 st1) as (r & b1 & st1 & E & Hs).
  { destruct o; [|by eapply add_file_ok]. destruct (fat_mkdir_ok can b st T parent name Hi Hcan Ho) as (r & b1 & E & Hs). eauto. }
  pose proof (exec_dev _ _ _ _ _ _ _ E) as Hd. rewrite E. cbn [obind]. destruct Hs as [[-> Hf]|[Hr Hi1]].
  - rewrite build_failed by done. cbn [obind]. eexists _, b1, st1. split; [done|]. split; [done|]. left. split; [done|left].
  - destruct (IH b1 st1 _ Hi1) as (rs & b2 & st2 & -> & Hd2 & Hres). cbn [obind]. exists (r :: rs), b2, st2. split; [done|]. split; [congruence|].
    destruct Hres as [[Hf Hin]|[Hin Hi2]]; [left; split; [done|by right]|right]. split; [|done]. rewrite not_elem_of_cons. done.
Qed.

(** C11. A FAT32 volume is built: on a writable device of the table, with a
    heap that answers requests up to 16 MiB ([roomy]), creating the volume,
    adding any directories and files and finishing always return; the
    operations name entries in ASCII and files are at most 4 GiB - 32 KiB.
    Creation refuses a device that does not suit FAT32 and leaves it alone.
    Finishing succeeds exactly when every operation did, and then the device
    reads, with the rules of the FAT specification and from either copy of the
    FAT, as the tree of the operations: every directory lists its entries in
    order and every file has its bytes. *)
Theorem fat32_volume_correct can d l id st : roomy can → table_ok st → used (the_dev d st) = true →
  can_write (the_dev (dev_disk d st) st) = true → 1024 ≤ sectors (the_dev d st) → name_ok (default (txt "NO NAME") l) →
  ∃ r st1, fat32_create can d l id st = Ret (r, st1) ∧
    match r with
    | None => st1 = st ∧ ¬ (sector_size (the_dev d st) = 512 ∧ 67000 ≤ sectors (the_dev d st) ≤ 4194304)
    | Some b => ∀ ops, Forall op_ok ops → ∃ rs b' st2 ok st3,
        build can ops b st1 = Ret (rs, b', st2) ∧ fat32_finish b' st2 = Ret (ok, st3) ∧ (ok = true ↔ 0 ∉ rs) ∧
        (ok = true → let I := dev_byte d st3 in v_root (mount I) = fat32_root b ∧
           ∀ k, k = 0 ∨ k = 1 → reads I (mount I) k (tree_after (fresh_tree (volume_label l)) ops rs))
    end.
Proof.
  intros Hcan Ht Hu Hw Hs Hl. destruct (volume_created can d l id st Hcan Ht Hu Hw Hs Hl) as (r & st1 & E & Hr). exists r, st1. split; [done|].
  destruct r as [b|]; [|done]. destruct Hr as [Hd Hi]. intros ops Hops.
  destruct (build_ok can ops Hcan Hops b st1 _ Hi) as (rs & b' & st2 & Eb & Hd' & Hres). exists rs, b', st2.
  destruct Hres as [[Hf Hin]|[Hin Hi']].
  - exists false, st2. split; [done|]. unfold fat32_finish. rewrite Hf. split; [done|]. split; [by split|done].
  - destruct (finish_ok b' st2 _ Hi') as (st3 & Ef & Hm & H0 & H1). exists true, st3. split; [done|]. split; [done|]. split; [done|]. intros _.
    assert (dev_byte d st3 = img b' st3) as -> by (unfold img; congruence). cbv zeta. rewrite Hm. split; [done|]. intros k [-> | ->]; done.
Qed.

(** A file whose size is less than a cluster below 4 GiB: the number of
    clusters wraps to 0, none is taken, and the data go to sector 0. *)
Lemma fat32_size_wraps dir n data b (st : storage D) : failed b = false → cluster_bytes b = 512 → Z.of_nat (length data) = 4294967295 →
  fat32_add_file dir n data b st =
  (let* (ok, st) := file_loop (S (length data)) b 0 data st in
   if negb ok then Ret (false, set_failed b, st)
   else let '(ok, b) := add_entry dir n 0x20 (λ e, set_size 4294967295 (set_cluster 0 e)) b in Ret (ok, b, st)).
Proof. intros Hf Hc Hl. unfold fat32_add_file, clusters_for. rewrite Hf, Hl, Hc. done. Qed.
End volume.

(** ** An EFI system partition on a RAM disk *)

Definition esp_disk : storage ramdisk :=
  (blockdev_register_disk RAM_PREFIX [] 512 70000 0 true 0 (mk_storage (replicate BLOCKDEV_MAX dev_zero) [mk_ramdisk (λ _, 0) 70000])).2.
Definition esp_ops : list op := [Mkdir 2 (txt "EFI"); AddFile 10 (txt "boot.efi") [7; 8; 9]].

Lemma esp_disk_ok : table_ok esp_disk.
Proof.
  apply register_disk_ok; [apply (blockdev_init_ok (mk_storage (replicate BLOCKDEV_MAX dev_zero) _))|].
  split; [unfold is_u64; lia|]. split; [lia|]. split; [lia|]. eexists. split; [reflexivity|]. split; [done|]. cbn. lia.
Qed.

(** What the operations answer after a creation. *)
Definition esp_answers (c : outcome (option fat32_builder * storage ramdisk)) : list Z :=
  match c with
  | Ret (Some b, st) => match build (λ _, true) esp_ops b st with Ret (rs, _, _) => rs | _ => [] end
  | _ => []
  end.
Lemma esp_answers_ok : esp_answers (fat32_create (λ _, true) 0 None 1 esp_disk) = [10; 1].
Proof. by vm_compute. Qed.

Lemma fat32_volume_correct_witness : ∃ b st1 b' st2 st3,
  fat32_create (λ _, true) 0 None 1 esp_disk = Ret (Some b, st1) ∧ build (λ _, true) esp_ops b st1 = Ret ([10; 1], b', st2) ∧
  fat32_finish b' st2 = Ret (true, st3) ∧
  reads (dev_byte 0 st3) (mount (dev_byte 0 st3)) 1
    [mk_tdir 2 None [mk_item (txt "NO NAME    ") 0x08 IVolume; mk_item (txt "EFI        ") 0x10 (IDir 10)];
     mk_tdir 10 (Some 2) [mk_item (txt "BOOT    EFI") 0x20 (IFile [7; 8; 9])]].
Proof.
  destruct (fat32_volume_correct (λ _, true) 0 None 1 esp_disk) as (r & st1 & E & Hr).
  - by intros n _.
  - apply esp_disk_ok.
  - reflexivity.
  - reflexivity.
  - vm_compute. discriminate.
  - apply (bool_decide_unpack _). by vm_compute.
  - pose proof esp_answers_ok as Ha. rewrite E in Ha. destruct r as [b|]; [|done].
    destruct (Hr esp_ops) as (rs & b' & st2 & ok & st3 & E1 & E2 & Hok & Hreads).
    { repeat constructor; try (apply (bool_decide_unpack _); by vm_compute); unfold NO_PARENT; cbn; lia. }
    cbn [esp_answers] in Ha. rewrite E1 in Ha. subst rs. assert (ok = true) as -> by (apply Hok; apply (bool_decide_unpack _); by vm_compute).
    exists b, st1, b', st2, st3. repeat (split; [done|]). destruct (Hreads eq_refl) as [_ H1].
    assert (tree_after (fresh_tree (volume_label None)) esp_ops [10; 1] = _) as Et by (vm_compute; reflexivity).
    rewrite Et in H1. apply H1. by right.
Defined.
End fat32spec.
