(* ===== verification/Pkg.v ===== *)
(** * The package library ([src/impl/compression/pkglib.c])

    Archives of files and directories over the file system of [Fs.v] and the
    codec of [Lzss.v]. An archive in memory is the list of its bytes, a C
    string the list of its characters without the NUL. The functions run in
    the monad of [Fs.v]; what lies outside it is in the section's context:
    [resize_ok], the sizes [alloc_resize] grants, and [junk], the bytes that
    [alloc_unzeroed] hands the decoder for its window. What [alloc] and
    [alloc_unzeroed] grant is [can_alloc] of the environment. Memory is given
    back on every path of the code, so no operation takes heap away from the
    next; the serial messages are left out. *)

From S2P Require Import Prelude Bytes CString Lzss Time Net Block Extent FsText Fs.
Import fstext minimafs.

Open Scope c_scope.

Module pkg.

(** ** The format ([pkgformat.h]) *)

Definition MPKG_MAGIC : list Z := txt "MPKG0001".
Definition MPKG_MAGIC_SIZE : Z := 8.
Definition MPKG_VERSION : Z := 1.
Definition MPKG_HEADER_SIZE : Z := 16.
Definition MPKG_NAME_SIZE : Z := 128.
Definition MPKG_ENTRY_SIZE : Z := 148.
Definition MPKG_FLAG_DIRECTORY : Z := 1.
Definition MPKG_METHOD_STORE : Z := 0.
Definition MPKG_METHOD_LZSS : Z := 1.

Definition PKGLIB_ZIP_LZSS_MAX_BYTES : Z := 262144.
Definition PKGLIB_ZIP_MAX_ITEMS : nat := 16.

Definition pkg_read_u32 (p : list Z) (off : Z) : outcome Z :=
  let* b0 := oget p off in
  let* b1 := oget p (off + 1) in
  let* b2 := oget p (off + 2) in
  let* b3 := oget p (off + 3) in
  Ret (Z.lor (Z.lor (Z.lor b0 (Z.shiftl b1 8)) (Z.shiftl b2 16)) (u32 (Z.shiftl b3 24))).

Definition pkg_write_u32 (p : list Z) (off v : Z) : outcome (list Z) :=
  let* p := blit off [Z.land v 255] p in
  let* p := blit (off + 1) [Z.land (Z.shiftr v 8) 255] p in
  let* p := blit (off + 2) [Z.land (Z.shiftr v 16) 255] p in
  blit (off + 3) [Z.land (Z.shiftr v 24) 255] p.

Record pkg_entry := mk_pkg_entry {
  pe_name : list Z; pe_flags : Z; pe_method : Z;
  pe_uncompressed_size : Z; pe_compressed_size : Z; pe_data_offset : Z
}.

(** The last byte of the name field is made the terminator. *)
Definition pkg_parse_entry (raw : list Z) : outcome pkg_entry :=
  let* name := slice_of 0 MPKG_NAME_SIZE raw in
  let p := MPKG_NAME_SIZE in
  let* flags := pkg_read_u32 raw (p + 0) in
  let* method := pkg_read_u32 raw (p + 4) in
  let* usize := pkg_read_u32 raw (p + 8) in
  let* csize := pkg_read_u32 raw (p + 12) in
  let* off := pkg_read_u32 raw (p + 16) in
  Ret (mk_pkg_entry (c_string (take (Z.to_nat (MPKG_NAME_SIZE - 1)) name)) flags method usize csize off).

(** ** Names and paths *)

(** The loop at the character after [prev] ([None]: at the start of the name).
    Past the end the terminator is read. *)
Fixpoint safe_loop (prev : option Z) (p : list Z) : bool :=
  match p with
  | [] => true
  | c :: r =>
      if (c =? 46) && (nth 0 r 0 =? 46) &&
         match prev with None => true | Some q => q =? 47 end &&
         ((nth 1 r 0 =? 47) || (nth 1 r 0 =? 0))
      then false
      else safe_loop (Some c) r
  end.

Definition pkg_name_is_safe (name : list Z) : bool :=
  if nth 0 name 0 =? 0 then false
  else if nth 0 name 0 =? 47 then false
  else safe_loop None name.

Definition pkg_parent_dir (full_path : list Z) (out_size : nat) : option (list Z) :=
  match chr 58 full_path with
  | None => None
  | Some colon =>
      if negb (nth 1 colon 0 =? 47) then None
      else
        let root_slash := (ptr_diff colon full_path + 1)%nat in
        match rchr 47 full_path with
        | None => None
        | Some last_slash =>
            let len := if (last_slash =? root_slash)%nat then (last_slash + 1)%nat else last_slash in
            if (out_size <=? len)%nat then None else Some (take len full_path)
        end
  end.

Definition pkg_basename (path : list Z) : list Z :=
  match rchr 47 path with Some i => drop (S i) path | None => path end.

(** [snprintf] into an array of [size] bytes: the text cut to [size - 1]
    characters; the count it returns is that of the cut text. *)
Definition snprintf_text (size : nat) (text : list Z) : list Z := take (size - 1) text.

Section library.
  Context {D : Type} `{BlockDriver D}.
  Abbreviation fsM := (fsM (D := D)).
  Context (resize_ok : Z → bool) (junk : list Z).

(** The indices [min_len] to [len] of the buffer, in order. *)
Fixpoint mkdir_loop (E : env) (buf : list Z) (min_len : nat) (idxs : list nat) : fsM bool :=
  match idxs with
  | [] => mret true
  | i :: idxs =>
      if (nth i buf 0 =? 47) || (i =? length buf)%nat then
        if (min_len <? i)%nat then
          d ← minimafs_is_dir E (take i buf);
          if (d : bool) then mkdir_loop E buf min_len idxs
          else
            ok ← minimafs_mkdir E (take i buf);
            if (ok : bool) then mkdir_loop E buf min_len idxs else mret false
        else mkdir_loop E buf min_len idxs
      else mkdir_loop E buf min_len idxs
  end.

Definition pkg_mkdir_p (E : env) (path : list Z) : fsM bool :=
  let len := length path in
  if (len =? 0)%nat || (MINIMAFS_MAX_PATH <=? len)%nat then mret false
  else
    match chr 58 path with
    | None => mret false
    | Some colon =>
        if negb (nth 1 colon 0 =? 47) then mret false
        else
          let min_len := (ptr_diff colon path + 2)%nat in
          if (len <? min_len)%nat then mret false
          else mkdir_loop E path min_len (seq min_len (S len - min_len))
    end.

(** ** Reading archives *)

(** The bytes at [archive + off] that a callee reads: none when there are none. *)
Definition payload_bytes (archive : list Z) (off n : Z) : outcome (list Z) :=
  if n =? 0 then Ret [] else slice_of off n archive.

(** From the range check on: the data and its length as they are passed to
    [minimafs_write_file_segments], [None] on the error returns. *)
Definition entry_data (E : env) (entry : pkg_entry) (archive : list Z) : outcome (option (option (list Z) * Z)) :=
  let archive_size := Z.of_nat (length archive) in
  let off := pe_data_offset entry in
  let csize := pe_compressed_size entry in
  let usize := pe_uncompressed_size entry in
  if (0 <? csize) && ((archive_size <=? off) || (archive_size <? u64 (off + csize))) then Ret None
  else
    if pe_method entry =? MPKG_METHOD_STORE then
      if negb (usize =? csize) then Ret None
      else let* payload := payload_bytes archive off csize in Ret (Some (Some payload, csize))
    else if pe_method entry =? MPKG_METHOD_LZSS then
      if negb (usize =? 0) && negb (can_alloc E usize) then Ret None
      else
        let* (produced, out) :=
          (if usize =? 0 then Ret (0, [])
           else
             let* payload := payload_bytes archive off csize in
             lzss_decompress payload usize (if can_alloc E (LZSS_N + LZSS_F - 1) then Some junk else None)) in
        if negb (usize =? 0) && negb (produced =? usize) then Ret None
        else Ret (Some (if usize =? 0 then None else Some out, usize))
    else Ret None.

Definition pkg_extract_entry (E : env) (entry : pkg_entry) (archive target_dir : list Z) : fsM bool :=
  if negb (pkg_name_is_safe (pe_name entry)) then mret false
  else
    let full_path := snprintf_text MINIMAFS_MAX_PATH (target_dir ++ 47 :: pe_name entry) in
    let written := length full_path in
    if (written =? 0)%nat || (MINIMAFS_MAX_PATH <=? written)%nat then mret false
    else if negb (Z.land (pe_flags entry) MPKG_FLAG_DIRECTORY =? 0) then pkg_mkdir_p E full_path
    else
      parent_ok ← match pkg_parent_dir full_path MINIMAFS_MAX_PATH with
                  | Some parent => pkg_mkdir_p E parent
                  | None => mret true
                  end;
      if negb parent_ok then mret false
      else
        r ← lift (entry_data E entry archive);
        match r with
        | None => mret false
        | Some (data, len) =>
            minimafs_write_file_segments E full_path data len None 0 (Some (txt "binary")) (Some (txt "bin"))
        end.

Definition pkg_load_archive (E : env) (path : list Z) : fsM (option (list Z)) :=
  file ← minimafs_open E path true;
  match file with
  | None => mret None
  | Some file =>
      size ← minimafs_size file;
      if size <? MPKG_HEADER_SIZE then minimafs_close E file;; mret None
      else if negb (can_alloc E size) then minimafs_close E file;; mret None
      else
        buffer ← minimafs_read E file size;
        minimafs_close E file;;
        if negb (Z.of_nat (length buffer) =? size) then mret None
        else if negb (bool_decide (take (Z.to_nat MPKG_MAGIC_SIZE) buffer = MPKG_MAGIC)) then mret None
        else
          version ← lift (pkg_read_u32 buffer 8);
          mret (if version =? MPKG_VERSION then Some buffer else None)
  end.

(** 0 on a bad table. *)
Definition pkg_validate_entry_table (archive : list Z) : outcome Z :=
  let* entry_count := pkg_read_u32 archive 12 in
  let table_bytes := u64 (entry_count * MPKG_ENTRY_SIZE) in
  if (entry_count =? 0) || (u64 (Z.of_nat (length archive) - MPKG_HEADER_SIZE) <? table_bytes) then Ret 0
  else Ret entry_count.

(** [n] entries from entry [i] on. *)
Fixpoint unzip_loop (E : env) (archive target_dir : list Z) (n : nat) (i installed failed : Z) : fsM (Z * Z) :=
  match n with
  | O => mret (installed, failed)
  | S n =>
      raw ← lift (slice_of (MPKG_HEADER_SIZE + i * MPKG_ENTRY_SIZE) MPKG_ENTRY_SIZE archive);
      entry ← lift (pkg_parse_entry raw);
      ok ← pkg_extract_entry E entry archive target_dir;
      if (ok : bool) then unzip_loop E archive target_dir n (i + 1) (u32 (installed + 1)) failed
      else unzip_loop E archive target_dir n (i + 1) installed (u32 (failed + 1))
  end.

(** The return value, [*out_installed] and [*out_failed]. *)
Definition pkglib_unzip (E : env) (archive_path target_dir : list Z) : fsM (bool * Z * Z) :=
  archive ← pkg_load_archive E archive_path;
  match archive with
  | None => mret (false, 0, 0)
  | Some archive =>
      entry_count ← lift (pkg_validate_entry_table archive);
      if entry_count =? 0 then mret (false, 0, 0)
      else
        d ← minimafs_is_dir E target_dir;
        ok ← (if (d : bool) then mret true else pkg_mkdir_p E target_dir);
        if negb ok then mret (false, 0, 0)
        else
          '(installed, failed) ← unzip_loop E archive target_dir (Z.to_nat entry_count) 0 0 0;
          mret (true, installed, failed)
  end.

(** The return value and [*out_entry_count]. *)
Definition pkglib_info (E : env) (archive_path : list Z) : fsM (bool * Z) :=
  archive ← pkg_load_archive E archive_path;
  match archive with
  | None => mret (false, 0)
  | Some archive =>
      entry_count ← lift (pkg_validate_entry_table archive);
      mret (if entry_count =? 0 then (false, 0) else (true, entry_count))
  end.

(** ** Building archives *)

Record zip_item := mk_item { zi_rel_name : list Z; zi_full_path : list Z; zi_is_dir : bool }.

(** [g_zip_items] with its count; [None] when the item is refused. *)
Definition pkg_zip_add_item (items : list zip_item) (rel_name full_path : list Z) (is_dir : bool) :
    option (list zip_item) :=
  if (256 <=? length full_path)%nat then None
  else if (PKGLIB_ZIP_MAX_ITEMS <=? length items)%nat then None
  else Some (items ++ [mk_item (take 127 rel_name) (take 255 full_path) is_dir]).

(** [rel_name] and [child_full] of an entry. *)
Definition zip_rel_name (rel_prefix name : list Z) : list Z :=
  snprintf_text (Z.to_nat MPKG_NAME_SIZE) (if bool_decide (rel_prefix = []) then name else rel_prefix ++ 47 :: name).
Definition zip_child (full_dir_path name : list Z) : list Z :=
  snprintf_text MINIMAFS_MAX_PATH
    (if bool_decide (last full_dir_path = Some 47) then full_dir_path ++ name else full_dir_path ++ 47 :: name).

(** The loop over the entries of a directory, [rec] the recursive call; the
    answer [None] is [ok == false]. *)
Fixpoint collect_entries (rec : list Z → list Z → list zip_item → fsM (option (list zip_item)))
    (full_dir_path rel_prefix : list Z) (entries : list minimafs_dir_entry) (items : list zip_item) :
    fsM (option (list zip_item)) :=
  match entries with
  | [] => mret (Some items)
  | e :: entries =>
      let rel_name := zip_rel_name rel_prefix (e_name e) in
      let child_full := zip_child full_dir_path (e_name e) in
      let is_dir := bool_decide (e_type e = MINIMAFS_TYPE_DIR) in
      match pkg_zip_add_item items rel_name child_full is_dir with
      | None => mret None
      | Some items =>
          if is_dir then
            r ← rec child_full rel_name items;
            match r with
            | None => mret None
            | Some items => collect_entries rec full_dir_path rel_prefix entries items
            end
          else collect_entries rec full_dir_path rel_prefix entries items
      end
  end.

(** The fuel bounds the depth of the recursion. *)
Fixpoint pkg_zip_collect_dir (fuel : nat) (E : env) (full_dir_path rel_prefix : list Z) (items : list zip_item) :
    fsM (option (list zip_item)) :=
  match fuel with
  | O => lift Hang
  | S fuel =>
      entries ← minimafs_list_dir E full_dir_path MINIMAFS_MAX_ROOT_ENTRIES;
      collect_entries (pkg_zip_collect_dir fuel E) full_dir_path rel_prefix entries items
  end.

(** [payloads], [payload_sizes], [raw_sizes] and [methods] of one item. *)
Record zip_payload := mk_payload { zp_bytes : list Z; zp_size : Z; zp_raw_size : Z; zp_method : Z }.

(** Compression of the bytes read from a file. *)
Definition pack_payload (E : env) (use_lzss : bool) (raw : list Z) : outcome zip_payload :=
  let raw_size := Z.of_nat (length raw) in
  let stored := mk_payload raw raw_size raw_size MPKG_METHOD_STORE in
  if use_lzss && (0 <? raw_size) && (raw_size <=? PKGLIB_ZIP_LZSS_MAX_BYTES) then
    let* compressed := lzss_compress (can_alloc E) resize_ok raw in
    match compressed with
    | Some c =>
        if Z.of_nat (length c) <? raw_size
        then Ret (mk_payload c (Z.of_nat (length c)) raw_size MPKG_METHOD_LZSS)
        else Ret stored
    | None => Ret stored
    end
  else Ret stored.

(** One round of the payload loop; [None] on its error returns. *)
Definition zip_read_item (E : env) (use_lzss : bool) (it : zip_item) : fsM (option zip_payload) :=
  if zi_is_dir it then mret (Some (mk_payload [] 0 0 MPKG_METHOD_STORE))
  else
    f ← minimafs_open E (zi_full_path it) true;
    match f with
    | None => mret None
    | Some f =>
        raw_size ← minimafs_size f;
        if negb (raw_size =? 0) && negb (can_alloc E raw_size) then minimafs_close E f;; mret None
        else
          raw ← (if negb (raw_size =? 0) then minimafs_read E f raw_size else mret []);
          minimafs_close E f;;
          if negb (Z.of_nat (length raw) =? raw_size) then mret None
          else p ← lift (pack_payload E use_lzss raw); mret (Some p)
    end.

Fixpoint zip_read_items (E : env) (use_lzss : bool) (items : list zip_item) : fsM (option (list zip_payload)) :=
  match items with
  | [] => mret (Some [])
  | it :: items =>
      p ← zip_read_item E use_lzss it;
      match p with
      | None => mret None
      | Some p =>
          ps ← zip_read_items E use_lzss items;
          mret (cons p <$> ps)
      end
  end.

(** [data_offsets] and the final [running]; [None]: too large. *)
Fixpoint zip_offsets (items : list zip_item) (ps : list zip_payload) (running : Z) : option (list Z * Z) :=
  match items, ps with
  | it :: items, p :: ps =>
      if zi_is_dir it then
        '(offs, r) ← zip_offsets items ps running; Some (0 :: offs, r)
      else if u32 (4294967295 - running) <? zp_size p then None
      else '(offs, r) ← zip_offsets items ps (u32 (running + zp_size p)); Some (running :: offs, r)
  | _, _ => Some ([], running)
  end.

(** [strncpy(entry, name, 127)] pads to 127 bytes. *)
Definition zip_write_entry (archive : list Z) (i : Z) (it : zip_item) (p : zip_payload) (data_offset : Z) :
    outcome (list Z) :=
  let entry := MPKG_HEADER_SIZE + i * MPKG_ENTRY_SIZE in
  let name := take 127 (zi_rel_name it) in
  let* archive := blit entry (name ++ replicate (127 - length name) 0) archive in
  let off := MPKG_NAME_SIZE in
  let flags := if zi_is_dir it then MPKG_FLAG_DIRECTORY else 0 in
  let* archive := pkg_write_u32 archive (entry + off) flags in
  let* archive := pkg_write_u32 archive (entry + off + 4) (zp_method p) in
  let* archive := pkg_write_u32 archive (entry + off + 8) (zp_raw_size p) in
  let* archive := pkg_write_u32 archive (entry + off + 12) (zp_size p) in
  pkg_write_u32 archive (entry + off + 16) data_offset.

Fixpoint zip_write_entries (archive : list Z) (i : Z) (items : list zip_item) (ps : list zip_payload) (offs : list Z) :
    outcome (list Z) :=
  match items, ps, offs with
  | it :: items, p :: ps, o :: offs =>
      let* archive := zip_write_entry archive i it p o in
      zip_write_entries archive (i + 1) items ps offs
  | _, _, _ => Ret archive
  end.

Fixpoint zip_write_payloads (archive : list Z) (items : list zip_item) (ps : list zip_payload) (offs : list Z) :
    outcome (list Z) :=
  match items, ps, offs with
  | it :: items, p :: ps, o :: offs =>
      let* archive := (if negb (zi_is_dir it) && (0 <? zp_size p) then blit o (zp_bytes p) archive else Ret archive) in
      zip_write_payloads archive items ps offs
  | _, _, _ => Ret archive
  end.

(** The [running] bytes of the archive. *)
Definition zip_archive (items : list zip_item) (ps : list zip_payload) (offs : list Z) (running : Z) : outcome (list Z) :=
  let archive := replicate (Z.to_nat running) 0 in
  let* archive := blit 0 MPKG_MAGIC archive in
  let* archive := pkg_write_u32 archive 8 MPKG_VERSION in
  let* archive := pkg_write_u32 archive 12 (Z.of_nat (length items)) in
  let* archive := zip_write_entries archive 0 items ps offs in
  zip_write_payloads archive items ps offs.

(** "lzss" or "store"; [None]: any other text. *)
Definition zip_algorithm (algorithm : option (list Z)) : option bool :=
  match algorithm with
  | None | Some [] => Some true
  | Some a =>
      if bool_decide (a = txt "lzss") then Some true
      else if bool_decide (a = txt "store") then Some false
      else None
  end.

Definition zip_output_path (source_path : list Z) : list Z :=
  let trimmed := take (MINIMAFS_MAX_PATH - 1) source_path in
  let trimmed := if (1 <? length trimmed)%nat && bool_decide (last trimmed = Some 47)
                 then take (length trimmed - 1) trimmed else trimmed in
  snprintf_text MINIMAFS_MAX_PATH (trimmed ++ txt ".mpkg").

(** From the offsets on. *)
Definition zip_store (E : env) (items : list zip_item) (ps : list zip_payload) (output_path : list Z) : fsM bool :=
  let item_count := Z.of_nat (length items) in
  let table_size := u32 (MPKG_HEADER_SIZE + item_count * MPKG_ENTRY_SIZE) in
  if negb (can_alloc E (item_count * 4)) then mret false
  else
    match zip_offsets items ps table_size with
    | None => mret false
    | Some (offs, running) =>
        if negb (can_alloc E running) then minimafs_delete_file E output_path;; mret false
        else
          archive ← lift (zip_archive items ps offs running);
          minimafs_write_file_segments E output_path (Some archive) running None 0 (Some (txt "binary")) (Some (txt "mpkg"))
    end.

(** The items of the source. *)
Definition zip_collect (fuel : nat) (E : env) (source_path : list Z) : fsM (option (list zip_item)) :=
  source_is_dir ← minimafs_is_dir E source_path;
  if (source_is_dir : bool) then
    items ← pkg_zip_collect_dir fuel E source_path [] [];
    mret (match items with Some [] => None | _ => items end)
  else mret (pkg_zip_add_item [] (pkg_basename source_path) source_path false).

(** The return value and the text left in [out_path]. *)
Definition pkglib_zip (fuel : nat) (E : env) (source_path : list Z) (algorithm : option (list Z)) (out_path_size : nat) :
    fsM (bool * list Z) :=
  found ← minimafs_exists E source_path;
  if negb found then mret (false, [])
  else
    match zip_algorithm algorithm with
    | None => mret (false, [])
    | Some use_lzss =>
        items ← zip_collect fuel E source_path;
        match items with
        | None => mret (false, [])
        | Some items =>
            let output_path := zip_output_path source_path in
            let item_count := Z.of_nat (length items) in
            if (MINIMAFS_MAX_PATH <=? length output_path)%nat then mret (false, [])
            else if negb (can_alloc E (item_count * 8) && can_alloc E (item_count * 4)) then mret (false, [])
            else
              ps ← zip_read_items E use_lzss items;
              match ps with
              | None => mret (false, [])
              | Some ps =>
                  ok ← zip_store E items ps output_path;
                  mret (if (ok : bool) then (true, snprintf_text out_path_size output_path) else (false, []))
              end
        end
    end.
End library.
End pkg.
