(* ===== verification/PkgSpec.v ===== *)
(** * The package format: what is packed is unpacked *)

From S2P Require Import Prelude Bytes CString Lzss Time Net Block Extent FsText Fs FsFile FsOps Pkg.
Import fstext minimafs fsfile fsops pkg Bytes.

Open Scope c_scope.

Module pkgspec.

(** ** Numbers in a buffer *)

Lemma oget_slice off n p i : 0 ≤ off → 0 ≤ i < n → off + n ≤ Z.of_nat (length p) →
  oget p (off + i) = Ret (nth (Z.to_nat i) (slice off n p) 0).
Proof.
  intros Ho Hi Hl. rewrite nth_slice by lia. unfold oget. rewrite (proj2 (Z.ltb_ge _ _)) by lia.
  destruct (lookup_lt_is_Some_2 p (Z.to_nat (off + i)) ltac:(lia)) as [x Hx]. rewrite Hx. by rewrite (nth_lookup_Some _ _ _ _ Hx).
Qed.

Lemma join_bytes b0 b1 b2 b3 : is_u8 b0 → is_u8 b1 → is_u8 b2 → is_u8 b3 →
  Z.lor (Z.lor (Z.lor b0 (Z.shiftl b1 8)) (Z.shiftl b2 16)) (u32 (Z.shiftl b3 24)) = num [b0; b1; b2; b3].
Proof.
  unfold is_u8. intros H0 H1 H2 H3.
  assert (u32 (Z.shiftl b3 24) = Z.shiftl b3 24) as -> by (apply u32_small; unfold is_u32; rewrite Z.shiftl_mul_pow2; lia).
  rewrite (Z.lor_comm b0), shiftl_lor_add by lia. rewrite (Z.lor_comm _ (Z.shiftl b2 16)), shiftl_lor_add by lia.
  rewrite (Z.lor_comm _ (Z.shiftl b3 24)), shiftl_lor_add by lia. cbn [num]. lia.
Qed.

Lemma read_u32_ok p off : 0 ≤ off → off + 4 ≤ Z.of_nat (length p) → Forall is_u8 (slice off 4 p) →
  pkg_read_u32 p off = Ret (rd 4 p off).
Proof.
  intros Ho Hl Hb. unfold pkg_read_u32. rewrite <- (Z.add_0_r off) at 1. rewrite !(oget_slice off 4) by lia. cbn [obind].
  pose proof (length_slice off 4 p Ho ltac:(lia) Hl) as Hs. unfold rd. change (take 4 (drop (Z.to_nat off) p)) with (slice off 4 p).
  destruct (slice off 4 p) as [|b0 [|b1 [|b2 [|b3 [|]]]]]; try (simpl in Hs; lia).
  apply Forall_cons in Hb as [? Hb]. apply Forall_cons in Hb as [? Hb]. apply Forall_cons in Hb as [? Hb]. apply Forall_cons in Hb as [? _].
  f_equal. by apply join_bytes.
Qed.

(** ** Filling a buffer from the front *)

Lemma blit_mid off a b c d : off = Z.of_nat (length a) → length c = length b → blit off b (a ++ c ++ d) = Ret (a ++ b ++ d).
Proof.
  intros -> Hl. rewrite blit_ok by (rewrite ?length_app; lia). f_equal. unfold over. rewrite Nat2Z.id, take_app_length. f_equal. f_equal.
  rewrite drop_app_ge by lia. replace (length a + length b - length a)%nat with (length c) by lia. by rewrite drop_app_length.
Qed.

Lemma blit_one off a b c d : off = Z.of_nat (length a) → blit off [b] (a ++ c :: d) = Ret ((a ++ [b]) ++ d).
Proof. intros ->. rewrite (blit_mid _ a [b] [c] d) by done. by rewrite <- app_assoc. Qed.

Lemma write_u32_mid off v a c d : off = Z.of_nat (length a) → length c = 4%nat →
  pkg_write_u32 (a ++ c ++ d) off v = Ret (a ++ lebytes 4 v ++ d).
Proof.
  intros -> Hl. destruct c as [|c0 [|c1 [|c2 [|c3 [|]]]]]; try done. unfold pkg_write_u32. simpl app.
  do 4 (rewrite blit_one by (rewrite ?length_app; simpl; lia); cbn [obind]).
  rewrite <- !app_assoc. change 255 with (Z.ones 8). rewrite !Z.land_ones, !Z.shiftr_div_pow2 by lia.
  f_equal. f_equal. cbn [lebytes app]. rewrite !Z.div_div by lia. done.
Qed.

(** A buffer whose first part is filled, the rest zero. *)
Definition filled (a : list Z) (total : nat) : list Z := a ++ replicate (total - length a) 0.

Lemma filled_zero total : replicate total 0 = filled [] total.
Proof. unfold filled. simpl. by rewrite Nat.sub_0_r. Qed.

Lemma filled_step a n total : (length a + n ≤ total)%nat →
  filled a total = a ++ replicate n 0 ++ replicate (total - (length a + n)) 0.
Proof. intros Hl. unfold filled. rewrite <- replicate_add. do 2 f_equal. lia. Qed.

Lemma filled_blit off a b total : off = Z.of_nat (length a) → (length a + length b ≤ total)%nat →
  blit off b (filled a total) = Ret (filled (a ++ b) total).
Proof.
  intros Ho Hl. rewrite (filled_step a (length b)) by done. rewrite blit_mid by (try done; by rewrite length_replicate).
  unfold filled. by rewrite length_app, <- app_assoc.
Qed.

Lemma filled_write off a v total : off = Z.of_nat (length a) → (length a + 4 ≤ total)%nat →
  pkg_write_u32 (filled a total) off v = Ret (filled (a ++ lebytes 4 v) total).
Proof.
  intros Ho Hl. rewrite (filled_step a 4) by done. rewrite write_u32_mid by (try done; by rewrite length_replicate).
  unfold filled. by rewrite length_app, length_lebytes, <- app_assoc.
Qed.

(** A byte that is skipped stays zero. *)
Lemma filled_skip a total : (length a + 1 ≤ total)%nat → filled a total = filled (a ++ [0]) total.
Proof. intros Hl. rewrite (filled_step a 1) by done. unfold filled. by rewrite length_app, <- app_assoc. Qed.

Lemma filled_full a total : length a = total → filled a total = a.
Proof. intros <-. unfold filled. by rewrite Nat.sub_diag, app_nil_r. Qed.

(** ** The archive as text *)

Definition entry_flags (it : zip_item) : Z := if zi_is_dir it then MPKG_FLAG_DIRECTORY else 0.

Definition entry_bytes (it : zip_item) (p : zip_payload) (off : Z) : list Z :=
  let name := take 127 (zi_rel_name it) in
  name ++ replicate (128 - length name) 0 ++ lebytes 4 (entry_flags it) ++ lebytes 4 (zp_method p) ++
  lebytes 4 (zp_raw_size p) ++ lebytes 4 (zp_size p) ++ lebytes 4 off.

Definition file_bytes (it : zip_item) (p : zip_payload) : list Z := if zi_is_dir it then [] else zp_bytes p.

Definition header_bytes (n : Z) : list Z := MPKG_MAGIC ++ lebytes 4 MPKG_VERSION ++ lebytes 4 n.

Fixpoint table_bytes (items : list zip_item) (ps : list zip_payload) (offs : list Z) : list Z :=
  match items, ps, offs with
  | it :: items, p :: ps, o :: offs => entry_bytes it p o ++ table_bytes items ps offs
  | _, _, _ => []
  end.

Fixpoint data_bytes (items : list zip_item) (ps : list zip_payload) : list Z :=
  match items, ps with
  | it :: items, p :: ps => file_bytes it p ++ data_bytes items ps
  | _, _ => []
  end.

Lemma entry_bytes_length it p off : length (entry_bytes it p off) = 148%nat.
Proof. unfold entry_bytes. rewrite !length_app, length_replicate, !length_lebytes. pose proof (length_take (zi_rel_name it) 127). lia. Qed.

Lemma table_bytes_length items ps offs : length ps = length items → length offs = length items →
  length (table_bytes items ps offs) = (148 * length items)%nat.
Proof.
  revert ps offs. induction items as [|it items IH]; intros [|p ps] [|o offs] Hp Ho; try done. cbn [table_bytes].
  rewrite length_app, entry_bytes_length, IH by (simpl in *; lia). simpl. lia.
Qed.

Lemma write_entry_ok i it p o a total : Z.of_nat (length a) = MPKG_HEADER_SIZE + i * MPKG_ENTRY_SIZE → (length a + 148 ≤ total)%nat →
  zip_write_entry (filled a total) i it p o = Ret (filled (a ++ entry_bytes it p o) total).
Proof.
  intros Ha Hl. unfold zip_write_entry. fold (entry_flags it). set (name := take 127 (zi_rel_name it)).
  assert (length name ≤ 127)%nat as Hn by (subst name; rewrite length_take; lia).
  set (padded := name ++ replicate (127 - length name) 0).
  assert (length padded = 127)%nat as Hp by (subst padded; rewrite length_app, length_replicate; lia).
  rewrite filled_blit by lia. cbn [obind]. rewrite filled_skip by (rewrite length_app; lia).
  unfold MPKG_NAME_SIZE, MPKG_HEADER_SIZE, MPKG_ENTRY_SIZE in *.
  do 5 (rewrite filled_write by (rewrite !length_app, ?length_lebytes, ?Hp; simpl length; lia); cbn [obind]).
  f_equal. f_equal. unfold entry_bytes. fold name. rewrite <- !app_assoc. f_equal. unfold padded. rewrite <- app_assoc. f_equal.
  replace (128 - length name)%nat with (127 - length name + 1)%nat by lia. by rewrite replicate_add, <- app_assoc.
Qed.

Lemma write_entries_ok items : ∀ ps offs i a total, length ps = length items → length offs = length items →
  Z.of_nat (length a) = MPKG_HEADER_SIZE + i * MPKG_ENTRY_SIZE → (length a + 148 * length items ≤ total)%nat →
  zip_write_entries (filled a total) i items ps offs = Ret (filled (a ++ table_bytes items ps offs) total).
Proof.
  induction items as [|it items IH]; intros [|p ps] [|o offs] i a total Hp Ho Ha Hl; try done; [by rewrite app_nil_r|].
  cbn [zip_write_entries table_bytes]. simpl in *. rewrite write_entry_ok by lia. cbn [obind].
  rewrite app_assoc. apply IH; [lia..| |]; rewrite length_app, entry_bytes_length; unfold MPKG_HEADER_SIZE, MPKG_ENTRY_SIZE in *; lia.
Qed.

(** A payload as the loop of [pkglib_zip] leaves it. *)
Definition packed (it : zip_item) (p : zip_payload) : Prop :=
  zp_size p = Z.of_nat (length (zp_bytes p)).

Lemma zip_offsets_grow items : ∀ ps offs running r, length ps = length items → Forall2 packed items ps → is_u32 running →
  zip_offsets items ps running = Some (offs, r) →
  length offs = length items ∧ is_u32 r ∧ Forall is_u32 offs ∧ r = running + Z.of_nat (length (data_bytes items ps)).
Proof.
  induction items as [|it items IH]; intros [|p ps] offs running r Hp Hpk Hr; try done; cbn [zip_offsets data_bytes].
  - intros [= <- <-]. simpl. split_and!; [done|done|constructor|lia].
  - apply Forall2_cons in Hpk as [Hpk1 Hpk]. unfold packed, file_bytes in *. unfold is_u32 in Hr. simpl in Hp. destruct (zi_is_dir it).
    + destruct (zip_offsets items ps running) as [[offs1 r1]|] eqn:Hz; simpl; [|done]. intros [= <- <-].
      destruct (IH ps offs1 running r1) as (? & ? & ? & ?); try done; [lia|].
      split_and!; [simpl; lia|done|by constructor; [unfold is_u32; lia|]|done].
    + destruct (Z.ltb_spec (u32 (4294967295 - running)) (zp_size p)) as [|Hfit]; [done|].
      rewrite u32_small in Hfit by (unfold is_u32; lia).
      rewrite u32_small by (unfold is_u32; lia).
      destruct (zip_offsets items ps (running + zp_size p)) as [[offs1 r1]|] eqn:Hz; simpl; [|done]. intros [= <- <-].
      destruct (IH ps offs1 (running + zp_size p) r1) as (? & ? & ? & ?); try done; [lia|unfold is_u32; lia|].
      split_and!; [simpl; lia|done|by constructor; [unfold is_u32; lia|]|]. rewrite length_app. lia.
Qed.

Lemma write_payloads_ok items : ∀ ps offs running r a total, length ps = length items → Forall2 packed items ps → is_u32 running →
  zip_offsets items ps running = Some (offs, r) → running = Z.of_nat (length a) → (length a + length (data_bytes items ps) ≤ total)%nat →
  zip_write_payloads (filled a total) items ps offs = Ret (filled (a ++ data_bytes items ps) total).
Proof.
  induction items as [|it items IH]; intros [|p ps] offs running r a total Hp Hpk Hr; try done; cbn [zip_offsets data_bytes].
  - intros [= <- <-] _ _. by rewrite app_nil_r.
  - apply Forall2_cons in Hpk as [Hpk1 Hpk]. unfold packed, file_bytes in *. unfold is_u32 in Hr. simpl in Hp. destruct (zi_is_dir it) eqn:Hd.
    + destruct (zip_offsets items ps running) as [[offs1 r1]|] eqn:Hz; simpl; [|done]. intros [= <- <-] Ha Hl.
      rewrite Hd. cbn [negb andb obind]. eapply IH; try done; lia.
    + destruct (Z.ltb_spec (u32 (4294967295 - running)) (zp_size p)) as [|Hfit]; [done|].
      rewrite u32_small in Hfit by (unfold is_u32; lia).
      rewrite u32_small by (unfold is_u32; lia).
      destruct (zip_offsets items ps (running + zp_size p)) as [[offs1 r1]|] eqn:Hz; simpl; [|done]. intros [= <- <-] Ha Hl.
      rewrite Hd. cbn [negb andb]. rewrite length_app in Hl. rewrite app_assoc.
      assert ((if 0 <? zp_size p then blit running (zp_bytes p) (filled a total) else Ret (filled a total)) =
        Ret (filled (a ++ zp_bytes p) total)) as ->.
      { destruct (Z.ltb_spec 0 (zp_size p)); [apply filled_blit; lia|].
        destruct (zp_bytes p); [by rewrite app_nil_r|simpl in *; lia]. }
      cbn [obind]. apply (IH ps offs1 (running + zp_size p) r1); try done; [lia|unfold is_u32; lia| |]; rewrite length_app; lia.
Qed.

Definition archive_bytes (items : list zip_item) (ps : list zip_payload) (offs : list Z) : list Z :=
  header_bytes (Z.of_nat (length items)) ++ table_bytes items ps offs ++ data_bytes items ps.

Definition table_end (items : list zip_item) : Z := MPKG_HEADER_SIZE + Z.of_nat (length items) * MPKG_ENTRY_SIZE.

Lemma archive_bytes_length items ps offs : length ps = length items → length offs = length items →
  Z.of_nat (length (archive_bytes items ps offs)) = table_end items + Z.of_nat (length (data_bytes items ps)).
Proof.
  intros Hp Ho. unfold archive_bytes, table_end, MPKG_HEADER_SIZE, MPKG_ENTRY_SIZE. rewrite !length_app, table_bytes_length by done.
  change (length (header_bytes _)) with 16%nat. lia.
Qed.

Lemma zip_archive_ok items ps offs r : length ps = length items → Forall2 packed items ps → is_u32 (table_end items) →
  zip_offsets items ps (table_end items) = Some (offs, r) →
  zip_archive items ps offs r = Ret (archive_bytes items ps offs) ∧ r = Z.of_nat (length (archive_bytes items ps offs)) ∧
  length offs = length items ∧ Forall is_u32 offs ∧ is_u32 r.
Proof.
  intros Hp Hpk Ht Hz. destruct (zip_offsets_grow items ps offs (table_end items) r) as (Ho & Hr & Hos & Hrl); try done.
  rewrite archive_bytes_length by done. split_and!; try done. unfold zip_archive.
  unfold table_end, MPKG_HEADER_SIZE, MPKG_ENTRY_SIZE in *.
  rewrite filled_zero. rewrite filled_blit by (simpl length; lia). cbn [obind].
  do 2 (rewrite filled_write by (rewrite ?length_app; simpl length; lia); cbn [obind]). rewrite app_nil_l.
  replace ((MPKG_MAGIC ++ _) ++ _) with (header_bytes (Z.of_nat (length items))) by (unfold header_bytes; by rewrite app_assoc).
  assert (length (header_bytes (Z.of_nat (length items))) = 16%nat) as Hh by done.
  rewrite write_entries_ok by (try done; rewrite ?Hh; unfold MPKG_HEADER_SIZE, MPKG_ENTRY_SIZE; lia). cbn [obind].
  rewrite (write_payloads_ok items ps offs (16 + Z.of_nat (length items) * 148) r); try done; try (rewrite length_app, Hh, table_bytes_length by done; lia).
  rewrite filled_full; [by rewrite <- app_assoc|]. rewrite !length_app, Hh, table_bytes_length by done. lia.
Qed.

(** ** Finding an entry and its data *)

Lemma table_at items : ∀ ps offs i it p o, items !! i = Some it → ps !! i = Some p → offs !! i = Some o →
  ∃ pre post, table_bytes items ps offs = pre ++ entry_bytes it p o ++ post ∧ length pre = (148 * i)%nat.
Proof.
  induction items as [|it0 items IH]; intros [|p0 ps] [|o0 offs] i it p o Hi Hp Ho; try done. destruct i as [|i]; simpl in *.
  - injection Hi as ->. injection Hp as ->. injection Ho as ->. by exists [], (table_bytes items ps offs).
  - destruct (IH ps offs i it p o Hi Hp Ho) as (pre & post & -> & Hl). exists (entry_bytes it0 p0 o0 ++ pre), post.
    split; [by rewrite <- app_assoc|]. rewrite length_app, entry_bytes_length. lia.
Qed.

Lemma data_at items : ∀ ps offs running r i it p o, is_u32 running → Forall2 packed items ps →
  zip_offsets items ps running = Some (offs, r) →
  items !! i = Some it → ps !! i = Some p → offs !! i = Some o → zi_is_dir it = false →
  ∃ pre post, data_bytes items ps = pre ++ zp_bytes p ++ post ∧ o = running + Z.of_nat (length pre).
Proof.
  induction items as [|it0 items IH]; intros [|p0 ps] offs running r i it p o Hr Hpk Hz Hi Hp Ho Hd; try done.
  cbn [zip_offsets data_bytes] in *. apply Forall2_cons in Hpk as [Hpk1 Hpk]. unfold packed, file_bytes, is_u32 in *.
  destruct (zi_is_dir it0) eqn:Hd0.
  - destruct (zip_offsets items ps running) as [[offs1 r1]|] eqn:Hz1; simpl in Hz; [|done]. injection Hz as <- <-.
    destruct i as [|i]; [injection Hi as ->; by rewrite Hd in Hd0|]. by apply (IH ps offs1 running r1 i it p o).
  - destruct (Z.ltb_spec (u32 (4294967295 - running)) (zp_size p0)) as [|Hfit]; [done|].
    rewrite u32_small in Hfit by (unfold is_u32; lia). rewrite u32_small in Hz by (unfold is_u32; lia).
    destruct (zip_offsets items ps (running + zp_size p0)) as [[offs1 r1]|] eqn:Hz1; simpl in Hz; [|done]. injection Hz as <- <-.
    destruct i as [|i]; simpl in *.
    + injection Hi as ->. injection Hp as ->. injection Ho as ->. exists [], (data_bytes items ps). split; [done|simpl; lia].
    + destruct (IH ps offs1 (running + zp_size p0) r1 i it p o) as (pre & post & -> & ->); try done; [lia|].
      exists (zp_bytes p0 ++ pre), post. split; [by rewrite <- app_assoc|]. rewrite length_app. lia.
Qed.

Lemma slice_mid a b c off n : off = Z.of_nat (length a) → n = Z.of_nat (length b) → slice_of off n (a ++ b ++ c) = Ret b.
Proof.
  intros -> ->. rewrite slice_of_ok by (rewrite ?length_app; lia). unfold slice.
  by rewrite !Nat2Z.id, drop_app_length, take_app_length.
Qed.

Lemma rd_mid a n v c off : off = Z.of_nat (length a) → 0 ≤ v < 256 ^ Z.of_nat n → rd n (a ++ lebytes n v ++ c) off = v.
Proof.
  intros -> Hv. unfold rd. rewrite Nat2Z.id, drop_app_length, take_app_length' by (by rewrite length_lebytes). by apply num_lebytes.
Qed.

Lemma read_mid a v c off : off = Z.of_nat (length a) → is_u32 v → pkg_read_u32 (a ++ lebytes 4 v ++ c) off = Ret v.
Proof.
  intros Ho Hv. rewrite read_u32_ok.
  - f_equal. by apply rd_mid.
  - lia.
  - rewrite !length_app, length_lebytes. lia.
  - unfold slice. subst off. rewrite Nat2Z.id, drop_app_length. change (Z.to_nat 4) with (length (lebytes 4 v)).
    rewrite take_app_length. apply lebytes_u8.
Qed.

(** What a parsed entry says. *)
Definition entry_of (it : zip_item) (p : zip_payload) (off : Z) : pkg_entry :=
  mk_pkg_entry (take 127 (zi_rel_name it)) (entry_flags it) (zp_method p) (zp_raw_size p) (zp_size p) off.

Lemma c_string_pad name n : 0 ∉ name → c_string (name ++ replicate n 0) = name.
Proof.
  induction name as [|c name IH]; intros Hn; simpl; [by destruct n|].
  apply not_elem_of_cons in Hn as [Hc Hn]. rewrite (proj2 (Z.eqb_neq c 0)) by done. by rewrite IH.
Qed.

Lemma parse_entry_ok it p off : 0 ∉ zi_rel_name it → is_u32 (zp_method p) → is_u32 (zp_raw_size p) → is_u32 (zp_size p) → is_u32 off →
  pkg_parse_entry (entry_bytes it p off) = Ret (entry_of it p off).
Proof.
  intros Hn Hm Hr Hs Ho. unfold pkg_parse_entry, entry_bytes. set (name := take 127 (zi_rel_name it)).
  assert (length name ≤ 127)%nat as Hl by (subst name; rewrite length_take; lia).
  set (field := name ++ replicate (128 - length name) 0).
  assert (length field = 128%nat) as Hf by (subst field; rewrite length_app, length_replicate; lia).
  rewrite (app_assoc name). fold field. rewrite <- (app_nil_l (field ++ _)) at 1. rewrite slice_mid by (try done; by rewrite Hf). cbn [obind].
  assert (is_u32 (entry_flags it)) as Hfl by (unfold entry_flags; by destruct (zi_is_dir it)).
  rewrite read_mid by (try done; by rewrite Hf). cbn [obind].
  rewrite (app_assoc field). rewrite read_mid by (try done; rewrite length_app, Hf, length_lebytes; done). cbn [obind].
  rewrite (app_assoc (field ++ _)). rewrite read_mid by (try done; rewrite !length_app, Hf, !length_lebytes; done). cbn [obind].
  rewrite (app_assoc ((field ++ _) ++ _)). rewrite read_mid by (try done; rewrite !length_app, Hf, !length_lebytes; done). cbn [obind].
  rewrite (app_assoc (((field ++ _) ++ _) ++ _)), <- (app_nil_r (lebytes 4 off)).
  rewrite read_mid by (try done; rewrite !length_app, Hf, !length_lebytes; done). cbn [obind].
  unfold entry_of. do 2 f_equal. fold name. change (Z.to_nat (MPKG_NAME_SIZE - 1)) with 127%nat. unfold field.
  rewrite take_app_ge by done. rewrite take_replicate. apply c_string_pad. unfold name. by apply not_elem_take.
Qed.

(** ** Packing and unpacking the data of a file *)

(** The decoder gives [raw] back from the payload [p]. *)
Definition decodes (junk : list Z) (p : zip_payload) (raw : list Z) : Prop :=
  zp_raw_size p = Z.of_nat (length raw) ∧ zp_size p = Z.of_nat (length (zp_bytes p)) ∧
  (zp_method p = MPKG_METHOD_STORE ∧ zp_bytes p = raw ∨
   zp_method p = MPKG_METHOD_LZSS ∧ raw ≠ [] ∧ zp_size p < zp_raw_size p ∧ Z.of_nat (length raw) ≤ PKGLIB_ZIP_LZSS_MAX_BYTES ∧
   lzss_decompress (zp_bytes p) (Z.of_nat (length raw)) (Some junk) = Ret (Z.of_nat (length raw), raw)).

Lemma pack_payload_ok rok E use_lzss raw junk : length junk = 4113%nat →
  ∃ p, pack_payload rok E use_lzss raw = Ret p ∧ decodes junk p raw.
Proof.
  intros Hj. unfold pack_payload. set (stored := mk_payload _ _ _ _).
  assert (decodes junk stored raw) as Hst by (split; [done|]; split; [done|]; by left).
  destruct (use_lzss && _ && _) eqn:Hb; [|by exists stored].
  apply andb_true_iff in Hb as [[_ Hpos%Z.ltb_lt]%andb_true_iff Hmax%Z.leb_le]. unfold PKGLIB_ZIP_LZSS_MAX_BYTES in Hmax.
  destruct (compress_stream raw ltac:(lia) (can_alloc E) rok Hpos) as (r & -> & _ & Ho). cbn [obind].
  destruct r as [c|]; [|by exists stored]. destruct (Z.ltb_spec (Z.of_nat (length c)) (Z.of_nat (length raw))) as [Hlt|]; [|by exists stored].
  eexists. split; [done|]. split; [done|]. split; [done|]. right. cbn [zp_method zp_bytes zp_size zp_raw_size].
  split; [done|]. split; [by intros ->|]. split; [done|]. split; [done|].
  destruct (Ho c eq_refl) as (full & cur & H8 & Hcur & Hts & -> & _). by apply decompress_stream.
Qed.

Lemma payload_slice a b c off n : off = Z.of_nat (length a) → n = Z.of_nat (length b) → payload_bytes (a ++ b ++ c) off n = Ret b.
Proof.
  intros Ho Hn. unfold payload_bytes. destruct (Z.eqb_spec n 0) as [H0|_]; [|by apply slice_mid]. destruct b; [done|simpl in *; lia].
Qed.

(** Memory for the decoder: the output and the window. *)
Definition decoder_memory (E : env) (raw : list Z) : Prop :=
  can_alloc E (LZSS_N + LZSS_F - 1) = true ∧ can_alloc E (Z.of_nat (length raw)) = true.

Lemma entry_data_ok E it p off junk raw a c : decodes junk p raw → decoder_memory E raw → off = Z.of_nat (length a) →
  Z.of_nat (length (a ++ zp_bytes p ++ c)) < 4294967296 →
  ∃ seg, entry_data junk E (entry_of it p off) (a ++ zp_bytes p ++ c) = Ret (Some (seg, Z.of_nat (length raw))) ∧
    seg_is seg (Z.of_nat (length raw)) raw.
Proof.
  intros (Hr & Hs & Hm) [Hm1 Hm2] -> Hl. unfold entry_data, entry_of. cbn [pe_data_offset pe_compressed_size pe_uncompressed_size pe_method].
  rewrite !length_app in Hl. rewrite Hr, Hs.
  assert ((0 <? Z.of_nat (length (zp_bytes p))) &&
    ((Z.of_nat (length (a ++ zp_bytes p ++ c)) <=? Z.of_nat (length a)) ||
     (Z.of_nat (length (a ++ zp_bytes p ++ c)) <? u64 (Z.of_nat (length a) + Z.of_nat (length (zp_bytes p))))) = false) as ->.
  { rewrite u64_small by (unfold is_u64; lia). rewrite !length_app. apply andb_false_iff.
    destruct (Z.ltb_spec 0 (Z.of_nat (length (zp_bytes p)))) as [H0|]; [right|by left].
    rewrite orb_false_iff, Z.leb_gt, Z.ltb_ge. lia. }
  destruct Hm as [[-> Hb]|(-> & Hne & _ & _ & Hdec)].
  - cbn [MPKG_METHOD_STORE Z.eqb]. rewrite Hb, Z.eqb_refl. cbn [negb].
    rewrite payload_slice by done. cbn [obind]. eexists. split; [done|]. split; [done|by left].
  - cbn [MPKG_METHOD_LZSS MPKG_METHOD_STORE Z.eqb Pos.eqb]. rewrite (proj2 (Z.eqb_neq _ 0)) by (destruct raw; [done|simpl; lia]).
    rewrite Hm1, Hm2. cbn [negb andb]. rewrite payload_slice by done. cbn [obind]. rewrite Hdec. cbn [obind].
    rewrite Z.eqb_refl. eexists. split; [done|]. split; [done|by left].
Qed.

(** ** The round trip *)

(** What [pkglib_zip] packs: an item with the contents of its file. *)
Definition item_ok (it : zip_item) : Prop := 0 ∉ zi_rel_name it ∧ pkg_name_is_safe (take 127 (zi_rel_name it)) = true.

Definition packs (junk : list Z) (it : zip_item) (p : zip_payload) (raw : list Z) : Prop :=
  if zi_is_dir it then p = mk_payload [] 0 0 MPKG_METHOD_STORE else decodes junk p raw.

Lemma packs_packed junk it p raw : packs junk it p raw → packed it p.
Proof. unfold packs, packed. destruct (zi_is_dir it); [by intros ->|]. by intros (_ & ? & _). Qed.

Lemma packs_fields junk it p raw : packs junk it p raw → Z.of_nat (length (file_bytes it p)) < 4294967296 →
  is_u32 (zp_method p) ∧ is_u32 (zp_raw_size p) ∧ is_u32 (zp_size p).
Proof.
  unfold packs, file_bytes, is_u32. destruct (zi_is_dir it); [by intros ->|].
  intros (Hr & Hs & [[Hm Hb]|(Hm & _ & _ & Hl & _)]) Hlen; rewrite Hr, Hs, Hm in *; unfold MPKG_METHOD_STORE, MPKG_METHOD_LZSS, PKGLIB_ZIP_LZSS_MAX_BYTES in *;
    [rewrite Hb in *|]; lia.
Qed.

Lemma file_bytes_data items : ∀ ps i it p, items !! i = Some it → ps !! i = Some p →
  (length (file_bytes it p) ≤ length (data_bytes items ps))%nat.
Proof.
  induction items as [|it0 items IH]; intros [|p0 ps] [|i] it p Hi Hp; try done; cbn [data_bytes]; rewrite length_app; simpl in *.
  - injection Hi as ->. injection Hp as ->. lia.
  - specialize (IH ps i it p Hi Hp). lia.
Qed.

(** What is known of an archive that [zip_archive] built. *)
Record built (junk : list Z) (items : list zip_item) (raws : list (list Z)) (ps : list zip_payload) (offs : list Z) (r : Z) : Prop := {
  bt_packs : Forall3 (λ it raw p, packs junk it p raw) items raws ps;
  bt_items : Forall item_ok items;
  bt_some : items ≠ [];
  bt_table : is_u32 (table_end items);
  bt_offsets : zip_offsets items ps (table_end items) = Some (offs, r)
}.

Section archive.
  Context (junk : list Z) (items : list zip_item) (raws : list (list Z)) (ps : list zip_payload) (offs : list Z) (r : Z).
  Context (B : built junk items raws ps offs r).
  Abbreviation archive := (archive_bytes items ps offs).

Lemma built_packed : Forall2 packed items ps.
Proof.
  pose proof (bt_packs _ _ _ _ _ _ B) as H. clear B. induction H; constructor; [by eapply packs_packed|done].
Qed.

Lemma built_length : length ps = length items.
Proof. symmetry. eapply Forall3_length_lr, bt_packs, B. Qed.

Lemma built_archive : zip_archive items ps offs r = Ret archive ∧ r = Z.of_nat (length archive) ∧
  length offs = length items ∧ Forall is_u32 offs ∧ is_u32 r.
Proof. apply zip_archive_ok; [apply built_length|apply built_packed|apply B|apply B]. Qed.

Lemma built_end : r = table_end items + Z.of_nat (length (data_bytes items ps)).
Proof. destruct built_archive as (_ & Hr & Ho & _). rewrite Hr at 1. apply archive_bytes_length; [apply built_length|done]. Qed.

Lemma built_validate : pkg_validate_entry_table archive = Ret (Z.of_nat (length items)).
Proof.
  destruct built_archive as (_ & Hr & Ho & _ & Hr32). pose proof built_end as He. pose proof (bt_table _ _ _ _ _ _ B) as Ht.
  unfold is_u32, table_end, MPKG_HEADER_SIZE, MPKG_ENTRY_SIZE in *.
  unfold pkg_validate_entry_table. unfold archive_bytes at 1, header_bytes. rewrite <- !app_assoc, (app_assoc MPKG_MAGIC).
  rewrite read_mid by (done || (unfold is_u32; lia)). cbn [obind]. rewrite <- Hr. unfold MPKG_ENTRY_SIZE, MPKG_HEADER_SIZE.
  rewrite !u64_small by (unfold is_u64; lia).
  destruct (Z.eqb_spec (Z.of_nat (length items)) 0) as [H0|_]; [by destruct items; [destruct (bt_some _ _ _ _ _ _ B)|]|].
  rewrite (proj2 (Z.ltb_ge _ _)) by lia. done.
Qed.

Context (i : nat) (it : zip_item) (raw : list Z) (Hi : items !! i = Some it) (Hraw : raws !! i = Some raw).

Lemma built_item : ∃ p o, ps !! i = Some p ∧ offs !! i = Some o ∧ packs junk it p raw ∧ is_u32 o.
Proof.
  destruct built_archive as (_ & _ & Ho & Hos & _). pose proof (lookup_lt_Some _ _ _ Hi) as Hlt.
  destruct (lookup_lt_is_Some_2 ps i) as [p Hp]; [rewrite built_length; lia|].
  destruct (lookup_lt_is_Some_2 offs i) as [o Hoi]; [lia|]. exists p, o. split_and!; try done.
  - by eapply (Forall3_lookup_lmr _ _ _ _ _ _ _ _ (bt_packs _ _ _ _ _ _ B)).
  - by apply (proj1 (Forall_lookup _ _) Hos _ _ Hoi).
Qed.

(** The [i]-th entry of an archive is read where the loop of [pkglib_unzip]
    reads it. *)
Lemma built_entry p o : ps !! i = Some p → offs !! i = Some o → packs junk it p raw → is_u32 o →
  (let* raw := slice_of (MPKG_HEADER_SIZE + Z.of_nat i * MPKG_ENTRY_SIZE) MPKG_ENTRY_SIZE archive in
   pkg_parse_entry raw) = Ret (entry_of it p o).
Proof.
  intros Hp Ho Hpk Hou. destruct (table_at items ps offs i it p o) as (pre & post & Htab & Hpre); try done.
  unfold archive_bytes. rewrite Htab, <- !app_assoc, app_assoc. rewrite slice_mid.
  - cbn [obind]. pose proof (file_bytes_data items ps i it p Hi Hp) as Hfb.
    destruct built_archive as (_ & _ & _ & _ & Hr). pose proof built_end as He. unfold is_u32 in Hr.
    assert (0 ≤ table_end items) by apply B.
    destruct (packs_fields junk it p raw) as (? & ? & ?); [done|lia|].
    apply parse_entry_ok; try done. by apply (proj1 (Forall_lookup _ _) (bt_items _ _ _ _ _ _ B) _ _ Hi).
  - rewrite length_app, Hpre. change (length (header_bytes _)) with 16%nat. unfold MPKG_HEADER_SIZE, MPKG_ENTRY_SIZE. lia.
  - by rewrite entry_bytes_length.
Qed.

Lemma built_data E p o : ps !! i = Some p → offs !! i = Some o → packs junk it p raw → zi_is_dir it = false → decoder_memory E raw →
  ∃ seg, entry_data junk E (entry_of it p o) archive = Ret (Some (seg, Z.of_nat (length raw))) ∧ seg_is seg (Z.of_nat (length raw)) raw.
Proof.
  intros Hp Ho Hpk Hd HE. unfold packs in Hpk. rewrite Hd in Hpk. destruct built_archive as (_ & Hr & Hol & _ & Hr32).
  destruct (data_at items ps offs (table_end items) r i it p o) as (pre & post & Hdata & Hoo); try done; [apply B|apply built_packed|apply B|].
  pose proof (table_bytes_length items ps offs built_length Hol) as Htl.
  rewrite Hr in Hr32. unfold archive_bytes in *. rewrite Hdata, !app_assoc in *. rewrite <- (app_assoc _ (zp_bytes p)) in *.
  apply entry_data_ok; try done; [|apply Hr32].
  rewrite !length_app, Htl. change (length (header_bytes _)) with 16%nat. rewrite Hoo. unfold table_end, MPKG_HEADER_SIZE, MPKG_ENTRY_SIZE. lia.
Qed.
End archive.

(** The payload loop of [pkglib_zip] on the contents of an item's file. *)
Definition packs_as (rok : Z → bool) (E : env) (use_lzss : bool) (it : zip_item) (raw : list Z) (p : zip_payload) : Prop :=
  if zi_is_dir it then p = mk_payload [] 0 0 MPKG_METHOD_STORE else pack_payload rok E use_lzss raw = Ret p.

Lemma packed_built rok E use_lzss junk items raws ps offs r : Forall3 (packs_as rok E use_lzss) items raws ps →
  Forall item_ok items → items ≠ [] → is_u32 (table_end items) → length junk = 4113%nat →
  zip_offsets items ps (table_end items) = Some (offs, r) → built junk items raws ps offs r.
Proof.
  intros Hpk Hok Hne Ht Hj Hz. split; try done. eapply Forall3_impl; [exact Hpk|]. intros it raw p. unfold packs, packs_as.
  destruct (zi_is_dir it); [done|]. intros Hp. destruct (pack_payload_ok rok E use_lzss raw junk Hj) as (p' & Hp' & ?).
  rewrite Hp in Hp'. by injection Hp' as ->.
Qed.

(** Unpacking undoes packing. Take the archive that [pkglib_zip] builds
    from up to as many items as the table can hold, each file packed by
    compression or as it is: the table is valid and counts the items, and for
    every item the entry that the loop of [pkglib_unzip] parses has the item's
    name (cut to 127 characters) and kind, and from a file's entry the data
    that is written out is the file's contents. *)
Theorem archive_roundtrip rok E E' use_lzss junk items raws ps offs r :
  Forall3 (packs_as rok E use_lzss) items raws ps →
  Forall item_ok items → items ≠ [] → is_u32 (table_end items) → length junk = 4113%nat → (∀ n, can_alloc E' n = true) →
  zip_offsets items ps (table_end items) = Some (offs, r) →
  ∃ archive, zip_archive items ps offs r = Ret archive ∧ Z.of_nat (length archive) = r ∧
    pkg_validate_entry_table archive = Ret (Z.of_nat (length items)) ∧
    ∀ i it raw, items !! i = Some it → raws !! i = Some raw → ∃ entry,
      (let* bytes := slice_of (MPKG_HEADER_SIZE + Z.of_nat i * MPKG_ENTRY_SIZE) MPKG_ENTRY_SIZE archive in pkg_parse_entry bytes) = Ret entry ∧
      pe_name entry = take 127 (zi_rel_name it) ∧ pe_flags entry = entry_flags it ∧
      (zi_is_dir it = false → ∃ seg, entry_data junk E' entry archive = Ret (Some (seg, Z.of_nat (length raw))) ∧
         default [] seg = raw).
Proof.
  intros Hpk Hok Hne Ht Hj HE Hz. pose proof (packed_built rok E use_lzss junk items raws ps offs r Hpk Hok Hne Ht Hj Hz) as B.
  destruct (built_archive _ _ _ _ _ _ B) as (Ha & Hr & _). exists (archive_bytes items ps offs).
  split; [done|]. split; [done|]. split; [by eapply built_validate|]. intros i it raw Hi Hraw.
  destruct (built_item _ _ _ _ _ _ B i it raw Hi Hraw) as (p & o & Hp & Ho & Hpi & Hou). exists (entry_of it p o).
  split; [by eapply built_entry|]. split; [done|]. split; [done|]. intros Hd.
  destruct (built_data _ _ _ _ _ _ B i it raw Hi E' p o Hp Ho Hpi Hd) as (seg & -> & _ & [->|[-> ->]]); by eexists.
Qed.

Definition demo_files : list zip_item := [mk_item (txt "bin") (txt "0:/src/bin") true; mk_item (txt "bin/a") (txt "0:/src/bin/a") false; mk_item (txt "b") (txt "0:/src/b") false].
Definition demo_raws : list (list Z) := [[]; demo_data; txt "b"].
Definition demo_packs : list zip_payload :=
  [mk_payload [] 0 0 MPKG_METHOD_STORE;
   mk_payload [87; 97; 98; 99; 238; 243; 100; 238; 242; 120] 10 16 MPKG_METHOD_LZSS;
   mk_payload (txt "b") 1 1 MPKG_METHOD_STORE].
Definition all_memory : env := mk_env (λ _, true) true [].

Lemma archive_roundtrip_witness : ∃ archive entry seg,
  zip_archive demo_files demo_packs [0; 460; 470] 471 = Ret archive ∧
  pkg_validate_entry_table archive = Ret 3 ∧
  (let* bytes := slice_of (16 + 1 * 148) 148 archive in pkg_parse_entry bytes) = Ret entry ∧
  pe_name entry = txt "bin/a" ∧
  entry_data (replicate 4113 0) all_memory entry archive = Ret (Some (seg, 16)) ∧ default [] seg = demo_data.
Proof.
  destruct (archive_roundtrip (λ _, true) all_memory all_memory true (replicate 4113 0) demo_files demo_raws demo_packs [0; 460; 470] 471)
    as (archive & Ha & _ & Hv & He).
  - repeat constructor; vm_compute; reflexivity.
  - repeat constructor; apply (bool_decide_unpack _); vm_compute; reflexivity.
  - discriminate.
  - split; [discriminate|reflexivity].
  - apply length_replicate.
  - reflexivity.
  - vm_compute. reflexivity.
  - destruct (He 1%nat (mk_item (txt "bin/a") (txt "0:/src/bin/a") false) demo_data eq_refl eq_refl) as (entry & Hp & Hn & _ & Hd).
    destruct (Hd eq_refl) as (seg & Hs & Hdef). exists archive, entry, seg. exact (conj Ha (conj Hv (conj Hp (conj Hn (conj Hs Hdef))))).
Defined.

(** ** Safe names *)

Lemma tokens_head r : ∀ acc, acc ≠ [] → ∃ w r', tokens acc r = (acc ++ w) :: tokens [] r' ∧ 47 ∉ w ∧
  (r = w ∧ r' = [] ∨ r = w ++ 47 :: r').
Proof.
  induction r as [|c r IH]; intros acc Hacc; cbn [tokens].
  - exists [], []. rewrite app_nil_r. destruct acc; [done|]. split; [done|]. split; [apply not_elem_of_nil|by left].
  - destruct (Z.eqb_spec c 47) as [->|Hc].
    + exists [], r. rewrite app_nil_r. destruct acc; [done|]. split; [done|]. split; [apply not_elem_of_nil|by right].
    + destruct (IH (acc ++ [c])) as (w & r' & -> & Hw & Hr); [by destruct acc|]. exists (c :: w), r'.
      rewrite <- app_assoc. split; [done|]. split; [by apply not_elem_of_cons|]. destruct Hr as [[-> ->] | ->]; [by left|by right].
Qed.

Definition DOTDOT : list Z := [46; 46].

Lemma safe_loop_ok p : 0 ∉ p →
  (∀ prev, prev = None ∨ prev = Some 47 → safe_loop prev p = true ↔ DOTDOT ∉ tokens [] p) ∧
  (∀ q acc, q ≠ 47 → acc ≠ [] → safe_loop (Some q) p = true ↔ DOTDOT ∉ tail (tokens acc p)).
Proof.
  induction p as [|c r IH]; intros H0.
  { split; [|intros q [|x acc] Hq Ha; [done|]]; intros; (split; [intros _; apply not_elem_of_nil|done]). }
  apply not_elem_of_cons in H0 as [Hc0 H0]. destruct (IH H0) as [IH1 IH2]. split.
  - intros prev Hprev. assert (match prev with None => true | Some q => q =? 47 end = true) as Hstart by (by destruct Hprev as [-> | ->]).
    cbn [safe_loop tokens]. rewrite Hstart, andb_true_r. destruct (Z.eqb_spec c 47) as [->|Hc].
    { cbn [Z.eqb Pos.eqb andb]. apply IH1. by right. }
    cbn [app]. destruct (tokens_head r [c]) as (w & r' & Htok & Hw & Hr); [done|].
    specialize (IH2 c [c] Hc ltac:(done)). rewrite Htok in *. cbn [tail] in IH2. rewrite not_elem_of_cons.
    destruct ((c =? 46) && (nth 0 r 0 =? 46) && ((nth 1 r 0 =? 47) || (nth 1 r 0 =? 0))) eqn:Hd.
    + split; [done|]. intros [Hne _]. exfalso. apply Hne. rewrite !andb_true_iff, !Z.eqb_eq in Hd. destruct Hd as [[-> H1] H2].
      destruct r as [|x r]; [done|]. simpl in H1. subst x. simpl in H2.
      destruct w as [|y w]; [destruct Hr as [[? _] | Hr]; [done|by injection Hr]|].
      destruct Hr as [[Hr _] | Hr]; injection Hr as <- ->; [destruct w as [|z w]|destruct w as [|z w]]; try done; exfalso.
      * simpl in H2. rewrite orb_true_iff, !Z.eqb_eq in H2; destruct H2 as [-> | ->]; [apply Hw; set_solver|apply H0; set_solver].
      * simpl in H2. rewrite orb_true_iff, !Z.eqb_eq in H2; destruct H2 as [-> | ->]; [apply Hw; set_solver|apply H0; set_solver].
    + rewrite IH2. split; [|by intros [_ ?]]. intros Ht. split; [|done]. intros Heq. injection Heq as <- <-.
      cbn in Hd. destruct Hr as [[-> ->] | ->]; by cbn in Hd.
  - intros q acc Hq Ha. cbn [safe_loop tokens]. rewrite (proj2 (Z.eqb_neq q 47)) by done. rewrite andb_false_r. cbn [andb].
    destruct (Z.eqb_spec c 47) as [->|Hc].
    + destruct acc; [done|]. cbn [tail]. apply IH1. by right.
    + apply IH2; [done|]. by destruct acc.
Qed.

(** C36. The names that [pkg_extract_entry] accepts are exactly the relative
    ones without a component "..": no entry of an archive can name a file
    above the target directory. *)
Theorem safe_name_correct name : 0 ∉ name →
  pkg_name_is_safe name = true ↔ name ≠ [] ∧ head name ≠ Some 47 ∧ DOTDOT ∉ tokens [] name.
Proof.
  intros H0. unfold pkg_name_is_safe. destruct name as [|c r]; [naive_solver|]. cbn [nth head].
  rewrite (proj2 (Z.eqb_neq c 0)) by (intros ->; apply H0; by left).
  destruct (Z.eqb_spec c 47) as [->|Hc]; [naive_solver|].
  rewrite (proj1 (safe_loop_ok (c :: r) H0) None) by (by left). naive_solver.
Qed.

Lemma safe_name_correct_witness : pkg_name_is_safe (txt "a/../b") = false ∧ pkg_name_is_safe (txt "a..b/.../c") = true.
Proof.
  split.
  - apply not_true_is_false. intros H. apply safe_name_correct in H; [|apply (bool_decide_unpack _); vm_compute; reflexivity].
    destruct H as (_ & _ & H). apply H. apply (bool_decide_unpack _). vm_compute. reflexivity.
  - apply safe_name_correct; [apply (bool_decide_unpack _); vm_compute; reflexivity|].
    split; [discriminate|]. split; [discriminate|]. apply (bool_decide_unpack _). vm_compute. reflexivity.
Defined.

(** ** Archives of any bytes *)

Lemma decompress_any inp cap window : 0 ≤ cap → (∀ junk, window = Some junk → length junk = 4113%nat) →
  ∃ n out, lzss_decompress inp cap window = Ret (n, out) ∧ n = Z.of_nat (length out).
Proof.
  intros Hc Hw. destruct window as [junk|].
  - destruct (decompress_total inp junk cap Hc (Hw _ eq_refl)) as (n & out & ? & ? & _). by exists n, out.
  - exists 0, []. unfold lzss_decompress. by destruct (_ || _).
Qed.

Definition entry_range (e : pkg_entry) : Prop :=
  is_u32 (pe_flags e) ∧ is_u32 (pe_method e) ∧ is_u32 (pe_uncompressed_size e) ∧ is_u32 (pe_compressed_size e) ∧ is_u32 (pe_data_offset e).

Lemma payload_inside archive off n : 0 ≤ off → 0 ≤ n → (n = 0 ∨ off + n ≤ Z.of_nat (length archive)) →
  ∃ b, payload_bytes archive off n = Ret b ∧ Z.of_nat (length b) = n.
Proof.
  intros Ho Hn Hl. unfold payload_bytes. destruct (Z.eqb_spec n 0) as [->|Hne]; [by exists []|].
  rewrite slice_of_ok by lia. eexists. split; [done|]. apply length_slice; lia.
Qed.

Lemma entry_data_total E junk e archive : length junk = 4113%nat → entry_range e → Z.of_nat (length archive) < 4294967296 →
  ∃ d, entry_data junk E e archive = Ret d ∧
    ∀ seg len, d = Some (seg, len) → seg_is seg len (default [] seg) ∧ len = pe_uncompressed_size e.
Proof.
  intros Hj (_ & _ & Hu & Hc & Ho) Hl. unfold is_u32, entry_data in *. set (usize := pe_uncompressed_size e) in *. set (csize := pe_compressed_size e) in *.
  set (off := pe_data_offset e) in *. rewrite u64_small by (unfold is_u64; lia).
  destruct ((0 <? csize) && _) eqn:Hb; [by exists None|].
  destruct (payload_inside archive off csize) as (b & Hp & Hbl); [lia|lia| |].
  { destruct (Z.ltb_spec 0 csize); [right|lia]. cbn [andb] in Hb. apply orb_false_iff in Hb as [_ Hb%Z.ltb_ge]. lia. }
  rewrite !Hp. cbn [obind]. destruct (pe_method e =? MPKG_METHOD_STORE).
  { destruct (Z.eqb_spec usize csize) as [Heq|]; [|by exists None]. cbn [negb]. eexists. split; [done|]. intros seg len [= <- <-].
    simpl. split; [|done]. split; [lia|by left]. }
  destruct (pe_method e =? MPKG_METHOD_LZSS); [|by exists None].
  destruct (Z.eqb_spec usize 0) as [H0|Hne]; cbn [negb andb obind].
  { eexists. split; [done|]. intros seg len [= <- <-]. simpl. split; [|done]. split; [done|by right]. }
  destruct (can_alloc E usize); cbn [negb]; [|by exists None].
  destruct (decompress_any b usize (if can_alloc E (LZSS_N + LZSS_F - 1) then Some junk else None)) as (n & out & -> & Hn);
    [lia|by destruct (can_alloc _ _); intros ? [= <-]|]. cbn [obind].
  destruct (Z.eqb_spec n usize) as [Heq|]; cbn [negb]; [|by exists None]. eexists. split; [done|]. intros seg len [= <- <-].
  simpl. split; [|done]. split; [lia|by left].
Qed.

Lemma parse_entry_total raw : length raw = 148%nat → Forall is_u8 raw → ∃ e, pkg_parse_entry raw = Ret e ∧ entry_range e ∧
  (length (pe_name e) ≤ 127)%nat ∧ 0 ∉ pe_name e.
Proof.
  intros Hl Hu. unfold pkg_parse_entry, MPKG_NAME_SIZE. rewrite slice_of_ok by lia. cbn [obind].
  assert (∀ k, 0 ≤ k → k + 4 ≤ 148 → pkg_read_u32 raw k = Ret (rd 4 raw k)) as Hrd.
  { intros k H0 Hk. apply read_u32_ok; [lia|lia|]. unfold slice. by apply Forall_take, Forall_drop. }
  rewrite !Hrd by lia. cbn [obind]. eexists. split; [done|]. split.
  { unfold entry_range, is_u32. cbn [pe_flags pe_method pe_uncompressed_size pe_compressed_size pe_data_offset].
    split_and!; (apply (rd_range 4 raw); done). }
  cbn [pe_name]. set (field := take _ _). assert (length field ≤ 127)%nat as Hf by (subst field; rewrite length_take; lia).
  clearbody field. clear -Hf. revert Hf. induction field as [|c field IH]; simpl; intros Hf; [split; [lia|apply not_elem_of_nil]|].
  destruct (Z.eqb_spec c 0); [split; [simpl; lia|apply not_elem_of_nil]|]. destruct IH as [IH1 IH2]; [lia|].
  simpl. split; [|by apply not_elem_of_cons]. assert (length (c_string field) ≤ length field)%nat; [|lia].
  clear. induction field as [|c field IH]; simpl; [lia|]. destruct (c =? 0); simpl; lia.
Qed.

(** C34. Reading an archive is safe whatever bytes it has: the table check
    returns, every entry it lets through lies inside the archive and parses
    into 32-bit fields and a NUL-terminated name, and taking an entry's data
    out returns, either nothing or a segment of the archive or the heap that
    is as long as the entry says. *)
Theorem archive_reads_safe E junk archive : Forall is_u8 archive → 16 ≤ Z.of_nat (length archive) < 4294967296 → length junk = 4113%nat →
  ∃ n, pkg_validate_entry_table archive = Ret n ∧ ∀ i, 0 ≤ i < n → ∃ entry,
    (let* raw := slice_of (MPKG_HEADER_SIZE + i * MPKG_ENTRY_SIZE) MPKG_ENTRY_SIZE archive in pkg_parse_entry raw) = Ret entry ∧
    entry_range entry ∧ (length (pe_name entry) ≤ 127)%nat ∧ 0 ∉ pe_name entry ∧
    ∃ d, entry_data junk E entry archive = Ret d ∧
      ∀ seg len, d = Some (seg, len) → seg_is seg len (default [] seg) ∧ len = pe_uncompressed_size entry.
Proof.
  intros Hu Hl Hj. unfold pkg_validate_entry_table, MPKG_HEADER_SIZE, MPKG_ENTRY_SIZE.
  rewrite read_u32_ok by (lia || (unfold slice; by apply Forall_take, Forall_drop)). cbn [obind].
  pose proof (rd_range 4 archive 12 Hu) as Hn. set (n := rd 4 archive 12) in *. clearbody n. change (256 ^ Z.of_nat 4) with 4294967296 in Hn.
  rewrite !u64_small by (unfold is_u64; lia). destruct ((n =? 0) || _) eqn:Hb; [exists 0; split; [done|lia]|].
  apply orb_false_iff in Hb as [_ Hb%Z.ltb_ge]. exists n. split; [done|]. intros i Hi.
  rewrite slice_of_ok by lia. cbn [obind].
  destruct (parse_entry_total (slice (16 + i * 148) 148 archive)) as (e & -> & He & Hname & H0).
  { pose proof (length_slice (16 + i * 148) 148 archive ltac:(lia) ltac:(lia) ltac:(lia)). lia. }
  { unfold slice. by apply Forall_take, Forall_drop. }
  exists e. split_and!; try done; try apply He. apply entry_data_total; [done|done|lia].
Qed.

Lemma archive_reads_safe_witness : ∃ n, pkg_validate_entry_table (txt "MPKG0001" ++ replicate 2000 1) = Ret n.
Proof.
  destruct (archive_reads_safe all_memory (replicate 4113 0) (txt "MPKG0001" ++ replicate 2000 1)) as (n & Hn & _).
  - apply (bool_decide_unpack _). vm_compute. reflexivity.
  - split; [discriminate|reflexivity].
  - apply length_replicate.
  - exists n. exact Hn.
Defined.

End pkgspec.
