(* ===== verification/PkgFile.v ===== *)
(** * Archives on a volume

    [pkglib_info] and [pkglib_unzip] on a sound volume: the directories a target path goes through ([dir_chain]), a file
    written beside others ([holds_beside]), and the extraction of an archive
    entry by entry. *)

From S2P Require Import Prelude Bytes CString Lzss Time Net Block Extent FsText Fs FsDisk FsFile FsInv FsVol FsOps FsSpec FsRead FsMount FsSafe FsClaims Pkg PkgSpec.
Import fstext minimafs fsdisk fsfile fsinv fsvol fsops fsspec fsread fsmount fssafe fsclaims pkg pkgspec Bytes.

Open Scope c_scope.

Module pkgfile.

(** ** Paths *)

Definition drive_path (dn : nat) (local : list Z) : list Z := uint_text (Z.of_nat dn) ++ 58 :: local.

(** "/c1/c2/.../cn" *)
Definition path_of (cs : list (list Z)) : list Z := cs ≫= λ c, 47 :: c.

Definition component (c : list Z) : Prop := c ≠ [] ∧ 47 ∉ c ∧ (length c < 64)%nat.

Lemma path_of_snoc cs c : path_of (cs ++ [c]) = path_of cs ++ 47 :: c.
Proof. unfold path_of. rewrite bind_app. simpl. by rewrite app_nil_r. Qed.

Lemma split_path cs c : component c → (length (path_of cs) < MINIMAFS_MAX_PATH)%nat →
  minimafs_split_local_path (path_of (cs ++ [c])) = Ret (path_of cs, c).
Proof.
  intros (_ & Hc & Hl) Hp. rewrite path_of_snoc. apply split_local_path_spec; [done| |done]. unfold MINIMAFS_MAX_FILENAME. lia.
Qed.

Lemma names_path dn cs c : (dn < MAX_DRIVES)%nat → component c → (length (path_of (cs ++ [c])) < MINIMAFS_MAX_PATH)%nat →
  names dn (drive_path dn (path_of (cs ++ [c]))) (path_of (cs ++ [c])) (path_of cs) c.
Proof.
  intros Hd Hc Hl. split; [done|]. split; [done|]. split; [done|]. apply split_path; [done|].
  rewrite path_of_snoc, length_app in Hl. lia.
Qed.

Lemma drive_digits_not c n : c < 48 ∨ 57 < c → c ∉ uint_text (Z.of_nat n).
Proof.
  intros Hc Hin. assert (Forall (λ c, 48 ≤ c ≤ 57) (uint_text (Z.of_nat n))) as Hd.
  { unfold uint_text. case_if; [by repeat constructor|]. apply Forall_reverse, uint_loop_digits. lia. }
  pose proof (proj1 (Forall_forall _ _) Hd c Hin) as Hd'. cbv beta in Hd'. lia.
Qed.

Lemma chr_drive dn local : chr 58 (drive_path dn local) = Some (58 :: local).
Proof.
  unfold drive_path. assert (58 ∉ uint_text (Z.of_nat dn)) as H by (apply drive_digits_not; lia).
  induction (uint_text (Z.of_nat dn)) as [|x l IH]; [done|]. apply not_elem_of_cons in H as [Hx H].
  cbn [app chr]. rewrite (proj2 (Z.eqb_neq x 58)) by done. by apply IH.
Qed.

Lemma path_local_length dn cs c : length (drive_path dn (path_of (cs ++ [c]))) = (length (drive_path dn (path_of cs)) + S (length c))%nat.
Proof. rewrite path_of_snoc. unfold drive_path. rewrite !length_app. simpl. rewrite length_app. simpl. lia. Qed.

Lemma parent_of_path dn cs c n : component c → (length (drive_path dn (path_of (cs ++ [c]))) < n)%nat →
  pkg_parent_dir (drive_path dn (path_of (cs ++ [c]))) n =
    Some (drive_path dn (match cs with [] => [47] | _ => path_of cs end)).
Proof.
  intros (_ & Hc & _) Hl. rewrite path_local_length in Hl. unfold pkg_parent_dir. rewrite chr_drive.
  assert (nth 1 (58 :: path_of (cs ++ [c])) 0 = 47) as -> by (by destruct cs). cbn [negb Z.eqb Pos.eqb].
  assert (drive_path dn (path_of (cs ++ [c])) = drive_path dn (path_of cs) ++ 47 :: c) as Hp.
  { rewrite path_of_snoc. unfold drive_path. by rewrite <- app_assoc. }
  assert (ptr_diff (58 :: path_of (cs ++ [c])) (drive_path dn (path_of (cs ++ [c]))) = length (uint_text (Z.of_nat dn))) as ->.
  { unfold ptr_diff, drive_path. rewrite length_app. lia. }
  rewrite Hp, rchr_last by done.
  destruct cs as [|c0 cs].
  - change (path_of []) with (@nil Z) in *. unfold drive_path in *. set (u := uint_text _) in *.
    rewrite length_app in *. cbn [length] in *. rewrite Nat.eqb_refl, (proj2 (Nat.leb_gt _ _)) by lia. f_equal.
    replace ((u ++ [58]) ++ 47 :: c) with ((u ++ [58; 47]) ++ c) by by rewrite <- !app_assoc.
    rewrite take_app_length' by (rewrite length_app; simpl; lia). done.
  - assert (length (uint_text (Z.of_nat dn)) + 1 < length (drive_path dn (path_of (c0 :: cs))))%nat as Hlt.
    { unfold drive_path, path_of. rewrite bind_cons, length_app. simpl. lia. }
    set (p := drive_path dn (path_of (c0 :: cs))) in *. clearbody p.
    rewrite (proj2 (Nat.eqb_neq _ _)) by lia. rewrite (proj2 (Nat.leb_gt _ _)) by lia. by rewrite take_app_length.
Qed.

(** ** A file put beside others *)

Lemma find_insert_ne l c e i : e_name e ≠ c → (∀ y, l !! i = Some y → e_name y ≠ c) → find_entry (<[i := e]> l) c = find_entry l c.
Proof.
  intros He. revert i. induction l as [|w l IH]; intros i Hi; [done|]. destruct i as [|i]; simpl.
  - by rewrite !bool_decide_eq_false_2 by (done || by apply Hi).
  - case_bool_decide; [done|]. by rewrite (IH i).
Qed.

Lemma find_snoc_ne l c e : e_name e ≠ c → find_entry (l ++ [e]) c = find_entry l c.
Proof. intros He. induction l as [|w l IH]; cbn [app find_entry]; [by rewrite bool_decide_eq_false_2|]. by rewrite IH. Qed.

(** The other names of the folder are found where they were. *)
Lemma find_put_ne c nm e d : c ≠ nm → e_name e = nm → find_entry (entries (put_entry nm e d)) c = find_entry (entries d) c ∧
  ∀ i, find_entry (entries d) c = Some i → entries (put_entry nm e d) !! i = entries d !! i.
Proof.
  intros Hne He. unfold put_entry. destruct (find_entry (entries d) nm) as [j|] eqn:Hj; simpl.
  - destruct (find_entry_some _ _ _ Hj) as (y & Hy & Hname). split; [apply find_insert_ne; [congruence|]; intros z Hz; congruence|].
    intros i Hi. destruct (find_entry_some _ _ _ Hi) as (z & Hz & Hzn). apply list_lookup_insert_ne. intros ->. congruence.
  - split; [apply find_snoc_ne; congruence|]. intros i Hi. destruct (find_entry_some _ _ _ Hi) as (z & Hz & _).
    apply lookup_app_l. by eapply lookup_lt_Some.
Qed.

Lemma find_entry_other c nm e d i x : c ≠ nm → e_name e = nm → find_entry (entries d) c = Some i → entries d !! i = Some x →
  find_entry (entries (put_entry nm e d)) c = Some i ∧ entries (put_entry nm e d) !! i = Some x.
Proof. intros Hne He Hf Hi. destruct (find_put_ne c nm e d Hne He) as [-> Hl]. by rewrite Hl. Qed.

Lemma folder_at_beside dirs root total q d nm e dq : dirs_ok root total dirs → dirs !! f_block_offset d = Some d → is_dir e = false → file_named nm d →
  folder_at dirs root q = Some dq →
  folder_at (<[f_block_offset d := put_entry nm e d]> dirs) root q = Some (if decide (f_block_offset dq = f_block_offset d) then put_entry nm e d else dq) ∧
  (f_block_offset dq = f_block_offset d → dq = d).
Proof.
  intros Hok Hd He Hf Hq. unfold folder_at in *. rewrite folder_block_walk in *. rewrite (walk_dirs_put _ _ d) by done.
  destruct (walk_dirs dirs root (tokens [] q)) as [b|]; [|done]. simpl in *. destruct (do_good _ _ _ Hok b dq Hq) as [_ <-].
  destruct (decide _) as [Heq|Hne]; [rewrite Heq, lookup_insert_eq; split; [done|]; rewrite Heq in Hq; intros _; congruence|].
  by rewrite lookup_insert_ne by congruence.
Qed.

(** Room in the folder for [n] more entries. *)
Definition room_for (n : nat) (d : minimafs_folder_desc) : Prop :=
  (length (path d) + 118 * (n + length (entries d)) ≤ 3940)%nat.

Lemma put_entry_room n nm e d : room_for (S n) d → room_for n (put_entry nm e d).
Proof.
  unfold room_for, put_entry. intros Hr. destruct (find_entry _ _); simpl; rewrite ?length_insert, ?length_app; simpl; lia.
Qed.

Lemma file_named_put nm c e d : e_name e = nm → is_dir e = false → file_named c d → file_named c (put_entry nm e d).
Proof.
  intros Hn He Hf i x Hi Hx. destruct (decide (c = nm)) as [->|Hne].
  - destruct (find_entry_put nm e d Hn) as (j & Hj & Hej). rewrite Hi in Hj. injection Hj as <-. rewrite Hx in Hej. by injection Hej as ->.
  - destruct (find_put_ne c nm e d Hne Hn) as [Hfe Hl]. rewrite Hfe in Hi. rewrite Hl in Hx by done. by eapply Hf.
Qed.

Section volume.
  Context {D : Type} `{BlockDriver D}.
  Abbreviation fsys := (fsys (D := D)).
  Context (E : env) (HE : roomy E) (dn dev : nat) (Hdn : (dn < MAX_DRIVES)%nat).
  Abbreviation root_of := (root_of dn).
  Abbreviation volume := (volume dn dev).
  Abbreviation drive_path := (drive_path dn).

(** ** The target directory *)

Lemma resolve_drive_ok local dirs (s : fsys) : (length local < MINIMAFS_MAX_PATH)%nat → volume dirs s →
  resolve_path (drive_path local) s = Ret (Some (dn, local), s).
Proof.
  intros Hl Hv. unfold resolve_path. rewrite bind_gets. rewrite (bind_lift _ _ s (Some (Z.of_nat dn, local))).
  - unfold get_drive, MAX_DRIVES in *. rewrite (proj2 (Z.leb_gt _ _)) by (unfold MINIMAFS_MAX_DRIVES; lia).
    rewrite bind_gets, Nat2Z.id, (v_mounted _ _ _ _ Hv). done.
  - apply parse_path_number; [|done]. unfold MINIMAFS_MAX_DRIVES, MAX_DRIVES in *. lia.
Qed.

(** Each component is a directory in the one before, and the first entry of
    its name. *)
Definition dir_chain (dirs : dirmap) (root : Z) (cs : list (list Z)) : Prop :=
  ∀ a c b, cs = a ++ c :: b → component c ∧ ∃ d i e, folder_at dirs root (path_of a) = Some d ∧
    find_entry (entries d) c = Some i ∧ entries d !! i = Some e ∧ is_dir e = true.

Lemma chain_take dirs root a b : dir_chain dirs root (a ++ b) → dir_chain dirs root a.
Proof. intros Hc x c y ->. apply (Hc x c (y ++ b)). by rewrite <- app_assoc. Qed.

Lemma is_dir_ok dirs s cs : volume dirs s → dir_chain dirs (root_of s) cs → (length (path_of cs) < MINIMAFS_MAX_PATH)%nat →
  minimafs_is_dir E (drive_path (path_of cs)) s = Ret (true, s).
Proof.
  intros Hv Hc Hl. unfold minimafs_is_dir. rewrite (bind_eq _ _ s _ s) by (by eapply resolve_drive_ok). cbv beta iota.
  destruct cs as [|c cs _] using rev_ind; [done|].
  destruct (Hc cs c []) as (Hcomp & d & i & e & Hd & Hf & Hi & Hdir); [done|].
  assert (is_root (path_of (cs ++ [c])) = false) as ->.
  { rewrite path_of_snoc. destruct Hcomp as [Hne _]. apply not_is_root; intros Hx; apply (f_equal length) in Hx; rewrite length_app in Hx; destruct c; simpl in Hx; done || lia. }
  rewrite (bind_lift _ _ s (path_of cs, c)).
  - rewrite (open_parent E HE dn dev _ _ dirs s (path_of cs) d Hv Hd). rewrite Hf. cbn [mbind option_bind]. rewrite Hi. simpl.
    unfold is_dir in Hdir. apply bool_decide_eq_true in Hdir. by rewrite Hdir.
  - apply split_path; [done|]. rewrite path_of_snoc, length_app in Hl. lia.
Qed.

Lemma mkdir_loop_ok buf min_len (s : fsys) idxs :
  (∀ i, i ∈ idxs → nth i buf 0 = 47 ∨ i = length buf → (min_len < i)%nat → minimafs_is_dir E (take i buf) s = Ret (true, s)) →
  mkdir_loop E buf min_len idxs s = Ret (true, s).
Proof.
  induction idxs as [|i idxs IH]; intros Hd; [done|]. cbn [mkdir_loop].
  assert (mkdir_loop E buf min_len idxs s = Ret (true, s)) as Hrest by (apply IH; intros j Hj; apply Hd; by right).
  destruct ((nth i buf 0 =? 47) || (i =? length buf)%nat) eqn:Hb; [|done].
  destruct (Nat.ltb_spec min_len i); [|done]. rewrite (bind_eq _ _ s true s); [done|]. apply Hd; [by left| |done].
  apply orb_true_iff in Hb as [Hb%Z.eqb_eq|Hb%Nat.eqb_eq]; auto.
Qed.

Lemma path_prefix cs : Forall component cs → ∀ j, (0 < j)%nat → nth j (path_of cs) 0 = 47 ∨ j = length (path_of cs) →
  ∃ a b, cs = a ++ b ∧ take j (path_of cs) = path_of a.
Proof.
  induction cs as [|c cs IH]; intros Hcs j Hj Hat; [destruct j; simpl in Hat; [lia|by destruct Hat]|].
  apply Forall_cons in Hcs as [(_ & Hc & _) Hcs]. change (path_of (c :: cs)) with ((47 :: c) ++ path_of cs) in *.
  destruct (Nat.lt_trichotomy j (length (47 :: c))) as [Hlt|[->|Hgt]].
  - exfalso. destruct Hat as [Hat|Hat]; [|rewrite length_app in Hat; lia]. rewrite app_nth1 in Hat by done.
    destruct j as [|j]; [lia|]. simpl in Hat, Hlt. apply Hc. rewrite <- Hat. apply list_elem_of_In, nth_In. lia.
  - exists [c], cs. split; [done|]. rewrite take_app_length. unfold path_of. simpl. by rewrite app_nil_r.
  - destruct (IH Hcs (j - length (47%Z :: c))%nat) as (a & b & -> & Ht); [lia| |].
    + destruct Hat as [Hat|Hat]; [left; by rewrite app_nth2 in Hat by lia|right; rewrite length_app in Hat; lia].
    + exists (c :: a), b. split; [done|]. change (path_of (c :: a)) with ((47 :: c) ++ path_of a). rewrite <- Ht.
      by rewrite take_app_ge by lia.
Qed.

Lemma chain_components dirs root cs : dir_chain dirs root cs → Forall component cs.
Proof.
  intros Hc. apply Forall_lookup. intros i c Hi. destruct (list_elem_of_split_length _ _ _ Hi) as (a & b & -> & _). by destruct (Hc a c b).
Qed.

Lemma mkdir_p_ok dirs s cs : volume dirs s → dir_chain dirs (root_of s) cs → cs ≠ [] →
  (length (drive_path (path_of cs)) < MINIMAFS_MAX_PATH)%nat →
  pkg_mkdir_p E (drive_path (path_of cs)) s = Ret (true, s).
Proof.
  intros Hv Hc Hne Hl. unfold pkg_mkdir_p. set (buf := drive_path (path_of cs)) in *.
  assert (length buf = length (uint_text (Z.of_nat dn)) + 1 + length (path_of cs))%nat as Hlen.
  { unfold buf, pkgfile.drive_path. rewrite length_app. simpl. lia. }
  assert (nth 1 (58 :: path_of cs) 0 = 47) as Hslash by (by destruct cs).
  assert (0 < length (path_of cs))%nat by (destruct cs; [done|]; change (path_of (_ :: _)) with ((47 :: l) ++ path_of cs); simpl; lia).
  rewrite (proj2 (Nat.eqb_neq _ _)), (proj2 (Nat.leb_gt _ _)) by lia. cbn [orb]. unfold buf at 1. rewrite chr_drive, Hslash. cbn [negb Z.eqb Pos.eqb].
  assert (ptr_diff (58 :: path_of cs) buf = length (uint_text (Z.of_nat dn))) as -> by (unfold ptr_diff; simpl; lia).
  rewrite (proj2 (Nat.ltb_ge _ _)) by lia. apply mkdir_loop_ok. intros i Hi Hat Hmin.
  assert (∀ i, (length (uint_text (Z.of_nat dn)) + 2 < i)%nat → take i buf = drive_path (take (i - length (uint_text (Z.of_nat dn)) - 1) (path_of cs)) ∧
    nth i buf 0 = nth (i - length (uint_text (Z.of_nat dn)) - 1) (path_of cs) 0) as Hbuf.
  { intros k Hk. unfold buf, pkgfile.drive_path. rewrite take_app_ge, app_nth2 by lia.
    destruct (k - length (uint_text (Z.of_nat dn)))%nat as [|m] eqn:Hm; [lia|]. simpl. by rewrite Nat.sub_0_r. }
  destruct (Hbuf i Hmin) as [-> Hnth]. set (j := (i - length (uint_text (Z.of_nat dn)) - 1)%nat) in *.
  destruct (path_prefix cs (chain_components _ _ _ Hc) j) as (a & b & -> & ->); [lia| |].
  { destruct Hat as [Hat|Hat]; [left; congruence|right; lia]. }
  apply (is_dir_ok dirs); [done|by eapply chain_take|].
  unfold path_of in *. rewrite bind_app, length_app in Hlen. lia.
Qed.

Lemma mkdir_root s : pkg_mkdir_p E (drive_path [47]) s = Ret (true, s).
Proof.
  unfold pkg_mkdir_p. rewrite chr_drive. assert (length (drive_path [47%Z]) = length (uint_text (Z.of_nat dn)) + 2)%nat as Hl.
  { unfold pkgfile.drive_path. rewrite length_app. done. }
  assert (length (uint_text (Z.of_nat dn)) ≤ 10)%nat as Hu.
  { rewrite <- (u32_small (Z.of_nat dn)) by (unfold is_u32, MAX_DRIVES in *; lia). apply uint_text_u32_length. }
  unfold MINIMAFS_MAX_PATH. rewrite (proj2 (Nat.eqb_neq _ _)), (proj2 (Nat.leb_gt _ _)) by lia. cbn [orb nth negb Z.eqb Pos.eqb].
  assert (ptr_diff [58%Z; 47%Z] (drive_path [47%Z]) = length (uint_text (Z.of_nat dn))) as -> by (unfold ptr_diff; simpl length; lia).
  rewrite (proj2 (Nat.ltb_ge _ _)) by lia. apply mkdir_loop_ok. intros i Hi _ Hmin. apply elem_of_seq in Hi. lia.
Qed.

Lemma chain_beside dirs root total d nm e cs : dirs_ok root total dirs → dirs !! f_block_offset d = Some d → is_dir e = false →
  e_name e = nm → file_named nm d → dir_chain dirs root cs → dir_chain (<[f_block_offset d := put_entry nm e d]> dirs) root cs.
Proof.
  intros Hok Hd He Hname Hf Hc a c b Hcs. destruct (Hc a c b Hcs) as (Hcomp & da & i & x & Ha & Hfe & Hi & Hx). split; [done|].
  destruct (folder_at_beside dirs root total (path_of a) d nm e da) as [Ha' Heq]; try done.
  destruct (decide _) as [Hb|_]; [|by exists da, i, x]. specialize (Heq Hb) as ->.
  assert (c ≠ nm) as Hne by (intros ->; rewrite (Hf i x Hfe Hi) in Hx; done).
  destruct (find_entry_other c nm e d i x) as [H1 H2]; try done. by exists (put_entry nm e d), i, x.
Qed.

(** A file of the folder keeps its contents when another name is written. *)
Lemma holds_beside dirs s s' p local parent d nm m0 l e m p2 local2 nm2 i2 e2 m2 l2 : volume dirs s →
  names dn p local parent nm → folder_at dirs (root_of s) parent = Some d → file_named nm d → e_name e = nm →
  file_put dn dev dirs d nm m0 l e m s s' → nm2 ≠ nm →
  holds dn dev dirs s p2 local2 parent nm2 d i2 e2 m2 l2 →
  holds dn dev (<[f_block_offset d := put_entry nm e d]> dirs) s' p2 local2 parent nm2 (put_entry nm e d) i2 e2 m2 l2.
Proof.
  intros Hv Hn Hd Hf Hname Hput Hne [Hn2 _ (Hf2 & Hi2 & Hdir2) Hop2]. pose proof Hput as [[Hdir _] _ _ _ _ Hm].
  pose proof (folder_listed dn dev _ _ _ _ Hv Hd) as Hb. pose proof (v_dirs _ _ _ _ Hv) as Hok.
  destruct (find_entry_other nm2 nm e d i2 e2) as [H1 H2]; try done.
  split; [done| |done|].
  - rewrite (mv_root _ _ _ _ _ Hm). apply folder_at_put; try done. intros b d' Hb'. by apply (do_good _ _ _ Hok).
  - assert (file_in dirs e2) as Hin by (exists (f_block_offset d), d; split; [done|]; split; [by eapply list_elem_of_lookup_2|done]).
    assert (∀ x, x ∈ run_of e2 → blks dev (store s') x 1 = blks dev (store s) x 1) as Hkeep.
    { intros x Hx. apply (mv_keep _ _ _ _ _ Hm). destruct (file_apart _ _ _ _ _ _ Hv Hin Hx) as (Hxo & Hx0 & Hxd).
      split_and!; [done|done|by eapply Hxd|]. unfold run_at. destruct (find_entry (entries d) nm) as [i|] eqn:Hfe; simpl; [|lia].
      destruct (find_entry_some _ _ _ Hfe) as (e1 & Hi1 & Hn1). rewrite Hi1. simpl. rewrite <- elem_of_seqZ. intros Hx1.
      eapply (runs_apart _ _ _ _ _ i e1 e2 x Hok Hb Hi1); try done; [by eapply Hf|].
      intros ->. destruct (find_entry_some _ _ _ Hf2) as (e3 & Hi3 & Hn3). congruence. }
    destruct Hop2 as [[k Hk] Hc Hr Hh Hl Ht Hz]. split; try done.
    + exists k. rewrite <- Hk. eapply blks_ext_blocks; [exact Hkeep|]. intros x Hx. by apply elem_of_seqZ.
    + by rewrite (mv_total _ _ _ _ _ Hm).
    + rewrite Hkeep; [done|]. apply elem_of_seqZ. lia.
Qed.

(** ** Extracting one entry *)

(** A name that one folder entry can carry and the extraction accepts. *)
Definition flat_name (nm : list Z) : Prop := component nm ∧ plain_name nm ∧ pkg_name_is_safe nm = true.

Definition BINARY : list Z := txt "binary".
Definition BIN : list Z := txt "bin".

Context (junk : list Z).

Lemma extract_ok dirs s cs d archive entry nm raw seg : volume dirs s → dir_chain dirs (root_of s) cs →
  folder_at dirs (root_of s) (path_of cs) = Some d → roomy_folder d → flat_name nm → file_named nm d →
  (length (drive_path (path_of (cs ++ [nm]))) < MINIMAFS_MAX_PATH)%nat →
  pe_name entry = nm → Z.land (pe_flags entry) MPKG_FLAG_DIRECTORY = 0 →
  entry_data junk E entry archive = Ret (Some (seg, Z.of_nat (length raw))) → seg_is seg (Z.of_nat (length raw)) raw →
  Z.of_nat (length raw) < 4294950000 →
  ∃ r s', pkg_extract_entry junk E entry archive (drive_path (path_of cs)) s = Ret (r, s') ∧
    put_or_not dn dev dirs d nm (seg_meta E nm BINARY BIN (path_of cs) d) raw s r s'.
Proof.
  intros Hv Hc Hd Hroom (Hcomp & Hpn & Hsafe) Hfile Hl <- Hflags Hdata Hseg Hlen. set (nm := pe_name entry) in *.
  unfold pkg_extract_entry. fold nm. rewrite Hsafe. cbn [negb].
  assert (drive_path (path_of cs) ++ 47 :: nm = drive_path (path_of (cs ++ [nm]))) as ->.
  { rewrite path_of_snoc. unfold pkgfile.drive_path. by rewrite <- app_assoc. }
  unfold snprintf_text. rewrite take_ge by lia.
  pose proof (path_local_length dn cs nm) as Hpl.
  rewrite (proj2 (Nat.eqb_neq _ _)), (proj2 (Nat.leb_gt _ _)) by lia. cbn [orb]. rewrite Hflags, Z.eqb_refl. cbn [negb].
  rewrite parent_of_path by done.
  assert (pkg_mkdir_p E (drive_path (match cs with [] => [47] | _ => path_of cs end)) s = Ret (true, s)) as Hmk.
  { destruct cs as [|c cs']; [apply mkdir_root|]. apply (mkdir_p_ok dirs); [done|done|done|lia]. }
  rewrite (bind_eq _ _ s true s) by exact Hmk. cbn [negb]. rewrite (bind_lift _ _ s _ Hdata). cbv beta iota.
  destruct (write_segments_ok E HE dn dev dirs s (drive_path (path_of (cs ++ [nm]))) (path_of (cs ++ [nm])) (path_of cs) nm d
    seg (Z.of_nat (length raw)) raw None 0 [] (Some BINARY) (Some BIN)) as (r & s' & E1 & Hput); try done.
  - apply names_path; [done|done|]. unfold pkgfile.drive_path in Hl. rewrite length_app in Hl. simpl in Hl. lia.
  - by split; [|right].
  - lia.
  - exists r, s'. split; [exact E1|]. by rewrite app_nil_r in Hput.
Qed.

(** ** Extracting a list of files into one folder *)

(** Names, contents and folder allow every file to be written. *)
Definition storable_file (parent nm raw : list Z) : Prop := storable (new_meta E nm BINARY BIN parent) raw ∧ Z.of_nat (length raw) < 4294950000.

Lemma storable_seg parent nm raw d : storable_file parent nm raw → storable (seg_meta E nm BINARY BIN parent d) raw.
Proof. intros [[H1 H2 H3 H4] _]. unfold seg_meta. destruct (_ ≫= _); by split. Qed.

(** The file [nm] of the folder holds [raw]. *)
Definition held (dirs : dirmap) (s : fsys) (cs : list (list Z)) (nm raw : list Z) : Prop :=
  ∃ d i e m, holds dn dev dirs s (drive_path (path_of (cs ++ [nm]))) (path_of (cs ++ [nm])) (path_of cs) nm d i e m raw.

(** Files written one after the other, each held or refused for want of a
    free run. *)
Inductive installs (cs : list (list Z)) : dirmap → fsys → list (list Z * list Z) → list bool → dirmap → fsys → Prop :=
| installs_nil dirs s : installs cs dirs s [] [] dirs s
| installs_put dirs s nm raw dirs1 s1 files rs dirs2 s2 : volume dirs1 s1 → held dirs1 s1 cs nm raw →
    installs cs dirs1 s1 files rs dirs2 s2 → installs cs dirs s ((nm, raw) :: files) (true :: rs) dirs2 s2
| installs_full dirs s nm raw s1 files rs dirs2 s2 : volume dirs s1 → no_run dn (blocks_wanted (Z.of_nat (length raw))) s →
    installs cs dirs s1 files rs dirs2 s2 → installs cs dirs s ((nm, raw) :: files) (false :: rs) dirs2 s2.

(** A refused write leaves every file as it is. *)
Lemma openable_moved (keep : Z → Prop) e m l s s' : moved dn dev keep s s' → (∀ x, x ∈ run_of e → keep x) →
  openable dn dev e m l s → openable dn dev e m l s'.
Proof.
  intros Hm Hk [[k Hst] Hc Hr Hh Hl Ht Hz]. split; try done.
  - exists k. rewrite <- Hst. eapply blks_ext_blocks; [apply Hm|]. intros x Hx. by apply Hk, elem_of_seqZ.
  - by rewrite (mv_total _ _ _ _ _ Hm).
  - rewrite (mv_keep _ _ _ _ _ Hm); [done|]. apply Hk, elem_of_seqZ. lia.
Qed.

Lemma held_idle dirs s s' cs nm raw : moved dn dev (λ _, True) s s' → held dirs s cs nm raw → held dirs s' cs nm raw.
Proof.
  intros Hm (d & i & e & m & [Hn Hd He Ho]). exists d, i, e, m. split; [done|by rewrite (mv_root _ _ _ _ _ Hm)|done|].
  by eapply openable_moved.
Qed.

Lemma held_beside dirs s s' cs d nm m0 l e m nm2 raw2 : volume dirs s → (length (path_of (cs ++ [nm])) < MINIMAFS_MAX_PATH)%nat → component nm →
  folder_at dirs (root_of s) (path_of cs) = Some d → file_named nm d → e_name e = nm →
  file_put dn dev dirs d nm m0 l e m s s' → nm2 ≠ nm → held dirs s cs nm2 raw2 →
  held (<[f_block_offset d := put_entry nm e d]> dirs) s' cs nm2 raw2.
Proof.
  intros Hv Hl Hc Hd Hf Hname Hput Hne (d2 & i2 & e2 & m2 & Hho). pose proof (ho_folder _ _ _ _ _ _ _ _ _ _ _ _ _ Hho) as Hd2.
  rewrite Hd in Hd2. injection Hd2 as <-. exists (put_entry nm e d), i2, e2, m2.
  eapply holds_beside; try done. by apply names_path.
Qed.

(** Entry [k + j] of the archive is the [j]-th file. *)
Definition reads (archive : list Z) (k : Z) (files : list (list Z * list Z)) : Prop :=
  ∀ j nm raw, files !! j = Some (nm, raw) → ∃ bytes entry seg,
    slice_of (MPKG_HEADER_SIZE + (k + Z.of_nat j) * MPKG_ENTRY_SIZE) MPKG_ENTRY_SIZE archive = Ret bytes ∧ pkg_parse_entry bytes = Ret entry ∧
    pe_name entry = nm ∧ Z.land (pe_flags entry) MPKG_FLAG_DIRECTORY = 0 ∧
    entry_data junk E entry archive = Ret (Some (seg, Z.of_nat (length raw))) ∧ seg_is seg (Z.of_nat (length raw)) raw.

Definition count (b : bool) (rs : list bool) : Z := Z.of_nat (length (filter (λ r, r = b) rs)).

Lemma count_cons b r rs : count b (r :: rs) = (if decide (r = b) then 1 else 0) + count b rs.
Proof. unfold count. rewrite filter_cons. destruct (decide _); simpl; lia. Qed.

(** What the loop does with the files still ahead. *)
Record unpacked (cs : list (list Z)) (dirs : dirmap) (s : fsys) (files : list (list Z * list Z)) (rs : list bool) (dirs' : dirmap) (s' : fsys) : Prop := {
  un_trace : installs cs dirs s files rs dirs' s';
  un_volume : volume dirs' s';
  un_handles : handles s' = handles s;
  un_others : ∀ nm raw, held dirs s cs nm raw → nm ∉ files.*1 → held dirs' s' cs nm raw;
  un_held : ∀ j nm raw, files !! j = Some (nm, raw) → rs !! j = Some true → held dirs' s' cs nm raw
}.

(** The files can be put into the folder [d] one after the other. *)
Definition fits (cs : list (list Z)) (d : minimafs_folder_desc) (files : list (list Z * list Z)) : Prop :=
  NoDup files.*1 ∧ Forall (λ f, flat_name f.1 ∧ file_named f.1 d ∧ storable_file (path_of cs) f.1 f.2 ∧
    (length (drive_path (path_of (cs ++ [f.1]))) < MINIMAFS_MAX_PATH)%nat) files.

(** One file more at the front: held, or refused. *)
Lemma unpacked_put cs dirs s nm raw dirs1 s1 files rs dirs' s' : volume dirs1 s1 → handles s1 = handles s → held dirs1 s1 cs nm raw →
  nm ∉ files.*1 → (∀ nm2 raw2, nm2 ≠ nm → held dirs s cs nm2 raw2 → held dirs1 s1 cs nm2 raw2) →
  unpacked cs dirs1 s1 files rs dirs' s' → unpacked cs dirs s ((nm, raw) :: files) (true :: rs) dirs' s'.
Proof.
  intros Hv1 Hh Hheld Hnm Hbeside [Htr Hv2 Hh2 Hoth Hall]. split; [by apply (installs_put cs dirs s nm raw dirs1 s1)|done|congruence|..].
  - intros nm2 raw2 H2 [Hne Hnot]%not_elem_of_cons. apply Hoth; [|done]. by apply Hbeside.
  - intros [|j] nm2 raw2; simpl; [|by apply Hall]. intros [= <- <-] _. by apply Hoth.
Qed.

Lemma unpacked_full cs dirs s nm raw s1 files rs dirs' s' : volume dirs s1 → moved dn dev (λ _, True) s s1 →
  no_run dn (blocks_wanted (Z.of_nat (length raw))) s →
  unpacked cs dirs s1 files rs dirs' s' → unpacked cs dirs s ((nm, raw) :: files) (false :: rs) dirs' s'.
Proof.
  intros Hv1 Hm Hno [Htr Hv2 Hh2 Hoth Hall]. split; [by apply (installs_full cs dirs s nm raw s1)|done|rewrite Hh2; apply Hm|..].
  - intros nm2 raw2 H2 [Hne Hnot]%not_elem_of_cons. apply Hoth; [|done]. by eapply held_idle.
  - intros [|j] nm2 raw2; simpl; [done|]. by apply Hall.
Qed.

Lemma reads_tail archive k f files : reads archive k (f :: files) → reads archive (k + 1) files.
Proof.
  intros Hr j nm raw Hj. destruct (Hr (S j) nm raw Hj) as (bs & en & sg & Hs & Hrest). exists bs, en, sg.
  split; [|done]. rewrite <- Hs. do 2 f_equal. lia.
Qed.

Lemma local_short local : (length (drive_path local) < MINIMAFS_MAX_PATH)%nat → (length local < MINIMAFS_MAX_PATH)%nat.
Proof. unfold pkgfile.drive_path. rewrite length_app. simpl. lia. Qed.

(** The state after a file was put: what the next round needs of it. *)
Lemma step_put dirs s s1 cs d nm raw files e m : volume dirs s → dir_chain dirs (root_of s) cs → folder_at dirs (root_of s) (path_of cs) = Some d →
  room_for (S (length files)) d → fits cs d ((nm, raw) :: files) → e_name e = take 63 nm →
  file_put dn dev dirs d nm (seg_meta E nm BINARY BIN (path_of cs) d) raw e m s s1 →
  let d1 := put_entry nm e d in let dirs1 := <[f_block_offset d := d1]> dirs in
  volume dirs1 s1 ∧ dir_chain dirs1 (root_of s1) cs ∧ folder_at dirs1 (root_of s1) (path_of cs) = Some d1 ∧
  room_for (length files) d1 ∧ fits cs d1 files ∧ held dirs1 s1 cs nm raw ∧
  (∀ nm2 raw2, nm2 ≠ nm → held dirs s cs nm2 raw2 → held dirs1 s1 cs nm2 raw2).
Proof.
  intros Hv Hc Hd Hroom [Hnd Hfit] Hen Hput d1 dirs1. rewrite fmap_cons in Hnd. apply NoDup_cons in Hnd as [_ Hnd].
  apply Forall_cons in Hfit as [((Hcomp & _) & Hfile & Hst & Hlen) Hfit]. cbn [fst snd] in *.
  assert (e_name e = nm) as Hen' by (rewrite take_ge in Hen; [done|destruct Hcomp as (_ & _ & ?); lia]).
  pose proof Hput as [[Hdir _] _ _ Hv1 _ Hm]. pose proof (v_dirs _ _ _ _ Hv) as Hok.
  pose proof (folder_listed dn dev _ _ _ _ Hv Hd) as Hb. apply local_short in Hlen as Hl.
  pose proof (names_path dn cs nm Hdn Hcomp Hl) as Hn.
  destruct (put_holds E HE dn dev dirs s s1 _ _ _ nm d (seg_meta E nm BINARY BIN (path_of cs) d) raw e m Hv Hn Hd Hfile) as [i Hho];
    try done; [apply Hcomp|apply storable_seg, Hst|apply seg_meta_fresh, HE|apply Hst|].
  split_and!; try done.
  - rewrite (mv_root _ _ _ _ _ Hm). by eapply chain_beside.
  - apply (ho_folder _ _ _ _ _ _ _ _ _ _ _ _ _ Hho).
  - by apply put_entry_room.
  - split; [done|]. eapply Forall_impl; [exact Hfit|]. intros f (? & ? & ? & ?). split_and!; try done. by apply file_named_put.
  - by exists d1, i, e, m.
  - intros nm2 raw2 Hne H2. by eapply held_beside.
Qed.

Lemma unzip_loop_ok archive cs : ∀ files k d dirs s inst fail, volume dirs s → dir_chain dirs (root_of s) cs →
  folder_at dirs (root_of s) (path_of cs) = Some d → room_for (length files) d → fits cs d files → reads archive k files →
  0 ≤ inst → 0 ≤ fail → inst + fail + Z.of_nat (length files) < 4294967296 →
  ∃ rs dirs' s', unzip_loop junk E archive (drive_path (path_of cs)) (length files) k inst fail s =
      Ret ((inst + count true rs, fail + count false rs), s') ∧ unpacked cs dirs s files rs dirs' s'.
Proof.
  induction files as [|[nm raw] files IH]; intros k d dirs s inst fail Hv Hc Hd Hroom Hfits Hreads Hi0 Hf0 Hsum.
  { exists [], dirs, s. cbn [unzip_loop length]. split; [unfold mret, fsM_ret, count; simpl; do 3 f_equal; lia|].
    split; [constructor|done|done|done|]. by intros j. }
  destruct (Hreads 0%nat nm raw eq_refl) as (bytes & entry & seg & Hsl & Hpe & Hname & Hflags & Hdata & Hseg).
  rewrite Nat2Z.inj_0, Z.add_0_r in Hsl. cbn [unzip_loop length]. rewrite (bind_lift _ _ s _ Hsl). rewrite (bind_lift _ _ s _ Hpe).
  pose proof Hfits as [Hnd Hfit]. apply Forall_cons in Hfit as [(Hflat & Hfile & Hst & Hlen) Hfit]. cbn [fst snd length] in *.
  rewrite fmap_cons in Hnd. apply NoDup_cons in Hnd as [Hnm Hnd].
  destruct (extract_ok dirs s cs d archive entry nm raw seg) as (ok & s1 & E1 & Hput); try done;
    [unfold roomy_folder, room_for in *; lia|apply Hst|].
  rewrite (bind_eq _ _ s ok s1 E1). apply reads_tail in Hreads.
  assert (∀ x, 0 ≤ x → x + Z.of_nat (length files) < 4294967295 → u32 (x + 1) = x + 1) as Hu by (intros; apply u32_small; unfold is_u32; lia).
  destruct ok; simpl in Hput.
  - destruct Hput as (e & m & Hen & Hput).
    destruct (step_put dirs s s1 cs d nm raw files e m) as (Hv1 & Hc1 & Hd1 & Hr1 & Hf1 & Hheld & Hbeside); try done.
    rewrite Hu by lia. destruct (IH (k + 1) (put_entry nm e d) _ s1 (inst + 1) fail Hv1 Hc1 Hd1) as (rs & dirs2 & s2 & E2 & Hun); try done; [lia..|].
    exists (true :: rs), dirs2, s2. rewrite E2, !count_cons. split; [simpl; do 3 f_equal; lia|].
    eapply unpacked_put; try done. apply (fp_moved _ _ _ _ _ _ _ _ _ _ _ Hput).
  - destruct Hput as (Hv1 & Hm & Hno). rewrite Hu by lia. pose proof (mv_root _ _ _ _ _ Hm) as Hroot.
    destruct (IH (k + 1) d dirs s1 inst (fail + 1)) as (rs & dirs2 & s2 & E2 & Hun); try done;
      [by rewrite Hroot|by rewrite Hroot|unfold room_for in *; lia|lia..|].
    exists (false :: rs), dirs2, s2. rewrite E2, !count_cons. split; [simpl; do 3 f_equal; lia|]. by eapply unpacked_full.
Qed.
(** ** Loading and unpacking an archive *)

(** What the header checks of [pkg_load_archive] leave of a file's bytes. *)
Definition accepted (l : list Z) : Prop :=
  16 ≤ Z.of_nat (length l) ∧ take 8 l = MPKG_MAGIC ∧ pkg_read_u32 l 8 = Ret MPKG_VERSION.

Lemma load_archive_ok dirs s p local parent name d i e m l h : volume dirs s → holds dn dev dirs s p local parent name d i e m l →
  free_handle s h → accepted l → pkg_load_archive E p s = Ret (Some l, s).
Proof.
  intros Hv Hho Hh (Hl & Hmagic & Hver). destruct (whole_file E HE dn dev dirs s p local parent name d i e m l h Hv Hho Hh) as (s1 & s2 & E1 & E2 & _ & E3 & E4).
  unfold pkg_load_archive. rewrite (bind_eq _ _ s _ _ E1). cbv beta iota. rewrite (bind_eq _ _ s1 _ _ E2), (rm_alloc _ HE).
  unfold MPKG_HEADER_SIZE. rewrite (proj2 (Z.ltb_ge _ _)) by lia. cbn [negb].
  rewrite (bind_eq _ _ s1 _ _ E3), (bind_eq _ _ s2 _ _ E4), Z.eqb_refl. cbn [negb].
  change (Z.to_nat MPKG_MAGIC_SIZE) with 8%nat. rewrite bool_decide_eq_true_2 by done. cbn [negb]. by rewrite (bind_lift _ _ s _ Hver).
Qed.

Lemma built_accepted items raws ps offs r : built junk items raws ps offs r → accepted (archive_bytes items ps offs).
Proof.
  intros B. destruct (built_archive _ _ _ _ _ _ B) as (_ & Hr & _). pose proof (built_end _ _ _ _ _ _ B) as He.
  split; [unfold table_end, MPKG_HEADER_SIZE, MPKG_ENTRY_SIZE in He; lia|]. split; [done|].
  unfold archive_bytes, header_bytes. rewrite <- !app_assoc. by apply read_mid.
Qed.

(** [pkglib_info] counts the items of a packed archive and changes nothing. *)
Lemma info_ok items raws ps offs r dirs s p local parent name d i e m h : built junk items raws ps offs r → volume dirs s →
  holds dn dev dirs s p local parent name d i e m (archive_bytes items ps offs) → free_handle s h →
  pkglib_info E p s = Ret ((true, Z.of_nat (length items)), s).
Proof.
  intros B Hv Hho Hh. unfold pkglib_info.
  rewrite (bind_eq _ _ s _ s (load_archive_ok dirs s p local parent name d i e m _ h Hv Hho Hh (built_accepted _ _ _ _ _ B))).
  cbv beta iota. rewrite (bind_lift _ _ s _ (built_validate _ _ _ _ _ _ B)).
  rewrite (proj2 (Z.eqb_neq _ 0)); [done|]. pose proof (bt_some _ _ _ _ _ _ B). destruct items; [done|simpl; lia].
Qed.

Definition zip_files (items : list zip_item) (raws : list (list Z)) : list (list Z * list Z) := zip (zi_rel_name <$> items) raws.

Lemma zip_files_lookup items raws j nm raw : zip_files items raws !! j = Some (nm, raw) →
  ∃ it, items !! j = Some it ∧ zi_rel_name it = nm ∧ raws !! j = Some raw.
Proof.
  unfold zip_files. intros Hj. apply lookup_zip_with_Some in Hj as (x & y & [= -> ->] & Hx & Hy).
  apply list_lookup_fmap_Some in Hx as (it & Hit & ->). by exists it.
Qed.

Lemma built_reads items raws ps offs r : built junk items raws ps offs r → Forall (λ it, zi_is_dir it = false ∧ (length (zi_rel_name it) < 64)%nat) items →
  reads (archive_bytes items ps offs) 0 (zip_files items raws).
Proof.
  intros B Hflat j nm raw Hj. destruct (zip_files_lookup _ _ _ _ _ Hj) as (it & Hi & <- & Hraw).
  destruct (proj1 (Forall_lookup _ _) Hflat j it Hi) as [Hdir Hshort].
  destruct (built_item _ _ _ _ _ _ B j it raw Hi Hraw) as (p & o & Hp & Ho & Hpk & Hou).
  pose proof (built_entry _ _ _ _ _ _ B j it raw Hi p o Hp Ho Hpk Hou) as He.
  destruct (built_data _ _ _ _ _ _ B j it raw Hi E p o Hp Ho Hpk Hdir) as (seg & Hdata & Hseg); [by split; apply (rm_alloc _ HE)|].
  apply obind_ret_inv in He as (bytes & Hs & Hparse). exists bytes, (entry_of it p o), seg. rewrite Z.add_0_l.
  split_and!; try done; unfold entry_of; cbn [pe_name pe_flags].
  - by apply take_ge; lia.
  - unfold entry_flags. by rewrite Hdir.
Qed.

Lemma unzip_ok items raws ps offs r dirs s p local parent name d0 i e m h cs d : built junk items raws ps offs r →
  Forall (λ it, zi_is_dir it = false) items →
  volume dirs s → holds dn dev dirs s p local parent name d0 i e m (archive_bytes items ps offs) → free_handle s h →
  dir_chain dirs (root_of s) cs → folder_at dirs (root_of s) (path_of cs) = Some d → (length (path_of cs) < MINIMAFS_MAX_PATH)%nat →
  room_for (length items) d → fits cs d (zip_files items raws) →
  ∃ rs dirs' s', pkglib_unzip junk E p (drive_path (path_of cs)) s = Ret ((true, count true rs, count false rs), s') ∧
    unpacked cs dirs s (zip_files items raws) rs dirs' s'.
Proof.
  intros B Hflat Hv Hho Hh Hc Hd Hl Hroom Hfits.
  assert (length raws = length items) as Hlr by (symmetry; eapply Forall3_length_lm, (bt_packs _ _ _ _ _ _ B)).
  assert (length (zip_files items raws) = length items) as Hzl by (unfold zip_files; rewrite length_zip_with, length_fmap; lia).
  assert (reads (archive_bytes items ps offs) 0 (zip_files items raws)) as Hreads.
  { apply (built_reads _ _ _ _ _ B). apply Forall_lookup. intros j it Hj. split; [by apply (proj1 (Forall_lookup _ _) Hflat j)|].
    destruct (lookup_lt_is_Some_2 raws j) as [raw Hraw]; [rewrite Hlr; by eapply lookup_lt_Some|].
    destruct Hfits as [_ Hfit]. assert (zip_files items raws !! j = Some (zi_rel_name it, raw)) as Hz.
    { unfold zip_files. apply lookup_zip_with_Some. exists (zi_rel_name it), raw. by rewrite list_lookup_fmap, Hj. }
    by destruct (proj1 (Forall_lookup _ _) Hfit j _ Hz) as (((_ & _ & ?) & _) & _). }
  pose proof (bt_table _ _ _ _ _ _ B) as Ht. unfold is_u32, table_end, MPKG_HEADER_SIZE, MPKG_ENTRY_SIZE in Ht.
  destruct (unzip_loop_ok (archive_bytes items ps offs) cs (zip_files items raws) 0 d dirs s 0 0) as (rs & dirs' & s' & E1 & Hun);
    try done; rewrite ?Hzl; [done|lia|]. rewrite Hzl, !Z.add_0_l in E1. exists rs, dirs', s'. split; [|done].
  unfold pkglib_unzip. rewrite (bind_eq _ _ s _ s (load_archive_ok dirs s p local parent name d0 i e m _ h Hv Hho Hh (built_accepted _ _ _ _ _ B))).
  cbv beta iota. rewrite (bind_lift _ _ s _ (built_validate _ _ _ _ _ _ B)).
  rewrite (proj2 (Z.eqb_neq _ 0)) by (pose proof (bt_some _ _ _ _ _ _ B); destruct items; [done|simpl; lia]).
  rewrite (bind_eq _ _ s true s (is_dir_ok dirs s cs Hv Hc Hl)). rewrite (bind_mret true). cbn [negb]. rewrite Nat2Z.id.
  by rewrite (bind_eq _ _ s _ s' E1).
Qed.

(** C13. Unpacking an archive installs its files. The sound volume holds, as a
    file that can be opened with the free handle, the archive that packing the
    files [items] with contents [raws] gives; their names are distinct and flat
    (1 to 63 characters, no slash, no comma, newline or NUL), their contents
    storable (no header tag in them, a NUL in the first block if they do not
    fit it); the target is a directory of the volume with room for an entry of
    each, in which no directory has one of the names; the heap grants every
    request. Then [pkglib_unzip] returns true and counts the files it
    installed and those it did not; a file is refused only if the volume had
    no free run for it at its turn, every installed one is there at the end
    with its contents, files of other names in the target are as they were,
    and the volume is sound. *)
Theorem unzip_correct rok E0 use_lzss items raws ps offs r archive dirs s p local parent name d0 i e m h cs d :
  Forall3 (packs_as rok E0 use_lzss) items raws ps → Forall (λ it, zi_is_dir it = false) items → Forall item_ok items → items ≠ [] →
  is_u32 (table_end items) → length junk = 4113%nat →
  zip_offsets items ps (table_end items) = Some (offs, r) → zip_archive items ps offs r = Ret archive →
  volume dirs s → holds dn dev dirs s p local parent name d0 i e m archive → free_handle s h →
  dir_chain dirs (root_of s) cs → folder_at dirs (root_of s) (path_of cs) = Some d → (length (path_of cs) < MINIMAFS_MAX_PATH)%nat →
  room_for (length items) d → fits cs d (zip_files items raws) →
  ∃ rs dirs' s', pkglib_unzip junk E p (drive_path (path_of cs)) s = Ret ((true, count true rs, count false rs), s') ∧
    unpacked cs dirs s (zip_files items raws) rs dirs' s'.
Proof.
  intros Hpk Hflat Hok Hne Ht Hj Hz Ha. pose proof (packed_built rok E0 use_lzss junk items raws ps offs r Hpk Hok Hne Ht Hj Hz) as B.
  destruct (built_archive _ _ _ _ _ _ B) as (Ha' & _). rewrite Ha in Ha'. injection Ha' as ->. by eapply unzip_ok.
Qed.
End volume.

(** ** On the RAM disk *)

(** The volume of [FsClaims.v] with one file, "0:/a". *)
Lemma demo_one l : storable (seg_meta demo_env [97] BINARY BIN [] (root_folder 1)) l → blocks_wanted (Z.of_nat (length l)) ≤ 18 →
  Z.of_nat (length l) < 4294950000 →
  ∃ s e m i, let d := put_entry [97] e (root_folder 1) in let dirs := <[1 := d]> root1 in
    volume 0 0 dirs s ∧ is_dir e = false ∧ root_of 0 s = 1 ∧ free_handle s 0 ∧ folder_at dirs 1 [] = Some d ∧
    holds 0 0 dirs s (txt "0:/a") (txt "/a") [] [97] d i e m l.
Proof.
  intros Hst Hb Hlen. destruct demo_mounted as (s & Hv & Hr & Hh & Hroom).
  destruct (demo_target root1 (root_folder 1) 97) as [Hn Hd Hro Hp]; [by left|done|vm_compute; lia|].
  assert (folder_at root1 (root_of 0 s) [] = Some (root_folder 1)) as Hd' by (by rewrite Hr). clear Hd. rename Hd' into Hd.
  destruct (write_segments_ok demo_env demo_roomy 0 0 root1 s (txt "0:/a") (txt "/a") [] [97] (root_folder 1) (Some l) (Z.of_nat (length l)) l None 0 []
    (Some BINARY) (Some BIN)) as (ok & s1 & _ & Hput); try done; [by split; [|left]|by split; [|right]|lia|].
  rewrite app_nil_r in Hput. destruct ok; [|destruct Hput as (_ & _ & Hno); exfalso; eapply Hroom; [|exact Hno]; done].
  destruct Hput as (e & m & He & Hput). pose proof Hput as [[Hdir _] _ _ Hv1 _ Hm].
  destruct (put_holds demo_env demo_roomy 0 0 root1 s s1 (txt "0:/a") (txt "/a") [] [97] (root_folder 1)
    (seg_meta demo_env [97] BINARY BIN [] (root_folder 1)) l e m Hv Hn Hd) as [i Hho];
    try done; [simpl; lia|].
  exists s1, e, m, i. assert (root_of 0 s1 = 1) as Hr1 by (rewrite (mv_root _ _ _ _ _ Hm); done).
  split_and!; try done.
  - unfold free_handle. by rewrite (mv_handles _ _ _ _ _ Hm), Hh.
Qed.

Lemma demo_named e nm : is_dir e = false → file_named nm (put_entry [97] e (root_folder 1)).
Proof. intros He [|i] x _ Hx; [by injection Hx as <-|done]. Qed.

Definition demo_zip : list zip_item := [mk_item (txt "b") (txt "0:/src/b") false; mk_item (txt "c") (txt "0:/src/c") false].
Definition demo_zip_raws : list (list Z) := [demo_data; txt "b"].
Definition demo_zip_packs : list zip_payload :=
  [mk_payload [87; 97; 98; 99; 238; 243; 100; 238; 242; 120] 10 16 MPKG_METHOD_LZSS; mk_payload (txt "b") 1 1 MPKG_METHOD_STORE].
Definition demo_zip_archive : list Z := archive_bytes demo_zip demo_zip_packs [312; 322].

Ltac by_check := apply (bool_decide_unpack _); vm_compute; reflexivity.

Lemma demo_storable_small nm l parent : bool_decide (nm ∈ [txt "a"; txt "b"; txt "c"; txt "a.mpkg"]) = true → parent = [] → (length l ≤ 800)%nat →
  forallb (λ tag, bool_decide (sub (pat (txt tag)) (l ++ FOOTER) = None)) header_tags = true → ∀ ff, ff = BIN ∨ ff = txt "mpkg" →
  storable (new_meta demo_env nm BINARY ff parent) l.
Proof.
  intros Hnm%bool_decide_eq_true -> Hl Ht ff Hff. assert (nm = txt "a" ∨ nm = txt "b" ∨ nm = txt "c" ∨ nm = txt "a.mpkg") as Hnm' by set_solver.
  split; [| |by apply tags_check|left].
  - destruct Hff as [-> | ->], Hnm' as [->|[->|[-> | ->]]]; split_and!; by_check.
  - destruct Hff as [-> | ->], Hnm' as [->|[->|[-> | ->]]]; split_and!; by_check.
  - assert (header_capacity (new_meta demo_env nm BINARY ff []) ≤ 3000); [|lia].
    destruct Hff as [-> | ->], Hnm' as [->|[->|[-> | ->]]]; vm_compute; discriminate.
Qed.

Lemma demo_file_fits e nm l : is_dir e = false → nm = txt "a" ∨ nm = txt "b" ∨ nm = txt "c" → (length l ≤ 800)%nat →
  forallb (λ tag, bool_decide (sub (pat (txt tag)) (l ++ FOOTER) = None)) header_tags = true →
  flat_name nm ∧ file_named nm (put_entry [97] e (root_folder 1)) ∧ storable_file demo_env (path_of []) nm l ∧
    (length (drive_path 0 (path_of ([] ++ [nm]))) < MINIMAFS_MAX_PATH)%nat.
Proof.
  intros He Hnm Hl Ht. split; [|split; [by apply demo_named|split; [split; [|lia]|]]].
  - destruct Hnm as [->|[-> | ->]]; (split; [split_and!; by_check|]); (split; [split_and!; by_check|]); vm_compute; reflexivity.
  - apply demo_storable_small; [|done|done|done|by left]. destruct Hnm as [->|[-> | ->]]; reflexivity.
  - destruct Hnm as [->|[-> | ->]]; vm_compute; lia.
Qed.

Lemma unzip_correct_witness : ∃ s rs dirs' s', pkglib_unzip (replicate 4113 0) demo_env (txt "0:/a") (txt "0:") s = Ret ((true, count true rs, count false rs), s') ∧
  volume 0 0 dirs' s' ∧ (rs !! 0%nat = Some true → held 0 0 dirs' s' [] (txt "b") demo_data).
Proof.
  destruct (demo_one demo_zip_archive) as (s & e & m & i & Hv & Hdir & Hr & Hh & Hd & Hho).
  { apply (demo_storable_small (txt "a") demo_zip_archive []); [reflexivity|done|vm_compute; lia|vm_compute; reflexivity|by left]. }
  { vm_compute. discriminate. } { vm_compute. reflexivity. }
  destruct (unzip_correct demo_env demo_roomy 0 0 ltac:(unfold MAX_DRIVES; lia) (replicate 4113 0) (λ _, true) all_memory true demo_zip demo_zip_raws
    demo_zip_packs [312; 322] 323 demo_zip_archive _ s _ _ _ _ _ i e m 0 [] (put_entry [97] e (root_folder 1))
    ltac:(repeat constructor; vm_compute; reflexivity) ltac:(repeat constructor) ltac:(repeat constructor; by_check) ltac:(discriminate)
    ltac:(split; [discriminate|reflexivity]) (length_replicate _ _) ltac:(vm_compute; reflexivity) ltac:(vm_compute; reflexivity) Hv Hho Hh)
    as (rs & dirs' & s' & E1 & Hun).
  - by intros [].
  - by rewrite Hr.
  - vm_compute. lia.
  - unfold room_for. simpl. lia.
  - split; [by_check|]. constructor; [|constructor; [|constructor]]; (apply demo_file_fits; [exact Hdir|auto|vm_compute; lia|vm_compute; reflexivity]).
  - exists s, rs, dirs', s'. split; [exact E1|]. destruct Hun as [_ Hv2 _ _ Hall]. split; [exact Hv2|]. intros Hrs. exact (Hall 0%nat _ _ eq_refl Hrs).
Defined.
End pkgfile.
