(* ===== verification/PkgZip.v ===== *)
(** * Packing on a volume

    The walk of [pkglib_zip] over the directories of a mounted drive returns
    ([walk_returns]); a file of the volume that is packed, the archive written
    beside it and unpacked into another folder, is there again
    ([zip_unzip]). *)

From S2P Require Import Prelude Bytes CString Lzss Time Net Block Extent FsText Fs FsDisk FsFile FsInv FsVol FsOps FsSpec FsRead FsMount FsSafe FsClaims Pkg PkgSpec PkgFile.
Import fstext minimafs fsdisk fsfile fsinv fsvol fsops fsspec fsread fsmount fssafe fsclaims pkg pkgspec pkgfile Bytes.

Open Scope c_scope.

Module pkgzip.

Section zip.
  Context {D : Type} `{BlockDriver D}.
  Abbreviation fsys := (fsys (D := D)).
  Context (E : env) (HE : roomy E) (dn dev : nat) (Hdn : (dn < MAX_DRIVES)%nat) (rok : Z → bool) (junk : list Z).
  Abbreviation root_of := (root_of dn).
  Abbreviation volume := (volume dn dev).
  Abbreviation drive_path := (drive_path dn).

(** ** The walk over a directory *)

Lemma uint_text_short : (length (uint_text (Z.of_nat dn)) ≤ 10)%nat.
Proof. rewrite <- (u32_small (Z.of_nat dn)) by (unfold is_u32, MAX_DRIVES in *; lia). apply uint_text_u32_length. Qed.

(** A child of a directory of the drive is on the drive, however long its
    path would be. *)
Lemma child_path local name : ∃ local', zip_child (drive_path local) name = drive_path local' ∧ (length local' < MINIMAFS_MAX_PATH)%nat.
Proof.
  pose proof uint_text_short as Hu. assert (∀ x, ∃ local', snprintf_text MINIMAFS_MAX_PATH (drive_path local ++ x) = drive_path local' ∧
    (length local' < MINIMAFS_MAX_PATH)%nat) as Hcut.
  { intros x. unfold pkgfile.drive_path, snprintf_text. set (u := uint_text _) in *. rewrite <- app_assoc, <- app_comm_cons.
    rewrite take_app_ge by (unfold MINIMAFS_MAX_PATH; lia).
    destruct (MINIMAFS_MAX_PATH - 1 - length u)%nat as [|k] eqn:Hk; [unfold MINIMAFS_MAX_PATH in *; lia|]. simpl.
    eexists. split; [done|]. rewrite length_take. unfold MINIMAFS_MAX_PATH in *. lia. }
  unfold zip_child. case_bool_decide; apply Hcut.
Qed.

(** A drive that is mounted on a working device, whatever its blocks hold. *)
Definition mounted_on (s : fsys) : Prop := (∃ total, on_device dn dev total s) ∧ mounted (the_drive dn s) = true.

Lemma read_block_returns (s : fsys) b : mounted_on s → ∃ r, minimafs_read_blocks E dn b 1 s = Ret (r, s).
Proof.
  intros [[total Hod] _]. destruct (od_spb dn dev total s Hod) as [Hspb _].
  unfold minimafs_read_blocks. rewrite bind_gets, (od_device _ _ _ _ Hod), bind_gets.
  destruct (od_sector _ _ _ _ Hod) as [Hp Hm]. rewrite (proj2 (Z.eqb_neq _ 0)), Hm, Z.eqb_refl by lia. cbn [orb negb].
  rewrite (bind_eq _ _ s true s) by (unfold ensure_dma_bounce; by rewrite bind_gets, (od_bounce _ _ _ _ Hod)).
  cbn [negb Z.eqb Z.to_nat Pos.to_nat Pos.iter_op read_loop]. change (0 <? 1) with true. change (0 <? 1 - _) with false. cbv beta iota.
  rewrite bind_gets. erewrite (bind_lift _ _ s)
    by (apply blockdev_read_spec; [apply Hod|apply Hod|apply u64_range|apply u32_range]).
  case_if; [|case_if]; by eexists.
Qed.

Lemma parse_folder_loop_returns : ∀ fuel line d, (length line < fuel)%nat → ∃ d', parse_folder_loop fuel line d = Ret d'.
Proof.
  induction fuel as [|fuel IH]; intros line d Hf; [lia|]. destruct line as [|c line]; [by eexists|].
  rewrite parse_folder_loop_step by done. apply IH. pose proof (next_line_length (c :: line) ltac:(done)). simpl in *. lia.
Qed.

Lemma read_desc_block_returns (s : fsys) b : mounted_on s → ∃ r, minimafs_read_folder_desc_block E dn b s = Ret (r, s).
Proof.
  intros Hm. destruct (read_block_returns s b Hm) as [r Hr]. unfold minimafs_read_folder_desc_block.
  rewrite (bind_eq _ _ s _ s Hr). destruct r as [raw|]; [|by eexists].
  destruct (parse_folder_loop_returns (S (length (c_string raw))) (c_string raw) (mk_folder [] b [])) as [d Hd]; [lia|].
  rewrite (bind_lift _ _ s d) by done. by eexists.
Qed.

Lemma path_walk_returns (s : fsys) toks : mounted_on s → ∀ b, ∃ r, walk E dn b toks s = Ret (r, s).
Proof.
  intros Hm. induction toks as [|t toks IH]; intros b; [by eexists|]. cbn [walk].
  destruct (read_desc_block_returns s b Hm) as [r Hr]. rewrite (bind_eq _ _ s _ s Hr).
  destruct r as [d|]; [|by eexists]. destruct (find_subdir (entries d) t); [apply IH|by eexists].
Qed.

(** Listing a directory returns whatever the disk holds, and changes nothing. *)
Lemma list_dir_returns (s : fsys) local n : mounted_on s → (length local < MINIMAFS_MAX_PATH)%nat →
  ∃ es, minimafs_list_dir E (drive_path local) n s = Ret (es, s).
Proof.
  intros Hm Hl. unfold minimafs_list_dir. rewrite (bind_eq _ _ s (Some (dn, local)) s).
  2:{ unfold resolve_path. rewrite bind_gets. rewrite (bind_lift _ _ s (Some (Z.of_nat dn, local))).
      - unfold get_drive, MAX_DRIVES in *. rewrite (proj2 (Z.leb_gt _ _)) by (unfold MINIMAFS_MAX_DRIVES; lia).
        by rewrite bind_gets, Nat2Z.id, (proj2 Hm).
      - apply parse_path_number; [|done]. unfold MINIMAFS_MAX_DRIVES, MAX_DRIVES in *. lia. }
  assert (∃ r, minimafs_get_folder_block E dn local s = Ret (r, s)) as [r Hr].
  { unfold minimafs_get_folder_block. rewrite bind_gets. case_if; [by eexists|]. case_if; [by eexists|].
    by apply path_walk_returns. }
  assert (∃ d, minimafs_read_folder_desc E dn local s = Ret (d, s)) as [d Hd].
  { unfold minimafs_read_folder_desc. rewrite (bind_eq _ _ s _ s Hr). destruct r as [block|]; [|by eexists].
    destruct (read_desc_block_returns s block Hm) as [x Hx]. rewrite (bind_eq _ _ s _ s Hx). destruct x; by eexists. }
  rewrite (bind_eq _ _ s _ s Hd). destruct d; by eexists.
Qed.

Lemma add_item_grows items rel full b its : pkg_zip_add_item items rel full b = Some its → length its = S (length items) ∧ (length items < 16)%nat.
Proof.
  unfold pkg_zip_add_item, PKGLIB_ZIP_MAX_ITEMS. destruct (256 <=? _)%nat; [done|]. destruct (Nat.leb_spec 16 (length items)); [done|].
  intros [= <-]. rewrite length_app. simpl. lia.
Qed.

(** The loop returns when the recursive call does on longer tables, and the
    table only grows. *)
Lemma collect_entries_ok (s : fsys) local rel n : (∀ local items rel, (length local < MINIMAFS_MAX_PATH)%nat → (16 - length items < n)%nat → (length items ≤ 16)%nat →
    ∃ r, (∀ its, r = Some its → (length items ≤ length its ≤ 16)%nat) ∧
      ∀ fuel, (n ≤ fuel)%nat → pkg_zip_collect_dir fuel E (drive_path local) rel items s = Ret (r, s)) →
  ∀ es items, (16 - length items < S n)%nat → (length items ≤ 16)%nat → ∃ r, (∀ its, r = Some its → (length items ≤ length its ≤ 16)%nat) ∧
    ∀ fuel, (n ≤ fuel)%nat → collect_entries (pkg_zip_collect_dir fuel E) (drive_path local) rel es items s = Ret (r, s).
Proof.
  intros Hrec. induction es as [|e es IH]; intros items Hn H16; [exists (Some items); split; [by intros ? [= ->]|done]|].
  cbn [collect_entries]. destruct (pkg_zip_add_item _ _ _ _) as [its|] eqn:Ha; [|by exists None].
  apply add_item_grows in Ha as [Hl Hlt]. destruct (IH its ltac:(lia) ltac:(lia)) as (r0 & Hg0 & H0).
  case_bool_decide.
  2:{ exists r0. split; [intros ? Hr; specialize (Hg0 _ Hr); lia|done]. }
  destruct (child_path local (e_name e)) as (local' & -> & Hl').
  destruct (Hrec local' its (zip_rel_name rel (e_name e)) Hl' ltac:(lia) ltac:(lia)) as (r & Hg & Hr).
  destruct r as [its2|].
  - specialize (Hg its2 eq_refl). destruct (IH its2 ltac:(lia) ltac:(lia)) as (r2 & Hg2 & H2). exists r2.
    split; [intros ? Hr2; specialize (Hg2 _ Hr2); lia|]. intros fuel Hf. rewrite (bind_eq _ _ s _ s (Hr fuel Hf)). by apply H2.
  - exists None. split; [done|]. intros fuel Hf. by rewrite (bind_eq _ _ s _ s (Hr fuel Hf)).
Qed.

Lemma walk_returns (s : fsys) : mounted_on s → ∀ n local items rel, (length local < MINIMAFS_MAX_PATH)%nat → (16 - length items < n)%nat → (length items ≤ 16)%nat →
  ∃ r, (∀ its, r = Some its → (length items ≤ length its ≤ 16)%nat) ∧
    ∀ fuel, (n ≤ fuel)%nat → pkg_zip_collect_dir fuel E (drive_path local) rel items s = Ret (r, s).
Proof.
  intros Hm. induction n as [|n IH]; intros local items rel Hl Hn H16; [lia|].
  destruct (list_dir_returns s local MINIMAFS_MAX_ROOT_ENTRIES Hm Hl) as [es Hes].
  destruct (collect_entries_ok s local rel n IH es items) as (r & Hg & Hr); [lia|done|]. exists r. split; [done|].
  intros [|fuel] Hf; [lia|]. cbn [pkg_zip_collect_dir]. rewrite (bind_eq _ _ s _ s Hes). apply Hr. lia.
Qed.

(** C35. The walk that collects the items of an archive ends whatever the
    blocks of the mounted drive hold: directories that contain themselves or
    their parents, blocks that are no directories, targets outside the
    device. From any path of the drive at most seventeen calls are nested; the
    walk returns, more fuel does not change the answer, at most sixteen items
    are collected, and the file system is as it was. *)
Theorem walk_terminates (s : fsys) local : mounted_on s → (length local < MINIMAFS_MAX_PATH)%nat →
  ∃ r, (∀ its, r = Some its → (length its ≤ 16)%nat) ∧
    ∀ fuel, (17 ≤ fuel)%nat → pkg_zip_collect_dir fuel E (drive_path local) [] [] s = Ret (r, s).
Proof.
  intros Hm Hl. destruct (walk_returns s Hm 17 local [] [] Hl) as (r & Hg & Hr); [simpl; lia..|]. exists r.
  split; [|done]. intros its ->. by apply Hg.
Qed.

(** ** Packing one file *)

Definition MPKG : list Z := txt "mpkg".
Definition mpkg_name (nm : list Z) : list Z := nm ++ txt ".mpkg".

Lemma last_path cs nm : component nm → ∃ c, last (drive_path (path_of (cs ++ [nm]))) = Some c ∧ c ≠ 47.
Proof.
  intros (Hne & Hs & _). destruct nm as [|c nm _] using rev_ind; [done|]. exists c. split.
  - rewrite path_of_snoc. unfold pkgfile.drive_path. set (u := uint_text _).
    replace (u ++ 58 :: path_of cs ++ 47 :: nm ++ [c]) with ((u ++ 58 :: path_of cs ++ 47 :: nm) ++ [c]); [by rewrite last_snoc|].
    rewrite <- app_assoc. simpl. by rewrite <- app_assoc.
  - intros ->. apply Hs, elem_of_app. right. by left.
Qed.

Lemma output_path_ok cs nm : component nm → (length (drive_path (path_of (cs ++ [mpkg_name nm]))) < MINIMAFS_MAX_PATH)%nat →
  zip_output_path (drive_path (path_of (cs ++ [nm]))) = drive_path (path_of (cs ++ [mpkg_name nm])).
Proof.
  intros Hc Hl. rewrite path_local_length in Hl. unfold mpkg_name in *. rewrite length_app in Hl. simpl in Hl.
  pose proof (path_local_length dn cs nm) as Hp. unfold zip_output_path. rewrite take_ge by lia.
  destruct (last_path cs nm Hc) as (c & -> & Hne). rewrite bool_decide_eq_false_2 by congruence. rewrite andb_false_r.
  assert (drive_path (path_of (cs ++ [nm])) ++ txt ".mpkg" = drive_path (path_of (cs ++ [nm ++ txt ".mpkg"]))) as ->.
  { rewrite !path_of_snoc. unfold pkgfile.drive_path. rewrite <- app_assoc. simpl. by rewrite <- app_assoc. }
  unfold snprintf_text. apply take_ge. rewrite path_local_length, length_app. simpl. unfold MINIMAFS_MAX_PATH in Hl. lia.
Qed.

Lemma basename_ok cs nm : component nm → pkg_basename (drive_path (path_of (cs ++ [nm]))) = nm.
Proof.
  intros (_ & Hs & _). unfold pkg_basename.
  assert (drive_path (path_of (cs ++ [nm])) = drive_path (path_of cs) ++ 47 :: nm) as ->.
  { rewrite path_of_snoc. unfold pkgfile.drive_path. by rewrite <- app_assoc. }
  rewrite rchr_last by done. set (p := drive_path _). replace (S (length p)) with (length (p ++ [47])) by (rewrite length_app; simpl; lia).
  change (p ++ 47 :: nm) with (p ++ [47] ++ nm). by rewrite app_assoc, drop_app_length.
Qed.

Lemma exists_ok dirs s cs nm raw : volume dirs s → component nm → held dn dev dirs s cs nm raw →
  minimafs_exists E (drive_path (path_of (cs ++ [nm]))) s = Ret (true, s) ∧ minimafs_is_dir E (drive_path (path_of (cs ++ [nm]))) s = Ret (false, s).
Proof.
  intros Hv Hcomp (d & i & e & m & [Hn Hd (Hf & Hi & Hdir) _]). pose proof Hn as (_ & _ & _ & Hsplit).
  assert (nm ≠ []) as Hne by apply Hcomp. split.
  - unfold minimafs_exists. rewrite (bind_eq _ _ s _ s (resolve_names_ok dn dev _ _ _ _ dirs s Hn Hv)). cbv beta iota.
    rewrite (bind_lift _ _ s _ Hsplit). cbv beta iota. rewrite bool_decide_eq_false_2 by done.
    rewrite (open_parent E HE dn dev _ _ dirs s (path_of cs) d Hv Hd). rewrite Hf. by rewrite bool_decide_eq_true_2.
  - unfold minimafs_is_dir. rewrite (bind_eq _ _ s _ s (resolve_names_ok dn dev _ _ _ _ dirs s Hn Hv)). cbv beta iota.
    rewrite (names_root dn _ _ _ _ Hn Hne). rewrite (bind_lift _ _ s _ Hsplit). cbv beta iota.
    rewrite (open_parent E HE dn dev _ _ dirs s (path_of cs) d Hv Hd). rewrite Hf. cbn [mbind option_bind]. rewrite Hi. simpl.
    unfold is_dir in Hdir. apply bool_decide_eq_false in Hdir. by rewrite bool_decide_eq_false_2 by congruence.
Qed.

Lemma read_item_ok dirs s cs nm raw use_lzss h p it : volume dirs s → held dn dev dirs s cs nm raw → free_handle s h →
  zi_is_dir it = false → zi_full_path it = drive_path (path_of (cs ++ [nm])) → pack_payload rok E use_lzss raw = Ret p →
  zip_read_items rok E use_lzss [it] s = Ret (Some [p], s).
Proof.
  intros Hv (d & i & e & m & Hho) Hh Hd Hp Hpack. cbn [zip_read_items]. erewrite (bind_eq _ _ s (Some p) s); [done|].
  unfold zip_read_item. rewrite Hd, Hp.
  destruct (whole_file E HE dn dev dirs s _ _ _ _ d i e m raw h Hv Hho Hh) as (s1 & s2 & E1 & E2 & E2' & E3 & E4).
  rewrite (bind_eq _ _ s _ _ E1). cbv beta iota. rewrite (bind_eq _ _ s1 _ _ E2), (rm_alloc _ HE), andb_false_r.
  destruct (Z.eqb_spec (Z.of_nat (length raw)) 0) as [H0|Hne]; cbn [negb].
  - rewrite (bind_mret []), (bind_eq _ _ s1 _ _ E2'). assert (raw = []) as -> by (destruct raw; [done|simpl in *; lia]).
    cbn [length Z.of_nat Z.eqb negb]. exact (bind_lift _ _ s p Hpack).
  - rewrite (bind_eq _ _ s1 _ _ E3), (bind_eq _ _ s2 _ _ E4), Z.eqb_refl. cbn [negb]. by rewrite (bind_lift _ _ s _ Hpack).
Qed.

(** The archive of one file. *)
Definition one_item (cs : list (list Z)) (nm : list Z) : zip_item := mk_item nm (drive_path (path_of (cs ++ [nm]))) false.
Definition one_archive (cs : list (list Z)) (nm : list Z) (p : zip_payload) : list Z := archive_bytes [one_item cs nm] [p] [164].

Lemma one_built cs nm raw use_lzss p : length junk = 4113%nat → flat_name nm → 0 ∉ nm → pack_payload rok E use_lzss raw = Ret p → zp_size p < 4294967000 →
  built junk [one_item cs nm] [raw] [p] [164] (164 + zp_size p).
Proof.
  intros Hj (Hcomp & Hpn & Hsafe) H0 Hp Hsz. destruct (pack_payload_ok rok E use_lzss raw junk Hj) as (p' & Hp' & Hdec).
  rewrite Hp in Hp'. injection Hp' as <-. assert (0 ≤ zp_size p) by (destruct Hdec as (_ & -> & _); lia).
  split.
  - constructor; [|constructor]. unfold packs. by simpl.
  - constructor; [|constructor]. split; [done|]. simpl zi_rel_name. rewrite take_ge; [done|]. destruct Hcomp as (_ & _ & ?). lia.
  - done.
  - unfold is_u32. simpl. done.
  - change (table_end [one_item cs nm]) with 164. cbn [zip_offsets zi_is_dir one_item].
    rewrite u32_small by (unfold is_u32; lia). rewrite (proj2 (Z.ltb_ge _ _)) by lia. by rewrite u32_small by (unfold is_u32; lia).
Qed.

Lemma zip_store_ok dirs s cs nm d raw use_lzss p : length junk = 4113%nat → flat_name nm → pack_payload rok E use_lzss raw = Ret p →
  volume dirs s → folder_at dirs (root_of s) (path_of cs) = Some d → roomy_folder d → file_named (mpkg_name nm) d →
  component (mpkg_name nm) → plain_name (mpkg_name nm) →
  (length (drive_path (path_of (cs ++ [mpkg_name nm]))) < MINIMAFS_MAX_PATH)%nat → Z.of_nat (length (one_archive cs nm p)) < 4294950000 →
  ∃ r s', zip_store E [one_item cs nm] [p] (drive_path (path_of (cs ++ [mpkg_name nm]))) s = Ret (r, s') ∧
    put_or_not dn dev dirs d (mpkg_name nm) (seg_meta E (mpkg_name nm) BINARY MPKG (path_of cs) d) (one_archive cs nm p) s r s'.
Proof.
  intros Hj Hflat Hp Hv Hd Hroom Hfile Hc Hpn Hl Hlen.
  assert (zp_size p + 164 = Z.of_nat (length (one_archive cs nm p))) as Hsz.
  { unfold one_archive. rewrite archive_bytes_length by done. destruct (pack_payload_ok rok E use_lzss raw junk Hj) as (p' & Hp' & _ & Hs & _).
    rewrite Hp in Hp'. injection Hp' as <-. cbn [data_bytes file_bytes one_item zi_is_dir]. rewrite app_nil_r, Hs. change (table_end _) with 164. lia. }
  assert (0 ∉ nm) as H0 by apply Hflat.
  pose proof (one_built cs nm raw use_lzss p Hj Hflat H0 Hp ltac:(lia)) as B. destruct (built_archive _ _ _ _ _ _ B) as (Ha & Hr & _).
  fold (one_archive cs nm p) in Ha, Hr. unfold zip_store. rewrite (rm_alloc _ HE). cbn [negb].
  change (u32 (MPKG_HEADER_SIZE + Z.of_nat (length [one_item cs nm]) * MPKG_ENTRY_SIZE)) with (table_end [one_item cs nm]).
  rewrite (bt_offsets _ _ _ _ _ _ B), (rm_alloc _ HE). cbn [negb]. rewrite (bind_lift _ _ s _ Ha), Hr.
  destruct (write_segments_ok E HE dn dev dirs s (drive_path (path_of (cs ++ [mpkg_name nm]))) (path_of (cs ++ [mpkg_name nm])) (path_of cs) (mpkg_name nm) d
    (Some (one_archive cs nm p)) (Z.of_nat (length (one_archive cs nm p))) (one_archive cs nm p) None 0 [] (Some BINARY) (Some MPKG)) as (r & s' & E1 & Hput); try done.
  - apply names_path; [done|done|]. by eapply local_short.
  - by split; [|left].
  - by split; [|right].
  - exists r, s'. split; [exact E1|]. by rewrite app_nil_r in Hput.
Qed.

(** What packing the file [nm] of the folder [d] needs: a name with room for
    the ending, an archive that can be stored. *)
Record packable (cs : list (list Z)) (d : minimafs_folder_desc) (nm raw : list Z) (use_lzss : bool) : Prop := {
  pk_name : flat_name nm ∧ component (mpkg_name nm) ∧ plain_name (mpkg_name nm);
  pk_path : (length (drive_path (path_of (cs ++ [mpkg_name nm]))) < 256)%nat;
  pk_room : roomy_folder d ∧ file_named (mpkg_name nm) d;
  pk_archive : ∀ p, pack_payload rok E use_lzss raw = Ret p → Z.of_nat (length (one_archive cs nm p)) < 4294950000 ∧
    storable (new_meta E (mpkg_name nm) BINARY MPKG (path_of cs)) (one_archive cs nm p)
}.

Lemma storable_seg_meta nm ft ff parent l d : storable (new_meta E nm ft ff parent) l → storable (seg_meta E nm ft ff parent d) l.
Proof. intros [H1 H2 H3 H4]. unfold seg_meta. destruct (_ ≫= _); by split. Qed.

Lemma zip_ok dirs s cs d nm raw use_lzss algorithm fuel out_size h : length junk = 4113%nat → volume dirs s → held dn dev dirs s cs nm raw →
  free_handle s h → folder_at dirs (root_of s) (path_of cs) = Some d → packable cs d nm raw use_lzss → zip_algorithm algorithm = Some use_lzss →
  ∃ r s' p, pkglib_zip rok fuel E (drive_path (path_of (cs ++ [nm]))) algorithm out_size s =
      Ret (if r : bool then (true, snprintf_text out_size (drive_path (path_of (cs ++ [mpkg_name nm])))) else (false, []), s') ∧
    pack_payload rok E use_lzss raw = Ret p ∧
    put_or_not dn dev dirs d (mpkg_name nm) (seg_meta E (mpkg_name nm) BINARY MPKG (path_of cs) d) (one_archive cs nm p) s r s'.
Proof.
  intros Hj Hv Hheld Hh Hd [(Hflat & Hc & Hpn) Hl [Hroom Hfile] Harch] Halg. pose proof Hflat as (Hcomp & _ & _).
  destruct (pack_payload_ok rok E use_lzss raw junk Hj) as (p & Hp & _). destruct (Harch p Hp) as [Hlen _].
  destruct (exists_ok dirs s cs nm raw Hv Hcomp Hheld) as [Hex Hnd].
  pose proof (path_local_length dn cs nm) as Hpl. pose proof (path_local_length dn cs (mpkg_name nm)) as Hpl2.
  unfold mpkg_name in Hpl2 at 2. rewrite length_app in Hpl2. change (length (txt ".mpkg")) with 5%nat in Hpl2.
  assert (length (drive_path (path_of (cs ++ [mpkg_name nm]))) < MINIMAFS_MAX_PATH)%nat as Hl2 by (unfold MINIMAFS_MAX_PATH; lia).
  destruct (zip_store_ok dirs s cs nm d raw use_lzss p) as (r & s' & E1 & Hput); try done.
  exists r, s', p. split; [|done]. unfold pkglib_zip. rewrite (bind_eq _ _ s _ s Hex). cbn [negb]. rewrite Halg.
  assert (zip_collect fuel E (drive_path (path_of (cs ++ [nm]))) s = Ret (Some [one_item cs nm], s)) as Hcol.
  { unfold zip_collect. rewrite (bind_eq _ _ s _ s Hnd). unfold mret, fsM_ret. do 2 f_equal. unfold pkg_zip_add_item.
    rewrite (proj2 (Nat.leb_gt _ _)) by lia. cbn [PKGLIB_ZIP_MAX_ITEMS length Nat.leb app]. rewrite basename_ok by done.
    rewrite !take_ge by (destruct Hcomp as (_ & _ & ?); lia). done. }
  rewrite (bind_eq _ _ s _ s Hcol). cbv beta iota. rewrite output_path_ok by done.
  rewrite (proj2 (Nat.leb_gt _ _)) by lia. rewrite !(rm_alloc _ HE). cbn [andb negb].
  rewrite (bind_eq _ _ s _ s (read_item_ok dirs s cs nm raw use_lzss h p (one_item cs nm) Hv Hheld Hh eq_refl eq_refl Hp)). cbv beta iota.
  rewrite (bind_eq _ _ s _ _ E1). by destruct r.
Qed.

(** ** Packing and unpacking *)

Lemma put_held dirs s s' cs d nm m0 l e m : volume dirs s → folder_at dirs (root_of s) (path_of cs) = Some d → file_named nm d → component nm →
  (length (drive_path (path_of (cs ++ [nm]))) < MINIMAFS_MAX_PATH)%nat → e_name e = take 63 nm →
  file_put dn dev dirs d nm m0 l e m s s' → storable m0 l → fresh_meta E m0 → Z.of_nat (length l) < 4294950000 →
  ∃ i, holds dn dev (<[f_block_offset d := put_entry nm e d]> dirs) s' (drive_path (path_of (cs ++ [nm]))) (path_of (cs ++ [nm])) (path_of cs) nm
    (put_entry nm e d) i e m l.
Proof.
  intros Hv Hd Hfile Hc Hl He Hput Hst Hfm Hlen. eapply (put_holds E HE); try done; [|apply Hc].
  apply names_path; [done|done|]. by eapply local_short.
Qed.

Lemma unpacked_one cs dirs s nm raw rs dirs' s' : unpacked dn dev cs dirs s [(nm, raw)] rs dirs' s' →
  ∃ ok, rs = [ok] ∧ volume dirs' s' ∧ if ok : bool then held dn dev dirs' s' cs nm raw else no_run dn (blocks_wanted (Z.of_nat (length raw))) s.
Proof.
  intros [Htr Hv _ _ Hall]. inversion Htr as [|? ? ? ? ? ? ? rs' ? ? Hv1 Hh1 Hrest|? ? ? ? ? ? rs' ? ? Hv1 Hno Hrest]; subst; inversion Hrest; subst.
  - exists true. split; [done|]. split; [done|]. by apply (Hall 0%nat).
  - by exists false.
Qed.

Lemma zip_unzip_ok dirs s cs d nm raw use_lzss algorithm fuel out_size h cs2 d2 : length junk = 4113%nat → volume dirs s →
  held dn dev dirs s cs nm raw → free_handle s h → folder_at dirs (root_of s) (path_of cs) = Some d → packable cs d nm raw use_lzss →
  zip_algorithm algorithm = Some use_lzss →
  dir_chain dirs (root_of s) cs2 → folder_at dirs (root_of s) (path_of cs2) = Some d2 →
  (length (path_of cs2) < MINIMAFS_MAX_PATH)%nat → room_for 2 d2 → fits E dn cs2 d2 [(nm, raw)] →
  ∃ r s1, pkglib_zip rok fuel E (drive_path (path_of (cs ++ [nm]))) algorithm out_size s =
      Ret (if r : bool then (true, snprintf_text out_size (drive_path (path_of (cs ++ [mpkg_name nm])))) else (false, []), s1) ∧
    if r then ∃ ok dirs2 s2,
      pkglib_unzip junk E (drive_path (path_of (cs ++ [mpkg_name nm]))) (drive_path (path_of cs2)) s1 =
        Ret ((true, count true [ok], count false [ok]), s2) ∧ volume dirs2 s2 ∧
      if ok : bool then held dn dev dirs2 s2 cs2 nm raw else no_run dn (blocks_wanted (Z.of_nat (length raw))) s1
    else ∃ p, pack_payload rok E use_lzss raw = Ret p ∧ no_run dn (blocks_wanted (Z.of_nat (length (one_archive cs nm p)))) s.
Proof.
  intros Hj Hv Hheld Hh Hd Hpk Halg Hc2 Hd2 Hl2 Hroom2 [Hnd2 Hfits2].
  destruct (zip_ok dirs s cs d nm raw use_lzss algorithm fuel out_size h) as (r & s1 & p & E1 & Hp & Hput); try done.
  exists r, s1. split; [exact E1|]. destruct r; [|exists p; split; [done|]; apply Hput].
  destruct Hput as (e & m & He & Hput). pose proof Hpk as [(Hflat & Hcm & Hpn) Hl [Hroom Hfile] Harch]. destruct (Harch p Hp) as [Hlen Hst].
  assert (length (drive_path (path_of (cs ++ [mpkg_name nm]))) < MINIMAFS_MAX_PATH)%nat as Hl3 by (unfold MINIMAFS_MAX_PATH; lia).
  destruct (put_held dirs s s1 cs d (mpkg_name nm) _ _ e m Hv Hd Hfile Hcm Hl3 He Hput) as [i Hho];
    [by apply storable_seg_meta|apply seg_meta_fresh, HE|done|].
  pose proof Hput as [[Hdir _] _ _ Hv1 _ Hm]. pose proof (v_dirs _ _ _ _ Hv) as Hok. pose proof (folder_listed dn dev _ _ _ _ Hv Hd) as Hb.
  rewrite take_ge in He by (destruct Hcm as (_ & _ & ?); lia).
  set (dirs1 := <[f_block_offset d := put_entry (mpkg_name nm) e d]> dirs) in *.
  assert (∃ d3, folder_at dirs1 (root_of s1) (path_of cs2) = Some d3 ∧ room_for 1 d3 ∧ fits E dn cs2 d3 [(nm, raw)]) as (d3 & Hd3 & Hroom3 & Hfits3).
  { rewrite (mv_root _ _ _ _ _ Hm). unfold dirs1.
    destruct (folder_at_beside dirs _ _ (path_of cs2) d (mpkg_name nm) e d2 Hok Hb Hdir Hfile Hd2) as [-> Heq].
    eexists. split; [done|]. destruct (decide _) as [Hblk|]; [|split; [unfold room_for in *; lia|done]]. specialize (Heq Hblk) as ->.
    split; [by apply put_entry_room|]. split; [done|]. eapply Forall_impl; [exact Hfits2|]. intros f (? & ? & ? & ?).
    split_and!; try done. by apply file_named_put. }
  assert (0 ∉ nm) as H0 by apply Hflat.
  assert (zp_size p < 4294967000) as Hsz.
  { destruct (pack_payload_ok rok E use_lzss raw junk Hj) as (p' & Hp' & _ & Hs & _). rewrite Hp in Hp'. injection Hp' as <-.
    unfold one_archive in Hlen. rewrite archive_bytes_length in Hlen by done. cbn [data_bytes file_bytes one_item zi_is_dir] in Hlen.
    rewrite app_nil_r in Hlen. change (table_end _) with 164 in Hlen. lia. }
  destruct (unzip_ok E HE dn dev Hdn junk [one_item cs nm] [raw] [p] [164] (164 + zp_size p) dirs1 s1 _ _ _ _ _ i e m h cs2 d3
    (one_built cs nm raw use_lzss p Hj Hflat H0 Hp Hsz) ltac:(by repeat constructor) Hv1 Hho) as (rs & dirs2 & s2 & E2 & Hun); try done.
  - unfold free_handle. by rewrite (mv_handles _ _ _ _ _ Hm).
  - rewrite (mv_root _ _ _ _ _ Hm). by eapply chain_beside.
  - destruct (unpacked_one _ _ _ _ _ _ _ _ Hun) as (ok & -> & Hv2 & Hres). by exists ok, dirs2, s2.
Qed.
(** C12. Packing a file and unpacking the archive gives the file back. On a
    sound volume, with a heap that grants every request and a free handle, the
    file's name leaves room for ".mpkg" in 63 plain characters and in a path
    below 256, its folder has room for the archive's entry, and the archive
    can be stored ([packable]: below 4 GiB, no header tag in it); then
    [pkglib_zip] of the file, compressed or stored, returns, and unless there
    was no free run for the archive it reports the archive's path.
    [pkglib_unzip] of that path into any directory with room for two entries
    in which the file can be written ([fits]: no directory has its name, its
    contents are storable, the path is short enough), the file's own folder
    included, returns too; unless there was no run for the file it counts one
    file installed and the directory then holds it with the contents that were
    packed. *)
Theorem zip_unzip dirs s cs d nm raw use_lzss algorithm fuel out_size h cs2 d2 : length junk = 4113%nat → volume dirs s →
  held dn dev dirs s cs nm raw → free_handle s h → folder_at dirs (root_of s) (path_of cs) = Some d → packable cs d nm raw use_lzss →
  zip_algorithm algorithm = Some use_lzss →
  dir_chain dirs (root_of s) cs2 → folder_at dirs (root_of s) (path_of cs2) = Some d2 →
  (length (path_of cs2) < MINIMAFS_MAX_PATH)%nat → room_for 2 d2 → fits E dn cs2 d2 [(nm, raw)] →
  ∃ r s1, pkglib_zip rok fuel E (drive_path (path_of (cs ++ [nm]))) algorithm out_size s =
      Ret (if r : bool then (true, snprintf_text out_size (drive_path (path_of (cs ++ [mpkg_name nm])))) else (false, []), s1) ∧
    if r then ∃ ok dirs2 s2,
      pkglib_unzip junk E (drive_path (path_of (cs ++ [mpkg_name nm]))) (drive_path (path_of cs2)) s1 =
        Ret ((true, count true [ok], count false [ok]), s2) ∧ volume dirs2 s2 ∧
      if ok : bool then held dn dev dirs2 s2 cs2 nm raw else no_run dn (blocks_wanted (Z.of_nat (length raw))) s1
    else ∃ p, pack_payload rok E use_lzss raw = Ret p ∧ no_run dn (blocks_wanted (Z.of_nat (length (one_archive cs nm p)))) s.
Proof. apply zip_unzip_ok. Qed.

(** ** A trailing slash *)

(** The directory of a source path with a trailing slash is not recognised:
    the path is taken for a file of the empty name, and packing fails. *)
Lemma zip_trailing_slash dirs s cs d fuel algorithm use_lzss out_size : volume dirs s → cs ≠ [] →
  folder_at dirs (root_of s) (path_of cs) = Some d → find_entry (entries d) [] = None →
  (length (drive_path (path_of cs ++ [47%Z])) < 256)%nat → zip_algorithm algorithm = Some use_lzss →
  pkglib_zip rok fuel E (drive_path (path_of cs ++ [47])) algorithm out_size s = Ret ((false, []), s).
Proof.
  intros Hv Hne Hd Hf Hl Halg. set (local := path_of cs ++ [47]) in *.
  assert (length local < MINIMAFS_MAX_PATH)%nat as Hll.
  { unfold pkgfile.drive_path in Hl. rewrite length_app in Hl. simpl in Hl. unfold MINIMAFS_MAX_PATH. lia. }
  assert (minimafs_split_local_path local = Ret (path_of cs, [])) as Hsplit.
  { apply split_local_path_spec; [apply not_elem_of_nil|unfold MINIMAFS_MAX_FILENAME; simpl; lia|]. unfold local in Hll. rewrite length_app in Hll. lia. }
  assert (is_root local = false) as Hroot 
    by (apply not_is_root; intros Hx; apply (f_equal length) in Hx; unfold local in Hx; rewrite length_app in Hx;
        (destruct cs as [|c cs]; [done|]); change (path_of (c :: cs)) with ((47 :: c) ++ path_of cs) in Hx; simpl in Hx; lia).
  pose proof (resolve_drive_ok dn dev Hdn local dirs s Hll Hv) as Hres.
  unfold pkglib_zip, minimafs_exists. rewrite (bind_eq _ _ s true s); [|rewrite (bind_eq _ _ s _ s Hres); by rewrite (bind_lift _ _ s _ Hsplit)].
  cbn [negb]. rewrite Halg. set (it := mk_item [] (drive_path local) false).
  assert (zip_collect fuel E (drive_path local) s = Ret (Some [it], s)) as Hcol.
  { unfold zip_collect, minimafs_is_dir. rewrite (bind_eq _ _ s false s).
    - unfold mret, fsM_ret, pkg_zip_add_item. rewrite (proj2 (Nat.leb_gt _ _)) by lia. cbn [PKGLIB_ZIP_MAX_ITEMS length Nat.leb app].
      rewrite (take_ge (drive_path local)) by lia. unfold it. do 5 f_equal.
      unfold pkg_basename, local, pkgfile.drive_path. rewrite app_comm_cons, app_assoc, rchr_last by apply not_elem_of_nil.
      rewrite drop_ge; [done|]. rewrite length_app. simpl. lia.
    - rewrite (bind_eq _ _ s _ s Hres). cbv beta iota. rewrite Hroot. rewrite (bind_lift _ _ s _ Hsplit). cbv beta iota.
      rewrite (open_parent E HE dn dev _ _ dirs s (path_of cs) d Hv Hd). by rewrite Hf. }
  rewrite (bind_eq _ _ s _ s Hcol). cbv beta iota. rewrite !(rm_alloc _ HE). cbn [andb negb].
  destruct (MINIMAFS_MAX_PATH <=? _)%nat; [done|]. rewrite (bind_eq _ _ s None s); [done|].
  cbn [zip_read_items]. rewrite (bind_eq _ _ s None s); [done|]. unfold zip_read_item. cbn [zi_is_dir zi_full_path it].
  rewrite (bind_eq _ _ s None s); [done|]. unfold minimafs_open. rewrite (bind_eq _ _ s _ s Hres). cbv beta iota.
  rewrite (bind_lift _ _ s _ Hsplit). cbv beta iota. rewrite (open_parent E HE dn dev _ _ dirs s (path_of cs) d Hv Hd). by rewrite Hf.
Qed.

End zip.

(** The check of [pkg_extract_entry] for a path that is too long compares the
    length of the text already cut: it never fires. *)
Lemma path_check_never_fires text : text ≠ [] → let full_path := snprintf_text MINIMAFS_MAX_PATH text in
  (length full_path =? 0)%nat || (MINIMAFS_MAX_PATH <=? length full_path)%nat = false.
Proof.
  intros Hne. unfold snprintf_text, MINIMAFS_MAX_PATH. cbv zeta. rewrite orb_false_iff, Nat.eqb_neq, Nat.leb_gt, length_take.
  destruct text; [done|cbn [length]; lia].
Qed.

Lemma demo_packable e : is_dir e = false → packable demo_env 0 (λ _, true) [] (put_entry [97] e (root_folder 1)) (txt "a") demo_data true.
Proof.
  intros He. split.
  - split; [split; [split_and!; by_check|split; [split_and!; by_check|vm_compute; reflexivity]]|split; split_and!; by_check].
  - vm_compute. lia.
  - split; [unfold roomy_folder; simpl; lia|]. by apply demo_named.
  - intros p Hp. vm_compute in Hp. injection Hp as <-. split; [vm_compute; reflexivity|].
    apply demo_storable_small; [reflexivity|done|vm_compute; lia|vm_compute; reflexivity|by right].
Qed.

Lemma zip_unzip_witness : ∃ s r s1, pkglib_zip (λ _, true) 17 demo_env (txt "0:/a") None 64 s = Ret (if r : bool then (true, txt "0:/a.mpkg") else (false, []), s1) ∧
  (r = true → ∃ ok dirs2 s2, pkglib_unzip (replicate 4113 0) demo_env (txt "0:/a.mpkg") (txt "0:") s1 = Ret ((true, count true [ok], count false [ok]), s2) ∧
    volume 0 0 dirs2 s2).
Proof.
  destruct (demo_one demo_data) as (s & e & m & i & Hv & Hdir & Hr & Hh & Hd & Hho).
  { apply (demo_storable_small (txt "a") demo_data []); [reflexivity|done|vm_compute; lia|vm_compute; reflexivity|by left]. }
  { vm_compute. discriminate. } { vm_compute. reflexivity. }
  destruct (zip_unzip demo_env demo_roomy 0 0 ltac:(unfold MAX_DRIVES; lia) (λ _, true) (replicate 4113 0) _ s [] (put_entry [97] e (root_folder 1)) (txt "a") demo_data true None 17 64 0 []
    (put_entry [97] e (root_folder 1)) (length_replicate _ _) Hv (ex_intro _ _ (ex_intro _ _ (ex_intro _ _ (ex_intro _ _ Hho)))) Hh)
    as (r & s1 & E1 & Hres).
  - rewrite Hr. exact Hd.
  - by apply demo_packable.
  - done.
  - by intros [].
  - rewrite Hr. exact Hd.
  - vm_compute. lia.
  - unfold room_for. simpl. lia.
  - split; [by_check|]. constructor; [|constructor]. apply demo_file_fits; [exact Hdir|auto|vm_compute; lia|vm_compute; reflexivity].
  - exists s, r, s1. split; [exact E1|]. intros ->. destruct Hres as (ok & dirs2 & s2 & E2 & Hv2 & _). exists ok, dirs2, s2. exact (conj E2 Hv2).
Defined.

(** A root directory with a directory "loop" in it that is the root again. *)
Definition loop_folder : minimafs_folder_desc := mk_folder [47] 1 [mk_entry (txt "loop") MINIMAFS_TYPE_DIR 1 1 false].

Lemma demo_loop : ∃ s, mounted_on 0 0 s ∧ root_of 0 s = 1 ∧
  minimafs_read_folder_desc_block demo_env 0 1 s = Ret (Some loop_folder, s).
Proof.
  destruct demo_mounted as (s & Hv & Hr & _). pose proof (fr_dev _ _ _ (v_frame _ _ _ _ Hv)) as Hod.
  destruct (folder_text loop_folder) as [t|] eqn:Ht; [|by vm_compute in Ht].
  assert (folder_ok loop_folder) as Hok.
  { split; [split_and!; apply (bool_decide_unpack _); by vm_compute| |vm_compute; lia]. apply Forall_singleton.
    split; [|by right|by split]; split_and!; apply (bool_decide_unpack _); by vm_compute. }
  destruct (folder_block_ok loop_folder t Hok Ht) as (raw & _ & Hlen & Hparse).
  destruct (dirs_ok_block _ _ _ 1 (root_folder 1) (v_dirs _ _ _ _ Hv)) as (Hin & _); [done|].
  apply (do_range _ _ _ (v_dirs _ _ _ _ Hv)) in Hin.
  destruct (write_blocks_ok 0 0 _ demo_env s 1 1 raw Hod) as (s' & _ & Hw); [lia..|].
  assert (on_device 0 0 (extent.total_blocks (the_alloc 0 s)) s') as Hod'.
  { rewrite (wr_frame _ _ _ _ _ _ Hw). apply od_frame; [done|apply Hw..]. }
  assert (mounted (the_drive 0 s') = true ∧ root_of 0 s' = 1) as [Hm' Hr'].
  { rewrite (wr_frame _ _ _ _ _ _ Hw). split; [apply (v_mounted _ _ _ _ Hv)|exact Hr]. }
  exists s'. split; [split; [by eexists|done]|]. split; [done|]. unfold minimafs_read_folder_desc_block.
  rewrite (bind_eq _ _ s' _ s' (read_blocks_ok 0 0 _ demo_env s' 1 1 Hod' ltac:(lia) ltac:(lia) ltac:(lia))).
  erewrite written_same by (exact Hw || done || lia). by rewrite (bind_lift _ _ s' _ Hparse).
Qed.

Lemma walk_terminates_witness : ∃ s r, root_of 0 s = 1 ∧
  minimafs_read_folder_desc_block demo_env 0 1 s = Ret (Some loop_folder, s) ∧
  ∀ fuel, (17 ≤ fuel)%nat → pkg_zip_collect_dir fuel demo_env (txt "0:/") [] [] s = Ret (r, s).
Proof.
  destruct demo_loop as (s & Hm & Hr & Hd). exists s.
  destruct (walk_terminates demo_env 0 0 ltac:(unfold MAX_DRIVES; lia) s [47] Hm) as (r & _ & Hw); [vm_compute; lia|].
  exists r. split_and!; [done|done|]. exact Hw.
Defined.
End pkgzip.
